(* ===== verification/_CoqProject ===== *)
-Q . S2P
Prelude.v
CString.v
Utf8.v
TimeConvert.v
Clock.v
ConfigParser.v
Heap.v
Pmm.v
Checksum.v
NetConfig.v
NetDevice.v
Ethernet.v
Arp.v
Ipv4.v
Icmp.v
TcpWire.v
Tcp.v
TcpProofs.v
Udp.v
Dns.v
Http.v
Inet.v
Handles.v
IpcQueue.v
Ipc.v
IpcProofs.v
SchedState.v
Scheduler.v
SchedLinks.v
SchedulerProofs.v
SchedulerSteps.v
SchedulerOps.v
SchedulerTime.v
SchedulerRun.v
SchedulerLife.v
SchedulerBoot.v
SchedulerSafety.v
SchedulerTheorems.v
SchedulerFrame.v
Mutex.v
MutexProofs.v
MutexSafety.v
MutexTheorems.v
Vmm.v
VmmTree.v
VmmInv.v
VmmProofs.v
VmmValid.v
VmmUser.v
VmmTlb.v
VmmPages.v
VmmKernel.v
VmmSpaces.v
VmmQueries.v
VmmSystem.v
VmmTheorems.v
Password.v
Accounts.v
AccountsProofs.v
Identity.v
Pass.v
AccountOps.v
AccountStorage.v
AccountTheorems.v
BlockGate.v
GptTable.v
GptPlan.v
Gpt.v
GptTheorems.v
