(* ===== verification/Prelude.v ===== *)
(** * Mangrove: a verification of the core of the kernel

    Mangrove is an x86-64 operating system in C: a kernel ([src/kernel]) with
    memory management, objects and handles, IPC, an IPv4 network stack, file
    systems and drivers; a C library ([src/libc]) shared with userspace; and
    services and programs ([src/userspace]).  This library models the parts that
    carry the kernel's own logic as executable functions and proves them
    correct.  Drivers and other hardware programming are outside it; where a
    modelled function meets the hardware, what the device answers is an argument.

    ** Conventions

    A [w]-bit unsigned integer is a [Z] and every C conversion that can wrap is
    written ([u8] ... [u64] below; [i32], [i64] for two's complement).  Buffers
    are lists of byte values.  A pointer that may be [NULL] is an option, or an
    address with 0 for [NULL] where the code stores it.  An answer [None] of an
    operation that reads memory is a fault (a read outside a buffer, a wild
    dereference, an explicit panic), so that theorems which exhibit [Some] also
    say that the code stays inside its memory.  Structures that several parties
    mutate are kept in a store keyed by address.  Code under a spinlock with
    interrupts off is one step; where the code drops a lock in the middle of an
    operation the sections are separate definitions.  Loops whose recursion is
    not structural take fuel; each file says why its bound is enough, and the
    theorems on such functions conclude that a result is reached.

    ** Files and what they model

    - [Prelude]: machine integers, tactics and generic lemmas.
    - [CString]: [libc/src/string.c].
    - [Utf8]: [kernel/src/utf8.c], against the Unicode encoding form.
    - [TimeConvert], [Clock]: [libc/src/time_convert.c]; [rtc_decode.c], [rtc.c]
      and [timekeeping.c] of the kernel, over an arbitrary CMOS device.
    - [ConfigParser]: [kernel/src/config_parser.c].
    - [Heap]: [kernel/src/heap.c] ([kmalloc]/[kfree]) on its doubly linked block
      headers; the page allocator it grows from is the class [PageProvider].
    - [Pmm]: [kernel/src/pmm.c], the physical frame bitmap, and
      [address_space.c]; [Pmm] discharges [PageProvider]'s frame side.
    - [Checksum], [NetConfig], [NetDevice], [Ethernet], [Arp], [Ipv4], [Icmp],
      [Udp], [Inet]: the files of the same names under [kernel/src/net] (and
      [net.c], [config.c]); [Inet] composes their receive and transmit paths.
    - [TcpWire], [Tcp], [TcpProofs]: [net/tcp_wire.c] and [net/tcp.c].  A blocking
      call takes the list of its suspensions: the time, the segments that
      arrived and what else the kernel did to the stack meanwhile.
    - [Dns], [Http]: [net/dns_wire.c], [net/dns.c]; the parsers and the request
      builder of [net/http_wire.c] and [net/http.c].
    - [Handles]: reference counts of [object.c] and the handle tables of
      [process.c].
    - [IpcQueue], [Ipc], [IpcProofs]: [kernel/src/ipc.c]: the endpoint ring
      buffer, the operations, and the invariant of the request pool.
    - [SchedState], [Scheduler]: the records of [scheduler.h] and [cpu.h] and the
      whole of [kernel/src/scheduler.c] over linked queues in a thread store.
      [SchedLinks] relates the links to sequences; [SchedulerProofs] has the
      invariant [good]; [SchedulerSteps] dispatching, [SchedulerOps] blocking and
      the two halves of a context switch, [SchedulerTime] ticks, waking and
      aging, [SchedulerRun] preemption and system calls, [SchedulerLife] creation
      and destruction, [SchedulerBoot] the start; [SchedulerSafety] the step
      relation [reachable] over all CPUs; [SchedulerTheorems] what follows.
    - [SchedulerFrame]: what every operation of the scheduler leaves alone, as
      one walk over its code with a predicate on single threads.
    - [Mutex]: [kernel/src/mutex.c] over the scheduler; [MutexProofs] its queue
      and invariant, [MutexSafety] the operations, [MutexTheorems] the system of
      threads in any interleaving and what it guarantees.
    - [Vmm]: the whole of [kernel/src/vmm.c]: page tables in physical memory, the
      records of the address spaces, the CPUs with their loaded roots and TLBs,
      and the walk of the hardware.  The frame allocator is the class
      [FrameAllocator]; the answers of [kmalloc] and [mutex_lock] and what other
      CPUs do during a sleep are arguments; loading CR3 empties the TLB, since
      the kernel does not enable global pages.  [VmmTree] page tables as trees of
      frames; [VmmInv] who owns which frame, and the invariant [inv];
      [VmmProofs], [VmmUser], [VmmPages] pages of a process; [VmmValid] the
      kernel's own validation; [VmmTlb] masks and shootdown; [VmmKernel] pages of
      the kernel; [VmmSpaces] creation, destruction and switching; [VmmQueries]
      the software walks; [VmmSystem] the allocator of [Pmm] as an instance, boot
      and the step relation of all CPUs; [VmmTheorems] what follows.
    - [Password]: [kernel/src/password.c] and [entropy.c], against FIPS 180-4,
      RFC 2104 and RFC 8018; the random number instructions are an argument.
    - [Accounts]: data, validation, parser and printer of the account database of
      [kernel/src/identity.c]; [AccountsProofs] that they are inverse.
      [Identity]: the registry slots, lookups, authority and authentication of
      the same file.  [Pass]: the whole of [kernel/src/pass.c] over [Identity],
      [ConfigParser] and [Ipc].  [AccountOps]: storing, loading and the account
      operations, over the class [Vfs] of file operations; a [run] keeps all
      states of the disk.  [AccountStorage] states the laws of the VFS that are
      used, the class [VfsLaws], and what storing leaves at every moment;
      [AccountTheorems] the operations in any sequence, and an instance of the
      laws in memory.
    - [BlockGate]: the I/O gate of [kernel/src/block.c], with the look at the
      gate and its update as separate steps of threads on any number of CPUs.
    - [GptTable]: formats, checksum, validation and planner of
      [kernel/src/storage/gpt.c]; [GptPlan] what the planner finds.  [Gpt]: the
      loader and the update of both copies of the table, over the class [BlockIo]
      of calls of the block layer; [GptTheorems] states the laws of a disk, the
      class [DiskLaws], with an instance in memory, and what is loaded, read back
      and lost.  The fuel of the planner's walk is one more than the number of
      entries: each round but the last passes one.

    ** What the theorems show

    - Memory: the heap's block list is intact, coalesced and holds exactly the
      live allocations after any sequence of calls; [kmalloc] always returns;
      frames are handed out zeroed and once, with exact counters.
    - Objects and IPC: every object is counted exactly and freed exactly when
      unreferenced; a handle carries exactly the rights granted; request slots
      never leak; a reply reaches the client that asked, unchanged.
    - Network: nothing a frame contains makes the receive path read outside it;
      a datagram sent by one host is delivered unchanged by another; ARP, ICMP,
      IPv4 and UDP round trips; the device registry and the DHCP lease timers
      keep their invariants.
    - Transport: a TCP connection keeps its invariant, delivers a prefix of the
      stream the peer sent, retransmits and then gives up; the calls return.
      DNS and HTTP parsing is total, in bounds, and independent of how the bytes
      are cut into segments.
    - Scheduling: in every state that the CPUs reach in any interleaving, the
      scheduler's own validation succeeds and no operation fails or panics;
      threads are selected by priority and in order of arrival, sleepers wake on
      their tick and nobody waits for ever behind a lower priority.  The
      invariant takes the two calls of one assembly switch as one step; the
      state between them is the subject of [switch_publishes_live_stack].
    - Mutexes: mutual exclusion and hand-over in order of arrival in every
      interleaving, no waiter forgotten if the hand-over is not interleaved with
      the waiter's own block, and the lost wake-up if it is.
    - Virtual memory: in every reachable interleaving a process can access only
      frames that are allocated and mapped by it alone, never a page table and
      never a frame that a caller holds; mapping and unmapping change exactly one
      translation and leave no stale one on any CPU; kernel mappings are the same
      in every space; destruction frees exactly what the space owned; the check
      of user ranges agrees with the hardware walk (and, as stated, ignores that
      the hardware rejects non-canonical addresses).  The step relation starts
      after the start-up page of the other CPUs is gone.
    - Accounts: the hash functions are the standard ones; the database is read
      back as written and every accepted file is a valid registry; login,
      privileges and authorization are decided exactly as specified; operations
      have their effect or none, keep the registry valid and never lose the last
      administrator; storing is safe against failures, with a window in which a
      crash leaves only the backup.
    - Block layer: on one CPU the I/O gate is exclusive and forgets no sleeper;
      on two CPUs it is not exclusive, and a killed holder keeps it.
    - Partition tables: an accepted table is sound, plans are free, aligned and
      the best ones, an update is read back, and an interrupted one is not.
    - Text and time: parsers terminate within their tables and read back what
      is printed; calendar conversions are mutually inverse.

    Theorems that exhibit a defect state it as the code behaves.

    ** Not modelled

    Drivers (AHCI, USB, PCI, network cards), interrupt and CPU set-up, ACPI and
    AML, console and framebuffer output, system-call argument copying, and
    userspace: they are hardware programming or thin layers over the modelled
    operations.  Of the scheduler: the switch of the address space and of the FPU
    state, and the time accounted to processes; CPUs are marked online by
    [scheduler_start_cpu].  Of the block layer: the device registry and the read
    cache, and publishing partitions as devices.  The file systems, the VFS (an
    interface of [AccountOps]) and the loader of executables are not modelled. *)
From Stdlib Require Export ZArith Lia Bool ZifyBool.
From stdpp Require Export base numbers list option.
Export stdpp.list_basics.list stdpp.list_relations.list stdpp.list_monad.list
  stdpp.list_misc.list stdpp.list_numbers.list.

#[export] Set Default Goal Selector "!".

Declare Scope mangrove_scope.
Delimit Scope mangrove_scope with mg.
Global Open Scope Z_scope.
Global Open Scope mangrove_scope.

(** * Machine integers *)

(** The unsigned conversions of [include/types.h]: a C cast to an unsigned
    type of [w] bits reduces the value modulo [2^w]. *)
Definition u8 (x : Z) : Z := x mod 256.
Definition u16 (x : Z) : Z := x mod 65536.
Definition u32 (x : Z) : Z := x mod 4294967296.
Definition u64 (x : Z) : Z := x mod 18446744073709551616.

(** The signed conversions are two's complement. *)
Definition i32 (x : Z) : Z := (x + 2147483648) mod 4294967296 - 2147483648.
Definition i64 (x : Z) : Z :=
  (x + 9223372036854775808) mod 18446744073709551616 - 9223372036854775808.

Definition U8_MAX : Z := 255.
Definition U16_MAX : Z := 65535.
Definition U32_MAX : Z := 4294967295.
Definition U64_MAX : Z := 18446744073709551615.
Definition I64_MAX : Z := 9223372036854775807.
Definition I64_MIN : Z := -9223372036854775808.

Definition is_u8 (x : Z) : Prop := 0 <= x < 256.
Definition is_u16 (x : Z) : Prop := 0 <= x < 65536.
Definition is_u32 (x : Z) : Prop := 0 <= x < 4294967296.
Definition is_u64 (x : Z) : Prop := 0 <= x < 18446744073709551616.
Definition is_i32 (x : Z) : Prop := -2147483648 <= x < 2147483648.
Definition is_i64 (x : Z) : Prop :=
  -9223372036854775808 <= x < 9223372036854775808.

#[export] Instance is_u8_dec x : Decision (is_u8 x) := _.
#[export] Instance is_u16_dec x : Decision (is_u16 x) := _.
#[export] Instance is_u32_dec x : Decision (is_u32 x) := _.
#[export] Instance is_u64_dec x : Decision (is_u64 x) := _.
#[export] Instance is_i32_dec x : Decision (is_i32 x) := _.
#[export] Instance is_i64_dec x : Decision (is_i64 x) := _.

(** Expose the conversions and range predicates to [lia]. *)
Ltac unfold_mach :=
  unfold is_u8, is_u16, is_u32, is_u64, is_i32, is_i64,
    u8, u16, u32, u64, i32, i64, U8_MAX, U16_MAX, U32_MAX, U64_MAX,
    I64_MAX, I64_MIN in *.
Ltac mach := unfold_mach; Z.div_mod_to_equations; lia.

(** Automation database of the development: range facts of conversions. *)
Create HintDb mangrove discriminated.

Lemma u8_range x : is_u8 (u8 x).
Proof. mach. Qed.
Lemma u16_range x : is_u16 (u16 x).
Proof. mach. Qed.
Lemma u32_range x : is_u32 (u32 x).
Proof. mach. Qed.
Lemma u64_range x : is_u64 (u64 x).
Proof. mach. Qed.

Lemma u8_id x : is_u8 x -> u8 x = x.
Proof. apply Z.mod_small. Qed.
Lemma u16_id x : is_u16 x -> u16 x = x.
Proof. apply Z.mod_small. Qed.
Lemma u32_id x : is_u32 x -> u32 x = x.
Proof. apply Z.mod_small. Qed.
Lemma u64_id x : is_u64 x -> u64 x = x.
Proof. apply Z.mod_small. Qed.

#[export] Hint Resolve u8_range u16_range u32_range u64_range : mangrove.

(** Masks by [2^n - 1] are remainders. *)
Lemma land_low_mask b n : 0 <= n -> Z.land b (Z.ones n) = b mod 2 ^ n.
Proof. apply Z.land_ones. Qed.

(** Masking a nonnegative value does not increase it. *)
Lemma land_le_l a b : 0 <= a -> 0 <= Z.land a b <= a.
Proof.
  intros Ha. split; [by apply Z.land_nonneg; left|].
  assert (Z.ldiff (Z.land a b) a = 0) as Hd.
  { apply Z.bits_inj_0. intros n. rewrite Z.ldiff_spec, Z.land_spec.
    by destruct (Z.testbit a n), (Z.testbit b n). }
  apply Z.sub_nocarry_ldiff in Hd.
  assert (0 <= Z.ldiff a (Z.land a b)) by (apply Z.ldiff_nonneg; by left). lia.
Qed.

(** Clearing the four low bits of a 64-bit word. *)
Lemma land_clear_low4 x : 0 <= x < 2 ^ 64 -> Z.land x (U64_MAX - 15) = x / 16 * 16.
Proof.
  intros Hr. change (U64_MAX - 15) with (Z.shiftl (Z.ones 60) 4).
  replace (x / 16 * 16) with (Z.shiftl (Z.shiftr x 4) 4)
    by (rewrite Z.shiftl_mul_pow2, Z.shiftr_div_pow2 by lia; done).
  apply Z.bits_inj'. intros i Hi. rewrite Z.land_spec.
  destruct (decide (i < 4)); [by rewrite !Z.shiftl_spec_low, andb_false_r by lia|].
  rewrite !Z.shiftl_spec, Z.shiftr_spec by lia. replace (i - 4 + 4) with i by lia.
  destruct (decide (i < 64)).
  - by rewrite Z.ones_spec_low, andb_true_r by lia.
  - rewrite Z.ones_spec_high, andb_false_r by lia. symmetry.
    rewrite <- (Z.mod_small x (2 ^ 64)) by lia. by rewrite Z.mod_pow2_bits_high by lia.
Qed.


(** Joining a shifted high part and a low part is an addition. *)
Lemma lor_shiftl_add a b n :
  0 <= n -> 0 <= b < 2 ^ n -> Z.lor (Z.shiftl a n) b = a * 2 ^ n + b.
Proof.
  intros Hn Hb. assert (Z.land (Z.shiftl a n) b = 0) as H0.
  { apply Z.bits_inj_0. intros m. rewrite Z.land_spec.
    destruct (decide (m < n)) as [H|H].
    - by rewrite Z.shiftl_spec_low.
    - rewrite <- (Z.mod_small b (2 ^ n)), Z.mod_pow2_bits_high by lia.
      apply andb_false_r. }
  rewrite <- Z.add_nocarry_lor by done. by rewrite Z.shiftl_mul_pow2.
Qed.

(** * Exhaustive checking of byte predicates *)

(** A boolean property of a byte holds if it holds for the 256 byte values. *)
Lemma byte_forall (P : Z -> bool) :
  forallb P (seqZ 0 256) = true -> forall b, is_u8 b -> P b = true.
Proof.
  intros H b Hb. rewrite forallb_forall in H. apply H.
  apply list_elem_of_In, elem_of_seqZ. unfold is_u8 in Hb. lia.
Qed.

(** [by_bytes f g]: an equality between two functions of a byte, by
    evaluating both on every byte. *)
Lemma byte_fun_eq (f g : Z -> Z) :
  forallb (fun b => f b =? g b) (seqZ 0 256) = true ->
  forall b, is_u8 b -> f b = g b.
Proof.
  intros H b Hb. apply Z.eqb_eq.
  exact (byte_forall (fun b => f b =? g b) H b Hb).
Qed.

(** Prove a closed decidable proposition by evaluating its decision. *)
Ltac by_decision :=
  match goal with |- ?P => apply (bool_decide_eq_true_1 P); vm_compute; reflexivity end.

(** * Options *)

(** To show that a computation answers and what it answers, reason about the
    computation itself. *)
Lemma answers {A} (o : option A) (P : A -> Prop) :
  match o with Some r => P r | None => False end -> exists r, o = Some r /\ P r.
Proof. destruct o as [r|]; [|done]. by exists r. Qed.

(** * Sums over lists *)

Fixpoint sumZ {A} (f : A -> Z) (l : list A) : Z :=
  match l with [] => 0 | x :: l => f x + sumZ f l end.

Lemma sumZ_nonneg {A} (f : A -> Z) l : (forall x, 0 <= f x) -> 0 <= sumZ f l.
Proof. intros H. induction l as [|x l IH]; cbn; [lia|]. specialize (H x). lia. Qed.

Lemma sumZ_insert {A} (f : A -> Z) l i x y :
  l !! i = Some x -> sumZ f (<[i := y]> l) = sumZ f l - f x + f y.
Proof.
  revert i. induction l as [|z l IH]; intros [|i] Hi; [done|done| |].
  - injection Hi as ->. cbn. lia.
  - change (<[S i := y]> (z :: l)) with (z :: <[i := y]> l). cbn [sumZ]. rewrite (IH i Hi). lia.
Qed.

Lemma sumZ_lookup {A} (f : A -> Z) l i x :
  (forall x, 0 <= f x) -> l !! i = Some x -> f x <= sumZ f l.
Proof.
  intros Hf. revert i. induction l as [|z l IH]; intros [|i] Hi; cbn in *; [done|done| |].
  - injection Hi as ->. pose proof (sumZ_nonneg f l Hf). lia.
  - specialize (IH i Hi). specialize (Hf z). lia.
Qed.

Lemma sumZ_ext {A} (f g : A -> Z) l : (forall x, x ∈ l -> f x = g x) -> sumZ f l = sumZ g l.
Proof.
  induction l as [|x l IH]; intros H; cbn; [done|].
  rewrite (H x) by apply list_elem_of_here.
  rewrite IH; [done|]. intros y Hy. apply H. by apply list_elem_of_further.
Qed.

Lemma sumZ_zero {A} (f : A -> Z) l : (forall x, x ∈ l -> f x = 0) -> sumZ f l = 0.
Proof.
  intros H. rewrite (sumZ_ext f (fun _ => 0)) by done. clear. induction l; cbn; lia.
Qed.
