(* ===== verification/CString.v ===== *)
(** C string and memory primitives ([libc/src/string.c], linked into the
    kernel and into every program).

    A NUL-terminated string is the list of bytes before its terminator, every
    byte as its [unsigned char] value; a character array that receives a copy
    is the list of its cells.  The [mem*] functions act on one flat byte store,
    addressed by offset, so overlap is visible. *)
From S2P Require Import Prelude.

Module CString.

(** A string holds no terminator. *)
Definition c_string (s : list Z) : Prop := Forall (fun c => 0 < c < 256) s.

#[export] Instance c_string_dec s : Decision (c_string s) := _.

(** The string an array of cells holds: the cells before the first NUL. *)
Fixpoint c_str (cells : list Z) : list Z :=
  match cells with
  | [] => []
  | c :: cells => if decide (c = 0) then [] else c :: c_str cells
  end.

Definition strlen (str : list Z) : Z := Z.of_nat (length str).

Fixpoint strcmp (s1 s2 : list Z) : Z :=
  match s1, s2 with
  | [], [] => 0
  | [], y :: _ => 0 - y
  | x :: _, [] => x - 0
  | x :: s1, y :: s2 => if decide (x = y) then strcmp s1 s2 else x - y
  end.

(** [n] is the number of characters left to compare. *)
Fixpoint strncmp (s1 s2 : list Z) (n : nat) : Z :=
  match n with
  | O => 0
  | S n =>
      match s1, s2 with
      | [], [] => 0
      | [], y :: _ => 0 - y
      | x :: _, [] => x - 0
      | x :: s1, y :: s2 => if decide (x <> y) then x - y else strncmp s1 s2 n
      end
  end.

(** The position of the character found, [None] for a null pointer; searching
    for NUL finds the terminator. *)
Fixpoint strchr_from (str : list Z) (wanted : Z) (pos : Z) : option Z :=
  match str with
  | [] => if decide (wanted = 0) then Some pos else None
  | c :: str =>
      if decide (c = wanted) then Some pos else strchr_from str wanted (pos + 1)
  end.
Definition strchr (str : list Z) (character : Z) : option Z :=
  strchr_from str (u8 character) 0.

(** Copies the terminator as well; [None]: the destination array is too small
    (the C function would write past it). *)
Definition strcpy (dest src : list Z) : option (list Z) :=
  if decide (length src < length dest)%nat
  then Some (src ++ 0 :: drop (S (length src)) dest) else None.

(** The two loops of [strncpy]: copy up to [n] characters, then pad. *)
Fixpoint strncpy_copy (dest src : list Z) (i n : nat) : list Z * nat :=
  match n, src with
  | S n, c :: src => strncpy_copy (<[i := c]> dest) src (S i) n
  | _, _ => (dest, i)
  end.
Fixpoint strncpy_pad (dest : list Z) (i count : nat) : list Z :=
  match count with
  | O => dest
  | S count => strncpy_pad (<[i := 0]> dest) (S i) count
  end.
Definition strncpy (dest src : list Z) (n : nat) : list Z :=
  let '(dest, i) := strncpy_copy dest src 0 n in strncpy_pad dest i (n - i).

Definition strncat (dest src : list Z) (n : nat) : list Z := dest ++ take n src.

(** ** Flat memory *)

Fixpoint memset_from (mem : list Z) (dest : nat) (value : Z) (size : nat) : list Z :=
  match size with
  | O => mem
  | S size => memset_from (<[dest := u8 value]> mem) (S dest) value size
  end.
Definition memset (mem : list Z) (dest : nat) (value : Z) (size : nat) : list Z :=
  memset_from mem dest value size.

(** The ascending loop shared by [memcpy] and [memmove], iterations
    [i .. i + count). *)
Fixpoint copy_up (mem : list Z) (d s i count : nat) : list Z :=
  match count with
  | O => mem
  | S count => copy_up (<[(d + i)%nat := mem !!! (s + i)%nat]> mem) d s (S i) count
  end.
Definition memcpy (mem : list Z) (dest src size : nat) : list Z :=
  copy_up mem dest src 0 size.

(** The descending loop of [memmove]: [i] from [count] down to 1. *)
Fixpoint copy_down (mem : list Z) (d s count : nat) : list Z :=
  match count with
  | O => mem
  | S i => copy_down (<[(d + i)%nat := mem !!! (s + i)%nat]> mem) d s i
  end.

Definition memmove (mem : list Z) (dest src size : nat) : list Z :=
  if decide (dest = src \/ size = 0)%nat then mem
  else if decide (dest < src \/ size <= dest - src)%nat
  then copy_up mem dest src 0 size
  else copy_down mem dest src size.

Fixpoint memcmp (a b : list Z) (size : nat) : Z :=
  match size, a, b with
  | S size, x :: a, y :: b =>
      if decide (x <> y) then x - y else memcmp a b size
  | _, _, _ => 0
  end.

(** * Lemmas *)

Lemma strcmp_eq s1 s2 : c_string s1 -> c_string s2 -> (strcmp s1 s2 = 0 <-> s1 = s2).
Proof.
  intros H1. revert s2. induction H1 as [|x s1 Hx _ IH]; intros [|y s2] H2; cbn.
  - done.
  - apply Forall_cons_1 in H2 as [Hy _]. split; [lia|done].
  - split; [lia|done].
  - apply Forall_cons_1 in H2 as [Hy H2]. case_decide as E.
    + rewrite IH by done. subst y. split; congruence.
    + split; [lia|congruence].
Qed.

Lemma strncmp_take s1 s2 n :
  c_string s1 -> c_string s2 -> strncmp s1 s2 n = 0 -> take n s1 = take n s2.
Proof.
  revert s1 s2. induction n as [|n IH]; intros [|x s1] [|y s2] H1 H2; cbn; try done.
  - apply Forall_cons_1 in H2 as [Hy _]. lia.
  - apply Forall_cons_1 in H1 as [Hx _]. lia.
  - apply Forall_cons_1 in H1 as [Hx H1]. apply Forall_cons_1 in H2 as [Hy H2].
    case_decide; [lia|]. intros E. f_equal; [lia|]. by apply IH.
Qed.

Lemma c_str_string cells : Forall (fun c => 0 <= c < 256) cells -> c_string (c_str cells).
Proof.
  induction 1 as [|c cells Hc _ IH]; cbn; [apply Forall_nil_2|].
  case_decide; [apply Forall_nil_2|]. apply Forall_cons_2; [lia|done].
Qed.

Lemma c_str_nonzero s : Forall (fun c => c <> 0) s -> c_str s = s.
Proof.
  induction 1 as [|c s Hc _ IH]; cbn; [done|]. rewrite decide_False by done. by f_equal.
Qed.
Lemma c_str_id s : c_string s -> c_str s = s.
Proof. intros H. apply c_str_nonzero. eapply Forall_impl; [exact H|]. cbn. lia. Qed.

Lemma c_str_length cells : (length (c_str cells) <= length cells)%nat.
Proof. induction cells; cbn; [lia|]. case_decide; cbn; lia. Qed.

Lemma copy_up_length mem d s i n : length (copy_up mem d s i n) = length mem.
Proof.
  revert mem i. induction n as [|n IH]; intros mem i; cbn; [done|].
  by rewrite IH, length_insert.
Qed.

(** The ascending loop reads only cells it has not written yet when the
    destination starts below the source or beyond its end. *)
Lemma copy_up_spec mem d s i n k :
  (d < s \/ s + i + n <= d + i)%nat -> (d + i + n <= length mem)%nat ->
  copy_up mem d s i n !! k =
    if decide (d + i <= k < d + i + n)%nat then Some (mem !!! (s + (k - d))%nat)
    else mem !! k.
Proof.
  revert mem i. induction n as [|n IH]; intros mem i Hov Hlen; cbn.
  { by rewrite decide_False by lia. }
  rewrite IH; [|lia|rewrite length_insert; lia].
  destruct (decide (k = d + i)%nat) as [->|Hk].
  - rewrite decide_False by lia. rewrite decide_True by lia.
    rewrite list_lookup_insert_eq by lia. do 2 f_equal. lia.
  - case_decide as E1.
    + rewrite decide_True by lia. f_equal.
      rewrite list_lookup_total_insert_ne; [done|lia].
    + rewrite decide_False by lia. by rewrite list_lookup_insert_ne.
Qed.

Lemma copy_down_spec mem d s n k :
  (s < d)%nat -> (d + n <= length mem)%nat ->
  copy_down mem d s n !! k =
    if decide (d <= k < d + n)%nat then Some (mem !!! (s + (k - d))%nat)
    else mem !! k.
Proof.
  revert mem. induction n as [|n IH]; intros mem Hov Hlen; cbn.
  { by rewrite decide_False by lia. }
  rewrite IH; [|lia|rewrite length_insert; lia].
  destruct (decide (k = d + n)%nat) as [->|Hk].
  - rewrite decide_False by lia. rewrite decide_True by lia.
    rewrite list_lookup_insert_eq by lia. do 2 f_equal. lia.
  - case_decide as E1.
    + rewrite decide_True by lia. f_equal.
      rewrite list_lookup_total_insert_ne; [done|lia].
    + rewrite decide_False by lia. by rewrite list_lookup_insert_ne.
Qed.

Lemma strncpy_copy_spec (dest src : list Z) (i n : nat) :
  (i + n <= length dest)%nat ->
  (strncpy_copy dest src i n).2 = (i + length (take n src))%nat /\
  length (strncpy_copy dest src i n).1 = length dest /\
  forall k, (strncpy_copy dest src i n).1 !! k =
    if decide (i <= k < i + length (take n src))%nat then src !! (k - i)%nat
    else dest !! k.
Proof.
  revert dest i n. induction src as [|c src IH]; intros dest i [|n] Hlen; cbn.
  1-3: split; [lia|]; split; [done|]; intros k; by rewrite decide_False by lia.
  destruct (IH (<[i:=c]> dest) (S i) n) as (H1 & H2 & H3);
    [rewrite length_insert; lia|].
  rewrite H1, H2, length_insert. split; [lia|]. split; [done|]. intros k. rewrite H3.
  destruct (decide (k = i)) as [->|Hk].
  - rewrite decide_False by lia. rewrite decide_True by lia.
    rewrite list_lookup_insert_eq by lia. by replace (i - i)%nat with 0%nat by lia.
  - case_decide.
    + rewrite decide_True by lia. by replace (k - i)%nat with (S (k - S i)) by lia.
    + rewrite decide_False by lia. by rewrite list_lookup_insert_ne.
Qed.

Lemma strncpy_pad_spec (dest : list Z) (i count : nat) :
  (i + count <= length dest)%nat ->
  length (strncpy_pad dest i count) = length dest /\
  forall k, strncpy_pad dest i count !! k =
    if decide (i <= k < i + count)%nat then Some 0 else dest !! k.
Proof.
  revert dest i. induction count as [|n IH]; intros dest i Hlen; cbn.
  { split; [done|]. intros k. by rewrite decide_False by lia. }
  destruct (IH (<[i:=0]> dest) (S i)) as [H1 H2]; [rewrite length_insert; lia|].
  rewrite H1, length_insert. split; [done|]. intros k. rewrite H2.
  destruct (decide (k = i)) as [->|Hk].
  - rewrite decide_False by lia. rewrite decide_True by lia.
    by rewrite list_lookup_insert_eq by lia.
  - case_decide; [by rewrite decide_True by lia|].
    rewrite decide_False by lia. by rewrite list_lookup_insert_ne.
Qed.

(** [strncpy] truncates or pads; it touches exactly the first [n] cells. *)
Lemma strncpy_spec (dest src : list Z) (n : nat) :
  (n <= length dest)%nat ->
  strncpy dest src n =
    take n src ++ replicate (n - length src) 0 ++ drop n dest.
Proof.
  intros Hn. unfold strncpy. destruct (strncpy_copy_spec dest src 0 n) as (H1 & H2 & H3);
    [lia|]. destruct (strncpy_copy dest src 0 n) as [d i]. simpl in H1, H2, H3. subst i.
  rewrite length_take in *.
  destruct (strncpy_pad_spec d (n `min` length src) (n - n `min` length src)) as [P1 P2];
    [lia|].
  apply list_eq. intros k. rewrite P2, H3.
  destruct (decide (k < n `min` length src)%nat) as [Hk|Hk].
  - rewrite decide_False by lia. rewrite decide_True by lia.
    rewrite lookup_app_l by (rewrite length_take; lia).
    rewrite lookup_take_lt by lia. by rewrite Nat.sub_0_r.
  - rewrite lookup_app_r by (rewrite length_take; lia). rewrite length_take.
    destruct (decide (k < n)%nat) as [Hk'|Hk'].
    + rewrite decide_True by lia.
      rewrite lookup_app_l by (rewrite length_replicate; lia).
      symmetry. apply lookup_replicate_2. lia.
    + rewrite decide_False by lia. rewrite decide_False by lia.
      rewrite lookup_app_r by (rewrite length_replicate; lia).
      rewrite length_replicate, lookup_drop. f_equal. lia.
Qed.

(** The string a buffer holds after the kernel's copy idiom
    [strncpy(dest, src, size - 1); dest[size - 1] = 0]: the source, cut to
    [size - 1] characters. *)
Definition bounded_copy (size : nat) (src : list Z) : list Z := take (size - 1) src.

Lemma strncpy_bounded (dest src : list Z) (size : nat) :
  (0 < size)%nat -> length dest = size -> c_string src ->
  c_str (<[(size - 1)%nat := 0]> (strncpy dest src (size - 1))) = bounded_copy size src.
Proof.
  intros Hs Hd Hsrc. rewrite strncpy_spec by lia. unfold bounded_copy.
  set (t := take (size - 1) src).
  assert (Ht : c_string t) by (by apply Forall_take).
  assert (Hlt : (length t <= size - 1)%nat) by (unfold t; rewrite length_take; lia).
  assert (Hz : exists rest, <[(size - 1)%nat := 0]>
    (t ++ replicate (size - 1 - length src) 0 ++ drop (size - 1) dest) = t ++ 0 :: rest).
  { rewrite insert_app_r_alt by lia. destruct (size - 1 - length src)%nat as [|m] eqn:E.
    - cbn. assert (Hl : length t = (size - 1)%nat).
      { unfold t. rewrite length_take. lia. }
      rewrite Hl, Nat.sub_diag.
      destruct (drop (size - 1) dest) as [|x r] eqn:Ed.
      + apply (f_equal length) in Ed. rewrite length_drop in Ed. simpl in Ed. lia.
      + by exists r.
    - cbn. assert (Hl : length t = length src).
      { unfold t. rewrite length_take. lia. }
      destruct (size - 1 - length t)%nat as [|j] eqn:Ej; [lia|]. cbn. by eexists. }
  destruct Hz as [rest ->]. clear -Ht. induction Ht as [|c t Hc _ IH]; cbn; [done|].
  rewrite decide_False by lia. by f_equal.
Qed.

(** * Theorem *)

(** [memmove] copies correctly whatever the overlap of the two regions:
    afterwards each destination cell holds what the corresponding source cell
    held before the call, and no other cell has changed. *)
Theorem memmove_correct (mem : list Z) (dest src size : nat) :
  (dest + size <= length mem)%nat -> (src + size <= length mem)%nat ->
  forall k, memmove mem dest src size !! k =
    if decide (dest <= k < dest + size)%nat then mem !! (src + (k - dest))%nat
    else mem !! k.
Proof.
  intros Hd Hs k. assert (Hsome : (dest <= k < dest + size)%nat ->
    mem !! (src + (k - dest))%nat = Some (mem !!! (src + (k - dest))%nat)).
  { intros Hk. apply list_lookup_lookup_total_lt. lia. }
  unfold memmove. destruct (decide (dest = src \/ size = 0)%nat) as [H|H].
  - case_decide; [|done]. destruct H as [-> | ->]; [|lia]. f_equal. lia.
  - case_decide.
    + rewrite copy_up_spec by lia. rewrite Nat.add_0_r. case_decide; [|done].
      by rewrite Hsome.
    + rewrite copy_down_spec by lia. case_decide; [|done]. by rewrite Hsome.
Qed.

Lemma memmove_correct_witness :
  memmove [1; 2; 3; 4; 5] 1 0 4 !! 3%nat = Some 3.
Proof.
  rewrite (memmove_correct [1; 2; 3; 4; 5] 1 0 4); [reflexivity|simpl; lia|simpl; lia].
Defined.

End CString.
