(* ===== verification/Utf8.v ===== *)
(** Streaming UTF-8 decoder of the terminal ([kernel/src/utf8.c]).

    [utf8_decoder_feed] is translated branch by branch.  The reference side is
    the well-formed encoding of a Unicode scalar value ([utf8_encode], Unicode
    standard table 3-6); the theorems relate the two: encoded text is decoded
    back, nothing but scalar values is ever emitted, the 32-bit accumulator
    never wraps, and an ASCII byte always resynchronises the decoder. *)
From S2P Require Import Prelude.

Module Utf8.

Definition UTF8_DECODE_OUTPUT_MAX : Z := 2.
Definition UTF8_REPLACEMENT_CODEPOINT : Z := 65533.

Record utf8_decoder_t := mk_decoder {
  value : Z;
  minimum : Z;
  remaining : Z;
}.

Record utf8_decode_result_t := mk_result {
  codepoints : list Z;
  count : Z;
}.

#[export] Instance utf8_decoder_eq_dec : EqDecision utf8_decoder_t.
Proof. solve_decision. Defined.

Definition utf8_result_append (result : utf8_decode_result_t) (codepoint : Z)
  : utf8_decode_result_t :=
  if decide (count result >= UTF8_DECODE_OUTPUT_MAX) then result
  else mk_result (<[Z.to_nat (count result) := codepoint]> (codepoints result))
         (u8 (count result + 1)).

Definition utf8_decoder_reset (_ : utf8_decoder_t) : utf8_decoder_t :=
  mk_decoder 0 0 0.

Definition utf8_start (decoder : utf8_decoder_t) (byte : Z) : utf8_decoder_t :=
  if decide (194 <= byte <= 223) then mk_decoder (Z.land byte 31) 128 1
  else if decide (224 <= byte <= 239) then mk_decoder (Z.land byte 15) 2048 2
  else if decide (240 <= byte <= 244) then mk_decoder (Z.land byte 7) 65536 3
  else decoder.

(** [NULL] is [None]: the initialiser then has no decoder to reset. *)
Definition utf8_decoder_init (decoder : option utf8_decoder_t)
  : option utf8_decoder_t := utf8_decoder_reset <$> decoder.

(** One input byte, for a non-[NULL] decoder. *)
Definition utf8_feed (decoder : utf8_decoder_t) (byte : Z)
  : utf8_decode_result_t * utf8_decoder_t :=
  let result := mk_result [0; 0] 0 in
  if decide (remaining decoder <> 0) then
    if decide (Z.land byte 192 <> 128) then
      let decoder := utf8_decoder_reset decoder in
      let result := utf8_result_append result UTF8_REPLACEMENT_CODEPOINT in
      if decide (byte < 128) then (utf8_result_append result byte, decoder)
      else if decide (194 <= byte <= 244) then (result, utf8_start decoder byte)
      else (utf8_result_append result UTF8_REPLACEMENT_CODEPOINT, decoder)
    else
      let v := Z.lor (u32 (Z.shiftl (value decoder) 6)) (Z.land byte 63) in
      let r := u8 (remaining decoder - 1) in
      let decoder := mk_decoder v (minimum decoder) r in
      if decide (r <> 0) then (result, decoder)
      else
        let result :=
          if decide (v < minimum decoder \/ v > 1114111 \/
                     55296 <= v <= 57343)
          then utf8_result_append result UTF8_REPLACEMENT_CODEPOINT
          else utf8_result_append result v in
        (result, utf8_decoder_reset decoder)
  else if decide (byte < 128) then (utf8_result_append result byte, decoder)
  else if decide (194 <= byte <= 244) then (result, utf8_start decoder byte)
  else (utf8_result_append result UTF8_REPLACEMENT_CODEPOINT, decoder).

(** The exported entry point, with its [NULL] branch. *)
Definition utf8_decoder_feed (decoder : option utf8_decoder_t) (byte : Z)
  : utf8_decode_result_t * option utf8_decoder_t :=
  match decoder with
  | None =>
      (utf8_result_append (mk_result [0; 0] 0) UTF8_REPLACEMENT_CODEPOINT, None)
  | Some d => let '(r, d') := utf8_feed d byte in (r, Some d')
  end.

(** The code points a result holds: the first [count] array cells. *)
Definition emitted (r : utf8_decode_result_t) : list Z :=
  take (Z.to_nat (count r)) (codepoints r).

(** Feeding a byte string, collecting what each step emits. *)
Fixpoint utf8_run (d : utf8_decoder_t) (bytes : list Z)
  : list Z * utf8_decoder_t :=
  match bytes with
  | [] => ([], d)
  | b :: bs =>
      let '(r, d1) := utf8_feed d b in
      let '(out, d2) := utf8_run d1 bs in
      (emitted r ++ out, d2)
  end.

(** * Reference encoding *)

Definition scalar_value (c : Z) : Prop :=
  0 <= c <= 1114111 /\ ~ (55296 <= c <= 57343).

#[export] Instance scalar_value_dec c : Decision (scalar_value c) := _.

Definition utf8_encode (c : Z) : list Z :=
  if decide (c < 128) then [c]
  else if decide (c < 2048) then [192 + c / 64; 128 + c mod 64]
  else if decide (c < 65536) then
    [224 + c / 4096; 128 + (c / 64) mod 64; 128 + c mod 64]
  else
    [240 + c / 262144; 128 + (c / 4096) mod 64;
     128 + (c / 64) mod 64; 128 + c mod 64].

(** * Bit-level facts *)

(** The continuation test [(byte & 0xC0) == 0x80] selects [0x80..0xBF]. *)
Lemma continuation_iff b :
  is_u8 b -> (Z.land b 192 = 128 <-> 128 <= b < 192).
Proof.
  intros Hb.
  assert (H : (Z.land b 192 =? 128) = ((128 <=? b) && (b <? 192))).
  { apply eqb_prop.
    exact (byte_forall (fun b => eqb (Z.land b 192 =? 128)
             ((128 <=? b) && (b <? 192))) eq_refl b Hb). }
  destruct (Z.eqb_spec (Z.land b 192) 128); lia.
Qed.

Lemma lead_bits2 b : 194 <= b <= 223 -> Z.land b 31 = b - 192.
Proof.
  intros Hb. replace 31 with (Z.ones 5) by done.
  rewrite land_low_mask by lia. change (2 ^ 5) with 32.
  Z.div_mod_to_equations. lia.
Qed.
Lemma lead_bits3 b : 224 <= b <= 239 -> Z.land b 15 = b - 224.
Proof.
  intros Hb. replace 15 with (Z.ones 4) by done.
  rewrite land_low_mask by lia. change (2 ^ 4) with 16.
  Z.div_mod_to_equations. lia.
Qed.
Lemma lead_bits4 b : 240 <= b <= 244 -> Z.land b 7 = b - 240.
Proof.
  intros Hb. replace 7 with (Z.ones 3) by done.
  rewrite land_low_mask by lia. change (2 ^ 3) with 8.
  Z.div_mod_to_equations. lia.
Qed.

(** The accumulator update, without wrap-around below [2^26]. *)
Lemma accumulate v b :
  0 <= v < 67108864 -> 128 <= b < 192 ->
  Z.lor (u32 (Z.shiftl v 6)) (Z.land b 63) = v * 64 + (b - 128).
Proof.
  intros Hv Hb.
  assert (Hs : Z.shiftl v 6 = v * 64) by (by rewrite Z.shiftl_mul_pow2).
  rewrite u32_id by (rewrite Hs; unfold is_u32; lia).
  replace 63 with (Z.ones 6) by done. rewrite land_low_mask by lia.
  change (2 ^ 6) with 64.
  rewrite lor_shiftl_add by (try apply Z.mod_pos_bound; lia).
  change (2 ^ 6) with 64. Z.div_mod_to_equations. lia.
Qed.

(** * The decoder state invariant *)

(** Partial values fit the bytes consumed so far, so no shift can wrap. *)
Definition decoder_ok (d : utf8_decoder_t) : Prop :=
  match remaining d with
  | 0 => value d = 0 /\ minimum d = 0
  | 1 => 0 <= value d < 32768 /\ 128 <= minimum d
  | 2 => 0 <= value d < 512 /\ 2048 <= minimum d
  | 3 => 0 <= value d < 8 /\ 65536 <= minimum d
  | _ => False
  end.

Definition initial : utf8_decoder_t := mk_decoder 0 0 0.

Lemma decoder_ok_initial : decoder_ok initial.
Proof. by split. Qed.

Lemma decoder_ok_remaining d :
  decoder_ok d -> 0 <= remaining d <= 3.
Proof.
  unfold decoder_ok. destruct (remaining d) as [|[[]|[]|]|]; simpl; lia || done.
Qed.

Lemma decoder_ok_value d : decoder_ok d -> 0 <= value d < 67108864.
Proof.
  unfold decoder_ok. destruct (remaining d) as [|[[]|[]|]|]; simpl; lia || done.
Qed.

Lemma utf8_start_ok d b : 194 <= b <= 244 -> decoder_ok (utf8_start d b).
Proof.
  intros Hb. unfold utf8_start. repeat case_decide; try lia; unfold decoder_ok; simpl.
  - rewrite lead_bits2; lia.
  - rewrite lead_bits3; lia.
  - rewrite lead_bits4; lia.
Qed.

(** One continuation byte: what the decoder does, with the arithmetic of the
    accumulator resolved. *)
Lemma feed_continuation d b :
  decoder_ok d -> remaining d <> 0 -> 128 <= b < 192 ->
  let v := value d * 64 + (b - 128) in
  utf8_feed d b =
    if decide (remaining d - 1 <> 0)
    then (mk_result [0; 0] 0, mk_decoder v (minimum d) (remaining d - 1))
    else (mk_result
            [if decide (v < minimum d \/ v > 1114111 \/ 55296 <= v <= 57343)
             then UTF8_REPLACEMENT_CODEPOINT else v; 0] 1, initial).
Proof.
  intros Hok Hr Hb. cbv zeta. pose proof (decoder_ok_remaining d Hok).
  pose proof (decoder_ok_value d Hok) as Hv.
  unfold utf8_feed. rewrite decide_True by done.
  rewrite decide_False by (rewrite continuation_iff; unfold is_u8; lia).
  rewrite accumulate by done. simpl.
  rewrite u8_id by (unfold is_u8; lia).
  case_decide; [done|]. unfold utf8_result_append. simpl.
  by case_decide.
Qed.

Lemma feed_ok d b :
  decoder_ok d -> is_u8 b -> decoder_ok (utf8_feed d b).2.
Proof.
  intros Hok Hb. destruct (decide (remaining d = 0)) as [Hr|Hr].
  - unfold utf8_feed. rewrite decide_False by tauto.
    case_decide; [done|]. case_decide; [by apply utf8_start_ok|done].
  - destruct (decide (128 <= b < 192)) as [Hc|Hc].
    + rewrite feed_continuation by done. unfold decoder_ok in *.
      case_decide; simpl; [|done].
      destruct (remaining d) as [|[[]|[]|]|]; simpl; lia.
    + unfold utf8_feed. rewrite decide_True by done.
      rewrite decide_True by (rewrite continuation_iff by done; lia).
      case_decide; [done|]. case_decide; [by apply utf8_start_ok|done].
Qed.

(** * What a step may emit *)

Lemma append_0 a b c :
  utf8_result_append (mk_result [a; b] 0) c = mk_result [c; b] 1.
Proof. done. Qed.
Lemma append_1 a b c :
  utf8_result_append (mk_result [a; b] 1) c = mk_result [a; c] 2.
Proof. done. Qed.
Lemma emitted_0 l : emitted (mk_result l 0) = [].
Proof. done. Qed.
Lemma emitted_1 a b : emitted (mk_result [a; b] 1) = [a].
Proof. done. Qed.
Lemma emitted_2 a b : emitted (mk_result [a; b] 2) = [a; b].
Proof. done. Qed.
Create Rewrite HintDb utf8.
#[local] Hint Rewrite append_0 append_1 emitted_0 emitted_1 emitted_2 : utf8.

(** Discharge a concrete [Forall] or length bound. *)
Ltac forall_list :=
  first [simpl; lia | repeat first [apply Forall_nil_2 | apply Forall_cons_2]; auto].

Lemma feed_emits d b :
  decoder_ok d -> is_u8 b ->
  (length (emitted (utf8_feed d b).1) <= 2)%nat /\
  Forall scalar_value (emitted (utf8_feed d b).1).
Proof.
  intros Hok Hb. unfold is_u8 in Hb.
  assert (Hrep : scalar_value UTF8_REPLACEMENT_CODEPOINT) by
    (unfold scalar_value, UTF8_REPLACEMENT_CODEPOINT; lia).
  assert (Hasc : b < 128 -> scalar_value b) by (unfold scalar_value; lia).
  destruct (decide (remaining d = 0)) as [Hr|Hr].
  - unfold utf8_feed. rewrite decide_False by tauto.
    repeat case_decide; cbn [fst]; autorewrite with utf8; split; forall_list.
  - destruct (decide (128 <= b < 192)) as [Hc|Hc].
    + rewrite feed_continuation by done. case_decide; cbn [fst];
        autorewrite with utf8; (split; [simpl; lia|]); [done|].
      forall_list. case_decide; [done|].
      pose proof (decoder_ok_value d Hok). unfold scalar_value. lia.
    + unfold utf8_feed. rewrite decide_True by done.
      rewrite decide_True by (rewrite continuation_iff by done; lia).
      repeat case_decide; cbn [fst]; autorewrite with utf8; split; forall_list.
Qed.

Lemma run_ok d bs :
  decoder_ok d -> Forall is_u8 bs ->
  Forall scalar_value (utf8_run d bs).1 /\ decoder_ok (utf8_run d bs).2.
Proof.
  intros Hok Hbs. revert d Hok. induction Hbs as [|b bs Hb _ IH]; intros d Hok.
  { by split. }
  simpl. pose proof (feed_ok d b Hok Hb) as Hok1.
  destruct (feed_emits d b Hok Hb) as [_ He].
  destruct (utf8_feed d b) as [r d1]. simpl in *.
  specialize (IH d1 Hok1). destruct (utf8_run d1 bs) as [out d2]. simpl in *.
  split; [apply Forall_app|]; tauto.
Qed.

Lemma run_app d bs1 bs2 :
  utf8_run d (bs1 ++ bs2) =
    let '(o1, d1) := utf8_run d bs1 in
    let '(o2, d2) := utf8_run d1 bs2 in (o1 ++ o2, d2).
Proof.
  revert d. induction bs1 as [|b bs1 IH]; intros d; simpl.
  { by destruct (utf8_run d bs2). }
  destruct (utf8_feed d b) as [r d1]. rewrite IH.
  destruct (utf8_run d1 bs1) as [o1 d2]. destruct (utf8_run d2 bs2).
  by rewrite app_assoc.
Qed.

(** * Decoding an encoded scalar value *)

Lemma feed_initial_lead b :
  194 <= b <= 244 ->
  utf8_feed initial b = (mk_result [0; 0] 0, utf8_start initial b).
Proof.
  intros Hb. unfold utf8_feed. rewrite decide_False by (simpl; lia).
  rewrite decide_False by lia. by rewrite decide_True by lia.
Qed.

(** After a lead byte, [n] well-formed continuation bytes accumulate. *)
Lemma feed_more v m r b :
  decoder_ok (mk_decoder v m r) -> 1 < r -> 128 <= b < 192 ->
  utf8_feed (mk_decoder v m r) b =
    (mk_result [0; 0] 0, mk_decoder (v * 64 + (b - 128)) m (r - 1)).
Proof.
  intros Hok Hr Hb. rewrite feed_continuation by (simpl; lia || done).
  by rewrite decide_True by (simpl; lia).
Qed.

Lemma feed_last v m b :
  decoder_ok (mk_decoder v m 1) -> 128 <= b < 192 ->
  m <= v * 64 + (b - 128) -> scalar_value (v * 64 + (b - 128)) ->
  utf8_feed (mk_decoder v m 1) b =
    (mk_result [v * 64 + (b - 128); 0] 1, initial).
Proof.
  intros Hok Hb Hm Hs. unfold scalar_value in Hs.
  rewrite feed_continuation by (simpl; lia || done).
  rewrite decide_False by (simpl; lia). cbn [value minimum].
  by rewrite decide_False by lia.
Qed.

(** Collect the output of a completed sequence. *)
Ltac encoded := cbn beta iota; autorewrite with utf8; cbn [app]; repeat f_equal; lia.

Lemma run_encode c :
  scalar_value c -> utf8_run initial (utf8_encode c) = ([c], initial).
Proof.
  intros Hs. pose proof Hs as Hs'. unfold scalar_value in Hs'. unfold utf8_encode.
  pose proof (Z.div_mod c 64 ltac:(lia)).
  pose proof (Z.div_mod (c / 64) 64 ltac:(lia)).
  pose proof (Z.div_mod (c / 4096) 64 ltac:(lia)).
  assert (c / 4096 = c / 64 / 64) by (rewrite Z.div_div by lia; done).
  assert (c / 262144 = c / 4096 / 64) by (rewrite Z.div_div by lia; done).
  pose proof (Z.mod_pos_bound c 64 ltac:(lia)).
  pose proof (Z.mod_pos_bound (c / 64) 64 ltac:(lia)).
  pose proof (Z.mod_pos_bound (c / 4096) 64 ltac:(lia)).
  case_decide; [|case_decide; [|case_decide]].
  - cbn. unfold utf8_feed. rewrite decide_False by (simpl; lia).
    by rewrite decide_True by done.
  - cbn [utf8_run]. rewrite feed_initial_lead by lia. unfold utf8_start.
    rewrite decide_True by lia. rewrite lead_bits2 by lia.
    rewrite feed_last; [encoded|split; simpl; lia|lia|lia|].
    eapply eq_ind; [exact Hs|lia].
  - cbn [utf8_run]. rewrite feed_initial_lead by lia. unfold utf8_start.
    rewrite decide_False by lia. rewrite decide_True by lia.
    rewrite lead_bits3 by lia.
    rewrite feed_more by (try split; simpl; lia). cbn [Z.sub Z.add].
    rewrite feed_last; [encoded|split; simpl; lia|lia|lia|].
    eapply eq_ind; [exact Hs|lia].
  - cbn [utf8_run]. rewrite feed_initial_lead by lia. unfold utf8_start.
    rewrite !decide_False by lia. rewrite decide_True by lia.
    rewrite lead_bits4 by lia.
    rewrite feed_more by (try split; simpl; lia). cbn [Z.sub Z.add].
    rewrite feed_more by (try split; simpl; lia). cbn [Z.sub Z.add].
    rewrite feed_last; [encoded|split; simpl; lia|lia|lia|].
    eapply eq_ind; [exact Hs|lia].
Qed.

Lemma feed_ascii d b :
  decoder_ok d -> 0 <= b < 128 ->
  exists pre, emitted (utf8_feed d b).1 = pre ++ [b] /\
    (utf8_feed d b).2 = initial.
Proof.
  intros Hok Hb. unfold utf8_feed. destruct (decide (remaining d <> 0)) as [Hr|Hr].
  - rewrite decide_True by (rewrite continuation_iff; unfold is_u8; lia).
    rewrite decide_True by lia. cbn [fst snd]. autorewrite with utf8.
    by exists [UTF8_REPLACEMENT_CODEPOINT].
  - rewrite decide_True by lia. cbn [fst snd]. autorewrite with utf8.
    exists []. split; [done|]. destruct d as [v m r]. simpl in Hr.
    assert (r = 0) as -> by lia. unfold decoder_ok in Hok. simpl in Hok.
    by destruct Hok as [-> ->].
Qed.

(** * Theorems *)

(** Decoding inverts encoding.  Feeding the well-formed UTF-8 encoding of
    any sequence of Unicode scalar values to a freshly initialised decoder
    emits exactly that sequence and leaves the decoder in its initial state. *)
Theorem utf8_round_trip (cps : list Z) :
  Forall scalar_value cps ->
  utf8_run initial (concat (utf8_encode <$> cps)) = (cps, initial).
Proof.
  induction 1 as [|c cps Hc _ IH]; [done|]. cbn [fmap list_fmap concat].
  by rewrite run_app, run_encode, IH by done.
Qed.

Lemma utf8_round_trip_witness :
  Forall scalar_value [65; 233; 8364; 128512] /\
  utf8_run initial (concat (utf8_encode <$> [65; 233; 8364; 128512]))
    = ([65; 233; 8364; 128512], initial).
Proof.
  assert (H : Forall scalar_value [65; 233; 8364; 128512]).
  { repeat (apply Forall_cons_2; [unfold scalar_value; lia|]). apply Forall_nil_2. }
  split; [exact H|]. exact (utf8_round_trip _ H).
Defined.

(** On arbitrary input bytes the decoder emits only Unicode scalar values
    (never a surrogate, never above U+10FFFF, overlong forms replaced), keeps
    its state invariant (so its 32-bit accumulator never wraps), and an ASCII
    byte is always delivered and resynchronises the decoder, whatever came
    before it. *)
Theorem utf8_safe_and_resynchronises (bytes : list Z) (b : Z) :
  Forall is_u8 bytes -> 0 <= b < 128 ->
  Forall scalar_value (utf8_run initial bytes).1 /\
  decoder_ok (utf8_run initial bytes).2 /\
  exists out, utf8_run initial (bytes ++ [b]) = (out ++ [b], initial).
Proof.
  intros Hbs Hb. destruct (run_ok initial bytes decoder_ok_initial Hbs) as [Hs Hok].
  repeat (split; [done|]). rewrite run_app.
  destruct (utf8_run initial bytes) as [o d]. simpl in *.
  destruct (feed_ascii d b Hok Hb) as (pre & He & Hi).
  destruct (utf8_feed d b) as [r d1]. simpl in *. subst d1.
  exists (o ++ pre). by rewrite He, app_nil_r, app_assoc.
Qed.

Lemma utf8_safe_and_resynchronises_witness :
  exists out, utf8_run initial ([224; 159; 237; 160; 240] ++ [65])
    = (out ++ [65], initial).
Proof.
  assert (H : Forall is_u8 [224; 159; 237; 160; 240]).
  { repeat (apply Forall_cons_2; [unfold is_u8; lia|]). apply Forall_nil_2. }
  exact (proj2 (proj2 (utf8_safe_and_resynchronises _ 65 H ltac:(lia)))).
Defined.

End Utf8.
