(* ===== verification/TimeConvert.v ===== *)
(** Calendar and timestamp conversion ([libc/src/time_convert.c], compiled
    into both libc and the kernel).

    C [/] and [%] on signed operands truncate, so they are [Z.quot] and
    [Z.rem]; pointers that may be [NULL] are options, and an output pointer is
    its current content.  Signed 64-bit arithmetic is exact here: that it never
    overflows is part of the theorems. *)
From S2P Require Import Prelude.

Module TimeConvert.

(** [libc/include/mangrove_errors.h] *)
Definition MG_OK : Z := 0.
Definition MG_ERR_BAD_ARGUMENT : Z := -4.

Definition MG_TIME_NANOSECONDS_PER_SEC : Z := 1000000000.
Definition MG_SECONDS_PER_MINUTE : Z := 60.
Definition MG_SECONDS_PER_HOUR : Z := 60 * MG_SECONDS_PER_MINUTE.
Definition MG_SECONDS_PER_DAY : Z := 24 * MG_SECONDS_PER_HOUR.
Definition MG_EPOCH_SERIAL : Z := 730425.
Definition MG_I64_MAX : Z := 9223372036854775807.
Definition MG_I64_MIN : Z := -9223372036854775808.

Record mg_mangrove_time_t := mk_time {
  seconds : Z;
  nanoseconds : Z;
  reserved : Z;
}.

Record mg_unix_time_t := mk_unix {
  unix_seconds : Z;
  unix_nanoseconds : Z;
  unix_reserved : Z;
}.

Record mg_calendar_time_t := mk_calendar {
  year : Z;
  month : Z;
  day : Z;
  hour : Z;
  minute : Z;
  second : Z;
  cal_nanoseconds : Z;
}.

#[export] Instance mg_calendar_time_eq_dec : EqDecision mg_calendar_time_t.
Proof. solve_decision. Defined.

Definition civil_serial (year month day : Z) : Z :=
  let adjusted_year := year - (if decide (month <= 2) then 1 else 0) in
  let era :=
    (if decide (adjusted_year >= 0) then adjusted_year
     else adjusted_year - 399) ÷ 400 in
  let year_of_era := adjusted_year - era * 400 in
  let month_prime := month + (if decide (month > 2) then -3 else 9) in
  let day_of_year := (153 * month_prime + 2) ÷ 5 + day - 1 in
  let day_of_era :=
    year_of_era * 365 + year_of_era ÷ 4 - year_of_era ÷ 100 + day_of_year in
  era * 146097 + day_of_era.

Definition leap_year (year : Z) : bool :=
  (Z.rem year 4 =? 0) &&
  (negb (Z.rem year 100 =? 0) || (Z.rem year 400 =? 0)).

Definition days_table : list Z := [31; 28; 31; 30; 31; 30; 31; 31; 30; 31; 30; 31].

Definition days_in_month (year month : Z) : Z :=
  if (month =? 2) && leap_year year then 29
  else nth (Z.to_nat (month - 1)) days_table 0.

Definition calendar_valid (calendar : option mg_calendar_time_t) : bool :=
  match calendar with
  | None => false
  | Some c =>
      (1 <=? month c) && (month c <=? 12) && (1 <=? day c) &&
      (day c <=? days_in_month (year c) (month c)) &&
      (hour c <=? 23) && (minute c <=? 59) && (second c <=? 59) &&
      (cal_nanoseconds c <? MG_TIME_NANOSECONDS_PER_SEC)
  end.

Definition serial_to_calendar (serial : Z) (out : option mg_calendar_time_t)
  : bool * option mg_calendar_time_t :=
  let z := serial in
  let era := (if decide (z >= 0) then z else z - 146096) ÷ 146097 in
  let day_of_era := z - era * 146097 in
  let year_of_era :=
    (day_of_era - day_of_era ÷ 1460 + day_of_era ÷ 36524 -
     day_of_era ÷ 146096) ÷ 365 in
  let year := year_of_era + era * 400 in
  let day_of_year :=
    day_of_era - (365 * year_of_era + year_of_era ÷ 4 - year_of_era ÷ 100) in
  let month_prime := (5 * day_of_year + 2) ÷ 153 in
  let day := day_of_year - (153 * month_prime + 2) ÷ 5 + 1 in
  let month := month_prime + (if decide (month_prime < 10) then 3 else -9) in
  let year := year + (if decide (month <= 2) then 1 else 0) in
  match out with
  | None => (false, out)
  | Some o =>
      if decide (year < -2147483648 \/ year > 2147483647) then (false, out)
      else (true, Some (mk_calendar year (u8 month) (u8 day) (hour o) (minute o)
                          (second o) (cal_nanoseconds o)))
  end.

Definition mangrove_time_from_calendar (calendar : option mg_calendar_time_t)
    (out : option mg_mangrove_time_t) : Z * option mg_mangrove_time_t :=
  match calendar, out with
  | Some c, Some _ =>
      if negb (calendar_valid calendar) then (MG_ERR_BAD_ARGUMENT, out)
      else
        let days := civil_serial (year c) (month c) (day c) - MG_EPOCH_SERIAL in
        if decide (days > MG_I64_MAX ÷ MG_SECONDS_PER_DAY \/
                   days < MG_I64_MIN ÷ MG_SECONDS_PER_DAY)
        then (MG_ERR_BAD_ARGUMENT, out)
        else
          let s := days * MG_SECONDS_PER_DAY + hour c * MG_SECONDS_PER_HOUR +
                   minute c * MG_SECONDS_PER_MINUTE + second c in
          (MG_OK, Some (mk_time s (cal_nanoseconds c) 0))
  | _, _ => (MG_ERR_BAD_ARGUMENT, out)
  end.

Definition mangrove_time_to_calendar (time : option mg_mangrove_time_t)
    (out : option mg_calendar_time_t) : Z * option mg_calendar_time_t :=
  match time, out with
  | Some t, Some _ =>
      if decide (nanoseconds t >= MG_TIME_NANOSECONDS_PER_SEC)
      then (MG_ERR_BAD_ARGUMENT, out)
      else
        let days := seconds t ÷ MG_SECONDS_PER_DAY in
        let remainder := Z.rem (seconds t) MG_SECONDS_PER_DAY in
        let '(remainder, days) :=
          if decide (remainder < 0)
          then (remainder + MG_SECONDS_PER_DAY, days - 1)
          else (remainder, days) in
        match serial_to_calendar (days + MG_EPOCH_SERIAL) out with
        | (true, Some o) =>
            let h := u8 (remainder ÷ MG_SECONDS_PER_HOUR) in
            let remainder := Z.rem remainder MG_SECONDS_PER_HOUR in
            (MG_OK,
             Some (mk_calendar (year o) (month o) (day o) h
                     (u8 (remainder ÷ MG_SECONDS_PER_MINUTE))
                     (u8 (Z.rem remainder MG_SECONDS_PER_MINUTE))
                     (nanoseconds t)))
        | (_, out') => (MG_ERR_BAD_ARGUMENT, out')
        end
  | _, _ => (MG_ERR_BAD_ARGUMENT, out)
  end.

Definition mangrove_time_to_unix (time : option mg_mangrove_time_t)
    (out : option mg_unix_time_t) : Z * option mg_unix_time_t :=
  match time, out with
  | Some t, Some _ =>
      if decide (nanoseconds t >= MG_TIME_NANOSECONDS_PER_SEC)
      then (MG_ERR_BAD_ARGUMENT, out)
      else (MG_OK, Some (mk_unix (seconds t) (nanoseconds t) 0))
  | _, _ => (MG_ERR_BAD_ARGUMENT, out)
  end.

Definition unix_time_to_mangrove (time : option mg_unix_time_t)
    (out : option mg_mangrove_time_t) : Z * option mg_mangrove_time_t :=
  match time, out with
  | Some t, Some _ =>
      if decide (unix_nanoseconds t >= MG_TIME_NANOSECONDS_PER_SEC)
      then (MG_ERR_BAD_ARGUMENT, out)
      else (MG_OK, Some (mk_time (unix_seconds t) (unix_nanoseconds t) 0))
  | _, _ => (MG_ERR_BAD_ARGUMENT, out)
  end.

Arguments mangrove_time_to_calendar : simpl never.
Arguments mangrove_time_from_calendar : simpl never.
Arguments civil_serial : simpl never.

(** * Proleptic Gregorian calendar, the reference *)

(** A civil date and its successor, independent of the serial arithmetic. *)
Definition valid_date (y m d : Z) : Prop :=
  1 <= m <= 12 /\ 1 <= d <= days_in_month y m.

#[export] Instance valid_date_dec y m d : Decision (valid_date y m d) := _.

Definition next_day (y m d : Z) : Z * Z * Z :=
  if decide (d < days_in_month y m) then (y, m, d + 1)
  else if decide (m < 12) then (y, m + 1, 1)
  else (y + 1, 1, 1).

(** * Floor arithmetic behind the truncating divisions *)

Lemma floor_era a k n :
  0 < n -> k = n - 1 ->
  (if decide (a >= 0) then a else a - k) ÷ n = a / n.
Proof.
  intros Hn ->. case_decide.
  - apply Z.quot_div_nonneg; lia.
  - apply Z.div_unique with (n + Z.rem (a - (n - 1)) n - 1).
    + pose proof (Z.rem_bound_pos_neg (a - (n - 1)) n). lia.
    + pose proof (Z.quot_rem (a - (n - 1)) n). lia.
Qed.

(** The leap rule with remainders of the floor division. *)
Definition leap (y : Z) : bool :=
  (y mod 4 =? 0) && (negb (y mod 100 =? 0) || (y mod 400 =? 0)).

Lemma rem_zero_mod y n : 0 < n -> (Z.rem y n =? 0) = (y mod n =? 0).
Proof.
  intros Hn. destruct (Z.eqb_spec (Z.rem y n) 0) as [H|H].
  - symmetry. apply Z.eqb_eq, Z.mod_divide, Z.rem_divide; lia.
  - symmetry. apply Z.eqb_neq. contradict H.
    apply Z.rem_divide, Z.mod_divide; lia.
Qed.

Lemma leap_year_floor y : leap_year y = leap y.
Proof. unfold leap_year, leap. by rewrite !rem_zero_mod. Qed.

(** ** March-based years of a 400-year era *)

Definition first_doe (yoe : Z) : Z := yoe * 365 + yoe / 4 - yoe / 100.
Definition year_length (yoe : Z) : Z := if leap (yoe + 1) then 366 else 365.
Definition year_guess (doe : Z) : Z :=
  doe - doe / 1460 + doe / 36524 - doe / 146096.

Lemma year_guess_mono d1 d2 :
  0 <= d1 <= d2 -> d2 <= 146096 -> year_guess d1 <= year_guess d2.
Proof. unfold year_guess. Z.div_mod_to_equations. lia. Qed.

(** The endpoints of each of the 400 years, by evaluation. *)
Definition year_endpoints_ok (yoe : Z) : bool :=
  (year_guess (first_doe yoe) / 365 =? yoe) &&
  (year_guess (first_doe yoe + year_length yoe - 1) / 365 =? yoe) &&
  ((first_doe yoe + year_length yoe =? first_doe (yoe + 1)) || (yoe =? 399)).

Lemma year_endpoints yoe : 0 <= yoe < 400 -> year_endpoints_ok yoe = true.
Proof.
  intros H.
  assert (Hall : forallb year_endpoints_ok (seqZ 0 400) = true) by
    (vm_compute; reflexivity).
  rewrite forallb_forall in Hall. apply Hall.
  apply list_elem_of_In, elem_of_seqZ. lia.
Qed.

Lemma first_doe_bounds yoe :
  0 <= yoe < 400 ->
  0 <= first_doe yoe /\ first_doe yoe + year_length yoe <= 146097.
Proof.
  intros H. unfold first_doe, year_length. destruct (leap (yoe + 1)) eqn:E.
  - Z.div_mod_to_equations. lia.
  - assert (yoe <> 399) by (intros ->; vm_compute in E; discriminate).
    Z.div_mod_to_equations. lia.
Qed.

Lemma year_of_era_unique yoe doy :
  0 <= yoe < 400 -> 0 <= doy < year_length yoe ->
  year_guess (first_doe yoe + doy) / 365 = yoe.
Proof.
  intros Hy Hd. pose proof (year_endpoints yoe Hy) as He.
  unfold year_endpoints_ok in He.
  rewrite !andb_true_iff, !Z.eqb_eq in He. destruct He as [[Hlo Hhi] _].
  destruct (first_doe_bounds yoe Hy).
  pose proof (year_guess_mono (first_doe yoe) (first_doe yoe + doy)) as M1.
  pose proof (year_guess_mono (first_doe yoe + doy)
                (first_doe yoe + year_length yoe - 1)) as M2.
  Z.div_mod_to_equations. lia.
Qed.

(** Every day of the era falls in one of its years. *)
Lemma year_of_era_exists doe :
  0 <= doe < 146097 ->
  exists yoe, 0 <= yoe < 400 /\ first_doe yoe <= doe < first_doe yoe + year_length yoe.
Proof.
  intros H.
  assert (forall n : nat, (n < 400)%nat -> first_doe (Z.of_nat n) <= doe \/
    exists yoe, 0 <= yoe < 400 /\ first_doe yoe <= doe < first_doe yoe + year_length yoe)
    as Hn.
  { induction n as [|n IH]; intros Hlt; [left; vm_compute (first_doe _); lia|].
    destruct IH as [IH|IH]; [lia| |by right].
    pose proof (year_endpoints (Z.of_nat n) ltac:(lia)) as He.
    unfold year_endpoints_ok in He.
    rewrite !andb_true_iff, orb_true_iff, !Z.eqb_eq in He.
    replace (Z.of_nat (S n)) with (Z.of_nat n + 1) by lia.
    destruct (decide (first_doe (Z.of_nat n) + year_length (Z.of_nat n) <= doe));
      [left; lia|]. right. exists (Z.of_nat n). lia. }
  destruct (Hn 399%nat ltac:(lia)) as [H399|?]; [|done].
  exists 399. split; [lia|]. change (Z.of_nat 399) with 399 in H399.
  change (first_doe 399 + year_length 399) with 146097. lia.
Qed.

(** ** Months of a March-based year *)

(** Length of the month [mp] (0 = March) in a year whose February has 28 or
    29 days. *)
Definition month_length (mp : Z) (l : bool) : Z :=
  nth (Z.to_nat mp)
    [31; 30; 31; 30; 31; 31; 30; 31; 30; 31; 31; if l then 29 else 28] 0.

Lemma months_12 mp :
  0 <= mp <= 11 -> mp ∈ [0; 1; 2; 3; 4; 5; 6; 7; 8; 9; 10; 11].
Proof. intros H. rewrite !elem_of_cons. lia. Qed.

(** Case analysis on the twelve months. *)
Ltac destruct_month H :=
  apply months_12 in H;
  repeat (apply elem_of_cons in H as [->|H]);
  try (by apply elem_of_nil in H).

Lemma month_of_day mp day l :
  0 <= mp <= 11 -> 1 <= day <= month_length mp l ->
  let doy := (153 * mp + 2) / 5 + day - 1 in
  (5 * doy + 2) / 153 = mp /\ 0 <= doy < (if l then 366 else 365).
Proof.
  intros Hmp Hd. cbv zeta. destruct_month Hmp; unfold month_length in Hd; simpl in Hd;
    destruct l; Z.div_mod_to_equations; lia.
Qed.

Lemma day_of_month doy l :
  0 <= doy < (if l : bool then 366 else 365) ->
  let mp := (5 * doy + 2) / 153 in
  0 <= mp <= 11 /\ 1 <= doy - (153 * mp + 2) / 5 + 1 <= month_length mp l.
Proof.
  intros Hd. cbv zeta. assert (Hmp : 0 <= (5 * doy + 2) / 153 <= 11) by
    (destruct l; Z.div_mod_to_equations; lia).
  split; [done|]. remember ((5 * doy + 2) / 153) as mp eqn:Emp.
  destruct_month Hmp; unfold month_length; simpl; destruct l;
    Z.div_mod_to_equations; lia.
Qed.

(** March-based and January-based months agree on their lengths. *)
Definition to_prime (m : Z) : Z := if decide (m > 2) then m - 3 else m + 9.
Definition from_prime (mp : Z) : Z := if decide (mp < 10) then mp + 3 else mp - 9.
Definition february_year (y m : Z) : Z := if decide (m <= 2) then y - 1 else y.

Lemma days_in_month_prime y mp :
  0 <= mp <= 11 ->
  days_in_month y (from_prime mp) =
    month_length mp (leap (february_year y (from_prime mp) + 1)).
Proof.
  intros Hmp. unfold days_in_month, from_prime, february_year.
  rewrite leap_year_floor. destruct_month Hmp; try done.
  simpl. replace (y - 1 + 1) with y by lia. by destruct (leap y).
Qed.

(** ** The two directions in floor arithmetic *)

Definition serial_floor (y m d : Z) : Z :=
  let a := february_year y m in
  a / 400 * 146097 + first_doe (a mod 400) + ((153 * to_prime m + 2) / 5 + d - 1).

Lemma civil_serial_floor y m d :
  1 <= m <= 12 -> civil_serial y m d = serial_floor y m d.
Proof.
  intros Hm. unfold civil_serial, serial_floor, february_year, to_prime. cbv zeta.
  rewrite floor_era by lia.
  set (a := y - (if decide (m <= 2) then 1 else 0)).
  replace (if decide (m <= 2) then y - 1 else y) with a by
    (unfold a; case_decide; lia).
  replace (if decide (m > 2) then m - 3 else m + 9) with
    (m + (if decide (m > 2) then -3 else 9)) by (case_decide; lia).
  assert (Hmp : 0 <= m + (if decide (m > 2) then -3 else 9)) by (case_decide; lia).
  replace (a - a / 400 * 400) with (a mod 400) by (Z.div_mod_to_equations; lia).
  pose proof (Z.mod_pos_bound a 400 ltac:(lia)).
  rewrite !Z.quot_div_nonneg by lia. unfold first_doe. lia.
Qed.

Definition civil_of_serial (z : Z) : Z * Z * Z :=
  let yoe := year_guess (z mod 146097) / 365 in
  let doy := z mod 146097 - first_doe yoe in
  let mp := (5 * doy + 2) / 153 in
  let m := from_prime mp in
  (yoe + z / 146097 * 400 + (if decide (m <= 2) then 1 else 0), m,
   doy - (153 * mp + 2) / 5 + 1).

(** The year, day-of-year and month bounds of any serial. *)
Lemma serial_parts z :
  let yoe := year_guess (z mod 146097) / 365 in
  let doy := z mod 146097 - first_doe yoe in
  0 <= yoe < 400 /\ 0 <= doy < year_length yoe.
Proof.
  cbv zeta. pose proof (Z.mod_pos_bound z 146097 ltac:(lia)) as Hz.
  destruct (year_of_era_exists (z mod 146097) ltac:(lia)) as (yoe & Hy & Hd).
  pose proof (year_of_era_unique yoe (z mod 146097 - first_doe yoe) Hy ltac:(lia)) as E.
  replace (first_doe yoe + (z mod 146097 - first_doe yoe)) with (z mod 146097) in E by lia.
  rewrite E. lia.
Qed.

Lemma serial_to_calendar_floor z o :
  serial_to_calendar z (Some o) =
    let '(y, m, d) := civil_of_serial z in
    if decide (y < -2147483648 \/ y > 2147483647) then (false, Some o)
    else (true, Some (mk_calendar y (u8 m) (u8 d) (hour o) (minute o) (second o)
                        (cal_nanoseconds o))).
Proof.
  unfold serial_to_calendar, civil_of_serial. cbv zeta.
  rewrite floor_era by lia.
  replace (z - z / 146097 * 146097) with (z mod 146097) by
    (Z.div_mod_to_equations; lia).
  pose proof (Z.mod_pos_bound z 146097 ltac:(lia)) as Hz.
  pose proof (serial_parts z) as P. cbv zeta in P.
  rewrite !(Z.quot_div_nonneg (z mod 146097)) by lia.
  change (z mod 146097 - z mod 146097 / 1460 + z mod 146097 / 36524 -
          z mod 146097 / 146096) with (year_guess (z mod 146097)).
  assert (0 <= year_guess (z mod 146097)) by (Z.div_mod_to_equations; lia).
  rewrite (Z.quot_div_nonneg (year_guess _)) by lia.
  set (yoe := year_guess (z mod 146097) / 365) in *.
  rewrite !(Z.quot_div_nonneg yoe) by lia.
  replace (365 * yoe + yoe / 4 - yoe / 100) with (first_doe yoe) by
    (unfold first_doe; lia).
  set (doy := z mod 146097 - first_doe yoe) in *.
  rewrite (Z.quot_div_nonneg (5 * doy + 2)) by lia.
  set (mp := (5 * doy + 2) / 153).
  assert (0 <= mp) by (unfold mp; Z.div_mod_to_equations; lia).
  rewrite (Z.quot_div_nonneg (153 * mp + 2)) by lia.
  unfold from_prime.
  replace (mp + (if decide (mp < 10) then 3 else -9)) with
    (if decide (mp < 10) then mp + 3 else mp - 9) by (case_decide; lia).
  done.
Qed.

Lemma prime_inverse m : 1 <= m <= 12 -> 0 <= to_prime m <= 11 /\ from_prime (to_prime m) = m.
Proof. intros. unfold to_prime, from_prime. repeat case_decide; lia. Qed.
Lemma prime_inverse' mp :
  0 <= mp <= 11 -> 1 <= from_prime mp <= 12 /\ to_prime (from_prime mp) = mp.
Proof. intros. unfold to_prime, from_prime. repeat case_decide; lia. Qed.

Lemma leap_mod_400 y : leap (y mod 400 + 1) = leap (y + 1).
Proof.
  unfold leap.
  replace ((y mod 400 + 1) mod 4) with ((y + 1) mod 4) by (Z.div_mod_to_equations; lia).
  replace ((y mod 400 + 1) mod 100) with ((y + 1) mod 100) by
    (Z.div_mod_to_equations; lia).
  replace ((y mod 400 + 1) mod 400) with ((y + 1) mod 400) by
    (Z.div_mod_to_equations; lia).
  done.
Qed.

Lemma civil_of_serial_of_civil y m d :
  valid_date y m d -> civil_of_serial (civil_serial y m d) = (y, m, d).
Proof.
  intros [Hm Hd]. rewrite civil_serial_floor by done.
  destruct (prime_inverse m Hm) as [Hmp Hinv].
  pose proof (days_in_month_prime y (to_prime m) Hmp) as Hlen. rewrite Hinv in Hlen.
  unfold serial_floor. set (a := february_year y m) in *.
  rewrite Hlen, <- leap_mod_400 in Hd.
  destruct (month_of_day (to_prime m) d _ Hmp Hd) as [Emp Hdoy].
  set (doy := (153 * to_prime m + 2) / 5 + d - 1) in *.
  pose proof (Z.mod_pos_bound a 400 ltac:(lia)) as Ha.
  pose proof (first_doe_bounds (a mod 400) Ha).
  assert (Hdoy' : 0 <= doy < year_length (a mod 400)) by done.
  assert (Emod : (a / 400 * 146097 + first_doe (a mod 400) + doy) mod 146097
    = first_doe (a mod 400) + doy).
  { symmetry. apply Z.mod_unique with (a / 400); lia. }
  assert (Ediv : (a / 400 * 146097 + first_doe (a mod 400) + doy) / 146097 = a / 400).
  { symmetry. apply Z.div_unique with (first_doe (a mod 400) + doy); lia. }
  unfold civil_of_serial. cbv zeta. rewrite Emod, Ediv, year_of_era_unique by done.
  replace (first_doe (a mod 400) + doy - first_doe (a mod 400)) with doy by lia.
  rewrite Emp, Hinv. f_equal; [f_equal|].
  - unfold a, february_year. case_decide; Z.div_mod_to_equations; lia.
  - unfold doy. lia.
Qed.

Lemma civil_of_serial_correct z y m d :
  civil_of_serial z = (y, m, d) -> valid_date y m d /\ civil_serial y m d = z.
Proof.
  unfold civil_of_serial. cbv zeta. pose proof (serial_parts z) as P. cbv zeta in P.
  set (yoe := year_guess (z mod 146097) / 365) in *.
  set (doy := z mod 146097 - first_doe yoe) in *. destruct P as [Hyoe Hdoy].
  intros [= Hy Hm Hd]. destruct (day_of_month doy (leap (yoe + 1)) Hdoy) as [Hmp Hday].
  set (mp := (5 * doy + 2) / 153) in *. destruct (prime_inverse' mp Hmp) as [Hm12 Hinv].
  assert (Ha : february_year y m = yoe + z / 146097 * 400).
  { unfold february_year. subst y m. repeat case_decide; lia. }
  assert (Hmod : february_year y m mod 400 = yoe) by
    (rewrite Ha; Z.div_mod_to_equations; lia).
  assert (Hdiv : february_year y m / 400 = z / 146097) by
    (rewrite Ha; Z.div_mod_to_equations; lia).
  subst m. split.
  - split; [done|]. rewrite days_in_month_prime by done.
    rewrite <- leap_mod_400, Hmod. lia.
  - rewrite civil_serial_floor by done. unfold serial_floor. cbv zeta.
    rewrite Hmod, Hdiv, Hinv. subst d. unfold doy. Z.div_mod_to_equations. lia.
Qed.

(** ** Consecutive days *)

Lemma year_rollover a :
  (a + 1) / 400 * 146097 + first_doe ((a + 1) mod 400) =
    a / 400 * 146097 + first_doe (a mod 400) + year_length (a mod 400).
Proof.
  pose proof (Z.mod_pos_bound a 400 ltac:(lia)) as Ha.
  pose proof (year_endpoints (a mod 400) Ha) as He. unfold year_endpoints_ok in He.
  rewrite !andb_true_iff, orb_true_iff, !Z.eqb_eq in He. destruct He as [_ [He|He]].
  - destruct (decide (a mod 400 = 399)) as [E|E].
    + rewrite E. replace ((a + 1) mod 400) with 0 by (Z.div_mod_to_equations; lia).
      replace ((a + 1) / 400) with (a / 400 + 1) by (Z.div_mod_to_equations; lia).
      vm_compute (first_doe 0). vm_compute (first_doe 399).
      vm_compute (year_length 399). lia.
    + replace ((a + 1) mod 400) with (a mod 400 + 1) by (Z.div_mod_to_equations; lia).
      replace ((a + 1) / 400) with (a / 400) by (Z.div_mod_to_equations; lia). lia.
  - rewrite He. replace ((a + 1) mod 400) with 0 by (Z.div_mod_to_equations; lia).
    replace ((a + 1) / 400) with (a / 400 + 1) by (Z.div_mod_to_equations; lia).
    vm_compute (first_doe 0). vm_compute (first_doe 399).
    vm_compute (year_length 399). lia.
Qed.

Lemma month_rollover mp l :
  0 <= mp < 11 ->
  (153 * (mp + 1) + 2) / 5 = (153 * mp + 2) / 5 + month_length mp l.
Proof.
  intros Hmp. assert (H : 0 <= mp <= 11) by lia. destruct_month H; try lia; done.
Qed.

Lemma february_rollover (l : bool) :
  (153 * 11 + 2) / 5 + month_length 11 l = (if l then 366 else 365).
Proof. by destruct l. Qed.

Lemma next_month_serial y m :
  1 <= m <= 12 ->
  let '(y', m') := if decide (m < 12) then (y, m + 1) else (y + 1, 1) in
  civil_serial y' m' 1 = civil_serial y m (days_in_month y m) + 1.
Proof.
  intros Hm. destruct (prime_inverse m Hm) as [Hmp Hinv].
  pose proof (days_in_month_prime y (to_prime m) Hmp) as Hlen. rewrite Hinv in Hlen.
  rewrite <- leap_mod_400 in Hlen.
  destruct (decide (m = 2)) as [->|Hm2].
  - rewrite decide_True by lia. rewrite !civil_serial_floor by lia.
    unfold serial_floor. cbv zeta. change (to_prime 2) with 11 in *.
    change (to_prime (2 + 1)) with 0. unfold february_year in *. simpl in *.
    pose proof (year_rollover (y - 1)) as R. unfold year_length in R.
    replace (y - 1 + 1) with y in R by lia. rewrite R, Hlen.
    pose proof (february_rollover (leap ((y - 1) mod 400 + 1))) as F.
    change ((153 * 0 + 2) / 5) with 0. change (153 * 11 + 2) with 1685 in *. lia.
  - destruct (decide (m < 12)) as [H12|H12].
    + rewrite !civil_serial_floor by lia. unfold serial_floor. cbv zeta.
      replace (february_year y (m + 1)) with (february_year y m) by
        (unfold february_year; repeat case_decide; lia).
      replace (to_prime (m + 1)) with (to_prime m + 1) by
        (unfold to_prime; repeat case_decide; lia).
      rewrite (month_rollover (to_prime m) (leap (february_year y m mod 400 + 1))) by
        (unfold to_prime in *; repeat case_decide; lia).
      lia.
    + assert (m = 12) as -> by lia. rewrite !civil_serial_floor by lia.
      unfold serial_floor. cbv zeta.
      replace (february_year (y + 1) 1) with (february_year y 12) by
        (unfold february_year; repeat case_decide; lia).
      change (to_prime 1) with (9 + 1). change (to_prime 12) with 9 in *.
      rewrite (month_rollover 9 (leap (february_year y 12 mod 400 + 1))) by lia. lia.
Qed.

Lemma days_in_month_pos y m : 1 <= m <= 12 -> 28 <= days_in_month y m <= 31.
Proof.
  intros Hm. destruct (prime_inverse m Hm) as [Hmp Hinv]. rewrite <- Hinv.
  rewrite days_in_month_prime by done. unfold month_length.
  destruct_month Hmp; simpl; try lia. case_match; lia.
Qed.

Lemma civil_serial_bounds y m d :
  is_i32 y -> valid_date y m d -> -800000000000 < civil_serial y m d < 800000000000.
Proof.
  intros Hy [Hm Hd]. pose proof (days_in_month_pos y m Hm).
  rewrite civil_serial_floor by done. unfold serial_floor. cbv zeta.
  assert (Ha : y - 1 <= february_year y m <= y) by
    (unfold february_year; case_decide; lia).
  pose proof (Z.mod_pos_bound (february_year y m) 400 ltac:(lia)) as Hmod.
  pose proof (first_doe_bounds _ Hmod). destruct (prime_inverse m Hm) as [Hmp _].
  assert (365 <= year_length (february_year y m mod 400)) by
    (unfold year_length; case_match; lia).
  unfold is_i32 in Hy. clear Hmod.
  Z.div_mod_to_equations. lia.
Qed.

(** * Time of day *)

(** A calendar value as the C type can hold it. *)
Definition calendar_typed (c : mg_calendar_time_t) : Prop :=
  is_i32 (year c) /\ is_u8 (month c) /\ is_u8 (day c) /\ is_u8 (hour c) /\
  is_u8 (minute c) /\ is_u8 (second c) /\ is_u32 (cal_nanoseconds c).

#[export] Instance calendar_typed_dec c : Decision (calendar_typed c) := _.

Lemma calendar_valid_iff c :
  calendar_valid (Some c) = true <->
  valid_date (year c) (month c) (day c) /\ hour c <= 23 /\ minute c <= 59 /\
  second c <= 59 /\ cal_nanoseconds c < 1000000000.
Proof.
  unfold calendar_valid, valid_date, MG_TIME_NANOSECONDS_PER_SEC.
  rewrite !andb_true_iff, !Z.leb_le, Z.ltb_lt. lia.
Qed.

Definition day_seconds (h m s : Z) : Z := h * 3600 + m * 60 + s.

Lemma from_calendar_valid c o :
  calendar_typed c -> calendar_valid (Some c) = true ->
  mangrove_time_from_calendar (Some c) (Some o) =
    (MG_OK, Some (mk_time
       ((civil_serial (year c) (month c) (day c) - MG_EPOCH_SERIAL) * 86400 +
        day_seconds (hour c) (minute c) (second c)) (cal_nanoseconds c) 0)).
Proof.
  intros Ht Hv. unfold mangrove_time_from_calendar. rewrite Hv. cbn [negb].
  apply calendar_valid_iff in Hv as (Hd & _).
  destruct Ht as (Hy & _). pose proof (civil_serial_bounds _ _ _ Hy Hd) as Hb.
  change (MG_I64_MAX ÷ MG_SECONDS_PER_DAY) with 106751991167300.
  change (MG_I64_MIN ÷ MG_SECONDS_PER_DAY) with (-106751991167300).
  rewrite decide_False by (unfold MG_EPOCH_SERIAL; lia).
  do 3 f_equal. unfold day_seconds. change MG_SECONDS_PER_DAY with 86400.
  change MG_SECONDS_PER_HOUR with 3600. change MG_SECONDS_PER_MINUTE with 60. lia.
Qed.

(** Splitting a second count into days and a time of day, as the code does. *)
Lemma split_days s :
  (if decide (Z.rem s 86400 < 0)
   then (Z.rem s 86400 + 86400, s ÷ 86400 - 1)
   else (Z.rem s 86400, s ÷ 86400)) = (s mod 86400, s / 86400).
Proof.
  pose proof (Z.quot_rem s 86400 ltac:(lia)) as E.
  pose proof (Z.rem_bound_abs s 86400 ltac:(lia)) as B.
  case_decide; f_equal.
  - apply Z.mod_unique with (s ÷ 86400 - 1); lia.
  - apply Z.div_unique with (Z.rem s 86400 + 86400); lia.
  - apply Z.mod_unique with (s ÷ 86400); lia.
  - apply Z.div_unique with (Z.rem s 86400); lia.
Qed.

Lemma to_calendar_floor t o :
  nanoseconds t < 1000000000 ->
  mangrove_time_to_calendar (Some t) (Some o) =
    let '(y, m, d) := civil_of_serial (seconds t / 86400 + MG_EPOCH_SERIAL) in
    let r := seconds t mod 86400 in
    if decide (y < -2147483648 \/ y > 2147483647)
    then (MG_ERR_BAD_ARGUMENT, Some o)
    else (MG_OK, Some (mk_calendar y m d (r / 3600) (r mod 3600 / 60)
                         (r mod 3600 mod 60) (nanoseconds t))).
Proof.
  intros Hn. unfold mangrove_time_to_calendar.
  rewrite decide_False by (unfold MG_TIME_NANOSECONDS_PER_SEC; lia).
  change MG_SECONDS_PER_DAY with 86400. change MG_SECONDS_PER_HOUR with 3600.
  change MG_SECONDS_PER_MINUTE with 60. cbv zeta. rewrite split_days.
  rewrite serial_to_calendar_floor.
  destruct (civil_of_serial _) as [[y m] d] eqn:E.
  apply civil_of_serial_correct in E as [[Hm Hd] _].
  pose proof (days_in_month_pos y m Hm).
  case_decide; [done|].
  pose proof (Z.mod_pos_bound (seconds t) 86400 ltac:(lia)) as Hr.
  set (r := seconds t mod 86400) in *. cbn [year month day].
  rewrite Z.quot_div_nonneg, Z.rem_mod_nonneg by lia.
  pose proof (Z.mod_pos_bound r 3600 ltac:(lia)).
  rewrite Z.quot_div_nonneg, Z.rem_mod_nonneg by lia.
  assert (0 <= r / 3600 < 256) by (Z.div_mod_to_equations; lia).
  assert (0 <= r mod 3600 / 60 < 256) by (Z.div_mod_to_equations; lia).
  pose proof (Z.mod_pos_bound (r mod 3600) 60 ltac:(lia)).
  rewrite !u8_id by (unfold is_u8; lia). done.
Qed.

Lemma day_seconds_split h m s :
  0 <= h <= 23 -> 0 <= m <= 59 -> 0 <= s <= 59 ->
  let r := day_seconds h m s in
  0 <= r < 86400 /\ r / 3600 = h /\ r mod 3600 / 60 = m /\ r mod 3600 mod 60 = s.
Proof.
  intros Hh Hm Hs. cbv zeta. unfold day_seconds.
  assert (E : (h * 3600 + m * 60 + s) mod 3600 = m * 60 + s).
  { symmetry. apply Z.mod_unique with h; lia. }
  rewrite E. repeat split; try lia.
  - symmetry. apply Z.div_unique with (m * 60 + s); lia.
  - symmetry. apply Z.div_unique with s; lia.
  - symmetry. apply Z.mod_unique with m; lia.
Qed.

Lemma day_seconds_join r :
  0 <= r < 86400 ->
  day_seconds (r / 3600) (r mod 3600 / 60) (r mod 3600 mod 60) = r /\
  0 <= r / 3600 <= 23 /\ 0 <= r mod 3600 / 60 <= 59 /\ 0 <= r mod 3600 mod 60 <= 59.
Proof. intros. unfold day_seconds. Z.div_mod_to_equations. lia. Qed.

(** * Theorems *)

(** [civil_serial] is the day count of the proleptic Gregorian calendar.
    From any valid civil date, the calendar's next day (leap rule, month
    lengths, year ends) is a valid date whose serial is one larger, and the
    Mangrove epoch 2000-01-01 has the serial [MG_EPOCH_SERIAL]. *)
Theorem civil_serial_counts_days (y m d : Z) :
  valid_date y m d ->
  (let '(y', m', d') := next_day y m d in
   valid_date y' m' d' /\ civil_serial y' m' d' = civil_serial y m d + 1) /\
  civil_serial 2000 1 1 = MG_EPOCH_SERIAL.
Proof.
  intros [Hm Hd]. split; [|done]. unfold next_day.
  destruct (decide (d < days_in_month y m)) as [H|H].
  - split; [split; lia|]. rewrite !civil_serial_floor by done.
    unfold serial_floor. lia.
  - assert (d = days_in_month y m) as -> by lia.
    pose proof (next_month_serial y m Hm) as N. case_decide; (split; [|done]).
    + pose proof (days_in_month_pos y (m + 1) ltac:(lia)). split; lia.
    + pose proof (days_in_month_pos (y + 1) 1 ltac:(lia)). split; lia.
Qed.

Lemma civil_serial_counts_days_witness :
  valid_date 2024 2 28 /\ civil_serial 2024 2 29 = civil_serial 2024 2 28 + 1.
Proof.
  assert (H : valid_date 2024 2 28) by by_decision.
  split; [exact H|].
  exact (proj2 (proj1 (civil_serial_counts_days 2024 2 28 H))).
Defined.

(** Calendar to timestamp and back.  For every calendar value the C types
    can hold that [calendar_valid] accepts, [mangrove_time_from_calendar]
    succeeds (its overflow guard never fires), the timestamp fits 64 bits, and
    [mangrove_time_to_calendar] returns the same calendar value. *)
Theorem calendar_time_calendar (c : mg_calendar_time_t)
    (o : mg_mangrove_time_t) (o' : mg_calendar_time_t) :
  calendar_typed c -> calendar_valid (Some c) = true ->
  exists t,
    mangrove_time_from_calendar (Some c) (Some o) = (MG_OK, Some t) /\
    is_i64 (seconds t) /\
    mangrove_time_to_calendar (Some t) (Some o') = (MG_OK, Some c).
Proof.
  intros Ht Hv. eexists. split; [by apply from_calendar_valid|].
  apply calendar_valid_iff in Hv as (Hd & Hh & Hmi & Hs & Hn).
  destruct c as [y mo d h mi s ns].
  destruct Ht as (Hy & Hmo & Hd8 & Hh8 & Hmi8 & Hs8 & Hn32). cbn in *.
  pose proof (civil_serial_bounds _ _ _ Hy Hd) as Hb.
  unfold is_u8 in *.
  destruct (day_seconds_split h mi s ltac:(lia) ltac:(lia) ltac:(lia))
    as (Hr & E1 & E2 & E3).
  set (r := day_seconds h mi s) in *.
  split; [unfold is_i64, MG_EPOCH_SERIAL; lia|].
  rewrite to_calendar_floor by done. cbn [seconds nanoseconds].
  set (n := civil_serial y mo d) in *.
  replace (((n - MG_EPOCH_SERIAL) * 86400 + r) / 86400) with (n - MG_EPOCH_SERIAL) by
    (apply Z.div_unique with r; lia).
  replace (((n - MG_EPOCH_SERIAL) * 86400 + r) mod 86400) with r by
    (apply Z.mod_unique with (n - MG_EPOCH_SERIAL); lia).
  replace (n - MG_EPOCH_SERIAL + MG_EPOCH_SERIAL) with n by lia.
  unfold n. rewrite civil_of_serial_of_civil by done.
  unfold is_i32 in Hy. rewrite decide_False by lia. by rewrite E1, E2, E3.
Qed.

Lemma calendar_time_calendar_witness :
  exists t,
    mangrove_time_from_calendar (Some (mk_calendar 1999 12 31 23 59 59 5))
      (Some (mk_time 0 0 0)) = (MG_OK, Some t) /\ is_i64 (seconds t) /\
    mangrove_time_to_calendar (Some t) (Some (mk_calendar 0 0 0 0 0 0 0))
      = (MG_OK, Some (mk_calendar 1999 12 31 23 59 59 5)).
Proof.
  apply calendar_time_calendar; [|vm_compute; reflexivity].
  unfold calendar_typed; cbn; unfold_mach; lia.
Defined.

(** Timestamp to calendar and back.  For every 64-bit second count and
    canonical fraction, [mangrove_time_to_calendar] either yields a valid
    calendar value from which [mangrove_time_from_calendar] recovers the exact
    timestamp, or reports an error because the civil year does not fit the
    32-bit year field, leaving the output untouched. *)
Theorem time_calendar_time (s ns : Z) (o : mg_calendar_time_t)
    (o' : mg_mangrove_time_t) :
  is_i64 s -> 0 <= ns < 1000000000 ->
  (exists c,
     mangrove_time_to_calendar (Some (mk_time s ns 0)) (Some o) = (MG_OK, Some c) /\
     calendar_valid (Some c) = true /\
     mangrove_time_from_calendar (Some c) (Some o')
       = (MG_OK, Some (mk_time s ns 0))) \/
  (mangrove_time_to_calendar (Some (mk_time s ns 0)) (Some o)
     = (MG_ERR_BAD_ARGUMENT, Some o) /\
   ~ is_i32 (civil_of_serial (s / 86400 + MG_EPOCH_SERIAL)).1.1).
Proof.
  intros Hs Hn. rewrite to_calendar_floor by (simpl; lia).
  cbn [seconds nanoseconds].
  destruct (civil_of_serial _) as [[y m] d] eqn:E.
  apply civil_of_serial_correct in E as [Hd Eser].
  case_decide as Hy; [right; split; [done|simpl; unfold is_i32; lia]|left].
  pose proof (Z.mod_pos_bound s 86400 ltac:(lia)) as Hr.
  destruct (day_seconds_join _ Hr) as (Ej & H1 & H2 & H3).
  eexists. split; [done|].
  destruct Hd as [Hm Hd]. pose proof (days_in_month_pos y m Hm).
  assert (Hv : calendar_valid (Some (mk_calendar y m d (s mod 86400 / 3600)
    (s mod 86400 mod 3600 / 60) (s mod 86400 mod 3600 mod 60) ns)) = true).
  { apply calendar_valid_iff. cbn. split; [by split|]. lia. }
  split; [done|]. rewrite from_calendar_valid; [|unfold_mach; unfold calendar_typed;
    cbn; unfold_mach; lia|done].
  cbn. rewrite Ej, Eser. do 3 f_equal. Z.div_mod_to_equations. lia.
Qed.

Lemma time_calendar_time_witness :
  (exists c,
     mangrove_time_to_calendar (Some (mk_time (-1) 7 0))
       (Some (mk_calendar 0 0 0 0 0 0 0)) = (MG_OK, Some c) /\
     calendar_valid (Some c) = true /\
     mangrove_time_from_calendar (Some c) (Some (mk_time 0 0 0))
       = (MG_OK, Some (mk_time (-1) 7 0))) \/
  (mangrove_time_to_calendar (Some (mk_time (-1) 7 0))
     (Some (mk_calendar 0 0 0 0 0 0 0))
     = (MG_ERR_BAD_ARGUMENT, Some (mk_calendar 0 0 0 0 0 0 0)) /\
   ~ is_i32 (civil_of_serial (-1 / 86400 + MG_EPOCH_SERIAL)).1.1).
Proof. apply time_calendar_time; unfold_mach; lia. Defined.

(** The Unix conversion helpers copy the second count unchanged in both
    directions, although the Mangrove epoch (2000-01-01) and the Unix epoch
    (1970-01-01) are 946684800 seconds apart: the Unix count of the Unix epoch
    itself comes out as -946684800 rather than 0. *)
Theorem unix_conversion_keeps_mangrove_epoch (t : mg_mangrove_time_t)
    (o : mg_unix_time_t) (o' : mg_mangrove_time_t) :
  nanoseconds t < MG_TIME_NANOSECONDS_PER_SEC ->
  (exists u, mangrove_time_to_unix (Some t) (Some o) = (MG_OK, Some u) /\
     unix_seconds u = seconds t /\
     unix_time_to_mangrove (Some u) (Some o') =
       (MG_OK, Some (mk_time (seconds t) (nanoseconds t) 0))) /\
  (mangrove_time_from_calendar (Some (mk_calendar 1970 1 1 0 0 0 0)) (Some o')
     = (MG_OK, Some (mk_time (-946684800) 0 0)) /\
   mangrove_time_to_unix (Some (mk_time (-946684800) 0 0)) (Some o)
     = (MG_OK, Some (mk_unix (-946684800) 0 0))).
Proof.
  intros Hn. split; [|done]. unfold mangrove_time_to_unix, unix_time_to_mangrove.
  rewrite decide_False by lia. eexists. split; [done|]. split; [done|].
  cbn. by rewrite decide_False by lia.
Qed.

Lemma unix_conversion_keeps_mangrove_epoch_witness :
  exists u, mangrove_time_to_unix (Some (mk_time 10 0 0)) (Some (mk_unix 0 0 0))
      = (MG_OK, Some u) /\
    unix_seconds u = 10 /\
    unix_time_to_mangrove (Some u) (Some (mk_time 1 1 1)) =
      (MG_OK, Some (mk_time 10 0 0)).
Proof.
  exact (proj1 (unix_conversion_keeps_mangrove_epoch (mk_time 10 0 0)
    (mk_unix 0 0 0) (mk_time 1 1 1) ltac:(vm_compute; reflexivity))).
Defined.

End TimeConvert.
