(* ===== verification/Clock.v ===== *)
(** Wall clock: CMOS register decoding ([kernel/src/rtc_decode.c]), the CMOS
    read protocol ([kernel/src/rtc.c]) and the kernel clock that advances from
    the boot-time sample ([kernel/src/timekeeping.c]).

    The CMOS device is a parameter: [cmos n i] is the byte the data port
    returns on the [n]-th read with index byte [i] selected, so registers may
    change between any two reads.  Time stamp counter, entropy and uptime
    readings are arguments. *)
From S2P Require Import Prelude TimeConvert.
Import TimeConvert.

Module Clock.

(** * Register decoding (rtc_decode.c) *)

Record rtc_calendar_t := mk_rtc_calendar {
  rtc_year : Z; rtc_month : Z; rtc_day : Z;
  rtc_hour : Z; rtc_minute : Z; rtc_second : Z;
}.

Record rtc_register_sample_t := mk_sample {
  s_seconds : Z; s_minutes : Z; s_hours : Z; s_day : Z; s_month : Z;
  s_year : Z; s_century : Z; s_status_b : Z; s_century_valid : bool;
}.

#[export] Instance rtc_register_sample_eq_dec : EqDecision rtc_register_sample_t.
Proof. solve_decision. Defined.

Definition rtc_is_leap_year (year : Z) : bool :=
  (Z.rem year 4 =? 0) &&
  (negb (Z.rem year 100 =? 0) || (Z.rem year 400 =? 0)).

Definition rtc_days_in_month (year month : Z) : Z :=
  if (month =? 2) && rtc_is_leap_year year then 29
  else nth (Z.to_nat (month - 1)) [31; 28; 31; 30; 31; 30; 31; 31; 30; 31; 30; 31] 0.

(** [false] is [None]; the output pointer is never [NULL] in this file. *)
Definition rtc_decode_bcd (value : Z) : option Z :=
  let low := Z.land value 15 in
  let high := Z.land (Z.shiftr value 4) 15 in
  if decide (low > 9 \/ high > 9) then None else Some (u8 (high * 10 + low)).

Definition rtc_decode_value (value : Z) (binary : bool) : option Z :=
  if binary then Some value else rtc_decode_bcd value.

(** The 12-hour adjustment: 12 AM is hour 0, PM adds 12. *)
Definition rtc_adjust_hours (twenty_four_hour pm : bool) (hours : Z) : option Z :=
  if twenty_four_hour then Some hours
  else if decide (hours < 1 \/ hours > 12) then None
  else
    let hours := if decide (hours = 12) then 0 else hours in
    Some (if pm then u8 (hours + 12) else hours).

Definition rtc_full_year (sample : rtc_register_sample_t) (binary : bool) (year : Z)
  : option Z :=
  if s_century_valid sample
  then century ← rtc_decode_value (s_century sample) binary;
       Some (century * 100 + year)
  else Some ((if decide (year < 70) then 2000 else 1900) + year).

Definition rtc_decode_sample (sample : option rtc_register_sample_t)
    (out : option rtc_calendar_t) : bool * option rtc_calendar_t :=
  match sample, out with
  | Some s, Some _ =>
      let binary := bool_decide (Z.land (s_status_b s) 4 <> 0) in
      let twenty_four_hour := bool_decide (Z.land (s_status_b s) 2 <> 0) in
      let decoded :=
        seconds ← rtc_decode_value (s_seconds s) binary;
        minutes ← rtc_decode_value (s_minutes s) binary;
        hours ← rtc_decode_value
                  (Z.land (s_hours s) (if twenty_four_hour then 255 else 127)) binary;
        day ← rtc_decode_value (s_day s) binary;
        month ← rtc_decode_value (s_month s) binary;
        year ← rtc_decode_value (s_year s) binary;
        hours ← rtc_adjust_hours twenty_four_hour
                  (bool_decide (Z.land (s_hours s) 128 <> 0)) hours;
        full_year ← rtc_full_year s binary year;
        if decide (full_year < 1 \/ month < 1 \/ month > 12 \/ day < 1 \/
                   day > rtc_days_in_month full_year month \/
                   hours > 23 \/ minutes > 59 \/ seconds > 59)
        then None
        else Some (mk_rtc_calendar full_year month day hours minutes seconds) in
      match decoded with
      | Some c => (true, Some c)
      | None => (false, out)
      end
  | _, _ => (false, out)
  end.

(** * CMOS access (rtc.c) *)

Definition CMOS_STATUS_A : Z := 10.
Definition CMOS_STATUS_B : Z := 11.
Definition CMOS_SECONDS : Z := 0.
Definition CMOS_MINUTES : Z := 2.
Definition CMOS_HOURS : Z := 4.
Definition CMOS_DAY : Z := 7.
Definition CMOS_MONTH : Z := 8.
Definition CMOS_YEAR : Z := 9.
Definition CMOS_UIP : Z := 128.
Definition RTC_UIP_RETRIES : Z := 100000.
Definition RTC_STABLE_RETRIES : Z := 8.

(** The device as the driver sees it: how many data-port reads have happened
    and the byte currently latched in the index port. *)
Record cmos_state := mk_cmos { reads : nat; index_port : Z }.

Section Device.
Context (cmos : nat -> Z -> Z).

Definition cmos_read (saved_index reg : Z) (d : cmos_state) : Z * cmos_state :=
    let selected := u8 (Z.lor (Z.land saved_index 128) reg) in
    (u8 (cmos (reads d) selected), mk_cmos (S (reads d)) saved_index).

Fixpoint rtc_wait_loop (attempts : nat) (saved_index : Z) (d : cmos_state)
    : bool * cmos_state :=
    match attempts with
    | O => (false, d)
    | S attempts =>
        let '(a, d) := cmos_read saved_index CMOS_STATUS_A d in
        if decide (Z.land a CMOS_UIP = 0) then (true, d)
        else rtc_wait_loop attempts saved_index d
    end.

Definition rtc_wait_for_update_clear (saved_index : Z) (d : cmos_state)
    : bool * cmos_state :=
    rtc_wait_loop (Z.to_nat RTC_UIP_RETRIES) saved_index d.

  (** [None] in the sample position is the early [return false]; the sample is
      complete before the final check that no update started meanwhile. *)
Definition rtc_read_sample (saved_index century_register : Z)
      (century_valid : bool) (d : cmos_state)
    : option rtc_register_sample_t * cmos_state :=
    let '(clear, d) := rtc_wait_for_update_clear saved_index d in
    if negb clear then (None, d)
    else
      let '(b, d) := cmos_read saved_index CMOS_STATUS_B d in
      let '(s, d) := cmos_read saved_index CMOS_SECONDS d in
      let '(mi, d) := cmos_read saved_index CMOS_MINUTES d in
      let '(h, d) := cmos_read saved_index CMOS_HOURS d in
      let '(dy, d) := cmos_read saved_index CMOS_DAY d in
      let '(mo, d) := cmos_read saved_index CMOS_MONTH d in
      let '(y, d) := cmos_read saved_index CMOS_YEAR d in
      let '(c, d) := if century_valid
                     then cmos_read saved_index century_register d else (0, d) in
      let '(clear, d) := rtc_wait_for_update_clear saved_index d in
      (if clear then Some (mk_sample s mi h dy mo y c b century_valid) else None, d).

Definition rtc_samples_equal (left right : rtc_register_sample_t) : bool :=
    (s_seconds left =? s_seconds right) && (s_minutes left =? s_minutes right) &&
    (s_hours left =? s_hours right) && (s_day left =? s_day right) &&
    (s_month left =? s_month right) && (s_year left =? s_year right) &&
    (s_century left =? s_century right) && (s_status_b left =? s_status_b right) &&
    eqb (s_century_valid left) (s_century_valid right).

Fixpoint rtc_stable_loop (attempts : nat) (saved_index century_register : Z)
      (century_valid : bool) (out : rtc_calendar_t) (d : cmos_state)
    : bool * rtc_calendar_t * cmos_state :=
    match attempts with
    | O => (false, out, mk_cmos (reads d) saved_index)
    | S attempts =>
        match rtc_read_sample saved_index century_register century_valid d with
        | (None, d) => (false, out, mk_cmos (reads d) saved_index)
        | (Some first, d) =>
            match rtc_read_sample saved_index century_register century_valid d with
            | (None, d) => (false, out, mk_cmos (reads d) saved_index)
            | (Some second, d) =>
                if rtc_samples_equal first second then
                  let '(valid, out') := rtc_decode_sample (Some first) (Some out) in
                  (valid, default out out', mk_cmos (reads d) saved_index)
                else rtc_stable_loop attempts saved_index century_register
                       century_valid out d
            end
        end
    end.

  (** [century] is what [acpi_fadt_has_rtc_century] reports: the register
      number when the FADT names one. *)
Definition rtc_read_calendar (century : option Z) (out : option rtc_calendar_t)
      (d : cmos_state) : bool * option rtc_calendar_t * cmos_state :=
    match out with
    | None => (false, None, d)
    | Some o =>
        let saved_index := index_port d in
        let '(r, o', d') :=
          rtc_stable_loop (Z.to_nat RTC_STABLE_RETRIES) saved_index
            (default 0 century) (bool_decide (is_Some century)) o d in
        (r, Some o', d')
    end.
End Device.

(** * Kernel clock (timekeeping.c) *)

Definition TIME_I64_MAX : Z := 9223372036854775807.

Record clock_state := mk_clock {
  realtime_sync : mg_mangrove_time_t;
  realtime_sync_monotonic_ms : Z;
  realtime_available : bool;
  boot_id : Z;
}.

(** [tsc1], [tsc2]: the two time stamp counter readings; [entropy]: the
    hardware random value when [entropy_random_u64] succeeds. *)
Definition timekeeping_boot_identifier (calendar : option rtc_calendar_t)
    (tsc1 tsc2 uptime_ms : Z) (entropy : option Z) : Z :=
  let identifier := u64 tsc1 in
  let identifier := Z.lxor identifier (u64 (Z.shiftl tsc2 17)) in
  let identifier := Z.lxor identifier (u64 (uptime_ms * 11400714819323198485)) in
  let identifier :=
    match calendar with
    | None => identifier
    | Some c =>
        let identifier := Z.lxor identifier (u64 (u32 (rtc_year c) * 1099511628211)) in
        let identifier := Z.lxor identifier (Z.shiftl (rtc_month c) 48) in
        let identifier := Z.lxor identifier (Z.shiftl (rtc_day c) 40) in
        let identifier := Z.lxor identifier (Z.shiftl (rtc_hour c) 32) in
        let identifier := Z.lxor identifier (Z.shiftl (rtc_minute c) 24) in
        Z.lxor identifier (Z.shiftl (rtc_second c) 16)
    end in
  let identifier := Z.lxor identifier (default 0 entropy) in
  let identifier := Z.lxor identifier (Z.shiftr identifier 30) in
  let identifier := u64 (identifier * 13787848793156543929) in
  let identifier := Z.lxor identifier (Z.shiftr identifier 27) in
  let identifier := u64 (identifier * 10723151780598845931) in
  let identifier := Z.lxor identifier (Z.shiftr identifier 31) in
  if decide (identifier <> 0) then identifier else 1.

(** [rtc] is the outcome of [rtc_read_calendar]: the calendar it stored when
    it returned true.  [uptime_ms] and [uptime_ms'] are the two
    [timer_uptime_ms] readings the function makes. *)
Definition timekeeping_init (rtc : option rtc_calendar_t)
    (uptime_ms uptime_ms' tsc1 tsc2 : Z) (entropy : option Z) : clock_state :=
  let sync := mk_time 0 0 0 in
  let '(available, sync) :=
    match rtc with
    | None => (false, sync)
    | Some c =>
        let public_calendar :=
          mk_calendar (rtc_year c) (rtc_month c) (rtc_day c) (rtc_hour c)
            (rtc_minute c) (rtc_second c) 0 in
        let '(result, sync') :=
          mangrove_time_from_calendar (Some public_calendar) (Some sync) in
        (bool_decide (result = MG_OK), default sync sync')
    end in
  mk_clock sync uptime_ms available
    (timekeeping_boot_identifier (if available then rtc else None)
       tsc1 tsc2 uptime_ms' entropy).

Definition timekeeping_realtime (st : clock_state) (uptime_ms : Z)
    (out : option mg_mangrove_time_t) : bool * option mg_mangrove_time_t :=
  match out with
  | None => (false, None)
  | Some _ =>
      if negb (realtime_available st) then (false, out)
      else
        let elapsed_ms := u64 (uptime_ms - realtime_sync_monotonic_ms st) in
        let elapsed_seconds := elapsed_ms / 1000 in
        let elapsed_nanoseconds := u32 (elapsed_ms mod 1000 * 1000000) in
        if decide (elapsed_seconds > TIME_I64_MAX) then (false, out)
        else if decide (seconds (realtime_sync st) > TIME_I64_MAX - elapsed_seconds)
        then (false, out)
        else
          let s := seconds (realtime_sync st) + elapsed_seconds in
          let ns := u32 (nanoseconds (realtime_sync st) + elapsed_nanoseconds) in
          if decide (ns >= MG_TIME_NANOSECONDS_PER_SEC) then
            let ns := u32 (ns - MG_TIME_NANOSECONDS_PER_SEC) in
            if decide (s = TIME_I64_MAX) then (false, out)
            else (true, Some (mk_time (s + 1) ns 0))
          else (true, Some (mk_time s ns 0))
  end.

Definition timekeeping_monotonic_ms (uptime_ms : Z) : Z := uptime_ms.
Definition timekeeping_realtime_available (st : clock_state) : bool :=
  realtime_available st.
Definition timekeeping_boot_id (st : clock_state) : Z := boot_id st.

(** * Decoding lemmas *)

Lemma rtc_days_agree y m : rtc_days_in_month y m = days_in_month y m.
Proof. done. Qed.

(** The public form of a decoded RTC calendar. *)
Definition public_calendar (c : rtc_calendar_t) : mg_calendar_time_t :=
  mk_calendar (rtc_year c) (rtc_month c) (rtc_day c) (rtc_hour c)
    (rtc_minute c) (rtc_second c) 0.

Definition sample_typed (s : rtc_register_sample_t) : Prop :=
  is_u8 (s_seconds s) /\ is_u8 (s_minutes s) /\ is_u8 (s_hours s) /\
  is_u8 (s_day s) /\ is_u8 (s_month s) /\ is_u8 (s_year s) /\
  is_u8 (s_century s) /\ is_u8 (s_status_b s).

#[export] Instance sample_typed_dec s : Decision (sample_typed s) := _.

Lemma decode_value_range v b x :
  is_u8 v -> rtc_decode_value v b = Some x -> is_u8 x.
Proof.
  unfold rtc_decode_value, rtc_decode_bcd. destruct b; [by intros ? [= <-]|].
  intros _. case_decide; [done|]. intros [= <-]. auto with mangrove.
Qed.

Lemma land_byte_range a b : is_u8 a -> is_u8 (Z.land a b).
Proof.
  unfold is_u8. intros Ha. pose proof (land_le_l a b). lia.
Qed.

Lemma adjust_hours_range h24 pm h x :
  is_u8 h -> rtc_adjust_hours h24 pm h = Some x -> is_u8 x.
Proof.
  unfold rtc_adjust_hours. intros Hh. destruct h24; [by intros [= <-]|].
  case_decide; [done|]. intros [= <-]. destruct pm; [auto with mangrove|].
  case_decide; unfold is_u8 in *; lia.
Qed.

Lemma decode_sample_valid s o c :
  sample_typed s ->
  rtc_decode_sample (Some s) (Some o) = (true, Some c) ->
  1 <= rtc_year c /\ calendar_typed (public_calendar c) /\
  calendar_valid (Some (public_calendar c)) = true.
Proof.
  intros (H1 & H2 & H3 & H4 & H5 & H6 & H7 & H8). unfold rtc_decode_sample. cbv zeta.
  set (bin := bool_decide (Z.land (s_status_b s) 4 <> 0)).
  set (h24 := bool_decide (Z.land (s_status_b s) 2 <> 0)).
  case_match eqn:E; [intros [= ->]|done].
  repeat (apply bind_Some in E as (? & ? & E)). case_decide; simplify_eq.
  assert (is_u8 (Z.land (s_hours s) (if h24 then 255 else 127))) by
    by apply land_byte_range.
  repeat match goal with
    | H : rtc_decode_value _ _ = Some _ |- _ =>
        apply decode_value_range in H; [|done]
    | H : rtc_adjust_hours _ _ _ = Some _ |- _ =>
        apply adjust_hours_range in H; [|done]
    end.
  assert (Hy : forall y, rtc_full_year s bin y = Some x6 -> is_u8 y -> x6 < 26000).
  { unfold rtc_full_year. intros y. destruct (s_century_valid s).
    - intros Hb Hy. apply bind_Some in Hb as (ce & Hce & [= <-]).
      apply decode_value_range in Hce; [|done]. unfold is_u8 in *. lia.
    - intros [= <-] Hy. unfold is_u8 in Hy. case_decide; lia. }
  match goal with H : rtc_full_year _ _ _ = Some _ |- _ => apply Hy in H; [|done] end.
  rewrite calendar_valid_iff. rewrite rtc_days_agree in *.
  unfold calendar_typed, valid_date, public_calendar. cbn. unfold_mach.
  lia.
Qed.

(** * The read protocol leaves the device as it found it *)

Section DeviceLemmas.
Context (cmos : nat -> Z -> Z).

Lemma wait_loop_index n i d :
    index_port d = i -> index_port (rtc_wait_loop cmos n i d).2 = i.
  Proof.
    revert d. induction n as [|n IH]; intros d Hd; [done|]. cbn.
    case_decide; [done|]. by apply IH.
  Qed.

Lemma read_sample_typed i cr cv d s d' :
    rtc_read_sample cmos i cr cv d = (Some s, d') -> sample_typed s.
  Proof.
    unfold rtc_read_sample, rtc_wait_for_update_clear.
    destruct (rtc_wait_loop cmos _ i d) as [[] d0]; [|done]. cbn [negb].
    unfold cmos_read. cbn [reads].
    destruct cv; destruct (rtc_wait_loop cmos _ i _) as [[] d1]; try done;
      intros [= <- _]; unfold sample_typed; cbn; repeat split; try apply u8_range;
      lia.
  Qed.

Lemma stable_loop_spec n i cr cv o d :
    let '(r, o', d') := rtc_stable_loop cmos n i cr cv o d in
    index_port d' = i /\
    (r = true -> 1 <= rtc_year o' /\ calendar_typed (public_calendar o') /\
       calendar_valid (Some (public_calendar o')) = true) /\
    (r = false -> o' = o).
  Proof.
    revert d. induction n as [|n IH]; intros d; [done|]. cbn [rtc_stable_loop].
    destruct (rtc_read_sample cmos i cr cv d) as [[first|] d1] eqn:E1; [|done].
    destruct (rtc_read_sample cmos i cr cv d1) as [[second|] d2] eqn:E2; [|done].
    destruct (rtc_samples_equal first second); [|apply IH].
    apply read_sample_typed in E1.
    destruct (rtc_decode_sample (Some first) (Some o)) as [valid out'] eqn:E.
    split; [done|]. destruct valid.
    - split; [|done]. intros _.
      assert (exists c, out' = Some c) as [c ->].
      { unfold rtc_decode_sample in E. case_match; simplify_eq. by eexists. }
      cbn. by eapply decode_sample_valid.
    - split; [done|]. intros _. unfold rtc_decode_sample in E.
      case_match; by simplify_eq.
  Qed.
End DeviceLemmas.

(** * Theorems *)

(** For any behaviour of the CMOS device, including registers that change
    between reads, [rtc_read_calendar] restores the index port (and with it the
    NMI mask) to the value it found; when it returns true the stored calendar
    is valid, fits the public calendar type and converts to a timestamp; when
    it returns false the output is untouched. *)
Theorem rtc_read_calendar_valid (cmos : nat -> Z -> Z) (century : option Z)
    (o : rtc_calendar_t) (d : cmos_state) :
  let '(r, out, d') := rtc_read_calendar cmos century (Some o) d in
  index_port d' = index_port d /\
  (r = true -> exists c, out = Some c /\ 1 <= rtc_year c /\
     calendar_typed (public_calendar c) /\
     calendar_valid (Some (public_calendar c)) = true) /\
  (r = false -> out = Some o).
Proof.
  unfold rtc_read_calendar.
  pose proof (stable_loop_spec cmos (Z.to_nat RTC_STABLE_RETRIES) (index_port d)
    (default 0 century) (bool_decide (is_Some century)) o d) as H.
  destruct (rtc_stable_loop _ _ _ _ _ _ _) as [[r o'] d']. destruct H as (H1 & H2 & H3).
  split; [done|]. split.
  - intros Hr. exists o'. by split; [|apply H2].
  - intros Hr. by rewrite H3.
Qed.

(** Two BCD digits. *)
Definition bcd (n : Z) : Z := n / 10 * 16 + n mod 10.

Lemma decode_bcd_bcd n : 0 <= n < 100 -> rtc_decode_bcd (bcd n) = Some n.
Proof.
  intros Hn.
  assert (H : forallb (fun n => bool_decide (rtc_decode_bcd (bcd n) = Some n))
                (seqZ 0 100) = true) by (vm_compute; reflexivity).
  rewrite forallb_forall in H. apply (bool_decide_eq_true_1 _), H.
  apply list_elem_of_In, elem_of_seqZ. lia.
Qed.

Lemma bcd_byte n : 0 <= n < 100 -> Z.land (bcd n) 255 = bcd n.
Proof.
  intros Hn. replace 255 with (Z.ones 8) by done. rewrite land_low_mask by lia.
  apply Z.mod_small. unfold bcd. change (2 ^ 8) with 256. Z.div_mod_to_equations. lia.
Qed.

(** RTC register decoding inverts the BCD encoding in 24-hour mode.  Every
    civil date and time with a year in 1970..2069, stored as BCD digits with a
    two-digit year and no century register, decodes to exactly that date and
    time: 00..69 are years after 1999, 70..99 before 2000. *)
Theorem rtc_decode_bcd_round_trip (y m d h mi s : Z) (o : rtc_calendar_t) :
  1970 <= y <= 2069 -> valid_date y m d ->
  0 <= h <= 23 -> 0 <= mi <= 59 -> 0 <= s <= 59 ->
  rtc_decode_sample
    (Some (mk_sample (bcd s) (bcd mi) (bcd h) (bcd d) (bcd m) (bcd (y mod 100)) 0 2
             false)) (Some o)
  = (true, Some (mk_rtc_calendar y m d h mi s)).
Proof.
  intros Hy [Hm Hd] Hh Hmi Hs. pose proof (days_in_month_pos y m Hm).
  unfold rtc_decode_sample. cbv zeta. cbn [s_status_b s_seconds s_minutes s_hours
    s_day s_month s_year].
  change (bool_decide (Z.land 2 4 <> 0)) with false.
  change (bool_decide (Z.land 2 2 <> 0)) with true. cbn [rtc_decode_value].
  rewrite bcd_byte by lia.
  pose proof (Z.mod_pos_bound y 100 ltac:(lia)).
  rewrite !decode_bcd_bcd by lia. cbn [mbind option_bind rtc_adjust_hours].
  unfold rtc_full_year. cbn [s_century_valid mbind option_bind].
  replace ((if decide (y mod 100 < 70) then 2000 else 1900) + y mod 100) with y by
    (case_decide; Z.div_mod_to_equations; lia).
  rewrite decide_False; [done|]. rewrite rtc_days_agree. lia.
Qed.

Lemma rtc_decode_bcd_round_trip_witness :
  rtc_decode_sample
    (Some (mk_sample (bcd 59) (bcd 58) (bcd 23) (bcd 31) (bcd 12) (bcd (2024 mod 100))
             0 2 false)) (Some (mk_rtc_calendar 0 0 0 0 0 0))
  = (true, Some (mk_rtc_calendar 2024 12 31 23 58 59)).
Proof.
  apply rtc_decode_bcd_round_trip; try lia. by_decision.
Defined.

(** Timestamps as a count of nanoseconds. *)
Definition total_ns (t : mg_mangrove_time_t) : Z := seconds t * 1000000000 + nanoseconds t.

Lemma init_sync rtc u u' a b e :
  nanoseconds (realtime_sync (timekeeping_init rtc u u' a b e)) = 0 /\
  realtime_sync_monotonic_ms (timekeeping_init rtc u u' a b e) = u.
Proof.
  unfold timekeeping_init. destruct rtc as [c|]; [|done].
  unfold mangrove_time_from_calendar. repeat case_match; by simplify_eq.
Qed.

(** A validated RTC sample always makes real time available, stamped with
    the sample's civil time and the uptime of the reading; afterwards
    [timekeeping_realtime] returns exactly that instant plus the elapsed
    milliseconds, as a canonical 64-bit timestamp, and the boot identifier is
    never zero. *)
Theorem timekeeping_realtime_correct (c : rtc_calendar_t)
    (u u' a b now : Z) (e : option Z) (o : mg_mangrove_time_t) :
  calendar_typed (public_calendar c) ->
  calendar_valid (Some (public_calendar c)) = true ->
  is_u64 u -> is_u64 now -> u <= now ->
  let st := timekeeping_init (Some c) u u' a b e in
  realtime_available st = true /\
  mangrove_time_from_calendar (Some (public_calendar c)) (Some o)
    = (MG_OK, Some (realtime_sync st)) /\
  (exists t, timekeeping_realtime st now (Some o) = (true, Some t) /\
     total_ns t = total_ns (realtime_sync st) + (now - u) * 1000000 /\
     0 <= nanoseconds t < 1000000000 /\ is_i64 (seconds t)) /\
  timekeeping_boot_id st <> 0.
Proof.
  intros Ht Hv Hu Hnow Hle st.
  destruct (init_sync (Some c) u u' a b e) as [Hns Hms]. fold st in Hns, Hms.
  pose proof (from_calendar_valid _ (mk_time 0 0 0) Ht Hv) as Hf.
  assert (Hav : realtime_available st = true).
  { unfold st, timekeeping_init. cbv zeta. change (mk_calendar _ _ _ _ _ _ 0) with
      (public_calendar c). by rewrite Hf. }
  assert (Hsync : mangrove_time_from_calendar (Some (public_calendar c)) (Some o)
    = (MG_OK, Some (realtime_sync st))).
  { rewrite (from_calendar_valid _ o Ht Hv). unfold st, timekeeping_init. cbv zeta.
    change (mk_calendar _ _ _ _ _ _ 0) with (public_calendar c). by rewrite Hf. }
  split; [done|]. split; [done|]. split.
  - assert (Hs : -10 ^ 18 < seconds (realtime_sync st) < 10 ^ 18).
    { rewrite (from_calendar_valid _ o Ht Hv) in Hsync. injection Hsync as Hsync.
      rewrite <- Hsync. cbn [seconds].
      apply calendar_valid_iff in Hv as (Hd & Hh & Hm & Hse & _).
      destruct Ht as (Hy & _ & _ & H1 & H2 & H3 & _).
      pose proof (civil_serial_bounds _ _ _ Hy Hd). unfold is_u8 in *.
      unfold day_seconds, MG_EPOCH_SERIAL, public_calendar in *. cbn in *. lia. }
    unfold timekeeping_realtime. rewrite Hav. cbn [negb]. rewrite Hms, Hns.
    unfold is_u64 in *. rewrite u64_id by (unfold is_u64; lia).
    assert (0 <= (now - u) / 1000 <= 18446744073709552) by (Z.div_mod_to_equations; lia).
    pose proof (Z.mod_pos_bound (now - u) 1000 ltac:(lia)).
    rewrite decide_False by (unfold TIME_I64_MAX; lia).
    rewrite decide_False by (unfold TIME_I64_MAX; lia).
    rewrite (u32_id (_ * 1000000)) by (unfold is_u32; lia).
    rewrite u32_id by (unfold is_u32; lia).
    rewrite decide_False by (unfold MG_TIME_NANOSECONDS_PER_SEC; lia).
    eexists. split; [done|]. unfold total_ns, is_i64. cbn [seconds nanoseconds].
    rewrite Hns. pose proof (Z.div_mod (now - u) 1000 ltac:(lia)). lia.
  - unfold timekeeping_boot_id, st, timekeeping_init. case_match. cbn [boot_id].
    unfold timekeeping_boot_identifier. cbv zeta. case_decide; [done|lia].
Qed.

Lemma timekeeping_realtime_correct_witness :
  exists t, timekeeping_realtime
      (timekeeping_init (Some (mk_rtc_calendar 2000 1 1 0 0 0)) 500 501 7 9 None)
      2750 (Some (mk_time 0 0 0)) = (true, Some t) /\
    total_ns t = 0 + (2750 - 500) * 1000000.
Proof.
  destruct (timekeeping_realtime_correct (mk_rtc_calendar 2000 1 1 0 0 0)
    500 501 7 9 2750 None (mk_time 0 0 0)) as (_ & _ & (t & H & Hn & _) & _);
    try (unfold calendar_typed; cbn; unfold_mach; lia); [vm_compute; reflexivity|].
  exists t. split; [exact H|exact Hn].
Defined.

End Clock.
