(* ===== verification/ConfigParser.v ===== *)
(** The kernel configuration parser ([kernel/src/config_parser.c]).

    The text is the list of its bytes; the parser's [position] is represented
    by the suffix still to be read, so [position < length] is "the suffix is
    not empty" and [text[position]] its head.  The [goto malformed] exits are
    [None]/[Malformed]. *)
From S2P Require Import Prelude CString.
Import CString.

Module ConfigParser.

Definition KERNEL_CONFIG_MAX_ENTRIES : Z := 32.
Definition KERNEL_CONFIG_KEY_MAX : Z := 32.
Definition KERNEL_CONFIG_VALUE_MAX : Z := 128.

(** The strings held by the two character arrays of an entry. *)
Record kernel_config_entry_t := Entry {
  key : list Z;
  value : list Z;
}.

(** [entries[0 .. count)]; the remaining array elements stay zeroed. *)
Record kernel_config_document_t := Document {
  entries : list kernel_config_entry_t;
}.
Definition count (d : kernel_config_document_t) : Z := Z.of_nat (length (entries d)).

#[export] Instance kernel_config_entry_eq_dec : EqDecision kernel_config_entry_t.
Proof. solve_decision. Defined.
#[export] Instance kernel_config_document_eq_dec : EqDecision kernel_config_document_t.
Proof. solve_decision. Defined.

Definition is_space (c : Z) : bool := (c =? 32) || (c =? 9) || (c =? 13).

Definition is_key_char (c : Z) : bool :=
  ((97 <=? c) && (c <=? 122)) || ((65 <=? c) && (c <=? 90)) ||
  ((48 <=? c) && (c <=? 57)) || (c =? 95) || (c =? 45) || (c =? 46).

Definition starts_comment (rest : list Z) : bool :=
  match rest with
  | a :: b :: _ => (a =? 47) && (b =? 47)
  | _ => false
  end.

(** [output] holds [*length] characters; [None] when the array is full. *)
Definition append_char (output : list Z) (capacity : Z) (c : Z) : option (list Z) :=
  if decide (strlen output + 1 >= capacity) then None else Some (output ++ [c]).

(** The scanning loops of [kernel_config_parse]. *)
Fixpoint skip_spaces (rest : list Z) : list Z :=
  match rest with
  | c :: rest' => if is_space c then skip_spaces rest' else rest
  | [] => []
  end.

Fixpoint skip_line (rest : list Z) : list Z :=
  match rest with
  | c :: rest' => if decide (c <> 10) then skip_line rest' else rest
  | [] => []
  end.

Fixpoint scan_key (rest key : list Z) : option (list Z * list Z) :=
  match rest with
  | c :: rest' =>
      if is_key_char c then
        if decide (strlen key + 1 >= KERNEL_CONFIG_KEY_MAX) then None
        else scan_key rest' (key ++ [c])
      else Some (key, rest)
  | [] => Some (key, [])
  end.

(** The loop after the opening quote; running out of text leaves
    [terminated] false. *)
Fixpoint scan_quoted (rest value : list Z) : option (list Z * list Z) :=
  match rest with
  | [] => None
  | current :: rest =>
      if decide (current = 34) then Some (value, rest)
      else if decide (current = 92) then
        match rest with
        | [] => None
        | escaped :: rest =>
            if decide (escaped <> 34 /\ escaped <> 92) then None
            else if decide (escaped = 10) then None
            else match append_char value KERNEL_CONFIG_VALUE_MAX escaped with
                 | None => None
                 | Some value => scan_quoted rest value
                 end
        end
      else if decide (current = 10) then None
      else match append_char value KERNEL_CONFIG_VALUE_MAX current with
           | None => None
           | Some value => scan_quoted rest value
           end
  end.

(** The characters before a newline, a comment or the end of the text. *)
Fixpoint scan_plain (rest : list Z) : list Z :=
  match rest with
  | c :: rest' =>
      if decide (c <> 10) then
        if starts_comment rest then [] else c :: scan_plain rest'
      else []
  | [] => []
  end.

(** The loop that moves [position] back over trailing spaces. *)
Fixpoint trim_end (s : list Z) : list Z :=
  match s with
  | [] => []
  | c :: s =>
      match trim_end s with
      | [] => if is_space c then [] else [c]
      | t => c :: t
      end
  end.

(** The two branches of the value part: the value and the text after it. *)
Definition parse_quoted (rest : list Z) : option (list Z * list Z) :=
  match scan_quoted rest [] with
  | None => None
  | Some (value, rest) =>
      let rest := skip_spaces rest in
      match rest with
      | c :: _ =>
          if negb (starts_comment rest) && negb (c =? 10) then None
          else Some (value, rest)
      | [] => Some (value, rest)
      end
  end.

Definition parse_plain (rest : list Z) : option (list Z * list Z) :=
  let value := trim_end (scan_plain rest) in
  if decide (strlen value >= KERNEL_CONFIG_VALUE_MAX) then None
  else Some (value, drop (length value) rest).

Definition parse_value (rest : list Z) : option (list Z * list Z) :=
  match rest with
  | c :: after => if decide (c = 34) then parse_quoted after else parse_plain rest
  | [] => parse_plain rest
  end.

Inductive step_result : Type :=
  | Finished
  | Malformed
  | Continue (document : kernel_config_document_t) (rest : list Z) (line : Z).

(** One iteration of the main loop, entered with [position < length]. *)
Definition parse_step (document : kernel_config_document_t) (rest : list Z) (line : Z)
    : step_result :=
  let rest := skip_spaces rest in
  match rest with
  | [] => Finished
  | c :: after =>
      if decide (c = 10) then Continue document after (u32 (line + 1))
      else if starts_comment rest then Continue document (skip_line rest) line
      else
        match scan_key rest [] with
        | None => Malformed
        | Some (key, rest) =>
            let rest := skip_spaces rest in
            match key, rest with
            | [], _ => Malformed
            | _, [] => Malformed
            | _, equals :: rest =>
                if decide (equals <> 61) then Malformed
                else
                  match parse_value (skip_spaces rest) with
                  | None => Malformed
                  | Some (value, rest) =>
                      if decide (count document >= KERNEL_CONFIG_MAX_ENTRIES) then Malformed
                      else
                        let document :=
                          Document (entries document ++ [Entry (c_str key) (c_str value)]) in
                        match skip_line rest with
                        | [] => Continue document [] line
                        | _ :: rest => Continue document rest (u32 (line + 1))
                        end
                  end
            end
        end
  end.

(** The main loop; the answer is the return value, the document and the
    error line.  [None]: the fuel ran out. *)
Fixpoint parse_loop (fuel : nat) (document : kernel_config_document_t) (rest : list Z)
    (line : Z) : option (bool * kernel_config_document_t * Z) :=
  match rest with
  | [] => Some (true, document, 0)
  | _ =>
      match fuel with
      | O => None
      | S fuel =>
          match parse_step document rest line with
          | Finished => Some (true, document, 0)
          | Malformed => Some (false, document, line)
          | Continue document rest line => parse_loop fuel document rest line
          end
      end
  end.

(** [None] arguments are null pointers; the answer is the return value, the
    document pointed to afterwards and [*error_line]. *)
Definition kernel_config_parse (text : option (list Z))
    (document : option kernel_config_document_t)
    : option (bool * option kernel_config_document_t * Z) :=
  match text, document with
  | Some text, Some _ =>
      match parse_loop (length text) (Document []) text 1 with
      | Some (ok, document, error_line) => Some (ok, Some document, error_line)
      | None => None
      end
  | _, _ => Some (false, document, 0)
  end.

(** The descending search loop over [entries[0 .. index)]. *)
Fixpoint find_loop (es : list kernel_config_entry_t) (index : nat) (wanted : list Z)
    : option (list Z) :=
  match index with
  | O => None
  | S i =>
      match es !! i with
      | Some e => if decide (strcmp (key e) wanted = 0) then Some (value e)
                  else find_loop es i wanted
      | None => find_loop es i wanted
      end
  end.
Definition kernel_config_find (document : option kernel_config_document_t)
    (key : option (list Z)) : option (list Z) :=
  match document, key with
  | Some document, Some key => find_loop (entries document) (length (entries document)) key
  | _, _ => None
  end.

Arguments parse_step : simpl never.
Arguments starts_comment : simpl never.
Arguments parse_value : simpl never.

(** * What a scanner reads *)

(** [out] is what is left of [rest] after reading part of one line. *)
Definition reads (rest out : list Z) : Prop :=
  exists p, rest = p ++ out /\ Forall (fun c => c <> 10) p.

Fixpoint newlines (s : list Z) : Z :=
  match s with
  | [] => 0
  | c :: s => (if decide (c = 10) then 1 else 0) + newlines s
  end.

Lemma reads_refl s : reads s s.
Proof. by exists []. Qed.
Lemma reads_trans a b c : reads a b -> reads b c -> reads a c.
Proof.
  intros (p & -> & Hp) (q & -> & Hq). exists (p ++ q). rewrite app_assoc.
  split; [done|]. by apply Forall_app.
Qed.
Lemma reads_cons c s out : c <> 10 -> reads s out -> reads (c :: s) out.
Proof. intros Hc (p & -> & Hp). exists (c :: p). split; [done|]. by constructor. Qed.
Lemma reads_length s out : reads s out -> (length out <= length s)%nat.
Proof. intros (p & -> & _). rewrite length_app. lia. Qed.

Lemma newlines_app a b : newlines (a ++ b) = newlines a + newlines b.
Proof. induction a; cbn; lia. Qed.
Lemma newlines_none s : Forall (fun c => c <> 10) s -> newlines s = 0.
Proof. induction 1; cbn; [done|]. by rewrite decide_False. Qed.

Create HintDb config discriminated.
#[local] Hint Resolve reads_refl reads_cons : config.

Lemma space_not_newline c : is_space c = true -> c <> 10.
Proof. unfold is_space. lia. Qed.
Lemma key_char_not_newline c : is_key_char c = true -> c <> 10.
Proof. unfold is_key_char. lia. Qed.
#[local] Hint Resolve space_not_newline key_char_not_newline : config.

Lemma skip_spaces_reads s : reads s (skip_spaces s).
Proof. induction s as [|c s IH]; cbn; [|destruct (is_space c) eqn:E]; auto with config. Qed.
Lemma skip_line_reads s : reads s (skip_line s).
Proof. induction s as [|c s IH]; cbn; [|case_decide]; auto with config. Qed.
Lemma scan_key_reads s k k' out : scan_key s k = Some (k', out) -> reads s out.
Proof.
  revert k. induction s as [|c s IH]; cbn; intros k H; [by simplify_eq; auto with config|].
  destruct (is_key_char c) eqn:E; [|by simplify_eq; auto with config].
  case_decide; [done|]. eauto with config.
Qed.

(** The successive values of the quoted-value buffer, one scanner step at a
    time: the recursion scheme of [scan_quoted]. *)
Lemma scan_quoted_ind (P : list Z -> list Z -> list Z -> list Z -> Prop) :
  (forall v s, P (34 :: s) v v s) ->
  (forall e s v v' out, (e = 34 \/ e = 92) -> strlen v < 127 ->
     P s (v ++ [e]) v' out -> P (92 :: e :: s) v v' out) ->
  (forall c s v v' out, c <> 34 -> c <> 92 -> c <> 10 -> strlen v < 127 ->
     P s (v ++ [c]) v' out -> P (c :: s) v v' out) ->
  forall s v v' out, scan_quoted s v = Some (v', out) -> P s v v' out.
Proof.
  intros H1 H2 H3 s. remember (length s) as n eqn:Hn. revert s Hn.
  induction (lt_wf n) as [n _ IH]. intros [|c s] Hn v v' out; cbn; [done|].
  simpl in Hn. unfold append_char, KERNEL_CONFIG_VALUE_MAX.
  case_decide; [intros; simplify_eq; auto|].
  case_decide; [subst c; destruct s as [|e s]; [done|]|].
  - case_decide; [done|]. case_decide; [done|]. case_decide; [done|].
    intros Hs. apply H2; [lia|lia|]. eapply IH; [|done|done]. simpl in Hn. lia.
  - case_decide; [done|]. case_decide; [done|].
    intros Hs. apply H3; [done..|lia|]. eapply IH; [|done|done]. lia.
Qed.

Lemma scan_quoted_reads s v v' out : scan_quoted s v = Some (v', out) -> reads s out.
Proof.
  revert s v v' out. apply (scan_quoted_ind (fun s _ _ out => reads s out)).
  - intros. by apply reads_cons; [|apply reads_refl].
  - intros e s v v' out He _ IH. do 2 (apply reads_cons; [lia|]). done.
  - eauto with config.
Qed.

Lemma scan_plain_prefix s :
  exists out, s = scan_plain s ++ out /\ Forall (fun c => c <> 10) (scan_plain s).
Proof.
  induction s as [|c s (out & E & IH)]; [by exists []|]. simpl scan_plain.
  case_decide as Hc; [|by exists (c :: s)].
  destruct (starts_comment (c :: s)); [by exists (c :: s)|].
  exists out. split; [cbn; by f_equal|by constructor].
Qed.

Lemma trim_end_prefix s : exists sp, s = trim_end s ++ sp /\ Forall (fun c => is_space c = true) sp.
Proof.
  induction s as [|c s (sp & E & IH)]; cbn; [by exists []|].
  destruct (trim_end s) as [|t ts] eqn:Et.
  - destruct (is_space c) eqn:Hc.
    + exists (c :: sp). simpl in E. subst s. split; [done|]. by constructor.
    + exists sp. split; [cbn; by f_equal|done].
  - exists sp. split; [cbn; by f_equal|done].
Qed.

Lemma parse_plain_spec s v out :
  parse_plain s = Some (v, out) ->
  s = v ++ out /\ Forall (fun c => c <> 10) v /\ (length v < 128)%nat.
Proof.
  unfold parse_plain, strlen, KERNEL_CONFIG_VALUE_MAX. case_decide as Hl; [done|].
  intros E. simplify_eq. destruct (scan_plain_prefix s) as (o & E1 & F).
  destruct (trim_end_prefix (scan_plain s)) as (sp & E2 & _).
  set (v := trim_end (scan_plain s)) in *. rewrite E2, <- app_assoc in E1.
  split; [by rewrite E1, drop_app_length|].
  split; [|lia]. rewrite E2 in F. by apply Forall_app in F as [F _].
Qed.

Lemma scan_quoted_value s v v' out :
  scan_quoted s v = Some (v', out) ->
  Forall (fun c => c <> 10) v -> (length v <= 127)%nat ->
  Forall (fun c => c <> 10) v' /\ (length v' <= 127)%nat.
Proof.
  revert s v v' out.
  apply (scan_quoted_ind (fun _ v v' _ => Forall (fun c => c <> 10) v ->
    (length v <= 127)%nat -> Forall (fun c => c <> 10) v' /\ (length v' <= 127)%nat));
    [done|intros e s v v' out He Hl IH Hv _|intros c s v v' out _ _ Hc Hl IH Hv _];
    (apply IH; [apply Forall_app; split; [done|constructor; [lia|constructor]]
               |rewrite length_app; cbn; unfold strlen in Hl; lia]).
Qed.

Lemma parse_value_spec s v out :
  parse_value s = Some (v, out) ->
  reads s out /\ Forall (fun c => c <> 10) v /\ (length v <= 127)%nat.
Proof.
  assert (Hp : forall s, parse_plain s = Some (v, out) ->
    reads s out /\ Forall (fun c => c <> 10) v /\ (length v <= 127)%nat).
  { intros s' (-> & Hv & Hl)%parse_plain_spec. split; [by exists v|]. split; [done|lia]. }
  unfold parse_value. destruct s as [|c s]; [apply Hp|].
  case_decide; [|apply Hp]. subst c. unfold parse_quoted.
  destruct (scan_quoted s []) as [[v1 r1]|] eqn:E; [|done]. intros Hm.
  assert (v1 = v /\ skip_spaces r1 = out) as [-> <-].
  { destruct (skip_spaces r1); [by simplify_eq|]. by destruct (_ && _); simplify_eq. }
  apply scan_quoted_value in E as Hv; [|constructor|cbn; lia].
  split; [|done]. apply reads_cons; [lia|].
  eapply reads_trans; [by eapply scan_quoted_reads|apply skip_spaces_reads].
Qed.

Lemma scan_key_spec s k k' out :
  scan_key s k = Some (k', out) ->
  Forall (fun c => is_key_char c = true) k -> (length k <= 31)%nat ->
  Forall (fun c => is_key_char c = true) k' /\ (length k' <= 31)%nat.
Proof.
  revert k. induction s as [|c s IH]; cbn; intros k H Hk Hl; [by simplify_eq|].
  destruct (is_key_char c) eqn:E; [|by simplify_eq].
  unfold KERNEL_CONFIG_KEY_MAX, strlen in *. case_decide; [done|].
  eapply IH; [done| |rewrite length_app; cbn; lia].
  apply Forall_app. split; [done|]. by repeat constructor.
Qed.

(** * Invariant and progress of one iteration *)

Definition entry_ok (e : kernel_config_entry_t) : Prop :=
  (1 <= length (key e) <= 31)%nat /\ Forall (fun c => is_key_char c = true) (key e) /\
  (length (value e) <= 127)%nat /\ Forall (fun c => c <> 0 /\ c <> 10) (value e).

Definition document_ok (d : kernel_config_document_t) : Prop :=
  (length (entries d) <= 32)%nat /\ Forall entry_ok (entries d).

Lemma key_c_str k : Forall (fun c => is_key_char c = true) k -> c_str k = k.
Proof.
  intros H. apply c_str_id. eapply Forall_impl; [done|]. intros c. unfold is_key_char. lia.
Qed.

Lemma c_str_no_newline v :
  Forall (fun c => c <> 10) v -> Forall (fun c => c <> 0 /\ c <> 10) (c_str v).
Proof.
  induction 1; cbn; [constructor|]. case_decide; [constructor|]. by constructor.
Qed.

(** The consumed prefix of an iteration accounts for the line count. *)
Definition advances (rest out : list Z) (line line' : Z) : Prop :=
  exists p, rest = p ++ out /\ p <> [] /\ newlines p <= 1 /\ line' = u32 (line + newlines p).

Lemma reads_advances rest out line :
  reads rest out -> rest <> out -> is_u32 line -> advances rest out line line.
Proof.
  intros (p & -> & Hp) Hne Hl. exists p. apply newlines_none in Hp as ->.
  split; [done|]. split; [by intros ->|]. split; [done|].
  by rewrite Z.add_0_r, u32_id.
Qed.
Lemma reads_newline_advances rest out line :
  reads rest (10 :: out) -> advances rest out line (u32 (line + 1)).
Proof.
  intros (p & -> & Hp). exists (p ++ [10]). rewrite newlines_app, (newlines_none p) by done.
  rewrite <- app_assoc. split; [done|]. split; [by destruct p|]. done.
Qed.

Lemma skip_line_head s c r : skip_line s = c :: r -> c = 10.
Proof.
  induction s as [|x s IH]; cbn; [done|]. case_decide; [done|]. intros E. simplify_eq. lia.
Qed.

Lemma parse_step_spec d rest line d' rest' line' :
  parse_step d rest line = Continue d' rest' line' -> document_ok d -> is_u32 line ->
  document_ok d' /\ advances rest rest' line line'.
Proof.
  unfold parse_step. intros H Hd Hl. pose proof (skip_spaces_reads rest) as R0.
  destruct (skip_spaces rest) as [|c after] eqn:E0; [done|].
  case_decide as Hc; [simplify_eq; split; [done|]; by apply reads_newline_advances|].
  destruct (starts_comment (c :: after)) eqn:Hcom.
  { simplify_eq. split; [done|].
    assert (R1 : reads (c :: after) (skip_line after)) by
      (apply reads_cons; [done|apply skip_line_reads]).
    simpl skip_line. rewrite decide_True by done.
    apply reads_advances; [by eapply reads_trans| |done].
    intros E. apply reads_length in R0. pose proof (reads_length _ _ (skip_line_reads after)).
    apply (f_equal length) in E. simpl in R0. lia. }
  destruct (scan_key (c :: after) []) as [[k r1]|] eqn:Ek; [|done].
  apply scan_key_reads in Ek as R1. apply scan_key_spec in Ek as [Hk Hkl]; [|constructor|cbn; lia].
  pose proof (skip_spaces_reads r1) as R2.
  destruct k as [|k0 k]; [done|]. destruct (skip_spaces r1) as [|eq r2] eqn:E2; [done|].
  case_decide as Heq; [done|]. assert (eq = 61) as -> by lia.
  destruct (parse_value (skip_spaces r2)) as [[v r3]|] eqn:Ev; [|done].
  apply parse_value_spec in Ev as (R3 & Hv & Hvl). case_decide as Hcount; [done|].
  assert (R : reads rest r3).
  { eapply reads_trans; [exact R0|]. eapply reads_trans; [exact R1|].
    eapply reads_trans; [exact R2|]. apply reads_cons; [lia|].
    eapply reads_trans; [apply skip_spaces_reads|exact R3]. }
  assert (Hd' : document_ok (Document (entries d ++ [Entry (c_str (k0 :: k)) (c_str v)]))).
  { destruct Hd as [Hn Hf]. unfold count, KERNEL_CONFIG_MAX_ENTRIES in Hcount.
    split; cbn [entries]; [rewrite length_app; cbn; lia|]. apply Forall_app. split; [done|].
    constructor; [|constructor]. rewrite key_c_str by done.
    repeat split; cbn [key value]; [cbn; lia|done|done| |by apply c_str_no_newline].
    pose proof (c_str_length v). lia. }
  pose proof (skip_line_reads r3) as R4. destruct (skip_line r3) as [|x r4] eqn:E4.
  - simplify_eq. split; [done|]. apply reads_advances; [by eapply reads_trans| |done].
    intros ->. by apply reads_length in R0.
  - apply skip_line_head in E4 as ->. simplify_eq. split; [done|].
    apply reads_newline_advances. by eapply reads_trans.
Qed.

Lemma advances_length rest out line line' :
  advances rest out line line' -> (length out < length rest)%nat.
Proof. intros (p & -> & Hp & _). rewrite length_app. destruct p; [done|]. cbn. lia. Qed.

(** Progress needs no invariant on the document or the line. *)
Lemma parse_step_progress d rest line d' rest' line' :
  parse_step d rest line = Continue d' rest' line' -> (length rest' < length rest)%nat.
Proof.
  intros H. assert (Hl : exists l l', parse_step (Document []) rest 1 = Continue l rest' l').
  { unfold parse_step in *. destruct (skip_spaces rest) as [|c after]; [done|].
    repeat case_match; simplify_eq; eauto; done. }
  destruct Hl as (l & l' & Hl). apply parse_step_spec in Hl as [_ H'].
  - by apply advances_length in H'.
  - split; [cbn; lia|constructor].
  - done.
Qed.

Lemma parse_loop_fuel n1 n2 d rest line :
  (length rest <= n1)%nat -> (length rest <= n2)%nat ->
  parse_loop n1 d rest line = parse_loop n2 d rest line.
Proof.
  revert n2 d rest line. induction n1 as [|n1 IH]; intros [|n2] d [|c rest] line H1 H2;
    simpl length in *; try lia; try done.
  simpl parse_loop. destruct (parse_step d (c :: rest) line) as [| |d' r' l'] eqn:E; [done..|].
  apply parse_step_progress in E. simpl in E. apply IH; lia.
Qed.

(** The loop with as much fuel as there is text. *)
Definition run (d : kernel_config_document_t) (rest : list Z) (line : Z) :=
  parse_loop (length rest) d rest line.

Lemma run_step d rest line :
  rest <> [] ->
  run d rest line =
    match parse_step d rest line with
    | Finished => Some (true, d, 0)
    | Malformed => Some (false, d, line)
    | Continue d rest line => run d rest line
    end.
Proof.
  intros Hr. destruct rest as [|c rest]; [done|]. unfold run at 1. simpl parse_loop.
  destruct (parse_step d (c :: rest) line) as [| |d' r' l'] eqn:E; [done..|].
  apply parse_step_progress in E. apply parse_loop_fuel; [simpl in E; lia|lia].
Qed.

(** Where a rejected text fails: at the line reported. *)
Definition fails_at (text : list Z) (error_line : Z) : Prop :=
  exists before rest d, text = before ++ rest /\ error_line = u32 (1 + newlines before) /\
    parse_step d rest error_line = Malformed.

Lemma run_spec text before rest d :
  text = before ++ rest -> document_ok d ->
  exists ok d' el, run d rest (u32 (1 + newlines before)) = Some (ok, d', el) /\
    document_ok d' /\ (if ok : bool then el = 0 else fails_at text el).
Proof.
  remember (length rest) as n eqn:Hn. revert before rest d Hn.
  induction (lt_wf n) as [n _ IH]. intros before rest d -> Ht Hd.
  destruct (decide (rest = [])) as [->|Hr]; [by exists true, d, 0|].
  rewrite run_step by done.
  destruct (parse_step d rest _) as [| |d' r' l'] eqn:E.
  - by exists true, d, 0.
  - exists false, d, (u32 (1 + newlines before)). split; [done|]. split; [done|].
    by exists before, rest, d.
  - apply parse_step_spec in E as [Hd' Ha]; [|done|apply u32_range].
    apply advances_length in Ha as Hlt. destruct Ha as (p & -> & _ & _ & ->).
    replace (u32 (u32 (1 + newlines before) + newlines p))
      with (u32 (1 + newlines (before ++ p))).
    + eapply IH; [exact Hlt|done|by rewrite <- app_assoc|done].
    + rewrite newlines_app. unfold u32. rewrite Zplus_mod_idemp_l. f_equal. lia.
Qed.

(** * Well-formed configuration text *)

(** One line of a configuration file, with its layout. *)
Inductive config_line : Type :=
  | Blank (spaces : list Z)
  | Comment (spaces text : list Z)
  | Setting (quoted : bool) (sp1 key sp2 sp3 value sp4 : list Z) (comment : option (list Z)).

Definition escape (v : list Z) : list Z :=
  flat_map (fun c => if decide (c = 34 \/ c = 92) then [92; c] else [c]) v.

Definition render_comment (comment : option (list Z)) : list Z :=
  match comment with None => [] | Some text => 47 :: 47 :: text end.

Definition render_value (quoted : bool) (v : list Z) : list Z :=
  if quoted then 34 :: escape v ++ [34] else v.

Definition render_line (l : config_line) : list Z :=
  match l with
  | Blank sp => sp
  | Comment sp text => sp ++ 47 :: 47 :: text
  | Setting quoted sp1 key sp2 sp3 value sp4 comment =>
      sp1 ++ key ++ sp2 ++ 61 :: sp3 ++ render_value quoted value ++ sp4
      ++ render_comment comment
  end.

Fixpoint render (lines : list config_line) : list Z :=
  match lines with
  | [] => []
  | l :: lines => render_line l ++ 10 :: render lines
  end.

(** The entries a file defines, in order. *)
Fixpoint settings (lines : list config_line) : list kernel_config_entry_t :=
  match lines with
  | [] => []
  | Setting _ _ key _ _ value _ _ :: lines => Entry key value :: settings lines
  | _ :: lines => settings lines
  end.

Fixpoint no_comment (s : list Z) : bool :=
  match s with
  | [] => true
  | _ :: s' => negb (starts_comment s) && no_comment s'
  end.

Definition spaces (s : list Z) : Prop := Forall (fun c => is_space c = true) s.
Definition one_line (s : list Z) : Prop := Forall (fun c => c <> 10) s.

(** A value that can stand without quotes: it neither starts nor ends with a
    space, does not start with a quote and holds no comment opener. *)
Definition plain_ok (v : list Z) : Prop :=
  (match v with [] => True | c :: _ => is_space c = false /\ c <> 34 end) /\
  trim_end v = v /\ no_comment v = true.

Definition line_ok (l : config_line) : Prop :=
  match l with
  | Blank sp => spaces sp
  | Comment sp text => spaces sp /\ one_line text
  | Setting quoted sp1 key sp2 sp3 value sp4 comment =>
      spaces sp1 /\ spaces sp2 /\ spaces sp3 /\ spaces sp4 /\
      entry_ok (Entry key value) /\ (if quoted then True else plain_ok value) /\
      match comment with
      | None => True
      | Some text => one_line text /\ (if quoted : bool then True else sp4 <> [])
      end
  end.

Lemma skip_spaces_app sp s : spaces sp -> skip_spaces (sp ++ s) = skip_spaces s.
Proof. induction 1 as [|c sp Hc _ IH]; cbn; [done|]. by rewrite Hc. Qed.
Lemma skip_spaces_stop c s : is_space c = false -> skip_spaces (c :: s) = c :: s.
Proof. intros H. cbn. by rewrite H. Qed.
Lemma skip_line_app s rest : one_line s -> skip_line (s ++ 10 :: rest) = 10 :: rest.
Proof.
  induction 1 as [|c s Hc _ IH]; cbn; [by rewrite decide_False by lia|].
  by rewrite decide_True.
Qed.

Lemma spaces_one_line sp : spaces sp -> one_line sp.
Proof. intros H. eapply Forall_impl; [exact H|]. apply space_not_newline. Qed.

Lemma scan_key_app k acc c s :
  Forall (fun c => is_key_char c = true) k -> is_key_char c = false ->
  (length acc + length k <= 31)%nat ->
  scan_key (k ++ c :: s) acc = Some (acc ++ k, c :: s).
Proof.
  intros Hk Hc. revert acc. induction Hk as [|x k Hx _ IH]; cbn; intros acc Hl.
  - by rewrite Hc, app_nil_r.
  - rewrite Hx. unfold strlen, KERNEL_CONFIG_KEY_MAX.
    rewrite decide_False by lia. rewrite IH by (rewrite length_app; cbn; lia).
    by rewrite <- app_assoc.
Qed.

Lemma append_char_ok acc c :
  (length acc < 127)%nat -> append_char acc KERNEL_CONFIG_VALUE_MAX c = Some (acc ++ [c]).
Proof.
  intros H. unfold append_char, strlen, KERNEL_CONFIG_VALUE_MAX. by rewrite decide_False by lia.
Qed.

Lemma scan_quoted_escape v acc s :
  one_line v -> (length acc + length v <= 127)%nat ->
  scan_quoted (escape v ++ 34 :: s) acc = Some (acc ++ v, s).
Proof.
  intros Hv. revert acc. induction Hv as [|c v Hc _ IH]; intros acc Hl.
  - cbn. by rewrite app_nil_r.
  - simpl in Hl. unfold escape. simpl flat_map. fold (escape v).
    replace (acc ++ c :: v) with ((acc ++ [c]) ++ v) by by rewrite <- app_assoc.
    rewrite <- IH by (rewrite length_app; cbn; lia). case_decide as E.
    + simpl. rewrite append_char_ok by lia. destruct E as [-> | ->]; done.
    + simpl. rewrite append_char_ok by lia. rewrite !decide_False by lia. done.
Qed.

Lemma scan_plain_app v s :
  one_line v -> no_comment v = true -> head s <> Some 47 ->
  scan_plain (v ++ s) = v ++ scan_plain s.
Proof.
  intros Hv Hn Hs. induction Hv as [|c v Hc _ IH]; [done|]. simpl in Hn.
  apply andb_true_iff in Hn as [Hn1 Hn2]. simpl. rewrite decide_True by done.
  rewrite IH by done. replace (starts_comment (c :: v ++ s)) with false; [done|].
  destruct v as [|x v]; [|by destruct (starts_comment _)].
  destruct s as [|y s]; [done|]. simpl in Hs |- *. unfold starts_comment.
  destruct (decide (y = 47)) as [->|]; [done|]. lia.
Qed.

Lemma scan_plain_spaces sp s : spaces sp -> scan_plain (sp ++ s) = sp ++ scan_plain s.
Proof.
  induction 1 as [|c sp Hc _ IH]; [done|]. simpl. rewrite IH.
  rewrite decide_True by (by apply space_not_newline).
  replace (starts_comment (c :: sp ++ s)) with false; [done|].
  unfold starts_comment. destruct (sp ++ s); [done|]. unfold is_space in Hc. lia.
Qed.

Lemma trim_end_app v sp : spaces sp -> trim_end v = v -> trim_end (v ++ sp) = v.
Proof.
  intros Hsp Hv. assert (Hs : trim_end sp = []).
  { clear Hv. induction Hsp as [|c sp Hc _ IH]; cbn; [done|]. by rewrite IH, Hc. }
  assert (Hn : forall w, trim_end (w ++ sp) = trim_end w).
  { induction w as [|c w IH]; [done|]. cbn. by rewrite IH. }
  by rewrite Hn.
Qed.

(** What follows a value up to the end of its line. *)
Lemma tail_stops comment rest :
  scan_plain (render_comment comment ++ 10 :: rest) = [].
Proof. by destruct comment. Qed.

Lemma parse_plain_app v sp comment rest :
  one_line v -> (length v <= 127)%nat -> plain_ok v -> spaces sp ->
  (v = [] \/ comment = None \/ sp <> []) ->
  parse_plain (v ++ sp ++ render_comment comment ++ 10 :: rest) =
    Some (v, sp ++ render_comment comment ++ 10 :: rest).
Proof.
  intros Hv Hl (_ & Ht & Hn) Hsp Hc. unfold parse_plain.
  assert (E : scan_plain (v ++ sp ++ render_comment comment ++ 10 :: rest) = v ++ sp).
  { destruct (decide (v = [])) as [->|Hne].
    { by rewrite app_nil_l, scan_plain_spaces, tail_stops, app_nil_r. }
    rewrite scan_plain_app; [by rewrite scan_plain_spaces, tail_stops, app_nil_r|done|done|].
    destruct sp as [|c sp]; [by destruct Hc as [?|[-> |?]]|].
    apply Forall_cons_1 in Hsp as [Hsp _]. cbn. unfold is_space in Hsp. intros ?.
    by simplify_eq. }
  rewrite E, trim_end_app by done. unfold strlen, KERNEL_CONFIG_VALUE_MAX.
  rewrite decide_False by lia. by rewrite drop_app_length.
Qed.

Lemma parse_quoted_app v sp comment rest :
  one_line v -> (length v <= 127)%nat -> spaces sp ->
  parse_quoted (escape v ++ 34 :: sp ++ render_comment comment ++ 10 :: rest) =
    Some (v, render_comment comment ++ 10 :: rest).
Proof.
  intros Hv Hl Hsp. unfold parse_quoted. rewrite scan_quoted_escape by done.
  simpl. rewrite skip_spaces_app by done. destruct comment; [done|by destruct rest].
Qed.

(** The value of a setting line, and that only the end of the line is left. *)
Lemma parse_value_render (quoted : bool) v sp3 sp4 comment rest :
  one_line v -> (length v <= 127)%nat -> spaces sp3 -> spaces sp4 ->
  (if quoted then True else plain_ok v) ->
  (match comment with
   | None => True | Some text => one_line text /\ (if quoted then True else sp4 <> []) end) ->
  exists tail, one_line tail /\
    parse_value (skip_spaces (sp3 ++ render_value quoted v ++ sp4 ++
      render_comment comment ++ 10 :: rest)) = Some (v, tail ++ 10 :: rest).
Proof.
  intros Hv Hl H3 H4 Hq Hc. rewrite skip_spaces_app by done.
  assert (Hcl : one_line (render_comment comment)).
  { destruct comment as [t|]; [|constructor]. destruct Hc. by repeat constructor. }
  destruct quoted; cbn [render_value].
  - exists (render_comment comment). split; [done|]. rewrite <- app_comm_cons, <- app_assoc.
    rewrite skip_spaces_stop by done. by apply parse_quoted_app.
  - destruct v as [|c v].
    + exists (render_comment comment). split; [done|]. rewrite app_nil_l, skip_spaces_app by done.
      pose proof (parse_plain_app [] [] comment rest) as Hp. simpl in Hp.
      destruct comment; apply Hp; auto; constructor.
    + exists (sp4 ++ render_comment comment). split.
      { apply Forall_app. split; [by apply spaces_one_line|done]. }
      destruct Hq as ((Hs & H34) & Hq). rewrite <- app_comm_cons, skip_spaces_stop by done.
      unfold parse_value. rewrite decide_False, app_comm_cons, <- app_assoc by done.
      apply parse_plain_app; [done|done|by repeat split; destruct Hq|done|].
      destruct comment; [|auto]. right; right. by destruct Hc.
Qed.

Lemma key_char_facts c : is_key_char c = true -> is_space c = false /\ c <> 10 /\ c <> 47.
Proof. unfold is_key_char, is_space. lia. Qed.

Lemma render_setting quoted sp1 k sp2 sp3 v sp4 comment rest :
  render_line (Setting quoted sp1 k sp2 sp3 v sp4 comment) ++ 10 :: rest =
    sp1 ++ k ++ sp2 ++ 61 :: sp3 ++ render_value quoted v ++ sp4 ++
      render_comment comment ++ 10 :: rest.
Proof.
  cbn [render_line]. rewrite <- !app_assoc. do 3 f_equal. cbn [app]. f_equal.
  by rewrite <- !app_assoc.
Qed.

Lemma run_line d l rest line :
  line_ok l -> count d + Z.of_nat (length (settings [l])) <= 32 -> is_u32 line ->
  run d (render_line l ++ 10 :: rest) line =
    run (Document (entries d ++ settings [l])) rest (u32 (line + 1)).
Proof.
  intros Hok Hcount Hu.
  assert (Hne : forall a : list Z, a ++ 10 :: rest <> []) by (by intros []).
  destruct l as [sp|sp text|quoted sp1 k sp2 sp3 v sp4 comment]; simpl settings in *;
    rewrite ?app_nil_r.
  - rewrite run_step by done. unfold parse_step. simpl. rewrite skip_spaces_app by done.
    rewrite skip_spaces_stop by done. rewrite decide_True by done. by destruct d.
  - destruct Hok as [Hsp Ht]. rewrite run_step by done. unfold parse_step. simpl.
    rewrite <- app_assoc, skip_spaces_app by done. simpl. rewrite skip_line_app by done.
    rewrite run_step by done. by destruct d.
  - destruct Hok as (H1 & H2 & H3 & H4 & (Hkl & Hk & Hvl & Hv) & Hq & Hc).
    cbn [key value] in *. rewrite run_step by done. unfold parse_step.
    assert (Hv' : one_line v) by (eapply Forall_impl; [exact Hv|]; by intros ? []).
    destruct (parse_value_render quoted v sp3 sp4 comment rest) as (tail & Htail & Ep); [done..|].
    destruct k as [|c k]; [simpl in Hkl; lia|].
    pose proof (Forall_cons_1 _ _ _ Hk) as [Hc0 _]. apply key_char_facts in Hc0 as (F1 & F2 & F3).
    rewrite render_setting, skip_spaces_app, <- app_comm_cons, skip_spaces_stop by done.
    rewrite decide_False by done.
    replace (starts_comment _) with false
      by (unfold starts_comment; destruct (k ++ _); [done|lia]).
    assert (Es : exists y ys, sp2 ++ 61 :: sp3 ++ render_value quoted v ++ sp4 ++
      render_comment comment ++ 10 :: rest = y :: ys /\ is_key_char y = false).
    { destruct sp2 as [|y sp2]; [by do 2 eexists|]. apply Forall_cons_1 in H2 as [Hy _].
      do 2 eexists. split; [done|]. unfold is_space in Hy. unfold is_key_char. lia. }
    destruct Es as (y & ys & Es & Hy). rewrite app_comm_cons, Es.
    rewrite (scan_key_app (c :: k) [] y ys) by (done || (simpl in *; lia)).
    rewrite <- Es, skip_spaces_app, skip_spaces_stop by done.
    rewrite app_nil_l. cbv iota. rewrite (decide_False (P := 61 <> 61)) by lia. rewrite Ep.
    unfold KERNEL_CONFIG_MAX_ENTRIES. simpl in Hcount. rewrite decide_False by lia.
    rewrite skip_line_app by done. rewrite (key_c_str (c :: k)) by done.
    rewrite (c_str_nonzero v); [done|]. eapply Forall_impl; [exact Hv|]. by intros ? [].
Qed.

Lemma settings_cons l lines : settings (l :: lines) = settings [l] ++ settings lines.
Proof. by destruct l. Qed.

Lemma run_render d lines line :
  Forall line_ok lines -> count d + Z.of_nat (length (settings lines)) <= 32 -> is_u32 line ->
  run d (render lines) line = Some (true, Document (entries d ++ settings lines), 0).
Proof.
  intros H. revert d line. induction H as [|l lines Hl _ IH]; intros d line Hc Hu.
  - cbn. rewrite app_nil_r. by destruct d.
  - rewrite settings_cons, length_app in Hc. simpl render.
    rewrite run_line by (done || lia).
    rewrite IH; [|unfold count in *; cbn [entries]; rewrite length_app; lia|apply u32_range].
    cbn [entries]. by rewrite <- app_assoc, <- settings_cons.
Qed.

(** The last entry with a given key. *)
Fixpoint last_value (es : list kernel_config_entry_t) (wanted : list Z) : option (list Z) :=
  match es with
  | [] => None
  | e :: es =>
      match last_value es wanted with
      | Some v => Some v
      | None => if decide (key e = wanted) then Some (value e) else None
      end
  end.

Lemma find_loop_app es1 es2 n wanted :
  (n <= length es1)%nat -> find_loop (es1 ++ es2) n wanted = find_loop es1 n wanted.
Proof.
  induction n as [|n IH]; intros Hn; cbn; [done|].
  rewrite lookup_app_l by lia. rewrite IH by lia. done.
Qed.

Lemma last_value_snoc es e wanted :
  last_value (es ++ [e]) wanted =
    if decide (key e = wanted) then Some (value e) else last_value es wanted.
Proof.
  induction es as [|x es IH]; cbn; [done|]. rewrite IH. by case_decide.
Qed.

Lemma find_last es wanted :
  Forall (fun e => c_string (key e)) es -> c_string wanted ->
  find_loop es (length es) wanted = last_value es wanted.
Proof.
  intros H Hw. induction es as [|e es IH] using rev_ind; [done|].
  apply Forall_app in H as [H He]. apply Forall_cons_1 in He as [He _].
  rewrite last_value_snoc, length_app, Nat.add_1_r. simpl find_loop.
  rewrite lookup_app_r, Nat.sub_diag by lia. simpl.
  rewrite find_loop_app by lia. rewrite IH by done.
  destruct (decide (key e = wanted)) as [E|E].
  - rewrite decide_True; [done|]. by apply strcmp_eq.
  - rewrite decide_False; [done|]. by rewrite strcmp_eq.
Qed.

Lemma key_c_string k : Forall (fun c => is_key_char c = true) k -> c_string k.
Proof. intros H. eapply Forall_impl; [exact H|]. intros c. unfold is_key_char. lia. Qed.

Lemma kernel_config_parse_render lines d0 :
  Forall line_ok lines -> (length (settings lines) <= 32)%nat ->
  kernel_config_parse (Some (render lines)) (Some d0) =
    Some (true, Some (Document (settings lines)), 0).
Proof.
  intros Hl Hn. unfold kernel_config_parse. pose proof (run_render (Document []) lines 1) as E.
  unfold run in E. rewrite E; [done|done|unfold count; cbn [entries length]; lia|done].
Qed.

Lemma settings_keys lines :
  Forall line_ok lines -> Forall (fun e => c_string (key e)) (settings lines).
Proof.
  induction 1 as [|l lines Hl _ IH]; [constructor|].
  rewrite settings_cons. apply Forall_app. split; [|done].
  destruct l as [| |q sp1 k sp2 sp3 v sp4 c]; [constructor..|].
  constructor; [|constructor]. apply key_c_string. by destruct Hl as (_&_&_&_&(_&Hk&_)&_).
Qed.

(** * Theorems *)

(** For every byte string the parser terminates with an answer that
    respects every array bound of the document (at most 32 entries, keys of 1 to
    31 key characters, values of at most 127 characters without newline), and
    when it rejects the text the line number it reports is that of the line on
    which the iteration that failed began. *)
Theorem config_parse_total_and_bounded (text : list Z) (d0 : kernel_config_document_t) :
  exists ok d error_line,
    kernel_config_parse (Some text) (Some d0) = Some (ok, Some d, error_line) /\
    document_ok d /\ (if ok : bool then error_line = 0 else fails_at text error_line).
Proof.
  destruct (run_spec text [] text (Document [])) as (ok & d & el & E & Hd & Hok);
    [done|split; [cbn; lia|constructor]|].
  exists ok, d, el. unfold kernel_config_parse. unfold run in E.
  change (u32 (1 + newlines [])) with 1 in E. by rewrite E.
Qed.

(** Every well-formed file (settings with quoted values of arbitrary
    characters or plain values, any spacing, blank lines and comments, at most 32
    settings) is accepted, and looking up a key in the parsed document gives the
    value of the last setting of that key. *)
Theorem config_parse_render_find (lines : list config_line) (d0 : kernel_config_document_t)
    (wanted : list Z) :
  Forall line_ok lines -> (length (settings lines) <= 32)%nat -> c_string wanted ->
  exists d, kernel_config_parse (Some (render lines)) (Some d0) = Some (true, Some d, 0) /\
    entries d = settings lines /\
    kernel_config_find (Some d) (Some wanted) = last_value (settings lines) wanted.
Proof.
  intros Hl Hn Hw. exists (Document (settings lines)).
  split; [by apply kernel_config_parse_render|]. split; [done|].
  apply find_last; [by apply settings_keys|done].
Qed.

(** A file with a comment, a blank line, a plain and a quoted setting of the
    same key. *)
Definition sample : list config_line :=
  [Comment [32] [104; 105]; Blank [9];
   Setting false [] [97] [32] [32] [49; 32; 50] [32] (Some [33]);
   Setting true [] [97] [] [] [34; 92; 32] [] None].

Lemma config_parse_render_find_witness :
  exists d, kernel_config_parse (Some (render sample)) (Some (Document [])) =
      Some (true, Some d, 0) /\
    entries d = settings sample /\
    kernel_config_find (Some d) (Some [97]) = Some [34; 92; 32].
Proof.
  apply (config_parse_render_find sample (Document []) [97]).
  - repeat constructor; unfold plain_ok, one_line; cbn; try lia; try done;
      repeat constructor; lia.
  - cbn. lia.
  - repeat constructor; lia.
Defined.

End ConfigParser.
