(* ===== verification/Heap.v ===== *)
(** The kernel heap ([kernel/src/heap.c]): [kmalloc] and [kfree].

    The block headers live in a store addressed by the header's address; a
    header is reached by following [next]/[prev] pointers exactly as the code
    does.  [None] is a fault: a wild dereference, the explicit panic, or a
    traversal that outlives its bound.  The physical and virtual memory
    managers the heap calls are reached through the [PageProvider] interface.

    The abstract view is the sequence of blocks as (size, free) pairs laid out
    back to back from [HEAP_START]; [heap_wf] relates the two. *)
From stdpp Require Import gmap sorting.
From S2P Require Import Prelude.

Module Heap.

Definition HEAP_START : Z := 0xffffc00000000000.
Definition HEAP_LIMIT : Z := 0xffffc08000000000.
Definition HEAP_INITIAL_PAGES : Z := 4.
Definition PAGE_SIZE : Z := 4096.
(** [sizeof(heap_block_t)]: two pointers, a size and a padded flag. *)
Definition HEADER : Z := 32.

Record heap_block_t := Block {
  size : Z;
  free : bool;
  next : Z;
  prev : Z;
}.

Record heap_t := HeapT {
  heap_start : Z;
  heap_end : Z;
  first : Z;
}.

(** [kernel_heap] and the headers in memory. *)
Record state := State {
  kernel_heap : heap_t;
  mem : gmap Z heap_block_t;
}.

(** What the heap asks of the page allocator, the page tables and the lock
    that serialises growth.  A frame of 0 is a failed allocation. *)
Class PageProvider (E : Type) := {
  pmm_alloc_frame : E -> Z * E;
  pmm_free_frame : E -> Z -> E;
  vmm_map : E -> Z -> Z -> bool * E;
  mutex_lock_growth : E -> bool * E;
}.

(** Write access to a header. *)
Definition store (m : gmap Z heap_block_t) (p : Z) (f : heap_block_t -> heap_block_t)
    : option (gmap Z heap_block_t) :=
  b ← m !! p; Some (<[p := f b]> m).
Definition set_size (s : Z) (b : heap_block_t) := Block s (free b) (next b) (prev b).
Definition set_free (f : bool) (b : heap_block_t) := Block (size b) f (next b) (prev b).
Definition set_next (n : Z) (b : heap_block_t) := Block (size b) (free b) n (prev b).
Definition set_prev (p : Z) (b : heap_block_t) := Block (size b) (free b) (next b) p.

(** A traversal meets at most one header per [HEADER] bytes of heap. *)
Definition walk_bound (h : heap_t) : nat :=
  S (Z.to_nat ((heap_end h - heap_start h) / HEADER)).

Section Operations.
Context {E : Type} `{PageProvider E}.

(** The frame loop of [heap_init]; [false] is its early return. *)
Fixpoint init_pages (n : nat) (i : Z) (env : E) : bool * E :=
  match n with
  | O => (true, env)
  | S n =>
      let '(frame, env) := pmm_alloc_frame env in
      if decide (frame = 0) then (false, env)
      else
        let '(_, env) := vmm_map env (HEAP_START + i * PAGE_SIZE) frame in
        init_pages n (i + 1) env
  end.

(** [static heap_t kernel_heap] starts out zeroed. *)
Definition heap_init (env : E) : state * E :=
  let '(ok, env) := init_pages (Z.to_nat HEAP_INITIAL_PAGES) 0 env in
  if negb ok then (State (HeapT 0 0 0) ∅, env)
  else
    (State (HeapT HEAP_START (HEAP_START + HEAP_INITIAL_PAGES * PAGE_SIZE) HEAP_START)
       {[ HEAP_START := Block (HEAP_INITIAL_PAGES * PAGE_SIZE - HEADER) true 0 0 ]}, env).

(** The diagnostic walk: [Some true] when the links are intact. *)
Fixpoint verify_from (fuel : nat) (h : heap_t) (m : gmap Z heap_block_t) (current : Z)
    : option bool :=
  match fuel with
  | O => None
  | S fuel =>
      if decide (current = 0) then Some true
      else if decide (current < heap_start h \/ heap_end h <= current) then Some false
      else
        b ← m !! current;
        if decide (next b = 0) then verify_from fuel h m (next b)
        else
          n ← m !! next b;
          if decide (prev n <> current) then Some false
          else verify_from fuel h m (next b)
  end.
Definition heap_verify (st : state) : option bool :=
  verify_from (walk_bound (kernel_heap st)) (kernel_heap st) (mem st)
    (first (kernel_heap st)).

(** The first-fit search; 0 when no block fits. *)
Fixpoint find_fit (fuel : nat) (m : gmap Z heap_block_t) (current want : Z) : option Z :=
  match fuel with
  | O => None
  | S fuel =>
      if decide (current = 0) then Some 0
      else
        b ← m !! current;
        if free b && (want <=? size b) then Some current
        else find_fit fuel m (next b) want
  end.

(** The allocation of a block found, splitting it when the rest can hold a
    block of its own. *)
Definition take_block (m : gmap Z heap_block_t) (current want : Z)
    : option (gmap Z heap_block_t) :=
  b ← m !! current;
  let remaining := u64 (size b - want) in
  m ← (if decide (remaining > HEADER + 16) then
         let new_block := u64 (current + HEADER + want) in
         let m := <[new_block := Block (remaining - HEADER) true (next b) current]> m in
         m ← store m current (set_next new_block);
         m ← (if decide (next b <> 0) then store m (next b) (set_prev new_block)
              else Some m);
         store m current (set_size want)
       else Some m);
  store m current (set_free false).

(** The first critical section of [kmalloc]: the pointer, or 0. *)
Definition kmalloc_try (st : state) (want : Z) : option (Z * state) :=
  _ ← heap_verify st;
  current ← find_fit (walk_bound (kernel_heap st)) (mem st) (first (kernel_heap st)) want;
  if decide (current = 0) then Some (0, st)
  else
    m ← take_block (mem st) current want;
    let st := State (kernel_heap st) m in
    _ ← heap_verify st;
    Some (u64 (current + HEADER), st).

(** Acquire [n] frames or none, giving back the partial batch. *)
Fixpoint release_frames (frames : list Z) (env : E) : E :=
  match frames with
  | [] => env
  | f :: frames => release_frames frames (pmm_free_frame env f)
  end.
Fixpoint acquire_frames (n : nat) (frames : list Z) (env : E) : option (list Z) * E :=
  match n with
  | O => (Some frames, env)
  | S n =>
      let '(frame, env) := pmm_alloc_frame env in
      if decide (frame = 0) then (None, release_frames (rev frames) env)
      else acquire_frames n (frames ++ [frame]) env
  end.

(** The mapping loop of [heap_grow_reserved]: pages mapped, and whether all
    were. *)
Fixpoint map_frames (frames : list Z) (va i : Z) (env : E) : Z * bool * E :=
  match frames with
  | [] => (i, true, env)
  | f :: frames =>
      let '(ok, env) := vmm_map env (va + i * PAGE_SIZE) f in
      if negb ok then (i, false, env) else map_frames frames va (i + 1) env
  end.

Fixpoint find_last (fuel : nat) (m : gmap Z heap_block_t) (last : Z) : option Z :=
  match fuel with
  | O => None
  | S fuel =>
      b ← m !! last;
      if decide (next b <> 0) then find_last fuel m (next b) else Some last
  end.

(** The second critical section of [heap_grow_reserved]: publish [pages]
    mapped pages that start at [old_end]. *)
Definition grow_commit (st : state) (old_end pages : Z) (complete : bool)
    : option (bool * state) :=
  let h := kernel_heap st in
  if decide (heap_end h <> old_end) then None
  else
    let h' := HeapT (heap_start h) (u64 (heap_end h + pages * PAGE_SIZE)) (first h) in
    if decide (pages = 0) then Some (false, State h' (mem st))
    else
      last ← find_last (walk_bound h) (mem st) (first h);
      b ← mem st !! last;
      if free b then
        m ← store (mem st) last (set_size (u64 (size b + pages * PAGE_SIZE)));
        Some (complete, State h' m)
      else
        let m := <[old_end := Block (u64 (pages * PAGE_SIZE - HEADER)) true 0 last]>
                   (mem st) in
        m ← store m last (set_next old_end);
        Some (complete, State h' m).

(** Returns success, the pages mapped, and the new state. *)
Definition heap_grow_reserved (frames : list Z) (st : state) (env : E)
    : option (bool * Z * state * E) :=
  let old_end := heap_end (kernel_heap st) in
  if decide (old_end > HEAP_LIMIT - HEAP_INITIAL_PAGES * PAGE_SIZE)
  then Some (false, 0, st, env)
  else
    let '(mapped, complete, env) := map_frames frames old_end 0 env in
    '(ok, st) ← grow_commit st old_end mapped complete;
    Some (ok, mapped, st, env).

(** The [for (;;)] loop of [kmalloc]. *)
Fixpoint kmalloc_loop (fuel : nat) (want : Z) (st : state) (env : E)
    : option (Z * state * E) :=
  match fuel with
  | O => None
  | S fuel =>
      '(ptr, st) ← kmalloc_try st want;
      if decide (ptr <> 0) then Some (ptr, st, env)
      else
        let '(locked, env) := mutex_lock_growth env in
        if negb locked then Some (0, st, env)
        else
          let '(frames, env) := acquire_frames (Z.to_nat HEAP_INITIAL_PAGES) [] env in
          match frames with
          | None => Some (0, st, env)
          | Some frames =>
              suitable ← find_fit (walk_bound (kernel_heap st)) (mem st)
                           (first (kernel_heap st)) want;
              if decide (suitable <> 0)
              then kmalloc_loop fuel want st (release_frames frames env)
              else
                '(ok, mapped, st, env) ← heap_grow_reserved frames st env;
                if negb ok
                then Some (0, st, release_frames (drop (Z.to_nat mapped) frames) env)
                else kmalloc_loop fuel want st env
          end
  end.

Definition round_size (size : Z) : Z := Z.land (u64 (size + 15)) (u64 (Z.lnot 15)).

(** Every round that does not return grows the heap by four pages, and the
    last block with it, so the request bounds the number of rounds. *)
Definition kmalloc (size : Z) (st : state) (env : E) : option (Z * state * E) :=
  let size := round_size size in
  kmalloc_loop (3 + Z.to_nat (size / (HEAP_INITIAL_PAGES * PAGE_SIZE))) size st env.

End Operations.

(** Absorb the following block if it is free. *)
Definition merge_next (m : gmap Z heap_block_t) (block : Z) : option (gmap Z heap_block_t) :=
  b ← m !! block;
  if decide (next b <> 0) then
    n ← m !! next b;
    if free n then
      m ← store m block (set_size (u64 (size b + (HEADER + size n))));
      m ← store m block (set_next (next n));
      if decide (next n <> 0) then store m (next n) (set_prev block) else Some m
    else Some m
  else Some m.

(** Merge into the preceding block if it is free. *)
Definition merge_prev (m : gmap Z heap_block_t) (block : Z) : option (gmap Z heap_block_t) :=
  b ← m !! block;
  if decide (prev b <> 0) then
    p ← m !! prev b;
    if free p then
      m ← store m (prev b) (set_size (u64 (size p + (HEADER + size b))));
      m ← store m (prev b) (set_next (next b));
      if decide (next b <> 0) then store m (next b) (set_prev (prev b)) else Some m
    else Some m
  else Some m.

Definition kfree (ptr : Z) (st : state) : option state :=
  if decide (ptr = 0) then Some st
  else
    _ ← heap_verify st;
    let block := u64 (ptr - HEADER) in
    m ← store (mem st) block (set_free true);
    m ← merge_next m block;
    m ← merge_prev m block;
    let st := State (kernel_heap st) m in
    _ ← heap_verify st;
    Some st.

(** The three accounting walks, by the flag they select. *)
Fixpoint sum_sizes (fuel : nat) (m : gmap Z heap_block_t) (select : bool -> bool)
    (current total : Z) : option Z :=
  match fuel with
  | O => None
  | S fuel =>
      if decide (current = 0) then Some total
      else
        b ← m !! current;
        sum_sizes fuel m select (next b)
          (if select (free b) then u64 (total + size b) else total)
  end.
Definition heap_sum (select : bool -> bool) (st : state) : option Z :=
  sum_sizes (walk_bound (kernel_heap st)) (mem st) select (first (kernel_heap st)) 0.
Definition heap_get_total_size (st : state) : option Z := heap_sum (fun _ => true) st.
Definition heap_get_used_size (st : state) : option Z := heap_sum negb st.
Definition heap_get_free_size (st : state) : option Z := heap_sum (fun f => f) st.

(** * The abstract heap *)

(** A block as its payload size and its free flag; a heap is the sequence of
    its blocks in address order. *)
#[local] Abbreviation block := (Z * bool)%type.

Fixpoint span (bs : list block) : Z :=
  match bs with [] => 0 | (s, _) :: bs => HEADER + s + span bs end.

(** Payload address and size of the allocated blocks. *)
Fixpoint live (pos : Z) (bs : list block) : list (Z * Z) :=
  match bs with
  | [] => []
  | (s, f) :: bs =>
      (if f : bool then [] else [(pos + HEADER, s)]) ++ live (pos + HEADER + s) bs
  end.

(** No two neighbouring blocks are free. *)
Fixpoint coalesced (bs : list block) : bool :=
  match bs with
  | (_, f) :: bs =>
      match bs with
      | (_, g) :: _ => negb (f && g) && coalesced bs
      | [] => true
      end
  | [] => true
  end.

Definition block_ok (b : block) : Prop := 0 <= b.1 /\ b.1 mod 16 = 0.

(** The doubly linked list holds the blocks [bs] from [pos] to [pend]: it is
    entered through pointer [cur] with predecessor [prv]; its last header is
    [last] and points to [nend]. *)
Fixpoint seg (m : gmap Z heap_block_t) (prv cur pos : Z) (bs : list block)
    (last nend pend : Z) : Prop :=
  match bs with
  | [] => prv = last /\ cur = nend /\ pos = pend
  | (s, f) :: bs =>
      cur = pos /\ exists nxt, m !! pos = Some (Block s f nxt prv) /\
        seg m pos nxt (pos + HEADER + s) bs last nend pend
  end.

(** The representation invariant of the kernel heap. *)
Record heap_wf (st : state) (bs : list block) : Prop := {
  wf_start : heap_start (kernel_heap st) = HEAP_START;
  wf_first : first (kernel_heap st) = HEAP_START;
  wf_limit : heap_end (kernel_heap st) <= HEAP_LIMIT;
  wf_seg : exists last, seg (mem st) 0 HEAP_START HEAP_START bs last 0
             (heap_end (kernel_heap st));
  wf_nonempty : bs <> [];
  wf_blocks : Forall block_ok bs;
  wf_coalesced : coalesced bs = true;
}.

(** * Lemmas on segments *)

Ltac heap_lia := unfold HEADER, HEAP_START, HEAP_LIMIT in *; mach.

(** Reduce binds and field accesses, nothing else. *)
Ltac fields :=
  cbv beta iota zeta delta [mbind option_bind set_size set_free set_next set_prev size free next prev].

Ltac fields_in H :=
  cbv beta iota zeta delta [mbind option_bind set_size set_free set_next set_prev size free next prev] in H.

(** Evaluate a lookup through writes to other addresses. *)
Ltac look :=
  repeat first [rewrite lookup_insert_eq | rewrite lookup_insert_ne by heap_lia].

Lemma seg_app m prv cur pos bs1 bs2 last nend pend :
  seg m prv cur pos (bs1 ++ bs2) last nend pend <->
  exists l c p, seg m prv cur pos bs1 l c p /\ seg m l c p bs2 last nend pend.
Proof.
  revert prv cur pos. induction bs1 as [|[s f] bs1 IH]; intros prv cur pos; cbn.
  - split; [by exists prv, cur, pos|]. by intros (l & c & p & (-> & -> & ->) & H).
  - setoid_rewrite IH. naive_solver.
Qed.

Lemma seg_span m prv cur pos bs last nend pend :
  seg m prv cur pos bs last nend pend -> pend = pos + span bs.
Proof.
  revert prv cur pos. induction bs as [|[s f] bs IH]; intros prv cur pos; cbn.
  - lia.
  - intros (_ & nxt & _ & H). apply IH in H. lia.
Qed.

Lemma span_nonneg bs : Forall block_ok bs -> 0 <= span bs.
Proof. induction 1 as [|[s f] bs [H _] _ IH]; cbn in *; [lia|]. unfold HEADER. lia. Qed.

Lemma span_app bs1 bs2 : span (bs1 ++ bs2) = span bs1 + span bs2.
Proof. induction bs1 as [|[s f] bs1 IH]; cbn; lia. Qed.

(** A segment depends only on the headers inside it. *)
Lemma seg_agree m m' prv cur pos bs last nend pend :
  seg m prv cur pos bs last nend pend -> Forall block_ok bs ->
  (forall a, pos <= a < pend -> m' !! a = m !! a) ->
  seg m' prv cur pos bs last nend pend.
Proof.
  intros H Hok. revert prv cur pos H.
  induction Hok as [|[s f] bs [Hs Hm] Hbs IH]; intros prv cur pos H Ha; cbn in *; [done|].
  destruct H as (-> & nxt & Hl & H). split; [done|]. exists nxt.
  apply seg_span in H as Hp. pose proof (span_nonneg bs Hbs). unfold HEADER in *.
  split; [rewrite Ha by lia; done|]. apply IH; [done|]. intros. apply Ha. lia.
Qed.

Lemma seg_cur_nonzero m prv cur pos bs last pend :
  seg m prv cur pos bs last 0 pend -> 0 < pos -> (cur = 0 <-> bs = []).
Proof. destruct bs as [|[s f] bs]; cbn; [naive_solver|]. intros (-> & _) ?. naive_solver lia. Qed.

Lemma store_some m p f b : m !! p = Some b -> store m p f = Some (<[p := f b]> m).
Proof. intros H. unfold store. by rewrite H. Qed.

(** Redirecting the predecessor of the first block of a segment. *)
Lemma seg_relink m prv q cur pos bs last pend :
  seg m prv cur pos bs last 0 pend -> 0 < pos -> Forall block_ok bs ->
  exists m' last', (if decide (cur <> 0) then store m cur (set_prev q) else Some m) = Some m' /\
    seg m' q cur pos bs last' 0 pend /\
    (forall a, a < pos \/ pend <= a -> m' !! a = m !! a).
Proof.
  intros H Hp Hok. destruct bs as [|[s f] bs]; cbn in H.
  - destruct H as (-> & -> & ->). rewrite decide_False by lia. exists m, q. by repeat split.
  - destruct H as (-> & nxt & Hl & H). rewrite decide_True by lia.
    rewrite (store_some _ _ _ _ Hl). eexists _, last. split; [done|].
    apply Forall_cons_1 in Hok as [[Hs _] Hok]. simpl in Hs.
    pose proof (span_nonneg bs Hok). apply seg_span in H as Hsp.
    split; [split; [done|]; exists nxt; split; [by look|]|].
    + eapply seg_agree; [done..|]. intros. by look.
    + intros a Ha. by look.
Qed.

Lemma u64_addr a : HEAP_START <= a <= HEAP_LIMIT -> u64 a = a.
Proof. intros H. apply u64_id. heap_lia. Qed.

Lemma forall_mid (P : block -> Prop) bs1 b bs2 :
  Forall P (bs1 ++ b :: bs2) <-> Forall P bs1 /\ P b /\ Forall P bs2.
Proof. by rewrite Forall_app, Forall_cons. Qed.

(** A block in the middle of a heap. *)
Lemma seg_mid m prv cur pos bs1 s f bs2 last nend pend :
  seg m prv cur pos (bs1 ++ (s, f) :: bs2) last nend pend <->
  exists q p nxt, seg m prv cur pos bs1 q p p /\ m !! p = Some (Block s f nxt q) /\
    seg m p nxt (p + HEADER + s) bs2 last nend pend.
Proof.
  rewrite seg_app. cbn. split.
  - intros (q & c & p & H1 & -> & nxt & H2 & H3). eauto 10.
  - intros (q & p & nxt & H1 & H2 & H3). exists q, p, p. eauto 10.
Qed.

(** ** Splitting *)

(** What allocation does to the block it takes. *)
Definition split_block (s want : Z) : list block :=
  if decide (s - want > HEADER + 16) then [(want, false); (s - want - HEADER, true)]
  else [(s, false)].

Lemma take_block_spec m bs1 s bs2 last pend want :
  seg m 0 HEAP_START HEAP_START (bs1 ++ (s, true) :: bs2) last 0 pend ->
  Forall block_ok (bs1 ++ (s, true) :: bs2) -> pend <= HEAP_LIMIT -> 0 <= want <= s ->
  exists m' last', take_block m (HEAP_START + span bs1) want = Some m' /\
    seg m' 0 HEAP_START HEAP_START (bs1 ++ split_block s want ++ bs2) last' 0 pend.
Proof.
  rewrite seg_mid. intros (q & p & nxt & H1 & Hp & H2) Hok Hlim Hw.
  apply forall_mid in Hok as (Hok1 & [Hs _] & Hok2). simpl in Hs.
  apply seg_span in H1 as Ep. apply seg_span in H2 as Epend.
  pose proof (span_nonneg bs1 Hok1). pose proof (span_nonneg bs2 Hok2).
  rewrite <- Ep. unfold take_block. rewrite Hp. fields.
  rewrite (u64_id (s - want)) by heap_lia. unfold split_block. case_decide as Hr.
  - rewrite u64_addr by heap_lia. set (nb := p + HEADER + want).
    assert (Hnb : nb = p + HEADER + want) by done. clearbody nb.
    set (m0 := <[nb := _]> m). cbv zeta.
    rewrite (store_some m0 p _ (Block s true nxt q)) by (unfold m0; look; done).
    fields.
    destruct (seg_relink (<[p := Block s true nb q]> m0) p nb nxt (p + HEADER + s) bs2 last pend)
      as (m2 & last' & E2 & Hs2 & Hout).
    { eapply seg_agree; [exact H2|done|]. intros. unfold m0. by look. }
    { heap_lia. }
    { done. }
    fields_in E2. rewrite E2. fields.
    rewrite (store_some m2 p _ (Block s true nb q)) by (rewrite Hout by heap_lia; by look).
    fields. rewrite (store_some _ p _ (Block want true nb q)) by by look. fields.
    eexists _, last'. split; [done|]. cbn [app]. rewrite seg_mid. exists q, p, nb. split; [|split; [by look|]].
    + eapply seg_agree; [exact H1|done|]. intros. look. rewrite Hout by heap_lia. unfold m0. by look.
    + cbn. rewrite Hnb. split; [done|]. exists nxt. rewrite <- Hnb. split.
      * look. rewrite Hout by heap_lia. unfold m0. by look.
      * replace (nb + HEADER + (s - want - HEADER)) with (p + HEADER + s) by heap_lia.
        eapply seg_agree; [exact Hs2|done|]. intros. by look.
  - fields. rewrite (store_some m p _ _ Hp). eexists _, last.
    split; [done|]. cbn [app]. rewrite seg_mid. exists q, p, nxt. split; [|split; [by look|]].
    + eapply seg_agree; [exact H1|done|]. intros. by look.
    + eapply seg_agree; [exact H2|done|]. intros. by look.
Qed.

(** ** Coalescing *)

(** A block of [s] bytes just freed, with what follows it. *)
Definition join_next (s : Z) (bs2 : list block) : list block :=
  match bs2 with
  | (s2, true) :: bs3 => (s + (HEADER + s2), true) :: bs3
  | _ => (s, true) :: bs2
  end.

(** A free block of [s] bytes, with what precedes it. *)
Fixpoint join_prev (bs1 : list block) (s : Z) (bs2 : list block) : list block :=
  match bs1 with
  | [] => (s, true) :: bs2
  | [(s0, true)] => (s0 + (HEADER + s), true) :: bs2
  | b :: bs1 => b :: join_prev bs1 s bs2
  end.

Lemma join_prev_free bs0 s0 s bs2 :
  join_prev (bs0 ++ [(s0, true)]) s bs2 = bs0 ++ (s0 + (HEADER + s), true) :: bs2.
Proof.
  induction bs0 as [|[s1 f1] bs0 IH]; [done|]. cbn [join_prev app]. rewrite IH.
  destruct f1, (bs0 ++ [(s0, true)]) eqn:E; [by destruct bs0|done..].
Qed.
Lemma join_prev_used bs0 s0 s bs2 :
  join_prev (bs0 ++ [(s0, false)]) s bs2 = bs0 ++ (s0, false) :: (s, true) :: bs2.
Proof.
  induction bs0 as [|[s1 f1] bs0 IH]; [done|]. cbn [join_prev app]. rewrite IH.
  destruct f1, (bs0 ++ [(s0, false)]) eqn:E; [by destruct bs0|done..].
Qed.

Lemma merge_next_spec m bs1 s bs2 last pend :
  seg m 0 HEAP_START HEAP_START (bs1 ++ (s, true) :: bs2) last 0 pend ->
  Forall block_ok (bs1 ++ (s, true) :: bs2) -> pend <= HEAP_LIMIT ->
  exists m' last', merge_next m (HEAP_START + span bs1) = Some m' /\
    seg m' 0 HEAP_START HEAP_START (bs1 ++ join_next s bs2) last' 0 pend.
Proof.
  intros H Hok Hlim. pose proof H as H0. apply seg_mid in H0 as (q & p & nxt & H1 & Hp & H2).
  apply forall_mid in Hok as (Hok1 & [Hs _] & Hok2). simpl in Hs.
  apply seg_span in H1 as Ep. rewrite <- Ep. unfold merge_next. rewrite Hp. fields.
  pose proof (span_nonneg bs1 Hok1).
  destruct bs2 as [|[s2 f2] bs3].
  { destruct H2 as (_ & -> & _). rewrite decide_False by lia. by exists m, last. }
  destruct H2 as (-> & nxt2 & Hn & H2). apply seg_span in H2 as Epend.
  apply Forall_cons_1 in Hok2 as [[Hs2 _] Hok3]. simpl in Hs2.
  pose proof (span_nonneg bs3 Hok3). rewrite decide_True by heap_lia. rewrite Hn. fields.
  destruct f2; [|by exists m, last].
  rewrite u64_id by heap_lia.
  rewrite (store_some m p _ _ Hp). fields.
  rewrite (store_some _ p _ (Block (s + (HEADER + s2)) true (p + HEADER + s) q)) by by look.
  fields. set (m1 := <[p := _]> (<[p := _]> m)).
  destruct (seg_relink m1 (p + HEADER + s) p nxt2 (p + HEADER + s + HEADER + s2) bs3 last pend)
    as (m2 & last' & E2 & Hs3 & Hout).
  { eapply seg_agree; [exact H2|done|]. intros. unfold m1. by look. }
  { heap_lia. }
  { done. }
  fields_in E2. rewrite E2. exists m2, last'. split; [done|]. cbn [join_next].
  rewrite seg_mid. exists q, p, nxt2. split; [|split].
  - eapply seg_agree; [exact H1|done|]. intros. rewrite Hout by heap_lia. unfold m1. by look.
  - rewrite Hout by heap_lia. unfold m1. by look.
  - by replace (p + HEADER + (s + (HEADER + s2))) with (p + HEADER + s + HEADER + s2) by lia.
Qed.

Lemma merge_prev_spec m bs1 s bs2 last pend :
  seg m 0 HEAP_START HEAP_START (bs1 ++ (s, true) :: bs2) last 0 pend ->
  Forall block_ok (bs1 ++ (s, true) :: bs2) -> pend <= HEAP_LIMIT ->
  exists m' last', merge_prev m (HEAP_START + span bs1) = Some m' /\
    seg m' 0 HEAP_START HEAP_START (join_prev bs1 s bs2) last' 0 pend.
Proof.
  intros H Hok Hlim. pose proof H as H0. apply seg_mid in H0 as (q & p & nxt & H1 & Hp & H2).
  apply forall_mid in Hok as (Hok1 & [Hs _] & Hok2). simpl in Hs.
  apply seg_span in H1 as Ep. rewrite <- Ep. unfold merge_prev. rewrite Hp. fields.
  destruct bs1 as [|[s0 f0] bs0 _] using rev_ind.
  { destruct H1 as (<- & _). rewrite decide_False by lia. by exists m, last. }
  apply seg_mid in H1 as (q0 & p0 & nxt0 & H1 & Hp0 & Eq & En & Ep1).
  subst nxt0 p0. subst p.
  apply forall_mid in Hok1 as (Hok0 & [Hs0 _] & _). simpl in Hs0.
  rewrite span_app in Ep. cbn in Ep.
  apply seg_span in H1 as Ep0. pose proof (span_nonneg bs0 Hok0).
  apply seg_span in H2 as Epend. pose proof (span_nonneg bs2 Hok2).
  rewrite decide_True by heap_lia. rewrite Hp0. fields.
  destruct f0; [|rewrite join_prev_used; exists m, last; split; [done|];
                 by rewrite <- app_assoc in H].
  rewrite join_prev_free. rewrite u64_id by heap_lia.
  rewrite (store_some m q _ _ Hp0). fields.
  rewrite (store_some _ q _ (Block (s0 + (HEADER + s)) true (q + HEADER + s0) q0)) by by look.
  fields. set (m1 := <[q := _]> (<[q := _]> m)).
  destruct (seg_relink m1 (q + HEADER + s0) q nxt (q + HEADER + s0 + HEADER + s) bs2 last pend)
    as (m2 & last' & E2 & Hs3 & Hout).
  { eapply seg_agree; [exact H2|done|]. intros. unfold m1. by look. }
  { heap_lia. }
  { done. }
  fields_in E2. rewrite E2. exists m2, last'. split; [done|].
  rewrite seg_mid. exists q0, q, nxt. split; [|split].
  - eapply seg_agree; [exact H1|done|]. intros. rewrite Hout by heap_lia. unfold m1. by look.
  - rewrite Hout by heap_lia. unfold m1. by look.
  - by replace (q + HEADER + (s0 + (HEADER + s))) with (q + HEADER + s0 + HEADER + s) by lia.
Qed.

(** ** Traversals *)

Definition fits (want : Z) (b : block) : bool := b.2 && (want <=? b.1).

Lemma length_span bs : Forall block_ok bs -> HEADER * Z.of_nat (length bs) <= span bs.
Proof. induction 1 as [|[s f] bs [H _] _ IH]; cbn in *; [lia|]. unfold HEADER in *. lia. Qed.

Lemma walk_bound_enough h bs m prv cur last nend :
  seg m prv cur (heap_start h) bs last nend (heap_end h) -> Forall block_ok bs ->
  (length bs < walk_bound h)%nat.
Proof.
  intros H Hok. apply seg_span in H. apply length_span in Hok. unfold walk_bound, HEADER in *.
  replace (heap_end h - heap_start h) with (span bs) by lia.
  assert (Z.of_nat (length bs) <= span bs / 32) by (apply Z.div_le_lower_bound; lia). lia.
Qed.

Lemma find_fit_spec fuel m prv cur pos bs last pend want :
  seg m prv cur pos bs last 0 pend -> 0 < pos -> Forall block_ok bs ->
  (length bs < fuel)%nat ->
  (find_fit fuel m cur want = Some 0 /\ Forall (fun b => fits want b = false) bs) \/
  (exists bs1 s bs2, bs = bs1 ++ (s, true) :: bs2 /\ want <= s /\
     Forall (fun b => fits want b = false) bs1 /\
     find_fit fuel m cur want = Some (pos + span bs1)).
Proof.
  intros H Hp Hok. revert prv cur pos fuel H Hp.
  induction Hok as [|[s f] bs [Hs _] Hok IH]; intros prv cur pos [|fuel] H Hp Hf;
    try (simpl in Hf; lia); cbn in H.
  - destruct H as (_ & -> & _). by left.
  - simpl in Hs. destruct H as (-> & nxt & Hl & H). simpl. rewrite decide_False by lia. rewrite Hl. cbn.
    destruct (fits want (s, f)) eqn:Hfit; unfold fits in Hfit; cbn in Hfit; rewrite Hfit.
    + right. exists [], s, bs. assert (f = true) as -> by (by destruct f).
      cbn in Hfit |- *. repeat split; [lia|constructor|f_equal; lia].
    + destruct (IH pos nxt (pos + HEADER + s) fuel) as [[E F]|(bs1 & s' & bs2 & -> & Hw & F & E)];
        [done|heap_lia|simpl in Hf; lia|left|right].
      * split; [done|]. by constructor.
      * exists ((s, f) :: bs1), s', bs2. repeat split; [done|by constructor|].
        rewrite E. cbn. f_equal. lia.
Qed.

Lemma verify_spec fuel h m prv cur pos bs last :
  seg m prv cur pos bs last 0 (heap_end h) -> 0 < pos -> heap_start h <= pos ->
  Forall block_ok bs -> (length bs < fuel)%nat -> verify_from fuel h m cur = Some true.
Proof.
  intros H Hp Hst Hok. revert prv cur pos fuel H Hp Hst.
  induction Hok as [|[s f] bs [Hs _] Hok IH]; intros prv cur pos [|fuel] H Hp Hst Hf;
    try (simpl in Hf; lia); cbn in H.
  - by destruct H as (_ & -> & _).
  - simpl in Hs. destruct H as (-> & nxt & Hl & H). apply seg_span in H as Hsp.
    pose proof (span_nonneg bs Hok). simpl. rewrite decide_False by lia.
    rewrite decide_False by heap_lia. rewrite Hl. fields.
    assert (IH' : verify_from fuel h m nxt = Some true).
    { eapply IH; [done|heap_lia|heap_lia|simpl in Hf; lia]. }
    case_decide as Hn; [done|].
    destruct bs as [|[s2 f2] bs]; [by destruct H as (_ & -> & _)|].
    destruct H as (-> & nxt2 & Hl2 & H). rewrite Hl2. fields.
    by rewrite decide_False by lia.
Qed.

Lemma find_last_spec fuel m prv cur pos bs s f last pend :
  seg m prv cur pos (bs ++ [(s, f)]) last 0 pend -> 0 < pos ->
  Forall block_ok (bs ++ [(s, f)]) -> (length bs < fuel)%nat ->
  find_last fuel m cur = Some (pos + span bs).
Proof.
  revert prv cur pos fuel. induction bs as [|[s1 f1] bs IH];
    intros prv cur pos [|fuel] H Hp Hok Hf; try (simpl in Hf; lia).
  - destruct H as (-> & nxt & Hl & _ & -> & _). simpl. rewrite Hl. fields.
    rewrite decide_False by lia. f_equal. lia.
  - destruct H as (-> & nxt & Hl & H). apply Forall_cons_1 in Hok as [[Hs1 _] Hok].
    simpl in Hs1. simpl find_last. rewrite Hl. fields.
    rewrite decide_True.
    { rewrite (IH _ _ _ _ H); [cbn; f_equal; lia|heap_lia|done|simpl in Hf; lia]. }
    apply seg_cur_nonzero in H; [|heap_lia]. intros Hz. apply H in Hz. by destruct bs.
Qed.

Fixpoint select_sum (select : bool -> bool) (bs : list block) : Z :=
  match bs with
  | [] => 0
  | (s, f) :: bs => (if select f then s else 0) + select_sum select bs
  end.

Lemma select_sum_bounds select bs :
  Forall block_ok bs -> 0 <= select_sum select bs <= span bs - HEADER * Z.of_nat (length bs).
Proof.
  induction 1 as [|[s f] bs [H _] _ IH]; cbn in *; [lia|]. unfold HEADER in *.
  destruct (select f); lia.
Qed.

Lemma sum_sizes_spec fuel m select prv cur pos bs last pend total :
  seg m prv cur pos bs last 0 pend -> 0 < pos -> Forall block_ok bs ->
  (length bs < fuel)%nat -> 0 <= total -> total + span bs < 2 ^ 64 ->
  sum_sizes fuel m select cur total = Some (total + select_sum select bs).
Proof.
  intros H Hp Hok. revert prv cur pos fuel total H Hp.
  induction Hok as [|[s f] bs [Hs _] Hok IH]; intros prv cur pos [|fuel] total H Hp Hf Ht Hb;
    try (simpl in Hf; lia); cbn in H.
  - destruct H as (_ & -> & _). cbn. f_equal. lia.
  - simpl in Hs. destruct H as (-> & nxt & Hl & H). simpl. rewrite decide_False by lia. rewrite Hl. fields.
    cbn in Hb. pose proof (span_nonneg bs Hok).
    rewrite (IH _ _ _ _ _ H); [|heap_lia|simpl in Hf; lia|destruct (select f); heap_lia|].
    + f_equal. destruct (select f); [rewrite u64_id by heap_lia|]; lia.
    + destruct (select f); [rewrite u64_id by heap_lia|]; heap_lia.
Qed.

(** ** The abstract operations and the invariant *)

Lemma live_app pos bs1 bs2 :
  live pos (bs1 ++ bs2) = live pos bs1 ++ live (pos + span bs1) bs2.
Proof.
  revert pos. induction bs1 as [|[s f] bs1 IH]; intros pos; cbn; [f_equal; lia|].
  rewrite IH, <- app_assoc. do 3 f_equal. lia.
Qed.

Lemma elem_of_live pos bs ptr sz :
  (ptr, sz) ∈ live pos bs ->
  exists bs1 bs2, bs = bs1 ++ (sz, false) :: bs2 /\ ptr = pos + span bs1 + HEADER.
Proof.
  revert pos. induction bs as [|[s f] bs IH]; intros pos; cbn; [by intros ?%not_elem_of_nil|].
  rewrite elem_of_app. intros [H|H].
  - destruct f; [by apply not_elem_of_nil in H|]. apply list_elem_of_singleton in H.
    simplify_eq. exists [], bs. split; [done|]. cbn. lia.
  - apply IH in H as (bs1 & bs2 & -> & ->). exists ((s, f) :: bs1), bs2. split; [done|].
    cbn. lia.
Qed.

(** Allocations are separated by at least a header. *)
Definition apart (x y : Z * Z) : Prop := x.1 + x.2 + HEADER <= y.1.

Lemma live_bounds pos bs ptr sz :
  Forall block_ok bs -> (ptr, sz) ∈ live pos bs ->
  pos + HEADER <= ptr /\ 0 <= sz /\ ptr + sz <= pos + span bs.
Proof.
  intros Hok (bs1 & bs2 & -> & ->)%elem_of_live. apply forall_mid in Hok as (H1 & [H _] & H2).
  simpl in H. rewrite span_app. cbn. pose proof (span_nonneg bs1 H1).
  pose proof (span_nonneg bs2 H2). lia.
Qed.

Lemma live_sorted pos bs : Forall block_ok bs -> StronglySorted apart (live pos bs).
Proof.
  intros Hok. revert pos. induction Hok as [|[s f] bs Hb Hok IH]; intros pos; cbn; [constructor|].
  destruct f; cbn; [apply IH|]. constructor; [apply IH|]. apply Forall_forall.
  intros [ptr sz] (H & _)%live_bounds; [|done]. unfold apart. cbn. lia.
Qed.

Lemma coalesced_app bs1 b bs2 :
  coalesced (bs1 ++ b :: bs2) = coalesced (bs1 ++ [b]) && coalesced (b :: bs2).
Proof.
  induction bs1 as [|[s1 f1] bs1 IH]; [by destruct b as [s f]|].
  cbn [app]. cbn [coalesced]. rewrite IH.
  destruct bs1 as [|[s2 f2] bs1]; cbn [app]; [destruct b; by rewrite andb_true_r|].
  by rewrite andb_assoc.
Qed.

Lemma coalesced_snoc bs s f :
  coalesced bs = true -> (forall bs0 s0, f = true -> bs <> bs0 ++ [(s0, true)]) ->
  coalesced (bs ++ [(s, f)]) = true.
Proof.
  intros H Hl. destruct bs as [|[s0 f0] bs0 _] using rev_ind; [done|].
  rewrite <- app_assoc. cbn [app]. rewrite coalesced_app, H. cbn.
  destruct f0, f; try done. by destruct (Hl bs0 s0).
Qed.

Lemma coalesced_front bs1 bs2 : coalesced (bs1 ++ bs2) = true -> coalesced bs1 = true.
Proof.
  destruct bs2 as [|b bs2]; [by rewrite app_nil_r|]. rewrite coalesced_app.
  intros [H _]%andb_true_iff. revert H. induction bs1 as [|[s1 f1] bs1 IH]; [done|].
  cbn [app coalesced]. destruct bs1 as [|[s2 f2] bs1]; [done|]. cbn [app].
  intros [H1 H2]%andb_true_iff. rewrite H1. by apply IH.
Qed.

Lemma coalesced_tail b bs : coalesced (b :: bs) = true -> coalesced bs = true.
Proof. destruct b, bs as [|[]]; cbn; [done|]. by intros [_ H]%andb_true_iff. Qed.

(** The block before a free block is in use. *)
Lemma coalesced_before bs0 s0 s bs2 :
  coalesced ((bs0 ++ [(s0, true)]) ++ (s, true) :: bs2) = false.
Proof. rewrite <- app_assoc. cbn [app]. rewrite coalesced_app. cbn. by rewrite andb_false_r. Qed.

Lemma split_block_span s want : span (split_block s want) = HEADER + s.
Proof. unfold split_block. case_decide; cbn; lia. Qed.

Lemma split_block_ok s want :
  block_ok (s, true) -> 0 <= want <= s -> want mod 16 = 0 -> Forall block_ok (split_block s want).
Proof.
  intros [H1 H2] Hw Hm. simpl in *. unfold split_block.
  case_decide; repeat constructor; cbn; heap_lia.
Qed.

Lemma split_block_coalesced bs1 s want bs2 :
  coalesced (bs1 ++ (s, true) :: bs2) = true ->
  coalesced (bs1 ++ split_block s want ++ bs2) = true.
Proof.
  intros H. apply coalesced_front in H as H1. rewrite coalesced_app in H.
  apply andb_true_iff in H as [_ H2].
  assert (Hs : forall x, coalesced (bs1 ++ [(x, false)]) = true) by (intros; by apply coalesced_snoc).
  unfold split_block. case_decide; cbn [app]; rewrite coalesced_app, Hs; [done|].
  apply coalesced_tail in H2. by destruct bs2 as [|[]].
Qed.

(** The blocks after releasing the block between [bs1] and [bs2]. *)
Definition release (bs1 : list block) (s : Z) (bs2 : list block) : list block :=
  match join_next s bs2 with
  | (s', _) :: bs' => join_prev bs1 s' bs'
  | [] => bs1
  end.

Lemma join_next_cases s bs2 :
  (exists s2 bs3, bs2 = (s2, true) :: bs3 /\ join_next s bs2 = (s + (HEADER + s2), true) :: bs3) \/
  (join_next s bs2 = (s, true) :: bs2 /\ forall s2 bs3, bs2 <> (s2, true) :: bs3).
Proof. destruct bs2 as [|[s2 []] bs3]; [right|left|right]; naive_solver. Qed.

Lemma join_prev_cases bs1 s bs2 :
  (exists bs0 s0, bs1 = bs0 ++ [(s0, true)] /\
     join_prev bs1 s bs2 = bs0 ++ (s0 + (HEADER + s), true) :: bs2) \/
  (join_prev bs1 s bs2 = bs1 ++ (s, true) :: bs2 /\ forall bs0 s0, bs1 <> bs0 ++ [(s0, true)]).
Proof.
  destruct bs1 as [|[s0 []] bs0 _] using rev_ind.
  - right. split; [done|]. by intros [].
  - left. exists bs0, s0. split; [done|]. apply join_prev_free.
  - right. rewrite join_prev_used, <- app_assoc. split; [done|].
    by intros bs1 s1 [_ [=]]%app_inj_tail.
Qed.

Lemma join_prev_live pos bs1 s bs2 :
  live pos (join_prev bs1 s bs2) = live pos bs1 ++ live (pos + span bs1 + HEADER + s) bs2.
Proof.
  destruct (join_prev_cases bs1 s bs2) as [(bs0 & s0 & -> & ->)|[-> _]]; rewrite !live_app;
    cbn; rewrite ?span_app; cbn; rewrite ?app_nil_r; do 2 f_equal; lia.
Qed.

Lemma block_ok_join s f s' f' g :
  block_ok (s, f) -> block_ok (s', f') -> block_ok (s + (HEADER + s'), g).
Proof. intros [H1 H2] [H3 H4]. simpl in *. split; cbn; heap_lia. Qed.

Lemma release_ok bs1 s bs2 :
  Forall block_ok (bs1 ++ (s, false) :: bs2) -> Forall block_ok (release bs1 s bs2).
Proof.
  rewrite forall_mid. intros (H1 & Hs & H2). unfold release.
  assert (Hn : exists s' bs', join_next s bs2 = (s', true) :: bs' /\ block_ok (s', true) /\
    Forall block_ok bs').
  { destruct (join_next_cases s bs2) as [(s2 & bs3 & -> & ->)|[-> _]]; [|by eauto 10].
    apply Forall_cons_1 in H2 as [Hs2 H3]. do 2 eexists. split; [done|].
    split; [exact (block_ok_join _ _ _ _ _ Hs Hs2)|done]. }
  destruct Hn as (s' & bs' & -> & Hs' & Hbs').
  destruct (join_prev_cases bs1 s' bs') as [(bs0 & s0 & -> & ->)|[-> _]].
  - apply Forall_app in H1 as [H0 Hs0]. apply Forall_cons_1 in Hs0 as [Hs0 _].
    apply forall_mid.
    split; [done|]. split; [exact (block_ok_join _ _ _ _ _ Hs0 Hs')|done].
  - by apply forall_mid.
Qed.

Lemma release_coalesced bs1 s bs2 :
  coalesced (bs1 ++ (s, false) :: bs2) = true -> coalesced (release bs1 s bs2) = true.
Proof.
  intros H. apply coalesced_front in H as H1. rewrite coalesced_app in H.
  apply andb_true_iff in H as [_ H2%coalesced_tail]. unfold release.
  assert (Hn : exists s' bs', join_next s bs2 = (s', true) :: bs' /\
    coalesced ((s', true) :: bs') = true).
  { destruct (join_next_cases s bs2) as [(s2 & bs3 & -> & ->)|[-> Hne]].
    - do 2 eexists. split; [done|]. by destruct bs3 as [|[]].
    - do 2 eexists. split; [done|]. destruct bs2 as [|[s2 []] bs3]; [done| |done].
      by destruct (Hne s2 bs3). }
  destruct Hn as (s' & bs' & -> & Hc).
  destruct (join_prev_cases bs1 s' bs') as [(bs0 & s0 & -> & ->)|[-> Hne]].
  - rewrite coalesced_app. apply andb_true_iff. split.
    + apply coalesced_snoc; [by eapply coalesced_front|]. intros bs3 s3 _ ->.
      rewrite <- app_assoc in H1. cbn [app] in H1. rewrite coalesced_app in H1.
      cbn in H1. by rewrite andb_false_r in H1.
    + by destruct bs' as [|[]].
  - rewrite coalesced_app, Hc, andb_true_r. by apply coalesced_snoc.
Qed.

Lemma release_live pos bs1 s bs2 :
  live pos (bs1 ++ (s, false) :: bs2) ≡ₚ
    (pos + span bs1 + HEADER, s) :: live pos (release bs1 s bs2).
Proof.
  unfold release. rewrite live_app. cbn.
  destruct (join_next_cases s bs2) as [(s2 & bs3 & -> & ->)|[-> _]]; rewrite join_prev_live; cbn.
  - replace (pos + span bs1 + HEADER + (s + (HEADER + s2)))
      with (pos + span bs1 + HEADER + s + HEADER + s2) by lia.
    by rewrite Permutation_middle.
  - by rewrite Permutation_middle.
Qed.

(** * The critical sections preserve the invariant *)

Lemma heap_start_pos : 0 < HEAP_START.
Proof. done. Qed.

Lemma wf_seg_start st bs :
  heap_wf st bs -> exists last, seg (mem st) 0 (first (kernel_heap st))
    (heap_start (kernel_heap st)) bs last 0 (heap_end (kernel_heap st)).
Proof.
  intros H. destruct (wf_seg _ _ H) as [last Hs].
  rewrite (wf_start _ _ H), (wf_first _ _ H). eauto.
Qed.

Lemma wf_walk st bs : heap_wf st bs -> (length bs < walk_bound (kernel_heap st))%nat.
Proof.
  intros H. destruct (wf_seg_start _ _ H) as [last Hs].
  eapply walk_bound_enough; [exact Hs|]. by apply wf_blocks in H.
Qed.

Lemma heap_verify_wf st bs : heap_wf st bs -> heap_verify st = Some true.
Proof.
  intros H. destruct (wf_seg_start _ _ H) as [last Hs]. unfold heap_verify.
  eapply verify_spec; [exact Hs|by rewrite (wf_start _ _ H)|done|by apply wf_blocks in H|].
  by apply wf_walk.
Qed.

Lemma wf_span st bs : heap_wf st bs -> heap_end (kernel_heap st) = HEAP_START + span bs.
Proof. intros H. destruct (wf_seg _ _ H) as [last Hs]. by apply seg_span in Hs. Qed.

Lemma kmalloc_try_wf st bs want :
  heap_wf st bs -> 0 <= want -> want mod 16 = 0 ->
  (kmalloc_try st want = Some (0, st) /\ Forall (fun b => fits want b = false) bs) \/
  (exists bs1 s bs2 st', bs = bs1 ++ (s, true) :: bs2 /\ want <= s /\
     kmalloc_try st want = Some (HEAP_START + span bs1 + HEADER, st') /\
     heap_wf st' (bs1 ++ split_block s want ++ bs2) /\
     heap_end (kernel_heap st') = heap_end (kernel_heap st)).
Proof.
  intros Hwf Hw Hm. destruct (wf_seg _ _ Hwf) as [last Hs]. unfold kmalloc_try.
  rewrite (heap_verify_wf _ _ Hwf). fields. rewrite (wf_first _ _ Hwf).
  destruct (find_fit_spec (walk_bound (kernel_heap st)) _ _ _ _ _ _ _ want Hs) as
    [[E F]|(bs1 & s & bs2 & -> & Hws & F & E)];
    [done|by apply wf_blocks in Hwf|by apply wf_walk|..].
  - left. by rewrite E.
  - right. rewrite E. pose proof (wf_blocks _ _ Hwf) as Hok.
    pose proof (proj1 (forall_mid _ _ _ _) Hok) as (Hok1 & Hsok & Hok2).
    pose proof (span_nonneg bs1 Hok1). pose proof (span_nonneg bs2 Hok2).
    rewrite decide_False by heap_lia.
    destruct (take_block_spec _ _ _ _ _ _ want Hs Hok) as (m' & last' & Et & Hs');
      [by apply wf_limit in Hwf|lia|]. rewrite Et. fields.
    assert (Hwf' : heap_wf (State (kernel_heap st) m') (bs1 ++ split_block s want ++ bs2)).
    { destruct Hwf. constructor; try done.
      - by exists last'.
      - unfold split_block. case_decide; by destruct bs1.
      - rewrite !Forall_app. split; [done|]. split; [by apply split_block_ok|done].
      - by apply split_block_coalesced. }
    rewrite (heap_verify_wf _ _ Hwf'). exists bs1, s, bs2, (State (kernel_heap st) m').
    split; [done|]. split; [done|]. split; [|done].
    pose proof (wf_span _ _ Hwf) as Hsp. pose proof (wf_limit _ _ Hwf).
    rewrite span_app in Hsp. cbn in Hsp. destruct Hsok as [? _]. simpl in *.
    by rewrite u64_addr by heap_lia.
Qed.

Lemma kfree_wf st bs1 s bs2 :
  heap_wf st (bs1 ++ (s, false) :: bs2) ->
  exists st', kfree (HEAP_START + span bs1 + HEADER) st = Some st' /\
    heap_wf st' (release bs1 s bs2).
Proof.
  intros Hwf. destruct (wf_seg _ _ Hwf) as [last Hs]. pose proof (wf_blocks _ _ Hwf) as Hok.
  pose proof (wf_span _ _ Hwf) as Hsp. pose proof (wf_limit _ _ Hwf) as Hlim.
  pose proof (proj1 (forall_mid _ _ _ _) Hok) as (Hok1 & Hsok & Hok2).
  pose proof (span_nonneg bs1 Hok1). pose proof (span_nonneg bs2 Hok2).
  rewrite span_app in Hsp. cbn in Hsp. pose proof (proj1 Hsok) as Hs0. simpl in Hs0.
  unfold kfree. rewrite decide_False by heap_lia. rewrite (heap_verify_wf _ _ Hwf).
  replace (HEAP_START + span bs1 + HEADER - HEADER) with (HEAP_START + span bs1) by lia.
  rewrite u64_addr by heap_lia. cbv zeta.
  pose proof Hs as Hs1. apply seg_mid in Hs1 as (q & p & nxt & H1 & Hp & H2).
  apply seg_span in H1 as Ep. rewrite <- Ep.
  rewrite (store_some _ _ _ _ Hp). cbn [mbind option_bind].
  set (m1 := <[p := _]> (mem st)).
  assert (Hm1 : seg m1 0 HEAP_START HEAP_START (bs1 ++ (s, true) :: bs2) last 0
                  (heap_end (kernel_heap st))).
  { apply seg_mid. exists q, p, nxt. split; [|split; [unfold m1; by look|]].
    - eapply seg_agree; [exact H1|done|]. intros. unfold m1. by look.
    - eapply seg_agree; [exact H2|done|]. intros. unfold m1. by look. }
  assert (Hok' : Forall block_ok (bs1 ++ (s, true) :: bs2)) by by apply forall_mid.
  destruct (merge_next_spec _ _ _ _ _ _ Hm1 Hok' Hlim) as (m2 & l2 & E2 & Hm2).
  rewrite Ep, E2. cbn [mbind option_bind].
  assert (Hj : exists s' bs', join_next s bs2 = (s', true) :: bs' /\
    Forall block_ok (bs1 ++ (s', true) :: bs')).
  { destruct (join_next_cases s bs2) as [(s2 & bs3 & -> & ->)|[-> _]]; [|by eauto].
    apply Forall_cons_1 in Hok2 as [Hs2 H3]. do 2 eexists. split; [done|]. apply forall_mid.
    split; [done|]. split; [exact (block_ok_join _ _ _ _ _ Hsok Hs2)|done]. }
  destruct Hj as (s' & bs' & Ej & Hok3). rewrite Ej in Hm2.
  destruct (merge_prev_spec _ _ _ _ _ _ Hm2 Hok3 Hlim) as (m3 & l3 & E3 & Hm3).
  rewrite E3. cbn [mbind option_bind].
  assert (Hwf' : heap_wf (State (kernel_heap st) m3) (release bs1 s bs2)).
  { pose proof (release_ok _ _ _ Hok). pose proof (release_coalesced _ _ _ (wf_coalesced _ _ Hwf)).
    destruct Hwf. constructor; try done; unfold release in *; rewrite Ej in *.
    - by exists l3.
    - destruct (join_prev_cases bs1 s' bs') as [(bs0 & s0 & -> & ->)|[-> _]].
      + by destruct bs0.
      + by destruct bs1. }
  rewrite (heap_verify_wf _ _ Hwf'). by eexists.
Qed.

(** ** Growth *)

Definition grow_last (b : block) (bytes : Z) : list block :=
  let '(s, f) := b in
  if f : bool then [(s + bytes, true)] else [(s, false); (bytes - HEADER, true)].
Fixpoint grow (bs : list block) (bytes : Z) : list block :=
  match bs with
  | [] => []
  | [b] => grow_last b bytes
  | b :: bs => b :: grow bs bytes
  end.

Lemma grow_snoc bs b bytes : grow (bs ++ [b]) bytes = bs ++ grow_last b bytes.
Proof.
  induction bs as [|b1 bs IH]; [done|]. cbn [app grow]. rewrite IH.
  by destruct (bs ++ [b]) eqn:E; [destruct bs|].
Qed.

Lemma grow_live pos bs bytes : live pos (grow bs bytes) = live pos bs.
Proof.
  destruct bs as [|[s f] bs _] using rev_ind; [done|]. rewrite grow_snoc, !live_app.
  by destruct f.
Qed.

(** The last block, when it is free, reaches the end of the heap. *)
Definition free_tail (bs : list block) : Z :=
  match last bs with Some (s, true) => s | _ => - HEADER end.

Lemma free_tail_grow bs bytes : bs <> [] -> free_tail (grow bs bytes) = free_tail bs + bytes.
Proof.
  destruct bs as [|[s f] bs _] using rev_ind; [done|]. intros _. rewrite grow_snoc.
  unfold free_tail. destruct f; cbn [grow_last].
  - by rewrite !last_snoc.
  - rewrite (last_app _ [_; _]), last_snoc. cbn. lia.
Qed.

Lemma free_tail_fits bs want :
  0 <= want -> Forall (fun b => fits want b = false) bs -> free_tail bs < want.
Proof.
  intros Hw. destruct bs as [|[s f] bs _] using rev_ind; [unfold free_tail; cbn; heap_lia|].
  intros [_ H]%Forall_app. apply Forall_cons_1 in H as [H _]. unfold free_tail.
  rewrite last_snoc. unfold fits in H. cbn in H. destruct f; cbn in H; heap_lia.
Qed.

Lemma grow_commit_wf st bs pages complete :
  heap_wf st bs -> 0 < pages -> heap_end (kernel_heap st) + pages * PAGE_SIZE <= HEAP_LIMIT ->
  exists st', grow_commit st (heap_end (kernel_heap st)) pages complete = Some (complete, st') /\
    heap_wf st' (grow bs (pages * PAGE_SIZE)).
Proof.
  intros Hwf Hp Hlim. pose proof (wf_span _ _ Hwf) as Hsp. pose proof (wf_blocks _ _ Hwf) as Hok.
  pose proof (span_nonneg _ Hok). destruct (wf_seg _ _ Hwf) as [lst Hs].
  pose proof (wf_walk _ _ Hwf) as Hwalk. pose proof (wf_nonempty _ _ Hwf) as Hne.
  pose proof (wf_coalesced _ _ Hwf) as Hc. unfold grow_commit.
  rewrite (decide_False (P := _ <> _)) by congruence. rewrite decide_False by lia. cbv zeta.
  rewrite (wf_first _ _ Hwf). destruct bs as [|[s f] bs _] using rev_ind; [done|].
  rewrite length_app in Hwalk. simpl in Hwalk.
  rewrite (find_last_spec _ _ _ _ _ _ _ _ _ _ Hs) by (done || lia).
  apply seg_mid in Hs as (q & p & nxt & H1 & Hl & El & -> & Epend).
  apply seg_span in H1 as Ep. rewrite <- Ep. cbn [mbind option_bind]. rewrite Hl.
  apply forall_mid in Hok as (Hok1 & [Hs Hm] & _). simpl in Hs, Hm.
  pose proof (span_nonneg bs Hok1). unfold PAGE_SIZE in *.
  assert (Ee : u64 (heap_end (kernel_heap st) + pages * 4096) =
    heap_end (kernel_heap st) + pages * 4096) by (apply u64_addr; heap_lia).
  rewrite Ee, grow_snoc. destruct f; fields.
  - rewrite (store_some _ _ _ _ Hl). fields. rewrite u64_id by heap_lia.
    eexists. split; [done|]. destruct Hwf.
    constructor; cbn [kernel_heap heap_end heap_start first mem]; [done..| | | |].
    + exists p. cbn [grow_last]. apply seg_mid. exists q, p, 0. split; [|split; [by look|]].
      * eapply seg_agree; [exact H1|done|]. intros. by look.
      * cbn. repeat split. lia.
    + by destruct bs.
    + cbn [grow_last]. apply forall_mid. repeat split; [done|..|constructor]; cbn; heap_lia.
    + cbn [grow_last]. apply coalesced_snoc; [by eapply coalesced_front|].
      intros bs0 s0 _ ->. by rewrite coalesced_before in Hc.
  - rewrite u64_id by heap_lia. rewrite (store_some _ p _ (Block s false 0 q)) by (by look).
    fields. eexists. split; [done|]. destruct Hwf.
    constructor; cbn [kernel_heap heap_end heap_start first mem]; [done..| | | |].
    + exists (heap_end (kernel_heap st)). cbn [grow_last]. apply seg_mid.
      exists q, p, (heap_end (kernel_heap st)). split; [|split; [by look|]].
      * eapply seg_agree; [exact H1|done|]. intros. by look.
      * cbn. split; [done|]. exists 0. rewrite <- Epend. split; [by look|].
        repeat split. lia.
    + by destruct bs.
    + cbn [grow_last]. apply forall_mid. repeat split; [done..|].
      repeat constructor; cbn; heap_lia.
    + cbn [grow_last]. rewrite coalesced_app, Hc. done.
Qed.

(** ** [kmalloc] *)

(** What a call that asks for [want] bytes does to the allocations. *)
Definition kmalloc_result (want : Z) (bs bs' : list block) (ptr : Z) : Prop :=
  (ptr = 0 /\ live HEAP_START bs' = live HEAP_START bs /\
     Forall (fun b => fits want b = false) bs) \/
  (ptr <> 0 /\ exists sz, want <= sz /\
     live HEAP_START bs' ≡ₚ (ptr, sz) :: live HEAP_START bs).

Lemma split_block_live pos s want :
  want <= s -> exists sz, want <= sz /\ live pos (split_block s want) = [(pos + HEADER, sz)].
Proof. intros H. unfold split_block. case_decide; eexists; (split; [|done]); lia. Qed.

Lemma live_split pos bs1 s want bs2 :
  want <= s -> exists sz, want <= sz /\
    live pos (bs1 ++ split_block s want ++ bs2) ≡ₚ
      (pos + span bs1 + HEADER, sz) :: live pos (bs1 ++ (s, true) :: bs2).
Proof.
  intros H. destruct (split_block_live (pos + span bs1) s want H) as (sz & Hsz & E).
  exists sz. split; [done|]. rewrite !live_app, E, split_block_span. cbn.
  replace (pos + span bs1 + (HEADER + s)) with (pos + span bs1 + HEADER + s) by lia.
  by rewrite Permutation_middle.
Qed.

Section Kmalloc.
Context {E : Type} `{PageProvider E}.

Lemma acquire_frames_length n frames env frames' env' :
  acquire_frames n frames env = (Some frames', env') -> length frames' = (length frames + n)%nat.
Proof.
  revert frames env. induction n as [|n IH]; intros frames env; cbn; [intros; simplify_eq; lia|].
  destruct (pmm_alloc_frame env) as [f e]. case_decide; [done|]. intros ->%IH.
  rewrite length_app. cbn. lia.
Qed.

Lemma map_frames_count frames va i env :
  let '(n, complete, _) := map_frames frames va i env in
  i <= n <= i + Z.of_nat (length frames) /\
  (complete = true -> n = i + Z.of_nat (length frames)).
Proof.
  revert i env. induction frames as [|f frames IH]; intros i env; cbn; [lia|].
  destruct (vmm_map env _ f) as [[] e]; cbn; [|lia].
  specialize (IH (i + 1) e). destruct (map_frames frames va (i + 1) e) as [[n c] e'].
  destruct IH as [? IH]. split; [lia|]. intros ->%IH. lia.
Qed.

Lemma heap_grow_reserved_wf frames st env bs :
  heap_wf st bs -> length frames = 4%nat ->
  exists ok n st' env' bs', heap_grow_reserved frames st env = Some (ok, n, st', env') /\
    heap_wf st' bs' /\ live HEAP_START bs' = live HEAP_START bs /\
    (ok = true -> free_tail bs' = free_tail bs + 16384).
Proof.
  intros Hwf Hf. unfold heap_grow_reserved, HEAP_INITIAL_PAGES. case_decide as Hl.
  { exists false, 0, st, env, bs. done. }
  pose proof (map_frames_count frames (heap_end (kernel_heap st)) 0 env) as Hm.
  destruct (map_frames _ _ _ _) as [[n complete] env']. rewrite Hf in Hm.
  destruct Hm as [Hn Hc]. destruct (decide (n = 0)) as [->|Hn0].
  - unfold grow_commit. rewrite (decide_False (P := _ <> _)) by congruence.
    rewrite decide_True by done. pose proof (wf_span _ _ Hwf) as Hsp.
    pose proof (span_nonneg _ (wf_blocks _ _ Hwf)).
    rewrite Z.mul_0_l, Z.add_0_r, u64_addr by (unfold PAGE_SIZE in *; heap_lia).
    eexists false, 0, _, env', bs. split; [done|]. split; [|done].
    destruct st as [[] ?]. exact Hwf.
  - destruct (grow_commit_wf st bs n complete) as (st' & Ec & Hwf');
      [done|lia|unfold PAGE_SIZE in *; heap_lia|]. rewrite Ec.
    eexists complete, n, st', env', _. split; [done|]. split; [exact Hwf'|].
    split; [apply grow_live|]. intros Hcc. apply Hc in Hcc.
    rewrite free_tail_grow by (by apply wf_nonempty in Hwf). subst n. done.
Qed.

Lemma kmalloc_loop_wf fuel want st env bs :
  heap_wf st bs -> 0 <= want -> want mod 16 = 0 -> (0 < fuel)%nat ->
  want + 16384 <= Z.of_nat fuel * 16384 + free_tail bs ->
  exists ptr st' env' bs', kmalloc_loop fuel want st env = Some (ptr, st', env') /\
    heap_wf st' bs' /\ kmalloc_result want bs bs' ptr.
Proof.
  intros Hwf Hw Hm. revert st env bs Hwf. induction fuel as [|fuel IH]; intros st env bs Hwf Hf Hb;
    [lia|]. cbn [kmalloc_loop].
  destruct (kmalloc_try_wf st bs want Hwf Hw Hm) as
    [[E1 F]|(bs1 & s & bs2 & st' & -> & Hs & E1 & Hwf' & _)]; rewrite E1;
    cbn [mbind option_bind].
  2: { pose proof (wf_blocks _ _ Hwf) as Hok. apply forall_mid in Hok as (Hok1 & _).
    apply span_nonneg in Hok1. rewrite decide_True by heap_lia.
    do 4 eexists. split; [done|]. split; [exact Hwf'|]. right. split; [heap_lia|].
    by apply live_split. }
  rewrite decide_False by lia. assert (Hfail : kmalloc_result want bs bs 0) by by left.
  destruct (mutex_lock_growth env) as [[] env1]; cbn [negb]; [|by eauto 10].
  destruct (acquire_frames _ [] env1) as [[frames|] env2] eqn:Ea; [|by eauto 10].
  apply acquire_frames_length in Ea. cbn in Ea.
  destruct (wf_seg _ _ Hwf) as [lst Hs].
  rewrite (wf_first _ _ Hwf).
  destruct (find_fit_spec (walk_bound (kernel_heap st)) _ _ _ _ _ _ _ want Hs) as
    [[Ef _]|(bs1 & s & bs2 & -> & Hws & _)];
    [done|by apply wf_blocks in Hwf|by apply wf_walk|..].
  2: { apply forall_mid in F as (_ & F & _). unfold fits in F. cbn in F. lia. }
  rewrite Ef. cbn [mbind option_bind]. rewrite decide_False by lia.
  destruct (heap_grow_reserved_wf frames st env2 bs Hwf Ea) as
    (ok & n & st' & env' & bs' & Eg & Hwf' & Hlive & Hft). rewrite Eg. cbn [mbind option_bind].
  apply (free_tail_fits bs want Hw) in F as Hlt. destruct ok; cbn [negb].
  - specialize (Hft eq_refl).
    destruct (IH st' env' bs' Hwf') as (ptr & st2 & env3 & bs2 & E2 & Hwf2 & R); [lia..|].
    exists ptr, st2, env3, bs2. split; [done|]. split; [done|].
    destruct R as [(-> & L & _)|(Hp & sz & Hsz & L)].
    + left. split; [done|]. by rewrite L.
    + right. split; [done|]. exists sz. by rewrite <- Hlive.
  - do 4 eexists. split; [done|]. split; [exact Hwf'|]. left. by rewrite Hlive.
Qed.

End Kmalloc.

(** The size actually allocated. *)
Lemma round_size_eq n : round_size n = u64 (n + 15) / 16 * 16.
Proof.
  unfold round_size. change (u64 (Z.lnot 15)) with (U64_MAX - 15).
  apply land_clear_low4. pose proof (u64_range (n + 15)). mach.
Qed.

Lemma round_size_ok n :
  0 <= round_size n /\ round_size n mod 16 = 0 /\ (0 <= n <= 2 ^ 64 - 16 -> n <= round_size n).
Proof. rewrite round_size_eq. mach. Qed.

Lemma span_aligned bs : Forall block_ok bs -> span bs mod 16 = 0.
Proof. induction 1 as [|[s f] bs [H Hm] _ IH]; cbn in *; [done|]. heap_lia. Qed.

Lemma live_payload st bs ptr sz :
  heap_wf st bs -> (ptr, sz) ∈ live HEAP_START bs ->
  HEAP_START + HEADER <= ptr /\ 0 <= sz /\ ptr + sz <= heap_end (kernel_heap st) /\
  ptr mod 16 = 0.
Proof.
  intros Hwf Hl. pose proof (wf_blocks _ _ Hwf) as Hok. pose proof (wf_span _ _ Hwf).
  pose proof (live_bounds _ _ _ _ Hok Hl). apply elem_of_live in Hl as (bs1 & bs2 & -> & ->).
  apply forall_mid in Hok as (Hok & _). apply span_aligned in Hok. heap_lia.
Qed.

(** The first round of [heap_init] or nothing. *)
Lemma heap_init_wf {E} `{PageProvider E} env st env' :
  heap_init env = (st, env') ->
  first (kernel_heap st) = 0 \/ heap_wf st [(16352, true)].
Proof.
  unfold heap_init. destruct (init_pages _ _ _) as [[] e]; cbn [negb]; intros; simplify_eq;
    [right|by left]. constructor; cbn [kernel_heap heap_start heap_end first mem]; try done.
  - exists HEAP_START. split; [done|]. exists 0.
    split; [apply lookup_singleton_eq|done].
  - by repeat constructor.
Qed.

Lemma live_header st bs ptr sz :
  heap_wf st bs -> (ptr, sz) ∈ live HEAP_START bs ->
  exists b, mem st !! (ptr - HEADER) = Some b /\ size b = sz.
Proof.
  intros Hwf (bs1 & bs2 & -> & ->)%elem_of_live. destruct (wf_seg _ _ Hwf) as [lst Hs].
  apply seg_mid in Hs as (q & p & nxt & H1 & Hp & _). apply seg_span in H1.
  replace (HEAP_START + span bs1 + HEADER - HEADER) with p by lia. by eexists.
Qed.

Lemma kmalloc_wf {E} `{PageProvider E} want st (env : E) bs :
  heap_wf st bs ->
  exists ptr st' env' bs', kmalloc want st env = Some (ptr, st', env') /\
    heap_wf st' bs' /\ kmalloc_result (round_size want) bs bs' ptr.
Proof.
  intros Hwf. destruct (round_size_ok want) as (Hr & Hm & _).
  apply kmalloc_loop_wf; [done|done|done|lia|].
  assert (- HEADER <= free_tail bs).
  { unfold free_tail. destruct (last bs) as [[s []]|] eqn:El; [|heap_lia..].
    apply last_Some_elem_of in El. pose proof (wf_blocks _ _ Hwf) as Hok.
    rewrite Forall_forall in Hok. apply Hok in El as [? _]. simpl in *. heap_lia. }
  unfold HEAP_INITIAL_PAGES, PAGE_SIZE, HEADER in *.
  pose proof (Z.div_mod (round_size want) 16384). pose proof (Z.mod_pos_bound (round_size want) 16384).
  assert (0 <= round_size want / 16384) by (apply Z.div_pos; lia).
  replace (4 * 4096) with 16384 by lia. lia.
Qed.

(** * Theorems *)

(** The states a client reaches from an initialised heap, with the
    allocations it holds: each [kmalloc] answer is added with the size of its
    block, and only held pointers are freed. *)
Inductive reachable {E : Type} `{PageProvider E} : state -> list (Z * Z) -> Prop :=
  | reach_init env st env' :
      heap_init env = (st, env') -> first (kernel_heap st) <> 0 -> reachable st []
  | reach_kmalloc st held want env ptr st' env' b :
      reachable st held -> kmalloc want st env = Some (ptr, st', env') -> ptr <> 0 ->
      mem st' !! (ptr - HEADER) = Some b ->
      reachable st' ((ptr, size b) :: held)
  | reach_kmalloc_null st held want env st' env' :
      reachable st held -> kmalloc want st env = Some (0, st', env') ->
      reachable st' held
  | reach_kfree st held1 ptr sz held2 st' :
      reachable st (held1 ++ (ptr, sz) :: held2) -> kfree ptr st = Some st' ->
      reachable st' (held1 ++ held2).

(** C21: in every state reached by any sequence of [kmalloc] and [kfree] calls,
    whatever the page allocator answers, the linked block list is intact, covers
    the heap exactly, has no two neighbouring free blocks and holds exactly the
    allocations the clients hold; these are pairwise separated by a header,
    16-byte aligned and inside the heap. *)
Theorem heap_reachable_invariant {E : Type} `{PageProvider E} (st : state)
    (held : list (Z * Z)) :
  reachable st held ->
  exists bs, heap_wf st bs /\ live HEAP_START bs ≡ₚ held /\
    StronglySorted apart (live HEAP_START bs) /\ heap_verify st = Some true /\
    Forall (fun '(ptr, sz) => ptr mod 16 = 0 /\ HEAP_START + HEADER <= ptr /\
      ptr + sz <= heap_end (kernel_heap st) <= HEAP_LIMIT) held.
Proof.
  assert (Hfin : forall st held, (exists bs, heap_wf st bs /\ live HEAP_START bs ≡ₚ held) ->
    exists bs, heap_wf st bs /\ live HEAP_START bs ≡ₚ held /\
      StronglySorted apart (live HEAP_START bs) /\ heap_verify st = Some true /\
      Forall (fun '(ptr, sz) => ptr mod 16 = 0 /\ HEAP_START + HEADER <= ptr /\
        ptr + sz <= heap_end (kernel_heap st) <= HEAP_LIMIT) held).
  { intros st0 held0 (bs & Hwf & Hl). exists bs. split; [done|]. split; [done|].
    split; [apply live_sorted; by apply wf_blocks in Hwf|]. split; [by eapply heap_verify_wf|].
    rewrite <- Hl. apply Forall_forall. intros [ptr sz] (? & ? & ? & ?)%(live_payload _ _ _ _ Hwf).
    pose proof (wf_limit _ _ Hwf). done. }
  intros Hr. apply Hfin. clear Hfin.
  induction Hr as [env st env' Hi Hf|st held want env ptr st' env' b _ (bs & Hwf & Hl) Hk Hp Hb
    |st held want env st' env' _ (bs & Hwf & Hl) Hk|st h1 ptr sz h2 st' _ (bs & Hwf & Hl) Hk].
  - destruct (heap_init_wf _ _ _ Hi); [done|]. by exists [(16352, true)].
  - destruct (kmalloc_wf want st env bs Hwf) as (p & s2 & e2 & bs' & Ek & Hwf' & R).
    rewrite Hk in Ek. simplify_eq. exists bs'. split; [done|].
    destruct R as [[? _]|(_ & sz & _ & L)]; [done|]. rewrite L, Hl.
    destruct (live_header s2 bs' p sz Hwf') as (b' & Hb' & <-); [rewrite L; left|].
    rewrite Hb in Hb'. by simplify_eq.
  - destruct (kmalloc_wf want st env bs Hwf) as (p & s2 & e2 & bs' & Ek & Hwf' & R).
    rewrite Hk in Ek. simplify_eq. exists bs'. split; [done|].
    destruct R as [(_ & -> & _)|[? _]]; done.
  - assert (Hin : (ptr, sz) ∈ live HEAP_START bs).
    { rewrite Hl. apply elem_of_app. right. left. }
    apply elem_of_live in Hin as (bs1 & bs2 & -> & ->).
    destruct (kfree_wf st bs1 sz bs2 Hwf) as (s2 & E2 & Hwf2). rewrite Hk in E2. simplify_eq.
    exists (release bs1 sz bs2). split; [done|]. rewrite release_live in Hl.
    rewrite <- Permutation_middle in Hl. by apply Permutation_cons_inv in Hl.
Qed.

(** C22: [kmalloc] always returns (it neither faults nor loops, whatever the
    page allocator answers).  It answers null only if no free block could hold
    the request; otherwise it adds one allocation of at least the requested size
    (for requests up to [2^64 - 16]) and leaves every other allocation in place. *)
Theorem kmalloc_correct {E : Type} `{PageProvider E} (st : state) (bs : list (Z * bool))
    (env : E) (want : Z) :
  heap_wf st bs -> is_u64 want ->
  exists ptr st' env' bs', kmalloc want st env = Some (ptr, st', env') /\ heap_wf st' bs' /\
    ((ptr = 0 /\ live HEAP_START bs' = live HEAP_START bs /\
        Forall (fun b => fits (round_size want) b = false) bs) \/
     (ptr <> 0 /\ exists sz, live HEAP_START bs' ≡ₚ (ptr, sz) :: live HEAP_START bs /\
        (want <= 2 ^ 64 - 16 -> want <= sz))).
Proof.
  intros Hwf Hw. destruct (kmalloc_wf want st env bs Hwf) as
    (ptr & st' & env' & bs' & Ek & Hwf' & [R|(Hp & sz & Hsz & L)]).
  - exists ptr, st', env', bs'. auto.
  - exists ptr, st', env', bs'. split; [done|]. split; [done|]. right. split; [done|].
    exists sz. split; [done|]. intros Hle. destruct (round_size_ok want) as (_ & _ & Hr).
    unfold is_u64 in Hw. lia.
Qed.

(** [kfree] of any live allocation succeeds, removes exactly that
    allocation, keeps every other one in place, and leaves no two neighbouring
    free blocks; [kfree] of a null pointer does nothing. *)
Theorem kfree_correct (st : state) (bs : list (Z * bool)) (ptr sz : Z) :
  heap_wf st bs -> (ptr, sz) ∈ live HEAP_START bs ->
  kfree 0 st = Some st /\
  exists st' bs', kfree ptr st = Some st' /\ heap_wf st' bs' /\
    live HEAP_START bs ≡ₚ (ptr, sz) :: live HEAP_START bs' /\ coalesced bs' = true.
Proof.
  intros Hwf Hl. split; [done|]. apply elem_of_live in Hl as (bs1 & bs2 & -> & ->).
  destruct (kfree_wf st bs1 sz bs2 Hwf) as (st' & Ek & Hwf').
  exists st', (release bs1 sz bs2). split; [done|]. split; [done|].
  split; [apply release_live|]. by apply wf_coalesced in Hwf'.
Qed.

(** Freeing what was just allocated restores the heap block for block:
    allocation followed by [kfree] does not fragment the heap. *)
Theorem kmalloc_kfree_restores (st : state) (bs : list (Z * bool)) (want ptr : Z)
    (st1 : state) :
  heap_wf st bs -> 0 <= want -> want mod 16 = 0 ->
  kmalloc_try st want = Some (ptr, st1) -> ptr <> 0 ->
  exists st2, kfree ptr st1 = Some st2 /\ heap_wf st2 bs.
Proof.
  intros Hwf Hw Hm Hk Hp.
  destruct (kmalloc_try_wf st bs want Hwf Hw Hm) as
    [[E1 _]|(bs1 & s & bs2 & st' & -> & Hs & E1 & Hwf' & _)]; rewrite Hk in E1; simplify_eq.
  pose proof (wf_coalesced _ _ Hwf) as Hc.
  assert (Hsplit : exists s1 bs3, split_block s want ++ bs2 = (s1, false) :: bs3 /\
    join_next s1 bs3 = (s, true) :: bs2).
  { unfold split_block. case_decide.
    - do 2 eexists. split; [done|]. cbn. do 2 f_equal. lia.
    - exists s, bs2. split; [done|]. destruct bs2 as [|[s2 []] bs2]; [done| |done].
      rewrite coalesced_app in Hc. cbn in Hc. by rewrite andb_false_r in Hc. }
  destruct Hsplit as (s1 & bs3 & E & J). rewrite E in Hwf'.
  destruct (kfree_wf _ _ _ _ Hwf') as (st2 & Ek & Hwf2). exists st2. split; [done|].
  unfold release in Hwf2. rewrite J in Hwf2.
  destruct (join_prev_cases bs1 s bs2) as [(bs0 & s0 & -> & _)|[-> _]] in Hwf2; [|done].
  by rewrite coalesced_before in Hc.
Qed.

(** The accounting functions return, without overflow, sizes that add up:
    used plus free is the total, and the total plus one header per block is the
    extent of the heap; the used size is the sum of the live allocations. *)
Theorem heap_accounting (st : state) (bs : list (Z * bool)) :
  heap_wf st bs ->
  exists total used avail, heap_get_total_size st = Some total /\
    heap_get_used_size st = Some used /\ heap_get_free_size st = Some avail /\
    total = used + avail /\ used = foldr (fun '(_, sz) acc => sz + acc) 0 (live HEAP_START bs) /\
    total + HEADER * Z.of_nat (length bs) =
      heap_end (kernel_heap st) - heap_start (kernel_heap st).
Proof.
  intros Hwf. destruct (wf_seg_start _ _ Hwf) as [lst Hs]. pose proof (wf_span _ _ Hwf) as Hsp.
  pose proof (wf_blocks _ _ Hwf) as Hok. pose proof (wf_limit _ _ Hwf) as Hlim.
  assert (Hsum : forall sel, heap_sum sel st = Some (select_sum sel bs)).
  { intros sel. unfold heap_sum. rewrite (sum_sizes_spec _ _ _ _ _ _ _ _ _ _ Hs); try done.
    - by rewrite (wf_start _ _ Hwf).
    - by apply wf_walk.
    - heap_lia. }
  unfold heap_get_total_size, heap_get_used_size, heap_get_free_size. rewrite !Hsum.
  do 3 eexists. split; [done|]. split; [done|]. split; [done|].
  rewrite (wf_start _ _ Hwf), Hsp. clear. split; [|split].
  - induction bs as [|[s []] bs IH]; cbn; lia.
  - generalize HEAP_START. induction bs as [|[s []] bs IH]; intros pos; cbn; [done|by rewrite <- IH|].
    by rewrite <- IH.
  - generalize HEAP_START. induction bs as [|[s f] bs IH]; intros pos; cbn; [lia|].
    specialize (IH pos). unfold HEADER in *. lia.
Qed.

(** * Concrete instances *)

(** A page supply that never fails; the state is the next frame number. *)
Definition counting_pages : PageProvider Z := {|
  pmm_alloc_frame n := (n * PAGE_SIZE, n + 1);
  pmm_free_frame n _ := n;
  vmm_map n _ _ := (true, n);
  mutex_lock_growth n := (true, n);
|}.

Definition st0 : state := (@heap_init Z counting_pages 1).1.
Definition st1 : state :=
  match @kmalloc Z counting_pages 100 st0 5 with Some (_, st, _) => st | None => st0 end.

Lemma st0_wf : heap_wf st0 [(16352, true)].
Proof.
  destruct (@heap_init_wf Z counting_pages 1 st0 5) as [H|H]; [reflexivity|discriminate H|exact H].
Qed.
Lemma st1_reachable : @reachable Z counting_pages st1 [(HEAP_START + 32, 112)].
Proof.
  apply (@reach_kmalloc Z counting_pages st0 [] 100 5 (HEAP_START + 32) st1 5
    (Block 112 false (HEAP_START + 144) 0)); [|by vm_compute..].
  by apply (@reach_init Z counting_pages 1 st0 5).
Qed.

Lemma heap_reachable_invariant_witness :
  exists bs, heap_wf st1 bs /\ live HEAP_START bs ≡ₚ [(HEAP_START + 32, 112)].
Proof.
  destruct (@heap_reachable_invariant Z counting_pages st1 [(HEAP_START + 32, 112)]
    st1_reachable) as (bs & H1 & H2 & _).
  exists bs. exact (conj H1 H2).
Defined.

Lemma kmalloc_correct_witness :
  exists ptr st' env' bs', @kmalloc Z counting_pages 40000 st0 5 = Some (ptr, st', env') /\
    heap_wf st' bs' /\
    ((ptr = 0 /\ live HEAP_START bs' = live HEAP_START [(16352, true)] /\
        Forall (fun b => fits (round_size 40000) b = false) [(16352, true)]) \/
     (ptr <> 0 /\ exists sz,
        live HEAP_START bs' ≡ₚ (ptr, sz) :: live HEAP_START [(16352, true)] /\
        (40000 <= 2 ^ 64 - 16 -> 40000 <= sz))).
Proof.
  apply (@kmalloc_correct Z counting_pages st0 [(16352, true)] 5 40000 st0_wf).
  unfold is_u64. lia.
Defined.

Definition kmalloc_used (want : Z) : option (Z * option Z) :=
  match @kmalloc Z counting_pages want st0 5 with
  | Some (ptr, st, _) => Some (ptr, heap_get_used_size st)
  | None => None
  end.

Lemma kmalloc_grows : kmalloc_used 40000 = Some (HEAP_START + 32, Some 40000).
Proof. vm_compute. reflexivity. Qed.

(** A request within 15 bytes of [2^64] wraps to size 0 and is granted. *)
Lemma kmalloc_wraps : kmalloc_used (2 ^ 64 - 1) = Some (HEAP_START + 32, Some 0).
Proof. vm_compute. reflexivity. Qed.

Definition st_two : state :=
  match kmalloc_try st0 112 with Some (_, st) => st | None => st0 end.
Lemma st_two_wf : heap_wf st_two [(112, false); (16208, true)].
Proof.
  destruct (kmalloc_try_wf st0 [(16352, true)] 112 st0_wf) as
    [[E _]|(bs1 & s & bs2 & st' & E & Hs & Ek & Hwf & _)]; [lia|done|exfalso; vm_compute in E; discriminate E|].
  assert (st' = st_two) as <- by (unfold st_two; by rewrite Ek).
  clear Ek. destruct bs1 as [|b bs1]; [|by destruct bs1].
  injection E as <- <-. exact Hwf.
Qed.

Lemma kfree_correct_witness :
  kfree 0 st_two = Some st_two /\
  exists st' bs', kfree (HEAP_START + 32) st_two = Some st' /\ heap_wf st' bs' /\
    live HEAP_START [(112, false); (16208, true)] ≡ₚ
      (HEAP_START + 32, 112) :: live HEAP_START bs' /\ coalesced bs' = true.
Proof.
  apply (kfree_correct st_two [(112, false); (16208, true)] (HEAP_START + 32) 112 st_two_wf).
  left.
Defined.

Lemma kmalloc_kfree_restores_witness :
  exists st2, kfree (HEAP_START + 32) st_two = Some st2 /\ heap_wf st2 [(16352, true)].
Proof.
  apply (kmalloc_kfree_restores st0 [(16352, true)] 112 (HEAP_START + 32) st_two st0_wf);
    [lia|reflexivity|vm_compute; reflexivity|discriminate].
Defined.

Lemma heap_accounting_witness :
  exists total used avail, heap_get_total_size st_two = Some total /\
    heap_get_used_size st_two = Some used /\ heap_get_free_size st_two = Some avail /\
    total = used + avail /\ used = 112 + 0 /\
    total + HEADER * 2 = heap_end (kernel_heap st_two) - heap_start (kernel_heap st_two).
Proof. apply (heap_accounting st_two [(112, false); (16208, true)] st_two_wf). Defined.

End Heap.
