(* ===== verification/Pmm.v ===== *)
(** The physical memory manager ([kernel/src/pmm.c]) and the address
    conversions it uses ([kernel/src/address_space.c]).

    The frame bitmap is the list of its bytes; an access outside it is a fault
    ([None]).  Physical RAM contents are kept per 8-byte word, because
    [pmm_alloc_frame] promises a zeroed frame. *)
From stdpp Require Import gmap.
From S2P Require Import Prelude Heap.

Module Pmm.

Definition PAGE_SIZE : Z := 4096.
Definition PHYS_MAP_BASE : Z := 0xffff800000000000.
Definition PHYS_MAP_LIMIT : Z := 0x0000400000000000.

(** * Address conversions ([address_space.c]) *)

Definition phys_map_contains (phys : Z) : bool := phys <? PHYS_MAP_LIMIT.

Definition phys_to_virt (direct_map_ready : bool) (phys : Z) : Z :=
  if negb (phys_map_contains phys) then 0
  else if negb direct_map_ready then phys
  else u64 (PHYS_MAP_BASE + phys).

Definition virt_to_phys (direct_map_ready : bool) (address : Z) : Z :=
  if (PHYS_MAP_BASE <=? address) && (u64 (address - PHYS_MAP_BASE) <? PHYS_MAP_LIMIT)
  then u64 (address - PHYS_MAP_BASE)
  else if negb direct_map_ready && (address <? PHYS_MAP_LIMIT) then address
  else 0.

(** * State *)

(** The static variables of [pmm.c], the flag of [address_space.c] and RAM. *)
Record pmm := Pmm {
  bitmap_ptr : Z;
  bitmap : list Z;
  bitmap_phys : Z;
  bitmap_size : Z;
  total_frames : Z;
  free_frames : Z;
  used_ram_frames : Z;
  boot_services_frames : Z;
  trampoline : Z;
  direct_map_ready : bool;
  ram : gmap Z Z;
}.

Definition set_frames (st : pmm) (bm : list Z) (fr us : Z) : pmm :=
  Pmm (bitmap_ptr st) bm (bitmap_phys st) (bitmap_size st) (total_frames st) fr us
    (boot_services_frames st) (trampoline st) (direct_map_ready st) (ram st).
Definition set_ram (st : pmm) (r : gmap Z Z) : pmm :=
  Pmm (bitmap_ptr st) (bitmap st) (bitmap_phys st) (bitmap_size st) (total_frames st)
    (free_frames st) (used_ram_frames st) (boot_services_frames st) (trampoline st)
    (direct_map_ready st) r.

(** * The bitmap *)

Definition bitmap_set (bm : list Z) (frame : Z) : option (list Z) :=
  b ← bm !! Z.to_nat (frame / 8);
  Some (<[Z.to_nat (frame / 8) := u8 (Z.lor b (Z.shiftl 1 (frame mod 8)))]> bm).
Definition bitmap_clear (bm : list Z) (frame : Z) : option (list Z) :=
  b ← bm !! Z.to_nat (frame / 8);
  Some (<[Z.to_nat (frame / 8) := u8 (Z.land b (Z.lnot (Z.shiftl 1 (frame mod 8))))]> bm).
Definition bitmap_test (bm : list Z) (frame : Z) : option bool :=
  b ← bm !! Z.to_nat (frame / 8);
  Some (negb (Z.land b (Z.shiftl 1 (frame mod 8)) =? 0)).

(** [bitmap_set; free_frames--; used_ram_frames++]. *)
Definition take_frame (st : pmm) (frame : Z) : option pmm :=
  bm ← bitmap_set (bitmap st) frame;
  Some (set_frames st bm (u64 (free_frames st - 1)) (u64 (used_ram_frames st + 1))).

(** The reservation idiom [if (!bitmap_test(f)) { ... }]. *)
Definition reserve_frame (st : pmm) (frame : Z) : option pmm :=
  used ← bitmap_test (bitmap st) frame;
  if used : bool then Some st else take_frame st frame.

(** [count] consecutive frames. *)
Fixpoint reserve_frames (st : pmm) (frame : Z) (count : nat) : option pmm :=
  match count with
  | O => Some st
  | S count => st ← reserve_frame st frame; reserve_frames st (frame + 1) count
  end.
(** The same with the bound [f < total_frames] checked before each. *)
Fixpoint reserve_frames_below (st : pmm) (frame : Z) (count : nat) : option pmm :=
  match count with
  | O => Some st
  | S count =>
      st ← (if frame <? total_frames st then reserve_frame st frame else Some st);
      reserve_frames_below st (frame + 1) count
  end.

(** * Initialisation *)

Record descriptor := Descriptor {
  Type_ : Z;
  PhysicalStart : Z;
  NumberOfPages : Z;
}.

Record boot_info := BootInfo {
  address : Z;
  MemoryMap : Z;
  MemoryMapSize : Z;
  descriptors : list descriptor;
}.

Definition pmm_is_usable_memory (type : Z) : bool :=
  (type =? 7) || (type =? 3) || (type =? 4).

(** One iteration of the trampoline search. *)
Definition trampoline_step (best : Z) (d : descriptor) : Z :=
  if negb (pmm_is_usable_memory (Type_ d)) || (U64_MAX / PAGE_SIZE <? NumberOfPages d) then best
  else
    let bytes := NumberOfPages d * PAGE_SIZE in
    if U64_MAX - bytes <? PhysicalStart d then best
    else
      let end_ := PhysicalStart d + bytes in
      let candidate_end := if end_ <? 0xA0000 then end_ else 0xA0000 in
      if (candidate_end <=? PhysicalStart d) || (candidate_end <? PAGE_SIZE) then best
      else
        let candidate := Z.land (candidate_end - 1) (u64 (Z.lnot (PAGE_SIZE - 1))) in
        if (candidate <? PhysicalStart d) || (candidate <? PAGE_SIZE) then best
        else if best <? candidate then candidate else best.

Definition top_of (d : descriptor) : Z :=
  u64 (PhysicalStart d + u64 (NumberOfPages d * PAGE_SIZE)).
Definition highest_address (ds : list descriptor) : Z :=
  foldl (fun top d => if top <? top_of d then top_of d else top) 0 ds.

(** The first usable region large enough for the bitmap. *)
Fixpoint bitmap_home (ds : list descriptor) (size : Z) : option Z :=
  match ds with
  | [] => None
  | d :: ds =>
      if pmm_is_usable_memory (Type_ d) && (size <=? u64 (NumberOfPages d * PAGE_SIZE))
      then Some (PhysicalStart d) else bitmap_home ds size
  end.

(** [bitmap_clear(start_frame + f); free_frames++] for each frame of a region. *)
Fixpoint release_region (st : pmm) (frame : Z) (count : nat) : option pmm :=
  match count with
  | O => Some st
  | S count =>
      bm ← bitmap_clear (bitmap st) frame;
      release_region (set_frames st bm (u64 (free_frames st + 1)) (used_ram_frames st))
        (frame + 1) count
  end.

(** One iteration of the region loop; its [else if] repeats types that the
    first test already accepts, so [boot_services_frames] is never increased. *)
Definition release_one (st : pmm) (d : descriptor) : option pmm :=
  if pmm_is_usable_memory (Type_ d)
  then release_region st (PhysicalStart d / PAGE_SIZE) (Z.to_nat (NumberOfPages d))
  else if (Type_ d =? 3) || (Type_ d =? 4)
  then Some (Pmm (bitmap_ptr st) (bitmap st) (bitmap_phys st) (bitmap_size st)
              (total_frames st) (free_frames st)
              (u64 (used_ram_frames st + NumberOfPages d))
              (u64 (boot_services_frames st + NumberOfPages d))
              (trampoline st) (direct_map_ready st) (ram st))
  else Some st.
Fixpoint release_regions (st : pmm) (ds : list descriptor) : option pmm :=
  match ds with
  | [] => Some st
  | d :: ds => st ← release_one st d; release_regions st ds
  end.

Definition pmm_init (ready : bool) (r : gmap Z Z) (info : boot_info) : option pmm :=
  let ds := descriptors info in
  let candidate := foldl trampoline_step 0 ds in
  let total := highest_address ds / PAGE_SIZE in
  let size := total / 8 in
  home ← bitmap_home ds size;
  let ptr := if ready then phys_to_virt ready home else home in
  let st := Pmm ptr (replicate (Z.to_nat size) 0xFF) home size total 0 0 0 candidate ready r in
  st ← release_regions st ds;
  let bitmap_frames := u64 (size + PAGE_SIZE - 1) / PAGE_SIZE in
  st ← reserve_frames st (home / PAGE_SIZE) (Z.to_nat bitmap_frames);
  st ← reserve_frames_below st 0 1024;
  let bootinfo_frame := address info / PAGE_SIZE in
  st ← (if bootinfo_frame <? total_frames st then reserve_frame st bootinfo_frame else Some st);
  let mmap_frame_start := MemoryMap info / PAGE_SIZE in
  let mmap_frame_end := u64 (MemoryMap info + MemoryMapSize info + PAGE_SIZE - 1) / PAGE_SIZE in
  reserve_frames_below st mmap_frame_start (Z.to_nat (mmap_frame_end - mmap_frame_start)).

Definition pmm_enable_direct_map (st : pmm) : pmm :=
  if bitmap_phys st =? 0 then st
  else Pmm (phys_to_virt (direct_map_ready st) (bitmap_phys st)) (bitmap st) (bitmap_phys st)
         (bitmap_size st) (total_frames st) (free_frames st) (used_ram_frames st)
         (boot_services_frames st) (trampoline st) (direct_map_ready st) (ram st).

(** * Operations *)

(** [for (j = 0; j < 512; j++) ptr[j] = 0]; a null pointer faults. *)
Fixpoint zero_words (st : pmm) (ptr : Z) (count : nat) : pmm :=
  match count with
  | O => st
  | S count =>
      zero_words (set_ram st (<[virt_to_phys (direct_map_ready st) ptr := 0]> (ram st)))
        (ptr + 8) count
  end.

(** The first-free search of [pmm_alloc_frame] over [i .. total_frames). *)
Fixpoint alloc_from (st : pmm) (i : Z) (count : nat) : option (Z * pmm) :=
  match count with
  | O => Some (0, st)
  | S count =>
      used ← bitmap_test (bitmap st) i;
      if used : bool then alloc_from st (i + 1) count
      else
        st ← take_frame st i;
        let frame_addr := u64 (i * PAGE_SIZE) in
        let ptr := phys_to_virt (direct_map_ready st) frame_addr in
        if ptr =? 0 then None else Some (frame_addr, zero_words st ptr 512)
  end.
Definition pmm_alloc_frame (st : pmm) : option (Z * pmm) :=
  alloc_from st 0 (Z.to_nat (total_frames st)).

Definition pmm_free_frame (st : pmm) (frame : Z) : option pmm :=
  let frame_idx := frame / PAGE_SIZE in
  used ← bitmap_test (bitmap st) frame_idx;
  if used : bool then
    bm ← bitmap_clear (bitmap st) frame_idx;
    Some (set_frames st bm (u64 (free_frames st + 1)) (u64 (used_ram_frames st - 1)))
  else Some st.

Definition pmm_get_free_memory (st : pmm) : Z := u64 (free_frames st * PAGE_SIZE).
Definition pmm_get_used_memory (st : pmm) : Z := u64 (used_ram_frames st * PAGE_SIZE).
Definition pmm_get_total_memory (st : pmm) : Z :=
  u64 (u64 (free_frames st + used_ram_frames st) * PAGE_SIZE).
Definition pmm_get_total_frames (st : pmm) : Z := total_frames st.
Definition pmm_get_boot_services_memory (st : pmm) : Z := u64 (boot_services_frames st * PAGE_SIZE).
Definition pmm_smp_trampoline_candidate (st : pmm) : Z := trampoline st.

Definition pmm_reserve_range (st : pmm) (start page_count : Z) : option (bool * pmm) :=
  if (page_count =? 0) || negb (Z.land start (PAGE_SIZE - 1) =? 0) ||
     (U64_MAX / PAGE_SIZE <? page_count) || (U64_MAX - page_count * PAGE_SIZE <? start)
  then Some (false, st)
  else
    let first := start / PAGE_SIZE in
    let end_ := first + page_count in
    if (bitmap_ptr st =? 0) || (total_frames st <? end_) || (bitmap_size st * 8 <? end_)
    then Some (false, st)
    else st ← reserve_frames st first (Z.to_nat page_count); Some (true, st).

(** * The frames as a set *)

(** Whether the bitmap marks a frame as taken. *)
Definition used (bm : list Z) (i : Z) : bool :=
  match bm !! Z.to_nat (i / 8) with Some b => Z.testbit b (i mod 8) | None => true end.

Definition in_map (bm : list Z) (i : Z) : Prop := 0 <= i < 8 * Z.of_nat (length bm).

Lemma shiftl_one_testbit k j : 0 <= k -> 0 <= j -> Z.testbit (Z.shiftl 1 k) j = (j =? k).
Proof.
  intros Hk Hj. rewrite Z.shiftl_1_l. destruct (decide (j = k)) as [->|].
  - by rewrite Z.pow2_bits_true, Z.eqb_refl.
  - rewrite Z.pow2_bits_false by done. symmetry. by apply Z.eqb_neq.
Qed.

Lemma mask_test b k : 0 <= k -> negb (Z.land b (Z.shiftl 1 k) =? 0) = Z.testbit b k.
Proof.
  intros Hk. destruct (Z.testbit b k) eqn:Hb.
  - apply negb_true_iff, Z.eqb_neq. intros H. apply (f_equal (fun x => Z.testbit x k)) in H.
    by rewrite Z.land_spec, shiftl_one_testbit, Z.bits_0, Z.eqb_refl, Hb in H by lia.
  - apply negb_false_iff, Z.eqb_eq. apply Z.bits_inj'. intros j Hj.
    rewrite Z.land_spec, shiftl_one_testbit, Z.bits_0 by lia.
    destruct (Z.eqb_spec j k) as [->|]; [by rewrite Hb|apply andb_false_r].
Qed.

Lemma u8_testbit b k : 0 <= k < 8 -> Z.testbit (u8 b) k = Z.testbit b k.
Proof. intros H. unfold u8. change 256 with (2 ^ 8). apply Z.mod_pow2_bits_low. lia. Qed.

Lemma in_map_lookup bm i : in_map bm i -> is_Some (bm !! Z.to_nat (i / 8)).
Proof. intros H. apply lookup_lt_is_Some. unfold in_map in H. mach. Qed.

Lemma bitmap_test_used bm i : in_map bm i -> bitmap_test bm i = Some (used bm i).
Proof.
  intros H. unfold bitmap_test, used. destruct (in_map_lookup _ _ H) as [b ->]. cbn.
  rewrite mask_test; [done|mach].
Qed.

(** A write of one bit changes the set at one frame. *)
Lemma used_insert bm i b' j :
  in_map bm i -> 0 <= j ->
  used (<[Z.to_nat (i / 8) := b']> bm) j =
    if decide (j / 8 = i / 8) then Z.testbit b' (j mod 8) else used bm j.
Proof.
  intros Hi Hj. unfold used, in_map in *. case_decide as E.
  - rewrite E, list_lookup_insert_eq by mach. done.
  - rewrite list_lookup_insert_ne; [done|]. mach.
Qed.

Lemma same_bit i j : j / 8 = i / 8 -> (j mod 8 =? i mod 8) = (j =? i).
Proof. intros E. apply Bool.eq_iff_eq_true. rewrite !Z.eqb_eq. mach. Qed.

Lemma bitmap_set_used bm i :
  in_map bm i -> exists bm', bitmap_set bm i = Some bm' /\ length bm' = length bm /\
    forall j, 0 <= j -> used bm' j = (j =? i) || used bm j.
Proof.
  intros Hi. unfold bitmap_set. destruct (in_map_lookup _ _ Hi) as [b Hb]. rewrite Hb. cbn.
  eexists. split; [done|]. split; [apply length_insert|]. intros j Hj.
  rewrite used_insert by done. case_decide as E.
  - rewrite u8_testbit, Z.lor_spec, shiftl_one_testbit, same_bit by mach.
    unfold used. rewrite E, Hb. apply orb_comm.
  - replace (j =? i) with false; [done|]. symmetry. apply Z.eqb_neq. congruence.
Qed.

Lemma bitmap_clear_used bm i :
  in_map bm i -> exists bm', bitmap_clear bm i = Some bm' /\ length bm' = length bm /\
    forall j, 0 <= j -> used bm' j = negb (j =? i) && used bm j.
Proof.
  intros Hi. unfold bitmap_clear. destruct (in_map_lookup _ _ Hi) as [b Hb]. rewrite Hb. cbn.
  eexists. split; [done|]. split; [apply length_insert|]. intros j Hj.
  rewrite used_insert by done. case_decide as E.
  - rewrite u8_testbit, Z.land_spec, Z.lnot_spec, shiftl_one_testbit, same_bit by mach.
    unfold used. rewrite E, Hb. apply andb_comm.
  - replace (j =? i) with false; [done|]. symmetry. apply Z.eqb_neq. congruence.
Qed.

(** ** Counting *)

Fixpoint cnt (p : Z -> bool) (n : nat) : Z :=
  match n with O => 0 | S n => (if p (Z.of_nat n) then 1 else 0) + cnt p n end.

Lemma cnt_bounds p n : 0 <= cnt p n <= Z.of_nat n.
Proof. induction n as [|n IH]; cbn [cnt]; [lia|]. destruct (p _); lia. Qed.
Lemma cnt_ext p q n : (forall i, 0 <= i < Z.of_nat n -> p i = q i) -> cnt p n = cnt q n.
Proof.
  induction n as [|n IH]; intros H; cbn [cnt]; [done|]. rewrite H by lia.
  rewrite IH; [done|]. intros. apply H. lia.
Qed.
Lemma cnt_flip p q n i :
  0 <= i < Z.of_nat n -> p i = false -> q i = true ->
  (forall j, 0 <= j < Z.of_nat n -> j <> i -> q j = p j) -> cnt q n = cnt p n + 1.
Proof.
  induction n as [|n IH]; intros Hi Hp Hq H; [lia|]. cbn [cnt].
  destruct (decide (i = Z.of_nat n)) as [->|].
  - rewrite Hp, Hq, (cnt_ext q p); [lia|]. intros. apply H; lia.
  - rewrite H by lia. rewrite IH; [lia|lia|done|done|]. intros. apply H; lia.
Qed.

(** * Invariant *)

(** The frames of [st] as a set predicate. *)
Definition taken (st : pmm) (i : Z) : bool := used (bitmap st) i.
Definition nframes (st : pmm) : nat := Z.to_nat (total_frames st).

(** The bitmap covers every frame, and all of RAM is in the direct map. *)
Record covered (st : pmm) : Prop := {
  cov_length : total_frames st = 8 * Z.of_nat (length (bitmap st));
  cov_size : bitmap_size st = Z.of_nat (length (bitmap st));
  cov_limit : total_frames st * PAGE_SIZE <= PHYS_MAP_LIMIT;
}.

(** [usable] says which frames are RAM the manager may hand out: the counters
    count the free frames and the used ones among them. *)
Record pmm_ok (usable : Z -> bool) (st : pmm) : Prop := {
  ok_covered : covered st;
  ok_usable : forall i, 0 <= i < total_frames st -> taken st i = false -> usable i = true;
  ok_free : free_frames st = cnt (fun i => negb (taken st i)) (nframes st);
  ok_used : used_ram_frames st = cnt (fun i => usable i && taken st i) (nframes st);
}.

Ltac pmm_lia := unfold PAGE_SIZE, PHYS_MAP_LIMIT, PHYS_MAP_BASE, nframes in *; mach.

Lemma covered_in_map st i : covered st -> 0 <= i < total_frames st -> in_map (bitmap st) i.
Proof. intros [H _ _] Hi. unfold in_map. lia. Qed.

Lemma nframes_total st : covered st -> Z.of_nat (nframes st) = total_frames st.
Proof. intros [H _ _]. unfold nframes. lia. Qed.

(** What an operation keeps besides bitmap, counters and RAM. *)
Definition same_frame (st st' : pmm) : Prop :=
  total_frames st' = total_frames st /\ bitmap_size st' = bitmap_size st /\
  length (bitmap st') = length (bitmap st) /\ direct_map_ready st' = direct_map_ready st /\
  bitmap_ptr st' = bitmap_ptr st.

Lemma same_frame_trans a b c : same_frame a b -> same_frame b c -> same_frame a c.
Proof. unfold same_frame. intuition congruence. Qed.

Lemma same_frame_covered st st' : same_frame st st' -> covered st -> covered st'.
Proof. intros (E1 & E2 & E3 & _) [H1 H2 H3]. constructor; congruence. Qed.

Lemma take_frame_ok usable st i :
  pmm_ok usable st -> 0 <= i < total_frames st -> taken st i = false ->
  exists st', take_frame st i = Some st' /\ pmm_ok usable st' /\ same_frame st st' /\
    ram st' = ram st /\ free_frames st' = free_frames st - 1 /\
    (forall j, 0 <= j -> taken st' j = (j =? i) || taken st j).
Proof.
  intros Hok Hi Ht. pose proof (ok_covered _ _ Hok) as Hc.
  destruct (bitmap_set_used (bitmap st) i (covered_in_map _ _ Hc Hi)) as (bm & E & Hl & Hu).
  unfold take_frame. rewrite E. cbn [mbind option_bind]. eexists. split; [done|].
  assert (Hs : forall fr us, same_frame st (set_frames st bm fr us)) by done.
  pose proof (nframes_total _ Hc) as Hn.
  assert (Ef : cnt (fun i => negb (taken st i)) (nframes st) =
    cnt (fun i => negb (used bm i)) (nframes st) + 1).
  { apply (cnt_flip _ _ _ i); [lia| |by rewrite Ht|].
    - rewrite Hu, Z.eqb_refl by lia. done.
    - intros j Hj Hne. rewrite Hu by lia. unfold taken. by destruct (Z.eqb_spec j i). }
  assert (Eu : cnt (fun i => usable i && used bm i) (nframes st) =
    cnt (fun i => usable i && taken st i) (nframes st) + 1).
  { apply (cnt_flip _ _ _ i); [lia|by rewrite Ht, andb_false_r| |].
    - rewrite Hu, Z.eqb_refl by lia. by rewrite (ok_usable _ _ Hok i Hi Ht).
    - intros j Hj Hne. rewrite Hu by lia. unfold taken. by destruct (Z.eqb_spec j i). }
  pose proof (ok_free _ _ Hok) as Hf. pose proof (ok_used _ _ Hok) as Hus.
  pose proof (cnt_bounds (fun i => negb (used bm i)) (nframes st)).
  pose proof (cnt_bounds (fun i => usable i && used bm i) (nframes st)).
  pose proof (cov_limit _ Hc).
  assert (F1 : u64 (free_frames st - 1) = free_frames st - 1) by (apply u64_id; pmm_lia).
  assert (F2 : u64 (used_ram_frames st + 1) = used_ram_frames st + 1) by (apply u64_id; pmm_lia).
  rewrite F1, F2. split; [|split; [done|split; [done|split; [done|exact Hu]]]].
  constructor; [by eapply same_frame_covered| | |].
  - intros j Hj Hj'. cbn in Hj. apply (ok_usable _ _ Hok); [done|].
    change (used bm j = false) in Hj'. rewrite Hu in Hj' by lia. by apply orb_false_iff in Hj' as [_ ?].
  - change (free_frames st - 1 = cnt (fun i => negb (used bm i)) (nframes st)). lia.
  - change (used_ram_frames st + 1 = cnt (fun i => usable i && used bm i) (nframes st)). lia.
Qed.

(** ** Reservation *)

Lemma reserve_frame_ok usable st i :
  pmm_ok usable st -> 0 <= i < total_frames st ->
  exists st', reserve_frame st i = Some st' /\ pmm_ok usable st' /\ same_frame st st' /\
    ram st' = ram st /\ (forall j, 0 <= j -> taken st' j = (j =? i) || taken st j).
Proof.
  intros Hok Hi. unfold reserve_frame.
  rewrite bitmap_test_used by (apply covered_in_map; [apply Hok|done]). cbn [mbind option_bind].
  fold (taken st i). destruct (taken st i) eqn:Ht.
  - exists st. split; [done|]. split; [done|]. split; [done|]. split; [done|].
    intros j Hj. by destruct (Z.eqb_spec j i) as [->|].
  - destruct (take_frame_ok usable st i Hok Hi Ht) as (st' & E & H1 & H2 & H3 & _ & H4). eauto 10.
Qed.

(** [below] is [true] for the loops that test [f < total_frames]. *)
Definition range_taken (st : pmm) (first count j : Z) : bool :=
  ((first <=? j) && (j <? first + count) && (j <? total_frames st)) || taken st j.

Lemma reserve_frames_below_ok usable st first count :
  pmm_ok usable st -> 0 <= first ->
  exists st', reserve_frames_below st first count = Some st' /\ pmm_ok usable st' /\
    same_frame st st' /\ ram st' = ram st /\
    (forall j, 0 <= j -> taken st' j = range_taken st first (Z.of_nat count) j).
Proof.
  intros Hok. revert st first Hok. induction count as [|count IH]; intros st first Hok Hf.
  { exists st. split; [done|]. split; [done|]. split; [done|]. split; [done|].
    intros j Hj. unfold range_taken. change (Z.of_nat 0) with 0. destruct (taken st j); lia. }
  cbn [reserve_frames_below].
  assert (Hstep : exists st1, (if first <? total_frames st then reserve_frame st first else Some st)
    = Some st1 /\ pmm_ok usable st1 /\ same_frame st st1 /\ ram st1 = ram st /\
    forall j, 0 <= j -> taken st1 j = ((j =? first) && (j <? total_frames st)) || taken st j).
  { destruct (Z.ltb_spec first (total_frames st)).
    - destruct (reserve_frame_ok usable st first) as (st1 & E & H1 & H2 & H3 & H4); [done|lia|].
      exists st1. split; [done|]. split; [done|]. split; [done|]. split; [done|].
      intros j Hj. rewrite H4 by done. destruct (Z.eqb_spec j first) as [->|]; [|done].
      by replace (first <? total_frames st) with true by lia.
    - exists st. split; [done|]. split; [done|]. split; [done|]. split; [done|].
      intros j Hj. destruct (taken st j); lia. }
  destruct Hstep as (st1 & -> & H1 & H2 & H3 & H4). cbn [mbind option_bind].
  destruct (IH st1 (first + 1) H1 ltac:(lia)) as (st2 & E & G1 & G2 & G3 & G4).
  exists st2. split; [done|]. split; [done|]. split; [by eapply same_frame_trans|].
  split; [congruence|]. intros j Hj. rewrite G4 by done. unfold range_taken.
  rewrite H4 by done. destruct H2 as (-> & _). rewrite Nat2Z.inj_succ.
  pose proof (Nat2Z.is_nonneg count). generalize dependent (Z.of_nat count). intros.
  destruct (taken st j); lia.
Qed.

Lemma reserve_frame_total st i st' :
  reserve_frame st i = Some st' -> total_frames st' = total_frames st.
Proof.
  unfold reserve_frame, take_frame, bitmap_test, bitmap_set.
  destruct (bitmap st !! _); cbn; [|done]. by case_match; intros; simplify_eq.
Qed.

Lemma reserve_frames_ok usable st first count :
  pmm_ok usable st -> 0 <= first -> first + Z.of_nat count <= total_frames st ->
  exists st', reserve_frames st first count = Some st' /\ pmm_ok usable st' /\
    same_frame st st' /\ ram st' = ram st /\
    (forall j, 0 <= j -> taken st' j = range_taken st first (Z.of_nat count) j).
Proof.
  intros Hok Hf Hle.
  assert (E : reserve_frames st first count = reserve_frames_below st first count).
  { clear Hok. revert st first Hf Hle.
    induction count as [|count IH]; intros st first Hf Hle; [done|].
    cbn [reserve_frames reserve_frames_below].
    replace (first <? total_frames st) with true by lia.
    destruct (reserve_frame st first) as [st1|] eqn:Er; cbn [mbind option_bind]; [|done].
    apply reserve_frame_total in Er. apply IH; lia. }
  rewrite E. by apply reserve_frames_below_ok.
Qed.

(** ** Address conversions *)

Lemma phys_to_virt_round_trip ready phys :
  0 <= phys < PHYS_MAP_LIMIT -> virt_to_phys ready (phys_to_virt ready phys) = phys.
Proof.
  intros H. unfold phys_to_virt, phys_map_contains, virt_to_phys.
  replace (phys <? PHYS_MAP_LIMIT) with true by lia. destruct ready; cbn [negb].
  - rewrite (u64_id (PHYS_MAP_BASE + phys)) by pmm_lia.
    replace (PHYS_MAP_BASE + phys - PHYS_MAP_BASE) with phys by lia.
    rewrite u64_id by pmm_lia. replace (_ && _) with true; [done|]. pmm_lia.
  - replace (PHYS_MAP_BASE <=? phys) with false by pmm_lia. cbn.
    by replace (phys <? PHYS_MAP_LIMIT) with true by lia.
Qed.

Lemma phys_to_virt_offset ready phys k :
  0 <= phys -> 0 <= k -> phys + k < PHYS_MAP_LIMIT ->
  phys_to_virt ready phys + k = phys_to_virt ready (phys + k).
Proof.
  intros H1 H2 H3. unfold phys_to_virt, phys_map_contains.
  replace (phys <? PHYS_MAP_LIMIT) with true by lia.
  replace (phys + k <? PHYS_MAP_LIMIT) with true by lia. destruct ready; cbn [negb]; [|done].
  rewrite !u64_id by pmm_lia. lia.
Qed.

(** ** Zeroing *)

Lemma zero_words_spec st phys count :
  0 <= phys -> phys + 8 * Z.of_nat count <= PHYS_MAP_LIMIT ->
  let st' := zero_words st (phys_to_virt (direct_map_ready st) phys) count in
  st' = set_ram st (ram st') /\
  (forall k, 0 <= k < Z.of_nat count -> ram st' !! (phys + 8 * k) = Some 0) /\
  (forall a, a < phys \/ phys + 8 * Z.of_nat count <= a -> ram st' !! a = ram st !! a).
Proof.
  revert st phys. induction count as [|count IH]; intros st phys Hp Hl; cbn [zero_words].
  { split; [by destruct st|]. split; [lia|done]. }
  rewrite phys_to_virt_round_trip by lia.
  set (st1 := set_ram st (<[phys := 0]> (ram st))). cbv zeta.
  destruct (decide (count = 0%nat)) as [->|Hc].
  { cbn. split; [done|]. split.
    - intros k Hk. replace (phys + 8 * k) with phys by lia. apply lookup_insert_eq.
    - intros a Ha. apply lookup_insert_ne. lia. }
  rewrite phys_to_virt_offset by lia. change (direct_map_ready st) with (direct_map_ready st1).
  destruct (IH st1 (phys + 8)) as (E & H1 & H2); [lia|lia|].
  set (st2 := zero_words st1 _ count) in *. split; [by rewrite E|]. split.
  - intros k Hk. destruct (decide (k = 0)) as [->|].
    + rewrite H2 by lia. rewrite Z.add_0_r. apply lookup_insert_eq.
    + replace (phys + 8 * k) with (phys + 8 + 8 * (k - 1)) by lia. apply H1. lia.
  - intros a Ha. rewrite H2 by lia. apply lookup_insert_ne. lia.
Qed.


(** Changing RAM does not affect the frame accounting. *)
Lemma set_ram_ok usable st r : pmm_ok usable st -> pmm_ok usable (set_ram st r).
Proof. intros [[? ? ?] ? ? ?]. constructor; [by constructor|done..]. Qed.

(** ** Allocation *)

(** The frame handed out: the lowest free one, now taken and zeroed. *)
Definition allocates (usable : Z -> bool) (st st' : pmm) (i : Z) : Prop :=
  0 <= i < total_frames st /\ taken st i = false /\
  (forall j, 0 <= j < i -> taken st j = true) /\
  pmm_ok usable st' /\ same_frame st st' /\ free_frames st' = free_frames st - 1 /\
  (forall j, 0 <= j -> taken st' j = (j =? i) || taken st j) /\
  (forall k, 0 <= k < 512 -> ram st' !! (i * PAGE_SIZE + 8 * k) = Some 0) /\
  (forall a, a < i * PAGE_SIZE \/ (i + 1) * PAGE_SIZE <= a -> ram st' !! a = ram st !! a).

Lemma alloc_from_spec usable st i count :
  pmm_ok usable st -> 0 < i -> i + Z.of_nat count = total_frames st ->
  (forall j, 0 <= j < i -> taken st j = true) ->
  (alloc_from st i count = Some (0, st) /\
     forall j, 0 <= j < total_frames st -> taken st j = true) \/
  (exists k st', alloc_from st i count = Some (k * PAGE_SIZE, st') /\ i <= k /\
     allocates usable st st' k).
Proof.
  intros Hok. revert i. induction count as [|count IH]; intros i Hi Hn Hbelow.
  { left. split; [done|]. intros. apply Hbelow. lia. }
  cbn [alloc_from]. pose proof (ok_covered _ _ Hok) as Hc. pose proof (cov_limit _ Hc).
  rewrite bitmap_test_used by (apply covered_in_map; [done|lia]). cbn [mbind option_bind].
  fold (taken st i). destruct (taken st i) eqn:Ht.
  - destruct (IH (i + 1)) as [?|(k & st' & E & Hk & A)]; [lia|lia| |by left|right].
    + intros j Hj. destruct (decide (j = i)) as [->|]; [done|]. apply Hbelow. lia.
    + exists k, st'. split; [done|]. split; [lia|done].
  - right. destruct (take_frame_ok usable st i) as (st1 & E1 & Hok1 & Hs & Hr & Hf & Hu);
      [done|lia|done|]. rewrite E1. cbn [mbind option_bind]. cbv zeta.
    rewrite u64_id by pmm_lia.
    assert (Hw : exists words, words = 512%nat /\ Z.of_nat words = 512) by (by exists 512%nat).
    destruct Hw as (words & <- & Hw).
    assert (Hp : phys_to_virt (direct_map_ready st1) (i * PAGE_SIZE) <> 0).
    { unfold phys_to_virt, phys_map_contains.
      replace (i * PAGE_SIZE <? PHYS_MAP_LIMIT) with true by pmm_lia.
      destruct (direct_map_ready st1); cbn [negb]; [rewrite u64_id by pmm_lia|]; pmm_lia. }
    apply Z.eqb_neq in Hp as ->.
    destruct (zero_words_spec st1 (i * PAGE_SIZE) words) as (Ez & Z1 & Z2);
      [pmm_lia|pmm_lia|]. rewrite Hw in *.
    set (st2 := zero_words st1 _ words) in *. exists i, st2. split; [done|]. split; [lia|].
    rewrite Ez. split; [lia|]. split; [done|]. split; [done|]. split; [by apply set_ram_ok|].
    split; [done|]. split; [done|]. split; [done|]. split; [done|].
    intros a Ha. cbn [ram set_ram]. rewrite Z2 by pmm_lia. by rewrite Hr.
Qed.

(** ** Initialisation *)

Definition in_region (d : descriptor) (i : Z) : bool :=
  (PhysicalStart d / PAGE_SIZE <=? i) && (i <? PhysicalStart d / PAGE_SIZE + NumberOfPages d).
Definition usable_frame (ds : list descriptor) (i : Z) : bool :=
  existsb (fun d => pmm_is_usable_memory (Type_ d) && in_region d i) ds.

(** A firmware map as UEFI describes it: page-aligned regions inside the
    direct map that do not overlap. *)
Definition region_ok (d : descriptor) : Prop :=
  0 <= PhysicalStart d /\ PhysicalStart d mod PAGE_SIZE = 0 /\ 0 <= NumberOfPages d /\
  PhysicalStart d + NumberOfPages d * PAGE_SIZE <= PHYS_MAP_LIMIT.
Definition overlap_free (d d' : descriptor) : Prop :=
  PhysicalStart d + NumberOfPages d * PAGE_SIZE <= PhysicalStart d' \/
  PhysicalStart d' + NumberOfPages d' * PAGE_SIZE <= PhysicalStart d.
Fixpoint map_ok (ds : list descriptor) : Prop :=
  match ds with
  | [] => True
  | d :: ds => region_ok d /\ Forall (overlap_free d) ds /\ map_ok ds
  end.

(** While regions are being released: exactly the frames of [p] are free. *)
Record releasing (p : Z -> bool) (st : pmm) : Prop := {
  rel_covered : covered st;
  rel_taken : forall i, 0 <= i < total_frames st -> taken st i = negb (p i);
  rel_free : free_frames st = cnt p (nframes st);
  rel_used : used_ram_frames st = 0;
}.

Lemma releasing_ext p q st :
  (forall i, 0 <= i < total_frames st -> p i = q i) -> releasing p st -> releasing q st.
Proof.
  intros E [H1 H2 H3 H4]. constructor; [done| | |done].
  - intros i Hi. rewrite <- E by done. by apply H2.
  - rewrite H3. apply cnt_ext. rewrite nframes_total by done. done.
Qed.

Lemma release_region_ok p st frame count :
  releasing p st -> 0 <= frame -> frame + Z.of_nat count <= total_frames st ->
  (forall i, frame <= i < frame + Z.of_nat count -> p i = false) ->
  exists st', release_region st frame count = Some st' /\ same_frame st st' /\
    releasing (fun i => ((frame <=? i) && (i <? frame + Z.of_nat count)) || p i) st'.
Proof.
  revert p st frame. induction count as [|count IH]; intros p st frame Hr Hf Hle Hp.
  { exists st. split; [done|]. split; [done|]. eapply releasing_ext; [|done]. intros i _.
    destruct (p i); lia. }
  cbn [release_region]. pose proof (rel_covered _ _ Hr) as Hc.
  destruct (bitmap_clear_used (bitmap st) frame) as (bm & E & Hl & Hu);
    [apply covered_in_map; [done|lia]|]. rewrite E. cbn [mbind option_bind].
  set (st1 := set_frames st bm _ _). assert (Hs : same_frame st st1) by done.
  pose proof (nframes_total _ Hc). pose proof (cov_limit _ Hc).
  set (q := fun i => (i =? frame) || p i).
  assert (Hq : cnt q (nframes st) = cnt p (nframes st) + 1).
  { apply (cnt_flip _ _ _ frame); [lia|apply Hp; lia|unfold q; lia|].
    intros j Hj Hne. unfold q. by destruct (Z.eqb_spec j frame). }
  pose proof (cnt_bounds q (nframes st)). pose proof (cnt_bounds p (nframes st)).
  assert (Hr1 : releasing q st1).
  { constructor; [by apply (same_frame_covered st)| | |by apply rel_used in Hr].
    - intros i Hi. change (used bm i = negb (q i)). rewrite Hu by lia.
      pose proof (rel_taken _ _ Hr i Hi) as Ht. unfold taken in Ht. rewrite Ht. unfold q.
      by destruct (Z.eqb_spec i frame).
    - change (u64 (free_frames st + 1) = cnt q (nframes st)). rewrite (rel_free _ _ Hr).
      rewrite u64_id by pmm_lia. lia. }
  destruct (IH q st1 (frame + 1)) as (st' & E' & Hs' & Hr'); [done|lia| | |].
  - change (total_frames st1) with (total_frames st). lia.
  - intros i Hi. unfold q. rewrite Hp by lia. lia.
  - exists st'. split; [done|]. split; [by eapply same_frame_trans|].
    eapply releasing_ext; [|done]. intros i _. unfold q. rewrite Nat2Z.inj_succ.
    pose proof (Nat2Z.is_nonneg count). generalize dependent (Z.of_nat count). intros.
    destruct (p i); lia.
Qed.

Lemma map_ok_regions ds : map_ok ds -> Forall region_ok ds.
Proof. induction ds; cbn; [constructor|]. intros (? & _ & ?). constructor; auto. Qed.

Lemma release_one_ok p st d :
  releasing p st -> region_ok d ->
  PhysicalStart d + NumberOfPages d * PAGE_SIZE <= total_frames st * PAGE_SIZE ->
  (forall i, 0 <= i -> usable_frame [d] i = true -> p i = false) ->
  exists st', release_one st d = Some st' /\ same_frame st st' /\
    releasing (fun i => p i || (pmm_is_usable_memory (Type_ d) && in_region d i)) st'.
Proof.
  intros Hr (D1 & D2 & D3 & D4) Htd Hp. unfold release_one.
  destruct (pmm_is_usable_memory (Type_ d)) eqn:Eu.
  - destruct (release_region_ok p st (PhysicalStart d / PAGE_SIZE) (Z.to_nat (NumberOfPages d)))
      as (st1 & E1 & Hs & Hr1); [done|pmm_lia|rewrite Z2Nat.id by done; pmm_lia| |].
    + intros i Hi. rewrite Z2Nat.id in Hi by done. apply Hp; [pmm_lia|].
      unfold usable_frame. cbn [existsb]. rewrite Eu. unfold in_region. lia.
    + exists st1. split; [done|]. split; [done|]. eapply releasing_ext; [|done].
      intros i _. unfold in_region. rewrite Z2Nat.id by done. cbn [andb].
      destruct (p i); lia.
  - unfold pmm_is_usable_memory in Eu. replace ((Type_ d =? 3) || _) with false by lia.
    exists st. split; [done|]. split; [done|]. eapply releasing_ext; [|done].
    intros i _. by rewrite orb_false_r.
Qed.

Lemma release_regions_ok p st ds :
  releasing p st -> map_ok ds ->
  Forall (fun d => PhysicalStart d + NumberOfPages d * PAGE_SIZE <= total_frames st * PAGE_SIZE) ds ->
  (forall i, 0 <= i -> usable_frame ds i = true -> p i = false) ->
  exists st', release_regions st ds = Some st' /\ same_frame st st' /\
    releasing (fun i => p i || usable_frame ds i) st'.
Proof.
  revert p st. induction ds as [|d ds IH]; intros p st Hr Hm Ht Hp.
  { exists st. split; [done|]. split; [done|]. eapply releasing_ext; [|done].
    intros i _. by rewrite orb_false_r. }
  cbn [release_regions]. destruct Hm as (Hd & Hdis & Hm).
  apply Forall_cons_1 in Ht as [Htd Ht].
  destruct (release_one_ok p st d) as (st1 & -> & Hs & Hr1); [done..| |].
  { intros i Hi Hu. apply Hp; [done|]. unfold usable_frame in *. cbn in *.
    rewrite orb_false_r in Hu. by rewrite Hu. }
  cbn [mbind option_bind]. pose proof (map_ok_regions ds Hm) as Hreg.
  destruct (IH _ st1 Hr1 Hm) as (st2 & E2 & Hs2 & Hr2).
  - destruct Hs as (-> & _). done.
  - intros i Hi Hu. rewrite (Hp i Hi) by (cbn; unfold usable_frame in Hu; rewrite Hu; apply orb_true_r).
    cbn [orb]. unfold usable_frame in Hu. apply existsb_exists in Hu as (d' & Hin & Hd').
    apply list_elem_of_In in Hin. rewrite Forall_forall in Hdis, Hreg.
    specialize (Hdis d' Hin). destruct (Hreg d' Hin) as (? & ? & ? & _).
    unfold in_region, overlap_free in *. pmm_lia.
  - exists st2. split; [done|]. split; [by eapply same_frame_trans|].
    eapply releasing_ext; [|done]. intros i _. unfold usable_frame. cbn [existsb].
    by rewrite <- orb_assoc.
Qed.

(** The highest address is a bound of every region, and reached. *)
Lemma highest_address_bounds ds :
  Forall region_ok ds ->
  0 <= highest_address ds <= PHYS_MAP_LIMIT /\
  Forall (fun d => PhysicalStart d + NumberOfPages d * PAGE_SIZE <= highest_address ds) ds.
Proof.
  assert (Hgen : forall ds top, Forall region_ok ds -> 0 <= top <= PHYS_MAP_LIMIT ->
    let r := foldl (fun top d => if top <? top_of d then top_of d else top) top ds in
    top <= r <= PHYS_MAP_LIMIT /\
    Forall (fun d => PhysicalStart d + NumberOfPages d * PAGE_SIZE <= r) ds).
  { clear ds. induction ds as [|d ds IH]; intros top Hok Ht; cbn [foldl]; [split; [lia|constructor]|].
    apply Forall_cons_1 in Hok as [(D1 & D2 & D3 & D4) Hok].
    assert (E : top_of d = PhysicalStart d + NumberOfPages d * PAGE_SIZE).
    { unfold top_of. rewrite (u64_id (_ * _)) by pmm_lia. apply u64_id. pmm_lia. }
    destruct (IH (if top <? top_of d then top_of d else top) Hok) as [B F].
    { case_match; pmm_lia. }
    split; [case_match; lia|]. constructor; [|done]. rewrite <- E.
    destruct (Z.ltb_spec top (top_of d)); lia. }
  intros Hok. destruct (Hgen ds 0 Hok) as [B F]; [pmm_lia|]. split; [exact B|exact F].
Qed.

Lemma bitmap_home_region ds size home :
  bitmap_home ds size = Some home ->
  exists d, d ∈ ds /\ PhysicalStart d = home /\ size <= u64 (NumberOfPages d * PAGE_SIZE).
Proof.
  induction ds as [|d ds IH]; cbn; [done|]. destruct (_ && _) eqn:E.
  - intros ?. simplify_eq. exists d. split; [left|]. split; [done|]. lia.
  - intros H. destruct (IH H) as (d' & Hin & Hd'). exists d'. split; [by right|done].
Qed.

Lemma releasing_pmm_ok p st : releasing p st -> pmm_ok p st.
Proof.
  intros [H1 H2 H3 H4]. constructor; [done| | |].
  - intros i Hi. rewrite H2 by done. by destruct (p i).
  - rewrite H3. apply cnt_ext. rewrite nframes_total by done. intros i Hi.
    rewrite H2 by done. by destruct (p i).
  - rewrite H4, (cnt_ext _ (fun _ => false)).
    + generalize (nframes st). intros m. induction m; cbn [cnt]; lia.
    + rewrite nframes_total by done. intros i Hi. rewrite H2 by done. by destruct (p i).
Qed.

(** Frame 0 is never handed out. *)
Lemma alloc_cases usable st :
  pmm_ok usable st -> taken st 0 = true -> 0 < total_frames st ->
  (pmm_alloc_frame st = Some (0, st) /\ forall j, 0 <= j < total_frames st -> taken st j = true) \/
  (exists i st', pmm_alloc_frame st = Some (i * PAGE_SIZE, st') /\ 0 < i /\ allocates usable st st' i).
Proof.
  intros Hok H0 Ht. unfold pmm_alloc_frame.
  destruct (Z.to_nat (total_frames st)) as [|n] eqn:En; [lia|]. cbn [alloc_from].
  rewrite bitmap_test_used by (apply covered_in_map; [apply Hok|lia]). cbn [mbind option_bind].
  fold (taken st 0). rewrite H0.
  destruct (alloc_from_spec usable st 1 n) as [?|(k & st' & E & Hk & A)]; [done|lia|lia| |by left|right].
  - intros j Hj. by replace j with 0 by lia.
  - exists k, st'. split; [done|]. split; [lia|done].
Qed.

(** A taken frame of RAM is given back. *)
Lemma free_taken usable st i :
  pmm_ok usable st -> 0 <= i < total_frames st -> usable i = true -> taken st i = true ->
  exists st', pmm_free_frame st (i * PAGE_SIZE) = Some st' /\ pmm_ok usable st' /\
    same_frame st st' /\ free_frames st' = free_frames st + 1 /\
    (forall j, 0 <= j -> taken st' j = negb (j =? i) && taken st j).
Proof.
  intros Hok Hi Hus Ht. pose proof (ok_covered _ _ Hok) as Hc. pose proof (cov_limit _ Hc) as Hlim.
  unfold pmm_free_frame. replace (i * PAGE_SIZE / PAGE_SIZE) with i by pmm_lia. cbv zeta.
  rewrite bitmap_test_used by by apply covered_in_map. cbn [mbind option_bind].
  fold (taken st i). rewrite Ht.
  destruct (bitmap_clear_used (bitmap st) i) as (bm & E & Hl & Hu); [by apply covered_in_map|].
  rewrite E. cbn [mbind option_bind]. eexists. split; [done|].
  assert (Ef : cnt (fun j => negb (used bm j)) (nframes st) =
    cnt (fun j => negb (taken st j)) (nframes st) + 1).
  { pose proof (nframes_total _ Hc). apply (cnt_flip _ _ _ i); [lia|by rewrite Ht| |].
    - by rewrite Hu, Z.eqb_refl by lia.
    - intros j Hj Hne. rewrite Hu by lia. unfold taken. by destruct (Z.eqb_spec j i). }
  assert (Eu : cnt (fun j => usable j && taken st j) (nframes st) =
    cnt (fun j => usable j && used bm j) (nframes st) + 1).
  { pose proof (nframes_total _ Hc). apply (cnt_flip _ _ _ i); [lia| |by rewrite Hus, Ht|].
    - rewrite Hu, Z.eqb_refl by lia. apply andb_false_r.
    - intros j Hj Hne. rewrite Hu by lia. unfold taken. by destruct (Z.eqb_spec j i). }
  pose proof (ok_free _ _ Hok) as Hf. pose proof (ok_used _ _ Hok) as Huc.
  pose proof (cnt_bounds (fun j => negb (used bm j)) (nframes st)).
  pose proof (cnt_bounds (fun j => usable j && used bm j) (nframes st)).
  rewrite !u64_id by pmm_lia. split; [|split; [done|split; [done|exact Hu]]].
  constructor; [by apply (same_frame_covered st)| | |].
  - intros j Hj Hj'. change (used bm j = false) in Hj'. cbn in Hj.
    rewrite Hu in Hj' by lia. destruct (Z.eqb_spec j i) as [->|]; [done|].
    by apply (ok_usable _ _ Hok).
  - change (free_frames st + 1 = cnt (fun j => negb (used bm j)) (nframes st)). lia.
  - change (used_ram_frames st - 1 = cnt (fun j => usable j && used bm j) (nframes st)). lia.
Qed.

(** * Theorems *)

(** Whenever a frame is free, [pmm_alloc_frame] returns the address of the
    lowest free frame, marks exactly that frame, clears its 4096 bytes and
    nothing else, and keeps the counters exact; otherwise it returns 0 and
    changes nothing.  (Frame 0 is reserved, so 0 is unambiguous.) *)
Theorem pmm_alloc_frame_correct (usable : Z -> bool) (st : pmm) :
  pmm_ok usable st -> taken st 0 = true -> 0 < total_frames st ->
  (pmm_alloc_frame st = Some (0, st) /\ free_frames st = 0 /\
     forall j, 0 <= j < total_frames st -> taken st j = true) \/
  (exists i st', pmm_alloc_frame st = Some (i * PAGE_SIZE, st') /\ 0 < i /\
     allocates usable st st' i).
Proof.
  intros Hok H0 Ht. destruct (alloc_cases usable st Hok H0 Ht) as [[E Hall]|?]; [left|by right].
  split; [done|]. split; [|done]. rewrite (ok_free _ _ Hok), (cnt_ext _ (fun _ => false)).
  - generalize (nframes st). intros m. induction m; cbn [cnt]; lia.
  - intros i Hi. rewrite Hall; [done|]. rewrite nframes_total in Hi by apply Hok. done.
Qed.

(** [pmm_free_frame] of a taken RAM frame frees exactly that frame and
    keeps the counters exact; freeing a free frame is detected and changes
    nothing; and freeing what was just allocated restores the set of free
    frames. *)
Theorem pmm_free_frame_correct (usable : Z -> bool) (st : pmm) (i : Z) :
  pmm_ok usable st -> 0 <= i < total_frames st -> usable i = true ->
  exists st', pmm_free_frame st (i * PAGE_SIZE) = Some st' /\ pmm_ok usable st' /\
    (taken st i = false -> st' = st) /\
    (taken st i = true -> free_frames st' = free_frames st + 1) /\
    (forall j, 0 <= j -> taken st' j = negb (j =? i) && taken st j) /\
    (forall st0, allocates usable st0 st i -> forall j, 0 <= j -> taken st' j = taken st0 j).
Proof.
  intros Hok Hi Hus.
  assert (Hrt : forall st', (forall j, 0 <= j -> taken st' j = negb (j =? i) && taken st j) ->
    forall st0, allocates usable st0 st i -> forall j, 0 <= j -> taken st' j = taken st0 j).
  { intros st' Hst' st0 (_ & Hfree & _ & _ & _ & _ & Hal & _) j Hj. rewrite Hst', Hal by done.
    by destruct (Z.eqb_spec j i) as [->|]. }
  destruct (taken st i) eqn:Ht.
  - destruct (free_taken usable st i Hok Hi Hus Ht) as (st' & E & Hok' & _ & Hf & Hu).
    exists st'. split; [done|]. split; [done|]. split; [done|]. split; [done|]. split; [done|]. by apply Hrt.
  - pose proof (ok_covered _ _ Hok) as Hc. pose proof (cov_limit _ Hc) as Hlim.
    assert (Hst : forall j, 0 <= j -> taken st j = negb (j =? i) && taken st j).
    { intros j Hj. by destruct (Z.eqb_spec j i) as [->|]. }
    exists st. split; [|split; [done|split; [done|split; [done|split; [done|by apply Hrt]]]]].
    unfold pmm_free_frame. replace (i * PAGE_SIZE / PAGE_SIZE) with i by pmm_lia. cbv zeta.
    rewrite bitmap_test_used by by apply covered_in_map. cbn [mbind option_bind].
    fold (taken st i). by rewrite Ht.
Qed.

(** [pmm_reserve_range] accepts exactly the non-empty, page-aligned,
    non-wrapping ranges inside the bitmap; on success every frame of the range is
    taken and no other frame changes, and a rejected call changes nothing. *)
Theorem pmm_reserve_range_correct (usable : Z -> bool) (st : pmm) (start page_count : Z) :
  pmm_ok usable st -> is_u64 start -> is_u64 page_count ->
  exists ok st', pmm_reserve_range st start page_count = Some (ok, st') /\ pmm_ok usable st' /\
    (ok = true <-> 0 < page_count /\ start mod PAGE_SIZE = 0 /\ bitmap_ptr st <> 0 /\
       start + page_count * PAGE_SIZE <= total_frames st * PAGE_SIZE) /\
    (ok = false -> st' = st) /\
    (ok = true -> forall j, 0 <= j -> taken st' j =
       ((start / PAGE_SIZE <=? j) && (j <? start / PAGE_SIZE + page_count)) || taken st j).
Proof.
  intros Hok Hs Hp. pose proof (ok_covered _ _ Hok) as [C1 C2 C3]. unfold pmm_reserve_range.
  change (PAGE_SIZE - 1) with (Z.ones 12). rewrite Z.land_ones by lia.
  change (2 ^ 12) with PAGE_SIZE.
  destruct (_ || _ || _ || _) eqn:E1.
  { exists false, st. split; [done|]. split; [done|]. split; [|done]. pmm_lia. }
  cbv zeta. destruct ((bitmap_ptr st =? 0) || _ || _) eqn:E2.
  { exists false, st. split; [done|]. split; [done|]. split; [|done]. pmm_lia. }
  destruct (reserve_frames_ok usable st (start / PAGE_SIZE) (Z.to_nat page_count)) as
    (st' & E & H1 & H2 & _ & H4); [done|pmm_lia|rewrite Z2Nat.id by mach; lia|].
  rewrite E. cbn [mbind option_bind]. exists true, st'. split; [done|]. split; [done|].
  split; [pmm_lia|]. split; [done|]. intros _ j Hj. rewrite H4 by done. unfold range_taken.
  rewrite Z2Nat.id by mach. destruct (taken st j); pmm_lia.
Qed.

(** The frames [pmm_init] keeps out of circulation. *)
Definition reserved_frame (info : boot_info) (home i : Z) : bool :=
  let size := highest_address (descriptors info) / PAGE_SIZE / 8 in
  (i <? 1024) ||
  ((home / PAGE_SIZE <=? i) && (i <? home / PAGE_SIZE + (size + PAGE_SIZE - 1) / PAGE_SIZE)) ||
  (i =? address info / PAGE_SIZE) ||
  ((MemoryMap info / PAGE_SIZE <=? i) &&
   (i <? (MemoryMap info + MemoryMapSize info + PAGE_SIZE - 1) / PAGE_SIZE)).

(** The bitmap before any region is released: every frame taken. *)
Lemma fresh_bitmap_releasing ptr home size total candidate ready r :
  total = 8 * size -> 0 <= total -> total * PAGE_SIZE <= PHYS_MAP_LIMIT ->
  releasing (fun _ => false)
    (Pmm ptr (replicate (Z.to_nat size) 0xFF) home size total 0 0 0 candidate ready r).
Proof.
  intros Hsz H0 Hlim. set (st := Pmm _ _ _ _ _ _ _ _ _ _ _).
  assert (Hl : length (bitmap st) = Z.to_nat size) by apply length_replicate.
  constructor; [constructor; rewrite ?Hl; cbn; pmm_lia| | |done].
  - intros i Hi. unfold taken, used, st. cbn [bitmap].
    destruct (replicate (Z.to_nat size) 255 !! Z.to_nat (i / 8)) as [b|] eqn:E; [|done].
    apply lookup_replicate in E as [-> _]. change 255 with (Z.ones 8).
    rewrite Z.ones_spec_low; [done|mach].
  - change (0 = cnt (fun _ => false) (nframes st)).
    generalize (nframes st). intros m. induction m; cbn [cnt]; lia.
Qed.

(** The reservations at the end of [pmm_init]: low memory, the boot
    information and the memory map. *)
Lemma reserve_boot_ranges usable st frame first count :
  pmm_ok usable st -> 0 <= frame -> 0 <= first ->
  exists st', (st ← reserve_frames_below st 0 1024;
     st ← (if frame <? total_frames st then reserve_frame st frame else Some st);
     reserve_frames_below st first count) = Some st' /\ pmm_ok usable st' /\
    total_frames st' = total_frames st /\
    forall i, 0 <= i < total_frames st -> taken st' i =
      taken st i || (i <? 1024) || (i =? frame) ||
      (first <=? i) && (i <? first + Z.of_nat count).
Proof.
  intros R2 Hfr Hfi.
  destruct (reserve_frames_below_ok _ st 0 1024 R2) as (st3 & E3 & R3 & S3 & _ & U3); [lia|].
  rewrite E3. cbn [mbind option_bind].
  destruct (reserve_frames_below_ok _ st3 frame 1 R3) as (st4 & E4 & R4 & S4 & _ & U4); [lia|].
  assert (E4' : (if frame <? total_frames st3 then reserve_frame st3 frame else Some st3) = Some st4).
  { cbn [reserve_frames_below] in E4. by destruct (if _ <? _ then _ else _). }
  rewrite E4'. cbn [mbind option_bind].
  destruct (reserve_frames_below_ok _ st4 first count R4) as (st5 & E5 & R5 & S5 & _ & U5); [lia|].
  exists st5. split; [done|]. split; [done|].
  assert (T3 : total_frames st3 = total_frames st) by (destruct S3; congruence).
  assert (T4 : total_frames st4 = total_frames st) by (destruct S4; congruence).
  assert (T5 : total_frames st5 = total_frames st) by (destruct S5; congruence).
  split; [done|]. intros i Hi. rewrite U5 by lia. unfold range_taken. rewrite T4, U4 by lia.
  unfold range_taken. rewrite T3, U3 by lia. unfold range_taken.
  change (Z.of_nat 1024) with 1024. change (Z.of_nat 1) with 1. destruct (taken st i); lia.
Qed.

(** On a well-formed firmware map whose frame count is a multiple of 8,
    [pmm_init] succeeds and establishes the invariant: a frame is free exactly if
    it lies in a usable region and is neither in the first 4 MiB, nor under the
    bitmap, nor in the boot information or the memory map itself. *)
Theorem pmm_init_correct (ready : bool) (r : gmap Z Z) (info : boot_info) (home : Z) :
  map_ok (descriptors info) ->
  (highest_address (descriptors info) / PAGE_SIZE) mod 8 = 0 ->
  bitmap_home (descriptors info) (highest_address (descriptors info) / PAGE_SIZE / 8) = Some home ->
  0 <= address info -> 0 <= MemoryMap info -> 0 <= MemoryMapSize info ->
  MemoryMap info + MemoryMapSize info < 2 ^ 63 ->
  exists st, pmm_init ready r info = Some st /\
    pmm_ok (usable_frame (descriptors info)) st /\
    total_frames st = highest_address (descriptors info) / PAGE_SIZE /\
    forall i, 0 <= i < total_frames st ->
      taken st i = negb (usable_frame (descriptors info) i) || reserved_frame info home i.
Proof.
  intros Hm H8 Hh Ha Hmm Hms Hlim. pose proof (map_ok_regions _ Hm) as Hreg.
  destruct (highest_address_bounds _ Hreg) as [Hb Htop].
  unfold pmm_init. rewrite Hh. cbn [mbind option_bind]. cbv zeta.
  set (total := highest_address (descriptors info) / PAGE_SIZE) in *.
  set (size := total / 8) in *. set (st0 := Pmm _ _ _ _ _ _ _ _ _ _ _).
  assert (Hsz : total = 8 * size) by (unfold size; mach).
  assert (Ht : 0 <= total /\ total * PAGE_SIZE <= highest_address (descriptors info))
    by (unfold total; pmm_lia).
  assert (H0 : releasing (fun _ => false) st0) by (apply fresh_bitmap_releasing; pmm_lia).
  destruct (release_regions_ok _ st0 (descriptors info) H0 Hm) as (st1 & E1 & S1 & R1);
    [|done|].
  { change (total_frames st0) with total. rewrite Forall_forall in Htop, Hreg |- *.
    intros d Hd. pose proof (Htop d Hd). destruct (Hreg d Hd) as (? & ? & ? & _).
    unfold total. pmm_lia. }
  rewrite E1. cbn [mbind option_bind]. pose proof R1 as Rt. apply releasing_pmm_ok in R1.
  assert (T1 : total_frames st1 = total) by apply S1.
  destruct (bitmap_home_region _ _ _ Hh) as (d & Hd & <- & Hfit).
  rewrite Forall_forall in Htop, Hreg. pose proof (Htop d Hd). destruct (Hreg d Hd) as (? & ? & ? & _).
  rewrite (u64_id (NumberOfPages d * PAGE_SIZE)) in Hfit by pmm_lia.
  rewrite (u64_id (size + PAGE_SIZE - 1)) by pmm_lia.
  rewrite (u64_id (MemoryMap info + MemoryMapSize info + PAGE_SIZE - 1)) by pmm_lia.
  set (bf := (size + PAGE_SIZE - 1) / PAGE_SIZE).
  assert (Hbf : 0 <= bf /\ PhysicalStart d / PAGE_SIZE + bf <= total)
    by (unfold bf, total; pmm_lia).
  destruct (reserve_frames_ok _ st1 (PhysicalStart d / PAGE_SIZE) (Z.to_nat bf) R1) as
    (st2 & E2 & R2 & S2 & _ & U2); [pmm_lia|rewrite Z2Nat.id by lia; lia|].
  rewrite E2. cbn [mbind option_bind].
  destruct (reserve_boot_ranges _ st2 (address info / PAGE_SIZE) (MemoryMap info / PAGE_SIZE)
    (Z.to_nat ((MemoryMap info + MemoryMapSize info + PAGE_SIZE - 1) / PAGE_SIZE -
       MemoryMap info / PAGE_SIZE)) R2) as (st5 & E5 & R5 & T5 & U5); [pmm_lia|pmm_lia|].
  exists st5. split; [done|]. assert (T2 : total_frames st2 = total) by (destruct S2; congruence).
  split; [done|]. split; [congruence|]. intros i Hi. rewrite T5 in Hi.
  rewrite U5 by lia. rewrite U2 by lia. unfold range_taken.
  rewrite T1, (rel_taken _ _ Rt) by lia. rewrite !Z2Nat.id by pmm_lia. cbn [orb].
  unfold reserved_frame. fold total. fold size. fold bf.
  destruct (usable_frame (descriptors info) i); cbn [negb orb]; rewrite ?orb_true_r; [|done].
  rewrite !orb_false_r. lia.
Qed.

(** * Concrete instances *)

(** Eight frames of RAM, frame 0 reserved. *)
Definition st8 : pmm := Pmm 4096 [1] 4096 1 8 7 1 0 0 true ∅.

Lemma st8_ok : pmm_ok (fun _ => true) st8.
Proof. constructor; [by constructor|done|by vm_compute|by vm_compute]. Qed.

Lemma pmm_alloc_frame_correct_witness :
  (pmm_alloc_frame st8 = Some (0, st8) /\ free_frames st8 = 0 /\
     forall j, 0 <= j < total_frames st8 -> taken st8 j = true) \/
  (exists i st', pmm_alloc_frame st8 = Some (i * PAGE_SIZE, st') /\ 0 < i /\
     allocates (fun _ => true) st8 st' i).
Proof. apply (pmm_alloc_frame_correct (fun _ => true) st8 st8_ok); [reflexivity|cbn; lia]. Defined.

Lemma pmm_free_frame_correct_witness :
  exists st', pmm_free_frame st8 (0 * PAGE_SIZE) = Some st' /\ pmm_ok (fun _ => true) st' /\
    free_frames st' = 8.
Proof.
  destruct (pmm_free_frame_correct (fun _ => true) st8 0 st8_ok) as (st' & E & H & _ & F & _);
    [cbn; lia|reflexivity|].
  exists st'. split; [exact E|]. split; [exact H|]. apply (F eq_refl).
Defined.

Lemma pmm_reserve_range_correct_witness :
  exists ok st', pmm_reserve_range st8 8192 3 = Some (ok, st') /\ pmm_ok (fun _ => true) st'.
Proof.
  destruct (pmm_reserve_range_correct (fun _ => true) st8 8192 3 st8_ok) as (ok & st' & E & H & _);
    [unfold is_u64; lia|unfold is_u64; lia|].
  exists ok, st'. split; [exact E|exact H].
Defined.

(** 16 MiB of RAM with a reserved hole in the middle. *)
Definition sample_map : list descriptor :=
  [Descriptor 7 0 2048; Descriptor 0 8388608 1024; Descriptor 7 12582912 1024].
Definition sample_info : boot_info := BootInfo 8192 12288 144 sample_map.

Lemma sample_map_ok : map_ok sample_map.
Proof.
  unfold sample_map, map_ok, region_ok, overlap_free.
  cbn [PhysicalStart NumberOfPages]. unfold PAGE_SIZE, PHYS_MAP_LIMIT.
  repeat match goal with
  | |- _ /\ _ => split
  | |- True => exact I
  | |- Forall _ [] => constructor
  | |- Forall _ _ => apply Forall_cons_2; cbn [PhysicalStart NumberOfPages]
  end; first [lia|reflexivity].
Qed.

Lemma pmm_init_correct_witness :
  exists st, pmm_init true ∅ sample_info = Some st /\
    pmm_ok (usable_frame sample_map) st /\ total_frames st = 4096.
Proof.
  destruct (pmm_init_correct true ∅ sample_info 0 sample_map_ok) as (st & E & H & T & _);
    [reflexivity|reflexivity|cbn; lia..|].
  exists st. split; [exact E|]. split; [exact H|exact T].
Defined.

(** The bitmap size is rounded down: with twelve frames of RAM the first
    frame past the last full byte is already outside the bitmap. *)
Lemma pmm_init_overruns_bitmap :
  pmm_init true ∅ (BootInfo 0 0 0 [Descriptor 7 0 12]) = None.
Proof. vm_compute. reflexivity. Qed.

(** Boot-services memory is accepted as usable before it could be counted. *)
Lemma boot_services_never_counted st ds st' :
  release_regions st ds = Some st' -> boot_services_frames st' = boot_services_frames st.
Proof.
  assert (Hr : forall n st f st', release_region st f n = Some st' ->
    boot_services_frames st' = boot_services_frames st).
  { intros n. induction n as [|n IH]; intros s1 f s2; cbn; [by intros [= <-]|].
    destruct (bitmap_clear _ _); cbn; [|done]. by intros ->%IH. }
  revert st. induction ds as [|d ds IH]; intros st; cbn; [by intros [= <-]|].
  unfold release_one. destruct (pmm_is_usable_memory (Type_ d)) eqn:Eu.
  - destruct (release_region _ _ _) eqn:E; cbn; [|done]. intros ->%IH. by eapply Hr.
  - unfold pmm_is_usable_memory in Eu. replace ((Type_ d =? 3) || _) with false by lia.
    cbn. apply IH.
Qed.

End Pmm.
