(* ===== verification/Checksum.v ===== *)
(** The Internet checksum ([kernel/src/net/checksum.c]) and the big-endian
    16-bit accessors that every protocol file of [kernel/src/net] defines for
    itself ([*_read_be16], [*_write_be16]). *)
From S2P Require Import Prelude.

Module Checksum.

(** Buffers are byte lists. *)
Definition bytes (l : list Z) : Prop := Forall is_u8 l.

Definition read_be16 (p : list Z) : Z :=
  u16 (Z.lor (Z.shiftl (p !!! 0%nat) 8) (p !!! 1%nat)).
Definition write_be16 (v : Z) : list Z := [u8 (Z.shiftr v 8); u8 v].

(** The first loop of [net_checksum] and the odd trailing byte. *)
Fixpoint sum_words (data : list Z) (sum : Z) : Z :=
  match data with
  | a :: b :: data =>
      let sum := u32 (sum + Z.lor (Z.shiftl a 8) b) in
      sum_words data (u32 (Z.land sum 0xFFFF + Z.shiftr sum 16))
  | [a] => u32 (sum + Z.shiftl a 8)
  | [] => sum
  end.

(** [while (sum >> 16) sum = (sum & 0xFFFF) + (sum >> 16)]; a 32-bit value is
    below [2^16] after at most two rounds. *)
Fixpoint fold_carries (rounds : nat) (sum : Z) : Z :=
  match rounds with
  | O => sum
  | S rounds =>
      if decide (Z.shiftr sum 16 <> 0)
      then fold_carries rounds (u32 (Z.land sum 0xFFFF + Z.shiftr sum 16))
      else sum
  end.

(** [data] is [None] for a null pointer; [length] is the length of the list. *)
Definition net_checksum (data : option (list Z)) : Z :=
  match data with
  | None => 0
  | Some data => u16 (Z.lnot (fold_carries 3 (sum_words data 0)))
  end.

Definition net_checksum_valid (data : option (list Z)) : bool :=
  match data with
  | None => false
  | Some _ => net_checksum data =? 0
  end.

(** * Lemmas *)

Lemma bytes_app a b : bytes (a ++ b) <-> bytes a /\ bytes b.
Proof. apply Forall_app. Qed.

Lemma word_join a b : 0 <= b < 256 -> Z.lor (Z.shiftl a 8) b = a * 256 + b.
Proof. intros H. rewrite lor_shiftl_add; [done|lia|done]. Qed.

Lemma read_write_be16 v rest : is_u16 v -> read_be16 (write_be16 v ++ rest) = v.
Proof.
  intros H. unfold read_be16, write_be16. cbn. pose proof (u8_range v) as Hr.
  rewrite word_join by exact Hr. rewrite Z.shiftr_div_pow2 by lia. change (2 ^ 8) with 256.
  mach.
Qed.

Lemma write_be16_bytes v : bytes (write_be16 v).
Proof. repeat constructor; apply u8_range. Qed.

(** The plain sum of the big-endian words; an odd last byte is a high byte. *)
Fixpoint word_sum (data : list Z) : Z :=
  match data with
  | a :: b :: data => a * 256 + b + word_sum data
  | [a] => a * 256
  | [] => 0
  end.

(** Induction two bytes at a time. *)
Lemma pair_ind (P : list Z -> Prop) :
  P [] -> (forall a, P [a]) -> (forall a b l, P l -> P (a :: b :: l)) -> forall l, P l.
Proof.
  intros H0 H1 H2 l. enough (P l /\ forall a, P (a :: l)) by tauto.
  induction l as [|b l [IH1 IH2]]; auto.
Qed.

Lemma word_sum_nonneg l : bytes l -> 0 <= word_sum l.
Proof.
  induction l as [|a|a b l IH] using pair_ind; cbn; [lia| |].
  - intros [H _]%Forall_cons_1. mach.
  - intros [H [H' Hl]%Forall_cons_1]%Forall_cons_1. apply IH in Hl. mach.
Qed.

Lemma word_sum_app a b :
  (length a mod 2 = 0)%nat -> word_sum (a ++ b) = word_sum a + word_sum b.
Proof.
  induction a as [|x|x y a IH] using pair_ind; [done|done|].
  intros H. cbn. rewrite IH; [lia|]. simpl length in H.
  rewrite <- (Nat.Div0.mod_add (length a) 1 2). by rewrite Nat.add_comm.
Qed.

Lemma carry_step s : 0 <= s -> Z.land s 0xFFFF + Z.shiftr s 16 = s mod 65536 + s / 65536.
Proof. intros H. change 0xFFFF with (Z.ones 16). by rewrite Z.land_ones, Z.shiftr_div_pow2. Qed.

(** Folding keeps the residue modulo [2^16 - 1] and keeps non-zero values
    non-zero. *)
Definition same_residue (x s : Z) : Prop :=
  x mod 65535 = s mod 65535 /\ (x = 0 <-> s = 0).

Lemma carry_residue s : 0 <= s < 2 ^ 32 -> same_residue (s mod 65536 + s / 65536) s.
Proof. intros H. unfold same_residue. mach. Qed.

Lemma sum_words_residue data sum :
  bytes data -> 0 <= sum <= 0x1FFFF ->
  0 <= sum_words data sum <= 0x3FFFF /\ same_residue (sum_words data sum) (sum + word_sum data).
Proof.
  revert sum. induction data as [|a|a b data IH] using pair_ind; intros sum Hb Hs; cbn.
  - unfold same_residue. rewrite Z.add_0_r. lia.
  - apply Forall_cons_1 in Hb as [Ha _]. rewrite Z.shiftl_mul_pow2 by lia.
    change (2 ^ 8) with 256. rewrite u32_id by mach. unfold same_residue. mach.
  - apply Forall_cons_1 in Hb as [Ha [Hb Hd]%Forall_cons_1]. rewrite word_join by done.
    rewrite (u32_id (sum + _)) by mach. rewrite carry_step by mach.
    set (s := sum + (a * 256 + b)). assert (Hs' : 0 <= s < 2 ^ 18) by (unfold s; mach).
    rewrite u32_id by mach.
    destruct (IH (s mod 65536 + s / 65536) Hd) as [B [R1 R2]]; [mach|]. split; [done|].
    pose proof (carry_residue s ltac:(lia)) as [C1 C2]. pose proof (word_sum_nonneg data Hd).
    unfold same_residue. split.
    + rewrite R1, Z.add_mod, C1, <- Z.add_mod by lia. f_equal. lia.
    + rewrite R2. mach.
Qed.

Lemma fold_carries_residue s :
  0 <= s <= 0x3FFFF -> 0 <= fold_carries 3 s < 65536 /\ same_residue (fold_carries 3 s) s.
Proof.
  intros Hs. cbn. unfold same_residue.
  assert (Hd : forall x, 0 <= x -> Z.shiftr x 16 = x / 65536)
    by (intros; by rewrite Z.shiftr_div_pow2 by lia).
  case_decide as E1; rewrite Hd in E1 by lia; [|mach].
  rewrite carry_step, (u32_id (s mod 65536 + s / 65536)) by mach.
  set (t := s mod 65536 + s / 65536). assert (Ht : 0 <= t <= 65538) by (unfold t; mach).
  pose proof (carry_residue s ltac:(lia)) as [C1 C2]. fold t in C1, C2.
  case_decide as E2; rewrite Hd in E2 by lia; [|clearbody t; mach].
  rewrite carry_step, (u32_id (t mod 65536 + t / 65536)) by mach.
  set (w := t mod 65536 + t / 65536). assert (Hw : 0 <= w <= 3) by (unfold w; clearbody t; mach).
  pose proof (carry_residue t ltac:(lia)) as [D1 D2]. fold w in D1, D2.
  rewrite decide_False by (rewrite Hd by lia; mach). lia.
Qed.

(** The ones' complement sum of a buffer. *)
Definition ones_sum (data : list Z) : Z := fold_carries 3 (sum_words data 0).

Lemma ones_sum_spec data :
  bytes data ->
  0 <= ones_sum data < 65536 /\ ones_sum data mod 65535 = word_sum data mod 65535 /\
  (ones_sum data = 0 <-> word_sum data = 0).
Proof.
  intros Hb. destruct (sum_words_residue data 0 Hb) as [B [R1 R2]]; [lia|].
  destruct (fold_carries_residue _ B) as [F [S1 S2]]. unfold ones_sum. rewrite Z.add_0_l in *.
  split; [done|]. split; [congruence|]. by rewrite S2.
Qed.

Lemma net_checksum_eq data :
  bytes data -> net_checksum (Some data) = 65535 - ones_sum data.
Proof.
  intros Hb. destruct (ones_sum_spec data Hb) as [B _]. unfold net_checksum. fold (ones_sum data).
  unfold Z.lnot. mach.
Qed.

Lemma net_checksum_u16 data : is_u16 (net_checksum (Some data)).
Proof. apply u16_range. Qed.

Lemma checksum_valid_iff data :
  bytes data ->
  net_checksum_valid (Some data) = true <-> 0 < word_sum data /\ word_sum data mod 65535 = 0.
Proof.
  intros Hb. unfold net_checksum_valid. rewrite Z.eqb_eq, net_checksum_eq by done.
  destruct (ones_sum_spec data Hb) as (B & R & Z0). pose proof (word_sum_nonneg data Hb). mach.
Qed.

Lemma write_be16_word v : is_u16 v -> word_sum (write_be16 v) = v.
Proof.
  intros H. cbn. rewrite Z.shiftr_div_pow2 by lia. change (2 ^ 8) with 256. mach.
Qed.

(** A buffer with its checksum stored in a zeroed, aligned field. *)
Lemma checksum_field_valid pre post :
  bytes pre -> bytes post -> (length pre mod 2 = 0)%nat ->
  net_checksum_valid
    (Some (pre ++ write_be16 (net_checksum (Some (pre ++ [0; 0] ++ post))) ++ post)) = true.
Proof.
  intros Hp Hq Hev. set (c := net_checksum _). assert (Hc : is_u16 c) by apply net_checksum_u16.
  assert (Hz : bytes (pre ++ [0; 0] ++ post))
    by (rewrite !bytes_app; split; [done|split; [by repeat constructor|done]]).
  apply checksum_valid_iff.
  { rewrite !bytes_app. split; [done|]. split; [apply write_be16_bytes|done]. }
  rewrite word_sum_app by done. rewrite (word_sum_app (write_be16 c)), write_be16_word by done.
  assert (E : word_sum (pre ++ [0; 0] ++ post) = word_sum pre + word_sum post).
  { rewrite word_sum_app by done. cbn. lia. }
  assert (Ec : c = 65535 - ones_sum (pre ++ [0; 0] ++ post)) by by apply net_checksum_eq.
  destruct (ones_sum_spec _ Hz) as (B & R & Z0). rewrite E in *.
  pose proof (word_sum_nonneg pre Hp). pose proof (word_sum_nonneg post Hq). mach.
Qed.

(** * Theorem *)

(** Storing the computed checksum in a zeroed, 16-bit aligned field makes
    the buffer verify, and a buffer that verifies no longer does after any
    single 16-bit word is changed to one of a different residue modulo
    [2^16 - 1]. *)
Theorem checksum_sound_and_detects (pre post : list Z) (w w' : Z) :
  bytes pre -> bytes post -> (length pre mod 2 = 0)%nat -> is_u16 w -> is_u16 w' ->
  w mod 65535 <> w' mod 65535 ->
  net_checksum_valid
    (Some (pre ++ write_be16 (net_checksum (Some (pre ++ [0; 0] ++ post))) ++ post)) = true /\
  (net_checksum_valid (Some (pre ++ write_be16 w ++ post)) = true ->
   net_checksum_valid (Some (pre ++ write_be16 w' ++ post)) = false).
Proof.
  intros Hp Hq Hev Hw Hw' Hne. split; [by apply checksum_field_valid|].
  assert (Hs : forall v, is_u16 v -> bytes (pre ++ write_be16 v ++ post) /\
    word_sum (pre ++ write_be16 v ++ post) = word_sum pre + v + word_sum post).
  { intros v Hv. split.
    - rewrite !bytes_app. split; [done|]. split; [apply write_be16_bytes|done].
    - rewrite word_sum_app by done.
      rewrite (word_sum_app (write_be16 v)), write_be16_word by done. lia. }
  destruct (Hs w Hw) as [B E]. destruct (Hs w' Hw') as [B' E'].
  rewrite checksum_valid_iff, E by done. intros [_ Hz]. apply not_true_iff_false.
  rewrite checksum_valid_iff, E' by done. intros [_ Hz']. apply Hne.
  mach.
Qed.

Lemma checksum_sound_and_detects_witness :
  net_checksum_valid
    (Some ([69; 0] ++ write_be16 (net_checksum (Some ([69; 0] ++ [0; 0] ++ [7])) ) ++ [7])) = true /\
  (net_checksum_valid (Some ([69; 0] ++ write_be16 1 ++ [7])) = true ->
   net_checksum_valid (Some ([69; 0] ++ write_be16 2 ++ [7])) = false).
Proof.
  apply (checksum_sound_and_detects [69; 0] [7] 1 2);
    try (by repeat constructor); unfold is_u16; try lia; reflexivity.
Defined.

End Checksum.
