(* ===== verification/NetConfig.v ===== *)
(** Network configuration ([kernel/src/net/config.c]): address and netmask
    handling, the persistent configuration file, and the DHCP lease timers.

    Text arguments are C strings (the list of bytes before the terminator, so
    the end of the list reads as NUL).  A parser's output parameter is only
    meaningful when it returns [true]; its result is therefore an option. *)
From Stdlib Require String.
From S2P Require Import Prelude CString ConfigParser.
Import CString ConfigParser.
Export (notations) String.

Module NetConfig.

(** Text literals. *)
Definition str (s : String.string) : list Z :=
  map (fun c => Z.of_N (Ascii.N_of_ascii c)) (String.list_ascii_of_string s).
Arguments str s%_string_scope.

Record net_ipv4_t := Ipv4 { o0 : Z; o1 : Z; o2 : Z; o3 : Z }.
#[export] Instance net_ipv4_eq_dec : EqDecision net_ipv4_t.
Proof. solve_decision. Defined.

Definition octets (a : net_ipv4_t) : list Z := [o0 a; o1 a; o2 a; o3 a].
Definition ipv4_ok (a : net_ipv4_t) : Prop := Forall is_u8 (octets a).
Definition zero_ip : net_ipv4_t := Ipv4 0 0 0 0.

Definition ipv4_zero (a : net_ipv4_t) : bool :=
  (o0 a =? 0) && (o1 a =? 0) && (o2 a =? 0) && (o3 a =? 0).

Definition net_ipv4_equal (l r : net_ipv4_t) : bool :=
  (o0 l =? o0 r) && (o1 l =? o1 r) && (o2 l =? o2 r) && (o3 l =? o3 r).

(** * Text *)

Definition is_digit (c : Z) : bool := (48 <=? c) && (c <=? 57).

(** The digit loop of [parse_ipv4]: value, digits read, rest. *)
Fixpoint octet_digits (text : list Z) (value digits : Z) : option (Z * Z * list Z) :=
  match text with
  | c :: rest =>
      if is_digit c then
        let value := u32 (value * 10 + (c - 48)) in
        let digits := digits + 1 in
        if (3 <? digits) || (255 <? value) then None else octet_digits rest value digits
      else Some (value, digits, text)
  | [] => Some (value, digits, [])
  end.
Definition parse_octet (text : list Z) : option (Z * list Z) :=
  match octet_digits text 0 0 with
  | Some (value, digits, rest) => if digits =? 0 then None else Some (u8 value, rest)
  | None => None
  end.
Definition parse_dot (text : list Z) : option (list Z) :=
  match text with c :: rest => if c =? 46 then Some rest else None | [] => None end.

Definition parse_ipv4 (text : list Z) : option net_ipv4_t :=
  '(a, text) ← parse_octet text; text ← parse_dot text;
  '(b, text) ← parse_octet text; text ← parse_dot text;
  '(c, text) ← parse_octet text; text ← parse_dot text;
  '(d, text) ← parse_octet text;
  match text with [] => Some (Ipv4 a b c d) | _ => None end.

Fixpoint prefix_digits (text : list Z) (value digits : Z) : option (Z * Z * list Z) :=
  match text with
  | c :: rest =>
      if is_digit c then
        let value := u32 (value * 10 + (c - 48)) in
        let digits := digits + 1 in
        if (2 <? digits) || (32 <? value) then None else prefix_digits rest value digits
      else Some (value, digits, text)
  | [] => Some (value, digits, [])
  end.
Definition parse_decimal_prefix (text : list Z) : option Z :=
  match prefix_digits text 0 0 with
  | Some (value, digits, []) => if digits =? 0 then None else Some (u8 value)
  | _ => None
  end.

Definition interface_name_valid (name : list Z) : bool :=
  match name with
  | [] => false
  | _ =>
      let check prefix_length :=
        (prefix_length <? strlen name) && (strlen name <? 16) &&
        forallb is_digit (drop (Z.to_nat prefix_length) name) in
      if strncmp name (str "eth") 3 =? 0 then check 3
      else if strncmp name (str "wifi") 4 =? 0 then check 4
      else false
  end.

(** The slash search of [parse_cidr]: the position of the only slash. *)
Fixpoint find_slash (text : list Z) (index slash : Z) : option Z :=
  match text with
  | [] => Some slash
  | c :: text =>
      if c =? 47 then
        if negb (slash =? 0) || (index =? 0) || (16 <=? index) then None
        else find_slash text (index + 1) index
      else find_slash text (index + 1) slash
  end.

Definition parse_cidr (text : list Z) : option (net_ipv4_t * Z) :=
  slash ← find_slash text 0 0;
  if (slash =? 0) || (strlen text <=? slash) || (4 <=? strlen text - slash - 1) || (16 <=? slash)
  then None
  else
    address ← parse_ipv4 (take (Z.to_nat slash) text);
    prefix ← parse_decimal_prefix (drop (Z.to_nat (slash + 1)) text);
    Some (address, prefix).

(** * Netmasks *)

(** One round of the loop of [netmask_from_prefix]: octet and bits left. *)
Definition mask_octet (prefix : Z) : Z * Z :=
  if 8 <=? prefix then (0xff, prefix - 8)
  else if negb (prefix =? 0) then (u8 (Z.shiftl 0xff (8 - prefix)), 0)
  else (0, prefix).
Definition netmask_from_prefix (prefix : Z) : net_ipv4_t :=
  let '(a, p) := mask_octet prefix in
  let '(b, p) := mask_octet p in
  let '(c, p) := mask_octet p in
  let '(d, p) := mask_octet p in
  Ipv4 a b c d.

(** [for (bit = 0x80; bit != 0; bit >>= 1)] *)
Definition bit_masks : list Z := [0x80; 0x40; 0x20; 0x10; 8; 4; 2; 1].

(** The bit loop of [prefix_from_netmask]; [None] is its early [return 0]. *)
Fixpoint prefix_bits (value : Z) (bits : list Z) (prefix : Z) (zero_seen : bool)
    : option (Z * bool) :=
  match bits with
  | [] => Some (prefix, zero_seen)
  | bit :: bits =>
      if negb (Z.land value bit =? 0) then
        if zero_seen then None else prefix_bits value bits (u8 (prefix + 1)) zero_seen
      else prefix_bits value bits prefix true
  end.
Fixpoint prefix_octets (os : list Z) (prefix : Z) (zero_seen : bool) : option (Z * bool) :=
  match os with
  | [] => Some (prefix, zero_seen)
  | o :: os => '(prefix, zero_seen) ← prefix_bits o bit_masks prefix zero_seen;
               prefix_octets os prefix zero_seen
  end.
Definition prefix_from_netmask (mask : net_ipv4_t) : Z :=
  match prefix_octets (octets mask) 0 false with Some (prefix, _) => prefix | None => 0 end.

Fixpoint valid_bits (value : Z) (bits : list Z) (zero_seen : bool) : option bool :=
  match bits with
  | [] => Some zero_seen
  | bit :: bits =>
      if negb (Z.land value bit =? 0) then
        if zero_seen then None else valid_bits value bits zero_seen
      else valid_bits value bits true
  end.
Fixpoint valid_octets (os : list Z) (zero_seen : bool) : bool :=
  match os with
  | [] => true
  | o :: os =>
      match valid_bits o bit_masks zero_seen with
      | Some zero_seen => valid_octets os zero_seen
      | None => false
      end
  end.
Definition netmask_valid (mask : net_ipv4_t) : bool := valid_octets (octets mask) false.

(** * The persistent configuration *)

Inductive net_config_mode_t := NET_CONFIG_MODE_NONE | NET_CONFIG_MODE_DHCP | NET_CONFIG_MODE_MANUAL.

Record net_persistent_config_t := Persistent {
  p_mode : net_config_mode_t;
  p_interface_name : list Z;
  p_address : net_ipv4_t;
  p_prefix_length : Z;
  p_gateway : net_ipv4_t;
  p_dns : net_ipv4_t;
}.

(** The strings [*reason] points to. *)
Inductive config_error :=
  | Invalid_syntax
  | No_mode
  | Invalid_interface
  | Invalid_mode
  | Invalid_manual
  | Not_readable.

Definition parse_manual (document : option kernel_config_document_t) (interface_name : list Z)
    : net_persistent_config_t + config_error :=
  let fields :=
    address ← kernel_config_find document (Some (str "address"));
    gateway ← kernel_config_find document (Some (str "gateway"));
    dns ← kernel_config_find document (Some (str "dns"));
    '(address, prefix) ← parse_cidr address;
    gateway ← parse_ipv4 gateway;
    dns ← parse_ipv4 dns;
    if ipv4_zero address || ipv4_zero gateway || ipv4_zero dns then None
    else Some (address, prefix, gateway, dns) in
  match fields with
  | Some (address, prefix, gateway, dns) =>
      inl (Persistent NET_CONFIG_MODE_MANUAL interface_name address prefix gateway dns)
  | None => inr Invalid_manual
  end.

Definition parse_persistent_config (text : list Z)
    : net_persistent_config_t + config_error :=
  match kernel_config_parse (Some text) (Some (Document [])) with
  | Some (true, document, _) =>
      match kernel_config_find document (Some (str "mode")) with
      | None => inr No_mode
      | Some mode =>
          let name := kernel_config_find document (Some (str "interface")) in
          let finish interface_name :=
            if strcmp mode (str "dhcp") =? 0 then
              inl (Persistent NET_CONFIG_MODE_DHCP interface_name zero_ip 0 zero_ip zero_ip)
            else if negb (strcmp mode (str "manual") =? 0) then inr Invalid_mode
            else parse_manual document interface_name in
          match name with
          | Some name =>
              if negb (interface_name_valid name) || (16 <=? strlen name)
              then inr Invalid_interface else finish name
          | None => finish []
          end
      end
  | _ => inr Invalid_syntax
  end.

(** What [read_config_text] found. *)
Inductive config_file := Missing | Unreadable | Text (text : list Z).

Definition net_config_load_persistent (file : config_file)
    : net_persistent_config_t + config_error :=
  match file with
  | Unreadable => inr Not_readable
  | Missing => inl (Persistent NET_CONFIG_MODE_DHCP [] zero_ip 0 zero_ip zero_ip)
  | Text text => parse_persistent_config text
  end.

(** * The active configuration *)

Inductive net_dhcp_state_t :=
  | NET_DHCP_STATE_NONE
  | NET_DHCP_STATE_ACQUIRING
  | NET_DHCP_STATE_BOUND
  | NET_DHCP_STATE_RENEWING
  | NET_DHCP_STATE_REBINDING.

#[export] Instance net_config_mode_eq_dec : EqDecision net_config_mode_t.
Proof. solve_decision. Defined.
#[export] Instance net_dhcp_state_eq_dec : EqDecision net_dhcp_state_t.
Proof. solve_decision. Defined.

Record net_config_t := Config {
  address : net_ipv4_t;
  netmask : net_ipv4_t;
  gateway : net_ipv4_t;
  dns : net_ipv4_t;
  dhcp_server : net_ipv4_t;
  lease_seconds : Z;
  prefix_length : Z;
  mode : net_config_mode_t;
  configured : bool;
  has_gateway : bool;
  has_dns : bool;
  dhcp_state : net_dhcp_state_t;
  renewal_seconds : Z;
  rebinding_seconds : Z;
  lease_acquired_ms : Z;
  renewal_deadline_ms : Z;
  rebinding_deadline_ms : Z;
  expiry_deadline_ms : Z;
  retry_deadline_ms : Z;
  retry_delay_ms : Z;
  interface_name : list Z;
}.

(** [net_config_init]: the zeroed configuration. *)
Definition net_config_init : net_config_t :=
  Config zero_ip zero_ip zero_ip zero_ip zero_ip 0 0 NET_CONFIG_MODE_NONE false false false
    NET_DHCP_STATE_NONE 0 0 0 0 0 0 0 0 [].

Definition dhcp_timing_normalize (lease renewal rebinding : Z) : option (Z * Z) :=
  if lease <? 3 then None
  else
    let renewal := if negb (renewal =? 0) then renewal else lease / 2 in
    let rebinding := if negb (rebinding =? 0) then rebinding else u32 (lease * 7 / 8) in
    let renewal := if renewal =? 0 then 1 else renewal in
    let rebinding := if rebinding <=? renewal then u32 (renewal + 1) else rebinding in
    let rebinding := if lease <=? rebinding then lease - 1 else rebinding in
    if (renewal =? 0) || (rebinding <=? renewal) || (lease <=? rebinding) then None
    else Some (renewal, rebinding).

Definition deadline_after (start seconds : Z) : option Z :=
  let duration := u64 (seconds * 1000) in
  if U64_MAX - duration <? start then None else Some (start + duration).

(** [remember_primary_interface]; [name] is the primary device's, if any. *)
Definition remember_primary_interface (name : option (list Z)) : list Z :=
  match name with Some name => bounded_copy 16 name | None => [] end.

Definition net_config_begin_dhcp (name : option (list Z)) : net_config_t :=
  Config zero_ip zero_ip zero_ip zero_ip zero_ip 0 0 NET_CONFIG_MODE_DHCP false false false
    NET_DHCP_STATE_ACQUIRING 0 0 0 0 0 0 0 0 (remember_primary_interface name).

(** Updates of the three deadlines, written in the order of the code. *)
Definition set_deadlines (c : net_config_t) (expiry renewal rebinding : Z) : net_config_t :=
  Config (address c) (netmask c) (gateway c) (dns c) (dhcp_server c) (lease_seconds c)
    (prefix_length c) (mode c) (configured c) (has_gateway c) (has_dns c) (dhcp_state c)
    (renewal_seconds c) (rebinding_seconds c) (lease_acquired_ms c) renewal rebinding expiry
    (retry_deadline_ms c) (retry_delay_ms c) (interface_name c).

(** Null pointers are [None]; [now] is the uptime, [name] the primary
    interface's. *)
Definition net_config_apply_dhcp (c : net_config_t) (now : Z) (name : option (list Z))
    (addr mask gw : option net_ipv4_t) (has_gw : bool) (dns_ : option net_ipv4_t)
    (has_dns_ : bool) (server : option net_ipv4_t) (lease renewal rebinding : Z)
    : bool * net_config_t :=
  match addr, mask, server with
  | Some addr, Some mask, Some server =>
      if ipv4_zero addr || negb (netmask_valid mask) then (false, c)
      else
        match dhcp_timing_normalize lease renewal rebinding with
        | None => (false, c)
        | Some (renewal, rebinding) =>
            match deadline_after now lease with
            | None => (false, c)
            | Some expiry =>
                let c := set_deadlines c expiry (renewal_deadline_ms c) (rebinding_deadline_ms c) in
                match deadline_after now renewal with
                | None => (false, c)
                | Some renew =>
                    let c := set_deadlines c expiry renew (rebinding_deadline_ms c) in
                    match deadline_after now rebinding with
                    | None => (false, c)
                    | Some rebind =>
                        (true, Config addr mask (default zero_ip gw) (default zero_ip dns_) server
                           lease (prefix_from_netmask mask) NET_CONFIG_MODE_DHCP true
                           (has_gw && bool_decide (is_Some gw))
                           (has_dns_ && bool_decide (is_Some dns_))
                           NET_DHCP_STATE_BOUND renewal rebinding now renew rebind expiry
                           renew 1000 (remember_primary_interface name))
                    end
                end
            end
        end
  | _, _, _ => (false, c)
  end.

Definition set_retry (c : net_config_t) (st : net_dhcp_state_t) (delay retry : Z) : net_config_t :=
  Config (address c) (netmask c) (gateway c) (dns c) (dhcp_server c) (lease_seconds c)
    (prefix_length c) (mode c) (configured c) (has_gateway c) (has_dns c) st
    (renewal_seconds c) (rebinding_seconds c) (lease_acquired_ms c) (renewal_deadline_ms c)
    (rebinding_deadline_ms c) (expiry_deadline_ms c) retry delay (interface_name c).

(** [now + delay], saturating. *)
Definition retry_at (now delay : Z) : Z :=
  if U64_MAX - delay <? now then U64_MAX else now + delay.

Definition net_config_mark_dhcp_attempt (c : net_config_t) (now : Z) (rebinding : bool)
    : net_config_t :=
  if negb (bool_decide (mode c = NET_CONFIG_MODE_DHCP)) || negb (configured c) then c
  else
    let next_state := if rebinding then NET_DHCP_STATE_REBINDING else NET_DHCP_STATE_RENEWING in
    let '(st, delay) :=
      if decide (dhcp_state c <> next_state) then (next_state, 1000)
      else if retry_delay_ms c =? 0 then (dhcp_state c, 1000)
      else (dhcp_state c, retry_delay_ms c) in
    set_retry c st delay (retry_at now delay).

Definition net_config_mark_dhcp_failure (c : net_config_t) (now : Z) : net_config_t :=
  if negb (bool_decide (mode c = NET_CONFIG_MODE_DHCP)) || negb (configured c) ||
     (negb (bool_decide (dhcp_state c = NET_DHCP_STATE_RENEWING)) &&
      negb (bool_decide (dhcp_state c = NET_DHCP_STATE_REBINDING))) then c
  else
    let delay :=
      if retry_delay_ms c <? 4000 then
        let d := u32 (retry_delay_ms c * 2) in if 4000 <? d then 4000 else d
      else retry_delay_ms c in
    let limit :=
      if bool_decide (dhcp_state c = NET_DHCP_STATE_RENEWING) then rebinding_deadline_ms c
      else expiry_deadline_ms c in
    let retry := retry_at now delay in
    set_retry c (dhcp_state c) delay (if retry <? limit then retry else limit).

Definition net_config_apply_manual (c : net_config_t) (name : option (list Z))
    (addr : option net_ipv4_t) (prefix : Z) (gw dns_ : option net_ipv4_t)
    : bool * net_config_t :=
  match addr, gw, dns_ with
  | Some addr, Some gw, Some dns_ =>
      if (32 <? prefix) || ipv4_zero addr || ipv4_zero gw || ipv4_zero dns_ then (false, c)
      else (true, Config addr (netmask_from_prefix prefix) gw dns_ zero_ip 0 prefix
                    NET_CONFIG_MODE_MANUAL true true true NET_DHCP_STATE_NONE 0 0 0 0 0 0 0 0
                    (remember_primary_interface name))
  | _, _, _ => (false, c)
  end.

Definition net_network_configured (c : net_config_t) : bool := configured c.
Definition net_local_ipv4 (c : net_config_t) : net_ipv4_t := address c.
Definition net_gateway_ipv4 (c : net_config_t) : net_ipv4_t := gateway c.
Definition net_netmask_ipv4 (c : net_config_t) : net_ipv4_t := netmask c.

(** * Lemmas *)

(** ** Dotted decimal *)

Definition dec (n : Z) : list Z :=
  if n <? 10 then [48 + n]
  else if n <? 100 then [48 + n / 10; 48 + n mod 10]
  else [48 + n / 100; 48 + (n / 10) mod 10; 48 + n mod 10].
Definition print_ipv4 (a : net_ipv4_t) : list Z :=
  dec (o0 a) ++ 46 :: dec (o1 a) ++ 46 :: dec (o2 a) ++ 46 :: dec (o3 a).

Definition no_digit_next (rest : list Z) : Prop :=
  match rest with [] => True | c :: _ => is_digit c = false end.

Lemma octet_digits_step c rest v d :
  is_digit c = true -> 0 <= v <= 99 -> v * 10 + (c - 48) <= 255 -> d < 3 ->
  octet_digits (c :: rest) v d = octet_digits rest (v * 10 + (c - 48)) (d + 1).
Proof.
  intros Hc Hv Hle Hd. cbn. rewrite Hc. unfold is_digit in Hc. rewrite u32_id by mach.
  replace ((3 <? d + 1) || _) with false by lia. done.
Qed.
Lemma octet_digits_stop rest v d :
  no_digit_next rest -> octet_digits rest v d = Some (v, d, rest).
Proof. destruct rest as [|c rest]; cbn; [done|]. by intros ->. Qed.

Lemma parse_octet_dec n rest :
  is_u8 n -> no_digit_next rest -> parse_octet (dec n ++ rest) = Some (n, rest).
Proof.
  intros Hn Hr. unfold parse_octet, dec.
  assert (Hf : forall d, octet_digits rest n d = Some (n, d, rest))
    by (intros; by apply octet_digits_stop).
  destruct (Z.ltb_spec n 10); [|destruct (Z.ltb_spec n 100)]; cbn [app];
    rewrite !octet_digits_step by (unfold is_digit; mach);
    match goal with |- context [octet_digits rest ?v ?d] => replace v with n by mach end;
    rewrite octet_digits_stop by done; cbn; by rewrite u8_id.
Qed.

Lemma parse_ipv4_print a : ipv4_ok a -> parse_ipv4 (print_ipv4 a) = Some a.
Proof.
  destruct a as [a b c d]. unfold ipv4_ok. cbn. intros H.
  apply Forall_cons_1 in H as [Ha H]. apply Forall_cons_1 in H as [Hb H].
  apply Forall_cons_1 in H as [Hc H]. apply Forall_cons_1 in H as [Hd _].
  unfold parse_ipv4, print_ipv4. cbn [o0 o1 o2 o3].
  rewrite parse_octet_dec by done. cbn. rewrite parse_octet_dec by done. cbn.
  rewrite parse_octet_dec by done. cbn.
  rewrite <- (app_nil_r (dec d)), parse_octet_dec by done. done.
Qed.

(** What is parsed is an address: the octets are bytes. *)
Lemma parse_octet_range text n rest : parse_octet text = Some (n, rest) -> is_u8 n.
Proof.
  unfold parse_octet. destruct (octet_digits text 0 0) as [[[v d] r]|]; [|done].
  case_match; [done|]. intros. simplify_eq. apply u8_range.
Qed.

(** ** Netmasks *)

Lemma netmask_prefix_table :
  forallb (fun p => (prefix_from_netmask (netmask_from_prefix p) =? p) &&
                    netmask_valid (netmask_from_prefix p)) (seqZ 0 33) = true.
Proof. vm_compute. reflexivity. Qed.

(** The octets that may follow a zero bit, and those that may not. *)
Definition partial_octets : list Z := [0; 128; 192; 224; 240; 248; 252; 254].

Lemma valid_bits_first o :
  is_u8 o -> match valid_bits o bit_masks false with
             | Some false => o = 255
             | Some true => existsb (Z.eqb o) partial_octets = true
             | None => True
             end.
Proof.
  intros Ho.
  pose proof (byte_forall (fun o => match valid_bits o bit_masks false with
    | Some false => o =? 255 | Some true => existsb (Z.eqb o) partial_octets | None => true end)
    ltac:(vm_compute; reflexivity) o Ho) as H. cbv beta in H.
  destruct (valid_bits o bit_masks false) as [[]|]; [done|lia|done].
Qed.
Lemma valid_bits_rest o b :
  is_u8 o -> valid_bits o bit_masks true = Some b -> o = 0 /\ b = true.
Proof.
  intros Ho.
  pose proof (byte_forall (fun o => match valid_bits o bit_masks true with
    | Some b => (o =? 0) && b | None => true end) ltac:(vm_compute; reflexivity) o Ho) as H.
  cbv beta in H. destruct (valid_bits o bit_masks true) as [c|]; [|done].
  intros [= <-]. apply andb_true_iff in H as [H ->]. split; [lia|done].
Qed.

Lemma valid_octets_zero os : Forall is_u8 os -> valid_octets os true = true -> Forall (eq 0) os.
Proof.
  induction 1 as [|o os Ho _ IH]; cbn [valid_octets]; [constructor|].
  destruct (valid_bits o bit_masks true) as [b|] eqn:E; [|done].
  destruct (valid_bits_rest o b Ho E) as [-> ->]. intros H. constructor; auto.
Qed.

(** A contiguous mask is all ones, then one partial octet, then zeros. *)
Lemma valid_octets_shape os :
  Forall is_u8 os -> valid_octets os false = true ->
  os = replicate (length os) 255 \/
  exists n k, existsb (Z.eqb k) partial_octets = true /\ os = replicate n 255 ++ k :: replicate (length os - S n) 0.
Proof.
  induction 1 as [|o os Ho Hos IH]; cbn [valid_octets]; [by left|].
  pose proof (valid_bits_first o Ho) as Hf.
  destruct (valid_bits o bit_masks false) as [[]|]; [..|done].
  - intros H. right. exists 0%nat, o. split; [done|]. cbn. f_equal. rewrite Nat.sub_0_r.
    apply valid_octets_zero in H; [|done]. clear -H.
    induction H as [|x os <- _ IH]; cbn; [done|]. by rewrite <- IH.
  - subst o. intros [->|(n & k & Hk & E)]%IH; [left|right].
    + cbn. by rewrite length_replicate.
    + exists (S n), k. split; [done|]. cbn [replicate app length]. rewrite E at 1.
      f_equal.
Qed.

Lemma netmask_from_prefix_from_netmask m :
  ipv4_ok m -> netmask_valid m = true -> netmask_from_prefix (prefix_from_netmask m) = m.
Proof.
  intros Hok Hv. destruct (valid_octets_shape _ Hok Hv) as [E|(n & k & Hk & E)].
  - destruct m. injection E as -> -> -> ->. vm_compute. reflexivity.
  - assert (n < 4)%nat as Hn.
    { apply (f_equal length) in E. rewrite length_app, length_cons, !length_replicate in E.
      change (length (octets m)) with 4%nat in E. lia. }
    apply existsb_exists in Hk as (x & Hk & <-%Z.eqb_eq).
    destruct m as [a b c d]. do 4 (destruct n as [|n]; [cbn in E; injection E as -> -> -> ->;
      cbn in Hk; destruct_or? Hk; try done; subst k; vm_compute; reflexivity|]). lia.
Qed.

(** ** Lease timers *)

Lemma dhcp_timing_ordered lease renewal rebinding r b :
  dhcp_timing_normalize lease renewal rebinding = Some (r, b) ->
  is_u32 lease -> is_u32 renewal -> 0 < r < b /\ b < lease.
Proof.
  unfold dhcp_timing_normalize. intros H Hl Hr. destruct (lease <? 3); [done|].
  destruct ((_ =? 0) || _ || _) eqn:E; [done|]. simplify_eq.
  assert (0 <= (if (if negb (renewal =? 0) then renewal else lease / 2) =? 0 then 1
    else if negb (renewal =? 0) then renewal else lease / 2)).
  { repeat case_match; mach. }
  lia.
Qed.

Lemma deadline_after_some start seconds d :
  deadline_after start seconds = Some d -> is_u32 seconds ->
  d = start + seconds * 1000 /\ d <= U64_MAX.
Proof.
  unfold deadline_after. intros H Hs. rewrite u64_id in H by mach.
  destruct (U64_MAX - seconds * 1000 <? start) eqn:E; [done|]. simplify_eq. lia.
Qed.
Lemma deadline_after_mono start s1 s2 d :
  deadline_after start s1 = Some d -> is_u32 s1 -> 0 <= s2 <= s1 ->
  deadline_after start s2 = Some (start + s2 * 1000).
Proof.
  intros H Hs Hle. apply deadline_after_some in H as [-> Hd]; [|done]. unfold deadline_after.
  rewrite u64_id by mach. by replace (U64_MAX - s2 * 1000 <? start) with false by lia.
Qed.

(** A configuration that holds a DHCP lease. *)
Definition leased (c : net_config_t) : Prop :=
  mode c = NET_CONFIG_MODE_DHCP /\ configured c = true.

Record lease_ok (c : net_config_t) : Prop := {
  lo_order : lease_acquired_ms c < renewal_deadline_ms c /\
    renewal_deadline_ms c < rebinding_deadline_ms c /\
    rebinding_deadline_ms c < expiry_deadline_ms c /\ expiry_deadline_ms c <= U64_MAX;
  lo_delay : 1000 <= retry_delay_ms c <= 4000;
  lo_state : dhcp_state c = NET_DHCP_STATE_BOUND \/ dhcp_state c = NET_DHCP_STATE_RENEWING \/
    dhcp_state c = NET_DHCP_STATE_REBINDING;
  lo_mask : netmask_valid (netmask c) = true /\ ipv4_zero (address c) = false;
}.

(** The events that change the configuration. *)
Inductive config_event :=
  | Begin_dhcp (name : option (list Z))
  | Apply_dhcp (now : Z) (name : option (list Z)) (addr mask gw : option net_ipv4_t)
      (has_gw : bool) (dns_ : option net_ipv4_t) (has_dns_ : bool) (server : option net_ipv4_t)
      (lease renewal rebinding : Z)
  | Attempt (now : Z) (rebinding : bool)
  | Failure (now : Z)
  | Apply_manual (name : option (list Z)) (addr : option net_ipv4_t) (prefix : Z)
      (gw dns_ : option net_ipv4_t)
  | Reinit.

Definition config_step (c : net_config_t) (e : config_event) : net_config_t :=
  match e with
  | Begin_dhcp name => net_config_begin_dhcp name
  | Apply_dhcp now name addr mask gw hg d hd server lease renewal rebinding =>
      (net_config_apply_dhcp c now name addr mask gw hg d hd server lease renewal rebinding).2
  | Attempt now rebinding => net_config_mark_dhcp_attempt c now rebinding
  | Failure now => net_config_mark_dhcp_failure c now
  | Apply_manual name addr prefix gw d => (net_config_apply_manual c name addr prefix gw d).2
  | Reinit => net_config_init
  end.

(** The argument types of the C functions. *)
Definition event_typed (e : config_event) : Prop :=
  match e with
  | Apply_dhcp now _ _ _ _ _ _ _ _ lease renewal rebinding =>
      is_u64 now /\ is_u32 lease /\ is_u32 renewal /\ is_u32 rebinding
  | Attempt now _ | Failure now => is_u64 now
  | _ => True
  end.

(** A rejected lease leaves the configuration unchanged; an accepted one is
    in force with ordered deadlines. *)
Lemma apply_dhcp_cases c now name addr mask gw hg d hd server lease renewal rebinding b c' :
  net_config_apply_dhcp c now name addr mask gw hg d hd server lease renewal rebinding = (b, c') ->
  is_u64 now -> is_u32 lease -> is_u32 renewal ->
  (b = false /\ c' = c) \/ (b = true /\ leased c' /\ lease_ok c' /\ addr = Some (address c') /\
    lease_acquired_ms c' = now /\ expiry_deadline_ms c' = now + lease * 1000 /\
    retry_deadline_ms c' = renewal_deadline_ms c').
Proof.
  intros H Hnow Hl Hr. unfold net_config_apply_dhcp in H.
  destruct addr as [addr|], mask as [mask|], server as [server|]; try (left; by simplify_eq).
  destruct (_ || _) eqn:E0; [left; by simplify_eq|].
  destruct (dhcp_timing_normalize lease renewal rebinding) as [[r rb]|] eqn:En;
    [|left; by simplify_eq].
  apply dhcp_timing_ordered in En as [Hord Hlt]; [|done..].
  destruct (deadline_after now lease) as [e|] eqn:Ee; [|left; by simplify_eq].
  rewrite (deadline_after_mono _ _ r _ Ee) in H by (done || lia).
  rewrite (deadline_after_mono _ _ rb _ Ee) in H by (done || lia).
  apply deadline_after_some in Ee as [-> Hmax]; [|done]. right. simplify_eq.
  split; [done|]. split; [done|]. split; [|done].
  constructor; cbn; [lia|lia|by left|]. apply orb_false_iff in E0 as [? ?%negb_false_iff]. done.
Qed.

Lemma set_retry_ok c st delay retry :
  lease_ok c -> 1000 <= delay <= 4000 ->
  st = NET_DHCP_STATE_BOUND \/ st = NET_DHCP_STATE_RENEWING \/ st = NET_DHCP_STATE_REBINDING ->
  lease_ok (set_retry c st delay retry).
Proof. intros [H1 H2 H3 H4] Hd Hs. by constructor. Qed.

Lemma attempt_ok c now rb :
  lease_ok c -> lease_ok (net_config_mark_dhcp_attempt c now rb).
Proof.
  intros H. unfold net_config_mark_dhcp_attempt. destruct (negb _ || _); [done|].
  pose proof (lo_delay _ H). pose proof (lo_state _ H). cbv zeta.
  destruct (decide (dhcp_state c <> _)); [|destruct (Z.eqb_spec (retry_delay_ms c) 0); [lia|]];
    apply set_retry_ok; try done; try lia. destruct rb; auto.
Qed.
Lemma failure_ok c now :
  lease_ok c -> lease_ok (net_config_mark_dhcp_failure c now).
Proof.
  intros H. unfold net_config_mark_dhcp_failure. destruct (_ || _); [done|].
  pose proof (lo_delay _ H). pose proof (lo_state _ H). apply set_retry_ok; [done| |done].
  destruct (Z.ltb_spec (retry_delay_ms c) 4000); [|lia]. rewrite u32_id by mach.
  destruct (Z.ltb_spec 4000 (retry_delay_ms c * 2)); lia.
Qed.

Lemma attempt_leased c now rb : leased (net_config_mark_dhcp_attempt c now rb) -> leased c.
Proof.
  unfold net_config_mark_dhcp_attempt. destruct (negb _ || _); [done|]. cbv zeta.
  destruct (decide (dhcp_state c <> _)); [done|]. by destruct (_ =? _).
Qed.
Lemma failure_leased c now : leased (net_config_mark_dhcp_failure c now) -> leased c.
Proof. unfold net_config_mark_dhcp_failure. by destruct (_ || _). Qed.

Lemma config_step_ok c e :
  (leased c -> lease_ok c) -> event_typed e -> leased (config_step c e) -> lease_ok (config_step c e).
Proof.
  intros Hc He. destruct e as [name|now name addr mask gw hg d hd server lease renewal rebinding
    |now rb|now|name addr prefix gw d|]; cbn [config_step].
  - by intros [_ ?].
  - destruct He as (H1 & H2 & H3 & _).
    destruct (net_config_apply_dhcp _ _ _ _ _ _ _ _ _ _ _ _ _) as [b c'] eqn:E. cbn.
    apply apply_dhcp_cases in E as [[-> ->]|(_ & _ & H & _)]; auto.
  - intros H%attempt_leased. by apply attempt_ok, Hc.
  - intros H%failure_leased. by apply failure_ok, Hc.
  - unfold net_config_apply_manual. repeat case_match; cbn; try done. by intros [? _].
  - by intros [? _].
Qed.

(** ** The configuration file *)

Definition cidr_text (a : net_ipv4_t) (prefix : Z) : list Z := print_ipv4 a ++ 47 :: dec prefix.

(** A configuration file for a static address. *)
Definition setting (k v : list Z) : config_line := Setting true [] k [] [] v [] None.
Definition manual_file (name : list Z) (a : net_ipv4_t) (prefix : Z) (gw d : net_ipv4_t)
    : list config_line :=
  [setting (str "interface") name; setting (str "mode") (str "manual");
   setting (str "address") (cidr_text a prefix); setting (str "gateway") (print_ipv4 gw);
   setting (str "dns") (print_ipv4 d)].

Definition dec_char (c : Z) : Prop := 48 <= c <= 57.

Lemma dec_chars n : is_u8 n -> Forall dec_char (dec n) /\ (1 <= length (dec n) <= 3)%nat.
Proof.
  intros Hn. unfold dec, dec_char. destruct (Z.ltb_spec n 10); [|destruct (Z.ltb_spec n 100)];
    (split; [repeat constructor; mach|cbn; lia]).
Qed.

Definition ip_char (c : Z) : Prop := 46 = c \/ dec_char c.
Lemma print_ipv4_chars a :
  ipv4_ok a -> Forall ip_char (print_ipv4 a) /\ (7 <= length (print_ipv4 a) <= 15)%nat.
Proof.
  destruct a as [a b c d]. unfold ipv4_ok, print_ipv4. cbn. intros H.
  apply Forall_cons_1 in H as [Ha H]. apply Forall_cons_1 in H as [Hb H].
  apply Forall_cons_1 in H as [Hc H]. apply Forall_cons_1 in H as [Hd _].
  apply dec_chars in Ha as [Fa La], Hb as [Fb Lb], Hc as [Fc Lc], Hd as [Fd Ld].
  cbn [o0 o1 o2 o3] in *.
  assert (Hi : forall l, Forall dec_char l -> Forall ip_char l)
    by (intros l Hl; eapply Forall_impl; [exact Hl|]; by right).
  split.
  - apply Forall_app; split; [auto|]. constructor; [by left|].
    apply Forall_app; split; [auto|]. constructor; [by left|].
    apply Forall_app; split; [auto|]. constructor; [by left|]. auto.
  - repeat (rewrite length_app || rewrite length_cons). lia.
Qed.

Lemma find_slash_app s rest i :
  Forall ip_char s -> 0 <= i -> 0 < i + Z.of_nat (length s) < 16 -> Forall dec_char rest ->
  find_slash (s ++ 47 :: rest) i 0 = Some (i + Z.of_nat (length s)).
Proof.
  intros Hs Hi Hl Hr. revert i Hi Hl. induction Hs as [|c s Hc _ IH]; intros i Hi Hl; cbn [app].
  - cbn in Hl |- *. replace ((i =? 0) || (16 <=? i)) with false by lia. rewrite Z.add_0_r.
    assert (Hf : forall j, find_slash rest j i = Some i); [|apply Hf].
    induction Hr as [|c rest Hc _ IH]; intros j; cbn; [done|].
    unfold dec_char in Hc. replace (c =? 47) with false by lia. apply IH.
  - cbn [find_slash]. unfold ip_char, dec_char in Hc. replace (c =? 47) with false by lia.
    cbn [length] in *. rewrite IH by lia. f_equal. lia.
Qed.

Lemma parse_decimal_prefix_dec n : 0 <= n <= 32 -> parse_decimal_prefix (dec n) = Some n.
Proof.
  intros Hn.
  assert (H : forallb (fun n => bool_decide (parse_decimal_prefix (dec n) = Some n)) (seqZ 0 33)
    = true) by (vm_compute; reflexivity).
  rewrite forallb_forall in H. apply (bool_decide_eq_true_1 _), H.
  apply list_elem_of_In, elem_of_seqZ. lia.
Qed.

Lemma parse_cidr_text a prefix :
  ipv4_ok a -> 0 <= prefix <= 32 -> parse_cidr (cidr_text a prefix) = Some (a, prefix).
Proof.
  intros Ha Hp. destruct (print_ipv4_chars a Ha) as [F L].
  destruct (dec_chars prefix ltac:(mach)) as [Fd Ld]. unfold parse_cidr, cidr_text.
  rewrite find_slash_app by (done || lia). cbn [mbind option_bind]. unfold strlen.
  rewrite length_app, length_cons, Z.add_0_l.
  replace ((Z.of_nat (length (print_ipv4 a)) =? 0) || _ || _ || _) with false by lia.
  rewrite Nat2Z.id, take_app_length, parse_ipv4_print by done. cbn [mbind option_bind].
  replace (Z.to_nat (Z.of_nat (length (print_ipv4 a)) + 1))
    with (length (print_ipv4 a ++ [47])) by (rewrite length_app; cbn; lia).
  replace (print_ipv4 a ++ 47 :: dec prefix) with ((print_ipv4 a ++ [47]) ++ dec prefix)
    by by rewrite <- app_assoc.
  rewrite drop_app_length, parse_decimal_prefix_dec by done. done.
Qed.

Lemma interface_name_short name :
  interface_name_valid name = true -> (1 <= length name < 16)%nat /\ name <> [].
Proof.
  unfold interface_name_valid, strlen. destruct name as [|c name]; [done|]. intros H.
  split; [|done]. repeat case_match; cbn [length] in *; lia.
Qed.

Lemma interface_name_chars name :
  c_string name -> interface_name_valid name = true -> Forall (fun c => c <> 0 /\ c <> 10) name.
Proof.
  intros Hs Hv. assert (Hgen : forall p, c_string p -> Forall (fun c => c <> 0 /\ c <> 10) p ->
    strncmp name p (length p) = 0 -> forallb is_digit (drop (length p) name) = true ->
    Forall (fun c => c <> 0 /\ c <> 10) name).
  { intros p Hp Fp E Hd. apply strncmp_take in E; [|done..]. rewrite (take_ge p) in E by lia.
    rewrite <- (take_drop (length p) name), E. apply Forall_app. split; [done|].
    rewrite forallb_forall in Hd. apply Forall_forall. intros c Hc%list_elem_of_In%Hd.
    unfold is_digit in Hc. lia. }
  unfold interface_name_valid in Hv. destruct name as [|c0 name']; [done|].
  set (name := c0 :: name') in *.
  destruct (Z.eqb_spec (strncmp name (str "eth") 3) 0) as [E|];
    [|destruct (Z.eqb_spec (strncmp name (str "wifi") 4) 0) as [E|]; [|done]];
    apply andb_true_iff in Hv as [_ Hv].
  - apply (Hgen (str "eth")); [by_decision|by_decision|done|done].
  - apply (Hgen (str "wifi")); [by_decision|by_decision|done|done].
Qed.

Lemma setting_ok k v :
  (1 <= length k <= 31)%nat -> Forall (fun c => is_key_char c = true) k ->
  (length v <= 127)%nat -> Forall (fun c => c <> 0 /\ c <> 10) v -> line_ok (setting k v).
Proof.
  intros. cbn. do 4 (split; [apply Forall_nil_2|]). done.
Qed.

Lemma manual_file_ok name a prefix gw d :
  c_string name -> interface_name_valid name = true ->
  ipv4_ok a -> ipv4_ok gw -> ipv4_ok d -> 0 <= prefix <= 32 ->
  Forall line_ok (manual_file name a prefix gw d).
Proof.
  intros Hs Hn Ha Hg Hd Hp.
  assert (Hip : forall x, ipv4_ok x -> (length (print_ipv4 x) <= 15)%nat /\
    Forall (fun c => c <> 0 /\ c <> 10) (print_ipv4 x)).
  { intros x Hx. destruct (print_ipv4_chars x Hx) as [F L]. split; [lia|].
    eapply Forall_impl; [exact F|]. unfold ip_char, dec_char. lia. }
  destruct (dec_chars prefix ltac:(mach)) as [Fd Ld].
  unfold manual_file. repeat first [apply Forall_nil_2|apply Forall_cons_2].
  - apply setting_ok; [by_decision|by_decision| |by apply interface_name_chars].
    destruct (interface_name_short name Hn). lia.
  - apply setting_ok; by_decision.
  - apply setting_ok; [by_decision|by_decision| |].
    + destruct (Hip a Ha). unfold cidr_text. rewrite length_app, length_cons. lia.
    + apply Forall_app. split; [by apply Hip|]. constructor; [done|].
      eapply Forall_impl; [exact Fd|]. unfold dec_char. lia.
  - apply setting_ok; [by_decision|by_decision| |by apply Hip]. destruct (Hip gw Hg). lia.
  - apply setting_ok; [by_decision|by_decision| |by apply Hip]. destruct (Hip d Hd). lia.
Qed.

(** ** Theorems *)

(** For every sequence of configuration events a configuration that holds
    a DHCP lease has ordered deadlines (acquisition < renewal < rebinding <
    expiry, without overflow), a retry delay between one and four seconds, a
    valid netmask and a non-zero address. *)
Theorem dhcp_lease_invariant (events : list config_event) :
  Forall event_typed events ->
  let c := foldl config_step net_config_init events in
  leased c ->
  lease_acquired_ms c < renewal_deadline_ms c /\
  renewal_deadline_ms c < rebinding_deadline_ms c /\
  rebinding_deadline_ms c < expiry_deadline_ms c /\ expiry_deadline_ms c <= U64_MAX /\
  1000 <= retry_delay_ms c <= 4000 /\
  netmask_valid (netmask c) = true /\ ipv4_zero (address c) = false.
Proof.
  intros He c Hc. assert (H : lease_ok c).
  { revert Hc. unfold c. assert (H0 : leased net_config_init -> lease_ok net_config_init)
      by by intros [? _]. clear c. revert H0. generalize net_config_init.
    induction He as [|e events He Hes IH]; intros c H0; cbn [foldl]; [done|].
    apply IH. by apply config_step_ok. }
  destruct H as [H1 H2 _ [H3 H4]]. tauto.
Qed.

Definition sample_events : list config_event :=
  [Begin_dhcp (Some (str "eth0"));
   Apply_dhcp 5000 (Some (str "eth0")) (Some (Ipv4 10 0 2 15)) (Some (Ipv4 255 255 255 0))
     (Some (Ipv4 10 0 2 2)) true None false (Some (Ipv4 10 0 2 2)) 86400 0 0;
   Attempt 43205000 false; Failure 43206000].

Lemma dhcp_lease_invariant_witness :
  let c := foldl config_step net_config_init sample_events in
  lease_acquired_ms c < renewal_deadline_ms c /\
  renewal_deadline_ms c < rebinding_deadline_ms c /\
  rebinding_deadline_ms c < expiry_deadline_ms c /\ expiry_deadline_ms c <= U64_MAX /\
  1000 <= retry_delay_ms c <= 4000 /\
  netmask_valid (netmask c) = true /\ ipv4_zero (address c) = false.
Proof.
  apply (dhcp_lease_invariant sample_events).
  - repeat first [apply Forall_nil_2|apply Forall_cons_2]; cbn; unfold is_u64, is_u32; lia.
  - split; reflexivity.
Defined.

(** Prefix lengths and contiguous netmasks correspond exactly: each
    prefix from 0 to 32 yields a valid mask that converts back to it, and each
    valid mask is the mask of its prefix length. *)
Theorem netmask_prefix_correspondence (prefix : Z) (mask : net_ipv4_t) :
  0 <= prefix <= 32 -> ipv4_ok mask -> netmask_valid mask = true ->
  netmask_valid (netmask_from_prefix prefix) = true /\
  prefix_from_netmask (netmask_from_prefix prefix) = prefix /\
  netmask_from_prefix (prefix_from_netmask mask) = mask.
Proof.
  intros Hp Hm Hv. pose proof netmask_prefix_table as H. rewrite forallb_forall in H.
  specialize (H prefix). rewrite andb_true_iff in H.
  destruct H as [H1 H2]; [apply list_elem_of_In, elem_of_seqZ; lia|].
  split; [done|]. split; [lia|]. by apply netmask_from_prefix_from_netmask.
Qed.

Lemma netmask_prefix_correspondence_witness :
  netmask_valid (netmask_from_prefix 20) = true /\
  prefix_from_netmask (netmask_from_prefix 20) = 20 /\
  netmask_from_prefix (prefix_from_netmask (Ipv4 255 255 252 0)) = Ipv4 255 255 252 0.
Proof.
  apply (netmask_prefix_correspondence 20 (Ipv4 255 255 252 0));
    [lia|unfold ipv4_ok; by_decision|reflexivity].
Defined.

(** A configuration file that sets a static address, written out in
    dotted decimal with any prefix length, is read back as exactly that
    configuration. *)
Theorem manual_configuration_round_trip (name : list Z) (a gw d : net_ipv4_t) (prefix : Z) :
  c_string name -> interface_name_valid name = true ->
  ipv4_ok a -> ipv4_ok gw -> ipv4_ok d -> 0 <= prefix <= 32 ->
  ipv4_zero a = false -> ipv4_zero gw = false -> ipv4_zero d = false ->
  parse_persistent_config (render (manual_file name a prefix gw d)) =
    inl (Persistent NET_CONFIG_MODE_MANUAL name a prefix gw d).
Proof.
  intros Hs Hn Ha Hg Hd Hp Za Zg Zd. pose proof (manual_file_ok name a prefix gw d) as Hok.
  specialize (Hok Hs Hn Ha Hg Hd Hp). unfold parse_persistent_config.
  rewrite kernel_config_parse_render by (done || (cbn; lia)).
  set (es := settings (manual_file name a prefix gw d)).
  assert (Hfind : forall k, c_string k ->
    kernel_config_find (Some (Document es)) (Some k) = last_value es k).
  { intros k Hk. apply find_last; [|done]. by apply settings_keys. }
  rewrite (Hfind (str "mode")) by by_decision.
  change (last_value es (str "mode")) with (Some (str "manual")). cbv beta iota zeta.
  rewrite (Hfind (str "interface")) by by_decision.
  change (last_value es (str "interface")) with (Some name). cbv beta iota.
  rewrite Hn. destruct (interface_name_short name Hn) as [Hlt _].
  replace (negb true || (16 <=? strlen name)) with false by (unfold strlen; lia).
  change (strcmp (str "manual") (str "dhcp") =? 0) with false.
  change (negb (strcmp (str "manual") (str "manual") =? 0)) with false. cbv beta iota.
  unfold parse_manual. rewrite !Hfind by by_decision.
  change (last_value es (str "address")) with (Some (cidr_text a prefix)).
  change (last_value es (str "gateway")) with (Some (print_ipv4 gw)).
  change (last_value es (str "dns")) with (Some (print_ipv4 d)).
  cbn [mbind option_bind]. rewrite parse_cidr_text by done. cbn [mbind option_bind].
  rewrite !parse_ipv4_print by done. cbn [mbind option_bind]. by rewrite Za, Zg, Zd.
Qed.

Lemma manual_configuration_round_trip_witness :
  parse_persistent_config
    (render (manual_file (str "eth0") (Ipv4 192 168 1 7) 24 (Ipv4 192 168 1 1) (Ipv4 9 9 9 9))) =
    inl (Persistent NET_CONFIG_MODE_MANUAL (str "eth0") (Ipv4 192 168 1 7) 24
           (Ipv4 192 168 1 1) (Ipv4 9 9 9 9)).
Proof.
  apply (manual_configuration_round_trip (str "eth0") (Ipv4 192 168 1 7) (Ipv4 192 168 1 1)
    (Ipv4 9 9 9 9) 24); first [lia | reflexivity | unfold ipv4_ok; by_decision].
Defined.

End NetConfig.
