(* ===== verification/NetDevice.v ===== *)
(** The network device registry ([kernel/src/net/net.c]).

    A device is known by the address of its structure; the structures live in
    a store because drivers and the registry share them.  What a driver does
    with a frame is the parameter [driver]; the frames drivers accepted and the
    events published are kept in order. *)
From stdpp Require Import gmap.
From S2P Require Import Prelude NetConfig.
Import NetConfig.

Module NetDevice.

Definition NET_ETHERNET_HEADER_SIZE : Z := 14.
Definition NET_ETHERNET_MAX_FRAME : Z := 1518.
Definition NET_DEVICE_ID_BASE : Z := 0x3000000000000000.
Definition NET_MAX_DEVICES : Z := 4.
Definition NET_DISPLAY_NAME_COUNT : Z := 256.
Definition NET_DISPLAY_NAME_MAX : Z := 16.

(** [driver_data] is the driver's own; [has_transmit] says whether the
    [transmit] pointer is set. *)
Record net_device := Device {
  id : Z;
  generation : Z;
  name : option (list Z);
  mac : list Z;
  mtu : Z;
  has_transmit : bool;
  administrative_enabled : bool;
  link_known : bool;
  link_up : bool;
}.

(** The events of [ipc_publish_event], with device id and name. *)
Inductive net_event :=
  | Interface_added (device_id : Z) (device_name : option (list Z))
  | Interface_removed (device_id : Z) (device_name : option (list Z))
  | Link_up (device_id : Z) (device_name : option (list Z))
  | Link_down (device_id : Z) (device_name : option (list Z)).

Record net := Net {
  primary_device : Z;
  devices : list Z;
  structs : gmap Z net_device;
  next_device_serial : Z;
  next_display_name : Z;
  received_frames : Z;
  received_bytes : Z;
  transmitted_frames : Z;
  sent : list (Z * list Z);
  events : list net_event;
}.

Definition device_count (st : net) : Z := Z.of_nat (length (devices st)).

(** The digits of [number], least significant first, at most ten. *)
Fixpoint name_digits (fuel : nat) (number : Z) : list Z :=
  match fuel with
  | O => []
  | S fuel =>
      let rest := number / 10 in
      (48 + number mod 10) :: (if rest =? 0 then [] else name_digits fuel rest)
  end.
Definition format_display_name (capacity number : Z) : option (list Z) :=
  if (capacity <? 5) || (1000000000 <=? number) then None
  else
    let digits := name_digits 10 number in
    if capacity <? 3 + Z.of_nat (length digits) + 1 then None
    else Some (str "eth" ++ rev digits).

Definition net_init (st : net) : net :=
  Net 0 [] (structs st) 0 0 0 0 0 (sent st) (events st).

Definition set_struct (st : net) (device : Z) (d : net_device) : net :=
  Net (primary_device st) (devices st) (<[device := d]> (structs st)) (next_device_serial st)
    (next_display_name st) (received_frames st) (received_bytes st) (transmitted_frames st)
    (sent st) (events st).
Definition publish (st : net) (e : net_event) : net :=
  Net (primary_device st) (devices st) (structs st) (next_device_serial st)
    (next_display_name st) (received_frames st) (received_bytes st) (transmitted_frames st)
    (sent st) (events st ++ [e]).
Definition set_names (st : net) (serial display : Z) : net :=
  Net (primary_device st) (devices st) (structs st) serial display (received_frames st)
    (received_bytes st) (transmitted_frames st) (sent st) (events st).
Definition set_registry (st : net) (primary : Z) (ds : list Z) : net :=
  Net primary ds (structs st) (next_device_serial st) (next_display_name st)
    (received_frames st) (received_bytes st) (transmitted_frames st) (sent st) (events st).

(** [None]: the pointer does not designate a device structure. *)
Definition net_register_device (st : net) (device : Z) : option (bool * net) :=
  if device =? 0 then Some (false, st)
  else
    d ← structs st !! device;
    if negb (bool_decide (is_Some (name d))) || negb (has_transmit d) || (mtu d =? 0) ||
       (NET_MAX_DEVICES <=? device_count st) then Some (false, st)
    else if bool_decide (device ∈ devices st) then Some (false, st)
    else
      let name_index := next_display_name st in
      let st := set_names st (next_device_serial st) (u32 (next_display_name st + 1)) in
      if NET_DISPLAY_NAME_COUNT <=? name_index then Some (false, st)
      else
        match format_display_name NET_DISPLAY_NAME_MAX name_index with
        | None => Some (false, st)
        | Some n =>
            let serial := u64 (next_device_serial st + 1) in
            let serial := if serial =? 0 then u64 (serial + 1) else serial in
            let st := set_names st serial (next_display_name st) in
            let new_id := Z.lor NET_DEVICE_ID_BASE serial in
            let d := Device new_id new_id (Some n) (mac d) (mtu d) (has_transmit d) true
                       (link_known d) (link_up d) in
            let st := set_registry st
                        (if primary_device st =? 0 then device else primary_device st)
                        (devices st ++ [device]) in
            let st := set_struct st device d in
            Some (true, publish st (Interface_added new_id (Some n)))
        end.

Definition net_device_at (st : net) (index : Z) : Z :=
  if index <? device_count st then devices st !!! Z.to_nat index else 0.

(** The array after the entry at [index] is removed. *)
Definition remove_at (index : nat) (ds : list Z) : list Z := take index ds ++ drop (S index) ds.

(** [conf] is the network configuration, cleared by [net_config_clear] when
    the primary device goes. *)
Definition net_unregister_device {C : Type} (net_config_clear : C -> C) (st : net) (conf : C)
    (device : Z) : option (bool * net * C) :=
  if device =? 0 then Some (false, st, conf)
  else
    match list_find (fun x => x = device) (devices st) with
    | None => Some (false, st, conf)
    | Some (index, _) =>
        d ← structs st !! device;
        let d := Device (id d) (generation d) (name d) (mac d) (mtu d) (has_transmit d) false
                   (link_known d) (link_up d) in
        let st := set_struct st device d in
        let conf := if primary_device st =? device then net_config_clear conf else conf in
        let ds := remove_at index (devices st) in
        let primary := if primary_device st =? device
                       then match ds with [] => 0 | x :: _ => x end
                       else primary_device st in
        Some (true, publish (set_registry st primary ds) (Interface_removed (id d) (name d)), conf)
    end.

Definition net_device_instance_current (st : net) (device gen : Z) : bool :=
  negb (device =? 0) && negb (gen =? 0) &&
  existsb (fun x => (x =? device) &&
    match structs st !! x with Some d => generation d =? gen | None => false end) (devices st).

Definition net_device_current (st : net) (device : Z) : bool :=
  match structs st !! device with
  | Some d => negb (device =? 0) && net_device_instance_current st device (generation d)
  | None => false
  end.

Definition net_device_enabled (st : net) (device : Z) : bool :=
  match structs st !! device with
  | Some d => negb (device =? 0) && administrative_enabled d
  | None => false
  end.

Definition net_set_device_enabled (st : net) (device : Z) (enabled : bool) : option (bool * net) :=
  if (device =? 0) || negb (bool_decide (device ∈ devices st)) then Some (false, st)
  else
    d ← structs st !! device;
    Some (true, set_struct st device
      (Device (id d) (generation d) (name d) (mac d) (mtu d) (has_transmit d) enabled
         (link_known d) (link_up d))).

Definition net_device_set_link (st : net) (device : Z) (known up : bool) : option (bool * net) :=
  if (device =? 0) || negb (bool_decide (device ∈ devices st)) then Some (false, st)
  else
    d ← structs st !! device;
    let changed := negb (Bool.eqb (link_known d) known) ||
                   (known && negb (Bool.eqb (link_up d) up)) in
    let st := set_struct st device
      (Device (id d) (generation d) (name d) (mac d) (mtu d) (has_transmit d)
         (administrative_enabled d) known (known && up)) in
    let st := if changed && known
              then publish st (if up then Link_up (id d) (name d) else Link_down (id d) (name d))
              else st in
    Some (changed, st).

(** The common guard of [netdev_transmit] and [net_receive_frame]. *)
Definition frame_allowed (st : net) (device : Z) (frame : list Z) : bool :=
  match structs st !! device with
  | Some d =>
      net_device_current st device && administrative_enabled d &&
      negb (link_known d && negb (link_up d)) &&
      (NET_ETHERNET_HEADER_SIZE <=? Z.of_nat (length frame)) &&
      (Z.of_nat (length frame) <=? NET_ETHERNET_MAX_FRAME)
  | None => false
  end.

(** [driver device frame] is the answer of the device's [transmit] function. *)
Definition netdev_transmit (driver : Z -> list Z -> bool) (st : net) (device : Z)
    (frame : list Z) : bool * net :=
  match structs st !! device with
  | Some d =>
      if negb (frame_allowed st device frame) || negb (has_transmit d) then (false, st)
      else if negb (driver device frame) then (false, st)
      else (true, Net (primary_device st) (devices st) (structs st) (next_device_serial st)
                    (next_display_name st) (received_frames st) (received_bytes st)
                    (u64 (transmitted_frames st + 1)) (sent st ++ [(device, frame)]) (events st))
  | None => (false, st)
  end.

(** [true] in the answer: the receive handler is called with the frame. *)
Definition net_receive_frame (st : net) (device : Z) (frame : list Z) : bool * net :=
  if negb (frame_allowed st device frame) then (false, st)
  else (true, Net (primary_device st) (devices st) (structs st) (next_device_serial st)
                (next_display_name st) (u64 (received_frames st + 1))
                (u64 (received_bytes st + Z.of_nat (length frame)))
                (transmitted_frames st) (sent st) (events st)).

(** * The registry as a transition system *)

(** What drivers and the kernel do with the registry; [Prepare] is a driver
    filling in a structure it has not registered. *)
Inductive op :=
  | Prepare (device : Z) (d : net_device)
  | Register (device : Z)
  | Unregister (device : Z)
  | Enable (device : Z) (enabled : bool)
  | Set_link (device : Z) (known up : bool)
  | Transmit (driver : Z -> list Z -> bool) (device : Z) (frame : list Z)
  | Receive (device : Z) (frame : list Z).

Definition result {A} (st : net) (r : option (A * net)) : net :=
  match r with Some (_, st') => st' | None => st end.

Definition step (st : net) (o : op) : net :=
  match o with
  | Prepare device d => if bool_decide (device ∈ devices st) then st else set_struct st device d
  | Register device => result st (net_register_device st device)
  | Unregister device =>
      match net_unregister_device (fun c => c) st tt device with
      | Some (_, st', _) => st' | None => st end
  | Enable device b => result st (net_set_device_enabled st device b)
  | Set_link device k u => result st (net_device_set_link st device k u)
  | Transmit driver device frame => (netdev_transmit driver st device frame).2
  | Receive device frame => (net_receive_frame st device frame).2
  end.

(** * Invariant *)

(** The structure of a registered device carries a generation that was issued. *)
Definition issued (st : net) (device : Z) : Prop :=
  device <> 0 /\ exists d s, structs st !! device = Some d /\ generation d = id d /\
    id d = NET_DEVICE_ID_BASE + s /\ 1 <= s <= next_device_serial st.

Definition gen_of (st : net) (device : Z) : Z :=
  match structs st !! device with Some d => generation d | None => 0 end.

Record registry_ok (st : net) : Prop := {
  ro_count : (length (devices st) <= 4)%nat;
  ro_nodup : NoDup (devices st);
  ro_issued : Forall (issued st) (devices st);
  ro_distinct : forall x y, x ∈ devices st -> y ∈ devices st -> gen_of st x = gen_of st y -> x = y;
  ro_primary : if decide (devices st = []) then primary_device st = 0
               else primary_device st ∈ devices st;
  ro_serial : 0 <= next_device_serial st <= next_display_name st /\ next_device_serial st <= 256;
}.

(** A state that differs in nothing the invariant mentions. *)
Lemma registry_ok_same st st' :
  registry_ok st -> devices st' = devices st -> primary_device st' = primary_device st ->
  next_device_serial st' = next_device_serial st ->
  next_display_name st' >= next_display_name st ->
  (forall x, x ∈ devices st -> exists d d', structs st !! x = Some d /\ structs st' !! x = Some d' /\
     generation d' = generation d /\ id d' = id d) ->
  registry_ok st'.
Proof.
  intros [H1 H2 H3 H4 H5 H6] E1 E2 E3 E4 E5.
  assert (Eg : forall x, x ∈ devices st -> gen_of st' x = gen_of st x).
  { intros x (d & d' & L & L' & G & _)%E5. unfold gen_of. by rewrite L, L'. }
  constructor; rewrite ?E1, ?E2, ?E3; try done; [| |lia].
  - rewrite Forall_forall in H3 |- *. intros x Hx. destruct (H3 x Hx) as (Hz & d0 & s & L0 & G1 & G2 & G3).
    destruct (E5 x Hx) as (d & d' & L & L' & G & I). rewrite L in L0. simplify_eq.
    split; [done|]. exists d', s. rewrite E3. split; [done|]. split; [congruence|].
    split; [congruence|done].
  - intros x y Hx Hy. rewrite !Eg by done. by apply H4.
Qed.

Lemma issued_struct st x :
  registry_ok st -> x ∈ devices st -> exists d, structs st !! x = Some d.
Proof.
  intros H Hx. pose proof (ro_issued _ H) as Hi. rewrite Forall_forall in Hi.
  destruct (Hi x Hx) as (_ & d & _ & L & _). by exists d.
Qed.

(** Writing a structure without touching identity. *)
Lemma set_struct_same st st' device d d' :
  registry_ok st -> structs st !! device = Some d -> generation d' = generation d -> id d' = id d ->
  devices st' = devices st -> primary_device st' = primary_device st ->
  next_device_serial st' = next_device_serial st ->
  next_display_name st' = next_display_name st ->
  structs st' = <[device := d']> (structs st) ->
  registry_ok st'.
Proof.
  intros H L G I E1 E2 E3 E4 E5. eapply registry_ok_same; [done..|lia|]. rewrite E5.
  intros x Hx. destruct (decide (x = device)) as [->|Hne].
  - exists d, d'. by rewrite lookup_insert_eq.
  - destruct (issued_struct st x H Hx) as [dx Lx]. exists dx, dx.
    by rewrite lookup_insert_ne.
Qed.

Lemma id_base_or s : 0 <= s < 2 ^ 60 -> Z.lor NET_DEVICE_ID_BASE s = NET_DEVICE_ID_BASE + s.
Proof.
  intros Hs. change NET_DEVICE_ID_BASE with (Z.shiftl 3 60). rewrite lor_shiftl_add by lia.
  by rewrite Z.shiftl_mul_pow2 by lia.
Qed.

Lemma register_cases st device b st' :
  net_register_device st device = Some (b, st') -> registry_ok st ->
  next_display_name st < 2 ^ 32 - 1 ->
  (b = false /\ devices st' = devices st /\ primary_device st' = primary_device st /\
     structs st' = structs st /\ next_device_serial st' = next_device_serial st /\
     next_display_name st <= next_display_name st' <= next_display_name st + 1) \/
  (b = true /\ device <> 0 /\ (device ∉ devices st) /\ (length (devices st) < 4)%nat /\
     (next_device_serial st < 256) /\ devices st' = devices st ++ [device] /\
     primary_device st' = (if (primary_device st =? 0) then device else primary_device st) /\
     next_device_serial st' = next_device_serial st + 1 /\
     next_display_name st' = next_display_name st + 1 /\
     exists d, structs st' = <[device := d]> (structs st) /\ generation d = id d /\
       id d = NET_DEVICE_ID_BASE + (next_device_serial st + 1)).
Proof.
  unfold net_register_device. intros H Hok Hn. pose proof (ro_serial _ Hok) as Hs.
  destruct (Z.eqb_spec device 0) as [|Hd]; [left; simplify_eq; repeat split; lia|].
  destruct (structs st !! device) as [d|] eqn:L; [|done]. cbn [mbind option_bind] in H.
  destruct (negb _ || _ || _ || _) eqn:G; [left; simplify_eq; repeat split; lia|].
  destruct (bool_decide (device ∈ devices st)) eqn:Hin; [left; simplify_eq; repeat split; lia|].
  apply bool_decide_eq_false in Hin. cbv zeta in H.
  cbn [next_device_serial next_display_name set_names primary_device devices] in H.
  rewrite (u32_id (next_display_name st + 1)) in H by mach.
  destruct (NET_DISPLAY_NAME_COUNT <=? next_display_name st) eqn:Hc;
    [left; simplify_eq; cbn; repeat split; lia|].
  destruct (format_display_name _ _) as [n|]; [|left; simplify_eq; cbn; repeat split; lia].
  unfold NET_DISPLAY_NAME_COUNT, NET_MAX_DEVICES, device_count in *.
  rewrite (u64_id (next_device_serial st + 1)) in H by mach.
  replace (next_device_serial st + 1 =? 0) with false in H by lia. right. simplify_eq.
  cbn [devices primary_device next_device_serial next_display_name structs publish set_struct
    set_registry set_names]. repeat split; try done; try lia.
  eexists. split; [done|]. cbn [id generation]. split; [done|]. apply id_base_or. lia.
Qed.

Lemma register_ok st device b st' :
  net_register_device st device = Some (b, st') -> registry_ok st ->
  next_display_name st < 2 ^ 32 - 1 -> registry_ok st'.
Proof.
  intros H Hok Hn.
  destruct (register_cases _ _ _ _ H Hok Hn) as [(_ & E1 & E2 & E3 & E4 & E5)|
    (_ & Hz & Hin & Hlen & Hser & E1 & E2 & E3 & E4 & d & E5 & G & I)].
  { eapply registry_ok_same; [done..|lia|]. intros x Hx.
    destruct (issued_struct st x Hok Hx) as [dx Lx]. exists dx, dx. by rewrite E3. }
  pose proof (ro_issued _ Hok) as Hi. rewrite Forall_forall in Hi.
  assert (Hold : forall x, x ∈ devices st -> structs st' !! x = structs st !! x).
  { intros x Hx. rewrite E5, lookup_insert_ne; [done|]. congruence. }
  assert (Gold : forall x, x ∈ devices st ->
    gen_of st' x < NET_DEVICE_ID_BASE + (next_device_serial st + 1)).
  { intros x Hx. destruct (Hi x Hx) as (_ & dx & s & Lx & Gx & Ix & Hs). unfold gen_of.
    rewrite Hold, Lx by done. lia. }
  assert (Gnew : gen_of st' device = NET_DEVICE_ID_BASE + (next_device_serial st + 1)).
  { unfold gen_of. rewrite E5, lookup_insert_eq. congruence. }
  constructor.
  - rewrite E1, length_app. cbn. lia.
  - rewrite E1. apply NoDup_app. split; [apply Hok|]. split; [|by apply NoDup_singleton].
    intros x Hx ->%list_elem_of_singleton. done.
  - rewrite E1. apply Forall_app. split.
    + apply Forall_forall. intros x Hx. destruct (Hi x Hx) as (Hx0 & dx & s & Lx & Gx & Ix & Hs).
      split; [done|]. exists dx, s. rewrite Hold, E3 by done. repeat split; [done..|lia|lia].
    + constructor; [|constructor]. split; [done|]. exists d, (next_device_serial st + 1).
      rewrite E5, lookup_insert_eq, E3. pose proof (ro_serial _ Hok). repeat split; [done..|lia|lia].
  - intros x y. rewrite E1, !elem_of_app, !list_elem_of_singleton.
    intros [Hx| ->] [Hy| ->] Hg; [|exfalso..|done].
    + apply (ro_distinct _ Hok); [done..|]. unfold gen_of in *. by rewrite !Hold in Hg.
    + specialize (Gold x Hx). lia.
    + specialize (Gold y Hy). lia.
  - rewrite decide_False by (rewrite E1; by destruct (devices st)). rewrite E1, E2.
    pose proof (ro_primary _ Hok) as Hp. apply elem_of_app.
    destruct (decide (devices st = [])) as [->|].
    + rewrite Hp. right. by apply list_elem_of_singleton.
    + left. replace (primary_device st =? 0) with false; [done|].
      destruct (Hi _ Hp) as [? _]. lia.
  - pose proof (ro_serial _ Hok). lia.
Qed.

Lemma unregister_cases {C} clear st (conf : C) device b st' conf' :
  net_unregister_device clear st conf device = Some (b, st', conf') ->
  (b = false /\ st' = st /\ conf' = conf) \/
  (b = true /\ device ∈ devices st /\ exists ds1 ds2 d, devices st = ds1 ++ device :: ds2 /\
     devices st' = ds1 ++ ds2 /\ structs st !! device = Some d /\
     primary_device st' = (if (primary_device st =? device)
                           then match ds1 ++ ds2 with [] => 0 | x :: _ => x end
                           else primary_device st) /\
     conf' = (if (primary_device st =? device) then clear conf else conf) /\
     next_device_serial st' = next_device_serial st /\
     next_display_name st' = next_display_name st /\
     exists d', structs st' = <[device := d']> (structs st)).
Proof.
  unfold net_unregister_device. intros H.
  destruct (Z.eqb_spec device 0) as [|Hd]; [left; by simplify_eq|].
  destruct (list_find _ _) as [[i x]|] eqn:Ef; [|left; by simplify_eq].
  apply list_find_Some in Ef as (Hl & -> & _).
  destruct (structs st !! device) as [d|] eqn:L; [|done]. cbn [mbind option_bind] in H.
  right. simplify_eq. split; [done|]. split; [by eapply list_elem_of_lookup_2|].
  exists (take i (devices st)), (drop (S i) (devices st)), d.
  split; [by rewrite take_drop_middle|]. cbn. repeat (split; [done|]). by eexists.
Qed.

Lemma elem_of_removed {A} (x : A) ds1 y ds2 : x ∈ ds1 ++ ds2 -> x ∈ ds1 ++ y :: ds2.
Proof. set_solver. Qed.

Lemma unregister_ok {C} clear st (conf : C) device b st' conf' :
  net_unregister_device clear st conf device = Some (b, st', conf') -> registry_ok st ->
  registry_ok st'.
Proof.
  intros H Hok. destruct (unregister_cases _ _ _ _ _ _ _ H) as [(_ & -> & _)|
    (_ & Hin & ds1 & ds2 & d & E & E1 & L & E2 & _ & E3 & E4 & d' & E5)]; [done|].
  destruct Hok as [H1 H2 H3 H4 H5 H6]. rewrite E in *. rewrite Forall_forall in H3.
  apply NoDup_app in H2 as (N1 & N2 & N3). apply NoDup_cons in N3 as [N3 N4].
  assert (Hne : forall x, x ∈ ds1 ++ ds2 -> x <> device).
  { intros x [Hx|Hx]%elem_of_app ->; [apply (N2 device Hx); left|done]. }
  assert (Hold : forall x, x ∈ ds1 ++ ds2 -> structs st' !! x = structs st !! x).
  { intros x Hx. rewrite E5, lookup_insert_ne; [done|]. intros ->. by destruct (Hne x). }
  constructor; rewrite ?E1, ?E3, ?E4; [| | | | |done].
  - rewrite length_app in *. cbn in H1. lia.
  - apply NoDup_app. split; [done|]. split; [|done]. intros x Hx ?. apply (N2 x Hx). by right.
  - apply Forall_forall. intros x Hx. destruct (H3 x (elem_of_removed _ _ _ _ Hx)) as (Hz & Hi).
    split; [done|]. rewrite Hold, E3 by done. done.
  - intros x y Hx Hy Hg. apply H4; [by apply elem_of_removed..|].
    unfold gen_of in *. by rewrite !Hold in Hg.
  - rewrite E2. destruct (Z.eqb_spec (primary_device st) device) as [Ep|Ep].
    + destruct (ds1 ++ ds2) as [|x ds]; [by rewrite decide_True|].
      rewrite decide_False by done. left.
    + destruct (decide (ds1 ++ device :: ds2 = [])) as [Hn|_]; [by destruct ds1|].
      assert (Hp : primary_device st ∈ ds1 ++ ds2) by set_solver.
      rewrite decide_False; [done|]. intros Hn. rewrite Hn in Hp. by apply not_elem_of_nil in Hp.
Qed.

Lemma step_ok st o :
  registry_ok st -> next_display_name st < 2 ^ 32 - 1 ->
  registry_ok (step st o) /\ next_display_name (step st o) <= next_display_name st + 1.
Proof.
  intros Hok Hn. destruct o as [device d|device|device|device b|device k u|driver device frame
    |device frame]; cbn [step].
  - destruct (bool_decide (device ∈ devices st)) eqn:E; [split; [done|lia]|].
    apply bool_decide_eq_false in E. split; [|cbn; lia].
    eapply registry_ok_same; [done..|cbn; lia|]. intros x Hx.
    destruct (issued_struct st x Hok Hx) as [dx Lx]. exists dx, dx. cbn.
    rewrite lookup_insert_ne by congruence. done.
  - destruct (net_register_device st device) as [[b st']|] eqn:E; cbn; [|split; [done|lia]].
    split; [by eapply register_ok|].
    destruct (register_cases _ _ _ _ E Hok Hn) as [H|H]; intuition lia.
  - destruct (net_unregister_device _ st tt device) as [[[b st'] c]|] eqn:E; [|split; [done|lia]].
    split; [by eapply unregister_ok|].
    destruct (unregister_cases _ _ _ _ _ _ _ E) as [(_ & -> & _)|
      (_ & _ & ? & ? & ? & _ & _ & _ & _ & _ & _ & -> & _)]; lia.
  - unfold net_set_device_enabled. destruct (_ || _); cbn; [split; [done|lia]|].
    destruct (structs st !! device) as [d|] eqn:L; cbn; [|split; [done|lia]].
    split; [|lia]. eapply (set_struct_same st _ device d); [done|done| | |done..]; done.
  - unfold net_device_set_link. destruct (_ || _); cbn; [split; [done|lia]|].
    destruct (structs st !! device) as [d|] eqn:L; cbn; [|split; [done|lia]].
    split; [|destruct (_ && _); cbn; lia].
    eapply (set_struct_same st _ device d); [done|done| | |destruct (_ && _); done..]; done.
  - unfold netdev_transmit. destruct (structs st !! device); [|split; [done|cbn; lia]].
    destruct (_ || _); [split; [done|cbn; lia]|]. destruct (negb _); [split; [done|cbn; lia]|].
    split; [|cbn; lia]. eapply registry_ok_same; [done..|cbn; lia|].
    intros x Hx. destruct (issued_struct st x Hok Hx) as [dx Lx]. by exists dx, dx.
  - unfold net_receive_frame. destruct (negb _); [split; [done|cbn; lia]|].
    split; [|cbn; lia]. eapply registry_ok_same; [done..|cbn; lia|].
    intros x Hx. destruct (issued_struct st x Hok Hx) as [dx Lx]. by exists dx, dx.
Qed.

(** ** Stale references *)

Lemma instance_current_iff st device gen :
  net_device_instance_current st device gen = true <->
  device <> 0 /\ gen <> 0 /\ device ∈ devices st /\
    exists d, structs st !! device = Some d /\ generation d = gen.
Proof.
  unfold net_device_instance_current. rewrite !andb_true_iff, existsb_exists.
  setoid_rewrite andb_true_iff. split.
  - intros [[H1 H2] (x & Hx & Ex & Hd)]. apply list_elem_of_In in Hx.
    assert (x = device) as -> by lia. destruct (structs st !! device) as [d|]; [|done].
    repeat split; [lia|lia|done|]. exists d. split; [done|lia].
  - intros (H1 & H2 & Hx & d & L & G). split; [lia|]. exists device.
    split; [by apply list_elem_of_In|]. rewrite L. lia.
Qed.

(** A generation that has been issued and is not current in [st]. *)
Definition stale (st : net) (device gen : Z) : Prop :=
  net_device_instance_current st device gen = false /\
  gen <= NET_DEVICE_ID_BASE + next_device_serial st.

Lemma stale_same st st' device gen :
  stale st device gen -> next_device_serial st' = next_device_serial st ->
  (device ∈ devices st' -> device ∈ devices st) ->
  (forall d', device ∈ devices st' -> structs st' !! device = Some d' ->
     exists d, structs st !! device = Some d /\ generation d = generation d') ->
  stale st' device gen.
Proof.
  intros [H1 H2] E Hd Hg. split; [|lia]. apply not_true_iff_false. intros H.
  apply instance_current_iff in H as (Hz & Hgz & Hin & d' & L & G).
  apply not_true_iff_false in H1. apply H1. apply instance_current_iff.
  destruct (Hg d' Hin L) as (d & Ld & Gd). repeat split; auto. exists d. split; [done|congruence].
Qed.

Lemma stale_step st o device gen :
  registry_ok st -> next_display_name st < 2 ^ 32 - 1 -> stale st device gen ->
  stale (step st o) device gen.
Proof.
  intros Hok Hn Hs. destruct o as [dev d|dev|dev|dev b|dev k u|driver dev frame|dev frame];
    cbn [step].
  - destruct (bool_decide (dev ∈ devices st)) eqn:E; [done|]. apply bool_decide_eq_false in E.
    apply (stale_same st); [done|done|done|]. intros d' Hin. change (device ∈ devices st) in Hin. cbn.
    rewrite lookup_insert_ne by congruence. eauto.
  - destruct (net_register_device st dev) as [[b st']|] eqn:E; cbn; [|done].
    destruct (register_cases _ _ _ _ E Hok Hn) as [(_ & E1 & _ & E3 & E4 & _)|
      (_ & Hz & Hin & _ & _ & E1 & _ & E3 & _ & d & E5 & G & I)].
    + apply (stale_same st); [done|done|by rewrite E1|]. rewrite E1, E3. eauto.
    + destruct Hs as [H1 H2]. split; [|lia]. apply not_true_iff_false. intros H.
      apply instance_current_iff in H as (Hz' & Hgz & Hin' & d' & L & Gd).
      rewrite E5 in L. destruct (decide (device = dev)) as [->|Hne].
      * rewrite lookup_insert_eq in L. simplify_eq. lia.
      * rewrite lookup_insert_ne in L by done. apply not_true_iff_false in H1. apply H1.
        apply instance_current_iff. rewrite E1 in Hin'. repeat split; [done..| |by exists d'].
        apply elem_of_app in Hin' as [?|?%list_elem_of_singleton]; done.
  - destruct (net_unregister_device _ st tt dev) as [[[b st'] c]|] eqn:E; [|done].
    destruct (unregister_cases _ _ _ _ _ _ _ E) as [(_ & -> & _)|
      (_ & Hin & ds1 & ds2 & d & E0 & E1 & L & _ & _ & E3 & _ & d' & E5)]; [done|].
    pose proof (ro_nodup _ Hok) as Hnd. rewrite E0 in Hnd.
    apply NoDup_app in Hnd as (_ & N2 & [N3 _]%NoDup_cons).
    assert (Hne : device ∈ devices st' -> device <> dev).
    { rewrite E1. intros [Hx|Hx]%elem_of_app ->; [apply (N2 dev Hx); left|done]. }
    apply (stale_same st); [done|done|rewrite E0, E1; set_solver|].
    intros dx Hx. rewrite E5, lookup_insert_ne by (intros ->; by apply Hne). eauto.
  - unfold net_set_device_enabled. destruct (_ || _); [done|].
    destruct (structs st !! dev) as [d|] eqn:L; [|done].
    apply (stale_same st); [done|done|done|]. intros d' _. cbn. intros L'.
    destruct (decide (device = dev)) as [->|Hne].
    + rewrite lookup_insert_eq in L'. simplify_eq. by exists d.
    + rewrite lookup_insert_ne in L' by done. eauto.
  - unfold net_device_set_link. destruct (_ || _); [done|].
    destruct (structs st !! dev) as [d|] eqn:L; [|done].
    apply (stale_same st); [done|by cbn; destruct (_ && _)|by cbn; destruct (_ && _)|].
    intros d' _ L'. assert (L2 : <[dev := Device (id d) (generation d) (name d) (mac d) (mtu d)
      (has_transmit d) (administrative_enabled d) k (k && u)]> (structs st) !! device = Some d')
      by (cbn in L'; by destruct (_ && _)).
    destruct (decide (device = dev)) as [->|Hne].
    + rewrite lookup_insert_eq in L2. simplify_eq. by exists d.
    + rewrite lookup_insert_ne in L2 by done. eauto.
  - apply (stale_same st); [done|..]; unfold netdev_transmit; repeat case_match; cbn; eauto.
  - apply (stale_same st); [done|..]; unfold net_receive_frame; case_match; cbn; eauto.
Qed.

(** * Theorems *)

Definition boot_net : net := Net 0 [] ∅ 0 0 0 0 0 [] [].

Lemma registry_boot_ok : registry_ok boot_net.
Proof.
  constructor; cbn; [lia|apply NoDup_nil_2|apply Forall_nil_2| |done|lia].
  intros x y ?%not_elem_of_nil. done.
Qed.

Lemma registry_run_ok st ops :
  registry_ok st -> next_display_name st + Z.of_nat (length ops) < 2 ^ 32 ->
  registry_ok (foldl step st ops) /\
  (forall device gen, stale st device gen -> stale (foldl step st ops) device gen).
Proof.
  revert st. induction ops as [|o ops IH]; intros st Hok Hn; cbn [foldl]; [done|].
  cbn [length] in Hn. destruct (step_ok st o Hok) as [H1 H2]; [lia|].
  destruct (IH (step st o) H1) as [H3 H4]; [lia|]. split; [done|]. intros device gen Hs.
  apply H4, stale_step; [done|lia|done].
Qed.

(** Whatever drivers and the kernel do (up to [2^32 - 1] operations), the
    registry holds at most four distinct devices, the primary device is
    registered whenever any device is, and registered devices carry distinct
    identities. *)
Theorem device_registry_invariant (ops : list op) :
  Z.of_nat (length ops) < 2 ^ 32 ->
  let st := foldl step boot_net ops in
  (length (devices st) <= 4)%nat /\ NoDup (devices st) /\
  (if decide (devices st = []) then primary_device st = 0 else primary_device st ∈ devices st) /\
  (forall x y, x ∈ devices st -> y ∈ devices st -> gen_of st x = gen_of st y -> x = y) /\
  Forall (fun x => x <> 0 /\ gen_of st x <> 0) (devices st).
Proof.
  intros Hn st. destruct (registry_run_ok boot_net ops registry_boot_ok) as [Hok _]; [cbn; lia|]. fold st in Hok.
  split; [apply Hok|]. split; [apply Hok|]. split; [apply Hok|]. split; [apply Hok|].
  eapply Forall_impl; [apply (ro_issued _ Hok)|].
  intros x (Hz & d & s & L & G & I & Hs). split; [done|]. unfold gen_of. rewrite L.
  unfold NET_DEVICE_ID_BASE in *. lia.
Qed.

(** A reference to a device instance (address and generation) that is no
    longer current never becomes current again, even if the same structure is
    registered anew: a stale handle is never honoured. *)
Theorem stale_instance_stays_stale (before after : list op) (device gen : Z) :
  Z.of_nat (length before) + Z.of_nat (length after) < 2 ^ 32 ->
  net_device_instance_current (foldl step boot_net before) device gen = false ->
  gen <= NET_DEVICE_ID_BASE + next_device_serial (foldl step boot_net before) ->
  net_device_instance_current (foldl step (foldl step boot_net before) after) device gen = false.
Proof.
  intros Hn Hc Hg. destruct (registry_run_ok boot_net before registry_boot_ok) as [Hok _]; [cbn; lia|].
  assert (Hname : forall ops st, registry_ok st ->
    next_display_name st + Z.of_nat (length ops) < 2 ^ 32 ->
    next_display_name (foldl step st ops) <= next_display_name st + Z.of_nat (length ops)).
  { induction ops as [|o ops IH]; intros st Hst Hl; cbn [foldl length] in *; [lia|].
    destruct (step_ok st o Hst) as [H1 H2]; [lia|]. specialize (IH (step st o) H1). lia. }
  specialize (Hname before boot_net registry_boot_ok). change (next_display_name boot_net) with 0 in Hname.
  destruct (registry_run_ok (foldl step boot_net before) after Hok) as [_ Hs]; [lia|].
  by destruct (Hs device gen).
Qed.

Definition nic : net_device := Device 0 0 (Some []) [2; 0; 0; 0; 0; 1] 1500 true false false false.
Definition plug : list op := [Prepare 4096 nic; Register 4096; Unregister 4096].
Definition replug : list op := [Register 4096].

Lemma device_registry_invariant_witness :
  let st := foldl step boot_net (plug ++ replug) in
  (length (devices st) <= 4)%nat /\ NoDup (devices st) /\
  (if decide (devices st = []) then primary_device st = 0 else primary_device st ∈ devices st) /\
  (forall x y, x ∈ devices st -> y ∈ devices st -> gen_of st x = gen_of st y -> x = y) /\
  Forall (fun x => x <> 0 /\ gen_of st x <> 0) (devices st).
Proof. apply (device_registry_invariant (plug ++ replug)). cbn. lia. Defined.

(** The first registration of the structure stays stale although the
    structure is registered again. *)
Lemma stale_instance_stays_stale_witness :
  net_device_instance_current (foldl step (foldl step boot_net plug) replug) 4096
    (NET_DEVICE_ID_BASE + 1) = false /\
  net_device_current (foldl step (foldl step boot_net plug) replug) 4096 = true.
Proof.
  split; [|vm_compute; reflexivity].
  apply (stale_instance_stays_stale plug replug 4096 (NET_DEVICE_ID_BASE + 1));
    [cbn; lia|vm_compute; reflexivity|vm_compute; discriminate].
Defined.

End NetDevice.
