(* ===== verification/Ethernet.v ===== *)
(** Ethernet framing ([kernel/src/net/ethernet.c]).

    Received buffers are read through [rd] and [slice], which fail ([None])
    outside the buffer, so that a handler that answers [Some] has stayed inside
    what it was given. *)
From stdpp Require Import gmap.
From S2P Require Import Prelude Checksum NetConfig NetDevice.
Import Checksum NetConfig NetDevice.

Module Ethernet.

Definition ETHERNET_ETHERTYPE_IPV4 : Z := 0x0800.
Definition ETHERNET_ETHERTYPE_ARP : Z := 0x0806.
Definition ETHERNET_PAYLOAD_MAX : Z := 1500.

Definition size (p : list Z) : Z := Z.of_nat (length p).

(** Bounds-checked access to a received buffer. *)
Definition rd (p : list Z) (i : nat) : option Z := p !! i.
Definition slice (p : list Z) (off len : nat) : option (list Z) :=
  if decide (off + len <= length p)%nat then Some (take len (drop off p)) else None.
Definition rd_be16 (p : list Z) (i : nat) : option Z := s ← slice p i 2; Some (read_be16 s).

(** [difference |= left[i] ^ right[i]] over six bytes. *)
Fixpoint mac_difference (l r : list Z) (acc : Z) : Z :=
  match l, r with
  | x :: l, y :: r => mac_difference l r (Z.lor acc (Z.lxor x y))
  | _, _ => acc
  end.
Definition net_mac_equal (left right : list Z) : bool :=
  mac_difference (take 6 left) (take 6 right) 0 =? 0.
Definition broadcast_mac : list Z := [0xff; 0xff; 0xff; 0xff; 0xff; 0xff].
Definition net_mac_is_broadcast (m : list Z) : bool := net_mac_equal m broadcast_mac.
Definition net_mac_copy (source : list Z) : list Z := take 6 source.

(** The frame [ethernet_transmit] builds. *)
Definition ethernet_frame (destination source : list Z) (ethertype : Z) (payload : list Z)
    : list Z :=
  net_mac_copy destination ++ net_mac_copy source ++ write_be16 ethertype ++ payload.

Definition ethernet_transmit (driver : Z -> list Z -> bool) (st : net) (device : Z)
    (destination : list Z) (ethertype : Z) (payload : list Z) : bool * net :=
  match structs st !! device with
  | None => (false, st)
  | Some d =>
      if (device =? 0) || (ETHERNET_PAYLOAD_MAX <? size payload) || (mtu d <? size payload)
      then (false, st)
      else netdev_transmit driver st device (ethernet_frame destination (mac d) ethertype payload)
  end.

(** The layer a received frame goes to, with its payload. *)
Inductive ethernet_dispatch :=
  | Drop
  | To_arp (payload : list Z)
  | To_ipv4 (payload : list Z).

(** The guards and the [switch] of [ethernet_receive]; [local] is the MAC of
    the receiving device. *)
Definition ethernet_receive (local frame : list Z) : option ethernet_dispatch :=
  if size frame <? NET_ETHERNET_HEADER_SIZE then Some Drop
  else
    destination ← slice frame 0 6;
    if negb (net_mac_equal destination local) && negb (net_mac_is_broadcast destination)
    then Some Drop
    else
      ethertype ← rd_be16 frame 12;
      payload ← slice frame 14 (length frame - 14);
      if ethertype =? ETHERNET_ETHERTYPE_ARP then Some (To_arp payload)
      else if ethertype =? ETHERNET_ETHERTYPE_IPV4 then Some (To_ipv4 payload)
      else Some Drop.

(** * Lemmas *)

Definition mac_ok (m : list Z) : Prop := length m = 6%nat /\ bytes m.

Lemma slice_in p off len :
  (off + len <= length p)%nat -> slice p off len = Some (take len (drop off p)).
Proof. intros H. unfold slice. by rewrite decide_True. Qed.

Lemma slice_app_l a b len : length a = len -> slice (a ++ b) 0 len = Some a.
Proof.
  intros <-. rewrite slice_in by (rewrite length_app; lia). by rewrite drop_0, take_app_length.
Qed.

Lemma slice_all p n : length p = n -> slice p 0 n = Some p.
Proof. intros H. rewrite <- (app_nil_r p) at 1. by apply slice_app_l. Qed.

Lemma slice_app_r a b off len :
  (length a <= off)%nat -> slice (a ++ b) off len = slice b (off - length a) len.
Proof.
  intros H. unfold slice. rewrite length_app. rewrite drop_app_ge by lia.
  destruct (decide _), (decide _); try done; lia.
Qed.

Lemma rd_be16_write a v b off :
  length a = off -> is_u16 v -> rd_be16 (a ++ write_be16 v ++ b) off = Some v.
Proof.
  intros <- Hv. unfold rd_be16. rewrite slice_app_r, Nat.sub_diag by lia.
  rewrite slice_app_l by done. cbn [mbind option_bind]. f_equal.
  rewrite <- (app_nil_r (write_be16 v)). by apply read_write_be16.
Qed.

Lemma mac_difference_or l r acc :
  Z.lor acc (mac_difference l r 0) = mac_difference l r acc.
Proof.
  revert r acc. induction l as [|x l IH]; intros [|y r] acc; cbn [mac_difference];
    try apply Z.lor_0_r. rewrite Z.lor_0_l.
  rewrite <- (IH r (Z.lxor x y)), <- (IH r (Z.lor acc _)). by rewrite Z.lor_assoc.
Qed.

Lemma mac_difference_zero l r :
  length l = length r -> (mac_difference l r 0 = 0 <-> l = r).
Proof.
  revert r. induction l as [|x l IH]; intros [|y r] Hl; cbn [mac_difference]; try done.
  rewrite Z.lor_0_l, <- mac_difference_or, Z.lor_eq_0_iff, Z.lxor_eq_0_iff, IH by (cbn in Hl; lia).
  split; [by intros [-> ->]|by intros [= -> ->]].
Qed.

Lemma net_mac_equal_iff l r : mac_ok l -> mac_ok r -> (net_mac_equal l r = true <-> l = r).
Proof.
  intros [Hl _] [Hr _]. unfold net_mac_equal. rewrite !take_ge by lia. rewrite Z.eqb_eq.
  apply mac_difference_zero. lia.
Qed.

Lemma broadcast_mac_ok : mac_ok broadcast_mac.
Proof. split; [done|by_decision]. Qed.

(** A receiver accepts a frame addressed to it or to everyone. *)
Definition addressed (local destination : list Z) : Prop :=
  destination = local \/ destination = broadcast_mac.

Lemma ethernet_receive_frame local destination source ethertype payload :
  mac_ok local -> mac_ok destination -> mac_ok source -> is_u16 ethertype ->
  addressed local destination ->
  ethernet_receive local (ethernet_frame destination source ethertype payload) =
    Some (if ethertype =? ETHERNET_ETHERTYPE_ARP then To_arp payload
          else if ethertype =? ETHERNET_ETHERTYPE_IPV4 then To_ipv4 payload
          else Drop).
Proof.
  intros Hl Hd Hs He Ha. pose proof (proj1 Hd) as Ld. pose proof (proj1 Hs) as Ls.
  unfold ethernet_receive, ethernet_frame, net_mac_copy. rewrite !take_ge by lia.
  assert (Hlen : length (destination ++ source ++ write_be16 ethertype ++ payload) =
    (14 + length payload)%nat) by (rewrite !length_app, Ld, Ls; cbn; lia).
  unfold size. rewrite Hlen. change NET_ETHERNET_HEADER_SIZE with 14.
  replace (Z.of_nat (14 + length payload) <? 14) with false by lia.
  rewrite slice_app_l by done. cbn [mbind option_bind].
  replace (_ && _) with false.
  2: { symmetry. destruct Ha as [-> | ->].
    - assert (net_mac_equal local local = true) as -> by by apply net_mac_equal_iff. done.
    - unfold net_mac_is_broadcast.
      assert (net_mac_equal broadcast_mac broadcast_mac = true) as -> by done.
      apply andb_false_r. }
  replace (destination ++ source ++ write_be16 ethertype ++ payload)
    with ((destination ++ source) ++ write_be16 ethertype ++ payload) by by rewrite <- app_assoc.
  rewrite rd_be16_write by (done || (rewrite length_app; lia)). cbn [mbind option_bind].
  rewrite app_assoc, slice_app_r by (rewrite !length_app, Ld, Ls; cbn; lia).
  rewrite !length_app, Ld, Ls. cbn [length write_be16].
  replace (14 - (6 + 6 + 2))%nat with 0%nat by lia.
  rewrite slice_all by lia. cbn [mbind option_bind].
  by repeat case_match.
Qed.

(** Reception never reads outside the frame, and what it passes on lies
    inside it. *)
Lemma ethernet_receive_safe local frame :
  exists r, ethernet_receive local frame = Some r /\
    match r with
    | Drop => True
    | To_arp p | To_ipv4 p => p = drop 14 frame
    end.
Proof.
  apply answers. unfold ethernet_receive, size. change NET_ETHERNET_HEADER_SIZE with 14.
  destruct (Z.ltb_spec (Z.of_nat (length frame)) 14); [done|].
  rewrite (slice_in frame 0) by lia. cbn [mbind option_bind]. destruct (negb _ && _); [done|].
  unfold rd_be16. rewrite (slice_in frame 12), (slice_in frame 14) by lia.
  cbn [mbind option_bind].
  rewrite (take_ge (drop 14 frame)) by (rewrite length_drop; lia).
  destruct (_ =? _); [done|]. by destruct (_ =? _).
Qed.

End Ethernet.
