(* ===== verification/Arp.v ===== *)
(** Address resolution ([kernel/src/net/arp.c]). *)
From stdpp Require Import gmap.
From S2P Require Import Prelude Checksum NetConfig NetDevice Ethernet.
Import Checksum NetConfig NetDevice Ethernet.

Module Arp.

Definition ARP_HARDWARE_ETHERNET : Z := 1.
Definition ARP_PROTOCOL_IPV4 : Z := 0x0800.
Definition ARP_OPERATION_REQUEST : Z := 1.
Definition ARP_OPERATION_REPLY : Z := 2.
Definition ARP_CACHE_CAPACITY : nat := 16.

Record arp_cache_entry_t := Entry {
  valid : bool;
  e_address : net_ipv4_t;
  e_mac : list Z;
}.

(** The [ARP_CACHE_CAPACITY] entries of [cache]. *)
Abbreviation cache := (list arp_cache_entry_t).

Definition arp_ip_is_zero (a : net_ipv4_t) : bool := ipv4_zero a.
Definition arp_ip_from_wire (b : list Z) : net_ipv4_t :=
  Ipv4 (b !!! 0%nat) (b !!! 1%nat) (b !!! 2%nat) (b !!! 3%nat).
Definition arp_ip_to_wire (a : net_ipv4_t) : list Z := octets a.
Definition arp_mac_is_zero (m : list Z) : bool := foldl Z.lor 0 (take 6 m) =? 0.
Definition arp_mac_is_valid_sender (m : list Z) : bool :=
  negb (arp_mac_is_zero m) && (Z.land (m !!! 0%nat) 1 =? 0).
Definition arp_ip_equal (l r : net_ipv4_t) : bool :=
  forallb (fun '(x, y) => x =? y) (zip (octets l) (octets r)).

(** The scan of [arp_cache_update]: the entry to overwrite ([inl]), or the
    first free index ([inr], the capacity when there is none). *)
Fixpoint update_scan (rest : cache) (i free : nat) (a : net_ipv4_t) : nat + nat :=
  match rest with
  | [] => inr free
  | e :: rest =>
      if valid e && net_ipv4_equal (e_address e) a then inl i
      else update_scan rest (S i)
             (if negb (valid e) && (free =? ARP_CACHE_CAPACITY)%nat then i else free) a
  end.
Definition arp_cache_update (c : cache) (a : net_ipv4_t) (m : list Z) : cache :=
  if arp_ip_is_zero a || negb (arp_mac_is_valid_sender m) then c
  else
    match update_scan c 0 ARP_CACHE_CAPACITY a with
    | inl i => alter (fun e => Entry (valid e) (e_address e) (net_mac_copy m)) i c
    | inr free =>
        if (free <? ARP_CACHE_CAPACITY)%nat
        then <[free := Entry true a (net_mac_copy m)]> c else c
    end.

Definition arp_init (c : cache) : cache :=
  map (fun e => Entry false (e_address e) (e_mac e)) c.
Definition arp_clear_cache (c : cache) : cache := arp_init c.

Fixpoint arp_lookup (c : cache) (a : net_ipv4_t) : option (list Z) :=
  match c with
  | [] => None
  | e :: c => if valid e && arp_ip_equal (e_address e) a then Some (net_mac_copy (e_mac e))
              else arp_lookup c a
  end.

(** [arp_wire_packet_t] as its 28 bytes. *)
Definition arp_packet (operation : Z) (sender_mac : list Z) (sender : net_ipv4_t)
    (target_mac : list Z) (target : net_ipv4_t) : list Z :=
  write_be16 ARP_HARDWARE_ETHERNET ++ write_be16 ARP_PROTOCOL_IPV4 ++ [6; 4] ++
  write_be16 operation ++ net_mac_copy sender_mac ++ arp_ip_to_wire sender ++
  net_mac_copy target_mac ++ arp_ip_to_wire target.

Definition zero_mac : list Z := [0; 0; 0; 0; 0; 0].

Section Operations.
(** The driver behind each device. *)
Variable driver : Z -> list Z -> bool.

Definition arp_request (st : net) (conf : net_config_t) (device : Z) (a : net_ipv4_t)
    : bool * net :=
  match structs st !! device with
  | None => (false, st)
  | Some d =>
      if (device =? 0) || arp_ip_is_zero a then (false, st)
      else ethernet_transmit driver st device broadcast_mac ETHERNET_ETHERTYPE_ARP
             (arp_packet ARP_OPERATION_REQUEST (mac d) (net_local_ipv4 conf) zero_mac a)
  end.

(** [request_mac] and [request_ip] are the sender fields of the request. *)
Definition arp_send_reply (st : net) (conf : net_config_t) (device : Z) (local_mac : list Z)
    (request_mac : list Z) (request_ip : net_ipv4_t) : bool * net :=
  ethernet_transmit driver st device request_mac ETHERNET_ETHERTYPE_ARP
    (arp_packet ARP_OPERATION_REPLY local_mac (net_local_ipv4 conf) request_mac request_ip).

(** [None]: a read outside the packet. *)
Definition arp_receive (st : net) (conf : net_config_t) (c : cache) (device : Z)
    (packet : list Z) : option (cache * net) :=
  match structs st !! device with
  | None => Some (c, st)
  | Some d =>
      if (device =? 0) || (size packet <? 28) then Some (c, st)
      else
        hardware_type ← rd_be16 packet 0;
        protocol_type ← rd_be16 packet 2;
        hardware_length ← rd packet 4;
        protocol_length ← rd packet 5;
        if negb (hardware_type =? ARP_HARDWARE_ETHERNET) ||
           negb (protocol_type =? ARP_PROTOCOL_IPV4) ||
           negb (hardware_length =? 6) || negb (protocol_length =? 4) then Some (c, st)
        else
          operation ← rd_be16 packet 6;
          if negb (operation =? ARP_OPERATION_REQUEST) && negb (operation =? ARP_OPERATION_REPLY)
          then Some (c, st)
          else
            sender_mac ← slice packet 8 6;
            if negb (arp_mac_is_valid_sender sender_mac) then Some (c, st)
            else
              sender_bytes ← slice packet 14 4;
              target_bytes ← slice packet 24 4;
              let sender := arp_ip_from_wire sender_bytes in
              let target := arp_ip_from_wire target_bytes in
              if arp_ip_is_zero sender then Some (c, st)
              else
                let c := arp_cache_update c sender sender_mac in
                if negb (net_ipv4_equal target (net_local_ipv4 conf)) then Some (c, st)
                else if operation =? ARP_OPERATION_REQUEST
                then Some (c, (arp_send_reply st conf device (mac d) sender_mac sender).2)
                else Some (c, st)
  end.

End Operations.

(** The entries copied out and the number of valid ones. *)
Definition arp_snapshot (c : cache) (capacity : Z) : list (net_ipv4_t * list Z) * Z :=
  let es := filter (fun e => valid e = true) c in
  (take (Z.to_nat capacity) (map (fun e => (e_address e, net_mac_copy (e_mac e))) es),
   Z.of_nat (length es)).

(** * Lemmas *)

Lemma net_ipv4_equal_iff a b : net_ipv4_equal a b = true <-> a = b.
Proof.
  destruct a, b. unfold net_ipv4_equal. cbn. rewrite !andb_true_iff, !Z.eqb_eq.
  split; [by intros [[[-> ->] ->] ->]|by intros [= -> -> -> ->]].
Qed.
Lemma arp_ip_equal_iff a b : arp_ip_equal a b = true <-> a = b.
Proof.
  destruct a, b. unfold arp_ip_equal. cbn. rewrite !andb_true_iff, !Z.eqb_eq.
  split; [by intros (-> & -> & -> & -> & _)|by intros [= -> -> -> ->]].
Qed.
Lemma ip_wire_round_trip a rest : arp_ip_from_wire (arp_ip_to_wire a ++ rest) = a.
Proof. by destruct a. Qed.

Arguments arp_ip_equal : simpl never.
Arguments net_ipv4_equal : simpl never.

(** The entry that holds an address. *)
Definition holds (c : cache) (i : nat) (a : net_ipv4_t) : Prop :=
  exists e, c !! i = Some e /\ valid e = true /\ e_address e = a.

(** At most one valid entry per address. *)
Definition cache_ok (c : cache) : Prop :=
  length c = ARP_CACHE_CAPACITY /\
  forall i j a, holds c i a -> holds c j a -> i = j.

Definition has_room (c : cache) (a : net_ipv4_t) : Prop :=
  (exists i, holds c i a) \/ (exists i e, c !! i = Some e /\ valid e = false).

Lemma arp_lookup_spec c a m :
  arp_lookup c a = Some m ->
  exists i e, c !! i = Some e /\ valid e = true /\ e_address e = a /\ m = net_mac_copy (e_mac e).
Proof.
  induction c as [|e c IH]; cbn; [done|]. destruct (valid e && _) eqn:E.
  - intros [= <-]. apply andb_true_iff in E as [E1 E2%arp_ip_equal_iff]. by exists 0%nat, e.
  - intros (i & e' & H)%IH. by exists (S i), e'.
Qed.
Lemma arp_lookup_holds c a i e :
  cache_ok c -> c !! i = Some e -> valid e = true -> e_address e = a ->
  arp_lookup c a = Some (net_mac_copy (e_mac e)).
Proof.
  intros [_ Hu] Hi Hv Ha. destruct (arp_lookup c a) as [m|] eqn:E.
  - destruct (arp_lookup_spec c a m E) as (j & e' & Hj & Hv' & Ha' & ->).
    assert (i = j) as <- by (apply (Hu i j a); [by exists e|by exists e']).
    congruence.
  - exfalso. clear Hu. revert i Hi. induction c as [|x c IH]; intros i Hi; [done|].
    cbn in E. destruct (valid x && _) eqn:Ex; [done|].
    destruct i as [|i]; [|by apply (IH E i)]. cbn in Hi. simplify_eq.
    rewrite Hv in Ex. cbn in Ex. apply not_true_iff_false in Ex. apply Ex.
    by apply arp_ip_equal_iff.
Qed.

Lemma update_scan_hit rest i free a k :
  update_scan rest i free a = inl k ->
  exists j e, (k = i + j)%nat /\ rest !! j = Some e /\ valid e = true /\ e_address e = a.
Proof.
  revert i free. induction rest as [|e rest IH]; intros i free; cbn; [done|].
  destruct (valid e && _) eqn:E.
  - intros [= <-]. apply andb_true_iff in E as [E1 E2%net_ipv4_equal_iff]. exists 0%nat, e.
    split; [lia|done].
  - intros (j & e' & -> & H)%IH. exists (S j), e'. split; [lia|done].
Qed.

Lemma update_scan_miss rest i free a f :
  update_scan rest i free a = inr f -> (i + length rest <= ARP_CACHE_CAPACITY)%nat ->
  (forall j, ~ holds rest j a) /\
  (if decide (free = ARP_CACHE_CAPACITY)
   then (exists j e, f = (i + j)%nat /\ rest !! j = Some e /\ valid e = false) \/
        (f = ARP_CACHE_CAPACITY /\ forall j e, rest !! j = Some e -> valid e = true)
   else f = free).
Proof.
  revert i free. induction rest as [|e rest IH]; intros i free; cbn [update_scan length].
  - intros [= <-] _. split; [by intros j (e & ? & _)|]. case_decide; [|done]. by right.
  - destruct (valid e && _) eqn:E; [done|]. intros H Hl. apply IH in H as [H1 H2]; [|lia].
    split.
    { intros [|j] (e' & Hj & Hv & Ha); [|by apply (H1 j); exists e']. cbn in Hj. simplify_eq.
      rewrite Hv in E. cbn in E. apply not_true_iff_false in E. apply E.
      by apply net_ipv4_equal_iff. }
    destruct (decide (free = ARP_CACHE_CAPACITY)) as [->|Hf].
    + rewrite Nat.eqb_refl, andb_true_r in H2. destruct (valid e) eqn:Ev; cbn [negb] in H2.
      * rewrite decide_True in H2 by done. destruct H2 as [(j & e' & -> & Hj & Hv)|[-> Hall]].
        -- left. exists (S j), e'. split; [lia|done].
        -- right. split; [done|]. intros [|j] e' Hj; [cbn in Hj; by simplify_eq|].
           by apply (Hall j).
      * rewrite decide_False in H2 by lia. left. exists 0%nat, e. split; [lia|done].
    + replace (free =? ARP_CACHE_CAPACITY)%nat with false in H2
        by (symmetry; by apply Nat.eqb_neq).
      rewrite andb_false_r, decide_False in H2 by done. done.
Qed.

(** Replacing an entry that does not serve [b] by one that does not. *)
Definition serves (e : arp_cache_entry_t) (b : net_ipv4_t) : bool :=
  valid e && arp_ip_equal (e_address e) b.
Lemma lookup_insert_other c k e e' b :
  c !! k = Some e -> serves e b = false -> serves e' b = false ->
  arp_lookup (<[k := e']> c) b = arp_lookup c b.
Proof.
  unfold serves. revert k. induction c as [|x c IH]; intros [|k] Hk He He'; try done.
  - cbn in Hk. simplify_eq. cbn. by rewrite He, He'.
  - change (<[S k := e']> (x :: c)) with (x :: <[k := e']> c). cbn [arp_lookup].
    by rewrite (IH k).
Qed.

(** An insertion that gives slot [k] to address [a], which no other slot
    holds. *)
Lemma cache_insert c k e a m :
  cache_ok c -> c !! k = Some e -> (forall j, holds c j a -> j = k) ->
  (valid e = true -> e_address e = a) -> mac_ok m ->
  cache_ok (<[k := Entry true a m]> c) /\ arp_lookup (<[k := Entry true a m]> c) a = Some m /\
  forall b, b <> a -> arp_lookup (<[k := Entry true a m]> c) b = arp_lookup c b.
Proof.
  intros Hok Hk Hu He Hm. pose proof (lookup_lt_Some _ _ _ Hk) as Hlt.
  assert (Hok' : cache_ok (<[k := Entry true a m]> c)).
  { destruct Hok as [Hl Huniq]. split; [by rewrite length_insert|].
    assert (Hc : forall i x, holds (<[k := Entry true a m]> c) i x ->
      (i = k /\ x = a) \/ (i <> k /\ holds c i x)).
    { intros i x (e' & Hi & Hv & Ha). destruct (decide (i = k)) as [->|Hne].
      - rewrite list_lookup_insert_eq in Hi by done. simplify_eq. by left.
      - rewrite list_lookup_insert_ne in Hi by done. right. split; [done|]. by exists e'. }
    intros i j x [[-> ->]|[Hi Hhi]]%Hc [[-> ?]|[Hj Hhj]]%Hc; try done.
    - exfalso. by apply Hj, Hu.
    - subst x. by apply Hu.
    - by eapply Huniq. }
  split; [done|]. split.
  - rewrite (arp_lookup_holds _ a k (Entry true a m)); [|done|by apply list_lookup_insert_eq|done..].
    cbn. unfold net_mac_copy. destruct Hm as [Hm _]. by rewrite take_ge by lia.
  - intros b Hb. apply (lookup_insert_other c k e); [done|unfold serves..].
    + destruct (valid e) eqn:Ev; [|done]. cbn. rewrite He by done.
      apply not_true_iff_false. rewrite arp_ip_equal_iff. congruence.
    + cbn. apply not_true_iff_false. rewrite arp_ip_equal_iff. congruence.
Qed.

(** The address and MAC are acceptable as a cache entry. *)
Definition learnable (a : net_ipv4_t) (m : list Z) : Prop :=
  ipv4_zero a = false /\ arp_mac_is_valid_sender m = true /\ mac_ok m.

Lemma arp_cache_update_spec c a m :
  cache_ok c -> learnable a m ->
  cache_ok (arp_cache_update c a m) /\
  (has_room c a -> arp_lookup (arp_cache_update c a m) a = Some m) /\
  (~ has_room c a -> arp_cache_update c a m = c) /\
  forall b, b <> a -> arp_lookup (arp_cache_update c a m) b = arp_lookup c b.
Proof.
  intros Hok (Ha & Hv & Hm). unfold arp_cache_update, arp_ip_is_zero. rewrite Ha, Hv. cbn [negb orb].
  assert (Hcopy : net_mac_copy m = m).
  { unfold net_mac_copy. destruct Hm as [Hm _]. by rewrite take_ge by lia. }
  rewrite Hcopy. destruct (update_scan c 0 ARP_CACHE_CAPACITY a) as [k|f] eqn:E.
  - apply update_scan_hit in E as (j & e & -> & Hj & Hve & Hae). cbn [Nat.add].
    assert (Eins : alter (fun e => Entry (valid e) (e_address e) m) j c =
      <[j := Entry true a m]> c).
    { apply list_eq. intros i. destruct (decide (i = j)) as [->|Hij].
      - rewrite list_lookup_alter_eq, Hj, list_lookup_insert_eq by (by eapply lookup_lt_Some).
        cbn. by rewrite Hve, Hae.
      - by rewrite list_lookup_alter_ne, list_lookup_insert_ne. }
    rewrite Eins. destruct (cache_insert c j e a m) as (H1 & H2 & H3); [done|done| |done|done|].
    { intros i Hi. apply (proj2 Hok i j a); [done|by exists e]. }
    split; [done|]. split; [done|]. split; [|done]. intros Hnr. exfalso. apply Hnr. left.
    exists j. by exists e.
  - apply update_scan_miss in E as [Hno Hf]; [|destruct Hok as [-> _]; done].
    rewrite decide_True in Hf by done. destruct Hf as [(j & e & -> & Hj & Hve)|[-> Hall]].
    + cbn [Nat.add]. pose proof (lookup_lt_Some _ _ _ Hj) as Hlt. destruct Hok as [Hlen Hu].
      rewrite Hlen in Hlt. replace (j <? ARP_CACHE_CAPACITY)%nat with true
        by (symmetry; by apply Nat.ltb_lt).
      destruct (cache_insert c j e a m) as (H1 & H2 & H3); [by split|done| |congruence|done|].
      { intros i Hi. by destruct (Hno i). }
      split; [done|]. split; [done|]. split; [|done]. intros Hnr. exfalso. apply Hnr. right.
      by exists j, e.
    + rewrite Nat.ltb_irrefl. split; [done|]. split; [|done].
      intros [[i Hi]|(i & e & Hi & Hve)]; [by destruct (Hno i)|].
      apply Hall in Hi. congruence.
Qed.

(** ** Reception *)

Lemma six_elements (m : list Z) :
  length m = 6%nat -> exists a b c d e f, m = [a; b; c; d; e; f].
Proof.
  intros H. destruct m as [|a [|b [|c [|d [|e [|f [|g m]]]]]]]; try done. eauto 10.
Qed.

Lemma arp_receive_safe driver st conf c device packet :
  is_Some (arp_receive driver st conf c device packet).
Proof.
  unfold arp_receive. destruct (structs st !! device) as [d|]; [|by eexists].
  destruct (_ || _) eqn:E; [by eexists|]. unfold size in E. unfold rd_be16, rd.
  assert (Hl : (28 <= length packet)%nat) by lia.
  rewrite !slice_in by lia. cbn [mbind option_bind].
  destruct (lookup_lt_is_Some_2 packet 4) as [h ->]; [lia|].
  destruct (lookup_lt_is_Some_2 packet 5) as [p ->]; [lia|]. cbn [mbind option_bind].
  repeat (destruct (_ || _) || destruct (_ && _) || destruct (negb _) || destruct (arp_ip_is_zero _)
    || destruct (_ =? _)); by eexists.
Qed.

(** What a well-formed ARP message does, with or without Ethernet padding. *)
Lemma arp_receive_packet driver st conf c device d op smac sip tmac tip pad :
  device <> 0 -> structs st !! device = Some d ->
  op = ARP_OPERATION_REQUEST \/ op = ARP_OPERATION_REPLY ->
  learnable sip smac -> mac_ok tmac ->
  arp_receive driver st conf c device (arp_packet op smac sip tmac tip ++ pad) =
    Some (arp_cache_update c sip smac,
          if net_ipv4_equal tip (net_local_ipv4 conf) && (op =? ARP_OPERATION_REQUEST)
          then (arp_send_reply driver st conf device (mac d) smac sip).2 else st).
Proof.
  intros Hd Hs Hop (Hz & Hv & [Hl Hb]) [Ht _]. unfold arp_receive. rewrite Hs.
  destruct (six_elements smac Hl) as (a1 & a2 & a3 & a4 & a5 & a6 & ->).
  destruct (six_elements tmac Ht) as (b1 & b2 & b3 & b4 & b5 & b6 & ->).
  destruct sip as [i1 i2 i3 i4], tip as [j1 j2 j3 j4].
  assert (Ho : read_be16 (write_be16 op) = op).
  { rewrite <- (app_nil_r (write_be16 op)). apply read_write_be16.
    unfold ARP_OPERATION_REQUEST, ARP_OPERATION_REPLY in Hop. mach. }
  unfold arp_packet, net_mac_copy, arp_ip_to_wire, octets. cbn [take app o0 o1 o2 o3 write_be16].
  set (p := u8 _ :: _). assert (Hlen : length p = (28 + length pad)%nat) by done.
  unfold size. rewrite Hlen. replace (_ || _) with false by lia.
  unfold rd_be16, rd. rewrite !slice_in by lia.
  change (take 2 (drop 0 p)) with (write_be16 ARP_HARDWARE_ETHERNET).
  change (take 2 (drop 2 p)) with (write_be16 ARP_PROTOCOL_IPV4).
  change (take 2 (drop 6 p)) with (write_be16 op).
  change (take 6 (drop 8 p)) with [a1; a2; a3; a4; a5; a6].
  change (take 4 (drop 14 p)) with [i1; i2; i3; i4].
  change (take 4 (drop 24 p)) with [j1; j2; j3; j4].
  change (p !! 4%nat) with (Some 6). change (p !! 5%nat) with (Some 4).
  cbn [mbind option_bind]. rewrite Ho.
  change (read_be16 (write_be16 ARP_HARDWARE_ETHERNET)) with ARP_HARDWARE_ETHERNET.
  change (read_be16 (write_be16 ARP_PROTOCOL_IPV4)) with ARP_PROTOCOL_IPV4.
  rewrite !Z.eqb_refl. cbn [negb orb].
  replace (negb _ && negb _) with false
    by (unfold ARP_OPERATION_REQUEST, ARP_OPERATION_REPLY in *; lia).
  rewrite Hv. cbn [negb]. unfold arp_ip_is_zero.
  change (arp_ip_from_wire [i1; i2; i3; i4]) with (Ipv4 i1 i2 i3 i4).
  change (arp_ip_from_wire [j1; j2; j3; j4]) with (Ipv4 j1 j2 j3 j4). rewrite Hz.
  destruct (net_ipv4_equal _ _); cbn [negb andb]; [|done].
  by destruct (op =? ARP_OPERATION_REQUEST).
Qed.

(** * Theorems *)

(** The ARP cache behaves as a map of at most sixteen addresses: learning
    an address makes it resolvable (if it is known or a slot is free, otherwise
    nothing changes), every other address resolves as before, and no address
    ever has two entries. *)
Theorem arp_cache_is_a_map (c : cache) (a : net_ipv4_t) (m : list Z) :
  cache_ok c -> learnable a m ->
  cache_ok (arp_cache_update c a m) /\
  (has_room c a -> arp_lookup (arp_cache_update c a m) a = Some m) /\
  (~ has_room c a -> arp_cache_update c a m = c) /\
  (forall b, b <> a -> arp_lookup (arp_cache_update c a m) b = arp_lookup c b) /\
  (forall b, arp_lookup (arp_clear_cache c) b = None).
Proof.
  intros Hok Hl. destruct (arp_cache_update_spec c a m Hok Hl) as (H1 & H2 & H3 & H4).
  split; [done|]. split; [done|]. split; [done|]. split; [done|].
  intros b. unfold arp_clear_cache, arp_init. clear. by induction c.
Qed.

(** A complete exchange resolves both ways.  When host [A] asks for host
    [B]'s address, [B] learns [A]'s MAC from the broadcast and answers with a
    unicast reply (the frame given to its driver), and from that reply [A] learns
    [B]'s MAC. *)
Theorem arp_exchange_resolves (driverA driverB : Z -> list Z -> bool) (stA stB : net)
    (confA confB : net_config_t) (cacheA cacheB : cache) (devA devB : Z) (dA dB : net_device) :
  devA <> 0 -> devB <> 0 ->
  structs stA !! devA = Some dA -> structs stB !! devB = Some dB ->
  learnable (address confA) (mac dA) -> learnable (address confB) (mac dB) ->
  cache_ok cacheA -> cache_ok cacheB ->
  has_room cacheA (address confB) -> has_room cacheB (address confA) ->
  let request := arp_packet ARP_OPERATION_REQUEST (mac dA) (address confA) zero_mac (address confB) in
  let reply := arp_packet ARP_OPERATION_REPLY (mac dB) (address confB) (mac dA) (address confA) in
  arp_request driverA stA confA devA (address confB) =
    ethernet_transmit driverA stA devA broadcast_mac ETHERNET_ETHERTYPE_ARP request /\
  exists cacheA' cacheB',
    arp_receive driverB stB confB cacheB devB request =
      Some (cacheB', (ethernet_transmit driverB stB devB (mac dA) ETHERNET_ETHERTYPE_ARP reply).2) /\
    arp_receive driverA stA confA cacheA devA reply = Some (cacheA', stA) /\
    arp_lookup cacheB' (address confA) = Some (mac dA) /\
    arp_lookup cacheA' (address confB) = Some (mac dB).
Proof.
  intros HdA HdB HsA HsB HlA HlB HcA HcB HrA HrB request reply.
  split.
  { unfold arp_request. rewrite HsA. destruct HlB as [Hz _]. unfold arp_ip_is_zero. rewrite Hz.
    by replace ((devA =? 0) || false) with false by lia. }
  exists (arp_cache_update cacheA (address confB) (mac dB)),
    (arp_cache_update cacheB (address confA) (mac dA)).
  assert (Hz : mac_ok zero_mac) by (split; [done|by_decision]).
  assert (HmA : mac_ok (mac dA)) by apply HlA.
  pose proof (arp_receive_packet driverB stB confB cacheB devB dB ARP_OPERATION_REQUEST (mac dA)
    (address confA) zero_mac (address confB) [] HdB HsB (or_introl eq_refl) HlA Hz) as R1.
  pose proof (arp_receive_packet driverA stA confA cacheA devA dA ARP_OPERATION_REPLY (mac dB)
    (address confB) (mac dA) (address confA) [] HdA HsA (or_intror eq_refl) HlB HmA) as R2.
  rewrite app_nil_r in R1, R2. unfold net_local_ipv4 in R1.
  assert (Hrefl : net_ipv4_equal (address confB) (address confB) = true)
    by by apply net_ipv4_equal_iff.
  rewrite Hrefl in R1. cbn [andb] in R1. rewrite andb_false_r in R2.
  split; [exact R1|]. split; [exact R2|]. split.
  - by apply arp_cache_update_spec.
  - by apply arp_cache_update_spec.
Qed.

(** * Concrete instances *)

Definition empty_cache : cache := replicate 16 (Entry false zero_ip zero_mac).
Lemma empty_cache_ok : cache_ok empty_cache.
Proof.
  split; [done|]. intros i j a (e & He & Hv & _). apply lookup_replicate in He as [-> _]. done.
Qed.
Lemma empty_cache_room a : has_room empty_cache a.
Proof. right. by exists 0%nat, (Entry false zero_ip zero_mac). Qed.

Definition mac1 : list Z := [2; 0; 0; 0; 0; 1].
Definition mac2 : list Z := [2; 0; 0; 0; 0; 2].
Definition ip1 : net_ipv4_t := Ipv4 10 0 0 1.
Definition ip2 : net_ipv4_t := Ipv4 10 0 0 2.
Lemma learnable1 : learnable ip1 mac1.
Proof. split; [done|]. split; [done|]. split; [done|by_decision]. Qed.
Lemma learnable2 : learnable ip2 mac2.
Proof. split; [done|]. split; [done|]. split; [done|by_decision]. Qed.

Lemma arp_cache_is_a_map_witness :
  arp_lookup (arp_cache_update empty_cache ip1 mac1) ip1 = Some mac1.
Proof.
  apply (arp_cache_is_a_map empty_cache ip1 mac1 empty_cache_ok learnable1), empty_cache_room.
Defined.

Definition host_device (m : list Z) : net_device := Device 1 1 (Some []) m 1500 true true true true.
Definition host_net (m : list Z) : net :=
  Net 8 [8] {[ 8 := host_device m ]} 1 1 0 0 0 [] [].
Definition host_conf (a : net_ipv4_t) : net_config_t :=
  (net_config_apply_manual net_config_init None (Some a) 24 (Some ip1) (Some ip1)).2.

Lemma arp_exchange_resolves_witness :
  exists cacheA' cacheB',
    arp_receive (fun _ _ => true) (host_net mac2) (host_conf ip2) empty_cache 8
      (arp_packet ARP_OPERATION_REQUEST mac1 ip1 zero_mac ip2) =
      Some (cacheB', (ethernet_transmit (fun _ _ => true) (host_net mac2) 8 mac1
        ETHERNET_ETHERTYPE_ARP (arp_packet ARP_OPERATION_REPLY mac2 ip2 mac1 ip1)).2) /\
    arp_lookup cacheB' ip1 = Some mac1 /\ arp_lookup cacheA' ip2 = Some mac2.
Proof.
  destruct (arp_exchange_resolves (fun _ _ => true) (fun _ _ => true) (host_net mac1)
    (host_net mac2) (host_conf ip1) (host_conf ip2) empty_cache empty_cache 8 8
    (host_device mac1) (host_device mac2)) as (_ & cA & cB & H1 & _ & H2 & H3);
    [discriminate|discriminate|reflexivity|reflexivity|exact learnable1|exact learnable2
    |exact empty_cache_ok|exact empty_cache_ok|apply empty_cache_room|apply empty_cache_room|].
  exists cA, cB. exact (conj H1 (conj H2 H3)).
Defined.

End Arp.
