(* ===== verification/Ipv4.v ===== *)
(** IPv4 ([kernel/src/net/ipv4.c]): packet construction, next-hop choice and
    the validation and dispatch of received packets. *)
From stdpp Require Import gmap.
From S2P Require Import Prelude Checksum NetConfig NetDevice Ethernet Arp.
Import Checksum NetConfig NetDevice Ethernet Arp.

Module Ipv4.

Definition IPV4_PROTOCOL_ICMP : Z := 1.
Definition IPV4_PROTOCOL_UDP : Z := 17.
Definition TCP_PROTOCOL : Z := 6.
Definition IPV4_TTL_DEFAULT : Z := 64.
(** [sizeof(ipv4_wire_header_t)] *)
Definition HEADER_SIZE : Z := 20.

Definition ipv4_from_wire (b : list Z) : net_ipv4_t :=
  Ipv4 (b !!! 0%nat) (b !!! 1%nat) (b !!! 2%nat) (b !!! 3%nat).
Definition ipv4_to_wire (a : net_ipv4_t) : list Z := octets a.

Definition ipv4_same_subnet (conf : net_config_t) (l r : net_ipv4_t) : bool :=
  let mask := net_netmask_ipv4 conf in
  forallb (fun '((x, y), m) => Z.land x m =? Z.land y m)
    (zip (zip (octets l) (octets r)) (octets mask)).

Definition ipv4_is_broadcast (a : net_ipv4_t) : bool :=
  (o0 a =? 255) && (o1 a =? 255) && (o2 a =? 255) && (o3 a =? 255).

Definition ipv4_next_hop (conf : net_config_t) (destination : net_ipv4_t) : net_ipv4_t :=
  if ipv4_same_subnet conf destination (net_local_ipv4 conf) then destination
  else net_gateway_ipv4 conf.

(** The header around its checksum field. *)
Definition header_pre (total_length identification protocol : Z) : list Z :=
  [0x45; 0] ++ write_be16 total_length ++ write_be16 identification ++ write_be16 0x4000 ++
  [IPV4_TTL_DEFAULT; protocol].
Definition header_post (source destination : net_ipv4_t) : list Z :=
  ipv4_to_wire source ++ ipv4_to_wire destination.

(** The packet [ipv4_transmit_from] builds: the checksum is computed over the
    header with a zero checksum field. *)
Definition ipv4_packet (identification : Z) (source destination : net_ipv4_t) (protocol : Z)
    (payload : list Z) : list Z :=
  let pre := header_pre (u16 (HEADER_SIZE + size payload)) identification protocol in
  let post := header_post source destination in
  pre ++ write_be16 (net_checksum (Some (pre ++ [0; 0] ++ post))) ++ post ++ payload.

Section Transmit.
Variable driver : Z -> list Z -> bool.

(** [identification] is the function's static counter; the answer is the
    return value, the counter and the devices. *)
Definition ipv4_transmit_from (st : net) (conf : net_config_t) (c : cache) (identification : Z)
    (device : Z) (source destination : net_ipv4_t) (protocol : Z) (payload : list Z)
    : bool * Z * net :=
  match structs st !! device with
  | None => (false, identification, st)
  | Some d =>
      if (device =? 0) || (mtu d <? HEADER_SIZE) || (mtu d - HEADER_SIZE <? size payload) ||
         (0xFFFF <? HEADER_SIZE + size payload)
      then (false, identification, st)
      else
        let send destination_mac :=
          let '(ok, st) := ethernet_transmit driver st device destination_mac
                             ETHERNET_ETHERTYPE_IPV4
                             (ipv4_packet identification source destination protocol payload) in
          (ok, u16 (identification + 1), st) in
        if ipv4_is_broadcast destination then send broadcast_mac
        else if negb (net_network_configured conf) then (false, identification, st)
        else
          let next_hop := ipv4_next_hop conf destination in
          match arp_lookup c next_hop with
          | None => (false, identification, (arp_request driver st conf device next_hop).2)
          | Some destination_mac => send destination_mac
          end
  end.

Definition ipv4_transmit (st : net) (conf : net_config_t) (c : cache) (identification : Z)
    (device : Z) (destination : net_ipv4_t) (protocol : Z) (payload : list Z)
    : bool * Z * net :=
  ipv4_transmit_from st conf c identification device (net_local_ipv4 conf) destination protocol
    payload.

End Transmit.

(** What the transport protocols use of the layers below: devices,
    configuration, ARP cache and the identification counter. *)
Record stack := Stack {
  s_net : net; s_conf : net_config_t; s_cache : cache; s_ident : Z;
}.

(** The protocol a received packet goes to. *)
Inductive ipv4_dispatch :=
  | Drop4
  | To_icmp (source destination : net_ipv4_t) (payload : list Z)
  | To_udp (source destination : net_ipv4_t) (payload : list Z)
  | To_tcp (source destination : net_ipv4_t) (payload : list Z).

Definition ipv4_receive (conf : net_config_t) (packet : list Z) : option ipv4_dispatch :=
  if size packet <? HEADER_SIZE then Some Drop4
  else
    version_ihl ← rd packet 0;
    if negb (Z.shiftr version_ihl 4 =? 4) || (Z.land version_ihl 0x0F <? 5) then Some Drop4
    else
      let header_length := Z.to_nat (Z.land version_ihl 0x0F * 4) in
      if (length packet <? header_length)%nat then Some Drop4
      else
        header ← slice packet 0 header_length;
        if negb (net_checksum_valid (Some header)) then Some Drop4
        else
          total_length ← rd_be16 packet 2;
          if (total_length <? Z.of_nat header_length) || (size packet <? total_length)
          then Some Drop4
          else
            source_bytes ← slice packet 12 4;
            destination_bytes ← slice packet 16 4;
            protocol ← rd packet 9;
            let source := ipv4_from_wire source_bytes in
            let destination := ipv4_from_wire destination_bytes in
            if negb (net_ipv4_equal destination (net_local_ipv4 conf)) &&
               negb (ipv4_is_broadcast destination) then Some Drop4
            else
              payload ← slice packet header_length (Z.to_nat total_length - header_length);
              if protocol =? IPV4_PROTOCOL_ICMP then Some (To_icmp source destination payload)
              else if protocol =? IPV4_PROTOCOL_UDP then Some (To_udp source destination payload)
              else if protocol =? TCP_PROTOCOL then Some (To_tcp source destination payload)
              else Some Drop4.

(** * Lemmas *)

(** Transmission leaves the registered devices alone. *)
Definition same_devices (st st' : net) : Prop :=
  devices st' = devices st /\ structs st' = structs st.

Lemma netdev_transmit_devices driver st device frame :
  same_devices st (netdev_transmit driver st device frame).2.
Proof.
  unfold netdev_transmit. destruct (structs st !! device); [|done].
  destruct (_ || _); [done|]. by destruct (negb _).
Qed.
Lemma ethernet_transmit_devices driver st device dst ethertype payload :
  same_devices st (ethernet_transmit driver st device dst ethertype payload).2.
Proof.
  unfold ethernet_transmit. destruct (structs st !! device); [|done].
  destruct (_ || _); [done|]. apply netdev_transmit_devices.
Qed.
Lemma ipv4_transmit_devices driver st conf c i device src dst protocol payload :
  same_devices st (ipv4_transmit_from driver st conf c i device src dst protocol payload).2.
Proof.
  assert (He := fun m e p => ethernet_transmit_devices driver st device m e p).
  unfold ipv4_transmit_from. destruct (structs st !! device); [|done]. destruct (_ || _); [done|].
  cbv zeta.
  assert (Hs : forall m, same_devices st
    (let '(ok, st') := ethernet_transmit driver st device m ETHERNET_ETHERTYPE_IPV4
       (ipv4_packet i src dst protocol payload) in (ok, u16 (i + 1), st')).2).
  { intros m. specialize (He m ETHERNET_ETHERTYPE_IPV4 (ipv4_packet i src dst protocol payload)).
    by destruct (ethernet_transmit _ _ _ _ _ _). }
  destruct (ipv4_is_broadcast dst); [apply Hs|]. destruct (negb _); [done|].
  destruct (arp_lookup _ _); [apply Hs|]. cbn. unfold arp_request.
  destruct (structs st !! device); [|done]. destruct (_ || _); [done|]. apply He.
Qed.

Lemma same_devices_current st st' device gen :
  same_devices st st' ->
  net_device_instance_current st' device gen = net_device_instance_current st device gen.
Proof. intros [H1 H2]. unfold net_device_instance_current. by rewrite H1, H2. Qed.

(** Reception of arbitrary bytes stays inside the packet. *)
Lemma ipv4_receive_safe conf packet :
  exists r, ipv4_receive conf packet = Some r /\
    match r with
    | Drop4 => True
    | To_icmp _ _ p | To_udp _ _ p | To_tcp _ _ p => size p + HEADER_SIZE <= size packet
    end.
Proof.
  apply answers. unfold ipv4_receive, size, HEADER_SIZE.
  destruct (Z.ltb_spec (Z.of_nat (length packet)) 20); [done|]. unfold rd, rd_be16.
  destruct (lookup_lt_is_Some_2 packet 0) as [v ->]; [lia|]. cbn [mbind option_bind].
  destruct (negb _ || _) eqn:Ev; [done|]. cbv zeta.
  set (h := Z.to_nat (Z.land v 15 * 4)). assert (Hh : (20 <= h)%nat).
  { apply orb_false_iff in Ev as [_ Ev%Z.ltb_ge]. unfold h. revert Ev.
    generalize (Z.land v 15). clear. lia. }
  clear Ev. clearbody h. destruct (Nat.ltb_spec (length packet) h); [done|].
  rewrite (slice_in packet 0) by lia. cbn [mbind option_bind]. destruct (negb _); [done|].
  rewrite (slice_in packet 2) by lia. cbn [mbind option_bind].
  set (total := read_be16 _). destruct ((total <? _) || _) eqn:Et; [done|].
  rewrite (slice_in packet 12), (slice_in packet 16) by lia. cbn [mbind option_bind].
  destruct (lookup_lt_is_Some_2 packet 9) as [pr ->]; [lia|]. cbn [mbind option_bind].
  destruct (negb _ && _); [done|]. rewrite (slice_in packet h) by lia. cbn [mbind option_bind].
  assert (Hl : Z.of_nat (length (take (Z.to_nat total - h) (drop h packet))) + 20 <=
    Z.of_nat (length packet)) by (rewrite length_take, length_drop; lia).
  destruct (pr =? _); [done|]. destruct (pr =? _); [done|]. by destruct (pr =? _).
Qed.

Lemma octets_bytes a : ipv4_ok a -> bytes (octets a).
Proof. done. Qed.

Lemma header_pre_facts total ident protocol :
  is_u8 protocol -> bytes (header_pre total ident protocol) /\
  length (header_pre total ident protocol) = 10%nat.
Proof.
  intros Hp. split; [|done]. unfold header_pre. rewrite !bytes_app.
  split; [by_decision|]. do 3 (split; [apply write_be16_bytes|]).
  apply Forall_cons_2; [by_decision|]. apply Forall_cons_2; [done|apply Forall_nil_2].
Qed.

(** The protocol handler a packet of a given protocol number reaches. *)
Definition dispatch_of (protocol : Z) (source destination : net_ipv4_t) (payload : list Z)
    : ipv4_dispatch :=
  if protocol =? IPV4_PROTOCOL_ICMP then To_icmp source destination payload
  else if protocol =? IPV4_PROTOCOL_UDP then To_udp source destination payload
  else if protocol =? TCP_PROTOCOL then To_tcp source destination payload
  else Drop4.

Lemma ipv4_receive_packet conf ident source destination protocol payload pad :
  is_u16 ident -> is_u8 protocol -> ipv4_ok source -> ipv4_ok destination ->
  HEADER_SIZE + size payload < 65536 ->
  destination = address conf \/ ipv4_is_broadcast destination = true ->
  ipv4_receive conf (ipv4_packet ident source destination protocol payload ++ pad) =
    Some (dispatch_of protocol source destination payload).
Proof.
  intros Hi Hp Hs Hd Hl Ha. unfold ipv4_packet, size in *. cbv zeta.
  set (total := u16 (HEADER_SIZE + Z.of_nat (length payload))).
  assert (Ht : total = 20 + Z.of_nat (length payload)).
  { unfold total. rewrite u16_id; [done|]. unfold HEADER_SIZE in *. mach. }
  assert (Htr : is_u16 total) by (unfold HEADER_SIZE in *; mach). clearbody total.
  destruct (header_pre_facts total ident protocol Hp) as [Hpre Lpre].
  set (post := header_post source destination).
  assert (Hpost : bytes post) by (apply bytes_app; by split).
  pose proof (checksum_field_valid _ _ Hpre Hpost ltac:(by rewrite Lpre)) as Hck.
  set (ck := net_checksum _) in *. set (pre := header_pre total ident protocol) in *.
  set (header := pre ++ write_be16 ck ++ post) in *.
  assert (Lh : length header = 20%nat) by (unfold header; rewrite !length_app, Lpre; done).
  replace ((pre ++ write_be16 ck ++ post ++ payload) ++ pad) with (header ++ payload ++ pad)
    by (unfold header; by rewrite <- !app_assoc).
  unfold ipv4_receive, size, HEADER_SIZE. rewrite !length_app, Lh.
  replace (Z.of_nat (20 + (length payload + length pad)) <? 20) with false by lia.
  unfold rd. change ((header ++ payload ++ pad) !! 0%nat) with (Some 0x45).
  cbn [mbind option_bind]. change (Z.to_nat (Z.land 0x45 0x0F * 4)) with 20%nat.
  change (negb (Z.shiftr 0x45 4 =? 4) || (Z.land 0x45 0x0F <? 5)) with false. cbv iota zeta.
  replace (20 + (length payload + length pad) <? 20)%nat with false
    by (symmetry; apply Nat.ltb_ge; lia).
  rewrite slice_app_l by done. cbn [mbind option_bind]. rewrite Hck. cbn [negb].
  assert (E2 : rd_be16 (header ++ payload ++ pad) 2 = Some total).
  { unfold header, pre, header_pre. rewrite <- !app_assoc. by apply (rd_be16_write [69; 0]). }
  rewrite E2. cbn [mbind option_bind]. replace (_ || _) with false by lia.
  rewrite !slice_in by (rewrite !length_app, Lh; lia). cbn [mbind option_bind].
  change ((header ++ payload ++ pad) !! 9%nat) with (Some protocol). cbn [mbind option_bind].
  change (take 4 (drop 12 (header ++ payload ++ pad))) with (octets source).
  change (take 4 (drop 16 (header ++ payload ++ pad))) with (octets destination).
  assert (Ew : forall a, ipv4_from_wire (octets a) = a) by (by intros []).
  rewrite !Ew. replace (_ && _) with false.
  2: { symmetry. destruct Ha as [-> | ->]; [|apply andb_false_r].
    unfold net_local_ipv4. rewrite (proj2 (net_ipv4_equal_iff _ _) eq_refl). done. }
  replace (Z.to_nat total - 20)%nat with (length payload) by lia.
  rewrite <- Lh, drop_app_length, take_app_length. unfold dispatch_of.
  by repeat case_match.
Qed.

(** * Theorem *)

(** A packet built by [ipv4_transmit_from] for this host (or broadcast)
    reaches, at the receiver, the handler of its protocol with exactly the
    source, destination and payload given by the sender, whatever padding the
    link adds; and no received packet whatsoever is read outside its bounds. *)
Theorem ipv4_delivery (conf : net_config_t) (ident protocol : Z)
    (source destination : net_ipv4_t) (payload pad arbitrary : list Z) :
  is_u16 ident -> is_u8 protocol -> ipv4_ok source -> ipv4_ok destination ->
  HEADER_SIZE + size payload < 65536 ->
  destination = address conf \/ ipv4_is_broadcast destination = true ->
  ipv4_receive conf (ipv4_packet ident source destination protocol payload ++ pad) =
    Some (dispatch_of protocol source destination payload) /\
  is_Some (ipv4_receive conf arbitrary).
Proof.
  intros. split; [by apply ipv4_receive_packet|].
  destruct (ipv4_receive_safe conf arbitrary) as (r & -> & _). by eexists.
Qed.

Lemma ipv4_delivery_witness :
  ipv4_receive (host_conf ip2) (ipv4_packet 7 ip1 ip2 17 [1; 2; 3] ++ [0; 0]) =
    Some (To_udp ip1 ip2 [1; 2; 3]) /\
  is_Some (ipv4_receive (host_conf ip2) [69]).
Proof.
  apply (ipv4_delivery (host_conf ip2) 7 17 ip1 ip2 [1; 2; 3] [0; 0] [69]);
    [by_decision|by_decision|by_decision|by_decision|by_decision|left; reflexivity].
Defined.

End Ipv4.
