(* ===== verification/Icmp.v ===== *)
(** ICMP echo ([kernel/src/net/icmp.c]): the ping state, echo requests, the
    replies to them and the reception of ICMP messages. *)
From stdpp Require Import gmap.
From S2P Require Import Prelude Checksum NetConfig NetDevice Ethernet Arp Ipv4.
Import Checksum NetConfig NetDevice Ethernet Arp Ipv4.

Module Icmp.

Definition ICMP_TYPE_ECHO_REPLY : Z := 0.
Definition ICMP_TYPE_ECHO_REQUEST : Z := 8.
(** [sizeof(icmp_echo_wire_t)] *)
Definition ECHO_SIZE : Z := 8.
(** The size of the packet buffers,
    [NET_ETHERNET_MAX_FRAME - NET_ETHERNET_HEADER_SIZE - 20]. *)
Definition PACKET_SIZE : Z := NET_ETHERNET_MAX_FRAME - NET_ETHERNET_HEADER_SIZE - 20.

Record ping_state := Ping {
  pending : bool;
  received : bool;
  identifier : Z;
  sequence : Z;
  source : net_ipv4_t;
  reply_length : Z;
  received_at_ms : Z;
}.

Definition icmp_init (p : ping_state) : ping_state :=
  Ping false false (identifier p) (sequence p) (source p) (reply_length p) (received_at_ms p).

(** [checksum_at_2 packet]: the packet with its bytes 2 and 3 cleared and then
    set to the checksum of the whole. *)
Definition checksum_at_2 (packet : list Z) : list Z :=
  let cleared := <[2%nat := 0]> (<[3%nat := 0]> packet) in
  let sum := write_be16 (net_checksum (Some cleared)) in
  <[2%nat := sum !!! 0%nat]> (<[3%nat := sum !!! 1%nat]> cleared).

(** The packet [icmp_echo_request] builds. *)
Definition echo_message (type ident seq : Z) (payload : list Z) : list Z :=
  checksum_at_2 ([type; 0; 0; 0] ++ write_be16 ident ++ write_be16 seq ++ payload).

Section Operations.
Variable driver : Z -> list Z -> bool.

(** The answer is the return value, the ping state, IPv4's identification
    counter and the devices. *)
Definition icmp_echo_request (st : net) (conf : net_config_t) (c : cache) (identification : Z)
    (p : ping_state) (device : Z) (destination : net_ipv4_t) (ident seq : Z)
    (payload : option (list Z)) : bool * ping_state * Z * net :=
  match payload with
  | None => (false, p, identification, st)
  | Some payload =>
      if (device =? 0) || (PACKET_SIZE - ECHO_SIZE <? size payload)
      then (false, p, identification, st)
      else
        let '(ok, identification, st) :=
          ipv4_transmit driver st conf c identification device destination IPV4_PROTOCOL_ICMP
            (echo_message ICMP_TYPE_ECHO_REQUEST ident seq payload) in
        (ok, Ping ok false ident seq (source p) (reply_length p) (received_at_ms p),
         identification, st)
  end.

Definition icmp_echo_reply_received (p : ping_state) (ident seq : Z) : bool :=
  received p && (identifier p =? ident) && (sequence p =? seq).

Definition icmp_echo_reply_info (p : ping_state) (ident seq : Z)
    : option (net_ipv4_t * Z * Z) :=
  if negb (icmp_echo_reply_received p ident seq) then None
  else Some (source p, reply_length p, received_at_ms p).

(** The reply is the request with another type; the stores at offsets 0, 2
    and 3 are inside the buffer, and inside the message because the caller has
    checked its length. *)
Definition icmp_send_reply (st : net) (conf : net_config_t) (c : cache) (identification : Z)
    (device : Z) (destination : net_ipv4_t) (packet : list Z) : Z * net :=
  if PACKET_SIZE <? size packet then (identification, st)
  else
    let '(_, identification, st) :=
      ipv4_transmit driver st conf c identification device destination IPV4_PROTOCOL_ICMP
        (checksum_at_2 (<[0%nat := ICMP_TYPE_ECHO_REPLY]> packet)) in
    (identification, st).

(** [now] is [timer_uptime_ms()]; [None] is a read outside the packet. *)
Definition icmp_receive (now : Z) (st : net) (conf : net_config_t) (c : cache)
    (identification : Z) (p : ping_state) (device : Z) (from : net_ipv4_t) (packet : list Z)
    : option (ping_state * Z * net) :=
  if (device =? 0) || (size packet <? ECHO_SIZE) || negb (net_checksum_valid (Some packet))
  then Some (p, identification, st)
  else
    type ← rd packet 0;
    code ← rd packet 1;
    if negb (code =? 0) ||
       (negb (type =? ICMP_TYPE_ECHO_REPLY) && negb (type =? ICMP_TYPE_ECHO_REQUEST))
    then Some (p, identification, st)
    else
      ident ← rd_be16 packet 4;
      seq ← rd_be16 packet 6;
      if type =? ICMP_TYPE_ECHO_REPLY then
        if pending p && (identifier p =? ident) && (sequence p =? seq)
        then Some (Ping false true (identifier p) (sequence p) from (size packet - ECHO_SIZE) now,
                   identification, st)
        else Some (p, identification, st)
      else
        let '(identification, st) :=
          icmp_send_reply st conf c identification device from packet in
        Some (p, identification, st).

End Operations.

(** * Lemmas *)

(** Reception of arbitrary bytes stays inside the packet. *)
Lemma icmp_receive_safe driver now st conf c i p device from packet :
  is_Some (icmp_receive driver now st conf c i p device from packet).
Proof.
  unfold icmp_receive, ECHO_SIZE, size.
  destruct (Z.ltb_spec (Z.of_nat (length packet)) 8).
  { rewrite orb_true_r. by eexists. }
  destruct (_ || _); [by eexists|]. unfold rd, rd_be16.
  destruct (lookup_lt_is_Some_2 packet 0) as [t ->]; [lia|].
  destruct (lookup_lt_is_Some_2 packet 1) as [k ->]; [lia|]. cbn [mbind option_bind].
  destruct (_ || _); [by eexists|].
  rewrite (slice_in packet 4), (slice_in packet 6) by lia. cbn [mbind option_bind].
  destruct (t =? _); [destruct (_ && _); by eexists|]. destruct (icmp_send_reply _ _ _ _ _ _ _ _).
  by eexists.
Qed.

Lemma echo_message_shape type ident seq payload :
  let post := write_be16 ident ++ write_be16 seq ++ payload in
  echo_message type ident seq payload =
    [type; 0] ++ write_be16 (net_checksum (Some ([type; 0] ++ [0; 0] ++ post))) ++ post.
Proof. reflexivity. Qed.

Lemma echo_message_valid type ident seq payload :
  is_u8 type -> bytes payload ->
  net_checksum_valid (Some (echo_message type ident seq payload)) = true.
Proof.
  intros Ht Hp. rewrite echo_message_shape. apply checksum_field_valid; [| |done].
  - apply Forall_cons_2; [done|]. by_decision.
  - rewrite !bytes_app. split; [apply write_be16_bytes|]. split; [apply write_be16_bytes|done].
Qed.

Lemma size_echo_message type ident seq payload :
  size (echo_message type ident seq payload) = 8 + size payload.
Proof. unfold size. rewrite echo_message_shape, !length_app. cbn. lia. Qed.

(** The reply to a request is the reply message with the same contents. *)
Lemma reply_to_request ident seq payload :
  checksum_at_2 (<[0%nat := ICMP_TYPE_ECHO_REPLY]>
    (echo_message ICMP_TYPE_ECHO_REQUEST ident seq payload)) =
  echo_message ICMP_TYPE_ECHO_REPLY ident seq payload.
Proof. reflexivity. Qed.

(** How a message built by [echo_message] is received. *)
Lemma icmp_receive_message driver now st conf c i p device from type ident seq payload :
  device <> 0 -> type = ICMP_TYPE_ECHO_REPLY \/ type = ICMP_TYPE_ECHO_REQUEST ->
  is_u16 ident -> is_u16 seq -> bytes payload ->
  icmp_receive driver now st conf c i p device from (echo_message type ident seq payload) =
    Some (if type =? ICMP_TYPE_ECHO_REPLY then
      (if pending p && (identifier p =? ident) && (sequence p =? seq)
       then Ping false true (identifier p) (sequence p) from (size payload) now else p, i, st)
    else
      let r := icmp_send_reply driver st conf c i device from
                 (echo_message type ident seq payload) in (p, r.1, r.2)).
Proof.
  intros Hd Ht Hi Hs Hp. unfold icmp_receive. rewrite size_echo_message.
  rewrite echo_message_valid by (done || (destruct Ht as [-> | ->]; by_decision)).
  replace ((device =? 0) || (8 + size payload <? ECHO_SIZE) || negb true) with false
    by (unfold ECHO_SIZE, size; cbn [negb]; lia).
  set (msg := echo_message type ident seq payload).
  change (rd msg 0) with (Some type). change (rd msg 1) with (Some 0).
  cbn [mbind option_bind]. replace (negb (0 =? 0) || _) with false
    by (destruct Ht as [-> | ->]; done).
  assert (E4 : rd_be16 msg 4 = Some ident).
  { unfold msg. rewrite echo_message_shape, app_assoc. by apply rd_be16_write. }
  assert (E6 : rd_be16 msg 6 = Some seq).
  { unfold msg. rewrite echo_message_shape, !app_assoc. by rewrite <- app_assoc; apply rd_be16_write. }
  rewrite E4, E6. cbn [mbind option_bind].
  replace (8 + size payload - ECHO_SIZE) with (size payload) by (unfold ECHO_SIZE; lia).
  destruct (type =? _); [by destruct (_ && _)|].
  by destruct (icmp_send_reply driver st conf c i device from msg).
Qed.

(** * Theorem *)

(** Ping works end to end.  Host [A]'s request is the echo message handed
    to IPv4; host [B] answers it with the reply message of the same
    identifier, sequence and payload, addressed to [A]; when [A] receives that
    reply while the ping is pending, [icmp_echo_reply_info] reports [B]'s
    address, the payload's length and the time of arrival for exactly this
    identifier and sequence; a reply with another identifier or sequence
    changes nothing. *)
Theorem icmp_ping_round_trip (driverA driverB : Z -> list Z -> bool) (nowA nowB : Z)
    (stA stA' stB : net) (confA confB : net_config_t) (cacheA cacheB : cache)
    (iA iA' iB devA devB : Z) (pA pA' pB : ping_state) (ipA ipB : net_ipv4_t)
    (ident seq : Z) (payload : list Z) :
  devA <> 0 -> devB <> 0 -> is_u16 ident -> is_u16 seq -> bytes payload ->
  size payload <= PACKET_SIZE - ECHO_SIZE ->
  icmp_echo_request driverA stA confA cacheA iA pA devA ipB ident seq (Some payload) =
    (true, pA', iA', stA') ->
  let request := echo_message ICMP_TYPE_ECHO_REQUEST ident seq payload in
  let reply := echo_message ICMP_TYPE_ECHO_REPLY ident seq payload in
  ipv4_transmit driverA stA confA cacheA iA devA ipB IPV4_PROTOCOL_ICMP request =
    (true, iA', stA') /\
  (let sent := ipv4_transmit driverB stB confB cacheB iB devB ipA IPV4_PROTOCOL_ICMP reply in
   icmp_receive driverB nowB stB confB cacheB iB pB devB ipA request =
     Some (pB, sent.1.2, sent.2)) /\
  (exists pA'', icmp_receive driverA nowA stA' confA cacheA iA' pA' devA ipB reply =
     Some (pA'', iA', stA') /\
     forall id' seq', icmp_echo_reply_info pA'' id' seq' =
       if (ident =? id') && (seq =? seq') then Some (ipB, size payload, nowA) else None) /\
  (forall id' seq', is_u16 id' -> is_u16 seq' -> (id', seq') <> (ident, seq) ->
     icmp_receive driverA nowA stA' confA cacheA iA' pA' devA ipB
       (echo_message ICMP_TYPE_ECHO_REPLY id' seq' payload) = Some (pA', iA', stA')).
Proof.
  intros HdA HdB Hi Hs Hp Hl Hr request reply. unfold icmp_echo_request in Hr.
  replace ((devA =? 0) || _) with false in Hr by lia. fold request in Hr.
  destruct (ipv4_transmit driverA _ _ _ _ _ _ _ _) as [[ok i] st]. injection Hr as -> <- -> ->.
  split; [done|]. split; [|split].
  - unfold request. rewrite icmp_receive_message by (done || by right). cbv zeta.
    change (ICMP_TYPE_ECHO_REQUEST =? ICMP_TYPE_ECHO_REPLY) with false. cbv iota.
    unfold icmp_send_reply. rewrite size_echo_message.
    replace (PACKET_SIZE <? _) with false by (unfold ECHO_SIZE in Hl; lia).
    rewrite reply_to_request. fold reply. by destruct (ipv4_transmit driverB _ _ _ _ _ _ _ _) as [[]].
  - unfold reply. rewrite icmp_receive_message by (done || by left).
    change (ICMP_TYPE_ECHO_REPLY =? ICMP_TYPE_ECHO_REPLY) with true. cbn [pending identifier sequence].
    rewrite !Z.eqb_refl. cbn [andb]. eexists; split; [reflexivity|]. intros id' seq'.
    unfold icmp_echo_reply_info, icmp_echo_reply_received. cbn. by destruct (_ && _).
  - intros id' seq' Hi' Hs' Hne. rewrite icmp_receive_message by (done || by left).
    change (ICMP_TYPE_ECHO_REPLY =? ICMP_TYPE_ECHO_REPLY) with true. cbn [pending identifier sequence].
    destruct (Z.eqb_spec ident id') as [<-|], (Z.eqb_spec seq seq') as [<-|]; done.
Qed.

Definition idle : ping_state := Ping false false 0 0 zero_ip 0 0.
Definition known_cache : cache := arp_cache_update empty_cache ip2 mac2.

Lemma icmp_ping_round_trip_witness :
  exists pA' iA' stA',
    icmp_echo_request (fun _ _ => true) (host_net mac1) (host_conf ip1) known_cache 0 idle 8 ip2
      7 1 (Some [1; 2; 3]) = (true, pA', iA', stA') /\
    exists pA'', icmp_receive (fun _ _ => true) 50 stA' (host_conf ip1) known_cache iA' pA' 8 ip2
      (echo_message ICMP_TYPE_ECHO_REPLY 7 1 [1; 2; 3]) = Some (pA'', iA', stA') /\
      icmp_echo_reply_info pA'' 7 1 = Some (ip2, 3, 50).
Proof.
  destruct (icmp_echo_request (fun _ _ => true) (host_net mac1) (host_conf ip1) known_cache 0 idle
    8 ip2 7 1 (Some [1; 2; 3])) as [[[ok pA'] iA'] stA'] eqn:E.
  assert (Eok : ok = true) by (apply (f_equal (fun x => x.1.1.1)) in E; exact (eq_sym E)).
  rewrite Eok in E. exists pA', iA', stA'. split; [rewrite Eok; reflexivity|].
  destruct (icmp_ping_round_trip (fun _ _ => true) (fun _ _ => true) 50 60 (host_net mac1) stA'
    (host_net mac2) (host_conf ip1) (host_conf ip2) known_cache known_cache 0 iA' 0 8 8 idle pA'
    idle ip1 ip2 7 1 [1; 2; 3]) as (_ & _ & (pA'' & H1 & H2) & _);
    [discriminate|discriminate|by_decision|by_decision|by_decision|discriminate|exact E|].
  exists pA''. split; [exact H1|exact (H2 7 1)].
Defined.

End Icmp.
