(* ===== verification/TcpWire.v ===== *)
(** TCP segments on the wire ([kernel/src/net/tcp_wire.c] and the segment
    construction of [kernel/src/net/tcp.c]): sequence-number arithmetic, the
    checksum over the pseudo-header, parsing and building. *)
From S2P Require Import Prelude Checksum NetConfig NetDevice Ethernet Ipv4.
Import Checksum NetConfig NetDevice Ethernet Ipv4.

Module TcpWire.

Definition TCP_HEADER_MIN_SIZE : Z := 20.
Definition TCP_MSS : Z := 1460.
Definition TCP_RX_CAPACITY : Z := 4096.
Definition TCP_FLAG_FIN : Z := 0x01.
Definition TCP_FLAG_SYN : Z := 0x02.
Definition TCP_FLAG_RST : Z := 0x04.
Definition TCP_FLAG_PSH : Z := 0x08.
Definition TCP_FLAG_ACK : Z := 0x10.

(** Reads of [n] bytes at [i] fail outside the packet. *)
Definition tcp_read16 (p : list Z) (i : nat) : option Z := rd_be16 p i.
Definition tcp_read32 (p : list Z) (i : nat) : option Z :=
  b0 ← rd p i; b1 ← rd p (i + 1); b2 ← rd p (i + 2); b3 ← rd p (i + 3);
  Some (Z.lor (Z.lor (Z.lor (Z.shiftl b0 24) (Z.shiftl b1 16)) (Z.shiftl b2 8)) b3).

Definition tcp_write16 (v : Z) : list Z := write_be16 v.
Definition tcp_write32 (v : Z) : list Z :=
  [u8 (Z.shiftr v 24); u8 (Z.shiftr v 16); u8 (Z.shiftr v 8); u8 v].

Definition tcp_seq_before (left right : Z) : bool := i32 (u32 (left - right)) <? 0.
Definition tcp_seq_between (value first last : Z) : bool :=
  negb (tcp_seq_before value first) && negb (tcp_seq_before last value).

Definition tcp_checksum (source destination : net_ipv4_t) (segment : option (list Z)) : Z :=
  match segment with
  | None => 0
  | Some s =>
      if (size s <? TCP_HEADER_MIN_SIZE) || (ETHERNET_PAYLOAD_MAX <? size s) then 0
      else net_checksum (Some (octets source ++ octets destination ++
             [0; TCP_PROTOCOL; u8 (Z.shiftr (size s) 8); u8 (size s)] ++
             <[16%nat := 0]> (<[17%nat := 0]> s)))
  end.

Record tcp_segment_t := Segment {
  source_port : Z; destination_port : Z; sequence : Z; acknowledgment : Z;
  flags : Z; window : Z; payload : list Z;
}.

(** [Some None]: rejected; [None]: a read outside the packet. *)
Definition tcp_parse_segment (packet : option (list Z)) : option (option tcp_segment_t) :=
  match packet with
  | None => Some None
  | Some p =>
      if size p <? TCP_HEADER_MIN_SIZE then Some None
      else
        offset ← rd p 12;
        let header_length := Z.shiftr offset 4 * 4 in
        if (header_length <? TCP_HEADER_MIN_SIZE) || (size p <? header_length) then Some None
        else
          sp ← tcp_read16 p 0;
          dp ← tcp_read16 p 2;
          seq ← tcp_read32 p 4;
          ack ← tcp_read32 p 8;
          fl ← rd p 13;
          win ← tcp_read16 p 14;
          data ← slice p (Z.to_nat header_length) (length p - Z.to_nat header_length);
          Some (Some (Segment sp dp seq ack fl win data))
  end.

(** The packet [tcp_send_raw] builds, with a given checksum field. *)
Definition tcp_fields (s : tcp_segment_t) (sum : Z) : list Z :=
  tcp_write16 (source_port s) ++ tcp_write16 (destination_port s) ++
  tcp_write32 (sequence s) ++ tcp_write32 (acknowledgment s) ++
  [Z.shiftl 5 4; flags s] ++ tcp_write16 (window s) ++ tcp_write16 sum ++ [0; 0] ++ payload s.
Definition tcp_packet (source destination : net_ipv4_t) (s : tcp_segment_t) : list Z :=
  tcp_fields s (tcp_checksum source destination (Some (tcp_fields s 0))).

(** * Sequence numbers *)

(** [right] is ahead of [left] by less than half the number space. *)
Lemma tcp_seq_before_iff left right :
  is_u32 left -> is_u32 right ->
  tcp_seq_before left right = true <-> 0 < u32 (right - left) <= 2 ^ 31.
Proof. intros Hl Hr. unfold tcp_seq_before. rewrite Z.ltb_lt. mach. Qed.

Lemma seq_before_offset base d e :
  is_u32 base -> 0 <= d < 2 ^ 30 -> 0 <= e < 2 ^ 30 ->
  tcp_seq_before (u32 (base + d)) (u32 (base + e)) = (d <? e).
Proof.
  intros Hb Hd He. apply eq_true_iff_eq.
  rewrite tcp_seq_before_iff by apply u32_range. rewrite Z.ltb_lt.
  assert (u32 (u32 (base + e) - u32 (base + d)) = u32 (e - d)) as ->.
  { unfold u32. rewrite <- Zminus_mod. f_equal. lia. }
  mach.
Qed.

(** * Encoding *)

Lemma join32 b0 b1 b2 b3 :
  is_u8 b1 -> is_u8 b2 -> is_u8 b3 ->
  Z.lor (Z.lor (Z.lor (Z.shiftl b0 24) (Z.shiftl b1 16)) (Z.shiftl b2 8)) b3 =
  ((b0 * 256 + b1) * 256 + b2) * 256 + b3.
Proof.
  intros B1 B2 B3.
  assert (Hx : forall a b n, Z.shiftl a (n + 8) = Z.shiftl (Z.shiftl a 8) n ->
    0 <= n -> 0 <= b < 256 ->
    Z.lor (Z.shiftl a (n + 8)) (Z.shiftl b n) = Z.shiftl (a * 256 + b) n).
  { intros a b n -> Hn Hb. rewrite <- Z.shiftl_lor, word_join by done. done. }
  change 24 with (16 + 8) at 1. rewrite Hx by (done || (rewrite Z.shiftl_shiftl; [f_equal|]; lia)).
  change 16 with (8 + 8). rewrite Hx by (done || (rewrite Z.shiftl_shiftl; [f_equal|]; lia)).
  by rewrite word_join.
Qed.

Lemma tcp_write32_join v :
  is_u32 v ->
  Z.lor (Z.lor (Z.lor (Z.shiftl (u8 (Z.shiftr v 24)) 24) (Z.shiftl (u8 (Z.shiftr v 16)) 16))
           (Z.shiftl (u8 (Z.shiftr v 8)) 8)) (u8 v) = v.
Proof.
  intros Hv. rewrite join32 by apply u8_range. rewrite !Z.shiftr_div_pow2 by lia.
  change (2 ^ 8) with 256. change (2 ^ 16) with 65536. change (2 ^ 24) with 16777216. mach.
Qed.

Lemma tcp_read32_write a v b off :
  length a = off -> is_u32 v -> tcp_read32 (a ++ tcp_write32 v ++ b) off = Some v.
Proof.
  intros <- Hv. unfold tcp_read32, rd.
  assert (E : forall k, (a ++ tcp_write32 v ++ b) !! (length a + k)%nat =
    (tcp_write32 v ++ b) !! k) by (intros k; rewrite lookup_app_r by lia; f_equal; lia).
  rewrite <- (Nat.add_0_r (length a)) at 1. rewrite !E. cbn -[Z.shiftr Z.shiftl u8].
  by rewrite tcp_write32_join.
Qed.

Record segment_ok (s : tcp_segment_t) : Prop := {
  ok_source_port : is_u16 (source_port s); ok_destination_port : is_u16 (destination_port s);
  ok_sequence : is_u32 (sequence s); ok_acknowledgment : is_u32 (acknowledgment s);
  ok_flags : is_u8 (flags s); ok_window : is_u16 (window s);
  ok_payload : bytes (payload s);
}.

Lemma length_tcp_fields s sum : length (tcp_fields s sum) = (20 + length (payload s))%nat.
Proof. unfold tcp_fields. rewrite !length_app. cbn. lia. Qed.

(** What is built parses back, whatever the checksum field. *)
Lemma parse_tcp_fields s sum :
  segment_ok s -> tcp_parse_segment (Some (tcp_fields s sum)) = Some (Some s).
Proof.
  intros [Hsp Hdp Hs Ha Hf Hw Hp]. unfold tcp_parse_segment, size, TCP_HEADER_MIN_SIZE.
  rewrite length_tcp_fields.
  replace (Z.of_nat (20 + length (payload s)) <? 20) with false by lia.
  assert (rd (tcp_fields s sum) 12 = Some 80) as -> by reflexivity. cbn [mbind option_bind].
  change (Z.shiftr 80 4 * 4) with 20. cbv zeta.
  replace ((20 <? 20) || _) with false by lia.
  unfold tcp_fields.
  set (w0 := tcp_write16 (source_port s)). set (w1 := tcp_write16 (destination_port s)).
  set (w2 := tcp_write32 (sequence s)). set (w3 := tcp_write32 (acknowledgment s)).
  set (w4 := [Z.shiftl 5 4; flags s]). set (w5 := tcp_write16 (window s)).
  set (w6 := tcp_write16 sum).
  set (P := w0 ++ w1 ++ w2 ++ w3 ++ w4 ++ w5 ++ w6 ++ [0; 0] ++ payload s).
  assert (tcp_read16 P 0 = Some (source_port s)) as -> by by apply (rd_be16_write []).
  assert (tcp_read16 P 2 = Some (destination_port s)) as -> by by apply (rd_be16_write w0).
  assert (tcp_read32 P 4 = Some (sequence s)) as -> by by apply (tcp_read32_write (w0 ++ w1)).
  assert (tcp_read32 P 8 = Some (acknowledgment s)) as ->
    by by apply (tcp_read32_write (w0 ++ w1 ++ w2)).
  assert (rd P 13 = Some (flags s)) as -> by done.
  assert (tcp_read16 P 14 = Some (window s)) as ->
    by by apply (rd_be16_write (w0 ++ w1 ++ w2 ++ w3 ++ w4)).
  cbn [mbind option_bind].
  change P with ((w0 ++ w1 ++ w2 ++ w3 ++ w4 ++ w5 ++ w6 ++ [0; 0]) ++ payload s).
  rewrite slice_app_r by (cbn; lia).
  replace (slice (payload s) _ _) with (Some (payload s)); [by destruct s|].
  symmetry. apply slice_all. cbn. lia.
Qed.

(** The checksum does not depend on the checksum field. *)
Lemma tcp_checksum_fields src dst s sum :
  tcp_checksum src dst (Some (tcp_fields s sum)) = tcp_checksum src dst (Some (tcp_fields s 0)).
Proof.
  unfold tcp_checksum, size. rewrite !length_tcp_fields. destruct (_ || _); [done|].
  reflexivity.
Qed.

Lemma tcp_checksum_u16 src dst s : is_u16 (tcp_checksum src dst s).
Proof.
  unfold tcp_checksum. destruct s as [s|]; [|by_decision].
  destruct (_ || _); [by_decision|]. apply net_checksum_u16.
Qed.

Lemma checksum_at_16 s sum : is_u16 sum -> tcp_read16 (tcp_fields s sum) 16 = Some sum.
Proof.
  intros H. by apply (rd_be16_write (tcp_write16 (source_port s) ++
    tcp_write16 (destination_port s) ++ tcp_write32 (sequence s) ++
    tcp_write32 (acknowledgment s) ++ [Z.shiftl 5 4; flags s] ++ tcp_write16 (window s))).
Qed.

Lemma tcp_read32_u32 p i v : bytes p -> tcp_read32 p i = Some v -> is_u32 v.
Proof.
  intros Hb. unfold tcp_read32, rd.
  assert (H : forall j b, p !! j = Some b -> is_u8 b) by (intros; by eapply Forall_lookup_1).
  destruct (p !! i) as [b0|] eqn:E0; [|done]. destruct (p !! (i + 1)%nat) as [b1|] eqn:E1; [|done].
  destruct (p !! (i + 2)%nat) as [b2|] eqn:E2; [|done].
  destruct (p !! (i + 3)%nat) as [b3|] eqn:E3; [|done]. cbn [mbind option_bind]. intros [= <-].
  apply H in E0, E1, E2, E3. rewrite join32 by done. mach.
Qed.

(** The sequence numbers of a parsed segment are 32-bit. *)
Lemma parsed_numbers p g :
  bytes p -> tcp_parse_segment (Some p) = Some (Some g) ->
  is_u32 (sequence g) /\ is_u32 (acknowledgment g) /\ is_u16 (window g).
Proof.
  intros Hb. unfold tcp_parse_segment. destruct (_ <? _); [done|].
  destruct (rd p 12); [|done]. cbn [mbind option_bind]. destruct (_ || _); [done|].
  destruct (tcp_read16 p 0); [|done]. destruct (tcp_read16 p 2); [|done].
  destruct (tcp_read32 p 4) as [q|] eqn:Eq; [|done].
  destruct (tcp_read32 p 8) as [k|] eqn:Ek; [|done]. destruct (rd p 13); [|done].
  destruct (tcp_read16 p 14) as [w|] eqn:Ew; [|done]. cbn [mbind option_bind].
  destruct (slice p _ _); [|done]. cbn [mbind option_bind]. intros [= <-]. cbn.
  split; [by eapply tcp_read32_u32|]. split; [by eapply tcp_read32_u32|].
  unfold tcp_read16, rd_be16 in Ew. destruct (slice p 14 2); [|done].
  injection Ew as <-. apply u16_range.
Qed.

(** Parsing stays inside the packet, and so does the payload. *)
Lemma tcp_parse_safe packet :
  exists r, tcp_parse_segment packet = Some r /\
    match packet, r with
    | Some p, Some s => (length (payload s) + 20 <= length p)%nat
    | None, Some _ => False
    | _, None => True
    end.
Proof.
  apply answers. destruct packet as [p|]; [|done].
  unfold tcp_parse_segment, size, TCP_HEADER_MIN_SIZE.
  destruct (Z.ltb_spec (Z.of_nat (length p)) 20); [done|]. unfold rd.
  destruct (lookup_lt_is_Some_2 p 12) as [v ->]; [lia|]. cbn [mbind option_bind]. cbv zeta.
  generalize (Z.shiftr v 4 * 4). intros h.
  destruct ((h <? 20) || _) eqn:E; [done|].
  apply orb_false_iff in E as [E1%Z.ltb_ge E2%Z.ltb_ge].
  unfold tcp_read16, tcp_read32, rd_be16, rd.
  rewrite (slice_in p 0), (slice_in p 2), (slice_in p 14), (slice_in p (Z.to_nat h)) by lia.
  cbn [mbind option_bind Nat.add].
  repeat match goal with
  | |- context [p !! ?i] => destruct (lookup_lt_is_Some_2 p i) as [? ->]; [lia|]; cbn [mbind option_bind]
  end.
  cbn. rewrite length_take, length_drop. lia.
Qed.

End TcpWire.
