(* ===== verification/Tcp.v ===== *)
(** The TCP client ([kernel/src/net/tcp.c]): one connection, opened actively,
    with one segment in flight at a time.

    The receive and transmit buffers are the bytes in use, so
    [receive_length] and [tx_length] are their lengths.  A call of a function reads one value
    [now] of [timer_ticks()]; a loop that sleeps is driven by a list of rounds,
    each with the clock at its start, the packets that arrive while it sleeps
    and what the rest of the kernel does to the stack meanwhile.  A packet is
    read through bounds-checked accesses: [None] is a read outside it. *)
From stdpp Require Import gmap.
From S2P Require Import Prelude Checksum NetConfig NetDevice Ethernet Arp Ipv4 TcpWire.
Import Checksum NetConfig NetDevice Ethernet Arp Ipv4 TcpWire.

Module Tcp.

Definition TCP_RTO_TICKS : Z := 1000.
Definition TCP_TIME_WAIT_TICKS : Z := 1000.
Definition TCP_MAX_RETRIES : Z := 3.
Definition TCP_ACTION_ACK : Z := 0x1.

Inductive tcp_state_t :=
  | TCP_STATE_CLOSED | TCP_STATE_SYN_SENT | TCP_STATE_ESTABLISHED | TCP_STATE_FIN_WAIT_1
  | TCP_STATE_FIN_WAIT_2 | TCP_STATE_CLOSE_WAIT | TCP_STATE_LAST_ACK | TCP_STATE_TIME_WAIT.
#[export] Instance tcp_state_eq_dec : EqDecision tcp_state_t.
Proof. solve_decision. Defined.

Inductive tcp_status_t :=
  | TCP_STATUS_SUCCESS | TCP_STATUS_TIMEOUT | TCP_STATUS_RESET | TCP_STATUS_UNREACHABLE
  | TCP_STATUS_INVALID_STATE | TCP_STATUS_BUFFER_FULL | TCP_STATUS_CLOSED | TCP_STATUS_BUSY
  | TCP_STATUS_INVALID.
#[export] Instance tcp_status_eq_dec : EqDecision tcp_status_t.
Proof. solve_decision. Defined.

(** [struct tcp_connection], grouped: who talks to whom, what was sent and is
    not acknowledged, what was received and is not read. *)
Record addresses := Addresses {
  device : Z; device_generation : Z; local : net_ipv4_t; remote : net_ipv4_t;
  local_port : Z; remote_port : Z;
}.
Record sender := Sender {
  iss : Z; snd_una : Z; snd_nxt : Z; tx_buffer : list Z; tx_sequence : Z; tx_flags : Z;
  tx_outstanding : bool; retransmit_deadline : Z; retries : Z;
}.
Record receiver := Receiver { rcv_nxt : Z; receive_buffer : list Z; peer_fin_seen : bool }.
Record tcp_connection := Connection {
  in_use : bool; ids : addresses; state : tcp_state_t; status : tcp_status_t;
  remote_window : Z; snd : sender; rcv : receiver; time_wait_deadline : Z; actions : Z;
}.

Definition no_connection : tcp_connection :=
  Connection false (Addresses 0 0 zero_ip zero_ip 0 0) TCP_STATE_CLOSED TCP_STATUS_SUCCESS 0
    (Sender 0 0 0 [] 0 0 false 0 0) (Receiver 0 [] false) 0 0.

Definition with_in_use (c : tcp_connection) (b : bool) : tcp_connection :=
  Connection b (ids c) (state c) (status c) (remote_window c) (snd c) (rcv c)
    (time_wait_deadline c) (actions c).
Definition with_state (c : tcp_connection) (s : tcp_state_t) : tcp_connection :=
  Connection (in_use c) (ids c) s (status c) (remote_window c) (snd c) (rcv c)
    (time_wait_deadline c) (actions c).
Definition with_status (c : tcp_connection) (s : tcp_status_t) : tcp_connection :=
  Connection (in_use c) (ids c) (state c) s (remote_window c) (snd c) (rcv c)
    (time_wait_deadline c) (actions c).
Definition with_window (c : tcp_connection) (w : Z) : tcp_connection :=
  Connection (in_use c) (ids c) (state c) (status c) w (snd c) (rcv c)
    (time_wait_deadline c) (actions c).
Definition with_snd (c : tcp_connection) (s : sender) : tcp_connection :=
  Connection (in_use c) (ids c) (state c) (status c) (remote_window c) s (rcv c)
    (time_wait_deadline c) (actions c).
Definition with_rcv (c : tcp_connection) (r : receiver) : tcp_connection :=
  Connection (in_use c) (ids c) (state c) (status c) (remote_window c) (snd c) r
    (time_wait_deadline c) (actions c).
Definition with_deadline (c : tcp_connection) (d : Z) : tcp_connection :=
  Connection (in_use c) (ids c) (state c) (status c) (remote_window c) (snd c) (rcv c)
    d (actions c).
Definition with_actions (c : tcp_connection) (a : Z) : tcp_connection :=
  Connection (in_use c) (ids c) (state c) (status c) (remote_window c) (snd c) (rcv c)
    (time_wait_deadline c) a.

Definition not_outstanding (s : sender) : sender :=
  Sender (iss s) (snd_una s) (snd_nxt s) (tx_buffer s) (tx_sequence s) (tx_flags s) false
    (retransmit_deadline s) (retries s).

Definition has_flag (fl flag : Z) : bool := negb (Z.land fl flag =? 0).

Definition tcp_sequence_space (fl length : Z) : Z :=
  u32 (u32 length + (if has_flag fl TCP_FLAG_SYN then 1 else 0) +
       (if has_flag fl TCP_FLAG_FIN then 1 else 0)).

(** * Transmission *)

Section Tcp.
Variable driver : Z -> list Z -> bool.

Definition tcp_send_raw (c : tcp_connection) (s : stack) (seq ack fl : Z) (data : list Z)
    : bool * stack :=
  let a := ids c in
  if (device a =? 0) ||
     negb (net_device_instance_current (s_net s) (device a) (device_generation a)) ||
     (TCP_MSS <? size data)
  then (false, s)
  else
    let packet := tcp_packet (local a) (remote a)
                    (Segment (local_port a) (remote_port a) seq ack fl TCP_RX_CAPACITY data) in
    let '(ok, i, st) := ipv4_transmit_from driver (s_net s) (s_conf s) (s_cache s) (s_ident s)
                          (device a) (local a) (remote a) TCP_PROTOCOL packet in
    (ok, Stack st (s_conf s) (s_cache s) i).

Definition tcp_track (c : tcp_connection) (seq fl : Z) (data : list Z) (now : Z)
    : tcp_connection :=
  let s := snd c in
  with_snd c (Sender (iss s) (snd_una s) (snd_nxt s) data seq fl true
                (u64 (now + TCP_RTO_TICKS)) 0).

Definition tcp_send_tracked (c : tcp_connection) (s : stack) (fl : Z) (data : list Z) (now : Z)
    : bool * tcp_connection * stack :=
  if tx_outstanding (snd c) || (TCP_MSS <? size data) then (false, c, s)
  else
    let seq := snd_nxt (snd c) in
    let c := tcp_track c seq fl data now in
    let t := snd c in
    let c := with_snd c (Sender (iss t) (snd_una t)
                           (u32 (snd_nxt t + tcp_sequence_space fl (size data))) (tx_buffer t)
                           (tx_sequence t) (tx_flags t) (tx_outstanding t)
                           (retransmit_deadline t) (retries t)) in
    let '(ok, s) := tcp_send_raw c s seq (rcv_nxt (rcv c)) fl data in
    (ok, c, s).

Definition tcp_fail (c : tcp_connection) (st : tcp_status_t) : tcp_connection :=
  with_in_use (with_snd (with_state (with_status c st) TCP_STATE_CLOSED)
                 (not_outstanding (snd c))) false.

(** * Acknowledgments *)

(** The tracked segment after the acknowledgment [ack]. *)
Definition ack_segment (t : sender) (ack now : Z) : sender :=
  if tx_outstanding t then
    let segment_end := u32 (tx_sequence t + tcp_sequence_space (tx_flags t) (size (tx_buffer t))) in
    if negb (tcp_seq_before ack segment_end)
    then Sender (iss t) (snd_una t) (snd_nxt t) (tx_buffer t) (tx_sequence t) (tx_flags t)
           false (retransmit_deadline t) 0
    else if negb (has_flag (tx_flags t) (Z.lor TCP_FLAG_SYN TCP_FLAG_FIN)) &&
            negb (tcp_seq_before ack (tx_sequence t)) then
      let acknowledged := u32 (ack - tx_sequence t) in
      if acknowledged <=? size (tx_buffer t)
      then Sender (iss t) (snd_una t) (snd_nxt t) (drop (Z.to_nat acknowledged) (tx_buffer t))
             ack (tx_flags t) (tx_outstanding t) (u64 (now + TCP_RTO_TICKS)) (retries t)
      else t
    else t
  else t.

Definition tcp_process_ack (c : tcp_connection) (ack now : Z) : tcp_connection :=
  let t := snd c in
  if tcp_seq_before ack (snd_una t) || tcp_seq_before (snd_nxt t) ack then c
  else if ack =? snd_una t then c
  else
    let t := ack_segment (Sender (iss t) ack (snd_nxt t) (tx_buffer t) (tx_sequence t)
                            (tx_flags t) (tx_outstanding t) (retransmit_deadline t) (retries t))
               ack now in
    let c := with_snd c t in
    if bool_decide (state c = TCP_STATE_FIN_WAIT_1) && negb (tx_outstanding t) then
      if peer_fin_seen (rcv c)
      then with_deadline (with_state c TCP_STATE_TIME_WAIT) (u64 (now + TCP_TIME_WAIT_TICKS))
      else with_state c TCP_STATE_FIN_WAIT_2
    else if bool_decide (state c = TCP_STATE_LAST_ACK) && negb (tx_outstanding t)
    then with_in_use (with_state c TCP_STATE_CLOSED) false
    else c.

Definition tcp_queue_ack (c : tcp_connection) : tcp_connection :=
  with_actions c (Z.lor (actions c) TCP_ACTION_ACK).

Definition tcp_service (c : tcp_connection) (s : stack) (now : Z) : tcp_connection * stack :=
  let a := ids c in
  if negb (net_device_instance_current (s_net s) (device a) (device_generation a))
  then (tcp_fail c TCP_STATUS_CLOSED, s)
  else
    let todo := actions c in
    let c := with_actions c 0 in
    let '(c, s) :=
      if has_flag todo TCP_ACTION_ACK then
        let '(ok, s) := tcp_send_raw c s (snd_nxt (snd c)) (rcv_nxt (rcv c)) TCP_FLAG_ACK [] in
        (if ok : bool then c else tcp_queue_ack c, s)
      else (c, s) in
    if bool_decide (state c = TCP_STATE_TIME_WAIT) && (time_wait_deadline c <=? now)
    then (with_in_use (with_state c TCP_STATE_CLOSED) false, s)
    else
      let t := snd c in
      if tx_outstanding t && (retransmit_deadline t <=? now) then
        if TCP_MAX_RETRIES <=? retries t then (tcp_fail c TCP_STATUS_TIMEOUT, s)
        else
          let '(_, s) := tcp_send_raw c s (tx_sequence t) (rcv_nxt (rcv c)) (tx_flags t)
                           (tx_buffer t) in
          (with_snd c (Sender (iss t) (snd_una t) (snd_nxt t) (tx_buffer t) (tx_sequence t)
                         (tx_flags t) (tx_outstanding t) (u64 (now + TCP_RTO_TICKS))
                         (u32 (retries t + 1))), s)
      else (c, s).

(** * Reception *)

Definition tcp_matches (c : tcp_connection) (st : net) (dev : Z) (source destination : net_ipv4_t)
    (g : tcp_segment_t) : bool :=
  let a := ids c in
  in_use c && (device a =? dev) && net_device_instance_current st dev (device_generation a) &&
  net_ipv4_equal (remote a) source && net_ipv4_equal (local a) destination &&
  (remote_port a =? source_port g) && (local_port a =? destination_port g).

Definition tcp_accept_payload (c : tcp_connection) (g : tcp_segment_t) (now : Z)
    : tcp_connection :=
  let r := rcv c in
  if sequence g =? rcv_nxt r then
    if TCP_RX_CAPACITY - size (receive_buffer r) <? size (payload g)
    then tcp_queue_ack (with_status c TCP_STATUS_BUFFER_FULL)
    else
      let r := Receiver (u32 (rcv_nxt r + u32 (size (payload g))))
                 (receive_buffer r ++ payload g) (peer_fin_seen r) in
      let c := with_rcv c r in
      let c := if size (payload g) =? 0 then c else tcp_queue_ack c in
      if has_flag (flags g) TCP_FLAG_FIN then
        let c := with_rcv c (Receiver (u32 (rcv_nxt r + 1)) (receive_buffer r) true) in
        let c :=
          if bool_decide (state c = TCP_STATE_ESTABLISHED) then with_state c TCP_STATE_CLOSE_WAIT
          else if bool_decide (state c = TCP_STATE_FIN_WAIT_2)
          then with_deadline (with_state c TCP_STATE_TIME_WAIT) (u64 (now + TCP_TIME_WAIT_TICKS))
          else c in
        tcp_queue_ack c
      else c
  else tcp_queue_ack c.

(** What [tcp_receive] does with a segment that belongs to the connection. *)
Definition tcp_handle (c : tcp_connection) (g : tcp_segment_t) (now : Z) : tcp_connection :=
  let c := with_window c (window g) in
  if has_flag (flags g) TCP_FLAG_RST then tcp_fail c TCP_STATUS_RESET
  else if bool_decide (state c = TCP_STATE_SYN_SENT) then
    if negb (Z.land (flags g) (Z.lor TCP_FLAG_SYN TCP_FLAG_ACK) =?
             Z.lor TCP_FLAG_SYN TCP_FLAG_ACK) || negb (acknowledgment g =? snd_nxt (snd c))
    then c
    else
      let c := tcp_process_ack c (acknowledgment g) now in
      let c := with_rcv c (Receiver (u32 (sequence g + 1)) (receive_buffer (rcv c))
                             (peer_fin_seen (rcv c))) in
      tcp_queue_ack (with_state c TCP_STATE_ESTABLISHED)
  else
    let c := if has_flag (flags g) TCP_FLAG_ACK
             then tcp_process_ack c (acknowledgment g) now else c in
    if bool_decide (state c = TCP_STATE_CLOSED) then c
    else if negb (size (payload g) =? 0) || has_flag (flags g) TCP_FLAG_FIN
    then tcp_accept_payload c g now
    else c.

Definition tcp_receive (c : tcp_connection) (st : net) (now : Z) (dev : Z)
    (source destination : net_ipv4_t) (packet : option (list Z)) : option tcp_connection :=
  match packet with
  | None => Some c
  | Some p =>
      if size p <? TCP_HEADER_MIN_SIZE then Some c
      else
        parsed ← tcp_parse_segment packet;
        match parsed with
        | None => Some c
        | Some g =>
            received_checksum ← tcp_read16 p 16;
            if negb (tcp_checksum source destination packet =? received_checksum) then Some c
            else if negb (tcp_matches c st dev source destination g) then Some c
            else Some (tcp_handle c g now)
        end
  end.

(** * The blocking calls *)

Record arrival := Arrival {
  arr_device : Z; arr_source : net_ipv4_t; arr_destination : net_ipv4_t; arr_packet : list Z;
}.
Record round := Round { at_ : Z; arrivals : list arrival; meanwhile : stack -> stack }.

Fixpoint arrive (c : tcp_connection) (s : stack) (now : Z) (l : list arrival)
    : option tcp_connection :=
  match l with
  | [] => Some c
  | a :: l =>
      c ← tcp_receive c (s_net s) now (arr_device a) (arr_source a) (arr_destination a)
            (Some (arr_packet a));
      arrive c s now l
  end.

(** How a wait ends: with the answer, the time and the rounds not used, or
    with the rounds used up. *)
Inductive waited :=
  | Ended (ok : bool) (out : tcp_status_t) (c : tcp_connection) (s : stack) (now : Z)
      (rest : list round)
  | Waiting (c : tcp_connection) (s : stack).

(** The lines after the loop of [tcp_wait_for] and of [tcp_close]. *)
Definition end_wait (c : tcp_connection) (s : stack) (now : Z) (rest : list round) : waited :=
  let c := if bool_decide (status c = TCP_STATUS_SUCCESS) then tcp_fail c TCP_STATUS_TIMEOUT
           else c in
  Ended false (status c) c s now rest.

Fixpoint wait_loop (c : tcp_connection) (s : stack) (wanted : tcp_state_t) (start timeout : Z)
    (rounds : list round) : option waited :=
  match rounds with
  | [] => Some (Waiting c s)
  | r :: rest =>
      if negb (u64 (at_ r - start) <? timeout) then Some (end_wait c s (at_ r) rest)
      else
        let '(c, s) := tcp_service c s (at_ r) in
        if bool_decide (state c = wanted) then Some (Ended true TCP_STATUS_SUCCESS c s (at_ r) rest)
        else if negb (bool_decide (status c = TCP_STATUS_SUCCESS))
        then Some (end_wait c s (at_ r) rest)
        else
          c ← arrive c s (at_ r) (arrivals r);
          wait_loop c (meanwhile r s) wanted start timeout rest
  end.
Definition tcp_wait_for (c : tcp_connection) (s : stack) (wanted : tcp_state_t) (now timeout : Z)
    (rounds : list round) : option waited :=
  wait_loop c s wanted now timeout rounds.

(** The connection with the static counters of [tcp_connect]. *)
Record tcp := TcpState { connection : tcp_connection; port_sequence : Z; isn_sequence : Z }.

Definition tcp_init (t : tcp) : tcp := TcpState no_connection (port_sequence t) (isn_sequence t).

(** The connection before the SYN is sent. *)
Definition new_connection (t : tcp) (conf : net_config_t) (dev gen : Z) (to : net_ipv4_t)
    (port now : Z) : tcp :=
  let ps := u16 (port_sequence t + 1) in
  let lp := u16 (49152 + ps mod (65535 - 49152)) in
  let is_ := u32 (isn_sequence t + 1) in
  let isn := Z.lxor (Z.lxor (u32 now) (u32 (is_ * 0x9e3779b9))) (u32 (Z.shiftl lp 16)) in
  TcpState
    (Connection true (Addresses dev gen (address conf) to lp port) TCP_STATE_SYN_SENT
       TCP_STATUS_SUCCESS 0 (Sender isn isn isn [] 0 0 false 0 0) (Receiver 0 [] false) 0 0)
    ps is_.

(** The answer [Ended] gives the value of [*status_out]; [refused] is a
    return before anything is sent. *)
Definition refused (t : tcp) (s : stack) (out : tcp_status_t) (now : Z) (rounds : list round)
    : option (tcp * waited) := Some (t, Ended false out (connection t) s now rounds).

Definition tcp_connect (t : tcp) (s : stack) (dev : Z) (to : net_ipv4_t) (port now : Z)
    (has_out : bool) (rounds : list round) : option (tcp * waited) :=
  if (dev =? 0) || (port =? 0) || negb has_out || negb (configured (s_conf s))
  then refused t s TCP_STATUS_INVALID now rounds
  else if in_use (connection t) then refused t s TCP_STATUS_BUSY now rounds
  else
    d ← structs (s_net s) !! dev;
    let t := new_connection t (s_conf s) dev (generation d) to port now in
    let '(_, c, s) := tcp_send_tracked (connection t) s TCP_FLAG_SYN [] now in
    w ← tcp_wait_for c s TCP_STATE_ESTABLISHED now (TCP_RTO_TICKS * (TCP_MAX_RETRIES + 1)) rounds;
    let c := match w with Ended _ _ c _ _ _ | Waiting c _ => c end in
    Some (TcpState c (port_sequence t) (isn_sequence t), w).

(** The loop of [tcp_send] over the data left; every chunk is at least one
    byte, so as many rounds as bytes are enough. *)
Fixpoint send_loop (fuel : nat) (c : tcp_connection) (s : stack) (data : list Z) (now : Z)
    (rounds : list round) : option waited :=
  match fuel with
  | O => Some (Ended true TCP_STATUS_SUCCESS c s now rounds)
  | S fuel =>
      if size data =? 0 then Some (Ended true TCP_STATUS_SUCCESS c s now rounds)
      else if remote_window c =? 0 then Some (Ended false TCP_STATUS_TIMEOUT c s now rounds)
      else
        let chunk := if TCP_MSS <? size data then TCP_MSS else size data in
        let chunk := if remote_window c <? chunk then remote_window c else chunk in
        let '(ok, c, s) :=
          if chunk =? 0 then (false, c, s)
          else tcp_send_tracked c s (Z.lor TCP_FLAG_ACK TCP_FLAG_PSH) (take (Z.to_nat chunk) data)
                 now in
        if negb ok then Some (Ended false TCP_STATUS_INVALID_STATE c s now rounds)
        else
          w ← tcp_wait_for c s TCP_STATE_ESTABLISHED now
                (TCP_RTO_TICKS * (TCP_MAX_RETRIES + 1)) rounds;
          match w with
          | Ended true _ c s now rounds =>
              send_loop fuel c s (drop (Z.to_nat chunk) data) now rounds
          | w => Some w
          end
  end.

(** [self]: the pointer passed is the connection. *)
Definition tcp_send (c : tcp_connection) (s : stack) (self : bool) (data : option (list Z))
    (now : Z) (rounds : list round) : option waited :=
  match data with
  | None => Some (Ended false TCP_STATUS_INVALID_STATE c s now rounds)
  | Some data =>
      if negb self || negb (bool_decide (state c = TCP_STATE_ESTABLISHED))
      then Some (Ended false TCP_STATUS_INVALID_STATE c s now rounds)
      else send_loop (S (length data)) c s data now rounds
  end.

Definition tcp_receive_bytes (c : tcp_connection) (s : stack) (self has_output : bool)
    (capacity now : Z) : list Z * tcp_connection * stack :=
  if negb self || negb has_output then ([], c, s)
  else
    let '(c, s) := tcp_service c s now in
    let r := rcv c in
    let count := if size (receive_buffer r) <? capacity then size (receive_buffer r)
                 else capacity in
    (take (Z.to_nat count) (receive_buffer r),
     with_rcv c (Receiver (rcv_nxt r) (drop (Z.to_nat count) (receive_buffer r))
                   (peer_fin_seen r)), s).

Fixpoint close_loop (c : tcp_connection) (s : stack) (start : Z) (rounds : list round)
    : option waited :=
  match rounds with
  | [] => Some (Waiting c s)
  | r :: rest =>
      if negb (u64 (at_ r - start) <? TCP_RTO_TICKS * (TCP_MAX_RETRIES + 2))
      then Some (end_wait c s (at_ r) rest)
      else
        let '(c, s) := tcp_service c s (at_ r) in
        if bool_decide (state c = TCP_STATE_CLOSED)
        then Some (Ended (bool_decide (status c = TCP_STATUS_SUCCESS)) (status c)
                     (with_in_use c false) s (at_ r) rest)
        else
          c ← arrive c s (at_ r) (arrivals r);
          close_loop c (meanwhile r s) start rest
  end.

(** The part of [tcp_close] before its loop: [inl] goes on to the loop. *)
Definition begin_close (c : tcp_connection) (s : stack) (now : Z)
    : (tcp_connection * stack) + (bool * tcp_status_t * tcp_connection * stack) :=
  match state c with
  | TCP_STATE_ESTABLISHED =>
      let '(_, c, s) := tcp_send_tracked (with_state c TCP_STATE_FIN_WAIT_1) s
                          (Z.lor TCP_FLAG_FIN TCP_FLAG_ACK) [] now in inl (c, s)
  | TCP_STATE_CLOSE_WAIT =>
      let '(_, c, s) := tcp_send_tracked (with_state c TCP_STATE_LAST_ACK) s
                          (Z.lor TCP_FLAG_FIN TCP_FLAG_ACK) [] now in inl (c, s)
  | TCP_STATE_CLOSED =>
      inr (bool_decide (status c = TCP_STATUS_SUCCESS), status c, with_in_use c false, s)
  | TCP_STATE_FIN_WAIT_1 | TCP_STATE_FIN_WAIT_2 | TCP_STATE_LAST_ACK | TCP_STATE_TIME_WAIT =>
      inl (c, s)
  | TCP_STATE_SYN_SENT => inr (false, TCP_STATUS_INVALID_STATE, c, s)
  end.
Definition tcp_close (c : tcp_connection) (s : stack) (self : bool) (now : Z)
    (rounds : list round) : option waited :=
  if negb self then Some (Ended false TCP_STATUS_INVALID_STATE c s now rounds)
  else
    let '(c, s) := tcp_service c s now in
    match begin_close c s now with
    | inl (c, s) => close_loop c s now rounds
    | inr (ok, out, c, s) => Some (Ended ok out c s now rounds)
    end.

Definition tcp_abort (t : tcp) (self : bool) : tcp :=
  if negb self then t else TcpState no_connection (port_sequence t) (isn_sequence t).

Definition tcp_connection_state (c : tcp_connection) (self : bool) : tcp_state_t :=
  if self then state c else TCP_STATE_CLOSED.

End Tcp.

End Tcp.
