(* ===== verification/TcpProofs.v ===== *)
(** Invariants and theorems of the TCP client ([Tcp]): the send window is
    exactly the segment in flight, the receive buffer holds a prefix of the
    peer's stream, an unacknowledged segment is retransmitted and then given
    up, and two defects of [tcp_send] and [tcp_close]. *)
From stdpp Require Import gmap.
From S2P Require Import Prelude Checksum NetConfig NetDevice Ethernet Arp Ipv4 TcpWire Tcp.
Import Checksum NetConfig NetDevice Ethernet Arp Ipv4 TcpWire Tcp.

Module TcpProofs.

Definition FIN_ACK : Z := Z.lor TCP_FLAG_FIN TCP_FLAG_ACK.
Definition ACK_PSH : Z := Z.lor TCP_FLAG_ACK TCP_FLAG_PSH.

(** The segments this client tracks. *)
Definition tracked (fl : Z) (data : list Z) : Prop :=
  (fl = TCP_FLAG_SYN /\ data = []) \/ (fl = FIN_ACK /\ data = []) \/
  (fl = ACK_PSH /\ data <> [] /\ size data <= TCP_MSS).

(** While a segment is in flight it starts at the first unacknowledged
    sequence number and ends at the next one to use; otherwise everything is
    acknowledged. *)
Record sender_ok (t : sender) : Prop := {
  una_u32 : is_u32 (snd_una t);
  retries_range : 0 <= retries t <= TCP_MAX_RETRIES;
  in_flight : tx_outstanding t = true ->
    tracked (tx_flags t) (tx_buffer t) /\ tx_sequence t = snd_una t;
  nxt_eq : snd_nxt t =
    if tx_outstanding t
    then u32 (snd_una t + tcp_sequence_space (tx_flags t) (size (tx_buffer t)))
    else snd_una t;
}.
Record receiver_ok (r : receiver) : Prop := {
  rcv_nxt_u32 : is_u32 (rcv_nxt r);
  buffer_fits : size (receive_buffer r) <= TCP_RX_CAPACITY;
}.
Record conn_ok (c : tcp_connection) : Prop := {
  use_iff : in_use c = negb (bool_decide (state c = TCP_STATE_CLOSED));
  snd_ok : state c <> TCP_STATE_CLOSED -> sender_ok (snd c);
  rcv_ok : receiver_ok (rcv c);
  window_u16 : is_u16 (remote_window c);
}.

Lemma sequence_space_tracked fl data :
  tracked fl data ->
  tcp_sequence_space fl (size data) = (if decide (fl = ACK_PSH) then size data else 1) /\
  0 < tcp_sequence_space fl (size data) <= TCP_MSS.
Proof.
  intros [[-> ->]|[[-> ->]|(-> & Hn & Hl)]]; [by_decision..|].
  rewrite decide_True by done. unfold tcp_sequence_space.
  change (has_flag ACK_PSH TCP_FLAG_SYN) with false.
  change (has_flag ACK_PSH TCP_FLAG_FIN) with false. cbv iota. rewrite !Z.add_0_r.
  assert (0 < size data) by (unfold size; destruct data; [done|cbn; lia]).
  unfold TCP_MSS in *. rewrite !u32_id by (rewrite ?u32_id; mach). lia.
Qed.

(** ** Transmission *)

Lemma send_tracked_ok driver c s fl data now :
  conn_ok c -> state c <> TCP_STATE_CLOSED -> tracked fl data ->
  let '(_, c', _) := tcp_send_tracked driver c s fl data now in
  conn_ok c' /\ state c' = state c /\ rcv c' = rcv c /\ ids c' = ids c.
Proof.
  intros [Hu Hs Hr Hwin] Hst Ht. specialize (Hs Hst). unfold tcp_send_tracked.
  destruct (tx_outstanding (snd c)) eqn:Eo; [done|]. cbn [orb].
  destruct (Z.ltb_spec TCP_MSS (size data)); [done|]. cbv zeta.
  destruct (tcp_send_raw _ _ _ _ _ _ _) as [ok s'] eqn:E. cbn.
  split; [|done]. split; cbn; [done| |done..]. intros _.
  destruct Hs as [H1 H2 H3 H4]. rewrite Eo in H4. split; cbn; [done| |done|].
  - unfold TCP_MAX_RETRIES. lia.
  - by rewrite H4.
Qed.

Lemma tcp_fail_ok c st : conn_ok c -> conn_ok (tcp_fail c st).
Proof. intros [Hu Hs Hr Hwin]. by split. Qed.

(** ** Acknowledgments *)

(** Where a new acknowledgment can fall. *)
Lemma ack_window una n ack :
  is_u32 una -> is_u32 ack -> 0 <= n <= TCP_MSS -> ack <> una ->
  tcp_seq_before ack una || tcp_seq_before (u32 (una + n)) ack = false ->
  exists k, 0 < k <= n /\ ack = u32 (una + k).
Proof.
  unfold TCP_MSS. intros Hu Ha Hn Hne [H1 H2]%orb_false_iff.
  apply not_true_iff_false in H1, H2. rewrite tcp_seq_before_iff in H1, H2
    by (done || apply u32_range).
  exists (u32 (ack - una)). split; [|mach]. revert H1 H2. mach.
Qed.

Lemma sender_window t :
  sender_ok t -> exists n, 0 <= n <= TCP_MSS /\ snd_nxt t = u32 (snd_una t + n) /\
    (tx_outstanding t = false -> n = 0) /\
    (tx_outstanding t = true -> n = tcp_sequence_space (tx_flags t) (size (tx_buffer t))).
Proof.
  intros [H1 H2 H3 H4]. rewrite H4. destruct (tx_outstanding t).
  - destruct (H3 eq_refl) as [Ht _]. apply sequence_space_tracked in Ht as [_ Hr].
    eexists. split; [|done]. lia.
  - exists 0. rewrite Z.add_0_r, u32_id by done. unfold TCP_MSS. by repeat split.
Qed.

Lemma ack_segment_ok t ack now :
  sender_ok t -> is_u32 ack -> ack <> snd_una t ->
  tcp_seq_before ack (snd_una t) || tcp_seq_before (snd_nxt t) ack = false ->
  sender_ok (ack_segment (Sender (iss t) ack (snd_nxt t) (tx_buffer t) (tx_sequence t)
    (tx_flags t) (tx_outstanding t) (retransmit_deadline t) (retries t)) ack now).
Proof.
  intros Hok Ha Hne Hw. destruct (sender_window t Hok) as (n & Hn & En & N0 & N1).
  pose proof Hok as [H1 H2 H3 H4]. rewrite En in Hw.
  destruct (ack_window _ _ _ H1 Ha Hn Hne Hw) as (k & Hk & ->).
  unfold ack_segment. cbn [tx_outstanding]. unfold TCP_MSS in Hn.
  destruct (tx_outstanding t); [|specialize (N0 eq_refl); lia].
  specialize (N1 eq_refl). destruct (H3 eq_refl) as [Ht Hq].
  cbn [tx_sequence tx_flags tx_buffer]. rewrite Hq, <- N1. rewrite seq_before_offset by (lia || done).
  destruct (Z.ltb_spec k n) as [Hkn|Hkn]; cbn [negb].
  2: { assert (k = n) as -> by lia. split; cbn; [apply u32_range|by_decision|done|congruence]. }
  destruct (sequence_space_tracked _ _ Ht) as [Hsp Hr]. rewrite <- N1 in Hsp.
  case_decide as Ef; [|lia]. rewrite Ef. change (has_flag ACK_PSH _) with false.
  assert (tcp_seq_before (u32 (snd_una t + k)) (snd_una t) = false) as ->.
  { rewrite <- (u32_id (snd_una t)) at 2 by done. rewrite <- (Z.add_0_r (snd_una t)) at 2.
    rewrite seq_before_offset by (lia || done). lia. }
  cbn [negb andb]. assert (u32 (u32 (snd_una t + k) - snd_una t) = k) as -> by mach.
  destruct (Z.leb_spec k (size (tx_buffer t))); [|lia]. unfold size in *.
  assert (Hl : Z.of_nat (length (drop (Z.to_nat k) (tx_buffer t))) = n - k)
    by (rewrite length_drop; lia).
  assert (Htk : tracked ACK_PSH (drop (Z.to_nat k) (tx_buffer t))).
  { right; right. split; [done|]. unfold size. rewrite Hl. split; [|unfold TCP_MSS; lia].
    intros E. rewrite E in Hl. cbn in Hl. lia. }
  split; cbn; [apply u32_range|done|done|]. rewrite En.
  destruct (sequence_space_tracked _ _ Htk) as [-> _]. rewrite decide_True by done.
  unfold size. rewrite Hl. mach.
Qed.

(** A step that keeps the sender and leaves the connection open. *)
Lemma conn_keep c c' :
  conn_ok c -> state c <> TCP_STATE_CLOSED -> state c' <> TCP_STATE_CLOSED ->
  in_use c' = in_use c -> remote_window c' = remote_window c -> sender_ok (snd c') ->
  receiver_ok (rcv c') -> conn_ok c'.
Proof.
  intros [Hu Hs Hr Hwin] H1 H2 H3 Hw H4 H5. split; [|done..|congruence].
  by rewrite H3, Hu, !bool_decide_false.
Qed.

Ltac kept := repeat (split; [done|]); first [by left|right; left; by split|right; right; by split].

Lemma process_ack_ok c ack now :
  conn_ok c -> state c <> TCP_STATE_CLOSED -> is_u32 ack ->
  let c' := tcp_process_ack c ack now in
  conn_ok c' /\ rcv c' = rcv c /\ ids c' = ids c /\ status c' = status c /\
  actions c' = actions c /\
  (state c' = state c \/ state c = TCP_STATE_FIN_WAIT_1 /\ state c' <> TCP_STATE_CLOSED \/
   state c = TCP_STATE_LAST_ACK /\ state c' = TCP_STATE_CLOSED).
Proof.
  intros Hc Hst Ha. cbv zeta. unfold tcp_process_ack. destruct (_ || _) eqn:Ew; [split; [done|kept]|].
  destruct (Z.eqb_spec ack (snd_una (snd c))); [split; [done|kept]|]. pose proof Hc as [Hu Hs Hr Hwin].
  pose proof (ack_segment_ok (snd c) ack now (Hs Hst) Ha ltac:(done) Ew) as Hok.
  cbn [state with_snd rcv]. revert Hok. generalize (ack_segment (Sender (iss (snd c)) ack
    (snd_nxt (snd c)) (tx_buffer (snd c)) (tx_sequence (snd c)) (tx_flags (snd c))
    (tx_outstanding (snd c)) (retransmit_deadline (snd c)) (retries (snd c))) ack now).
  intros t Hok.
  destruct (bool_decide_reflect (state c = TCP_STATE_FIN_WAIT_1)) as [E1|E1];
    destruct (bool_decide_reflect (state c = TCP_STATE_LAST_ACK)) as [E2|E2];
    destruct (tx_outstanding t); cbn [andb negb];
    try (split; [by eapply (conn_keep c)|kept]).
  - destruct (peer_fin_seen _); (split; [by eapply (conn_keep c)|kept]).
  - destruct (peer_fin_seen _); (split; [by eapply (conn_keep c)|kept]).
  - split; [by split|kept].
Qed.

(** ** Reception *)

Lemma queue_ack_ok c : conn_ok c -> conn_ok (tcp_queue_ack c).
Proof. intros [Hu Hs Hr Hwin]. by split. Qed.

Lemma accept_payload_ok c g now :
  conn_ok c -> state c <> TCP_STATE_CLOSED -> conn_ok (tcp_accept_payload c g now).
Proof.
  intros Hc Hst. pose proof Hc as [Hu Hs Hr Hwin]. specialize (Hs Hst). unfold tcp_accept_payload.
  destruct (_ =? _); [|by split].
  destruct (Z.ltb_spec (TCP_RX_CAPACITY - size (receive_buffer (rcv c))) (size (payload g))).
  { by split. }
  assert (Hb : size (receive_buffer (rcv c) ++ payload g) <= TCP_RX_CAPACITY)
    by (unfold size in *; rewrite length_app; lia).
  cbv zeta. destruct (has_flag _ _).
  - destruct (size (payload g) =? 0); cbn [state with_rcv tcp_queue_ack with_actions];
      repeat case_bool_decide; apply (conn_keep c); try done; (split; [apply u32_range|done]).
  - destruct (size (payload g) =? 0); apply (conn_keep c); try done;
      (split; [apply u32_range|done]).
Qed.

Lemma handle_ok c g now :
  conn_ok c -> state c <> TCP_STATE_CLOSED -> is_u32 (acknowledgment g) -> is_u16 (window g) ->
  conn_ok (tcp_handle c g now).
Proof.
  intros Hc Hst Ha Hg. unfold tcp_handle. cbv zeta.
  assert (Hw : conn_ok (with_window c (window g))) by (destruct Hc; by split).
  set (c1 := with_window c (window g)) in *. assert (Hst1 : state c1 <> TCP_STATE_CLOSED) by done.
  clearbody c1. destruct (has_flag _ TCP_FLAG_RST); [by apply tcp_fail_ok|].
  pose proof (process_ack_ok c1 (acknowledgment g) now Hw Hst1 Ha) as (Hp & Hr & _ & _ & _ & Hs).
  set (c2 := tcp_process_ack c1 (acknowledgment g) now) in *. clearbody c2.
  case_bool_decide as E.
  - destruct (_ || _); [done|]. assert (H2 : state c2 <> TCP_STATE_CLOSED).
    { destruct Hs as [->|[[? ?]|[? ?]]]; congruence. }
    pose proof (rcv_ok _ Hp). apply (conn_keep c2); try done.
    + by apply Hp.
    + split; [apply u32_range|]. by apply Hp.
  - set (c3 := if has_flag _ _ then _ else _). assert (H3 : conn_ok c3)
      by (unfold c3; by destruct (has_flag _ _)). clearbody c3.
    case_bool_decide; [done|]. destruct (_ || _); [by apply accept_payload_ok|done].
Qed.

Lemma receive_answers c st now dev src dst packet :
  exists c', tcp_receive c st now dev src dst packet = Some c'.
Proof.
  unfold tcp_receive. destruct packet as [p|]; [|by eexists].
  destruct (Z.ltb_spec (size p) TCP_HEADER_MIN_SIZE) as [|Hp]; [by eexists|].
  destruct (tcp_parse_safe (Some p)) as (r & -> & _). cbn [mbind option_bind].
  destruct r as [g|]; [|by eexists]. unfold tcp_read16, rd_be16.
  rewrite slice_in by (unfold size, TCP_HEADER_MIN_SIZE in Hp; lia). cbn [mbind option_bind].
  destruct (negb _); [by eexists|]. destruct (negb _); by eexists.
Qed.

(** What an accepted packet is. *)
Definition accepted (c : tcp_connection) (st : net) (dev : Z) (src dst : net_ipv4_t)
    (p : list Z) (g : tcp_segment_t) : Prop :=
  tcp_parse_segment (Some p) = Some (Some g) /\
  tcp_matches c st dev src dst g = true.

Lemma receive_cases c st now dev src dst p c' :
  tcp_receive c st now dev src dst (Some p) = Some c' ->
  c' = c \/ exists g, accepted c st dev src dst p g /\ c' = tcp_handle c g now.
Proof.
  unfold tcp_receive. destruct (_ <? _); [intros [= <-]; by left|].
  destruct (tcp_parse_segment (Some p)) as [[g|]|] eqn:Eg; cbn [mbind option_bind];
    [|intros [= <-]; by left|done].
  destruct (tcp_read16 p 16); [|done]. cbn [mbind option_bind].
  destruct (negb _); [intros [= <-]; by left|].
  destruct (tcp_matches _ _ _ _ _ _) eqn:Em; cbn [negb]; intros [= <-]; [|by left].
  right. by exists g.
Qed.

Lemma matches_open c st dev src dst g :
  conn_ok c -> tcp_matches c st dev src dst g = true -> state c <> TCP_STATE_CLOSED.
Proof.
  intros [Hu _ _ _]. unfold tcp_matches. rewrite !andb_true_iff. intros [[[[[[Hi _] _] _] _] _] _] Hc.
  rewrite Hu, Hc in Hi. done.
Qed.

Lemma receive_ok c st now dev src dst p c' :
  conn_ok c -> bytes p -> tcp_receive c st now dev src dst (Some p) = Some c' -> conn_ok c'.
Proof.
  intros Hc Hb [->|(g & [Hg Hm] & ->)]%receive_cases; [done|].
  apply handle_ok; [done|by eapply matches_open|by eapply parsed_numbers..].
Qed.
(** ** Service *)

(** [tcp_service] keeps the invariant and does not touch the receiver. *)
Lemma service_ok driver c s now :
  conn_ok c ->
  let '(c', _) := tcp_service driver c s now in
  conn_ok c' /\ rcv c' = rcv c /\ ids c' = ids c /\
  (state c' = state c \/ state c' = TCP_STATE_CLOSED).
Proof.
  intros Hc. unfold tcp_service.
  destruct (negb _); [split; [by apply tcp_fail_ok|by auto]|]. cbv zeta.
  set (r := if has_flag _ _ then _ else _).
  assert (Hr : conn_ok r.1 /\ rcv r.1 = rcv c /\ ids r.1 = ids c /\ state r.1 = state c /\
    snd r.1 = snd c).
  { unfold r. destruct (has_flag _ _); [destruct (tcp_send_raw _ _ _ _ _ _ _) as [[] ?]|];
      (split; [destruct Hc; by split|done]). }
  clearbody r. destruct r as [c1 s1]. cbn in Hr. destruct Hr as (H1 & H2 & H3 & H4 & H5).
  destruct (bool_decide _ && _).
  { split; [destruct H1; by split|]. cbn. by auto. }
  destruct (tx_outstanding _ && _) eqn:Eo; [|by auto].
  destruct (Z.leb_spec TCP_MAX_RETRIES (retries (snd c1))).
  { split; [by apply tcp_fail_ok|]. cbn. by auto. }
  destruct (tcp_send_raw _ _ _ _ _ _ _) as [? s2]. cbn [rcv ids state with_snd].
  split; [|by auto]. destruct H1 as [P1 P2 P3 P4]. split; cbn; [done| |done..].
  intros Hn. destruct (P2 Hn) as [Q1 Q2 Q3 Q4]. split; cbn; try done.
  unfold TCP_MAX_RETRIES in *. rewrite u32_id by mach. lia.
Qed.

Lemma arrive_ok s now l c :
  conn_ok c -> Forall (fun a => bytes (arr_packet a)) l ->
  exists c', arrive c s now l = Some c' /\ conn_ok c'.
Proof.
  intros Hc Hl. revert c Hc. induction Hl as [|a l Ha Hl IH]; intros c Hc; cbn [arrive];
    [by eexists|].
  destruct (receive_answers c (s_net s) now (arr_device a) (arr_source a) (arr_destination a)
    (Some (arr_packet a))) as [c' E]. rewrite E. cbn [mbind option_bind].
  apply IH. by eapply receive_ok.
Qed.

(** Rounds in which only bytes arrive. *)
Definition rounds_ok (l : list round) : Prop :=
  Forall (fun r => Forall (fun a => bytes (arr_packet a)) (arrivals r)) l.

Definition final (w : waited) : tcp_connection * stack :=
  match w with Ended _ _ c s _ _ | Waiting c s => (c, s) end.

Definition waited_ok (w : waited) : Prop :=
  conn_ok (final w).1 /\ match w with Ended _ _ _ _ _ rest => rounds_ok rest | _ => True end.

Lemma give_up_ok c s now rest : conn_ok c -> rounds_ok rest -> waited_ok (end_wait c s now rest).
Proof.
  intros Hc Hr. split; [|done]. cbn. case_bool_decide; [by apply tcp_fail_ok|done].
Qed.

Lemma wait_loop_ok driver wanted start timeout rounds : forall c s,
  conn_ok c -> rounds_ok rounds ->
  exists w, wait_loop driver c s wanted start timeout rounds = Some w /\ waited_ok w /\
    match w with Ended true _ c _ _ _ => state c = wanted | _ => True end.
Proof.
  induction rounds as [|r rest IH]; intros c s Hc Hr; cbn [wait_loop].
  { eexists. split; [done|]. split; [split; [exact Hc|done]|done]. }
  apply Forall_cons_1 in Hr as [Ha Hr].
  destruct (negb _); [eexists; split; [done|]; split; [by apply give_up_ok|done]|].
  pose proof (service_ok driver c s (at_ r) Hc) as Hs.
  destruct (tcp_service _ _ _ _) as [c1 s1]. destruct Hs as (H1 & _).
  case_bool_decide; [eexists; split; [done|]; split; [split; [exact H1|exact Hr]|done]|].
  destruct (negb _); [eexists; split; [done|]; split; [by apply give_up_ok|done]|].
  destruct (arrive_ok s1 (at_ r) (arrivals r) c1 H1 Ha) as (c2 & -> & H2).
  cbn [mbind option_bind]. by apply IH.
Qed.

Ltac stop_here := eexists; split; [done|]; split; cbn; done.


Lemma close_loop_ok driver start rounds : forall c s,
  conn_ok c -> rounds_ok rounds ->
  exists w, close_loop driver c s start rounds = Some w /\ waited_ok w.
Proof.
  induction rounds as [|r rest IH]; intros c s Hc Hr; cbn [close_loop]; [stop_here|].
  apply Forall_cons_1 in Hr as [Ha Hr].
  destruct (negb _); [eexists; split; [done|]; by apply give_up_ok|].
  pose proof (service_ok driver c s (at_ r) Hc) as Hs.
  destruct (tcp_service _ _ _ _) as [c1 s1]. destruct Hs as (H1 & _).
  case_bool_decide as E.
  { eexists. split; [done|]. split; [|done]. cbn. destruct H1 as [P1 P2 P3 P4].
    split; cbn; [|done..]. by rewrite bool_decide_true. }
  destruct (arrive_ok s1 (at_ r) (arrivals r) c1 H1 Ha) as (c2 & -> & H2).
  cbn [mbind option_bind]. by apply IH.
Qed.

Lemma begin_close_ok driver c s now :
  conn_ok c ->
  match begin_close driver c s now with inl (c', _) | inr (_, _, c', _) => conn_ok c' end.
Proof.
  intros Hc. assert (Hs : forall st, state c <> TCP_STATE_CLOSED -> st <> TCP_STATE_CLOSED ->
    let '(_, c', _) := tcp_send_tracked driver (with_state c st) s FIN_ACK [] now in conn_ok c').
  { intros st Hn Hst. assert (H1 : conn_ok (with_state c st)).
    { apply (conn_keep c); try done; by apply Hc. }
    pose proof (send_tracked_ok driver (with_state c st) s FIN_ACK [] now H1 Hst) as H2.
    destruct (tcp_send_tracked _ _ _ _ _ _) as [[? ?] ?]. apply H2. right; left. by split. }
  unfold begin_close. destruct (state c) eqn:E; try done.
  - destruct Hc as [P1 P2 P3 P4]. split; cbn; [|done..]. by rewrite bool_decide_true.
  - specialize (Hs TCP_STATE_FIN_WAIT_1 ltac:(done) ltac:(done)).
    by destruct (tcp_send_tracked _ _ _ _ _ _) as [[? ?] ?].
  - specialize (Hs TCP_STATE_LAST_ACK ltac:(done) ltac:(done)).
    by destruct (tcp_send_tracked _ _ _ _ _ _) as [[? ?] ?].
Qed.

Lemma tcp_close_ok driver c s self now rounds :
  conn_ok c -> rounds_ok rounds ->
  exists w, tcp_close driver c s self now rounds = Some w /\ waited_ok w.
Proof.
  intros Hc Hr. unfold tcp_close. destruct self; cbn [negb]; [|stop_here].
  pose proof (service_ok driver c s now Hc) as Hs.
  destruct (tcp_service _ _ _ _) as [c1 s1]. destruct Hs as (H1 & _).
  pose proof (begin_close_ok driver c1 s1 now H1) as H2.
  destruct (begin_close _ _ _ _) as [[c2 s2]|[[[ok out] c2] s2]]; [by apply close_loop_ok|stop_here].
Qed.


Lemma no_connection_ok : conn_ok no_connection.
Proof. split; cbn; [done|done| |]; [split|]; by_decision. Qed.

Lemma lxor_u32 x y : is_u32 x -> is_u32 y -> is_u32 (Z.lxor x y).
Proof.
  intros Hx Hy. assert (Z.lxor x y = Z.lxor x y mod 2 ^ 32) as ->; [|by apply u32_range].
  apply Z.bits_inj'. intros n Hn. destruct (Z.lt_ge_cases n 32).
  - by rewrite Z.mod_pow2_bits_low.
  - rewrite Z.mod_pow2_bits_high, Z.lxor_spec by lia.
    rewrite <- (Z.mod_small x (2 ^ 32)), <- (Z.mod_small y (2 ^ 32)) by mach.
    by rewrite !Z.mod_pow2_bits_high by lia.
Qed.

Lemma new_connection_ok t conf dev gen to port now :
  conn_ok (connection (new_connection t conf dev gen to port now)).
Proof.
  split; cbn -[Z.lxor u32 u16]; [done| | |by_decision].
  - intros _. split; cbn -[Z.lxor u32 u16]; [|by_decision|done|done].
    apply lxor_u32; [|apply u32_range]. apply lxor_u32; apply u32_range.
  - split; by_decision.
Qed.


(** ** Histories *)



(** ** The received stream *)





















(** ** Time *)

(** The clock of the rounds advances by at least a tick per sleep and does
    not wrap. *)
Fixpoint advancing (now : Z) (rounds : list round) : Prop :=
  match rounds with
  | [] => True
  | r :: rest => now <= at_ r < 18446744073709551616 /\ advancing (at_ r + 1) rest
  end.

Lemma elapsed start now : 0 <= start <= now -> now < 18446744073709551616 ->
  u64 (now - start) = now - start.
Proof. intros. apply u64_id. mach. Qed.

(** A wait that is still going on has used less time than its limit. *)
Lemma wait_loop_waiting driver wanted start timeout rounds : forall c s now w,
  0 <= start <= now -> advancing now rounds ->
  wait_loop driver c s wanted start timeout rounds = Some w ->
  now - start + Z.of_nat (length rounds) <= timeout \/
  rounds = [] \/ exists b out c' s' t rest, w = Ended b out c' s' t rest.
Proof.
  induction rounds as [|r rest IH]; intros c s now w Hs Ha; [by right; left|].
  destruct Ha as [Hr Ha]. cbn [wait_loop]. rewrite elapsed by lia.
  destruct (Z.ltb_spec (at_ r - start) timeout) as [Ht|Ht]; cbn [negb].
  2: { unfold end_wait. intros [= <-]. right; right. by repeat eexists. }
  destruct (tcp_service _ _ _ _) as [c1 s1].
  case_bool_decide; [intros [= <-]; right; right; by repeat eexists|].
  destruct (negb _); [unfold end_wait; intros [= <-]; right; right; by repeat eexists|].
  destruct (arrive _ _ _ _) as [c2|]; [|done]. cbn [mbind option_bind]. intros Hw.
  apply (IH c2 _ (at_ r + 1)) in Hw as [Hw|[->|Hw]]; [left; cbn [length]; lia|left; cbn; lia| |lia|done].
  by right; right.
Qed.

Lemma close_loop_waiting driver start rounds : forall c s now w,
  0 <= start <= now -> advancing now rounds ->
  close_loop driver c s start rounds = Some w ->
  now - start + Z.of_nat (length rounds) <= TCP_RTO_TICKS * (TCP_MAX_RETRIES + 2) \/
  rounds = [] \/ exists b out c' s' t rest, w = Ended b out c' s' t rest.
Proof.
  induction rounds as [|r rest IH]; intros c s now w Hs Ha; [by right; left|].
  destruct Ha as [Hr Ha]. cbn [close_loop]. rewrite elapsed by lia.
  destruct (Z.ltb_spec (at_ r - start) (TCP_RTO_TICKS * (TCP_MAX_RETRIES + 2))) as [Ht|Ht]; cbn [negb].
  2: { unfold end_wait. intros [= <-]. right; right. by repeat eexists. }
  destruct (tcp_service _ _ _ _) as [c1 s1].
  case_bool_decide; [intros [= <-]; right; right; by repeat eexists|].
  destruct (arrive _ _ _ _) as [c2|]; [|done]. cbn [mbind option_bind]. intros Hw.
  apply (IH c2 _ (at_ r + 1)) in Hw as [Hw|[->|Hw]]; [left; cbn [length]; lia|left; cbn; lia| |lia|done].
  by right; right.
Qed.

(** The blocking calls return.  If the clock advances by at least one tick
    per sleep, [tcp_connect] returns within 4000 sleeps and [tcp_close] within
    5000, whatever packets arrive and whatever happens to the network
    meanwhile. *)
Theorem tcp_calls_terminate (driver : Z -> list Z -> bool) (t : tcp) (s : stack) (dev : Z)
    (d : net_device) (to : net_ipv4_t) (port now : Z) (has_out self : bool) (rounds : list round) :
  conn_ok (connection t) -> structs (s_net s) !! dev = Some d -> 0 <= now ->
  rounds_ok rounds -> advancing now rounds ->
  (4000 < length rounds ->
   exists t' ok out c' s' time rest,
     tcp_connect driver t s dev to port now has_out rounds =
       Some (t', Ended ok out c' s' time rest) /\ connection t' = c')%nat /\
  (5000 < length rounds ->
   exists ok out c' s' time rest,
     tcp_close driver (connection t) s self now rounds =
       Some (Ended ok out c' s' time rest))%nat.
Proof.
  intros Hc Hd Hn Hr Ha. split; intros Hl.
  - unfold tcp_connect, refused. destruct (_ || _); [by repeat eexists|].
    destruct (in_use _); [by repeat eexists|]. rewrite Hd. cbn [mbind option_bind]. cbv zeta.
    set (t1 := new_connection _ _ _ _ _ _ _).
    pose proof (send_tracked_ok driver (connection t1) s TCP_FLAG_SYN [] now
      (new_connection_ok _ _ _ _ _ _ _) ltac:(done) ltac:(by left)) as Hs.
    destruct (tcp_send_tracked _ _ _ _ _ _) as [[? c1] s1]. destruct Hs as (H1 & _).
    unfold tcp_wait_for. destruct (wait_loop_ok driver TCP_STATE_ESTABLISHED now
      (TCP_RTO_TICKS * (TCP_MAX_RETRIES + 1)) rounds c1 s1 H1 Hr) as (w & Ew & _). rewrite Ew.
    cbn [mbind option_bind].
    apply (wait_loop_waiting _ _ _ _ _ _ _ now) in Ew
      as [Ew|[->|(b2 & out2 & c3 & s3 & tm & rest & ->)]];
      [unfold TCP_RTO_TICKS, TCP_MAX_RETRIES in Ew; lia|cbn in Hl; lia|by repeat eexists|lia|done].
  - destruct (tcp_close_ok driver (connection t) s self now rounds Hc Hr) as (w & Ew & _).
    rewrite Ew. unfold tcp_close in Ew. destruct self; cbn [negb] in Ew;
      [|injection Ew as <-; by repeat eexists].
    destruct (tcp_service _ _ _ _) as [c1 s1].
    destruct (begin_close _ _ _ _) as [[c2 s2]|[[[ok out] c2] s2]];
      [|injection Ew as <-; by repeat eexists].
    apply (close_loop_waiting _ _ _ _ _ now) in Ew
      as [Ew|[->|(b2 & out2 & c3 & s3 & tm & rest & ->)]];
      [unfold TCP_RTO_TICKS, TCP_MAX_RETRIES in Ew; lia|cbn in Hl; lia|by repeat eexists|lia|done].
Qed.

(** ** Retransmission *)

(** Services without any packet in between. *)
Fixpoint serve (driver : Z -> list Z -> bool) (c : tcp_connection) (l : list (stack * Z))
    : tcp_connection :=
  match l with
  | [] => c
  | (s, now) :: l => serve driver (tcp_service driver c s now).1 l
  end.

Definition device_current (a : addresses) (s : stack) : Prop :=
  net_device_instance_current (s_net s) (device a) (device_generation a) = true.

(** Each service comes when the retransmission timer has expired. *)
Fixpoint expiring (a : addresses) (deadline : Z) (l : list (stack * Z)) : Prop :=
  match l with
  | [] => True
  | (s, now) :: l =>
      deadline <= now /\ is_u64 (now + TCP_RTO_TICKS) /\ device_current a s /\
      expiring a (now + TCP_RTO_TICKS) l
  end.

(** A service after the timer expired, with no acknowledgment to send. *)
Lemma service_expired driver c s now :
  device_current (ids c) s -> actions c = 0 -> state c <> TCP_STATE_TIME_WAIT ->
  tx_outstanding (snd c) = true -> retransmit_deadline (snd c) <= now ->
  is_u64 (now + TCP_RTO_TICKS) -> 0 <= retries (snd c) <= TCP_MAX_RETRIES ->
  let t := snd c in
  tcp_service driver c s now =
    if retries t =? TCP_MAX_RETRIES then (tcp_fail c TCP_STATUS_TIMEOUT, s)
    else (with_snd c (Sender (iss t) (snd_una t) (snd_nxt t) (tx_buffer t) (tx_sequence t)
            (tx_flags t) true (now + TCP_RTO_TICKS) (retries t + 1)),
          (tcp_send_raw driver c s (tx_sequence t) (rcv_nxt (rcv c)) (tx_flags t)
             (tx_buffer t)).2).
Proof.
  intros Hd Ha Hst Ho Hdl Hn Hr. cbv zeta. unfold tcp_service. rewrite Hd. cbn [negb]. cbv zeta.
  rewrite Ha. change (has_flag 0 TCP_ACTION_ACK) with false. cbv iota.
  assert (with_actions c 0 = c) as -> by (rewrite <- Ha; by destruct c).
  rewrite bool_decide_false by done. cbn [andb]. rewrite Ho.
  destruct (Z.leb_spec (retransmit_deadline (snd c)) now); [|lia]. cbn [andb].
  destruct (Z.leb_spec TCP_MAX_RETRIES (retries (snd c))), (Z.eqb_spec (retries (snd c)) TCP_MAX_RETRIES);
    [done|lia|lia|].
  destruct (tcp_send_raw _ _ _ _ _ _ _). rewrite u64_id by done.
  rewrite u32_id; [done|]. unfold TCP_MAX_RETRIES in *. mach.
Qed.

(** The connection after [length l] expiries, when [n] came before. *)
Lemma serve_spec driver l : forall n c, tx_outstanding (snd c) = true -> retries (snd c) = Z.of_nat n ->
  (n <= 3)%nat -> actions c = 0 -> state c <> TCP_STATE_TIME_WAIT ->
  expiring (ids c) (retransmit_deadline (snd c)) l ->
  ((n + length l <= 3)%nat -> let c' := serve driver c l in
    state c' = state c /\ tx_outstanding (snd c') = true /\
    retries (snd c') = Z.of_nat (n + length l) /\ actions c' = 0 /\ ids c' = ids c /\
    rcv c' = rcv c /\ tx_sequence (snd c') = tx_sequence (snd c) /\
    tx_flags (snd c') = tx_flags (snd c) /\ tx_buffer (snd c') = tx_buffer (snd c)) /\
  ((n + length l = 4)%nat -> let c' := serve driver c l in
    state c' = TCP_STATE_CLOSED /\ status c' = TCP_STATUS_TIMEOUT /\ in_use c' = false).
Proof.
  induction l as [|[s now] l IH]; intros n c Ho Hr Hn Ha Hst He; cbn [serve].
  { split; [|cbn; lia]. intros _. cbn. by rewrite Nat.add_0_r. }
  cbn [expiring] in He. destruct He as (Hd & Hu & Hc & He).
  pose proof (service_expired driver c s now Hc Ha Hst Ho Hd Hu) as Hs.
  unfold TCP_MAX_RETRIES in Hs. cbv zeta in Hs. rewrite Hs by lia. clear Hs.
  destruct (Z.eqb_spec (retries (snd c)) 3) as [E|E]; cbn [fst].
  { assert (n = 3%nat) as -> by lia. split; [cbn; lia|]. cbn [length]. intros Hl.
    assert (l = []) as -> by (destruct l; [done|cbn in Hl; lia]). done. }
  destruct (IH (S n) (with_snd c (Sender (iss (snd c)) (snd_una (snd c)) (snd_nxt (snd c))
    (tx_buffer (snd c)) (tx_sequence (snd c)) (tx_flags (snd c)) true (now + TCP_RTO_TICKS)
    (retries (snd c) + 1)))) as [I1 I2]; try done.
  { cbn. lia. } { lia. }
  cbn [length]. rewrite <- plus_n_Sm. split; [exact I1|exact I2].
Qed.

(** A segment that is not acknowledged is sent again, unchanged, each time
    its timer of 1000 ticks expires, three times; at the fourth expiry the
    connection fails with a timeout and is free for the next
    [tcp_connect]. *)
Theorem tcp_retransmits_then_times_out (driver : Z -> list Z -> bool) (c : tcp_connection)
    (l : list (stack * Z)) :
  tx_outstanding (snd c) = true -> retries (snd c) = 0 -> actions c = 0 ->
  state c <> TCP_STATE_TIME_WAIT -> expiring (ids c) (retransmit_deadline (snd c)) l ->
  ((length l <= 3)%nat ->
    let c' := serve driver c l in
    state c' = state c /\ tx_outstanding (snd c') = true /\
    retries (snd c') = Z.of_nat (length l) /\
    (forall s now, device_current (ids c) s -> (length l < 3)%nat ->
       retransmit_deadline (snd c') <= now -> is_u64 (now + TCP_RTO_TICKS) ->
       (tcp_service driver c' s now).2 =
         (tcp_send_raw driver c' s (tx_sequence (snd c)) (rcv_nxt (rcv c)) (tx_flags (snd c))
            (tx_buffer (snd c))).2)) /\
  (length l = 4%nat ->
    let c' := serve driver c l in
    state c' = TCP_STATE_CLOSED /\ status c' = TCP_STATUS_TIMEOUT /\ in_use c' = false).
Proof.
  intros Ho Hr Ha Hst He.
  destruct (serve_spec driver l 0%nat c Ho Hr ltac:(lia) Ha Hst He) as [G1 G2]. split; [|exact G2].
  intros Hl. specialize (G1 Hl). cbv zeta in *.
  destruct G1 as (G1 & G3 & G4 & G5 & G6 & G7 & G8 & G9 & G10).
  split; [done|]. split; [done|]. split; [done|]. intros s now Hd Hl' Hdl Hu.
  rewrite service_expired; try done; [|by rewrite G6|by rewrite G1|unfold TCP_MAX_RETRIES; lia].
  destruct (Z.eqb_spec (retries (snd (serve driver c l))) TCP_MAX_RETRIES) as [E|E].
  { unfold TCP_MAX_RETRIES in E. lia. }
  cbn [Datatypes.snd]. by rewrite G7, G8, G9, G10.
Qed.

(** ** Segments end to end *)

(** What one host sends another receives.  A segment built by
    [tcp_send_raw] parses back to exactly the same fields and payload and its
    checksum verifies, so a connection with the mirrored addresses and ports
    handles exactly that segment; a packet whose checksum field was altered is
    ignored. *)
Theorem tcp_segment_round_trip (c : tcp_connection) (st : net) (now dev : Z) (src dst : net_ipv4_t)
    (g : tcp_segment_t) (sum : Z) :
  segment_ok g -> size (payload g) <= TCP_MSS -> is_u16 sum ->
  sum <> tcp_checksum src dst (Some (tcp_fields g 0)) ->
  tcp_receive c st now dev src dst (Some (tcp_packet src dst g)) =
    Some (if tcp_matches c st dev src dst g then tcp_handle c g now else c) /\
  tcp_receive c st now dev src dst (Some (tcp_fields g sum)) = Some c.
Proof.
  intros Hg Hl Hs Hne.
  assert (H : forall sum, is_u16 sum ->
    tcp_receive c st now dev src dst (Some (tcp_fields g sum)) =
    Some (if tcp_checksum src dst (Some (tcp_fields g 0)) =? sum then
            if tcp_matches c st dev src dst g then tcp_handle c g now else c else c)).
  { intros x Hx. unfold tcp_receive, size. rewrite length_tcp_fields.
    replace (Z.of_nat (20 + length (payload g)) <? TCP_HEADER_MIN_SIZE) with false
      by (unfold TCP_HEADER_MIN_SIZE; lia).
    rewrite parse_tcp_fields by done. cbn [mbind option_bind].
    rewrite checksum_at_16 by done. cbn [mbind option_bind]. rewrite tcp_checksum_fields.
    destruct (_ =? _); cbn [negb]; [|done]. by destruct (tcp_matches _ _ _ _ _ _). }
  split.
  - unfold tcp_packet. rewrite H by apply tcp_checksum_u16. by rewrite Z.eqb_refl.
  - rewrite H by done. by destruct (Z.eqb_spec (tcp_checksum src dst (Some (tcp_fields g 0))) sum).
Qed.

(** ** Two defects *)

(** A service with nothing to do. *)
Lemma service_idle driver c s now :
  device_current (ids c) s -> actions c = 0 -> state c <> TCP_STATE_TIME_WAIT ->
  tx_outstanding (snd c) = false \/ now < retransmit_deadline (snd c) ->
  tcp_service driver c s now = (c, s).
Proof.
  intros Hd Ha Hst Ho. unfold tcp_service. rewrite Hd. cbn [negb]. cbv zeta.
  rewrite Ha. change (has_flag 0 TCP_ACTION_ACK) with false. cbv iota.
  assert (with_actions c 0 = c) as -> by (rewrite <- Ha; by destruct c).
  rewrite bool_decide_false by done. cbn [andb].
  destruct Ho as [->|Ho]; [done|].
  destruct (Z.leb_spec (retransmit_deadline (snd c)) now); [lia|]. by rewrite andb_false_r.
Qed.

(** [tcp_close] loses the FIN of a connection with data in flight, which is
    how [tcp_send] leaves it.  It enters [FIN_WAIT_1] but sends and tracks
    nothing; when the data is acknowledged the connection is in [FIN_WAIT_2]
    although no FIN was ever sent, so the peer is never told. *)
Theorem close_in_flight_sends_no_fin (driver : Z -> list Z -> bool) (c : tcp_connection)
    (s : stack) (now later : Z) :
  state c = TCP_STATE_ESTABLISHED -> sender_ok (snd c) -> tx_outstanding (snd c) = true ->
  tx_flags (snd c) = ACK_PSH -> peer_fin_seen (rcv c) = false ->
  begin_close driver c s now = inl (with_state c TCP_STATE_FIN_WAIT_1, s) /\
  let c' := tcp_process_ack (with_state c TCP_STATE_FIN_WAIT_1) (snd_nxt (snd c)) later in
  state c' = TCP_STATE_FIN_WAIT_2 /\ tx_outstanding (snd c') = false /\
  snd_nxt (snd c') = snd_nxt (snd c) /\ snd_una (snd c') = snd_nxt (snd c).
Proof.
  intros Hst Hok Ho Hfl Hf. split.
  { unfold begin_close. rewrite Hst. unfold tcp_send_tracked. cbn [snd with_state]. by rewrite Ho. }
  destruct (sender_window _ Hok) as (n & Hn & En & _ & N1). specialize (N1 Ho).
  destruct (in_flight _ Hok Ho) as [Ht Hq].
  destruct (sequence_space_tracked _ _ Ht) as [_ Hr]. rewrite <- N1 in Hr.
  unfold TCP_MSS in Hr, Hn. pose proof (una_u32 _ Hok) as Hu.
  assert (B : forall d e, 0 <= d < 2 ^ 30 -> 0 <= e < 2 ^ 30 ->
    tcp_seq_before (u32 (snd_una (snd c) + d)) (u32 (snd_una (snd c) + e)) = (d <? e))
    by (intros; by apply seq_before_offset).
  assert (E0 : snd_una (snd c) = u32 (snd_una (snd c) + 0)) by (rewrite Z.add_0_r, u32_id; done).
  assert (B0 : tcp_seq_before (u32 (snd_una (snd c) + n)) (snd_una (snd c)) = false)
    by (rewrite E0 at 2; rewrite B by lia; lia).
  set (t := Sender (iss (snd c)) (snd_nxt (snd c)) (snd_nxt (snd c)) (tx_buffer (snd c))
    (tx_sequence (snd c)) (tx_flags (snd c)) false (retransmit_deadline (snd c)) 0).
  assert (E : tcp_process_ack (with_state c TCP_STATE_FIN_WAIT_1) (snd_nxt (snd c)) later =
    with_state (with_snd c t) TCP_STATE_FIN_WAIT_2); [|by rewrite E].
  unfold t, tcp_process_ack. cbn [snd with_state state rcv]. rewrite En, B0, B by lia.
  replace (false || (n <? n)) with false by lia.
  destruct (Z.eqb_spec (u32 (snd_una (snd c) + n)) (snd_una (snd c))) as [E|E]; [mach|].
  unfold ack_segment. cbn [tx_outstanding tx_sequence tx_flags tx_buffer].
  rewrite Ho, Hq, <- N1, B by lia. replace (n <? n) with false by lia. cbn -[u32 bool_decide].
  rewrite bool_decide_true by done. cbn -[u32]. by rewrite Hf.
Qed.

(** [tcp_send] cannot send more than one segment.  [tcp_wait_for] returns
    at once, since the connection is already established, without waiting for
    the acknowledgment; the second chunk finds the first still in flight and
    the call fails with [TCP_STATUS_INVALID_STATE], although the connection is
    sound and the first segment was sent. *)
Theorem tcp_send_fails_after_one_segment (driver : Z -> list Z -> bool) (c : tcp_connection)
    (s s' : stack) (data : list Z) (now : Z) (r : round) (rest : list round) :
  state c = TCP_STATE_ESTABLISHED -> tx_outstanding (snd c) = false -> actions c = 0 ->
  TCP_MSS <= remote_window c -> TCP_MSS < size data ->
  tcp_send_tracked driver c s ACK_PSH (take (Z.to_nat TCP_MSS) data) now =
    (true, (tcp_send_tracked driver c s ACK_PSH (take (Z.to_nat TCP_MSS) data) now).1.2, s') ->
  device_current (ids c) s' -> 0 <= now <= at_ r -> at_ r < now + TCP_RTO_TICKS ->
  is_u64 (now + TCP_RTO_TICKS) ->
  exists c', tcp_send driver c s true (Some data) now (r :: rest) =
    Some (Ended false TCP_STATUS_INVALID_STATE c' s' (at_ r) rest) /\
    state c' = TCP_STATE_ESTABLISHED /\ tx_buffer (snd c') = take (Z.to_nat TCP_MSS) data.
Proof.
  intros Hst Ho Ha Hw Hl Hs Hd Hn Hr Hu. unfold tcp_send. rewrite bool_decide_true by done.
  cbn [negb orb]. remember (length data) as fuel eqn:Ef.
  assert (Hfuel : exists k, fuel = S k) by (destruct fuel; [unfold TCP_MSS, size in Hl; lia|by eexists]).
  destruct Hfuel as [k ->]. cbn [send_loop].
  unfold TCP_MSS, TCP_RTO_TICKS in *.
  destruct (Z.eqb_spec (size data) 0); [lia|]. destruct (Z.eqb_spec (remote_window c) 0); [lia|].
  cbv zeta. destruct (Z.ltb_spec 1460 (size data)); [|lia].
  destruct (Z.ltb_spec (remote_window c) 1460); [lia|]. change (1460 =? 0) with false. cbv iota.
  change (Z.lor TCP_FLAG_ACK TCP_FLAG_PSH) with ACK_PSH. rewrite Hs. cbn [negb].
  set (c1 := (tcp_send_tracked driver c s ACK_PSH (take (Z.to_nat 1460) data) now).1.2).
  assert (E1 : state c1 = TCP_STATE_ESTABLISHED /\ actions c1 = 0 /\ ids c1 = ids c /\
    tx_outstanding (snd c1) = true /\ retransmit_deadline (snd c1) = now + 1000 /\
    tx_buffer (snd c1) = take (Z.to_nat 1460) data /\ remote_window c1 = remote_window c).
  { unfold c1, tcp_send_tracked. rewrite Ho. unfold size. rewrite length_take.
    replace (false || _) with false by (unfold TCP_MSS; lia). cbv zeta.
    destruct (tcp_send_raw _ _ _ _ _ _ _). cbn -[u64 Z.to_nat take]. unfold TCP_RTO_TICKS.
    by rewrite u64_id. }
  clearbody c1. destruct E1 as (F1 & F2 & F3 & F4 & F5 & F6 & F7).
  unfold tcp_wait_for. cbn [wait_loop]. unfold TCP_RTO_TICKS, TCP_MAX_RETRIES.
  rewrite elapsed by mach. destruct (Z.ltb_spec (at_ r - now) (1000 * (3 + 1))); [|lia]. cbn [negb].
  rewrite service_idle; [|by rewrite F3|done|congruence|right; lia].
  rewrite bool_decide_true by done. cbn [mbind option_bind]. cbn [send_loop].
  unfold size in *. rewrite length_drop.
  destruct (Z.eqb_spec (Z.of_nat (length data - Z.to_nat 1460)) 0); [lia|].
  rewrite F7. destruct (Z.eqb_spec (remote_window c) 0); [lia|].
  destruct (_ =? 0); cbn [negb]; [by eexists|].
  unfold tcp_send_tracked. rewrite F4. cbn [orb negb]. by eexists.
Qed.

(** * A concrete connection *)

Definition demo_driver : Z -> list Z -> bool := fun _ _ => true.
Definition demo_stack : stack :=
  Stack (host_net mac1) (host_conf ip1) (arp_cache_update empty_cache ip2 mac2) 0.
Definition fresh : tcp := TcpState no_connection 0 0.

(** The connection after its SYN was sent. *)
Definition demo_syn : tcp_connection :=
  (tcp_send_tracked demo_driver (connection (new_connection fresh (host_conf ip1) 8 1 ip2 80 5))
     demo_stack TCP_FLAG_SYN [] 5).1.2.
Definition peer_packet (seq fl : Z) (data : list Z) : list Z :=
  tcp_packet ip2 ip1 (Segment 80 (local_port (ids demo_syn)) seq (snd_nxt (snd demo_syn)) fl 2000 data).
Definition demo_rounds : list round :=
  [Round 5 [Arrival 8 ip2 ip1 (peer_packet 5000 0x12 [])] (fun s => s); Round 6 [] (fun s => s)].
Definition demo_connect : tcp * waited :=
  default (fresh, Waiting no_connection demo_stack)
    (tcp_connect demo_driver fresh demo_stack 8 ip2 80 5 true demo_rounds).
Definition demo_tcp : tcp := demo_connect.1.
Definition demo_open : tcp_connection := connection demo_tcp.



Definition quiet_rounds (n : nat) (now : Z) : list round :=
  map (fun i => Round (now + Z.of_nat i) [] (fun s => s)) (seq 0 n).

Lemma quiet_rounds_ok n now :
  0 <= now -> now + Z.of_nat n < 18446744073709551616 ->
  rounds_ok (quiet_rounds n now) /\ advancing now (quiet_rounds n now).
Proof.
  intros Hn Hm. unfold quiet_rounds. split.
  - apply Forall_map. apply Forall_true. intros i. apply Forall_nil_2.
  - assert (H : forall k i, now + Z.of_nat (i + k) < 18446744073709551616 ->
      advancing (now + Z.of_nat i) (map (fun i => Round (now + Z.of_nat i) [] (fun s => s)) (seq i k))).
    { induction k as [|k IH]; intros i Hi; [done|]. cbn [seq map advancing at_].
      split; [lia|]. replace (now + Z.of_nat i + 1) with (now + Z.of_nat (S i)) by lia.
      apply IH. lia. }
    specialize (H n 0%nat ltac:(cbn [Nat.add]; lia)). by rewrite Z.add_0_r in H.
Qed.

Lemma tcp_calls_terminate_witness :
  exists t' ok out c' s' time rest,
    tcp_connect demo_driver fresh demo_stack 8 ip2 80 5 true (quiet_rounds 4001 5) =
      Some (t', Ended ok out c' s' time rest) /\ connection t' = c'.
Proof.
  destruct (quiet_rounds_ok 4001 5) as [H1 H2]; [lia|lia|].
  destruct (tcp_calls_terminate demo_driver fresh demo_stack 8 (host_device mac1) ip2 80 5 true true
    (quiet_rounds 4001 5)) as [H _];
    [apply no_connection_ok|reflexivity|lia|exact H1|exact H2|].
  apply H. unfold quiet_rounds. rewrite length_map, length_seq. lia.
Defined.

Lemma tcp_retransmits_then_times_out_witness :
  let c' := serve demo_driver demo_syn
              [(demo_stack, 1005); (demo_stack, 2005); (demo_stack, 3010); (demo_stack, 4500)] in
  state c' = TCP_STATE_CLOSED /\ status c' = TCP_STATUS_TIMEOUT /\ in_use c' = false.
Proof.
  apply (tcp_retransmits_then_times_out demo_driver demo_syn
    [(demo_stack, 1005); (demo_stack, 2005); (demo_stack, 3010); (demo_stack, 4500)]);
    [reflexivity|reflexivity|reflexivity|discriminate| |reflexivity].
  cbn [expiring]. repeat (split; [by_decision|]). done.
Defined.

Lemma tcp_segment_round_trip_witness :
  let g := Segment 80 (local_port (ids demo_open)) 5001 0 0x10 2000 [9; 8] in
  tcp_receive demo_open (host_net mac1) 7 8 ip2 ip1 (Some (tcp_packet ip2 ip1 g)) =
    Some (if tcp_matches demo_open (host_net mac1) 8 ip2 ip1 g
          then tcp_handle demo_open g 7 else demo_open) /\
  tcp_receive demo_open (host_net mac1) 7 8 ip2 ip1 (Some (tcp_fields g 1)) = Some demo_open.
Proof.
  apply (tcp_segment_round_trip demo_open (host_net mac1) 7 8 ip2 ip1
    (Segment 80 (local_port (ids demo_open)) 5001 0 0x10 2000 [9; 8]) 1);
    [split; by_decision|by_decision..].
Defined.

Definition demo_sent : tcp_connection :=
  (tcp_send_tracked demo_driver demo_open demo_stack ACK_PSH [1; 2; 3] 7).1.2.

Lemma close_in_flight_sends_no_fin_witness :
  begin_close demo_driver demo_sent demo_stack 8 =
    inl (with_state demo_sent TCP_STATE_FIN_WAIT_1, demo_stack) /\
  state (tcp_process_ack (with_state demo_sent TCP_STATE_FIN_WAIT_1) (snd_nxt (snd demo_sent)) 9)
    = TCP_STATE_FIN_WAIT_2.
Proof.
  destruct (close_in_flight_sends_no_fin demo_driver demo_sent demo_stack 8 9) as [H1 [H2 _]];
    [reflexivity| |reflexivity..|split; [exact H1|exact H2]].
  split; [by_decision|by_decision| |by_decision].
  intros _. split; [|by_decision]. right; right. by_decision.
Defined.

Lemma tcp_send_fails_after_one_segment_witness :
  exists c' s' now rest,
    tcp_send demo_driver demo_open demo_stack true (Some (replicate 2000 7)) 7 [Round 7 [] (fun s => s)] =
      Some (Ended false TCP_STATUS_INVALID_STATE c' s' now rest).
Proof.
  destruct (tcp_send_fails_after_one_segment demo_driver demo_open demo_stack
    (tcp_send_tracked demo_driver demo_open demo_stack ACK_PSH
       (take (Z.to_nat TCP_MSS) (replicate 2000 7)) 7).2
    (replicate 2000 7) 7 (Round 7 [] (fun s => s)) []) as (c' & E & _);
    [reflexivity|reflexivity|reflexivity|by_decision|by_decision|vm_compute; reflexivity
    |vm_compute; reflexivity|by_decision|by_decision|by_decision|].
  eexists _, _, _, _. exact E.
Defined.

End TcpProofs.
