(* ===== verification/Udp.v ===== *)
(** UDP ([kernel/src/net/udp.c]): the endpoint table, datagram construction and
    the validation and dispatch of received datagrams. *)
From stdpp Require Import gmap.
From S2P Require Import Prelude Checksum NetConfig NetDevice Ethernet Arp Ipv4.
Import Checksum NetConfig NetDevice Ethernet Arp Ipv4.

Module Udp.

Definition UDP_PROTOCOL : Z := 17.
Definition UDP_HEADER_SIZE : Z := 8.

(** A handler is a function address; zero is [NULL]. *)
Record udp_endpoint_t := Endpoint { port : Z; handler : Z }.
Abbreviation table := (list udp_endpoint_t).

(** A datagram handed to a handler. *)
Record call := Call {
  c_handler : Z; c_device : Z; c_source : net_ipv4_t; c_source_port : Z;
  c_destination : net_ipv4_t; c_destination_port : Z; c_payload : list Z;
}.

Definition ip_copy (a : net_ipv4_t) : list Z := octets a.

(** The pseudo-header, then the datagram with its checksum field (bytes 6 and
    7, present because of the length test) cleared. *)
Definition udp_checksum (source destination : net_ipv4_t) (udp_packet : option (list Z)) : Z :=
  match udp_packet with
  | None => 0
  | Some p =>
      if (size p <? UDP_HEADER_SIZE) || (ETHERNET_PAYLOAD_MAX <? size p) then 0
      else net_checksum (Some (ip_copy source ++ ip_copy destination ++ [0; UDP_PROTOCOL] ++
             write_be16 (u16 (size p)) ++ <[6%nat := 0]> (<[7%nat := 0]> p)))
  end.

Definition udp_init : table := replicate 8 (Endpoint 0 0).

(** The loops over the table stop at the first match. *)
Definition udp_register_handler (t : table) (p h : Z) : bool * table :=
  if (p =? 0) || (h =? 0) then (false, t)
  else
    match list_find (fun e => handler e <> 0 /\ port e = p) t with
    | Some (i, e) => (true, <[i := Endpoint (port e) h]> t)
    | None =>
        match list_find (fun e => handler e = 0) t with
        | Some (i, _) => (true, <[i := Endpoint p h]> t)
        | None => (false, t)
        end
    end.

Definition udp_unregister_handler (t : table) (p h : Z) : bool * table :=
  if (p =? 0) || (h =? 0) then (false, t)
  else
    match list_find (fun e => port e = p /\ handler e = h) t with
    | Some (i, _) => (true, <[i := Endpoint 0 0]> t)
    | None => (false, t)
    end.

(** [Some None]: dropped; [None]: a read outside the packet. *)
Definition udp_receive (t : table) (device : Z) (source destination : net_ipv4_t)
    (packet : list Z) : option (option call) :=
  if (device =? 0) || (size packet <? UDP_HEADER_SIZE) then Some None
  else
    packet_length ← rd_be16 packet 4;
    if (packet_length <? UDP_HEADER_SIZE) || (size packet <? packet_length) then Some None
    else
      checksum ← rd_be16 packet 6;
      accepted ←
        (if checksum =? 0 then Some true
         else if ETHERNET_PAYLOAD_MAX <? packet_length then Some false
         else
           copy ← slice packet 0 (Z.to_nat packet_length);
           Some (udp_checksum source destination (Some (<[6%nat := 0]> (<[7%nat := 0]> copy)))
                   =? checksum));
      if negb accepted then Some None
      else
        destination_port ← rd_be16 packet 2;
        match list_find (fun e => handler e <> 0 /\ port e = destination_port) t with
        | None => Some None
        | Some (_, e) =>
            source_port ← rd_be16 packet 0;
            payload ← slice packet 8 (Z.to_nat packet_length - 8);
            Some (Some (Call (handler e) device source source_port destination destination_port
                          payload))
        end.

(** The datagram with a given checksum field. *)
Definition udp_fields (source_port destination_port sum : Z) (payload : list Z) : list Z :=
  write_be16 source_port ++ write_be16 destination_port ++
  write_be16 (u16 (UDP_HEADER_SIZE + size payload)) ++ write_be16 sum ++ payload.

(** The checksum computed by [udp_transmit], and the datagram it sends. *)
Definition udp_sum (source destination : net_ipv4_t) (source_port destination_port : Z)
    (payload : list Z) : Z :=
  udp_checksum source destination (Some (udp_fields source_port destination_port 0 payload)).
Definition udp_datagram (source destination : net_ipv4_t) (source_port destination_port : Z)
    (payload : list Z) : list Z :=
  let sum := udp_sum source destination source_port destination_port payload in
  udp_fields source_port destination_port (if sum =? 0 then 0xffff else sum) payload.

Definition udp_transmit (driver : Z -> list Z -> bool) (st : net) (conf : net_config_t)
    (c : cache) (identification : Z) (device : Z) (source destination : net_ipv4_t)
    (source_port destination_port : Z) (payload : option (list Z)) : bool * Z * net :=
  match payload with
  | None => (false, identification, st)
  | Some payload =>
      if (device =? 0) || (source_port =? 0) || (destination_port =? 0) ||
         (ETHERNET_PAYLOAD_MAX - UDP_HEADER_SIZE <? size payload)
      then (false, identification, st)
      else ipv4_transmit_from driver st conf c identification device source destination
             UDP_PROTOCOL (udp_datagram source destination source_port destination_port payload)
  end.

(** * The endpoint table as a map *)

(** The handler registered for a port. *)
Definition handler_of (t : table) (p : Z) : option Z :=
  handler ∘ snd <$> list_find (fun e => handler e <> 0 /\ port e = p) t.

(** No port is served twice. *)
Definition table_ok (t : table) : Prop :=
  length t = 8%nat /\
  forall i j p h h', t !! i = Some (Endpoint p h) -> t !! j = Some (Endpoint p h') ->
    h <> 0 -> h' <> 0 -> i = j.

Definition has_free_slot (t : table) : Prop := exists i p, t !! i = Some (Endpoint p 0).

Lemma handler_of_spec t p h :
  table_ok t -> (handler_of t p = Some h <-> h <> 0 /\ exists i, t !! i = Some (Endpoint p h)).
Proof.
  intros [_ Hu]. unfold handler_of. split.
  - destruct (list_find _ t) as [[i [p' h']]|] eqn:E; [|done]. cbn. intros [= <-].
    apply list_find_Some in E as (Hi & [Hn Hp] & _). cbn in *. subst. eauto.
  - intros (Hn & i & Hi).
    destruct (list_find_elem_of (fun e => handler e <> 0 /\ port e = p) t (Endpoint p h))
      as [[j [p' h']] E]; [by apply list_elem_of_lookup_2 in Hi|done|].
    rewrite E. cbn. apply list_find_Some in E as (Hj & [Hn' Hp] & _). cbn in *. subst p'.
    assert (i = j) by by eapply Hu. subst. congruence.
Qed.

(** Replacing a slot whose old port is free or served by itself only. *)
Lemma table_insert t i p h p0 h0 :
  table_ok t -> t !! i = Some (Endpoint p0 h0) -> h0 = 0 \/ p0 = p ->
  (handler_of t p = None \/ h0 <> 0 \/ h = 0) ->
  table_ok (<[i := Endpoint p h]> t).
Proof.
  intros Hok Hi H0 Hn. pose proof Hok as [Hl Hu]. split; [by rewrite length_insert|].
  assert (Hi' : (i < length t)%nat) by by eapply lookup_lt_Some.
  assert (Hex : forall j q h1, j <> i -> t !! j = Some (Endpoint q h1) -> h1 <> 0 -> h <> 0 ->
    q <> p).
  { intros j q h1 Hji Hj H1 Hh ->. destruct Hn as [Hn|[Hn|Hn]]; [| |done].
    - assert (handler_of t p = Some h1) by (apply handler_of_spec; eauto). congruence.
    - destruct H0 as [H0|H0]; [done|]. subst p0. apply Hji. by eapply Hu. }
  intros j k q h1 h2 Hj Hk H1 H2.
  apply list_lookup_insert_Some in Hj as [(-> & [= <- <-] & _)|[Nj Hj]];
    apply list_lookup_insert_Some in Hk as [(-> & Ek & _)|[Nk Hk]].
  - done.
  - by destruct (Hex k p h2).
  - injection Ek as -> ->. by destruct (Hex j q h1).
  - by eapply Hu.
Qed.

(** What a replaced slot means for every port. *)
Lemma handler_of_insert t i p h p0 h0 q :
  table_ok t -> table_ok (<[i := Endpoint p h]> t) -> t !! i = Some (Endpoint p0 h0) ->
  handler_of (<[i := Endpoint p h]> t) q =
    if decide (q = p /\ h <> 0) then Some h
    else if decide (q = p0 /\ h0 <> 0) then None else handler_of t q.
Proof.
  intros Hok Hok' Hi. assert (Hi' : (i < length t)%nat) by by eapply lookup_lt_Some.
  destruct (decide (q = p /\ h <> 0)) as [[-> Hh]|Hq].
  { apply handler_of_spec; [done|]. split; [done|]. exists i. by rewrite list_lookup_insert_eq. }
  apply option_eq. intros x. rewrite handler_of_spec by done.
  destruct (decide (q = p0 /\ h0 <> 0)) as [[-> Hh]|Hq0].
  - split; [|done]. intros (Hx & j & Hj).
    apply list_lookup_insert_Some in Hj as [(-> & [= <- <-] & _)|[Nj Hj]]; [tauto|].
    destruct Nj. by eapply (proj2 Hok).
  - rewrite handler_of_spec by done. split; intros (Hx & j & Hj); (split; [done|]); exists j.
    + apply list_lookup_insert_Some in Hj as [(-> & [= <- <-] & _)|[Nj Hj]]; [tauto|done].
    + rewrite list_lookup_insert_ne; [done|]. intros ->. simplify_eq. tauto.
Qed.

(** * Lemmas on datagrams *)

(** Reception of arbitrary bytes stays inside the packet, and so does the
    payload delivered. *)
Lemma udp_receive_safe t device source destination packet :
  exists r, udp_receive t device source destination packet = Some r /\
    match r with Some c => size (c_payload c) + 8 <= size packet | None => True end.
Proof.
  apply answers. unfold udp_receive, UDP_HEADER_SIZE, size.
  destruct (Z.ltb_spec (Z.of_nat (length packet)) 8).
  { by rewrite orb_true_r. }
  rewrite orb_false_r. destruct (device =? 0); [done|]. unfold rd_be16.
  rewrite (slice_in packet 4), (slice_in packet 6), (slice_in packet 2), (slice_in packet 0)
    by lia. cbn [mbind option_bind].
  set (len := read_be16 (take 2 (drop 4 packet))).
  destruct ((len <? 8) || _) eqn:El; [done|].
  rewrite (slice_in packet 0), (slice_in packet 8) by lia. cbn [mbind option_bind].
  set (sum := read_be16 (take 2 (drop 6 packet))).
  set (accepted := if sum =? 0 then true else
    if ETHERNET_PAYLOAD_MAX <? len then false else
      udp_checksum source destination (Some (<[6%nat := 0]> (<[7%nat := 0]>
        (take (Z.to_nat len) (drop 0 packet))))) =? sum).
  replace (if sum =? 0 then Some true else _) with (Some accepted)
    by (unfold accepted; destruct (sum =? 0); [done|]; by destruct (ETHERNET_PAYLOAD_MAX <? len)).
  cbn [mbind option_bind]. destruct accepted; cbn [negb]; [|done].
  destruct (list_find _ t) as [[i e]|]; [|done]. cbn [c_payload].
  rewrite length_take, length_drop. lia.
Qed.

Lemma length_udp_fields sp dp sum payload :
  length (udp_fields sp dp sum payload) = (8 + length payload)%nat.
Proof. unfold udp_fields. rewrite !length_app. cbn. lia. Qed.

(** Clearing the checksum field of a datagram. *)
Lemma clear_sum sp dp sum payload :
  <[6%nat := 0]> (<[7%nat := 0]> (udp_fields sp dp sum payload)) = udp_fields sp dp 0 payload.
Proof. reflexivity. Qed.

(** The checksum only depends on the other fields. *)
Lemma udp_checksum_fields source destination sp dp sum payload :
  udp_checksum source destination (Some (udp_fields sp dp sum payload)) =
  udp_sum source destination sp dp payload.
Proof.
  unfold udp_sum, udp_checksum, size. rewrite !length_udp_fields.
  destruct (_ || _); [done|]. by rewrite !clear_sum.
Qed.

Lemma udp_sum_u16 source destination sp dp payload :
  is_u16 (udp_sum source destination sp dp payload).
Proof.
  unfold udp_sum, udp_checksum. destruct (_ || _); [by_decision|]. apply net_checksum_u16.
Qed.

(** How a datagram with a given checksum field is received. *)
Lemma udp_receive_fields t device source destination sp dp sum payload pad :
  device <> 0 -> is_u16 sp -> is_u16 dp -> is_u16 sum -> UDP_HEADER_SIZE + size payload <= 1500 ->
  udp_receive t device source destination (udp_fields sp dp sum payload ++ pad) =
    Some (if (sum =? 0) || (udp_sum source destination sp dp payload =? sum)
          then (fun h => Call h device source sp destination dp payload) <$> handler_of t dp
          else None).
Proof.
  intros Hd Hs Hdp Hsum Hl. unfold udp_receive.
  set (f := udp_fields sp dp sum payload). set (len := 8 + size payload).
  assert (Lf : length f = (8 + length payload)%nat) by apply length_udp_fields.
  assert (Hlen : is_u16 len) by (unfold len, size, UDP_HEADER_SIZE in *; mach).
  assert (Ef : f = write_be16 sp ++ write_be16 dp ++ write_be16 len ++ write_be16 sum ++ payload).
  { unfold f, udp_fields. change UDP_HEADER_SIZE with 8. by rewrite u16_id. }
  assert (E0 : rd_be16 (f ++ pad) 0 = Some sp).
  { rewrite Ef, <- !app_assoc. by apply (rd_be16_write []). }
  assert (E2 : rd_be16 (f ++ pad) 2 = Some dp).
  { rewrite Ef, <- !app_assoc. by apply rd_be16_write. }
  assert (E4 : rd_be16 (f ++ pad) 4 = Some len).
  { rewrite Ef, <- !app_assoc, app_assoc. by apply rd_be16_write. }
  assert (E6 : rd_be16 (f ++ pad) 6 = Some sum).
  { rewrite Ef, <- !app_assoc, 2!app_assoc. by rewrite <- (app_assoc _ (write_be16 dp)); apply rd_be16_write. }
  rewrite E0, E2, E4, E6. cbn [mbind option_bind].
  replace ((device =? 0) || _) with false
    by (unfold size, UDP_HEADER_SIZE; rewrite length_app, Lf; lia).
  replace ((len <? _) || _) with false
    by (unfold len, size, UDP_HEADER_SIZE; rewrite length_app, Lf; lia).
  replace (ETHERNET_PAYLOAD_MAX <? len) with false
    by (unfold len, UDP_HEADER_SIZE, ETHERNET_PAYLOAD_MAX in *; lia).
  rewrite slice_app_l by (unfold len, size; lia). cbn [mbind option_bind].
  assert (E8 : slice (f ++ pad) 8 (Z.to_nat len - 8) = Some payload).
  { rewrite Ef, <- !app_assoc, 3!app_assoc. rewrite slice_app_r by (cbn; lia).
    rewrite !length_app. cbn [length write_be16 Nat.add Nat.sub].
    apply slice_app_l. unfold len, size. lia. }
  rewrite E8. cbn [mbind option_bind]. unfold f. rewrite clear_sum.
  change (udp_checksum source destination (Some (udp_fields sp dp 0 payload)))
    with (udp_sum source destination sp dp payload).
  destruct (sum =? 0); cbn [orb mbind option_bind negb]; unfold handler_of;
    [|destruct (udp_sum _ _ _ _ _ =? sum); cbn [negb]; [|done]];
    by destruct (list_find _ t) as [[]|].
Qed.

(** * Theorems *)

(** The endpoint table is a partial map from ports to handlers.
    Registering binds exactly that port (replacing its old handler) and fails,
    changing nothing, only when the port is unbound and all eight slots are
    taken; unregistering succeeds exactly for the current handler of the port
    and unbinds exactly that port. *)
Theorem udp_endpoints_are_a_map (t : table) (p h : Z) :
  table_ok t -> p <> 0 -> h <> 0 ->
  (let '(ok, t') := udp_register_handler t p h in
   table_ok t' /\ (ok = true <-> is_Some (handler_of t p) \/ has_free_slot t) /\
   (if ok then forall q, handler_of t' q = if decide (q = p) then Some h else handler_of t q
    else t' = t)) /\
  (let '(ok, t') := udp_unregister_handler t p h in
   table_ok t' /\ (ok = true <-> handler_of t p = Some h) /\
   (if ok then forall q, handler_of t' q = if decide (q = p) then None else handler_of t q
    else t' = t)).
Proof.
  intros Hok Hp Hh. split.
  - unfold udp_register_handler. replace (_ || _) with false by lia.
    destruct (list_find _ t) as [[i [p' h']]|] eqn:E.
    { apply list_find_Some in E as (Hi & [Hn Hq] & _). cbn in *. subst p'.
      assert (Hok' : table_ok (<[i := Endpoint p h]> t)) by (eapply table_insert; eauto).
      assert (Hs : handler_of t p = Some h') by (apply handler_of_spec; eauto).
      split; [done|]. split; [split; [|done]; left; by eexists|]. intros q.
      rewrite (handler_of_insert t i p h p h') by done. repeat case_decide; tauto. }
    assert (Hnone : handler_of t p = None) by (unfold handler_of; by rewrite E).
    destruct (list_find (fun e => handler e = 0) t) as [[i [p' h']]|] eqn:E0.
    { apply list_find_Some in E0 as (Hi & Hz & _). cbn in *. subst h'.
      assert (Hok' : table_ok (<[i := Endpoint p h]> t)) by (eapply table_insert; eauto).
      split; [done|]. split; [split; [|done]; right; by eexists _, _|]. intros q.
      rewrite (handler_of_insert t i p h p' 0) by done. repeat case_decide; tauto. }
    split; [done|]. split; [|done]. split; [done|]. intros [[x Hx]|(i & q & Hi)]; [congruence|].
    apply list_find_None in E0. rewrite Forall_lookup in E0. by destruct (E0 _ _ Hi).
  - unfold udp_unregister_handler. replace (_ || _) with false by lia.
    destruct (list_find _ t) as [[i [p' h']]|] eqn:E.
    { apply list_find_Some in E as (Hi & [Hq Hx] & _). cbn in *. subst p' h'.
      assert (Hok' : table_ok (<[i := Endpoint 0 0]> t)).
      { split; [by rewrite length_insert; apply Hok|]. intros j k q h1 h2 Hj Hk.
        apply list_lookup_insert_Some in Hj as [(_ & [= _ <-] & _)|[_ Hj]]; [done|].
        apply list_lookup_insert_Some in Hk as [(_ & [= _ <-] & _)|[_ Hk]]; [done|].
        by eapply (proj2 Hok). }
      split; [done|]. split; [split; [|done]; intros _; apply handler_of_spec; eauto|].
      intros q. rewrite (handler_of_insert t i 0 0 p h) by done. repeat case_decide; tauto. }
    split; [done|]. split; [|done]. split; [done|]. intros [_ [i Hi]]%handler_of_spec; [|done].
    apply list_find_None in E. rewrite Forall_lookup in E. by destruct (E _ _ Hi).
Qed.

(** A datagram sent by [udp_transmit] reaches the handler bound to its
    destination port with the sender's address, port and payload unchanged,
    whatever padding follows it, unless its checksum computes to zero: then it
    is sent with checksum [0xffff], as the protocol demands, and dropped by
    [udp_receive], which compares with the recomputed zero.  No received
    datagram is read outside its bounds. *)
Theorem udp_delivery (driver : Z -> list Z -> bool) (st : net) (conf : net_config_t) (c : cache)
    (ident devA devB : Z) (t : table) (source destination : net_ipv4_t) (sp dp : Z)
    (payload pad arbitrary : list Z) :
  devA <> 0 -> devB <> 0 -> is_u16 sp -> sp <> 0 -> is_u16 dp -> dp <> 0 ->
  size payload <= ETHERNET_PAYLOAD_MAX - UDP_HEADER_SIZE ->
  let datagram := udp_datagram source destination sp dp payload in
  udp_transmit driver st conf c ident devA source destination sp dp (Some payload) =
    ipv4_transmit_from driver st conf c ident devA source destination UDP_PROTOCOL datagram /\
  udp_receive t devB source destination (datagram ++ pad) =
    Some (if decide (udp_sum source destination sp dp payload = 0) then None
          else (fun h => Call h devB source sp destination dp payload) <$> handler_of t dp) /\
  is_Some (udp_receive t devB source destination arbitrary).
Proof.
  intros HdA HdB Hs Hs0 Hp Hp0 Hl datagram. split; [|split].
  - unfold udp_transmit. by replace ((devA =? 0) || _ || _ || _) with false by lia.
  - unfold datagram, udp_datagram.
    pose proof (udp_sum_u16 source destination sp dp payload) as Hsum.
    unfold UDP_HEADER_SIZE, ETHERNET_PAYLOAD_MAX in Hl.
    destruct (Z.eqb_spec (udp_sum source destination sp dp payload) 0) as [E|E].
    + rewrite udp_receive_fields by (done || (unfold UDP_HEADER_SIZE; lia) || by_decision).
      by rewrite E.
    + rewrite udp_receive_fields by (done || (unfold UDP_HEADER_SIZE; lia)).
      rewrite Z.eqb_refl, orb_true_r. by rewrite decide_False.
  - destruct (udp_receive_safe t devB source destination arbitrary) as (r & -> & _). by eexists.
Qed.

(** * Concrete instances *)

Definition bound_table : table := (udp_register_handler udp_init 53 4096).2.

Lemma udp_init_ok : table_ok udp_init.
Proof.
  split; [done|]. intros i j p h h' Hi _ Hh. apply lookup_replicate in Hi as [[= _ ->] _]. done.
Qed.

Lemma udp_endpoints_are_a_map_witness :
  handler_of (udp_register_handler udp_init 53 4096).2 53 = Some 4096 /\
  (udp_unregister_handler bound_table 53 4096).1 = true.
Proof.
  destruct (udp_endpoints_are_a_map udp_init 53 4096 udp_init_ok) as [(H1 & _ & H2) _];
    [discriminate|discriminate|]. split; [exact (H2 53)|].
  destruct (udp_endpoints_are_a_map bound_table 53 4096 H1) as [_ (_ & H4 & _)];
    [discriminate|discriminate|]. apply H4. exact (H2 53).
Defined.

(** A two-byte payload can be chosen to make the checksum zero. *)
Lemma udp_delivery_witness :
  udp_receive bound_table 8 ip1 ip2 (udp_datagram ip1 ip2 1000 53 [1; 2] ++ [0]) =
    Some (Some (Call 4096 8 ip1 1000 ip2 53 [1; 2])) /\
  udp_receive bound_table 8 ip1 ip2 (udp_datagram ip1 ip2 1000 53 [231; 186] ++ [0]) = Some None.
Proof.
  split.
  - apply (udp_delivery (fun _ _ => true) (host_net mac1) (host_conf ip1) empty_cache 0 8 8
      bound_table ip1 ip2 1000 53 [1; 2] [0] []); by_decision || discriminate.
  - apply (udp_delivery (fun _ _ => true) (host_net mac1) (host_conf ip1) empty_cache 0 8 8
      bound_table ip1 ip2 1000 53 [231; 186] [0] []); by_decision || discriminate.
Defined.

End Udp.
