(* ===== verification/Dns.v ===== *)
(** DNS ([kernel/src/net/dns_wire.c], [kernel/src/net/dns.c]): host name
    encoding, the response parser, and the resolver.

    A host name is a C string, the list of the bytes before its terminator.
    The parser reads the response through bounds-checked accesses ([None] is a
    read outside it); [Some None] and [DNS_STATUS_INVALID] are rejections.  The
    loop over a name is bounded by the code's own counter. *)
From stdpp Require Import gmap.
From S2P Require Import Prelude Checksum NetConfig NetDevice Ethernet Arp Ipv4 Udp.
Import Checksum NetConfig NetDevice Ethernet Arp Ipv4 Udp.

Module Dns.

Inductive dns_status_t :=
  | DNS_STATUS_SUCCESS | DNS_STATUS_TIMEOUT | DNS_STATUS_NXDOMAIN | DNS_STATUS_SERVFAIL
  | DNS_STATUS_NO_ANSWER | DNS_STATUS_INVALID | DNS_STATUS_UNCONFIGURED.
#[export] Instance dns_status_eq_dec : EqDecision dns_status_t.
Proof. solve_decision. Defined.

(** * Host names *)

Definition DOT : Z := 46.

(** The inner loop of [dns_encode_hostname]: the label, the rest of the name
    from the dot (or end) that stops it, and [input] there. *)
Fixpoint scan_label (h : list Z) (input : Z) : option (list Z * list Z * Z) :=
  match h with
  | [] => Some ([], [], input)
  | c :: rest =>
      if c =? DOT then Some ([], h, input)
      else if (c <? 0x21) || (0x7e <? c) then None
      else if 253 <? input + 1 then None
      else '(l, r, i) ← scan_label rest (input + 1); Some (c :: l, r, i)
  end.

(** The outer loop; every label but the last is followed by a dot, so one
    round per byte and one more are enough. *)
Fixpoint encode_labels (fuel : nat) (h : list Z) (label_start capacity : Z) (output : list Z)
    : option (list Z) :=
  match fuel with
  | O => None
  | S fuel =>
      '(label, rest, input) ← scan_label h label_start;
      let label_length := size label in
      if (label_length =? 0) || (63 <? label_length) ||
         (capacity <? size output + label_length + 2) then None
      else
        let output := output ++ [label_length] ++ label in
        match rest with
        | [] => Some output
        | _ :: rest => encode_labels fuel rest (input + 1) capacity output
        end
  end.

Definition dns_encode_hostname (hostname : option (list Z)) (capacity : Z) : option (list Z) :=
  match hostname with
  | None => None
  | Some h =>
      if capacity =? 0 then None
      else
        output ← encode_labels (S (length h)) h 0 capacity [];
        if capacity <=? size output then None
        else
          let output := output ++ [0] in
          if 255 <? size output then None else Some output
  end.

(** * The response parser *)

Definition dns_read16 (p : list Z) (i : Z) : option Z := rd_be16 p (Z.to_nat i).
Definition rdz (p : list Z) (i : Z) : option Z := rd p (Z.to_nat i).

(** The loop of [dns_name] with [n] rounds left before [jumps++ > 32];
    [length] may be less than the packet's. *)
Fixpoint name_loop (n : nat) (packet : list Z) (length position next : Z) (jumped : bool)
    : option (option Z) :=
  match n with
  | O => Some None
  | S n =>
      if length <=? position then Some None
      else
        size ← rdz packet position;
        if size =? 0 then Some (Some (if jumped then next else position + 1))
        else if Z.land size 0xc0 =? 0xc0 then
          if length <=? position + 1 then Some None
          else
            low ← rdz packet (position + 1);
            let pointer := Z.lor (Z.shiftl (Z.land size 0x3f) 8) low in
            if length <=? pointer then Some None
            else name_loop n packet length pointer (if jumped then next else position + 2) true
        else if negb (Z.land size 0xc0 =? 0) || (63 <? size) || (length <? position + 1 + size)
        then Some None
        else name_loop n packet length (position + 1 + size) next jumped
  end.
Definition dns_name (packet : list Z) (length offset : Z) : option (option Z) :=
  if length <=? offset then Some None
  else name_loop 33 packet length offset offset false.

Definition dns_question (packet : list Z) (length offset : Z) : option (option Z) :=
  r ← dns_name packet length offset;
  match r with
  | None => Some None
  | Some offset => if length <? offset + 4 then Some None else Some (Some (offset + 4))
  end.

(** The offset after the record and, when the caller passes a place for it
    ([wanted]), the address of an [A] record. *)
Definition dns_rr (packet : list Z) (length offset : Z) (wanted : bool)
    : option (option (Z * option net_ipv4_t)) :=
  r ← dns_name packet length offset;
  match r with
  | None => Some None
  | Some offset =>
      if length <? offset + 10 then Some None
      else
        type ← dns_read16 packet offset;
        class_code ← dns_read16 packet (offset + 2);
        data_length ← dns_read16 packet (offset + 8);
        let data_offset := offset + 10 in
        if length <? data_offset + data_length then Some None
        else
          cname_ok ←
            (if (type =? 5) && (class_code =? 1) then
               r ← dns_name packet (data_offset + data_length) data_offset;
               Some (match r with
                     | Some cname_end => negb (data_offset + data_length <? cname_end)
                     | None => false
                     end)
             else Some true);
          if negb cname_ok then Some None
          else
            address ←
              (if (type =? 1) && (class_code =? 1) && (data_length =? 4) && wanted then
                 b ← slice packet (Z.to_nat data_offset) 4; Some (Some (ipv4_from_wire b))
               else Some None);
            Some (Some (data_offset + data_length, address))
  end.

Fixpoint questions_loop (n : nat) (packet : list Z) (offset : Z) : option (option Z) :=
  match n with
  | O => Some (Some offset)
  | S n =>
      r ← dns_question packet (size packet) offset;
      match r with None => Some None | Some offset => questions_loop n packet offset end
  end.

(** The answers seen so far: their number and the first address. *)
Fixpoint records_loop (n : nat) (packet : list Z) (wanted : bool) (offset found : Z)
    (first : net_ipv4_t)
    : option (option (Z * Z * net_ipv4_t)) :=
  match n with
  | O => Some (Some (offset, found, first))
  | S n =>
      r ← dns_rr packet (size packet) offset wanted;
      match r with
      | None => Some None
      | Some (offset, None) => records_loop n packet wanted offset found first
      | Some (offset, Some a) =>
          records_loop n packet wanted offset (u32 (found + 1))
            (if found =? 0 then a else first)
      end
  end.

(** The status, the address written on success, and the answer count. *)
Definition dns_parse_response (packet : option (list Z)) (query_id : Z)
    : option (dns_status_t * option net_ipv4_t * Z) :=
  let invalid := Some (DNS_STATUS_INVALID, None, 0) in
  match packet with
  | None => invalid
  | Some p =>
      if size p <? 12 then invalid
      else
        id ← dns_read16 p 0;
        if negb (id =? query_id) then invalid
        else
          flags ← dns_read16 p 2;
          if (Z.land flags 0x8000 =? 0) || negb (Z.land (Z.shiftr flags 11) 0xf =? 0)
          then invalid
          else if Z.land flags 0xf =? 3 then Some (DNS_STATUS_NXDOMAIN, None, 0)
          else if Z.land flags 0xf =? 2 then Some (DNS_STATUS_SERVFAIL, None, 0)
          else if negb (Z.land flags 0xf =? 0) then invalid
          else
            questions ← dns_read16 p 4;
            answers ← dns_read16 p 6;
            authority ← dns_read16 p 8;
            additional ← dns_read16 p 10;
            if questions =? 0 then invalid
            else
              r ← questions_loop (Z.to_nat questions) p 12;
              match r with
              | None => invalid
              | Some offset =>
                  r ← records_loop (Z.to_nat answers) p true offset 0 zero_ip;
                  match r with
                  | None => invalid
                  | Some (offset, found, first) =>
                      r ← records_loop (Z.to_nat authority) p false offset 0 zero_ip;
                      match r with
                      | None => invalid
                      | Some (offset, _, _) =>
                          r ← records_loop (Z.to_nat additional) p false offset 0 zero_ip;
                          match r with
                          | None => invalid
                          | Some _ =>
                              if found =? 0 then Some (DNS_STATUS_NO_ANSWER, None, 0)
                              else Some (DNS_STATUS_SUCCESS, Some first, found)
                          end
                      end
                  end
              end
  end.

(** * The resolver *)

Definition DNS_PORT : Z := 53.
Definition DNS_SOURCE_PORT : Z := 53000.
Definition DNS_PACKET_MAX : Z := 512.
Definition DNS_WAIT_TICKS : Z := 5000.
Definition DNS_RETRIES : nat := 3.

Record dns_state_t := DnsState {
  d_device : Z; d_generation : Z; d_id : Z; d_event : bool; d_status : dns_status_t;
  d_address : net_ipv4_t; d_answers : Z;
}.
Definition dns_reset : dns_state_t := DnsState 0 0 0 false DNS_STATUS_SUCCESS zero_ip 0.

(** [udp_register_handler] of the receive handler's address [h]. *)
Definition dns_init (t : table) (h : Z) : dns_state_t * table :=
  (dns_reset, (udp_register_handler t DNS_SOURCE_PORT h).2).

(** A datagram handed to [dns_udp_receive]. *)
Definition dns_udp_receive (d : dns_state_t) (st : net) (conf : net_config_t) (device : Z)
    (source : net_ipv4_t) (source_port : Z) (destination : net_ipv4_t) (destination_port : Z)
    (payload : list Z) : option dns_state_t :=
  if (device =? 0) || negb (net_device_instance_current st device (d_generation d)) ||
     negb (source_port =? DNS_PORT) || negb (destination_port =? DNS_SOURCE_PORT) ||
     negb (has_dns conf) || negb (net_ipv4_equal source (dns conf)) ||
     negb (net_ipv4_equal destination (address conf))
  then Some d
  else
    '(status, answer, answers) ← dns_parse_response (Some payload) (d_id d);
    Some (match answer with
          | Some a => DnsState (d_device d) (d_generation d) (d_id d) true status a answers
          | None => DnsState (d_device d) (d_generation d) (d_id d) true status (d_address d)
                      (d_answers d)
          end).

(** [timer_ticks() + ++sequence]; the answer is the id and the counter. *)
Definition dns_next_id (sequence now : Z) : Z * Z :=
  let sequence := u16 (sequence + 1) in (u16 (now + sequence), sequence).

(** The query packet. *)
Definition dns_query (id : Z) (name : list Z) : list Z :=
  write_be16 id ++ write_be16 0x0100 ++ write_be16 1 ++ write_be16 0 ++ write_be16 0 ++
  write_be16 0 ++ name ++ write_be16 1 ++ write_be16 1.

Record datagram := Datagram {
  g_device : Z; g_source : net_ipv4_t; g_source_port : Z; g_destination : net_ipv4_t;
  g_destination_port : Z; g_payload : list Z;
}.
(** A round of the waiting loop: the clock, and what happens in its sleep. *)
Record pause := Pause { p_now : Z; p_datagrams : list datagram; p_meanwhile : stack -> stack }.

Fixpoint dns_arrive (d : dns_state_t) (s : stack) (l : list datagram) : option dns_state_t :=
  match l with
  | [] => Some d
  | g :: l =>
      d ← dns_udp_receive d (s_net s) (s_conf s) (g_device g) (g_source g) (g_source_port g)
            (g_destination g) (g_destination_port g) (g_payload g);
      dns_arrive d s l
  end.

(** The inner loop of [dns_resolve_a]: it ends by itself, finds the device
    gone, or is still waiting when the rounds are used up. *)
Inductive awaited :=
  | Over (d : dns_state_t) (s : stack) (now : Z) (rest : list pause)
  | Device_gone (d : dns_state_t) (s : stack)
  | Still_waiting (d : dns_state_t) (s : stack).

Fixpoint await (d : dns_state_t) (s : stack) (device start : Z) (rounds : list pause)
    : option awaited :=
  match rounds with
  | [] => Some (Still_waiting d s)
  | r :: rest =>
      if negb (u64 (p_now r - start) <? DNS_WAIT_TICKS) || d_event d
      then Some (Over d s (p_now r) rest)
      else if negb (net_device_instance_current (s_net s) device (d_generation d))
      then Some (Device_gone d s)
      else
        d ← dns_arrive d s (p_datagrams r);
        await d (p_meanwhile r s) device start rest
  end.

(** The answer of [dns_resolve_a]: the address on success, the status written
    and the state; [None] inside is a call that is still waiting. *)
Definition answer : Type := option (option net_ipv4_t * dns_status_t) * dns_state_t * stack.

Section Resolve.
Variable driver : Z -> list Z -> bool.

(** The attempts from the current one on; [first] is the first attempt, which
    keeps the id already chosen. *)
Fixpoint attempts (n : nat) (first : bool) (d : dns_state_t) (s : stack) (sequence : Z)
    (device : Z) (name : list Z) (id now : Z) (status : dns_status_t)
    (rounds : list pause) : option answer :=
  match n with
  | O => Some (Some (None, status), d, s)
  | S n =>
      if negb (net_device_instance_current (s_net s) device (d_generation d))
      then Some (Some (None, DNS_STATUS_UNCONFIGURED), d, s)
      else
        let '(id, sequence) := if first then (id, sequence) else dns_next_id sequence now in
        let d := if first then d
                 else DnsState (d_device d) (d_generation d) id false (d_status d) (d_address d)
                        (d_answers d) in
        let '(_, i, st) := udp_transmit driver (s_net s) (s_conf s) (s_cache s) (s_ident s) device
                             (address (s_conf s)) (dns (s_conf s)) DNS_SOURCE_PORT DNS_PORT
                             (Some (dns_query id name)) in
        let s := Stack st (s_conf s) (s_cache s) i in
        w ← await d s device now rounds;
        match w with
        | Still_waiting d s => Some (None, d, s)
        | Device_gone d s => Some (Some (None, DNS_STATUS_UNCONFIGURED), d, s)
        | Over d s now rest =>
            if d_event d then
              match d_status d with
              | DNS_STATUS_SUCCESS => Some (Some (Some (d_address d), DNS_STATUS_SUCCESS), d, s)
              | DNS_STATUS_NXDOMAIN | DNS_STATUS_SERVFAIL | DNS_STATUS_INVALID
              | DNS_STATUS_NO_ANSWER => Some (Some (None, d_status d), d, s)
              | _ => attempts n false d s sequence device name id now (d_status d) rest
              end
            else attempts n false d s sequence device name id now status rest
        end
  end.

Definition dns_resolve_a (d : dns_state_t) (s : stack) (sequence device : Z)
    (hostname : option (list Z)) (has_out : bool) (now : Z) (rounds : list pause)
    : option answer :=
  let conf := s_conf s in
  if (device =? 0) || bool_decide (hostname = None) || negb has_out || negb (configured conf) ||
     negb (has_dns conf)
  then Some (Some (None, DNS_STATUS_UNCONFIGURED), d, s)
  else
    match dns_encode_hostname hostname (DNS_PACKET_MAX - 12) with
    | None => Some (Some (None, DNS_STATUS_INVALID), d, s)
    | Some name =>
        let '(id, sequence) := dns_next_id sequence now in
        dv ← structs (s_net s) !! device;
        let d := DnsState device (generation dv) id false DNS_STATUS_TIMEOUT (d_address d) 0 in
        attempts DNS_RETRIES true d s sequence device name id now DNS_STATUS_UNCONFIGURED
          rounds
    end.

End Resolve.

(** * Names: the reference *)

(** The labels of a host name. *)
Fixpoint labels (h : list Z) : list (list Z) :=
  match h with
  | [] => [[]]
  | c :: h =>
      if c =? DOT then [] :: labels h
      else match labels h with [] => [[c]] | l :: ls => (c :: l) :: ls end
  end.

(** RFC 1035: each label after its length, then an empty label. *)
Definition wire_labels (ls : list (list Z)) : list Z := concat (map (fun l => size l :: l) ls).
Definition wire_name (ls : list (list Z)) : list Z := wire_labels ls ++ [0].

Definition label_char (c : Z) : Prop := 0x21 <= c <= 0x7e /\ c <> DOT.
Definition label_ok (l : list Z) : Prop := l <> [] /\ size l <= 63 /\ Forall label_char l.

(** The names accepted for a buffer of [capacity] bytes. *)
Definition hostname_ok (h : list Z) (capacity : Z) : Prop :=
  Forall label_ok (labels h) /\ size h <= 253 /\ size h + 2 <= capacity.

(** ** Encoding *)

(** A name is a label, followed by nothing or by a dot and a name. *)
Lemma labels_split h :
  exists l, Forall (fun c => c <> DOT) l /\
    ((h = l /\ labels h = [l]) \/
     (exists h', h = l ++ DOT :: h' /\ labels h = l :: labels h')).
Proof.
  induction h as [|c h (l & Hl & IH)]; [exists []; split; [done|by left]|]. cbn [labels].
  destruct (Z.eqb_spec c DOT) as [->|Hc].
  - exists []. split; [done|]. right. by exists h.
  - exists (c :: l). split; [by apply Forall_cons_2|].
    destruct IH as [[-> ->]|(h' & -> & ->)]; [by left|]. right. by exists h'.
Qed.

Definition at_dot (rest : list Z) : Prop := rest = [] \/ exists r, rest = DOT :: r.

Lemma scan_label_spec l rest input :
  Forall (fun c => c <> DOT) l -> at_dot rest -> 0 <= input ->
  scan_label (l ++ rest) input =
    if decide (Forall label_char l /\ (l = [] \/ input + size l <= 253))
    then Some (l, rest, input + size l) else None.
Proof.
  intros Hl Hr. revert input. induction Hl as [|c l Hc Hl IH]; intros input Hi; cbn [app scan_label].
  - rewrite decide_True by (split; [apply Forall_nil_2|by left]). unfold size. cbn. rewrite Z.add_0_r.
    by destruct Hr as [->|[r ->]].
  - destruct (Z.eqb_spec c DOT); [done|].
    destruct ((c <? 0x21) || (0x7e <? c)) eqn:Ec.
    { rewrite decide_False; [done|]. intros [[[H _] _]%Forall_cons_1 _]. lia. }
    destruct (Z.ltb_spec 253 (input + 1)).
    { rewrite decide_False; [done|]. intros [_ [H'|H']]; [done|]. unfold size in H'. cbn in H'. lia. }
    rewrite IH by lia. unfold size. cbn [length].
    destruct (decide (Forall label_char l /\ _)) as [[H1 H2]|H1].
    + rewrite decide_True; [cbn [mbind option_bind]; do 2 f_equal; lia|]. split; [apply Forall_cons_2; [|done]|].
      { split; [lia|done]. }
      right. destruct H2 as [->|H2]; [cbn; lia|unfold size in H2; lia].
    + rewrite decide_False; [done|]. intros [[_ H2]%Forall_cons_1 [H3|H3]]; [done|].
      apply H1. split; [done|]. right. unfold size. lia.
Qed.

Lemma size_app (a b : list Z) : size (a ++ b) = size a + size b.
Proof. unfold size. rewrite length_app. lia. Qed.
Lemma size_cons (a : Z) b : size (a :: b) = 1 + size b.
Proof. unfold size. cbn [length]. lia. Qed.
Lemma size_nonneg (l : list Z) : 0 <= size l.
Proof. unfold size. lia. Qed.

(** The encoding loop accepts exactly the well-formed names that fit. *)
Lemma encode_labels_spec fuel : forall h start capacity output,
  (length h < fuel)%nat -> 0 <= start ->
  encode_labels fuel h start capacity output =
    if decide (Forall label_ok (labels h) /\ start + size h <= 253 /\
               size output + size h + 2 <= capacity)
    then Some (output ++ wire_labels (labels h)) else None.
Proof.
  induction fuel as [|fuel IH]; intros h start capacity output Hf Hs; [lia|]. cbn [encode_labels].
  destruct (labels_split h) as (l & Hl & Hcase).
  assert (Hh : exists rest, h = l ++ rest /\ at_dot rest).
  { destruct Hcase as [[-> _]|(h' & -> & _)]; [exists []|by exists (DOT :: h'); split; [|right; exists h']].
    split; [by rewrite app_nil_r|by left]. }
  destruct Hh as (rest & Eh & Hr).
  assert (Hbad : ~ (label_ok l /\ start + size l <= 253 /\ size output + size l + 2 <= capacity) ->
    ~ (Forall label_ok (labels h) /\ start + size h <= 253 /\ size output + size h + 2 <= capacity)).
  { intros Hn (HF & H3 & H4). apply Hn. rewrite Eh, size_app in H3, H4.
    pose proof (size_nonneg rest). split; [|lia].
    destruct Hcase as [[_ E]|(h' & _ & E)]; rewrite E in HF;
      by apply Forall_cons_1 in HF as [HF _]. }
  rewrite Eh at 1. rewrite scan_label_spec by done.
  destruct (decide (Forall label_char l /\ _)) as [[H1 H2]|H1]; cbn [mbind option_bind].
  2: { rewrite decide_False; [done|]. apply Hbad. intros ([_ [_ ?]] & ? & _). apply H1. by auto. }
  destruct ((size l =? 0) || _ || _) eqn:Eg.
  { rewrite decide_False; [done|]. apply Hbad. intros ([Hn [? _]] & ? & ?).
    assert (0 < size l) by (unfold size; destruct l; [done|cbn; lia]). lia. }
  assert (Hlo : label_ok l /\ size output + size l + 2 <= capacity /\ start + size l <= 253).
  { split; [split; [by intros ->|split; [lia|done]]|]. split; [lia|].
    destruct H2 as [->|H2]; [|done]. by rewrite orb_true_l in Eg. }
  clear Eg H1 H2 Hbad. destruct Hlo as (Hlo & Hcap & Hst).
  destruct Hcase as [[-> El]|(h' & Eh' & El)]; rewrite El.
  - assert (rest = []) as ->.
    { apply (f_equal length) in Eh. rewrite length_app in Eh. destruct rest; [done|cbn in Eh; lia]. }
    rewrite decide_True by (split; [by apply Forall_singleton|lia]). unfold wire_labels. cbn.
    by rewrite app_nil_r.
  - assert (rest = DOT :: h') as -> by (rewrite Eh in Eh'; by apply app_inv_head in Eh'). subst h.
    pose proof (size_nonneg l). rewrite length_app in Hf. cbn in Hf. rewrite IH by lia.
    rewrite !size_app, !size_cons in *. change (size []) with 0.
    destruct (decide (Forall label_ok (labels h') /\ _)) as [(D1 & D2 & D3)|D].
    + rewrite decide_True by (split; [by apply Forall_cons_2|lia]).
      unfold wire_labels. cbn. by rewrite <- !app_assoc.
    + rewrite decide_False; [done|]. intros ([_ F1]%Forall_cons_1 & F2 & F3). apply D.
      split; [done|lia].
Qed.

(** ** Parsing *)


Lemma wire_labels_size h : size (wire_labels (labels h)) = 1 + size h.
Proof.
  induction h as [|c h IH]; [done|]. cbn [labels]. rewrite size_cons.
  destruct (c =? DOT).
  - unfold wire_labels in *. cbn [map concat]. rewrite size_app, IH. unfold size. cbn. lia.
  - destruct (labels h) as [|l ls]; [by cbn in IH; unfold size in IH; cbn in IH; lia|].
    unfold wire_labels in *. cbn [map concat] in *. rewrite size_app, !size_cons in *. lia.
Qed.

Lemma encode_hostname_spec h capacity :
  dns_encode_hostname (Some h) capacity =
    if decide (hostname_ok h capacity) then Some (wire_name (labels h)) else None.
Proof.
  unfold dns_encode_hostname, hostname_ok. pose proof (size_nonneg h).
  destruct (Z.eqb_spec capacity 0); [by rewrite decide_False by lia|].
  rewrite encode_labels_spec by lia. change (size []) with 0.
  destruct (decide (Forall label_ok (labels h) /\ 0 + size h <= 253 /\ 0 + size h + 2 <= capacity))
    as [(H1 & H2 & H3)|Hn].
  - cbn [mbind option_bind app]. rewrite decide_True by (split; [done|lia]).
    rewrite size_app, wire_labels_size. change (size [0]) with 1.
    destruct (Z.leb_spec capacity (1 + size h)); [lia|].
    by destruct (Z.ltb_spec 255 (1 + size h + 1)); [lia|].
  - cbn [mbind option_bind]. rewrite decide_False; [done|]. intros (H1 & H2 & H3). apply Hn.
    split; [done|lia].
Qed.

Lemma rdz_middle pre x post : rdz (pre ++ x :: post) (size pre) = Some x.
Proof. unfold rdz, rd, size. rewrite Nat2Z.id. by apply list_lookup_middle. Qed.

Lemma short_label_byte s : 0 <= s <= 63 -> Z.land s 0xc0 = 0.
Proof.
  intros H.
  pose proof (byte_fun_eq (fun b => if b <=? 63 then Z.land b 0xc0 else 0) (fun _ => 0)
    eq_refl s ltac:(mach)) as E. cbv beta in E. by destruct (Z.leb_spec s 63); [|lia].
Qed.

(** An encoded name of fewer than 33 labels is skipped exactly; one with more
    labels exhausts the bound. *)
Lemma name_loop_wire ls : forall n pre post next jumped,
  Forall label_ok ls ->
  let p := pre ++ wire_name ls ++ post in
  name_loop n p (size p) (size pre) next jumped =
    Some (if (length ls <? n)%nat
          then Some (if jumped then next else size pre + size (wire_name ls)) else None).
Proof.
  induction ls as [|l ls IH]; intros [|n] pre post next jumped Hok p; [done| |done|]; cbn [name_loop].
  - subst p. cbn [wire_name wire_labels map concat app]. rewrite size_app, size_cons.
    pose proof (size_nonneg post). destruct (Z.leb_spec (size pre + (1 + size post)) (size pre)); [lia|].
    rewrite rdz_middle. done.
  - apply Forall_cons_1 in Hok as [(Hne & Hl & _) Hok].
    assert (Hlen : 0 < size l) by (unfold size; destruct l; [done|cbn; lia]).
    assert (Ep : p = pre ++ size l :: (l ++ wire_name ls ++ post)).
    { subst p. unfold wire_name, wire_labels. cbn [map concat]. by rewrite <- !app_assoc. }
    assert (Sp : size p = size pre + 1 + size l + size (wire_name ls) + size post)
      by (rewrite Ep, size_app, size_cons, !size_app; lia).
    pose proof (size_nonneg post). pose proof (size_nonneg (wire_name ls)).
    destruct (Z.leb_spec (size p) (size pre)); [lia|].
    assert (rdz p (size pre) = Some (size l)) as -> by (rewrite Ep; apply rdz_middle).
    cbn [mbind option_bind]. destruct (Z.eqb_spec (size l) 0); [lia|].
    rewrite short_label_byte by lia. cbn [Z.eqb negb orb].
    destruct (Z.ltb_spec 63 (size l)); [lia|].
    destruct (Z.ltb_spec (size p) (size pre + 1 + size l)); [lia|]. cbn [orb].
    assert (Ep2 : p = (pre ++ size l :: l) ++ wire_name ls ++ post)
      by (rewrite Ep, <- app_assoc; done).
    assert (Es : size pre + 1 + size l = size (pre ++ size l :: l))
      by (rewrite size_app, size_cons; lia).
    rewrite Es, Ep2, IH by done. cbn [length]. change (S (length ls) <? S n)%nat with (length ls <? n)%nat.
    destruct (length ls <? n)%nat; [|done]. destruct jumped; [done|]. do 2 f_equal. rewrite <- Es.
    unfold wire_name, wire_labels. cbn [map concat]. rewrite !size_app, !size_cons. lia.
Qed.

Lemma dns_name_wire ls pre post :
  Forall label_ok ls ->
  let p := pre ++ wire_name ls ++ post in
  dns_name p (size p) (size pre) =
    Some (if (length ls <? 33)%nat then Some (size pre + size (wire_name ls)) else None).
Proof.
  intros Hok p. unfold dns_name. pose proof (size_nonneg post).
  assert (0 < size (wire_name ls)).
  { unfold wire_name. rewrite size_app. pose proof (size_nonneg (wire_labels ls)).
    change (size [0]) with 1. lia. }
  destruct (Z.leb_spec (size p) (size pre)) as [Hs|_].
  { subst p. rewrite !size_app in Hs. lia. }
  exact (name_loop_wire ls 33 pre post (size pre) false Hok).
Qed.

(** ** Safety *)

Lemma rdz_in p i : 0 <= i < size p -> exists b, rdz p i = Some b.
Proof.
  intros Hi. unfold rdz, rd. destruct (lookup_lt_is_Some_2 p (Z.to_nat i)) as [b Hb];
    [unfold size in Hi; lia|]. by exists b.
Qed.
Lemma rdz_byte p i b : bytes p -> rdz p i = Some b -> is_u8 b.
Proof. intros Hb Hi. by eapply Forall_lookup_1. Qed.
Lemma read16_in p i : 0 <= i -> i + 2 <= size p -> exists v, dns_read16 p i = Some v /\ is_u16 v.
Proof.
  intros Hi Hs. unfold dns_read16, rd_be16. unfold size in Hs. rewrite slice_in by lia.
  eexists. split; [done|]. apply u16_range.
Qed.

Lemma name_loop_safe n p len : forall pos next jumped,
  bytes p -> len <= size p -> 0 <= pos -> 0 <= next <= len ->
  exists r, name_loop n p len pos next jumped = Some r /\
    match r with Some next' => 0 <= next' <= len | None => True end.
Proof.
  induction n as [|n IH]; intros pos next jumped Hb Hl Hp Hn; cbn [name_loop]; [by eexists|].
  destruct (Z.leb_spec len pos); [by eexists|].
  destruct (rdz_in p pos) as [sz Es]; [lia|]. rewrite Es. cbn [mbind option_bind].
  destruct (sz =? 0); [eexists; split; [done|]; cbn; destruct jumped; lia|].
  assert (Hsz : is_u8 sz) by by eapply rdz_byte. unfold is_u8 in Hsz.
  destruct (_ =? 0xc0).
  - destruct (Z.leb_spec len (pos + 1)); [by eexists|].
    destruct (rdz_in p (pos + 1)) as [low El]; [lia|]. rewrite El. cbn [mbind option_bind]. cbv zeta.
    assert (Hptr : 0 <= Z.lor (Z.shiftl (Z.land sz 63) 8) low).
    { apply Z.lor_nonneg. split; [|by eapply rdz_byte in El; [apply El|]].
      apply Z.shiftl_nonneg, Z.land_nonneg. left. lia. }
    revert Hptr. generalize (Z.lor (Z.shiftl (Z.land sz 63) 8) low). intros ptr Hptr.
    destruct (Z.leb_spec len ptr); [by eexists|]. apply IH; try done. destruct jumped; lia.
  - destruct (_ || _); [by eexists|]. apply IH; try done. lia.
Qed.

Lemma dns_name_safe p len off :
  bytes p -> len <= size p -> 0 <= off ->
  exists r, dns_name p len off = Some r /\
    match r with Some off' => 0 <= off' <= len | None => True end.
Proof.
  intros Hb Hl Ho. unfold dns_name. destruct (Z.leb_spec len off); [by eexists|].
  apply name_loop_safe; try done. lia.
Qed.

Lemma dns_question_safe p off :
  bytes p -> 0 <= off ->
  exists r, dns_question p (size p) off = Some r /\
    match r with Some off' => 0 <= off' <= size p | None => True end.
Proof.
  intros Hb Ho. unfold dns_question.
  destruct (dns_name_safe p (size p) off) as ([off1|] & -> & H1); [done|lia|done| |by eexists].
  cbn [mbind option_bind]. destruct (Z.ltb_spec (size p) (off1 + 4)); eexists; (split; [done|]); [done|cbn in *; lia].
Qed.

Lemma dns_rr_safe p off wanted :
  bytes p -> 0 <= off ->
  exists r, dns_rr p (size p) off wanted = Some r /\
    match r with Some (off', _) => 0 <= off' <= size p | None => True end.
Proof.
  intros Hb Ho. unfold dns_rr.
  destruct (dns_name_safe p (size p) off) as ([off1|] & -> & H1); [done|lia|done| |by eexists].
  cbn [mbind option_bind]. destruct (Z.ltb_spec (size p) (off1 + 10)); [by eexists|].
  destruct (read16_in p off1) as (ty & -> & _); [lia|lia|].
  destruct (read16_in p (off1 + 2)) as (cl & -> & _); [lia|lia|].
  destruct (read16_in p (off1 + 8)) as (dl & -> & Hdl); [lia|lia|].
  cbn [mbind option_bind]. cbv zeta. unfold is_u16 in Hdl.
  destruct (Z.ltb_spec (size p) (off1 + 10 + dl)); [by eexists|].
  set (cn := if (ty =? 5) && (cl =? 1) then _ else _).
  assert (Hcn : exists b, cn = Some b).
  { unfold cn. destruct (_ && _); [|by eexists].
    destruct (dns_name_safe p (off1 + 10 + dl) (off1 + 10)) as (r & -> & _); [done|lia|lia|].
    by eexists. }
  destruct Hcn as [b ->]. cbn [mbind option_bind]. destruct b; cbn [negb]; [|by eexists].
  destruct (_ && _ && (dl =? 4) && _) eqn:Ea.
  - rewrite slice_in by (unfold size in *; lia). cbn [mbind option_bind]. eexists. split; [done|]. lia.
  - cbn [mbind option_bind]. eexists. split; [done|]. lia.
Qed.

Lemma questions_safe n p : forall off,
  bytes p -> 0 <= off ->
  exists r, questions_loop n p off = Some r /\
    match r with Some off' => 0 <= off' | None => True end.
Proof.
  induction n as [|n IH]; intros off Hb Ho; cbn [questions_loop]; [by eexists|].
  destruct (dns_question_safe p off Hb Ho) as ([off1|] & -> & H1); cbn [mbind option_bind];
    [|by eexists]. apply IH; [done|lia].
Qed.

Lemma records_safe n p wanted : forall off found first,
  bytes p -> 0 <= off ->
  exists r, records_loop n p wanted off found first = Some r /\
    match r with Some (off', _, _) => 0 <= off' | None => True end.
Proof.
  induction n as [|n IH]; intros off found first Hb Ho; cbn [records_loop]; [by eexists|].
  destruct (dns_rr_safe p off wanted Hb Ho) as ([[off1 [a|]]|] & -> & H1); cbn [mbind option_bind];
    [| |by eexists]; (apply IH; [done|lia]).
Qed.

Lemma parse_safe p id :
  bytes p -> exists r, dns_parse_response (Some p) id = Some r /\
    (r.1.1 = DNS_STATUS_SUCCESS <-> is_Some r.1.2).
Proof.
  intros Hb. unfold dns_parse_response.
  assert (Hi : exists r, Some (DNS_STATUS_INVALID, None (A := net_ipv4_t), 0) = Some r /\
    (r.1.1 = DNS_STATUS_SUCCESS <-> is_Some r.1.2)).
  { eexists. split; [done|]. split; [done|by intros []]. }
  destruct (Z.ltb_spec (size p) 12); [done|].
  destruct (read16_in p 0) as (v0 & -> & _); [lia|lia|]. cbn [mbind option_bind].
  destruct (negb _); [done|].
  destruct (read16_in p 2) as (fl & -> & _); [lia|lia|]. cbn [mbind option_bind].
  destruct (_ || _); [done|].
  destruct (_ =? 3); [eexists; split; [done|]; split; [done|by intros []]|].
  destruct (_ =? 2); [eexists; split; [done|]; split; [done|by intros []]|].
  destruct (negb _); [done|].
  destruct (read16_in p 4) as (v4 & -> & _); [lia|lia|].
  destruct (read16_in p 6) as (v6 & -> & _); [lia|lia|].
  destruct (read16_in p 8) as (v8 & -> & _); [lia|lia|].
  destruct (read16_in p 10) as (v10 & -> & _); [lia|lia|]. cbn [mbind option_bind].
  destruct (_ =? 0); [done|].
  destruct (questions_safe (Z.to_nat v4) p 12) as ([o1|] & -> & H1); [done|lia| |done].
  cbn [mbind option_bind].
  destruct (records_safe (Z.to_nat v6) p true o1 0 zero_ip) as ([[[o2 f2] a2]|] & -> & H2);
    [done|lia| |done]. cbn [mbind option_bind].
  destruct (records_safe (Z.to_nat v8) p false o2 0 zero_ip) as ([[[o3 f3] a3]|] & -> & H3);
    [done|lia| |done]. cbn [mbind option_bind].
  destruct (records_safe (Z.to_nat v10) p false o3 0 zero_ip) as ([[[o4 f4] a4]|] & -> & H4);
    [done|lia| |done]. cbn [mbind option_bind].
  destruct (_ =? 0); eexists; (split; [done|]); (split; [done|]); [by intros []|done].
Qed.

(** ** A reply to a query *)

(** The answer section of a reply: address records that name the queried name
    through a pointer to offset 12. *)
Definition answer_a (ttl : list Z) (a : net_ipv4_t) : list Z :=
  [0xc0; 12] ++ write_be16 1 ++ write_be16 1 ++ ttl ++ write_be16 4 ++ octets a.
Definition reply_header (id count : Z) : list Z :=
  write_be16 id ++ write_be16 0x8180 ++ write_be16 1 ++ write_be16 count ++ write_be16 0 ++
  write_be16 0.
Definition reply (id : Z) (ls : list (list Z)) (ttl : list Z) (addrs : list net_ipv4_t) : list Z :=
  reply_header id (Z.of_nat (length addrs)) ++ wire_name ls ++ (write_be16 1 ++ write_be16 1) ++
  concat (map (answer_a ttl) addrs).

Lemma read16_at pre v post : is_u16 v -> dns_read16 (pre ++ write_be16 v ++ post) (size pre) = Some v.
Proof. intros Hv. unfold dns_read16, size. rewrite Nat2Z.id. by apply rd_be16_write. Qed.

Lemma size_answer_a ttl a : length ttl = 4%nat -> size (answer_a ttl a) = 16.
Proof. intros H. unfold answer_a, size. rewrite !length_app, H. done. Qed.

(** A compressed name: two bytes, whatever the name pointed to. *)
Lemma name_loop_pointer n hdr ls rest pre post p :
  Forall label_ok ls -> (length ls < n)%nat -> size hdr = 12 ->
  p = hdr ++ wire_name ls ++ rest -> p = pre ++ [0xc0; 12] ++ post ->
  size pre < size p /\ name_loop (S n) p (size p) (size pre) (size pre) false =
    Some (Some (size pre + 2)).
Proof.
  intros Hok Hn Hh E1 E2. assert (Hs : size pre + 2 <= size p /\ 12 < size p).
  { split; [rewrite E2, !size_app; change (size [192; 12]) with 2; pose proof (size_nonneg post); lia|].
    rewrite E1, size_app, Hh. unfold wire_name. rewrite !size_app. change (size [0]) with 1.
    pose proof (size_nonneg rest). pose proof (size_nonneg (wire_labels ls)). lia. }
  split; [lia|]. cbn [name_loop]. destruct (Z.leb_spec (size p) (size pre)); [lia|].
  assert (rdz p (size pre) = Some 192) as -> by (rewrite E2; apply rdz_middle).
  cbn [mbind option_bind]. change (192 =? 0) with false. change (Z.land 192 0xc0 =? 0xc0) with true.
  cbv iota. destruct (Z.leb_spec (size p) (size pre + 1)); [lia|].
  assert (rdz p (size pre + 1) = Some 12) as ->.
  { replace (size pre + 1) with (size (pre ++ [192])) by (rewrite size_app; done).
    rewrite E2. change ([192; 12] ++ post) with ([192] ++ 12 :: post).
    rewrite app_assoc. apply rdz_middle. }
  cbn [mbind option_bind]. change (Z.lor (Z.shiftl (Z.land 192 63) 8) 12) with 12. cbv zeta.
  destruct (Z.leb_spec (size p) 12); [lia|].
  pose proof (name_loop_wire ls n hdr rest (size pre + 2) true Hok) as H'. cbv zeta in H'.
  rewrite <- E1, Hh in H'. rewrite H'. by destruct (Nat.ltb_spec (length ls) n); [|lia].
Qed.

Lemma dns_name_pointer hdr ls rest pre post p :
  Forall label_ok ls -> (length ls < 32)%nat -> size hdr = 12 ->
  p = hdr ++ wire_name ls ++ rest -> p = pre ++ [0xc0; 12] ++ post ->
  dns_name p (size p) (size pre) = Some (Some (size pre + 2)).
Proof.
  intros Hok Hn Hh E1 E2.
  destruct (name_loop_pointer 32 hdr ls rest pre post p Hok Hn Hh E1 E2) as [Hs E].
  unfold dns_name. by destruct (Z.leb_spec (size p) (size pre)); [lia|].
Qed.

Lemma rr_answer hdr ls rest pre post p ttl a :
  Forall label_ok ls -> (length ls < 32)%nat -> size hdr = 12 -> length ttl = 4%nat ->
  p = hdr ++ wire_name ls ++ rest -> p = pre ++ answer_a ttl a ++ post ->
  dns_rr p (size p) (size pre) true = Some (Some (size pre + 16, Some a)).
Proof.
  intros Hok Hn Hh Ht E1 E2.
  assert (Hs : size p = size pre + 16 + size post)
    by (rewrite E2, !size_app, size_answer_a by done; lia).
  pose proof (size_nonneg post).
  set (q := pre ++ [0xc0; 12]). assert (Hq : size q = size pre + 2) by (unfold q; rewrite size_app; done).
  assert (Eq : p = q ++ write_be16 1 ++ write_be16 1 ++ ttl ++ write_be16 4 ++ octets a ++ post)
    by (rewrite E2; unfold q, answer_a; by rewrite <- !app_assoc).
  unfold dns_rr. rewrite (dns_name_pointer hdr ls rest pre
    (write_be16 1 ++ write_be16 1 ++ ttl ++ write_be16 4 ++ octets a ++ post) p); try done.
  2: { rewrite Eq. unfold q. by rewrite <- app_assoc. }
  cbn [mbind option_bind]. rewrite <- Hq. destruct (Z.ltb_spec (size p) (size q + 10)); [lia|].
  assert (dns_read16 p (size q) = Some 1) as -> by (rewrite Eq; by apply read16_at).
  assert (dns_read16 p (size q + 2) = Some 1) as ->.
  { replace (size q + 2) with (size (q ++ write_be16 1)) by (rewrite size_app; done).
    rewrite Eq, app_assoc. by apply read16_at. }
  assert (dns_read16 p (size q + 8) = Some 4) as ->.
  { replace (size q + 8) with (size (q ++ write_be16 1 ++ write_be16 1 ++ ttl))
      by (rewrite !size_app; unfold size at 4; rewrite Ht; done).
    rewrite Eq. replace (q ++ write_be16 1 ++ write_be16 1 ++ ttl ++ write_be16 4 ++ octets a ++ post)
      with ((q ++ write_be16 1 ++ write_be16 1 ++ ttl) ++ write_be16 4 ++ octets a ++ post)
      by by rewrite <- !app_assoc.
    by apply read16_at. }
  cbn [mbind option_bind]. cbv zeta. destruct (Z.ltb_spec (size p) (size q + 10 + 4)); [lia|].
  cbn [mbind option_bind andb Z.eqb Pos.eqb negb].
  assert (slice p (Z.to_nat (size q + 10)) 4 = Some (octets a)) as ->.
  { rewrite Eq. replace (q ++ write_be16 1 ++ write_be16 1 ++ ttl ++ write_be16 4 ++ octets a ++ post)
      with ((q ++ write_be16 1 ++ write_be16 1 ++ ttl ++ write_be16 4) ++ octets a ++ post)
      by by rewrite <- !app_assoc.
    assert (Hl : length (q ++ write_be16 1 ++ write_be16 1 ++ ttl ++ write_be16 4) =
      Z.to_nat (size q + 10)) by (rewrite !length_app, Ht; unfold size; cbn; lia).
    rewrite slice_app_r by lia. rewrite Hl, Nat.sub_diag. by apply slice_app_l. }
  cbn [mbind option_bind]. do 3 f_equal; [lia|]. by destruct a.
Qed.

(** Reading the answer section from the [k]-th record on. *)
Lemma records_reply hdr ls rest ttl p : forall addrs pre found first,
  Forall label_ok ls -> (length ls < 32)%nat -> size hdr = 12 -> length ttl = 4%nat ->
  p = hdr ++ wire_name ls ++ rest -> p = pre ++ concat (map (answer_a ttl) addrs) ->
  0 <= found -> found + Z.of_nat (length addrs) < 4294967296 ->
  records_loop (length addrs) p true (size pre) found first =
    Some (Some (size p, found + Z.of_nat (length addrs),
      if found =? 0 then hd first addrs else first)).
Proof.
  induction addrs as [|a addrs IH]; intros pre found first Hok Hn Hh Ht E1 E2 Hf Hc;
    cbn [length records_loop].
  { rewrite E2. cbn [map concat]. rewrite app_nil_r, Z.add_0_r. by destruct (found =? 0). }
  cbn [map concat] in E2. rewrite (rr_answer hdr ls rest pre _ p ttl a Hok Hn Hh Ht E1 E2).
  cbn [mbind option_bind]. cbn [length] in Hc.
  replace (size pre + 16) with (size (pre ++ answer_a ttl a)) by (rewrite size_app, size_answer_a; done).
  rewrite u32_id by mach. rewrite IH by (done || lia || by rewrite <- app_assoc).
  do 3 f_equal; [f_equal; lia|].
  destruct (Z.eqb_spec (found + 1) 0); [lia|]. by destruct (found =? 0).
Qed.

(** * Theorems *)

(** Labels joined by dots. *)
Fixpoint join (ls : list (list Z)) : list Z :=
  match ls with [] => [] | [l] => l | l :: ls => l ++ DOT :: join ls end.
Lemma labels_nonempty h : labels h <> [].
Proof. destruct h as [|c h]; [done|]. cbn. destruct (c =? DOT); [done|]. by destruct (labels h). Qed.
Lemma join_labels h : join (labels h) = h.
Proof.
  induction h as [|c h IH]; [done|]. cbn [labels]. destruct (Z.eqb_spec c DOT) as [->|Hc].
  - pose proof (labels_nonempty h). destruct (labels h) as [|l ls] eqn:E; [done|].
    change (join ([] :: l :: ls)) with ([] ++ DOT :: join (l :: ls)). by rewrite IH.
  - destruct (labels h) as [|l ls] eqn:E; [by destruct (labels_nonempty h)|].
    rewrite <- IH. by destruct ls.
Qed.

(** [dns_encode_hostname] accepts exactly the names whose dot-separated
    labels are non-empty printable strings of at most 63 bytes, of at most 253
    bytes in all, that fit the buffer, and encodes them as RFC 1035 prescribes:
    every label after its length, ended by an empty label (and the labels joined
    by dots are the name again).  [dns_name] skips such an encoding anywhere in
    a packet exactly when the name has at most 32 labels: longer names can be
    sent but their replies are refused, because [jumps] counts labels as well
    as pointers. *)
Theorem dns_hostname_encoding (h : list Z) (capacity : Z) (pre post : list Z) :
  dns_encode_hostname (Some h) capacity =
    (if decide (hostname_ok h capacity) then Some (wire_name (labels h)) else None) /\
  join (labels h) = h /\
  (hostname_ok h capacity ->
   let p := pre ++ wire_name (labels h) ++ post in
   dns_name p (size p) (size pre) =
     Some (if decide (length (labels h) <= 32)%nat
           then Some (size pre + size (wire_name (labels h))) else None)).
Proof.
  split; [apply encode_hostname_spec|]. split; [apply join_labels|].
  intros (Hok & _). cbv zeta. rewrite dns_name_wire by done.
  destruct (Nat.ltb_spec (length (labels h)) 33); [by rewrite decide_True by lia|].
  by rewrite decide_False by lia.
Qed.

Lemma dns_hostname_encoding_witness :
  dns_name ([7] ++ wire_name (labels (str "a.bc")) ++ [9]) 8 1 = Some (Some 7).
Proof.
  destruct (dns_hostname_encoding (str "a.bc") 500 [7] [9]) as (_ & _ & H).
  apply H. by_decision.
Defined.

(** C32: whatever bytes a DNS response consists of, [dns_parse_response] reads
    nothing outside it and returns (its loops over names are cut off after 33
    rounds, so compression pointers cannot make it loop), and it yields an
    address exactly when it reports success. *)
Theorem dns_parse_response_safe (p : list Z) (id : Z) :
  bytes p ->
  exists status address count, dns_parse_response (Some p) id = Some (status, address, count) /\
    (status = DNS_STATUS_SUCCESS <-> is_Some address).
Proof.
  intros Hb. destruct (parse_safe p id Hb) as ([[st a] n] & E & H). by exists st, a, n.
Qed.

Lemma dns_parse_response_safe_witness :
  exists status address count,
    dns_parse_response (Some [0;1;0x81;0x80;0;1;0;0;0;0;0;0;0xc0;12]) 1 =
      Some (status, address, count) /\ (status = DNS_STATUS_SUCCESS <-> is_Some address).
Proof. apply dns_parse_response_safe. by_decision. Defined.

Lemma reply_header_fields id cnt rest :
  is_u16 id -> is_u16 cnt ->
  let p := reply_header id cnt ++ rest in
  dns_read16 p 0 = Some id /\ dns_read16 p 2 = Some 0x8180 /\ dns_read16 p 4 = Some 1 /\
  dns_read16 p 6 = Some cnt /\ dns_read16 p 8 = Some 0 /\ dns_read16 p 10 = Some 0.
Proof.
  intros Hid Hc p. set (w := write_be16). split; [by apply (read16_at [])|].
  split; [by apply (read16_at (w id))|]. split; [by apply (read16_at (w id ++ w 0x8180))|].
  split; [by apply (read16_at (w id ++ w 0x8180 ++ w 1))|].
  split; [by apply (read16_at (w id ++ w 0x8180 ++ w 1 ++ w cnt))|].
  by apply (read16_at (w id ++ w 0x8180 ++ w 1 ++ w cnt ++ w 0)).
Qed.

(** A well-formed reply resolves.  A response to query [id] for a name of
    at most 31 labels, with any number of address records, yields the first of
    them and their number. *)
Theorem dns_reply_resolves (id : Z) (ls : list (list Z)) (ttl : list Z) (a : net_ipv4_t)
    (addrs : list net_ipv4_t) :
  is_u16 id -> Forall label_ok ls -> (length ls < 32)%nat -> length ttl = 4%nat ->
  is_u16 (1 + Z.of_nat (length addrs)) ->
  dns_parse_response (Some (reply id ls ttl (a :: addrs))) id =
    Some (DNS_STATUS_SUCCESS, Some a, 1 + Z.of_nat (length addrs)).
Proof.
  intros Hid Hok Hn Ht Hc. unfold dns_parse_response.
  set (p := reply id ls ttl (a :: addrs)). set (cnt := 1 + Z.of_nat (length addrs)) in *.
  set (hdr := reply_header id cnt). set (answers := concat (map (answer_a ttl) (a :: addrs))).
  set (quest := write_be16 1 ++ write_be16 1).
  assert (Ep : p = hdr ++ wire_name ls ++ quest ++ answers).
  { unfold p, reply, hdr, cnt. do 2 f_equal. cbn [length]. lia. }
  assert (Hh : size hdr = 12) by done.
  pose proof (size_nonneg (wire_name ls)). pose proof (size_nonneg answers).
  assert (Sp : size p = 12 + size (wire_name ls) + 4 + size answers)
    by (rewrite Ep, !size_app, Hh; change (size quest) with 4; lia).
  destruct (Z.ltb_spec (size p) 12); [lia|].
  destruct (reply_header_fields id cnt (wire_name ls ++ quest ++ answers) Hid Hc)
    as (R0 & R2 & R4 & R6 & R8 & R10). fold hdr in R0, R2, R4, R6, R8, R10. rewrite <- Ep in *.
  rewrite R0. cbn [mbind option_bind]. rewrite Z.eqb_refl. cbn [negb]. rewrite R2.
  cbn [mbind option_bind]. change (Z.land 0x8180 0x8000 =? 0) with false.
  change (Z.land (Z.shiftr 0x8180 11) 0xf =? 0) with true. change (Z.land 0x8180 0xf) with 0.
  cbn [negb orb Z.eqb]. rewrite R4, R6, R8, R10. cbn [mbind option_bind Z.eqb].
  change (Z.to_nat 1) with 1%nat. cbn [questions_loop]. unfold dns_question.
  assert (dns_name p (size p) 12 = Some (Some (12 + size (wire_name ls)))) as ->.
  { rewrite Ep at 1 2. rewrite <- Hh at 1. rewrite dns_name_wire, Hh by done.
    by destruct (Nat.ltb_spec (length ls) 33); [|lia]. }
  cbn [mbind option_bind]. destruct (Z.ltb_spec (size p) (12 + size (wire_name ls) + 4)); [lia|].
  cbn [mbind option_bind]. unfold cnt.
  replace (Z.to_nat (1 + Z.of_nat (length addrs))) with (length (a :: addrs)) by (cbn [length]; lia).
  replace (12 + size (wire_name ls) + 4) with (size (hdr ++ wire_name ls ++ quest))
    by (rewrite !size_app, Hh; change (size quest) with 4; lia).
  rewrite (records_reply hdr ls (quest ++ answers) ttl p (a :: addrs)) by
    (done || (rewrite Ep; by rewrite <- !app_assoc) || (unfold cnt in Hc; cbn [length]; mach)).
  cbn [mbind option_bind]. change (Z.to_nat 0) with 0%nat. cbn [records_loop mbind option_bind].
  cbn [length]. destruct (Z.eqb_spec (0 + Z.of_nat (S (length addrs))) 0); [lia|].
  do 2 f_equal. lia.
Qed.

Lemma dns_reply_resolves_witness :
  dns_parse_response
    (Some (reply 77 [str "www"; str "org"] [0; 0; 1; 0] [Ipv4 1 2 3 4; Ipv4 5 6 7 8])) 77 =
  Some (DNS_STATUS_SUCCESS, Some (Ipv4 1 2 3 4), 2).
Proof.
  apply (dns_reply_resolves 77 [str "www"; str "org"] [0; 0; 1; 0] (Ipv4 1 2 3 4) [Ipv4 5 6 7 8]);
    by_decision.
Defined.

(** ** The resolver *)

Lemma udp_transmit_devices driver st conf c i device src dst sp dp payload :
  same_devices st (udp_transmit driver st conf c i device src dst sp dp payload).2.
Proof.
  unfold udp_transmit. destruct payload; [|done]. destruct (_ || _); [done|].
  apply ipv4_transmit_devices.
Qed.

(** The stack after a query was sent. *)
Definition after_query (driver : Z -> list Z -> bool) (s : stack) (device id : Z) (name : list Z)
    : stack :=
  let '(_, i, st) := udp_transmit driver (s_net s) (s_conf s) (s_cache s) (s_ident s) device
                       (address (s_conf s)) (dns (s_conf s)) DNS_SOURCE_PORT DNS_PORT
                       (Some (dns_query id name)) in
  Stack st (s_conf s) (s_cache s) i.

Lemma after_query_spec driver s device id name :
  s_conf (after_query driver s device id name) = s_conf s /\
  same_devices (s_net s) (s_net (after_query driver s device id name)).
Proof.
  unfold after_query.
  pose proof (udp_transmit_devices driver (s_net s) (s_conf s) (s_cache s) (s_ident s) device
    (address (s_conf s)) (dns (s_conf s)) DNS_SOURCE_PORT DNS_PORT (Some (dns_query id name))) as H.
  by destruct (udp_transmit _ _ _ _ _ _ _ _ _ _ _) as [[? ?] ?].
Qed.

(** One attempt, in terms of what its wait answers. *)
Lemma attempt_unfold driver n d s seq device name id now status rounds :
  net_device_instance_current (s_net s) device (d_generation d) = true ->
  attempts driver (S n) true d s seq device name id now status rounds =
    (w ← await d (after_query driver s device id name) device now rounds;
     match w with
     | Still_waiting d s => Some (None, d, s)
     | Device_gone d s => Some (Some (None, DNS_STATUS_UNCONFIGURED), d, s)
     | Over d s now rest =>
         if d_event d then
           match d_status d with
           | DNS_STATUS_SUCCESS => Some (Some (Some (d_address d), DNS_STATUS_SUCCESS), d, s)
           | DNS_STATUS_NXDOMAIN | DNS_STATUS_SERVFAIL | DNS_STATUS_INVALID
           | DNS_STATUS_NO_ANSWER => Some (Some (None, d_status d), d, s)
           | _ => attempts driver n false d s seq device name id now (d_status d) rest
           end
         else attempts driver n false d s seq device name id now status rest
     end).
Proof.
  intros Hc. cbn [attempts]. rewrite Hc. cbn [negb]. unfold after_query.
  by destruct (udp_transmit _ _ _ _ _ _ _ _ _ _ _) as [[? ?] ?].
Qed.

(** A datagram from the configured server to the resolver's port. *)
Definition from_server (conf : net_config_t) (device : Z) (payload : list Z) : datagram :=
  Datagram device (dns conf) DNS_PORT (address conf) DNS_SOURCE_PORT payload.

Lemma ipv4_equal_refl a : net_ipv4_equal a a = true.
Proof. unfold net_ipv4_equal. by rewrite !Z.eqb_refl. Qed.

(** A wait in whose first sleep a datagram from the server arrives. *)
Lemma await_datagram d s device now t payload meanwhile r2 rest status a cnt :
  device <> 0 -> d_event d = false -> u64 (t - now) < DNS_WAIT_TICKS -> has_dns (s_conf s) = true ->
  net_device_instance_current (s_net s) device (d_generation d) = true ->
  dns_parse_response (Some payload) (d_id d) = Some (status, a, cnt) ->
  await d s device now (Pause t [from_server (s_conf s) device payload] meanwhile :: r2 :: rest) =
    Some (Over (DnsState (d_device d) (d_generation d) (d_id d) true status
                  (default (d_address d) a) (match a with Some _ => cnt | None => d_answers d end))
            (meanwhile s) (p_now r2) rest).
Proof.
  intros Hd He Ht Hs Hc Hp. cbn [await p_now p_datagrams p_meanwhile]. rewrite He.
  destruct (Z.ltb_spec (u64 (t - now)) DNS_WAIT_TICKS); [|lia]. cbn [negb orb]. rewrite Hc.
  cbn [negb dns_arrive]. unfold dns_udp_receive. cbn [from_server g_device g_source g_source_port
    g_destination g_destination_port g_payload]. rewrite Hc, Hs, !ipv4_equal_refl, !Z.eqb_refl.
  destruct (Z.eqb_spec device 0); [done|]. cbn [negb orb]. rewrite Hp. cbn [mbind option_bind].
  destruct a; cbn [d_event]; by rewrite orb_true_r.
Qed.

Section Resolution.
Context (driver : Z -> list Z -> bool) (s : stack) (device : Z) (dv : net_device) (h : list Z).
Hypothesis Hdev : device <> 0.
Hypothesis Hconf : configured (s_conf s) = true.
Hypothesis Hdns : has_dns (s_conf s) = true.
Hypothesis Hdv : structs (s_net s) !! device = Some dv.
Hypothesis Hcur : net_device_instance_current (s_net s) device (generation dv) = true.
Hypothesis Hok : hostname_ok h (DNS_PACKET_MAX - 12).

(** A resolution whose first query is answered with [payload]. *)
Lemma resolve_first d seq now t payload meanwhile r2 rest status a cnt :
  u64 (t - now) < DNS_WAIT_TICKS ->
  dns_parse_response (Some payload) (dns_next_id seq now).1 = Some (status, a, cnt) ->
  status <> DNS_STATUS_TIMEOUT -> status <> DNS_STATUS_UNCONFIGURED ->
  exists d' s', dns_resolve_a driver d s seq device (Some h) true now
      (Pause t [from_server (s_conf s) device payload] meanwhile :: r2 :: rest) =
    Some (Some (if decide (status = DNS_STATUS_SUCCESS) then (Some (default (d_address d) a), status)
                else (None, status)), d', s').
Proof.
  intros Ht Hp Hs1 Hs2. unfold dns_resolve_a.
  rewrite bool_decide_false, Hconf, Hdns by done. destruct (Z.eqb_spec device 0); [done|].
  cbn [negb orb]. rewrite encode_hostname_spec, decide_True by done.
  destruct (dns_next_id seq now) as [id seq'] eqn:Ei. cbn [fst] in Hp. rewrite Hdv.
  cbn [mbind option_bind]. unfold DNS_RETRIES. rewrite attempt_unfold by done.
  destruct (after_query_spec driver s device id (wire_name (labels h))) as [Ec Ed].
  set (s1 := after_query driver s device id (wire_name (labels h))) in *. rewrite <- Ec.
  rewrite (await_datagram _ s1 device now t payload meanwhile r2 rest status a cnt);
    try (done || by rewrite Ec); [|by rewrite (same_devices_current _ _ _ _ Ed)].
  cbn [mbind option_bind d_event d_status d_address].
  destruct status; try done; eexists _, _; reflexivity.
Qed.

End Resolution.

(** The resolver answers.  If the configured server answers the first query
    in time with a well-formed reply for the name asked, [dns_resolve_a] returns
    its first address.  But a reply from the server with another id, such as a
    late reply to an earlier attempt, ends the resolution with
    [DNS_STATUS_INVALID] at once instead of being ignored. *)
Theorem dns_resolve_outcomes (driver : Z -> list Z -> bool) (d : dns_state_t) (s : stack)
    (seq device now t : Z) (dv : net_device) (h : list Z) (ttl : list Z) (a : net_ipv4_t)
    (addrs : list net_ipv4_t) (stale : Z) (meanwhile : stack -> stack) (r2 : pause)
    (rest : list pause) :
  device <> 0 -> configured (s_conf s) = true -> has_dns (s_conf s) = true ->
  structs (s_net s) !! device = Some dv ->
  net_device_instance_current (s_net s) device (generation dv) = true ->
  hostname_ok h (DNS_PACKET_MAX - 12) -> (length (labels h) < 32)%nat ->
  u64 (t - now) < DNS_WAIT_TICKS -> length ttl = 4%nat -> is_u16 (1 + Z.of_nat (length addrs)) ->
  let id := (dns_next_id seq now).1 in
  is_u16 stale -> stale <> id ->
  let resolve payload := dns_resolve_a driver d s seq device (Some h) true now
    (Pause t [from_server (s_conf s) device payload] meanwhile :: r2 :: rest) in
  (exists d' s', resolve (reply id (labels h) ttl (a :: addrs)) =
     Some (Some (Some a, DNS_STATUS_SUCCESS), d', s')) /\
  (exists d' s', resolve (reply stale (labels h) ttl (a :: addrs)) =
     Some (Some (None, DNS_STATUS_INVALID), d', s')).
Proof.
  intros Hdev Hconf Hdns Hdv Hcur Hok Hl Ht Httl Hcnt id Hst Hne resolve. unfold resolve. split.
  - destruct (resolve_first driver s device dv h Hdev Hconf Hdns Hdv Hcur Hok d seq now t
      (reply id (labels h) ttl (a :: addrs)) meanwhile r2 rest DNS_STATUS_SUCCESS (Some a)
      (1 + Z.of_nat (length addrs)) Ht) as (d' & s' & E); [|done|done|by exists d', s'].
    apply dns_reply_resolves; try done; [apply u16_range|apply Hok].
  - destruct (resolve_first driver s device dv h Hdev Hconf Hdns Hdv Hcur Hok d seq now t
      (reply stale (labels h) ttl (a :: addrs)) meanwhile r2 rest DNS_STATUS_INVALID None 0 Ht)
      as (d' & s' & E); [|done|done|by exists d', s'].
    unfold dns_parse_response. destruct (_ <? _); [done|].
    destruct (reply_header_fields stale (1 + Z.of_nat (length addrs))
      (wire_name (labels h) ++ (write_be16 1 ++ write_be16 1) ++
       concat (map (answer_a ttl) (a :: addrs))) Hst Hcnt) as [E _].
    replace (dns_read16 _ 0) with (Some stale).
    cbn [mbind option_bind]. by rewrite (proj2 (Z.eqb_neq stale (dns_next_id seq now).1) Hne).
Qed.

(** A configured host with a name server. *)
Definition resolver_stack : stack :=
  Stack (host_net mac1)
    (Config ip1 (Ipv4 255 255 255 0) zero_ip ip2 zero_ip 0 24 NET_CONFIG_MODE_MANUAL true false
       true NET_DHCP_STATE_NONE 0 0 0 0 0 0 0 0 []) empty_cache 0.

Lemma dns_resolve_outcomes_witness :
  exists d' s',
    dns_resolve_a (fun _ _ => true) dns_reset
      resolver_stack
      0 8 (Some (str "a.bc")) true 100
      [Pause 101 [Datagram 8 ip2 53 ip1 53000 (reply 101 (labels (str "a.bc")) [0; 0; 0; 9]
         [Ipv4 1 2 3 4])] (fun s => s); Pause 102 [] (fun s => s)] =
    Some (Some (Some (Ipv4 1 2 3 4), DNS_STATUS_SUCCESS), d', s').
Proof.
  destruct (dns_resolve_outcomes (fun _ _ => true) dns_reset
      resolver_stack
      0 8 100 101 (host_device mac1) (str "a.bc") [0; 0; 0; 9] (Ipv4 1 2 3 4) [] 5 (fun s => s)
      (Pause 102 [] (fun s => s)) []) as [(d' & s' & E) _];
    [by_decision|reflexivity|reflexivity|reflexivity|vm_compute; reflexivity|by_decision..|].
  exists d', s'. exact E.
Defined.

(** A wait in which nothing arrives ends without an event. *)
Lemma await_silent d s device now rounds w :
  d_event d = false -> Forall (fun r => p_datagrams r = []) rounds ->
  await d s device now rounds = Some w ->
  match w with
  | Over d' _ _ rest => d' = d /\ Forall (fun r => p_datagrams r = []) rest
  | Device_gone d' _ | Still_waiting d' _ => d' = d
  end.
Proof.
  intros He Hs. revert s w. induction Hs as [|r rest Hr Hs IH]; intros s w; cbn [await].
  { by intros [= <-]. }
  rewrite He, orb_false_r. destruct (negb _); [by intros [= <-]|].
  destruct (negb _); [by intros [= <-]|]. rewrite Hr. cbn [dns_arrive mbind option_bind]. apply IH.
Qed.

(** A resolution that times out does not say so.  When no datagram
    arrives, [dns_resolve_a] returns failure with [DNS_STATUS_UNCONFIGURED],
    never [DNS_STATUS_TIMEOUT]: the status it stores for a timeout is only read
    after an event. *)
Theorem dns_timeout_reports_unconfigured (driver : Z -> list Z -> bool) (d : dns_state_t)
    (s : stack) (seq device now : Z) (h : list Z) (rounds : list pause)
    (r : option net_ipv4_t * dns_status_t) (d' : dns_state_t) (s' : stack) :
  Forall (fun r => p_datagrams r = []) rounds -> hostname_ok h (DNS_PACKET_MAX - 12) ->
  dns_resolve_a driver d s seq device (Some h) true now rounds = Some (Some r, d', s') ->
  r = (None, DNS_STATUS_UNCONFIGURED).
Proof.
  intros Hr Hok. unfold dns_resolve_a. destruct (_ || _); [by intros [= <- <- <-]|].
  rewrite encode_hostname_spec, decide_True by done.
  destruct (dns_next_id seq now) as [id seq']. destruct (structs (s_net s) !! device) as [dv|]; [|done].
  cbn [mbind option_bind]. generalize DNS_RETRIES. intros n.
  assert (H : forall n first d s seq id now rounds, d_event d = false ->
    Forall (fun r => p_datagrams r = []) rounds ->
    attempts driver n first d s seq device (wire_name (labels h)) id now DNS_STATUS_UNCONFIGURED
      rounds = Some (Some r, d', s') -> r = (None, DNS_STATUS_UNCONFIGURED));
    [|by apply H].
  clear. induction n as [|n IH]; intros first d s seq id now rounds He Hr; cbn [attempts];
    [by intros [= <- <- <-]|].
  destruct (negb _); [by intros [= <- <- <-]|].
  destruct (if first then _ else _) as [id1 seq1].
  set (d1 := if first then d else _). assert (He1 : d_event d1 = false) by by unfold d1; destruct first.
  clearbody d1. destruct (udp_transmit _ _ _ _ _ _ _ _ _ _ _) as [[? i] st].
  destruct (await d1 _ device now rounds) as [w|] eqn:Ew; [|done]. cbn [mbind option_bind].
  apply await_silent in Ew; [|done|done]. destruct w as [d2 s2 now2 rest|d2 s2|d2 s2].
  - destruct Ew as [-> Hrest]. rewrite He1. by apply IH.
  - by intros [= <- <- <-].
  - done.
Qed.

Lemma dns_timeout_reports_unconfigured_witness :
  fst <$> (fst <$> dns_resolve_a (fun _ _ => true) dns_reset
      resolver_stack
      0 8 (Some (str "a.bc")) true 100
      [Pause 6000 [] (fun s => s); Pause 12000 [] (fun s => s); Pause 18000 [] (fun s => s)]) =
  Some (Some (None, DNS_STATUS_UNCONFIGURED)).
Proof.
  destruct (dns_resolve_a _ _ _ _ _ _ _ _ _) as [[[[r|] d'] s']|] eqn:E.
  - cbn. do 2 f_equal. refine (dns_timeout_reports_unconfigured _ _ _ _ _ _ _ _ _ _ _ _ _ E); by_decision.
  - apply (f_equal (fun x => match x with Some (None, _, _) => true | _ => false end)) in E.
    vm_compute in E. discriminate.
  - apply (f_equal (fun x => match x with None => true | _ => false end)) in E.
    vm_compute in E. discriminate.
Defined.

End Dns.
