(* ===== verification/Http.v ===== *)
(** HTTP ([kernel/src/net/http_wire.c] and the request construction of
    [kernel/src/net/http.c]): URL parsing, the incremental response parser and
    the request text.

    The parser's [line] and the response's [body] are the bytes in use, so
    [line_length] and [body_length] are their lengths.  A function that returns
    [false] after changing the parser answers the pair of both. *)
From S2P Require Import Prelude NetConfig.
Import NetConfig.

Module Http.

Definition HTTP_BODY_MAX : Z := 32768.
Definition HTTP_HOST_MAX : Z := 128.
Definition HTTP_PATH_MAX : Z := 512.
Definition HTTP_CONTENT_TYPE_MAX : Z := 96.
(** [sizeof(parser->line)] *)
Definition LINE_SIZE : Z := 1024.

Definition len (l : list Z) : Z := Z.of_nat (length l).

Inductive http_parse_state :=
  | HTTP_PARSE_STATUS | HTTP_PARSE_HEADERS | HTTP_PARSE_BODY_LENGTH | HTTP_PARSE_BODY_CLOSE
  | HTTP_PARSE_CHUNK_SIZE | HTTP_PARSE_CHUNK_DATA | HTTP_PARSE_CHUNK_CRLF | HTTP_PARSE_TRAILERS
  | HTTP_PARSE_COMPLETE | HTTP_PARSE_ERROR.
#[export] Instance http_parse_state_eq_dec : EqDecision http_parse_state.
Proof. solve_decision. Defined.

Record http_response_t := Response {
  major : Z; minor : Z; status_code : Z; body : list Z; content_type : list Z;
  chunked : bool; connection_close : bool;
}.
Record http_parser_t := Parser {
  response : http_response_t; state : http_parse_state; line : list Z;
  content_length : Z; body_received : Z; chunk_remaining : Z;
  have_content_length : bool; have_transfer_encoding : bool; saw_response : bool;
  chunk_crlf : Z;
}.

Definition with_response (p : http_parser_t) (r : http_response_t) : http_parser_t :=
  Parser r (state p) (line p) (content_length p) (body_received p) (chunk_remaining p)
    (have_content_length p) (have_transfer_encoding p) (saw_response p) (chunk_crlf p).
Definition with_state (p : http_parser_t) (s : http_parse_state) : http_parser_t :=
  Parser (response p) s (line p) (content_length p) (body_received p) (chunk_remaining p)
    (have_content_length p) (have_transfer_encoding p) (saw_response p) (chunk_crlf p).
Definition with_line (p : http_parser_t) (l : list Z) : http_parser_t :=
  Parser (response p) (state p) l (content_length p) (body_received p) (chunk_remaining p)
    (have_content_length p) (have_transfer_encoding p) (saw_response p) (chunk_crlf p).
Definition with_content_length (p : http_parser_t) (n : Z) : http_parser_t :=
  Parser (response p) (state p) (line p) n (body_received p) (chunk_remaining p)
    true (have_transfer_encoding p) (saw_response p) (chunk_crlf p).
Definition with_received (p : http_parser_t) (n : Z) : http_parser_t :=
  Parser (response p) (state p) (line p) (content_length p) n (chunk_remaining p)
    (have_content_length p) (have_transfer_encoding p) (saw_response p) (chunk_crlf p).
Definition with_chunk (p : http_parser_t) (n : Z) : http_parser_t :=
  Parser (response p) (state p) (line p) (content_length p) (body_received p) n
    (have_content_length p) (have_transfer_encoding p) (saw_response p) (chunk_crlf p).
Definition with_encoding (p : http_parser_t) : http_parser_t :=
  Parser (response p) (state p) (line p) (content_length p) (body_received p) (chunk_remaining p)
    (have_content_length p) true (saw_response p) (chunk_crlf p).
Definition with_saw (p : http_parser_t) : http_parser_t :=
  Parser (response p) (state p) (line p) (content_length p) (body_received p) (chunk_remaining p)
    (have_content_length p) (have_transfer_encoding p) true (chunk_crlf p).
Definition with_crlf (p : http_parser_t) (n : Z) : http_parser_t :=
  Parser (response p) (state p) (line p) (content_length p) (body_received p) (chunk_remaining p)
    (have_content_length p) (have_transfer_encoding p) (saw_response p) n.

(** * Text *)

Definition lower (c : Z) : Z := if (65 <=? c) && (c <=? 90) then c + 32 else c.
Fixpoint equal_from (a b : list Z) : bool :=
  match a, b with
  | x :: a, y :: b => (lower x =? lower y) && equal_from a b
  | _, _ => true
  end.
(** [a] is the text up to the given length. *)
Definition http_equal (a b : list Z) : bool := (len b =? len a) && equal_from a b.

Definition is_blank (c : Z) : bool := (c =? 32) || (c =? 9).
Fixpoint drop_blanks (l : list Z) : list Z :=
  match l with c :: r => if is_blank c then drop_blanks r else l | [] => [] end.
Definition http_trim (l : list Z) : list Z := rev (drop_blanks (rev (drop_blanks l))).

Definition http_copy_text (capacity : Z) (input : list Z) : option (list Z) :=
  if capacity <=? len input then None else Some input.

Definition USIZE_MAX : Z := 18446744073709551615.

Fixpoint decimal_from (p : list Z) (result : Z) : option Z :=
  match p with
  | [] => Some result
  | c :: p =>
      if (c <? 48) || (57 <? c) || (USIZE_MAX / 10 <? result) then None
      else decimal_from p (u64 (result * 10 + (c - 48)))
  end.
Definition http_parse_decimal (p : list Z) : option Z :=
  if len p =? 0 then None else decimal_from p 0.

Definition hex_digit (c : Z) : option Z :=
  if (48 <=? c) && (c <=? 57) then Some (c - 48)
  else if (97 <=? c) && (c <=? 102) then Some (c - 97 + 10)
  else if (65 <=? c) && (c <=? 70) then Some (c - 65 + 10)
  else None.
Fixpoint hex_from (p : list Z) (result : Z) (digit : bool) : option Z :=
  match p with
  | [] => if digit then Some result else None
  | c :: p =>
      if c =? 59 then if digit then Some result else None
      else
        match hex_digit c with
        | Some v =>
            if (USIZE_MAX - v) / 16 <? result then None
            else hex_from p (u64 (result * 16 + v)) true
        | None => if is_blank c then hex_from p result digit else None
        end
  end.
Definition http_parse_hex (p : list Z) : option Z := hex_from p 0 false.

(** * Lines *)

Definition is_digit (c : Z) : bool := (48 <=? c) && (c <=? 57).
Definition at_ (l : list Z) (i : nat) : Z := l !!! i.

Definition http_parse_status (p : http_parser_t) : bool * http_parser_t :=
  let l := line p in
  if (len l <? 12) || negb (at_ l 0 =? 72) || negb (at_ l 1 =? 84) || negb (at_ l 2 =? 84) ||
     negb (at_ l 3 =? 80) || negb (at_ l 4 =? 47) || negb (at_ l 6 =? 46) || negb (at_ l 8 =? 32) ||
     negb (is_digit (at_ l 5)) || negb (is_digit (at_ l 7))
  then (false, p)
  else
    match http_parse_decimal (take 3 (drop 9 l)) with
    | None => (false, p)
    | Some code =>
        if (code <? 100) || (999 <? code) then (false, p)
        else
          let r := response p in
          (true, with_saw (with_response p
             (Response (u8 (at_ l 5 - 48)) (u8 (at_ l 7 - 48)) (u16 code) (body r) (content_type r)
                (chunked r) (connection_close r))))
    end.

(** The text before the first colon and the text after it. *)
Fixpoint split_colon (l : list Z) : option (list Z * list Z) :=
  match l with
  | [] => None
  | c :: l => if c =? 58 then Some ([], l)
              else '(name, value) ← split_colon l; Some (c :: name, value)
  end.

Definition http_parse_header (p : http_parser_t) : bool * http_parser_t :=
  match split_colon (line p) with
  | None | Some ([], _) => (false, p)
  | Some (name, value) =>
      let value := http_trim value in
      let r := response p in
      if http_equal name (str "content-length") then
        if have_content_length p then (false, p)
        else
          match http_parse_decimal value with
          | None => (false, p)
          | Some n => (true, with_content_length p n)
          end
      else if http_equal name (str "transfer-encoding") then
        if have_transfer_encoding p then (false, p)
        else
          let p := with_encoding p in
          if (7 <=? len value) && http_equal (take 7 value) (str "chunked")
          then (true, with_response p (Response (major r) (minor r) (status_code r) (body r)
                        (content_type r) true (connection_close r)))
          else (false, p)
      else if http_equal name (str "connection") then
        if (5 <=? len value) && http_equal (take 5 value) (str "close")
        then (true, with_response p (Response (major r) (minor r) (status_code r) (body r)
                      (content_type r) (chunked r) true))
        else (true, p)
      else if http_equal name (str "content-type") then
        match http_copy_text HTTP_CONTENT_TYPE_MAX value with
        | None => (false, p)
        | Some t => (true, with_response p (Response (major r) (minor r) (status_code r) (body r) t
                             (chunked r) (connection_close r)))
        end
      else (true, p)
  end.

Definition http_line_complete (p : http_parser_t) : bool * http_parser_t :=
  match state p with
  | HTTP_PARSE_STATUS => http_parse_status (with_state p HTTP_PARSE_HEADERS)
  | HTTP_PARSE_HEADERS =>
      if len (line p) =? 0 then
        (true, with_state p (if chunked (response p) then HTTP_PARSE_CHUNK_SIZE
                             else if have_content_length p then HTTP_PARSE_BODY_LENGTH
                             else HTTP_PARSE_BODY_CLOSE))
      else http_parse_header p
  | HTTP_PARSE_CHUNK_SIZE =>
      match http_parse_hex (line p) with
      | None => (false, p)
      | Some n => (true, with_state (with_chunk p n)
                           (if n =? 0 then HTTP_PARSE_TRAILERS else HTTP_PARSE_CHUNK_DATA))
      end
  | HTTP_PARSE_TRAILERS =>
      (true, if len (line p) =? 0 then with_state p HTTP_PARSE_COMPLETE else p)
  | _ => (false, p)
  end.

Definition http_append_body (p : http_parser_t) (data : list Z) : bool * http_parser_t :=
  let r := response p in
  if HTTP_BODY_MAX - len (body r) <? len data then (false, with_state p HTTP_PARSE_ERROR)
  else (true, with_response p (Response (major r) (minor r) (status_code r) (body r ++ data)
                (content_type r) (chunked r) (connection_close r))).

(** * Feeding the parser *)

Definition http_parser_init : http_parser_t :=
  Parser (Response 0 0 0 [] [] false false) HTTP_PARSE_STATUS [] 0 0 0 false false false 0.

(** One byte of a line: status, header, chunk size or trailer. *)
Definition feed_line (p : http_parser_t) (byte : Z) : bool * http_parser_t :=
  if byte =? 13 then (true, p)
  else if byte =? 10 then
    let '(ok, p) := http_line_complete p in
    if ok : bool then (true, with_line p []) else (false, with_state p HTTP_PARSE_ERROR)
  else if LINE_SIZE <=? len (line p) + 1 then (false, with_state p HTTP_PARSE_ERROR)
  else (true, with_line p (line p ++ [byte])).

(** One byte of the line end after a chunk. *)
Definition feed_crlf (p : http_parser_t) (byte : Z) : bool * http_parser_t :=
  if ((chunk_crlf p =? 0) && negb (byte =? 13)) || ((chunk_crlf p =? 1) && negb (byte =? 10))
  then (false, with_state p HTTP_PARSE_ERROR)
  else
    let p := with_crlf p (u8 (chunk_crlf p + 1)) in
    (true, if chunk_crlf p =? 2 then with_state p HTTP_PARSE_CHUNK_SIZE else p).

(** The part of the data a body state takes. *)
Definition feed_length (p : http_parser_t) (data : list Z) : bool * http_parser_t * nat :=
  let remaining := u64 (content_length p - body_received p) in
  let take_ := if len data <? remaining then len data else remaining in
  let '(ok, p) := http_append_body p (take (Z.to_nat take_) data) in
  if negb ok then (false, p, 0%nat)
  else
    let p := with_received p (u64 (body_received p + take_)) in
    (true, if body_received p =? content_length p then with_state p HTTP_PARSE_COMPLETE else p,
     Z.to_nat take_).
Definition feed_chunk (p : http_parser_t) (data : list Z) : bool * http_parser_t * nat :=
  let take_ := if len data <? chunk_remaining p then len data else chunk_remaining p in
  let '(ok, p) := http_append_body p (take (Z.to_nat take_) data) in
  if negb ok then (false, p, 0%nat)
  else
    let p := with_chunk p (u64 (chunk_remaining p - take_)) in
    (true, if chunk_remaining p =? 0
           then with_crlf (with_state p HTTP_PARSE_CHUNK_CRLF) 0 else p,
     Z.to_nat take_).

(** The loop; a body state consumes what it took, and at least one byte. *)
Fixpoint feed_loop (fuel : nat) (p : http_parser_t) (data : list Z) : bool * http_parser_t :=
  match fuel, data with
  | _, [] | O, _ => (negb (bool_decide (state p = HTTP_PARSE_ERROR)), p)
  | S fuel, byte :: rest =>
      match state p with
      | HTTP_PARSE_COMPLETE => (true, p)
      | HTTP_PARSE_BODY_LENGTH =>
          let '(ok, p, took) := feed_length p data in
          if negb ok then (false, p) else feed_loop fuel p (drop (Nat.max 1 took) data)
      | HTTP_PARSE_BODY_CLOSE =>
          let '(ok, p) := http_append_body p data in
          if negb ok then (false, p)
          else (true, with_received p (u64 (body_received p + len data)))
      | HTTP_PARSE_CHUNK_DATA =>
          let '(ok, p, took) := feed_chunk p data in
          if negb ok then (false, p) else feed_loop fuel p (drop (Nat.max 1 took) data)
      | HTTP_PARSE_CHUNK_CRLF =>
          let '(ok, p) := feed_crlf p byte in
          if negb ok then (false, p) else feed_loop fuel p rest
      | _ =>
          let '(ok, p) := feed_line p byte in
          if negb ok then (false, p) else feed_loop fuel p rest
      end
  end.
Definition http_parser_feed (p : http_parser_t) (data : option (list Z)) : bool * http_parser_t :=
  match data with
  | None => (false, p)
  | Some data =>
      if bool_decide (state p = HTTP_PARSE_ERROR) then (false, p)
      else feed_loop (length data) p data
  end.

Definition http_parser_finish (p : http_parser_t) : bool * http_parser_t :=
  if bool_decide (state p = HTTP_PARSE_ERROR) then (false, p)
  else
    let p := if bool_decide (state p = HTTP_PARSE_BODY_CLOSE)
             then with_state p HTTP_PARSE_COMPLETE else p in
    (bool_decide (state p = HTTP_PARSE_COMPLETE), p).
Definition http_parser_complete (p : http_parser_t) : bool :=
  bool_decide (state p = HTTP_PARSE_COMPLETE).

(** * URLs *)

Record http_url_t := Url { port : Z; hostname : list Z; path : list Z }.

(** The authority, up to the first slash, and the path from there. *)
Fixpoint split_slash (l : list Z) : list Z * list Z :=
  match l with
  | [] => ([], [])
  | c :: r => if c =? 47 then ([], l) else let '(a, p) := split_slash r in (c :: a, p)
  end.
(** The text before and after the last colon. *)
Fixpoint split_last_colon (l : list Z) : option (list Z * list Z) :=
  match l with
  | [] => None
  | c :: r =>
      match split_last_colon r with
      | Some (a, b) => Some (c :: a, b)
      | None => if c =? 58 then Some ([], r) else None
      end
  end.

Fixpoint port_from (p : list Z) (result : Z) : option Z :=
  match p with
  | [] => Some result
  | c :: p =>
      if (c <? 48) || (57 <? c) || (65535 / 10 <? result) then None
      else port_from p (u64 (result * 10 + (c - 48)))
  end.

Definition bad_host_char (colon : bool) (c : Z) : bool :=
  ((c =? 58) && colon) || (c =? 47) || (c =? 32) || (c =? 9).

Definition http_parse_url (url : option (list Z)) : option http_url_t :=
  match url with
  | None => None
  | Some u =>
      if len u <? 8 then None
      else if negb (bool_decide (take 7 u = str "http://")) then None
      else
        let '(authority, p) := split_slash (drop 7 u) in
        let colon := split_last_colon authority in
        let host := match colon with Some (h, _) => h | None => authority end in
        if (len host =? 0) || (HTTP_HOST_MAX <=? len host) then None
        else if existsb (bad_host_char (bool_decide (is_Some colon))) host then None
        else
          prt ← match colon with
                | None => Some 80
                | Some (_, digits) =>
                    (* [!*p || (path != p && path[-1] == ':')] *)
                    if bool_decide (digits = []) && bool_decide (p = []) then None
                    else
                      n ← port_from digits 0;
                      if (n =? 0) || (65535 <? n) then None else Some n
                end;
          match p with
          | [] => Some (Url (u16 prt) host [47])
          | _ => if HTTP_PATH_MAX <=? len p then None else Some (Url (u16 prt) host p)
          end
  end.

(** * Requests *)

Definition HTTP_REQUEST_MAX : Z := 2048.

Definition http_append (capacity : Z) (buffer text : list Z) : option (list Z) :=
  if (capacity <? len buffer) || (capacity - len buffer <? len text) then None
  else Some (buffer ++ text).

(** The digits of a 16-bit number, least significant first. *)
Fixpoint dec_digits (fuel : nat) (value : Z) : list Z :=
  match fuel with
  | O => []
  | S fuel => (48 + value mod 10) :: (if value / 10 =? 0 then [] else dec_digits fuel (value / 10))
  end.
Definition http_append_dec (capacity : Z) (buffer : list Z) (value : Z) : option (list Z) :=
  http_append capacity buffer (rev (dec_digits 6 value)).

Definition crlf : list Z := [13; 10].
Definition request_tail : list Z :=
  crlf ++ str "User-Agent: Mangrove/0.1" ++ crlf ++ str "Accept: */*" ++ crlf ++
  str "Connection: close" ++ crlf ++ crlf.

Definition http_build_request (url : http_url_t) (capacity : Z) : option (list Z) :=
  b ← http_append capacity [] (str "GET ");
  b ← http_append capacity b (path url);
  b ← http_append capacity b (str " HTTP/1.1" ++ crlf ++ str "Host: ");
  b ← http_append capacity b (hostname url);
  b ← (if port url =? 80 then Some b
       else b ← http_append capacity b (str ":"); http_append_dec capacity b (port url));
  http_append capacity b request_tail.

(** * Invariant *)

(** The buffers are within their arrays and the counters of the body states do
    not underflow. *)
Record parser_ok (p : http_parser_t) : Prop := {
  line_fits : len (line p) < LINE_SIZE;
  body_fits : len (body (response p)) <= HTTP_BODY_MAX;
  type_fits : len (content_type (response p)) < HTTP_CONTENT_TYPE_MAX;
  lengths_u64 : is_u64 (content_length p) /\ is_u64 (chunk_remaining p) /\ is_u64 (body_received p);
  received_bound : state p = HTTP_PARSE_BODY_LENGTH -> body_received p <= content_length p;
  nothing_received : state p = HTTP_PARSE_STATUS \/ state p = HTTP_PARSE_HEADERS ->
    body_received p = 0;
  chunk_positive : state p = HTTP_PARSE_CHUNK_DATA -> 0 < chunk_remaining p;
  no_error : state p <> HTTP_PARSE_ERROR;
}.

Lemma decimal_u64 l : forall r n, is_u64 r -> decimal_from l r = Some n -> is_u64 n.
Proof.
  induction l as [|c l IH]; intros r n Hr; cbn [decimal_from]; [by intros [= <-]|].
  destruct (_ || _); [done|]. apply IH, u64_range.
Qed.
Lemma hex_u64 l : forall r d n, is_u64 r -> hex_from l r d = Some n -> is_u64 n.
Proof.
  induction l as [|c l IH]; intros r d n Hr; cbn [hex_from].
  { destruct d; [by intros [= <-]|done]. }
  destruct (c =? 59); [destruct d; [by intros [= <-]|done]|].
  destruct (hex_digit c); [destruct (_ <? _); [done|apply IH, u64_range]|].
  destruct (is_blank c); [by apply IH|done].
Qed.

(** A successful line keeps the invariant. *)
Lemma line_complete_ok p p' :
  parser_ok p -> http_line_complete p = (true, p') -> parser_ok p' /\ line p' = line p.
Proof.
  intros Hp. pose proof Hp as [H1 H2 H3 (H4 & H5 & H5') H6 H7 H8 H9]. unfold http_line_complete.
  destruct (state p) eqn:Es; try done.
  - unfold http_parse_status. destruct (_ || _); [done|].
    destruct (http_parse_decimal _); [|done]. destruct (_ || _); [done|]. intros [= <-].
    split; [|done]. split; cbn; try done. intros _. apply H7. by left.
  - destruct (len (line p) =? 0).
    { intros [= <-]. split; [|done].
      destruct (chunked (response p)); [|destruct (have_content_length p)]; split; cbn; try done; try naive_solver.
      intros _. rewrite H7 by by right. apply H4. }
    unfold http_parse_header. destruct (split_colon (line p)) as [[name value]|]; [|done].
    destruct name as [|c name]; [done|]. cbv zeta.
    destruct (http_equal (c :: name) (str "content-length")).
    { destruct (have_content_length p); [done|].
      destruct (http_parse_decimal (http_trim value)) as [n|] eqn:En; [|done]. intros [= <-].
      assert (is_u64 n).
      { unfold http_parse_decimal in En. destruct (_ =? 0); [done|]. eapply decimal_u64, En. by_decision. }
      split; [|done]. split; cbn; try done; rewrite Es; naive_solver. }
    destruct (http_equal (c :: name) (str "transfer-encoding")).
    { destruct (have_transfer_encoding p); [done|]. destruct (_ && _); [|done]. intros [= <-].
      split; [|done]. split; cbn; try done; rewrite Es; naive_solver. }
    destruct (http_equal (c :: name) (str "connection")).
    { destruct (_ && _); intros [= <-]; [|done]. split; [|done]. split; cbn; try done; rewrite Es; naive_solver. }
    destruct (http_equal (c :: name) (str "content-type")); [|by intros [= <-]].
    unfold http_copy_text. destruct (Z.leb_spec HTTP_CONTENT_TYPE_MAX (len (http_trim value))); [done|].
    intros [= <-]. split; [|done]. split; cbn; try done; rewrite Es; naive_solver.
  - destruct (http_parse_hex (line p)) as [n|] eqn:En; [|done]. intros [= <-].
    assert (is_u64 n) by (eapply hex_u64, En; by_decision).
    split; [|done]. destruct (Z.eqb_spec n 0); split; cbn; try done; try naive_solver.
    intros _. mach.
  - intros [= <-]. destruct (len (line p) =? 0); [|done]. split; [|done]. split; cbn; try done; naive_solver.
Qed.

Lemma feed_line_ok p b p' : parser_ok p -> feed_line p b = (true, p') -> parser_ok p'.
Proof.
  intros Hp. unfold feed_line. destruct (b =? 13); [by intros [= <-]|]. destruct (b =? 10).
  - destruct (http_line_complete p) as [[] q] eqn:E; [|done]. intros [= <-].
    apply line_complete_ok in E as [[H1 H2 H3 H4 H5 H6 H7 H8] _]; [|done]. by split.
  - destruct (Z.leb_spec LINE_SIZE (len (line p) + 1)); [done|]. intros [= <-].
    destruct Hp. split; cbn; try done. unfold len in *. rewrite length_app. cbn. lia.
Qed.

Lemma feed_crlf_ok p b p' :
  parser_ok p -> state p = HTTP_PARSE_CHUNK_CRLF -> feed_crlf p b = (true, p') -> parser_ok p'.
Proof.
  intros Hp Hs. unfold feed_crlf. destruct (_ || _); [done|]. cbv zeta. intros [= <-].
  destruct Hp as [H1 H2 H3 H4 H5 H6 H7 H8]. destruct (_ =? 2); split; cbn; try done; naive_solver.
Qed.

Lemma append_body_cases p data :
  let r := response p in
  http_append_body p data =
    if decide (len (body r) + len data <= HTTP_BODY_MAX)
    then (true, with_response p (Response (major r) (minor r) (status_code r) (body r ++ data)
                  (content_type r) (chunked r) (connection_close r)))
    else (false, with_state p HTTP_PARSE_ERROR).
Proof.
  cbv zeta. unfold http_append_body. case_decide.
  - by destruct (Z.ltb_spec (HTTP_BODY_MAX - len (body (response p))) (len data)); [lia|].
  - by destruct (Z.ltb_spec (HTTP_BODY_MAX - len (body (response p))) (len data)); [|lia].
Qed.

(** * Feeding byte by byte *)

Definition result (x : bool * http_parser_t) : option http_parser_t :=
  if x.1 then Some x.2 else None.
(** The parser after [data], if it was accepted. *)
Definition run (p : http_parser_t) (data : list Z) : option http_parser_t :=
  result (feed_loop (length data) p data).

(** More fuel than bytes makes no difference. *)
Lemma feed_loop_fuel n : forall f p data,
  (length data <= n)%nat -> (length data <= f)%nat ->
  feed_loop f p data = feed_loop (length data) p data.
Proof.
  induction n as [|n IH]; intros f p data Hn Hf.
  { destruct data; [by destruct f|cbn in Hn; lia]. }
  destruct data as [|b rest]; [by destruct f|]. destruct f as [|f]; [cbn in Hf; lia|].
  cbn in Hn, Hf. cbn [length feed_loop].
  assert (Hd : forall k q, feed_loop f q (drop (Nat.max 1 k) (b :: rest)) =
    feed_loop (length rest) q (drop (Nat.max 1 k) (b :: rest))).
  { intros k q. destruct k as [|k]; cbn [Nat.max drop]; (rewrite IH; [|rewrite ?length_drop; lia..]);
      symmetry; apply IH; rewrite ?length_drop; lia. }
  destruct (state p); try done;
    try (destruct (feed_line p b) as [ok q]; destruct ok; [cbn [negb]; apply IH; lia|done]).
  - destruct (feed_length p (b :: rest)) as [[ok q] k]. destruct ok; [apply Hd|done].
  - destruct (feed_chunk p (b :: rest)) as [[ok q] k]. destruct ok; [apply Hd|done].
  - destruct (feed_crlf p b) as [ok q]. destruct ok; [cbn [negb]; apply IH; lia|done].
Qed.

Lemma run_complete p data : state p = HTTP_PARSE_COMPLETE -> run p data = Some p.
Proof. intros Hs. unfold run. destruct data; cbn; by rewrite Hs. Qed.

(** A state that handles one byte at a time. *)
Lemma http_run_step p b rest q :
  (state p = HTTP_PARSE_CHUNK_CRLF /\ feed_crlf p b = (true, q) \/
   (state p = HTTP_PARSE_STATUS \/ state p = HTTP_PARSE_HEADERS \/
    state p = HTTP_PARSE_CHUNK_SIZE \/ state p = HTTP_PARSE_TRAILERS) /\
   feed_line p b = (true, q)) -> run p (b :: rest) = run q rest.
Proof.
  intros H. unfold run. cbn [length feed_loop].
  destruct H as [[-> ->]|[[->|[->|[->| ->]]] ->]]; done.
Qed.

(** ** The body states *)

Definition add_body (p : http_parser_t) (data : list Z) : http_parser_t :=
  let r := response p in
  with_response p (Response (major r) (minor r) (status_code r) (body r ++ data)
    (content_type r) (chunked r) (connection_close r)).
Definition room (p : http_parser_t) : Z := HTTP_BODY_MAX - len (body (response p)).

Lemma run_close p data :
  state p = HTTP_PARSE_BODY_CLOSE -> data <> [] ->
  run p data = if decide (len data <= room p)
               then Some (with_received (add_body p data) (u64 (body_received p + len data)))
               else None.
Proof.
  intros Hs Hd. unfold run, room. destruct data as [|b rest]; [done|]. cbn [length feed_loop].
  rewrite Hs, append_body_cases. case_decide; case_decide; try lia; done.
Qed.

Definition after_length (p : http_parser_t) (n : Z) : http_parser_t :=
  let p := with_received p n in
  if n =? content_length p then with_state p HTTP_PARSE_COMPLETE else p.

(** What [run] does in [HTTP_PARSE_BODY_LENGTH], with [n] bytes to take. *)
Lemma run_length p data n :
  parser_ok p -> state p = HTTP_PARSE_BODY_LENGTH -> data <> [] ->
  n = Z.min (len data) (content_length p - body_received p) ->
  run p data = if decide (n <= room p)
               then run (after_length (add_body p (take (Z.to_nat n) data)) (body_received p + n))
                      (drop (Nat.max 1 (Z.to_nat n)) data)
               else None.
Proof.
  intros Hp Hs Hd Hn. pose proof (received_bound p Hp Hs) as Hb.
  destruct (lengths_u64 p Hp) as (Hc & _ & Hr). pose proof (body_fits p Hp) as Hf.
  unfold run. destruct data as [|b rest]; [done|]. cbn [length feed_loop]. rewrite Hs.
  unfold feed_length. rewrite u64_id by mach. set (data := b :: rest) in *.
  assert (Hlen : 0 < len data) by (unfold len; cbn; lia).
  replace (if len data <? _ then _ else _) with n by (destruct (Z.ltb_spec (len data) (content_length p - body_received p)); lia).
  rewrite append_body_cases.
  assert (Hl : len (take (Z.to_nat n) data) = n) by (unfold len in *; rewrite length_take; lia).
  rewrite Hl. unfold room.
  destruct (decide (len (body (response p)) + n <= HTTP_BODY_MAX)),
    (decide (n <= HTTP_BODY_MAX - len (body (response p)))); try lia; [|done].
  cbn [negb]. cbv zeta. cbn [body_received with_received with_response content_length].
  rewrite u64_id by mach.
  rewrite (feed_loop_fuel (length data)) by (rewrite length_drop; unfold data; cbn [length]; lia).
  done.
Qed.

Definition after_chunk (p : http_parser_t) (n : Z) : http_parser_t :=
  let p := with_chunk p n in
  if n =? 0 then with_crlf (with_state p HTTP_PARSE_CHUNK_CRLF) 0 else p.

Lemma run_chunk p data n :
  parser_ok p -> state p = HTTP_PARSE_CHUNK_DATA -> data <> [] ->
  n = Z.min (len data) (chunk_remaining p) ->
  run p data = if decide (n <= room p)
               then run (after_chunk (add_body p (take (Z.to_nat n) data)) (chunk_remaining p - n))
                      (drop (Nat.max 1 (Z.to_nat n)) data)
               else None.
Proof.
  intros Hp Hs Hd Hn. pose proof (chunk_positive p Hp Hs) as Hb.
  destruct (lengths_u64 p Hp) as (_ & Hc & _). pose proof (body_fits p Hp) as Hf.
  unfold run. destruct data as [|b rest]; [done|]. cbn [length feed_loop]. rewrite Hs.
  unfold feed_chunk. set (data := b :: rest) in *.
  assert (Hlen : 0 < len data) by (unfold len; cbn; lia).
  replace (if len data <? _ then _ else _) with n by (destruct (Z.ltb_spec (len data) (chunk_remaining p)); lia).
  rewrite append_body_cases.
  assert (Hl : len (take (Z.to_nat n) data) = n) by (unfold len in *; rewrite length_take; lia).
  rewrite Hl. unfold room.
  destruct (decide (len (body (response p)) + n <= HTTP_BODY_MAX)),
    (decide (n <= HTTP_BODY_MAX - len (body (response p)))); try lia; [|done].
  cbn [negb]. cbv zeta. cbn [chunk_remaining with_chunk with_response].
  rewrite u64_id by mach.
  rewrite (feed_loop_fuel (length data)) by (rewrite length_drop; unfold data; cbn [length]; lia).
  done.
Qed.

Lemma run_nil p : state p <> HTTP_PARSE_ERROR -> run p [] = Some p.
Proof. intros H. unfold run. cbn. by rewrite bool_decide_false. Qed.

Lemma len_nonneg l : 0 <= len l.
Proof. unfold len. lia. Qed.
Lemma len_cons c l : len (c :: l) = 1 + len l.
Proof. unfold len. cbn [length]. lia. Qed.
Lemma len_app a b : len (a ++ b) = len a + len b.
Proof. unfold len. rewrite length_app. lia. Qed.

Lemma add_length_ok p data n :
  parser_ok p -> state p = HTTP_PARSE_BODY_LENGTH -> len data <= room p ->
  0 <= n <= content_length p ->
  parser_ok (after_length (add_body p data) n).
Proof.
  intros [H1 H2 H3 (H4 & H5 & H5') H6 H7 H8 H9] Hs Hd Hn. unfold after_length, room in *.
  cbv zeta. cbn [content_length with_received add_body with_response].
  assert (is_u64 n) by mach. assert (len (body (response p) ++ data) <= HTTP_BODY_MAX)
    by (rewrite len_app; lia).
  destruct (n =? content_length p); split; cbn; try done; rewrite ?Hs; try done; naive_solver lia.
Qed.

Lemma add_chunk_ok p data n :
  parser_ok p -> state p = HTTP_PARSE_CHUNK_DATA -> len data <= room p ->
  0 <= n <= chunk_remaining p -> parser_ok (after_chunk (add_body p data) n).
Proof.
  intros [H1 H2 H3 (H4 & H5 & H5') H6 H7 H8 H9] Hs Hd Hn. unfold after_chunk, room in *.
  cbv zeta. assert (is_u64 n) by mach.
  assert (len (body (response p) ++ data) <= HTTP_BODY_MAX) by (rewrite len_app; lia).
  destruct (Z.eqb_spec n 0); split; cbn; try done; rewrite ?Hs; try done; naive_solver lia.
Qed.

(** One byte keeps the invariant. *)
Lemma run_one_ok p b q : parser_ok p -> run p [b] = Some q -> parser_ok q.
Proof.
  intros Hp. destruct (state p) eqn:Es.
  1,2,5,8: unfold run; cbn [length feed_loop]; rewrite Es;
    destruct (feed_line p b) as [[] p1] eqn:E; [|done];
    apply feed_line_ok in E; [|done]; pose proof (no_error p1 E); cbn;
    rewrite bool_decide_false by done; by intros [= <-].
  - destruct (lengths_u64 p Hp) as (Hc & _ & Hr). pose proof (received_bound p Hp Es).
    rewrite (run_length p [b] (Z.min 1 (content_length p - body_received p))) by done.
    set (n := Z.min _ _). case_decide as Hroom; [|done].
    assert (Hq : parser_ok (after_length (add_body p (take (Z.to_nat n) [b])) (body_received p + n))).
    { apply add_length_ok; [done|done| |unfold is_u64 in *; lia].
      unfold len. rewrite length_take. cbn [length]. unfold n in *. lia. }
    destruct (Z.to_nat n) as [|[|k]] eqn:En; [| |lia]; cbn [Nat.max drop] in *;
      (rewrite run_nil by apply (no_error _ Hq)); by intros [= <-].
  - rewrite run_close by done. case_decide as Hroom; [|done]. intros [= <-].
    destruct Hp as [H1 H2 H3 (H4 & H5 & H5') H6 H7 H8 H9]. unfold room in Hroom.
    split; cbn; rewrite ?Es; try done; try naive_solver.
    + rewrite len_app. lia.
    + split; [done|]. split; [done|]. apply u64_range.
  - pose proof (chunk_positive p Hp Es). destruct (lengths_u64 p Hp) as (_ & Hc & _).
    rewrite (run_chunk p [b] (Z.min 1 (chunk_remaining p))) by done.
    set (n := Z.min _ _). case_decide as Hroom; [|done].
    assert (Hq : parser_ok (after_chunk (add_body p (take (Z.to_nat n) [b])) (chunk_remaining p - n))).
    { apply add_chunk_ok; [done|done| |unfold is_u64 in *; lia].
      unfold len. rewrite length_take. cbn [length]. unfold n in *. lia. }
    destruct (Z.to_nat n) as [|[|k]] eqn:En; [| |lia]; cbn [Nat.max drop] in *;
      (rewrite run_nil by apply (no_error _ Hq)); by intros [= <-].
  - unfold run. cbn [length feed_loop]. rewrite Es.
    destruct (feed_crlf p b) as [[] p1] eqn:E; [|done]. apply feed_crlf_ok in E; [|done|done].
    pose proof (no_error p1 E). cbn. rewrite bool_decide_false by done. by intros [= <-].
  - rewrite run_complete by done. by intros [= <-].
  - by destruct (no_error p Hp).
Qed.

(** ** Joining *)

Lemma run_cons_length p b rest :
  parser_ok p -> state p = HTTP_PARSE_BODY_LENGTH ->
  run p (b :: rest) = (q ← run p [b]; run q rest).
Proof.
  intros Hp Hs. pose proof (received_bound p Hp Hs) as Hb.
  destruct (lengths_u64 p Hp) as (Hc & _ & Hr). unfold is_u64 in Hc, Hr.
  set (R := content_length p - body_received p).
  rewrite (run_length p [b] (Z.min 1 R)) by done.
  rewrite (run_length p (b :: rest) (Z.min (len (b :: rest)) R)) by done.
  rewrite len_cons. pose proof (len_nonneg rest).
  assert (Hq1 : Z.min 1 R <= room p -> parser_ok (after_length
    (add_body p (take (Z.to_nat (Z.min 1 R)) [b])) (body_received p + Z.min 1 R))).
  { intros. apply add_length_ok; [done|done| |lia]. unfold len. rewrite length_take. cbn [length]. lia. }
  destruct (decide (R <= 1 \/ rest = [])) as [Hsmall|Hbig].
  - replace (Z.min (1 + len rest) R) with (Z.min 1 R)
      by (destruct Hsmall as [?| ->]; [lia|done]).
    case_decide as Hroom; [|done]. specialize (Hq1 Hroom).
    assert (Ht : Z.to_nat (Z.min 1 R) = 0%nat \/ Z.to_nat (Z.min 1 R) = 1%nat) by lia.
    destruct Ht as [Ht|Ht]; rewrite Ht in *; cbn [Nat.max drop take] in *;
      (rewrite run_nil by apply (no_error _ Hq1)); done.
  - assert (H2 : 2 <= R) by lia. assert (Hrest : rest <> []) by naive_solver.
    assert (0 < len rest) by (destruct rest; [done|rewrite len_cons; pose proof (len_nonneg rest); lia]).
    replace (Z.min 1 R) with 1 in * by lia. change (Z.to_nat 1) with 1%nat in *. cbn [Nat.max drop take] in *.
    destruct (decide (1 <= room p)) as [Hroom|Hroom].
    2: { rewrite decide_False by lia. done. }
    specialize (Hq1 Hroom). rewrite run_nil by apply (no_error _ Hq1). cbn [mbind option_bind].
    set (q := after_length (add_body p [b]) (body_received p + 1)) in *.
    assert (Eq : q = with_received (add_body p [b]) (body_received p + 1)).
    { unfold q, after_length. cbv zeta. cbn [content_length with_received add_body with_response].
      destruct (Z.eqb_spec (body_received p + 1) (content_length p)); [lia|done]. }
    rewrite (run_length q rest (Z.min (len rest) (R - 1)));
      [|done|by rewrite Eq|done|rewrite Eq; cbn; lia].
    assert (Er : room q = room p - 1)
      by (rewrite Eq; unfold room; cbn; rewrite len_app; unfold len; cbn [length]; lia).
    rewrite Er. set (n := Z.min (len rest) (R - 1)).
    replace (Z.min (1 + len rest) R) with (1 + n) by lia.
    destruct (decide (1 + n <= room p)), (decide (n <= room p - 1)); try lia; [|done].
    replace (Z.to_nat (1 + n)) with (S (Z.to_nat n)) by lia.
    assert (Hn : (1 <= Z.to_nat n)%nat) by lia.
    replace (Nat.max 1 (S (Z.to_nat n))) with (S (Z.to_nat n)) by lia.
    replace (Nat.max 1 (Z.to_nat n)) with (Z.to_nat n) by lia. cbn [drop take].
    f_equal. rewrite Eq. unfold after_length, add_body, with_received, with_response.
    cbn [response body major minor status_code content_type chunked connection_close content_length
      body_received state line chunk_remaining have_content_length have_transfer_encoding saw_response
      chunk_crlf].
    rewrite <- app_assoc. cbn [app]. by rewrite <- Z.add_assoc.
Qed.

Lemma run_cons_chunk p b rest :
  parser_ok p -> state p = HTTP_PARSE_CHUNK_DATA ->
  run p (b :: rest) = (q ← run p [b]; run q rest).
Proof.
  intros Hp Hs. pose proof (chunk_positive p Hp Hs) as Hb.
  destruct (lengths_u64 p Hp) as (_ & Hc & _). unfold is_u64 in Hc.
  set (R := chunk_remaining p) in *.
  rewrite (run_chunk p [b] (Z.min 1 R)) by done.
  rewrite (run_chunk p (b :: rest) (Z.min (len (b :: rest)) R)) by done. fold R.
  rewrite len_cons. pose proof (len_nonneg rest). replace (Z.min 1 R) with 1 by lia.
  change (Z.to_nat 1) with 1%nat. cbn [Nat.max drop take].
  assert (Hq1 : 1 <= room p -> parser_ok (after_chunk (add_body p [b]) (R - 1))).
  { intros. apply add_chunk_ok; [done|done|done|unfold R in *; lia]. }
  destruct (decide (1 <= room p)) as [Hroom|Hroom].
  2: { rewrite decide_False by lia. done. }
  specialize (Hq1 Hroom). rewrite run_nil by apply (no_error _ Hq1). cbn [mbind option_bind].
  destruct (decide (R <= 1 \/ rest = [])) as [Hsmall|Hbig].
  - replace (Z.min (1 + len rest) R) with 1 by (destruct Hsmall as [?| ->]; [lia|unfold len; cbn [length]; lia]).
    by rewrite decide_True by lia.
  - assert (H2 : 2 <= R) by lia. assert (Hrest : rest <> []) by naive_solver.
    assert (0 < len rest) by (destruct rest; [done|rewrite len_cons; pose proof (len_nonneg rest); lia]).
    set (q := after_chunk (add_body p [b]) (R - 1)) in *.
    assert (Eq : q = with_chunk (add_body p [b]) (R - 1)).
    { unfold q, after_chunk. cbv zeta. destruct (Z.eqb_spec (R - 1) 0); [lia|done]. }
    rewrite (run_chunk q rest (Z.min (len rest) (R - 1)));
      [|done|by rewrite Eq|done|rewrite Eq; cbn; lia].
    assert (Er : room q = room p - 1)
      by (rewrite Eq; unfold room; cbn; rewrite len_app; unfold len; cbn [length]; lia).
    rewrite Er. set (n := Z.min (len rest) (R - 1)).
    replace (Z.min (1 + len rest) R) with (1 + n) by lia.
    destruct (decide (1 + n <= room p)), (decide (n <= room p - 1)); try lia; [|done].
    replace (Z.to_nat (1 + n)) with (S (Z.to_nat n)) by lia.
    replace (Nat.max 1 (S (Z.to_nat n))) with (S (Z.to_nat n)) by lia.
    replace (Nat.max 1 (Z.to_nat n)) with (Z.to_nat n) by lia. cbn [drop take].
    f_equal. rewrite Eq. unfold after_chunk, add_body, with_chunk, with_response, R.
    cbn [response body major minor status_code content_type chunked connection_close content_length
      body_received state line chunk_remaining have_content_length have_transfer_encoding saw_response
      chunk_crlf].
    rewrite <- app_assoc. cbn [app]. by replace (chunk_remaining p - 1 - n) with (chunk_remaining p - (1 + n)) by lia.
Qed.

Lemma run_cons p b rest :
  parser_ok p -> run p (b :: rest) = (q ← run p [b]; run q rest).
Proof.
  intros Hp. destruct (state p) eqn:Es.
  1,2,5,8: destruct (feed_line p b) as [[] q] eqn:E;
    [rewrite !(http_run_step p b _ q) by (right; rewrite Es; auto);
     rewrite run_nil by (apply (no_error q), (feed_line_ok p b), E; done); done
    |unfold run; cbn [length feed_loop]; by rewrite Es, E].
  - by apply run_cons_length.
  - rewrite !run_close by done. pose proof (len_nonneg rest). rewrite len_cons.
    change (len [b]) with 1. destruct (decide (1 <= room p)).
    2: { rewrite decide_False by lia. done. }
    cbn [mbind option_bind]. destruct rest as [|c rest].
    { rewrite run_nil by (cbn; by rewrite Es). rewrite decide_True by (unfold len; cbn [length]; lia). done. }
    rewrite run_close by done.
    assert (Er : room (with_received (add_body p [b]) (u64 (body_received p + 1))) = room p - 1)
      by (unfold room; cbn; rewrite len_app; unfold len; cbn [length]; lia).
    rewrite Er. destruct (decide (1 + len (c :: rest) <= room p)), (decide (len (c :: rest) <= room p - 1));
      try lia; [|done].
    f_equal. unfold add_body, with_received, with_response.
    cbn [response body major minor status_code content_type chunked connection_close content_length
      body_received state line chunk_remaining have_content_length have_transfer_encoding saw_response
      chunk_crlf]. rewrite <- app_assoc. f_equal. mach.
  - by apply run_cons_chunk.
  - destruct (feed_crlf p b) as [[] q] eqn:E.
    + rewrite !(http_run_step p b _ q) by (left; auto).
      rewrite run_nil by (apply (no_error q), (feed_crlf_ok p b), E; done). done.
    + unfold run. cbn [length feed_loop]. by rewrite Es, E.
  - rewrite !run_complete by done. cbn. by rewrite run_complete.
  - by destruct (no_error p Hp).
Qed.

Lemma http_run_ok data : forall p q, parser_ok p -> run p data = Some q -> parser_ok q.
Proof.
  induction data as [|b rest IH]; intros p q Hp.
  { rewrite run_nil by apply (no_error p Hp). by intros [= <-]. }
  rewrite run_cons by done. destruct (run p [b]) as [p1|] eqn:E; [|done].
  cbn [mbind option_bind]. apply IH. by eapply run_one_ok.
Qed.

Lemma http_run_app a b : forall p, parser_ok p -> run p (a ++ b) = (q ← run p a; run q b).
Proof.
  induction a as [|c a IH]; intros p Hp; cbn [app].
  { by rewrite run_nil by apply (no_error p Hp). }
  rewrite run_cons, (run_cons p c a) by done.
  destruct (run p [c]) as [p1|] eqn:E; [|done]. cbn [mbind option_bind]. apply IH. by eapply run_one_ok.
Qed.

(** * Well-formed responses *)

Definition line_state (s : http_parse_state) : Prop :=
  s = HTTP_PARSE_STATUS \/ s = HTTP_PARSE_HEADERS \/ s = HTTP_PARSE_CHUNK_SIZE \/
  s = HTTP_PARSE_TRAILERS.
Definition plain (c : Z) : Prop := c <> 13 /\ c <> 10.

Lemma run_text text : forall p,
  parser_ok p -> line_state (state p) -> Forall plain text -> len (line p) + len text < LINE_SIZE ->
  run p text = Some (with_line p (line p ++ text)).
Proof.
  induction text as [|c text IH]; intros p Hp Hs Ht Hl.
  { rewrite run_nil, app_nil_r by apply (no_error p Hp). by destruct p. }
  apply Forall_cons_1 in Ht as [[H13 H10] Ht]. rewrite len_cons in Hl. pose proof (len_nonneg text).
  assert (E : feed_line p c = (true, with_line p (line p ++ [c]))).
  { unfold feed_line. destruct (Z.eqb_spec c 13); [done|]. destruct (Z.eqb_spec c 10); [done|].
    by destruct (Z.leb_spec LINE_SIZE (len (line p) + 1)); [lia|]. }
  rewrite (http_run_step p c text _) by (right; split; [exact Hs|exact E]).
  rewrite IH; [cbn; by rewrite <- app_assoc|by eapply feed_line_ok|done|done|].
  cbn. rewrite len_app. change (len [c]) with 1. lia.
Qed.

Lemma http_run_line p q text rest :
  parser_ok p -> line_state (state p) -> line p = [] -> Forall plain text -> len text < LINE_SIZE ->
  http_line_complete (with_line p text) = (true, q) ->
  run p (text ++ crlf ++ rest) = run (with_line q []) rest /\ parser_ok (with_line q []).
Proof.
  intros Hp Hs Hl Ht Hlen Hq. rewrite http_run_app by done.
  rewrite run_text by (done || (rewrite Hl; unfold len; cbn [length]; unfold len in *; lia)).
  cbn [mbind option_bind]. rewrite Hl. cbn [app].
  set (p1 := with_line p text) in *.
  assert (E13 : feed_line p1 13 = (true, p1)) by done.
  assert (E10 : feed_line p1 10 = (true, with_line q [])) by (unfold feed_line; cbn; by rewrite Hq).
  assert (Hp1 : parser_ok p1) by (destruct Hp; by split).
  unfold crlf. cbn [app].
  rewrite (http_run_step p1 13 _ p1) by (right; split; [exact Hs|exact E13]).
  rewrite (http_run_step p1 10 _ (with_line q [])) by (right; split; [exact Hs|exact E10]).
  split; [done|]. by eapply feed_line_ok.
Qed.

(** [code] has the three digits [a], [b], [c]. *)
Definition status_line (a b c : Z) (reason : list Z) : list Z :=
  str "HTTP/1.1 " ++ [48 + a; 48 + b; 48 + c] ++ reason.
Definition code_of (a b c : Z) : Z := 100 * a + 10 * b + c.
Definition digits_ok (a b c : Z) : Prop := 1 <= a <= 9 /\ 0 <= b <= 9 /\ 0 <= c <= 9.

Lemma status_line_complete p a b c reason :
  state p = HTTP_PARSE_STATUS -> line p = status_line a b c reason -> digits_ok a b c ->
  let r := response p in
  http_line_complete p =
    (true, with_saw (with_response (with_state p HTTP_PARSE_HEADERS)
       (Response 1 1 (code_of a b c) (body r) (content_type r) (chunked r) (connection_close r)))).
Proof.
  intros Hs Hl (Ha & Hb & Hc). cbv zeta. unfold http_line_complete. rewrite Hs.
  unfold http_parse_status. cbn [line with_state]. rewrite Hl.
  assert (Hlen : (len (status_line a b c reason) <? 12) = false).
  { unfold status_line. rewrite !len_app. pose proof (len_nonneg reason).
    change (len (str "HTTP/1.1 ")) with 9. change (len [48 + a; 48 + b; 48 + c]) with 3. lia. }
  rewrite Hlen. change (take 3 (drop 9 (status_line a b c reason))) with [48 + a; 48 + b; 48 + c].
  change (at_ (status_line a b c reason) 5) with 49. change (at_ (status_line a b c reason) 7) with 49.
  cbn [at_ status_line str app]. cbv iota.
  assert (E : http_parse_decimal [48 + a; 48 + b; 48 + c] = Some (code_of a b c)).
  { unfold http_parse_decimal, decimal_from, USIZE_MAX. cbn [len length Z.of_nat Z.eqb].
    change (18446744073709551615 / 10) with 1844674407370955161.
    replace (_ || _ || _) with false by lia. rewrite (u64_id (0 * 10 + _)) by mach.
    replace (_ || _ || _) with false by lia. rewrite (u64_id (_ * 10 + (48 + b - 48))) by mach.
    replace (_ || _ || _) with false by lia. rewrite u64_id by mach. unfold code_of. f_equal. lia. }
  rewrite E. unfold code_of. destruct (Z.ltb_spec (100 * a + 10 * b + c) 100); [lia|].
  destruct (Z.ltb_spec 999 (100 * a + 10 * b + c)); [lia|]. cbn [orb]. cbn -[u16].
  rewrite u16_id by mach. done.
Qed.

Lemma decimal_digits l : forall r n, decimal_from l r = Some n -> Forall (fun c => 48 <= c <= 57) l.
Proof.
  induction l as [|c l IH]; intros r n; cbn [decimal_from]; [intros _; apply Forall_nil_2|].
  destruct (_ || _) eqn:E; [done|]. intros H. apply Forall_cons_2; [lia|by eapply IH].
Qed.

Lemma drop_blanks_digits l : Forall (fun c => 48 <= c <= 57) l -> drop_blanks l = l.
Proof.
  intros Hl. destruct Hl as [|c l Hc Hl]; [done|]. cbn. unfold is_blank.
  destruct (Z.eqb_spec c 32); [lia|]. by destruct (Z.eqb_spec c 9); [lia|].
Qed.

Lemma trim_digits l : Forall (fun c => 48 <= c <= 57) l -> http_trim (32 :: l) = l.
Proof.
  intros Hl. unfold http_trim. cbn [drop_blanks is_blank Z.eqb Pos.eqb orb].
  rewrite (drop_blanks_digits l) by done.
  rewrite drop_blanks_digits by (apply Forall_rev in Hl; exact Hl). apply rev_involutive.
Qed.

Definition length_header (digits : list Z) : list Z := str "Content-Length: " ++ digits.

Lemma length_header_complete p digits n :
  state p = HTTP_PARSE_HEADERS -> line p = length_header digits -> have_content_length p = false ->
  http_parse_decimal digits = Some n ->
  http_line_complete p = (true, with_content_length p n) /\ Forall plain (length_header digits).
Proof.
  intros Hs Hl Hh Hd. assert (Hdig : Forall (fun c => 48 <= c <= 57) digits).
  { unfold http_parse_decimal in Hd. destruct (_ =? 0); [done|]. by eapply decimal_digits. }
  split.
  - unfold http_line_complete. rewrite Hs, Hl.
    assert (Hlen : (len (length_header digits) =? 0) = false).
    { unfold length_header. rewrite len_app. pose proof (len_nonneg digits).
      change (len (str "Content-Length: ")) with 16. lia. }
    rewrite Hlen. unfold http_parse_header. rewrite Hl.
    assert (E : split_colon (length_header digits) = Some (str "Content-Length", 32 :: digits)) by done.
    rewrite E. rewrite trim_digits by done. rewrite Hh, Hd. done.
  - apply Forall_app. split; [by_decision|]. eapply Forall_impl; [exact Hdig|].
    intros c Hc. unfold plain. cbv beta in *. split; lia.
Qed.

Definition expected (p : http_parser_t) (a b c : Z) (data : list Z) : Prop :=
  state p = HTTP_PARSE_COMPLETE /\ status_code (response p) = code_of a b c /\
  major (response p) = 1 /\ minor (response p) = 1 /\ body (response p) = data.

(** The parser after the status line and a [Content-Length] header. *)
Definition head_text (a b c : Z) (reason digits : list Z) : list Z :=
  status_line a b c reason ++ crlf ++ length_header digits ++ crlf ++ crlf.
Definition head_parser (a b c n : Z) : http_parser_t :=
  Parser (Response 1 1 (code_of a b c) [] [] false false) HTTP_PARSE_BODY_LENGTH [] n 0 0
    true false true 0.

Lemma http_init_ok : parser_ok http_parser_init.
Proof. split; try done; by_decision. Qed.

Lemma run_head a b c reason digits n rest :
  digits_ok a b c -> Forall plain reason -> len reason < 1000 -> len digits < 1000 ->
  http_parse_decimal digits = Some n ->
  run http_parser_init (head_text a b c reason digits ++ rest) = run (head_parser a b c n) rest /\
  parser_ok (head_parser a b c n).
Proof.
  intros Hd Hr Hlr Hld Hn. unfold head_text. rewrite <- !app_assoc.
  assert (Hplain : Forall plain (status_line a b c reason)).
  { unfold status_line. rewrite !Forall_app. split; [by_decision|]. split; [|done].
    destruct Hd as (? & ? & ?). repeat apply Forall_cons_2; unfold plain; try lia. apply Forall_nil_2. }
  assert (Hlen : len (status_line a b c reason) < LINE_SIZE).
  { unfold status_line, LINE_SIZE. rewrite !len_app. change (len (str "HTTP/1.1 ")) with 9.
    change (len [48 + a; 48 + b; 48 + c]) with 3. lia. }
  destruct (http_run_line http_parser_init _ (status_line a b c reason)
    (length_header digits ++ crlf ++ crlf ++ rest) http_init_ok (or_introl eq_refl) eq_refl Hplain Hlen
    (status_line_complete (with_line http_parser_init (status_line a b c reason)) a b c reason
       eq_refl eq_refl Hd)) as [E1 P1]. rewrite E1. clear E1.
  set (p1 := with_line _ []) in *.
  destruct (length_header_complete (with_line p1 (length_header digits)) digits n eq_refl eq_refl
    eq_refl Hn) as [C2 Hplain2].
  assert (Hlen2 : len (length_header digits) < LINE_SIZE).
  { unfold length_header, LINE_SIZE. rewrite len_app. change (len (str "Content-Length: ")) with 16. lia. }
  destruct (http_run_line p1 _ (length_header digits) (crlf ++ rest) P1 (or_intror (or_introl eq_refl))
    eq_refl Hplain2 Hlen2 C2) as [E2 P2]. rewrite E2. clear E2.
  set (p2 := with_line (with_content_length _ n) []) in *.
  destruct (http_run_line p2 (with_state p2 HTTP_PARSE_BODY_LENGTH) [] rest P2
    (or_intror (or_introl eq_refl)) eq_refl) as [E3 P3]; [apply Forall_nil_2|by_decision|done|].
  cbn [app] in E3. rewrite E3. split; [done|exact P3].
Qed.

(** ** Theorems *)

(** Feeding the segments one after the other, as the connection delivers
    them. *)
Fixpoint feed_all (p : http_parser_t) (segments : list (list Z)) : option http_parser_t :=
  match segments with
  | [] => Some p
  | s :: segments => q ← result (http_parser_feed p (Some s)); feed_all q segments
  end.

Lemma feed_run p data : parser_ok p -> result (http_parser_feed p (Some data)) = run p data.
Proof. intros Hp. unfold http_parser_feed. by rewrite bool_decide_false by apply (no_error p Hp). Qed.

Lemma feed_all_run segments : forall p, parser_ok p -> feed_all p segments = run p (concat segments).
Proof.
  induction segments as [|s segments IH]; intros p Hp; cbn [feed_all concat].
  { by rewrite run_nil by apply (no_error p Hp). }
  rewrite feed_run, http_run_app by done. destruct (run p s) as [q|] eqn:E; [|done].
  cbn [mbind option_bind]. apply IH. by eapply http_run_ok.
Qed.

(** C31: how the network cuts a response into pieces does not matter.  Feeding
    any sequence of segments to a new parser succeeds exactly when feeding
    their concatenation at once does, with the same parser afterwards; and that
    parser is within bounds: line, body and content type fit their arrays and
    the counts of bytes still expected do not underflow. *)
Theorem http_segmentation_irrelevant (segments : list (list Z)) :
  feed_all http_parser_init segments =
    result (http_parser_feed http_parser_init (Some (concat segments))) /\
  match feed_all http_parser_init segments with Some p => parser_ok p | None => True end.
Proof.
  rewrite feed_all_run, feed_run by apply http_init_ok. split; [done|].
  destruct (run _ _) as [q|] eqn:E; [|done]. eapply http_run_ok, E. apply http_init_ok.
Qed.

(** A response with a body is parsed to its status and body, however it is
    cut into segments and whatever follows it.  (The text is the status line
    with code [abc], a [Content-Length] header whose decimal value is the
    length of the body, an empty line and the body.) *)
Theorem http_response_round_trip (a b c : Z) (reason digits data extra : list Z)
    (segments : list (list Z)) :
  digits_ok a b c -> Forall plain reason -> len reason < 1000 -> len digits < 1000 ->
  http_parse_decimal digits = Some (len data) -> 0 < len data <= HTTP_BODY_MAX ->
  concat segments = head_text a b c reason digits ++ data ++ extra ->
  exists p, feed_all http_parser_init segments = Some p /\ http_parser_complete p = true /\
    expected p a b c data.
Proof.
  intros Hd Hr Hlr Hld Hn Hb Hseg. rewrite feed_all_run, Hseg by apply http_init_ok.
  destruct (run_head a b c reason digits (len data) (data ++ extra) Hd Hr Hlr Hld Hn) as [E P].
  rewrite E. rewrite http_run_app by done.
  assert (Hne : data <> []) by (intros ->; unfold len in Hb; cbn in Hb; lia).
  rewrite (run_length (head_parser a b c (len data)) data (len data)) by (done || (cbn; lia)).
  rewrite decide_True by (unfold room, len in *; cbn; lia).
  unfold len. rewrite Nat2Z.id, firstn_all, (drop_ge data) by lia.
  unfold after_length. cbv zeta. cbn [content_length with_received add_body with_response head_parser].
  rewrite Z.eqb_refl. rewrite run_nil by done. cbn [mbind option_bind].
  rewrite run_complete by done. eexists. split; [done|]. split; [done|]. by repeat split.
Qed.

Lemma http_response_round_trip_witness :
  exists p, feed_all http_parser_init
      [status_line 2 0 0 (str " OK") ++ crlf ++ str "Content-"; str "Length: 3" ++ crlf ++ crlf ++ [7];
       [8; 9; 1]] = Some p /\ http_parser_complete p = true /\ expected p 2 0 0 [7; 8; 9].
Proof.
  apply (http_response_round_trip 2 0 0 (str " OK") (str "3") [7; 8; 9] [1]);
    [by_decision|by_decision|by_decision|by_decision|reflexivity|by_decision|reflexivity].
Defined.

(** A response without a body is never complete.  After [Content-Length: 0]
    the parser waits in [HTTP_PARSE_BODY_LENGTH] for a byte that does not come,
    and [http_parser_finish] at the end of the connection reports failure.  (A
    length of [2^64] is read as zero too: [http_parse_decimal] checks the
    product but not the sum for overflow.) *)
Theorem http_empty_body_never_completes (a b c : Z) (reason : list Z) :
  digits_ok a b c -> Forall plain reason -> len reason < 1000 ->
  (exists p, feed_all http_parser_init [head_text a b c reason (str "0")] = Some p /\
     http_parser_complete p = false /\ (http_parser_finish p).1 = false) /\
  http_parse_decimal (str "18446744073709551616") = Some 0.
Proof.
  intros Hd Hr Hl. split; [|vm_compute; reflexivity].
  destruct (run_head a b c reason (str "0") 0 [] Hd Hr Hl) as [E P]; [by_decision|done|].
  exists (head_parser a b c 0). split; [|done].
  rewrite feed_all_run by apply http_init_ok. cbn [concat]. rewrite E. by apply run_nil.
Qed.

Lemma http_empty_body_never_completes_witness :
  exists p, feed_all http_parser_init [head_text 2 0 4 (str " No Content") (str "0")] = Some p /\
    http_parser_complete p = false.
Proof.
  destruct (http_empty_body_never_completes 2 0 4 (str " No Content")) as [(p & E & H & _) _];
    [by_decision..|]. exists p. split; [exact E|exact H].
Defined.

End Http.
