(* ===== verification/Inet.v ===== *)
(** The receive path of the network stack, from a frame delivered by a driver
    ([net_receive_frame], [kernel/src/net/net.c]) through [ethernet_receive],
    [arp_receive] and [ipv4_receive] to [icmp_receive], [udp_receive] and TCP,
    and its composition with the transmit path of another host. *)
From stdpp Require Import gmap.
From S2P Require Import Prelude Checksum NetConfig NetDevice Ethernet Arp Ipv4 Icmp Udp.
Import Checksum NetConfig NetDevice Ethernet Arp Ipv4 Icmp Udp.

Module Inet.

(** The static state of the stack's files. *)
Record host := Host {
  net_state : net;
  config : net_config_t;
  arp_cache : cache;
  identification : Z;
  ping : ping_state;
  endpoints : table;
}.

Definition with_net (h : host) (st : net) : host :=
  Host st (config h) (arp_cache h) (identification h) (ping h) (endpoints h).

Section Receive.
Variable driver : Z -> list Z -> bool.
(** The clock, [timer_uptime_ms()]. *)
Variable now : Z.
(** TCP's state and its receive function, which may also use the rest of the
    stack. *)
Context {T : Type}.
Variable tcp_receive : T -> host -> Z -> net_ipv4_t -> net_ipv4_t -> list Z -> T * host.

(** The answer is the state after the frame, TCP's state and the datagram
    handed to a UDP handler, if any; [None] is a read outside the frame. *)
Abbreviation outcome := (option (host * T * option call)).

Definition ip_input (h : host) (t : T) (device : Z) (payload : list Z) : outcome :=
  r ← ipv4_receive (config h) payload;
  match r with
  | Drop4 => Some (h, t, None)
  | To_icmp source _ message =>
      '(p, i, st) ← icmp_receive driver now (net_state h) (config h) (arp_cache h)
                      (identification h) (ping h) device source message;
      Some (Host st (config h) (arp_cache h) i p (endpoints h), t, None)
  | To_udp source destination datagram =>
      r ← udp_receive (endpoints h) device source destination datagram;
      Some (h, t, r)
  | To_tcp source destination segment =>
      let '(t, h) := tcp_receive t h device source destination segment in Some (h, t, None)
  end.

Definition arp_input (h : host) (device : Z) (payload : list Z) : option host :=
  '(c, st) ← arp_receive driver (net_state h) (config h) (arp_cache h) device payload;
  Some (Host st (config h) c (identification h) (ping h) (endpoints h)).

Definition input (h : host) (t : T) (device : Z) (frame : list Z) : outcome :=
  let '(handled, st) := net_receive_frame (net_state h) device frame in
  let h := with_net h st in
  if negb handled then Some (h, t, None)
  else
    match structs st !! device with
    | None => None
    | Some d =>
        r ← ethernet_receive (mac d) frame;
        match r with
        | Drop => Some (h, t, None)
        | To_arp payload => h ← arp_input h device payload; Some (h, t, None)
        | To_ipv4 payload => ip_input h t device payload
        end
    end.

(** * Lemmas *)

Lemma ip_input_safe h t device payload : is_Some (ip_input h t device payload).
Proof.
  unfold ip_input. destruct (ipv4_receive_safe (config h) payload) as (r & -> & _).
  cbn [mbind option_bind]. destruct r as [|src dst m|src dst m|src dst m]; [by eexists| | |].
  - destruct (icmp_receive_safe driver now (net_state h) (config h) (arp_cache h)
      (identification h) (ping h) device src m) as [[[p i] st] ->]. by eexists.
  - destruct (udp_receive_safe (endpoints h) device src dst m) as (r & -> & _). by eexists.
  - destruct (tcp_receive t h device src dst m). by eexists.
Qed.

Lemma arp_input_safe h device payload : is_Some (arp_input h device payload).
Proof.
  unfold arp_input. destruct (arp_receive_safe driver (net_state h) (config h) (arp_cache h)
    device payload) as [[c st] ->]. by eexists.
Qed.

(** A frame that arrives finds its device's structure. *)
Lemma frame_allowed_device st device frame :
  frame_allowed st device frame = true -> exists d, structs st !! device = Some d.
Proof. unfold frame_allowed. destruct (structs st !! device); [by eexists|done]. Qed.

(** The whole receive path on a frame for this host that carries a datagram
    for this host. *)
Lemma input_udp h t device d destination_mac source_mac ident source destination sp dp payload :
  device <> 0 -> structs (net_state h) !! device = Some d ->
  mac_ok (mac d) -> mac_ok source_mac -> mac_ok destination_mac ->
  addressed (mac d) destination_mac ->
  is_u16 ident -> ipv4_ok source -> ipv4_ok destination -> is_u16 sp -> is_u16 dp ->
  size payload <= ETHERNET_PAYLOAD_MAX - UDP_HEADER_SIZE ->
  destination = address (config h) \/ ipv4_is_broadcast destination = true ->
  let frame := ethernet_frame destination_mac source_mac ETHERNET_ETHERTYPE_IPV4
    (ipv4_packet ident source destination UDP_PROTOCOL
       (udp_datagram source destination sp dp payload)) in
  frame_allowed (net_state h) device frame = true ->
  udp_sum source destination sp dp payload <> 0 ->
  input h t device frame =
    Some (with_net h (net_receive_frame (net_state h) device frame).2, t,
          (fun x => Call x device source sp destination dp payload) <$>
            handler_of (endpoints h) dp).
Proof.
  intros Hdev Hd Hm Hs Hdm Ha Hi Hsrc Hdst Hsp Hdp Hl Hto frame Hf Hsum.
  set (dg := udp_datagram source destination sp dp payload) in *.
  assert (Ldg : length dg = (8 + length payload)%nat) by apply length_udp_fields.
  unfold UDP_HEADER_SIZE, ETHERNET_PAYLOAD_MAX, size in Hl.
  unfold input, net_receive_frame. rewrite Hf. cbn [negb snd structs]. rewrite Hd.
  unfold frame. rewrite ethernet_receive_frame by (done || by_decision).
  cbn [mbind option_bind]. change (if _ =? _ then _ else _) with
    (To_ipv4 (ipv4_packet ident source destination UDP_PROTOCOL dg)).
  cbv iota. unfold ip_input. cbn [config with_net].
  rewrite <- (app_nil_r (ipv4_packet _ _ _ _ _)), ipv4_receive_packet;
    [|done|by_decision|done|done|unfold HEADER_SIZE, size; rewrite Ldg; lia|done].
  cbn [mbind option_bind]. change (dispatch_of UDP_PROTOCOL source destination dg)
    with (To_udp source destination dg). cbv iota. cbn [endpoints with_net].
  unfold dg, udp_datagram. rewrite (proj2 (Z.eqb_neq _ _) Hsum).
  rewrite <- (app_nil_r (udp_fields _ _ _ _)), udp_receive_fields;
    [|done|done|done|apply udp_sum_u16|unfold UDP_HEADER_SIZE, size; lia].
  rewrite Z.eqb_refl, orb_true_r. rewrite !app_nil_r. done.
Qed.

End Receive.

(** An accepted transmission hands exactly one frame to the driver. *)
Lemma ethernet_transmit_sends driver st device d destination ethertype payload st' :
  structs st !! device = Some d ->
  ethernet_transmit driver st device destination ethertype payload = (true, st') ->
  let frame := ethernet_frame destination (mac d) ethertype payload in
  sent st' = sent st ++ [(device, frame)] /\ frame_allowed st device frame = true.
Proof.
  intros Hd. unfold ethernet_transmit. rewrite Hd. destruct (_ || _ || _); [done|].
  unfold netdev_transmit. rewrite Hd. set (frame := ethernet_frame _ _ _ _).
  destruct (frame_allowed st device frame) eqn:Hf; cbn [negb orb]; [|done].
  destruct (negb (has_transmit d)); [done|]. destruct (negb _); [done|]. by intros [= <-].
Qed.

(** A unicast packet whose next hop is resolved goes out in one frame to it. *)
Lemma ipv4_transmit_sends driver st conf c i device d source destination protocol payload hop i' st' :
  structs st !! device = Some d -> ipv4_is_broadcast destination = false ->
  arp_lookup c (ipv4_next_hop conf destination) = Some hop ->
  ipv4_transmit_from driver st conf c i device source destination protocol payload =
    (true, i', st') ->
  let frame := ethernet_frame hop (mac d) ETHERNET_ETHERTYPE_IPV4
                 (ipv4_packet i source destination protocol payload) in
  sent st' = sent st ++ [(device, frame)] /\ frame_allowed st device frame = true.
Proof.
  intros Hd Hb Hhop. unfold ipv4_transmit_from. rewrite Hd, Hb, Hhop.
  destruct (_ || _ || _ || _); [done|]. destruct (negb _); [done|].
  destruct (ethernet_transmit _ _ _ _ _ _) as [ok st1] eqn:E. intros [= -> _ <-].
  by eapply ethernet_transmit_sends.
Qed.

(** A device that is registered, enabled and has its link. *)
Definition operational (st : net) (device : Z) (d : net_device) : Prop :=
  structs st !! device = Some d /\ net_device_current st device = true /\
  administrative_enabled d = true /\ link_known d && negb (link_up d) = false.

Lemma operational_allows st device d st' device' frame :
  operational st device d -> frame_allowed st' device' frame = true ->
  frame_allowed st device frame = true.
Proof.
  intros (Hd & Hc & He & Hl). unfold frame_allowed. rewrite Hd, Hc, He, Hl.
  destruct (structs st' !! device') as [d'|]; [|done]. cbn [negb andb]. intros H.
  by repeat apply andb_true_iff in H as [H ?]; apply andb_true_iff.
Qed.

(** * Theorems *)

(** Whatever frame a driver delivers, on whatever device, in whatever
    state, the receive path answers: no layer reads outside the frame it was
    given. *)
Theorem receive_path_memory_safe (driver : Z -> list Z -> bool) (now : Z) (T : Type)
    (tcp_receive : T -> host -> Z -> net_ipv4_t -> net_ipv4_t -> list Z -> T * host)
    (h : host) (t : T) (device : Z) (frame : list Z) :
  is_Some (input driver now tcp_receive h t device frame).
Proof.
  unfold input, net_receive_frame.
  destruct (frame_allowed (net_state h) device frame) eqn:Hf; cbn [negb]; [|by eexists].
  destruct (frame_allowed_device _ _ _ Hf) as [d Hd]. cbn [structs]. rewrite Hd.
  destruct (ethernet_receive_safe (mac d) frame) as (r & -> & _). cbn [mbind option_bind].
  destruct r as [|p|p]; [by eexists| |apply ip_input_safe].
  match goal with |- context [arp_input driver ?h' device p] =>
    destruct (arp_input_safe driver h' device p) as [h'' ->] end.
  by eexists.
Qed.

(** C30: UDP works end to end.  When host [A] has resolved its next hop to host
    [B]'s MAC and [udp_transmit] reports success, exactly one frame was given to
    [A]'s driver, and when [B]'s driver delivers that frame, the handler bound
    to the destination port is called with [A]'s address, port and payload,
    and nothing else in [B] changes but its frame and byte counters (for
    datagrams whose checksum does not compute to zero). *)
Theorem udp_end_to_end (driverA driverB : Z -> list Z -> bool) (now : Z) (T : Type)
    (tcp_receive : T -> host -> Z -> net_ipv4_t -> net_ipv4_t -> list Z -> T * host)
    (A B : host) (t : T) (devA devB : Z) (dA dB : net_device) (sp dp : Z) (payload : list Z)
    (ident' : Z) (stA' : net) :
  structs (net_state A) !! devA = Some dA -> mac_ok (mac dA) -> is_u16 (identification A) ->
  devB <> 0 -> operational (net_state B) devB dB -> mac_ok (mac dB) ->
  let ipA := address (config A) in
  let ipB := address (config B) in
  ipv4_ok ipA -> ipv4_ok ipB -> ipv4_is_broadcast ipB = false -> is_u16 sp -> is_u16 dp ->
  arp_lookup (arp_cache A) (ipv4_next_hop (config A) ipB) = Some (mac dB) ->
  udp_transmit driverA (net_state A) (config A) (arp_cache A) (identification A) devA ipA ipB
    sp dp (Some payload) = (true, ident', stA') ->
  udp_sum ipA ipB sp dp payload <> 0 ->
  exists frame, sent stA' = sent (net_state A) ++ [(devA, frame)] /\
    input driverB now tcp_receive B t devB frame =
      Some (with_net B (net_receive_frame (net_state B) devB frame).2, t,
            (fun x => Call x devB ipA sp ipB dp payload) <$> handler_of (endpoints B) dp).
Proof.
  intros HdA HmA Hi HdevB HoB HmB ipA ipB HipA HipB Hb Hsp Hdp Harp Htx Hsum.
  unfold udp_transmit in Htx.
  destruct ((devA =? 0) || (sp =? 0) || (dp =? 0) || _) eqn:Hg; [done|].
  destruct (ipv4_transmit_sends _ _ _ _ _ _ _ _ _ _ _ _ _ _ HdA Hb Harp Htx) as [Hsent Hf].
  eexists. split; [exact Hsent|].
  apply input_udp with (d := dB); try done; [apply HoB|by left|lia|by left|].
  by eapply operational_allows.
Qed.

(** * Concrete instance *)

Definition host1 : host := Host (host_net mac1) (host_conf ip1) known_cache 0 idle udp_init.
Definition host2 : host := Host (host_net mac2) (host_conf ip2) empty_cache 0 idle bound_table.
Definition no_tcp (t : unit) (h : host) (_ : Z) (_ _ : net_ipv4_t) (_ : list Z) : unit * host :=
  (t, h).

Lemma udp_end_to_end_witness :
  exists frame st2,
    input (fun _ _ => true) 0 no_tcp host2 tt 8 frame =
      Some (st2, tt, Some (Call 4096 8 ip1 1000 ip2 53 [1; 2])).
Proof.
  destruct (udp_transmit (fun _ _ => true) (host_net mac1) (host_conf ip1) known_cache 0 8 ip1 ip2
    1000 53 (Some [1; 2])) as [[ok i'] st'] eqn:E.
  assert (Eok : ok = true) by (apply (f_equal (fun x => x.1.1)) in E; exact (eq_sym E)).
  rewrite Eok in E.
  destruct (udp_end_to_end (fun _ _ => true) (fun _ _ => true) 0 unit no_tcp host1 host2 tt 8 8
    (host_device mac1) (host_device mac2) 1000 53 [1; 2] i' st') as (frame & _ & H);
    [reflexivity|split; [reflexivity|by_decision]|by_decision|discriminate
    |split; [reflexivity|split; [reflexivity|split; reflexivity]]
    |split; [reflexivity|by_decision]|by_decision|by_decision|reflexivity|by_decision|by_decision
    |vm_compute; reflexivity|exact E|by_decision|].
  exists frame. eexists. exact H.
Defined.

End Inet.
