(* ===== verification/Handles.v ===== *)
(** Kernel objects and process handles: reference counting
    ([kernel/src/object.c]) and the per-process handle tables
    ([kernel/src/process.c]).

    Objects live in a store keyed by their address.  An operation that
    dereferences the address of an object that is not in the store answers
    [None], so that an answer is also a proof that no freed object was used.
    Each operation is one definition; [object_release] removes the object from
    the store when its destructor runs. *)
From stdpp Require Import gmap.
From S2P Require Import Prelude.

Module Handles.

Inductive kernel_object_type_t :=
  | OBJECT_TYPE_INVALID | OBJECT_TYPE_PROCESS | OBJECT_TYPE_THREAD | OBJECT_TYPE_FILE
  | OBJECT_TYPE_DIRECTORY | OBJECT_TYPE_CONSOLE | OBJECT_TYPE_NETWORK_ICMP
  | OBJECT_TYPE_NETWORK_DATAGRAM | OBJECT_TYPE_NETWORK_STREAM | OBJECT_TYPE_IPC_ENDPOINT
  | OBJECT_TYPE_IPC_REQUEST.
#[export] Instance kernel_object_type_eq_dec : EqDecision kernel_object_type_t.
Proof. solve_decision. Defined.

Definition OBJECT_RIGHT_READ : Z := 1.
Definition OBJECT_RIGHT_WRITE : Z := 2.

(** The operation pointers are the type's own and play no part here. *)
Record kernel_object_t := Obj { type : kernel_object_type_t; ref_count : Z }.
Abbreviation store := (gmap Z kernel_object_t).

Definition object_init (os : store) (o : Z) (ty : kernel_object_type_t) : store :=
  if o =? 0 then os else <[o := Obj ty 1]> os.

(** The compare-and-exchange loops are atomic updates. *)
Definition object_reference (os : store) (o : Z) : option (bool * store) :=
  if o =? 0 then Some (false, os)
  else
    ob ← os !! o;
    let count := ref_count ob in
    if (count =? 0) || (count =? U32_MAX) then Some (false, os)
    else Some (true, <[o := Obj (type ob) (u32 (count + 1))]> os).

Definition object_release (os : store) (o : Z) : option store :=
  if o =? 0 then Some os
  else
    ob ← os !! o;
    let count := ref_count ob in
    if count =? 0 then Some os
    else if count =? 1 then Some (delete o os)
    else Some (<[o := Obj (type ob) (u32 (count - 1))]> os).

(** * Handle tables *)

Record process_handle_slot_t := Slot {
  object : Z; rights : Z; generation : Z; active : bool;
}.

Inductive process_state_t := PROCESS_STATE_ACTIVE | PROCESS_STATE_TERMINATED.
#[export] Instance process_state_eq_dec : EqDecision process_state_t.
Proof. solve_decision. Defined.

(** The part of a process that concerns its handles.  The table is allocated
    with the process and freed with it. *)
Record process := Process {
  state : process_state_t;
  slots : list process_handle_slot_t;
  output_redirected : bool;
  redirected_output_saved_handle : Z;
}.

Definition PROCESS_HANDLE_SLOTS : nat := 16.
Definition PROCESS_INITIAL_CONSOLE_HANDLE : Z := 0x00010001.

(** All objects and processes; a process is known by its index. *)
Record sys := Sys { objects : store; procs : list process }.

Definition empty_slot : process_handle_slot_t := Slot 0 0 0 false.
Definition new_process : process :=
  Process PROCESS_STATE_ACTIVE (replicate PROCESS_HANDLE_SLOTS empty_slot) false 0.
Definition process_create (s : sys) : sys := Sys (objects s) (procs s ++ [new_process]).

Definition encode_handle (index gen : Z) : Z := Z.lor (Z.shiftl gen 16) (index + 1).
Definition decode_handle (handle : Z) : option (nat * Z) :=
  let slot := Z.land handle 0xffff in
  let gen := u16 (Z.shiftr handle 16) in
  if slot =? 0 then None
  else if gen =? 0 then None
  else Some (Z.to_nat (slot - 1), gen).

Definition set_objects (s : sys) (os : store) : sys := Sys os (procs s).
Definition set_process (s : sys) (p : nat) (pr : process) : sys :=
  Sys (objects s) (<[p := pr]> (procs s)).
Definition with_slot (pr : process) (i : nat) (sl : process_handle_slot_t) : process :=
  Process (state pr) (<[i := sl]> (slots pr)) (output_redirected pr)
    (redirected_output_saved_handle pr).
Definition with_redirection (pr : process) (b : bool) (h : Z) : process :=
  Process (state pr) (slots pr) b h.

(** The bits outside [OBJECT_RIGHT_READ | OBJECT_RIGHT_WRITE]. *)
Definition unknown_rights (r : Z) : bool :=
  negb (Z.land r (u32 (Z.lnot (Z.lor OBJECT_RIGHT_READ OBJECT_RIGHT_WRITE))) =? 0).

Definition process_handle_install (s : sys) (p : nat) (o r : Z) : option (option Z * sys) :=
  match procs s !! p with
  | None => Some (None, s)
  | Some pr =>
      if negb (bool_decide (state pr = PROCESS_STATE_ACTIVE)) || (o =? 0) then Some (None, s)
      else
        ob ← objects s !! o;
        if (ref_count ob =? 0) || unknown_rights r then Some (None, s)
        else
          match list_find (fun sl => active sl = false) (slots pr) with
          | None => Some (None, s)
          | Some (i, sl) =>
              let gen := u16 (generation sl + 1) in
              let gen := if gen =? 0 then 1 else gen in
              '(ok, os) ← object_reference (objects s) o;
              if negb ok then Some (None, s)
              else Some (Some (encode_handle (Z.of_nat i) gen),
                         set_process (set_objects s os) p (with_slot pr i (Slot o r gen true)))
          end
  end.

(** The active slot a handle designates. *)
Definition slot_of (pr : process) (handle : Z) : option (nat * process_handle_slot_t) :=
  '(i, gen) ← decode_handle handle;
  sl ← slots pr !! i;
  if negb (active sl) || negb (generation sl =? gen) then None else Some (i, sl).

(** The lookups answer the object's address, zero for [NULL]. *)
Definition process_handle_lookup_any (s : sys) (p : nat) (handle : Z)
    (ty : kernel_object_type_t) (required : Z) : option Z :=
  match pr ← procs s !! p; slot_of pr handle with
  | None => Some 0
  | Some (_, sl) =>
      if object sl =? 0 then Some 0
      else
        ob ← objects s !! object sl;
        if (negb (bool_decide (ty = OBJECT_TYPE_INVALID)) && negb (bool_decide (type ob = ty))) ||
           negb (Z.land (rights sl) required =? required) then Some 0
        else Some (object sl)
  end.

Definition process_handle_lookup (s : sys) (p : nat) (handle : Z) (ty : kernel_object_type_t)
    (required : Z) : option Z :=
  match procs s !! p with
  | None => Some 0
  | Some pr =>
      if negb (bool_decide (state pr = PROCESS_STATE_ACTIVE)) then Some 0
      else process_handle_lookup_any s p handle ty required
  end.

Definition process_handle_lookup_reference (s : sys) (p : nat) (handle : Z)
    (ty : kernel_object_type_t) (required : Z) : option (Z * sys) :=
  o ← process_handle_lookup_any s p handle ty required;
  if o =? 0 then Some (0, s)
  else
    '(ok, os) ← object_reference (objects s) o;
    if negb ok then Some (0, s) else Some (o, set_objects s os).

Definition release (s : sys) (o : Z) : option sys :=
  os ← object_release (objects s) o; Some (set_objects s os).

(** A slot emptied by a close keeps its generation. *)
Definition closed_slot (sl : process_handle_slot_t) : process_handle_slot_t :=
  Slot 0 0 (generation sl) false.

Definition process_handle_close (s : sys) (p : nat) (handle : Z) : option (bool * sys) :=
  match pr ← procs s !! p; '(i, sl) ← slot_of pr handle; Some (pr, i, sl) with
  | None => Some (false, s)
  | Some (pr, i, sl) =>
      s ← release (set_process s p (with_slot pr i (closed_slot sl))) (object sl);
      Some (true, s)
  end.

(** The loop of [process_handle_close_all] from slot [i] on. *)
Fixpoint close_from (s : sys) (p : nat) (n i : nat) : option sys :=
  match n with
  | O => Some s
  | S n =>
      pr ← procs s !! p;
      sl ← slots pr !! i;
      s ← (if active sl then
             let s := set_process s p (with_slot pr i (closed_slot sl)) in
             if object sl =? 0 then Some s else release s (object sl)
           else Some s);
      close_from s p n (S i)
  end.
Definition process_handle_close_all (s : sys) (p : nat) : option sys :=
  match procs s !! p with
  | None => Some s
  | Some pr => close_from s p (length (slots pr)) 0
  end.

(** What [process_exit] does to the handles. *)
Definition exit_handles (s : sys) (p : nat) : option (bool * sys) :=
  match procs s !! p with
  | None => Some (false, s)
  | Some pr =>
      if negb (bool_decide (state pr = PROCESS_STATE_ACTIVE)) then Some (false, s)
      else
        let pr := Process PROCESS_STATE_TERMINATED (slots pr) (output_redirected pr)
                    (redirected_output_saved_handle pr) in
        s ← process_handle_close_all (set_process s p pr) p;
        Some (true, s)
  end.

(** * Output redirection *)

Definition process_redirect_output (current : nat) (s : sys) (p : nat) (output_handle : Z)
    : option (option Z * sys) :=
  match procs s !! p with
  | None => Some (None, s)
  | Some pr =>
      if negb (bool_decide (p = current)) || negb (bool_decide (state pr = PROCESS_STATE_ACTIVE))
      then Some (None, s)
      else
        '(output, s) ← process_handle_lookup_reference s p output_handle OBJECT_TYPE_FILE
                         OBJECT_RIGHT_WRITE;
        '(console, s) ← process_handle_lookup_reference s p PROCESS_INITIAL_CONSOLE_HANDLE
                          OBJECT_TYPE_CONSOLE OBJECT_RIGHT_WRITE;
        if (output =? 0) || (console =? 0) then
          s ← release s output; s ← release s console; Some (None, s)
        else
          '(saved, s) ← process_handle_install s p console OBJECT_RIGHT_WRITE;
          match saved with
          | None => s ← release s output; s ← release s console; Some (None, s)
          | Some saved =>
              pr ← procs s !! p;
              sl ← slots pr !! 0%nat;
              if output_redirected pr || negb (active sl) || (object sl =? 0) then
                '(_, s) ← process_handle_close s p saved;
                s ← release s output; s ← release s console; Some (None, s)
              else
                let pr := with_slot pr 0 (Slot output OBJECT_RIGHT_WRITE (generation sl) true) in
                let s := set_process s p (with_redirection pr true saved) in
                s ← release s (object sl); s ← release s console; Some (Some saved, s)
          end
  end.

Definition process_restore_output (current : nat) (s : sys) (p : nat) (saved_handle : Z)
    : option (bool * sys) :=
  match pr ← procs s !! p; '(i, gen) ← decode_handle saved_handle; Some (pr, i, gen) with
  | None => Some (false, s)
  | Some (pr, i, gen) =>
      if negb (bool_decide (p = current)) || negb (bool_decide (state pr = PROCESS_STATE_ACTIVE)) ||
         (length (slots pr) <=? i)%nat
      then Some (false, s)
      else
        '(saved, s) ← process_handle_lookup_reference s p saved_handle OBJECT_TYPE_CONSOLE
                        OBJECT_RIGHT_WRITE;
        if saved =? 0 then Some (false, s)
        else
          sl0 ← slots pr !! 0%nat;
          sl ← slots pr !! i;
          if negb (output_redirected pr) ||
             negb (saved_handle =? redirected_output_saved_handle pr) ||
             negb (active sl0) || negb (generation sl0 =? 1) ||
             negb (active sl) || negb (generation sl =? gen) || negb (object sl =? saved)
          then s ← release s saved; Some (false, s)
          else
            let pr := with_slot pr i (closed_slot sl) in
            sl0 ← slots pr !! 0%nat;
            let old_output := object sl0 in
            let pr := with_slot pr 0 (Slot saved OBJECT_RIGHT_WRITE (generation sl0)
                                        (active sl0)) in
            let s := set_process s p (with_redirection pr false 0) in
            s ← release s old_output; s ← release s (object sl); Some (true, s)
  end.

(** * The reference-count invariant *)

(** The references that handle slots hold on an object. *)
Definition slot_refs (o : Z) (sl : process_handle_slot_t) : Z :=
  if active sl && (object sl =? o) then 1 else 0.
Definition refs (s : sys) (o : Z) : Z := sumZ (fun pr => sumZ (slot_refs o) (slots pr)) (procs s).

Definition slot_ok (sl : process_handle_slot_t) : Prop :=
  is_u16 (generation sl) /\ (active sl = true -> generation sl <> 0).
(** The saved console handle of a redirection is never the initial one. *)
Definition saved_ok (b : bool) (h : Z) : Prop :=
  b = true -> decode_handle h <> Some (0%nat, 1).
Definition process_ok (pr : process) : Prop :=
  length (slots pr) = PROCESS_HANDLE_SLOTS /\ Forall slot_ok (slots pr) /\
  saved_ok (output_redirected pr) (redirected_output_saved_handle pr).

(** [held o] is the number of references to [o] that kernel code holds outside
    of the handle tables.  Every object's count is exact, and what is not in the
    store is not referenced. *)
Record sys_ok (s : sys) (held : Z -> Z) : Prop := {
  ok_procs : Forall process_ok (procs s);
  ok_null : objects s !! 0 = None;
  ok_held : forall o, 0 <= held o;
  ok_counts : forall o, match objects s !! o with
    | Some ob => ref_count ob = refs s o + held o /\ 0 < ref_count ob <= U32_MAX
    | None => refs s o + held o = 0
    end;
}.

(** Taking and giving back a reference; [NULL] needs none. *)
Definition hold (held : Z -> Z) (o : Z) : Z -> Z :=
  fun x => held x + (if decide (x = o /\ o <> 0) then 1 else 0).
Definition unhold (held : Z -> Z) (o : Z) : Z -> Z :=
  fun x => held x - (if decide (x = o /\ o <> 0) then 1 else 0).

#[export] Instance sys_ok_proper s : Proper (pointwise_relation Z eq ==> iff) (sys_ok s).
Proof.
  intros h h' E. split; intros [H1 H2 H3 H4]; split; [done|done| | |done|done| |];
    intros o; [rewrite <- E|specialize (H4 o); rewrite <- E|rewrite E|specialize (H4 o); rewrite E];
    done.
Qed.

(** Two ghost states that agree on every object. *)
Ltac same_held :=
  intros ?; unfold hold, unhold; repeat case_decide; subst; try tauto; try lia.

Lemma sys_ok_same s held held' : (forall o, held o = held' o) -> sys_ok s held -> sys_ok s held'.
Proof. intros E. by rewrite (sys_ok_proper s held held' E). Qed.

Lemma slot_refs_nonneg o sl : 0 <= slot_refs o sl.
Proof. unfold slot_refs. destruct (_ && _); lia. Qed.
Lemma refs_nonneg s o : 0 <= refs s o.
Proof. apply sumZ_nonneg. intros pr. apply sumZ_nonneg. intros sl. apply slot_refs_nonneg. Qed.

(** An active slot's object is in the store. *)
Lemma slot_live s held p pr i sl :
  sys_ok s held -> procs s !! p = Some pr -> slots pr !! i = Some sl -> active sl = true ->
  object sl <> 0 /\ is_Some (objects s !! object sl).
Proof.
  intros Hok Hp Hi Ha.
  assert (Hr : 1 <= refs s (object sl)).
  { transitivity (sumZ (slot_refs (object sl)) (slots pr)).
    - transitivity (slot_refs (object sl) sl).
      + unfold slot_refs. rewrite Ha, Z.eqb_refl. done.
      + eapply sumZ_lookup; [intros; apply slot_refs_nonneg|done].
    - eapply (sumZ_lookup (fun pr => sumZ (slot_refs (object sl)) (slots pr))); [|done].
      intros x. apply sumZ_nonneg. intros. apply slot_refs_nonneg. }
  pose proof (ok_counts _ _ Hok (object sl)) as Hc. pose proof (ok_held _ _ Hok (object sl)).
  destruct (objects s !! object sl) as [ob|] eqn:E; [|lia].
  split; [|by eexists]. intros E0. rewrite E0, (ok_null _ _ Hok) in E. done.
Qed.

Lemma held_null s held : sys_ok s held -> held 0 = 0.
Proof.
  intros Hok. pose proof (ok_counts _ _ Hok 0) as Hc. rewrite (ok_null _ _ Hok) in Hc.
  pose proof (ok_held _ _ Hok 0). pose proof (refs_nonneg s 0). lia.
Qed.

Lemma set_objects_id s : set_objects s (objects s) = s.
Proof. by destruct s. Qed.

Lemma reference_ok s held o :
  sys_ok s held -> is_Some (objects s !! o) ->
  exists ok os, object_reference (objects s) o = Some (ok, os) /\
    (if ok then sys_ok (set_objects s os) (hold held o) else os = objects s) /\
    (ok = true -> is_Some (os !! o)).
Proof.
  intros Hok [ob Hob]. unfold object_reference.
  destruct (Z.eqb_spec o 0) as [->|Ho]; [by eexists false, _|]. rewrite Hob. cbn [mbind option_bind].
  destruct ((ref_count ob =? 0) || (ref_count ob =? U32_MAX)) eqn:E; [by eexists false, _|].
  eexists true, _. split; [done|]. split; [|intros _; rewrite lookup_insert_eq; by eexists].
  destruct Hok as [H1 H2 H3 H4]. split; cbn [procs objects set_objects]; [done| | |].
  - by rewrite lookup_insert_ne.
  - intros x. specialize (H3 x). unfold hold. case_decide; lia.
  - intros x. specialize (H4 x). change (refs (set_objects s _) x) with (refs s x). unfold hold.
    destruct (decide (x = o)) as [->|Hx].
    + rewrite lookup_insert_eq, Hob in *. rewrite decide_True by done. cbn.
      rewrite u32_id by mach. unfold U32_MAX in *. lia.
    + rewrite lookup_insert_ne by done. rewrite decide_False by tauto.
      destruct (objects s !! x); lia.
Qed.

Lemma release_held_ok s held o :
  sys_ok s held -> (o <> 0 -> 0 < held o) ->
  exists s', release s o = Some s' /\ sys_ok s' (unhold held o) /\ procs s' = procs s.
Proof.
  intros Hok Hh. unfold release, object_release. destruct (Z.eqb_spec o 0) as [->|Ho].
  { eexists. split; [done|]. split; [|done]. rewrite set_objects_id.
    eapply sys_ok_same; [|done]. same_held. }
  specialize (Hh Ho). pose proof (refs_nonneg s o) as Hr.
  pose proof (ok_counts _ _ Hok o) as Hc. destruct (objects s !! o) as [ob|] eqn:Hob; [|lia].
  cbn [mbind option_bind]. destruct Hok as [H1 H2 H3 H4]. replace (ref_count ob =? 0) with false by lia.
  assert (Hn : forall x, 0 <= unhold held o x).
  { intros x. specialize (H3 x). unfold unhold. case_decide; [destruct_and?; subst; lia|lia]. }
  destruct (Z.eqb_spec (ref_count ob) 1) as [E1|E1]; cbn [mbind option_bind];
    (eexists; split; [reflexivity|]; split; [|done]); split; cbn [procs objects set_objects];
    try done.
  - by rewrite lookup_delete_ne.
  - intros x. specialize (H4 x). change (refs (set_objects s _) x) with (refs s x). unfold unhold.
    destruct (decide (x = o)) as [->|Hx].
    + rewrite lookup_delete_eq. rewrite decide_True by done. lia.
    + rewrite lookup_delete_ne by done. rewrite decide_False by tauto.
      destruct (objects s !! x); lia.
  - by rewrite lookup_insert_ne.
  - intros x. specialize (H4 x). change (refs (set_objects s _) x) with (refs s x). unfold unhold.
    destruct (decide (x = o)) as [->|Hx].
    + rewrite lookup_insert_eq. rewrite decide_True by done. cbn. rewrite u32_id by mach. lia.
    + rewrite lookup_insert_ne by done. rewrite decide_False by tauto.
      destruct (objects s !! x); lia.
Qed.

(** Changing a slot moves its references between the table and [held]. *)
Lemma set_slot_ok s held held' p pr i sl sl' st b h :
  sys_ok s held -> procs s !! p = Some pr -> slots pr !! i = Some sl -> slot_ok sl' ->
  (forall o, 0 <= held' o) ->
  (forall o, held' o = held o + slot_refs o sl - slot_refs o sl') -> saved_ok b h ->
  sys_ok (set_process s p (Process st (<[i := sl']> (slots pr)) b h)) held'.
Proof.
  intros [H1 H2 H3 H4] Hp Hi Hsl Hn He Hsv.
  assert (Hpr : process_ok pr) by by eapply Forall_lookup_1.
  split; cbn [procs objects set_process]; [| done | done |].
  - apply Forall_insert; [done|]. split; cbn [slots]; [by rewrite length_insert; apply Hpr|].
    split; [|done]. apply Forall_insert; [apply Hpr|done].
  - intros o. specialize (H4 o). rewrite He.
    assert (E : refs (set_process s p (Process st (<[i := sl']> (slots pr)) b h)) o =
      refs s o - slot_refs o sl + slot_refs o sl').
    { unfold refs, set_process. cbn [procs].
      rewrite (sumZ_insert (fun pr => sumZ (slot_refs o) (slots pr)) _ _ _ _ Hp). cbn [slots].
      rewrite (sumZ_insert (slot_refs o) _ _ _ _ Hi). lia. }
    rewrite E. destruct (objects s !! o); lia.
Qed.

(** Changing the other fields of a process. *)
Lemma set_fields_ok s held p pr st b h :
  sys_ok s held -> procs s !! p = Some pr -> saved_ok b h ->
  sys_ok (set_process s p (Process st (slots pr) b h)) held.
Proof.
  intros Hok Hp Hsv. assert (Hpr : process_ok pr) by (eapply Forall_lookup_1; [apply Hok|done]).
  destruct (lookup_lt_is_Some_2 (slots pr) 0) as [sl Hsl]; [rewrite (proj1 Hpr); unfold PROCESS_HANDLE_SLOTS; lia|].
  rewrite <- (list_insert_id (slots pr) 0 sl Hsl) at 1.
  eapply set_slot_ok; [done|done|done| |apply Hok|intros; lia|done].
  eapply Forall_lookup_1; [apply Hpr|done].
Qed.

Lemma length_set_process s p pr : length (procs (set_process s p pr)) = length (procs s).
Proof. apply length_insert. Qed.

Lemma slot_of_slot pr h i sl :
  slot_of pr h = Some (i, sl) -> slots pr !! i = Some sl /\ active sl = true.
Proof.
  unfold slot_of. destruct (decode_handle h) as [[j g]|]; [|done]. cbn [mbind option_bind].
  destruct (slots pr !! j) as [x|] eqn:E; [|done]. cbn [mbind option_bind].
  destruct (active x) eqn:Ea; [|done]. cbn [negb orb]. destruct (negb _); [done|].
  intros [= <- <-]. done.
Qed.

(** * Operations preserve the invariant *)

Definition next_generation (g : Z) : Z := if u16 (g + 1) =? 0 then 1 else u16 (g + 1).

Lemma next_generation_ok g : is_u16 (next_generation g) /\ next_generation g <> 0.
Proof. unfold next_generation. destruct (Z.eqb_spec (u16 (g + 1)) 0); mach. Qed.

(** What a successful installation does. *)
Definition installed (s : sys) (p : nat) (o r handle : Z) (s' : sys) : Prop :=
  exists pr i sl os,
    procs s !! p = Some pr /\ state pr = PROCESS_STATE_ACTIVE /\
    slots pr !! i = Some sl /\ active sl = false /\
    unknown_rights r = false /\ object_reference (objects s) o = Some (true, os) /\
    handle = encode_handle (Z.of_nat i) (next_generation (generation sl)) /\
    s' = set_process (set_objects s os) p
           (with_slot pr i (Slot o r (next_generation (generation sl)) true)).

Lemma install_spec s held p o r :
  sys_ok s held -> is_Some (objects s !! o) ->
  exists h s', process_handle_install s p o r = Some (h, s') /\
    match h with None => s' = s | Some handle => installed s p o r handle s' end.
Proof.
  intros Hok Hlive. unfold process_handle_install.
  destruct (procs s !! p) as [pr|] eqn:Hp; [|by eexists _, _].
  case_bool_decide as Hst; cbn [negb orb]; [|by eexists _, _].
  destruct (o =? 0); [by eexists _, _|]. pose proof Hlive as [ob Hob]. rewrite Hob. cbn [mbind option_bind].
  destruct (ref_count ob =? 0); [by eexists _, _|]. cbn [orb].
  destruct (unknown_rights r) eqn:Hr; [by eexists _, _|].
  destruct (list_find _ (slots pr)) as [[i sl]|] eqn:Hf; [|by eexists _, _].
  apply list_find_Some in Hf as (Hi & Ha & _).
  destruct (reference_ok s held o Hok Hlive) as (ok & os & E & _). rewrite E.
  cbn [mbind option_bind]. destruct ok; cbn [negb]; [|by eexists _, _].
  eexists _, _. split; [reflexivity|]. exists pr, i, sl, os. done.
Qed.

Lemma installed_ok s held p o r handle s' :
  sys_ok s held -> is_Some (objects s !! o) -> installed s p o r handle s' -> sys_ok s' held.
Proof.
  intros Hok Hlive (pr & i & sl & os & Hp & _ & Hi & Ha & _ & Href & _ & ->).
  assert (Ho : o <> 0) by (intros ->; by rewrite (ok_null _ _ Hok) in Hlive; destruct Hlive).
  destruct (reference_ok s held o Hok Hlive) as (ok & os' & E & Hok' & _).
  rewrite E in Href. injection Href as -> ->.
  destruct (next_generation_ok (generation sl)) as [Hg Hg0].
  assert (Hpr : process_ok pr) by (eapply Forall_lookup_1; [apply Hok|done]).
  eapply set_slot_ok; [exact Hok'|done|done|done|apply Hok| |apply Hpr].
  intros x. unfold hold, slot_refs. cbn. rewrite Ha. cbn [andb].
  destruct (Z.eqb_spec o x); case_decide; subst; try tauto; lia.
Qed.

Lemma install_ok s held p o r :
  sys_ok s held -> is_Some (objects s !! o) ->
  exists h s', process_handle_install s p o r = Some (h, s') /\ sys_ok s' held /\
    length (procs s') = length (procs s).
Proof.
  intros Hok Hlive. destruct (install_spec s held p o r Hok Hlive) as (h & s' & E & H).
  exists h, s'. split; [done|]. destruct h as [h|]; [|by subst].
  split; [by eapply installed_ok|].
  destruct H as (pr & i & sl & os & _ & _ & _ & _ & _ & _ & _ & ->).
  by rewrite length_set_process.
Qed.

Lemma lookup_any_ok s held p h ty r :
  sys_ok s held -> exists o, process_handle_lookup_any s p h ty r = Some o /\
    (o <> 0 -> is_Some (objects s !! o)).
Proof.
  intros Hok. apply answers. unfold process_handle_lookup_any.
  destruct (procs s !! p) as [pr|] eqn:Hp; cbn [mbind option_bind]; [|done].
  destruct (slot_of pr h) as [[i sl]|] eqn:Hs; [|done].
  apply slot_of_slot in Hs as [Hi Ha].
  destruct (slot_live s held p pr i sl Hok Hp Hi Ha) as [Ho [ob Hob]].
  destruct (object sl =? 0); [done|]. rewrite Hob. cbn [mbind option_bind].
  destruct (_ || _); [done|]. intros _. by eexists.
Qed.

Lemma lookup_reference_ok s held p h ty r :
  sys_ok s held -> exists o s', process_handle_lookup_reference s p h ty r = Some (o, s') /\
    sys_ok s' (hold held o) /\ procs s' = procs s /\ (o <> 0 -> is_Some (objects s' !! o)).
Proof.
  intros Hok. unfold process_handle_lookup_reference.
  destruct (lookup_any_ok s held p h ty r Hok) as (o & -> & Hlive). cbn [mbind option_bind].
  assert (Hnull : sys_ok s (hold held 0)) by (eapply sys_ok_same; [|done]; same_held).
  destruct (Z.eqb_spec o 0) as [->|Ho]; [by eexists _, _|]. specialize (Hlive Ho).
  destruct (reference_ok s held o Hok Hlive) as (ok & os & E & H & Hl). rewrite E.
  cbn [mbind option_bind]. destruct ok; cbn [negb]; [|by eexists _, _].
  eexists _, _. split; [reflexivity|]. split; [done|]. split; [done|]. intros _. by apply Hl.
Qed.

(** Emptying an active slot and releasing what it held. *)
Lemma close_slot_ok s held p pr i sl st b h :
  sys_ok s held -> procs s !! p = Some pr -> slots pr !! i = Some sl -> active sl = true ->
  saved_ok b h ->
  exists s', release (set_process s p (Process st (<[i := closed_slot sl]> (slots pr)) b h))
      (object sl) = Some s' /\ sys_ok s' held /\
    procs s' = <[p := Process st (<[i := closed_slot sl]> (slots pr)) b h]> (procs s).
Proof.
  intros Hok Hp Hi Ha Hsv. destruct (slot_live s held p pr i sl Hok Hp Hi Ha) as [Ho _].
  assert (Hpr : process_ok pr) by (eapply Forall_lookup_1; [apply Hok|done]).
  assert (Hsl : slot_ok sl) by (eapply Forall_lookup_1; [apply Hpr|done]).
  destruct (release_held_ok (set_process s p (Process st (<[i := closed_slot sl]> (slots pr)) b h))
    (hold held (object sl)) (object sl)) as (s' & E & Hs' & Hprocs).
  - eapply set_slot_ok; [done|done|done|by split; [apply Hsl|]| | |done].
    + intros x. pose proof (ok_held _ _ Hok x). unfold hold. case_decide; lia.
    + intros x. unfold hold, slot_refs. cbn. rewrite Ha. cbn [andb].
      destruct (Z.eqb_spec (object sl) x); case_decide; subst; try tauto; lia.
  - intros _. pose proof (ok_held _ _ Hok (object sl)). unfold hold. rewrite decide_True by done. lia.
  - exists s'. split; [done|]. split; [|done]. eapply sys_ok_same; [|exact Hs']. same_held.
Qed.

Lemma close_ok s held p h :
  sys_ok s held -> exists b s', process_handle_close s p h = Some (b, s') /\ sys_ok s' held /\
    length (procs s') = length (procs s).
Proof.
  intros Hok. unfold process_handle_close.
  destruct (procs s !! p) as [pr|] eqn:Hp; cbn [mbind option_bind]; [|by eexists _, _].
  destruct (slot_of pr h) as [[i sl]|] eqn:Hs; cbn [mbind option_bind]; [|by eexists _, _].
  apply slot_of_slot in Hs as [Hi Ha].
  destruct (close_slot_ok s held p pr i sl (state pr) (output_redirected pr)
    (redirected_output_saved_handle pr) Hok Hp Hi Ha) as (s' & E & Hok' & Hl).
  { eapply (Forall_lookup_1 process_ok); [apply Hok|done]. }
  unfold with_slot. rewrite E. cbn [mbind option_bind]. eexists _, _. split; [reflexivity|].
  split; [done|]. rewrite Hl. apply length_insert.
Qed.

Lemma close_from_ok n s held p pr i :
  sys_ok s held -> procs s !! p = Some pr -> (i + n <= length (slots pr))%nat ->
  exists s', close_from s p n i = Some s' /\ sys_ok s' held /\
    length (procs s') = length (procs s) /\
    (forall q, q <> p -> procs s' !! q = procs s !! q) /\
    exists pr', procs s' !! p = Some pr' /\ state pr' = state pr /\
      length (slots pr') = length (slots pr) /\
      (forall j sl, slots pr' !! j = Some sl -> (i <= j < i + n)%nat -> active sl = false) /\
      (forall j, (j < i)%nat -> slots pr' !! j = slots pr !! j).
Proof.
  revert s pr i. induction n as [|n IH]; intros s pr i Hok Hp Hl; cbn [close_from].
  { exists s. split; [done|]. split; [done|]. split; [done|]. split; [done|].
    exists pr. split; [done|]. split; [done|]. split; [done|]. split; [intros; lia|done]. }
  rewrite Hp. cbn [mbind option_bind].
  destruct (lookup_lt_is_Some_2 (slots pr) i) as [sl Hi]; [lia|]. rewrite Hi.
  cbn [mbind option_bind].
  set (pr1 := if active sl then with_slot pr i (closed_slot sl) else pr).
  assert (H1 : exists s1, (if active sl then
      if object sl =? 0 then Some (set_process s p (with_slot pr i (closed_slot sl)))
      else release (set_process s p (with_slot pr i (closed_slot sl))) (object sl)
    else Some s) = Some s1 /\ sys_ok s1 held /\ procs s1 = <[p := pr1]> (procs s)).
  { unfold pr1. destruct (active sl) eqn:Ha.
    - destruct (slot_live s held p pr i sl Hok Hp Hi Ha) as [Ho _].
      replace (object sl =? 0) with false by lia. apply close_slot_ok; try done.
      eapply (Forall_lookup_1 process_ok); [apply Hok|done].
    - exists s. by rewrite list_insert_id. }
  destruct H1 as (s1 & -> & Hok1 & Hs1). cbn [mbind option_bind].
  assert (Hp1 : procs s1 !! p = Some pr1).
  { rewrite Hs1. apply list_lookup_insert_eq. by eapply lookup_lt_Some. }
  assert (Hl1 : length (slots pr1) = length (slots pr)).
  { unfold pr1. destruct (active sl); [cbn; apply length_insert|done]. }
  destruct (IH s1 pr1 (S i) Hok1 Hp1) as
    (s' & E & Hok' & HL & Hoth & pr' & Hp' & Hst & HL' & Hina & Hkeep); [lia|].
  exists s'. split; [done|]. split; [done|].
  split; [by rewrite HL, Hs1, length_insert|]. split.
  { intros q Hq. rewrite Hoth, Hs1 by done. by rewrite list_lookup_insert_ne. }
  exists pr'. split; [done|]. split; [rewrite Hst; unfold pr1; by destruct (active sl)|].
  split; [lia|]. split.
  - intros j x Hj Hr. destruct (decide (j = i)) as [->|Hne]; [|apply (Hina j x); [done|lia]].
    rewrite Hkeep in Hj by lia. unfold pr1 in Hj. destruct (active sl) eqn:Ha.
    + cbn in Hj. rewrite list_lookup_insert_eq in Hj by lia. by injection Hj as <-.
    + congruence.
  - intros j Hj. rewrite Hkeep by lia. unfold pr1. destruct (active sl); [|done].
    cbn. by rewrite list_lookup_insert_ne by lia.
Qed.

(** Process termination leaves no active slot. *)
Lemma exit_ok s held p :
  sys_ok s held -> exists b s', exit_handles s p = Some (b, s') /\ sys_ok s' held /\
    (b = true -> forall pr', procs s' !! p = Some pr' -> state pr' = PROCESS_STATE_TERMINATED /\
       Forall (fun sl => active sl = false) (slots pr')).
Proof.
  intros Hok. unfold exit_handles. destruct (procs s !! p) as [pr|] eqn:Hp; [|by eexists _, _].
  case_bool_decide; cbn [negb]; [|by eexists _, _].
  set (pr1 := Process _ _ _ _). assert (Hok1 : sys_ok (set_process s p pr1) held).
  { apply set_fields_ok; try done. eapply (Forall_lookup_1 process_ok); [apply Hok|done]. }
  assert (Hp1 : procs (set_process s p pr1) !! p = Some pr1).
  { apply list_lookup_insert_eq. by eapply lookup_lt_Some. }
  unfold process_handle_close_all. rewrite Hp1.
  destruct (close_from_ok (length (slots pr1)) _ held p pr1 0 Hok1 Hp1) as
    (s' & E & Hok' & _ & _ & pr' & Hp' & Hst & Hlen & Hina & _); [lia|]. rewrite E.
  cbn [mbind option_bind]. eexists _, _. split; [reflexivity|]. split; [done|].
  intros _ pr'' Hp''. replace pr'' with pr' by congruence. split; [done|].
  apply Forall_lookup. intros j sl Hj. apply (Hina j sl Hj).
  apply lookup_lt_Some in Hj. lia.
Qed.

Lemma decode_encode i g :
  (i < 16)%nat -> is_u16 g -> g <> 0 -> decode_handle (encode_handle (Z.of_nat i) g) = Some (i, g).
Proof.
  intros Hi Hg Hg0. unfold decode_handle, encode_handle.
  rewrite lor_shiftl_add by (change (2 ^ 16) with 65536; lia).
  change 0xffff with (Z.ones 16). rewrite Z.land_ones, Z.shiftr_div_pow2 by lia.
  change (2 ^ 16) with 65536.
  replace ((g * 65536 + (Z.of_nat i + 1)) mod 65536) with (Z.of_nat i + 1) by mach.
  replace ((g * 65536 + (Z.of_nat i + 1)) / 65536) with g by mach. rewrite u16_id by done.
  replace (Z.of_nat i + 1 =? 0) with false by lia. replace (g =? 0) with false by lia.
  do 2 f_equal. lia.
Qed.

Lemma release_two s held a b :
  sys_ok s (hold (hold held a) b) ->
  (forall o, 0 <= held o) ->
  exists s' s'', release s a = Some s' /\ release s' b = Some s'' /\ sys_ok s'' held /\
    procs s'' = procs s.
Proof.
  intros Hok Hn.
  destruct (release_held_ok s _ a Hok) as (s1 & E1 & Hok1 & P1).
  { intros Ha. specialize (Hn a). unfold hold. repeat case_decide; try tauto; lia. }
  destruct (release_held_ok s1 _ b Hok1) as (s2 & E2 & Hok2 & P2).
  { intros Hb. specialize (Hn b). unfold unhold, hold. repeat case_decide; try tauto; lia. }
  exists s1, s2. split; [done|]. split; [done|]. split; [|congruence].
  eapply sys_ok_same; [|exact Hok2]. same_held.
Qed.

Lemma slot_zero s held p pr :
  sys_ok s held -> procs s !! p = Some pr ->
  exists sl, slots pr !! 0%nat = Some sl /\ slot_ok sl.
Proof.
  intros Hok Hp. assert (Hpr : process_ok pr) by (eapply Forall_lookup_1; [apply Hok|done]).
  destruct (lookup_lt_is_Some_2 (slots pr) 0) as [sl Hsl];
    [rewrite (proj1 Hpr); unfold PROCESS_HANDLE_SLOTS; lia|].
  exists sl. split; [done|]. eapply Forall_lookup_1; [apply Hpr|done].
Qed.

(** A successful lookup found an active slot. *)
Lemma lookup_any_slot s p h ty r o :
  process_handle_lookup_any s p h ty r = Some o -> o <> 0 ->
  exists pr i sl ob, procs s !! p = Some pr /\ slot_of pr h = Some (i, sl) /\ object sl = o /\
    objects s !! o = Some ob /\ (ty = OBJECT_TYPE_INVALID \/ type ob = ty) /\
    Z.land (rights sl) r = r.
Proof.
  unfold process_handle_lookup_any. destruct (procs s !! p) as [pr|]; cbn [mbind option_bind];
    [|by intros [= <-]].
  destruct (slot_of pr h) as [[i sl]|] eqn:Hs; [|by intros [= <-]].
  destruct (object sl =? 0); [by intros [= <-]|].
  destruct (objects s !! object sl) as [ob|] eqn:Hob; [|done]. cbn [mbind option_bind].
  destruct (_ || _) eqn:E; [by intros [= <-]|]. intros [= <-] _.
  apply orb_false_iff in E as [E1 E2]. exists pr, i, sl, ob.
  do 4 (split; [done|]). split; [|lia].
  repeat case_bool_decide; first [by left|by right|done].
Qed.

Lemma lookup_reference_slot s p h ty r o s' :
  process_handle_lookup_reference s p h ty r = Some (o, s') -> o <> 0 ->
  process_handle_lookup_any s p h ty r = Some o.
Proof.
  unfold process_handle_lookup_reference. destruct (process_handle_lookup_any s p h ty r) as [x|];
    [|done]. cbn [mbind option_bind]. destruct (x =? 0); [by intros [= <- _]|].
  destruct (object_reference (objects s) x) as [[[] os]|]; cbn; [|by intros [= <- _]|done].
  by intros [= -> _].
Qed.

(** The exchange of slot 0 in a redirection: the slot takes over the
    reference to its new object and gives up that to the old one. *)
Lemma swap_slot_ok s held p pr i sl o r b h :
  sys_ok s held -> procs s !! p = Some pr -> slots pr !! i = Some sl -> active sl = true ->
  o <> 0 -> 0 < held o -> saved_ok b h ->
  sys_ok (set_process s p (Process (state pr) (<[i := Slot o r (generation sl) true]> (slots pr))
    b h)) (hold (unhold held o) (object sl)).
Proof.
  intros Hok Hp Hi Ha Ho Hh Hsv. destruct (slot_live s held p pr i sl Hok Hp Hi Ha) as [Hn _].
  assert (Hpr : process_ok pr) by (eapply Forall_lookup_1; [apply Hok|done]).
  assert (Hsl : slot_ok sl) by (eapply Forall_lookup_1; [apply Hpr|done]).
  eapply set_slot_ok; [done|done|done| | | |done].
  - split; [apply Hsl|]. intros _. by apply Hsl.
  - intros x. pose proof (ok_held _ _ Hok x). unfold hold, unhold.
    repeat case_decide; destruct_and?; subst; lia.
  - intros x. unfold hold, unhold, slot_refs. cbn. rewrite Ha. cbn [andb].
    destruct (Z.eqb_spec (object sl) x), (Z.eqb_spec o x); repeat case_decide; subst;
      try tauto; lia.
Qed.

(** A console saved while the initial handle designates one gets another
    slot. *)
Lemma saved_handle_ok s held p pr i sl :
  sys_ok s held -> procs s !! p = Some pr -> slots pr !! i = Some sl -> active sl = false ->
  (exists sl0, slot_of pr PROCESS_INITIAL_CONSOLE_HANDLE = Some (0%nat, sl0)) ->
  saved_ok true (encode_handle (Z.of_nat i) (next_generation (generation sl))).
Proof.
  intros Hok Hp Hi Ha [sl0 Hs0] _. destruct (next_generation_ok (generation sl)) as [Hg Hg0].
  assert (Hpr : process_ok pr) by (eapply Forall_lookup_1; [apply Hok|done]).
  rewrite decode_encode; [|apply lookup_lt_Some in Hi; by rewrite (proj1 Hpr) in Hi|done|done].
  intros [= -> _]. apply slot_of_slot in Hs0 as [H0 Ha0]. congruence.
Qed.

(** The slot found by a lookup of the initial handle. *)
Lemma console_slot s p ty r o :
  process_handle_lookup_any s p PROCESS_INITIAL_CONSOLE_HANDLE ty r = Some o -> o <> 0 ->
  exists pr sl0, procs s !! p = Some pr /\
    slot_of pr PROCESS_INITIAL_CONSOLE_HANDLE = Some (0%nat, sl0).
Proof.
  intros E Ho. apply lookup_any_slot in E as (pr & i & sl & ob & Hp & Hs & _); [|done].
  exists pr, sl. split; [done|]. rewrite Hs. unfold slot_of in Hs.
  change (decode_handle PROCESS_INITIAL_CONSOLE_HANDLE) with (Some (0%nat, 1)) in Hs.
  cbn [mbind option_bind] in Hs. destruct (slots pr !! 0%nat) as [x|]; [|done].
  cbn [mbind option_bind] in Hs. destruct (_ || _); [done|]. by injection Hs as <- <-.
Qed.

Lemma redirect_ok current s held p h :
  sys_ok s held -> exists r s', process_redirect_output current s p h = Some (r, s') /\
    sys_ok s' held.
Proof.
  intros Hok. unfold process_redirect_output.
  destruct (procs s !! p) as [pr|] eqn:Hp; [|by eexists _, _]. destruct (_ || _); [by eexists _, _|].
  destruct (lookup_reference_ok s held p h OBJECT_TYPE_FILE OBJECT_RIGHT_WRITE Hok)
    as (out & s1 & E1 & Hok1 & P1 & _). rewrite E1. cbn [mbind option_bind].
  destruct (lookup_reference_ok s1 _ p PROCESS_INITIAL_CONSOLE_HANDLE OBJECT_TYPE_CONSOLE
    OBJECT_RIGHT_WRITE Hok1) as (con & s2 & E2 & Hok2 & P2 & L2). rewrite E2.
  cbn [mbind option_bind].
  assert (Hfail : forall s3, sys_ok s3 (hold (hold held out) con) -> exists r s',
    (s ← release s3 out; s ← release s con; Some (@None Z, s)) = Some (r, s') /\ sys_ok s' held).
  { intros s3 Hok3. destruct (release_two s3 held out con Hok3) as (s4 & s5 & -> & E & Hok5 & _);
      [apply Hok|]. cbn [mbind option_bind]. rewrite E. by eexists _, _. }
  destruct ((out =? 0) || (con =? 0)) eqn:Ez; [by apply Hfail|].
  assert (Ho : out <> 0) by lia. assert (Hc : con <> 0) by lia. specialize (L2 Hc).
  destruct (install_spec s2 _ p con OBJECT_RIGHT_WRITE Hok2 L2) as (saved & s3 & E3 & H3).
  rewrite E3. cbn [mbind option_bind].
  destruct saved as [saved|]; [|subst s3; by apply Hfail].
  pose proof (installed_ok _ _ _ _ _ _ _ Hok2 L2 H3) as Hok3.
  destruct H3 as (pr2 & i & slf & os & Hp2 & _ & Hi & Hina & _ & _ & Hsaved & Hs3).
  assert (Hsv : saved_ok true saved).
  { subst saved. eapply saved_handle_ok; [exact Hok2|done|done|done|].
    apply lookup_reference_slot, console_slot in E2 as (pr3 & sl3 & Hp3 & Hs3'); [|done|done].
    exists sl3. rewrite P2 in Hp2. by assert (pr3 = pr2) as <- by congruence. }
  assert (Hp3 : exists pr3, procs s3 !! p = Some pr3).
  { subst s3. eexists. apply list_lookup_insert_eq. by eapply lookup_lt_Some. }
  destruct Hp3 as [pr3 Hp3]. rewrite Hp3. cbn [mbind option_bind].
  destruct (slot_zero s3 _ p pr3 Hok3 Hp3) as (sl0 & Hsl0 & _). rewrite Hsl0.
  cbn [mbind option_bind].
  destruct (output_redirected pr3 || negb (active sl0) || (object sl0 =? 0)) eqn:Eg.
  { destruct (close_ok s3 _ p saved Hok3) as (b & s4 & -> & Hok4 & _). cbn [mbind option_bind].
    by apply Hfail. }
  assert (Ha : active sl0 = true) by (destruct (active sl0); [done|]; cbn in Eg;
    by rewrite orb_true_r in Eg).
  assert (Hn : 0 < hold (hold held out) con out).
  { pose proof (ok_held _ _ Hok out). unfold hold. repeat case_decide; try tauto; lia. }
  pose proof (swap_slot_ok s3 _ p pr3 0 sl0 out OBJECT_RIGHT_WRITE true saved Hok3 Hp3 Hsl0 Ha Ho
    Hn Hsv) as Hok4.
  apply (sys_ok_same _ _ (hold (hold held (object sl0)) con)) in Hok4; [|same_held].
  destruct (release_two _ _ _ _ Hok4 (ok_held _ _ Hok)) as (s5 & s6 & E5 & E6 & Hok6 & _).
  unfold with_redirection, with_slot. cbn [state slots]. rewrite E5. cbn [mbind option_bind].
  rewrite E6. by eexists _, _.
Qed.

(** Moving the saved console back into slot 0. *)
Lemma restore_swap_ok s1 held p pr i sl sl0 saved :
  sys_ok s1 (hold held saved) -> (forall o, 0 <= held o) -> procs s1 !! p = Some pr ->
  slots pr !! i = Some sl -> slots pr !! 0%nat = Some sl0 -> active sl = true ->
  active sl0 = true -> i <> 0%nat -> object sl = saved -> saved <> 0 ->
  exists s5 s6, release (set_process s1 p (Process (state pr)
      (<[0%nat := Slot saved OBJECT_RIGHT_WRITE (generation sl0) true]>
        (<[i := closed_slot sl]> (slots pr))) false 0)) (object sl0) = Some s5 /\
    release s5 saved = Some s6 /\ sys_ok s6 held.
Proof.
  intros Hok1 Hn Hp Hi Hsl0 Ha Ha0 Hi0 Hob Hs0.
  set (pr1 := Process (state pr) (<[i := closed_slot sl]> (slots pr)) false 0).
  assert (Hok2 : sys_ok (set_process s1 p pr1) (hold (hold held saved) saved)).
  { assert (Hpr : process_ok pr) by (eapply Forall_lookup_1; [apply Hok1|done]).
    assert (Hsl : slot_ok sl) by (eapply Forall_lookup_1; [apply Hpr|done]).
    eapply set_slot_ok; [exact Hok1|done|done|by split; [apply Hsl|]| | |done].
    - intros x. specialize (Hn x). unfold hold. repeat case_decide; lia.
    - intros x. unfold hold, slot_refs. cbn. rewrite Ha, Hob. cbn [andb].
      destruct (Z.eqb_spec saved x); repeat case_decide; subst; try tauto; lia. }
  assert (Hp1 : procs (set_process s1 p pr1) !! p = Some pr1).
  { apply list_lookup_insert_eq. by eapply lookup_lt_Some. }
  assert (H10 : slots pr1 !! 0%nat = Some sl0) by (cbn; by rewrite list_lookup_insert_ne).
  pose proof (swap_slot_ok _ _ p pr1 0 sl0 saved OBJECT_RIGHT_WRITE false 0 Hok2 Hp1 H10 Ha0 Hs0)
    as Hok3. specialize (Hn saved) as Hns.
  destruct (release_two (set_process (set_process s1 p pr1) p (Process (state pr1)
    (<[0%nat := Slot saved OBJECT_RIGHT_WRITE (generation sl0) true]> (slots pr1)) false 0))
    held (object sl0) saved) as (s5 & s6 & E5 & E6 & Hok6 & _); [|done|].
  { eapply sys_ok_same; [|apply Hok3]; [same_held| |done].
    unfold hold. repeat case_decide; try tauto; lia. }
  unfold set_process in E5. cbn [procs objects] in E5. rewrite list_insert_insert_eq in E5.
  exists s5, s6. done.
Qed.

Lemma restore_ok current s held p h :
  sys_ok s held -> exists r s', process_restore_output current s p h = Some (r, s') /\
    sys_ok s' held.
Proof.
  intros Hok. unfold process_restore_output.
  destruct (procs s !! p) as [pr|] eqn:Hp; cbn [mbind option_bind]; [|by eexists _, _].
  destruct (decode_handle h) as [[i gen]|] eqn:Hd; cbn [mbind option_bind]; [|by eexists _, _].
  destruct (_ || _ || (length (slots pr) <=? i)%nat) eqn:Eg; [by eexists _, _|].
  apply orb_false_iff in Eg as [_ Hil%Nat.leb_gt].
  destruct (lookup_reference_ok s held p h OBJECT_TYPE_CONSOLE OBJECT_RIGHT_WRITE Hok)
    as (saved & s1 & E1 & Hok1 & P1 & _). rewrite E1. cbn [mbind option_bind].
  destruct (Z.eqb_spec saved 0) as [->|Hs0].
  { eexists _, _. split; [reflexivity|]. eapply sys_ok_same; [|exact Hok1]. same_held. }
  rewrite <- P1 in Hp. destruct (slot_zero s1 _ p pr Hok1 Hp) as (sl0 & Hsl0 & Hok0). rewrite Hsl0.
  destruct (lookup_lt_is_Some_2 (slots pr) i Hil) as [sl Hi]. rewrite Hi. cbn [mbind option_bind].
  pose proof (ok_held _ _ Hok saved) as Hhs.
  destruct (_ || negb (object sl =? saved)) eqn:Ec.
  { destruct (release_held_ok s1 _ saved Hok1) as (s2 & -> & Hok2 & _).
    { unfold hold. repeat case_decide; try tauto; lia. }
    cbn [mbind option_bind]. eexists _, _. split; [reflexivity|].
    eapply sys_ok_same; [|exact Hok2]. same_held. }
  repeat (apply orb_false_iff in Ec as [Ec ?]).
  assert (Ha : active sl = true) by (by destruct (active sl)).
  assert (Ha0 : active sl0 = true) by (by destruct (active sl0)).
  assert (Hob : object sl = saved) by lia.
  assert (Hi0 : i <> 0%nat).
  { intros ->. assert (sl = sl0) by congruence. subst sl0.
    assert (Hpr : process_ok pr) by (eapply Forall_lookup_1; [apply Hok1|done]).
    apply (proj2 (proj2 Hpr)); [by destruct (output_redirected pr)|].
    replace (redirected_output_saved_handle pr) with h by lia. rewrite Hd. do 2 f_equal. lia. }
  cbn [slots with_slot]. rewrite list_lookup_insert_ne by done. rewrite Hsl0.
  cbn [mbind option_bind].
  destruct (restore_swap_ok s1 held p pr i sl sl0 saved Hok1 (ok_held _ _ Hok) Hp Hi Hsl0 Ha Ha0 Hi0
    Hob Hs0) as (s5 & s6 & E5 & E6 & Hok6). unfold with_redirection, with_slot. cbn [state slots].
  rewrite Ha0, Hob, E5. cbn [mbind option_bind]. rewrite E6. by eexists _, _.
Qed.

(** * The handle system as a transition system *)

(** What the kernel does with objects and handles. *)
Inductive op :=
  | Create (o : Z) (ty : kernel_object_type_t)
  | Spawn
  | Reference (o : Z)
  | Release (o : Z)
  | Install (p : nat) (o r : Z)
  | Lookup (p : nat) (h : Z) (ty : kernel_object_type_t) (r : Z)
  | Lookup_reference (p : nat) (h : Z) (ty : kernel_object_type_t) (r : Z)
  | Close (p : nat) (h : Z)
  | Exit (p : nat)
  | Redirect (current p : nat) (h : Z)
  | Restore (current p : nat) (h : Z).

(** The discipline of the callers: a new object is at a fresh address, only
    existing objects are referenced or installed, and only references that are
    held are released.  Handles are arbitrary. *)
Definition allowed (s : sys) (held : Z -> Z) (a : op) : Prop :=
  match a with
  | Create o _ => o <> 0 /\ objects s !! o = None
  | Reference o | Install _ o _ => is_Some (objects s !! o)
  | Release o => 0 < held o
  | _ => True
  end.

(** The state and the references held after an operation. *)
Definition run (s : sys) (held : Z -> Z) (a : op) : option (sys * (Z -> Z)) :=
  match a with
  | Create o ty => Some (set_objects s (object_init (objects s) o ty), hold held o)
  | Spawn => Some (process_create s, held)
  | Reference o =>
      '(ok, os) ← object_reference (objects s) o;
      Some (set_objects s os, if (ok : bool) then hold held o else held)
  | Release o => s ← release s o; Some (s, unhold held o)
  | Install p o r => '(_, s) ← process_handle_install s p o r; Some (s, held)
  | Lookup p h ty r => _ ← process_handle_lookup s p h ty r; Some (s, held)
  | Lookup_reference p h ty r =>
      '(o, s) ← process_handle_lookup_reference s p h ty r; Some (s, hold held o)
  | Close p h => '(_, s) ← process_handle_close s p h; Some (s, held)
  | Exit p => '(_, s) ← exit_handles s p; Some (s, held)
  | Redirect c p h => '(_, s) ← process_redirect_output c s p h; Some (s, held)
  | Restore c p h => '(_, s) ← process_restore_output c s p h; Some (s, held)
  end.

Inductive reachable : sys -> (Z -> Z) -> Prop :=
  | reach_boot : reachable (Sys ∅ []) (fun _ => 0)
  | reach_step s held a s' held' :
      reachable s held -> allowed s held a -> run s held a = Some (s', held') ->
      reachable s' held'.

Lemma handles_boot_ok : sys_ok (Sys ∅ []) (fun _ => 0).
Proof. split; [apply Forall_nil_2|done|done|]. intros o. cbn [objects]. by rewrite lookup_empty. Qed.

Lemma create_ok s held o ty :
  sys_ok s held -> o <> 0 -> objects s !! o = None ->
  sys_ok (set_objects s (object_init (objects s) o ty)) (hold held o).
Proof.
  intros [H1 H2 H3 H4] Ho Hn. unfold object_init. replace (o =? 0) with false by lia.
  split; cbn [procs objects set_objects]; [done|by rewrite lookup_insert_ne| |].
  - intros x. specialize (H3 x). unfold hold. case_decide; lia.
  - intros x. specialize (H4 x). change (refs (set_objects s _) x) with (refs s x). unfold hold.
    destruct (decide (x = o)) as [->|Hx].
    + rewrite lookup_insert_eq. rewrite Hn in H4. rewrite decide_True by done. cbn.
      unfold U32_MAX. lia.
    + rewrite lookup_insert_ne by done. rewrite decide_False by tauto.
      destruct (objects s !! x); lia.
Qed.

Lemma spawn_ok s held : sys_ok s held -> sys_ok (process_create s) held.
Proof.
  intros [H1 H2 H3 H4]. split; cbn [procs objects process_create]; [|done|done|].
  - apply Forall_app. split; [done|]. apply Forall_singleton. split; [done|].
    split; [|by intros ?]. apply Forall_replicate. by split; [by_decision|].
  - intros o. specialize (H4 o).
    replace (refs (process_create s) o) with (refs s o); [done|].
    unfold refs, process_create. cbn [procs]. clear. induction (procs s) as [|x l IH]; cbn; [done|].
    by rewrite IH.
Qed.

Lemma handles_run_ok s held a :
  sys_ok s held -> allowed s held a ->
  exists s' held', run s held a = Some (s', held') /\ sys_ok s' held'.
Proof.
  intros Hok Ha. destruct a as [o ty| |o|o|p o r|p h ty r|p h ty r|p h|p|c p h|c p h];
    cbn [run allowed] in *.
  - destruct Ha. eexists _, _. split; [reflexivity|]. by apply create_ok.
  - eexists _, _. split; [reflexivity|]. by apply spawn_ok.
  - destruct (reference_ok s held o Hok Ha) as (ok & os & -> & H & _). cbn [mbind option_bind].
    eexists _, _. split; [reflexivity|]. destruct ok; [done|]. subst os. by rewrite set_objects_id.
  - destruct (release_held_ok s held o Hok ltac:(done)) as (s' & -> & H & _). by eexists _, _.
  - destruct (install_ok s held p o r Hok Ha) as (x & s' & -> & H & _). by eexists _, _.
  - unfold process_handle_lookup. destruct (procs s !! p); [|by eexists _, _].
    destruct (negb _); [by eexists _, _|].
    destruct (lookup_any_ok s held p h ty r Hok) as (x & -> & _). by eexists _, _.
  - destruct (lookup_reference_ok s held p h ty r Hok) as (o & s' & -> & H & _).
    by eexists _, _.
  - destruct (close_ok s held p h Hok) as (b & s' & -> & H & _). by eexists _, _.
  - destruct (exit_ok s held p Hok) as (b & s' & -> & H & _). by eexists _, _.
  - destruct (redirect_ok c s held p h Hok) as (r & s' & -> & H). by eexists _, _.
  - destruct (restore_ok c s held p h Hok) as (r & s' & -> & H). by eexists _, _.
Qed.

Lemma reachable_ok s held : reachable s held -> sys_ok s held.
Proof.
  induction 1 as [|s held a s' held' _ IH Ha Hr]; [apply handles_boot_ok|].
  destruct (handles_run_ok s held a IH Ha) as (s1 & h1 & E & H). congruence.
Qed.

(** * Handles as capabilities *)

(** The object types, all that a lookup reads of an object. *)
Definition same_types (os os' : store) : Prop := forall o, type <$> os !! o = type <$> os' !! o.

Lemma lookup_any_same s s' p h ty r :
  same_types (objects s) (objects s') ->
  (pr ← procs s !! p; slot_of pr h) = (pr ← procs s' !! p; slot_of pr h) ->
  process_handle_lookup_any s p h ty r = process_handle_lookup_any s' p h ty r.
Proof.
  intros Ht E. unfold process_handle_lookup_any. rewrite E.
  destruct (pr ← procs s' !! p; slot_of pr h) as [[i sl]|]; [|done].
  destruct (object sl =? 0); [done|]. specialize (Ht (object sl)).
  destruct (objects s !! object sl) as [ob|], (objects s' !! object sl) as [ob'|]; try done.
  cbn in *. injection Ht as ->. done.
Qed.

(** Changing an inactive slot to an inactive one, or to an active one under a
    new handle, does not change what other handles designate. *)
Lemma slot_of_other pr i sl sl' h :
  slots pr !! i = Some sl -> active sl = false ->
  (active sl' = true -> decode_handle h <> Some (i, generation sl')) ->
  slot_of (with_slot pr i sl') h = slot_of pr h.
Proof.
  intros Hi Ha Hne. unfold slot_of. destruct (decode_handle h) as [[j g]|]; [|done].
  cbn [mbind option_bind with_slot slots]. destruct (decide (j = i)) as [->|Hj].
  - rewrite list_lookup_insert_eq by by eapply lookup_lt_Some. rewrite Hi. cbn [mbind option_bind].
    rewrite Ha. cbn [negb orb]. destruct (active sl'); [|done]. cbn [negb orb].
    destruct (Z.eqb_spec (generation sl') g) as [<-|]; [|done]. by destruct (Hne eq_refl).
  - by rewrite list_lookup_insert_ne.
Qed.

(** A lookup through a handle that designates an existing object. *)
Lemma lookup_any_granted s p pr h i sl ob ty required :
  procs s !! p = Some pr -> slot_of pr h = Some (i, sl) -> object sl <> 0 ->
  Some (type ob) = type <$> objects s !! object sl ->
  process_handle_lookup_any s p h ty required =
    Some (if bool_decide (ty = OBJECT_TYPE_INVALID \/ type ob = ty) &&
             (Z.land (rights sl) required =? required) then object sl else 0).
Proof.
  intros Hp Hs Ho Hty. unfold process_handle_lookup_any. rewrite Hp. cbn [mbind option_bind].
  rewrite Hs. replace (object sl =? 0) with false by lia.
  destruct (objects s !! object sl) as [ob'|]; [|done].
  cbn [mbind option_bind]. injection Hty as <-. destruct (Z.land (rights sl) required =? required); cbn [negb];
    [rewrite orb_false_r, andb_true_r|by rewrite orb_true_r, andb_false_r].
  repeat case_bool_decide; cbn; try done; tauto.
Qed.

Lemma reference_release s held o os :
  sys_ok s held -> object_reference (objects s) o = Some (true, os) ->
  same_types (objects s) os /\ object_release os o = Some (objects s).
Proof.
  intros Hok. unfold object_reference, object_release. destruct (o =? 0); [done|].
  pose proof (ok_counts _ _ Hok o) as Hc. destruct (objects s !! o) as [ob|] eqn:Hob; [|done].
  cbn [mbind option_bind]. destruct (_ || _) eqn:E; [done|]. intros [= <-]. split.
  - intros x. destruct (decide (x = o)) as [->|Hx].
    + by rewrite lookup_insert_eq, Hob.
    + by rewrite lookup_insert_ne.
  - rewrite lookup_insert_eq. cbn [mbind option_bind ref_count type].
    rewrite u32_id by (unfold U32_MAX in *; mach).
    replace (ref_count ob + 1 =? 0) with false by lia.
    replace (ref_count ob + 1 =? 1) with false by lia. rewrite u32_id by (unfold U32_MAX in *; mach).
    rewrite insert_insert_eq. replace (ref_count ob + 1 - 1) with (ref_count ob) by lia.
    f_equal. apply insert_id. rewrite Hob. by destruct ob.
Qed.

(** * Theorems *)

(** C23: object lifetimes are exact.  In every state reached by any sequence of
    kernel operations on objects and handles (arbitrary handle values, any
    process, termination and output redirection included) each object's count
    is the number of handle slots that refer to it plus the references held by
    kernel code, it exists exactly while that number is positive, and no
    operation ever touches a freed object. *)
Theorem object_lifetimes_exact (s : sys) (held : Z -> Z) (a : op) (o : Z) :
  reachable s held -> allowed s held a ->
  is_Some (run s held a) /\
  (is_Some (objects s !! o) <-> 0 < refs s o + held o) /\
  (forall ob, objects s !! o = Some ob -> ref_count ob = refs s o + held o).
Proof.
  intros Hr Ha. pose proof (reachable_ok s held Hr) as Hok. split; [|split].
  - destruct (handles_run_ok s held a Hok Ha) as (s' & h' & -> & _). by eexists.
  - pose proof (ok_counts _ _ Hok o) as Hc. destruct (objects s !! o) as [ob|].
    + split; [lia|]. by eexists.
    + split; [by intros []|lia].
  - intros ob E. pose proof (ok_counts _ _ Hok o) as Hc. rewrite E in Hc. apply Hc.
Qed.

(** C24: a handle is an unforgeable capability.  When [process_handle_install]
    gives a process a handle for an object with some rights, a lookup through
    that handle succeeds exactly for the object's type (or any type) and for
    rights that were granted, no other handle of any process changes its
    meaning, and closing the handle makes it invalid and restores every object
    and every other handle. *)
Theorem handles_are_capabilities (s : sys) (held : Z -> Z) (p : nat) (o r handle : Z)
    (s' : sys) (ob : kernel_object_t) :
  reachable s held -> objects s !! o = Some ob ->
  process_handle_install s p o r = Some (Some handle, s') ->
  (forall ty required, process_handle_lookup s' p handle ty required =
     Some (if bool_decide (ty = OBJECT_TYPE_INVALID \/ type ob = ty) &&
              (Z.land r required =? required) then o else 0)) /\
  (forall q h ty required, (q, decode_handle h) <> (p, decode_handle handle) ->
     process_handle_lookup_any s' q h ty required = process_handle_lookup_any s q h ty required) /\
  exists s'', process_handle_close s' p handle = Some (true, s'') /\ objects s'' = objects s /\
    forall q h ty required, process_handle_lookup_any s'' q h ty required =
      process_handle_lookup_any s q h ty required.
Proof.
  intros Hr Hob E. pose proof (reachable_ok s held Hr) as Hok.
  destruct (install_spec s held p o r Hok ltac:(by eexists)) as (x & s1 & E1 & H).
  rewrite E in E1. injection E1 as <- <-.
  destruct H as (pr & i & sl & os & Hp & Hst & Hi & Ha & _ & Href & -> & ->).
  destruct (next_generation_ok (generation sl)) as [Hg Hg0].
  set (g := next_generation (generation sl)) in *.
  assert (Hpr : process_ok pr) by (eapply Forall_lookup_1; [apply Hok|done]).
  assert (Hlt : (i < length (slots pr))%nat) by by eapply lookup_lt_Some.
  assert (Hd : decode_handle (encode_handle (Z.of_nat i) g) = Some (i, g)).
  { apply decode_encode; try done. by rewrite (proj1 Hpr) in Hlt. }
  destruct (reference_release s held o os Hok Href) as [Hty Hrel].
  assert (Ho : o <> 0) by (intros ->; by rewrite (ok_null _ _ Hok) in Hob).
  set (pr1 := with_slot pr i (Slot o r g true)).
  assert (Hp1 : procs (set_process (set_objects s os) p pr1) !! p = Some pr1)
    by (apply list_lookup_insert_eq; by eapply lookup_lt_Some).
  assert (Hs1 : slot_of pr1 (encode_handle (Z.of_nat i) g) = Some (i, Slot o r g true)).
  { unfold slot_of. rewrite Hd. cbn [mbind option_bind pr1 with_slot slots].
    rewrite list_lookup_insert_eq by done. cbn. by rewrite Z.eqb_refl. }
  split; [|split].
  - intros ty required. unfold process_handle_lookup. rewrite Hp1.
    rewrite bool_decide_true by done. cbn [negb].
    apply (lookup_any_granted _ p pr1 _ i (Slot o r g true) ob); [exact Hp1|exact Hs1|done|]. specialize (Hty o). by rewrite Hob in Hty.
  - intros q h ty required Hne. symmetry. apply lookup_any_same; [done|].
    cbn [procs set_process set_objects]. destruct (decide (q = p)) as [->|Hq].
    + rewrite list_lookup_insert_eq by (by eapply lookup_lt_Some). rewrite Hp.
      cbn [mbind option_bind]. symmetry. eapply slot_of_other; [done|done|]. cbn. congruence.
    + by rewrite list_lookup_insert_ne.
  - unfold process_handle_close. rewrite Hp1. cbn [mbind option_bind]. rewrite Hs1.
    cbn [mbind option_bind object]. unfold release. cbn [objects set_process set_objects].
    rewrite Hrel. cbn [mbind option_bind]. eexists. split; [reflexivity|]. split; [done|].
    intros q h ty required. symmetry. apply lookup_any_same; [done|].
    cbn [procs set_process set_objects]. rewrite list_insert_insert_eq.
    destruct (decide (q = p)) as [->|Hq]; [|by rewrite list_lookup_insert_ne].
    rewrite list_lookup_insert_eq by (by eapply lookup_lt_Some). rewrite Hp.
    cbn [mbind option_bind]. symmetry. unfold pr1, with_slot. cbn [slots state output_redirected
      redirected_output_saved_handle]. rewrite list_insert_insert_eq.
    eapply (slot_of_other pr i sl (Slot 0 0 g false)); [done|done|done].
Qed.

(** * Concrete instances *)

(** A process with an object installed under a handle. *)
Definition boot1 : sys := process_create (Sys ∅ []).
Definition boot2 : sys := set_objects boot1 (object_init (objects boot1) 4096 OBJECT_TYPE_CONSOLE).
Definition one_held : Z -> Z := hold (fun _ => 0) 4096.

Lemma boot2_reachable : reachable boot2 one_held.
Proof.
  apply (reach_step boot1 (fun _ => 0) (Create 4096 OBJECT_TYPE_CONSOLE)).
  - by apply (reach_step (Sys ∅ []) (fun _ => 0) Spawn); [apply reach_boot|..].
  - split; [done|]. reflexivity.
  - reflexivity.
Qed.

Lemma object_lifetimes_exact_witness :
  is_Some (run boot2 one_held (Redirect 0 0 0x00010001)) /\
  (is_Some (objects boot2 !! 4096) <-> 0 < refs boot2 4096 + one_held 4096).
Proof.
  destruct (object_lifetimes_exact boot2 one_held (Redirect 0 0 0x00010001) 4096) as (H1 & H2 & _);
    [exact boot2_reachable|exact I|]. exact (conj H1 H2).
Defined.

Lemma handles_are_capabilities_witness :
  exists s', process_handle_install boot2 0 4096 2 = Some (Some 0x00010001, s') /\
    process_handle_lookup s' 0 0x00010001 OBJECT_TYPE_CONSOLE 2 = Some 4096 /\
    process_handle_lookup s' 0 0x00010001 OBJECT_TYPE_CONSOLE 1 = Some 0.
Proof.
  eexists. split; [reflexivity|].
  destruct (handles_are_capabilities boot2 one_held 0 4096 2 0x00010001 _
    (Obj OBJECT_TYPE_CONSOLE 1) boot2_reachable eq_refl eq_refl) as (H & _).
  split; [exact (H OBJECT_TYPE_CONSOLE 2)|exact (H OBJECT_TYPE_CONSOLE 1)].
Defined.

End Handles.
