(* ===== verification/IpcQueue.v ===== *)
(** The delivery queue of an IPC endpoint ([kernel/src/ipc.c]): a ring buffer
    of eight deliveries, and the sequence it stands for.

    The queue fields of [ipc_endpoint] are a record of their own, [ring]; a
    request is known by its index in [request_pool]. *)
From stdpp Require Import list.
From S2P Require Import Prelude.

Module IpcQueue.

Record mg_event_t := Event {
  version : Z; ev_type : Z; event_class : Z; flags : Z; event_sequence : Z; resource_id : Z;
  ev_name : list Z;
}.
Definition zero_event : mg_event_t := Event 0 0 0 0 0 0 [].

Record ipc_delivery_t := Delivery {
  is_event : bool; request : option nat; event : mg_event_t;
}.
Definition zero_delivery : ipc_delivery_t := Delivery false None zero_event.
#[export] Instance delivery_inhabited : Inhabited ipc_delivery_t := populate zero_delivery.

Definition IPC_MAX_QUEUE_DEPTH : Z := 8.

Record ring := Ring {
  queue : list ipc_delivery_t; queue_head : Z; queue_tail : Z; queue_count : Z;
}.

Definition empty_ring : ring := Ring (replicate 8 zero_delivery) 0 0 0.

Definition get (q : list ipc_delivery_t) (i : Z) : ipc_delivery_t := q !!! Z.to_nat i.
Definition put (q : list ipc_delivery_t) (i : Z) (d : ipc_delivery_t) : list ipc_delivery_t :=
  <[Z.to_nat i := d]> q.

Definition enqueue (r : ring) (d : ipc_delivery_t) : bool * ring :=
  if IPC_MAX_QUEUE_DEPTH <=? queue_count r then (false, r)
  else (true, Ring (put (queue r) (queue_tail r) d) (queue_head r)
                ((queue_tail r + 1) mod IPC_MAX_QUEUE_DEPTH) (queue_count r + 1)).
Definition endpoint_enqueue_request (r : ring) (request : nat) : bool * ring :=
  enqueue r (Delivery false (Some request) zero_event).
Definition endpoint_enqueue_event (r : ring) (e : mg_event_t) : bool * ring :=
  enqueue r (Delivery true None e).

Definition endpoint_dequeue (r : ring) : option (ipc_delivery_t * ring) :=
  if queue_count r =? 0 then None
  else Some (get (queue r) (queue_head r),
             Ring (put (queue r) (queue_head r) zero_delivery)
               ((queue_head r + 1) mod IPC_MAX_QUEUE_DEPTH) (queue_tail r) (queue_count r - 1)).

(** Is this delivery the request looked for? *)
Definition is_request (x : nat) (d : ipc_delivery_t) : bool :=
  negb (is_event d) && bool_decide (request d = Some x).

(** The inner loop of [endpoint_remove_request]: [n] entries after [index]
    move one place back; the answer is the queue and the last index. *)
Fixpoint shift_down (q : list ipc_delivery_t) (index : Z) (n : nat) : list ipc_delivery_t * Z :=
  match n with
  | O => (q, index)
  | S n =>
      let next := (index + 1) mod IPC_MAX_QUEUE_DEPTH in
      shift_down (put q index (get q next)) next n
  end.

(** The outer loop from [offset] on, with [n] entries left. *)
Fixpoint remove_from (found : ipc_delivery_t -> bool) (r : ring) (offset : Z) (n : nat) : ring :=
  match n with
  | O => r
  | S n =>
      let index := (queue_head r + offset) mod IPC_MAX_QUEUE_DEPTH in
      if negb (found (get (queue r) index)) then remove_from found r (offset + 1) n
      else
        let '(q, last) := shift_down (queue r) index n in
        Ring (put q last zero_delivery) (queue_head r)
          ((queue_tail r + IPC_MAX_QUEUE_DEPTH - 1) mod IPC_MAX_QUEUE_DEPTH) (queue_count r - 1)
  end.
Definition endpoint_remove_request (r : ring) (x : nat) : ring :=
  remove_from (is_request x) r 0 (Z.to_nat (queue_count r)).

(** The first loop of [endpoint_discard_events]: the deliveries retained, from
    [offset] on. *)
Fixpoint retain_from (r : ring) (offset : Z) (n : nat) (retained : list ipc_delivery_t)
    : list ipc_delivery_t :=
  match n with
  | O => retained
  | S n =>
      let d := get (queue r) ((queue_head r + offset) mod IPC_MAX_QUEUE_DEPTH) in
      retain_from r (offset + 1) n
        (if is_event d then retained
         else if Z.of_nat (length retained) <? IPC_MAX_QUEUE_DEPTH then retained ++ [d]
         else retained)
  end.
Definition endpoint_discard_events (r : ring) : ring :=
  let retained := retain_from r 0 (Z.to_nat (queue_count r)) [] in
  let count := Z.of_nat (length retained) in
  Ring (retained ++ replicate (8 - length retained) zero_delivery) 0
    (count mod IPC_MAX_QUEUE_DEPTH) count.

(** * The sequence a ring stands for *)

Definition entry (r : ring) (k : nat) : ipc_delivery_t :=
  get (queue r) ((queue_head r + Z.of_nat k) mod IPC_MAX_QUEUE_DEPTH).
Definition contents (r : ring) : list ipc_delivery_t :=
  map (entry r) (seq 0 (Z.to_nat (queue_count r))).

Record ring_ok (r : ring) : Prop := {
  ring_length : length (queue r) = 8%nat;
  ring_head : 0 <= queue_head r < 8;
  ring_count : 0 <= queue_count r <= 8;
  ring_tail : queue_tail r = (queue_head r + queue_count r) mod 8;
}.

(** The abstract operations on sequences. *)
Fixpoint remove_first (found : ipc_delivery_t -> bool) (l : list ipc_delivery_t)
    : list ipc_delivery_t :=
  match l with
  | [] => []
  | d :: l => if found d then l else d :: remove_first found l
  end.

(** A ring has one of 72 shapes, over eight arbitrary entries. *)
Lemma ring_cases (P : ring -> Prop) :
  (forall h c a0 a1 a2 a3 a4 a5 a6 a7, (h < 8)%nat -> (c < 9)%nat ->
     P (Ring [a0; a1; a2; a3; a4; a5; a6; a7] (Z.of_nat h)
          ((Z.of_nat h + Z.of_nat c) mod 8) (Z.of_nat c))) ->
  forall r, ring_ok r -> P r.
Proof.
  intros H [q h t c] [Hl Hh Hc Ht]. cbn in *. subst t.
  do 8 (destruct q as [|? q]; [done|]). destruct q; [|done].
  specialize (H (Z.to_nat h) (Z.to_nat c)). rewrite !Z2Nat.id in H by lia. apply H; lia.
Qed.

(** Replace a bounded number by each of its values. *)
Ltac each_value n :=
  destruct n as [|n]; [|first [exfalso; lia|each_value n]].

Ltac ring_by_cases :=
  intros r Hr; pattern r; revert r Hr; apply ring_cases; intros h c a0 a1 a2 a3 a4 a5 a6 a7 Hh Hc;
  each_value h; each_value c.

Lemma contents_length r : ring_ok r -> Z.of_nat (length (contents r)) = queue_count r.
Proof. intros [_ _ Hc _]. unfold contents. rewrite length_map, length_seq. lia. Qed.

Lemma enqueue_ok d : forall r, ring_ok r -> 
  match enqueue r d with
  | (true, r') => ring_ok r' /\ contents r' = contents r ++ [d] /\ queue_count r < 8
  | (false, r') => r' = r /\ queue_count r = 8
  end.
Proof. ring_by_cases; vm_compute; try done; (split; [constructor|]; done). Qed.

Lemma dequeue_ok : forall r, ring_ok r ->
  match endpoint_dequeue r with
  | Some (d, r') => ring_ok r' /\ contents r = d :: contents r'
  | None => contents r = []
  end.
Proof. ring_by_cases; vm_compute; try done; (split; [constructor|]; done). Qed.

Lemma remove_from_ok found : forall r, ring_ok r ->
  let r' := remove_from found r 0 (Z.to_nat (queue_count r)) in
  ring_ok r' /\ contents r' = remove_first found (contents r).
Proof.
  ring_by_cases; vm_compute;
    repeat match goal with |- context [match found ?a with _ => _ end] => destruct (found a) end;
    (split; [constructor|]; done).
Qed.

Lemma remove_first_filter found l :
  (forall d d', d ∈ l -> d' ∈ l -> found d = true -> found d' = true -> d = d') -> NoDup l ->
  remove_first found l = List.filter (fun d => negb (found d)) l.
Proof.
  intros Hu Hn. induction l as [|d l IH]; [done|]. cbn. apply NoDup_cons in Hn as [Hd Hn].
  destruct (found d) eqn:E; cbn [negb].
  - symmetry. apply forallb_filter_id. apply forallb_forall. intros x Hx%list_elem_of_In.
    destruct (found x) eqn:Ex; [|done].
    assert (x = d) by (apply Hu; try done; [by apply list_elem_of_further|apply list_elem_of_here]).
    by subst.
  - f_equal. apply IH; [|done]. intros a b Ha Hb. apply Hu; by apply list_elem_of_further.
Qed.

(** Kept deliveries: those that are not events. *)
Definition kept (l : list ipc_delivery_t) : list ipc_delivery_t :=
  List.filter (fun d => negb (is_event d)) l.

Lemma kept_length l : (length (kept l) <= length l)%nat.
Proof. apply filter_length_le. Qed.

Lemma retain_from_spec r offset n acc :
  (length acc + n <= 8)%nat ->
  retain_from r (Z.of_nat offset) n acc = acc ++ kept (map (entry r) (seq offset n)).
Proof.
  revert offset acc. induction n as [|n IH]; intros offset acc Hl; cbn [retain_from seq map kept].
  { symmetry. apply app_nil_r. }
  replace (Z.of_nat offset + 1) with (Z.of_nat (S offset)) by lia. fold (entry r offset).
  unfold IPC_MAX_QUEUE_DEPTH. unfold kept. cbn [List.filter]. fold (entry r offset).
  change (get (queue r) ((queue_head r + Z.of_nat offset) mod 8)) with (entry r offset).
  destruct (is_event (entry r offset)); cbn [negb].
  - by rewrite IH by lia.
  - replace (Z.of_nat (length acc) <? 8) with true by lia.
    rewrite IH by (rewrite length_app; cbn; lia). by rewrite <- app_assoc.
Qed.

Lemma contents_linear l t :
  (length l <= 8)%nat ->
  contents (Ring (l ++ replicate (8 - length l) zero_delivery) 0 t (Z.of_nat (length l))) = l.
Proof.
  intros Hl. do 9 (destruct l as [|? l]; [reflexivity|]). cbn in Hl. lia.
Qed.

Lemma discard_ok r :
  ring_ok r -> ring_ok (endpoint_discard_events r) /\
  contents (endpoint_discard_events r) = kept (contents r).
Proof.
  intros Hr. unfold endpoint_discard_events.
  assert (Hc : Z.of_nat (Z.to_nat (queue_count r)) = queue_count r) by (destruct Hr; lia).
  rewrite (retain_from_spec r 0) by (cbn; destruct Hr; lia). cbn [app].
  fold (contents r). pose proof (kept_length (contents r)) as Hk.
  pose proof (contents_length r Hr) as Hlen. destruct Hr as [_ _ Hcnt _].
  split; [|apply contents_linear; lia]. constructor; cbn [queue queue_head queue_tail queue_count].
  - rewrite length_app, length_replicate. lia.
  - lia.
  - lia.
  - done.
Qed.

(** * Theorem *)

(** The endpoint queue is a bounded FIFO.  Whatever its position in the
    array, a ring stands for a sequence of at most eight deliveries on which
    enqueueing appends (and fails exactly when there are eight), dequeueing
    takes the oldest, removing a request takes out exactly its first
    occurrence keeping the order of the rest, and discarding events keeps
    exactly the requests, in order. *)
Theorem endpoint_queue_is_bounded_fifo (r : ring) (x : nat) (e : mg_event_t) :
  ring_ok r ->
  (length (contents r) <= 8)%nat /\
  (forall d enq, enq = endpoint_enqueue_request r x /\ d = Delivery false (Some x) zero_event \/
                 enq = endpoint_enqueue_event r e /\ d = Delivery true None e ->
   if decide (length (contents r) = 8%nat) then enq = (false, r)
   else exists r', enq = (true, r') /\ ring_ok r' /\ contents r' = contents r ++ [d]) /\
  match endpoint_dequeue r with
  | Some (d, r') => ring_ok r' /\ contents r = d :: contents r'
  | None => contents r = []
  end /\
  (ring_ok (endpoint_remove_request r x) /\
   contents (endpoint_remove_request r x) = remove_first (is_request x) (contents r)) /\
  (ring_ok (endpoint_discard_events r) /\
   contents (endpoint_discard_events r) = kept (contents r)).
Proof.
  intros Hr. pose proof (contents_length r Hr) as Hl.
  split; [destruct Hr; lia|]. split; [|split; [by apply dequeue_ok|split]].
  - intros d enq He.
    assert (enq = enqueue r d) as -> by (destruct He as [[-> ->]|[-> ->]]; done).
    pose proof (enqueue_ok d r Hr) as H. destruct (enqueue r d) as [[] r'].
    + destruct H as (H1 & H2 & H3). rewrite decide_False by lia. by exists r'.
    + destruct H as [-> H]. by rewrite decide_True by lia.
  - by apply remove_from_ok.
  - by apply discard_ok.
Qed.

Lemma empty_ring_ok : ring_ok empty_ring.
Proof. constructor; done. Qed.

Lemma endpoint_queue_is_bounded_fifo_witness :
  ring_ok (endpoint_remove_request empty_ring 3) /\
  exists r', endpoint_enqueue_request empty_ring 3 = (true, r') /\ ring_ok r' /\
    contents r' = contents empty_ring ++ [Delivery false (Some 3%nat) zero_event].
Proof.
  destruct (endpoint_queue_is_bounded_fifo empty_ring 3 zero_event empty_ring_ok)
    as (_ & H1 & _ & [H2 _] & _).
  split; [exact H2|]. exact (H1 (Delivery false (Some 3%nat) zero_event)
    (endpoint_enqueue_request empty_ring 3) (or_introl (conj eq_refl eq_refl))).
Defined.

End IpcQueue.
