(* ===== verification/Ipc.v ===== *)
(** IPC ([kernel/src/ipc.c]): named service endpoints, the pool of requests and
    their life cycle, and event subscriptions.

    Every critical section under [ipc_lock] is one definition on the state
    [ipc], so that operations interleave only where the code releases the
    lock; the whole functions are compositions of these sections.  What the code
    obtains from the handle table, the allocator and the scheduler is an
    argument: the object a handle designates (zero for [NULL]), the address or
    handle obtained, whether a thread is blocked and whether waking it
    succeeds. *)
From stdpp Require Import gmap.
From S2P Require Import Prelude CString NetConfig IpcQueue.
Import CString NetConfig IpcQueue.

Module Ipc.

Definition MG_OK : Z := 0.
Definition MG_ERR_INVALID_HANDLE : Z := -3.
Definition MG_ERR_BAD_ARGUMENT : Z := -4.
Definition MG_ERR_NO_MEMORY : Z := -6.
Definition MG_ERR_ACCESS_DENIED : Z := -8.
Definition MG_ERR_ALREADY_EXISTS : Z := -9.
Definition MG_ERR_BUSY : Z := -14.
Definition MG_ERR_TIMEOUT : Z := -18.
Definition MG_ERR_WOULD_BLOCK : Z := -21.
Definition MG_ERR_PRIVILEGE_REQUIRED : Z := -25.
Definition MG_ERR_SERVICE_UNAVAILABLE : Z := -27.
Definition MG_ERR_QUEUE_FULL : Z := -28.
Definition MG_ERR_PROTOCOL : Z := -29.

Definition IPC_MAX_ENDPOINTS : Z := 8.
Definition IPC_MAX_REQUESTS : nat := 32.
Definition MG_IPC_PROTOCOL_VERSION : Z := 1.
Definition MG_IPC_SERVICE_NAME_MAX : nat := 32.
Definition MG_IPC_MESSAGE_PAYLOAD_MAX : Z := 1008.

(** A message; [payload_length] is the length of [m_payload]. *)
Record mg_ipc_message_t := Message {
  m_version : Z; m_type : Z; m_request_id : Z; m_payload : list Z;
}.

Record process_credentials_t := Credentials { uid : Z; role : Z; service_privileges : Z }.

(** What the kernel knows of a process. *)
Record process_info := Info {
  pid : Z; session_id : Z; p_service_id : Z; system_service : bool; p_name : list Z;
  p_credentials : process_credentials_t;
}.

Inductive ipc_request_state_t :=
  | IPC_REQUEST_FREE | IPC_REQUEST_PENDING | IPC_REQUEST_DELIVERED | IPC_REQUEST_REPLIED
  | IPC_REQUEST_FAILED.
#[export] Instance request_state_eq_dec : EqDecision ipc_request_state_t.
Proof. solve_decision. Defined.

(** Processes, threads and endpoints are known by their addresses, zero for
    [NULL]. *)
Record ipc_request := Request {
  allocated : bool;
  id : Z;
  rstate : ipc_request_state_t;
  r_endpoint : Z;
  client_process : Z;
  client_thread : Z;
  client_active : bool;
  client_blocked : bool;
  context_live : bool;
  authorization_claimed : bool;
  requester : process_info;
  request_type : Z;
  request_payload : list Z;
  reply_type : Z;
  reply_payload : list Z;
}.

Definition no_info : process_info := Info 0 0 0 false [] (Credentials 0 0 0).
Definition zero_request : ipc_request :=
  Request false 0 IPC_REQUEST_FREE 0 0 0 false false false false no_info 0 [] 0 [].

Record ipc_endpoint := Endpoint {
  name : list Z;
  owner : Z;
  service_id : Z;
  live : bool;
  deliveries : ring;
  event_classes : Z;
  event_overflow : bool;
  receiver_waiter : Z;
}.

(** [contexts] are the [ipc_request_object_t] objects: the request and the
    owner of each; [outstanding] is each process's [ipc_outstanding]. *)
Record ipc := Ipc {
  endpoints : gmap Z ipc_endpoint;
  endpoint_list : list Z;
  request_pool : list ipc_request;
  contexts : gmap Z (nat * Z);
  outstanding : gmap Z nat;
  endpoint_count : Z;
  next_request_id : Z;
}.

Definition ipc_init : ipc := Ipc ∅ [] (replicate IPC_MAX_REQUESTS zero_request) ∅ ∅ 0 1.

(** ** Field updates *)

Definition set_endpoints (st : ipc) (m : gmap Z ipc_endpoint) : ipc :=
  Ipc m (endpoint_list st) (request_pool st) (contexts st) (outstanding st) (endpoint_count st)
    (next_request_id st).
Definition set_endpoint (st : ipc) (e : Z) (ep : ipc_endpoint) : ipc :=
  set_endpoints st (<[e := ep]> (endpoints st)).
Definition set_list (st : ipc) (l : list Z) (count : Z) : ipc :=
  Ipc (endpoints st) l (request_pool st) (contexts st) (outstanding st) count
    (next_request_id st).
Definition set_request (st : ipc) (r : nat) (q : ipc_request) : ipc :=
  Ipc (endpoints st) (endpoint_list st) (<[r := q]> (request_pool st)) (contexts st)
    (outstanding st) (endpoint_count st) (next_request_id st).
Definition set_contexts (st : ipc) (m : gmap Z (nat * Z)) : ipc :=
  Ipc (endpoints st) (endpoint_list st) (request_pool st) m (outstanding st) (endpoint_count st)
    (next_request_id st).
Definition set_outstanding (st : ipc) (m : gmap Z nat) : ipc :=
  Ipc (endpoints st) (endpoint_list st) (request_pool st) (contexts st) m (endpoint_count st)
    (next_request_id st).
Definition set_next_id (st : ipc) (n : Z) : ipc :=
  Ipc (endpoints st) (endpoint_list st) (request_pool st) (contexts st) (outstanding st)
    (endpoint_count st) n.

Definition with_deliveries (ep : ipc_endpoint) (d : ring) : ipc_endpoint :=
  Endpoint (name ep) (owner ep) (service_id ep) (live ep) d (event_classes ep)
    (event_overflow ep) (receiver_waiter ep).
Definition with_waiter (ep : ipc_endpoint) (t : Z) : ipc_endpoint :=
  Endpoint (name ep) (owner ep) (service_id ep) (live ep) (deliveries ep) (event_classes ep)
    (event_overflow ep) t.
Definition with_overflow (ep : ipc_endpoint) (b : bool) : ipc_endpoint :=
  Endpoint (name ep) (owner ep) (service_id ep) (live ep) (deliveries ep) (event_classes ep)
    b (receiver_waiter ep).
Definition with_classes (ep : ipc_endpoint) (c : Z) : ipc_endpoint :=
  Endpoint (name ep) (owner ep) (service_id ep) (live ep) (deliveries ep) c
    (event_overflow ep) (receiver_waiter ep).
Definition dead (ep : ipc_endpoint) : ipc_endpoint :=
  Endpoint (name ep) (owner ep) (service_id ep) false (deliveries ep) (event_classes ep)
    (event_overflow ep) 0.

Definition with_state (q : ipc_request) (s : ipc_request_state_t) : ipc_request :=
  Request (allocated q) (id q) s (r_endpoint q) (client_process q) (client_thread q)
    (client_active q) (client_blocked q) (context_live q) (authorization_claimed q)
    (requester q) (request_type q) (request_payload q) (reply_type q) (reply_payload q).
Definition with_endpoint (q : ipc_request) (e : Z) : ipc_request :=
  Request (allocated q) (id q) (rstate q) e (client_process q) (client_thread q)
    (client_active q) (client_blocked q) (context_live q) (authorization_claimed q)
    (requester q) (request_type q) (request_payload q) (reply_type q) (reply_payload q).
Definition with_client (q : ipc_request) (process thread : Z) (act blocked : bool) : ipc_request :=
  Request (allocated q) (id q) (rstate q) (r_endpoint q) process thread
    act blocked (context_live q) (authorization_claimed q)
    (requester q) (request_type q) (request_payload q) (reply_type q) (reply_payload q).
Definition with_context (q : ipc_request) (b : bool) : ipc_request :=
  Request (allocated q) (id q) (rstate q) (r_endpoint q) (client_process q) (client_thread q)
    (client_active q) (client_blocked q) b (authorization_claimed q)
    (requester q) (request_type q) (request_payload q) (reply_type q) (reply_payload q).
Definition with_claim (q : ipc_request) : ipc_request :=
  Request (allocated q) (id q) (rstate q) (r_endpoint q) (client_process q) (client_thread q)
    (client_active q) (client_blocked q) (context_live q) true
    (requester q) (request_type q) (request_payload q) (reply_type q) (reply_payload q).
Definition with_reply (q : ipc_request) (type : Z) (payload : list Z) : ipc_request :=
  Request (allocated q) (id q) IPC_REQUEST_REPLIED (r_endpoint q) (client_process q)
    (client_thread q) (client_active q) (client_blocked q) (context_live q)
    (authorization_claimed q) (requester q) (request_type q) (request_payload q) type payload.

(** * Validation *)

Definition name_char (c : Z) : bool :=
  ((97 <=? c) && (c <=? 122)) || ((48 <=? c) && (c <=? 57)) || (c =? 95) || (c =? 45).
(** The scan of [ipc_name_valid]; [None] is [NULL]. *)
Definition ipc_name_valid (n : option (list Z)) : bool :=
  match n with
  | None | Some [] => false
  | Some (c :: rest) =>
      (97 <=? c) && (c <=? 122) &&
      forallb name_char (take (MG_IPC_SERVICE_NAME_MAX - 1) rest) &&
      (length (c :: rest) <? MG_IPC_SERVICE_NAME_MAX)%nat
  end.

Definition ipc_message_validate (message : option mg_ipc_message_t) : Z :=
  match message with
  | None => MG_ERR_BAD_ARGUMENT
  | Some m =>
      if (m_type m =? 0) || (MG_IPC_MESSAGE_PAYLOAD_MAX <? Z.of_nat (length (m_payload m)))
      then MG_ERR_BAD_ARGUMENT
      else if negb (m_version m =? MG_IPC_PROTOCOL_VERSION) then MG_ERR_PROTOCOL
      else MG_OK
  end.

(** * Identities and services *)

Definition MG_UID_SYSTEM : Z := 0.
Definition MG_IDENTITY_ROLE_REGULAR : Z := 0.
Definition MG_IDENTITY_ROLE_ADMIN : Z := 1.
Definition MG_IDENTITY_ROLE_SYSTEM : Z := 2.
Definition IDENTITY_PRIVILEGE_MANAGE_USERS : Z := 1.
Definition IDENTITY_PRIVILEGE_MANAGE_NETWORK : Z := 2.
Definition IDENTITY_PRIVILEGE_MANAGE_SESSIONS : Z := 3.
Definition IDENTITY_PRIVILEGE_MANAGE_CONFIGURATION : Z := 4.
Definition IDENTITY_PRIVILEGE_MANAGE_SERVICES : Z := 5.
Definition IDENTITY_PRIVILEGE_MANAGE_DEVICES : Z := 6.
Definition IDENTITY_PRIVILEGE_MANAGE_STORAGE : Z := 7.
Definition IDENTITY_PRIVILEGE_MANAGE_USER_DATA : Z := 8.
Definition IDENTITY_PRIVILEGE_MASK (privilege : Z) : Z := Z.shiftl 1 (privilege - 1).
Definition IDENTITY_SERVICE_PRIVILEGES_KNOWN : Z :=
  foldr Z.lor 0 (map IDENTITY_PRIVILEGE_MASK
    [IDENTITY_PRIVILEGE_MANAGE_SESSIONS; IDENTITY_PRIVILEGE_MANAGE_SERVICES;
     IDENTITY_PRIVILEGE_MANAGE_NETWORK; IDENTITY_PRIVILEGE_MANAGE_CONFIGURATION;
     IDENTITY_PRIVILEGE_MANAGE_DEVICES; IDENTITY_PRIVILEGE_MANAGE_STORAGE]).

Definition identity_credentials_valid (c : process_credentials_t) : bool :=
  if negb (Z.land (service_privileges c) (u32 (Z.lnot IDENTITY_SERVICE_PRIVILEGES_KNOWN)) =? 0)
  then false
  else if uid c =? MG_UID_SYSTEM then role c =? MG_IDENTITY_ROLE_SYSTEM
  else ((role c =? MG_IDENTITY_ROLE_REGULAR) || (role c =? MG_IDENTITY_ROLE_ADMIN)) &&
       (service_privileges c =? 0).

Definition identity_credentials_is_system (c : process_credentials_t) : bool :=
  uid c =? MG_UID_SYSTEM.

(** [registry u] is the role [identity_registry_lookup_uid] finds for [u]. *)
Definition identity_credentials_has_privilege (registry : Z -> option Z)
    (c : process_credentials_t) (privilege : Z) : bool :=
  if (privilege <? IDENTITY_PRIVILEGE_MANAGE_USERS) ||
     (IDENTITY_PRIVILEGE_MANAGE_USER_DATA <? privilege) ||
     negb (identity_credentials_valid c) then false
  else if negb (Z.land (service_privileges c) (IDENTITY_PRIVILEGE_MASK privilege) =? 0) then true
  else if (privilege =? IDENTITY_PRIVILEGE_MANAGE_SESSIONS) || identity_credentials_is_system c
  then false
  else match registry (uid c) with
       | None => false
       | Some live_role => live_role =? MG_IDENTITY_ROLE_ADMIN
       end.

Definition MG_SERVICE_SESSIOND : Z := 1.
Definition MG_SERVICE_SPROUT : Z := 2.
Definition MG_SERVICE_NETWORKD : Z := 3.
Definition MG_SERVICE_DEVICED : Z := 4.
Definition MG_SERVICE_LOGIND : Z := 5.
Definition MG_SERVICE_LOGD : Z := 6.
Definition MG_SERVICE_VOLUMED : Z := 7.

Record kernel_service_definition_t := Service {
  s_id : Z; s_name : list Z; s_path : list Z; s_privileges : Z; s_endpoint : option (list Z);
}.
Definition service_definitions : list kernel_service_definition_t :=
  [Service MG_SERVICE_SPROUT (str "sprout") (str "/core/sprout")
     (IDENTITY_PRIVILEGE_MASK IDENTITY_PRIVILEGE_MANAGE_SERVICES) (Some (str "sprout"));
   Service MG_SERVICE_SESSIOND (str "sessiond") (str "/core/sessiond")
     (IDENTITY_PRIVILEGE_MASK IDENTITY_PRIVILEGE_MANAGE_SESSIONS) (Some (str "session"));
   Service MG_SERVICE_LOGIND (str "logind") (str "/core/logind")
     (IDENTITY_PRIVILEGE_MASK IDENTITY_PRIVILEGE_MANAGE_SESSIONS) None;
   Service MG_SERVICE_NETWORKD (str "networkd") (str "/core/networkd")
     (Z.lor (IDENTITY_PRIVILEGE_MASK IDENTITY_PRIVILEGE_MANAGE_NETWORK)
            (IDENTITY_PRIVILEGE_MASK IDENTITY_PRIVILEGE_MANAGE_CONFIGURATION))
     (Some (str "network"));
   Service MG_SERVICE_DEVICED (str "deviced") (str "/core/deviced")
     (IDENTITY_PRIVILEGE_MASK IDENTITY_PRIVILEGE_MANAGE_DEVICES) (Some (str "device"));
   Service MG_SERVICE_VOLUMED (str "volumed") (str "/core/volumed")
     (Z.lor (IDENTITY_PRIVILEGE_MASK IDENTITY_PRIVILEGE_MANAGE_DEVICES)
            (IDENTITY_PRIVILEGE_MASK IDENTITY_PRIVILEGE_MANAGE_STORAGE))
     (Some (str "volume"));
   Service MG_SERVICE_LOGD (str "logd") (str "/core/logd") 0 (Some (str "log"))].

Definition service_definition_lookup (service : Z) : option kernel_service_definition_t :=
  snd <$> list_find (fun d => s_id d = service) service_definitions.

Definition endpoint_allowed_for_process (who : process_info) (n : list Z) : bool :=
  system_service who &&
  match service_definition_lookup (p_service_id who) with
  | Some d => bool_decide (s_endpoint d = Some n)
  | None => false
  end.

(** * Requests *)

Definition request_allocate_locked (st : ipc) : option (nat * ipc) :=
  match list_find (fun q => allocated q = false) (request_pool st) with
  | None => None
  | Some (r, _) =>
      Some (r, set_request st r
        (Request true 0 IPC_REQUEST_PENDING 0 0 0 false false false false no_info 0 [] 0 []))
  end.

(** A pointer to a request is its index; the pool is static, so that reading
    through it never faults. *)
Definition req (st : ipc) (r : nat) : ipc_request := default zero_request (request_pool st !! r).

Definition request_free (st : ipc) (r : nat) : ipc :=
  if negb (allocated (req st r)) then st else set_request st r zero_request.

Definition request_maybe_free (st : ipc) (r : nat) : ipc :=
  let q := req st r in
  if negb (allocated q) || client_active q || context_live q then st else request_free st r.

Section Scheduler.
(** [blocked t]: thread [t] is in [THREAD_STATE_BLOCKED];
    [unblock t]: the answer of [scheduler_unblock]. *)
Variables blocked unblock : Z -> bool.

Definition request_wake_client (st : ipc) (r : nat) : ipc :=
  let q := req st r in
  if negb (client_active q) || negb (client_blocked q) || (client_thread q =? 0) then st
  else if blocked (client_thread q) && negb (unblock (client_thread q)) then st
  else set_request st r (with_client q (client_process q) 0 (client_active q) false).

Definition request_fail (st : ipc) (r : nat) : ipc :=
  let q := req st r in
  if negb (allocated q) || bool_decide (rstate q = IPC_REQUEST_REPLIED) ||
     bool_decide (rstate q = IPC_REQUEST_FAILED) then st
  else
    let st := set_request st r (with_state q IPC_REQUEST_FAILED) in
    request_maybe_free (request_wake_client st r) r.

(** The destructor of a request context, run when its last handle goes. *)
Definition request_context_destroy (st : ipc) (c : Z) : ipc :=
  match contexts st !! c with
  | None => st
  | Some (r, _) =>
      let st := set_contexts st (delete c (contexts st)) in
      let q := req st r in
      if negb (allocated q) then st
      else
        let st := set_request st r (with_context q false) in
        let st := if bool_decide (rstate q = IPC_REQUEST_PENDING) ||
                     bool_decide (rstate q = IPC_REQUEST_DELIVERED)
                  then request_fail st r else st in
        request_maybe_free st r
  end.

(** * Endpoints *)

Fixpoint find_in (m : gmap Z ipc_endpoint) (l : list Z) (n : list Z) : option Z :=
  match l with
  | [] => None
  | e :: l =>
      match m !! e with
      | Some ep => if live ep && bool_decide (name ep = n) then Some e else find_in m l n
      | None => None
      end
  end.
Definition endpoint_find (st : ipc) (n : list Z) : option Z :=
  find_in (endpoints st) (endpoint_list st) n.

(** The loop over the pool in [endpoint_unregister_locked], from [r] on. *)
Fixpoint fail_requests (st : ipc) (e : Z) (r n : nat) : ipc :=
  match n with
  | O => st
  | S n =>
      let q := req st r in
      let st := if allocated q && (r_endpoint q =? e)
                then request_fail (set_request st r (with_endpoint q 0)) r else st in
      fail_requests st e (S r) n
  end.

(** Taking an endpoint out of the linked list. *)
Fixpoint unlink (e : Z) (l : list Z) : list Z :=
  match l with
  | [] => []
  | x :: l => if x =? e then l else x :: unlink e l
  end.

Definition endpoint_unregister_locked (st : ipc) (e : Z) : ipc :=
  match endpoints st !! e with
  | None => st
  | Some ep =>
      if negb (live ep) then st
      else
        let st := set_endpoint st e (dead ep) in
        let st := set_list st (unlink e (endpoint_list st))
                    (if endpoint_count st =? 0 then 0 else endpoint_count st - 1) in
        fail_requests st e 0 (length (request_pool st))
  end.

(** [e] is the address [kmalloc] gives (zero on failure) and [handle] the
    handle [process_handle_install] gives. *)
Definition ipc_service_register (st : ipc) (process : Z) (who : process_info)
    (n : list Z) (e : Z) (handle : option Z) : Z * ipc :=
  if (process =? 0) || negb (ipc_name_valid (Some n)) then (MG_ERR_BAD_ARGUMENT, st)
  else if negb (endpoint_allowed_for_process who n) then (MG_ERR_PRIVILEGE_REQUIRED, st)
  else if e =? 0 then (MG_ERR_NO_MEMORY, st)
  else
    let ep := Endpoint n process (p_service_id who) true empty_ring 0 false 0 in
    match endpoint_find st n with
    | Some _ => (MG_ERR_ALREADY_EXISTS, st)
    | None =>
        if IPC_MAX_ENDPOINTS <=? endpoint_count st then (MG_ERR_NO_MEMORY, st)
        else
          let st := set_list (set_endpoint st e ep) (e :: endpoint_list st)
                      (endpoint_count st + 1) in
          match handle with
          | None => (MG_ERR_NO_MEMORY, endpoint_unregister_locked st e)
          | Some _ => (MG_OK, st)
          end
    end.

Definition ipc_service_lookup (st : ipc) (process : Z) (n : list Z) (handle : option Z)
    : Z * option Z :=
  if (process =? 0) || negb (ipc_name_valid (Some n)) then (MG_ERR_BAD_ARGUMENT, None)
  else
    match endpoint_find st n with
    | None => (MG_ERR_SERVICE_UNAVAILABLE, None)
    | Some e => match handle with
                | None => (MG_ERR_NO_MEMORY, None)
                | Some _ => (MG_OK, Some e)
                end
    end.

(** * The client side *)

(** [next_request_id++], skipping zero. *)
Definition take_id (st : ipc) : Z * ipc :=
  let i := next_request_id st in
  let st := set_next_id st (u64 (i + 1)) in
  if i =? 0 then (next_request_id st, set_next_id st (u64 (next_request_id st + 1)))
  else (i, st).

(** Waking the endpoint's receiver. *)
Definition wake_receiver (ep : ipc_endpoint) : ipc_endpoint :=
  let waiter := receiver_waiter ep in
  if negb (waiter =? 0) && negb (unblock waiter) then ep else with_waiter ep 0.

(** The first critical section of [ipc_kernel_request]: the request is checked,
    stored and queued.  The answer is the request's index or the error. *)
Definition submit (st : ipc) (process thread : Z) (who : process_info) (e : Z)
    (message : mg_ipc_message_t) : (Z + nat) * ipc :=
  match endpoints st !! e with
  | None => (inl MG_ERR_INVALID_HANDLE, st)
  | Some ep =>
      if bool_decide (is_Some (outstanding st !! process)) then (inl MG_ERR_BUSY, st)
      else if negb (live ep) then (inl MG_ERR_SERVICE_UNAVAILABLE, st)
      else if IPC_MAX_QUEUE_DEPTH <=? queue_count (deliveries ep)
      then (inl MG_ERR_QUEUE_FULL, st)
      else
        match request_allocate_locked st with
        | None => (inl MG_ERR_NO_MEMORY, st)
        | Some (r, st) =>
            let st := set_outstanding st (<[process := r]> (outstanding st)) in
            let '(i, st) := take_id st in
            let st := set_request st r
              (Request true i IPC_REQUEST_PENDING e process thread true false false false
                 (Info (pid who) (session_id who) (p_service_id who) (system_service who)
                    (take 31 (p_name who)) (p_credentials who))
                 (m_type message) (m_payload message) 0 []) in
            let '(ok, d) := endpoint_enqueue_request (deliveries ep) r in
            if ok then
              (inr r, set_endpoint st e (wake_receiver (with_deliveries ep d)))
            else
              let st := set_outstanding st (delete process (outstanding st)) in
              let st := set_request st r (with_client (req st r) 0 0 false false) in
              (inl MG_ERR_QUEUE_FULL, request_free st r)
        end
  end.

(** [ipc_kernel_request] up to the wait; [e] is the object of the endpoint
    handle and [credentials] the answer of [process_get_credentials]. *)
Definition ipc_kernel_request (st : ipc) (process thread : Z) (who : process_info)
    (credentials : option process_credentials_t) (e : Z) (message : option mg_ipc_message_t)
    : (Z + nat) * ipc :=
  if process =? 0 then (inl MG_ERR_BAD_ARGUMENT, st)
  else
    let result := ipc_message_validate message in
    match message with
    | None => (inl MG_ERR_BAD_ARGUMENT, st)
    | Some m =>
        if negb (result =? MG_OK) then (inl result, st)
        else if e =? 0 then (inl MG_ERR_INVALID_HANDLE, st)
        else
          match credentials with
          | None => (inl MG_ERR_ACCESS_DENIED, st)
          | Some cr =>
              submit st process thread
                (Info (pid who) (session_id who) (p_service_id who) (system_service who)
                   (p_name who) cr) e m
          end
    end.

(** The end of the client's wait, common to both ways out of the loop. *)
Definition client_leaves (st : ipc) (process : Z) (r : nat) : ipc :=
  let st := set_request st r (with_client (req st r) 0 0 false false) in
  let st := if bool_decide (outstanding st !! process = Some r)
            then set_outstanding st (delete process (outstanding st)) else st in
  request_maybe_free st r.

(** What the client gets: still waiting, a reply or an error. *)
Inductive wait_result :=
  | Waiting
  | Replied (reply : mg_ipc_message_t)
  | Failed (error : Z).

(** One turn of the wait loop: collect the outcome or go to sleep. *)
Definition collect (st : ipc) (process : Z) (r : nat) : wait_result * ipc :=
  let q := req st r in
  match rstate q with
  | IPC_REQUEST_PENDING | IPC_REQUEST_DELIVERED =>
      (Waiting, set_request st r (with_client q (client_process q) (client_thread q)
                                    (client_active q) true))
  | IPC_REQUEST_REPLIED =>
      (Replied (Message MG_IPC_PROTOCOL_VERSION (reply_type q) (id q) (reply_payload q)),
       client_leaves st process r)
  | _ => (Failed MG_ERR_SERVICE_UNAVAILABLE, client_leaves st process r)
  end.

(** When [scheduler_block] fails. *)
Definition block_failed (st : ipc) (process : Z) (r : nat) : wait_result * ipc :=
  let q := req st r in
  let st := set_request st r (with_client q (client_process q) (client_thread q)
                                (client_active q) false) in
  let st := request_fail st r in
  (Failed MG_ERR_BUSY, client_leaves st process r).

(** * The service side *)

(** One turn of the receive loop. *)
Inductive take_result :=
  | Took (d : ipc_delivery_t)
  | Overflowed
  | Take_error (error : Z)
  | Sleep.

(** [timing] is the current time and the deadline of a timed receive. *)
Definition receive_take (st : ipc) (e self : Z) (wait : bool) (timing : option (Z * Z))
    : take_result * ipc :=
  match endpoints st !! e with
  | None => (Take_error MG_ERR_INVALID_HANDLE, st)
  | Some ep =>
      if negb (live ep) then (Take_error MG_ERR_SERVICE_UNAVAILABLE, st)
      else if event_overflow ep && (queue_count (deliveries ep) =? 0)
      then (Overflowed, set_endpoint st e (with_overflow ep false))
      else
        match endpoint_dequeue (deliveries ep) with
        | Some (d, q) => (Took d, set_endpoint st e (with_deliveries ep q))
        | None =>
            if negb wait then (Take_error MG_ERR_WOULD_BLOCK, st)
            else if negb (receiver_waiter ep =? 0) && negb (receiver_waiter ep =? self)
            then (Take_error MG_ERR_BUSY, st)
            else
              match timing with
              | Some (now, deadline) =>
                  if deadline <=? now
                  then (Take_error MG_ERR_TIMEOUT, set_endpoint st e (with_waiter ep 0))
                  else (Sleep, set_endpoint st e (with_waiter ep self))
              | None => (Sleep, set_endpoint st e (with_waiter ep self))
              end
        end
  end.

(** The deadline of a timed receive that starts at [now], saturating; [None]
    when the timeout is zero. *)
Definition receive_deadline (now timeout_ms : Z) : option Z :=
  if timeout_ms =? 0 then None
  else Some (if U64_MAX - timeout_ms <? now then U64_MAX else now + timeout_ms).

(** When the sleep of the receive loop fails. *)
Definition receive_sleep_failed (st : ipc) (e self : Z) : Z * ipc :=
  match endpoints st !! e with
  | Some ep => (MG_ERR_BUSY, if receiver_waiter ep =? self
                             then set_endpoint st e (with_waiter ep 0) else st)
  | None => (MG_ERR_BUSY, st)
  end.

(** What a receiver gets. *)
Inductive received :=
  | Got_request (message : mg_ipc_message_t) (from : process_info) (context : Z)
  | Got_event (e : mg_event_t)
  | Got_overflow (e : mg_event_t)
  | Got_error (error : Z).

Definition MG_EVENT_PROTOCOL_VERSION : Z := 1.
Definition MG_EVENT_QUEUE_OVERFLOW : Z := 11.
Definition MG_EVENT_FLAG_OVERFLOW : Z := 1.

Definition receive_overflow (st : ipc) (e : Z) : received * ipc :=
  let classes := match endpoints st !! e with Some ep => event_classes ep | None => 0 end in
  (Got_overflow (Event MG_EVENT_PROTOCOL_VERSION MG_EVENT_QUEUE_OVERFLOW classes
                   MG_EVENT_FLAG_OVERFLOW (next_request_id st) 0 []),
   set_next_id st (u64 (next_request_id st + 1))).

(** The section that marks a dequeued request as delivered. *)
Definition receive_mark (st : ipc) (r : nat) : option ipc :=
  let q := req st r in
  if negb (allocated q) || negb (bool_decide (rstate q = IPC_REQUEST_PENDING)) then None
  else Some (set_request st r (with_state q IPC_REQUEST_DELIVERED)).

(** The context object at [c] (zero when [kmalloc] fails). *)
Definition receive_context (st : ipc) (process : Z) (r : nat) (c : Z) : option Z * ipc :=
  if c =? 0 then (Some MG_ERR_NO_MEMORY, request_fail st r)
  else
    let q := req st r in
    if negb (allocated q) || negb (bool_decide (rstate q = IPC_REQUEST_DELIVERED))
    then (Some MG_ERR_SERVICE_UNAVAILABLE, st)
    else (None, set_contexts (set_request st r (with_context q true))
                  (<[c := (r, process)]> (contexts st))).

(** When no handle can be installed for the context: one section, then the
    release of the context. *)
Definition receive_install_failed (st : ipc) (r : nat) : ipc :=
  request_fail (set_request st r (with_context (req st r) false)) r.

Definition request_fill_received (q : ipc_request) (context : Z) : received :=
  Got_request (Message MG_IPC_PROTOCOL_VERSION (request_type q) (id q) (request_payload q))
    (requester q) context.

(** The delivery of a dequeued entry, without interruption; [c] is the address
    of the context and [handle] the handle installed. *)
Definition deliver (st : ipc) (process : Z) (d : ipc_delivery_t) (c : Z) (handle : option Z)
    : received * ipc :=
  if is_event d then (Got_event (event d), st)
  else
    match request d with
    | None => (Got_error MG_ERR_SERVICE_UNAVAILABLE, st)
    | Some r =>
        match receive_mark st r with
        | None => (Got_error MG_ERR_SERVICE_UNAVAILABLE, st)
        | Some st =>
            match receive_context st process r c with
            | (Some error, st) => (Got_error error, st)
            | (None, st) =>
                match handle with
                | None => (Got_error MG_ERR_NO_MEMORY,
                           request_context_destroy (receive_install_failed st r) c)
                | Some _ => (request_fill_received (req st r) c, st)
                end
            end
        end
    end.

(** [ipc_kernel_try_receive]: [e] is the object of the endpoint handle. *)
Definition ipc_kernel_try_receive (st : ipc) (process e self : Z) (c : Z) (handle : option Z)
    : received * ipc :=
  if process =? 0 then (Got_error MG_ERR_BAD_ARGUMENT, st)
  else
    match endpoints st !! e with
    | None => (Got_error MG_ERR_INVALID_HANDLE, st)
    | Some ep =>
        if negb (owner ep =? process) then (Got_error MG_ERR_ACCESS_DENIED, st)
        else if self =? 0 then (Got_error MG_ERR_BUSY, st)
        else
          match receive_take st e self false None with
          | (Took d, st) => deliver st process d c handle
          | (Overflowed, st) => receive_overflow st e
          | (Take_error error, st) => (Got_error error, st)
          | (Sleep, st) => (Got_error MG_ERR_WOULD_BLOCK, st)
          end
    end.

(** [c] is the object of the request handle. *)
Definition ipc_kernel_reply (st : ipc) (process c : Z) (message : option mg_ipc_message_t)
    : Z * ipc :=
  if process =? 0 then (MG_ERR_BAD_ARGUMENT, st)
  else
    let result := ipc_message_validate message in
    match message with
    | None => (MG_ERR_BAD_ARGUMENT, st)
    | Some m =>
        if negb (result =? MG_OK) then (result, st)
        else
          match contexts st !! c with
          | None => (MG_ERR_INVALID_HANDLE, st)
          | Some (r, o) =>
              if negb (o =? process) then (MG_ERR_ACCESS_DENIED, st)
              else
                let q := req st r in
                if negb (allocated q) || negb (context_live q) ||
                   negb (bool_decide (rstate q = IPC_REQUEST_DELIVERED))
                then (MG_ERR_SERVICE_UNAVAILABLE, st)
                else
                  let st := set_request st r (with_reply q (m_type m) (m_payload m)) in
                  (MG_OK, request_wake_client st r)
          end
    end.

(** The requester's identity and name, handed out once per request. *)
Definition ipc_request_context_claim (st : ipc) (current service : Z) (who : process_info)
    (c : Z) (name_size : Z) : option (process_credentials_t * list Z) * ipc :=
  if (service =? 0) || negb (service =? current) || (name_size =? 0) ||
     negb (system_service who) then (None, st)
  else
    match contexts st !! c with
    | None => (None, st)
    | Some (r, o) =>
        let q := req st r in
        if negb (o =? service) || negb (allocated q) || negb (context_live q) ||
           negb (bool_decide (rstate q = IPC_REQUEST_DELIVERED)) || authorization_claimed q ||
           (name_size <=? Z.of_nat (length (p_name (requester q)))) ||
           negb (identity_credentials_valid (p_credentials (requester q)))
        then (None, st)
        else (Some (p_credentials (requester q), p_name (requester q)),
              set_request st r (with_claim q))
    end.

Definition ipc_request_context_origin (st : ipc) (current service : Z) (who : process_info)
    (c expected : Z) : option Z :=
  if (service =? 0) || negb (service =? current) || negb (system_service who) ||
     (expected =? 0) then None
  else
    match contexts st !! c with
    | None => None
    | Some (r, o) =>
        let q := req st r in
        if negb (o =? service) || negb (allocated q) || negb (context_live q) ||
           negb (bool_decide (rstate q = IPC_REQUEST_DELIVERED)) ||
           negb (system_service (requester q)) || negb (p_service_id (requester q) =? expected)
        then None
        else Some (pid (requester q))
    end.

(** * Events *)

Definition MG_EVENT_CLASS_DEVICE : Z := 1.
Definition MG_EVENT_CLASS_NETWORK : Z := 2.
Definition MG_EVENT_CLASS_BLOCK : Z := 4.
Definition MG_EVENT_CLASS_USB : Z := 8.

(** [who] is the endpoint's owner. *)
Definition event_subscription_allowed (registry : Z -> option Z) (ep : ipc_endpoint)
    (who : process_info) (classes : Z) : bool :=
  let privileged p := identity_credentials_has_privilege registry (p_credentials who) p in
  if (owner ep =? 0) || negb (system_service who) then false
  else
    let allowed :=
      if service_id ep =? MG_SERVICE_DEVICED then
        if privileged IDENTITY_PRIVILEGE_MANAGE_DEVICES
        then Some (Z.lor (Z.lor (Z.lor MG_EVENT_CLASS_DEVICE MG_EVENT_CLASS_BLOCK)
                            MG_EVENT_CLASS_USB) MG_EVENT_CLASS_NETWORK) else None
      else if service_id ep =? MG_SERVICE_VOLUMED then
        if privileged IDENTITY_PRIVILEGE_MANAGE_DEVICES
        then Some (Z.lor (Z.lor MG_EVENT_CLASS_DEVICE MG_EVENT_CLASS_BLOCK)
                     MG_EVENT_CLASS_USB) else None
      else if service_id ep =? MG_SERVICE_NETWORKD then
        if privileged IDENTITY_PRIVILEGE_MANAGE_NETWORK then Some MG_EVENT_CLASS_NETWORK
        else None
      else None in
    match allowed with
    | None => false
    | Some a => negb (classes =? 0) && (Z.land classes (u32 (Z.lnot a)) =? 0)
    end.

(** Dropping the queued events of an endpoint and setting its classes. *)
Definition resubscribe (ep : ipc_endpoint) (classes : Z) : ipc_endpoint :=
  with_classes (with_overflow (with_deliveries ep (endpoint_discard_events (deliveries ep))) false)
    classes.

Definition ipc_kernel_event_subscribe (registry : Z -> option Z) (st : ipc) (process e : Z)
    (who : process_info) (classes : Z) : Z * ipc :=
  if (process =? 0) || (classes =? 0) then (MG_ERR_BAD_ARGUMENT, st)
  else
    match endpoints st !! e with
    | None => (MG_ERR_INVALID_HANDLE, st)
    | Some ep =>
        if negb (live ep) || negb (owner ep =? process) ||
           negb (event_subscription_allowed registry ep who classes)
        then (MG_ERR_PRIVILEGE_REQUIRED, st)
        else (MG_OK, set_endpoint st e (resubscribe ep classes))
    end.

Definition ipc_kernel_event_unsubscribe (st : ipc) (process e : Z) : Z * ipc :=
  if process =? 0 then (MG_ERR_BAD_ARGUMENT, st)
  else
    match endpoints st !! e with
    | None => (MG_ERR_INVALID_HANDLE, st)
    | Some ep =>
        if negb (live ep) || negb (owner ep =? process) then (MG_ERR_ACCESS_DENIED, st)
        else (MG_OK, set_endpoint st e (resubscribe ep 0))
    end.

(** The effect of a published event on one endpoint. *)
Definition publish_to (ev : mg_event_t) (ep : ipc_endpoint) : ipc_endpoint :=
  if negb (live ep) || (Z.land (event_classes ep) (event_class ev) =? 0) then ep
  else
    let '(ok, q) := endpoint_enqueue_event (deliveries ep) ev in
    if ok then wake_receiver (with_deliveries ep q) else with_overflow ep true.
Fixpoint publish_all (m : gmap Z ipc_endpoint) (l : list Z) (ev : mg_event_t)
    : gmap Z ipc_endpoint :=
  match l with
  | [] => m
  | e :: l => publish_all (alter (publish_to ev) e m) l ev
  end.
Definition ipc_publish_event (st : ipc) (class type resource : Z) (n : option (list Z)) : ipc :=
  if (class =? 0) || (type =? 0) then st
  else
    let '(sequence, st) := take_id st in
    let ev := Event MG_EVENT_PROTOCOL_VERSION type class 0 sequence resource
                (take 31 (default [] n)) in
    set_endpoints st (publish_all (endpoints st) (endpoint_list st) ev).

(** * Process exit *)

Fixpoint unregister_owned (st : ipc) (process : Z) (l : list Z) : ipc :=
  match l with
  | [] => st
  | e :: l =>
      let st := match endpoints st !! e with
                | Some ep => if owner ep =? process then endpoint_unregister_locked st e else st
                | None => st
                end in
      unregister_owned st process l
  end.

(** The loop over the pool in [ipc_process_exit], one request. *)
Definition abandon (st : ipc) (process : Z) (r : nat) : ipc :=
  let q := req st r in
  if allocated q && (client_process q =? process) then
    let st :=
      if bool_decide (rstate q = IPC_REQUEST_PENDING) && negb (r_endpoint q =? 0) then
        set_request
          match endpoints st !! r_endpoint q with
          | Some ep => set_endpoint st (r_endpoint q)
                         (with_deliveries ep (endpoint_remove_request (deliveries ep) r))
          | None => st
          end r (with_endpoint q 0)
      else st in
    let st := set_request st r (with_client (req st r) 0 0 false false) in
    let st := if bool_decide (outstanding st !! process = Some r)
              then set_outstanding st (delete process (outstanding st)) else st in
    request_maybe_free (request_fail st r) r
  else st.
Fixpoint abandon_all (st : ipc) (process : Z) (r n : nat) : ipc :=
  match n with
  | O => st
  | S n => abandon_all (abandon st process r) process (S r) n
  end.
Definition ipc_process_exit (st : ipc) (process : Z) : ipc :=
  if process =? 0 then st
  else
    let st := unregister_owned st process (endpoint_list st) in
    let st := abandon_all st process 0 (length (request_pool st)) in
    set_outstanding st (delete process (outstanding st)).

End Scheduler.

End Ipc.
