(* ===== verification/IpcProofs.v ===== *)
(** The invariant of the IPC state ([Ipc]) and its theorems.

    The invariant relates the request pool to the three places that refer to
    it: the processes' outstanding requests, the request contexts and the
    queues of the live endpoints.  Each of these relations is a predicate of its
    own, with lemmas for the ways one request can change. *)
From stdpp Require Import gmap.
From S2P Require Import Prelude NetConfig IpcQueue Ipc.
Import NetConfig IpcQueue Ipc.

Module IpcProofs.

(** * The invariant *)

(** What holds of each request by itself. *)
Definition local_ok (q : ipc_request) : Prop :=
  if allocated q then
    client_active q || context_live q = true /\ rstate q <> IPC_REQUEST_FREE /\
    (client_active q = true <-> client_process q <> 0) /\
    (rstate q = IPC_REQUEST_DELIVERED -> context_live q = true) /\
    (rstate q = IPC_REQUEST_PENDING -> context_live q = false)
  else q = zero_request.

(** A process's outstanding request is the one it is the client of. *)
Definition clients_ok (pool : list ipc_request) (out : gmap Z nat) : Prop :=
  forall p r, out !! p = Some r <->
    exists q, pool !! r = Some q /\ client_active q = true /\ client_process q = p.

(** A request with a live context has exactly one context object. *)
Definition contexts_ok (pool : list ipc_request) (ctx : gmap Z (nat * Z)) : Prop :=
  (forall r, (exists c o, ctx !! c = Some (r, o)) <->
     exists q, pool !! r = Some q /\ context_live q = true) /\
  (forall c c' r o o', ctx !! c = Some (r, o) -> ctx !! c' = Some (r, o') -> c = c').

Definition pending_at (pool : list ipc_request) (r : nat) (e : Z) : Prop :=
  exists q, pool !! r = Some q /\ rstate q = IPC_REQUEST_PENDING /\ r_endpoint q = e.

(** The requests in a queue. *)
Definition requests_of (l : list ipc_delivery_t) : list nat :=
  omap (fun d => if is_event d then None else request d) l.
Definition queued (ep : ipc_endpoint) : list nat := requests_of (contents (deliveries ep)).

(** The queue of a live endpoint holds exactly the requests pending there,
    each once. *)
Definition queue_ok (pool : list ipc_request) (e : Z) (ep : ipc_endpoint) : Prop :=
  ring_ok (deliveries ep) /\
  (live ep = true -> NoDup (queued ep) /\ forall r, r ∈ queued ep <-> pending_at pool r e).
Definition queues_ok (pool : list ipc_request) (eps : gmap Z ipc_endpoint) : Prop :=
  (forall e ep, eps !! e = Some ep -> queue_ok pool e ep) /\
  (forall r e, pending_at pool r e -> exists ep, eps !! e = Some ep /\ live ep = true).

(** The registry holds exactly the live endpoints, at most eight, with distinct
    names. *)
Definition registry_ok (eps : gmap Z ipc_endpoint) (l : list Z) (count : Z) : Prop :=
  eps !! 0 = None /\ NoDup l /\ (forall e, e ∈ l <-> exists ep, eps !! e = Some ep /\ live ep = true) /\
  count = Z.of_nat (length l) /\ count <= IPC_MAX_ENDPOINTS /\
  (forall e e' ep ep', eps !! e = Some ep -> eps !! e' = Some ep' -> live ep = true ->
     live ep' = true -> name ep = name ep' -> e = e').

Record ipc_ok (st : ipc) : Prop := {
  ok_length : length (request_pool st) = IPC_MAX_REQUESTS;
  ok_local : Forall local_ok (request_pool st);
  ok_clients : clients_ok (request_pool st) (outstanding st);
  ok_contexts : contexts_ok (request_pool st) (contexts st);
  ok_queues : queues_ok (request_pool st) (endpoints st);
  ok_registry : registry_ok (endpoints st) (endpoint_list st) (endpoint_count st);
}.

(** * One request changes *)

(** The pool after one request changed. *)
Lemma insert_exists (pool : list ipc_request) r q q' x (P : ipc_request -> Prop) :
  pool !! r = Some q ->
  ((exists y, <[r := q']> pool !! x = Some y /\ P y) <->
   (x = r /\ P q') \/ (x <> r /\ exists y, pool !! x = Some y /\ P y)).
Proof.
  intros Hr. split.
  - intros (y & Hy & Hp). apply list_lookup_insert_Some in Hy as [(<- & -> & _)|[Hne Hy]];
      [by left|right; split; [done|by exists y]].
  - intros [[-> Hp]|[Hne (y & Hy & Hp)]]; [exists q'|exists y].
    + rewrite list_lookup_insert_eq by (by eapply lookup_lt_Some). done.
    + by rewrite list_lookup_insert_ne.
Qed.

(** The same for an unchanged pool, by position. *)
Lemma pool_exists (pool : list ipc_request) r q x (P : ipc_request -> Prop) :
  pool !! r = Some q ->
  ((exists y, pool !! x = Some y /\ P y) <->
   (x = r /\ P q) \/ (x <> r /\ exists y, pool !! x = Some y /\ P y)).
Proof.
  intros Hr. rewrite <- (insert_exists pool r q q x P Hr). by rewrite (list_insert_id pool r q Hr).
Qed.

Section One_request.
Variables (pool : list ipc_request) (r : nat) (q q' : ipc_request).
Hypothesis Hr : pool !! r = Some q.

Lemma clients_same out :
  client_active q' = client_active q -> client_process q' = client_process q ->
  clients_ok pool out -> clients_ok (<[r := q']> pool) out.
Proof.
  intros Ea Ep H p x. rewrite (insert_exists pool r q q' x _ Hr), (H p x).
  rewrite Ea, Ep.
  exact (pool_exists pool r q x (fun y => client_active y = true /\ client_process y = p) Hr).
Qed.

Lemma clients_leave out :
  client_active q = true -> client_active q' = false -> clients_ok pool out ->
  clients_ok (<[r := q']> pool) (delete (client_process q) out).
Proof.
  intros Ea Ea' H p x. rewrite (insert_exists pool r q q' x _ Hr), Ea'.
  assert (Hout : out !! client_process q = Some r) by (apply H; by exists q).
  destruct (decide (p = client_process q)) as [->|Hp].
  - rewrite lookup_delete_eq. split; [done|]. intros [[_ [? _]]|[Hx Hy]]; [done|].
    apply H in Hy. congruence.
  - rewrite lookup_delete_ne by done. rewrite (H p x). split.
    + intros (y & Hy & Hya & Hyp). right. split; [|by exists y]. intros ->.
      rewrite Hr in Hy. injection Hy as <-. congruence.
    + by intros [[_ [? _]]|[_ Hy]].
Qed.

Lemma clients_join out :
  client_active q = false -> client_active q' = true -> out !! client_process q' = None ->
  clients_ok pool out -> clients_ok (<[r := q']> pool) (<[client_process q' := r]> out).
Proof.
  intros Ea Ea' Hn H p x. rewrite (insert_exists pool r q q' x _ Hr), Ea'.
  assert (Hne : forall y, out !! y <> Some r).
  { intros y Hy. apply H in Hy as (z & Hz & Hza & _). rewrite Hr in Hz. congruence. }
  destruct (decide (p = client_process q')) as [->|Hp].
  - rewrite lookup_insert_eq. split; [intros [= ->]; by left|].
    intros [[-> _]|[_ Hy]]; [done|]. apply H in Hy. congruence.
  - rewrite lookup_insert_ne by done. rewrite (H p x). split.
    + intros Hy. right. split; [|done]. intros ->. apply H in Hy. by destruct (Hne p).
    + intros [[_ [_ E]]|[_ Hy]]; [congruence|done].
Qed.

Lemma contexts_same ctx :
  context_live q' = context_live q -> contexts_ok pool ctx -> contexts_ok (<[r := q']> pool) ctx.
Proof.
  intros E [H Hu]. split; [|done]. intros x.
  rewrite (insert_exists pool r q q' x _ Hr), E, (H x).
  exact (pool_exists pool r q x (fun y => context_live y = true) Hr).
Qed.

Lemma contexts_drop ctx c o :
  ctx !! c = Some (r, o) -> context_live q' = false -> contexts_ok pool ctx ->
  contexts_ok (<[r := q']> pool) (delete c ctx).
Proof.
  intros Hc E [H Hu]. split.
  - intros x. rewrite (insert_exists pool r q q' x _ Hr), E. split.
    + intros (c' & o' & Hc'). apply lookup_delete_Some in Hc' as [Hne Hc']. right. split.
      * intros ->. apply Hne. by eapply Hu.
      * apply H. eauto.
    + intros [[_ ?]|[Hx Hy]]; [done|]. apply H in Hy as (c' & o' & Hc'). exists c', o'.
      rewrite lookup_delete_ne; [done|]. intros ->. congruence.
  - intros c1 c2 x o1 o2 H1 H2. apply lookup_delete_Some in H1 as [_ H1], H2 as [_ H2].
    by eapply Hu.
Qed.

Lemma contexts_add ctx c o :
  ctx !! c = None -> context_live q = false -> context_live q' = true -> contexts_ok pool ctx ->
  contexts_ok (<[r := q']> pool) (<[c := (r, o)]> ctx).
Proof.
  intros Hc E E' [H Hu].
  assert (Hno : forall c' o', ctx !! c' <> Some (r, o')).
  { intros c' o' Hc'. destruct (proj1 (H r)) as (y & Hy & Hl); [eauto|].
    rewrite Hr in Hy. congruence. }
  split.
  - intros x. rewrite (insert_exists pool r q q' x _ Hr), E'. split.
    + intros (c' & o' & Hc'). apply lookup_insert_Some in Hc' as [[_ [= -> _]]|[_ Hc']];
        [by left|]. right. split; [intros ->; by eapply Hno|apply H; eauto].
    + intros [[-> _]|[Hx Hy]]; [exists c, o; by rewrite lookup_insert_eq|].
      apply H in Hy as (c' & o' & Hc'). exists c', o'. rewrite lookup_insert_ne; [done|].
      intros ->. congruence.
  - intros c1 c2 x o1 o2 H1 H2.
    apply lookup_insert_Some in H1 as [[<- [= <- _]]|[_ H1]],
      H2 as [[<- E2]|[_ H2]]; [done| | |by eapply Hu].
    + by destruct (Hno c2 o2).
    + injection E2 as <- _. by destruct (Hno c1 o1).
Qed.

Lemma pending_insert x e :
  pending_at (<[r := q']> pool) x e <->
    (x = r /\ rstate q' = IPC_REQUEST_PENDING /\ r_endpoint q' = e) \/
    (x <> r /\ pending_at pool x e).
Proof.
  exact (insert_exists pool r q q' x
    (fun y => rstate y = IPC_REQUEST_PENDING /\ r_endpoint y = e) Hr).
Qed.
Lemma pending_here e :
  pending_at pool r e <-> rstate q = IPC_REQUEST_PENDING /\ r_endpoint q = e.
Proof.
  unfold pending_at. rewrite Hr. split; [by intros (y & [= <-] & ?)|intros ?; by exists q].
Qed.

(** The request stays pending where it was, or not pending. *)
Lemma queues_same eps :
  (forall e, rstate q' = IPC_REQUEST_PENDING /\ r_endpoint q' = e <->
             rstate q = IPC_REQUEST_PENDING /\ r_endpoint q = e) ->
  queues_ok pool eps -> queues_ok (<[r := q']> pool) eps.
Proof.
  intros E [H Hp].
  assert (Hsame : forall x e, pending_at (<[r := q']> pool) x e <-> pending_at pool x e).
  { intros x e. rewrite pending_insert. destruct (decide (x = r)) as [->|Hx].
    - rewrite pending_here, <- E. tauto.
    - tauto. }
  split.
  - intros e ep He. destruct (H e ep He) as [H1 H2]. split; [done|]. intros Hl.
    destruct (H2 Hl) as [Hn Hq]. split; [done|]. intros x. by rewrite Hsame.
  - intros x e. rewrite Hsame. apply Hp.
Qed.

(** The request leaves the queue of [e]. *)
Lemma queues_pop eps e ep ep' :
  eps !! e = Some ep -> live ep = true -> r_endpoint q = e -> rstate q' <> IPC_REQUEST_PENDING ->
  ring_ok (deliveries ep') -> live ep' = true -> NoDup (queued ep') ->
  (forall x, x ∈ queued ep' <-> x ∈ queued ep /\ x <> r) ->
  queues_ok pool eps -> queues_ok (<[r := q']> pool) (<[e := ep']> eps).
Proof.
  intros He Hl Hre Hn Hring Hl' Hnd Hq [H Hp]. split.
  - intros e1 ep1 H1. apply lookup_insert_Some in H1 as [[<- <-]|[Hne H1]].
    + split; [done|]. intros _. split; [done|]. intros x. rewrite Hq, pending_insert.
      destruct (H e ep He) as [_ H2]. rewrite (proj2 (H2 Hl)). tauto.
    + destruct (H e1 ep1 H1) as [H2 H3]. split; [done|]. intros Hl1.
      destruct (H3 Hl1) as [H4 H5]. split; [done|]. intros x. rewrite H5, pending_insert.
      destruct (decide (x = r)) as [->|Hx]; [|tauto]. rewrite pending_here. naive_solver.
  - intros x e1. rewrite pending_insert. intros [[_ [? _]]|[_ Hx]]; [done|].
    destruct (Hp x e1 Hx) as (ep1 & H1 & H2). destruct (decide (e1 = e)) as [->|Hne].
    + exists ep'. by rewrite lookup_insert_eq.
    + exists ep1. by rewrite lookup_insert_ne.
Qed.

(** The request joins the queue of [e]. *)
Lemma queues_push eps e ep ep' :
  eps !! e = Some ep -> live ep = true -> rstate q <> IPC_REQUEST_PENDING ->
  rstate q' = IPC_REQUEST_PENDING -> r_endpoint q' = e ->
  ring_ok (deliveries ep') -> live ep' = true -> queued ep' = queued ep ++ [r] ->
  queues_ok pool eps -> queues_ok (<[r := q']> pool) (<[e := ep']> eps).
Proof.
  intros He Hl Hn Hs Hre Hring Hl' Hq [H Hp].
  assert (Hnot : forall e1, ~ pending_at pool r e1) by (intros e1; rewrite pending_here; tauto).
  split.
  - intros e1 ep1 H1. apply lookup_insert_Some in H1 as [[<- <-]|[Hne H1]].
    + split; [done|]. intros _. destruct (H e ep He) as [_ H2]. destruct (H2 Hl) as [H3 H4].
      rewrite Hq. split.
      * apply NoDup_app. split; [done|]. split; [|apply NoDup_singleton].
        intros x Hx Hx'. apply list_elem_of_singleton in Hx' as ->. apply H4 in Hx. naive_solver.
      * intros x. rewrite elem_of_app, list_elem_of_singleton, H4, pending_insert.
        destruct (decide (x = r)) as [->|Hx]; naive_solver.
    + destruct (H e1 ep1 H1) as [H2 H3]. split; [done|]. intros Hl1.
      destruct (H3 Hl1) as [H4 H5]. split; [done|]. intros x. rewrite H5, pending_insert.
      destruct (decide (x = r)) as [->|Hx]; naive_solver.
  - intros x e1. rewrite pending_insert. intros [[_ [_ E]]|[_ Hx]].
    + subst e1. exists ep'. rewrite Hre. by rewrite lookup_insert_eq.
    + destruct (Hp x e1 Hx) as (ep1 & H1 & H2). destruct (decide (e1 = e)) as [->|Hne].
      * exists ep'. by rewrite lookup_insert_eq.
      * exists ep1. by rewrite lookup_insert_ne.
Qed.

End One_request.

(** * Operations on one request as functions *)

Definition maybe_free_q (q : ipc_request) : ipc_request :=
  if negb (allocated q) || client_active q || context_live q then q else zero_request.

Section Wake.
Variables blocked unblock : Z -> bool.

Definition wake_q (q : ipc_request) : ipc_request :=
  if negb (client_active q) || negb (client_blocked q) || (client_thread q =? 0) then q
  else if blocked (client_thread q) && negb (unblock (client_thread q)) then q
  else with_client q (client_process q) 0 (client_active q) false.

Definition fail_q (q : ipc_request) : ipc_request :=
  if negb (allocated q) || bool_decide (rstate q = IPC_REQUEST_REPLIED) ||
     bool_decide (rstate q = IPC_REQUEST_FAILED) then q
  else maybe_free_q (wake_q (with_state q IPC_REQUEST_FAILED)).

Lemma req_set st r q : (r < length (request_pool st))%nat -> req (set_request st r q) r = q.
Proof. intros H. unfold req, set_request. cbn. by rewrite list_lookup_insert_eq. Qed.

Lemma set_set st r q q' : set_request (set_request st r q) r q' = set_request st r q'.
Proof. unfold set_request. cbn. by rewrite list_insert_insert_eq. Qed.

Lemma set_same st r q : request_pool st !! r = Some q -> set_request st r q = st.
Proof. intros H. unfold set_request. rewrite list_insert_id by done. by destruct st. Qed.

Lemma req_lookup st r q : request_pool st !! r = Some q -> req st r = q.
Proof. intros H. unfold req. by rewrite H. Qed.

Lemma maybe_free_set st r q :
  (r < length (request_pool st))%nat ->
  request_maybe_free (set_request st r q) r = set_request st r (maybe_free_q q).
Proof.
  intros H. unfold request_maybe_free, maybe_free_q, request_free. rewrite req_set by done.
  destruct (allocated q); [|done]. cbn [negb orb]. destruct (_ || _); [done|]. apply set_set.
Qed.

Lemma wake_set st r q :
  (r < length (request_pool st))%nat ->
  request_wake_client blocked unblock (set_request st r q) r = set_request st r (wake_q q).
Proof.
  intros H. unfold request_wake_client, wake_q. rewrite req_set by done.
  destruct (_ || _ || _); [done|]. destruct (_ && _); [done|]. apply set_set.
Qed.

Lemma fail_set st r q :
  (r < length (request_pool st))%nat ->
  request_fail blocked unblock (set_request st r q) r = set_request st r (fail_q q).
Proof.
  intros H. unfold request_fail, fail_q. rewrite req_set by done.
  destruct (_ || _ || _); [done|]. by rewrite set_set, wake_set, maybe_free_set.
Qed.

(** The fields the invariant reads. *)
Definition same_view (q q' : ipc_request) : Prop :=
  client_active q' = client_active q /\ client_process q' = client_process q /\
  context_live q' = context_live q.

Lemma wake_q_view q :
  allocated (wake_q q) = allocated q /\ rstate (wake_q q) = rstate q /\
  r_endpoint (wake_q q) = r_endpoint q /\ same_view q (wake_q q).
Proof. unfold wake_q, same_view. destruct (_ || _ || _); [done|]. by destruct (_ && _). Qed.

(** Failing a request that somebody still refers to. *)
Lemma fail_q_referred q :
  allocated q = true -> rstate q <> IPC_REQUEST_FREE -> client_active q || context_live q = true ->
  (client_active q = true <-> client_process q <> 0) ->
  local_ok (fail_q q) /\ same_view q (fail_q q) /\ rstate (fail_q q) <> IPC_REQUEST_PENDING.
Proof.
  intros Ha Hf Hr Hc. unfold fail_q. rewrite Ha. cbn [negb orb].
  case_bool_decide as E1; [|case_bool_decide as E2]; cbn [orb].
  - split; [|split; [done|congruence]]. unfold local_ok. rewrite Ha, E1. done.
  - split; [|split; [done|congruence]]. unfold local_ok. rewrite Ha, E2. done.
  - destruct (wake_q_view (with_state q IPC_REQUEST_FAILED)) as (W1 & W2 & _ & V1 & V2 & V3).
    cbn [allocated rstate client_active client_process context_live with_state] in *.
    unfold maybe_free_q. rewrite W1, V1, V3, Ha. cbn [negb orb]. rewrite Hr.
    split; [|split; [done|by rewrite W2]].
    unfold local_ok. rewrite W1, W2, V1, V2, V3, Ha. done.
Qed.

(** Failing a request nobody refers to frees it. *)
Lemma fail_q_unreferred q :
  allocated q = true -> client_active q = false -> context_live q = false ->
  rstate q = IPC_REQUEST_PENDING \/ rstate q = IPC_REQUEST_DELIVERED -> fail_q q = zero_request.
Proof.
  intros Ha Hact Hctx Hs. unfold fail_q. rewrite Ha. cbn [negb orb].
  rewrite !bool_decide_false by (destruct Hs; congruence). cbn [orb].
  destruct (wake_q_view (with_state q IPC_REQUEST_FAILED)) as (W1 & _ & _ & V1 & _ & V3).
  cbn [allocated client_active context_live with_state] in *.
  unfold maybe_free_q. by rewrite W1, V1, V3, Ha, Hact, Hctx.
Qed.

Lemma zero_request_ok : local_ok zero_request.
Proof. done. Qed.

(** When the last reference goes, or one of two. *)
Lemma maybe_free_q_ok q :
  allocated q = true -> rstate q <> IPC_REQUEST_FREE -> rstate q <> IPC_REQUEST_PENDING ->
  (client_active q = true <-> client_process q <> 0) ->
  (rstate q = IPC_REQUEST_DELIVERED -> context_live q = true) ->
  local_ok (maybe_free_q q) /\ same_view q (maybe_free_q q) /\
  rstate (maybe_free_q q) <> IPC_REQUEST_PENDING.
Proof.
  intros Ha Hf Hp Hc Hd. unfold maybe_free_q. rewrite Ha. cbn [negb orb].
  destruct (client_active q || context_live q) eqn:E.
  - split; [|done]. unfold local_ok. rewrite Ha. done.
  - apply orb_false_iff in E as [E1 E2]. split; [done|]. split; [|done].
    unfold same_view. rewrite E1, E2. split; [done|]. split; [|done].
    destruct (decide (client_process q = 0)) as [->|H]; [done|]. apply Hc in H. congruence.
Qed.

(** * Whole states *)

(** A request changes in ways the rest of the state does not see. *)
Lemma request_change_ok st r q q' :
  ipc_ok st -> request_pool st !! r = Some q -> local_ok q' -> same_view q q' ->
  (forall e, rstate q' = IPC_REQUEST_PENDING /\ r_endpoint q' = e <->
             rstate q = IPC_REQUEST_PENDING /\ r_endpoint q = e) ->
  ipc_ok (set_request st r q').
Proof.
  intros [H1 H2 H3 H4 H5 H6] Hr Hl (V1 & V2 & V3) Hp. constructor; cbn.
  - by rewrite length_insert.
  - by apply Forall_insert.
  - by eapply clients_same.
  - by eapply contexts_same.
  - by eapply queues_same.
  - done.
Qed.

Lemma local_at st r q : ipc_ok st -> request_pool st !! r = Some q -> local_ok q.
Proof. intros H Hr. eapply Forall_lookup_1; [apply H|done]. Qed.

Lemma in_pool st r q : request_pool st !! r = Some q -> (r < length (request_pool st))%nat.
Proof. apply lookup_lt_Some. Qed.

End Wake.

(** ** Endpoints *)

(** The registry does not depend on the queues. *)
Lemma registry_requeue eps l count e ep ep' :
  registry_ok eps l count -> eps !! e = Some ep -> live ep' = live ep -> name ep' = name ep ->
  registry_ok (<[e := ep']> eps) l count.
Proof.
  intros (R0 & R1 & R2 & R3 & R4 & R5) He Hl Hn.
  assert (Hsame : forall x epx, <[e := ep']> eps !! x = Some epx -> live epx = true ->
    exists epy, eps !! x = Some epy /\ live epy = true /\ name epy = name epx).
  { intros x epx E L. apply lookup_insert_Some in E as [[<- <-]|[_ E]]; [|by exists epx].
    exists ep. split; [done|]. split; [congruence|done]. }
  split; [rewrite lookup_insert_ne; [done|]; by intros ->; rewrite R0 in He|].
  split; [done|]. split; [|split; [done|split; [done|]]].
  - intros x. rewrite R2. split.
    + intros (epx & E & L). destruct (decide (x = e)) as [->|Hne].
      * exists ep'. rewrite lookup_insert_eq. split; [done|]. congruence.
      * exists epx. by rewrite lookup_insert_ne.
    + intros (epx & E & L). destruct (Hsame x epx E L) as (epy & E' & L' & _). by exists epy.
  - intros x y epx epy Ex Ey Lx Ly N.
    destruct (Hsame x epx Ex Lx) as (ex' & A1 & A2 & A3), (Hsame y epy Ey Ly) as (ey' & B1 & B2 & B3).
    eapply R5; [exact A1|exact B1|done|done|congruence].
Qed.

(** An endpoint changes without its queue's requests, liveness or name. *)
Lemma endpoint_change_ok st e ep ep' :
  ipc_ok st -> endpoints st !! e = Some ep -> ring_ok (deliveries ep') ->
  live ep' = live ep -> name ep' = name ep -> queued ep' = queued ep ->
  ipc_ok (set_endpoint st e ep').
Proof.
  intros [H1 H2 H3 H4 [H5 H5'] H6] He Hring Hl Hn Hq.
  constructor; cbn; try done.
  - split.
    + intros e1 ep1 E. apply lookup_insert_Some in E as [[<- <-]|[_ E]]; [|by apply H5].
      split; [done|]. rewrite Hl, Hq. by apply H5.
    + intros r e1 Hp. destruct (H5' r e1 Hp) as (ep1 & E & L). destruct (decide (e1 = e)) as [->|Hne].
      * exists ep'. rewrite lookup_insert_eq. split; [done|]. congruence.
      * exists ep1. by rewrite lookup_insert_ne.
  - by eapply registry_requeue.
Qed.


(** ** Queues *)

Lemma requests_of_app a b : requests_of (a ++ b) = requests_of a ++ requests_of b.
Proof. apply omap_app. Qed.

Lemma requests_of_kept l : requests_of (kept l) = requests_of l.
Proof.
  induction l as [|d l IH]; [done|]. unfold kept, requests_of in *. cbn.
  destruct (is_event d) eqn:E; cbn [negb]; [exact IH|]. cbn. rewrite E. by rewrite IH.
Qed.

Lemma requests_of_remove x l :
  NoDup (requests_of l) ->
  NoDup (requests_of (remove_first (is_request x) l)) /\
  forall y, y ∈ requests_of (remove_first (is_request x) l) <-> y ∈ requests_of l /\ y <> x.
Proof.
  induction l as [|d l IH]; [intros; split; [done|]; intros y; cbn; by split; [intros ?%elem_of_nil|intros [?%elem_of_nil _]]|].
  unfold requests_of, is_request in *. cbn. destruct (is_event d) eqn:E; cbn [negb andb].
  { intros Hn. destruct (IH Hn) as [H1 H2]. cbn. by rewrite E. }
  case_bool_decide as Ex.
  - rewrite Ex. intros Hn. apply NoDup_cons in Hn as [Hx Hn]. split; [done|]. intros y.
    rewrite elem_of_cons. split; [intros Hy; split; [by right|]; by intros ->|].
    by intros [[->|Hy] Hne].
  - cbn. rewrite E. destruct (request d) as [z|] eqn:Ez; [|exact IH].
    intros Hn. apply NoDup_cons in Hn as [Hz Hn]. destruct (IH Hn) as [H1 H2].
    split; [apply NoDup_cons; split; [rewrite H2; tauto|done]|].
    intros y. rewrite !elem_of_cons, H2. split; [|tauto].
    intros [->|Hy]; [|tauto]. split; [by left|]. congruence.
Qed.

Lemma queued_waiter ep t : queued (with_waiter ep t) = queued ep.
Proof. done. Qed.

Lemma wake_receiver_view unblock ep :
  deliveries (wake_receiver unblock ep) = deliveries ep /\
  live (wake_receiver unblock ep) = live ep /\ name (wake_receiver unblock ep) = name ep.
Proof. unfold wake_receiver. by destruct (_ && _). Qed.

(** * Every operation preserves the invariant *)

Section Preservation.
Variables blocked unblock : Z -> bool.

Lemma client_of st p r :
  ipc_ok st -> outstanding st !! p = Some r ->
  exists q, request_pool st !! r = Some q /\ client_active q = true /\ client_process q = p /\
    allocated q = true.
Proof.
  intros Hok Ho. apply (ok_clients _ Hok) in Ho as (q & Hq & Ha & Hp). exists q.
  split; [done|]. split; [done|]. split; [done|].
  pose proof (local_at st r q Hok Hq) as Hl. unfold local_ok in Hl.
  destruct (allocated q) eqn:E; [done|]. by subst q.
Qed.

Lemma client_leaves_ok st p r q :
  ipc_ok st -> outstanding st !! p = Some r -> request_pool st !! r = Some q ->
  rstate q <> IPC_REQUEST_PENDING -> rstate q <> IPC_REQUEST_DELIVERED ->
  ipc_ok (client_leaves st p r).
Proof.
  intros Hok Ho Hq Hnp Hnd. pose proof (client_of st p r Hok Ho) as (q' & Hq' & Ha & Hp & Hal).
  rewrite Hq in Hq'. injection Hq' as <-.
  pose proof (local_at st r q Hok Hq) as Hl. unfold local_ok in Hl. rewrite Hal in Hl.
  destruct Hl as (_ & Hf & Hc & _ & _). pose proof (in_pool st r q Hq) as Hlt.
  unfold client_leaves. cbv zeta. rewrite (req_lookup st r q Hq), bool_decide_true by done.
  set (q1 := with_client q 0 0 false false).
  change (set_outstanding (set_request st r q1) _)
    with (set_request (set_outstanding st (delete p (outstanding st))) r q1).
  rewrite maybe_free_set by done.
  destruct (maybe_free_q_ok q1) as (L & (V1 & V2 & V3) & Np); [done|done|done|done|done|].
  destruct Hok as [H1 H2 H3 H4 H5 H6]. constructor; cbn; [by rewrite length_insert|
    by apply Forall_insert| | | |done].
  - rewrite <- Hp. eapply clients_leave; [done|done|by rewrite V1|done].
  - eapply contexts_same; [done|by rewrite V3|done].
  - eapply queues_same; [done| |done]. intros e. split; intros [? _]; [done|].
    by destruct Hnp.
Qed.

Lemma collect_ok st p r :
  ipc_ok st -> outstanding st !! p = Some r -> ipc_ok (collect st p r).2.
Proof.
  intros Hok Ho. pose proof (client_of st p r Hok Ho) as (q & Hq & Ha & Hp & Hal).
  unfold collect. rewrite (req_lookup st r q Hq).
  assert (Hwait : ipc_ok (set_request st r
    (with_client q (client_process q) (client_thread q) (client_active q) true))).
  { eapply request_change_ok; [done|done| |done|done].
    pose proof (local_at st r q Hok Hq) as Hl. unfold local_ok in *. cbn. by destruct (allocated q). }
  destruct (rstate q) eqn:E; cbn [snd]; try done; (eapply client_leaves_ok; [done|done|done|congruence|congruence]).
Qed.

Lemma free_slot st r q :
  ipc_ok st -> request_pool st !! r = Some q -> allocated q = false -> q = zero_request.
Proof.
  intros Hok Hq Ha. pose proof (local_at st r q Hok Hq) as Hl. unfold local_ok in Hl.
  by rewrite Ha in Hl.
Qed.

Lemma submit_ok st p t who e m : ipc_ok st -> p <> 0 -> ipc_ok (submit unblock st p t who e m).2.
Proof.
  intros Hok Hp. unfold submit. destruct (endpoints st !! e) as [ep|] eqn:He; [|done].
  case_bool_decide as Hout; [done|]. destruct (live ep) eqn:Hlive; [|done]. cbn [negb].
  destruct (_ <=? _) eqn:Hfull; [done|]. unfold request_allocate_locked.
  destruct (list_find _ _) as [[r q]|] eqn:Hf; [|done].
  apply list_find_Some in Hf as (Hq & Hal & _).
  assert (q = zero_request) as -> by by eapply free_slot.
  pose proof (in_pool st r _ Hq) as Hlt.
  destruct (take_id _) as [i st1] eqn:Eid.
  set (q' := Request true i IPC_REQUEST_PENDING e p t true false false false _ _ _ _ _).
  pose proof (proj1 (proj1 (ok_queues _ Hok) e ep He)) as Hring.
  pose proof (enqueue_ok (Delivery false (Some r) zero_event) (deliveries ep) Hring) as Hen.
  unfold endpoint_enqueue_request. destruct (enqueue _ _) as [ok d].
  destruct ok; [|destruct Hen as [_ Hen]; unfold IPC_MAX_QUEUE_DEPTH in Hfull; lia].
  destruct Hen as (Hring' & Hcont & _).
  assert (Hst1 : exists n, st1 = set_next_id (set_outstanding (set_request st r
      (Request true 0 IPC_REQUEST_PENDING 0 0 0 false false false false no_info 0 [] 0 []))
      (<[p := r]> (outstanding st))) n).
  { unfold take_id in Eid. destruct (_ =? 0); injection Eid as _ <-; by eexists. }
  destruct Hst1 as [n ->]. cbn [snd].
  destruct (wake_receiver_view unblock (with_deliveries ep d)) as (W1 & W2 & W3).
  destruct Hok as [H1 H2 H3 H4 H5 H6].
  constructor; cbn; rewrite ?list_insert_insert_eq.
  - by rewrite length_insert.
  - apply Forall_insert; [done|]. unfold local_ok. cbn. done.
  - eapply (clients_join (request_pool st) r zero_request q'); [done|done|done| |done].
    cbn. by apply eq_None_not_Some.
  - by eapply contexts_same.
  - eapply queues_push; try done; [by rewrite W1|by rewrite W2|].
    unfold queued. rewrite W1. cbn. rewrite Hcont, requests_of_app. done.
  - by eapply registry_requeue.
Qed.

Lemma context_of st c r o :
  ipc_ok st -> contexts st !! c = Some (r, o) ->
  exists q, request_pool st !! r = Some q /\ context_live q = true /\ allocated q = true /\
    rstate q <> IPC_REQUEST_PENDING.
Proof.
  intros Hok Hc. destruct (proj1 (proj1 (ok_contexts _ Hok) r)) as (q & Hq & Hl); [eauto|].
  exists q. pose proof (local_at st r q Hok Hq) as HL. unfold local_ok in HL.
  destruct (allocated q); [|by subst q]. split; [done|]. split; [done|]. split; [done|].
  destruct HL as (_ & _ & _ & _ & Hp). intros E. apply Hp in E. congruence.
Qed.

Lemma destroy_ok st c : ipc_ok st -> ipc_ok (request_context_destroy blocked unblock st c).
Proof.
  intros Hok. unfold request_context_destroy.
  destruct (contexts st !! c) as [[r o]|] eqn:Hc; [|done].
  destruct (context_of st c r o Hok Hc) as (q & Hq & Hl & Hal & Hnp).
  pose proof (in_pool st r q Hq) as Hlt. set (st1 := set_contexts st _).
  assert (Hq1 : request_pool st1 !! r = Some q) by done.
  rewrite (req_lookup st1 r q Hq1), Hal. cbn [negb].
  set (q1 := with_context q false).
  pose proof (local_at st r q Hok Hq) as HL. unfold local_ok in HL. rewrite Hal in HL.
  destruct HL as (_ & Hf & Hcl & _ & _).
  rewrite (bool_decide_false (rstate q = IPC_REQUEST_PENDING)) by done. cbn [orb].
  set (q2 := if bool_decide (rstate q = IPC_REQUEST_DELIVERED) then fail_q blocked unblock q1 else q1).
  replace (if bool_decide (rstate q = IPC_REQUEST_DELIVERED)
    then request_fail blocked unblock (set_request st1 r q1) r else set_request st1 r q1)
    with (set_request st1 r q2) by (unfold q2; case_bool_decide; [by rewrite fail_set|done]).
  rewrite maybe_free_set by done.
  assert (H : local_ok (maybe_free_q q2) /\ same_view q1 (maybe_free_q q2) /\
    rstate (maybe_free_q q2) <> IPC_REQUEST_PENDING).
  { unfold q2. case_bool_decide as Ed; [|by apply maybe_free_q_ok].
    destruct (client_active q) eqn:Ea.
    - destruct (fail_q_referred blocked unblock q1) as (L & V & Np);
        [done|done|cbn; by rewrite Ea|cbn; by rewrite Ea|].
      assert (E : maybe_free_q (fail_q blocked unblock q1) = fail_q blocked unblock q1).
      { unfold maybe_free_q. destruct V as (V1 & _ & _). rewrite V1. cbn. rewrite Ea.
        by rewrite orb_true_r. }
      by rewrite E.
    - rewrite fail_q_unreferred; [|done|done|done|by right]. split; [done|]. split; [|done].
      unfold same_view. cbn. rewrite Ea. split; [done|]. split; [|done].
      destruct (decide (client_process q = 0)) as [->|Hne]; [done|].
      apply Hcl in Hne. congruence. }
  destruct H as (L & (V1 & V2 & V3) & Np). destruct Hok as [H1 H2 H3 H4 H5 H6].
  constructor; cbn; [by rewrite length_insert|by apply Forall_insert| | | |done].
  - by eapply clients_same.
  - by eapply contexts_drop.
  - eapply queues_same; [done| |done]. intros e. by split; intros [? _].
Qed.

Lemma reply_ok st p c m : ipc_ok st -> ipc_ok (ipc_kernel_reply blocked unblock st p c m).2.
Proof.
  intros Hok. unfold ipc_kernel_reply. destruct (p =? 0); [done|]. destruct m as [m|]; [|done].
  destruct (negb _); [done|]. destruct (contexts st !! c) as [[r o]|] eqn:Hc; [|done].
  destruct (negb _); [done|]. destruct (context_of st c r o Hok Hc) as (q & Hq & Hl & Hal & Hnp).
  rewrite (req_lookup st r q Hq). destruct (_ || _ || _); [done|]. cbn [snd].
  rewrite wake_set by by eapply in_pool. set (q1 := with_reply q _ _).
  pose proof (local_at st r q Hok Hq) as HL. unfold local_ok in HL. rewrite Hal in HL.
  destruct HL as (Hr & Hf & Hcl & _ & _).
  destruct (wake_q_view blocked unblock q1) as (W1 & W2 & W3 & V1 & V2 & V3).
  eapply request_change_ok; [done|done| |done|].
  - unfold local_ok. rewrite W1, W2, V1, V2, V3. cbn. rewrite Hal. done.
  - intros e. rewrite W2. cbn. by split; intros [? _].
Qed.

Lemma claim_ok st cur s who c n : ipc_ok st -> ipc_ok (ipc_request_context_claim st cur s who c n).2.
Proof.
  intros Hok. unfold ipc_request_context_claim. destruct (_ || _ || _ || _); [done|].
  destruct (contexts st !! c) as [[r o]|] eqn:Hc; [|done].
  destruct (context_of st c r o Hok Hc) as (q & Hq & Hl & Hal & Hnp).
  rewrite (req_lookup st r q Hq). destruct (_ || _); [done|]. cbn [snd].
  eapply request_change_ok; [done|done| |done|done].
  pose proof (local_at st r q Hok Hq) as HL. unfold local_ok in *. cbn. by rewrite Hal in *.
Qed.

(** *** Receiving *)

(** What a dequeued request is. *)
Lemma dequeued_request st e ep d rest r :
  ipc_ok st -> endpoints st !! e = Some ep -> live ep = true ->
  contents (deliveries ep) = d :: rest -> is_event d = false -> request d = Some r ->
  NoDup (requests_of rest) /\ (forall x, x ∈ requests_of rest <-> x ∈ queued ep /\ x <> r) /\
  exists q, request_pool st !! r = Some q /\ allocated q = true /\
    rstate q = IPC_REQUEST_PENDING /\ r_endpoint q = e /\ client_active q = true /\
    context_live q = false /\ client_process q <> 0.
Proof.
  intros Hok He Hl Hc Hev Hr. destruct (proj1 (ok_queues _ Hok) e ep He) as [_ H].
  destruct (H Hl) as [Hn Hq].
  assert (Eq : queued ep = r :: requests_of rest).
  { unfold queued, requests_of. rewrite Hc. cbn. by rewrite Hev, Hr. }
  rewrite Eq in Hn. apply NoDup_cons in Hn as [Hnr Hn]. split; [done|]. split.
  { intros x. rewrite Eq, elem_of_cons. split; [|tauto]. intros Hx. split; [by right|].
    by intros ->. }
  destruct (proj1 (Hq r)) as (q & Hpq & Hs & He'); [rewrite Eq; apply list_elem_of_here|].
  exists q. split; [done|]. pose proof (local_at st r q Hok Hpq) as HL. unfold local_ok in HL.
  destruct (allocated q); [|by subst q]. destruct HL as (H1 & _ & H3 & _ & H5).
  specialize (H5 Hs). rewrite H5, orb_false_r in H1. tauto.
Qed.

(** A request leaves the queue of [e], whatever becomes of it. *)
Lemma pop_ok st e ep rq d r q q' ctx :
  ipc_ok st -> endpoints st !! e = Some ep -> live ep = true -> ring_ok rq ->
  contents (deliveries ep) = d :: contents rq -> is_event d = false -> request d = Some r ->
  request_pool st !! r = Some q -> local_ok q' -> rstate q' <> IPC_REQUEST_PENDING ->
  client_active q' = client_active q -> client_process q' = client_process q ->
  contexts_ok (<[r := q']> (request_pool st)) ctx ->
  ipc_ok (set_contexts (set_request (set_endpoint st e (with_deliveries ep rq)) r q') ctx).
Proof.
  intros Hok He Hl Hrq Hc Hev Hr Hq HL Hnp Ha Hp Hctx.
  destruct (dequeued_request st e ep d _ r Hok He Hl Hc Hev Hr)
    as (Hn & Hx & q0 & Hq0 & _ & _ & Hre & _).
  rewrite Hq in Hq0. injection Hq0 as <-. destruct Hok as [H1 H2 H3 H4 H5 H6].
  constructor; cbn; [by rewrite length_insert|by apply Forall_insert| |done| |].
  - by eapply clients_same.
  - by eapply queues_pop.
  - by eapply registry_requeue.
Qed.

(** A request that was just marked delivered, and then failed. *)
Lemma delivered_failed q :
  allocated q = true -> client_active q = true -> client_process q <> 0 ->
  let q' := fail_q blocked unblock (with_state q IPC_REQUEST_DELIVERED) in
  local_ok q' /\ same_view q q' /\ rstate q' = IPC_REQUEST_FAILED /\ allocated q' = true.
Proof.
  intros Ha Hact Hp q'.
  assert (E : q' = wake_q blocked unblock (with_state q IPC_REQUEST_FAILED)).
  { unfold q', fail_q. cbn. rewrite Ha. cbn. unfold maybe_free_q.
    destruct (wake_q_view blocked unblock (with_state q IPC_REQUEST_FAILED))
      as (W1 & _ & _ & V1 & _). cbn in W1, V1.
    change (with_state (with_state q IPC_REQUEST_DELIVERED) IPC_REQUEST_FAILED)
      with (with_state q IPC_REQUEST_FAILED). rewrite W1, V1, Ha, Hact. done. }
  destruct (wake_q_view blocked unblock (with_state q IPC_REQUEST_FAILED))
    as (W1 & W2 & W3 & V1 & V2 & V3). cbn in *. rewrite <- E in *.
  split; [|split; [done|split; [done|congruence]]].
  unfold local_ok. rewrite W1, Ha, W2, V1, V2, V3, Hact. done.
Qed.

Lemma deliver_ok st p e ep rq d c handle :
  ipc_ok st -> endpoints st !! e = Some ep -> live ep = true -> ring_ok rq ->
  contents (deliveries ep) = d :: contents rq -> contexts st !! c = None ->
  ipc_ok (deliver blocked unblock (set_endpoint st e (with_deliveries ep rq)) p d c handle).2.
Proof.
  intros Hok He Hl Hrq Hc Hfresh. unfold deliver.
  assert (Hskip : queued (with_deliveries ep rq) = queued ep ->
    ipc_ok (set_endpoint st e (with_deliveries ep rq))) by (intros; by eapply endpoint_change_ok).
  assert (Hq : queued ep = requests_of [d] ++ queued (with_deliveries ep rq)).
  { unfold queued. rewrite Hc. apply (requests_of_app [d]). }
  destruct (is_event d) eqn:Hev.
  { apply Hskip. rewrite Hq. unfold requests_of. cbn. by rewrite Hev. }
  destruct (request d) as [r|] eqn:Hr.
  2: { apply Hskip. rewrite Hq. unfold requests_of. cbn. by rewrite Hev, Hr. }
  destruct (dequeued_request st e ep d _ r Hok He Hl Hc Hev Hr)
    as (_ & _ & q & Hpq & Hal & Hs & _ & Hact & Hctx & Hcp).
  pose proof (in_pool st r q Hpq) as Hlt. set (st1 := set_endpoint st e (with_deliveries ep rq)).
  assert (Hpq1 : request_pool st1 !! r = Some q) by done.
  unfold receive_mark. rewrite (req_lookup st1 r q Hpq1), Hal, bool_decide_true by done.
  cbn [negb orb]. set (q1 := with_state q IPC_REQUEST_DELIVERED).
  destruct (delivered_failed q Hal Hact Hcp) as (L & (V1 & V2 & V3) & S & A).
  fold q1 in L, V1, V2, V3, S, A.
  unfold receive_context. destruct (c =? 0).
  { rewrite fail_set by done. cbn [snd].
    apply (pop_ok st e ep rq d r q _ (contexts st)); try done; [congruence|].
    eapply contexts_same; [done|done|apply Hok]. }
  rewrite req_set by done. cbn [allocated rstate q1 with_state]. rewrite Hal.
  rewrite bool_decide_true by done. cbn [negb orb]. rewrite set_set.
  set (q2 := with_context q1 true). destruct handle as [h|]; cbn [snd].
  - apply (pop_ok st e ep rq d r q q2 (<[c := (r, p)]> (contexts st))); try done.
    + unfold local_ok. cbn. rewrite Hal, Hact. done.
    + eapply contexts_add; [done|done|done|done|apply Hok].
  - unfold receive_install_failed.
    change (req (set_contexts (set_request st1 r q2) (<[c := (r, p)]> (contexts (set_request st1 r q1)))) r)
      with (req (set_request st1 r q2) r).
    rewrite req_set by done.
    set (q3 := with_context q2 false).
    change (set_request (set_contexts (set_request st1 r q2) (<[c := (r, p)]> (contexts (set_request st1 r q1)))) r q3)
      with (set_contexts (set_request (set_request st1 r q2) r q3) (<[c := (r, p)]> (contexts st))).
    rewrite set_set.
    change (set_contexts (set_request st1 r q3) (<[c := (r, p)]> (contexts st)))
      with (set_request (set_contexts st1 (<[c := (r, p)]> (contexts st))) r q3).
    rewrite fail_set by done.
    assert (E3 : q3 = q1).
    { unfold q3, q2, q1. clear - Hctx. destruct q. cbn in Hctx. by subst. }
    rewrite E3. unfold request_context_destroy. cbn [contexts set_request set_contexts].
    rewrite lookup_insert_eq, delete_insert_id by done.
    set (q4 := fail_q blocked unblock q1) in *.
    change (set_contexts (set_request (set_contexts st1 (<[c := (r, p)]> (contexts st))) r q4) (contexts st))
      with (set_request st1 r q4). rewrite req_set by done. rewrite A, S. cbn [negb].
    rewrite !bool_decide_false by done. cbn [orb]. rewrite set_set, maybe_free_set by done.
    assert (E4 : maybe_free_q (with_context q4 false) = with_context q4 false).
    { unfold maybe_free_q. cbn. rewrite V1. cbn. rewrite Hact. by rewrite orb_true_r. }
    rewrite E4.
    apply (pop_ok st e ep rq d r q (with_context q4 false) (contexts st)); try done.
    + unfold local_ok in *. cbn. rewrite A in *. rewrite S in *. rewrite V1, V2. cbn. rewrite Hact.
      done.
    + cbn. by rewrite S.
    + eapply contexts_same; [done|by rewrite Hctx|apply Hok].
Qed.

Lemma try_receive_ok st p e self c handle :
  ipc_ok st -> contexts st !! c = None ->
  ipc_ok (ipc_kernel_try_receive blocked unblock st p e self c handle).2.
Proof.
  intros Hok Hfresh. unfold ipc_kernel_try_receive. destruct (p =? 0); [done|].
  destruct (endpoints st !! e) as [ep|] eqn:He; [|done]. destruct (negb _); [done|].
  destruct (self =? 0); [done|]. unfold receive_take. rewrite He.
  destruct (live ep) eqn:Hl; [|done]. cbn [negb].
  pose proof (proj1 (proj1 (ok_queues _ Hok) e ep He)) as Hring.
  destruct (event_overflow ep && _) eqn:Hov.
  { cbn [snd receive_overflow].
    pose proof (endpoint_change_ok st e ep (with_overflow ep false) Hok He Hring eq_refl eq_refl
      eq_refl) as [H1 H2 H3 H4 H5 H6]. by constructor. }
  pose proof (dequeue_ok (deliveries ep) Hring) as Hd.
  destruct (endpoint_dequeue (deliveries ep)) as [[d rq]|]; [|done].
  destruct Hd as [Hrq Hc]. by apply deliver_ok.
Qed.

(** *** Events *)

Lemma alter_insert_lookup ev st e ep :
  endpoints st !! e = Some ep ->
  set_endpoints st (alter (publish_to unblock ev) e (endpoints st)) =
    set_endpoint st e (publish_to unblock ev ep).
Proof.
  intros He. unfold set_endpoint. f_equal. apply map_eq. intros x.
  destruct (decide (x = e)) as [->|Hx].
  - by rewrite lookup_alter_eq, He, lookup_insert_eq.
  - by rewrite lookup_alter_ne, lookup_insert_ne.
Qed.

Lemma alter_None_lookup ev st e :
  endpoints st !! e = None ->
  alter (publish_to unblock ev) e (endpoints st) = endpoints st.
Proof.
  intros He. apply map_eq. intros x. destruct (decide (x = e)) as [->|Hx].
  - by rewrite lookup_alter_eq, He.
  - by rewrite lookup_alter_ne.
Qed.

Lemma resubscribe_ok st e ep classes :
  ipc_ok st -> endpoints st !! e = Some ep -> ipc_ok (set_endpoint st e (resubscribe ep classes)).
Proof.
  intros Hok He. pose proof (proj1 (proj1 (ok_queues _ Hok) e ep He)) as Hring.
  destruct (discard_ok (deliveries ep) Hring) as [H1 H2].
  eapply endpoint_change_ok; [done|done|done|done|done|].
  unfold queued. cbn. by rewrite H2, requests_of_kept.
Qed.

Lemma publish_to_ok st ev e ep :
  ipc_ok st -> endpoints st !! e = Some ep -> ipc_ok (set_endpoint st e (publish_to unblock ev ep)).
Proof.
  intros Hok He. pose proof (proj1 (proj1 (ok_queues _ Hok) e ep He)) as Hring.
  assert (Hsame : forall ep', deliveries ep' = deliveries ep -> live ep' = live ep ->
    name ep' = name ep -> ipc_ok (set_endpoint st e ep')).
  { intros ep' E1 E2 E3. eapply endpoint_change_ok; [done|done|by rewrite E1|done|done|].
    unfold queued. by rewrite E1. }
  unfold publish_to. destruct (_ || _); [by apply Hsame|].
  pose proof (enqueue_ok (Delivery true None ev) (deliveries ep) Hring) as Hen.
  unfold endpoint_enqueue_event. destruct (enqueue _ _) as [[] d]; [|by apply Hsame].
  destruct Hen as (Hr & Hc & _).
  destruct (wake_receiver_view unblock (with_deliveries ep d)) as (W1 & W2 & W3).
  eapply endpoint_change_ok; [done|done|by rewrite W1|done|done|].
  unfold queued. rewrite W1. cbn. rewrite Hc, requests_of_app. apply app_nil_r.
Qed.

Lemma publish_all_ok ev l st :
  ipc_ok st -> ipc_ok (set_endpoints st (publish_all unblock (endpoints st) l ev)).
Proof.
  revert st. induction l as [|e l IH]; intros st Hok; cbn [publish_all].
  { by destruct st. }
  specialize (IH (set_endpoints st (alter (publish_to unblock ev) e (endpoints st)))).
  apply IH. destruct (endpoints st !! e) as [ep|] eqn:He.
  - rewrite (alter_insert_lookup ev st e ep He). by apply publish_to_ok.
  - rewrite alter_None_lookup by done. by destruct st.
Qed.

Lemma publish_ok st class type resource n :
  ipc_ok st -> ipc_ok (ipc_publish_event unblock st class type resource n).
Proof.
  intros Hok. unfold ipc_publish_event. destruct (_ || _); [done|].
  destruct (take_id st) as [i st1] eqn:E.
  assert (Hok1 : ipc_ok st1).
  { unfold take_id in E. destruct (_ =? 0); injection E as _ <-;
      destruct Hok as [H1 H2 H3 H4 H5 H6]; by constructor. }
  by apply publish_all_ok.
Qed.

(** *** Registration *)

Lemma find_in_none m l n :
  (forall e, e ∈ l -> is_Some (m !! e)) -> find_in m l n = None ->
  forall e ep, e ∈ l -> m !! e = Some ep -> live ep = true -> name ep <> n.
Proof.
  induction l as [|x l IH]; intros Hall Hf e ep He Hm Hl; [by apply elem_of_nil in He|].
  cbn in Hf. destruct (Hall x) as [epx Hx]; [apply list_elem_of_here|]. rewrite Hx in Hf.
  destruct (live epx && bool_decide (name epx = n)) eqn:E; [done|].
  apply elem_of_cons in He as [->|He].
  - rewrite Hm in Hx. injection Hx as <-. rewrite Hl in E. cbn in E.
    by apply bool_decide_eq_false in E.
  - eapply IH; try done. intros y Hy. apply Hall. by apply list_elem_of_further.
Qed.

Lemma add_endpoint_ok st e ep :
  ipc_ok st -> e <> 0 -> endpoints st !! e = None -> live ep = true ->
  deliveries ep = empty_ring -> endpoint_find st (name ep) = None ->
  endpoint_count st < IPC_MAX_ENDPOINTS ->
  ipc_ok (set_list (set_endpoint st e ep) (e :: endpoint_list st) (endpoint_count st + 1)).
Proof.
  intros [H1 H2 H3 H4 [H5 H5'] (R0 & R1 & R2 & R3 & R4 & R5)] He0 He Hl Hd Hf Hc.
  assert (Hnew : forall x epx, endpoints st !! x = Some epx -> live epx = true ->
    name epx <> name ep).
  { intros x epx Hx Hlx. eapply find_in_none; [|exact Hf| |exact Hx|done].
    - intros y Hy. apply R2 in Hy as (epy & E & _). by eexists.
    - apply R2. by exists epx. }
  assert (Hcount : endpoint_count st + 1 = Z.of_nat (length (e :: endpoint_list st)))
    by (cbn [length]; lia).
  constructor; cbn; try done.
  - split.
    + intros e1 ep1 E. apply lookup_insert_Some in E as [[<- <-]|[_ E]]; [|by apply H5].
      split; [rewrite Hd; apply empty_ring_ok|]. intros _. unfold queued. rewrite Hd.
      split; [apply NoDup_nil_2|]. intros r. split; [by intros ?%elem_of_nil|].
      intros Hp. destruct (H5' r e Hp) as (ep1 & E & _). congruence.
    + intros r e1 Hp. destruct (H5' r e1 Hp) as (ep1 & E & L). exists ep1.
      rewrite lookup_insert_ne; [done|]. congruence.
  - split; [by rewrite lookup_insert_ne|]. split.
    { apply NoDup_cons. split; [|done]. intros (ep1 & E & _)%R2. congruence. }
    split; [|split; [exact Hcount|split; [lia|]]].
    + intros x. rewrite elem_of_cons. destruct (decide (x = e)) as [->|Hx].
      * split; [|by left]. intros _. exists ep. by rewrite lookup_insert_eq.
      * rewrite lookup_insert_ne by done. rewrite R2. tauto.
    + intros x y epx epy Ex Ey Lx Ly N.
      apply lookup_insert_Some in Ex as [[<- <-]|[Hx Ex]], Ey as [[<- <-]|[Hy Ey]]; [done| | |].
      * by destruct (Hnew y epy Ey Ly).
      * by destruct (Hnew x epx Ex Lx).
      * by eapply R5.
Qed.

(** *** Unregistration *)

Definition set_pool (st : ipc) (pool : list ipc_request) : ipc :=
  Ipc (endpoints st) (endpoint_list st) pool (contexts st) (outstanding st) (endpoint_count st)
    (next_request_id st).

(** What happens to each request when endpoint [e] goes. *)
Definition unregister_q (e : Z) (q : ipc_request) : ipc_request :=
  if allocated q && (r_endpoint q =? e) then fail_q blocked unblock (with_endpoint q 0) else q.

Lemma fail_requests_spec st e r n :
  (r + n <= length (request_pool st))%nat ->
  fail_requests blocked unblock st e r n =
    set_pool st (take r (request_pool st) ++
      map (unregister_q e) (take n (drop r (request_pool st))) ++ drop (r + n) (request_pool st)).
Proof.
  revert st r. induction n as [|n IH]; intros st r Hl; cbn [fail_requests].
  { rewrite Nat.add_0_r, take_0. cbn [map app]. rewrite take_drop. by destruct st. }
  destruct (lookup_lt_is_Some_2 (request_pool st) r) as [q Hq]; [lia|].
  rewrite (req_lookup st r q Hq).
  assert (E : (if allocated q && (r_endpoint q =? e)
    then request_fail blocked unblock (set_request st r (with_endpoint q 0)) r else st) =
    set_request st r (unregister_q e q)).
  { unfold unregister_q. destruct (_ && _); [apply fail_set; lia|by rewrite set_same]. }
  rewrite E, IH by (cbn; rewrite length_insert; lia).
  unfold set_pool. cbn [set_request endpoints endpoint_list request_pool contexts outstanding
    endpoint_count next_request_id]. f_equal.
  rewrite (drop_S (request_pool st) q r Hq). rewrite firstn_cons. cbn [map].
  rewrite !drop_insert_lt by lia. rewrite (take_S_r _ r (unregister_q e q))
    by (apply list_lookup_insert_eq; lia).
  rewrite take_insert_ge by lia. rewrite <- app_assoc. cbn. by rewrite Nat.add_succ_r.
Qed.

Lemma fail_all_requests st e :
  fail_requests blocked unblock st e 0 (length (request_pool st)) =
    set_pool st (map (unregister_q e) (request_pool st)).
Proof.
  rewrite fail_requests_spec by lia. rewrite take_0, drop_0. cbn [app Nat.add].
  rewrite take_ge, drop_ge by lia.
  by rewrite app_nil_r.
Qed.

Lemma unregister_q_ok e q :
  local_ok q -> local_ok (unregister_q e q) /\ same_view q (unregister_q e q) /\
  (forall x, rstate (unregister_q e q) = IPC_REQUEST_PENDING /\ r_endpoint (unregister_q e q) = x <->
     rstate q = IPC_REQUEST_PENDING /\ r_endpoint q = x /\ x <> e).
Proof.
  intros Hl. unfold unregister_q. destruct (allocated q) eqn:Ha; cbn [andb].
  2: { unfold local_ok in Hl. rewrite Ha in Hl. subst q. split; [done|]. split; [done|].
    intros x. cbn. by split; intros [? _]. }
  destruct (Z.eqb_spec (r_endpoint q) e) as [<-|Hne].
  - pose proof Hl as HL. unfold local_ok in HL. rewrite Ha in HL. destruct HL as (H1 & H2 & H3 & _).
    destruct (fail_q_referred blocked unblock (with_endpoint q 0)) as (L & V & Np); try done.
    split; [done|]. split; [done|]. intros x. split; [by intros [? _]|naive_solver].
  - split; [done|]. split; [done|]. intros x. naive_solver.
Qed.

(** A view-preserving change of all requests. *)
Lemma map_exists (f : ipc_request -> ipc_request) pool r (P Q : ipc_request -> Prop) :
  (forall q, q ∈ pool -> (P (f q) <-> Q q)) ->
  ((exists q, map f pool !! r = Some q /\ P q) <-> (exists q, pool !! r = Some q /\ Q q)).
Proof.
  intros H. rewrite list_lookup_fmap. split.
  - intros (q & Hq & Hp). destruct (pool !! r) as [x|] eqn:E; [|done]. injection Hq as <-.
    exists x. split; [done|]. apply H; [by eapply list_elem_of_lookup_2|done].
  - intros (q & Hq & Hp). rewrite Hq. exists (f q). split; [done|].
    apply H; [by eapply list_elem_of_lookup_2|done].
Qed.

Lemma unlink_spec e l :
  NoDup l -> NoDup (unlink e l) /\ (forall x, x ∈ unlink e l <-> x ∈ l /\ x <> e) /\
  (e ∈ l -> length l = S (length (unlink e l))).
Proof.
  induction l as [|x l IH]; intros Hn; cbn.
  { split; [done|]. split; [intros y; split; [by intros ?%elem_of_nil|by intros [?%elem_of_nil _]]|].
    by intros ?%elem_of_nil. }
  apply NoDup_cons in Hn as [Hx Hn]. destruct (IH Hn) as (H1 & H2 & H3).
  destruct (Z.eqb_spec x e) as [->|Hne].
  - split; [done|]. split; [|done]. intros y. rewrite elem_of_cons. split; [|tauto].
    intros Hy. split; [by right|]. by intros ->.
  - split; [apply NoDup_cons; split; [rewrite H2; tauto|done]|]. split.
    + intros y. rewrite !elem_of_cons, H2. split; [|tauto]. intros [->|?]; [|tauto]. tauto.
    + rewrite elem_of_cons. intros [?|Hin]; [congruence|]. cbn. by rewrite <- H3.
Qed.

Lemma ipc_unregister_ok st e :
  ipc_ok st -> ipc_ok (endpoint_unregister_locked blocked unblock st e).
Proof.
  intros Hok. unfold endpoint_unregister_locked. destruct (endpoints st !! e) as [ep|] eqn:He; [|done].
  destruct (live ep) eqn:Hl; [|done]. cbn [negb].
  destruct Hok as [H1 H2 H3 [H4 H4'] [H5 H5'] (R0 & R1 & R2 & R3 & R4 & R5)].
  assert (Hin : e ∈ endpoint_list st) by (apply R2; by exists ep).
  destruct (unlink_spec e (endpoint_list st) R1) as (U1 & U2 & U3). specialize (U3 Hin).
  set (st1 := set_list _ _ _). rewrite (fail_all_requests st1 e).
  change (request_pool st1) with (request_pool st).
  assert (Hv : forall q, q ∈ request_pool st -> local_ok (unregister_q e q) /\
    same_view q (unregister_q e q) /\
    (forall x, rstate (unregister_q e q) = IPC_REQUEST_PENDING /\ r_endpoint (unregister_q e q) = x <->
       rstate q = IPC_REQUEST_PENDING /\ r_endpoint q = x /\ x <> e)).
  { intros q Hq. apply unregister_q_ok. by eapply Forall_forall. }
  assert (Hpend : forall r x, pending_at (map (unregister_q e) (request_pool st)) r x <->
    pending_at (request_pool st) r x /\ x <> e).
  { intros r x. unfold pending_at. rewrite (map_exists _ _ r _
      (fun q => rstate q = IPC_REQUEST_PENDING /\ r_endpoint q = x /\ x <> e)).
    - naive_solver.
    - intros q Hq. apply (Hv q Hq). }
  constructor; cbn.
  - by rewrite length_map.
  - apply Forall_forall. intros y Hy. apply list_elem_of_fmap in Hy as (q & -> & Hq).
    by apply Hv.
  - intros p r. rewrite (H3 p r). symmetry. apply map_exists. intros q Hq.
    destruct (Hv q Hq) as (_ & (V1 & V2 & _) & _). by rewrite V1, V2.
  - split; [|done]. intros r. rewrite (H4 r). symmetry. apply map_exists. intros q Hq.
    destruct (Hv q Hq) as (_ & (_ & _ & V3) & _). by rewrite V3.
  - split.
    + intros e1 ep1 E. apply lookup_insert_Some in E as [[<- <-]|[Hne E]].
      { split; [apply (H5 e ep He)|done]. }
      destruct (H5 e1 ep1 E) as [Q1 Q2]. split; [done|]. intros L1. destruct (Q2 L1) as [Q3 Q4].
      split; [done|]. intros r. rewrite Q4, Hpend. naive_solver.
    + intros r e1 Hp. apply Hpend in Hp as [Hp Hne]. destruct (H5' r e1 Hp) as (ep1 & E & L).
      exists ep1. by rewrite lookup_insert_ne.
  - split; [rewrite lookup_insert_ne; [done|]; by intros ->; rewrite R0 in He|].
    split; [done|]. split; [|split; [|split]].
    + intros x. rewrite U2, R2. destruct (decide (x = e)) as [->|Hx].
      * rewrite lookup_insert_eq. split; [tauto|]. intros (epx & [= <-] & L). done.
      * rewrite lookup_insert_ne by done. tauto.
    + rewrite R3, U3. destruct (Z.eqb_spec (Z.of_nat (S (length (unlink e (endpoint_list st))))) 0); lia.
    + unfold IPC_MAX_ENDPOINTS in *. destruct (endpoint_count st =? 0); lia.
    + intros x y epx epy Ex Ey Lx Ly N.
      apply lookup_insert_Some in Ex as [[<- <-]|[Hx Ex]]; [done|].
      apply lookup_insert_Some in Ey as [[<- <-]|[Hy Ey]]; [done|]. by eapply R5.
Qed.

Lemma ipc_register_ok st p who n e handle :
  ipc_ok st -> endpoints st !! e = None ->
  ipc_ok (ipc_service_register blocked unblock st p who n e handle).2.
Proof.
  intros Hok He. unfold ipc_service_register. destruct (_ || _); [done|].
  destruct (negb _); [done|]. destruct (Z.eqb_spec e 0) as [|He0]; [done|].
  destruct (endpoint_find st n) eqn:Hf; [done|].
  destruct (Z.leb_spec IPC_MAX_ENDPOINTS (endpoint_count st)); [done|].
  assert (H1 : ipc_ok (set_list (set_endpoint st e
    (Endpoint n p (p_service_id who) true empty_ring 0 false 0)) (e :: endpoint_list st)
    (endpoint_count st + 1))) by by apply add_endpoint_ok.
  destruct handle; [done|]. by apply ipc_unregister_ok.
Qed.

(** *** Process exit *)

Lemma unregister_owned_ok p l st :
  ipc_ok st -> ipc_ok (unregister_owned blocked unblock st p l).
Proof.
  revert st. induction l as [|e l IH]; intros st Hok; cbn [unregister_owned]; [done|]. apply IH.
  destruct (endpoints st !! e) as [ep|]; [|done]. destruct (owner ep =? p); [|done].
  by apply ipc_unregister_ok.
Qed.

(** What becomes of a request that is not pending when its client goes. *)
Lemma left_q_ok q :
  allocated q = true -> client_active q = false -> client_process q = 0 ->
  rstate q <> IPC_REQUEST_FREE -> rstate q <> IPC_REQUEST_PENDING ->
  (rstate q = IPC_REQUEST_DELIVERED -> context_live q = true) ->
  let q' := maybe_free_q (fail_q blocked unblock q) in
  local_ok q' /\ same_view q q' /\ rstate q' <> IPC_REQUEST_PENDING.
Proof.
  intros Ha Hact Hp Hf Hnp Hd q'. unfold q'. destruct (context_live q) eqn:Hctx.
  - destruct (fail_q_referred blocked unblock q) as (L & V & Np);
      [done|done|by rewrite Hact, Hctx|by rewrite Hact, Hp|].
    assert (E : maybe_free_q (fail_q blocked unblock q) = fail_q blocked unblock q).
    { unfold maybe_free_q. destruct V as (_ & _ & V3). rewrite V3, Hctx. by rewrite !orb_true_r. }
    by rewrite E.
  - assert (E : fail_q blocked unblock q = q).
    { unfold fail_q. rewrite Ha. destruct (rstate q) eqn:Es; try done. by specialize (Hd eq_refl). }
    rewrite E. apply maybe_free_q_ok; try done; [by rewrite Hact, Hp|]. intros Es. by apply Hd in Es.
Qed.

(** Does a request belong to process [p]? *)
Definition is_client (st : ipc) (p : Z) (r : nat) : bool :=
  allocated (req st r) && (client_process (req st r) =? p).

Lemma is_client_iff st p r :
  ipc_ok st -> p <> 0 ->
  (is_client st p r = true <-> outstanding st !! p = Some r).
Proof.
  intros Hok Hp. unfold is_client. rewrite (ok_clients _ Hok p r). split.
  - unfold req. destruct (request_pool st !! r) as [q|] eqn:Hq; [|done]. cbn.
    intros [Ha Hc]%andb_true_iff. exists q. split; [done|]. apply Z.eqb_eq in Hc.
    split; [|done]. pose proof (local_at st r q Hok Hq) as HL. unfold local_ok in HL.
    rewrite Ha in HL. apply HL. congruence.
  - intros (q & Hq & Ha & Hc). rewrite (req_lookup st r q Hq), Hc, Z.eqb_refl, andb_true_r.
    pose proof (local_at st r q Hok Hq) as HL. unfold local_ok in HL.
    destruct (allocated q); [done|]. by subst q.
Qed.

(** Abandoning a pending request takes it out of its queue and frees it. *)
Lemma abandon_pending st p r q :
  ipc_ok st -> p <> 0 -> outstanding st !! p = Some r -> request_pool st !! r = Some q ->
  rstate q = IPC_REQUEST_PENDING ->
  exists ep, endpoints st !! r_endpoint q = Some ep /\
    abandon blocked unblock st p r =
      set_request (set_outstanding (set_endpoint st (r_endpoint q)
        (with_deliveries ep (endpoint_remove_request (deliveries ep) r)))
        (delete p (outstanding st))) r zero_request.
Proof.
  intros Hok Hp Ho Hq Hs. pose proof (proj2 (is_client_iff st p r Hok Hp) Ho) as Hc.
  unfold is_client in Hc. rewrite (req_lookup st r q Hq) in Hc.
  pose proof Hc as [Ha _]%andb_true_iff. pose proof (in_pool st r q Hq) as Hlt.
  destruct (proj2 (ok_queues _ Hok) r (r_endpoint q)) as (ep & He & Hl); [by exists q|].
  exists ep. split; [done|]. unfold abandon. rewrite (req_lookup st r q Hq), Hc.
  rewrite (bool_decide_true (rstate q = IPC_REQUEST_PENDING)) by done.
  assert (He0 : r_endpoint q <> 0).
  { intros E. rewrite E in He. destruct (ok_registry _ Hok) as [R0 _]. congruence. }
  replace (r_endpoint q =? 0) with false by lia. cbn [negb andb]. rewrite He.
  set (st1 := set_endpoint st _ _).
  rewrite req_set by done. rewrite set_set. set (q2 := with_client _ 0 0 false false).
  rewrite bool_decide_true by done.
  change (set_outstanding (set_request st1 r q2) _)
    with (set_request (set_outstanding st1 (delete p (outstanding st))) r q2).
  rewrite fail_set by done. rewrite maybe_free_set by done.
  assert (Hctx : context_live q = false).
  { pose proof (local_at st r q Hok Hq) as HL. unfold local_ok in HL. rewrite Ha in HL.
    by apply HL. }
  assert (E : fail_q blocked unblock q2 = zero_request) by (apply fail_q_unreferred; auto).
  rewrite E. done.
Qed.

Lemma abandon_ok st p r :
  ipc_ok st -> p <> 0 ->
  ipc_ok (abandon blocked unblock st p r) /\
  (outstanding (abandon blocked unblock st p r) =
     if decide (outstanding st !! p = Some r) then delete p (outstanding st) else outstanding st).
Proof.
  intros Hok Hp. destruct (decide (outstanding st !! p = Some r)) as [Ho|Ho].
  2: { assert (Hc : is_client st p r = false).
    { apply not_true_iff_false. by rewrite is_client_iff. }
    unfold abandon. unfold is_client in Hc. by rewrite Hc. }
  destruct (client_of st p r Hok Ho) as (q & Hq & Hact & Hcp & Hal).
  pose proof (in_pool st r q Hq) as Hlt.
  destruct (decide (rstate q = IPC_REQUEST_PENDING)) as [Hs|Hs].
  - destruct (abandon_pending st p r q Hok Hp Ho Hq Hs) as (ep & He & ->). split; [|done].
    destruct (proj1 (ok_queues _ Hok) _ ep He) as [Hring Hqq].
    destruct (proj2 (ok_queues _ Hok) r (r_endpoint q)) as (ep' & He' & Hl); [by exists q|].
    rewrite He in He'. injection He' as <-. destruct (Hqq Hl) as [Hn _].
    destruct (remove_from_ok (is_request r) (deliveries ep) Hring) as [K1 K2].
    destruct (requests_of_remove r (contents (deliveries ep)) Hn) as [K3 K4].
    fold (endpoint_remove_request (deliveries ep) r) in K1, K2. rewrite <- K2 in K3, K4.
    destruct Hok as [H1 H2 H3 H4 H5 H6].
    constructor; cbn; [by rewrite length_insert|by apply Forall_insert| | | |].
    + rewrite <- Hcp. by eapply clients_leave.
    + eapply contexts_same; [done| |done].
      pose proof (Forall_lookup_1 _ _ _ _ H2 Hq) as HL. unfold local_ok in HL. rewrite Hal in HL.
      symmetry. by apply HL.
    + by eapply queues_pop.
    + by eapply registry_requeue.
  - pose proof (proj2 (is_client_iff st p r Hok Hp) Ho) as Hc. unfold is_client in Hc.
    unfold abandon. rewrite (req_lookup st r q Hq) in *. rewrite Hc.
    rewrite (bool_decide_false (rstate q = IPC_REQUEST_PENDING)) by done. cbn [andb].
    rewrite (req_lookup st r q Hq). set (q2 := with_client q 0 0 false false). rewrite bool_decide_true by done.
    change (set_outstanding (set_request st r q2) _)
      with (set_request (set_outstanding st (delete p (outstanding st))) r q2).
    rewrite fail_set by done. rewrite maybe_free_set by done. split; [|done].
    pose proof (local_at st r q Hok Hq) as HL. unfold local_ok in HL. rewrite Hal in HL.
    destruct (left_q_ok q2) as (L & (V1 & V2 & V3) & Np); [done|done|done|apply HL|done|apply HL|].
    destruct Hok as [H1 H2 H3 H4 H5 H6].
    constructor; cbn; [by rewrite length_insert|by apply Forall_insert| | | |done].
    + rewrite <- Hcp. eapply clients_leave; [done|done|by rewrite V1|done].
    + eapply contexts_same; [done|by rewrite V3|done].
    + eapply queues_same; [done| |done]. intros e. split; intros [? _]; [done|]. by destruct Hs.
Qed.

Lemma abandon_all_ok p n r st :
  ipc_ok st -> p <> 0 ->
  ipc_ok (abandon_all blocked unblock st p r n) /\
  (forall x, outstanding (abandon_all blocked unblock st p r n) !! p = Some x ->
     outstanding st !! p = Some x /\ ~ (r <= x < r + n)%nat).
Proof.
  intros Hok Hp. revert r st Hok. induction n as [|n IH]; intros r st Hok; cbn [abandon_all].
  { split; [done|]. intros x Hx. split; [done|lia]. }
  destruct (abandon_ok st p r Hok Hp) as [Hok1 Ho1]. destruct (IH (S r) _ Hok1) as [H1 H2].
  split; [done|]. intros x Hx. destruct (H2 x Hx) as [H3 H4]. rewrite Ho1 in H3.
  case_decide as E; [by rewrite lookup_delete_eq in H3|]. split; [done|].
  intros Hr. destruct (decide (x = r)) as [->|]; [done|]. lia.
Qed.

Lemma exit_ipc_ok st p : ipc_ok st -> ipc_ok (ipc_process_exit blocked unblock st p).
Proof.
  intros Hok. unfold ipc_process_exit. destruct (Z.eqb_spec p 0) as [|Hp]; [done|].
  pose proof (unregister_owned_ok p (endpoint_list st) st Hok) as Hok1.
  set (st1 := unregister_owned blocked unblock st p (endpoint_list st)) in *.
  destruct (abandon_all_ok p (length (request_pool st1)) 0 st1 Hok1 Hp) as [Hok2 Ho].
  set (st2 := abandon_all _ _ _ _ _ _) in *.
  assert (Hn : outstanding st2 !! p = None).
  { destruct (outstanding st2 !! p) as [x|] eqn:E; [|done]. destruct (Ho x eq_refl) as [E1 Hx].
    destruct (client_of st1 p x Hok1 E1) as (q & Hq & _). apply in_pool in Hq. lia. }
  rewrite delete_id by done. by destruct st2.
Qed.

Lemma request_ok st p t who cr e m :
  ipc_ok st -> ipc_ok (ipc_kernel_request unblock st p t who cr e m).2.
Proof.
  intros Hok. unfold ipc_kernel_request. destruct (Z.eqb_spec p 0); [done|].
  destruct m as [m|]; [|done]. destruct (negb _); [done|]. destruct (e =? 0); [done|].
  destruct cr as [cr|]; [|done]. by apply submit_ok.
Qed.

Lemma subscribe_ok registry st p e who classes :
  ipc_ok st -> ipc_ok (ipc_kernel_event_subscribe registry st p e who classes).2.
Proof.
  intros Hok. unfold ipc_kernel_event_subscribe. destruct (_ || _); [done|].
  destruct (endpoints st !! e) as [ep|] eqn:He; [|done]. destruct (_ || _); [done|].
  by apply resubscribe_ok.
Qed.

Lemma unsubscribe_ok st p e : ipc_ok st -> ipc_ok (ipc_kernel_event_unsubscribe st p e).2.
Proof.
  intros Hok. unfold ipc_kernel_event_unsubscribe. destruct (p =? 0); [done|].
  destruct (endpoints st !! e) as [ep|] eqn:He; [|done]. destruct (_ || _); [done|].
  by apply resubscribe_ok.
Qed.

End Preservation.

(** * IPC as a transition system *)

(** What processes and the kernel do.  The scheduler's answers are part of each
    step; a receive is one step. *)
Inductive op :=
  | Register (p : Z) (who : process_info) (n : list Z) (e : Z) (handle : option Z)
  | Do_request (p t : Z) (who : process_info) (cr : option process_credentials_t) (e : Z)
      (m : option mg_ipc_message_t)
  | Collect (p : Z) (r : nat)
  | Receive (p e self c : Z) (handle : option Z)
  | Reply (p c : Z) (m : option mg_ipc_message_t)
  | Claim (current s : Z) (who : process_info) (c n : Z)
  | Destroy_context (c : Z)
  | Subscribe (registry : Z -> option Z) (p e : Z) (who : process_info) (classes : Z)
  | Unsubscribe (p e : Z)
  | Publish (class type resource : Z) (n : option (list Z))
  | Exit (p : Z).

(** New endpoints and contexts are at fresh addresses, and only the client of a
    request waits for it. *)
Definition allowed (st : ipc) (a : op) : Prop :=
  match a with
  | Register _ _ _ e _ => endpoints st !! e = None
  | Collect p r => outstanding st !! p = Some r
  | Receive _ _ _ c _ => contexts st !! c = None
  | _ => True
  end.

Definition run (blocked unblock : Z -> bool) (st : ipc) (a : op) : ipc :=
  match a with
  | Register p who n e handle => (ipc_service_register blocked unblock st p who n e handle).2
  | Do_request p t who cr e m => (ipc_kernel_request unblock st p t who cr e m).2
  | Collect p r => (collect st p r).2
  | Receive p e self c handle => (ipc_kernel_try_receive blocked unblock st p e self c handle).2
  | Reply p c m => (ipc_kernel_reply blocked unblock st p c m).2
  | Claim current s who c n => (ipc_request_context_claim st current s who c n).2
  | Destroy_context c => request_context_destroy blocked unblock st c
  | Subscribe registry p e who classes =>
      (ipc_kernel_event_subscribe registry st p e who classes).2
  | Unsubscribe p e => (ipc_kernel_event_unsubscribe st p e).2
  | Publish class type resource n => ipc_publish_event unblock st class type resource n
  | Exit p => ipc_process_exit blocked unblock st p
  end.

Inductive reachable : ipc -> Prop :=
  | reach_init : reachable ipc_init
  | reach_step st a blocked unblock :
      reachable st -> allowed st a -> reachable (run blocked unblock st a).

Lemma init_ok : ipc_ok ipc_init.
Proof.
  constructor; cbn [ipc_init request_pool outstanding contexts endpoints endpoint_list endpoint_count].
  - done.
  - by apply Forall_replicate.
  - intros p r. rewrite lookup_empty. split; [done|]. intros (q & Hq & Ha & _).
    apply lookup_replicate in Hq as [-> _]. done.
  - split; [|intros c c' r o o'; by rewrite lookup_empty]. intros r. split.
    + intros (c & o & E). by rewrite lookup_empty in E.
    + intros (q & Hq & Ha). apply lookup_replicate in Hq as [-> _]. done.
  - split; [intros e ep; by rewrite lookup_empty|]. intros r e (q & Hq & Ha & _).
    apply lookup_replicate in Hq as [-> _]. done.
  - split; [apply lookup_empty|]. split; [apply NoDup_nil_2|]. split; [|done].
    intros e. split; [by intros ?%elem_of_nil|]. intros (ep & E & _). by rewrite lookup_empty in E.
Qed.

Lemma step_ipc_ok blocked unblock st a :
  ipc_ok st -> allowed st a -> ipc_ok (run blocked unblock st a).
Proof.
  intros Hok Ha. destruct a; cbn [run allowed] in *.
  - by apply ipc_register_ok.
  - by apply request_ok.
  - by apply collect_ok.
  - by apply try_receive_ok.
  - by apply reply_ok.
  - by apply claim_ok.
  - by apply destroy_ok.
  - by apply subscribe_ok.
  - by apply unsubscribe_ok.
  - by apply publish_ok.
  - by apply exit_ipc_ok.
Qed.

Lemma reachable_ipc_ok st : reachable st -> ipc_ok st.
Proof. induction 1; [apply init_ok|by apply step_ipc_ok]. Qed.

(** * One request from end to end *)

(** The kernel's record of who asks. *)
Definition authenticated (who : process_info) (cr : process_credentials_t) : process_info :=
  Info (pid who) (session_id who) (p_service_id who) (system_service who) (take 31 (p_name who)) cr.

(** The request stored by a successful submission. *)
Definition submitted (i e p t : Z) (who : process_info) (cr : process_credentials_t)
    (m : mg_ipc_message_t) : ipc_request :=
  Request true i IPC_REQUEST_PENDING e p t true false false false (authenticated who cr)
    (m_type m) (m_payload m) 0 [].

(** An endpoint of [s] that is idle: nothing queued and no overflow to report. *)
Definition idle_endpoint (st : ipc) (e s : Z) (ep : ipc_endpoint) : Prop :=
  endpoints st !! e = Some ep /\ live ep = true /\ owner ep = s /\
  queue_count (deliveries ep) = 0 /\ event_overflow ep = false.

Section Round_trip.
Variables blocked unblock : Z -> bool.

Lemma request_accepted st p t who cr e s ep m :
  ipc_ok st -> p <> 0 -> e <> 0 -> idle_endpoint st e s ep -> outstanding st !! p = None ->
  ipc_message_validate (Some m) = MG_OK ->
  (exists r q, request_pool st !! r = Some q /\ allocated q = false) ->
  exists r st1 ep1 rq,
    ipc_kernel_request unblock st p t who (Some cr) e (Some m) = (inr r, st1) /\
    request_pool st !! r = Some zero_request /\
    request_pool st1 = <[r := submitted (take_id st).1 e p t who cr m]> (request_pool st) /\
    outstanding st1 = <[p := r]> (outstanding st) /\ contexts st1 = contexts st /\
    endpoints st1 !! e = Some ep1 /\ live ep1 = true /\ owner ep1 = s /\
    event_overflow ep1 = false /\
    endpoint_dequeue (deliveries ep1) = Some (Delivery false (Some r) zero_event, rq).
Proof.
  intros Hok Hp He (Hep & Hl & Ho & Hq & Hov) Hout Hm (r0 & q0 & Hr0 & Ha0).
  unfold ipc_kernel_request. replace (p =? 0) with false by lia. rewrite Hm. cbn [negb Z.eqb MG_OK].
  replace (e =? 0) with false by lia. unfold submit. rewrite Hep, Hl, Hout.
  rewrite bool_decide_false by (by intros []). cbn [negb]. rewrite Hq.
  change (IPC_MAX_QUEUE_DEPTH <=? 0) with false. cbv iota.
  unfold request_allocate_locked.
  destruct (list_find _ (request_pool st)) as [[r q]|] eqn:Hf.
  2: { apply list_find_None in Hf. rewrite Forall_lookup in Hf. by destruct (Hf _ _ Hr0). }
  apply list_find_Some in Hf as (Hr & Ha & _). assert (q = zero_request) as -> by by eapply free_slot.
  pose proof (proj1 (proj1 (ok_queues _ Hok) e ep Hep)) as Hring.
  assert (Hc0 : contents (deliveries ep) = []) by (unfold contents; by rewrite Hq).
  pose proof (enqueue_ok (Delivery false (Some r) zero_event) (deliveries ep) Hring) as Hen.
  unfold endpoint_enqueue_request. destruct (enqueue _ _) as [[] d]; [|lia].
  destruct Hen as (Hd & Hcd & _). rewrite Hc0 in Hcd. cbn [app] in Hcd.
  pose proof (dequeue_ok d Hd) as Hde. rewrite Hcd in Hde.
  destruct (endpoint_dequeue d) as [[d' rq]|] eqn:Edq; [|done]. destruct Hde as [_ [= <- _]].
  destruct (take_id _) as [i st1] eqn:Eid.
  assert (Hid : i = (take_id st).1 /\ exists n, st1 = set_next_id (set_outstanding (set_request st r
      (Request true 0 IPC_REQUEST_PENDING 0 0 0 false false false false no_info 0 [] 0 []))
      (<[p := r]> (outstanding st))) n).
  { unfold take_id in Eid |- *. cbn [next_request_id set_outstanding set_request] in Eid.
    destruct (_ =? 0); injection Eid as <- <-; split; try done; by eexists. }
  destruct Hid as [-> [n ->]].
  destruct (wake_receiver_view unblock (with_deliveries ep d)) as (W1 & W2 & W3).
  eexists r, _, _, rq. split; [reflexivity|]. split; [done|]. split.
  { cbn. by rewrite list_insert_insert_eq. }
  split; [done|]. split; [done|]. split; [cbn; apply lookup_insert_eq|].
  rewrite W1, W2. split; [done|]. unfold wake_receiver.
  destruct (_ && _); done.
Qed.

Lemma request_received st1 s e self c h r q ep1 rq :
  s <> 0 -> self <> 0 -> c <> 0 -> endpoints st1 !! e = Some ep1 -> live ep1 = true ->
  owner ep1 = s -> event_overflow ep1 = false ->
  endpoint_dequeue (deliveries ep1) = Some (Delivery false (Some r) zero_event, rq) ->
  request_pool st1 !! r = Some q -> allocated q = true -> rstate q = IPC_REQUEST_PENDING ->
  let q1 := with_context (with_state q IPC_REQUEST_DELIVERED) true in
  exists st2,
    ipc_kernel_try_receive blocked unblock st1 s e self c (Some h) =
      (Got_request (Message MG_IPC_PROTOCOL_VERSION (request_type q) (id q) (request_payload q))
         (requester q) c, st2) /\
    request_pool st2 = <[r := q1]> (request_pool st1) /\ outstanding st2 = outstanding st1 /\
    contexts st2 = <[c := (r, s)]> (contexts st1).
Proof.
  intros Hs Hself Hc He Hl Ho Hov Hd Hq Ha Hst q1. pose proof (in_pool st1 r q Hq) as Hlt.
  unfold ipc_kernel_try_receive. replace (s =? 0) with false by lia. rewrite He, Ho, Z.eqb_refl.
  replace (self =? 0) with false by lia. cbn [negb]. unfold receive_take. rewrite He, Hl, Hov, Hd.
  cbn [negb andb]. unfold deliver. cbn [is_event request]. unfold receive_mark.
  set (st' := set_endpoint st1 e _). assert (Hq' : request_pool st' !! r = Some q) by done.
  rewrite (req_lookup st' r q Hq'), Ha, bool_decide_true by done. cbn [negb orb].
  unfold receive_context. replace (c =? 0) with false by lia. rewrite req_set by done.
  cbn [allocated rstate with_state]. rewrite Ha, bool_decide_true by done. cbn [negb orb].
  rewrite set_set. eexists. split.
  - unfold request_fill_received.
    change (req (set_contexts (set_request st' r q1) ?m) r) with (req (set_request st' r q1) r).
    f_equal. unfold req. cbn. by rewrite list_lookup_insert_eq.
  - done.
Qed.

Lemma request_replied st2 s c r q m :
  s <> 0 -> contexts st2 !! c = Some (r, s) -> request_pool st2 !! r = Some q ->
  allocated q = true -> context_live q = true -> rstate q = IPC_REQUEST_DELIVERED ->
  ipc_message_validate (Some m) = MG_OK ->
  ipc_kernel_reply blocked unblock st2 s c (Some m) =
    (MG_OK, set_request st2 r (wake_q blocked unblock (with_reply q (m_type m) (m_payload m)))).
Proof.
  intros Hs Hc Hq Ha Hl Hst Hm. unfold ipc_kernel_reply. replace (s =? 0) with false by lia.
  rewrite Hm, Hc, !Z.eqb_refl. cbn [negb]. rewrite (req_lookup st2 r q Hq), Ha, Hl, Hst.
  rewrite bool_decide_true by done. cbn [negb orb]. rewrite wake_set by by eapply in_pool. done.
Qed.

(** The client takes its reply, and then the service drops the context. *)
Lemma reply_collected st3 p c s r q :
  request_pool st3 !! r = Some q -> allocated q = true -> context_live q = true ->
  rstate q = IPC_REQUEST_REPLIED -> outstanding st3 !! p = Some r ->
  contexts st3 !! c = Some (r, s) ->
  exists st4, collect st3 p r =
      (Replied (Message MG_IPC_PROTOCOL_VERSION (reply_type q) (id q) (reply_payload q)), st4) /\
    let st5 := request_context_destroy blocked unblock st4 c in
    request_pool st5 = <[r := zero_request]> (request_pool st3) /\
    outstanding st5 = delete p (outstanding st3) /\ contexts st5 = delete c (contexts st3).
Proof.
  intros Hq Ha Hl Hst Hp Hc. pose proof (in_pool st3 r q Hq) as Hlt.
  unfold collect. rewrite (req_lookup st3 r q Hq), Hst. unfold client_leaves. cbv zeta.
  rewrite (req_lookup st3 r q Hq), bool_decide_true by done.
  set (q1 := with_client q 0 0 false false).
  change (set_outstanding (set_request st3 r q1) _)
    with (set_request (set_outstanding st3 (delete p (outstanding st3))) r q1).
  rewrite maybe_free_set by done.
  assert (E : maybe_free_q q1 = q1) by (unfold maybe_free_q; cbn; by rewrite Ha, Hl).
  rewrite E. eexists. split; [reflexivity|]. cbv zeta.
  unfold request_context_destroy. cbn [contexts set_request set_outstanding]. rewrite Hc.
  set (st' := set_contexts _ _).
  assert (Hq' : request_pool st' !! r = Some q1) by (cbn; by rewrite list_lookup_insert_eq).
  rewrite (req_lookup st' r q1 Hq'). cbn [allocated q1 with_client rstate]. rewrite Ha, Hst.
  rewrite !bool_decide_false by done. cbn [negb orb].
  rewrite maybe_free_set by (cbn; by rewrite length_insert).
  assert (E' : maybe_free_q (with_context q1 false) = zero_request)
    by (unfold maybe_free_q; cbn; by rewrite Ha).
  rewrite E'. cbn. by rewrite list_insert_insert_eq.
Qed.

End Round_trip.

(** * Theorems *)


(** C26: a request is answered faithfully.  When a process asks an idle service,
    the service receives exactly the message sent, with a kernel-assigned
    number and the kernel's own record of the requester (its credentials and
    identity, not anything from the message); the client then gets exactly the
    service's reply under the same number; and when the service drops the
    context, the pool, the outstanding requests and the contexts are as before. *)
Theorem ipc_round_trip (blocked unblock : Z -> bool) (st : ipc) (p t s self e c h : Z)
    (who : process_info) (cr : process_credentials_t) (ep : ipc_endpoint)
    (m m' : mg_ipc_message_t) :
  reachable st -> p <> 0 -> s <> 0 -> self <> 0 -> e <> 0 -> c <> 0 ->
  idle_endpoint st e s ep -> outstanding st !! p = None -> contexts st !! c = None ->
  (exists r q, request_pool st !! r = Some q /\ allocated q = false) ->
  ipc_message_validate (Some m) = MG_OK -> ipc_message_validate (Some m') = MG_OK ->
  let number := (take_id st).1 in
  exists r st1 st2 st3 st4,
    ipc_kernel_request unblock st p t who (Some cr) e (Some m) = (inr r, st1) /\
    ipc_kernel_try_receive blocked unblock st1 s e self c (Some h) =
      (Got_request (Message MG_IPC_PROTOCOL_VERSION (m_type m) number (m_payload m))
         (authenticated who cr) c, st2) /\
    ipc_kernel_reply blocked unblock st2 s c (Some m') = (MG_OK, st3) /\
    collect st3 p r =
      (Replied (Message MG_IPC_PROTOCOL_VERSION (m_type m') number (m_payload m')), st4) /\
    let st5 := request_context_destroy blocked unblock st4 c in
    request_pool st5 = request_pool st /\ outstanding st5 = outstanding st /\
    contexts st5 = contexts st.
Proof.
  intros Hr Hp Hs Hself He Hc Hidle Hout Hctx Hfree Hm Hm' number.
  pose proof (reachable_ipc_ok st Hr) as Hok.
  destruct (request_accepted unblock st p t who cr e s ep m Hok Hp He Hidle Hout Hm Hfree)
    as (r & st1 & ep1 & rq & E1 & Hz & Hp1 & Ho1 & Hc1 & Hep1 & Hl1 & Hw1 & Hv1 & Hd1).
  set (q := submitted number e p t who cr m).
  pose proof (in_pool st r _ Hz) as Hlt.
  assert (Hq : request_pool st1 !! r = Some q) by (rewrite Hp1; by apply list_lookup_insert_eq).
  destruct (request_received blocked unblock st1 s e self c h r q ep1 rq) as
    (st2 & E2 & Hp2 & Ho2 & Hc2); try done.
  set (q1 := with_context (with_state q IPC_REQUEST_DELIVERED) true) in *.
  assert (Hq1 : request_pool st2 !! r = Some q1).
  { rewrite Hp2. apply list_lookup_insert_eq. rewrite Hp1. by rewrite length_insert. }
  assert (Hcc : contexts st2 !! c = Some (r, s)) by (rewrite Hc2; apply lookup_insert_eq).
  pose proof (request_replied blocked unblock st2 s c r q1 m' Hs Hcc Hq1 eq_refl eq_refl eq_refl Hm')
    as E3. set (q2 := wake_q blocked unblock _) in E3.
  destruct (wake_q_view blocked unblock (with_reply q1 (m_type m') (m_payload m')))
    as (W1 & W2 & _ & _ & _ & V3). fold q2 in W1, W2, V3.
  assert (Hq2 : request_pool (set_request st2 r q2) !! r = Some q2)
    by (apply list_lookup_insert_eq; by eapply in_pool).
  destruct (reply_collected blocked unblock (set_request st2 r q2) p c s r q2)
    as (st4 & E4 & K1 & K2 & K3); try done.
  { cbn. rewrite Ho2, Ho1. apply lookup_insert_eq. }
  exists r, st1, st2, (set_request st2 r q2), st4. split; [done|]. split; [done|].
  split; [done|]. split.
  { rewrite E4. unfold q2, wake_q. destruct (_ || _ || _); [done|]. by destruct (_ && _). }
  split; [|split].
  - rewrite K1. cbn. rewrite Hp2, Hp1, !list_insert_insert_eq. by apply list_insert_id.
  - rewrite K2. cbn. rewrite Ho2, Ho1. by apply delete_insert_id.
  - rewrite K3. cbn. rewrite Hc2, Hc1. by apply delete_insert_id.
Qed.

(** * Concrete executions *)

Definition yes (_ : Z) : bool := true.
Definition no_privileges : process_credentials_t := Credentials 1000 0 0.
Definition networkd : process_info := Info 10 0 3 true (str "networkd") (Credentials 0 2 10).
Definition sessiond : process_info := Info 11 0 1 true (str "sessiond") (Credentials 0 2 4).
Definition alice : process_info := Info 20 1 0 false (str "shoot") no_privileges.
Definition bob : process_info := Info 21 2 0 false (str "logind") no_privileges.
Definition hello : mg_ipc_message_t := Message 1 7 0 [1; 2; 3].
Definition secret : mg_ipc_message_t := Message 1 9 0 [115; 51; 99].

(** Two services: networkd (process 100, endpoint 4096) and sessiond (process
    200, endpoint 8192). *)
Definition services : ipc :=
  run yes yes (run yes yes ipc_init (Register 100 networkd (str "network") 4096 (Some 1)))
    (Register 200 sessiond (str "session") 8192 (Some 1)).

Lemma services_reachable : reachable services.
Proof.
  apply reach_step; [|reflexivity]. apply reach_step; [apply reach_init|reflexivity].
Qed.


Definition network_endpoint : ipc_endpoint := Endpoint (str "network") 100 3 true empty_ring 0 false 0.

Lemma ipc_round_trip_witness :
  exists r st1 st2, ipc_kernel_request yes services 300 301 alice (Some no_privileges) 4096 (Some hello) =
      (inr r, st1) /\
    ipc_kernel_try_receive yes yes st1 100 4096 101 12288 (Some 1) =
      (Got_request (Message 1 7 1 [1; 2; 3]) (authenticated alice no_privileges) 12288, st2).
Proof.
  destruct (ipc_round_trip yes yes services 300 301 100 101 4096 12288 1 alice no_privileges
    network_endpoint hello secret) as (r & st1 & st2 & _ & _ & H1 & H2 & _);
    [exact services_reachable|discriminate|discriminate|discriminate|discriminate|discriminate
    |split; [reflexivity|split; [reflexivity|split; [reflexivity|split; reflexivity]]]
    |reflexivity|reflexivity|exists 0%nat, zero_request; split; reflexivity
    |reflexivity|reflexivity|].
  exists r, st1, st2. split; [exact H1|exact H2].
Defined.

(** [alice] has asked networkd. *)
Definition asked : ipc :=
  run yes yes services (Do_request 300 301 alice (Some no_privileges) 4096 (Some hello)).
Definition stale : ipc_delivery_t := Delivery false (Some 0%nat) zero_event.

(** C27: a queue entry can outlive its request.  [ipc_kernel_receive_internal]
    releases the lock between dequeuing an entry and marking the request, and a
    client whose [scheduler_block] fails frees its request without taking it
    out of the queue.  In both cases the slot can be allocated to another
    client's request to another service, and the entry then delivers that
    request, with its payload, to the wrong service: here networkd (process
    100) receives what [bob] sent to sessiond (process 200). *)
Theorem stale_entry_misdelivers :
  reachable asked /\
  (owner <$> endpoints asked !! 8192) = Some 200 /\
  (receive_take asked 4096 101 false None).1 = Took stale /\
  (let dequeued := (receive_take asked 4096 101 false None).2 in
   let exited := ipc_process_exit yes yes dequeued 300 in
   let reused := (ipc_kernel_request yes exited 400 401 bob (Some no_privileges) 8192 (Some secret)).2 in
   (deliver yes yes reused 100 stale 12288 (Some 1)).1 =
     Got_request (Message 1 9 2 [115; 51; 99]) (authenticated bob no_privileges) 12288) /\
  (let failed := (block_failed yes yes asked 300 0).2 in
   let reused := (ipc_kernel_request yes failed 400 401 bob (Some no_privileges) 8192 (Some secret)).2 in
   (ipc_kernel_try_receive yes yes reused 100 4096 101 12288 (Some 1)).1 =
     Got_request (Message 1 9 2 [115; 51; 99]) (authenticated bob no_privileges) 12288).
Proof.
  split; [apply reach_step; [apply services_reachable|exact I]|].
  split; [reflexivity|]. split; [reflexivity|]. split; vm_compute; reflexivity.
Qed.

End IpcProofs.
