(* ===== verification/SchedState.v ===== *)
(** The data of the scheduler ([kernel/include/scheduler.h],
    [kernel/include/cpu.h] and the static variables of
    [kernel/src/scheduler.c]): threads, ready queues, counters, the per-CPU
    records and the scheduler's state.

    Threads are known by their addresses; a pointer that may be [NULL] is an
    option.  [THREAD_CPU_NONE] is [None] in [running_cpu].  The thread's entry
    point, name, process and floating-point area are not part of the model. *)
From stdpp Require Import gmap.
From S2P Require Import Prelude.

Module SchedState.

Inductive thread_state_t :=
  | THREAD_STATE_RUNNING | THREAD_STATE_READY | THREAD_STATE_BLOCKED | THREAD_STATE_TERMINATED.
#[export] Instance thread_state_eq_dec : EqDecision thread_state_t.
Proof. solve_decision. Defined.

Inductive thread_priority_t :=
  | THREAD_PRIORITY_HIGH | THREAD_PRIORITY_NORMAL | THREAD_PRIORITY_BACKGROUND.
#[export] Instance thread_priority_eq_dec : EqDecision thread_priority_t.
Proof. solve_decision. Defined.

(** The numeric value of a priority; a smaller number is more urgent. *)
Definition level (p : thread_priority_t) : Z :=
  match p with
  | THREAD_PRIORITY_HIGH => 0
  | THREAD_PRIORITY_NORMAL => 1
  | THREAD_PRIORITY_BACKGROUND => 2
  end.

(** [saved_flags] is the RFLAGS word of the frame at [saved_stack_pointer]. *)
Record kernel_thread := Thread {
  id : Z; state : thread_state_t; base_priority : thread_priority_t;
  effective_priority : thread_priority_t; queued : bool; wakeup_boosted : bool;
  last_selected_priority : thread_priority_t; last_selection_was_wakeup_boost : bool;
  ready_wait_ticks : Z; remaining_time_slice : Z; default_time_slice : Z; preempt_return_rip : Z;
  preempt_return_rflags : Z; preempt_return_rsp : Z; preempt_return_cs : Z;
  preempt_return_ss : Z; preempt_from_user : bool; wakeup_tick : Z; sleeping : bool;
  syscall_active : bool; syscall_nesting : Z; saved_stack_pointer : Z; saved_flags : Z;
  saved_context_valid : bool; running_cpu : option nat; cpu_time_ticks : Z;
  context_switch_pending : bool; kernel_stack_base : Z; kernel_stack_size : Z;
  stack_external : bool; waiting_mutex : option Z; mutex_wait_next : option Z;
  mutex_wake_pending : bool; next : option Z; previous : option Z;
}.

Definition set_id (v : Z) (th : kernel_thread) : kernel_thread :=
  Thread v (state th) (base_priority th) (effective_priority th) (queued th) (wakeup_boosted th)
    (last_selected_priority th) (last_selection_was_wakeup_boost th) (ready_wait_ticks th)
    (remaining_time_slice th) (default_time_slice th) (preempt_return_rip th)
    (preempt_return_rflags th) (preempt_return_rsp th) (preempt_return_cs th)
    (preempt_return_ss th) (preempt_from_user th) (wakeup_tick th) (sleeping th)
    (syscall_active th) (syscall_nesting th) (saved_stack_pointer th) (saved_flags th)
    (saved_context_valid th) (running_cpu th) (cpu_time_ticks th) (context_switch_pending th)
    (kernel_stack_base th) (kernel_stack_size th) (stack_external th) (waiting_mutex th)
    (mutex_wait_next th) (mutex_wake_pending th) (next th) (previous th).
Definition set_state (v : thread_state_t) (th : kernel_thread) : kernel_thread :=
  Thread (id th) v (base_priority th) (effective_priority th) (queued th) (wakeup_boosted th)
    (last_selected_priority th) (last_selection_was_wakeup_boost th) (ready_wait_ticks th)
    (remaining_time_slice th) (default_time_slice th) (preempt_return_rip th)
    (preempt_return_rflags th) (preempt_return_rsp th) (preempt_return_cs th)
    (preempt_return_ss th) (preempt_from_user th) (wakeup_tick th) (sleeping th)
    (syscall_active th) (syscall_nesting th) (saved_stack_pointer th) (saved_flags th)
    (saved_context_valid th) (running_cpu th) (cpu_time_ticks th) (context_switch_pending th)
    (kernel_stack_base th) (kernel_stack_size th) (stack_external th) (waiting_mutex th)
    (mutex_wait_next th) (mutex_wake_pending th) (next th) (previous th).
Definition set_effective_priority (v : thread_priority_t) (th : kernel_thread) : kernel_thread :=
  Thread (id th) (state th) (base_priority th) v (queued th) (wakeup_boosted th)
    (last_selected_priority th) (last_selection_was_wakeup_boost th) (ready_wait_ticks th)
    (remaining_time_slice th) (default_time_slice th) (preempt_return_rip th)
    (preempt_return_rflags th) (preempt_return_rsp th) (preempt_return_cs th)
    (preempt_return_ss th) (preempt_from_user th) (wakeup_tick th) (sleeping th)
    (syscall_active th) (syscall_nesting th) (saved_stack_pointer th) (saved_flags th)
    (saved_context_valid th) (running_cpu th) (cpu_time_ticks th) (context_switch_pending th)
    (kernel_stack_base th) (kernel_stack_size th) (stack_external th) (waiting_mutex th)
    (mutex_wait_next th) (mutex_wake_pending th) (next th) (previous th).
Definition set_queued (v : bool) (th : kernel_thread) : kernel_thread :=
  Thread (id th) (state th) (base_priority th) (effective_priority th) v (wakeup_boosted th)
    (last_selected_priority th) (last_selection_was_wakeup_boost th) (ready_wait_ticks th)
    (remaining_time_slice th) (default_time_slice th) (preempt_return_rip th)
    (preempt_return_rflags th) (preempt_return_rsp th) (preempt_return_cs th)
    (preempt_return_ss th) (preempt_from_user th) (wakeup_tick th) (sleeping th)
    (syscall_active th) (syscall_nesting th) (saved_stack_pointer th) (saved_flags th)
    (saved_context_valid th) (running_cpu th) (cpu_time_ticks th) (context_switch_pending th)
    (kernel_stack_base th) (kernel_stack_size th) (stack_external th) (waiting_mutex th)
    (mutex_wait_next th) (mutex_wake_pending th) (next th) (previous th).
Definition set_wakeup_boosted (v : bool) (th : kernel_thread) : kernel_thread :=
  Thread (id th) (state th) (base_priority th) (effective_priority th) (queued th) v
    (last_selected_priority th) (last_selection_was_wakeup_boost th) (ready_wait_ticks th)
    (remaining_time_slice th) (default_time_slice th) (preempt_return_rip th)
    (preempt_return_rflags th) (preempt_return_rsp th) (preempt_return_cs th)
    (preempt_return_ss th) (preempt_from_user th) (wakeup_tick th) (sleeping th)
    (syscall_active th) (syscall_nesting th) (saved_stack_pointer th) (saved_flags th)
    (saved_context_valid th) (running_cpu th) (cpu_time_ticks th) (context_switch_pending th)
    (kernel_stack_base th) (kernel_stack_size th) (stack_external th) (waiting_mutex th)
    (mutex_wait_next th) (mutex_wake_pending th) (next th) (previous th).
Definition set_last_selected_priority (v : thread_priority_t) (th : kernel_thread) : kernel_thread :=
  Thread (id th) (state th) (base_priority th) (effective_priority th) (queued th)
    (wakeup_boosted th) v (last_selection_was_wakeup_boost th) (ready_wait_ticks th)
    (remaining_time_slice th) (default_time_slice th) (preempt_return_rip th)
    (preempt_return_rflags th) (preempt_return_rsp th) (preempt_return_cs th)
    (preempt_return_ss th) (preempt_from_user th) (wakeup_tick th) (sleeping th)
    (syscall_active th) (syscall_nesting th) (saved_stack_pointer th) (saved_flags th)
    (saved_context_valid th) (running_cpu th) (cpu_time_ticks th) (context_switch_pending th)
    (kernel_stack_base th) (kernel_stack_size th) (stack_external th) (waiting_mutex th)
    (mutex_wait_next th) (mutex_wake_pending th) (next th) (previous th).
Definition set_last_selection_was_wakeup_boost (v : bool) (th : kernel_thread) : kernel_thread :=
  Thread (id th) (state th) (base_priority th) (effective_priority th) (queued th)
    (wakeup_boosted th) (last_selected_priority th) v (ready_wait_ticks th)
    (remaining_time_slice th) (default_time_slice th) (preempt_return_rip th)
    (preempt_return_rflags th) (preempt_return_rsp th) (preempt_return_cs th)
    (preempt_return_ss th) (preempt_from_user th) (wakeup_tick th) (sleeping th)
    (syscall_active th) (syscall_nesting th) (saved_stack_pointer th) (saved_flags th)
    (saved_context_valid th) (running_cpu th) (cpu_time_ticks th) (context_switch_pending th)
    (kernel_stack_base th) (kernel_stack_size th) (stack_external th) (waiting_mutex th)
    (mutex_wait_next th) (mutex_wake_pending th) (next th) (previous th).
Definition set_ready_wait_ticks (v : Z) (th : kernel_thread) : kernel_thread :=
  Thread (id th) (state th) (base_priority th) (effective_priority th) (queued th)
    (wakeup_boosted th) (last_selected_priority th) (last_selection_was_wakeup_boost th) v
    (remaining_time_slice th) (default_time_slice th) (preempt_return_rip th)
    (preempt_return_rflags th) (preempt_return_rsp th) (preempt_return_cs th)
    (preempt_return_ss th) (preempt_from_user th) (wakeup_tick th) (sleeping th)
    (syscall_active th) (syscall_nesting th) (saved_stack_pointer th) (saved_flags th)
    (saved_context_valid th) (running_cpu th) (cpu_time_ticks th) (context_switch_pending th)
    (kernel_stack_base th) (kernel_stack_size th) (stack_external th) (waiting_mutex th)
    (mutex_wait_next th) (mutex_wake_pending th) (next th) (previous th).
Definition set_remaining_time_slice (v : Z) (th : kernel_thread) : kernel_thread :=
  Thread (id th) (state th) (base_priority th) (effective_priority th) (queued th)
    (wakeup_boosted th) (last_selected_priority th) (last_selection_was_wakeup_boost th)
    (ready_wait_ticks th) v (default_time_slice th) (preempt_return_rip th)
    (preempt_return_rflags th) (preempt_return_rsp th) (preempt_return_cs th)
    (preempt_return_ss th) (preempt_from_user th) (wakeup_tick th) (sleeping th)
    (syscall_active th) (syscall_nesting th) (saved_stack_pointer th) (saved_flags th)
    (saved_context_valid th) (running_cpu th) (cpu_time_ticks th) (context_switch_pending th)
    (kernel_stack_base th) (kernel_stack_size th) (stack_external th) (waiting_mutex th)
    (mutex_wait_next th) (mutex_wake_pending th) (next th) (previous th).
Definition set_preempt_return_rip (v : Z) (th : kernel_thread) : kernel_thread :=
  Thread (id th) (state th) (base_priority th) (effective_priority th) (queued th)
    (wakeup_boosted th) (last_selected_priority th) (last_selection_was_wakeup_boost th)
    (ready_wait_ticks th) (remaining_time_slice th) (default_time_slice th) v
    (preempt_return_rflags th) (preempt_return_rsp th) (preempt_return_cs th)
    (preempt_return_ss th) (preempt_from_user th) (wakeup_tick th) (sleeping th)
    (syscall_active th) (syscall_nesting th) (saved_stack_pointer th) (saved_flags th)
    (saved_context_valid th) (running_cpu th) (cpu_time_ticks th) (context_switch_pending th)
    (kernel_stack_base th) (kernel_stack_size th) (stack_external th) (waiting_mutex th)
    (mutex_wait_next th) (mutex_wake_pending th) (next th) (previous th).
Definition set_preempt_return_rflags (v : Z) (th : kernel_thread) : kernel_thread :=
  Thread (id th) (state th) (base_priority th) (effective_priority th) (queued th)
    (wakeup_boosted th) (last_selected_priority th) (last_selection_was_wakeup_boost th)
    (ready_wait_ticks th) (remaining_time_slice th) (default_time_slice th)
    (preempt_return_rip th) v (preempt_return_rsp th) (preempt_return_cs th)
    (preempt_return_ss th) (preempt_from_user th) (wakeup_tick th) (sleeping th)
    (syscall_active th) (syscall_nesting th) (saved_stack_pointer th) (saved_flags th)
    (saved_context_valid th) (running_cpu th) (cpu_time_ticks th) (context_switch_pending th)
    (kernel_stack_base th) (kernel_stack_size th) (stack_external th) (waiting_mutex th)
    (mutex_wait_next th) (mutex_wake_pending th) (next th) (previous th).
Definition set_preempt_return_rsp (v : Z) (th : kernel_thread) : kernel_thread :=
  Thread (id th) (state th) (base_priority th) (effective_priority th) (queued th)
    (wakeup_boosted th) (last_selected_priority th) (last_selection_was_wakeup_boost th)
    (ready_wait_ticks th) (remaining_time_slice th) (default_time_slice th)
    (preempt_return_rip th) (preempt_return_rflags th) v (preempt_return_cs th)
    (preempt_return_ss th) (preempt_from_user th) (wakeup_tick th) (sleeping th)
    (syscall_active th) (syscall_nesting th) (saved_stack_pointer th) (saved_flags th)
    (saved_context_valid th) (running_cpu th) (cpu_time_ticks th) (context_switch_pending th)
    (kernel_stack_base th) (kernel_stack_size th) (stack_external th) (waiting_mutex th)
    (mutex_wait_next th) (mutex_wake_pending th) (next th) (previous th).
Definition set_preempt_return_cs (v : Z) (th : kernel_thread) : kernel_thread :=
  Thread (id th) (state th) (base_priority th) (effective_priority th) (queued th)
    (wakeup_boosted th) (last_selected_priority th) (last_selection_was_wakeup_boost th)
    (ready_wait_ticks th) (remaining_time_slice th) (default_time_slice th)
    (preempt_return_rip th) (preempt_return_rflags th) (preempt_return_rsp th) v
    (preempt_return_ss th) (preempt_from_user th) (wakeup_tick th) (sleeping th)
    (syscall_active th) (syscall_nesting th) (saved_stack_pointer th) (saved_flags th)
    (saved_context_valid th) (running_cpu th) (cpu_time_ticks th) (context_switch_pending th)
    (kernel_stack_base th) (kernel_stack_size th) (stack_external th) (waiting_mutex th)
    (mutex_wait_next th) (mutex_wake_pending th) (next th) (previous th).
Definition set_preempt_return_ss (v : Z) (th : kernel_thread) : kernel_thread :=
  Thread (id th) (state th) (base_priority th) (effective_priority th) (queued th)
    (wakeup_boosted th) (last_selected_priority th) (last_selection_was_wakeup_boost th)
    (ready_wait_ticks th) (remaining_time_slice th) (default_time_slice th)
    (preempt_return_rip th) (preempt_return_rflags th) (preempt_return_rsp th)
    (preempt_return_cs th) v (preempt_from_user th) (wakeup_tick th) (sleeping th)
    (syscall_active th) (syscall_nesting th) (saved_stack_pointer th) (saved_flags th)
    (saved_context_valid th) (running_cpu th) (cpu_time_ticks th) (context_switch_pending th)
    (kernel_stack_base th) (kernel_stack_size th) (stack_external th) (waiting_mutex th)
    (mutex_wait_next th) (mutex_wake_pending th) (next th) (previous th).
Definition set_preempt_from_user (v : bool) (th : kernel_thread) : kernel_thread :=
  Thread (id th) (state th) (base_priority th) (effective_priority th) (queued th)
    (wakeup_boosted th) (last_selected_priority th) (last_selection_was_wakeup_boost th)
    (ready_wait_ticks th) (remaining_time_slice th) (default_time_slice th)
    (preempt_return_rip th) (preempt_return_rflags th) (preempt_return_rsp th)
    (preempt_return_cs th) (preempt_return_ss th) v (wakeup_tick th) (sleeping th)
    (syscall_active th) (syscall_nesting th) (saved_stack_pointer th) (saved_flags th)
    (saved_context_valid th) (running_cpu th) (cpu_time_ticks th) (context_switch_pending th)
    (kernel_stack_base th) (kernel_stack_size th) (stack_external th) (waiting_mutex th)
    (mutex_wait_next th) (mutex_wake_pending th) (next th) (previous th).
Definition set_wakeup_tick (v : Z) (th : kernel_thread) : kernel_thread :=
  Thread (id th) (state th) (base_priority th) (effective_priority th) (queued th)
    (wakeup_boosted th) (last_selected_priority th) (last_selection_was_wakeup_boost th)
    (ready_wait_ticks th) (remaining_time_slice th) (default_time_slice th)
    (preempt_return_rip th) (preempt_return_rflags th) (preempt_return_rsp th)
    (preempt_return_cs th) (preempt_return_ss th) (preempt_from_user th) v (sleeping th)
    (syscall_active th) (syscall_nesting th) (saved_stack_pointer th) (saved_flags th)
    (saved_context_valid th) (running_cpu th) (cpu_time_ticks th) (context_switch_pending th)
    (kernel_stack_base th) (kernel_stack_size th) (stack_external th) (waiting_mutex th)
    (mutex_wait_next th) (mutex_wake_pending th) (next th) (previous th).
Definition set_sleeping (v : bool) (th : kernel_thread) : kernel_thread :=
  Thread (id th) (state th) (base_priority th) (effective_priority th) (queued th)
    (wakeup_boosted th) (last_selected_priority th) (last_selection_was_wakeup_boost th)
    (ready_wait_ticks th) (remaining_time_slice th) (default_time_slice th)
    (preempt_return_rip th) (preempt_return_rflags th) (preempt_return_rsp th)
    (preempt_return_cs th) (preempt_return_ss th) (preempt_from_user th) (wakeup_tick th) v
    (syscall_active th) (syscall_nesting th) (saved_stack_pointer th) (saved_flags th)
    (saved_context_valid th) (running_cpu th) (cpu_time_ticks th) (context_switch_pending th)
    (kernel_stack_base th) (kernel_stack_size th) (stack_external th) (waiting_mutex th)
    (mutex_wait_next th) (mutex_wake_pending th) (next th) (previous th).
Definition set_syscall_active (v : bool) (th : kernel_thread) : kernel_thread :=
  Thread (id th) (state th) (base_priority th) (effective_priority th) (queued th)
    (wakeup_boosted th) (last_selected_priority th) (last_selection_was_wakeup_boost th)
    (ready_wait_ticks th) (remaining_time_slice th) (default_time_slice th)
    (preempt_return_rip th) (preempt_return_rflags th) (preempt_return_rsp th)
    (preempt_return_cs th) (preempt_return_ss th) (preempt_from_user th) (wakeup_tick th)
    (sleeping th) v (syscall_nesting th) (saved_stack_pointer th) (saved_flags th)
    (saved_context_valid th) (running_cpu th) (cpu_time_ticks th) (context_switch_pending th)
    (kernel_stack_base th) (kernel_stack_size th) (stack_external th) (waiting_mutex th)
    (mutex_wait_next th) (mutex_wake_pending th) (next th) (previous th).
Definition set_syscall_nesting (v : Z) (th : kernel_thread) : kernel_thread :=
  Thread (id th) (state th) (base_priority th) (effective_priority th) (queued th)
    (wakeup_boosted th) (last_selected_priority th) (last_selection_was_wakeup_boost th)
    (ready_wait_ticks th) (remaining_time_slice th) (default_time_slice th)
    (preempt_return_rip th) (preempt_return_rflags th) (preempt_return_rsp th)
    (preempt_return_cs th) (preempt_return_ss th) (preempt_from_user th) (wakeup_tick th)
    (sleeping th) (syscall_active th) v (saved_stack_pointer th) (saved_flags th)
    (saved_context_valid th) (running_cpu th) (cpu_time_ticks th) (context_switch_pending th)
    (kernel_stack_base th) (kernel_stack_size th) (stack_external th) (waiting_mutex th)
    (mutex_wait_next th) (mutex_wake_pending th) (next th) (previous th).
Definition set_saved_stack_pointer (v : Z) (th : kernel_thread) : kernel_thread :=
  Thread (id th) (state th) (base_priority th) (effective_priority th) (queued th)
    (wakeup_boosted th) (last_selected_priority th) (last_selection_was_wakeup_boost th)
    (ready_wait_ticks th) (remaining_time_slice th) (default_time_slice th)
    (preempt_return_rip th) (preempt_return_rflags th) (preempt_return_rsp th)
    (preempt_return_cs th) (preempt_return_ss th) (preempt_from_user th) (wakeup_tick th)
    (sleeping th) (syscall_active th) (syscall_nesting th) v (saved_flags th)
    (saved_context_valid th) (running_cpu th) (cpu_time_ticks th) (context_switch_pending th)
    (kernel_stack_base th) (kernel_stack_size th) (stack_external th) (waiting_mutex th)
    (mutex_wait_next th) (mutex_wake_pending th) (next th) (previous th).
Definition set_saved_flags (v : Z) (th : kernel_thread) : kernel_thread :=
  Thread (id th) (state th) (base_priority th) (effective_priority th) (queued th)
    (wakeup_boosted th) (last_selected_priority th) (last_selection_was_wakeup_boost th)
    (ready_wait_ticks th) (remaining_time_slice th) (default_time_slice th)
    (preempt_return_rip th) (preempt_return_rflags th) (preempt_return_rsp th)
    (preempt_return_cs th) (preempt_return_ss th) (preempt_from_user th) (wakeup_tick th)
    (sleeping th) (syscall_active th) (syscall_nesting th) (saved_stack_pointer th) v
    (saved_context_valid th) (running_cpu th) (cpu_time_ticks th) (context_switch_pending th)
    (kernel_stack_base th) (kernel_stack_size th) (stack_external th) (waiting_mutex th)
    (mutex_wait_next th) (mutex_wake_pending th) (next th) (previous th).
Definition set_saved_context_valid (v : bool) (th : kernel_thread) : kernel_thread :=
  Thread (id th) (state th) (base_priority th) (effective_priority th) (queued th)
    (wakeup_boosted th) (last_selected_priority th) (last_selection_was_wakeup_boost th)
    (ready_wait_ticks th) (remaining_time_slice th) (default_time_slice th)
    (preempt_return_rip th) (preempt_return_rflags th) (preempt_return_rsp th)
    (preempt_return_cs th) (preempt_return_ss th) (preempt_from_user th) (wakeup_tick th)
    (sleeping th) (syscall_active th) (syscall_nesting th) (saved_stack_pointer th)
    (saved_flags th) v (running_cpu th) (cpu_time_ticks th) (context_switch_pending th)
    (kernel_stack_base th) (kernel_stack_size th) (stack_external th) (waiting_mutex th)
    (mutex_wait_next th) (mutex_wake_pending th) (next th) (previous th).
Definition set_running_cpu (v : option nat) (th : kernel_thread) : kernel_thread :=
  Thread (id th) (state th) (base_priority th) (effective_priority th) (queued th)
    (wakeup_boosted th) (last_selected_priority th) (last_selection_was_wakeup_boost th)
    (ready_wait_ticks th) (remaining_time_slice th) (default_time_slice th)
    (preempt_return_rip th) (preempt_return_rflags th) (preempt_return_rsp th)
    (preempt_return_cs th) (preempt_return_ss th) (preempt_from_user th) (wakeup_tick th)
    (sleeping th) (syscall_active th) (syscall_nesting th) (saved_stack_pointer th)
    (saved_flags th) (saved_context_valid th) v (cpu_time_ticks th) (context_switch_pending th)
    (kernel_stack_base th) (kernel_stack_size th) (stack_external th) (waiting_mutex th)
    (mutex_wait_next th) (mutex_wake_pending th) (next th) (previous th).
Definition set_cpu_time_ticks (v : Z) (th : kernel_thread) : kernel_thread :=
  Thread (id th) (state th) (base_priority th) (effective_priority th) (queued th)
    (wakeup_boosted th) (last_selected_priority th) (last_selection_was_wakeup_boost th)
    (ready_wait_ticks th) (remaining_time_slice th) (default_time_slice th)
    (preempt_return_rip th) (preempt_return_rflags th) (preempt_return_rsp th)
    (preempt_return_cs th) (preempt_return_ss th) (preempt_from_user th) (wakeup_tick th)
    (sleeping th) (syscall_active th) (syscall_nesting th) (saved_stack_pointer th)
    (saved_flags th) (saved_context_valid th) (running_cpu th) v (context_switch_pending th)
    (kernel_stack_base th) (kernel_stack_size th) (stack_external th) (waiting_mutex th)
    (mutex_wait_next th) (mutex_wake_pending th) (next th) (previous th).
Definition set_context_switch_pending (v : bool) (th : kernel_thread) : kernel_thread :=
  Thread (id th) (state th) (base_priority th) (effective_priority th) (queued th)
    (wakeup_boosted th) (last_selected_priority th) (last_selection_was_wakeup_boost th)
    (ready_wait_ticks th) (remaining_time_slice th) (default_time_slice th)
    (preempt_return_rip th) (preempt_return_rflags th) (preempt_return_rsp th)
    (preempt_return_cs th) (preempt_return_ss th) (preempt_from_user th) (wakeup_tick th)
    (sleeping th) (syscall_active th) (syscall_nesting th) (saved_stack_pointer th)
    (saved_flags th) (saved_context_valid th) (running_cpu th) (cpu_time_ticks th) v
    (kernel_stack_base th) (kernel_stack_size th) (stack_external th) (waiting_mutex th)
    (mutex_wait_next th) (mutex_wake_pending th) (next th) (previous th).
Definition set_waiting_mutex (v : option Z) (th : kernel_thread) : kernel_thread :=
  Thread (id th) (state th) (base_priority th) (effective_priority th) (queued th)
    (wakeup_boosted th) (last_selected_priority th) (last_selection_was_wakeup_boost th)
    (ready_wait_ticks th) (remaining_time_slice th) (default_time_slice th)
    (preempt_return_rip th) (preempt_return_rflags th) (preempt_return_rsp th)
    (preempt_return_cs th) (preempt_return_ss th) (preempt_from_user th) (wakeup_tick th)
    (sleeping th) (syscall_active th) (syscall_nesting th) (saved_stack_pointer th)
    (saved_flags th) (saved_context_valid th) (running_cpu th) (cpu_time_ticks th)
    (context_switch_pending th) (kernel_stack_base th) (kernel_stack_size th) (stack_external th)
    v (mutex_wait_next th) (mutex_wake_pending th) (next th) (previous th).
Definition set_mutex_wait_next (v : option Z) (th : kernel_thread) : kernel_thread :=
  Thread (id th) (state th) (base_priority th) (effective_priority th) (queued th)
    (wakeup_boosted th) (last_selected_priority th) (last_selection_was_wakeup_boost th)
    (ready_wait_ticks th) (remaining_time_slice th) (default_time_slice th)
    (preempt_return_rip th) (preempt_return_rflags th) (preempt_return_rsp th)
    (preempt_return_cs th) (preempt_return_ss th) (preempt_from_user th) (wakeup_tick th)
    (sleeping th) (syscall_active th) (syscall_nesting th) (saved_stack_pointer th)
    (saved_flags th) (saved_context_valid th) (running_cpu th) (cpu_time_ticks th)
    (context_switch_pending th) (kernel_stack_base th) (kernel_stack_size th) (stack_external th)
    (waiting_mutex th) v (mutex_wake_pending th) (next th) (previous th).
Definition set_mutex_wake_pending (v : bool) (th : kernel_thread) : kernel_thread :=
  Thread (id th) (state th) (base_priority th) (effective_priority th) (queued th)
    (wakeup_boosted th) (last_selected_priority th) (last_selection_was_wakeup_boost th)
    (ready_wait_ticks th) (remaining_time_slice th) (default_time_slice th)
    (preempt_return_rip th) (preempt_return_rflags th) (preempt_return_rsp th)
    (preempt_return_cs th) (preempt_return_ss th) (preempt_from_user th) (wakeup_tick th)
    (sleeping th) (syscall_active th) (syscall_nesting th) (saved_stack_pointer th)
    (saved_flags th) (saved_context_valid th) (running_cpu th) (cpu_time_ticks th)
    (context_switch_pending th) (kernel_stack_base th) (kernel_stack_size th) (stack_external th)
    (waiting_mutex th) (mutex_wait_next th) v (next th) (previous th).
Definition set_next (v : option Z) (th : kernel_thread) : kernel_thread :=
  Thread (id th) (state th) (base_priority th) (effective_priority th) (queued th)
    (wakeup_boosted th) (last_selected_priority th) (last_selection_was_wakeup_boost th)
    (ready_wait_ticks th) (remaining_time_slice th) (default_time_slice th)
    (preempt_return_rip th) (preempt_return_rflags th) (preempt_return_rsp th)
    (preempt_return_cs th) (preempt_return_ss th) (preempt_from_user th) (wakeup_tick th)
    (sleeping th) (syscall_active th) (syscall_nesting th) (saved_stack_pointer th)
    (saved_flags th) (saved_context_valid th) (running_cpu th) (cpu_time_ticks th)
    (context_switch_pending th) (kernel_stack_base th) (kernel_stack_size th) (stack_external th)
    (waiting_mutex th) (mutex_wait_next th) (mutex_wake_pending th) v (previous th).
Definition set_previous (v : option Z) (th : kernel_thread) : kernel_thread :=
  Thread (id th) (state th) (base_priority th) (effective_priority th) (queued th)
    (wakeup_boosted th) (last_selected_priority th) (last_selection_was_wakeup_boost th)
    (ready_wait_ticks th) (remaining_time_slice th) (default_time_slice th)
    (preempt_return_rip th) (preempt_return_rflags th) (preempt_return_rsp th)
    (preempt_return_cs th) (preempt_return_ss th) (preempt_from_user th) (wakeup_tick th)
    (sleeping th) (syscall_active th) (syscall_nesting th) (saved_stack_pointer th)
    (saved_flags th) (saved_context_valid th) (running_cpu th) (cpu_time_ticks th)
    (context_switch_pending th) (kernel_stack_base th) (kernel_stack_size th) (stack_external th)
    (waiting_mutex th) (mutex_wait_next th) (mutex_wake_pending th) (next th) v.

(** * Ready queues *)

Record thread_ready_queue_t := Queue { head_ : option Z; tail_ : option Z; count : Z }.

(** * Counters *)

(** [n_sleeping] and [n_blocked] are [sleeping_threads] and [blocked_threads] of
    [scheduler_stats_t]; [dispatches_*] are its array [dispatches]. *)
Record scheduler_stats_t := Stats {
  context_switches : Z; timer_preemptions : Z; voluntary_yields : Z; blocks : Z; wakeups : Z;
  n_sleeping : Z; n_blocked : Z; peak_runnable_threads : Z; idle_runtime_ticks : Z;
  dispatches_high : Z; dispatches_normal : Z; dispatches_background : Z;
}.

Definition set_context_switches (v : Z) (st : scheduler_stats_t) : scheduler_stats_t :=
  Stats v (timer_preemptions st) (voluntary_yields st) (blocks st) (wakeups st) (n_sleeping st)
    (n_blocked st) (peak_runnable_threads st) (idle_runtime_ticks st) (dispatches_high st)
    (dispatches_normal st) (dispatches_background st).
Definition set_timer_preemptions (v : Z) (st : scheduler_stats_t) : scheduler_stats_t :=
  Stats (context_switches st) v (voluntary_yields st) (blocks st) (wakeups st) (n_sleeping st)
    (n_blocked st) (peak_runnable_threads st) (idle_runtime_ticks st) (dispatches_high st)
    (dispatches_normal st) (dispatches_background st).
Definition set_voluntary_yields (v : Z) (st : scheduler_stats_t) : scheduler_stats_t :=
  Stats (context_switches st) (timer_preemptions st) v (blocks st) (wakeups st) (n_sleeping st)
    (n_blocked st) (peak_runnable_threads st) (idle_runtime_ticks st) (dispatches_high st)
    (dispatches_normal st) (dispatches_background st).
Definition set_blocks (v : Z) (st : scheduler_stats_t) : scheduler_stats_t :=
  Stats (context_switches st) (timer_preemptions st) (voluntary_yields st) v (wakeups st)
    (n_sleeping st) (n_blocked st) (peak_runnable_threads st) (idle_runtime_ticks st)
    (dispatches_high st) (dispatches_normal st) (dispatches_background st).
Definition set_wakeups (v : Z) (st : scheduler_stats_t) : scheduler_stats_t :=
  Stats (context_switches st) (timer_preemptions st) (voluntary_yields st) (blocks st) v
    (n_sleeping st) (n_blocked st) (peak_runnable_threads st) (idle_runtime_ticks st)
    (dispatches_high st) (dispatches_normal st) (dispatches_background st).
Definition set_n_sleeping (v : Z) (st : scheduler_stats_t) : scheduler_stats_t :=
  Stats (context_switches st) (timer_preemptions st) (voluntary_yields st) (blocks st)
    (wakeups st) v (n_blocked st) (peak_runnable_threads st) (idle_runtime_ticks st)
    (dispatches_high st) (dispatches_normal st) (dispatches_background st).
Definition set_n_blocked (v : Z) (st : scheduler_stats_t) : scheduler_stats_t :=
  Stats (context_switches st) (timer_preemptions st) (voluntary_yields st) (blocks st)
    (wakeups st) (n_sleeping st) v (peak_runnable_threads st) (idle_runtime_ticks st)
    (dispatches_high st) (dispatches_normal st) (dispatches_background st).
Definition set_peak_runnable_threads (v : Z) (st : scheduler_stats_t) : scheduler_stats_t :=
  Stats (context_switches st) (timer_preemptions st) (voluntary_yields st) (blocks st)
    (wakeups st) (n_sleeping st) (n_blocked st) v (idle_runtime_ticks st) (dispatches_high st)
    (dispatches_normal st) (dispatches_background st).
Definition set_idle_runtime_ticks (v : Z) (st : scheduler_stats_t) : scheduler_stats_t :=
  Stats (context_switches st) (timer_preemptions st) (voluntary_yields st) (blocks st)
    (wakeups st) (n_sleeping st) (n_blocked st) (peak_runnable_threads st) v (dispatches_high st)
    (dispatches_normal st) (dispatches_background st).
Definition set_dispatches_high (v : Z) (st : scheduler_stats_t) : scheduler_stats_t :=
  Stats (context_switches st) (timer_preemptions st) (voluntary_yields st) (blocks st)
    (wakeups st) (n_sleeping st) (n_blocked st) (peak_runnable_threads st) (idle_runtime_ticks st)
    v (dispatches_normal st) (dispatches_background st).
Definition set_dispatches_normal (v : Z) (st : scheduler_stats_t) : scheduler_stats_t :=
  Stats (context_switches st) (timer_preemptions st) (voluntary_yields st) (blocks st)
    (wakeups st) (n_sleeping st) (n_blocked st) (peak_runnable_threads st) (idle_runtime_ticks st)
    (dispatches_high st) v (dispatches_background st).
Definition set_dispatches_background (v : Z) (st : scheduler_stats_t) : scheduler_stats_t :=
  Stats (context_switches st) (timer_preemptions st) (voluntary_yields st) (blocks st)
    (wakeups st) (n_sleeping st) (n_blocked st) (peak_runnable_threads st) (idle_runtime_ticks st)
    (dispatches_high st) (dispatches_normal st) v.

(** * Per-CPU records *)

(** Where a CPU is in [thread_context_switch] ([context_switch.s]): the switch
    away from [outgoing] to the stack pointer [incoming_rsp] has begun and its
    frame is not saved yet, or is saved while the CPU is still on the outgoing
    stack. *)
Inductive switch_phase :=
  | NoSwitch
  | Saving (outgoing incoming_rsp flags : Z)
  | Completing (outgoing : Z).
#[export] Instance switch_phase_eq_dec : EqDecision switch_phase.
Proof. solve_decision. Defined.

Record cpu_local := Cpu {
  bsp : bool; online : bool; current_thread : option Z; idle_thread : option Z;
  preemption_pending : bool; context_switching : bool; accounted_ticks : Z; busy_ticks : Z;
  switching : switch_phase;
}.

Definition set_online (v : bool) (c : cpu_local) : cpu_local :=
  Cpu (bsp c) v (current_thread c) (idle_thread c) (preemption_pending c) (context_switching c)
    (accounted_ticks c) (busy_ticks c) (switching c).
Definition set_current_thread (v : option Z) (c : cpu_local) : cpu_local :=
  Cpu (bsp c) (online c) v (idle_thread c) (preemption_pending c) (context_switching c)
    (accounted_ticks c) (busy_ticks c) (switching c).
Definition set_idle_thread (v : option Z) (c : cpu_local) : cpu_local :=
  Cpu (bsp c) (online c) (current_thread c) v (preemption_pending c) (context_switching c)
    (accounted_ticks c) (busy_ticks c) (switching c).
Definition set_preemption_pending (v : bool) (c : cpu_local) : cpu_local :=
  Cpu (bsp c) (online c) (current_thread c) (idle_thread c) v (context_switching c)
    (accounted_ticks c) (busy_ticks c) (switching c).
Definition set_context_switching (v : bool) (c : cpu_local) : cpu_local :=
  Cpu (bsp c) (online c) (current_thread c) (idle_thread c) (preemption_pending c) v
    (accounted_ticks c) (busy_ticks c) (switching c).
Definition set_accounted_ticks (v : Z) (c : cpu_local) : cpu_local :=
  Cpu (bsp c) (online c) (current_thread c) (idle_thread c) (preemption_pending c)
    (context_switching c) v (busy_ticks c) (switching c).
Definition set_busy_ticks (v : Z) (c : cpu_local) : cpu_local :=
  Cpu (bsp c) (online c) (current_thread c) (idle_thread c) (preemption_pending c)
    (context_switching c) (accounted_ticks c) v (switching c).
Definition set_switching (v : switch_phase) (c : cpu_local) : cpu_local :=
  Cpu (bsp c) (online c) (current_thread c) (idle_thread c) (preemption_pending c)
    (context_switching c) (accounted_ticks c) (busy_ticks c) v.

(** * The scheduler *)

(** [cpu_count] is the number of CPUs discovered by [cpu_init_bsp], zero before
    it. *)
Record sched := Sched {
  threads : gmap Z kernel_thread; ready_high : thread_ready_queue_t;
  ready_normal : thread_ready_queue_t; ready_background : thread_ready_queue_t;
  sleeping_threads : option Z; next_thread_id : Z; scheduler_tick_count : Z;
  stats : scheduler_stats_t; cpus : list cpu_local; cpu_count : nat;
}.

Definition set_threads (v : gmap Z kernel_thread) (s : sched) : sched :=
  Sched v (ready_high s) (ready_normal s) (ready_background s) (sleeping_threads s)
    (next_thread_id s) (scheduler_tick_count s) (stats s) (cpus s) (cpu_count s).
Definition set_ready_high (v : thread_ready_queue_t) (s : sched) : sched :=
  Sched (threads s) v (ready_normal s) (ready_background s) (sleeping_threads s)
    (next_thread_id s) (scheduler_tick_count s) (stats s) (cpus s) (cpu_count s).
Definition set_ready_normal (v : thread_ready_queue_t) (s : sched) : sched :=
  Sched (threads s) (ready_high s) v (ready_background s) (sleeping_threads s) (next_thread_id s)
    (scheduler_tick_count s) (stats s) (cpus s) (cpu_count s).
Definition set_ready_background (v : thread_ready_queue_t) (s : sched) : sched :=
  Sched (threads s) (ready_high s) (ready_normal s) v (sleeping_threads s) (next_thread_id s)
    (scheduler_tick_count s) (stats s) (cpus s) (cpu_count s).
Definition set_sleeping_threads (v : option Z) (s : sched) : sched :=
  Sched (threads s) (ready_high s) (ready_normal s) (ready_background s) v (next_thread_id s)
    (scheduler_tick_count s) (stats s) (cpus s) (cpu_count s).
Definition set_next_thread_id (v : Z) (s : sched) : sched :=
  Sched (threads s) (ready_high s) (ready_normal s) (ready_background s) (sleeping_threads s) v
    (scheduler_tick_count s) (stats s) (cpus s) (cpu_count s).
Definition set_scheduler_tick_count (v : Z) (s : sched) : sched :=
  Sched (threads s) (ready_high s) (ready_normal s) (ready_background s) (sleeping_threads s)
    (next_thread_id s) v (stats s) (cpus s) (cpu_count s).
Definition set_stats (v : scheduler_stats_t) (s : sched) : sched :=
  Sched (threads s) (ready_high s) (ready_normal s) (ready_background s) (sleeping_threads s)
    (next_thread_id s) (scheduler_tick_count s) v (cpus s) (cpu_count s).
Definition set_cpus (v : list cpu_local) (s : sched) : sched :=
  Sched (threads s) (ready_high s) (ready_normal s) (ready_background s) (sleeping_threads s)
    (next_thread_id s) (scheduler_tick_count s) (stats s) v (cpu_count s).
Definition set_cpu_count (v : nat) (s : sched) : sched :=
  Sched (threads s) (ready_high s) (ready_normal s) (ready_background s) (sleeping_threads s)
    (next_thread_id s) (scheduler_tick_count s) (stats s) (cpus s) v.

Definition ready_queue (s : sched) (p : thread_priority_t) : thread_ready_queue_t :=
  match p with
  | THREAD_PRIORITY_HIGH => ready_high s
  | THREAD_PRIORITY_NORMAL => ready_normal s
  | THREAD_PRIORITY_BACKGROUND => ready_background s
  end.

Definition set_ready_queue (p : thread_priority_t) (q : thread_ready_queue_t) (s : sched)
    : sched :=
  match p with
  | THREAD_PRIORITY_HIGH => set_ready_high q s
  | THREAD_PRIORITY_NORMAL => set_ready_normal q s
  | THREAD_PRIORITY_BACKGROUND => set_ready_background q s
  end.

Definition dispatches (st : scheduler_stats_t) (p : thread_priority_t) : Z :=
  match p with
  | THREAD_PRIORITY_HIGH => dispatches_high st
  | THREAD_PRIORITY_NORMAL => dispatches_normal st
  | THREAD_PRIORITY_BACKGROUND => dispatches_background st
  end.

Definition set_dispatches (p : thread_priority_t) (v : Z) (st : scheduler_stats_t)
    : scheduler_stats_t :=
  match p with
  | THREAD_PRIORITY_HIGH => set_dispatches_high v st
  | THREAD_PRIORITY_NORMAL => set_dispatches_normal v st
  | THREAD_PRIORITY_BACKGROUND => set_dispatches_background v st
  end.

(** Reading and writing a thread; an address that is not a thread has no
    result. *)
Definition get (s : sched) (t : Z) : option kernel_thread := threads s !! t.
Definition put (s : sched) (t : Z) (th : kernel_thread) : sched :=
  set_threads (<[t := th]> (threads s)) s.
Definition modify (s : sched) (t : Z) (f : kernel_thread -> kernel_thread) : option sched :=
  th ← get s t; Some (put s t (f th)).

Definition modify_cpu (s : sched) (i : nat) (f : cpu_local -> cpu_local) : sched :=
  set_cpus (alter f i (cpus s)) s.
Definition count_stat (f : scheduler_stats_t -> scheduler_stats_t) (s : sched) : sched :=
  set_stats (f (stats s)) s.

End SchedState.
