(* ===== verification/Scheduler.v ===== *)
(** The scheduler ([kernel/src/scheduler.c]): validation of its own data
    structures, the three ready queues, selection with priorities and one-turn
    boosts, aging, sleeping, blocking and waking, dispatch and the switch of
    contexts on several CPUs.

    Every function is translated at the level of its pointers: the ready queues
    are doubly linked through [next] and [previous], the sleepers singly through
    [next].  A critical section under [scheduler_lock] is one definition.  A
    computation has no result when it follows a pointer that is not a thread,
    walks a list that does not end, or panics.  The argument [me] is the CPU
    that executes the code; allocation, the flags register and the stack pointer
    the switch stores are arguments. *)
From stdpp Require Import gmap.
From S2P Require Import Prelude SchedState.
Import SchedState.

Module Scheduler.

Definition THREAD_KERNEL_STACK_SIZE : Z := 65536.
Definition THREAD_TIME_SLICE_HIGH : Z := 3.
Definition THREAD_TIME_SLICE_NORMAL : Z := 5.
Definition THREAD_TIME_SLICE_BACKGROUND : Z := 8.
Definition BACKGROUND_STARVATION_THRESHOLD : Z := 500.
Definition NORMAL_STARVATION_THRESHOLD : Z := 5000.
Definition BACKGROUND_HIGH_RESCUE_THRESHOLD : Z := NORMAL_STARVATION_THRESHOLD.

(** The address of the static [bootstrap_thread]. *)
Definition bootstrap_thread : Z := 1.

(** TF, DF, IOPL, NT, VM, AC, VIF and VIP. *)
Definition SCHEDULER_UNSAFE_CONTEXT_FLAGS : Z :=
  Z.lor (Z.shiftl 1 8) (Z.lor (Z.shiftl 1 10) (Z.lor (Z.shiftl 3 12) (Z.lor (Z.shiftl 1 14)
    (Z.lor (Z.shiftl 1 17) (Z.lor (Z.shiftl 1 18) (Z.shiftl 3 19)))))).

Definition is_thread (p : option Z) (t : Z) : bool := bool_decide (p = Some t).
Definition is_state (th : kernel_thread) (st : thread_state_t) : bool := bool_decide (state th = st).

(** * Saved contexts *)

(** The bounds of [thread_saved_stack_valid] for a non-zero stack pointer. *)
Definition saved_stack_bounds (th : kernel_thread) : bool :=
  let base := kernel_stack_base th in
  let stack_end := u64 (base + kernel_stack_size th) in
  negb (base =? 0) && negb (kernel_stack_size th =? 0) && (base <? stack_end) &&
  (64 <=? stack_end - base) && (base <=? saved_stack_pointer th) &&
  (saved_stack_pointer th <=? stack_end - 64).

Definition thread_saved_stack_valid (c : cpu_local) (t : Z) (th : kernel_thread) : bool :=
  if saved_stack_pointer th =? 0 then stack_external th && is_thread (current_thread c) t
  else saved_stack_bounds th.

Definition thread_context_ready (c : cpu_local) (t : Z) (th : kernel_thread) : bool :=
  saved_context_valid th && thread_saved_stack_valid c t th.

(** Whether [scheduler_validate_saved_context] panics on the flags of a frame. *)
Definition flags_safe (flags : Z) : bool :=
  negb (Z.land flags (Z.shiftl 1 1) =? 0) &&
  (Z.land flags SCHEDULER_UNSAFE_CONTEXT_FLAGS =? 0).

Definition scheduler_validate_saved_context (c : cpu_local) (t : Z) (th : kernel_thread)
    : option unit :=
  if negb (thread_context_ready c t th) then Some tt
  else if flags_safe (saved_flags th) then Some tt else None.

(** * Priorities *)

Definition thread_priority_state_valid (th : kernel_thread) : bool :=
  (level (effective_priority th) <=? level (base_priority th)) &&
  negb (wakeup_boosted th &&
        (negb (bool_decide (base_priority th = THREAD_PRIORITY_BACKGROUND)) ||
         negb (bool_decide (effective_priority th = THREAD_PRIORITY_NORMAL)))).

Definition thread_default_time_slice (p : thread_priority_t) : Z :=
  match p with
  | THREAD_PRIORITY_HIGH => THREAD_TIME_SLICE_HIGH
  | THREAD_PRIORITY_NORMAL => THREAD_TIME_SLICE_NORMAL
  | THREAD_PRIORITY_BACKGROUND => THREAD_TIME_SLICE_BACKGROUND
  end.

(** * Validation *)

(** The threads of a list linked by [next]. *)
Fixpoint chain (fuel : nat) (s : sched) (cursor : option Z) : option (list Z) :=
  match cursor with
  | None => Some []
  | Some t =>
      match fuel with
      | O => None
      | S fuel => th ← get s t; l ← chain fuel s (next th); Some (t :: l)
      end
  end.

(** A list without a cycle is no longer than there are threads. *)
Definition chain_all (s : sched) (cursor : option Z) : option (list Z) :=
  chain (size (threads s)) s cursor.

(** The checks on the CPU's own current and idle threads. *)
Definition validate_self (s : sched) (c : cpu_local) : option bool :=
  current_ok ←
    match current_thread c with
    | None => Some true
    | Some t => th ← get s t; Some (negb (queued th) && thread_priority_state_valid th)
    end;
  idle_ok ←
    match idle_thread c with
    | None => Some true
    | Some t =>
        th ← get s t;
        Some (negb (queued th) &&
              bool_decide (base_priority th = THREAD_PRIORITY_BACKGROUND) &&
              bool_decide (effective_priority th = THREAD_PRIORITY_BACKGROUND))
    end;
  Some (current_ok && idle_ok).

(** The checks on the CPU with index [i]. *)
Definition validate_cpu (s : sched) (i : nat) (c : cpu_local) : option bool :=
  if negb (online c) then Some true
  else
    current_ok ←
      match current_thread c with
      | None => Some (context_switching c)
      | Some t =>
          th ← get s t;
          Some ((context_switching c || is_state th THREAD_STATE_RUNNING) &&
                bool_decide (running_cpu th = Some i) && negb (queued th))
      end;
    idle_ok ←
      match idle_thread c with
      | None => Some false
      | Some t =>
          th ← get s t;
          Some (negb (queued th) &&
                negb (bool_decide (running_cpu th = None) && is_state th THREAD_STATE_RUNNING))
      end;
    Some (current_ok && idle_ok).

Fixpoint validate_cpus (s : sched) (i : nat) (l : list cpu_local) : option bool :=
  match l with
  | [] => Some true
  | c :: l => ok ← validate_cpu s i c; if ok : bool then validate_cpus s (S i) l else Some false
  end.

(** Whether the cycle detector accepts the sleepers. *)
Fixpoint acyclic (fuel : nat) (s : sched) (slow fast : option Z) : option bool :=
  match fuel with
  | O => None
  | S fuel =>
      match fast with
      | None => Some true
      | Some f =>
          fth ← get s f;
          match next fth with
          | None => Some true
          | Some f2 =>
              slow ← (match slow with None => None | Some t => th ← get s t; Some (next th) end);
              f2th ← get s f2;
              let fast := next f2th in
              if bool_decide (slow = fast) then Some false else acyclic fuel s slow fast
          end
      end
  end.

(** The walk along a ready queue; [None] inside is a failed check. *)
Fixpoint validate_queue (fuel : nat) (s : sched) (c : cpu_local) (p : thread_priority_t)
    (limit seen : Z) (prev cursor : option Z) : option (option (Z * option Z)) :=
  match cursor with
  | None => Some (Some (seen, prev))
  | Some t =>
      match fuel with
      | O => Some None
      | S fuel =>
          let seen := u32 (seen + 1) in
          if limit <? seen then Some None
          else
            th ← get s t;
            if negb (queued th) || negb (is_state th THREAD_STATE_READY) ||
               negb (bool_decide (effective_priority th = p)) ||
               negb (thread_priority_state_valid th) || sleeping th ||
               negb (bool_decide (running_cpu th = None)) || is_thread (idle_thread c) t ||
               negb (bool_decide (previous th = prev))
            then Some None
            else validate_queue fuel s c p limit seen (Some t) (next th)
      end
  end.

Definition validate_ready (s : sched) (c : cpu_local) (p : thread_priority_t) : option bool :=
  let q := ready_queue s p in
  r ← validate_queue (S (Z.to_nat (count q))) s c p (count q) 0 None (head_ q);
  match r with
  | None => Some false
  | Some (seen, previous) =>
      Some ((seen =? count q) && bool_decide (tail_ q = previous) &&
            negb (bool_decide (head_ q = None) && negb (bool_decide (tail_ q = None))) &&
            negb (negb (bool_decide (head_ q = None)) && bool_decide (tail_ q = None)))
  end.

(** No thread of [l] is in [l']. *)
Definition disjoint_lists (l l' : list Z) : bool := forallb (fun t => negb (bool_decide (t ∈ l'))) l.

Definition validate_sleeper (s : sched) (c : cpu_local) (t : Z) : bool :=
  match get s t with
  | None => false
  | Some th =>
      is_state th THREAD_STATE_BLOCKED && negb (queued th) && thread_priority_state_valid th &&
      sleeping th && bool_decide (running_cpu th = None) && negb (is_thread (idle_thread c) t)
  end.

Definition scheduler_validate_locked (me : nat) (s : sched) : option bool :=
  c ← cpus s !! me;
  self ← validate_self s c;
  if negb self then Some false else
  cs ← validate_cpus s 0 (take (cpu_count s) (cpus s));
  if negb cs then Some false else
  ac ← acyclic (S (size (threads s))) s (sleeping_threads s) (sleeping_threads s);
  if negb ac then Some false else
  high ← validate_ready s c THREAD_PRIORITY_HIGH;
  if negb high then Some false else
  normal ← validate_ready s c THREAD_PRIORITY_NORMAL;
  if negb normal then Some false else
  background ← validate_ready s c THREAD_PRIORITY_BACKGROUND;
  if negb background then Some false else
  lh ← chain_all s (head_ (ready_high s));
  ln ← chain_all s (head_ (ready_normal s));
  lb ← chain_all s (head_ (ready_background s));
  if negb (disjoint_lists lh ln && disjoint_lists lh lb && disjoint_lists ln lb)
  then Some false
  else
    ls ← chain_all s (sleeping_threads s);
    Some (forallb (validate_sleeper s c) ls &&
          disjoint_lists ls lh && disjoint_lists ls ln && disjoint_lists ls lb).

Definition scheduler_validate_state (me : nat) (s : sched) : option bool :=
  scheduler_validate_locked me s.

(** * Ready queues *)

Definition scheduler_update_runnable_peak (me : nat) (s : sched) : option sched :=
  c ← cpus s !! me;
  let runnable :=
    u32 (count (ready_high s) + count (ready_normal s) + count (ready_background s)) in
  busy ←
    match current_thread c with
    | None => Some false
    | Some t =>
        th ← get s t;
        Some (negb (is_thread (idle_thread c) t) && is_state th THREAD_STATE_RUNNING)
    end;
  let runnable := if busy : bool then runnable + 1 else runnable in
  Some (if peak_runnable_threads (stats s) <? runnable
        then count_stat (set_peak_runnable_threads runnable) s else s).

Definition scheduler_remove_queued_locked (s : sched) (t : Z) : option sched :=
  th ← get s t;
  if negb (queued th) then Some s
  else
    let p := effective_priority th in
    s ← match previous th with
        | Some a => modify s a (set_next (next th))
        | None =>
            let q := ready_queue s p in
            Some (set_ready_queue p (Queue (next th) (tail_ q) (count q)) s)
        end;
    th ← get s t;
    s ← match next th with
        | Some b => modify s b (set_previous (previous th))
        | None =>
            let q := ready_queue s p in
            Some (set_ready_queue p (Queue (head_ q) (previous th) (count q)) s)
        end;
    let q := ready_queue s p in
    let s := if count q =? 0 then s
             else set_ready_queue p (Queue (head_ q) (tail_ q) (u32 (count q - 1))) s in
    modify s t (fun th => set_queued false (set_previous None (set_next None th))).

Definition scheduler_enqueue_locked (me : nat) (s : sched) (t : Z) : option (bool * sched) :=
  th ← get s t;
  if negb (is_state th THREAD_STATE_READY) || queued th ||
     negb (bool_decide (running_cpu th = None))
  then Some (false, s)
  else
    let p := effective_priority th in
    let q := ready_queue s p in
    s ← modify s t (fun th => set_queued true (set_next None (set_previous (tail_ q)
                                (set_ready_wait_ticks 0 th))));
    s ← match tail_ q with
        | Some a => modify s a (set_next (Some t))
        | None => Some (set_ready_queue p (Queue (Some t) (tail_ q) (count q)) s)
        end;
    let q := ready_queue s p in
    let s := set_ready_queue p (Queue (head_ q) (Some t) (u32 (count q + 1))) s in
    ok ← scheduler_validate_locked me s;
    if negb ok then s ← scheduler_remove_queued_locked s t; Some (false, s)
    else s ← scheduler_update_runnable_peak me s; Some (true, s).

Definition scheduler_enqueue (me : nat) (s : sched) (t : Z) : option (bool * sched) :=
  scheduler_enqueue_locked me s t.

Definition scheduler_ready_count (s : sched) (p : thread_priority_t) : Z := count (ready_queue s p).

Definition scheduler_thread_eligible (c : cpu_local) (t : Z) : bool :=
  negb (t =? bootstrap_thread) || bsp c.

(** The first thread of a list that can be run by this CPU. *)
Fixpoint first_runnable (s : sched) (c : cpu_local) (l : list Z) : option (option Z) :=
  match l with
  | [] => Some None
  | t :: l =>
      th ← get s t;
      if negb (is_state th THREAD_STATE_READY) || negb (bool_decide (running_cpu th = None)) ||
         negb (scheduler_thread_eligible c t)
      then first_runnable s c l
      else if thread_context_ready c t th then Some (Some t) else first_runnable s c l
  end.

(** A selected thread leaves its queue and returns to its base priority. *)
Definition take_selected (s : sched) (p : thread_priority_t) (t : Z) : option sched :=
  s ← scheduler_remove_queued_locked s t;
  s ← modify s t (fun th =>
        set_last_selection_was_wakeup_boost (wakeup_boosted th)
          (set_last_selected_priority (effective_priority th) th));
  let s := count_stat (fun st => set_dispatches p (u64 (dispatches st p + 1)) st) s in
  modify s t (fun th =>
    set_ready_wait_ticks 0 (set_wakeup_boosted false
      (set_effective_priority (base_priority th) th))).

Fixpoint select_from (s : sched) (c : cpu_local) (ps : list thread_priority_t)
    : option (option Z * sched) :=
  match ps with
  | [] => Some (None, s)
  | p :: ps =>
      l ← chain_all s (head_ (ready_queue s p));
      r ← first_runnable s c l;
      match r with
      | Some t => s ← take_selected s p t; Some (Some t, s)
      | None => select_from s c ps
      end
  end.

Definition scheduler_select_next_locked (me : nat) (s : sched) : option (option Z * sched) :=
  ok ← scheduler_validate_locked me s;
  if negb ok then Some (None, s)
  else
    c ← cpus s !! me;
    '(r, s) ← select_from s c
      [THREAD_PRIORITY_HIGH; THREAD_PRIORITY_NORMAL; THREAD_PRIORITY_BACKGROUND];
    match r with
    | Some t => Some (Some t, s)
    | None =>
        match idle_thread c with
        | None => Some (None, s)
        | Some t =>
            th ← get s t;
            if is_state th THREAD_STATE_READY && negb (queued th) &&
               thread_context_ready c t th &&
               (bool_decide (running_cpu th = None) || bool_decide (running_cpu th = Some me))
            then
              Some (Some t, count_stat (fun st =>
                set_dispatches_background (u64 (dispatches_background st + 1)) st) s)
            else Some (None, s)
        end
    end.

(** [scheduler_select_next] itself is the same critical section. *)
Definition scheduler_select_next (me : nat) (s : sched) : option (option Z * sched) :=
  scheduler_select_next_locked me s.

(** * Aging *)

Definition promote (p : thread_priority_t) : thread_priority_t :=
  match p with
  | THREAD_PRIORITY_BACKGROUND => THREAD_PRIORITY_NORMAL
  | _ => THREAD_PRIORITY_HIGH
  end.

(** Moving a waiting thread to a more urgent queue. *)
Definition requeue_at (me : nat) (s : sched) (t : Z) (p : thread_priority_t)
    (f : kernel_thread -> kernel_thread) : option sched :=
  th ← get s t;
  let old := effective_priority th in
  s ← scheduler_remove_queued_locked s t;
  s ← modify s t (fun th => set_ready_wait_ticks 0 (f (set_effective_priority p th)));
  '(ok, s) ← scheduler_enqueue_locked me s t;
  if negb ok then
    s ← modify s t (set_effective_priority old);
    '(_, s) ← scheduler_enqueue_locked me s t; Some s
  else Some s.

(** One thread of a queue; the result tells whether it was promoted. *)
Definition age_thread (me : nat) (s : sched) (t : Z) : option (bool * sched) :=
  s ← modify s t (fun th =>
        if ready_wait_ticks th =? U64_MAX then th
        else set_ready_wait_ticks (ready_wait_ticks th + 1) th);
  th ← get s t;
  let base := base_priority th in
  let eff := effective_priority th in
  if negb (bool_decide (eff = base)) then
    if bool_decide (base = THREAD_PRIORITY_BACKGROUND) &&
       bool_decide (eff = THREAD_PRIORITY_NORMAL) &&
       ((if wakeup_boosted th then BACKGROUND_STARVATION_THRESHOLD
         else BACKGROUND_HIGH_RESCUE_THRESHOLD) <=? ready_wait_ticks th)
    then s ← requeue_at me s t THREAD_PRIORITY_HIGH (set_wakeup_boosted false); Some (true, s)
    else if negb (bool_decide (base = THREAD_PRIORITY_BACKGROUND)) ||
            negb (bool_decide (eff = THREAD_PRIORITY_NORMAL))
    then s ← modify s t (set_ready_wait_ticks 0); Some (false, s)
    else Some (false, s)
  else if (bool_decide (base = THREAD_PRIORITY_BACKGROUND) &&
           (BACKGROUND_STARVATION_THRESHOLD <=? ready_wait_ticks th)) ||
          (bool_decide (base = THREAD_PRIORITY_NORMAL) &&
           (NORMAL_STARVATION_THRESHOLD <=? ready_wait_ticks th))
  then s ← requeue_at me s t (promote eff) (fun th => th); Some (true, s)
  else Some (false, s).

(** The walk along one queue; the successor is read before the thread moves. *)
Fixpoint age_queue (fuel : nat) (me : nat) (s : sched) (cursor : option Z) (promoted : bool)
    : option (bool * sched) :=
  match cursor with
  | None => Some (promoted, s)
  | Some t =>
      match fuel with
      | O => None
      | S fuel =>
          th ← get s t;
          '(up, s) ← age_thread me s t;
          age_queue fuel me s (next th) (promoted || up)
      end
  end.

Definition scheduler_age_ready_threads_locked (me : nat) (s : sched) : option (bool * sched) :=
  '(up, s) ← age_queue (size (threads s)) me s (head_ (ready_normal s)) false;
  age_queue (size (threads s)) me s (head_ (ready_background s)) up.

(** * Dispatch *)

Inductive scheduler_dispatch_action_t :=
  | SCHEDULER_DISPATCH_REQUEUE | SCHEDULER_DISPATCH_BLOCK | SCHEDULER_DISPATCH_TERMINATE.
#[export] Instance dispatch_action_eq_dec : EqDecision scheduler_dispatch_action_t.
Proof. solve_decision. Defined.

(** The state the outgoing thread must be in. *)
Definition action_state (a : scheduler_dispatch_action_t) : thread_state_t :=
  match a with
  | SCHEDULER_DISPATCH_REQUEUE => THREAD_STATE_RUNNING
  | SCHEDULER_DISPATCH_BLOCK => THREAD_STATE_BLOCKED
  | SCHEDULER_DISPATCH_TERMINATE => THREAD_STATE_TERMINATED
  end.

(** The outcome of [scheduler_prepare_dispatch_locked]: it failed, the CPU keeps
    its thread, or it must switch from one thread to another. *)
Inductive prepared := Refused | Keep | Handoff (outgoing target : Z).

Definition bootstrap_waiting (s : sched) : option bool :=
  b ← get s bootstrap_thread;
  Some (is_state b THREAD_STATE_READY && bool_decide (running_cpu b = None) && negb (queued b)).

(** Taking back the count of an idle dispatch that does not happen. *)
Definition undo_idle_dispatch (s : sched) : sched :=
  if dispatches_background (stats s) =? 0 then s
  else count_stat (set_dispatches_background (dispatches_background (stats s) - 1)) s.

(** The special cases for the idle thread: the bootstrap thread of the first
    CPU goes before it, and a running thread is not exchanged for it. *)
Definition substitute_idle (c : cpu_local) (s : sched) (action : scheduler_dispatch_action_t)
    (outgoing : Z) (target : option Z) : option (option Z * sched) :=
  let idle t := bool_decide (t = idle_thread c) in
  '(target, s) ←
    (if idle target && bsp c && negb (outgoing =? bootstrap_thread) then
       w ← bootstrap_waiting s;
       if w : bool then Some (Some bootstrap_thread, undo_idle_dispatch s) else Some (target, s)
     else Some (target, s));
  target ←
    (if idle target && bool_decide (action = SCHEDULER_DISPATCH_TERMINATE) && bsp c &&
        negb (outgoing =? bootstrap_thread) then
       w ← bootstrap_waiting s;
       if (w : bool) && (n_blocked (stats s) =? 0) then Some (Some bootstrap_thread)
       else Some target
     else Some target);
  if idle target && bool_decide (action = SCHEDULER_DISPATCH_REQUEUE) &&
     negb (is_thread (idle_thread c) outgoing)
  then Some (Some outgoing, undo_idle_dispatch s)
  else Some (target, s).

(** The beginning of a dispatch: the outgoing thread gives up the CPU. *)
Definition release_cpu (me : nat) (s : sched) (action : scheduler_dispatch_action_t)
    (outgoing : Z) : option sched :=
  let s := modify_cpu s me (set_context_switching true) in
  if bool_decide (action = SCHEDULER_DISPATCH_REQUEUE)
  then modify s outgoing (set_state THREAD_STATE_READY)
  else
    s ← modify s outgoing (set_running_cpu None);
    Some (modify_cpu s me (set_current_thread None)).

(** The end of a dispatch: what is done with the thread selected. *)
Definition enter_target (me : nat) (s : sched) (action : scheduler_dispatch_action_t)
    (outgoing : Z) (target : option Z) : option (prepared * sched) :=
  match target with
  | None =>
      s ← (if bool_decide (action = SCHEDULER_DISPATCH_REQUEUE)
           then modify s outgoing (set_state THREAD_STATE_RUNNING)
           else modify s outgoing (set_running_cpu (Some me)));
      Some (Refused, modify_cpu s me (fun c =>
                       set_context_switching false (set_current_thread (Some outgoing) c)))
  | Some target =>
      let run := fun th => set_running_cpu (Some me) (set_state THREAD_STATE_RUNNING th) in
      if target =? outgoing then
        s ← modify s target run;
        Some (Keep, modify_cpu s me (fun c =>
                      set_context_switching false (set_current_thread (Some target) c)))
      else
        c ← cpus s !! me;
        th ← get s target;
        if negb (thread_context_ready c target th) then None
        else
          s ← modify s target run;
          Some (Handoff outgoing target, modify_cpu s me (set_current_thread (Some target)))
  end.

Definition scheduler_prepare_dispatch_locked (me : nat) (s : sched)
    (action : scheduler_dispatch_action_t) : option (prepared * sched) :=
  c ← cpus s !! me;
  match current_thread c with
  | None => Some (Refused, s)
  | Some outgoing =>
      th ← get s outgoing;
      if negb (is_state th (action_state action)) || queued th ||
         negb (thread_saved_stack_valid c outgoing th)
      then Some (Refused, s)
      else
        s ← release_cpu me s action outgoing;
        '(target, s) ← scheduler_select_next_locked me s;
        '(target, s) ← substitute_idle c s action outgoing target;
        enter_target me s action outgoing target
  end.

(** The switch begins: [thread_context_switch] is entered with the address of
    the outgoing stack pointer, the incoming one and the caller's flags. *)
Definition scheduler_handoff (me : nat) (s : sched) (outgoing target flags : Z)
    : option sched :=
  c ← cpus s !! me;
  th ← get s target;
  _ ← scheduler_validate_saved_context c target th;
  s ← modify s outgoing (set_context_switch_pending true);
  let s := count_stat (fun st => set_context_switches (u64 (context_switches st + 1)) st) s in
  Some (modify_cpu s me (set_switching (Saving outgoing (saved_stack_pointer th) flags))).

(** The end of every function that dispatches. *)
Definition finish_dispatch (me : nat) (s : sched) (r : prepared) (flags : Z)
    : option (bool * sched) :=
  match r with
  | Refused => Some (false, s)
  | Keep => Some (true, s)
  | Handoff o t => s ← scheduler_handoff me s o t flags; Some (true, s)
  end.

Definition scheduler_dispatch (me : nat) (s : sched) (action : scheduler_dispatch_action_t)
    (flags : Z) : option (bool * sched) :=
  '(r, s) ← scheduler_prepare_dispatch_locked me s action;
  finish_dispatch me s r flags.

Definition scheduler_reschedule (me : nat) (s : sched) (flags : Z) : option (bool * sched) :=
  scheduler_dispatch me s SCHEDULER_DISPATCH_REQUEUE flags.

Definition scheduler_yield (me : nat) (s : sched) (flags : Z) : option (bool * sched) :=
  let s := count_stat (fun st => set_voluntary_yields (u64 (voluntary_yields st + 1)) st) s in
  scheduler_reschedule me s flags.

(** [context_switch.s] stores the stack pointer and the flags of the outgoing
    frame, then calls [scheduler_context_switch_saved] on that stack. *)
Definition scheduler_context_switch_saved (me : nat) (s : sched) (rsp : Z) : option sched :=
  c ← cpus s !! me;
  match switching c with
  | Saving outgoing incoming_rsp flags =>
      s ← modify s outgoing (fun th =>
            set_saved_context_valid true (set_saved_flags flags (set_saved_stack_pointer rsp th)));
      th ← get s outgoing;
      s ← modify s outgoing (set_running_cpu None);
      s ← (if is_state th THREAD_STATE_READY && negb (queued th) &&
              negb (outgoing =? bootstrap_thread) && negb (is_thread (idle_thread c) outgoing)
           then '(ok, s) ← scheduler_enqueue_locked me s outgoing;
                if ok : bool then Some s else None
           else Some s);
      s ← match current_thread c with
          | None => Some s
          | Some t =>
              modify s t (fun th => if saved_stack_pointer th =? incoming_rsp
                                    then set_saved_context_valid false th else th)
          end;
      Some (modify_cpu s me (fun c => set_switching (Completing outgoing)
                                        (set_context_switching false c)))
  | _ => None
  end.

(** Called on the incoming stack. *)
Definition scheduler_context_switch_complete (me : nat) (s : sched) : option sched :=
  c ← cpus s !! me;
  match switching c with
  | Completing outgoing =>
      s ← modify s outgoing (set_context_switch_pending false);
      Some (modify_cpu s me (set_switching NoSwitch))
  | _ => None
  end.

Definition thread_switch_to (me : nat) (s : sched) (target : Z) (flags : Z)
    : option (bool * sched) :=
  c ← cpus s !! me;
  th ← get s target;
  if is_thread (current_thread c) target || negb (is_state th THREAD_STATE_READY) ||
     negb (bool_decide (running_cpu th = None)) || negb (scheduler_thread_eligible c target) ||
     negb (thread_context_ready c target th)
  then Some (false, s)
  else if negb (target =? bootstrap_thread) && negb (queued th) then Some (false, s)
  else
    match current_thread c with
    | None => Some (false, s)
    | Some outgoing =>
        oth ← get s outgoing;
        if negb (is_state oth THREAD_STATE_RUNNING) || queued oth ||
           negb (thread_saved_stack_valid c outgoing oth)
        then Some (false, s)
        else
          s ← scheduler_remove_queued_locked s target;
          s ← modify s target (fun th =>
                set_ready_wait_ticks 0 (set_effective_priority (base_priority th) th));
          s ← modify s outgoing (set_state THREAD_STATE_READY);
          s ← modify s target (fun th =>
                set_running_cpu (Some me) (set_state THREAD_STATE_RUNNING th));
          let s := modify_cpu s me (fun c =>
                     set_current_thread (Some target) (set_context_switching true c)) in
          s ← scheduler_handoff me s outgoing target flags;
          Some (true, s)
    end.

Definition scheduler_current_thread (me : nat) (s : sched) : option (option Z) :=
  c ← cpus s !! me; Some (current_thread c).
Definition scheduler_idle_thread (me : nat) (s : sched) : option (option Z) :=
  c ← cpus s !! me; Some (idle_thread c).

(** * Creation and destruction *)

(** [thread_prepare_context]: the frame of a new thread is six zero registers,
    the flags with IF set and the address of the entry trampoline, below two
    words at the top of the stack. *)
Definition thread_prepare_context (th : kernel_thread) : option kernel_thread :=
  let base := kernel_stack_base th in
  if (base =? 0) || (kernel_stack_size th <? 64) then None
  else
    let stack_top := Z.land (u64 (base + kernel_stack_size th)) (U64_MAX - 15) in
    if stack_top <? u64 (base + 72) then None
    else
      Some (set_saved_context_valid true (set_saved_flags 0x202
              (set_saved_stack_pointer (u64 (stack_top - 16 - 7 * 8)) th))).

(** The zeroed and initialised record of a thread, before its context is
    prepared. *)
Definition new_thread (p : thread_priority_t) (stack size : Z) (external : bool) : kernel_thread :=
  Thread 0 THREAD_STATE_READY p p false false THREAD_PRIORITY_HIGH false 0
    (thread_default_time_slice p) (thread_default_time_slice p) 0 0 0 0 0 false 0 false false 0 0 0 false
    None 0 false stack size external None None false None None.

Definition decode_priority (p : Z) : option thread_priority_t :=
  if p =? 0 then Some THREAD_PRIORITY_HIGH
  else if p =? 1 then Some THREAD_PRIORITY_NORMAL
  else if p =? 2 then Some THREAD_PRIORITY_BACKGROUND
  else None.

(** [memory] is what the two calls of [kmalloc] return, if they do; a failed
    creation frees both blocks, so that nothing of the state remains changed but
    the thread identifier. *)
Definition prepare_new_thread (me : nat) (s : sched) (named : bool) (priority : Z)
    (memory : option (Z * Z)) : option (option (Z * kernel_thread * sched)) :=
  c ← cpus s !! me;
  match named, current_thread c, decode_priority priority, memory with
  | true, Some _, Some p, Some (t, stack) =>
      match thread_prepare_context (new_thread p stack THREAD_KERNEL_STACK_SIZE false) with
      | None => Some None
      | Some th =>
          if next_thread_id s =? 0 then Some None
          else Some (Some (t, set_id (next_thread_id s) th,
                           set_next_thread_id (u64 (next_thread_id s + 1)) s))
      end
  | _, _, _, _ => Some None
  end.

(** The release of a thread and of its stack. *)
Definition release_thread (s : sched) (t : Z) : sched := set_threads (delete t (threads s)) s.

Definition thread_create_with_priority (me : nat) (s : sched) (named : bool) (priority : Z)
    (memory : option (Z * Z)) : option (option Z * sched) :=
  r ← prepare_new_thread me s named priority memory;
  match r with
  | None => Some (None, s)
  | Some (t, th, s) =>
      '(ok, s) ← scheduler_enqueue_locked me (put s t th) t;
      if ok : bool then Some (Some t, s)
      else Some (None, release_thread s t)
  end.

Definition thread_create_suspended_with_priority (me : nat) (s : sched) (named : bool)
    (priority : Z) (memory : option (Z * Z)) : option (option Z * sched) :=
  r ← prepare_new_thread me s named priority memory;
  match r with
  | None => Some (None, s)
  | Some (t, th, s) => Some (Some t, put s t th)
  end.

Definition thread_create_suspended (me : nat) (s : sched) (named : bool) (memory : option (Z * Z))
    : option (option Z * sched) := thread_create_suspended_with_priority me s named 1 memory.
Definition thread_create (me : nat) (s : sched) (named : bool) (memory : option (Z * Z))
    : option (option Z * sched) := thread_create_with_priority me s named 1 memory.

Definition is_idle (s : sched) (t : Z) : bool :=
  existsb (fun c => is_thread (idle_thread c) t) (take (cpu_count s) (cpus s)).

(** The critical section of [thread_destroy]. *)
Definition destroy_locked (s : sched) (t : Z) : option (bool * sched) :=
  th ← get s t;
  if (t =? bootstrap_thread) || sleeping th || negb (bool_decide (running_cpu th = None)) ||
     context_switch_pending th ||
     (negb (is_state th THREAD_STATE_READY) && negb (is_state th THREAD_STATE_TERMINATED)) ||
     is_idle s t
  then Some (false, s)
  else s ← scheduler_remove_queued_locked s t; Some (true, s).

(** Between the critical section and the release, [mutex_cancel_waiter] changes
    only the mutex fields of threads. *)
Definition thread_destroy (s : sched) (t : Z) : option (bool * sched) :=
  '(ok, s) ← destroy_locked s t;
  Some (ok, if ok : bool then release_thread s t else s).

(** * Initialisation *)

(** The state before [scheduler_init]; the linker script gives the boot stack
    [stack, stack + size). *)
Definition zero_stats : scheduler_stats_t := Stats 0 0 0 0 0 0 0 0 0 0 0 0.
Definition empty_queue : thread_ready_queue_t := Queue None None 0.
Definition boot_cpu : cpu_local := Cpu true true None None false false 0 0 NoSwitch.
Definition ap_cpu : cpu_local := Cpu false false None None false false 0 0 NoSwitch.

Definition boot_thread (stack size : Z) : kernel_thread :=
  set_running_cpu (Some 0%nat) (set_state THREAD_STATE_RUNNING
    (set_id 1 (new_thread THREAD_PRIORITY_NORMAL stack size true))).

(** [scheduler_init], on the first CPU and before the others are known. *)
Definition scheduler_init (stack size : Z) (memory : option (Z * Z)) : option (bool * sched) :=
  let s := Sched {[ bootstrap_thread := boot_thread stack size ]} empty_queue empty_queue
             empty_queue None 2 0 zero_stats
             [set_current_thread (Some bootstrap_thread) boot_cpu] 0 in
  '(r, s) ← thread_create_with_priority 0 s true 2 memory;
  match r with
  | None => Some (false, modify_cpu s 0 (set_current_thread None))
  | Some idle =>
      let s := modify_cpu s 0 (set_idle_thread (Some idle)) in
      s ← scheduler_remove_queued_locked s idle;
      s ← modify s idle (fun th => set_running_cpu None (set_state THREAD_STATE_READY th));
      Some (true, s)
  end.

(** [cpu_init_bsp]: the other CPUs are discovered, offline. *)
Definition cpu_init_bsp (s : sched) (others : nat) : sched :=
  set_cpu_count (S others) (set_cpus (take 1 (cpus s) ++ replicate others ap_cpu) s).

Definition scheduler_prepare_idle_cpu (s : sched) (i : nat) (stack size : Z) (memory : option Z)
    : option (bool * sched) :=
  c ← cpus s !! i;
  if bsp c || negb (bool_decide (idle_thread c = None)) || (stack =? 0) || (size <? 64)
  then Some (false, s)
  else
    match memory with
    | None => Some (false, s)
    | Some t =>
        match thread_prepare_context (new_thread THREAD_PRIORITY_BACKGROUND stack size true) with
        | None => Some (false, s)
        | Some th =>
            if next_thread_id s =? 0 then Some (false, s)
            else
              let s' := put s t (set_id (next_thread_id s) th) in
              Some (true, modify_cpu (set_next_thread_id (u64 (next_thread_id s + 1)) s') i
                            (set_idle_thread (Some t)))
        end
    end.

Definition scheduler_start_cpu (me : nat) (s : sched) : option (bool * sched) :=
  c ← cpus s !! me;
  match idle_thread c with
  | None => Some (false, s)
  | Some idle =>
      if bsp c || negb (bool_decide (current_thread c = None)) then Some (false, s)
      else
        th ← get s idle;
        if negb (is_state th THREAD_STATE_READY) || queued th ||
           negb (bool_decide (running_cpu th = None)) || negb (thread_context_ready c idle th)
        then Some (false, s)
        else
          s ← modify s idle (fun th => set_saved_context_valid false
                (set_running_cpu (Some me) (set_state THREAD_STATE_RUNNING th)));
          Some (true, modify_cpu s me (fun c =>
                        set_online true (set_current_thread (Some idle) c)))
  end.

(** * Blocking, sleeping and waking *)

(** Unlinking a sleeper: the walk over the links that lead to it. *)
Fixpoint unlink_sleeper (fuel : nat) (s : sched) (cursor : option Z) (prev : option Z) (t : Z)
    (after : option Z) : option sched :=
  match cursor with
  | None => Some s
  | Some u =>
      match fuel with
      | O => None
      | S fuel =>
          if u =? t then
            match prev with
            | None => Some (set_sleeping_threads after s)
            | Some a => modify s a (set_next after)
            end
          else uth ← get s u; unlink_sleeper fuel s (next uth) (Some u) t after
      end
  end.

Definition sleeping_remove (s : sched) (t : Z) : option sched :=
  th ← get s t;
  if negb (sleeping th) then Some s
  else
    s ← unlink_sleeper (size (threads s)) s (sleeping_threads s) None t (next th);
    modify s t (fun th => set_wakeup_tick 0 (set_sleeping false (set_next None th))).

(** Putting a thread in front of the sleepers. *)
Definition sleeping_push (s : sched) (t : Z) : option sched :=
  s' ← modify s t (fun th => set_sleeping true (set_next (sleeping_threads s) th));
  Some (set_sleeping_threads (Some t) s').

(** The fields a woken thread gets: a background thread is boosted once. *)
Definition wake_fields (th : kernel_thread) : kernel_thread :=
  let b := bool_decide (base_priority th = THREAD_PRIORITY_BACKGROUND) in
  set_running_cpu None (set_state THREAD_STATE_READY (set_wakeup_boosted b
    (set_effective_priority (if b then THREAD_PRIORITY_NORMAL else base_priority th) th))).

Definition less_blocked (st : scheduler_stats_t) : scheduler_stats_t :=
  if n_blocked st =? 0 then st else set_n_blocked (n_blocked st - 1) st.
Definition less_sleeping (st : scheduler_stats_t) : scheduler_stats_t :=
  if n_sleeping st =? 0 then st else set_n_sleeping (n_sleeping st - 1) st.
Definition more_wakeups (st : scheduler_stats_t) : scheduler_stats_t :=
  set_wakeups (u64 (wakeups st + 1)) st.

Definition scheduler_unblock (me : nat) (s : sched) (t : Z) : option (bool * sched) :=
  c ← cpus s !! me;
  th ← get s t;
  if is_thread (idle_thread c) t || negb (is_state th THREAD_STATE_BLOCKED) || queued th
  then Some (false, s)
  else
    s ← sleeping_remove s t;
    s ← modify s t wake_fields;
    '(ok, s) ← scheduler_enqueue_locked me s t;
    if negb ok then
      s ← modify s t (fun x => set_effective_priority (effective_priority th)
            (set_wakeup_boosted (wakeup_boosted th) (set_state THREAD_STATE_BLOCKED x)));
      if sleeping th then
        s ← modify s t (set_wakeup_tick (wakeup_tick th));
        s ← sleeping_push s t; Some (false, s)
      else Some (false, s)
    else
      let s := count_stat (fun st => more_wakeups
                 ((if sleeping th then less_sleeping else fun st => st) (less_blocked st))) s in
      Some (true, if bool_decide (current_thread c = idle_thread c)
                  then modify_cpu s me (set_preemption_pending true) else s).

Definition scheduler_thread_is_running (s : sched) (t : Z) : option bool :=
  th ← get s t; Some (negb (bool_decide (running_cpu th = None)) || context_switch_pending th).

Definition scheduler_thread_running_cpu (s : sched) (t : Z) : option (option nat) :=
  th ← get s t; Some (running_cpu th).

Definition more_blocks (st : scheduler_stats_t) : scheduler_stats_t :=
  set_n_blocked (u64 (n_blocked st + 1)) (set_blocks (u64 (blocks st + 1)) st).
Definition undo_blocks (st : scheduler_stats_t) : scheduler_stats_t :=
  set_n_blocked (u64 (n_blocked st - 1)) (set_blocks (u64 (blocks st - 1)) st).

(** Whether the running thread of this CPU can block. *)
Definition can_block (c : cpu_local) (t : Z) (th : kernel_thread) : bool :=
  negb (is_thread (idle_thread c) t) && is_state th THREAD_STATE_RUNNING && negb (queued th).

Definition scheduler_block (me : nat) (s : sched) (flags : Z) : option (bool * sched) :=
  c ← cpus s !! me;
  match current_thread c with
  | None => Some (false, s)
  | Some t =>
      th ← get s t;
      if mutex_wake_pending th then Some (true, put s t (set_mutex_wake_pending false th))
      else if negb (can_block c t th) then Some (false, s)
      else
        s ← modify s t (set_state THREAD_STATE_BLOCKED);
        let s := count_stat more_blocks s in
        '(r, s) ← scheduler_prepare_dispatch_locked me s SCHEDULER_DISPATCH_BLOCK;
        match r with
        | Refused =>
            s ← modify s t (fun th =>
                  set_running_cpu (Some me) (set_state THREAD_STATE_RUNNING th));
            Some (false, count_stat undo_blocks
                           (modify_cpu s me (set_current_thread (Some t))))
        | r => finish_dispatch me s r flags
        end
  end.

Definition scheduler_terminate (me : nat) (s : sched) (flags : Z) : option (bool * sched) :=
  c ← cpus s !! me;
  match current_thread c with
  | None => Some (false, s)
  | Some t =>
      th ← get s t;
      if negb (can_block c t th) then Some (false, s)
      else
        s ← modify s t (set_state THREAD_STATE_TERMINATED);
        '(r, s) ← scheduler_prepare_dispatch_locked me s SCHEDULER_DISPATCH_TERMINATE;
        match r with
        | Refused =>
            s ← modify s t (fun th =>
                  set_running_cpu (Some me) (set_state THREAD_STATE_RUNNING th));
            Some (false, modify_cpu s me (set_current_thread (Some t)))
        | r => finish_dispatch me s r flags
        end
  end.

Definition wakeup_at (now ticks : Z) : Z := if U64_MAX - ticks <? now then U64_MAX else now + ticks.

Definition scheduler_sleep (me : nat) (s : sched) (ticks flags : Z) : option (bool * sched) :=
  if ticks =? 0 then Some (true, s)
  else
    c ← cpus s !! me;
    match current_thread c with
    | None => Some (false, s)
    | Some t =>
        th ← get s t;
        if negb (can_block c t th) || sleeping th then Some (false, s)
        else
          s ← modify s t (set_wakeup_tick (wakeup_at (scheduler_tick_count s) ticks));
          s ← sleeping_push s t;
          let s := count_stat (fun st => set_n_sleeping (u64 (n_sleeping st + 1)) st) s in
          s ← modify s t (set_state THREAD_STATE_BLOCKED);
          let s := count_stat more_blocks s in
          '(r, s) ← scheduler_prepare_dispatch_locked me s SCHEDULER_DISPATCH_BLOCK;
          match r with
          | Refused =>
              s ← sleeping_remove s t;
              let s := count_stat less_sleeping s in
              s ← modify s t (set_state THREAD_STATE_RUNNING);
              Some (false, count_stat undo_blocks
                             (modify_cpu s me (set_current_thread (Some t))))
          | r => finish_dispatch me s r flags
          end
    end.

(** The critical section of [scheduler_terminate_thread]. *)
Definition terminate_thread_locked (s : sched) (t : Z) : option (bool * sched) :=
  th ← get s t;
  if is_state th THREAD_STATE_TERMINATED || negb (bool_decide (running_cpu th = None)) ||
     is_idle s t
  then Some (false, s)
  else
    s ← (if queued th then scheduler_remove_queued_locked s t else Some s);
    s ← (if sleeping th then s ← sleeping_remove s t; Some (count_stat less_sleeping s)
         else Some s);
    let s := if is_state th THREAD_STATE_BLOCKED then count_stat less_blocked s else s in
    s ← modify s t (set_state THREAD_STATE_TERMINATED);
    Some (true, s).

(** * Time *)

(** One sleeper whose time has come. *)
Definition wake_sleeper (me : nat) (s : sched) (t : Z) : option (bool * sched) :=
  s ← sleeping_remove s t;
  let s := count_stat less_sleeping s in
  s ← modify s t wake_fields;
  '(ok, s) ← scheduler_enqueue_locked me s t;
  if ok : bool then Some (true, count_stat (fun st => more_wakeups (less_blocked st)) s)
  else
    s ← modify s t (set_state THREAD_STATE_BLOCKED);
    s ← sleeping_push s t; Some (false, s).

Fixpoint wake_sleepers (fuel : nat) (me : nat) (s : sched) (cursor : option Z) (woke : bool)
    : option (bool * sched) :=
  match cursor with
  | None => Some (woke, s)
  | Some t =>
      match fuel with
      | O => None
      | S fuel =>
          th ← get s t;
          '(w, s) ← (if wakeup_tick th <=? scheduler_tick_count s then wake_sleeper me s t
                     else Some (false, s));
          wake_sleepers fuel me s (next th) (woke || w)
      end
  end.

Definition scheduler_global_tick (me : nat) (s : sched) : option (bool * sched) :=
  c ← cpus s !! me;
  if negb (bsp c) then Some (false, s)
  else
    let s := if scheduler_tick_count s =? U64_MAX then s
             else set_scheduler_tick_count (scheduler_tick_count s + 1) s in
    '(woke, s) ← wake_sleepers (size (threads s)) me s (sleeping_threads s) false;
    preempt ←
      match current_thread c with
      | None => Some false
      | Some t =>
          th ← get s t;
          Some (is_thread (idle_thread c) t ||
                (negb (bool_decide (idle_thread c = None)) &&
                 negb (bool_decide (effective_priority th = THREAD_PRIORITY_HIGH))))
      end;
    let s := if (woke : bool) && preempt then modify_cpu s me (set_preemption_pending true)
             else s in
    '(promoted, s) ← scheduler_age_ready_threads_locked me s;
    let s := if (promoted : bool) && bool_decide (current_thread c = idle_thread c)
             then modify_cpu s me (set_preemption_pending true) else s in
    Some (woke || promoted, s).

Definition scheduler_has_eligible_ready_locked (s : sched) (c : cpu_local) : option bool :=
  let eligible t := match get s t with
                    | Some th => is_state th THREAD_STATE_READY &&
                                 bool_decide (running_cpu th = None) &&
                                 scheduler_thread_eligible c t
                    | None => false
                    end in
  lh ← chain_all s (head_ (ready_high s));
  ln ← chain_all s (head_ (ready_normal s));
  lb ← chain_all s (head_ (ready_background s));
  Some (existsb eligible (lh ++ ln ++ lb)).

(** The accounting before the lock is taken. *)
Definition account_tick (me : nat) (s : sched) (c : cpu_local) : option sched :=
  let s := modify_cpu s me (fun c => set_accounted_ticks (u64 (accounted_ticks c + 1)) c) in
  match current_thread c with
  | None => Some s
  | Some t =>
      th ← get s t;
      if negb (is_thread (idle_thread c) t) && is_state th THREAD_STATE_RUNNING
      then modify (modify_cpu s me (fun c => set_busy_ticks (u64 (busy_ticks c + 1)) c)) t
             (fun th => set_cpu_time_ticks (u64 (cpu_time_ticks th + 1)) th)
      else Some s
  end.

Definition scheduler_timer_tick (me : nat) (s : sched) : option (bool * sched) :=
  c ← cpus s !! me;
  s ← account_tick me s c;
  if context_switching c then Some (false, s)
  else
    s ← (if bool_decide (current_thread c = idle_thread c) then
           let s := count_stat (fun st =>
                      set_idle_runtime_ticks (u64 (idle_runtime_ticks st + 1)) st) s in
           e ← scheduler_has_eligible_ready_locked s c;
           Some (if e : bool then modify_cpu s me (set_preemption_pending true) else s)
         else Some s);
    c ← cpus s !! me;
    match current_thread c with
    | None => Some (preemption_pending c, s)
    | Some t =>
        th ← get s t;
        if negb (is_state th THREAD_STATE_RUNNING) || queued th || (default_time_slice th =? 0)
        then Some (preemption_pending c, s)
        else
          let left := if 0 <? remaining_time_slice th then remaining_time_slice th - 1
                      else remaining_time_slice th in
          if left =? 0 then
            let s := put s t (set_remaining_time_slice (default_time_slice th) th) in
            Some (true, modify_cpu s me (set_preemption_pending true))
          else Some (preemption_pending c, put s t (set_remaining_time_slice left th))
    end.

(** * Preemption and system calls *)

(** The part of [cpu_registers] the scheduler uses: the interrupted instruction,
    flags, stack and segments, and whether the interrupt came from user mode. *)
Record cpu_registers := Registers {
  rip : Z; rflags : Z; interrupted_rsp : Z; cs : Z; interrupted_ss : Z; privilege_stack : bool;
}.
Definition thread_interrupt_return_trampoline : Z := 0xffffffff80001000.

(** What is kept of an interrupted context. *)
Definition save_interrupted (regs : cpu_registers) (th : kernel_thread) : kernel_thread :=
  set_preempt_from_user (privilege_stack regs) (set_preempt_return_ss (interrupted_ss regs)
    (set_preempt_return_cs (cs regs) (set_preempt_return_rsp (interrupted_rsp regs)
      (set_preempt_return_rflags (rflags regs) (set_preempt_return_rip (rip regs) th))))).

Definition scheduler_prepare_preemption (me : nat) (s : sched) (regs : cpu_registers) (flags : Z)
    : option (bool * cpu_registers * sched) :=
  c ← cpus s !! me;
  match current_thread c with
  | None => Some (false, regs, s)
  | Some t =>
      th ← get s t;
      if context_switching c || negb (preemption_pending c) ||
         negb (is_state th THREAD_STATE_RUNNING) || queued th ||
         negb (thread_saved_stack_valid c t th)
      then Some (false, regs, s)
      else
        let s := modify_cpu s me (set_preemption_pending false) in
        let preempted := count_stat (fun st =>
                           set_timer_preemptions (u64 (timer_preemptions st + 1)) st) s in
        if syscall_active th then Some (false, regs, s)
        else if privilege_stack regs then
          '(_, s) ← scheduler_reschedule me preempted flags; Some (false, regs, s)
        else
          s ← modify preempted t (save_interrupted regs);
          Some (true, Registers thread_interrupt_return_trampoline
                        (Z.land (rflags regs) (U64_MAX - 512)) (interrupted_rsp regs) (cs regs)
                        (interrupted_ss regs) (privilege_stack regs), s)
  end.

Definition scheduler_preempt_from_trampoline (me : nat) (s : sched) (flags : Z)
    : option (Z * sched) :=
  c ← cpus s !! me;
  match current_thread c with
  | None => Some (0, s)
  | Some t =>
      th ← get s t;
      if negb (is_state th THREAD_STATE_RUNNING) || (preempt_return_rip th =? 0) then Some (0, s)
      else '(_, s) ← scheduler_reschedule me s flags; Some (preempt_return_rip th, s)
  end.

Definition scheduler_preempt_return_flags (me : nat) (s : sched) : option Z :=
  c ← cpus s !! me;
  match current_thread c with
  | None => Some 0
  | Some t => th ← get s t; Some (preempt_return_rflags th)
  end.

Definition scheduler_preempt_context_restored (me : nat) (s : sched) (restored_rsp : Z)
    : option sched :=
  c ← cpus s !! me;
  match current_thread c with
  | None => Some s
  | Some t =>
      th ← get s t;
      if negb (stack_external th) &&
         ((restored_rsp <? kernel_stack_base th) ||
          (u64 (kernel_stack_base th + kernel_stack_size th) <=? restored_rsp))
      then None
      else modify s t (fun th => set_preempt_return_rflags 0 (set_preempt_return_rip 0 th))
  end.

Definition scheduler_syscall_enter (me : nat) (s : sched) : option sched :=
  c ← cpus s !! me;
  match current_thread c with
  | None => Some s
  | Some t =>
      modify s t (fun th =>
        set_syscall_active true
          (if syscall_nesting th =? U32_MAX then th
           else set_syscall_nesting (syscall_nesting th + 1) th))
  end.

(** [interrupts] is the interrupt flag, which must be clear here. *)
Definition scheduler_syscall_leave (me : nat) (s : sched) (interrupts : bool) : option sched :=
  c ← cpus s !! me;
  match current_thread c with
  | None => Some s
  | Some t =>
      th ← get s t;
      if (syscall_nesting th =? 1) && syscall_active th && interrupts then None
      else if syscall_nesting th =? 0 then Some s
      else Some (put s t (set_syscall_active (negb (syscall_nesting th - 1 =? 0))
                            (set_syscall_nesting (syscall_nesting th - 1) th)))
  end.

End Scheduler.
