(* ===== verification/SchedLinks.v ===== *)
(** The linked lists of the scheduler: what the ready queues and the list of
    sleepers are as sequences of threads, and that the pointer operations of
    [Scheduler] implement the operations on these sequences. *)
From stdpp Require Import gmap.
From S2P Require Import Prelude SchedState Scheduler.
Import SchedState Scheduler.

Module SchedLinks.

(** A thread without its links, and the threads of a state without theirs. *)
Definition core (th : kernel_thread) : kernel_thread := set_next None (set_previous None th).
Definition cores (s : sched) : gmap Z kernel_thread := core <$> threads s.

Definition hd_or (l : list Z) (d : option Z) : option Z :=
  match l with [] => d | x :: _ => Some x end.
Definition last_or (l : list Z) (d : option Z) : option Z :=
  match last l with Some x => Some x | None => d end.

(** [l] is linked forwards and backwards, between [prv] and [nxt]. *)
Fixpoint dseg (ths : gmap Z kernel_thread) (prv : option Z) (l : list Z) (nxt : option Z) : Prop :=
  match l with
  | [] => True
  | x :: l =>
      (exists th, ths !! x = Some th /\ previous th = prv /\ next th = hd_or l nxt) /\
      dseg ths (Some x) l nxt
  end.

(** [l] is linked forwards. *)
Fixpoint sseg (ths : gmap Z kernel_thread) (l : list Z) (nxt : option Z) : Prop :=
  match l with
  | [] => True
  | x :: l => (exists th, ths !! x = Some th /\ next th = hd_or l nxt) /\ sseg ths l nxt
  end.

Definition queue_is (ths : gmap Z kernel_thread) (q : thread_ready_queue_t) (l : list Z) : Prop :=
  head_ q = hd_or l None /\ tail_ q = last l /\ count q = Z.of_nat (length l) /\
  dseg ths None l None.

Definition queues : Type := thread_priority_t -> list Z.
Definition upd (qs : queues) (p : thread_priority_t) (l : list Z) : queues :=
  fun p' => if decide (p' = p) then l else qs p'.
Definition everyone (qs : queues) (sl : list Z) : list Z :=
  qs THREAD_PRIORITY_HIGH ++ qs THREAD_PRIORITY_NORMAL ++ qs THREAD_PRIORITY_BACKGROUND ++ sl.

(** The lists of a state. *)
Record linked (s : sched) (qs : queues) (sl : list Z) : Prop := {
  l_queues : forall p, queue_is (threads s) (ready_queue s p) (qs p);
  l_sleepers : sleeping_threads s = hd_or sl None /\ sseg (threads s) sl None;
  l_nodup : NoDup (everyone qs sl);
  l_small : Z.of_nat (size (threads s)) < 4294967296;
}.

(** * Reading and writing threads *)

Lemma cores_lookup s t k :
  cores s !! t = Some k -> exists th, get s t = Some th /\ k = core th.
Proof.
  unfold cores, get. rewrite lookup_fmap. destruct (threads s !! t) as [th|]; [|done].
  cbn. intros [= <-]. by exists th.
Qed.

Lemma get_cores s t th : get s t = Some th -> cores s !! t = Some (core th).
Proof. unfold cores, get. rewrite lookup_fmap. by intros ->. Qed.

Lemma cores_put s t th : cores (put s t th) = <[t := core th]> (cores s).
Proof. unfold cores, put. cbn [threads set_threads]. apply fmap_insert. Qed.

Lemma modify_get s t f th : get s t = Some th -> modify s t f = Some (put s t (f th)).
Proof. unfold modify. by intros ->. Qed.

Lemma get_put s t th : get (put s t th) t = Some th.
Proof. apply lookup_insert_eq. Qed.

Lemma get_put_ne s t u th : t <> u -> get (put s t th) u = get s u.
Proof. apply lookup_insert_ne. Qed.

Lemma put_put s t a b : put (put s t a) t b = put s t b.
Proof. unfold put. cbn. by rewrite insert_insert_eq. Qed.

Lemma size_put s t th a : get s t = Some a -> size (threads (put s t th)) = size (threads s).
Proof. intros H. apply map_size_insert_Some. by exists a. Qed.

(** * Segments *)

Lemma hd_or_app l l' d : hd_or (l ++ l') d = hd_or l (hd_or l' d).
Proof. by destruct l. Qed.

Lemma last_or_app l l' d : last_or (l ++ l') d = last_or l' (last_or l d).
Proof.
  unfold last_or. rewrite last_app. by destruct (last l').
Qed.

Lemma last_or_cons x l d : last_or (x :: l) d = last_or l (Some x).
Proof. change (x :: l) with ([x] ++ l). by rewrite last_or_app. Qed.

Lemma last_last_or l : last l = last_or l None.
Proof. unfold last_or. by destruct (last l). Qed.

Lemma last_or_elem l d x : last_or l d = Some x -> x ∈ l \/ d = Some x.
Proof.
  unfold last_or. destruct (last l) as [y|] eqn:E; [|by right].
  intros [= ->]. left. apply last_Some in E as [l' ->]. apply elem_of_app. right.
  by apply list_elem_of_singleton.
Qed.

Lemma dseg_app ths p l l' n :
  dseg ths p (l ++ l') n <-> dseg ths p l (hd_or l' n) /\ dseg ths (last_or l p) l' n.
Proof.
  revert p. induction l as [|x l IH]; intros p; cbn [app dseg]; [by split; [|intros [_ ?]]|].
  rewrite IH, hd_or_app, last_or_cons. naive_solver.
Qed.

Lemma sseg_app ths l l' n :
  sseg ths (l ++ l') n <-> sseg ths l (hd_or l' n) /\ sseg ths l' n.
Proof.
  induction l as [|x l IH]; cbn [app sseg]; [by split; [|intros [_ ?]]|].
  rewrite IH, hd_or_app. naive_solver.
Qed.

(** Two maps with the same links on a list. *)
Definition same_links (ths ths' : gmap Z kernel_thread) (l : list Z) : Prop :=
  forall x th, x ∈ l -> ths !! x = Some th ->
    exists th', ths' !! x = Some th' /\ previous th' = previous th /\ next th' = next th.

Lemma same_links_cons ths ths' x l : same_links ths ths' (x :: l) -> same_links ths ths' l.
Proof. intros H y th Hy. apply H. by apply list_elem_of_further. Qed.

Lemma dseg_links ths ths' p l n : same_links ths ths' l -> dseg ths p l n -> dseg ths' p l n.
Proof.
  revert p. induction l as [|x l IH]; intros p H; cbn [dseg]; [done|].
  intros [(th & E & Hp & Hn) Hl]. split; [|apply IH; [by eapply same_links_cons|done]].
  destruct (H x th (list_elem_of_here _ _) E) as (th' & E' & Hp' & Hn'). exists th'. by rewrite Hp', Hn'.
Qed.

Lemma sseg_links ths ths' l n : same_links ths ths' l -> sseg ths l n -> sseg ths' l n.
Proof.
  induction l as [|x l IH]; intros H; cbn [sseg]; [done|].
  intros [(th & E & Hn) Hl]. split; [|apply IH; [by eapply same_links_cons|done]].
  destruct (H x th (list_elem_of_here _ _) E) as (th' & E' & Hp' & Hn'). exists th'. by rewrite Hn'.
Qed.

Lemma same_links_insert ths t th l : t ∉ l -> same_links ths (<[t := th]> ths) l.
Proof.
  intros Ht x a Hx Ha. exists a. rewrite lookup_insert_ne by (intros ->; done). done.
Qed.

(** Writing a thread with the same links. *)
Lemma same_links_same ths t a b l :
  ths !! t = Some a -> previous b = previous a -> next b = next a ->
  same_links ths (<[t := b]> ths) l.
Proof.
  intros Ha Hp Hn x th _ Hx. destruct (decide (t = x)) as [->|Hne].
  - rewrite lookup_insert_eq. exists b. simplify_eq. done.
  - rewrite lookup_insert_ne by done. by exists th.
Qed.

Lemma same_links_trans a b c l : same_links a b l -> same_links b c l -> same_links a c l.
Proof.
  intros H1 H2 x th Hx E. destruct (H1 x th Hx E) as (th1 & E1 & P1 & N1).
  destruct (H2 x th1 Hx E1) as (th2 & E2 & P2 & N2). exists th2. by rewrite P2, N2.
Qed.

Lemma dseg_elem ths p l n x : dseg ths p l n -> x ∈ l -> exists th, ths !! x = Some th.
Proof.
  revert p. induction l as [|y l IH]; intros p; cbn; [by intros _ ?%elem_of_nil|].
  intros [(th & E & _) Hl] Hx%elem_of_cons. destruct Hx as [->|Hx]; [by exists th|by eapply IH].
Qed.

Lemma sseg_elem ths l n x : sseg ths l n -> x ∈ l -> exists th, ths !! x = Some th.
Proof.
  induction l as [|y l IH]; cbn; [by intros _ ?%elem_of_nil|].
  intros [(th & E & _) Hl] Hx%elem_of_cons. destruct Hx as [->|Hx]; [by exists th|by apply IH].
Qed.

Lemma dseg_sseg ths p l n : dseg ths p l n -> sseg ths l n.
Proof.
  revert p. induction l as [|y l IH]; intros p; cbn; [done|].
  intros [(th & E & _ & Hn) Hl]. split; [by exists th|by eapply IH].
Qed.

(** * Walking *)

Lemma chain_sseg s l : forall fuel, sseg (threads s) l None -> (length l <= fuel)%nat ->
  chain fuel s (hd_or l None) = Some l.
Proof.
  induction l as [|x l IH]; intros fuel; cbn [sseg hd_or length]; [by destruct fuel|].
  intros [(th & E & Hn) Hl] Hf. destruct fuel as [|fuel]; [lia|]. cbn [chain].
  unfold get. rewrite E. cbn [mbind option_bind]. rewrite Hn, IH by (done || lia). done.
Qed.

(** A list of distinct threads is no longer than there are threads. *)
Lemma length_threads (ths : gmap Z kernel_thread) (l : list Z) :
  NoDup l -> (forall x, x ∈ l -> is_Some (ths !! x)) -> (length l <= size ths)%nat.
Proof.
  intros Hn Hl. rewrite <- (size_dom ths), <- (size_list_to_set (C:=gset Z)) by done.
  apply subseteq_size. intros x Hx%elem_of_list_to_set. by apply elem_of_dom, Hl.
Qed.

Lemma queue_nodup qs sl p : NoDup (everyone qs sl) -> NoDup (qs p).
Proof. unfold everyone. rewrite !NoDup_app. destruct p; naive_solver. Qed.

Lemma sleepers_nodup qs sl : NoDup (everyone qs sl) -> NoDup sl.
Proof. unfold everyone. rewrite !NoDup_app. naive_solver. Qed.

Lemma in_everyone qs sl p x : x ∈ qs p -> x ∈ everyone qs sl.
Proof. unfold everyone. rewrite !elem_of_app. destruct p; tauto. Qed.

Lemma sleeper_in_everyone qs sl x : x ∈ sl -> x ∈ everyone qs sl.
Proof. unfold everyone. rewrite !elem_of_app. tauto. Qed.

Lemma elem_everyone qs sl x : x ∈ everyone qs sl <-> (exists p, x ∈ qs p) \/ x ∈ sl.
Proof.
  split.
  - unfold everyone. rewrite !elem_of_app. naive_solver.
  - intros [[p H]|H]; [by eapply in_everyone|by apply sleeper_in_everyone].
Qed.

Lemma queue_disjoint qs sl p p' x :
  NoDup (everyone qs sl) -> x ∈ qs p -> x ∈ qs p' -> p = p'.
Proof.
  unfold everyone. rewrite !NoDup_app. setoid_rewrite elem_of_app. setoid_rewrite elem_of_app.
  intros (_ & H1 & _ & H2 & _ & H3 & _) Hx Hx'. destruct p, p'; naive_solver.
Qed.

Lemma sleeper_not_queued qs sl p x : NoDup (everyone qs sl) -> x ∈ qs p -> x ∉ sl.
Proof.
  unfold everyone. rewrite !NoDup_app. setoid_rewrite elem_of_app. setoid_rewrite elem_of_app.
  intros (_ & H1 & _ & H2 & _ & H3 & _) Hx Hs. destruct p; naive_solver.
Qed.

Lemma chain_queue s qs sl p :
  linked s qs sl -> chain_all s (head_ (ready_queue s p)) = Some (qs p).
Proof.
  intros [Hq _ Hn _]. destruct (Hq p) as (-> & _ & _ & Hd). apply chain_sseg; [by eapply dseg_sseg|].
  apply length_threads; [by eapply queue_nodup|]. intros x Hx. by eapply dseg_elem.
Qed.

Lemma chain_sleepers s qs sl : linked s qs sl -> chain_all s (sleeping_threads s) = Some sl.
Proof.
  intros [_ [-> Hs] Hn _]. apply chain_sseg; [done|].
  apply length_threads; [by eapply sleepers_nodup|]. intros x Hx. by eapply sseg_elem.
Qed.

Lemma queue_length s qs sl p :
  linked s qs sl -> count (ready_queue s p) = Z.of_nat (length (qs p)) /\
    Z.of_nat (length (qs p)) <= Z.of_nat (size (threads s)).
Proof.
  intros [Hq _ Hn _]. destruct (Hq p) as (_ & _ & -> & Hd). split; [done|].
  enough (length (qs p) <= size (threads s))%nat by lia.
  apply length_threads; [by eapply queue_nodup|]. intros x Hx. by eapply dseg_elem.
Qed.

Lemma in_threads s qs sl x : linked s qs sl -> x ∈ everyone qs sl -> exists th, get s x = Some th.
Proof.
  intros [Hq [_ Hs] _ _] [[p Hx]|Hx]%elem_everyone; [|by eapply sseg_elem].
  destruct (Hq p) as (_ & _ & _ & Hd). by eapply dseg_elem.
Qed.

(** * Relinking *)

Definition relink_next (o v : option Z) (ths : gmap Z kernel_thread) : gmap Z kernel_thread :=
  match o with Some a => alter (set_next v) a ths | None => ths end.
Definition relink_prev (o v : option Z) (ths : gmap Z kernel_thread) : gmap Z kernel_thread :=
  match o with Some b => alter (set_previous v) b ths | None => ths end.

Lemma core_relink_next o v ths : core <$> relink_next o v ths = core <$> ths.
Proof.
  destruct o as [a|]; [|done]. apply map_eq. intros x. rewrite !lookup_fmap. cbn.
  destruct (decide (x = a)) as [->|Hne]; [|by rewrite lookup_alter_ne by done].
  rewrite lookup_alter_eq. by destruct (ths !! a).
Qed.

Lemma core_relink_prev o v ths : core <$> relink_prev o v ths = core <$> ths.
Proof.
  destruct o as [a|]; [|done]. apply map_eq. intros x. rewrite !lookup_fmap. cbn.
  destruct (decide (x = a)) as [->|Hne]; [|by rewrite lookup_alter_ne by done].
  rewrite lookup_alter_eq. by destruct (ths !! a).
Qed.

Lemma size_core (ths ths' : gmap Z kernel_thread) :
  core <$> ths = core <$> ths' -> size ths = size ths'.
Proof. intros H. by rewrite <- (map_size_fmap core ths), H, map_size_fmap. Qed.

Lemma modify_alter s a f : is_Some (get s a) ->
  modify s a f = Some (set_threads (alter f a (threads s)) s).
Proof.
  intros [th E]. rewrite (modify_get s a f th E). unfold put. do 2 f_equal.
  apply map_eq. intros x. destruct (decide (x = a)) as [->|Hne].
  - rewrite lookup_insert_eq, lookup_alter_eq. unfold get in E. by rewrite E.
  - by rewrite lookup_insert_ne, lookup_alter_ne by done.
Qed.

Lemma same_links_alter ths a f l : a ∉ l -> same_links ths (alter f a ths) l.
Proof.
  intros Ha x th Hx E. exists th. rewrite lookup_alter_ne; [done|]. intros ->. done.
Qed.

Lemma same_links_relink_next ths o v l :
  (forall a, o = Some a -> a ∉ l) -> same_links ths (relink_next o v ths) l.
Proof.
  intros H. destruct o as [a|]; [by apply same_links_alter, H|]. intros x th _ E. by exists th.
Qed.

Lemma same_links_relink_prev ths o v l :
  (forall a, o = Some a -> a ∉ l) -> same_links ths (relink_prev o v ths) l.
Proof.
  intros H. destruct o as [a|]; [by apply same_links_alter, H|]. intros x th _ E. by exists th.
Qed.

(** Changing what follows a segment. *)
Lemma dseg_relink_last ths p l n n' :
  NoDup l -> dseg ths p l n -> dseg (relink_next (last l) n' ths) p l n'.
Proof.
  destruct l as [|a l _] using rev_ind; [done|]. intros Hn Hd.
  rewrite last_snoc. apply NoDup_app in Hn as (_ & Hn & _).
  apply dseg_app in Hd as [Hl [(th & E & Hp & _) _]]. apply dseg_app. cbn [hd_or] in *. split.
  - eapply dseg_links, Hl. apply same_links_alter. intros Ha. apply (Hn a Ha). apply list_elem_of_here.
  - split; [|done]. exists (set_next n' th). cbn. rewrite lookup_alter_eq, E. done.
Qed.

(** Changing what precedes it. *)
Lemma dseg_relink_first ths p p' l n :
  NoDup l -> dseg ths p l n -> dseg (relink_prev (hd_or l None) p' ths) p' l n.
Proof.
  destruct l as [|b l]; [done|]. intros [Hb Hn]%NoDup_cons [(th & E & _ & Hnx) Hl]. cbn [hd_or relink_prev].
  split.
  - exists (set_previous p' th). rewrite lookup_alter_eq, E. done.
  - eapply dseg_links, Hl. by apply same_links_alter.
Qed.

Lemma sseg_relink_last ths l n n' :
  NoDup l -> sseg ths l n -> sseg (relink_next (last l) n' ths) l n'.
Proof.
  destruct l as [|a l _] using rev_ind; [done|]. intros Hn Hd.
  rewrite last_snoc. apply NoDup_app in Hn as (_ & Hn & _).
  apply sseg_app in Hd as [Hl [(th & E & _) _]]. apply sseg_app. cbn [hd_or] in *. split.
  - eapply sseg_links, Hl. apply same_links_alter. intros Ha. apply (Hn a Ha). apply list_elem_of_here.
  - split; [|done]. exists (set_next n' th). cbn. rewrite lookup_alter_eq, E. done.
Qed.

(** Taking a thread out of the middle. *)
Lemma dseg_remove ths l1 t l2 :
  NoDup (l1 ++ t :: l2) -> dseg ths None (l1 ++ t :: l2) None ->
  dseg (relink_prev (hd_or l2 None) (last l1) (relink_next (last l1) (hd_or l2 None) ths))
    None (l1 ++ l2) None.
Proof.
  intros Hn Hd. apply NoDup_app in Hn as (Hn1 & Hn12 & [Ht Hn2]%NoDup_cons).
  apply dseg_app in Hd as [H1 H2]. cbn [hd_or dseg] in *. destruct H2 as [_ H2].
  apply dseg_app. split.
  - eapply dseg_links; [|apply (dseg_relink_last _ _ _ _ (hd_or l2 None) Hn1 H1)].
    apply same_links_relink_prev. intros b Hb Hin. destruct l2 as [|b' l2]; [done|].
    injection Hb as ->. apply (Hn12 b Hin). apply list_elem_of_further, list_elem_of_here.
  - rewrite <- last_last_or. apply (dseg_relink_first _ (Some t)); [done|].
    eapply dseg_links, H2. apply same_links_relink_next. intros a Ha Hin.
    apply last_Some in Ha as [l' ->]. apply (Hn12 a); [|by apply list_elem_of_further].
    apply elem_of_app. right. by apply list_elem_of_singleton.
Qed.

(** Appending a thread. *)
Lemma dseg_append ths l t th :
  NoDup (l ++ [t]) -> dseg ths None l None -> previous th = last l -> next th = None ->
  dseg (relink_next (last l) (Some t) (<[t := th]> ths)) None (l ++ [t]) None.
Proof.
  intros Hn Hd Hp Hx. apply NoDup_app in Hn as (Hn & Ht & _).
  assert (Hnot : t ∉ l) by (intros H; apply (Ht t H); apply list_elem_of_here).
  apply dseg_app. cbn [hd_or]. split.
  - eapply dseg_relink_last; [done|]. eapply dseg_links, Hd. by apply same_links_insert.
  - split; [|done]. exists th. rewrite <- last_last_or. split; [|done].
    destruct (last l) as [a|] eqn:E; cbn; [|by apply lookup_insert_eq].
    rewrite lookup_alter_ne; [by apply lookup_insert_eq|]. intros <-.
    apply last_Some in E as [l' ->]. apply Hnot, elem_of_app. right. by apply list_elem_of_singleton.
Qed.

(** * States with the same lists *)

Lemma linked_ext s s' qs sl :
  threads s' = threads s -> (forall p, ready_queue s' p = ready_queue s p) ->
  sleeping_threads s' = sleeping_threads s -> linked s qs sl -> linked s' qs sl.
Proof.
  intros Ht Hq Hs [H1 H2 H3 H4]. split.
  - intros p. rewrite Ht, Hq. apply H1.
  - by rewrite Ht, Hs.
  - done.
  - by rewrite Ht.
Qed.

Lemma linked_links s s' qs sl :
  (forall p, ready_queue s' p = ready_queue s p) -> sleeping_threads s' = sleeping_threads s ->
  same_links (threads s) (threads s') (everyone qs sl) ->
  Z.of_nat (size (threads s')) < 4294967296 -> linked s qs sl -> linked s' qs sl.
Proof.
  intros Hq Hs Hl Hz [H1 [H2 H2'] H3 H4]. split; [| |done|done].
  - intros p. rewrite Hq. destruct (H1 p) as (A & B & C & D). split; [done|]. split; [done|].
    split; [done|]. eapply dseg_links, D. intros x th Hx. apply Hl. by eapply in_everyone.
  - rewrite Hs. split; [done|]. eapply sseg_links, H2'. intros x th Hx. apply Hl.
    by apply sleeper_in_everyone.
Qed.

(** Writing the fields of a thread other than its links. *)
Lemma linked_put s qs sl t a b :
  get s t = Some a -> previous b = previous a -> next b = next a ->
  linked s qs sl -> linked (put s t b) qs sl.
Proof.
  intros Ha Hp Hn HL. eapply linked_links, HL; [by destruct p|done| |].
  - by eapply same_links_same.
  - rewrite (size_put s t b a Ha). by apply (l_small _ _ _ HL).
Qed.

(** A new thread. *)
Lemma linked_new s qs sl t b :
  get s t = None -> Z.of_nat (size (threads s)) < 4294967295 ->
  linked s qs sl -> linked (put s t b) qs sl.
Proof.
  intros Ha Hz HL. eapply linked_links, HL; [by destruct p|done| |].
  - apply same_links_insert. intros Hin. destruct (in_threads s qs sl t HL Hin) as [th E]. congruence.
  - unfold put. cbn [threads set_threads]. rewrite map_size_insert_None by done. lia.
Qed.

(** What the operations on lists leave alone. *)
Definition same_env (s s' : sched) : Prop :=
  next_thread_id s' = next_thread_id s /\ scheduler_tick_count s' = scheduler_tick_count s /\
  cpus s' = cpus s /\ cpu_count s' = cpu_count s.

Lemma same_env_refl s : same_env s s.
Proof. done. Qed.

Lemma same_env_trans a b c : same_env a b -> same_env b c -> same_env a c.
Proof. unfold same_env. intros (-> & -> & -> & ->) (-> & -> & -> & ->). done. Qed.

(** * Taking a thread out of its queue *)

Lemma everyone_upd qs sl p t l :
  qs p ≡ₚ t :: l -> everyone qs sl ≡ₚ t :: everyone (upd qs p l) sl.
Proof.
  intros H. unfold everyone, upd. destruct p; repeat (case_decide; try done); rewrite H; cbn [app].
  - done.
  - by rewrite <- Permutation_middle.
  - rewrite <- Permutation_middle. cbn [app]. by rewrite <- Permutation_middle.
Qed.

Lemma upd_eq qs p l : upd qs p l p = l.
Proof. unfold upd. by rewrite decide_True. Qed.

Lemma upd_ne qs p p' l : p' <> p -> upd qs p l p' = qs p'.
Proof. intros H. unfold upd. by rewrite decide_False. Qed.

Lemma nodup_upd qs sl p t l :
  qs p ≡ₚ t :: l -> NoDup (everyone qs sl) ->
  NoDup (everyone (upd qs p l) sl) /\ t ∉ everyone (upd qs p l) sl.
Proof.
  intros Hp Hn. rewrite (everyone_upd qs sl p t l Hp) in Hn. by apply NoDup_cons in Hn as [? ?].
Qed.

Lemma last_elem (l : list Z) x : last l = Some x -> x ∈ l.
Proof.
  intros [l' ->]%last_Some. apply elem_of_app. right. by apply list_elem_of_singleton.
Qed.

Lemma removed_linked s s' qs sl p l1 t l2 thf :
  linked s qs sl -> qs p = l1 ++ t :: l2 ->
  threads s' = <[t := thf]> (relink_prev (hd_or l2 None) (last l1)
                               (relink_next (last l1) (hd_or l2 None) (threads s))) ->
  ready_queue s' p =
    Queue (hd_or (l1 ++ l2) None) (last (l1 ++ l2)) (Z.of_nat (length (l1 ++ l2))) ->
  (forall p', p' <> p -> ready_queue s' p' = ready_queue s p') ->
  sleeping_threads s' = sleeping_threads s ->
  is_Some (threads s !! t) ->
  linked s' (upd qs p (l1 ++ l2)) sl.
Proof.
  intros HL Hp Ht Hq Hq' Hs Hsome. pose proof HL as [H1 [H2 H2'] H3 H4].
  assert (Hperm : qs p ≡ₚ t :: (l1 ++ l2)) by (rewrite Hp; by rewrite Permutation_middle).
  destruct (nodup_upd qs sl p t (l1 ++ l2) Hperm H3) as [Hn Hnt].
  assert (Hlink : forall l, (forall x, x ∈ l -> x ∉ qs p) -> same_links (threads s) (threads s') l).
  { intros l Hl. rewrite Ht.
    eapply (same_links_trans _ (relink_next (last l1) (hd_or l2 None) (threads s)));
      [|eapply (same_links_trans _ (relink_prev (hd_or l2 None) (last l1)
          (relink_next (last l1) (hd_or l2 None) (threads s))))].
    - apply same_links_relink_next. intros a Ha Hin. apply (Hl a Hin). rewrite Hp.
      apply elem_of_app. left. by apply last_elem.
    - apply same_links_relink_prev. intros b Hb Hin. apply (Hl b Hin). rewrite Hp.
      destruct l2 as [|b' l2]; cbn in Hb; [discriminate|]. injection Hb as ->. apply elem_of_app.
      right. apply list_elem_of_further, list_elem_of_here.
    - apply same_links_insert. intros Hin. apply (Hl t Hin). rewrite Hp. apply elem_of_app.
      right. apply list_elem_of_here. }
  split; [| |done|].
  - intros p'. destruct (decide (p' = p)) as [->|Hne].
    + rewrite upd_eq, Hq. split; [done|]. split; [done|]. split; [done|]. rewrite Ht.
      destruct (H1 p) as (_ & _ & _ & D). rewrite Hp in D.
      eapply dseg_links; [|apply (dseg_remove (threads s) l1 t l2);
        [rewrite <- Hp; by eapply queue_nodup|exact D]].
      apply same_links_insert. intros Hin. apply Hnt.
      apply (in_everyone (upd qs p (l1 ++ l2)) sl p). by rewrite upd_eq.
    + rewrite upd_ne, Hq' by done. destruct (H1 p') as (A & B & C & D). split; [done|].
      split; [done|]. split; [done|]. eapply dseg_links, D. apply Hlink. intros x Hx Hx'.
      apply Hne. by apply (queue_disjoint qs sl p' p x).
  - rewrite Hs. split; [done|]. eapply sseg_links, H2'. apply Hlink. intros x Hx Hx'.
    by apply (sleeper_not_queued qs sl p x).
  - rewrite Ht. rewrite map_size_insert_Some.
    + erewrite size_core; [exact H4|]. by rewrite core_relink_prev, core_relink_next.
    + rewrite <- (fmap_is_Some core), <- lookup_fmap, core_relink_prev, core_relink_next.
      by rewrite lookup_fmap, fmap_is_Some.
Qed.

(** The links of a thread in the middle of a queue. *)
Lemma queue_links s qs sl p l1 t l2 th :
  linked s qs sl -> qs p = l1 ++ t :: l2 -> get s t = Some th ->
  previous th = last l1 /\ next th = hd_or l2 None.
Proof.
  intros [H1 _ _ _] Hp Ht. destruct (H1 p) as (_ & _ & _ & D). rewrite Hp in D.
  apply dseg_app in D as [_ [(th' & E & Hpr & Hnx) _]]. unfold get in Ht. simplify_eq.
  by rewrite <- last_last_or in Hpr.
Qed.

Lemma in_queue_get s qs sl p x :
  linked s qs sl -> x ∈ qs p -> is_Some (get s x).
Proof. intros HL Hx. destruct (in_threads s qs sl x HL) as [th E]; [by eapply in_everyone|by exists th]. Qed.

Lemma hd_or_spec (l1 l2 : list Z) : hd_or (l1 ++ l2) None =
  match last l1 with Some _ => hd_or l1 None | None => hd_or l2 None end.
Proof. rewrite hd_or_app. destruct l1 as [|x l1]; [done|]. by rewrite last_cons; destruct (last l1). Qed.

Lemma last_spec (l1 l2 : list Z) : last (l1 ++ l2) =
  match hd_or l2 None with Some _ => last l2 | None => last l1 end.
Proof.
  rewrite last_app. destruct l2 as [|x l2]; [done|]. cbn [hd_or]. rewrite last_cons. by destruct (last l2).
Qed.

Lemma same_env_threads s ths : same_env s (set_threads ths s).
Proof. done. Qed.

(** What the code of [scheduler_remove_queued_locked] computes. *)
Lemma remove_code s t th p :
  get s t = Some th -> queued th = true -> effective_priority th = p ->
  (forall a, previous th = Some a -> a <> t /\ is_Some (get s a)) ->
  (forall b, next th = Some b -> b <> t /\ is_Some (get s b)) ->
  count (ready_queue s p) <> 0 ->
  scheduler_remove_queued_locked s t =
    Some (set_ready_queue p
      (Queue (match previous th with Some _ => head_ (ready_queue s p) | None => next th end)
         (match next th with Some _ => tail_ (ready_queue s p) | None => previous th end)
         (u32 (count (ready_queue s p) - 1)))
      (set_threads (<[t := set_queued false (set_previous None (set_next None th))]>
         (relink_prev (next th) (previous th) (relink_next (previous th) (next th) (threads s)))) s)).
Proof.
  intros Ht Hq He Ha Hb Hc. unfold scheduler_remove_queued_locked. rewrite Ht. cbn [mbind option_bind].
  rewrite Hq, He. cbn [negb].
  set (s1 := match previous th with
             | Some a => set_threads (alter (set_next (next th)) a (threads s)) s
             | None => set_ready_queue p (Queue (next th) (tail_ (ready_queue s p))
                         (count (ready_queue s p))) s end).
  replace (match previous th with Some a => _ | None => _ end) with (Some s1).
  2: { unfold s1. destruct (previous th) as [a|]; [|done]. symmetry. apply modify_alter. by apply Ha. }
  cbn [mbind option_bind].
  assert (T1 : threads s1 = relink_next (previous th) (next th) (threads s))
    by (unfold s1; destruct (previous th); [done|by destruct p]).
  assert (G1 : get s1 t = Some th).
  { unfold get. rewrite T1. destruct (previous th) as [a|]; [|done]. cbn.
    rewrite lookup_alter_ne; [done|]. by apply Ha. }
  rewrite G1. cbn [mbind option_bind].
  set (s2 := match next th with
             | Some b => set_threads (alter (set_previous (previous th)) b (threads s1)) s1
             | None => set_ready_queue p (Queue (head_ (ready_queue s1 p)) (previous th)
                         (count (ready_queue s1 p))) s1 end).
  replace (match next th with Some b => _ | None => _ end) with (Some s2).
  2: { unfold s2. destruct (next th) as [b|] eqn:Eb; [|done]. symmetry. apply modify_alter.
       destruct (Hb b eq_refl) as [Hbt Hsome]. unfold get. rewrite T1.
       rewrite <- (fmap_is_Some core), <- lookup_fmap, core_relink_next. by rewrite lookup_fmap, fmap_is_Some. }
  cbn [mbind option_bind].
  assert (T2 : threads s2 = relink_prev (next th) (previous th) (threads s1))
    by (unfold s2; destruct (next th); [done|by destruct p]).
  assert (G2 : get s2 t = Some th).
  { unfold get. rewrite T2. destruct (next th) as [b|]; [|done]. cbn.
    rewrite lookup_alter_ne; [done|]. by apply Hb. }
  assert (C2 : count (ready_queue s2 p) = count (ready_queue s p))
    by (unfold s2, s1; destruct (next th), (previous th), p; done).
  rewrite C2. destruct (Z.eqb_spec (count (ready_queue s p)) 0); [done|].
  rewrite (modify_get _ t _ th) by (rewrite <- G2; by destruct p). f_equal. unfold put.
  rewrite <- T1, <- T2. unfold s2, s1. destruct (next th), (previous th), p; done.
Qed.

Lemma remove_spec s qs sl p l1 t l2 th :
  linked s qs sl -> qs p = l1 ++ t :: l2 -> get s t = Some th ->
  queued th = true -> effective_priority th = p ->
  exists s', scheduler_remove_queued_locked s t = Some s' /\
    linked s' (upd qs p (l1 ++ l2)) sl /\
    cores s' = <[t := core (set_queued false th)]> (cores s) /\
    same_env s s' /\ stats s' = stats s.
Proof.
  intros HL Hp Ht Hq He. destruct (queue_links s qs sl p l1 t l2 th HL Hp Ht) as [Hpr Hnx].
  pose proof HL as [H1 _ H3 H4]. destruct (H1 p) as (Qh & Qt & Qc & _).
  assert (Hn : NoDup (qs p)) by (by eapply queue_nodup). rewrite Hp in Hn.
  apply NoDup_app in Hn as (_ & Hn12 & [Ht2 _]%NoDup_cons).
  assert (Hin : forall x, x ∈ l1 ++ t :: l2 -> is_Some (get s x))
    by (intros x Hx; apply (in_queue_get s qs sl p x HL); by rewrite Hp).
  assert (Hlen : length (qs p) = S (length (l1 ++ l2))) by (rewrite Hp, !length_app; cbn; lia).
  rewrite (remove_code s t th p Ht Hq He).
  2: { intros a Ha. rewrite Hpr in Ha. apply last_elem in Ha. split.
       - intros ->. apply (Hn12 _ Ha), list_elem_of_here.
       - apply Hin, elem_of_app. by left. }
  2: { intros b Hb. rewrite Hnx in Hb. destruct l2 as [|b' l2]; cbn in Hb; [discriminate|].
       injection Hb as ->. split; [intros ->; apply Ht2, list_elem_of_here|].
       apply Hin, elem_of_app. right. apply list_elem_of_further, list_elem_of_here. }
  2: { rewrite Qc, Hlen. lia. }
  eexists. split; [reflexivity|]. rewrite Hpr, Hnx. split; [|split; [|by destruct p]].
  - eapply (removed_linked s _ qs sl p l1 t l2); [done|done|by destruct p| | |by destruct p|].
    + pose proof (proj2 (queue_length s qs sl p HL)) as Hz.
      assert (Hu : u32 (Z.of_nat (length (qs p)) - 1) = Z.of_nat (length (l1 ++ l2)))
        by (rewrite u32_id by mach; lia).
      rewrite hd_or_spec, last_spec, Qc, Hu, Qh, Qt, Hp.
      rewrite hd_or_app, last_app. destruct p; cbn; f_equal.
      all: try (destruct l1 as [|x l1]; [done|]; cbn [hd_or]; by destruct (last (x :: l1)) eqn:E; [|apply last_None in E]).
      all: rewrite last_cons; destruct l2 as [|y l2]; [done|]; cbn [hd_or]; by rewrite last_cons; destruct (last l2).
    + intros p' Hp'. by destruct p, p'.
    + apply Hin, elem_of_app. right. apply list_elem_of_here.
  - unfold cores. replace (threads (set_ready_queue p _ _)) with
      (<[t := set_queued false (set_previous None (set_next None th))]>
        (relink_prev (hd_or l2 None) (last l1) (relink_next (last l1) (hd_or l2 None) (threads s))))
      by (by destruct p).
    by rewrite fmap_insert, core_relink_prev, core_relink_next.
Qed.

(** * Appending a thread to a queue *)

Lemma nodup_append qs sl p t :
  NoDup (everyone qs sl) -> t ∉ everyone qs sl ->
  NoDup (everyone (upd qs p (qs p ++ [t])) sl).
Proof.
  intros Hn Ht. assert (Hp : everyone (upd qs p (qs p ++ [t])) sl ≡ₚ t :: everyone qs sl).
  { unfold everyone, upd. destruct p; repeat (case_decide; try done).
    all: rewrite <- (app_assoc _ [t]); cbn [app]; rewrite <- !Permutation_middle; done. }
  rewrite Hp. by apply NoDup_cons.
Qed.

Lemma appended_linked s s' qs sl p t thf :
  linked s qs sl -> t ∉ everyone qs sl -> is_Some (threads s !! t) ->
  previous thf = last (qs p) -> next thf = None ->
  threads s' = relink_next (last (qs p)) (Some t) (<[t := thf]> (threads s)) ->
  ready_queue s' p =
    Queue (hd_or (qs p ++ [t]) None) (Some t) (Z.of_nat (length (qs p ++ [t]))) ->
  (forall p', p' <> p -> ready_queue s' p' = ready_queue s p') ->
  sleeping_threads s' = sleeping_threads s ->
  linked s' (upd qs p (qs p ++ [t])) sl.
Proof.
  intros HL Ht Hsome Hpr Hnx Hth Hq Hq' Hs. pose proof HL as [H1 [H2 H2'] H3 H4].
  pose proof (nodup_append qs sl p t H3 Ht) as Hn.
  assert (Hlink : forall l, (forall x, x ∈ l -> x ∈ everyone qs sl /\ x ∉ qs p) ->
            same_links (threads s) (threads s') l).
  { intros l Hl. rewrite Hth. apply (same_links_trans _ (<[t := thf]> (threads s))).
    - apply same_links_insert. intros Hin. by apply Ht, Hl.
    - apply same_links_relink_next. intros a Ha Hin. destruct (Hl a Hin) as [_ Hna].
      by apply Hna, last_elem. }
  split; [| |done|].
  - intros p'. destruct (decide (p' = p)) as [->|Hne].
    + rewrite upd_eq, Hq. split; [done|]. split; [by rewrite last_snoc|]. split; [done|].
      rewrite Hth. destruct (H1 p) as (_ & _ & _ & D). apply dseg_append; try done.
      pose proof (queue_nodup _ _ p Hn) as Hnp. by rewrite upd_eq in Hnp.
    + rewrite upd_ne, Hq' by done. destruct (H1 p') as (A & B & C & D). split; [done|].
      split; [done|]. split; [done|]. eapply dseg_links, D. apply Hlink. intros x Hx.
      split; [by eapply in_everyone|]. intros Hx'. apply Hne. by apply (queue_disjoint qs sl p' p x).
  - rewrite Hs. split; [done|]. eapply sseg_links, H2'. apply Hlink. intros x Hx.
    split; [by apply sleeper_in_everyone|]. intros Hx'. by apply (sleeper_not_queued qs sl p x).
  - rewrite Hth. rewrite (size_core _ (<[t := thf]> (threads s))) by apply core_relink_next.
    by rewrite map_size_insert_Some.
Qed.

(** The state [scheduler_enqueue_locked] validates. *)
Definition link_tail (s : sched) (p : thread_priority_t) (t : Z) (th : kernel_thread) : sched :=
  let q := ready_queue s p in
  set_ready_queue p (Queue (match tail_ q with Some _ => head_ q | None => Some t end) (Some t)
                       (u32 (count q + 1)))
    (set_threads (relink_next (tail_ q) (Some t)
       (<[t := set_queued true (set_next None (set_previous (tail_ q) (set_ready_wait_ticks 0 th)))]>
          (threads s))) s).

Lemma enqueue_code me s t th p :
  get s t = Some th -> state th = THREAD_STATE_READY -> queued th = false ->
  running_cpu th = None -> effective_priority th = p ->
  (forall a, tail_ (ready_queue s p) = Some a -> is_Some (get s a)) ->
  scheduler_enqueue_locked me s t =
    (ok ← scheduler_validate_locked me (link_tail s p t th);
     if negb ok then s ← scheduler_remove_queued_locked (link_tail s p t th) t; Some (false, s)
     else s ← scheduler_update_runnable_peak me (link_tail s p t th); Some (true, s)).
Proof.
  intros Ht Hst Hq Hr He Ha. unfold scheduler_enqueue_locked. rewrite Ht. cbn [mbind option_bind].
  unfold is_state. rewrite bool_decide_eq_true_2 by done. rewrite Hq, Hr, He. cbn [negb orb bool_decide].
  rewrite bool_decide_eq_true_2 by done. cbn [negb].
  rewrite (modify_get s t _ th Ht). cbn [mbind option_bind].
  set (s1 := put s t _).
  assert (E : match tail_ (ready_queue s p) with
              | Some a => modify s1 a (set_next (Some t))
              | None => Some (set_ready_queue p (Queue (Some t) (tail_ (ready_queue s p))
                                (count (ready_queue s p))) s1)
              end =
    Some (match tail_ (ready_queue s p) with
          | Some a => set_threads (alter (set_next (Some t)) a (threads s1)) s1
          | None => set_ready_queue p (Queue (Some t) (tail_ (ready_queue s p))
                      (count (ready_queue s p))) s1 end)).
  { destruct (tail_ (ready_queue s p)) as [a|]; [|done]. apply modify_alter. unfold s1.
    destruct (decide (t = a)) as [<-|Hne]; [by rewrite get_put|]. rewrite get_put_ne by done. by apply Ha. }
  rewrite E. cbn [mbind option_bind]. unfold link_tail, s1.
  destruct (tail_ (ready_queue s p)) eqn:Et; destruct p; cbn -[u32] in *; reflexivity.
Qed.

Lemma queue_room s qs sl p t :
  linked s qs sl -> is_Some (get s t) -> t ∉ everyone qs sl ->
  u32 (count (ready_queue s p) + 1) = Z.of_nat (length (qs p ++ [t])).
Proof.
  intros HL Ht Hnot. pose proof HL as [H1 _ H3 H4].
  assert (Hl : (length (qs p ++ [t]) <= size (threads s))%nat).
  { apply length_threads.
    - pose proof (queue_nodup _ _ p (nodup_append qs sl p t H3 Hnot)) as H. by rewrite upd_eq in H.
    - intros x [Hx|Hx]%elem_of_app; [by eapply in_queue_get|]. by apply list_elem_of_singleton in Hx as ->. }
  destruct (H1 p) as (_ & _ & -> & _). rewrite length_app in *. cbn [length] in *. rewrite u32_id by mach. lia.
Qed.

Lemma link_tail_spec s qs sl t th p :
  linked s qs sl -> get s t = Some th -> t ∉ everyone qs sl ->
  linked (link_tail s p t th) (upd qs p (qs p ++ [t])) sl /\
  cores (link_tail s p t th) = <[t := core (set_queued true (set_ready_wait_ticks 0 th))]> (cores s) /\
  same_env s (link_tail s p t th) /\ stats (link_tail s p t th) = stats s.
Proof.
  intros HL Ht Hnot. pose proof HL as [H1 _ H3 H4]. destruct (H1 p) as (Qh & Qt & Qc & _).
  split; [|split; [|by unfold link_tail; destruct p]].
  - apply (appended_linked s _ qs sl p t
      (set_queued true (set_next None (set_previous (last (qs p)) (set_ready_wait_ticks 0 th)))));
      try done; unfold link_tail.
    + rewrite Qt. by destruct p.
    + rewrite (queue_room s qs sl p t HL (ex_intro _ th Ht) Hnot), Qh, Qt, hd_or_app.
      destruct (last (qs p)) eqn:E.
      * destruct (qs p); [done|]. by destruct p.
      * apply last_None in E. rewrite E. by destruct p.
    + intros p' Hp'. by destruct p, p'.
    + by destruct p.
  - unfold cores, link_tail.
    replace (threads (set_ready_queue _ _ _)) with
      (relink_next (tail_ (ready_queue s p)) (Some t)
       (<[t := set_queued true (set_next None (set_previous (tail_ (ready_queue s p))
            (set_ready_wait_ticks 0 th)))]> (threads s))) by (by destruct p).
    by rewrite core_relink_next, fmap_insert.
Qed.

(** * Sleepers *)

Lemma sleeper_links s qs sl l1 t l2 th :
  linked s qs sl -> sl = l1 ++ t :: l2 -> get s t = Some th -> next th = hd_or l2 None.
Proof.
  intros [_ [_ D] _ _] -> Ht. apply sseg_app in D as [_ [(th' & E & Hnx) _]].
  unfold get in Ht. by simplify_eq.
Qed.

Lemma unlink_code s t after : forall l1 l2 fuel prev,
  sseg (threads s) (l1 ++ t :: l2) None -> t ∉ l1 -> (length l1 < fuel)%nat ->
  unlink_sleeper fuel s (hd_or (l1 ++ t :: l2) None) prev t after =
    match last_or l1 prev with
    | None => Some (set_sleeping_threads after s)
    | Some a => modify s a (set_next after)
    end.
Proof.
  induction l1 as [|x l1 IH]; intros l2 fuel prev Hs Hx Hf; (destruct fuel as [|fuel]; [cbn in Hf; lia|]);
    cbn [app hd_or unlink_sleeper].
  - by rewrite Z.eqb_refl.
  - apply not_elem_of_cons in Hx as [Hne Hx]. destruct (Z.eqb_spec x t); [congruence|].
    destruct Hs as [(th & E & Hn) Hs]. unfold get. rewrite E. cbn [mbind option_bind].
    rewrite Hn, IH by (done || (cbn in Hf; lia)). by rewrite last_or_cons.
Qed.

Lemma everyone_sleepers qs l1 t l2 : everyone qs (l1 ++ t :: l2) ≡ₚ t :: everyone qs (l1 ++ l2).
Proof. unfold everyone. rewrite <- !Permutation_middle. done. Qed.

Lemma sleeping_remove_code s t th l1 l2 qs :
  linked s qs (l1 ++ t :: l2) -> get s t = Some th -> sleeping th = true ->
  sleeping_remove s t =
    Some (set_sleeping_threads (hd_or (l1 ++ l2) None)
      (set_threads (<[t := set_wakeup_tick 0 (set_sleeping false (set_next None th))]>
         (relink_next (last l1) (hd_or l2 None) (threads s))) s)).
Proof.
  intros HL Ht Hsl. pose proof HL as [_ [Hh Hd] Hn _].
  pose proof (sleeper_links s qs _ l1 t l2 th HL eq_refl Ht) as Hnx.
  apply sleepers_nodup in Hn. pose proof Hn as (_ & Hn1 & _)%NoDup_app.
  assert (Htl : t ∉ l1) by (intros H; apply (Hn1 t H), list_elem_of_here).
  unfold sleeping_remove. rewrite Ht. cbn [mbind option_bind]. rewrite Hsl. cbn [negb].
  rewrite Hh, unlink_code; [|done|done|].
  2: { assert (length (l1 ++ t :: l2) <= size (threads s))%nat as H
         by (apply length_threads; [done|intros x Hx; by eapply sseg_elem]).
       rewrite length_app in H. cbn in H. lia. }
  rewrite <- last_last_or, hd_or_app, Hnx.
  destruct (last l1) as [a|] eqn:Ea.
  - assert (Hne : t <> a) by (intros ->; by apply Htl, last_elem).
    rewrite (modify_alter s a) by (eapply sseg_elem; [exact Hd|]; apply elem_of_app; left; by apply last_elem).
    cbn [mbind option_bind]. rewrite (modify_get _ t _ th).
    2: { unfold get. cbn. by rewrite lookup_alter_ne. }
    cbn [relink_next]. unfold put. cbn. destruct l1 as [|x l1]; [done|]. cbn [hd_or].
    cbn in Hh. rewrite <- Hh. by destruct s.
  - apply last_None in Ea as ->. cbn [mbind option_bind relink_next].
    rewrite (modify_get _ t _ th) by done. done.
Qed.

Lemma sleeping_remove_spec s t th l1 l2 qs :
  linked s qs (l1 ++ t :: l2) -> get s t = Some th -> sleeping th = true ->
  exists s', sleeping_remove s t = Some s' /\ linked s' qs (l1 ++ l2) /\
    cores s' = <[t := core (set_wakeup_tick 0 (set_sleeping false th))]> (cores s) /\
    same_env s s' /\ stats s' = stats s /\ (forall p, ready_queue s' p = ready_queue s p).
Proof.
  intros HL Ht Hsl. rewrite (sleeping_remove_code s t th l1 l2 qs HL Ht Hsl).
  eexists. split; [reflexivity|]. pose proof HL as [Hq [Hh Hd] Hn Hz].
  assert (Hn' := Hn). rewrite everyone_sleepers in Hn'. apply NoDup_cons in Hn' as [Ht' Hn'].
  pose proof (sleepers_nodup _ _ Hn) as (Hn1 & Hn12 & [Ht2 Hn2]%NoDup_cons)%NoDup_app.
  assert (Ht1 : t ∉ l1) by (intros H; apply (Hn12 t H), list_elem_of_here).
  split; [split|].
  - intros p. destruct (Hq p) as (A & B & C & D).
    split; [by destruct p|]. split; [by destruct p|]. split; [by destruct p|].
    eapply dseg_links, D. cbn [threads set_sleeping_threads set_threads].
    apply (same_links_trans _ (relink_next (last l1) (hd_or l2 None) (threads s))).
    + apply same_links_relink_next. intros a Ha%last_elem Hin.
      apply (sleeper_not_queued qs _ p a Hn Hin), elem_of_app. by left.
    + apply same_links_insert. intros Hin. apply Ht'. by eapply in_everyone.
  - split; [done|]. cbn [threads set_sleeping_threads set_threads].
    eapply sseg_links; [apply same_links_insert; intros Hin;
      apply Ht', sleeper_in_everyone, Hin|].
    apply sseg_app in Hd as [Hd1 [_ Hd2]]. apply sseg_app. split; [by eapply sseg_relink_last|].
    eapply sseg_links, Hd2. apply same_links_relink_next. intros a Ha%last_elem Hin.
    apply (Hn12 a Ha). by apply list_elem_of_further.
  - done.
  - cbn [threads set_sleeping_threads set_threads]. rewrite map_size_insert_Some.
    + by rewrite (size_core _ (threads s)) by apply core_relink_next.
    + rewrite <- (fmap_is_Some core), <- lookup_fmap, core_relink_next, lookup_fmap, fmap_is_Some.
      by exists th.
  - split; [|split; [done|split; [done|by intros []]]].
    unfold cores. cbn [threads set_sleeping_threads set_threads].
    by rewrite fmap_insert, core_relink_next.
Qed.

Lemma sleeping_push_spec s t th sl qs :
  linked s qs sl -> get s t = Some th -> t ∉ everyone qs sl ->
  exists s', sleeping_push s t = Some s' /\ linked s' qs (t :: sl) /\
    cores s' = <[t := core (set_sleeping true th)]> (cores s) /\
    same_env s s' /\ stats s' = stats s /\ (forall p, ready_queue s' p = ready_queue s p).
Proof.
  intros HL Ht Hnot. unfold sleeping_push. rewrite (modify_get s t _ th Ht). cbn [mbind option_bind].
  eexists. split; [reflexivity|]. pose proof HL as [Hq [Hh Hd] Hn Hz]. split; [split|].
  - intros p. destruct (Hq p) as (A & B & C & D).
    split; [by destruct p|]. split; [by destruct p|]. split; [by destruct p|].
    eapply dseg_links, D. apply same_links_insert. intros Hin. apply Hnot. by eapply in_everyone.
  - split; [done|]. split.
    + exists (set_sleeping true (set_next (sleeping_threads s) th)). split; [apply lookup_insert_eq|]. done.
    + eapply sseg_links, Hd. apply same_links_insert. intros Hin. by apply Hnot, sleeper_in_everyone.
  - unfold everyone in *. rewrite <- !Permutation_middle. by apply NoDup_cons.
  - cbn [threads set_sleeping_threads]. by rewrite (size_put s t _ th).
  - split; [|split; [done|split; [done|by intros []]]].
    change (cores (set_sleeping_threads ?x ?y)) with (cores y). by rewrite cores_put.
Qed.

End SchedLinks.
