(* ===== verification/SchedulerProofs.v ===== *)
(** The correctness of the scheduler: an invariant of its threads, queues and
    CPUs under which the code's own validation always succeeds, that every
    operation of every CPU preserves it and never fails or panics, the order in
    which threads are chosen, and that none starves. *)
From stdpp Require Import gmap.
From S2P Require Import Prelude SchedState Scheduler SchedLinks.
Import SchedState Scheduler SchedLinks.

Module SchedulerProofs.

(** * The invariant of the lists *)

(** What holds of a thread that waits in a queue, or sleeps. *)
Definition waits (p : thread_priority_t) (k : kernel_thread) : Prop :=
  queued k = true /\ state k = THREAD_STATE_READY /\ effective_priority k = p /\
  sleeping k = false /\ running_cpu k = None.
Definition sleeps (k : kernel_thread) : Prop :=
  queued k = false /\ state k = THREAD_STATE_BLOCKED /\ sleeping k = true /\ running_cpu k = None.
(** What holds of the idle thread of CPU [i]. *)
Definition idles (i : nat) (k : kernel_thread) : Prop :=
  queued k = false /\ sleeping k = false /\ base_priority k = THREAD_PRIORITY_BACKGROUND /\
  effective_priority k = THREAD_PRIORITY_BACKGROUND /\
  ((state k = THREAD_STATE_READY /\ (running_cpu k = None \/ running_cpu k = Some i)) \/
   (state k = THREAD_STATE_RUNNING /\ running_cpu k = Some i)).

Record lists_ok (K : gmap Z kernel_thread) (qs : queues) (sl : list Z) (cs : list cpu_local)
    : Prop := {
  lo_ready : forall p t, t ∈ qs p -> exists k, K !! t = Some k /\ waits p k;
  lo_sleep : forall t, t ∈ sl -> exists k, K !! t = Some k /\ sleeps k;
  lo_queued : forall t k, K !! t = Some k -> queued k = true -> t ∈ qs (effective_priority k);
  lo_sleeping : forall t k, K !! t = Some k -> sleeping k = true -> t ∈ sl;
  lo_prio : forall t k, K !! t = Some k -> thread_priority_state_valid k = true;
  lo_idle : forall i c t, cs !! i = Some c -> idle_thread c = Some t ->
    exists k, K !! t = Some k /\ idles i k;
}.

(** What validation requires of a CPU. *)
Record cpu_valid (K : gmap Z kernel_thread) (i : nat) (c : cpu_local) : Prop := {
  cv_current : forall t, current_thread c = Some t -> exists k, K !! t = Some k /\
    queued k = false /\ running_cpu k = Some i /\
    (context_switching c = true \/ state k = THREAD_STATE_RUNNING);
  cv_online : online c = true ->
    idle_thread c <> None /\ (current_thread c = None -> context_switching c = true);
}.

Definition cpus_valid (K : gmap Z kernel_thread) (cs : list cpu_local) : Prop :=
  forall i c, cs !! i = Some c -> cpu_valid K i c.

(** [simplify_core]: read the fields of threads through [core]. *)
Ltac core_get H :=
  let th := fresh "th" in let E := fresh "E" in
  apply cores_lookup in H as (th & E & ->).

(** * Validation succeeds *)

Section Validation.
Context (s : sched) (qs : queues) (sl : list Z).
Hypothesis HL : linked s qs sl.
Hypothesis HO : lists_ok (cores s) qs sl (cpus s).
Hypothesis HV : cpus_valid (cores s) (cpus s).

Lemma validate_self_true i c : cpus s !! i = Some c -> validate_self s c = Some true.
Proof using HO HV.
  intros Hc. unfold validate_self. pose proof (HV i c Hc) as [Hcur _].
  destruct (current_thread c) as [t|].
  - destruct (Hcur t eq_refl) as (k & Hk & Hq & _). pose proof (lo_prio _ _ _ _ HO t k Hk) as Hp.
    core_get Hk. rewrite E. cbn [mbind option_bind]. cbn in Hq. rewrite Hq.
    change (thread_priority_state_valid (core th)) with (thread_priority_state_valid th) in Hp.
    rewrite Hp. cbn [negb andb]. destruct (idle_thread c) as [u|] eqn:Ei; [|done].
    destruct (lo_idle _ _ _ _ HO i c u Hc Ei) as (k & Hk & Hqi & _ & Hb & He & _).
    core_get Hk. rewrite E0. cbn in *. rewrite Hqi. by rewrite !bool_decide_eq_true_2.
  - cbn [mbind option_bind]. destruct (idle_thread c) as [u|] eqn:Ei; [|done].
    destruct (lo_idle _ _ _ _ HO i c u Hc Ei) as (k & Hk & Hqi & _ & Hb & He & _).
    core_get Hk. rewrite E. cbn in *. rewrite Hqi. by rewrite !bool_decide_eq_true_2.
Qed.

Lemma validate_cpu_true i c : cpus s !! i = Some c -> validate_cpu s i c = Some true.
Proof using HO HV.
  intros Hc. unfold validate_cpu. destruct (online c) eqn:Eo; cbn [negb]; [|done].
  pose proof (HV i c Hc) as [Hcur Hon]. destruct (Hon Eo) as [Hid Hsw].
  assert (Hi : match idle_thread c with
               | None => Some false
               | Some t => th ← get s t; Some (negb (queued th) &&
                   negb (bool_decide (running_cpu th = None) && is_state th THREAD_STATE_RUNNING))
               end = Some true).
  { destruct (idle_thread c) as [u|] eqn:Ei; [|done].
    destruct (lo_idle _ _ _ _ HO i c u Hc Ei) as (k & Hk & Hqi & _ & _ & _ & Hst).
    core_get Hk. rewrite E. cbn in *. rewrite Hqi. unfold is_state. do 2 f_equal. cbn.
    destruct Hst as [[-> _]|[-> ->]]; [by rewrite andb_false_r|done]. }
  destruct (current_thread c) as [t|].
  - destruct (Hcur t eq_refl) as (k & Hk & Hq & Hr & Hst). core_get Hk. rewrite E. cbn in *.
    rewrite Hi. cbn. rewrite Hq, Hr. rewrite bool_decide_eq_true_2 by done. unfold is_state.
    destruct Hst as [->| ->]; [done|]. rewrite bool_decide_eq_true_2 by done. by rewrite orb_true_r.
  - cbn [mbind option_bind]. rewrite Hi. cbn. by rewrite Hsw.
Qed.

Lemma validate_cpus_true l : forall i,
  (forall j c, l !! j = Some c -> cpus s !! (i + j)%nat = Some c) ->
  validate_cpus s i l = Some true.
Proof using HO HV.
  induction l as [|c l IH]; intros i H; cbn [validate_cpus]; [done|].
  rewrite validate_cpu_true; [|specialize (H 0%nat c eq_refl); by rewrite Nat.add_0_r in H].
  cbn [mbind option_bind]. apply IH. intros j d Hd. specialize (H (S j) d Hd).
  by rewrite <- Nat.add_succ_comm in H.
Qed.

Lemma sleepers_next i t th : sl !! i = Some t -> get s t = Some th -> next th = sl !! S i.
Proof using HL.
  intros Hi Ht. destruct HL as [_ [_ Hs] _ _].
  rewrite <- (take_drop_middle sl i t Hi) in Hs. apply sseg_app in Hs as [_ [(th' & E & Hn) _]].
  unfold get in Ht. simplify_eq. rewrite Hn. destruct (drop (S i) sl) as [|x l] eqn:Ed; cbn.
  - symmetry. apply lookup_ge_None_2. apply (f_equal length) in Ed. rewrite length_drop in Ed. cbn in Ed. lia.
  - assert (Hx : drop (S i) sl !! 0%nat = Some x) by (by rewrite Ed).
    rewrite lookup_drop, Nat.add_0_r in Hx. done.
Qed.

Lemma sleeper_thread i t : sl !! i = Some t -> exists th, get s t = Some th.
Proof using HL.
  intros H. apply (in_threads s qs sl t HL), sleeper_in_everyone. by eapply list_elem_of_lookup_2.
Qed.

(** The cycle detector: after [n] rounds its pointers are at [n] and [2n]. *)
Lemma acyclic_true fuel : forall n, (length sl < fuel + n)%nat -> (2 * n <= length sl + 1)%nat ->
  (n = 0 \/ sl !! n <> sl !! (2 * n))%nat ->
  acyclic fuel s (sl !! n) (sl !! (2 * n))%nat = Some true.
Proof using HL.
  induction fuel as [|fuel IH]; intros n Hf Hn Hne; [lia|]. cbn [acyclic].
  destruct (sl !! (2 * n)%nat) as [f|] eqn:Ef; [|done].
  destruct (sleeper_thread _ _ Ef) as [fth Gf]. rewrite Gf. cbn [mbind option_bind].
  rewrite (sleepers_next _ _ _ Ef Gf). destruct (sl !! S (2 * n)) as [f2|] eqn:Ef2; [|done].
  destruct (sleeper_thread _ _ Ef2) as [f2th Gf2].
  apply lookup_lt_Some in Ef as Hlt. apply lookup_lt_Some in Ef2 as Hlt2.
  destruct (lookup_lt_is_Some_2 sl n) as [t Et]; [lia|]. rewrite Et.
  destruct (sleeper_thread _ _ Et) as [th Gt]. rewrite Gt. cbn [mbind option_bind].
  rewrite Gf2, (sleepers_next _ _ _ Et Gt). cbn [mbind option_bind]. cbv zeta.
  rewrite (sleepers_next _ _ _ Ef2 Gf2). replace (S (S (2 * n))) with (2 * S n)%nat by lia.
  assert (Hd : sl !! S n <> sl !! (2 * S n)%nat).
  { intros H. destruct (lookup_lt_is_Some_2 sl (S n)) as [x Ex]; [lia|]. rewrite Ex in H.
    destruct HL as [_ _ Hnd _]. apply sleepers_nodup in Hnd.
    pose proof (NoDup_lookup sl (S n) (2 * S n) x Hnd Ex (eq_sym H)). lia. }
  rewrite bool_decide_eq_false_2 by done. apply IH; [lia|lia|by right].
Qed.

Lemma queued_not_idle i c p t :
  cpus s !! i = Some c -> t ∈ qs p -> is_thread (idle_thread c) t = false.
Proof using HO.
  intros Hc Ht. apply bool_decide_eq_false_2. intros Hi.
  destruct (lo_ready _ _ _ _ HO p t Ht) as (k & Hk & Hq & _).
  destruct (lo_idle _ _ _ _ HO i c t Hc Hi) as (k' & Hk' & Hq' & _). congruence.
Qed.

Lemma validate_queue_true i c p fuel : cpus s !! i = Some c -> forall l2 l1,
  qs p = l1 ++ l2 -> (length l2 < fuel)%nat ->
  validate_queue fuel s c p (Z.of_nat (length (qs p))) (Z.of_nat (length l1)) (last l1) (hd_or l2 None) =
    Some (Some (Z.of_nat (length (qs p)), last (qs p))).
Proof using HL HO.
  intros Hc. pose proof (queue_length s qs sl p HL) as [_ Hlen]. pose proof (l_small _ _ _ HL) as Hz.
  induction fuel as [|fuel IH]; intros l2 l1 Hp Hf; [lia|]. destruct l2 as [|t l2].
  { cbn. by rewrite Hp, app_nil_r. }
  cbn [hd_or validate_queue]. assert (Hin : t ∈ qs p) by (rewrite Hp; apply elem_of_app; right; apply list_elem_of_here).
  destruct (lo_ready _ _ _ _ HO p t Hin) as (k & Hk & Hq & Hst & He & Hsl & Hr).
  pose proof (lo_prio _ _ _ _ HO t k Hk) as Hpv. core_get Hk.
  destruct (queue_links s qs sl p l1 t l2 th HL Hp E) as [Hpr Hnx].
  change (thread_priority_state_valid (core th)) with (thread_priority_state_valid th) in Hpv.
  cbn in Hq, Hst, He, Hsl, Hr.
  assert (Hl : length (qs p) = (length l1 + S (length l2))%nat) by (by rewrite Hp, length_app).
  rewrite u32_id by mach. destruct (Z.ltb_spec (Z.of_nat (length (qs p))) (Z.of_nat (length l1) + 1)); [lia|].
  rewrite E. cbn [mbind option_bind]. unfold is_state.
  rewrite Hq, Hpv, Hsl, (queued_not_idle i c p t Hc Hin).
  rewrite !bool_decide_eq_true_2 by done. cbn [negb orb].
  specialize (IH l2 (l1 ++ [t])). rewrite last_snoc in IH. rewrite Hnx.
  replace (Z.of_nat (length l1) + 1) with (Z.of_nat (length (l1 ++ [t]))) by (rewrite length_app; cbn; lia).
  apply IH; [by rewrite <- app_assoc|cbn in Hf; lia].
Qed.

Lemma validate_ready_true i c p : cpus s !! i = Some c -> validate_ready s c p = Some true.
Proof using HL HO.
  intros Hc. unfold validate_ready. destruct HL as [Hq _ _ _]. destruct (Hq p) as (Qh & Qt & Qc & _).
  rewrite Qh, Qt, Qc. rewrite Nat2Z.id.
  pose proof (validate_queue_true i c p (S (length (qs p))) Hc (qs p) [] eq_refl ltac:(lia)) as Hw.
  cbn [length last] in Hw. change (Z.of_nat 0) with 0 in Hw. rewrite Hw.
  cbn [mbind option_bind]. rewrite Z.eqb_refl, bool_decide_eq_true_2 by done. cbn [andb].
  destruct (qs p) as [|x l] eqn:E; [done|]. cbn [hd_or]. rewrite last_cons. by destruct (last l).
Qed.

Lemma disjoint_lists_true l l' : (forall t, t ∈ l -> t ∉ l') -> disjoint_lists l l' = true.
Proof.
  intros H. apply forallb_forall. intros t Ht%list_elem_of_In. rewrite bool_decide_eq_false_2; [done|by apply H].
Qed.

Lemma validate_sleeper_true i c t : cpus s !! i = Some c -> t ∈ sl -> validate_sleeper s c t = true.
Proof using HO.
  intros Hc Ht. destruct (lo_sleep _ _ _ _ HO t Ht) as (k & Hk & Hq & Hst & Hsl & Hr).
  pose proof (lo_prio _ _ _ _ HO t k Hk) as Hpv.
  assert (Hi : is_thread (idle_thread c) t = false).
  { apply bool_decide_eq_false_2. intros Hi.
    destruct (lo_idle _ _ _ _ HO i c t Hc Hi) as (k' & Hk' & _ & Hsl' & _). congruence. }
  core_get Hk. unfold validate_sleeper. rewrite E. unfold is_state. cbn in *.
  change (thread_priority_state_valid (core th)) with (thread_priority_state_valid th) in Hpv.
  by rewrite Hq, Hpv, Hsl, Hi, !bool_decide_eq_true_2.
Qed.

(** The validation accepts the lists of every state that satisfies the
    invariant. *)
Lemma validate_lists me c :
  cpus s !! me = Some c -> validate_self s c = Some true ->
  validate_cpus s 0 (take (cpu_count s) (cpus s)) = Some true -> scheduler_validate_locked me s = Some true.
Proof using HL HO.
  intros Hc Hself Hcpus. pose proof HL as [_ [Hh _] Hnd _]. unfold scheduler_validate_locked. rewrite Hc.
  cbn [mbind option_bind]. rewrite Hself. cbn [mbind option_bind negb].
  rewrite Hcpus. cbn [mbind option_bind negb].
  assert (Ha : acyclic (S (size (threads s))) s (sleeping_threads s) (sleeping_threads s) = Some true).
  { rewrite Hh. replace (hd_or sl None) with (sl !! 0%nat) by (by destruct sl).
    apply (acyclic_true (S (size (threads s))) 0); [|lia|by left].
    enough (length sl <= size (threads s))%nat by lia.
    apply length_threads; [by eapply sleepers_nodup|]. intros x Hx.
    apply (in_threads s qs sl x HL), sleeper_in_everyone, Hx. }
  rewrite Ha. cbn [mbind option_bind negb].
  rewrite !(validate_ready_true me c _ Hc). cbn [mbind option_bind negb].
  change (ready_high s) with (ready_queue s THREAD_PRIORITY_HIGH).
  change (ready_normal s) with (ready_queue s THREAD_PRIORITY_NORMAL).
  change (ready_background s) with (ready_queue s THREAD_PRIORITY_BACKGROUND).
  rewrite !(chain_queue s qs sl _ HL), (chain_sleepers s qs sl HL). cbn [mbind option_bind].
  assert (Hq : forall p p', p <> p' -> disjoint_lists (qs p) (qs p') = true).
  { intros p p' Hne. apply disjoint_lists_true. intros t Ht Ht'.
    by apply Hne, (queue_disjoint qs sl p p' t). }
  rewrite !Hq by done. cbn [andb negb].
  assert (Hs : forall p, disjoint_lists sl (qs p) = true).
  { intros p. apply disjoint_lists_true. intros t Ht Ht'. by apply (sleeper_not_queued qs sl p t). }
  rewrite !Hs, !andb_true_r. do 1 f_equal. apply forallb_forall. intros t Ht%list_elem_of_In.
  by apply (validate_sleeper_true me c).
Qed.

(** The validation accepts every state that satisfies the invariant. *)
Lemma validate_true me c :
  cpus s !! me = Some c -> scheduler_validate_locked me s = Some true.
Proof using HL HO HV.
  intros Hc. apply (validate_lists me c Hc); [by eapply validate_self_true|].
  apply validate_cpus_true. intros j d Hd. by apply lookup_take_Some in Hd as [Hd _].
Qed.

End Validation.

(** * The invariant *)

(** CPU [i] is saving the frame of [t]. *)
Definition saving (cs : list cpu_local) (i : nat) (t : Z) : Prop :=
  exists c r f, cs !! i = Some c /\ switching c = Saving t r f.

(** How a thread fits the lists: it is in a list exactly when its flags say so. *)
Record fits (qs : queues) (sl : list Z) (t : Z) (k : kernel_thread) : Prop := {
  f_ready : forall p, t ∈ qs p -> waits p k;
  f_sleep : t ∈ sl -> sleeps k;
  f_queued : queued k = true -> t ∈ qs (effective_priority k);
  f_sleeping : sleeping k = true -> t ∈ sl;
  f_prio : thread_priority_state_valid k = true;
}.

(** The saved stack pointer is that of a complete frame inside the thread's
    stack, except for a thread on a foreign stack that was never switched
    away. *)
Definition stack_ok (k : kernel_thread) : Prop :=
  (saved_stack_pointer k <> 0 /\ saved_stack_bounds k = true) \/
  (saved_stack_pointer k = 0 /\ stack_external k = true /\ saved_context_valid k = false).

Record thread_inv (qs : queues) (sl : list Z) (cs : list cpu_local) (t : Z) (k : kernel_thread)
    : Prop := {
  t_fits : fits qs sl t k;
  t_idle : forall i c, cs !! i = Some c -> idle_thread c = Some t -> idles i k;
  t_owner : forall i, running_cpu k = Some i -> exists c, cs !! i = Some c /\
    ((current_thread c = Some t /\ state k = THREAD_STATE_RUNNING) \/
     (saving cs i t /\ state k = THREAD_STATE_READY /\ queued k = false));
  t_running : state k = THREAD_STATE_RUNNING -> exists i, running_cpu k = Some i;
  t_stack : stack_ok k;
  t_saved : saved_context_valid k = true -> saved_stack_pointer k <> 0 /\ flags_safe (saved_flags k) = true;
  t_resumable : state k = THREAD_STATE_READY \/ state k = THREAD_STATE_BLOCKED ->
    (forall i, ~ saving cs i t) -> saved_context_valid k = true;
  t_live : forall i c, state k = THREAD_STATE_RUNNING -> running_cpu k = Some i ->
    cs !! i = Some c -> switching c = NoSwitch -> saved_context_valid k = false;
  t_pending : context_switch_pending k = true -> exists i, saving cs i t;
}.

(** A thread whose frame is being saved by CPU [i]. *)
Record leaving (i : nat) (k : kernel_thread) : Prop := {
  v_pending : context_switch_pending k = true;
  v_unsaved : saved_context_valid k = false;
  v_stopped : state k <> THREAD_STATE_RUNNING;
  v_waiting : state k = THREAD_STATE_READY -> running_cpu k = Some i \/ queued k = true;
}.

Record cpu_inv (K : gmap Z kernel_thread) (i : nat) (c : cpu_local) : Prop := {
  c_bsp : bsp c = bool_decide (i = 0%nat);
  c_online : online c = true <-> current_thread c <> None;
  c_has_idle : online c = true -> exists t, idle_thread c = Some t /\ is_Some (K !! t);
  c_idle : forall t, idle_thread c = Some t -> t <> bootstrap_thread /\ is_Some (K !! t);
  c_current : forall t, current_thread c = Some t -> exists k, K !! t = Some k /\
    state k = THREAD_STATE_RUNNING /\ running_cpu k = Some i;
  c_switching :
    match switching c with
    | NoSwitch => context_switching c = false
    | Saving o r f => context_switching c = true /\ flags_safe f = true /\
        (exists k, K !! o = Some k /\ leaving i k) /\
        (exists t k, current_thread c = Some t /\ K !! t = Some k /\ saved_stack_pointer k = r)
    | Completing _ => False
    end;
}.

Record inv (K : gmap Z kernel_thread) (qs : queues) (sl : list Z) (cs : list cpu_local) (n : nat)
    : Prop := {
  i_threads : forall t k, K !! t = Some k -> thread_inv qs sl cs t k;
  i_members : forall t, t ∈ everyone qs sl -> is_Some (K !! t);
  i_cpus : forall i c, cs !! i = Some c -> cpu_inv K i c;
  i_idle_inj : forall i j c d t, cs !! i = Some c -> cs !! j = Some d ->
    idle_thread c = Some t -> idle_thread d = Some t -> i = j;
  i_saving_inj : forall i j t, saving cs i t -> saving cs j t -> i = j;
  i_boot : is_Some (K !! bootstrap_thread);
  i_count : n = length cs;
}.

(** A good state of the scheduler. *)
Definition good (s : sched) : Prop :=
  exists qs sl, linked s qs sl /\ inv (cores s) qs sl (cpus s) (cpu_count s).

(** * Consequences of the invariant *)

Lemma lists_ok_intro K qs sl cs :
  (forall t k, K !! t = Some k -> fits qs sl t k) ->
  (forall t k i c, K !! t = Some k -> cs !! i = Some c -> idle_thread c = Some t -> idles i k) ->
  (forall t, t ∈ everyone qs sl -> is_Some (K !! t)) ->
  (forall i c t, cs !! i = Some c -> idle_thread c = Some t -> is_Some (K !! t)) ->
  lists_ok K qs sl cs.
Proof.
  intros Hf Hi Hm Hd. split.
  - intros p t Ht. destruct (Hm t) as [k Hk]; [by eapply in_everyone|]. exists k. split; [done|].
    by apply (f_ready _ _ _ _ (Hf t k Hk)).
  - intros t Ht. destruct (Hm t) as [k Hk]; [by apply sleeper_in_everyone|]. exists k. split; [done|].
    by apply (f_sleep _ _ _ _ (Hf t k Hk)).
  - intros t k Hk. apply (f_queued _ _ _ _ (Hf t k Hk)).
  - intros t k Hk. apply (f_sleeping _ _ _ _ (Hf t k Hk)).
  - intros t k Hk. apply (f_prio _ _ _ _ (Hf t k Hk)).
  - intros i c t Hc Ht. destruct (Hd i c t Hc Ht) as [k Hk]. exists k. split; [done|]. by eapply Hi.
Qed.

Lemma inv_lists K qs sl cs n : inv K qs sl cs n -> lists_ok K qs sl cs.
Proof.
  intros H. apply lists_ok_intro.
  - intros t k Hk. apply (t_fits _ _ _ _ _ (i_threads _ _ _ _ _ H t k Hk)).
  - intros t k i c Hk. apply (t_idle _ _ _ _ _ (i_threads _ _ _ _ _ H t k Hk)).
  - apply (i_members _ _ _ _ _ H).
  - intros i c t Hc Ht. by apply (c_idle _ _ _ (i_cpus _ _ _ _ _ H i c Hc)).
Qed.

Lemma inv_valid K qs sl cs n : inv K qs sl cs n -> cpus_valid K cs.
Proof.
  intros H i c Hc. pose proof (i_cpus _ _ _ _ _ H i c Hc) as HC. split.
  - intros t Ht. destruct (c_current _ _ _ HC t Ht) as (k & Hk & Hst & Hr). exists k.
    split; [done|]. split; [|split; [done|by right]].
    destruct (queued k) eqn:Eq; [|done].
    pose proof (t_fits _ _ _ _ _ (i_threads _ _ _ _ _ H t k Hk)) as HF.
    destruct (f_ready _ _ _ _ HF _ (f_queued _ _ _ _ HF Eq)) as (_ & Hs & _). congruence.
  - intros Ho. split; [destruct (c_has_idle _ _ _ HC Ho) as (t & Ht & _); congruence|].
    intros Hn. apply (c_online _ _ _ HC) in Ho. congruence.
Qed.

(** In a good state the code's own validation succeeds on every CPU. *)
Lemma good_validates me s c :
  good s -> cpus s !! me = Some c -> scheduler_validate_locked me s = Some true.
Proof.
  intros (qs & sl & HL & HI) Hc. eapply validate_true; [done| | |done].
  - by eapply inv_lists.
  - by eapply inv_valid.
Qed.

(** * Changing one thread *)

(** The lists differ at most in the thread [t]. *)
Definition same_members (qs qs' : queues) (sl sl' : list Z) (t : Z) : Prop :=
  (forall x p, x <> t -> x ∈ qs' p <-> x ∈ qs p) /\ (forall x, x <> t -> x ∈ sl' <-> x ∈ sl).

Lemma same_members_refl qs sl t : same_members qs qs sl sl t.
Proof. done. Qed.

Lemma same_members_append qs sl p t : same_members qs (upd qs p (qs p ++ [t])) sl sl t.
Proof.
  split; [|done]. intros x p' Hx. unfold upd. destruct (decide (p' = p)) as [->|]; [|done].
  rewrite elem_of_app, list_elem_of_singleton. tauto.
Qed.

Lemma same_members_remove qs sl p t l1 l2 :
  qs p = l1 ++ t :: l2 -> same_members qs (upd qs p (l1 ++ l2)) sl sl t.
Proof.
  intros Hp. split; [|done]. intros x p' Hx. unfold upd. destruct (decide (p' = p)) as [->|]; [|done].
  rewrite Hp, !elem_of_app, elem_of_cons. tauto.
Qed.

Lemma same_members_sleep qs sl t : same_members qs qs sl (t :: sl) t.
Proof. split; [done|]. intros x Hx. rewrite elem_of_cons. tauto. Qed.

Lemma same_members_awake qs l1 l2 t : same_members qs qs (l1 ++ t :: l2) (l1 ++ l2) t.
Proof. split; [done|]. intros x Hx. rewrite !elem_of_app, elem_of_cons. tauto. Qed.

Lemma same_members_trans qs qs' qs'' sl sl' sl'' t :
  same_members qs qs' sl sl' t -> same_members qs' qs'' sl' sl'' t -> same_members qs qs'' sl sl'' t.
Proof.
  intros [H1 H2] [H3 H4]. split; [intros x p Hx; by rewrite H3, H1|intros x Hx; by rewrite H4, H2].
Qed.

Lemma fits_other qs qs' sl sl' t x k :
  same_members qs qs' sl sl' t -> x <> t -> fits qs sl x k -> fits qs' sl' x k.
Proof.
  intros [Hq Hs] Hx [F1 F2 F3 F4 F5]. split; [| | | |done].
  - intros p Hp. apply F1. by apply Hq.
  - intros Hp. apply F2. by apply Hs.
  - intros H. by apply Hq, F3.
  - intros H. by apply Hs, F4.
Qed.

Lemma members_in qs qs' sl sl' t x :
  same_members qs qs' sl sl' t -> x <> t -> x ∈ everyone qs' sl' -> x ∈ everyone qs sl.
Proof.
  intros [Hq Hs] Hx [[p Hp]|Hp]%elem_everyone; apply elem_everyone; [left; exists p|right].
  - by apply Hq.
  - by apply Hs.
Qed.

(** The lists and CPUs after one thread has changed. *)
Lemma lists_ok_insert K qs sl cs t k qs' sl' :
  lists_ok K qs sl cs -> same_members qs qs' sl sl' t -> fits qs' sl' t k ->
  (forall i c, cs !! i = Some c -> idle_thread c = Some t -> idles i k) ->
  lists_ok (<[t := k]> K) qs' sl' cs.
Proof.
  intros HO HM HF HI. apply lists_ok_intro.
  - intros x kx. destruct (decide (t = x)) as [<-|Hne].
    { rewrite lookup_insert_eq. by intros [= <-]. }
    rewrite lookup_insert_ne by done. intros Hx. apply (fits_other qs qs' sl sl' t); [done|done|].
    split.
    + intros p Hp. destruct (lo_ready _ _ _ _ HO p x Hp) as (k' & Hk' & Hw). by simplify_eq.
    + intros Hp. destruct (lo_sleep _ _ _ _ HO x Hp) as (k' & Hk' & Hw). by simplify_eq.
    + by apply (lo_queued _ _ _ _ HO).
    + by apply (lo_sleeping _ _ _ _ HO).
    + by apply (lo_prio _ _ _ _ HO x).
  - intros x kx i c. destruct (decide (t = x)) as [<-|Hne].
    { rewrite lookup_insert_eq. intros [= <-]. apply HI. }
    rewrite lookup_insert_ne by done. intros Hx Hc Hi.
    destruct (lo_idle _ _ _ _ HO i c x Hc Hi) as (k' & Hk' & Hw). by simplify_eq.
  - intros x Hx. destruct (decide (t = x)) as [<-|Hne]; [by rewrite lookup_insert_eq|].
    rewrite lookup_insert_ne by done. apply (members_in qs qs' sl sl' t) in Hx; [|done|done].
    apply elem_everyone in Hx as [[p Hp]|Hp].
    + destruct (lo_ready _ _ _ _ HO p x Hp) as (k' & Hk' & _). by exists k'.
    + destruct (lo_sleep _ _ _ _ HO x Hp) as (k' & Hk' & _). by exists k'.
  - intros i c x Hc Hi. destruct (decide (t = x)) as [<-|Hne]; [by rewrite lookup_insert_eq|].
    rewrite lookup_insert_ne by done. destruct (lo_idle _ _ _ _ HO i c x Hc Hi) as (k' & Hk' & _).
    by exists k'.
Qed.

Lemma cpus_valid_insert K cs t k :
  cpus_valid K cs ->
  (forall i c, cs !! i = Some c -> current_thread c = Some t ->
     queued k = false /\ running_cpu k = Some i /\
     (context_switching c = true \/ state k = THREAD_STATE_RUNNING)) ->
  cpus_valid (<[t := k]> K) cs.
Proof.
  intros HV Hk i c Hc. destruct (HV i c Hc) as [H1 H2]. split; [|done].
  intros x Hx. destruct (decide (t = x)) as [<-|Hne].
  - exists k. rewrite lookup_insert_eq. split; [done|]. by apply (Hk i c).
  - rewrite lookup_insert_ne by done. by apply H1.
Qed.

(** Where a thread is in the lists. *)
Lemma not_listed K qs sl cs t k :
  lists_ok K qs sl cs -> K !! t = Some k -> queued k = false -> sleeping k = false ->
  t ∉ everyone qs sl.
Proof.
  intros HO Hk Hq Hs [[p Hp]|Hp]%elem_everyone.
  - destruct (lo_ready _ _ _ _ HO p t Hp) as (k' & Hk' & Hw & _). congruence.
  - destruct (lo_sleep _ _ _ _ HO t Hp) as (k' & Hk' & _ & _ & Hw & _). congruence.
Qed.

Lemma update_peak_spec me s c :
  cpus s !! me = Some c -> cpus_valid (cores s) (cpus s) ->
  exists st, scheduler_update_runnable_peak me s = Some (set_stats st s).
Proof.
  intros Hc HV. unfold scheduler_update_runnable_peak. rewrite Hc. cbn [mbind option_bind].
  set (r := u32 _). assert (exists b, match current_thread c with
    | None => Some false
    | Some t => th ← get s t; Some (negb (is_thread (idle_thread c) t) && is_state th THREAD_STATE_RUNNING)
    end = Some b) as [b ->].
  { destruct (current_thread c) as [t|] eqn:E; [|by exists false].
    destruct (cv_current _ _ _ (HV me c Hc) t E) as (k & Hk & _). core_get Hk. rewrite E0. by eexists. }
  cbn [mbind option_bind]. destruct (_ <? _); [by eexists|]. exists (stats s). by destruct s.
Qed.

(** A state whose threads, lists and CPUs are those of another. *)
Lemma linked_stats s qs sl st : linked s qs sl -> linked (set_stats st s) qs sl.
Proof. apply linked_ext; [done|by intros []|done]. Qed.

(** Enqueueing a ready thread succeeds. *)
Lemma enqueue_spec me s c qs sl t th :
  linked s qs sl -> lists_ok (cores s) qs sl (cpus s) -> cpus_valid (cores s) (cpus s) ->
  cpus s !! me = Some c -> get s t = Some th ->
  state th = THREAD_STATE_READY -> queued th = false -> running_cpu th = None -> sleeping th = false ->
  (forall i d, cpus s !! i = Some d -> idle_thread d <> Some t) ->
  let p := effective_priority th in
  let k := core (set_queued true (set_ready_wait_ticks 0 th)) in
  let qs' := upd qs p (qs p ++ [t]) in
  exists s', scheduler_enqueue_locked me s t = Some (true, s') /\
    linked s' qs' sl /\ cores s' = <[t := k]> (cores s) /\ same_env s s' /\
    lists_ok (<[t := k]> (cores s)) qs' sl (cpus s) /\ cpus_valid (<[t := k]> (cores s)) (cpus s) /\
    same_members qs qs' sl sl t.
Proof.
  intros HL HO HV Hc Ht Hst Hq Hr Hsl Hid p k qs'.
  pose proof (get_cores s t th Ht) as Hk.
  assert (Hnot : t ∉ everyone qs sl) by (by eapply not_listed).
  pose proof (same_members_append qs sl p t) as HM. fold qs' in HM.
  assert (HO' : lists_ok (<[t := k]> (cores s)) qs' sl (cpus s)).
  { apply (lists_ok_insert (cores s) qs sl); [done|done| |].
    - split.
      + intros p' Hp'. destruct (decide (p' = p)) as [->|Hne]; [done|]. unfold qs' in Hp'.
        rewrite upd_ne in Hp' by done. destruct Hnot. by eapply in_everyone.
      + intros Hp'. destruct Hnot. by apply sleeper_in_everyone.
      + intros _. unfold qs'. change (effective_priority k) with p. rewrite upd_eq.
        apply elem_of_app. right. by apply list_elem_of_singleton.
      + cbn. congruence.
      + exact (lo_prio _ _ _ _ HO t (core th) Hk).
    - intros i d Hd Hi. by destruct (Hid i d Hd). }
  assert (HV' : cpus_valid (<[t := k]> (cores s)) (cpus s)).
  { apply cpus_valid_insert; [done|]. intros i d Hd Hcur.
    destruct (cv_current _ _ _ (HV i d Hd) t Hcur) as (k' & Hk' & _ & Hrun & _).
    rewrite Hk in Hk'. simplify_eq. cbn in Hrun. congruence. }
  destruct (link_tail_spec s qs sl t th p HL Ht Hnot) as (L1 & K1 & E1 & S1).
  rewrite (enqueue_code me s t th p Ht Hst Hq Hr eq_refl).
  2: { intros a Ha. pose proof (l_queues _ _ _ HL p) as (_ & Qt & _). rewrite Qt in Ha.
       eapply in_queue_get; [done|]. by apply last_elem. }
  set (s1 := link_tail s p t th) in *. destruct E1 as (Ei & Etk & Ec & En).
  rewrite (validate_true s1 qs' sl L1) with (c := c);
    [|by rewrite K1, Ec|by rewrite K1, Ec|by rewrite Ec].
  cbn [mbind option_bind negb].
  destruct (update_peak_spec me s1 c) as [st Hp]; [by rewrite Ec|by rewrite K1, Ec|].
  rewrite Hp. cbn [mbind option_bind]. eexists. split; [reflexivity|].
  split; [by apply linked_stats|]. split; [done|]. split; [done|]. done.
Qed.

(** Taking a queued thread out of its queue. *)
Lemma dequeue_spec s qs sl t th :
  linked s qs sl -> lists_ok (cores s) qs sl (cpus s) -> cpus_valid (cores s) (cpus s) ->
  get s t = Some th -> queued th = true ->
  let p := effective_priority th in
  let k := core (set_queued false th) in
  exists s' l1 l2, scheduler_remove_queued_locked s t = Some s' /\ qs p = l1 ++ t :: l2 /\
    linked s' (upd qs p (l1 ++ l2)) sl /\ cores s' = <[t := k]> (cores s) /\ same_env s s' /\
    lists_ok (<[t := k]> (cores s)) (upd qs p (l1 ++ l2)) sl (cpus s) /\
    cpus_valid (<[t := k]> (cores s)) (cpus s) /\
    same_members qs (upd qs p (l1 ++ l2)) sl sl t /\
    (t ∉ everyone (upd qs p (l1 ++ l2)) sl) /\ waits p (core th) /\ stats s' = stats s.
Proof.
  intros HL HO HV Ht Hq p k. pose proof (get_cores s t th Ht) as Hk.
  pose proof (lo_queued _ _ _ _ HO t (core th) Hk Hq) as Hin. change (effective_priority (core th)) with p in Hin.
  destruct (lo_ready _ _ _ _ HO p t Hin) as (k' & Hk' & Hw). rewrite Hk in Hk'. injection Hk' as <-.
  apply list_elem_of_split in Hin as (l1 & l2 & Hp).
  destruct (remove_spec s qs sl p l1 t l2 th HL Hp Ht Hq eq_refl) as (s' & Er & L' & K' & E' & S').
  assert (Hperm : qs p ≡ₚ t :: (l1 ++ l2)) by (rewrite Hp; by rewrite Permutation_middle).
  destruct (nodup_upd qs sl p t (l1 ++ l2) Hperm (l_nodup _ _ _ HL)) as [_ Hnot].
  pose proof (same_members_remove qs sl p t l1 l2 Hp) as HM.
  exists s', l1, l2. repeat (split; [done|]). split; [|split; [|done]].
  - apply (lists_ok_insert (cores s) qs sl); [done|done| |].
    + split.
      * intros p' Hp'. destruct Hnot. by eapply in_everyone.
      * intros Hp'. destruct Hnot. by apply sleeper_in_everyone.
      * done.
      * destruct Hw as (_ & _ & _ & Hs & _). cbn in Hs |- *. congruence.
      * exact (lo_prio _ _ _ _ HO t (core th) Hk).
    + intros j d Hd Hi. destruct (lo_idle _ _ _ _ HO j d t Hd Hi) as (k' & Hk' & Hq' & _).
      rewrite Hk in Hk'. injection Hk' as <-. cbn in Hq'. congruence.
  - apply cpus_valid_insert; [done|]. intros j d Hd Hcur.
    destruct (cv_current _ _ _ (HV j d Hd) t Hcur) as (k' & Hk' & Hq' & _).
    rewrite Hk in Hk'. injection Hk' as <-. cbn in Hq'. congruence.
Qed.

(** * Selection *)

Definition can_run (s : sched) (c : cpu_local) (t : Z) : bool :=
  match get s t with
  | Some th => is_state th THREAD_STATE_READY && bool_decide (running_cpu th = None) &&
      scheduler_thread_eligible c t && thread_context_ready c t th
  | None => false
  end.

Lemma first_runnable_find s c l :
  (forall t, t ∈ l -> is_Some (get s t)) -> first_runnable s c l = Some (List.find (can_run s c) l).
Proof.
  induction l as [|t l IH]; intros H; cbn [first_runnable List.find]; [done|].
  destruct (H t (list_elem_of_here _ _)) as [th E]. rewrite E. cbn [mbind option_bind].
  rewrite IH by (intros u Hu; apply H; by apply list_elem_of_further).
  assert (Hr : can_run s c t = is_state th THREAD_STATE_READY && bool_decide (running_cpu th = None) &&
    scheduler_thread_eligible c t && thread_context_ready c t th) by (unfold can_run; by rewrite E).
  rewrite Hr. destruct (is_state th THREAD_STATE_READY), (bool_decide (running_cpu th = None)),
    (scheduler_thread_eligible c t), (thread_context_ready c t th); done.
Qed.

(** The fields of a thread that has been selected. *)
Definition selected (th : kernel_thread) : kernel_thread :=
  set_ready_wait_ticks 0 (set_wakeup_boosted false (set_effective_priority (base_priority th)
    (set_last_selection_was_wakeup_boost (wakeup_boosted th)
       (set_last_selected_priority (effective_priority th) (set_queued false th))))).

Lemma set_links_core th k :
  core th = k -> exists pr nx, th = set_next nx (set_previous pr k).
Proof. intros <-. exists (previous th), (next th). by destruct th. Qed.

(** Modifying fields other than the links acts on the thread without links. *)
Lemma modify_core s t f k :
  cores s !! t = Some k -> (forall th, previous (f th) = previous th /\ next (f th) = next th) ->
  (forall th, core (f th) = core (f (core th))) ->
  exists th, get s t = Some th /\ core th = k /\ modify s t f = Some (put s t (f th)) /\
    (forall qs sl, linked s qs sl -> linked (put s t (f th)) qs sl) /\
    cores (put s t (f th)) = <[t := core (f k)]> (cores s).
Proof.
  intros Hk Hf Hcf. apply cores_lookup in Hk as (th & E & ->). exists th. split; [done|].
  split; [done|]. split; [by apply modify_get|]. split.
  - intros qs sl HL. destruct (Hf th). by eapply linked_put.
  - by rewrite cores_put, Hcf.
Qed.

Lemma take_selected_spec s qs sl t th :
  linked s qs sl -> lists_ok (cores s) qs sl (cpus s) -> cpus_valid (cores s) (cpus s) ->
  get s t = Some th -> queued th = true ->
  let p := effective_priority th in
  exists s' l1 l2, take_selected s p t = Some s' /\ qs p = l1 ++ t :: l2 /\
    linked s' (upd qs p (l1 ++ l2)) sl /\ cores s' = <[t := core (selected th)]> (cores s) /\
    same_env s s' /\ same_members qs (upd qs p (l1 ++ l2)) sl sl t /\
    (t ∉ everyone (upd qs p (l1 ++ l2)) sl) /\ waits p (core th).
Proof.
  intros HL HO HV Ht Hq p. unfold take_selected.
  destruct (dequeue_spec s qs sl t th HL HO HV Ht Hq) as (s1 & l1 & l2 & E1 & Hp & L1 & K1 & N1 & _ & _ & M1 & Hnot & Hw & _).
  rewrite E1. cbn [mbind option_bind].
  assert (C1 : cores s1 !! t = Some (core (set_queued false th))) by (by rewrite K1, lookup_insert_eq).
  destruct (modify_core s1 t (fun th => set_last_selection_was_wakeup_boost (wakeup_boosted th)
          (set_last_selected_priority (effective_priority th) th)) _ C1) as (th1 & G1 & _ & -> & L2 & K2); [done|done|].
  cbn [mbind option_bind]. set (s2 := put s1 t _) in *.
  set (s3 := count_stat _ s2).
  assert (C3 : cores s3 !! t = Some (core (set_last_selection_was_wakeup_boost (wakeup_boosted th)
    (set_last_selected_priority (effective_priority th) (core (set_queued false th))))))
    by (change (cores s3) with (cores s2); by rewrite K2, lookup_insert_eq).
  destruct (modify_core s3 t (fun th => set_ready_wait_ticks 0 (set_wakeup_boosted false
      (set_effective_priority (base_priority th) th))) _ C3) as (th3 & G3 & _ & -> & L4 & K4); [done|done|].
  eexists _, l1, l2. split; [reflexivity|]. split; [done|].
  split; [apply L4, linked_stats, L2, L1|]. split; [|done].
  rewrite K4. change (cores s3) with (cores s2). rewrite K2, K1, !insert_insert_eq. done.
Qed.

Lemma find_app {A} (f : A -> bool) (l l' : list A) :
  List.find f (l ++ l') = match List.find f l with Some x => Some x | None => List.find f l' end.
Proof. induction l as [|x l IH]; cbn; [done|]. by destruct (f x). Qed.

Lemma find_elem {A} (f : A -> bool) (l : list A) x : List.find f l = Some x -> x ∈ l /\ f x = true.
Proof. intros [H1 H2]%find_some. split; [by apply list_elem_of_In|done]. Qed.

Lemma select_from_spec s qs sl c ps :
  linked s qs sl -> lists_ok (cores s) qs sl (cpus s) ->
  match List.find (can_run s c) (concat (map qs ps)) with
  | Some t => exists th, get s t = Some th /\ queued th = true /\ can_run s c t = true /\
      select_from s c ps = s' ← take_selected s (effective_priority th) t; Some (Some t, s')
  | None => select_from s c ps = Some (None, s)
  end.
Proof.
  intros HL HO. induction ps as [|p ps IH]; cbn [map concat select_from]; [done|].
  rewrite (chain_queue s qs sl p HL). cbn [mbind option_bind].
  rewrite first_runnable_find by (intros t Ht; by eapply in_queue_get). cbn [mbind option_bind].
  rewrite find_app. destruct (List.find (can_run s c) (qs p)) as [t|] eqn:E; [|exact IH].
  apply find_elem in E as [Hin Hr]. destruct (lo_ready _ _ _ _ HO p t Hin) as (k & Hk & Hq & _ & He & _).
  core_get Hk. cbn in Hq, He. exists th. rewrite He. done.
Qed.

(** The thread a CPU should run next: the first that it can run, by priority
    and then in order of arrival. *)
Definition pick (s : sched) (c : cpu_local) (qs : queues) : option Z :=
  List.find (can_run s c)
    (qs THREAD_PRIORITY_HIGH ++ qs THREAD_PRIORITY_NORMAL ++ qs THREAD_PRIORITY_BACKGROUND).

Definition idle_ready (me : nat) (s : sched) (c : cpu_local) (t : Z) (th : kernel_thread) : bool :=
  is_state th THREAD_STATE_READY && negb (queued th) && thread_context_ready c t th &&
  (bool_decide (running_cpu th = None) || bool_decide (running_cpu th = Some me)).

Definition count_idle (s : sched) : sched :=
  count_stat (fun st => set_dispatches_background (u64 (dispatches_background st + 1)) st) s.

Lemma select_next_spec me s c qs sl :
  linked s qs sl -> lists_ok (cores s) qs sl (cpus s) -> cpus_valid (cores s) (cpus s) ->
  cpus s !! me = Some c ->
  match pick s c qs with
  | Some t => exists th s' l1 l2, get s t = Some th /\ can_run s c t = true /\
      scheduler_select_next_locked me s = Some (Some t, s') /\
      qs (effective_priority th) = l1 ++ t :: l2 /\
      linked s' (upd qs (effective_priority th) (l1 ++ l2)) sl /\
      cores s' = <[t := core (selected th)]> (cores s) /\ same_env s s' /\
      same_members qs (upd qs (effective_priority th) (l1 ++ l2)) sl sl t /\
      (t ∉ everyone (upd qs (effective_priority th) (l1 ++ l2)) sl) /\
      waits (effective_priority th) (core th)
  | None => scheduler_select_next_locked me s =
      match idle_thread c with
      | None => Some (None, s)
      | Some t => th ← get s t;
          if idle_ready me s c t th then Some (Some t, count_idle s) else Some (None, s)
      end
  end.
Proof.
  intros HL HO HV Hc. unfold scheduler_select_next_locked.
  rewrite (validate_true s qs sl HL HO HV me c Hc). cbn [mbind option_bind negb]. rewrite Hc.
  cbn [mbind option_bind].
  pose proof (select_from_spec s qs sl c
    [THREAD_PRIORITY_HIGH; THREAD_PRIORITY_NORMAL; THREAD_PRIORITY_BACKGROUND] HL HO) as H.
  cbn [map concat] in H. rewrite app_nil_r in H. fold (pick s c qs) in H.
  destruct (pick s c qs) as [t|].
  - destruct H as (th & Ht & Hq & Hr & ->).
    destruct (take_selected_spec s qs sl t th HL HO HV Ht Hq) as (s' & l1 & l2 & -> & Hp & HL' & HK' & HE & HM & Hn & Hw).
    cbn [mbind option_bind]. exists th, s', l1, l2. done.
  - rewrite H. cbn [mbind option_bind]. done.
Qed.

End SchedulerProofs.
