(* ===== verification/SchedulerSteps.v ===== *)
(** Every operation of the scheduler preserves its invariant and returns:
    dispatching and the switch of contexts, waking, aging and time, creation and
    termination of threads, and the start of further CPUs. *)
From stdpp Require Import gmap.
From S2P Require Import Prelude SchedState Scheduler SchedLinks SchedulerProofs.
Import SchedState Scheduler SchedLinks SchedulerProofs.

Module SchedulerSteps.

(** Two lookups of the same thread. *)
Ltac same_thread :=
  match goal with
  | H : ?K !! ?t = Some ?a, H' : ?K !! ?t = Some ?b |- _ =>
      assert_fails (constr_eq a b); rewrite H in H'; injection H' as <-
  end.

(** * Changing one thread *)

Lemma members_insert (K : gmap Z kernel_thread) qs sl t k qs' sl' :
  (forall x, x ∈ everyone qs sl -> is_Some (K !! x)) -> same_members qs qs' sl sl' t ->
  forall x, x ∈ everyone qs' sl' -> is_Some (<[t := k]> K !! x).
Proof.
  intros Hm HM x Hx. destruct (decide (t = x)) as [<-|Hne]; [by rewrite lookup_insert_eq|].
  rewrite lookup_insert_ne by done. apply Hm. by eapply members_in.
Qed.

Lemma is_Some_insert (K : gmap Z kernel_thread) t k x : is_Some (K !! x) -> is_Some (<[t := k]> K !! x).
Proof.
  intros H. destruct (decide (t = x)) as [<-|Hne]; [by rewrite lookup_insert_eq|by rewrite lookup_insert_ne].
Qed.

Lemma thread_inv_members qs qs' sl sl' cs t x k :
  same_members qs qs' sl sl' t -> x <> t -> thread_inv qs sl cs x k -> thread_inv qs' sl' cs x k.
Proof. intros HM Hx [H1 H2 H3 H4 H5 H6 H7 H8 H9]. split; try done. by eapply fits_other. Qed.

(** The threads other than [t] keep their invariant, and so do the CPUs if [t]
    remains what they take it for. *)
Lemma inv_insert K qs sl cs n t k qs' sl' :
  inv K qs sl cs n -> same_members qs qs' sl sl' t -> thread_inv qs' sl' cs t k ->
  (forall i c, cs !! i = Some c -> current_thread c = Some t ->
     state k = THREAD_STATE_RUNNING /\ running_cpu k = Some i /\
     (forall k0, K !! t = Some k0 -> saved_stack_pointer k = saved_stack_pointer k0)) ->
  (forall i, saving cs i t -> leaving i k) ->
  inv (<[t := k]> K) qs' sl' cs n.
Proof.
  intros [I1 I2 I3 I4 I5 I6 I7] HM Ht Hcur Hsav. split; try done.
  - intros x kx. destruct (decide (t = x)) as [<-|Hne].
    { rewrite lookup_insert_eq. by intros [= <-]. }
    rewrite lookup_insert_ne by done. intros Hx. eapply thread_inv_members; [done|done|by apply I1].
  - by eapply members_insert.
  - intros i c Hc. destruct (I3 i c Hc) as [C1 C2 C3 C4 C5 C6]. split; [done|done| | | |].
    + intros Ho. destruct (C3 Ho) as (x & Hx & Hs). exists x. split; [done|]. by apply is_Some_insert.
    + intros x Hx. destruct (C4 x Hx) as [? ?]. split; [done|]. by apply is_Some_insert.
    + intros x Hx. destruct (decide (t = x)) as [<-|Hne].
      * exists k. rewrite lookup_insert_eq. split; [done|]. destruct (Hcur i c Hc Hx) as (? & ? & _). done.
      * rewrite lookup_insert_ne by done. by apply C5.
    + destruct (switching c) as [|o r f|o] eqn:Es; [done| |done].
      destruct C6 as (S1 & S2 & (ko & Ho & Hl) & (u & ku & Hu & Hk & Hr)).
      split; [done|]. split; [done|]. split.
      * destruct (decide (t = o)) as [<-|Hne].
        -- exists k. rewrite lookup_insert_eq. split; [done|]. apply Hsav. by exists c, r, f.
        -- exists ko. by rewrite lookup_insert_ne.
      * exists u. destruct (decide (t = u)) as [<-|Hne].
        -- exists k. rewrite lookup_insert_eq. split; [done|]. split; [done|].
           destruct (Hcur i c Hc Hu) as (_ & _ & Hsp). by rewrite (Hsp ku Hk).
        -- exists ku. by rewrite lookup_insert_ne.
  - by apply is_Some_insert.
Qed.

(** The fields that only the switch of contexts changes. *)
Definition frame (k : kernel_thread) :=
  (kernel_stack_base k, kernel_stack_size k, stack_external k,
   (saved_stack_pointer k, saved_flags k, saved_context_valid k)).

Lemma frame_stack k k' : frame k' = frame k -> stack_ok k -> stack_ok k'.
Proof.
  unfold frame, stack_ok, saved_stack_bounds. intros [= -> -> -> -> _ ->]. done.
Qed.

(** A thread whose role does not change. *)
Lemma thread_inv_same qs sl cs t k k' :
  thread_inv qs sl cs t k -> frame k' = frame k -> state k' = state k ->
  running_cpu k' = running_cpu k -> queued k' = queued k -> sleeping k' = sleeping k ->
  effective_priority k' = effective_priority k -> base_priority k' = base_priority k ->
  wakeup_boosted k' = wakeup_boosted k -> context_switch_pending k' = context_switch_pending k ->
  thread_inv qs sl cs t k'.
Proof.
  intros [[F1 F2 F3 F4 F5] H2 H3 H4 H5 H6 H7 H8 H9] Hf Hs Hr Hq Hl He Hb Hw Hp.
  pose proof (frame_stack k k' Hf H5). unfold frame in Hf. injection Hf as _ _ _ Esp Efl Eva. split.
  - split; unfold waits, sleeps, thread_priority_state_valid in *; rewrite ?Hs, ?Hr, ?Hq, ?Hl, ?He, ?Hb, ?Hw; done.
  - unfold idles in *. rewrite Hs, Hr, Hq, Hl, He, Hb. done.
  - rewrite Hr, Hs, Hq. done.
  - rewrite Hs, Hr. done.
  - done.
  - rewrite Eva, Esp, Efl. done.
  - rewrite Hs, Eva. done.
  - rewrite Hs, Hr, Eva. done.
  - rewrite Hp. done.
Qed.

Lemma leaving_same i k k' :
  leaving i k -> frame k' = frame k -> state k' = state k -> running_cpu k' = running_cpu k ->
  queued k' = queued k -> context_switch_pending k' = context_switch_pending k -> leaving i k'.
Proof.
  intros [L1 L2 L3 L4] Hf Hs Hr Hq Hp. unfold frame in Hf. injection Hf as _ _ _ _ _ Eva.
  split; rewrite ?Hs, ?Hr, ?Hq, ?Hp, ?Eva; done.
Qed.

(** The saving CPU and the leaving thread. *)
Lemma saving_leaving K qs sl cs n i t :
  inv K qs sl cs n -> saving cs i t -> exists k, K !! t = Some k /\ leaving i k.
Proof.
  intros HI (c & r & f & Hc & Hs). pose proof (c_switching _ _ _ (i_cpus _ _ _ _ _ HI i c Hc)) as H.
  rewrite Hs in H. by destruct H as (_ & _ & Hk & _).
Qed.

Lemma inv_same K qs sl cs n t k k' :
  inv K qs sl cs n -> K !! t = Some k -> frame k' = frame k -> state k' = state k ->
  running_cpu k' = running_cpu k -> queued k' = queued k -> sleeping k' = sleeping k ->
  effective_priority k' = effective_priority k -> base_priority k' = base_priority k ->
  wakeup_boosted k' = wakeup_boosted k -> context_switch_pending k' = context_switch_pending k ->
  inv (<[t := k']> K) qs sl cs n.
Proof.
  intros HI Hk Hf Hs Hr Hq Hl He Hb Hw Hp. pose proof (i_threads _ _ _ _ _ HI t k Hk) as HT.
  eapply inv_insert; [done|apply same_members_refl| | |].
  - by eapply thread_inv_same.
  - intros i c Hc Ht. destruct (c_current _ _ _ (i_cpus _ _ _ _ _ HI i c Hc) t Ht) as (k1 & Hk1 & S1 & R1).
    same_thread. rewrite Hs, Hr. split; [done|]. split; [done|]. intros k0 Hk0. same_thread.
    unfold frame in Hf. congruence.
  - intros i Hsav. destruct (saving_leaving _ _ _ _ _ i t HI Hsav) as (k1 & Hk1 & HL). same_thread.
    by eapply leaving_same.
Qed.

(** * Changing a CPU *)

(** Fields of a CPU that the invariant does not mention. *)
Definition role (c : cpu_local) :=
  (bsp c, online c, current_thread c, (idle_thread c, context_switching c, switching c)).

Lemma inv_cpu K qs sl cs n i f :
  (forall c, role (f c) = role c) -> inv K qs sl cs n -> inv K qs sl (alter f i cs) n.
Proof.
  intros Hf [I1 I2 I3 I4 I5 I6 I7].
  assert (Hback : forall j d, alter f i cs !! j = Some d ->
            exists c, cs !! j = Some c /\ role d = role c).
  { intros j d Hd. destruct (decide (i = j)) as [<-|Hne].
    - rewrite list_lookup_alter_eq in Hd. destruct (cs !! i) as [c|]; [|done]. injection Hd as <-.
      exists c. by rewrite Hf.
    - rewrite list_lookup_alter_ne in Hd by done. by exists d. }
  assert (Hforth : forall j c, cs !! j = Some c -> exists d, alter f i cs !! j = Some d /\ role d = role c).
  { intros j c Hc. destruct (decide (i = j)) as [<-|Hne].
    - exists (f c). rewrite list_lookup_alter_eq, Hc. by rewrite Hf.
    - exists c. by rewrite list_lookup_alter_ne. }
  assert (Hsav : forall j t, saving (alter f i cs) j t <-> saving cs j t).
  { intros j t. split; intros (d & r & g & Hd & Hs).
    - destruct (Hback j d Hd) as (c & Hc & [=]). exists c, r, g. split; [done|congruence].
    - destruct (Hforth j d Hd) as (c & Hc & [=]). exists c, r, g. split; [done|congruence]. }
  split; try done.
  - intros t k Hk. destruct (I1 t k Hk) as [H1 H2 H3 H4 H5 H6 H7 H8 H9]. split; try done.
    + intros j d Hd Hi. destruct (Hback j d Hd) as (c & Hc & [=]). apply (H2 j c); [done|congruence].
    + intros j Hj. destruct (H3 j Hj) as (c & Hc & Hor). destruct (Hforth j c Hc) as (d & Hd & [=]).
      exists d. split; [done|]. rewrite Hsav. destruct Hor as [[? ?]|?]; [left; split; congruence|by right].
    + intros Hst Hns. apply H7; [done|]. intros j Hj. apply (Hns j). by apply Hsav.
    + intros j d Hst Hr Hd Hsw. destruct (Hback j d Hd) as (c & Hc & [=]). apply (H8 j c); try done. congruence.
    + intros Hp. destruct (H9 Hp) as [j Hj]. exists j. by apply Hsav.
  - intros j d Hd. destruct (Hback j d Hd) as (c & Hc & [= R1 R2 R3 R4 R5 R6]).
    destruct (I3 j c Hc) as [C1 C2 C3 C4 C5 C6]. split; rewrite ?R1, ?R2, ?R3, ?R4, ?R5, ?R6; done.
  - intros j j' d d' t Hd Hd' Ht Ht'. destruct (Hback j d Hd) as (c & Hc & [=]), (Hback j' d' Hd') as (c' & Hc' & [=]).
    apply (I4 j j' c c' t); congruence.
  - intros j j' t. rewrite !Hsav. apply I5.
  - by rewrite length_alter.
Qed.

(** * The switch *)

(** The lists differ at most in two threads. *)
Definition same_but (qs qs' : queues) (sl sl' : list Z) (o t : Z) : Prop :=
  (forall x p, x <> o -> x <> t -> x ∈ qs' p <-> x ∈ qs p) /\
  (forall x, x <> o -> x <> t -> x ∈ sl' <-> x ∈ sl).

Lemma fits_but qs qs' sl sl' o t x k :
  same_but qs qs' sl sl' o t -> x <> o -> x <> t -> fits qs sl x k -> fits qs' sl' x k.
Proof.
  intros [Hq Hs] Ho Ht [F1 F2 F3 F4 F5]. split; [| | | |done].
  - intros p Hp. apply F1. by apply Hq.
  - intros Hp. apply F2. by apply Hs.
  - intros H. by apply Hq, F3.
  - intros H. by apply Hs, F4.
Qed.

(** A thread that is running has a CPU, and only one. *)
Lemma current_unique K qs sl cs n i j c d t :
  inv K qs sl cs n -> cs !! i = Some c -> cs !! j = Some d ->
  current_thread c = Some t -> current_thread d = Some t -> i = j.
Proof.
  intros HI Hc Hd Ht Ht'. destruct (c_current _ _ _ (i_cpus _ _ _ _ _ HI i c Hc) t Ht) as (k & Hk & _ & R).
  destruct (c_current _ _ _ (i_cpus _ _ _ _ _ HI j d Hd) t Ht') as (k' & Hk' & _ & R'). same_thread. congruence.
Qed.

Section Switched.
Context (K : gmap Z kernel_thread) (qs qs' : queues) (sl sl' : list Z) (cs : list cpu_local)
  (n me : nat) (c c' : cpu_local) (o t f : Z) (ko kt ko' kt' : kernel_thread).
Hypothesis HI : inv K qs sl cs n.
Hypothesis Hc : cs !! me = Some c.
Hypothesis Hcur : current_thread c = Some o.
Hypothesis Hns : switching c = NoSwitch.
Hypothesis Hko : K !! o = Some ko.
Hypothesis Hkt : K !! t = Some kt.
Hypothesis Hready : state kt = THREAD_STATE_READY.
Hypothesis Hfree : running_cpu kt = None.
Hypothesis Hvalid : saved_context_valid kt = true.
Hypothesis Hflags : flags_safe f = true.
Hypothesis HM : same_but qs qs' sl sl' o t.
Hypothesis Hfo : fits qs' sl' o ko'.
Hypothesis Hnot : t ∉ everyone qs' sl'.
Hypothesis Hro : frame ko' = frame ko.
Hypothesis Hrt : frame kt' = frame kt.
Hypothesis Hpo : context_switch_pending ko' = true.
Hypothesis Hqo : queued ko' = false.
Hypothesis Hso : (state ko' = THREAD_STATE_READY /\ running_cpu ko' = Some me) \/
  (state ko' <> THREAD_STATE_READY /\ state ko' <> THREAD_STATE_RUNNING /\ running_cpu ko' = None).
Hypothesis Hio : forall j d, cs !! j = Some d -> idle_thread d = Some o -> idles j ko'.
Hypothesis Hst : state kt' = THREAD_STATE_RUNNING.
Hypothesis Hrn : running_cpu kt' = Some me.
Hypothesis Hqt : queued kt' = false /\ sleeping kt' = false.
Hypothesis Hpt : thread_priority_state_valid kt' = true.
Hypothesis Hct : context_switch_pending kt' = context_switch_pending kt.
Hypothesis Hit : forall j d, cs !! j = Some d -> idle_thread d = Some t -> idles j kt'.
Hypothesis Hc' : role c' = (bsp c, online c, Some t, (idle_thread c, true, Saving o (saved_stack_pointer kt) f)).

Let K' := <[o := ko']> (<[t := kt']> K).
Let cs' := <[me := c']> cs.

Lemma sw_running : state ko = THREAD_STATE_RUNNING /\ running_cpu ko = Some me /\ saved_context_valid ko = false.
Proof using HI Hc Hcur Hns Hko.
  destruct (c_current _ _ _ (i_cpus _ _ _ _ _ HI me c Hc) o Hcur) as (k & Hk & S1 & R1). same_thread.
  split; [done|]. split; [done|].
  by apply (t_live _ _ _ _ _ (i_threads _ _ _ _ _ HI o ko Hko) me c).
Qed.

Lemma sw_ne : t <> o.
Proof using HI Hc Hcur Hns Hko Hkt Hfree.
  intros Heq. destruct sw_running as (_ & R & _). congruence.
Qed.

Lemma sw_me : cs' !! me = Some c'.
Proof using Hc. apply list_lookup_insert_eq. by eapply lookup_lt_Some. Qed.

Lemma sw_saving i x : x <> o -> saving cs' i x <-> saving cs i x.
Proof using Hc Hns Hc'.
  intros Hx. unfold saving, cs'. destruct (decide (me = i)) as [<-|Hne].
  - split; intros (d & r & g & Hd & Hs).
    + rewrite list_lookup_insert_eq in Hd by (by eapply lookup_lt_Some). injection Hd as <-.
      unfold role in Hc'. congruence.
    + congruence.
  - by rewrite list_lookup_insert_ne.
Qed.

Lemma sw_saving_o i : saving cs' i o <-> i = me.
Proof using HI Hc Hcur Hns Hko Hc'.
  split.
  - intros (d & r & g & Hd & Hs). destruct (decide (me = i)) as [|Hne]; [done|]. exfalso.
    unfold cs' in Hd. rewrite list_lookup_insert_ne in Hd by done.
    destruct (saving_leaving K qs sl cs n i o HI) as (k & Hk & [_ _ Hrun _]); [by exists d, r, g|].
    same_thread. by destruct sw_running.
  - intros ->. exists c', (saved_stack_pointer kt), f. split; [apply sw_me|]. unfold role in Hc'. congruence.
Qed.

Lemma sw_idle i d x : cs' !! i = Some d -> idle_thread d = Some x ->
  exists e, cs !! i = Some e /\ idle_thread e = Some x.
Proof using Hc Hc'.
  unfold cs'. destruct (decide (me = i)) as [<-|Hne].
  - rewrite list_lookup_insert_eq by (by eapply lookup_lt_Some). intros [= <-] Hx. exists c.
    split; [done|]. unfold role in Hc'. congruence.
  - rewrite list_lookup_insert_ne by done. by exists d.
Qed.

Lemma sw_stack_t : stack_ok kt'.
Proof using HI Hkt Hrt.
  eapply frame_stack; [done|]. apply (t_stack _ _ _ _ _ (i_threads _ _ _ _ _ HI t kt Hkt)).
Qed.

Lemma sw_thread_o : thread_inv qs' sl' cs' o ko'.
Proof using All.
  pose proof (i_threads _ _ _ _ _ HI o ko Hko) as [H1 H2 H3 H4 H5 H6 H7 H8 H9].
  destruct sw_running as (S1 & R1 & V1). unfold frame in Hro. injection Hro as E1 E2 E3 E4 E5 E6. split.
  - done.
  - intros i d Hd Hi. destruct (sw_idle i d o Hd Hi) as (e & He & Hie). by eapply Hio.
  - intros i Hi. destruct Hso as [[Hs Hr]|(_ & _ & Hr)]; [|congruence].
    assert (i = me) as -> by congruence. exists c'. split; [apply sw_me|]. right.
    split; [by apply sw_saving_o|done].
  - intros Hs. destruct Hso as [[? _]|(_ & ? & _)]; congruence.
  - eapply frame_stack; [|exact H5]. unfold frame. congruence.
  - rewrite E6, V1. done.
  - intros _ Hn. destruct (Hn me). by apply sw_saving_o.
  - intros i d Hs. destruct Hso as [[? _]|(_ & ? & _)]; congruence.
  - intros _. exists me. by apply sw_saving_o.
Qed.

Lemma sw_thread_t : thread_inv qs' sl' cs' t kt'.
Proof using All.
  pose proof (i_threads _ _ _ _ _ HI t kt Hkt) as [H1 H2 H3 H4 H5 H6 H7 H8 H9]. pose proof sw_ne as Hne.
  pose proof sw_stack_t as HS. unfold frame in Hrt. injection Hrt as E1 E2 E3 E4 E5 E6. split.
  - split.
    + intros p Hp. destruct Hnot. by eapply in_everyone.
    + intros Hp. destruct Hnot. by apply sleeper_in_everyone.
    + intros. destruct Hqt. congruence.
    + intros. destruct Hqt. congruence.
    + done.
  - intros i d Hd Hi. destruct (sw_idle i d t Hd Hi) as (e & He & Hie). by eapply Hit.
  - intros i Hi. assert (i = me) as -> by congruence. exists c'. split; [apply sw_me|]. left.
    split; [|done]. unfold role in Hc'. congruence.
  - intros _. by exists me.
  - done.
  - rewrite E4, E5, E6. done.
  - intros [?|?]; congruence.
  - intros i d _ Hi Hd Hsw. assert (i = me) as -> by congruence. rewrite sw_me in Hd. injection Hd as <-.
    unfold role in Hc'. congruence.
  - intros Hp. rewrite Hct in Hp. destruct (H9 Hp) as [i Hs]. exists i. by apply sw_saving.
Qed.

Lemma sw_thread x k : x <> o -> x <> t -> K !! x = Some k -> thread_inv qs' sl' cs' x k.
Proof using All.
  intros Ho Ht Hk. pose proof (i_threads _ _ _ _ _ HI x k Hk) as [H1 H2 H3 H4 H5 H6 H7 H8 H9].
  assert (Hnme : running_cpu k <> Some me).
  { intros Hr. destruct (H3 me Hr) as (d & Hd & [[Hx _]|((e & r & g & He & Hs) & _)]); congruence. }
  split; try done.
  - by eapply fits_but.
  - intros i d Hd Hi. destruct (sw_idle i d x Hd Hi) as (e & He & Hie). by eapply H2.
  - intros i Hi. destruct (H3 i Hi) as (d & Hd & Hor). exists d. unfold cs' at 1.
    rewrite list_lookup_insert_ne by congruence. split; [done|]. by rewrite sw_saving.
  - intros Hs Hn. apply H7; [done|]. intros i Hi. apply (Hn i). by apply sw_saving.
  - intros i d Hs Hi Hd Hsw. apply (H8 i d); try done. unfold cs' in Hd.
    by rewrite list_lookup_insert_ne in Hd by congruence.
  - intros Hp. destruct (H9 Hp) as [i Hi]. exists i. by apply sw_saving.
Qed.

Lemma sw_lookup_o : K' !! o = Some ko'.
Proof. apply lookup_insert_eq. Qed.

Lemma sw_lookup_t : K' !! t = Some kt'.
Proof using HI Hc Hcur Hns Hko Hkt Hfree.
  pose proof sw_ne. unfold K'. by rewrite lookup_insert_ne, lookup_insert_eq.
Qed.

Lemma sw_lookup x : x <> o -> x <> t -> K' !! x = K !! x.
Proof. intros H1 H2. unfold K'. by rewrite !lookup_insert_ne. Qed.

Lemma sw_dom x : is_Some (K !! x) -> is_Some (K' !! x).
Proof. intros H. by apply is_Some_insert, is_Some_insert. Qed.

Lemma sw_cpu_me : cpu_inv K' me c'.
Proof using All.
  destruct (i_cpus _ _ _ _ _ HI me c Hc) as [C1 C2 C3 C4 C5 C6]. destruct sw_running as (S1 & R1 & V1).
  unfold role in Hc'. injection Hc' as B1 B2 B3 B4 B5 B6. unfold frame in Hro, Hrt.
  injection Hro as _ _ _ _ _ Ev. injection Hrt as _ _ _ Esp _ _. split.
  - congruence.
  - rewrite B2, B3. split; [done|]. intros _. apply C2. congruence.
  - rewrite B2, B4. intros Ho. destruct (C3 Ho) as (x & Hx & Hs). exists x. split; [done|by apply sw_dom].
  - rewrite B4. intros x Hx. destruct (C4 x Hx). split; [done|by apply sw_dom].
  - rewrite B3. intros x [= <-]. exists kt'. split; [apply sw_lookup_t|done].
  - rewrite B6. split; [done|]. split; [done|]. split.
    + exists ko'. split; [apply sw_lookup_o|]. split; [done|congruence| |].
      * destruct Hso as [[? _]|(_ & ? & _)]; congruence.
      * intros Hs. left. destruct Hso as [[_ ?]|(? & _)]; [done|congruence].
    + exists t, kt'. split; [done|]. split; [apply sw_lookup_t|done].
Qed.

Lemma sw_cpu i d : i <> me -> cs !! i = Some d -> cpu_inv K' i d.
Proof using All.
  intros Hi Hd. destruct (i_cpus _ _ _ _ _ HI i d Hd) as [C1 C2 C3 C4 C5 C6].
  destruct sw_running as (S1 & R1 & V1).
  assert (Hcur' : forall x k, K !! x = Some k -> running_cpu k = Some i -> x <> o /\ x <> t)
    by (intros x k Hx Hr; split; intros Heq; congruence).
  split; [done|done| | | |].
  - intros Ho. destruct (C3 Ho) as (x & Hx & Hs). exists x. split; [done|by apply sw_dom].
  - intros x Hx. destruct (C4 x Hx). split; [done|by apply sw_dom].
  - intros x Hx. destruct (C5 x Hx) as (k & Hk & Hs & Hr). destruct (Hcur' x k Hk Hr) as [Ho Ht].
    exists k. by rewrite sw_lookup.
  - destruct (switching d) as [|o2 r g|] eqn:Es; [done| |done].
    destruct C6 as (F1 & F2 & (k & Hk & HL) & (x & kx & Hx & Hkx & Hsp)). split; [done|]. split; [done|]. split.
    + exists k. split; [|done]. destruct HL as [L1 L2 L3 L4].
      rewrite sw_lookup; [done| |]; intros Heq; congruence.
    + exists x, kx. split; [done|]. split; [|done]. destruct (C5 x Hx) as (k' & Hk' & _ & Hr).
      destruct (Hcur' x k' Hk' Hr) as [Ho Ht]. by rewrite sw_lookup.
Qed.

Lemma switched_inv : inv K' qs' sl' cs' n.
Proof using All.
  pose proof HI as [I1 I2 I3 I4 I5 I6 I7]. split.
  - intros x k Hk. destruct (decide (x = o)) as [->|Ho].
    { rewrite sw_lookup_o in Hk. injection Hk as <-. apply sw_thread_o. }
    destruct (decide (x = t)) as [->|Ht].
    { rewrite sw_lookup_t in Hk. injection Hk as <-. apply sw_thread_t. }
    rewrite sw_lookup in Hk by done. by apply sw_thread.
  - intros x Hx. destruct (decide (x = o)) as [->|Ho]; [rewrite sw_lookup_o; by eexists|].
    destruct (decide (x = t)) as [->|Ht]; [rewrite sw_lookup_t; by eexists|].
    apply sw_dom, I2. destruct HM as [M1 M2]. apply elem_everyone in Hx as [[p Hp]|Hp]; apply elem_everyone.
    + left. exists p. by apply M1.
    + right. by apply M2.
  - intros i d Hd. destruct (decide (i = me)) as [->|Hne].
    + rewrite sw_me in Hd. injection Hd as <-. apply sw_cpu_me.
    + unfold cs' in Hd. rewrite list_lookup_insert_ne in Hd by done. by apply sw_cpu.
  - intros i j d e x Hd He Hx Hx'. destruct (sw_idle i d x Hd Hx) as (d1 & Hd1 & Hi1).
    destruct (sw_idle j e x He Hx') as (e1 & He1 & Hi2). by apply (I4 i j d1 e1 x).
  - intros i j x Hx Hx'. destruct (decide (x = o)) as [->|Ho].
    + apply sw_saving_o in Hx, Hx'. congruence.
    + rewrite sw_saving in Hx, Hx' by done. by apply (I5 i j x).
  - by apply sw_dom.
  - unfold cs'. by rewrite length_insert.
Qed.

End Switched.

(** * Dispatching *)

(** A thread that is ready, free and not being saved has a complete frame. *)
Lemma resumable K qs sl cs n t k :
  inv K qs sl cs n -> K !! t = Some k -> state k = THREAD_STATE_READY -> running_cpu k = None ->
  queued k = false -> saved_context_valid k = true.
Proof.
  intros HI Hk Hs Hr Hq. apply (t_resumable _ _ _ _ _ (i_threads _ _ _ _ _ HI t k Hk)); [by left|].
  intros i Hi. destruct (saving_leaving _ _ _ _ _ i t HI Hi) as (k' & Hk' & [_ _ _ HW]). same_thread.
  destruct (HW Hs); congruence.
Qed.

Lemma context_ready_true qs sl cs c t k :
  thread_inv qs sl cs t k -> saved_context_valid k = true -> thread_context_ready c t k = true.
Proof.
  intros HT Hv. destruct (t_saved _ _ _ _ _ HT Hv) as [Hsp _]. unfold thread_context_ready, thread_saved_stack_valid.
  rewrite Hv. destruct (Z.eqb_spec (saved_stack_pointer k) 0); [done|].
  destruct (t_stack _ _ _ _ _ HT) as [[_ ->]|(? & _)]; done.
Qed.

(** A running thread can be switched away from. *)
Lemma current_stack_valid qs sl cs c t k :
  thread_inv qs sl cs t k -> current_thread c = Some t -> thread_saved_stack_valid c t k = true.
Proof.
  intros HT Hc. unfold thread_saved_stack_valid, is_thread. rewrite Hc, bool_decide_eq_true_2 by done.
  destruct (Z.eqb_spec (saved_stack_pointer k) 0) as [E|E].
  - destruct (t_stack _ _ _ _ _ HT) as [[? _]|(_ & -> & _)]; done.
  - destruct (t_stack _ _ _ _ _ HT) as [[_ ->]|(? & _)]; done.
Qed.

Lemma alter_insert_cpu (cs : list cpu_local) i c f : cs !! i = Some c -> alter f i cs = <[i := f c]> cs.
Proof.
  intros Hc. apply list_eq. intros j. destruct (decide (i = j)) as [<-|Hne].
  - rewrite list_lookup_alter_eq, Hc, list_lookup_insert_eq; [done|by eapply lookup_lt_Some].
  - by rewrite list_lookup_alter_ne, list_lookup_insert_ne.
Qed.

(** The fields of the outgoing thread once it has given up the CPU. *)
Definition released (a : scheduler_dispatch_action_t) (k : kernel_thread) : kernel_thread :=
  if bool_decide (a = SCHEDULER_DISPATCH_REQUEUE) then set_state THREAD_STATE_READY k
  else set_running_cpu None k.

Lemma ready_frame c t k k' :
  frame k' = frame k -> thread_context_ready c t k' = thread_context_ready c t k.
Proof.
  unfold frame, thread_context_ready, thread_saved_stack_valid, saved_stack_bounds. by intros [= -> -> -> -> _ ->].
Qed.

Lemma lists_ok_cpus K qs sl cs cs' :
  (forall i d, cs' !! i = Some d -> exists c, cs !! i = Some c /\ idle_thread c = idle_thread d) ->
  lists_ok K qs sl cs -> lists_ok K qs sl cs'.
Proof.
  intros Hi [L1 L2 L3 L4 L5 L6]. split; try done. intros i d t Hd Ht.
  destruct (Hi i d Hd) as (c & Hc & He). apply (L6 i c t Hc). congruence.
Qed.

(** What the two halves of a switch do. *)
Lemma scheduler_handoff_spec s me d o t ko th f :
  cpus s !! me = Some d -> get s t = Some th -> thread_context_ready d t th = true ->
  flags_safe (saved_flags th) = true -> cores s !! o = Some ko ->
  exists s', scheduler_handoff me s o t f = Some s' /\
    (forall qs sl, linked s qs sl -> linked s' qs sl) /\
    cores s' = <[o := core (set_context_switch_pending true ko)]> (cores s) /\
    cpus s' = <[me := set_switching (Saving o (saved_stack_pointer th) f) d]> (cpus s) /\
    cpu_count s' = cpu_count s.
Proof.
  intros Hd Ht Hr Hf Ho. unfold scheduler_handoff. rewrite Hd, Ht. cbn [mbind option_bind].
  unfold scheduler_validate_saved_context. rewrite Hr, Hf. cbn [negb mbind option_bind].
  destruct (modify_core s o (set_context_switch_pending true) _ Ho) as (tho & _ & _ & -> & L5 & K5); [done|done|].
  cbn [mbind option_bind]. eexists. split; [reflexivity|]. split; [|split; [done|split; [|done]]].
  - intros qs sl HL. eapply linked_ext, (L5 qs sl HL); [done|by intros []|done].
  - cbn [cpus modify_cpu set_cpus count_stat set_stats]. change (cpus (put s o _)) with (cpus s).
    by apply alter_insert_cpu.
Qed.

Definition run_on (me : nat) (th : kernel_thread) : kernel_thread :=
  set_running_cpu (Some me) (set_state THREAD_STATE_RUNNING th).

Lemma enter_spec s2 me a o t d kt2 :
  t <> o -> cpus s2 !! me = Some d -> cores s2 !! t = Some kt2 -> thread_context_ready d t kt2 = true ->
  exists s4, enter_target me s2 a o (Some t) = Some (Handoff o t, s4) /\
    (forall qs sl, linked s2 qs sl -> linked s4 qs sl) /\
    cores s4 = <[t := core (run_on me kt2)]> (cores s2) /\
    cpus s4 = <[me := set_current_thread (Some t) d]> (cpus s2) /\ cpu_count s4 = cpu_count s2 /\
    exists th, get s4 t = Some th /\ frame th = frame kt2.
Proof.
  intros Hne Hd Ht Hr. unfold enter_target. destruct (Z.eqb_spec t o) as [|_]; [done|].
  rewrite Hd. cbn [mbind option_bind].
  destruct (modify_core s2 t (run_on me) kt2 Ht) as (th & Gt & Cth & Em & L3 & K3); [done|done|].
  unfold run_on in Em. rewrite Em, Gt. cbn [mbind option_bind].
  rewrite (ready_frame d t kt2 th), Hr by (by rewrite <- Cth). cbn [negb].
  eexists. split; [reflexivity|]. split; [|split; [exact K3|split; [|split; [done|]]]].
  - intros qs sl HL. eapply linked_ext, (L3 qs sl HL); [done|by intros []|done].
  - cbn [cpus modify_cpu set_cpus]. change (cpus (put s2 t _)) with (cpus s2). by apply alter_insert_cpu.
  - eexists. split; [apply get_put|]. by rewrite <- Cth.
Qed.

Lemma restore_cpu c o : current_thread c = Some o -> context_switching c = false ->
  set_context_switching false (set_current_thread (Some o) (set_context_switching true c)) = c.
Proof. destruct c. cbn. by intros -> ->. Qed.

(** What replaces the idle thread. *)
Lemma substitute_idle_cases c s a o i w :
  idle_thread c = Some i -> i <> bootstrap_thread -> bootstrap_waiting s = Some w -> i <> o ->
  exists r s2, substitute_idle c s a o (Some i) = Some (r, s2) /\
    ((r = Some bootstrap_thread /\ s2 = undo_idle_dispatch s /\ w = true /\ o <> bootstrap_thread) \/
     (r = Some o /\ s2 = undo_idle_dispatch s /\ a = SCHEDULER_DISPATCH_REQUEUE) \/
     (r = Some i /\ s2 = s /\ a <> SCHEDULER_DISPATCH_REQUEUE)).
Proof.
  intros Hi Hib Hw Hio. unfold substitute_idle, is_thread. rewrite Hi, Hw.
  assert (Ht : bool_decide (Some i = Some i) = true) by (by apply bool_decide_eq_true_2).
  assert (Hf : bool_decide (Some bootstrap_thread = Some i) = false) by (apply bool_decide_eq_false_2; congruence).
  assert (Hg : bool_decide (Some i = Some o) = false) by (apply bool_decide_eq_false_2; congruence).
  rewrite Ht, Hg. cbn [andb negb mbind option_bind].
  destruct (bsp c && negb (o =? bootstrap_thread)) eqn:EB; [destruct w|]; cbn [mbind option_bind];
    rewrite ?Ht, ?Hf; cbn [andb negb mbind option_bind]; rewrite ?Ht, ?Hf; cbn [andb negb mbind option_bind].
  - eexists _, _. split; [reflexivity|]. left. apply andb_true_iff in EB as [_ HB].
    apply negb_true_iff, Z.eqb_neq in HB. done.
  - destruct (bool_decide (a = SCHEDULER_DISPATCH_TERMINATE) && bsp c && negb (o =? bootstrap_thread));
      rewrite ?Hw; cbn [andb mbind option_bind]; rewrite ?Ht; cbn [andb];
      destruct (bool_decide_reflect (a = SCHEDULER_DISPATCH_REQUEUE)); eexists _, _; (split; [reflexivity|]);
      right; first [by left|by right].
  - rewrite <- andb_assoc, EB, andb_false_r. cbn [mbind option_bind]. rewrite ?Ht; cbn [andb].
    destruct (bool_decide_reflect (a = SCHEDULER_DISPATCH_REQUEUE)); eexists _, _; (split; [reflexivity|]);
      right; first [by left|by right].
Qed.

(** The threads other than [o] and [t] have not changed. *)
Definition others (K K' : gmap Z kernel_thread) (o t : Z) : Prop :=
  forall x, x <> o -> x <> t -> K' !! x = K !! x.

Section Dispatch.
Context (s : sched) (a : scheduler_dispatch_action_t) (K : gmap Z kernel_thread) (qs : queues)
  (sl sl1 : list Z) (cs : list cpu_local) (n me : nat) (c : cpu_local) (o f : Z)
  (ko ka : kernel_thread).
Hypothesis HI : inv K qs sl cs n.
Hypothesis Hc : cs !! me = Some c.
Hypothesis Hcur : current_thread c = Some o.
Hypothesis Hns : switching c = NoSwitch.
Hypothesis Hko : K !! o = Some ko.
Hypothesis HL : linked s qs sl1.
Hypothesis HK : cores s = <[o := ka]> K.
Hypothesis HC : cpus s = cs.
Hypothesis HN : cpu_count s = n.
Hypothesis Hfr : frame ka = frame ko.
Hypothesis Hstate : state ka = action_state a.
Hypothesis Hrun : running_cpu ka = Some me.
Hypothesis Hqd : queued ka = false.
Hypothesis HM : same_members qs qs sl sl1 o.
Hypothesis Hfit : fits qs sl1 o (released a ka).
Hypothesis Hidle : forall j d, cs !! j = Some d -> idle_thread d = Some o ->
  a = SCHEDULER_DISPATCH_REQUEUE /\ idles j (released a ka).
Hypothesis Hreq : a = SCHEDULER_DISPATCH_REQUEUE -> ka = ko /\ sl1 = sl.
Hypothesis Hflags : flags_safe f = true.

Definition c1 : cpu_local :=
  let c := set_context_switching true c in
  if bool_decide (a = SCHEDULER_DISPATCH_REQUEUE) then c else set_current_thread None c.

Lemma release_spec : exists s1, release_cpu me s a o = Some s1 /\ linked s1 qs sl1 /\
  cores s1 = <[o := core (released a ka)]> K /\ cpus s1 = <[me := c1]> cs /\ cpu_count s1 = n.
Proof using HL HK HC HN Hc.
  unfold release_cpu. set (s' := modify_cpu s me (set_context_switching true)).
  assert (HL' : linked s' qs sl1) by (eapply linked_ext, HL; [done|by intros []|done]).
  assert (Hk : cores s' !! o = Some ka) by (change (cores s') with (cores s); by rewrite HK, lookup_insert_eq).
  assert (Hcs : cpus s' = <[me := set_context_switching true c]> cs)
    by (unfold s'; cbn [cpus modify_cpu set_cpus]; rewrite HC; by apply alter_insert_cpu).
  unfold released, c1. destruct (bool_decide (a = SCHEDULER_DISPATCH_REQUEUE)).
  - destruct (modify_core s' o (set_state THREAD_STATE_READY) ka Hk) as (th & _ & _ & -> & L2 & K2); [done|done|].
    eexists. split; [reflexivity|]. split; [by apply L2|]. split; [|by split].
    rewrite K2. change (cores s') with (cores s). by rewrite HK, insert_insert_eq.
  - destruct (modify_core s' o (set_running_cpu None) ka Hk) as (th & _ & _ & -> & L2 & K2); [done|done|].
    cbn [mbind option_bind]. eexists. split; [reflexivity|].
    split; [eapply linked_ext, L2, HL'; [done|by intros []|done]|]. split.
    + change (cores (modify_cpu ?x me _)) with (cores x). rewrite K2. change (cores s') with (cores s).
      by rewrite HK, insert_insert_eq.
    + split; [|done]. cbn [cpus modify_cpu set_cpus put set_threads]. change (cpus (put s' o _)) with (cpus s').
      rewrite Hcs. rewrite (alter_insert_cpu _ me (set_context_switching true c)).
      * by rewrite list_insert_insert_eq.
      * apply list_lookup_insert_eq. by eapply lookup_lt_Some.
Qed.

Lemma c1_idle : idle_thread c1 = idle_thread c.
Proof. unfold c1. by destruct (bool_decide _). Qed.

Lemma c1_lookup i d : <[me := c1]> cs !! i = Some d ->
  (i = me /\ d = c1) \/ (i <> me /\ cs !! i = Some d).
Proof using Hc.
  destruct (decide (me = i)) as [<-|Hne].
  - rewrite list_lookup_insert_eq by (by eapply lookup_lt_Some). intros [= <-]. by left.
  - rewrite list_lookup_insert_ne by done. intros H. right. by split.
Qed.

Lemma running_o : state ko = THREAD_STATE_RUNNING /\ running_cpu ko = Some me /\ saved_context_valid ko = false.
Proof using HI Hc Hcur Hns Hko. by eapply sw_running. Qed.

Lemma dispatch_lists : lists_ok (<[o := core (released a ka)]> K) qs sl1 (<[me := c1]> cs).
Proof using HI Hc HM Hfit Hidle.
  apply (lists_ok_cpus _ _ _ cs).
  - intros i d [[-> ->]|[_ H]]%c1_lookup; [exists c; by rewrite c1_idle|by exists d].
  - eapply lists_ok_insert; [by eapply inv_lists|exact HM| |].
    + destruct Hfit as [F1 F2 F3 F4 F5]. split; done.
    + intros i d Hd Hi. by destruct (Hidle i d Hd Hi).
Qed.

Lemma dispatch_valid : cpus_valid (<[o := core (released a ka)]> K) (<[me := c1]> cs).
Proof using HI Hc Hcur Hns Hko Hrun Hqd.
  pose proof (inv_valid _ _ _ _ _ HI) as HV. destruct running_o as (S1 & R1 & _).
  intros i d [[-> ->]|[Hne Hd]]%c1_lookup.
  - split.
    + unfold c1, released. destruct (bool_decide _); [|done]. intros t Ht. cbn in Ht.
      assert (t = o) as -> by congruence. eexists. rewrite lookup_insert_eq. split; [reflexivity|].
      split; [done|]. split; [done|by left].
    + intros Ho. rewrite c1_idle. assert (Ho' : online c = true)
        by (revert Ho; unfold c1; by destruct (bool_decide _)).
      destruct (cv_online _ _ _ (HV me c Hc) Ho') as [H1 _]. split; [done|].
      intros _. unfold c1. by destruct (bool_decide _).
  - destruct (HV i d Hd) as [V1 V2]. split; [|done]. intros t Ht.
    destruct (V1 t Ht) as (k & Hk & Hq & Hr & Hor). exists k. rewrite lookup_insert_ne; [done|].
    intros <-. same_thread. congruence.
Qed.

Lemma cores_get_core s2 t k : cores s2 !! t = Some k -> exists th, get s2 t = Some th /\ core th = k.
Proof. intros H. apply cores_lookup in H as (th & E & ->). by exists th. Qed.

(** What remains of the outgoing thread. *)
Lemma released_facts k : k = core (set_context_switch_pending true (core (released a ka))) ->
  frame k = frame ko /\ queued k = false /\
  ((state k = THREAD_STATE_READY /\ running_cpu k = Some me) \/
   (state k <> THREAD_STATE_READY /\ state k <> THREAD_STATE_RUNNING /\ running_cpu k = None)).
Proof using All.
  intros ->. unfold released. destruct (bool_decide_reflect (a = SCHEDULER_DISPATCH_REQUEUE)) as [E|E].
  - split; [exact Hfr|]. split; [exact Hqd|]. left. by split.
  - split; [exact Hfr|]. split; [exact Hqd|]. right. cbn. rewrite Hstate. by destruct a.
Qed.

Lemma same_but_intro qs2 t : same_members qs qs2 sl1 sl1 t -> same_but qs qs2 sl sl1 o t.
Proof using HM.
  intros [M1 M2]. destruct HM as [M3 M4]. split.
  - intros x p Ho Ht. by apply M1.
  - intros x Ho Ht. by apply M4.
Qed.

(** The switch to a thread that is ready and has left the lists. *)
Lemma handoff_good s2 t kt kt2 qs2 :
  K !! t = Some kt -> t <> o -> state kt = THREAD_STATE_READY -> running_cpu kt = None ->
  saved_context_valid kt = true ->
  linked s2 qs2 sl1 -> cores s2 = <[t := kt2]> (<[o := core (released a ka)]> K) ->
  cpus s2 = <[me := c1]> cs -> cpu_count s2 = n ->
  same_members qs qs2 sl1 sl1 t -> t ∉ everyone qs2 sl1 ->
  frame kt2 = frame kt -> queued kt2 = false -> sleeping kt2 = false ->
  thread_priority_state_valid kt2 = true -> context_switch_pending kt2 = context_switch_pending kt ->
  (forall j d, cs !! j = Some d -> idle_thread d = Some t -> j = me /\
     base_priority kt2 = THREAD_PRIORITY_BACKGROUND /\
     effective_priority kt2 = THREAD_PRIORITY_BACKGROUND) ->
  exists s4 s', enter_target me s2 a o (Some t) = Some (Handoff o t, s4) /\
    finish_dispatch me s4 (Handoff o t) f = Some (true, s') /\
    good s' /\ (exists d, cpus s' !! me = Some d /\ current_thread d = Some t) /\
    others K (cores s') o t /\ cores s' !! o = Some (core (set_context_switch_pending true (core (released a ka)))).
Proof using All.
  intros Hkt Hne Hs Hr Hv HL2 HK2 HC2 HN2 HM2 Hnot Hf2 Hq2 Hsl2 Hp2 Hpend2 Hi2.
  pose proof (i_threads _ _ _ _ _ HI t kt Hkt) as HT. pose proof HT as [_ _ _ _ _ HTsaved _ _ _].
  assert (Hlen : (me < length cs)%nat) by (by eapply lookup_lt_Some).
  destruct (enter_spec s2 me a o t c1 kt2) as (s4 & -> & L4 & K4 & C4 & N4 & th & Gt & Fth).
  { done. } { rewrite HC2. by apply list_lookup_insert_eq. } { by rewrite HK2, lookup_insert_eq. }
  { rewrite (ready_frame c1 t kt kt2 Hf2). by eapply context_ready_true. }
  exists s4. cbn [finish_dispatch]. rewrite HC2, list_insert_insert_eq in C4. rewrite Hf2 in Fth.
  destruct (scheduler_handoff_spec s4 me (set_current_thread (Some t) c1) o t (core (released a ka)) th f)
    as (s5 & -> & L5 & K5 & C5 & N5).
  { rewrite C4. by apply list_lookup_insert_eq. } { done. }
  { rewrite (ready_frame _ t kt th Fth). by eapply context_ready_true. }
  { unfold frame in Fth. replace (saved_flags th) with (saved_flags kt) by congruence. by apply HTsaved. }
  { rewrite K4, HK2, !lookup_insert_ne, lookup_insert_eq by done. done. }
  cbn [mbind option_bind]. eexists. split; [reflexivity|]. split; [reflexivity|].
  rewrite C4, list_insert_insert_eq in C5.
  assert (HK5 : cores s5 = <[o := core (set_context_switch_pending true (core (released a ka)))]>
                  (<[t := core (run_on me kt2)]> K)).
  { rewrite K5, K4, HK2. apply map_eq. intros x. destruct (decide (o = x)) as [<-|Ho]; [by rewrite !lookup_insert_eq|].
    rewrite (lookup_insert_ne _ o) by done. rewrite (lookup_insert_ne _ o) by done.
    destruct (decide (t = x)) as [<-|Ht]; [by rewrite !lookup_insert_eq|]. by rewrite !lookup_insert_ne. }
  split; [|split; [rewrite C5; eexists; split; [by apply list_lookup_insert_eq|done]
                  |split; [intros x Hxo Hxt; by rewrite HK5, !lookup_insert_ne|by rewrite HK5, lookup_insert_eq]]].
  exists qs2, sl1. split; [by apply L5, L4|]. rewrite C5, N5, N4, HN2.
  rewrite HK5. unfold frame in Fth. assert (Esp : saved_stack_pointer th = saved_stack_pointer kt) by congruence.
  eapply (switched_inv K qs qs2 sl sl1 cs n me c _ o t f ko kt); try done.
  - by apply same_but_intro.
  - destruct Hfit as [F1 F2 F3 F4 F5]. destruct HM2 as [M1 _]. destruct (released_facts _ eq_refl) as (_ & Hq' & _).
    split; [|exact F2|congruence|exact F4|exact F5].
    intros p Hp. apply M1 in Hp; [exact (F1 p Hp)|done].
  - by destruct (released_facts _ eq_refl).
  - by destruct (released_facts _ eq_refl) as (_ & ? & _).
  - by destruct (released_facts _ eq_refl) as (_ & _ & ?).
  - intros j d Hd Hi. by destruct (Hidle j d Hd Hi).
  - intros j d Hd Hi. destruct (Hi2 j d Hd Hi) as (-> & Hb & He). split; [done|]. split; [done|].
    split; [done|]. split; [done|]. by right.
  - unfold role, c1. rewrite Esp. by destruct (bool_decide _).
Qed.


(** What a dispatch may end in. *)
Definition dispatched (r : prepared) (s1 : sched) : Prop :=
  match r with
  | Handoff _ t => exists s', finish_dispatch me s1 r f = Some (true, s') /\ good s' /\
      (exists d, cpus s' !! me = Some d /\ current_thread d = Some t) /\ others K (cores s') o t /\
      cores s' !! o = Some (core (set_context_switch_pending true (core (released a ka))))
  | _ => a = SCHEDULER_DISPATCH_REQUEUE /\ good s1 /\ others K (cores s1) o o
  end.

Lemma dispatch_start : exists s1, linked s1 qs sl1 /\
  cores s1 = <[o := core (released a ka)]> K /\ cpus s1 = <[me := c1]> cs /\ cpu_count s1 = n /\
  scheduler_prepare_dispatch_locked me s a =
    ('(target, s) ← scheduler_select_next_locked me s1;
     '(target, s) ← substitute_idle c s a o target;
     enter_target me s a o target).
Proof using All.
  destruct release_spec as (s1 & E1 & L1 & K1 & C1 & N1). exists s1. repeat (split; [done|]).
  unfold scheduler_prepare_dispatch_locked. rewrite HC, Hc. cbn [mbind option_bind]. rewrite Hcur.
  destruct (cores_get_core s o ka) as (th & G & Cth); [by rewrite HK, lookup_insert_eq|].
  rewrite G. cbn [mbind option_bind]. unfold is_state.
  assert (Hs : state th = action_state a) by (rewrite <- Hstate, <- Cth; done).
  assert (Hq : queued th = false) by (rewrite <- Hqd, <- Cth; done).
  assert (Hv : thread_saved_stack_valid c o th = true).
  { assert (Hft : frame th = frame ko) by (rewrite <- Hfr, <- Cth; done).
    pose proof (current_stack_valid _ _ _ c o ko (i_threads _ _ _ _ _ HI o ko Hko) Hcur) as H.
    revert H. unfold thread_saved_stack_valid, saved_stack_bounds. unfold frame in Hft. by injection Hft as -> -> -> -> _ _. }
  rewrite bool_decide_eq_true_2, Hq, Hv by done. cbn [negb orb]. rewrite E1. done.
Qed.

Lemma substitute_not_idle s2 t : idle_thread c <> Some t ->
  substitute_idle c s2 a o (Some t) = Some (Some t, s2).
Proof.
  intros H. unfold substitute_idle. assert (Hf : bool_decide (Some t = idle_thread c) = false)
    by (apply bool_decide_eq_false_2; congruence).
  repeat (rewrite Hf; cbn [andb mbind option_bind]). done.
Qed.

(** A thread from the queues is chosen. *)
Lemma dispatch_picked s1 t :
  linked s1 qs sl1 -> cores s1 = <[o := core (released a ka)]> K -> cpus s1 = <[me := c1]> cs ->
  cpu_count s1 = n -> pick s1 c1 qs = Some t ->
  exists r s', ('(target, s) ← scheduler_select_next_locked me s1;
     '(target, s) ← substitute_idle c s a o target; enter_target me s a o target) = Some (r, s') /\
    r = Handoff o t /\ dispatched r s'.
Proof using All.
  intros L1 K1 C1 N1 Hp. assert (Hlen : (me < length cs)%nat) by (by eapply lookup_lt_Some).
  pose proof dispatch_lists as DL. pose proof dispatch_valid as DV. rewrite <- K1, <- C1 in DL, DV.
  pose proof (select_next_spec me s1 c1 qs sl1 L1 DL DV) as HS. rewrite Hp in HS.
  destruct HS as (th & s2 & l1 & l2 & Gt & Hcan & -> & Hq & L2 & K2 & (_ & _ & C2 & N2) & M2 & Hnot & Hw);
    [rewrite C1; by apply list_lookup_insert_eq|]. cbn [mbind option_bind].
  assert (Hin : t ∈ qs (effective_priority th)) by (rewrite Hq; apply elem_of_app; right; apply list_elem_of_here).
  assert (Hne : t <> o).
  { intros ->. destruct (f_ready _ _ _ _ Hfit _ Hin) as (Hqt & _). revert Hqt. unfold released.
    destruct (bool_decide _); cbn; congruence. }
  assert (Hkt : K !! t = Some (core th)).
  { pose proof (get_cores s1 t th Gt) as H. by rewrite K1, lookup_insert_ne in H. }
  assert (Hni : idle_thread c <> Some t).
  { intros Hi. destruct (t_idle _ _ _ _ _ (i_threads _ _ _ _ _ HI t _ Hkt) me c Hc Hi) as (Hqi & _).
    destruct Hw as (Hqw & _). congruence. }
  rewrite substitute_not_idle by done. cbn [mbind option_bind].
  unfold can_run in Hcan. rewrite Gt in Hcan. apply andb_true_iff in Hcan as [_ Hready].
  apply andb_true_iff in Hready as [Hv _]. destruct Hw as (Hqw & Hs & _ & Hsl & Hr).
  destruct (handoff_good s2 t (core th) (core (selected th)) (upd qs (effective_priority th) (l1 ++ l2)))
    as (s4 & s' & E4 & E' & G' & D'); try done; try congruence.
  - unfold thread_priority_state_valid. cbn. by rewrite Z.leb_refl.
  - intros j d Hd Hi. destruct (t_idle _ _ _ _ _ (i_threads _ _ _ _ _ HI t _ Hkt) j d Hd Hi) as (Hqi & _).
    congruence.
  - rewrite E4. eexists _, _. split; [reflexivity|]. split; [done|]. by exists s'.
Qed.

(** The idle thread of a CPU that runs another thread is ready. *)
Lemma idle_available i : idle_thread c = Some i -> i <> o ->
  exists ki, K !! i = Some ki /\ idles me ki /\ state ki = THREAD_STATE_READY /\
    running_cpu ki = None /\ saved_context_valid ki = true.
Proof using All.
  intros Hi Hne. destruct (c_idle _ _ _ (i_cpus _ _ _ _ _ HI me c Hc) i Hi) as [_ [ki Hki]].
  pose proof (i_threads _ _ _ _ _ HI i ki Hki) as HT. pose proof (t_idle _ _ _ _ _ HT me c Hc Hi) as HD.
  assert (Hr : running_cpu ki <> Some me).
  { intros Hr. destruct (t_owner _ _ _ _ _ HT me Hr) as (d & Hd & [[Hx _]|((e & r & g & He & Hs) & _)]); congruence. }
  destruct HD as (D1 & D2 & D3 & D4 & [[D5 [D6|D6]]|[_ D6]]); [|done|done].
  exists ki. split; [done|]. split; [|split; [done|split; [done|by eapply resumable]]].
  unfold idles. split; [done|]. split; [done|]. split; [done|]. split; [done|]. left. split; [done|by left].
Qed.

(** A thread outside the lists is the target. *)
Lemma handoff_unlisted s2 t kt :
  K !! t = Some kt -> t <> o -> state kt = THREAD_STATE_READY -> running_cpu kt = None ->
  queued kt = false -> (idle_thread c = Some t \/ forall j d, cs !! j = Some d -> idle_thread d <> Some t) ->
  linked s2 qs sl1 -> cores s2 = <[o := core (released a ka)]> K -> cpus s2 = <[me := c1]> cs ->
  cpu_count s2 = n ->
  exists r s', enter_target me s2 a o (Some t) = Some (r, s') /\ r = Handoff o t /\ dispatched r s'.
Proof using All.
  intros Hkt Hne Hs Hr Hq Hid L2 K2 C2 N2.
  pose proof (i_threads _ _ _ _ _ HI t kt Hkt) as HT. pose proof (t_fits _ _ _ _ _ HT) as HF.
  assert (Hsl : sleeping kt = false).
  { destruct (sleeping kt) eqn:E; [|done]. apply (f_sleeping _ _ _ _ HF) in E.
    destruct (f_sleep _ _ _ _ HF E) as (_ & ? & _). congruence. }
  assert (Hnot : t ∉ everyone qs sl1).
  { intros [[p Hp]|Hp]%elem_everyone.
    - destruct (f_ready _ _ _ _ HF p Hp) as (? & _). congruence.
    - destruct HM as [_ M2]. apply M2 in Hp; [|done]. destruct (f_sleep _ _ _ _ HF Hp) as (_ & _ & ? & _). congruence. }
  destruct (handoff_good s2 t kt kt qs) as (s4 & s' & E4 & E' & G' & D'); try done.
  - by eapply resumable.
  - rewrite K2. apply map_eq. intros x. destruct (decide (t = x)) as [<-|Hx].
    + by rewrite lookup_insert_eq, lookup_insert_ne.
    + by rewrite (lookup_insert_ne _ t).
  - by apply (f_prio _ _ _ _ HF).
  - intros j d Hd Hi. destruct Hid as [Hid|Hid]; [|by destruct (Hid j d Hd)].
    split; [by apply (i_idle_inj _ _ _ _ _ HI j me d c t)|].
    by destruct (t_idle _ _ _ _ _ HT j d Hd Hi) as (_ & _ & ? & ? & _).
  - rewrite E4. eexists _, _. split; [reflexivity|]. split; [done|]. by exists s'.
Qed.

(** The outgoing thread keeps the CPU. *)
Lemma kept_good s1 s' k :
  a = SCHEDULER_DISPATCH_REQUEUE -> linked s1 qs sl1 -> cores s1 = <[o := core (released a ka)]> K ->
  cpus s1 = <[me := c1]> cs -> cpu_count s1 = n ->
  (forall qs sl, linked s1 qs sl -> linked s' qs sl) -> cores s' = <[o := k]> (cores s1) ->
  frame k = frame ko -> state k = THREAD_STATE_RUNNING -> running_cpu k = Some me -> queued k = false ->
  sleeping k = sleeping ka -> effective_priority k = effective_priority ka ->
  base_priority k = base_priority ka -> wakeup_boosted k = wakeup_boosted ka ->
  context_switch_pending k = context_switch_pending ka ->
  cpus s' = <[me := set_context_switching false (set_current_thread (Some o) c1)]> (cpus s1) ->
  cpu_count s' = cpu_count s1 -> good s' /\ others K (cores s') o o.
Proof using All.
  intros Ha L1 K1 C1 N1 L2 K2 F S R Q Sl E B W P C2 N2. destruct (Hreq Ha) as [Eka Esl].
  split; [|intros x Hx _; by rewrite K2, K1, !lookup_insert_ne].
  exists qs, sl1. split; [by apply L2|]. rewrite K2, K1, insert_insert_eq, C2, C1, list_insert_insert_eq, N2, N1.
  pose proof (c_switching _ _ _ (i_cpus _ _ _ _ _ HI me c Hc)) as Hsw. rewrite Hns in Hsw.
  assert (Hcc : set_context_switching false (set_current_thread (Some o) c1) = c).
  { unfold c1. rewrite bool_decide_eq_true_2 by done. by apply restore_cpu. }
  rewrite Hcc, list_insert_id by done. rewrite Esl. destruct running_o as (S1 & R1 & _). rewrite Eka in *.
  eapply inv_same; try done; congruence.
Qed.

(** Giving the CPU back. *)
Lemma enter_kept s1 :
  a = SCHEDULER_DISPATCH_REQUEUE -> linked s1 qs sl1 -> cores s1 = <[o := core (released a ka)]> K ->
  cpus s1 = <[me := c1]> cs -> cpu_count s1 = n ->
  (exists s', enter_target me s1 a o None = Some (Refused, s') /\ good s' /\ others K (cores s') o o) /\
  (exists s', enter_target me s1 a o (Some o) = Some (Keep, s') /\ good s' /\ others K (cores s') o o).
Proof using All.
  intros Ha L1 K1 C1 N1. assert (Hlen : (me < length cs)%nat) by (by eapply lookup_lt_Some).
  assert (Ho : cores s1 !! o = Some (core (released a ka))) by (by rewrite K1, lookup_insert_eq).
  assert (Hl : cpus s1 !! me = Some c1) by (rewrite C1; by apply list_lookup_insert_eq).
  assert (Hrel : core (released a ka) = core (set_state THREAD_STATE_READY ka))
    by (unfold released; by rewrite bool_decide_eq_true_2).
  unfold enter_target. split.
  - rewrite bool_decide_eq_true_2 by done.
    destruct (modify_core s1 o (set_state THREAD_STATE_RUNNING) _ Ho) as (th & _ & _ & -> & L2 & K2); [done|done|].
    cbn [mbind option_bind]. eexists. split; [reflexivity|]. rewrite Hrel in K2.
    eapply (kept_good s1); try exact K2; try done.
    + intros qs0 sl0 H. eapply linked_ext, (L2 _ _ H); [done|by intros []|done].
    + cbn [cpus modify_cpu set_cpus]. change (cpus (put s1 o _)) with (cpus s1).
      by rewrite (alter_insert_cpu _ me c1).
  - rewrite Z.eqb_refl.
    destruct (modify_core s1 o (run_on me) _ Ho) as (th & _ & _ & Em & L2 & K2); [done|done|].
    unfold run_on in Em. rewrite Em. cbn [mbind option_bind]. eexists. split; [reflexivity|]. rewrite Hrel in K2.
    eapply (kept_good s1); try exact K2; try done.
    + intros qs0 sl0 H. eapply linked_ext, (L2 _ _ H); [done|by intros []|done].
    + cbn [cpus modify_cpu set_cpus]. change (cpus (put s1 o _)) with (cpus s1).
      by rewrite (alter_insert_cpu _ me c1).
Qed.

(** The same lists and threads under other counters. *)
Lemma same_but_stats s1 s2 :
  threads s2 = threads s1 -> (forall p, ready_queue s2 p = ready_queue s1 p) ->
  sleeping_threads s2 = sleeping_threads s1 -> linked s1 qs sl1 ->
  cores s1 = <[o := core (released a ka)]> K -> linked s2 qs sl1 /\ cores s2 = <[o := core (released a ka)]> K.
Proof.
  intros Ht Hq Hs L1 K1. split; [by eapply linked_ext|]. unfold cores in *. by rewrite Ht.
Qed.

Lemma undo_idle_threads s2 :
  threads (undo_idle_dispatch s2) = threads s2 /\
  (forall p, ready_queue (undo_idle_dispatch s2) p = ready_queue s2 p) /\
  sleeping_threads (undo_idle_dispatch s2) = sleeping_threads s2 /\
  cpus (undo_idle_dispatch s2) = cpus s2 /\ cpu_count (undo_idle_dispatch s2) = cpu_count s2.
Proof. unfold undo_idle_dispatch. destruct (_ =? 0); [done|]. split; [done|]. split; [by intros []|done]. Qed.

Lemma bootstrap_waiting_spec s1 kb :
  cores s1 !! bootstrap_thread = Some kb ->
  exists w, bootstrap_waiting s1 = Some w /\
    (w = true -> state kb = THREAD_STATE_READY /\ running_cpu kb = None /\ queued kb = false).
Proof.
  intros Hk. destruct (cores_get_core s1 bootstrap_thread kb Hk) as (b & Gb & <-).
  unfold bootstrap_waiting. rewrite Gb. cbn [mbind option_bind]. eexists. split; [reflexivity|].
  rewrite !andb_true_iff, negb_true_iff. unfold is_state. rewrite !bool_decide_eq_true. tauto.
Qed.

(** The idle thread is chosen while another thread leaves. *)
Lemma dispatch_idle s1 i :
  linked s1 qs sl1 -> cores s1 = <[o := core (released a ka)]> K -> cpus s1 = <[me := c1]> cs ->
  cpu_count s1 = n -> idle_thread c = Some i -> i <> o ->
  exists r s', ('(target, s) ← substitute_idle c s1 a o (Some i); enter_target me s a o target) = Some (r, s') /\
    dispatched r s'.
Proof using All.
  intros L1 K1 C1 N1 Hi Hne. destruct (idle_available i Hi Hne) as (ki & Hki & (Qi & _) & Si & Ri & _).
  destruct (c_idle _ _ _ (i_cpus _ _ _ _ _ HI me c Hc) i Hi) as [Hib _].
  assert (Hb : exists kb, cores s1 !! bootstrap_thread = Some kb /\ (o <> bootstrap_thread -> K !! bootstrap_thread = Some kb)).
  { destruct (i_boot _ _ _ _ _ HI) as [kb Hkb]. rewrite K1. destruct (decide (o = bootstrap_thread)) as [->|Hob].
    - eexists. by rewrite lookup_insert_eq.
    - exists kb. by rewrite lookup_insert_ne. }
  destruct Hb as (kb & Hkb1 & Hkb). destruct (bootstrap_waiting_spec s1 kb Hkb1) as (w & Hw & Hwt).
  destruct (undo_idle_threads s1) as (U1 & U2 & U3 & U4 & U5).
  destruct (same_but_stats s1 _ U1 U2 U3 L1 K1) as [LU KU].
  destruct (substitute_idle_cases c s1 a o i w Hi Hib Hw Hne) as (r & s2 & -> & [(-> & -> & Ew & Hob)|[(-> & -> & Ea)|(-> & -> & Ea)]]);
    cbn [mbind option_bind].
  - destruct (Hwt Ew) as (W1 & W2 & W3).
    destruct (handoff_unlisted (undo_idle_dispatch s1) bootstrap_thread kb) as (r & s' & E & _ & D); try congruence.
    + by apply Hkb.
    + right. intros j d Hd Hid. by destruct (c_idle _ _ _ (i_cpus _ _ _ _ _ HI j d Hd) _ Hid).
    + by exists r, s'.
  - destruct (enter_kept (undo_idle_dispatch s1)) as [_ (s' & E & G)]; try congruence. by exists Keep, s'.
  - destruct (handoff_unlisted s1 i ki) as (r & s' & E & _ & D); try done; [by left|]. by exists r, s'.
Qed.

(** A dispatch always ends, in a good state; only a voluntary one can leave the
    CPU with its thread. *)
Lemma dispatch_spec : exists r s1, scheduler_prepare_dispatch_locked me s a = Some (r, s1) /\ dispatched r s1.
Proof using All.
  destruct dispatch_start as (s1 & L1 & K1 & C1 & N1 & ->).
  assert (Hlen : (me < length cs)%nat) by (by eapply lookup_lt_Some).
  destruct (pick s1 c1 qs) as [t|] eqn:Ep.
  { destruct (dispatch_picked s1 t L1 K1 C1 N1 Ep) as (r & s' & E & _ & D). by exists r, s'. }
  pose proof dispatch_lists as DL. pose proof dispatch_valid as DV. rewrite <- K1, <- C1 in DL, DV.
  pose proof (select_next_spec me s1 c1 qs sl1 L1 DL DV) as HS. rewrite Ep, c1_idle in HS.
  rewrite HS by (rewrite C1; by apply list_lookup_insert_eq). clear HS.
  pose proof (i_cpus _ _ _ _ _ HI me c Hc) as HC0.
  destruct (c_has_idle _ _ _ HC0) as (i & Hi & _); [apply (c_online _ _ _ HC0); congruence|]. rewrite Hi.
  destruct (decide (i = o)) as [->|Hne].
  - destruct (Hidle me c Hc Hi) as [Ha _].
    destruct (cores_get_core s1 o (core (released a ka))) as (th & G & Cth); [by rewrite K1, lookup_insert_eq|].
    rewrite G. cbn [mbind option_bind]. assert (Hr : idle_ready me s1 c1 o th = false).
    { unfold idle_ready, thread_context_ready. replace (saved_context_valid th) with false.
      - cbn [andb]. by rewrite andb_false_r.
      - destruct running_o as (_ & _ & V). destruct (released_facts _ eq_refl) as (F & _ & _).
        unfold frame in F. injection F as _ _ _ _ _ Ev. rewrite <- V, <- Ev. apply (f_equal saved_context_valid) in Cth. symmetry. exact Cth. }
    rewrite Hr. cbn [mbind option_bind].
    assert (Hsub : substitute_idle c s1 a o None = Some (None, s1)).
    { unfold substitute_idle. rewrite Hi. rewrite (bool_decide_eq_false_2 (None = Some o)) by done. cbn [andb mbind option_bind].
      by rewrite (bool_decide_eq_false_2 (None = Some o)) by done. }
    rewrite Hsub. cbn [mbind option_bind]. destruct (enter_kept s1 Ha L1 K1 C1 N1) as [(s' & E & G') _].
    by exists Refused, s'.
  - destruct (idle_available i Hi Hne) as (ki & Hki & (Qi & _) & Si & Ri & Vi).
    destruct (cores_get_core s1 i ki) as (th & G & Cth); [by rewrite K1, lookup_insert_ne|].
    rewrite G. cbn [mbind option_bind].
    pose proof (context_ready_true _ _ _ c1 i ki (i_threads _ _ _ _ _ HI i ki Hki) Vi) as Hr.
    replace (idle_ready me s1 c1 i th) with true.
    2: { symmetry. rewrite <- Cth in Si, Ri, Qi, Hr. unfold idle_ready, is_state. cbn in Si, Ri, Qi.
         change (thread_context_ready c1 i (core th)) with (thread_context_ready c1 i th) in Hr.
         by rewrite Si, Ri, Qi, Hr. }
    cbn [mbind option_bind]. eapply dispatch_idle; try done. eapply linked_ext, L1; [done|by intros []|done].
Qed.

End Dispatch.

(** * The end of a switch *)

Section Saved.
Context (K : gmap Z kernel_thread) (qs qs' : queues) (sl : list Z) (cs : list cpu_local)
  (n me : nat) (c c' : cpu_local) (o t r f : Z) (ko kt ko' kt' : kernel_thread).
Hypothesis HI : inv K qs sl cs n.
Hypothesis Hc : cs !! me = Some c.
Hypothesis Hsw : switching c = Saving o r f.
Hypothesis Hcur : current_thread c = Some t.
Hypothesis Hko : K !! o = Some ko.
Hypothesis Hkt : K !! t = Some kt.
Hypothesis HM : same_members qs qs' sl sl o.
Hypothesis Hfo : fits qs' sl o ko'.
Hypothesis Hio : forall j d, cs !! j = Some d -> idle_thread d = Some o -> idles j ko'.
Hypothesis Hro : running_cpu ko' = None.
Hypothesis Hso : state ko' = state ko.
Hypothesis Hko' : stack_ok ko' /\ saved_stack_pointer ko' <> 0 /\ flags_safe (saved_flags ko') = true /\
  saved_context_valid ko' = true.
Hypothesis Hpo : context_switch_pending ko' = false.
Hypothesis Hkt' : kt' = set_saved_context_valid false kt.
Hypothesis Hc' : role c' = (bsp c, online c, Some t, (idle_thread c, false, NoSwitch)).

Let K' := <[t := kt']> (<[o := ko']> K).
Let cs' := <[me := c']> cs.

Lemma sd_leaving : leaving me ko.
Proof using HI Hc Hsw Hko.
  destruct (saving_leaving K qs sl cs n me o HI) as (k & Hk & HL); [by exists c, r, f|]. by same_thread.
Qed.

Lemma sd_current : state kt = THREAD_STATE_RUNNING /\ running_cpu kt = Some me.
Proof using HI Hc Hcur Hkt.
  destruct (c_current _ _ _ (i_cpus _ _ _ _ _ HI me c Hc) t Hcur) as (k & Hk & S1 & R1). by same_thread.
Qed.

Lemma sd_ne : t <> o.
Proof using All.
  intros Heq. destruct sd_leaving as [_ _ HL _]. destruct sd_current as [HS _]. congruence.
Qed.

Lemma sd_me : cs' !! me = Some c'.
Proof using Hc. apply list_lookup_insert_eq. by eapply lookup_lt_Some. Qed.

Lemma sd_saving i x : saving cs' i x <-> x <> o /\ saving cs i x.
Proof using HI Hc Hsw Hc'.
  unfold saving, cs'. destruct (decide (me = i)) as [<-|Hne].
  - split.
    + intros (d & r' & g & Hd & Hs). rewrite list_lookup_insert_eq in Hd by (by eapply lookup_lt_Some).
      injection Hd as <-. unfold role in Hc'. congruence.
    + intros [Hx (d & r' & g & Hd & Hs)]. congruence.
  - rewrite list_lookup_insert_ne by done. split; [|by intros [_ ?]]. intros H. split; [|done].
    intros ->. apply Hne. apply (i_saving_inj _ _ _ _ _ HI me i o); [by exists c, r, f|done].
Qed.

Lemma sd_idle i d x : cs' !! i = Some d -> idle_thread d = Some x ->
  exists e, cs !! i = Some e /\ idle_thread e = Some x.
Proof using Hc Hc'.
  unfold cs'. destruct (decide (me = i)) as [<-|Hne].
  - rewrite list_lookup_insert_eq by (by eapply lookup_lt_Some). intros [= <-] Hx. exists c.
    split; [done|]. unfold role in Hc'. congruence.
  - rewrite list_lookup_insert_ne by done. by exists d.
Qed.

Lemma sd_thread_o : thread_inv qs' sl cs' o ko'.
Proof using All.
  destruct sd_leaving as [L1 L2 L3 L4]. destruct Hko' as (S1 & S2 & S3 & S4). split; try done.
  - intros i d Hd Hi. destruct (sd_idle i d o Hd Hi) as (e & He & Hie). by eapply Hio.
  - intros i Hi. congruence.
  - intros H. congruence.
  - intros i d H. congruence.
  - congruence.
Qed.

Lemma sd_thread_t : thread_inv qs' sl cs' t kt'.
Proof using All.
  pose proof (i_threads _ _ _ _ _ HI t kt Hkt) as [H1 H2 H3 H4 H5 H6 H7 H8 H9]. pose proof sd_ne as Hne.
  destruct sd_current as [S1 R1]. rewrite Hkt'. split; try done.
  - pose proof (fits_other qs qs' sl sl o t kt HM Hne H1) as [F1 F2 F3 F4 F5]. by split.
  - intros i d Hd Hi. destruct (sd_idle i d t Hd Hi) as (e & He & Hie). exact (H2 i e He Hie).
  - intros i Hi. assert (i = me) as -> by (cbn in Hi; congruence). exists c'. split; [apply sd_me|]. left.
    split; [unfold role in Hc'; congruence|exact S1].
  - destruct H5 as [H5|(H5 & H5' & _)]; [by left|right; by split].
  - cbn. intros [?|?]; congruence.
  - intros Hp. destruct (H9 Hp) as [i Hi]. exists i. by apply sd_saving.
Qed.

Lemma sd_thread x k : x <> o -> x <> t -> K !! x = Some k -> thread_inv qs' sl cs' x k.
Proof using All.
  intros Ho Ht Hk. pose proof (i_threads _ _ _ _ _ HI x k Hk) as [H1 H2 H3 H4 H5 H6 H7 H8 H9].
  assert (Hnme : running_cpu k <> Some me).
  { intros Hr. destruct (H3 me Hr) as (d & Hd & [[Hx _]|((e & r' & g & He & Hs) & _)]); congruence. }
  split; try done.
  - by eapply fits_other.
  - intros i d Hd Hi. destruct (sd_idle i d x Hd Hi) as (e & He & Hie). by eapply H2.
  - intros i Hi. destruct (H3 i Hi) as (d & Hd & Hor). exists d. unfold cs' at 1.
    rewrite list_lookup_insert_ne by congruence. split; [done|]. rewrite sd_saving. tauto.
  - intros Hs Hn. apply H7; [done|]. intros i Hi. apply (Hn i). by apply sd_saving.
  - intros i d Hs Hi Hd Hnsw. apply (H8 i d); try done. unfold cs' in Hd.
    by rewrite list_lookup_insert_ne in Hd by congruence.
  - intros Hp. destruct (H9 Hp) as [i Hi]. exists i. by apply sd_saving.
Qed.

Lemma sd_lookup x : x <> o -> x <> t -> K' !! x = K !! x.
Proof. intros H1 H2. unfold K'. by rewrite !lookup_insert_ne. Qed.

Lemma sd_lookup_o : K' !! o = Some ko'.
Proof using All. pose proof sd_ne. unfold K'. by rewrite lookup_insert_ne, lookup_insert_eq. Qed.

Lemma sd_dom x : is_Some (K !! x) -> is_Some (K' !! x).
Proof. intros H. by apply is_Some_insert, is_Some_insert. Qed.

Lemma sd_cpu i d : i <> me -> cs !! i = Some d -> cpu_inv K' i d.
Proof using All.
  intros Hi Hd. destruct (i_cpus _ _ _ _ _ HI i d Hd) as [C1 C2 C3 C4 C5 C6].
  destruct sd_leaving as [L1 L2 L3 L4]. destruct sd_current as [S1 R1].
  assert (Hcur' : forall x k, K !! x = Some k -> state k = THREAD_STATE_RUNNING ->
            running_cpu k = Some i -> x <> o /\ x <> t) by (intros x k Hx Hs Hr; split; intros Heq; congruence).
  split; [done|done| | | |].
  - intros Ho. destruct (C3 Ho) as (x & Hx & Hs). exists x. split; [done|by apply sd_dom].
  - intros x Hx. destruct (C4 x Hx). split; [done|by apply sd_dom].
  - intros x Hx. destruct (C5 x Hx) as (k & Hk & Hs & Hr). destruct (Hcur' x k Hk Hs Hr) as [Ho Ht].
    exists k. by rewrite sd_lookup.
  - destruct (switching d) as [|o2 r2 g|] eqn:Es; [done| |done].
    destruct C6 as (F1 & F2 & (k & Hk & HL) & (x & kx & Hx & Hkx & Hsp)). split; [done|]. split; [done|]. split.
    + exists k. split; [|done]. rewrite sd_lookup; [done| |].
      * intros ->. apply Hi. apply (i_saving_inj _ _ _ _ _ HI i me o); [by exists d, r2, g|by exists c, r, f].
      * intros ->. destruct HL as [_ _ M3 _]. congruence.
    + exists x, kx. split; [done|]. split; [|done]. destruct (C5 x Hx) as (k' & Hk' & Hs & Hr).
      destruct (Hcur' x k' Hk' Hs Hr) as [Ho Ht]. by rewrite sd_lookup.
Qed.

Lemma saved_inv : inv K' qs' sl cs' n.
Proof using All.
  pose proof HI as [I1 I2 I3 I4 I5 I6 I7]. pose proof sd_ne as Hne. split.
  - intros x k Hk. destruct (decide (x = t)) as [->|Ht].
    { unfold K' in Hk. rewrite lookup_insert_eq in Hk. injection Hk as <-. apply sd_thread_t. }
    destruct (decide (x = o)) as [->|Ho].
    { rewrite sd_lookup_o in Hk. injection Hk as <-. apply sd_thread_o. }
    rewrite sd_lookup in Hk by done. by apply sd_thread.
  - intros x Hx. destruct (decide (x = o)) as [->|Ho]; [rewrite sd_lookup_o; by eexists|].
    apply sd_dom, I2. by eapply members_in.
  - intros i d Hd. destruct (decide (i = me)) as [->|Hi].
    2: { unfold cs' in Hd. rewrite list_lookup_insert_ne in Hd by done. by apply sd_cpu. }
    rewrite sd_me in Hd. injection Hd as <-. destruct (I3 me c Hc) as [C1 C2 C3 C4 C5 C6].
    destruct sd_current as [S1 R1]. unfold role in Hc'. injection Hc' as B1 B2 B3 B4 B5 B6. split.
    + congruence.
    + rewrite B2, B3. split; [done|]. intros _. apply C2. congruence.
    + rewrite B2, B4. intros H. destruct (C3 H) as (x & Hx & Hs). exists x. split; [done|by apply sd_dom].
    + rewrite B4. intros x Hx. destruct (C4 x Hx). split; [done|by apply sd_dom].
    + rewrite B3. intros x [= <-]. exists kt'. unfold K'. rewrite lookup_insert_eq, Hkt'. done.
    + by rewrite B6.
  - intros i j d e x Hd He Hx Hx'. destruct (sd_idle i d x Hd Hx) as (d1 & Hd1 & Hi1).
    destruct (sd_idle j e x He Hx') as (e1 & He1 & Hi2). by apply (I4 i j d1 e1 x).
  - intros i j x. rewrite !sd_saving. intros [_ ?] [_ ?]. by apply (I5 i j x).
  - by apply sd_dom.
  - unfold cs'. by rewrite length_insert.
Qed.

End Saved.

End SchedulerSteps.
