(* ===== verification/SchedulerOps.v ===== *)
(** The operations of the scheduler, one by one: each returns in every good
    state and leaves a good state. *)
From stdpp Require Import gmap.
From S2P Require Import Prelude SchedState Scheduler SchedLinks SchedulerProofs SchedulerSteps.
Import SchedState Scheduler SchedLinks SchedulerProofs SchedulerSteps.

Module SchedulerOps.

(** * Threads outside the lists *)

Lemma lists_ok_fits K qs sl cs t k : lists_ok K qs sl cs -> K !! t = Some k -> fits qs sl t k.
Proof.
  intros [O1 O2 O3 O4 O5 _] Hk. split; [| |by apply O3|by apply O4|by eapply O5].
  - intros p Hp. destruct (O1 p t Hp) as (k' & Hk' & Hw). congruence.
  - intros Hp. destruct (O2 t Hp) as (k' & Hk' & Hw). congruence.
Qed.

Lemma fits_core qs sl t k : fits qs sl t k -> fits qs sl t (core k).
Proof. intros []. by split. Qed.

Lemma idles_core i k : idles i k -> idles i (core k).
Proof. done. Qed.

Lemma frame_core k : frame (core k) = frame k.
Proof. done. Qed.

Lemma fits_unlisted qs sl t k :
  t ∉ everyone qs sl -> queued k = false -> sleeping k = false ->
  thread_priority_state_valid k = true -> fits qs sl t k.
Proof.
  intros Hn Hq Hs Hp. split; [| |congruence|congruence|done].
  - intros p H. destruct Hn. by eapply in_everyone.
  - intros H. destruct Hn. by apply sleeper_in_everyone.
Qed.

(** A thread that runs, or has ended, is in no list. *)
Lemma unlisted qs sl t k :
  fits qs sl t k -> state k = THREAD_STATE_RUNNING \/ state k = THREAD_STATE_TERMINATED ->
  (t ∉ everyone qs sl) /\ queued k = false /\ sleeping k = false.
Proof.
  intros HF Hs.
  assert (Hq : forall p, t ∉ qs p).
  { intros p Hp. destruct (f_ready _ _ _ _ HF p Hp) as (_ & H & _). destruct Hs; congruence. }
  assert (Hl : t ∉ sl).
  { intros Hp. destruct (f_sleep _ _ _ _ HF Hp) as (_ & H & _). destruct Hs; congruence. }
  split; [intros [[p Hp]|Hp]%elem_everyone; [by destruct (Hq p)|done]|]. split.
  - destruct (queued k) eqn:E; [|done]. by destruct (Hq _ (f_queued _ _ _ _ HF E)).
  - destruct (sleeping k) eqn:E; [|done]. by destruct (Hl (f_sleeping _ _ _ _ HF E)).
Qed.

(** The thread of a CPU that is not switching. *)
Lemma current_facts K qs sl cs n me c o :
  inv K qs sl cs n -> cs !! me = Some c -> current_thread c = Some o ->
  exists ko, K !! o = Some ko /\ state ko = THREAD_STATE_RUNNING /\ running_cpu ko = Some me /\
    (o ∉ everyone qs sl) /\ queued ko = false /\ sleeping ko = false /\
    thread_priority_state_valid ko = true /\
    (forall j d, cs !! j = Some d -> idle_thread d = Some o -> j = me /\ d = c).
Proof.
  intros HI Hc Ho. destruct (c_current _ _ _ (i_cpus _ _ _ _ _ HI me c Hc) o Ho) as (ko & Hk & Hs & Hr).
  pose proof (i_threads _ _ _ _ _ HI o ko Hk) as HT. pose proof (t_fits _ _ _ _ _ HT) as HF.
  destruct (unlisted _ _ _ _ HF (or_introl Hs)) as (H1 & H2 & H3).
  exists ko. repeat (split; [done|]). split; [apply (f_prio _ _ _ _ HF)|].
  intros j d Hd Hi. destruct (t_idle _ _ _ _ _ HT j d Hd Hi) as (_ & _ & _ & _ & [[H _]|[_ H]]); [congruence|].
  assert (j = me) as -> by congruence. split; [done|congruence].
Qed.

Lemma good_linked_ext s s' :
  threads s' = threads s -> (forall p, ready_queue s' p = ready_queue s p) ->
  sleeping_threads s' = sleeping_threads s -> cpus s' = cpus s -> cpu_count s' = cpu_count s ->
  good s -> good s'.
Proof.
  intros H1 H2 H3 H4 H5 (qs & sl & HL & HI). exists qs, sl. split; [by eapply linked_ext|].
  unfold cores in *. by rewrite H1, H4, H5.
Qed.

Lemma good_stats s f : good s -> good (count_stat f s).
Proof. by apply good_linked_ext. Qed.

Lemma good_cpu s i f : (forall c, role (f c) = role c) -> good s -> good (modify_cpu s i f).
Proof.
  intros Hf (qs & sl & HL & HI). exists qs, sl. split; [eapply linked_ext, HL; [done|by intros []|done]|].
  by apply inv_cpu.
Qed.

(** Writing fields of a thread that the invariant does not mention. *)
Definition keeps (f : kernel_thread -> kernel_thread) : Prop :=
  forall th, previous (f th) = previous th /\ next (f th) = next th /\ core (f th) = core (f (core th)) /\
    frame (f th) = frame th /\ state (f th) = state th /\ running_cpu (f th) = running_cpu th /\
    queued (f th) = queued th /\ sleeping (f th) = sleeping th /\
    effective_priority (f th) = effective_priority th /\ base_priority (f th) = base_priority th /\
    wakeup_boosted (f th) = wakeup_boosted th /\
    context_switch_pending (f th) = context_switch_pending th.

Lemma good_modify s t f th :
  keeps f -> get s t = Some th -> good s -> modify s t f = Some (put s t (f th)) /\ good (put s t (f th)).
Proof.
  intros Hf Ht (qs & sl & HL & HI). split; [by apply modify_get|].
  destruct (Hf th) as (H1 & H2 & H3 & H4 & H5 & H6 & H7 & H8 & H9 & H10 & H11 & H12).
  exists qs, sl. split; [by eapply linked_put|]. rewrite cores_put.
  eapply (inv_same _ _ _ _ _ t (core th)); try done. by apply get_cores.
Qed.

(** * Waiting threads are left alone *)

(** What decides how a waiting thread is promoted. *)
Definition waiting (k : kernel_thread) :=
  (base_priority k, effective_priority k, wakeup_boosted k, ready_wait_ticks k).

(** A thread that waits in a ready queue keeps its priorities and its age as
    long as it waits. *)
Definition undisturbed (K K' : gmap Z kernel_thread) : Prop :=
  forall t k k', K !! t = Some k -> K' !! t = Some k' -> queued k = true -> queued k' = true ->
    waiting k' = waiting k.

Lemma undisturbed_refl K : undisturbed K K.
Proof. intros t k k' Hk Hk' _ _. congruence. Qed.

Lemma undisturbed_insert K t k0 k :
  K !! t = Some k0 -> (queued k0 = true -> queued k = true -> waiting k = waiting k0) ->
  undisturbed K (<[t := k]> K).
Proof.
  intros H0 Hq0 x kx kx' Hx. destruct (decide (t = x)) as [<-|Hne].
  - rewrite lookup_insert_eq. intros [= <-]. rewrite H0 in Hx. injection Hx as <-. exact Hq0.
  - rewrite lookup_insert_ne by done. congruence.
Qed.

(** The current thread of a CPU does not wait. *)
Lemma current_not_queued s i c t k :
  good s -> cpus s !! i = Some c -> current_thread c = Some t -> cores s !! t = Some k -> queued k = false.
Proof.
  intros (qs & sl & HL & HI) Hc Ht Hk.
  destruct (cv_current _ _ _ (inv_valid _ _ _ _ _ HI i c Hc) t Ht) as (k' & Hk' & Hq & _). congruence.
Qed.

Lemma others_undisturbed K s' o t ko :
  K !! o = Some ko -> queued ko = false -> good s' ->
  (t = o \/ exists i d, cpus s' !! i = Some d /\ current_thread d = Some t) ->
  others K (cores s') o t -> undisturbed K (cores s').
Proof.
  intros Ho Hq HG Ht HO x k k' Hx Hk' Hqx Hqx'. assert (Hxo : x <> o) by congruence.
  destruct (decide (x = t)) as [->|Hxt]; [|rewrite HO in Hk' by done; congruence].
  exfalso. destruct Ht as [?|(i & d & Hd & Hcur)]; [done|]. assert (queued k' = false) by (by eapply current_not_queued). congruence.
Qed.

(** * Yielding, blocking, sleeping, ending *)

Section Running.
Context (s : sched) (me : nat) (c : cpu_local) (f : Z).
Hypothesis HG : good s.
Hypothesis Hc : cpus s !! me = Some c.
Hypothesis Hns : switching c = NoSwitch.
Hypothesis Hflags : flags_safe f = true.

Lemma current_get o : current_thread c = Some o -> exists th, get s o = Some th.
Proof using HG Hc.
  intros Ho. destruct HG as (qs & sl & HL & HI).
  destruct (c_current _ _ _ (i_cpus _ _ _ _ _ HI me c Hc) o Ho) as (k & Hk & _).
  apply cores_lookup in Hk as (th & E & _). by exists th.
Qed.

Lemma reschedule_good : exists r s', scheduler_reschedule me s f = Some (r, s') /\ good s' /\
  undisturbed (cores s) (cores s').
Proof using All.
  unfold scheduler_reschedule, scheduler_dispatch. destruct (current_thread c) as [o|] eqn:Ho.
  2: { unfold scheduler_prepare_dispatch_locked. rewrite Hc. cbn [mbind option_bind]. rewrite Ho.
       cbn. exists false, s. split; [done|]. split; [done|apply undisturbed_refl]. }
  destruct HG as (qs & sl & HL & HI).
  destruct (current_facts _ _ _ _ _ me c o HI Hc Ho) as (ko & Hk & Hs & Hr & Hn & Hq & Hsl & Hp & Hid).
  destruct (dispatch_spec s SCHEDULER_DISPATCH_REQUEUE (cores s) qs sl sl (cpus s) (cpu_count s) me c o f ko ko)
    as (r & s1 & -> & HD); try done.
  - by rewrite insert_id.
  - by apply fits_unlisted.
  - intros j d Hd Hi. destruct (Hid j d Hd Hi) as [-> ->]. split; [done|].
    destruct (t_idle _ _ _ _ _ (i_threads _ _ _ _ _ HI o ko Hk) me c Hc Hi) as (I1 & I2 & I3 & I4 & _).
    unfold released. rewrite bool_decide_eq_true_2 by done.
    split; [done|]. split; [done|]. split; [done|]. split; [done|]. left. split; [done|by right].
  - cbn [mbind option_bind]. destruct r as [| |o' t].
    + destruct HD as (_ & G & O). exists false, s1. split; [done|]. split; [done|].
      eapply others_undisturbed; [done|done|done|by left|done].
    + destruct HD as (_ & G & O). exists true, s1. split; [done|]. split; [done|].
      eapply others_undisturbed; [done|done|done|by left|done].
    + destruct HD as (s' & -> & G & D & O & _). exists true, s'. split; [done|]. split; [done|].
      eapply others_undisturbed; [done|done|done|right; by exists me|done].
Qed.

(** The thread of this CPU stops, with new fields [ka]. *)
Lemma stop_good s1 a qs sl sl1 o ko ka :
  linked s qs sl -> inv (cores s) qs sl (cpus s) (cpu_count s) -> current_thread c = Some o ->
  idle_thread c <> Some o -> cores s !! o = Some ko ->
  linked s1 qs sl1 -> cores s1 = <[o := ka]> (cores s) -> cpus s1 = cpus s -> cpu_count s1 = cpu_count s ->
  a <> SCHEDULER_DISPATCH_REQUEUE -> frame ka = frame ko -> state ka = action_state a ->
  running_cpu ka = running_cpu ko -> queued ka = false -> same_members qs qs sl sl1 o ->
  fits qs sl1 o (set_running_cpu None ka) ->
  exists r s2, scheduler_prepare_dispatch_locked me s1 a = Some (r, s2) /\ r <> Refused /\
    exists s', finish_dispatch me s2 r f = Some (true, s') /\ good s' /\ undisturbed (cores s) (cores s') /\
      cores s' !! o = Some (core (set_context_switch_pending true (core (set_running_cpu None ka)))).
Proof using All.
  intros HL HI Ho Hni Hko L1 K1 C1 N1 Ha Hfr Hst Hrun Hq HM Hfit.
  destruct (current_facts _ _ _ _ _ me c o HI Hc Ho) as (k & Hk & _ & Hr & _ & Hqo & _ & _ & Hid). same_thread.
  destruct (dispatch_spec s1 a (cores s) qs sl sl1 (cpus s) (cpu_count s) me c o f ko ka)
    as (r & s2 & E & HD); try done; try congruence.
  - unfold released. by rewrite bool_decide_eq_false_2.
  - intros j d Hd Hi. destruct (Hid j d Hd Hi) as [-> ->]. done.
  - exists r, s2. split; [done|]. destruct r as [| |o' t]; [by destruct HD|by destruct HD|].
    split; [done|]. destruct HD as (s' & E' & G & D & O & KO). exists s'. split; [done|]. split; [done|].
    split; [eapply others_undisturbed; [done|done|done|right; by exists me|done]|].
    unfold released in KO. by rewrite bool_decide_eq_false_2 in KO.
Qed.

Lemma can_block_spec o th :
  can_block c o th = true -> idle_thread c <> Some o.
Proof.
  unfold can_block, is_thread. intros H E. by rewrite E, bool_decide_eq_true_2 in H.
Qed.

(** A thread that runs on this CPU and is not its idle thread can block. *)
Lemma can_block_true qs sl o th :
  linked s qs sl -> inv (cores s) qs sl (cpus s) (cpu_count s) -> current_thread c = Some o ->
  get s o = Some th -> idle_thread c <> Some o -> can_block c o th = true.
Proof using Hc.
  intros HL HI Ho Ht Hi. destruct (current_facts _ _ _ _ _ me c o HI Hc Ho) as (k & Hk & Hs & _ & _ & Hq & _).
  rewrite (get_cores s o th Ht) in Hk. injection Hk as <-. cbn in Hs, Hq.
  unfold can_block, is_thread, is_state. by rewrite bool_decide_eq_false_2, Hs, Hq.
Qed.

Lemma block_good : exists r s', scheduler_block me s f = Some (r, s') /\ good s' /\
  undisturbed (cores s) (cores s') /\
  (forall o th, current_thread c = Some o -> get s o = Some th -> idle_thread c <> Some o -> r = true /\
     (mutex_wake_pending th = false -> exists k, cores s' !! o = Some k /\ state k = THREAD_STATE_BLOCKED)).
Proof using All.
  unfold scheduler_block. rewrite Hc. cbn [mbind option_bind]. destruct (current_thread c) as [o|] eqn:Ho.
  2: { exists false, s. split; [done|]. split; [done|]. split; [apply undisturbed_refl|done]. }
  destruct (current_get o Ho) as [th Ht]. rewrite Ht. cbn [mbind option_bind].
  destruct (mutex_wake_pending th) eqn:Ew.
  { exists true, (put s o (set_mutex_wake_pending false th)). split; [done|].
    split; [by apply (good_modify s o (set_mutex_wake_pending false) th)|].
    split; [|intros x y [= <-] Hy _; split; [done|]; rewrite Ht in Hy; injection Hy as <-; congruence].
    rewrite cores_put. pose proof (get_cores s o th Ht) as Hk.
    eapply undisturbed_insert; [exact Hk|done]. }
  destruct HG as (qs & sl & HL & HI).
  destruct (can_block c o th) eqn:Eb; cbn [negb].
  2: { exists false, s. split; [done|]. split; [done|]. split; [apply undisturbed_refl|]. intros o' th' [= <-] _ Hi.
       rewrite (can_block_true qs sl o th HL HI Ho Ht Hi) in Eb. done. }
  destruct (current_facts _ _ _ _ _ me c o HI Hc Ho) as (ko & Hk & Hs & Hr & Hn & Hq & Hsl & Hp & Hid).
  destruct (modify_core s o (set_state THREAD_STATE_BLOCKED) ko Hk) as (th' & _ & _ & -> & L1 & K1); [done|done|].
  cbn [mbind option_bind].
  destruct (stop_good (count_stat more_blocks (put s o (set_state THREAD_STATE_BLOCKED th')))
    SCHEDULER_DISPATCH_BLOCK qs sl sl o ko (core (set_state THREAD_STATE_BLOCKED ko)) HL HI Ho)
    as (r & s2 & -> & Hr2 & s' & E' & G' & U' & O'); try done.
  - by apply (can_block_spec o th).
  - eapply linked_ext, (L1 _ _ HL); [done|by intros []|done].
  - by apply fits_unlisted.
  - cbn [mbind option_bind]. destruct r as [| |o' t]; [done| |]; rewrite E'; exists true, s'; (split; [done|]; split; [done|]; split; [done|]);
      intros x y [= <-] _ _; (split; [done|]); intros _; by eexists.
Qed.

Lemma terminate_good : exists r s', scheduler_terminate me s f = Some (r, s') /\ good s' /\
  undisturbed (cores s) (cores s').
Proof using All.
  unfold scheduler_terminate. rewrite Hc. cbn [mbind option_bind]. destruct (current_thread c) as [o|] eqn:Ho.
  2: { exists false, s. split; [done|]. split; [done|apply undisturbed_refl]. }
  destruct (current_get o Ho) as [th Ht]. rewrite Ht. cbn [mbind option_bind].
  destruct (can_block c o th) eqn:Eb; cbn [negb];
    [|exists false, s; split; [done|]; split; [done|apply undisturbed_refl]].
  destruct HG as (qs & sl & HL & HI).
  destruct (current_facts _ _ _ _ _ me c o HI Hc Ho) as (ko & Hk & Hs & Hr & Hn & Hq & Hsl & Hp & Hid).
  destruct (modify_core s o (set_state THREAD_STATE_TERMINATED) ko Hk) as (th' & _ & _ & -> & L1 & K1); [done|done|].
  cbn [mbind option_bind].
  destruct (stop_good (put s o (set_state THREAD_STATE_TERMINATED th'))
    SCHEDULER_DISPATCH_TERMINATE qs sl sl o ko (core (set_state THREAD_STATE_TERMINATED ko)) HL HI Ho)
    as (r & s2 & -> & Hr2 & s' & E' & G' & U' & O'); try done.
  - by apply (can_block_spec o th).
  - by apply L1.
  - by apply fits_unlisted.
  - cbn [mbind option_bind]. destruct r as [| |o' t]; [done| |]; rewrite E'; by exists true, s'.
Qed.

Lemma sleep_good ticks : exists r s', scheduler_sleep me s ticks f = Some (r, s') /\ good s' /\
  undisturbed (cores s) (cores s') /\
  (forall o, current_thread c = Some o -> idle_thread c <> Some o -> ticks <> 0 -> r = true /\
     exists k, cores s' !! o = Some k /\ state k = THREAD_STATE_BLOCKED /\ sleeping k = true /\
       wakeup_tick k = wakeup_at (scheduler_tick_count s) ticks).
Proof using All.
  unfold scheduler_sleep. destruct (Z.eqb_spec ticks 0).
  { exists true, s. split; [done|]. split; [done|]. split; [apply undisturbed_refl|done]. }
  rewrite Hc. cbn [mbind option_bind]. destruct (current_thread c) as [o|] eqn:Ho.
  2: { exists false, s. split; [done|]. split; [done|]. split; [apply undisturbed_refl|done]. }
  destruct (current_get o Ho) as [th Ht]. rewrite Ht. cbn [mbind option_bind].
  destruct HG as (qs & sl & HL & HI).
  destruct (current_facts _ _ _ _ _ me c o HI Hc Ho) as (ko & Hk & Hs & Hr & Hn & Hq & Hsl & Hp & Hid).
  assert (Hsth : sleeping th = false) by (rewrite (get_cores s o th Ht) in Hk; injection Hk as <-; exact Hsl).
  rewrite Hsth, orb_false_r. destruct (can_block c o th) eqn:Eb; cbn [negb].
  2: { exists false, s. split; [done|]. split; [done|]. split; [apply undisturbed_refl|]. intros o' [= <-] Hi _.
       rewrite (can_block_true qs sl o th HL HI Ho Ht Hi) in Eb. done. }
  set (w := wakeup_at _ _).
  destruct (modify_core s o (set_wakeup_tick w) ko Hk) as (th1 & _ & Cth1 & -> & L1 & K1); [done|done|].
  cbn [mbind option_bind].
  destruct (sleeping_push_spec (put s o (set_wakeup_tick w th1)) o (set_wakeup_tick w th1) sl qs)
    as (s2 & -> & L2 & K2 & (_ & _ & C2 & N2) & _ & _); [by apply L1|apply get_put|done|].
  cbn [mbind option_bind].
  assert (Hk2 : cores s2 !! o = Some (core (set_sleeping true (set_wakeup_tick w th1)))) by (by rewrite K2, lookup_insert_eq).
  set (s3 := count_stat _ s2).
  destruct (modify_core s3 o (set_state THREAD_STATE_BLOCKED) _ Hk2) as (th3 & _ & _ & -> & L3 & K3); [done|done|].
  cbn [mbind option_bind]. change (cores s3) with (cores s2) in K3.
  rewrite K2, K1, !insert_insert_eq in K3.
  destruct (stop_good (count_stat more_blocks (put s3 o (set_state THREAD_STATE_BLOCKED th3)))
    SCHEDULER_DISPATCH_BLOCK qs sl (o :: sl) o ko
    (core (set_state THREAD_STATE_BLOCKED (core (set_sleeping true (set_wakeup_tick w th1))))) HL HI Ho)
    as (r & s5 & -> & Hr2 & s' & E' & G' & U' & O'); try done.
  - by apply (can_block_spec o th).
  - assert (L4 : linked s3 qs (o :: sl)) by (eapply linked_ext, L2; [done|by intros []|done]).
    eapply linked_ext, (L3 _ _ L4); [done|by intros []|done].
  - rewrite <- Cth1. done.
  - rewrite <- Cth1. done.
  - rewrite <- Cth1 in Hq. exact Hq.
  - apply same_members_sleep.
  - rewrite <- Cth1 in Hq, Hp. split.
    + intros p Hin. destruct Hn. by eapply in_everyone.
    + intros _. done.
    + cbn in *. congruence.
    + intros _. apply list_elem_of_here.
    + exact Hp.
  - cbn [mbind option_bind]. destruct r as [| |o' t]; [done| |]; rewrite E'; exists true, s';
      (split; [done|]; split; [done|]; split; [done|]); intros x [= <-] _ _; (split; [done|]); by eexists.
Qed.

End Running.

(** * The end of a switch *)

(** [thread_context_switch] from the store of the outgoing stack pointer to the
    return on the incoming stack. *)
Definition finish_switch (me : nat) (s : sched) (rsp : Z) : option sched :=
  s ← scheduler_context_switch_saved me s rsp;
  scheduler_context_switch_complete me s.

(** The outgoing thread with its frame. *)
Definition framed (rsp f : Z) (th : kernel_thread) : kernel_thread :=
  set_running_cpu None (set_saved_context_valid true (set_saved_flags f (set_saved_stack_pointer rsp th))).

Lemma leaving_not_current K qs sl cs n me c o r f j d :
  inv K qs sl cs n -> cs !! me = Some c -> switching c = Saving o r f ->
  cs !! j = Some d -> current_thread d <> Some o.
Proof.
  intros HI Hc Hs Hd Ho. destruct (saving_leaving K qs sl cs n me o HI) as (k & Hk & [_ _ HL _]); [by exists c, r, f|].
  destruct (c_current _ _ _ (i_cpus _ _ _ _ _ HI j d Hd) o Ho) as (k' & Hk' & HS & _). congruence.
Qed.

Section Finish.
Context (s : sched) (me : nat) (c : cpu_local) (o r f rsp : Z) (qs : queues) (sl : list Z) (ko : kernel_thread).
Hypothesis HL : linked s qs sl.
Hypothesis HI : inv (cores s) qs sl (cpus s) (cpu_count s).
Hypothesis Hc : cpus s !! me = Some c.
Hypothesis Hsw : switching c = Saving o r f.
Hypothesis Hko : cores s !! o = Some ko.
Hypothesis Hrsp : rsp <> 0 /\ saved_stack_bounds (set_saved_stack_pointer rsp ko) = true.

Lemma framed_fits : fits qs sl o (framed rsp f ko).
Proof using HI Hko.
  destruct (t_fits _ _ _ _ _ (i_threads _ _ _ _ _ HI o ko Hko)) as [F1 F2 F3 F4 F5]. split; [| |done|done|done].
  - intros p Hp. destruct (F1 p Hp) as (A & B & C & D & _). done.
  - intros Hp. destruct (F2 Hp) as (A & B & C & _). done.
Qed.

Lemma framed_idle j d : cpus s !! j = Some d -> idle_thread d = Some o ->
  j = me /\ d = c /\ state ko = THREAD_STATE_READY /\ idles j (framed rsp f ko).
Proof using HI Hc Hsw Hko.
  intros Hd Hi. destruct (saving_leaving (cores s) qs sl (cpus s) (cpu_count s) me o HI) as (k & Hk & [_ _ HS HW]); [by exists c, r, f|].
  same_thread. destruct (t_idle _ _ _ _ _ (i_threads _ _ _ _ _ HI o ko Hko) j d Hd Hi) as (I1 & I2 & I3 & I4 & [[I5 I6]|[I5 _]]); [|done].
  destruct (HW I5) as [Hr|Hq]; [|congruence]. destruct I6 as [?|Hj]; [congruence|].
  assert (j = me) as -> by congruence. split; [done|]. split; [congruence|]. split; [done|].
  split; [done|]. split; [done|]. split; [done|]. split; [done|]. left. split; [exact I5|by left].
Qed.

(** The frame is published. *)
Lemma frame_spec : exists th s2,
  (s1 ← modify s o (fun th => set_saved_context_valid true (set_saved_flags f (set_saved_stack_pointer rsp th)));
   th ← get s1 o; s1 ← modify s1 o (set_running_cpu None); Some (th, s1)) = Some (th, s2) /\
  state th = state ko /\ queued th = queued ko /\
  linked s2 qs sl /\ cores s2 = <[o := core (framed rsp f ko)]> (cores s) /\ same_env s s2.
Proof using HL Hko.
  destruct (modify_core s o (fun th => set_saved_context_valid true (set_saved_flags f (set_saved_stack_pointer rsp th))) ko Hko)
    as (th0 & G0 & C0 & -> & L1 & K1); [done|done|]. cbn [mbind option_bind].
  set (s1 := put s o _) in *. assert (G1 : get s1 o = Some (set_saved_context_valid true (set_saved_flags f (set_saved_stack_pointer rsp th0)))) by apply get_put.
  rewrite G1. cbn [mbind option_bind].
  rewrite (modify_get s1 o _ _ G1). cbn [mbind option_bind].
  eexists _, _. split; [reflexivity|]. split; [by rewrite <- C0|]. split; [by rewrite <- C0|].
  split; [eapply linked_put; [exact G1|done|done|by apply L1]|].
  split; [rewrite cores_put, K1, insert_insert_eq, <- C0; done|done].
Qed.

(** The first half: the thread is queued if it was only preempted. *)
Lemma publish_spec th s2 : state th = state ko -> queued th = queued ko ->
  linked s2 qs sl -> cores s2 = <[o := core (framed rsp f ko)]> (cores s) -> same_env s s2 ->
  exists s3 qs' k2,
  (if is_state th THREAD_STATE_READY && negb (queued th) && negb (o =? bootstrap_thread) &&
      negb (is_thread (idle_thread c) o)
   then '(ok, s3) ← scheduler_enqueue_locked me s2 o; if ok : bool then Some s3 else None
   else Some s2) = Some s3 /\
  linked s3 qs' sl /\ cores s3 = <[o := k2]> (cores s) /\ same_env s s3 /\
  same_members qs qs' sl sl o /\ fits qs' sl o k2 /\ frame k2 = frame (framed rsp f ko) /\
  state k2 = state ko /\ running_cpu k2 = None /\ (queued ko = true -> waiting k2 = waiting ko) /\
  (forall j d, cpus s !! j = Some d -> idle_thread d = Some o -> idles j k2).
Proof using All.
  intros Hst Hqd L2 K2 E2. pose proof framed_fits as HF. unfold is_state. rewrite Hst, Hqd.
  destruct (bool_decide (state ko = THREAD_STATE_READY) && _ && _ && _) eqn:EB.
  2: { exists s2, qs, (core (framed rsp f ko)). split; [done|]. split; [done|]. split; [done|]. split; [done|].
       split; [done|]. split; [by apply fits_core|]. split; [apply frame_core|]. split; [reflexivity|].
       split; [reflexivity|]. split; [reflexivity|].
       intros j d Hd Hi. apply idles_core. by destruct (framed_idle j d Hd Hi) as (_ & _ & _ & ?). }
  rewrite !andb_true_iff, !negb_true_iff, bool_decide_eq_true in EB. destruct EB as [[[B1 B2] B3] B4].
  assert (Hid : forall j d, cpus s !! j = Some d -> idle_thread d <> Some o).
  { intros j d Hd Hi. destruct (framed_idle j d Hd Hi) as (_ & -> & _). by apply bool_decide_eq_false_1 in B4. }
  assert (Hsl : sleeping ko = false).
  { destruct (sleeping ko) eqn:E; [|done]. apply (f_sleeping _ _ _ _ HF) in E.
    destruct (f_sleep _ _ _ _ HF E) as (_ & H & _). cbn in H. congruence. }
  destruct (cores_get_core s2 o (core (framed rsp f ko))) as (th2 & G2 & C2); [by rewrite K2, lookup_insert_eq|].
  pose proof E2 as (_ & _ & C & N).
  destruct (enqueue_spec me s2 c qs sl o th2 L2) as (s3 & -> & L3 & K3 & E3 & O3 & _ & M3).
  - rewrite K2, C. eapply lists_ok_insert; [by eapply inv_lists|done|by apply fits_core|].
    intros j d Hd Hi. by destruct (Hid j d Hd).
  - rewrite K2, C. apply cpus_valid_insert; [by eapply inv_valid|]. intros j d Hd Ho.
    by destruct (leaving_not_current _ _ _ _ _ me c o r f j d HI Hc Hsw Hd).
  - by rewrite C.
  - done.
  - apply (f_equal state) in C2. cbn in C2. congruence.
  - apply (f_equal queued) in C2. cbn in C2. congruence.
  - apply (f_equal running_cpu) in C2. cbn in C2. congruence.
  - apply (f_equal sleeping) in C2. cbn in C2. congruence.
  - intros j d. rewrite C. apply Hid.
  - cbn [mbind option_bind]. eexists s3, _, _. split; [reflexivity|]. split; [exact L3|].
    split; [rewrite K3, K2, insert_insert_eq; reflexivity|]. split; [by eapply same_env_trans|]. split; [exact M3|].
    assert (Hfr : frame th2 = frame (framed rsp f ko) /\ state th2 = state ko /\ running_cpu th2 = None).
    { pose proof (f_equal frame C2) as F1. rewrite !frame_core in F1. apply (f_equal state) in C2 as F2.
      apply (f_equal running_cpu) in C2 as F3. done. }
    destruct Hfr as (Hf1 & Hf2 & Hf3). split; [|split; [exact Hf1|split; [exact Hf2|split; [exact Hf3|split; [congruence|]]]]].
    + eapply lists_ok_fits; [exact O3|apply lookup_insert_eq].
    + intros j d Hd Hi. by destruct (Hid j d Hd).
Qed.

Lemma saved_spec : exists s5 t kt qs' k2, scheduler_context_switch_saved me s rsp = Some s5 /\
  current_thread c = Some t /\ cores s !! t = Some kt /\ t <> o /\ linked s5 qs' sl /\
  cores s5 = <[t := core (set_saved_context_valid false kt)]> (<[o := k2]> (cores s)) /\
  cpus s5 = <[me := set_switching (Completing o) (set_context_switching false c)]> (cpus s) /\
  cpu_count s5 = cpu_count s /\
  same_members qs qs' sl sl o /\ fits qs' sl o k2 /\ frame k2 = frame (framed rsp f ko) /\
  state k2 = state ko /\ running_cpu k2 = None /\ (queued ko = true -> waiting k2 = waiting ko) /\
  (forall j d, cpus s !! j = Some d -> idle_thread d = Some o -> idles j k2).
Proof using All.
  pose proof (c_switching _ _ _ (i_cpus _ _ _ _ _ HI me c Hc)) as HS. rewrite Hsw in HS.
  destruct HS as (_ & _ & _ & (t & kt & Ht & Hkt & Hsp)).
  assert (Hto : t <> o) by (intros ->; by apply (leaving_not_current _ _ _ _ _ me c o r f me c HI Hc Hsw Hc)).
  unfold scheduler_context_switch_saved. rewrite Hc. cbn [mbind option_bind]. rewrite Hsw.
  destruct frame_spec as (th & s2 & E1 & S1 & Q1 & L2 & K2 & E2).
  destruct (modify s o _) as [s1|]; [|done]. cbn [mbind option_bind] in E1 |- *.
  destruct (get s1 o) as [th1|]; [|done]. cbn [mbind option_bind] in E1 |- *.
  destruct (modify s1 o _) as [s1'|]; [|done]. cbn [mbind option_bind] in E1 |- *. injection E1 as -> ->.
  destruct (publish_spec th s2 S1 Q1 L2 K2 E2) as (s3 & qs' & k2 & -> & L3 & K3 & (_ & _ & C3 & N3) & HR).
  cbn [mbind option_bind]. rewrite Ht.
  destruct (cores_get_core s3 t kt) as (tht & Gt & Ct); [by rewrite K3, lookup_insert_ne|].
  rewrite (modify_get s3 t _ tht Gt). cbn [mbind option_bind].
  assert (Hsp' : (saved_stack_pointer tht =? r) = true) by (apply Z.eqb_eq; rewrite <- Hsp, <- Ct; done).
  rewrite Hsp'. eexists _, t, kt, qs', k2. split; [reflexivity|]. split; [done|]. split; [done|]. split; [done|].
  split; [eapply linked_ext, (linked_put s3 qs' sl t tht (set_saved_context_valid false tht)); try done; by intros []|].
  split; [|split; [|split; [exact N3|exact HR]]].
  - change (cores (modify_cpu ?x me _)) with (cores x). by rewrite cores_put, K3, <- Ct.
  - cbn [cpus modify_cpu set_cpus]. change (cpus (put s3 t _)) with (cpus s3). rewrite C3.
    by rewrite (alter_insert_cpu _ me c).
Qed.

Lemma finish_undisturbed s6 t kt k2 k5 :
  current_thread c = Some t -> cores s !! t = Some kt -> t <> o ->
  cores s6 = <[o := core (set_context_switch_pending false k2)]> k5 ->
  k5 = <[t := core (set_saved_context_valid false kt)]> (<[o := k2]> (cores s)) ->
  (queued ko = true -> waiting k2 = waiting ko) -> undisturbed (cores s) (cores s6).
Proof using All.
  intros Ht Hkt Hto -> -> Hw x k k' Hx. destruct (decide (o = x)) as [<-|Ho].
  - rewrite lookup_insert_eq. intros [= <-]. rewrite Hko in Hx. injection Hx as <-. intros H _. by apply Hw.
  - rewrite lookup_insert_ne by done. destruct (decide (t = x)) as [<-|Hne].
    + rewrite lookup_insert_eq. intros [= <-]. rewrite Hkt in Hx. by injection Hx as <-.
    + rewrite !lookup_insert_ne by done. congruence.
Qed.

Lemma finish_good : exists s', finish_switch me s rsp = Some s' /\ good s' /\ undisturbed (cores s) (cores s').
Proof using All.
  destruct saved_spec as (s5 & t & kt & qs' & k2 & E5 & Ht & Hkt & Hto & L5 & K5 & C5 & N5 & M & F & Fr & Sk & Rk & Wk & Ik).
  pose proof (c_switching _ _ _ (i_cpus _ _ _ _ _ HI me c Hc)) as HS. rewrite Hsw in HS. destruct HS as (_ & Hfl & _ & _).
  assert (Hlen : (me < length (cpus s))%nat) by (by eapply lookup_lt_Some).
  unfold finish_switch. rewrite E5. cbn [mbind option_bind]. unfold scheduler_context_switch_complete.
  rewrite C5, list_lookup_insert_eq by done. cbn [mbind option_bind switching set_switching].
  assert (Ho5 : cores s5 !! o = Some k2) by (by rewrite K5, lookup_insert_ne, lookup_insert_eq).
  destruct (modify_core s5 o (set_context_switch_pending false) k2 Ho5) as (tho & _ & _ & -> & L6 & K6); [done|done|].
  cbn [mbind option_bind]. eexists. split; [reflexivity|].
  split; [|change (cores (modify_cpu ?x me _)) with (cores x); by eapply (finish_undisturbed _ t kt k2)].
  exists qs', sl.
  split; [eapply linked_ext, (L6 _ _ L5); [done|by intros []|done]|].
  change (cores (modify_cpu ?x me _)) with (cores x). rewrite K6, K5.
  cbn [cpus modify_cpu set_cpus cpu_count]. change (cpus (put s5 o _)) with (cpus s5).
  change (cpu_count (put s5 o _)) with (cpu_count s5). rewrite N5, C5.
  rewrite (alter_insert_cpu _ me (set_switching (Completing o) (set_context_switching false c))) by (by apply list_lookup_insert_eq).
  rewrite list_insert_insert_eq.
  replace (<[o := core (set_context_switch_pending false k2)]> (<[t := core (set_saved_context_valid false kt)]> (<[o := k2]> (cores s))))
    with (<[t := core (set_saved_context_valid false kt)]> (<[o := core (set_context_switch_pending false k2)]> (cores s))).
  2: { apply map_eq. intros x. destruct (decide (t = x)) as [<-|Hx]; [by rewrite lookup_insert_eq, lookup_insert_ne, lookup_insert_eq|].
       rewrite (lookup_insert_ne _ t) by done. destruct (decide (o = x)) as [<-|Hy]; [by rewrite !lookup_insert_eq|].
       by rewrite !lookup_insert_ne. }
  apply cores_lookup in Hkt as Hkt'. destruct Hkt' as (tht & _ & ->).
  unfold frame in Fr. injection Fr as F1 F2 F3 F4 F5 F6. destruct Hrsp as [Hr0 Hrb].
  eapply (saved_inv (cores s) qs qs' sl (cpus s) (cpu_count s) me c _ o t r f ko (core tht)
    (core (set_context_switch_pending false k2)) (core (set_saved_context_valid false (core tht)))); try done.
  - destruct F. by split.
  - split; [|split; [|split]].
    + left. split; [cbn; congruence|]. revert Hrb. unfold saved_stack_bounds. cbn. rewrite F1, F2, F4. done.
    + cbn. congruence.
    + cbn. rewrite F5. done.
    + cbn. rewrite F6. done.
  - unfold role. cbn. by rewrite Ht.
Qed.

End Finish.

(** * Waking *)

Lemma wake_priority k : thread_priority_state_valid (wake_fields k) = true.
Proof. unfold thread_priority_state_valid, wake_fields. cbn. by destruct (base_priority k). Qed.

(** A blocked thread is no CPU's current or idle thread. *)
Lemma blocked_free K qs sl cs n t k i c :
  inv K qs sl cs n -> K !! t = Some k -> state k = THREAD_STATE_BLOCKED -> cs !! i = Some c ->
  current_thread c <> Some t /\ idle_thread c <> Some t.
Proof.
  intros HI Hk Hs Hc. split; intros H.
  - destruct (c_current _ _ _ (i_cpus _ _ _ _ _ HI i c Hc) t H) as (k' & Hk' & S' & _). congruence.
  - destruct (t_idle _ _ _ _ _ (i_threads _ _ _ _ _ HI t k Hk) i c Hc H) as (_ & _ & _ & _ & [[? _]|[? _]]); congruence.
Qed.

(** Fields that waking does not change. *)
Definition same_sleeper (k k1 : kernel_thread) : Prop :=
  frame k1 = frame k /\ state k1 = state k /\ running_cpu k1 = running_cpu k /\ queued k1 = queued k /\
  context_switch_pending k1 = context_switch_pending k /\ base_priority k1 = base_priority k /\
  effective_priority k1 = effective_priority k /\ wakeup_boosted k1 = wakeup_boosted k.

Lemma sleeping_remove_good s qs sl t k :
  linked s qs sl -> inv (cores s) qs sl (cpus s) (cpu_count s) -> cores s !! t = Some k ->
  queued k = false ->
  exists s1 sl1 k1, sleeping_remove s t = Some s1 /\ linked s1 qs sl1 /\
    cores s1 = <[t := k1]> (cores s) /\ same_env s s1 /\ (t ∉ everyone qs sl1) /\
    same_members qs qs sl sl1 t /\ same_sleeper k k1 /\ sleeping k1 = false.
Proof.
  intros HL HI Hk Hq. pose proof (t_fits _ _ _ _ _ (i_threads _ _ _ _ _ HI t k Hk)) as HF.
  assert (Hnq : forall p, t ∉ qs p) by (intros p Hp; destruct (f_ready _ _ _ _ HF p Hp); congruence).
  destruct (cores_lookup s t k Hk) as (th & Gt & ->). destruct (sleeping th) eqn:Es.
  - pose proof (f_sleeping _ _ _ _ HF Es) as Hin. apply list_elem_of_split in Hin as (l1 & l2 & ->).
    destruct (sleeping_remove_spec s t th l1 l2 qs HL Gt Es) as (s1 & E1 & L1 & K1 & E & _ & _).
    exists s1, (l1 ++ l2), (core (set_wakeup_tick 0 (set_sleeping false th))).
    split; [done|]. split; [done|]. split; [done|]. split; [done|]. split; [|split; [apply same_members_awake|done]].
    intros [[p Hp]|Hp]%elem_everyone; [by destruct (Hnq p)|].
    pose proof (l_nodup _ _ _ HL) as Hn. rewrite everyone_sleepers in Hn. apply NoDup_cons in Hn as [Hn _].
    by apply Hn, sleeper_in_everyone.
  - exists s, sl, (core th). unfold sleeping_remove. rewrite Gt. cbn [mbind option_bind]. rewrite Es.
    split; [done|]. split; [done|]. split; [by rewrite insert_id|]. split; [done|]. split; [|split; [done|done]].
    intros [[p Hp]|Hp]%elem_everyone; [by destruct (Hnq p)|].
    destruct (f_sleep _ _ _ _ HF Hp) as (_ & _ & H & _). cbn in H. congruence.
Qed.

(** The invariant after a blocked thread has become ready and queued. *)
Lemma woken_inv K qs sl cs n t k k1 qs' sl1 :
  inv K qs sl cs n -> K !! t = Some k -> state k = THREAD_STATE_BLOCKED -> same_sleeper k k1 ->
  same_members qs qs' sl sl1 t ->
  let kf := core (set_queued true (set_ready_wait_ticks 0 (core (wake_fields k1)))) in
  fits qs' sl1 t kf -> inv (<[t := kf]> K) qs' sl1 cs n.
Proof.
  intros HI Hk Hs (S1 & S2 & S3 & S4 & S5 & _) HM kf HF.
  unfold frame in S1. injection S1 as F1 F2 F3 F4 F5 F6.
  assert (Hfree : forall i d, cs !! i = Some d -> current_thread d <> Some t /\ idle_thread d <> Some t)
    by (intros i d Hd; by eapply blocked_free).
  eapply (inv_insert K qs sl); [done|done| | |].
  - pose proof (i_threads _ _ _ _ _ HI t k Hk) as [T1 T2 T3 T4 T5 T6 T7 T8 T9]. split; try done.
    + intros i d Hd Hi. by destruct (Hfree i d Hd).
    + unfold stack_ok, saved_stack_bounds. cbn. rewrite F1, F2, F3, F4, F6. exact T5.
    + cbn. rewrite F4, F5, F6. exact T6.
    + cbn. rewrite F6. intros _ Hn. apply T7; [by right|done].
    + cbn. rewrite S5. exact T9.
  - intros i d Hd Hi. by destruct (Hfree i d Hd).
  - intros i Hi. destruct (saving_leaving K qs sl cs n i t HI Hi) as (k' & Hk' & [A1 A2 A3 A4]). same_thread.
    split; cbn; [congruence|congruence|done|by right].
Qed.

Lemma wake_spec s me c K qs sl sl1 n t k k1 :
  inv K qs sl (cpus s) n -> cpus s !! me = Some c -> K !! t = Some k -> state k = THREAD_STATE_BLOCKED ->
  queued k = false -> linked s qs sl1 -> cores s = <[t := k1]> K -> cpu_count s = n ->
  t ∉ everyone qs sl1 -> same_members qs qs sl sl1 t -> same_sleeper k k1 -> sleeping k1 = false ->
  exists s1 s2 qs', modify s t wake_fields = Some s1 /\ scheduler_enqueue_locked me s1 t = Some (true, s2) /\
    linked s2 qs' sl1 /\ same_env s s2 /\
    cores s2 = <[t := core (set_queued true (set_ready_wait_ticks 0 (core (wake_fields k1))))]> K /\
    inv (cores s2) qs' sl1 (cpus s2) (cpu_count s2).
Proof.
  intros HI Hc Hk Hs Hq HL HK HN Hnot HM HS Hsl. destruct HS as (S1 & S2 & S3 & S4 & S5 & S6 & S7 & S8).
  assert (Hk1 : cores s !! t = Some k1) by (by rewrite HK, lookup_insert_eq).
  destruct (modify_core s t wake_fields k1 Hk1) as (th & Gt & Ct & -> & L1 & K1); [done|done|].
  set (s1 := put s t (wake_fields th)) in *.
  assert (K1' : cores s1 = <[t := core (wake_fields k1)]> K) by (by rewrite K1, HK, insert_insert_eq).
  assert (Hfree : forall i d, cpus s !! i = Some d -> current_thread d <> Some t /\ idle_thread d <> Some t)
    by (intros i d Hd; by eapply blocked_free).
  destruct (enqueue_spec me s1 c qs sl1 t (wake_fields th)) as (s2 & E2 & L2 & K2 & E & O2 & _ & M2).
  - by apply L1.
  - rewrite K1'. change (cpus s1) with (cpus s).
    eapply lists_ok_insert; [by eapply inv_lists|done| |intros i d Hd Hi; by destruct (Hfree i d Hd)].
    apply fits_core, fits_unlisted; [exact Hnot|exact (eq_trans S4 Hq)|exact Hsl|exact (wake_priority k1)].
  - rewrite K1'. change (cpus s1) with (cpus s). apply cpus_valid_insert; [by eapply inv_valid|].
    intros i d Hd Hi. by destruct (Hfree i d Hd).
  - done.
  - apply get_put.
  - done.
  - apply (f_equal queued) in Ct. cbn in Ct |- *. congruence.
  - done.
  - apply (f_equal sleeping) in Ct. cbn in Ct |- *. congruence.
  - intros i d Hd. by destruct (Hfree i d Hd).
  - eexists s1, s2, _. split; [reflexivity|]. split; [exact E2|]. split; [exact L2|]. split; [done|].
    assert (Kf : core (set_queued true (set_ready_wait_ticks 0 (wake_fields th))) =
      core (set_queued true (set_ready_wait_ticks 0 (core (wake_fields k1))))) by (rewrite <- Ct; reflexivity).
    rewrite Kf, K1', insert_insert_eq in K2. split; [exact K2|].
    destruct E as (_ & _ & -> & ->). change (cpus s1) with (cpus s). change (cpu_count s1) with (cpu_count s).
    rewrite K2, HN. eapply (woken_inv K qs sl); try done; [eapply same_members_trans; [exact HM|exact M2]|].
    rewrite Kf, K1', insert_insert_eq in O2. eapply lists_ok_fits; [exact O2|apply lookup_insert_eq].
Qed.

End SchedulerOps.
