(* ===== verification/SchedulerTime.v ===== *)
(** Waking, aging and the timer: every operation returns in every good state
    and leaves a good state; sleepers wake when their time has come, and waiting
    threads are promoted when they have waited too long. *)
From stdpp Require Import gmap.
From S2P Require Import Prelude SchedState Scheduler SchedLinks SchedulerProofs SchedulerSteps SchedulerOps.
Import SchedState Scheduler SchedLinks SchedulerProofs SchedulerSteps SchedulerOps.

Module SchedulerTime.

(** * Waking one thread *)

Lemma blocked_unqueued qs sl t k :
  fits qs sl t k -> state k = THREAD_STATE_BLOCKED -> queued k = false.
Proof.
  intros HF Hs. destruct (queued k) eqn:E; [|done].
  destruct (f_ready _ _ _ _ HF _ (f_queued _ _ _ _ HF E)) as (_ & H & _). congruence.
Qed.

(** The priority a thread wakes with. *)
Definition woken_priority (k : kernel_thread) : thread_priority_t :=
  match base_priority k with
  | THREAD_PRIORITY_BACKGROUND => THREAD_PRIORITY_NORMAL
  | p => p
  end.

Lemma woken_waits k k1 : same_sleeper k k1 -> sleeping k1 = false ->
  waits (woken_priority k) (core (set_queued true (set_ready_wait_ticks 0 (core (wake_fields k1))))).
Proof.
  intros (_ & _ & _ & _ & _ & Hb & _) Hs. unfold waits, woken_priority. cbn. rewrite Hb, Hs.
  split; [done|]. split; [done|]. split; [by destruct (base_priority k)|done].
Qed.

Lemma unblock_good s me c t th :
  good s -> cpus s !! me = Some c -> get s t = Some th ->
  exists r s', scheduler_unblock me s t = Some (r, s') /\ good s' /\ undisturbed (cores s) (cores s') /\
    (forall i, role <$> cpus s' !! i = role <$> cpus s !! i) /\ r = is_state th THREAD_STATE_BLOCKED /\
    (r = true -> exists k, cores s' !! t = Some k /\ waits (woken_priority th) k).
Proof.
  intros (qs & sl & HL & HI) Hc Ht. unfold scheduler_unblock. rewrite Hc, Ht. cbn [mbind option_bind].
  pose proof (get_cores s t th Ht) as Hk. unfold is_state.
  destruct (decide (state th = THREAD_STATE_BLOCKED)) as [Hs|Hs].
  2: { rewrite (bool_decide_eq_false_2 (state th = _)) by done. cbn [negb]. rewrite orb_true_r. cbn [orb].
       exists false, s. split; [done|]. split; [by exists qs, sl|]. split; [apply undisturbed_refl|]. split; [done|done]. }
  pose proof (t_fits _ _ _ _ _ (i_threads _ _ _ _ _ HI t _ Hk)) as HF.
  pose proof (blocked_unqueued _ _ _ _ HF Hs) as Hq. cbn in Hq.
  destruct (blocked_free _ _ _ _ _ t _ me c HI Hk Hs Hc) as [_ Hni].
  unfold is_thread. rewrite (bool_decide_eq_false_2 (idle_thread c = _)), (bool_decide_eq_true_2 (state th = _)), Hq by done.
  cbn [orb negb].
  destruct (sleeping_remove_good s qs sl t (core th) HL HI Hk Hq) as (s1 & sl1 & k1 & -> & L1 & K1 & E1 & N1 & M1 & S1 & Z1).
  cbn [mbind option_bind]. pose proof E1 as (_ & _ & C1 & P1).
  destruct (wake_spec s1 me c (cores s) qs sl sl1 (cpu_count s) t (core th) k1)
    as (s2 & s3 & qs3 & -> & E3 & L3 & V3 & K3 & I3); try done; [by rewrite C1|by rewrite C1|].
  cbn [mbind option_bind]. rewrite E3. cbn [mbind option_bind negb]. eexists true, _. split; [reflexivity|].
  assert (G3 : good s3) by (by exists qs3, sl1).
  assert (HC : forall s', cores s' = cores s3 -> (forall i, role <$> cpus s' !! i = role <$> cpus s !! i) ->
    undisturbed (cores s) (cores s') /\ (forall i, role <$> cpus s' !! i = role <$> cpus s !! i) /\ true = true /\
    (true = true -> exists k, cores s' !! t = Some k /\ waits (woken_priority th) k)).
  { intros s' -> HR. rewrite K3. split; [|split; [done|split; [done|]]].
    - eapply undisturbed_insert; [exact Hk|]. intros Hx. cbn in Hx. congruence.
    - intros _. eexists. split; [apply lookup_insert_eq|]. by apply (woken_waits (core th)). }
  assert (C3 : cpus s3 = cpus s) by (destruct V3 as (_ & _ & V3 & _); congruence).
  destruct (bool_decide (current_thread c = idle_thread c)).
  - split; [apply good_cpu; [done|]; by apply good_stats|]. apply HC; [reflexivity|]. intros i. cbn. rewrite C3.
    destruct (decide (me = i)) as [<-|Hne]; [|by rewrite list_lookup_alter_ne]. by rewrite list_lookup_alter_eq, Hc.
  - split; [by apply good_stats|]. apply HC; [reflexivity|]. intros i. cbn. by rewrite C3.
Qed.

(** One sleeper, in the list [l1 ++ t :: l2]. *)
Lemma wake_sleeper_spec s me c qs l1 t l2 k :
  linked s qs (l1 ++ t :: l2) -> inv (cores s) qs (l1 ++ t :: l2) (cpus s) (cpu_count s) ->
  cpus s !! me = Some c -> cores s !! t = Some k ->
  exists s' qs' k', wake_sleeper me s t = Some (true, s') /\ linked s' qs' (l1 ++ l2) /\
    inv (cores s') qs' (l1 ++ l2) (cpus s') (cpu_count s') /\ same_env s s' /\
    cores s' = <[t := k']> (cores s) /\ waits (woken_priority k) k' /\ queued k = false.
Proof.
  intros HL HI Hc Hk. pose proof (t_fits _ _ _ _ _ (i_threads _ _ _ _ _ HI t k Hk)) as HF.
  assert (Hin : t ∈ l1 ++ t :: l2) by (apply elem_of_app; right; apply list_elem_of_here).
  destruct (f_sleep _ _ _ _ HF Hin) as (Hq & Hs & Hsl & _).
  destruct (cores_lookup s t k Hk) as (th & Gt & ->). unfold wake_sleeper.
  destruct (sleeping_remove_spec s t th l1 l2 qs HL Gt Hsl) as (s1 & -> & L1 & K1 & E1 & _ & _).
  cbn [mbind option_bind]. pose proof E1 as (EA & EB & C1 & P1).
  set (k1 := core (set_wakeup_tick 0 (set_sleeping false th))) in *.
  assert (N1 : t ∉ everyone qs (l1 ++ l2)).
  { pose proof (l_nodup _ _ _ HL) as Hn. rewrite everyone_sleepers in Hn. by apply NoDup_cons in Hn as [Hn _]. }
  set (s1' := count_stat less_sleeping s1).
  destruct (wake_spec s1' me c (cores s) qs (l1 ++ t :: l2) (l1 ++ l2) (cpu_count s) t (core th) k1)
    as (s2 & s3 & qs3 & -> & E3 & L3 & (VA & VB & VC & VD) & K3 & I3); try done.
  - change (cpus s1') with (cpus s1). by rewrite C1.
  - change (cpus s1') with (cpus s1). by rewrite C1.
  - eapply linked_ext, L1; [done|by intros []|done].
  - apply same_members_awake.
  - cbn [mbind option_bind]. rewrite E3. cbn [mbind option_bind]. eexists _, qs3, _. split; [reflexivity|].
    split; [eapply linked_ext, L3; [done|by intros []|done]|]. split; [exact I3|].
    split; [|split; [exact K3|split; [by apply (woken_waits (core th))|done]]].
    unfold same_env. cbn [next_thread_id scheduler_tick_count cpus cpu_count count_stat set_stats].
    rewrite VA, VB, VC, VD. done.
Qed.


(** * The sleepers *)

Definition due (K : gmap Z kernel_thread) (now t : Z) : bool :=
  match K !! t with Some k => wakeup_tick k <=? now | None => false end.

(** Of the threads [l], those that are due wait now; nothing else has changed. *)
Definition woken (K K' : gmap Z kernel_thread) (now : Z) (l : list Z) : Prop :=
  (forall t, t ∈ l -> due K now t = true ->
     exists k k', K !! t = Some k /\ K' !! t = Some k' /\ queued k = false /\ waits (woken_priority k) k') /\
  (forall t, (t ∉ l) \/ due K now t = false -> K' !! t = K !! t).

Lemma woken_nil K now : woken K K now [].
Proof. split; [by intros t Ht%elem_of_nil|done]. Qed.

Lemma due_insert K now t k x : x <> t -> due (<[t := k]> K) now x = due K now x.
Proof. intros H. unfold due. by rewrite lookup_insert_ne. Qed.

Lemma woken_cons_due K K' now t l k k' :
  K !! t = Some k -> queued k = false -> waits (woken_priority k) k' -> due K now t = true -> t ∉ l ->
  woken (<[t := k']> K) K' now l -> woken K K' now (t :: l).
Proof.
  intros Hk Hq Hw Hd Hn [H1 H2]. split.
  - intros x [->|Hx]%elem_of_cons Hdx.
    + exists k, k'. rewrite H2 by (by left). by rewrite lookup_insert_eq.
    + assert (x <> t) by congruence. destruct (H1 x Hx) as (kx & kx' & ? & ?); [by rewrite due_insert|].
      exists kx, kx'. by rewrite lookup_insert_ne in H0.
  - intros x Hx. destruct (decide (x = t)) as [->|Hne].
    + destruct Hx as [Hx|Hx]; [by destruct Hx; apply list_elem_of_here|congruence].
    + rewrite H2, lookup_insert_ne; [done|done|]. rewrite due_insert by done. rewrite elem_of_cons in Hx. tauto.
Qed.

Lemma woken_cons_later K K' now t l :
  due K now t = false -> woken K K' now l -> woken K K' now (t :: l).
Proof.
  intros Hd [H1 H2]. split.
  - intros x [->|Hx]%elem_of_cons Hdx; [congruence|by apply H1].
  - intros x Hx. apply H2. rewrite elem_of_cons in Hx. tauto.
Qed.

Section Sleepers.
Context (me : nat) (c : cpu_local).

Lemma wake_sleepers_spec : forall l2 l1 s qs fuel woke,
  linked s qs (l1 ++ l2) -> inv (cores s) qs (l1 ++ l2) (cpus s) (cpu_count s) -> cpus s !! me = Some c ->
  (length l2 <= fuel)%nat ->
  let now := scheduler_tick_count s in
  exists woke' s' qs', wake_sleepers fuel me s (hd_or l2 None) woke = Some (woke', s') /\
    let sl' := l1 ++ List.filter (fun t => negb (due (cores s) now t)) l2 in
    linked s' qs' sl' /\ inv (cores s') qs' sl' (cpus s') (cpu_count s') /\ same_env s s' /\
    woken (cores s) (cores s') now l2.
Proof.
  induction l2 as [|t l2 IH]; intros l1 s qs fuel woke HL HI Hc Hf now.
  { destruct fuel; cbn [hd_or wake_sleepers]; exists woke, s, qs; (split; [done|]); cbn zeta; cbn [List.filter];
      (split; [done|]; split; [done|]; split; [apply same_env_refl|apply woken_nil]). }
  destruct fuel as [|fuel]; [cbn in Hf; lia|]. cbn [hd_or wake_sleepers List.filter].
  destruct (in_threads s qs (l1 ++ t :: l2) t HL) as [th Gt];
    [apply sleeper_in_everyone, elem_of_app; right; apply list_elem_of_here|].
  pose proof (get_cores s t th Gt) as Hk. rewrite Gt. cbn [mbind option_bind].
  rewrite (sleeper_links s qs _ l1 t l2 th HL eq_refl Gt). fold now.
  assert (Hd : due (cores s) now t = (wakeup_tick th <=? now)) by (unfold due; by rewrite Hk).
  pose proof (l_nodup _ _ _ HL) as Hn. rewrite everyone_sleepers in Hn.
  apply NoDup_cons in Hn as [Hn _].
  assert (Hnt : t ∉ l2) by (intros H; apply Hn, sleeper_in_everyone, elem_of_app; by right).
  rewrite Hd. destruct (wakeup_tick th <=? now) eqn:Ed; cbn [negb mbind option_bind].
  - destruct (wake_sleeper_spec s me c qs l1 t l2 (core th) HL HI Hc Hk) as (s1 & qs1 & k' & -> & L1 & I1 & E1 & K1 & W1 & Q1).
    cbn [mbind option_bind]. pose proof E1 as (_ & Et & Ec & _).
    destruct (IH l1 s1 qs1 fuel (woke || true) L1 I1) as (woke' & s' & qs' & -> & L' & I' & E' & W');
      [by rewrite Ec|cbn in Hf; lia|]. exists woke', s', qs'. split; [done|].
    assert (Hfilt : List.filter (fun x => negb (due (cores s1) (scheduler_tick_count s1) x)) l2 =
                    List.filter (fun x => negb (due (cores s) now x)) l2).
    { apply filter_ext_in. intros x Hx%list_elem_of_In. rewrite K1, Et, due_insert; [done|congruence]. }
    rewrite Hfilt in L', I'. split; [done|]. split; [done|]. split; [by eapply same_env_trans|].
    rewrite Et, K1 in W'. eapply woken_cons_due; try done.
  - destruct (IH (l1 ++ [t]) s qs fuel (woke || false)) as (woke' & s' & qs' & -> & L' & I' & E' & W');
      [by rewrite <- app_assoc|by rewrite <- app_assoc|done|cbn in Hf; lia|]. exists woke', s', qs'.
    split; [done|]. rewrite <- app_assoc in L', I'. split; [done|]. split; [done|]. split; [done|].
    by apply woken_cons_later.
Qed.

End Sleepers.

(** * Aging *)

Definition bump (k : kernel_thread) : kernel_thread :=
  if ready_wait_ticks k =? U64_MAX then k else set_ready_wait_ticks (ready_wait_ticks k + 1) k.

(** The level a waiting thread is promoted to at this tick, if it is. *)
Definition next_level (k : kernel_thread) : option thread_priority_t :=
  match base_priority k, effective_priority k with
  | THREAD_PRIORITY_BACKGROUND, THREAD_PRIORITY_BACKGROUND =>
      if BACKGROUND_STARVATION_THRESHOLD <=? ready_wait_ticks k then Some THREAD_PRIORITY_NORMAL else None
  | THREAD_PRIORITY_BACKGROUND, THREAD_PRIORITY_NORMAL =>
      if (if wakeup_boosted k then BACKGROUND_STARVATION_THRESHOLD else BACKGROUND_HIGH_RESCUE_THRESHOLD)
         <=? ready_wait_ticks k then Some THREAD_PRIORITY_HIGH else None
  | THREAD_PRIORITY_NORMAL, THREAD_PRIORITY_NORMAL =>
      if NORMAL_STARVATION_THRESHOLD <=? ready_wait_ticks k then Some THREAD_PRIORITY_HIGH else None
  | _, _ => None
  end.

Definition aged (k : kernel_thread) : kernel_thread :=
  let k := bump k in
  match next_level k with
  | Some p => set_ready_wait_ticks 0 (set_wakeup_boosted false (set_effective_priority p k))
  | None => k
  end.

Lemma next_level_lower k p : next_level k = Some p -> level p < level (effective_priority k).
Proof.
  unfold next_level. destruct (base_priority k), (effective_priority k); try done;
    (destruct (_ <=? _); [|done]); intros [= <-]; cbn; lia.
Qed.

(** A thread that waits changes its place or its fields, and waits on. *)
Lemma inv_waiting K qs sl cs n t k k' qs' :
  inv K qs sl cs n -> K !! t = Some k -> queued k = true -> same_members qs qs' sl sl t ->
  frame k' = frame k -> queued k' = true -> context_switch_pending k' = context_switch_pending k ->
  fits qs' sl t k' -> inv (<[t := k']> K) qs' sl cs n.
Proof.
  intros HI Hk Hq HM Hf Hq' Hp HF. pose proof (i_threads _ _ _ _ _ HI t k Hk) as [T1 T2 T3 T4 T5 T6 T7 T8 T9].
  destruct (f_ready _ _ _ _ T1 _ (f_queued _ _ _ _ T1 Hq)) as (_ & Hs & _ & _ & Hr).
  destruct (f_ready _ _ _ _ HF _ (f_queued _ _ _ _ HF Hq')) as (_ & Hs' & _ & _ & Hr').
  pose proof (frame_stack k k' Hf T5) as T5'. unfold frame in Hf. injection Hf as F1 F2 F3 F4 F5 F6.
  eapply (inv_insert K qs sl); [done|done| | |].
  - split; try done.
    + intros i d Hd Hi. destruct (T2 i d Hd Hi) as (? & _). congruence.
    + congruence.
    + congruence.
    + rewrite F4, F5, F6. exact T6.
    + rewrite F6. intros _ Hn. apply T7; [by left|done].
    + congruence.
    + rewrite Hp. exact T9.
  - intros i d Hd Hi. destruct (c_current _ _ _ (i_cpus _ _ _ _ _ HI i d Hd) t Hi) as (k1 & Hk1 & S1 & _). congruence.
  - intros i Hi. destruct (saving_leaving K qs sl cs n i t HI Hi) as (k1 & Hk1 & [A1 A2 A3 A4]). same_thread.
    split; [congruence|congruence|congruence|by right].
Qed.

(** The pure effect of moving [t] from the queue [p] to the end of [p']. *)
Definition requeued (qs : queues) (p p' : thread_priority_t) (l1 l2 : list Z) (t : Z) : queues :=
  let qs1 := upd qs p (l1 ++ l2) in upd qs1 p' (qs1 p' ++ [t]).

Lemma split_unique (t : Z) : forall l1 l2 l1' l2', NoDup (l1 ++ t :: l2) ->
  l1 ++ t :: l2 = l1' ++ t :: l2' -> l1 = l1' /\ l2 = l2'.
Proof.
  induction l1 as [|x l1 IH]; intros l2 [|y l1'] l2' Hn He; cbn in He; simplify_eq; [done| | |].
  - apply NoDup_cons in Hn as [Hn _]. destruct Hn. apply elem_of_app. right. apply list_elem_of_here.
  - apply NoDup_cons in Hn as [Hn _]. destruct Hn. apply elem_of_app. right. apply list_elem_of_here.
  - apply NoDup_cons in Hn as [_ Hn]. match goal with H : _ ++ _ = _ |- _ => by destruct (IH l2 l1' l2' Hn H) as [-> ->] end.
Qed.

Section Requeue.
Context (s : sched) (me : nat) (c : cpu_local) (qs : queues) (sl l1 l2 : list Z) (t : Z)
  (k : kernel_thread) (p p' : thread_priority_t) (f : kernel_thread -> kernel_thread).
Hypothesis HL : linked s qs sl.
Hypothesis HI : inv (cores s) qs sl (cpus s) (cpu_count s).
Hypothesis Hc : cpus s !! me = Some c.
Hypothesis Hp : qs p = l1 ++ t :: l2.
Hypothesis Hk : cores s !! t = Some k.
Hypothesis Hf : f = (fun th => th) \/ f = set_wakeup_boosted false.
Let k' := set_ready_wait_ticks 0 (f (set_effective_priority p' k)).
Hypothesis Hv : thread_priority_state_valid k' = true.

Lemma requeue_waits : waits p k.
Proof using All.
  apply (f_ready _ _ _ _ (t_fits _ _ _ _ _ (i_threads _ _ _ _ _ HI t k Hk))). rewrite Hp.
  apply elem_of_app. right. apply list_elem_of_here.
Qed.

(** The fields that promotion leaves alone. *)
Lemma promoted_fields g : g = (fun th => set_ready_wait_ticks 0 (f (set_effective_priority p' th))) ->
  forall th, (previous (g th) = previous th /\ next (g th) = next th) /\ core (g th) = core (g (core th)) /\
    frame (g th) = frame th /\ state (g th) = state th /\ queued (g th) = queued th /\
    running_cpu (g th) = running_cpu th /\ sleeping (g th) = sleeping th /\
    effective_priority (g th) = p' /\ context_switch_pending (g th) = context_switch_pending th.
Proof using All. intros -> th. destruct Hf as [-> | ->]; done. Qed.

Lemma promoted_core th :
  let g := fun th => set_ready_wait_ticks 0 (f (set_effective_priority p' th)) in
  core (set_queued true (set_ready_wait_ticks 0 (g th))) =
  core (set_queued true (set_ready_wait_ticks 0 (g (core th)))).
Proof using All. destruct Hf as [-> | ->]; done. Qed.

Lemma promoted_queued th :
  let g := fun th => set_ready_wait_ticks 0 (f (set_effective_priority p' th)) in
  core (set_queued true (set_ready_wait_ticks 0 (g (core (set_queued false th))))) =
  core (set_queued true (g (core th))).
Proof using All. destruct Hf as [-> | ->]; done. Qed.

Lemma promoted_valid th :
  let g := fun th => set_ready_wait_ticks 0 (f (set_effective_priority p' th)) in
  thread_priority_state_valid (g (core (set_queued false th))) = thread_priority_state_valid (g (core th)).
Proof using All. destruct Hf as [-> | ->]; done. Qed.

Lemma requeue_spec : exists s', requeue_at me s t p' f = Some s' /\
  linked s' (requeued qs p p' l1 l2 t) sl /\
  cores s' = <[t := core (set_queued true k')]> (cores s) /\ same_env s s' /\
  inv (cores s') (requeued qs p p' l1 l2 t) sl (cpus s') (cpu_count s').
Proof using All.
  destruct requeue_waits as (W1 & W2 & W3 & W4 & W5). pose proof Hv as Hv'. unfold k' in Hv'.
  destruct (cores_lookup s t k Hk) as (th & Gt & Eth). unfold requeue_at. rewrite Gt. cbn [mbind option_bind].
  pose proof (inv_lists _ _ _ _ _ HI) as HO. pose proof (inv_valid _ _ _ _ _ HI) as HV.
  destruct (dequeue_spec s qs sl t th HL HO HV Gt) as
    (s1 & a1 & a2 & -> & Hp1 & L1 & K1 & (A1 & A2 & A3 & A4) & O1 & V1 & M1 & N1 & _); [by rewrite Eth in W1|].
  assert (He : effective_priority th = p) by (by rewrite Eth in W3). rewrite He in *.
  destruct (split_unique t l1 l2 a1 a2) as [<- <-];
    [rewrite <- Hp; eapply queue_nodup; by apply (l_nodup _ _ _ HL)|congruence|].
  cbn [mbind option_bind]. set (qs1 := upd qs p (l1 ++ l2)) in *.
  pose proof (promoted_fields _ eq_refl) as PG.
  set (g := fun th => set_ready_wait_ticks 0 (f (set_effective_priority p' th))) in *.
  assert (C1 : cores s1 !! t = Some (core (set_queued false th))) by (by rewrite K1, lookup_insert_eq).
  destruct (modify_core s1 t g _ C1) as (th1 & G1 & Cth1 & -> & L2 & K2); [intros x; by destruct (PG x)|intros x; by destruct (PG x) as (_ & ? & _)|].
  cbn [mbind option_bind]. destruct (PG th1) as (_ & _ & F1 & F2 & F3 & F4 & F5 & F6 & F7).
  assert (T1 : state th1 = THREAD_STATE_READY /\ queued th1 = false /\ running_cpu th1 = None /\ sleeping th1 = false).
  { rewrite Eth in W2, W4, W5. pose proof (f_equal state Cth1). pose proof (f_equal queued Cth1).
    pose proof (f_equal running_cpu Cth1). pose proof (f_equal sleeping Cth1). cbn in *. repeat split; congruence. }
  destruct T1 as (T1 & T2 & T3 & T4).
  assert (Hni : forall i d, cpus s !! i = Some d -> idle_thread d <> Some t).
  { intros i d Hd Hi. destruct (t_idle _ _ _ _ _ (i_threads _ _ _ _ _ HI t k Hk) i d Hd Hi) as (? & _). congruence. }
  destruct (enqueue_spec me (put s1 t (g th1)) c qs1 sl t (g th1)) as (s2 & -> & L3 & K3 & E3 & O3 & _ & M3).
  - by apply L2.
  - rewrite K2, K1, insert_insert_eq. change (cpus (put s1 t _)) with (cpus s1). rewrite A3.
    eapply (lists_ok_insert (cores s) qs sl); [done|done| |intros i d Hd Hi; by destruct (Hni i d Hd)].
    apply fits_core, fits_unlisted; [done| | |].
    + destruct (PG (core (set_queued false th))) as (_ & _ & _ & _ & -> & _). done.
    + destruct (PG (core (set_queued false th))) as (_ & _ & _ & _ & _ & _ & -> & _). rewrite Eth in W4. exact W4.
    + rewrite Eth in Hv'. exact (eq_trans (promoted_valid th) Hv').
  - rewrite K2, K1, insert_insert_eq. change (cpus (put s1 t _)) with (cpus s1). rewrite A3.
    apply cpus_valid_insert; [done|]. intros i d Hd Hi.
    destruct (cv_current _ _ _ (HV i d Hd) t Hi) as (k1 & Hk1 & Hq1 & _). congruence.
  - change (cpus (put s1 t _)) with (cpus s1). by rewrite A3.
  - apply get_put.
  - congruence.
  - congruence.
  - congruence.
  - congruence.
  - change (cpus (put s1 t _)) with (cpus s1). rewrite A3. exact Hni.
  - cbn [mbind option_bind negb]. exists s2. split; [done|]. rewrite F6 in *.
    assert (Hkf : core (set_queued true (set_ready_wait_ticks 0 (g th1))) = core (set_queued true k')).
    { transitivity (core (set_queued true (set_ready_wait_ticks 0 (g (core th1))))); [exact (promoted_core th1)|].
      rewrite Cth1. unfold k'. rewrite Eth. exact (promoted_queued th). }
    rewrite Hkf, K2, K1, !insert_insert_eq in K3.
    split; [exact L3|]. split; [exact K3|]. split; [exact (same_env_trans s (put s1 t (g th1)) s2 (conj A1 (conj A2 (conj A3 A4))) E3)|].
    destruct E3 as (_ & _ & -> & ->). change (cpus (put s1 t _)) with (cpus s1). change (cpu_count (put s1 t _)) with (cpu_count s1).
    rewrite A3, A4, K3. rewrite Hkf, K2, K1, !insert_insert_eq in O3.
    eapply inv_waiting; [exact HI|exact Hk|done|eapply same_members_trans; [exact M1|exact M3]| |done| |].
    + rewrite frame_core. by destruct (PG k) as (_ & _ & ? & _).
    + by destruct (PG k) as (_ & _ & _ & _ & _ & _ & _ & _ & ?).
    + eapply lists_ok_fits; [exact O3|apply lookup_insert_eq].
Qed.

End Requeue.

(** The queues after a walk over [p] has reached [t]. *)
Definition moved (qs : queues) (p : thread_priority_t) (l1 l2 : list Z) (t : Z)
    (r : option thread_priority_t) : queues :=
  match r with Some p' => requeued qs p p' l1 l2 t | None => qs end.

(** The tests of [age_thread] on a thread that waits below the highest level. *)
Lemma age_thread_code me s t k th :
  get s t = Some th -> k = bump th -> thread_priority_state_valid k = true ->
  effective_priority k <> THREAD_PRIORITY_HIGH ->
  age_thread me s t =
    match next_level k with
    | None => Some (false, put s t k)
    | Some p => s ← requeue_at me (put s t k) t p
                  (if bool_decide (effective_priority k = base_priority k) then fun th => th
                   else set_wakeup_boosted false); Some (true, s)
    end.
Proof.
  intros Ht -> Hv He. unfold age_thread. rewrite (modify_get s t _ th Ht). cbn [mbind option_bind].
  fold (bump th). rewrite get_put. cbn [mbind option_bind]. unfold next_level.
  revert Hv He. unfold thread_priority_state_valid. unfold BACKGROUND_HIGH_RESCUE_THRESHOLD.
  destruct (wakeup_boosted (bump th)), (BACKGROUND_STARVATION_THRESHOLD <=? ready_wait_ticks (bump th)),
    (NORMAL_STARVATION_THRESHOLD <=? ready_wait_ticks (bump th)),
    (base_priority (bump th)), (effective_priority (bump th)); done.
Qed.

Lemma bump_fields th : previous (bump th) = previous th /\ next (bump th) = next th /\
  core (bump th) = core (bump (core th)) /\ frame (bump th) = frame th /\ state (bump th) = state th /\
  queued (bump th) = queued th /\ running_cpu (bump th) = running_cpu th /\ sleeping (bump th) = sleeping th /\
  effective_priority (bump th) = effective_priority th /\ base_priority (bump th) = base_priority th /\
  wakeup_boosted (bump th) = wakeup_boosted th /\ context_switch_pending (bump th) = context_switch_pending th /\
  thread_priority_state_valid (bump th) = thread_priority_state_valid th.
Proof. unfold bump. cbn. by destruct (_ =? _). Qed.

Lemma bump_keeps : keeps bump.
Proof. intros th. pose proof (bump_fields th). tauto. Qed.

Lemma next_level_core k : next_level (core k) = next_level k.
Proof. done. Qed.

(** Promotion keeps the priorities valid. *)
Lemma next_level_valid k p g :
  next_level k = Some p -> thread_priority_state_valid k = true ->
  g = (if bool_decide (effective_priority k = base_priority k) then fun th => th else set_wakeup_boosted false) ->
  set_ready_wait_ticks 0 (g (set_effective_priority p k)) =
    set_ready_wait_ticks 0 (set_wakeup_boosted false (set_effective_priority p k)) /\
  thread_priority_state_valid (set_ready_wait_ticks 0 (g (set_effective_priority p k))) = true.
Proof.
  unfold next_level. intros Hn Hv ->.
  assert (Hb : effective_priority k = base_priority k -> set_wakeup_boosted false (set_effective_priority p k) = set_effective_priority p k).
  { intros He. assert (Hw : wakeup_boosted k = false).
    { revert Hv. unfold thread_priority_state_valid. rewrite He.
      by destruct (wakeup_boosted k), (base_priority k). }
    unfold set_wakeup_boosted, set_effective_priority. cbn. by rewrite Hw. }
  split.
  - destruct (bool_decide (effective_priority k = base_priority k)) eqn:E; [|done].
    apply bool_decide_eq_true in E. by rewrite Hb.
  - assert (Hg : thread_priority_state_valid (set_ready_wait_ticks 0 (set_wakeup_boosted false (set_effective_priority p k))) = true).
    { unfold thread_priority_state_valid. cbn. rewrite andb_true_r.
      revert Hn. destruct (base_priority k), (effective_priority k); try done;
        (destruct (_ <=? _); [|done]); by intros [= <-]. }
    destruct (bool_decide (effective_priority k = base_priority k)) eqn:E; [|done].
    apply bool_decide_eq_true in E. by rewrite Hb in Hg.
Qed.

Lemma set_queued_id k : queued k = true -> set_queued true k = k.
Proof. destruct k. cbn. by intros ->. Qed.

Section Age.
Context (me : nat) (c : cpu_local) (p : thread_priority_t).
Hypothesis Hlow : p <> THREAD_PRIORITY_HIGH.

Lemma age_thread_spec s qs sl l1 t l2 k :
  linked s qs sl -> inv (cores s) qs sl (cpus s) (cpu_count s) -> cpus s !! me = Some c ->
  qs p = l1 ++ t :: l2 -> cores s !! t = Some k ->
  let qs' := moved qs p l1 l2 t (next_level (bump k)) in
  exists up s', age_thread me s t = Some (up, s') /\ linked s' qs' sl /\
    inv (cores s') qs' sl (cpus s') (cpu_count s') /\ same_env s s' /\
    cores s' = <[t := core (aged k)]> (cores s).
Proof using Hlow.
  intros HL HI Hc Hp Hk qs'. destruct (cores_lookup s t k Hk) as (th & Gt & Eth).
  assert (Hin : t ∈ qs p) by (rewrite Hp; apply elem_of_app; right; apply list_elem_of_here).
  pose proof (t_fits _ _ _ _ _ (i_threads _ _ _ _ _ HI t k Hk)) as HF.
  destruct (f_ready _ _ _ _ HF p Hin) as (W1 & W2 & W3 & W4 & W5). pose proof (f_prio _ _ _ _ HF) as W6.
  rewrite Eth in W1, W2, W3, W6. change (effective_priority th = p) in W3.
  destruct (bump_fields th) as (B1 & B2 & B3 & B4 & B5 & B6 & B7 & B8 & B9 & B10 & B11 & B12 & B13).
  assert (HV : thread_priority_state_valid (bump th) = true) by (rewrite B13; exact W6).
  rewrite (age_thread_code me s t (bump th) th Gt eq_refl HV) by (rewrite B9; congruence).
  assert (Hnl : next_level (bump k) = next_level (bump th)).
  { rewrite <- (next_level_core (bump th)), Eth, B3. by rewrite next_level_core. }
  assert (HG1 : linked (put s t (bump th)) qs sl) by (by eapply linked_put).
  assert (HK1 : cores (put s t (bump th)) = <[t := core (bump th)]> (cores s)) by apply cores_put.
  assert (HI1 : inv (cores (put s t (bump th))) qs sl (cpus s) (cpu_count s)).
  { rewrite HK1. rewrite Eth in Hk. eapply inv_same; try done. }
  unfold qs', aged. cbv zeta. rewrite Hnl. destruct (next_level (bump th)) as [p'|] eqn:En.
  - cbn [moved]. set (f := if bool_decide _ then _ else _).
    destruct (next_level_valid (core (bump th)) p' f En HV eq_refl) as [He2 Hv2].
    destruct (requeue_spec (put s t (bump th)) me c qs sl l1 l2 t (core (bump th)) p p' f) as (s' & -> & L' & K' & E' & I'); try done.
    + by rewrite HK1, lookup_insert_eq.
    + unfold f. destruct (bool_decide _); [by left|by right].
    + cbn [mbind option_bind]. exists true, s'. split; [done|]. split; [exact L'|]. split; [exact I'|].
      split; [exact (same_env_trans s _ s' (same_env_refl s) E')|].
      rewrite K', HK1, insert_insert_eq, He2, B3, <- Eth, set_queued_id; [done|].
      rewrite <- Eth in W1. destruct (bump_fields k) as (_ & _ & _ & _ & _ & B6' & _). exact (eq_trans B6' W1).
  - cbn [moved]. exists false, (put s t (bump th)). split; [done|]. split; [done|]. split; [done|]. split; [done|].
    by rewrite HK1, B3, <- Eth.
Qed.

Lemma moved_here qs l1 t l2 k p' : qs p = l1 ++ t :: l2 -> effective_priority k = p ->
  level p <= level p' ->
  moved qs p l1 l2 t (next_level (bump k)) p' =
    if decide (p' = p) then match next_level (bump k) with None => l1 ++ t :: l2 | Some _ => l1 ++ l2 end
    else qs p'.
Proof.
  intros Hp He Hle. destruct (next_level (bump k)) as [q|] eqn:En; cbn [moved].
  - apply next_level_lower in En. destruct (bump_fields k) as (_ & _ & _ & _ & _ & _ & _ & _ & B & _).
    rewrite B, He in En. unfold requeued. rewrite upd_ne; [|intros ->; lia]. unfold upd. by destruct (decide (p' = p)).
  - by destruct (decide (p' = p)) as [->|].
Qed.

(** The threads [l] have aged; nothing else has changed. *)
Definition all_aged (K K' : gmap Z kernel_thread) (l : list Z) : Prop :=
  (forall t, t ∈ l -> exists k, K !! t = Some k /\ K' !! t = Some (core (aged k))) /\
  (forall t, t ∉ l -> K' !! t = K !! t).

Lemma all_aged_cons K K' t l k : K !! t = Some k -> t ∉ l ->
  all_aged (<[t := core (aged k)]> K) K' l -> all_aged K K' (t :: l).
Proof.
  intros Hk Hn [H1 H2]. split.
  - intros x [->|Hx]%elem_of_cons.
    + exists k. split; [done|]. by rewrite H2, lookup_insert_eq.
    + destruct (H1 x Hx) as (kx & Hkx & Hkx'). exists kx. rewrite lookup_insert_ne in Hkx; [done|congruence].
  - intros x [Hx Hxl]%not_elem_of_cons. by rewrite H2, lookup_insert_ne.
Qed.

Lemma age_queue_spec sl : forall l2 l1 s qs fuel up,
  linked s qs sl -> inv (cores s) qs sl (cpus s) (cpu_count s) -> cpus s !! me = Some c ->
  qs p = l1 ++ l2 -> (length l2 <= fuel)%nat ->
  exists up' s' qs', age_queue fuel me s (hd_or l2 None) up = Some (up', s') /\ linked s' qs' sl /\
    inv (cores s') qs' sl (cpus s') (cpu_count s') /\ same_env s s' /\
    (forall p', level p < level p' -> qs' p' = qs p') /\ all_aged (cores s) (cores s') l2.
Proof using Hlow.
  induction l2 as [|t l2 IH]; intros l1 s qs fuel up HL HI Hc Hp Hf.
  { destruct fuel; cbn [hd_or age_queue]; exists up, s, qs; (split; [done|]; split; [done|]; split; [done|];
      split; [apply same_env_refl|]; split; [done|]; split; [by intros t Ht%elem_of_nil|done]). }
  destruct fuel as [|fuel]; [cbn in Hf; lia|]. cbn [hd_or age_queue].
  assert (Hin : t ∈ qs p) by (rewrite Hp; apply elem_of_app; right; apply list_elem_of_here).
  destruct (in_queue_get s qs sl p t HL Hin) as [th Gt]. rewrite Gt. cbn [mbind option_bind].
  destruct (queue_links s qs sl p l1 t l2 th HL Hp Gt) as [_ ->]. pose proof (get_cores s t th Gt) as Hk.
  destruct (f_ready _ _ _ _ (t_fits _ _ _ _ _ (i_threads _ _ _ _ _ HI t _ Hk)) p Hin) as (_ & _ & He & _).
  destruct (age_thread_spec s qs sl l1 t l2 (core th) HL HI Hc Hp Hk) as (b & s1 & -> & L1 & I1 & E1 & K1).
  cbn [mbind option_bind]. pose proof E1 as (_ & _ & C1 & _).
  pose proof (queue_nodup _ _ p (l_nodup _ _ _ HL)) as Hn. rewrite Hp in Hn.
  apply NoDup_app in Hn as (_ & _ & [Hn _]%NoDup_cons).
  pose proof (fun p' => moved_here qs l1 t l2 (core th) p' Hp He) as HM.
  assert (Hcont : exists l1', moved qs p l1 l2 t (next_level (bump (core th))) p = l1' ++ l2).
  { rewrite HM by lia. destruct (decide (p = p)); [|done]. destruct (next_level _); [by exists l1|].
    exists (l1 ++ [t]). by rewrite <- app_assoc. }
  destruct Hcont as [l1' Hp'].
  destruct (IH l1' s1 _ fuel (up || b) L1 I1) as (up' & s' & qs' & -> & L' & I' & E' & Q' & A');
    [by rewrite C1|done|cbn in Hf; lia|].
  exists up', s', qs'. split; [done|]. split; [done|]. split; [done|]. split; [by eapply same_env_trans|]. split.
  - intros p' Hlt. rewrite Q', HM by lia. destruct (decide (p' = p)) as [->|]; [lia|done].
  - rewrite K1 in A'. by eapply all_aged_cons.
Qed.

End Age.

Definition below (qs : queues) : list Z := qs THREAD_PRIORITY_NORMAL ++ qs THREAD_PRIORITY_BACKGROUND.

Lemma age_spec s me c qs sl :
  linked s qs sl -> inv (cores s) qs sl (cpus s) (cpu_count s) -> cpus s !! me = Some c ->
  exists up s' qs', scheduler_age_ready_threads_locked me s = Some (up, s') /\ linked s' qs' sl /\
    inv (cores s') qs' sl (cpus s') (cpu_count s') /\ same_env s s' /\
    all_aged (cores s) (cores s') (below qs).
Proof.
  intros HL HI Hc. unfold scheduler_age_ready_threads_locked.
  assert (Hsz : forall s qs p, linked s qs sl -> (length (qs p) <= size (threads s))%nat).
  { intros s0 qs0 p H0. apply length_threads; [eapply queue_nodup, l_nodup, H0|].
    intros x Hx. by eapply in_queue_get. }
  pose proof (l_queues _ _ _ HL THREAD_PRIORITY_NORMAL) as (Hh & _). cbn in Hh. rewrite Hh.
  destruct (age_queue_spec me c THREAD_PRIORITY_NORMAL ltac:(done) sl (qs THREAD_PRIORITY_NORMAL) [] s qs
    (size (threads s)) false HL HI Hc eq_refl) as (up1 & s1 & qs1 & -> & L1 & I1 & E1 & Q1 & A1); [by apply Hsz|].
  cbn [mbind option_bind]. pose proof (l_queues _ _ _ L1 THREAD_PRIORITY_BACKGROUND) as (Hh1 & _). cbn in Hh1. rewrite Hh1.
  pose proof E1 as (_ & _ & C1 & _).
  destruct (age_queue_spec me c THREAD_PRIORITY_BACKGROUND ltac:(done) sl (qs1 THREAD_PRIORITY_BACKGROUND) [] s1 qs1
    (size (threads s1)) up1 L1 I1) as (up2 & s2 & qs2 & -> & L2 & I2 & E2 & _ & A2); [by rewrite C1|done|by apply Hsz|].
  exists up2, s2, qs2. split; [done|]. split; [done|]. split; [done|]. split; [by eapply same_env_trans|].
  rewrite Q1 in A2 by (cbn; lia). destruct A1 as [A1 A1'], A2 as [A2 A2'].
  assert (HD : forall x, x ∈ qs THREAD_PRIORITY_NORMAL -> x ∈ qs THREAD_PRIORITY_BACKGROUND -> False).
  { intros x H1 H2. by pose proof (queue_disjoint qs sl _ _ x (l_nodup _ _ _ HL) H1 H2). }
  split; unfold below.
  - intros t [Ht|Ht]%elem_of_app.
    + destruct (A1 t Ht) as (k & Hk & Hk'). exists k. split; [done|]. rewrite A2'; [done|]. intros H. by apply (HD t).
    + destruct (A2 t Ht) as (k & Hk & Hk'). exists k. split; [|done]. rewrite A1' in Hk; [done|]. intros H. by apply (HD t).
  - intros t [H1 H2]%not_elem_of_app. by rewrite A2', A1'.
Qed.

(** * The global tick *)

(** The effect of a tick at time [now] on the threads. *)
Record ticked (K K' : gmap Z kernel_thread) (now : Z) : Prop := {
  tk_wakes : forall t k, K !! t = Some k -> sleeping k = true -> wakeup_tick k <= now ->
    exists k' p, K' !! t = Some k' /\ waits p k';
  tk_sleeps : forall t k, K !! t = Some k -> sleeping k = true -> now < wakeup_tick k -> K' !! t = Some k;
  tk_ages : forall t k, K !! t = Some k -> queued k = true ->
    K' !! t = Some (if decide (effective_priority k = THREAD_PRIORITY_HIGH) then k else core (aged k));
  tk_others : forall t k, K !! t = Some k -> sleeping k = false -> queued k = false -> K' !! t = Some k;
}.

Lemma aged_queued k : queued (aged k) = queued k.
Proof.
  unfold aged. destruct (bump_fields k) as (_ & _ & _ & _ & _ & B & _). destruct (next_level _); exact B.
Qed.

(** A thread below the highest level that waits is in one of the lower queues. *)
Lemma below_spec K qs sl cs n t k : inv K qs sl cs n -> K !! t = Some k ->
  t ∈ below qs <-> queued k = true /\ effective_priority k <> THREAD_PRIORITY_HIGH.
Proof.
  intros HI Hk. pose proof (t_fits _ _ _ _ _ (i_threads _ _ _ _ _ HI t k Hk)) as HF. unfold below.
  rewrite elem_of_app. split.
  - intros [Hp|Hp]; destruct (f_ready _ _ _ _ HF _ Hp) as (Hq & _ & He & _); by rewrite He.
  - intros [Hq Hne]. pose proof (f_queued _ _ _ _ HF Hq) as Hp. destruct (effective_priority k); [done|by left|by right].
Qed.

Lemma ticked_intro K K1 K' qs sl qs1 sl1 qs' sl' cs n cs1 n1 cs' n' now :
  inv K qs sl cs n -> inv K1 qs1 sl1 cs1 n1 -> inv K' qs' sl' cs' n' ->
  woken K K1 now sl -> all_aged K1 K' (below qs1) -> ticked K K' now.
Proof.
  intros HI I1 I' [W1 W2] [A1 A2].
  assert (HS : forall t k, K !! t = Some k -> t ∈ sl -> sleeping k = true).
  { intros t k Hk Ht. by destruct (f_sleep _ _ _ _ (t_fits _ _ _ _ _ (i_threads _ _ _ _ _ HI t k Hk)) Ht) as (_ & _ & ? & _). }
  assert (HQ : forall t k, K !! t = Some k -> t ∈ sl -> queued k = false).
  { intros t k Hk Ht. by destruct (f_sleep _ _ _ _ (t_fits _ _ _ _ _ (i_threads _ _ _ _ _ HI t k Hk)) Ht). }
  assert (HN : forall t k, K1 !! t = Some k -> queued k = false -> K' !! t = Some k).
  { intros t k Hk Hq. rewrite A2; [done|]. intros [? _]%(below_spec K1 qs1 sl1 cs1 n1 t k I1 Hk). congruence. }
  split.
  - intros t k Hk Hsl Hle. pose proof (f_sleeping _ _ _ _ (t_fits _ _ _ _ _ (i_threads _ _ _ _ _ HI t k Hk)) Hsl) as Ht.
    destruct (W1 t Ht) as (k0 & k1 & _ & Hk1 & _ & Hw); [unfold due; rewrite Hk; lia|].
    assert (exists k', K' !! t = Some k' /\ queued k' = true) as (k' & Hk' & Hq').
    { destruct (decide (t ∈ below qs1)) as [Hb|Hb].
      - destruct (A1 t Hb) as (k2 & Hk2 & Hk'). same_thread. exists (core (aged k1)). split; [done|].
        change (queued (aged k1) = true). rewrite aged_queued. by destruct Hw.
      - exists k1. rewrite A2 by done. split; [done|]. by destruct Hw. }
    pose proof (t_fits _ _ _ _ _ (i_threads _ _ _ _ _ I' t k' Hk')) as HF.
    exists k', (effective_priority k'). split; [done|]. by apply (f_ready _ _ _ _ HF), (f_queued _ _ _ _ HF).
  - intros t k Hk Hsl Hlt. pose proof (f_sleeping _ _ _ _ (t_fits _ _ _ _ _ (i_threads _ _ _ _ _ HI t k Hk)) Hsl) as Ht.
    apply HN; [|by eapply HQ]. rewrite W2; [done|]. right. unfold due. rewrite Hk. lia.
  - intros t k Hk Hq. assert (Hk1 : K1 !! t = Some k).
    { rewrite W2; [done|]. left. intros Ht. rewrite (HQ t k Hk Ht) in Hq. done. }
    destruct (decide (effective_priority k = THREAD_PRIORITY_HIGH)) as [He|He].
    + rewrite A2; [done|]. by intros [_ ?]%(below_spec K1 qs1 sl1 cs1 n1 t k I1 Hk1).
    + destruct (A1 t) as (k2 & Hk2 & Hk'); [by apply (below_spec K1 qs1 sl1 cs1 n1 t k I1 Hk1)|]. congruence.
  - intros t k Hk Hsl Hq. apply HN; [|done]. rewrite W2; [done|]. left. intros Ht. rewrite (HS t k Hk Ht) in Hsl. done.
Qed.

Definition next_tick (now : Z) : Z := if now =? U64_MAX then now else now + 1.

(** The global tick on the first CPU; the others do nothing. *)
Lemma global_tick_good s me c :
  good s -> cpus s !! me = Some c ->
  exists r s', scheduler_global_tick me s = Some (r, s') /\ good s' /\
    if bsp c then scheduler_tick_count s' = next_tick (scheduler_tick_count s) /\
                  ticked (cores s) (cores s') (scheduler_tick_count s')
    else s' = s.
Proof.
  intros HG Hc. unfold scheduler_global_tick. rewrite Hc. cbn [mbind option_bind].
  destruct (bsp c) eqn:Eb; cbn [negb]; [|by exists false, s].
  destruct HG as (qs & sl & HL & HI). fold (next_tick (scheduler_tick_count s)).
  assert (exists s0, (if scheduler_tick_count s =? U64_MAX then s
     else set_scheduler_tick_count (scheduler_tick_count s + 1) s) = s0 /\ threads s0 = threads s /\
     (forall p, ready_queue s0 p = ready_queue s p) /\ sleeping_threads s0 = sleeping_threads s /\
     cpus s0 = cpus s /\ cpu_count s0 = cpu_count s /\ scheduler_tick_count s0 = next_tick (scheduler_tick_count s))
    as (s0 & -> & T0 & Q0 & S0 & C0 & N0 & B0).
  { eexists. split; [reflexivity|]. unfold next_tick. destruct (_ =? _); [done|]. repeat (split; [done || by intros []|]). done. }
  assert (K0 : cores s0 = cores s) by (unfold cores; by rewrite T0).
  assert (L0 : linked s0 qs sl) by (by eapply linked_ext). pose proof (l_sleepers _ _ _ L0) as [Hh _]. rewrite Hh.
  destruct (wake_sleepers_spec me c sl [] s0 qs (size (threads s0)) false) as (w & s1 & qs1 & -> & L1 & I1 & E1 & W1).
  { done. } { by rewrite K0, C0, N0. } { by rewrite C0. }
  { apply length_threads; [eapply sleepers_nodup, l_nodup, L0|]. intros x Hx.
    apply (in_threads s0 qs sl x L0), sleeper_in_everyone, Hx. }
  cbn [mbind option_bind app] in L1, I1 |- *. set (sl1 := List.filter _ sl) in *. pose proof E1 as (_ & B1 & C1 & N1).
  assert (Hpre : exists b, match current_thread c with
      | None => Some false
      | Some t => th ← get s1 t; Some (is_thread (idle_thread c) t || (negb (bool_decide (idle_thread c = None)) &&
                 negb (bool_decide (effective_priority th = THREAD_PRIORITY_HIGH))))
      end = Some b).
  { destruct (current_thread c) as [t|] eqn:Et; [|by exists false].
    destruct (current_get s1 me c) with (o := t) as [th ->]; [by exists qs1, sl1|by rewrite C1, C0|done|]. by eexists. }
  destruct Hpre as [b ->]. cbn [mbind option_bind].
  set (s2 := if w && b then _ else s1).
  assert (H2 : linked s2 qs1 sl1 /\ inv (cores s2) qs1 sl1 (cpus s2) (cpu_count s2) /\ cores s2 = cores s1 /\
    scheduler_tick_count s2 = scheduler_tick_count s1 /\ exists d, cpus s2 !! me = Some d).
  { unfold s2. destruct (w && b); [|split; [done|]; split; [done|]; split; [done|]; split; [done|]; exists c; by rewrite C1, C0].
    split; [eapply linked_ext, L1; [done|by intros []|done]|]. split; [by apply inv_cpu|]. split; [done|]. split; [done|].
    cbn [cpus modify_cpu set_cpus]. rewrite list_lookup_alter_eq, C1, C0, Hc. by eexists. }
  destruct H2 as (L2 & I2 & K2 & B2 & d & Hd).
  destruct (age_spec s2 me d qs1 sl1 L2 I2 Hd) as (up & s3 & qs3 & -> & L3 & I3 & E3 & A3). pose proof E3 as (_ & B3 & C3 & N3).
  cbn [mbind option_bind]. eexists _, _. split; [reflexivity|].
  assert (G3 : good s3) by (by exists qs3, sl1).
  split; [destruct (up && _); [by apply good_cpu|done]|].
  assert (HT : ticked (cores s) (cores s3) (scheduler_tick_count s3)).
  { rewrite B3, B2, B1, <- K0. rewrite K2 in A3. rewrite <- K0 in HI. by eapply (ticked_intro _ (cores s1)). }
  assert (HB : scheduler_tick_count s3 = next_tick (scheduler_tick_count s)) by congruence.
  by destruct (up && _).
Qed.

End SchedulerTime.
