(* ===== verification/SchedulerRun.v ===== *)
(** The remaining operations of the scheduler (the timer of each CPU, preemption,
    system calls, creation and destruction of threads, the start of CPUs), the
    steps of the whole system and what holds in every state they reach. *)
From stdpp Require Import gmap.
From S2P Require Import Prelude SchedState Scheduler SchedLinks SchedulerProofs SchedulerSteps.
From S2P Require Import SchedulerOps SchedulerTime.
Import SchedState Scheduler SchedLinks SchedulerProofs SchedulerSteps SchedulerOps SchedulerTime.

Module SchedulerRun.

(** * Operations that touch no queue *)

(** No thread enters, leaves or ages in a queue. *)
Definition quiet (K K' : gmap Z kernel_thread) : Prop :=
  forall t, (fun k => (queued k, waiting k)) <$> K' !! t = (fun k => (queued k, waiting k)) <$> K !! t.

Lemma quiet_refl K : quiet K K.
Proof. done. Qed.

Lemma quiet_trans K1 K2 K3 : quiet K1 K2 -> quiet K2 K3 -> quiet K1 K3.
Proof. intros H1 H2 t. by rewrite H2. Qed.

Lemma quiet_undisturbed K1 K2 K3 : quiet K1 K2 -> undisturbed K2 K3 -> undisturbed K1 K3.
Proof.
  intros H1 H2 t k k' Hk Hk' Hq Hq'. specialize (H1 t). rewrite Hk in H1. destruct (K2 !! t) as [k2|] eqn:E; [|done].
  cbn in H1. injection H1 as H3 H4 H5 H6 H7. rewrite (H2 t k2 k' E Hk'); [|congruence|done]. unfold waiting. congruence.
Qed.

Lemma quiet_still K K' : quiet K K' -> undisturbed K K'.
Proof. intros H. eapply quiet_undisturbed; [exact H|apply undisturbed_refl]. Qed.

Definition calm (s s' : sched) : Prop := good s' /\ quiet (cores s) (cores s').

Lemma calm_refl s : good s -> calm s s.
Proof. intros H. split; [done|apply quiet_refl]. Qed.

Lemma calm_trans s1 s2 s3 : calm s1 s2 -> calm s2 s3 -> calm s1 s3.
Proof. intros [_ Q1] [G2 Q2]. split; [done|by eapply quiet_trans]. Qed.

Lemma calm_stats s f : good s -> calm s (count_stat f s).
Proof. intros H. split; [by apply good_stats|apply quiet_refl]. Qed.

Lemma calm_cpu s i f : (forall c, role (f c) = role c) -> good s -> calm s (modify_cpu s i f).
Proof. intros Hf H. split; [by apply good_cpu|apply quiet_refl]. Qed.

Lemma calm_modify s t f th :
  keeps f -> (forall th, ready_wait_ticks (f th) = ready_wait_ticks th) -> get s t = Some th -> good s ->
  modify s t f = Some (put s t (f th)) /\ calm s (put s t (f th)).
Proof.
  intros Hk Hr Ht HG. destruct (good_modify s t f th Hk Ht HG) as [-> HG']. split; [done|]. split; [done|].
  intros x. rewrite cores_put. destruct (decide (t = x)) as [<-|Hne]; [|by rewrite lookup_insert_ne].
  rewrite lookup_insert_eq, (get_cores s t th Ht). destruct (Hk th) as (_ & _ & _ & _ & _ & _ & H7 & _ & H9 & H10 & H11 & _).
  cbn. unfold waiting. cbn. by rewrite H7, H9, H10, H11, Hr.
Qed.

Lemma role_current c d : role c = role d -> current_thread c = current_thread d /\ idle_thread c = idle_thread d /\
  switching c = switching d /\ bsp c = bsp d.
Proof. unfold role. intros [=]. by repeat split. Qed.

(** * The timer of one CPU *)

Lemma account_calm s me c :
  good s -> cpus s !! me = Some c ->
  exists s' d, account_tick me s c = Some s' /\ calm s s' /\ cpus s' !! me = Some d /\ role d = role c.
Proof.
  intros HG Hc. unfold account_tick.
  set (s1 := modify_cpu s me _). assert (H1 : calm s s1) by (by apply calm_cpu).
  assert (Hc1 : cpus s1 !! me = Some (set_accounted_ticks (u64 (accounted_ticks c + 1)) c))
    by (unfold s1; cbn [cpus modify_cpu set_cpus]; by rewrite list_lookup_alter_eq, Hc).
  destruct (current_thread c) as [t|] eqn:Et; [|exists s1; by eexists].
  destruct (current_get s me c HG Hc t Et) as [th Ht]. change (get s1 t) with (get s t). rewrite Ht. cbn [mbind option_bind].
  destruct (negb _ && _); [|exists s1; by eexists].
  set (s2 := modify_cpu s1 me _). assert (H2 : calm s1 s2) by (apply calm_cpu; [done|by destruct H1]).
  assert (Ht2 : get s2 t = Some th) by exact Ht.
  destruct (calm_modify s2 t (fun th => set_cpu_time_ticks (u64 (cpu_time_ticks th + 1)) th) th) as [-> H3];
    [done|done|done|by destruct H2|].
  eexists _, _. split; [reflexivity|]. split; [exact (calm_trans _ _ _ (calm_trans _ _ _ H1 H2) H3)|].
  unfold s2. cbn [cpus put set_threads modify_cpu set_cpus]. change (cpus (put s2 t _)) with (cpus s2).
  rewrite list_lookup_alter_eq, Hc1. by split.
Qed.

Lemma eligible_total s qs sl c : linked s qs sl -> exists b, scheduler_has_eligible_ready_locked s c = Some b.
Proof.
  intros HL. unfold scheduler_has_eligible_ready_locked.
  change (ready_high s) with (ready_queue s THREAD_PRIORITY_HIGH).
  change (ready_normal s) with (ready_queue s THREAD_PRIORITY_NORMAL).
  change (ready_background s) with (ready_queue s THREAD_PRIORITY_BACKGROUND).
  rewrite !(chain_queue s qs sl _ HL). cbn [mbind option_bind]. by eexists.
Qed.

Lemma timer_tick_calm s me c :
  good s -> cpus s !! me = Some c -> exists r s', scheduler_timer_tick me s = Some (r, s') /\ calm s s'.
Proof.
  intros HG Hc. unfold scheduler_timer_tick. rewrite Hc. cbn [mbind option_bind].
  destruct (account_calm s me c HG Hc) as (s1 & d & -> & H1 & Hd & Rd). cbn [mbind option_bind].
  destruct (context_switching c); [by exists false, s1|]. pose proof (proj1 H1) as G1.
  assert (H2 : exists s2 e, (if bool_decide (current_thread c = idle_thread c) then
       let s := count_stat (fun st => set_idle_runtime_ticks (u64 (idle_runtime_ticks st + 1)) st) s1 in
       e ← scheduler_has_eligible_ready_locked s c;
       Some (if e : bool then modify_cpu s me (set_preemption_pending true) else s) else Some s1) = Some s2 /\
     calm s1 s2 /\ cpus s2 !! me = Some e /\ role e = role c).
  { destruct (bool_decide _); [|exists s1, d; by split; [|split; [apply calm_refl|]]]. cbv zeta.
    set (s2 := count_stat _ s1). assert (C2 : calm s1 s2) by (by apply calm_stats).
    pose proof (proj1 C2) as (qs & sl & HL & _). destruct (eligible_total s2 qs sl c HL) as [b ->]. cbn [mbind option_bind].
    destruct b; [|exists s2, d; by split]. eexists _, _. split; [reflexivity|].
    split; [eapply calm_trans; [exact C2|]; apply calm_cpu; [done|by destruct C2]|].
    cbn [cpus modify_cpu set_cpus]. rewrite list_lookup_alter_eq. change (cpus s2) with (cpus s1). rewrite Hd. by split. }
  destruct H2 as (s2 & e & E2 & H2 & He & Re). cbv zeta in E2 |- *. rewrite E2. cbn [mbind option_bind]. rewrite He. cbn [mbind option_bind].
  assert (H02 : calm s s2) by (by eapply calm_trans). pose proof (proj1 H2) as G2.
  destruct (current_thread e) as [t|] eqn:Et; [|by eexists _, s2].
  destruct (current_get s2 me e G2 He t Et) as [th Ht]. rewrite Ht. cbn [mbind option_bind].
  destruct (negb _ || _ || _); [by eexists _, s2|]. cbv zeta.
  set (left := if 0 <? remaining_time_slice th then remaining_time_slice th - 1 else remaining_time_slice th).
  destruct (left =? 0); eexists _, _; (split; [reflexivity|]).
  - eapply calm_trans; [exact H02|].
    destruct (calm_modify s2 t (set_remaining_time_slice (default_time_slice th)) th) as [_ H3]; [done|done|done|done|].
    eapply calm_trans; [exact H3|]. apply calm_cpu; [done|by destruct H3].
  - eapply calm_trans; [exact H02|].
    by destruct (calm_modify s2 t (set_remaining_time_slice left) th) as [_ H3].
Qed.

(** * Preemption and system calls *)

Section Interrupted.
Context (s : sched) (me : nat) (c : cpu_local) (f : Z).
Hypothesis HG : good s.
Hypothesis Hc : cpus s !! me = Some c.
Hypothesis Hns : switching c = NoSwitch.
Hypothesis Hflags : flags_safe f = true.

Lemma yield_good : exists r s', scheduler_yield me s f = Some (r, s') /\ good s' /\ undisturbed (cores s) (cores s').
Proof using All.
  unfold scheduler_yield. set (s1 := count_stat _ s).
  apply (reschedule_good s1 me c f); [by apply good_stats|done|done|done].
Qed.

Lemma prepare_preemption_good regs : exists r s', scheduler_prepare_preemption me s regs f = Some (r, s') /\
  good s' /\ undisturbed (cores s) (cores s').
Proof using All.
  unfold scheduler_prepare_preemption. rewrite Hc. cbn [mbind option_bind].
  destruct (current_thread c) as [t|] eqn:Et.
  2: { eexists _, s. split; [reflexivity|]. split; [done|apply undisturbed_refl]. }
  destruct (current_get s me c HG Hc t Et) as [th Ht]. rewrite Ht. cbn [mbind option_bind].
  destruct (_ || _).
  { eexists _, s. split; [reflexivity|]. split; [done|apply undisturbed_refl]. }
  cbv zeta. set (s1 := modify_cpu s me _). assert (H1 : calm s s1) by (by apply calm_cpu).
  set (s2 := count_stat _ s1). assert (H2 : calm s s2) by (eapply calm_trans; [exact H1|]; apply calm_stats; by destruct H1).
  destruct (syscall_active th).
  { eexists _, s1. split; [reflexivity|]. split; [by destruct H1|]. apply quiet_still. by destruct H1. }
  destruct (privilege_stack regs).
  - destruct (reschedule_good s2 me (set_preemption_pending false c) f) as (r & s3 & -> & G3 & U3); [by destruct H2| |done|done|].
    { unfold s2, s1. cbn [cpus count_stat set_stats modify_cpu set_cpus]. by rewrite list_lookup_alter_eq, Hc. }
    cbn [mbind option_bind]. eexists _, s3. split; [reflexivity|]. split; [done|].
    eapply quiet_undisturbed; [|exact U3]. by destruct H2.
  - destruct (calm_modify s2 t (save_interrupted regs) th)
      as [-> H3]; [done|done|exact Ht|by destruct H2|]. cbn [mbind option_bind]. eexists _, _. split; [reflexivity|].
    pose proof (calm_trans _ _ _ H2 H3) as [G4 Q4]. split; [done|by apply quiet_still].
Qed.

Lemma trampoline_good : exists r s', scheduler_preempt_from_trampoline me s f = Some (r, s') /\
  good s' /\ undisturbed (cores s) (cores s').
Proof using All.
  unfold scheduler_preempt_from_trampoline. rewrite Hc. cbn [mbind option_bind].
  destruct (current_thread c) as [t|] eqn:Et.
  2: { eexists _, s. split; [reflexivity|]. split; [done|apply undisturbed_refl]. }
  destruct (current_get s me c HG Hc t Et) as [th Ht]. rewrite Ht. cbn [mbind option_bind].
  destruct (_ || _).
  { eexists _, s. split; [reflexivity|]. split; [done|apply undisturbed_refl]. }
  destruct (reschedule_good s me c f HG Hc Hns Hflags) as (r & s3 & -> & G3 & U3). cbn [mbind option_bind].
  by eexists _, s3.
Qed.

(** The restored stack pointer is inside the stack of the thread. *)
Lemma restored_good rsp :
  (forall t th, current_thread c = Some t -> get s t = Some th -> stack_external th = false ->
     kernel_stack_base th <= rsp < u64 (kernel_stack_base th + kernel_stack_size th)) ->
  exists s', scheduler_preempt_context_restored me s rsp = Some s' /\ calm s s'.
Proof using All.
  intros Hr. unfold scheduler_preempt_context_restored. rewrite Hc. cbn [mbind option_bind].
  destruct (current_thread c) as [t|] eqn:Et; [|exists s; split; [done|by apply calm_refl]].
  destruct (current_get s me c HG Hc t Et) as [th Ht]. rewrite Ht. cbn [mbind option_bind].
  destruct (negb (stack_external th) && _) eqn:Eb.
  { exfalso. rewrite andb_true_iff, negb_true_iff, orb_true_iff in Eb. destruct Eb as [E1 E2].
    specialize (Hr t th eq_refl Ht E1). lia. }
  eexists. by apply (calm_modify s t (fun th => set_preempt_return_rflags 0 (set_preempt_return_rip 0 th)) th).
Qed.

Lemma syscall_enter_calm : exists s', scheduler_syscall_enter me s = Some s' /\ calm s s'.
Proof using All.
  unfold scheduler_syscall_enter. rewrite Hc. cbn [mbind option_bind].
  destruct (current_thread c) as [t|] eqn:Et; [|exists s; split; [done|by apply calm_refl]].
  destruct (current_get s me c HG Hc t Et) as [th Ht]. eexists.
  apply (calm_modify s t (fun th => set_syscall_active true
    (if syscall_nesting th =? U32_MAX then th else set_syscall_nesting (syscall_nesting th + 1) th)) th); [| |done|done].
  - intros x. cbn. by destruct (_ =? _).
  - intros x. by destruct (_ =? _).
Qed.

Lemma syscall_leave_calm : exists s', scheduler_syscall_leave me s false = Some s' /\ calm s s'.
Proof using All.
  unfold scheduler_syscall_leave. rewrite Hc. cbn [mbind option_bind].
  destruct (current_thread c) as [t|] eqn:Et; [|exists s; split; [done|by apply calm_refl]].
  destruct (current_get s me c HG Hc t Et) as [th Ht]. rewrite Ht. cbn [mbind option_bind]. rewrite andb_false_r.
  destruct (_ =? 0); [exists s; split; [done|by apply calm_refl]|]. eexists. split; [reflexivity|].
  set (n := syscall_nesting th - 1).
  by destruct (calm_modify s t (fun th => set_syscall_active (negb (n =? 0)) (set_syscall_nesting n th)) th) as [_ H].
Qed.

End Interrupted.

(** * Termination and destruction of other threads *)

Lemma not_idle s qs sl t :
  inv (cores s) qs sl (cpus s) (cpu_count s) -> is_idle s t = false ->
  forall i c, cpus s !! i = Some c -> idle_thread c <> Some t.
Proof.
  intros HI Hn i c Hc Hi. unfold is_idle in Hn. rewrite (i_count _ _ _ _ _ HI), firstn_all in Hn.
  enough (existsb (fun c => is_thread (idle_thread c) t) (cpus s) = true) by congruence.
  apply existsb_exists. exists c. split; [by eapply list_elem_of_In, list_elem_of_lookup_2|].
  unfold is_thread. by rewrite bool_decide_eq_true_2.
Qed.

(** A thread outside the lists that no CPU runs. *)
Record removed (k k1 : kernel_thread) : Prop := {
  rm_frame : frame k1 = frame k;
  rm_state : state k1 = state k;
  rm_cpu : running_cpu k1 = running_cpu k;
  rm_queued : queued k1 = false;
  rm_sleeping : sleeping k1 = false;
  rm_pending : context_switch_pending k1 = context_switch_pending k;
  rm_prio : thread_priority_state_valid k1 = thread_priority_state_valid k;
}.

Lemma removed_refl k : queued k = false -> sleeping k = false -> removed k k.
Proof. done. Qed.

(** Taking a thread out of its queue, if it waits. *)
Lemma dequeue_good s qs sl t th :
  linked s qs sl -> inv (cores s) qs sl (cpus s) (cpu_count s) -> get s t = Some th -> sleeping th = false ->
  exists s1 qs1 k1, scheduler_remove_queued_locked s t = Some s1 /\ linked s1 qs1 sl /\
    cores s1 = <[t := k1]> (cores s) /\ same_env s s1 /\ (t ∉ everyone qs1 sl) /\
    same_members qs qs1 sl sl t /\ removed (core th) k1.
Proof.
  intros HL HI Ht Hs. pose proof (get_cores s t th Ht) as Hk. destruct (queued th) eqn:Eq.
  - destruct (dequeue_spec s qs sl t th HL (inv_lists _ _ _ _ _ HI) (inv_valid _ _ _ _ _ HI) Ht Eq) as
      (s1 & l1 & l2 & -> & _ & L1 & K1 & E1 & _ & _ & M1 & N1 & _). by eexists s1, _, _.
  - exists s, qs, (core th). unfold scheduler_remove_queued_locked. rewrite Ht. cbn [mbind option_bind]. rewrite Eq.
    split; [done|]. split; [done|]. split; [by rewrite insert_id|]. split; [done|].
    split; [|split; [done|by apply removed_refl]]. by eapply not_listed; [eapply inv_lists| | |].
Qed.

Lemma ended_inv K qs sl cs n t k k1 qs' sl' :
  inv K qs sl cs n -> K !! t = Some k -> running_cpu k = None ->
  (forall i c, cs !! i = Some c -> idle_thread c <> Some t) ->
  same_members qs qs' sl sl' t -> t ∉ everyone qs' sl' -> removed k k1 ->
  inv (<[t := core (set_state THREAD_STATE_TERMINATED k1)]> K) qs' sl' cs n.
Proof.
  intros HI Hk Hr Hi HM Hn [R1 R2 R3 R4 R5 R6 R7]. pose proof (i_threads _ _ _ _ _ HI t k Hk) as [T1 T2 T3 T4 T5 T6 T7 T8 T9].
  pose proof (frame_stack k k1 R1 T5) as T5'. unfold frame in R1. injection R1 as F1 F2 F3 F4 F5 F6.
  eapply (inv_insert K qs sl); [done|done| | |].
  - split; try done.
    + apply fits_core, fits_unlisted; [done|exact R4|exact R5|]. exact (eq_trans R7 (f_prio _ _ _ _ T1)).
    + intros i c Hc Hid. by destruct (Hi i c Hc).
    + cbn. congruence.
    + cbn. rewrite F4, F5, F6. exact T6.
    + intros [H|H]; discriminate H.
    + cbn. rewrite R6. exact T9.
  - intros i c Hc Hcur. destruct (c_current _ _ _ (i_cpus _ _ _ _ _ HI i c Hc) t Hcur) as (k0 & Hk0 & _ & Hr0). congruence.
  - intros i Hs. destruct (saving_leaving K qs sl cs n i t HI Hs) as (k0 & Hk0 & [A1 A2 A3 A4]). same_thread.
    split; cbn; [congruence|congruence|done|done].
Qed.

(** Taking a thread out of whatever list it is in. *)
Lemma unlist_good s qs sl t th :
  linked s qs sl -> inv (cores s) qs sl (cpus s) (cpu_count s) -> get s t = Some th ->
  exists s1 qs1 sl1 k1, (s1 ← (if queued th then scheduler_remove_queued_locked s t else Some s);
      if sleeping th then s ← sleeping_remove s1 t; Some (count_stat less_sleeping s) else Some s1) = Some s1 /\
    linked s1 qs1 sl1 /\ cores s1 = <[t := k1]> (cores s) /\ same_env s s1 /\ (t ∉ everyone qs1 sl1) /\
    same_members qs qs1 sl sl1 t /\ removed (core th) k1.
Proof.
  intros HL HI Ht. pose proof (get_cores s t th Ht) as Hk.
  pose proof (t_fits _ _ _ _ _ (i_threads _ _ _ _ _ HI t _ Hk)) as HF.
  destruct (sleeping th) eqn:Es.
  - assert (Hq : queued th = false).
    { by destruct (f_sleep _ _ _ _ HF (f_sleeping _ _ _ _ HF Es)). }
    rewrite Hq. cbn [mbind option_bind].
    destruct (sleeping_remove_good s qs sl t (core th) HL HI Hk Hq) as (s1 & sl1 & k1 & -> & L1 & K1 & E1 & N1 & M1 & S1 & Z1).
    cbn [mbind option_bind]. eexists _, qs, sl1, k1. split; [reflexivity|].
    split; [eapply linked_ext, L1; [done|by intros []|done]|]. split; [exact K1|]. split; [exact E1|]. split; [done|].
    split; [done|]. destruct S1 as (S1 & S2 & S3 & S4 & S5 & S6 & S7 & S8). split; try done; [exact (eq_trans S4 Hq)|].
    unfold thread_priority_state_valid. by rewrite S6, S7, S8.
  - destruct (dequeue_good s qs sl t th HL HI Ht Es) as (s1 & qs1 & k1 & E1 & HR).
    assert (E1' : (if queued th then scheduler_remove_queued_locked s t else Some s) = Some s1).
    { destruct (queued th) eqn:Eq; [done|]. unfold scheduler_remove_queued_locked in E1. rewrite Ht in E1.
      cbn [mbind option_bind] in E1. by rewrite Eq in E1. }
    rewrite E1'. cbn [mbind option_bind]. exists s1, qs1, sl, k1. split; [done|exact HR].
Qed.

Lemma terminate_thread_good s t th :
  good s -> get s t = Some th ->
  exists r s', terminate_thread_locked s t = Some (r, s') /\ good s' /\ undisturbed (cores s) (cores s') /\
    (r = true -> exists k, cores s' !! t = Some k /\ state k = THREAD_STATE_TERMINATED /\
       queued k = false /\ sleeping k = false).
Proof.
  intros HG Ht. unfold terminate_thread_locked. rewrite Ht. cbn [mbind option_bind].
  destruct (is_state th THREAD_STATE_TERMINATED || _ || is_idle s t) eqn:Eg.
  { exists false, s. split; [done|]. split; [done|]. split; [apply undisturbed_refl|done]. }
  rewrite !orb_false_iff, negb_false_iff, bool_decide_eq_true in Eg. destruct Eg as [[_ Hr] Hi].
  destruct HG as (qs & sl & HL & HI). pose proof (get_cores s t th Ht) as Hk.
  pose proof (not_idle s qs sl t HI Hi) as Hni.
  pose proof (unlist_good s qs sl t th HL HI Ht) as H1.
  destruct H1 as (s1 & qs1 & sl1 & k1 & E & L1 & K1 & (A1 & A2 & A3 & A4) & N1 & M1 & R1).
  destruct (if queued th then _ else _) as [s0|]; [|done]. cbn [mbind option_bind] in E |- *.
  rewrite E. cbn [mbind option_bind].
  set (s2 := if is_state th THREAD_STATE_BLOCKED then count_stat less_blocked s1 else s1).
  assert (H2 : linked s2 qs1 sl1 /\ cores s2 = cores s1 /\ cpus s2 = cpus s1 /\ cpu_count s2 = cpu_count s1).
  { unfold s2. destruct (is_state _ _); [|done]. split; [eapply linked_ext, L1; [done|by intros []|done]|done]. }
  destruct H2 as (L2 & K2 & C2 & P2).
  assert (Hk2 : cores s2 !! t = Some k1) by (by rewrite K2, K1, lookup_insert_eq).
  destruct (modify_core s2 t (set_state THREAD_STATE_TERMINATED) k1 Hk2) as (th2 & _ & _ & -> & L3 & K3); [done|done|].
  cbn [mbind option_bind]. eexists true, _. split; [reflexivity|].
  rewrite K2, K1, insert_insert_eq in K3. split; [|split].
  - exists qs1, sl1. split; [by apply L3|]. rewrite K3. change (cpus (put s2 t _)) with (cpus s2).
    change (cpu_count (put s2 t _)) with (cpu_count s2). rewrite C2, P2, A3, A4. by eapply ended_inv.
  - rewrite K3. eapply undisturbed_insert; [exact Hk|]. intros _ Hq. destruct R1. cbn in Hq. congruence.
  - intros _. rewrite K3, lookup_insert_eq. eexists. split; [reflexivity|]. destruct R1. done.
Qed.

End SchedulerRun.
