(* ===== verification/SchedulerLife.v ===== *)
(** The life of threads and CPUs: creation and destruction of threads, the
    initialisation of the scheduler, and the start of further CPUs. *)
From stdpp Require Import gmap.
From S2P Require Import Prelude SchedState Scheduler SchedLinks SchedulerProofs SchedulerSteps.
From S2P Require Import SchedulerOps SchedulerTime SchedulerRun.
Import SchedState Scheduler SchedLinks SchedulerProofs SchedulerSteps SchedulerOps SchedulerTime SchedulerRun.

Module SchedulerLife.

(** * New threads *)

(** A thread that has never run and is in no list. *)
Record newborn (k : kernel_thread) : Prop := {
  nb_state : state k = THREAD_STATE_READY;
  nb_cpu : running_cpu k = None;
  nb_queued : queued k = false;
  nb_sleeping : sleeping k = false;
  nb_pending : context_switch_pending k = false;
  nb_prio : thread_priority_state_valid k = true;
  nb_stack : saved_stack_pointer k <> 0 /\ saved_stack_bounds k = true;
  nb_saved : saved_context_valid k = true /\ flags_safe (saved_flags k) = true;
}.

(** A stack that does not reach the end of the address space. *)
Definition stack_fits (stack size : Z) : Prop := 0 <= stack /\ 0 <= size /\ stack + Z.max size 72 <= U64_MAX.

(** The prepared frame lies inside the stack. *)
Lemma prepare_context_newborn p stack size external th :
  thread_prepare_context (new_thread p stack size external) = Some th ->
  stack_fits stack size -> forall i, newborn (set_id i th).
Proof.
  unfold thread_prepare_context, stack_fits. cbn [kernel_stack_base kernel_stack_size new_thread].
  destruct ((stack =? 0) || (size <? 64)) eqn:E1; [done|].
  apply orb_false_iff in E1 as [E1 E2]. apply Z.eqb_neq in E1. apply Z.ltb_ge in E2.
  intros H (Hst & Hsz & Hmax) i. assert (Hsum : u64 (stack + size) = stack + size) by (apply u64_id; mach).
  rewrite Hsum in H. pose proof (land_le_l (stack + size) (U64_MAX - 15) ltac:(lia)) as Ht.
  set (top := Z.land (stack + size) (U64_MAX - 15)) in *. clearbody top.
  rewrite (u64_id (stack + 72)) in H by mach. destruct (Z.ltb_spec top (stack + 72)) as [|Hle]; [done|].
  injection H as <-. assert (Hsp : u64 (top - 16 - 7 * 8) = top - 72) by (rewrite u64_id; mach). rewrite Hsp.
  split; try done.
  - destruct p; reflexivity.
  - unfold saved_stack_bounds. cbn [saved_stack_pointer kernel_stack_base kernel_stack_size set_id set_saved_context_valid
      set_saved_flags set_saved_stack_pointer new_thread]. rewrite Hsum. split; [lia|].
    rewrite !andb_true_iff, !negb_true_iff. lia.
Qed.

(** A new thread leaves the invariant. *)
Lemma inv_new K qs sl cs n t k :
  inv K qs sl cs n -> K !! t = None -> newborn k -> inv (<[t := k]> K) qs sl cs n.
Proof.
  intros HI Hn [N1 N2 N3 N4 N5 N6 N7 [N8 N9]].
  assert (Hnot : t ∉ everyone qs sl) by (intros [x Hx]%(i_members _ _ _ _ _ HI); congruence).
  assert (Hsav : forall i, ~ saving cs i t).
  { intros i Hi. destruct (saving_leaving K qs sl cs n i t HI Hi) as (k0 & Hk0 & _). congruence. }
  eapply (inv_insert K qs sl); [done|apply same_members_refl| | |].
  - split; try (intros; congruence).
    + by apply fits_unlisted.
    + intros i c Hc Hi. destruct (c_idle _ _ _ (i_cpus _ _ _ _ _ HI i c Hc) t Hi) as [_ [x Hx]]. congruence.
    + by left.
    + intros _. by destruct N7.
  - intros i c Hc Hcur. destruct (c_current _ _ _ (i_cpus _ _ _ _ _ HI i c Hc) t Hcur) as (k0 & Hk0 & _). congruence.
  - intros i Hi. by destruct (Hsav i).
Qed.

Lemma newborn_core k : newborn k -> newborn (core k).
Proof. by intros []. Qed.

(** What the allocator promises about new memory: an address that is not in use
    and a stack inside the address space, while there is room for threads. *)
Definition fresh (s : sched) (t stack bytes : Z) : Prop :=
  get s t = None /\ stack_fits stack bytes /\ Z.of_nat (size (threads s)) < 4294967295.

Lemma linked_room s qs sl t k stack bytes :
  linked s qs sl -> fresh s t stack bytes -> linked (put s t k) qs sl.
Proof. intros HL (Hf & _ & Hz). by apply linked_new. Qed.

Lemma fresh_cores s t stack bytes : fresh s t stack bytes -> cores s !! t = None.
Proof. intros (Hf & _). unfold cores. rewrite lookup_fmap. unfold get in Hf. by rewrite Hf. Qed.

Lemma undisturbed_new K t k : K !! t = None -> undisturbed K (<[t := k]> K).
Proof.
  intros Hn x kx kx' Hx. destruct (decide (t = x)) as [<-|Hne]; [congruence|].
  rewrite lookup_insert_ne by done. congruence.
Qed.

Lemma prepare_new_thread_spec me s c named priority memory :
  cpus s !! me = Some c -> (forall t stack, memory = Some (t, stack) -> fresh s t stack THREAD_KERNEL_STACK_SIZE) ->
  prepare_new_thread me s named priority memory = Some None \/
  exists t th i, prepare_new_thread me s named priority memory = Some (Some (t, th, set_next_thread_id i s)) /\
    newborn th /\ exists stack, memory = Some (t, stack) /\ decode_priority priority = Some (effective_priority th).
Proof.
  intros Hc Hm. unfold prepare_new_thread. rewrite Hc. cbn [mbind option_bind].
  destruct named; [|by left]. destruct (current_thread c) as [o|]; [|by left].
  destruct (decode_priority priority) as [p|]; [|by left]. destruct memory as [[t stack]|]; [|by left].
  destruct (Hm t stack eq_refl) as (_ & Hst & _).
  destruct (thread_prepare_context (new_thread p stack THREAD_KERNEL_STACK_SIZE false)) as [th|] eqn:E; [|by left].
  destruct (next_thread_id s =? 0); [by left|]. right. eexists t, _, _. split; [reflexivity|].
  pose proof (prepare_context_newborn p stack THREAD_KERNEL_STACK_SIZE false th E Hst) as HB.
  split; [apply HB|]. exists stack. split; [done|]. f_equal.
  unfold thread_prepare_context in E. destruct (_ || _); [done|]. destruct (_ <? _); [done|]. by injection E as <-.
Qed.

Lemma create_suspended_good me s c named priority memory :
  good s -> cpus s !! me = Some c ->
  (forall t stack, memory = Some (t, stack) -> fresh s t stack THREAD_KERNEL_STACK_SIZE) ->
  exists r s', thread_create_suspended_with_priority me s named priority memory = Some (r, s') /\ good s' /\
    undisturbed (cores s) (cores s').
Proof.
  intros (qs & sl & HL & HI) Hc Hm. unfold thread_create_suspended_with_priority.
  destruct (prepare_new_thread_spec me s c named priority memory Hc Hm) as [-> | (t & th & i & -> & HB & stack & Em & _)];
    cbn [mbind option_bind].
  { exists None, s. split; [done|]. split; [by exists qs, sl|apply undisturbed_refl]. }
  eexists _, _. split; [reflexivity|]. pose proof (fresh_cores s t stack _ (Hm t stack Em)) as Hn.
  assert (K1 : cores (put (set_next_thread_id i s) t th) = <[t := core th]> (cores s))
    by exact (cores_put (set_next_thread_id i s) t th).
  rewrite K1. split; [|by apply undisturbed_new]. exists qs, sl. split.
  - eapply linked_room; [eapply linked_ext, HL; [done|by intros []|done]|]. exact (Hm t stack Em).
  - rewrite K1. apply inv_new; [done|done|by apply newborn_core].
Qed.

(** A ready thread that no CPU runs has entered a queue. *)
Lemma inv_queued K qs sl cs n t k k' qs' :
  inv K qs sl cs n -> K !! t = Some k -> state k = THREAD_STATE_READY -> running_cpu k = None ->
  (forall i c, cs !! i = Some c -> idle_thread c <> Some t) -> same_members qs qs' sl sl t ->
  frame k' = frame k -> context_switch_pending k' = context_switch_pending k -> queued k' = true ->
  fits qs' sl t k' -> inv (<[t := k']> K) qs' sl cs n.
Proof.
  intros HI Hk Hs Hr Hi HM Hf Hp Hq HF. pose proof (i_threads _ _ _ _ _ HI t k Hk) as [T1 T2 T3 T4 T5 T6 T7 T8 T9].
  destruct (f_ready _ _ _ _ HF _ (f_queued _ _ _ _ HF Hq)) as (_ & Hs' & _ & _ & Hr').
  pose proof (frame_stack k k' Hf T5) as T5'. unfold frame in Hf. injection Hf as F1 F2 F3 F4 F5 F6.
  eapply (inv_insert K qs sl); [done|done| | |].
  - split; try done; try congruence.
    + intros i c Hc Hid. by destruct (Hi i c Hc).
    + rewrite F4, F5, F6. exact T6.
    + rewrite F6. intros _ Hn. apply T7; [by left|done].
    + rewrite Hp. exact T9.
  - intros i c Hc Hcur. destruct (c_current _ _ _ (i_cpus _ _ _ _ _ HI i c Hc) t Hcur) as (k0 & Hk0 & _ & Hr0). congruence.
  - intros i Hsv. destruct (saving_leaving K qs sl cs n i t HI Hsv) as (k0 & Hk0 & [A1 A2 A3 A4]). same_thread.
    split; [congruence|congruence|congruence|by right].
Qed.

(** A created thread waits at its priority. *)
Lemma create_good me s c named priority memory :
  good s -> cpus s !! me = Some c ->
  (forall t stack, memory = Some (t, stack) -> fresh s t stack THREAD_KERNEL_STACK_SIZE) ->
  exists r s', thread_create_with_priority me s named priority memory = Some (r, s') /\ good s' /\
    undisturbed (cores s) (cores s') /\
    (forall t, r = Some t -> exists k p, cores s' !! t = Some k /\ waits p k /\ decode_priority priority = Some p).
Proof.
  intros (qs & sl & HL & HI) Hc Hm. unfold thread_create_with_priority.
  destruct (prepare_new_thread_spec me s c named priority memory Hc Hm) as [-> | (t & th & i & -> & HB & stack & Em & Hp)];
    cbn [mbind option_bind].
  { exists None, s. split; [done|]. split; [by exists qs, sl|]. split; [apply undisturbed_refl|done]. }
  pose proof (fresh_cores s t stack _ (Hm t stack Em)) as Hn.
  set (s1 := put (set_next_thread_id i s) t th).
  assert (L1 : linked s1 qs sl) by (eapply linked_room; [eapply linked_ext, HL; [done|by intros []|done]|exact (Hm t stack Em)]).
  assert (K1 : cores s1 = <[t := core th]> (cores s)) by exact (cores_put (set_next_thread_id i s) t th).
  assert (I1 : inv (cores s1) qs sl (cpus s1) (cpu_count s1)) by (rewrite K1; by apply inv_new, newborn_core).
  assert (Hni : forall j d, cpus s1 !! j = Some d -> idle_thread d <> Some t).
  { intros j d Hd Hi. destruct (c_idle _ _ _ (i_cpus _ _ _ _ _ HI j d Hd) t Hi) as [_ [x Hx]]. congruence. }
  destruct HB as [N1 N2 N3 N4 N5 N6 N7 N8].
  destruct (enqueue_spec me s1 c qs sl t th L1 (inv_lists _ _ _ _ _ I1) (inv_valid _ _ _ _ _ I1) Hc)
    as (s2 & -> & L2 & K2 & (_ & _ & C2 & P2) & O2 & _ & M2); try done; [apply get_put|].
  cbn [mbind option_bind]. eexists _, s2. split; [reflexivity|]. rewrite K2, K1, insert_insert_eq.
  split; [|split; [by apply undisturbed_new|]].
  - eexists _, sl. split; [exact L2|]. rewrite K2, C2, P2.
    eapply (inv_queued (cores s1) qs sl); [exact I1|by rewrite K1, lookup_insert_eq|exact N1|exact N2|exact Hni|exact M2
      |done|done|done|]. eapply lists_ok_fits; [exact O2|apply lookup_insert_eq].
  - intros x [= <-]. eexists _, (effective_priority th). split; [apply lookup_insert_eq|]. split; [|exact Hp].
    split; [done|]. split; [exact N1|]. split; [done|]. split; [exact N4|exact N2].
Qed.

(** * Destruction *)

Lemma linked_delete s qs sl t : linked s qs sl -> t ∉ everyone qs sl -> linked (release_thread s t) qs sl.
Proof.
  intros HL Hn. eapply linked_links, HL; [by intros []|done| |].
  - intros x th Hx Hth. exists th. split; [|done]. cbn. rewrite lookup_delete_ne; [done|congruence].
  - pose proof (l_small _ _ _ HL). cbn. assert (size (delete t (threads s)) <= size (threads s))%nat.
    { destruct (threads s !! t) as [x|] eqn:E.
      - rewrite map_size_delete_Some by done. lia.
      - by rewrite delete_id. }
    lia.
Qed.

Lemma cores_release s t : cores (release_thread s t) = delete t (cores s).
Proof. unfold cores. cbn. by rewrite fmap_delete. Qed.

Lemma inv_delete K qs sl cs n t k :
  inv K qs sl cs n -> K !! t = Some k -> running_cpu k = None -> context_switch_pending k = false ->
  t <> bootstrap_thread -> (forall i c, cs !! i = Some c -> idle_thread c <> Some t) ->
  t ∉ everyone qs sl -> inv (delete t K) qs sl cs n.
Proof.
  intros HI Hk Hr Hp Hb Hid Hn. pose proof HI as [I1 I2 I3 I4 I5 I6 I7].
  assert (HS : forall x, is_Some (K !! x) -> x <> t -> is_Some (delete t K !! x))
    by (intros x Hx Hne; by rewrite lookup_delete_ne).
  split; try done.
  - intros x kx Hx. apply lookup_delete_Some in Hx as [_ Hx]. by apply I1.
  - intros x Hx. apply HS; [by apply I2|congruence].
  - intros i c Hc. pose proof (Hid i c Hc) as Hi. destruct (I3 i c Hc) as [C1 C2 C3 C4 C5 C6].
    assert (Hcur : current_thread c <> Some t).
    { intros H. destruct (C5 t H) as (k0 & Hk0 & _ & Hr0). congruence. }
    split; [done|done| | | |].
    + intros Ho. destruct (C3 Ho) as (x & Hx & Hs). exists x. split; [done|]. apply HS; [done|congruence].
    + intros x Hx. destruct (C4 x Hx) as [? ?]. split; [done|]. apply HS; [done|congruence].
    + intros x Hx. rewrite lookup_delete_ne by congruence. by apply C5.
    + destruct (switching c) as [|o r f|o]; [done| |done]. destruct C6 as (S1 & S2 & (ko & Hko & HL) & (u & ku & Hu & Hku & Hsp)).
      split; [done|]. split; [done|]. split.
      * exists ko. rewrite lookup_delete_ne; [done|]. intros ->. destruct HL. congruence.
      * exists u, ku. rewrite lookup_delete_ne; [done|congruence].
  - by apply HS.
Qed.

Lemma destroy_good s t th :
  good s -> get s t = Some th ->
  exists r s', thread_destroy s t = Some (r, s') /\ good s' /\ undisturbed (cores s) (cores s') /\
    (r = true -> get s' t = None).
Proof.
  intros HG Ht. unfold thread_destroy, destroy_locked. rewrite Ht. cbn [mbind option_bind].
  destruct ((t =? bootstrap_thread) || _ || _ || _ || _ || is_idle s t) eqn:Eg.
  { cbn [mbind option_bind]. exists false, s. split; [done|]. split; [done|]. split; [apply undisturbed_refl|done]. }
  rewrite !orb_false_iff, negb_false_iff, bool_decide_eq_true in Eg. destruct Eg as [[[[[G1 G2] G3] G4] _] G6].
  destruct HG as (qs & sl & HL & HI). pose proof (get_cores s t th Ht) as Hk.
  destruct (dequeue_good s qs sl t th HL HI Ht G2) as (s1 & qs1 & k1 & -> & L1 & K1 & (_ & _ & C1 & P1) & N1 & M1 & R1).
  cbn [mbind option_bind]. eexists true, _. split; [reflexivity|].
  assert (KD : cores (release_thread s1 t) = delete t (cores s)) by (by rewrite cores_release, K1, delete_insert_eq).
  split; [|split].
  - exists qs1, sl. split; [by apply linked_delete|]. rewrite KD. change (cpus (release_thread s1 t)) with (cpus s1).
    change (cpu_count (release_thread s1 t)) with (cpu_count s1). rewrite C1, P1.
    rewrite <- (delete_insert_eq (cores s) t (core (set_state THREAD_STATE_TERMINATED k1))).
    eapply (inv_delete _ _ _ _ _ t (core (set_state THREAD_STATE_TERMINATED k1)));
      [eapply (ended_inv (cores s) qs sl _ _ t (core th) k1)| | | | | |]; try done.
    + by eapply not_idle.
    + apply lookup_insert_eq.
    + destruct R1 as [_ _ R3 _ _ _ _]. exact (eq_trans R3 G3).
    + destruct R1 as [_ _ _ _ _ R6 _]. exact (eq_trans R6 G4).
    + by apply Z.eqb_neq.
    + by eapply not_idle.
  - rewrite KD. intros x k k' Hx Hk' _ _. apply lookup_delete_Some in Hk' as [_ Hk']. congruence.
  - intros _. unfold get. cbn. apply lookup_delete_eq.
Qed.

(** * Further CPUs *)

(** CPU [i], which runs nothing, changes its idle or its current thread. *)
Section Further.
Context (K : gmap Z kernel_thread) (qs : queues) (sl : list Z) (cs : list cpu_local) (n i : nat) (c c' : cpu_local).
Hypothesis HI : inv K qs sl cs n.
Hypothesis Hc : cs !! i = Some c.
Hypothesis Hoff : current_thread c = None.
Hypothesis Hsame : switching c' = switching c /\ bsp c' = bsp c /\ context_switching c' = context_switching c.
Let cs' := <[i := c']> cs.

Lemma further_lookup j d : cs' !! j = Some d -> (j = i /\ d = c') \/ (j <> i /\ cs !! j = Some d).
Proof using Hc.
  unfold cs'. destruct (decide (i = j)) as [<-|Hne].
  - rewrite list_lookup_insert_eq by (by eapply lookup_lt_Some). intros [= <-]. by left.
  - rewrite list_lookup_insert_ne by done. by right.
Qed.

Lemma further_other j : j <> i -> cs' !! j = cs !! j.
Proof. intros H. unfold cs'. by rewrite list_lookup_insert_ne. Qed.

Lemma further_me : cs' !! i = Some c'.
Proof using Hc. apply list_lookup_insert_eq. by eapply lookup_lt_Some. Qed.

Lemma further_idle_cpu : switching c = NoSwitch.
Proof using All.
  pose proof (c_switching _ _ _ (i_cpus _ _ _ _ _ HI i c Hc)) as H. destruct (switching c) as [|o r f|o]; [done| |done].
  destruct H as (_ & _ & _ & (t & k & Ht & _)). congruence.
Qed.

Lemma further_saving j x : saving cs' j x <-> saving cs j x.
Proof using All.
  unfold saving. pose proof further_idle_cpu as Hn. destruct Hsame as (Hs & _). split; intros (d & r & f & Hd & Hsw).
  - destruct (further_lookup j d Hd) as [[-> ->]|[_ Hd']]; [congruence|by exists d, r, f].
  - destruct (decide (j = i)) as [->|Hne]; [congruence|]. exists d, r, f. by rewrite further_other.
Qed.

(** A thread that is not the one concerned. *)
Lemma further_thread x k : (idle_thread c' = Some x -> idle_thread c = Some x) -> thread_inv qs sl cs x k ->
  thread_inv qs sl cs' x k.
Proof using All.
  intros Hi [T1 T2 T3 T4 T5 T6 T7 T8 T9]. split; try done.
  - intros j d Hd Hid. destruct (further_lookup j d Hd) as [[-> ->]|[_ Hd']]; [apply (T2 i c); [done|by apply Hi]|by apply (T2 j d)].
  - intros j Hj. destruct (T3 j Hj) as (d & Hd & [[Hcur Hs]|(Hsv & Hr)]).
    + assert (j <> i) by congruence. exists d. rewrite further_other by done. split; [done|]. by left.
    + destruct Hsv as (e & r & f & He & Hsw). assert (j <> i).
      { intros ->. pose proof further_idle_cpu. congruence. }
      exists d. rewrite further_other by done. split; [done|]. right. split; [|done]. apply further_saving. by exists e, r, f.
  - intros Hs Hn. apply T7; [done|]. intros j Hj. apply (Hn j). by apply further_saving.
  - intros j d Hs Hr Hd Hsw. destruct (further_lookup j d Hd) as [[-> ->]|[_ Hd']]; [|by apply (T8 j d)].
    apply (T8 i c); try done. destruct Hsame as (? & _). congruence.
  - intros Hp. destruct (T9 Hp) as [j Hj]. exists j. by apply further_saving.
Qed.

Lemma further_inv t k :
  thread_inv qs sl cs' t k -> cpu_inv (<[t := k]> K) i c' ->
  (forall x, x <> t -> idle_thread c' = Some x -> idle_thread c = Some x) ->
  (forall j d, cs !! j = Some d -> current_thread d <> Some t) -> (forall j, ~ saving cs j t) ->
  (forall j d, j <> i -> cs !! j = Some d -> idle_thread d <> Some t) ->
  inv (<[t := k]> K) qs sl cs' n.
Proof using All.
  intros Ht HC Hid Hncur Hnsav Hnid. pose proof HI as [I1 I2 I3 I4 I5 I6 I7]. split.
  - intros x kx. destruct (decide (t = x)) as [<-|Hne].
    + rewrite lookup_insert_eq. by intros [= <-].
    + rewrite lookup_insert_ne by done. intros Hx. apply further_thread; [by apply Hid|by apply I1].
  - intros x Hx. apply is_Some_insert. by apply I2.
  - intros j d Hd. destruct (further_lookup j d Hd) as [[-> ->]|[Hj Hd']]; [done|].
    destruct (I3 j d Hd') as [C1 C2 C3 C4 C5 C6]. split; [done|done| | | |].
    + intros Ho. destruct (C3 Ho) as (x & Hx & Hs). exists x. split; [done|]. by apply is_Some_insert.
    + intros x Hx. destruct (C4 x Hx) as [? ?]. split; [done|]. by apply is_Some_insert.
    + intros x Hx. rewrite lookup_insert_ne; [by apply C5|]. intros ->. by destruct (Hncur j d Hd').
    + destruct (switching d) as [|o r f|o] eqn:Es; [done| |done]. destruct C6 as (S1 & S2 & (ko & Hko & HLv) & (u & ku & Hu & Hku & Hsp)).
      split; [done|]. split; [done|]. split.
      * exists ko. rewrite lookup_insert_ne; [done|]. intros ->. apply (Hnsav j). by exists d, r, f.
      * exists u, ku. rewrite lookup_insert_ne; [done|]. intros ->. by destruct (Hncur j d Hd').
  - intros j j' d d' x Hd Hd' Hx Hx'.
    destruct (further_lookup j d Hd) as [[-> ->]|[Hj Hd1]], (further_lookup j' d' Hd') as [[-> ->]|[Hj' Hd1']]; [done| | |].
    + destruct (decide (x = t)) as [->|Hne]; [by destruct (Hnid j' d' Hj' Hd1')|]. apply (I4 i j' c d' x); try done. by apply Hid.
    + destruct (decide (x = t)) as [->|Hne]; [by destruct (Hnid j d Hj Hd1)|]. apply (I4 j i d c x); try done. by apply Hid.
    + by apply (I4 j j' d d' x).
  - intros j j' x. rewrite !further_saving. apply I5.
  - by apply is_Some_insert.
  - unfold cs'. by rewrite length_insert.
Qed.

End Further.

Lemma prepare_context_priority k th : thread_prepare_context k = Some th ->
  base_priority th = base_priority k /\ effective_priority th = effective_priority k.
Proof. unfold thread_prepare_context. destruct (_ || _); [done|]. destruct (_ <? _); [done|]. by intros [= <-]. Qed.

(** The new idle thread and its CPU. *)
Lemma idle_cpu_inv K qs sl cs n i c t k :
  inv K qs sl cs n -> cs !! i = Some c -> current_thread c = None -> online c = false -> K !! t = None -> newborn k ->
  base_priority k = THREAD_PRIORITY_BACKGROUND -> effective_priority k = THREAD_PRIORITY_BACKGROUND ->
  inv (<[t := k]> K) qs sl (<[i := set_idle_thread (Some t) c]> cs) n.
Proof.
  intros HI Hc Hcur Hon Hn HB Hb He. set (c' := set_idle_thread (Some t) c).
  pose proof (i_cpus _ _ _ _ _ HI i c Hc) as HC.
  assert (Hsame : switching c' = switching c /\ bsp c' = bsp c /\ context_switching c' = context_switching c) by done.
  pose proof (further_idle_cpu K qs sl cs n i c c' HI Hc Hcur Hsame) as Hns.
  pose proof (inv_new K qs sl cs n t k HI Hn HB) as HI'.
  assert (Hid : forall j d, cs !! j = Some d -> idle_thread d <> Some t).
  { intros j d Hd Hi. destruct (c_idle _ _ _ (i_cpus _ _ _ _ _ HI j d Hd) t Hi) as [_ [x Hx]]. congruence. }
  assert (Hnsav : forall j, ~ saving cs j t).
  { intros j Hj. destruct (saving_leaving K qs sl cs n j t HI Hj) as (k0 & Hk0 & _). congruence. }
  pose proof (i_threads _ _ _ _ _ HI' t k (lookup_insert_eq _ _ _)) as HT.
  eapply (further_inv K qs sl cs n i c c' HI Hc Hcur Hsame).
  - destruct HB as [N1 N2 N3 N4 N5 N6 N7 N8]. destruct HT as [T1 T2 T3 T4 T5 T6 T7 T8 T9]. split; try done; try congruence.
    + intros j d Hd Hi. destruct (further_lookup cs i c c' Hc j d Hd) as [[-> ->]|[Hj Hd']]; [|by destruct (Hid j d Hd')].
      split; [done|]. split; [done|]. split; [done|]. split; [done|]. left. split; [done|by left].
    + intros _ _. by destruct N8.
  - split; [by apply (c_bsp _ _ _ HC)|split; [cbn; congruence|cbn; congruence]|cbn; congruence| |cbn; congruence|].
    + intros x [= <-]. rewrite lookup_insert_eq. split; [|done]. intros ->. destruct (i_boot _ _ _ _ _ HI). congruence.
    + pose proof (c_switching _ _ _ HC) as Hsw. rewrite Hns in Hsw. cbn. by rewrite Hns.
  - intros x Hx [= <-]. done.
  - intros j d Hd H. destruct (c_current _ _ _ (i_cpus _ _ _ _ _ HI j d Hd) t H) as (k0 & Hk0 & _). congruence.
  - done.
  - intros j d _. apply Hid.
Qed.

Lemma prepare_idle_cpu_good s i stack bytes memory :
  good s -> (i < length (cpus s))%nat -> (forall t, memory = Some t -> fresh s t stack bytes) ->
  exists r s', scheduler_prepare_idle_cpu s i stack bytes memory = Some (r, s') /\ good s' /\
    undisturbed (cores s) (cores s').
Proof.
  intros HG Hlen Hm. destruct (lookup_lt_is_Some_2 _ _ Hlen) as [c Hc]. unfold scheduler_prepare_idle_cpu. rewrite Hc.
  cbn [mbind option_bind]. assert (Hsame : forall r : bool, exists (r' : bool) s', Some (r, s) = Some (r', s') /\ good s' /\ undisturbed (cores s) (cores s')).
  { intros r. exists r, s. split; [done|]. split; [done|apply undisturbed_refl]. }
  destruct (bsp c || _ || _ || _) eqn:Eg; [apply Hsame|]. destruct memory as [t|]; [|apply Hsame].
  destruct (thread_prepare_context _) as [th|] eqn:Ep; [|apply Hsame]. destruct (next_thread_id s =? 0); [apply Hsame|]. clear Hsame.
  rewrite !orb_false_iff, negb_false_iff, bool_decide_eq_true in Eg. destruct Eg as [[[G1 G2] _] _].
  pose proof (Hm t eq_refl) as Hf. pose proof Hf as (_ & Hst & _).
  pose proof (prepare_context_newborn _ _ _ _ _ Ep Hst (next_thread_id s)) as HB.
  pose proof (fresh_cores s t stack bytes Hf) as Hn. destruct HG as (qs & sl & HL & HI).
  eexists true, _. split; [reflexivity|]. set (th' := set_id (next_thread_id s) th) in *.
  change (cores (modify_cpu ?x i _)) with (cores x).
  change (cores (set_next_thread_id _ ?x)) with (cores x). rewrite cores_put. split; [|by apply undisturbed_new].
  exists qs, sl. split; [eapply linked_ext, (linked_room s qs sl t th' stack bytes HL Hf); [done|by intros []|done]|].
  change (cores (modify_cpu ?x i _)) with (cores x).
  change (cores (set_next_thread_id _ ?x)) with (cores x). rewrite cores_put.
  cbn [cpus cpu_count modify_cpu set_cpus set_next_thread_id put set_threads]. rewrite (alter_insert_cpu _ i c _ Hc).
  pose proof (i_cpus _ _ _ _ _ HI i c Hc) as HC.
  assert (Hon : online c = false).
  { destruct (online c) eqn:E; [|done]. destruct (c_has_idle _ _ _ HC E) as (x & Hx & _). congruence. }
  assert (Hcur : current_thread c = None).
  { destruct (current_thread c) eqn:E; [|done]. assert (online c = true) by (apply (c_online _ _ _ HC); congruence). congruence. }
  destruct (prepare_context_priority _ _ Ep) as [P1 P2].
  by apply idle_cpu_inv; [..|apply newborn_core| |].
Qed.

Definition started (me : nat) (th : kernel_thread) : kernel_thread :=
  set_saved_context_valid false (set_running_cpu (Some me) (set_state THREAD_STATE_RUNNING th)).

Lemma started_inv K qs sl cs n me c t k :
  inv K qs sl cs n -> cs !! me = Some c -> current_thread c = None -> idle_thread c = Some t ->
  K !! t = Some k -> running_cpu k = None -> saved_context_valid k = true ->
  inv (<[t := core (started me k)]> K) qs sl (<[me := set_online true (set_current_thread (Some t) c)]> cs) n.
Proof.
  intros HI Hc Hcur Hi Hk Hr Hv. set (c' := set_online true (set_current_thread (Some t) c)).
  pose proof (i_cpus _ _ _ _ _ HI me c Hc) as HC.
  assert (Hsame : switching c' = switching c /\ bsp c' = bsp c /\ context_switching c' = context_switching c) by done.
  pose proof (further_idle_cpu K qs sl cs n me c c' HI Hc Hcur Hsame) as Hns.
  assert (Hid : forall j d, cs !! j = Some d -> idle_thread d = Some t -> j = me /\ d = c).
  { intros j d Hd Hx. assert (j = me) as -> by (by apply (i_idle_inj _ _ _ _ _ HI j me d c t)). split; [done|congruence]. }
  assert (Hnsav : forall j, ~ saving cs j t).
  { intros j Hj. destruct (saving_leaving K qs sl cs n j t HI Hj) as (k0 & Hk0 & [_ ? _ _]). congruence. }
  eapply (further_inv K qs sl cs n me c c' HI Hc Hcur Hsame).
  - pose proof (i_threads _ _ _ _ _ HI t k Hk) as [T1 T2 T3 T4 T5 T6 T7 T8 T9].
    destruct (T2 me c Hc Hi) as (D1 & D2 & D3 & D4 & _). split; try done.
    + apply fits_core, fits_unlisted; [|exact D1|exact D2|exact (f_prio _ _ _ _ T1)].
      intros [[p Hp]|Hp]%elem_everyone; [destruct (f_ready _ _ _ _ T1 p Hp); congruence|].
      destruct (f_sleep _ _ _ _ T1 Hp) as (_ & _ & ? & _). congruence.
    + intros j d Hd Hx. assert (j = me) as ->.
      { destruct (further_lookup cs me c c' Hc j d Hd) as [[-> ->]|[Hj Hd']]; [done|by destruct (Hid j d Hd' Hx)]. }
      split; [done|]. split; [done|]. split; [done|]. split; [done|]. by right.
    + intros j [= <-]. exists c'. rewrite (further_me cs me c c' Hc). split; [done|]. by left.
    + intros _. by exists me.
    + destruct T5 as [[? ?]|(? & ? & ?)]; [by left|by right].
    + intros [H|H]; discriminate H.
    + intros Hp. destruct (T9 Hp) as [j Hj]. by destruct (Hnsav j).
  - split; [by apply (c_bsp _ _ _ HC)|done| | | |].
    + intros _. exists t. rewrite lookup_insert_eq. split; [done|by eexists].
    + intros x Hx. assert (x = t) as -> by (cbn in Hx; congruence). rewrite lookup_insert_eq.
      split; [|by eexists]. by destruct (c_idle _ _ _ HC t Hi).
    + intros x [= <-]. eexists. by rewrite lookup_insert_eq.
    + pose proof (c_switching _ _ _ HC) as Hsw. rewrite Hns in Hsw. cbn. by rewrite Hns.
  - intros x _ Hx. exact Hx.
  - intros j d Hd H. destruct (c_current _ _ _ (i_cpus _ _ _ _ _ HI j d Hd) t H) as (k0 & Hk0 & _ & Hr0). congruence.
  - done.
  - intros j d Hj Hd Hx. by destruct (Hid j d Hd Hx).
Qed.

(** A CPU starts with its idle thread. *)
Lemma start_cpu_good s me :
  good s -> (me < length (cpus s))%nat ->
  exists r s', scheduler_start_cpu me s = Some (r, s') /\ good s' /\ undisturbed (cores s) (cores s').
Proof.
  intros HG Hlen. destruct (lookup_lt_is_Some_2 _ _ Hlen) as [c Hc]. unfold scheduler_start_cpu. rewrite Hc.
  cbn [mbind option_bind]. assert (Hsame : forall r : bool, exists (r' : bool) s', Some (r, s) = Some (r', s') /\ good s' /\ undisturbed (cores s) (cores s')).
  { intros r. exists r, s. split; [done|]. split; [done|apply undisturbed_refl]. }
  destruct (idle_thread c) as [t|] eqn:Ei; [|apply Hsame]. destruct (bsp c || _) eqn:Eg; [apply Hsame|].
  apply orb_false_iff in Eg as [G1 G2]. rewrite negb_false_iff, bool_decide_eq_true in G2.
  destruct HG as (qs & sl & HL & HI). destruct (c_idle _ _ _ (i_cpus _ _ _ _ _ HI me c Hc) t Ei) as [Hb [k Hk]].
  destruct (cores_lookup s t k Hk) as (th & Ht & ->). rewrite Ht. cbn [mbind option_bind].
  destruct (negb (is_state th _) || _ || _ || _) eqn:Eh; [apply Hsame|]. clear Hsame.
  rewrite !orb_false_iff, !negb_false_iff, bool_decide_eq_true in Eh. destruct Eh as [[[H1 H2] H3] H4].
  unfold is_state in H1. rewrite bool_decide_eq_true in H1.
  destruct (modify_core s t (started me) (core th) Hk) as (th' & _ & _ & Em & L1 & K1); [done|done|]. unfold started in Em. rewrite Em.
  cbn [mbind option_bind]. eexists true, _. split; [reflexivity|].
  change (cores (modify_cpu ?x me _)) with (cores x). fold (started me th'). rewrite K1.
  split; [|eapply undisturbed_insert; [exact Hk|done]].
  exists qs, sl. split; [eapply linked_ext, (L1 _ _ HL); [done|by intros []|done]|].
  change (cores (modify_cpu ?x me _)) with (cores x). fold (started me th'). rewrite K1.
  cbn [cpus cpu_count modify_cpu set_cpus]. change (cpus (put s t _)) with (cpus s).
  change (cpu_count (put s t _)) with (cpu_count s). rewrite (alter_insert_cpu _ me c _ Hc).
  unfold thread_context_ready in H4. apply andb_true_iff in H4 as [H4 _]. by apply started_inv.
Qed.

End SchedulerLife.
