(* ===== verification/SchedulerBoot.v ===== *)
(** The state that [scheduler_init] and [cpu_init_bsp] leave is good. *)
From stdpp Require Import gmap.
From S2P Require Import Prelude SchedState Scheduler SchedLinks SchedulerProofs SchedulerSteps.
From S2P Require Import SchedulerOps SchedulerTime SchedulerRun SchedulerLife.
Import SchedState Scheduler SchedLinks SchedulerProofs SchedulerSteps SchedulerOps SchedulerTime SchedulerRun
  SchedulerLife.

Module SchedulerBoot.

Definition no_queues : queues := fun _ => [].

Section Boot.
Context (boot_stack boot_size t stack : Z).
Hypothesis Hne : t <> bootstrap_thread.
Hypothesis Hstack : stack <> 0 /\ stack_fits stack THREAD_KERNEL_STACK_SIZE.

Let kb := boot_thread boot_stack boot_size.
Let c0 := set_current_thread (Some bootstrap_thread) boot_cpu.
Let s0 := Sched {[ bootstrap_thread := kb ]} empty_queue empty_queue empty_queue None 2 0 zero_stats [c0] 0.

Lemma boot_linked : linked s0 no_queues [].
Proof using All.
  split; [by intros []|done|apply NoDup_nil_2|]. unfold s0. cbn [threads]. rewrite map_size_singleton. lia.
Qed.

Lemma boot_cores : cores s0 = {[ bootstrap_thread := core kb ]}.
Proof using All. unfold cores, s0. cbn [threads]. by rewrite map_fmap_singleton. Qed.

Lemma boot_lists : lists_ok (cores s0) no_queues [] [c0].
Proof using All.
  apply lists_ok_intro.
  - intros x k. rewrite boot_cores. intros [<- <-]%lookup_singleton_Some. apply fits_unlisted; try done. by intros H%elem_of_nil.
  - intros x k [|i] c _; [|done]. by intros [= <-].
  - by intros x H%elem_of_nil.
  - intros [|i] c x; [|done]. by intros [= <-].
Qed.

Lemma idle_frame : exists th, thread_prepare_context (new_thread THREAD_PRIORITY_BACKGROUND stack THREAD_KERNEL_STACK_SIZE false) = Some th /\
  newborn (set_id 2 th) /\ effective_priority th = THREAD_PRIORITY_BACKGROUND /\ base_priority th = THREAD_PRIORITY_BACKGROUND.
Proof using All.
  destruct Hstack as [H0 HF]. destruct (thread_prepare_context _) as [th|] eqn:E.
  - exists th. split; [done|]. split; [by eapply prepare_context_newborn|].
    by destruct (prepare_context_priority _ _ E) as [-> ->].
  - exfalso. revert E. unfold thread_prepare_context. cbn [kernel_stack_base kernel_stack_size new_thread].
    destruct HF as (F1 & F2 & F3). unfold THREAD_KERNEL_STACK_SIZE in *.
    destruct (Z.eqb_spec stack 0); [done|]. destruct (Z.ltb_spec 65536 64); [lia|]. cbn [orb].
    rewrite (u64_id (stack + 65536)) by mach. rewrite (u64_id (stack + 72)) by mach.
    destruct (Z.ltb_spec (Z.land (stack + 65536) (U64_MAX - 15)) (stack + 72)) as [Hlt|]; [|done].
    rewrite land_clear_low4 in Hlt by mach. exfalso. Z.div_mod_to_equations. lia.
Qed.

Lemma init_spec : exists s, scheduler_init boot_stack boot_size (Some (t, stack)) = Some (true, s) /\
  linked s (upd (upd no_queues THREAD_PRIORITY_BACKGROUND [t]) THREAD_PRIORITY_BACKGROUND []) [] /\
  cpus s = [set_idle_thread (Some t) c0] /\
  exists k, cores s = <[t := k]> {[ bootstrap_thread := core kb ]} /\ newborn k /\
    base_priority k = THREAD_PRIORITY_BACKGROUND /\ effective_priority k = THREAD_PRIORITY_BACKGROUND.
Proof using All.
  destruct idle_frame as (th & Eth & HB & He & Hbp). set (th2 := set_id 2 th) in *.
  assert (HP : prepare_new_thread 0 s0 true 2 (Some (t, stack)) = Some (Some (t, th2, set_next_thread_id 3 s0))).
  { unfold prepare_new_thread. change (cpus s0 !! 0%nat) with (Some c0). cbn [mbind option_bind].
    change (current_thread c0) with (Some bootstrap_thread).
    change (decode_priority 2) with (Some THREAD_PRIORITY_BACKGROUND). cbv iota beta. by rewrite Eth. }
  unfold scheduler_init, thread_create_with_priority. fold kb c0 s0. rewrite HP. cbn [mbind option_bind].
  set (s1 := put (set_next_thread_id 3 s0) t th2).
  assert (Hn : {[ bootstrap_thread := core kb ]} !! t = None) by (by apply lookup_singleton_ne).
  assert (L1 : linked s1 no_queues []).
  { apply linked_new; [|unfold s0; cbn [threads set_next_thread_id]; rewrite map_size_singleton; lia|].
    - unfold get, s0. cbn [threads set_next_thread_id]. by apply lookup_singleton_ne.
    - eapply linked_ext, boot_linked; [done|by intros []|done]. }
  assert (K1 : cores s1 = <[t := core th2]> {[ bootstrap_thread := core kb ]})
    by (rewrite <- boot_cores; exact (cores_put (set_next_thread_id 3 s0) t th2)).
  destruct HB as [N1 N2 N3 N4 N5 N6 N7 N8].
  assert (G1 : get s1 t = Some th2) by apply get_put.
  rewrite (enqueue_code 0 s1 t th2 THREAD_PRIORITY_BACKGROUND G1 N1 N3 N2 He) by done.
  destruct (link_tail_spec s1 no_queues [] t th2 THREAD_PRIORITY_BACKGROUND L1 G1) as (L2 & K2 & (_ & _ & C2 & P2) & _);
    [by intros H%elem_of_nil|]. set (s2 := link_tail s1 _ t th2) in *.
  set (k2 := core (set_queued true (set_ready_wait_ticks 0 th2))) in *.
  rewrite K1, insert_insert_eq in K2. change (cpus s1) with [c0] in C2. change (cpu_count s1) with 0%nat in P2.
  destruct (cores_get_core s2 bootstrap_thread (core kb)) as (thb & Gb & Cb);
    [by rewrite K2, lookup_insert_ne, lookup_singleton_eq|].
  assert (Hlen : cpus s2 !! 0%nat = Some c0) by (by rewrite C2).
  assert (HV : scheduler_validate_locked 0 s2 = Some true).
  { apply (validate_lists s2 (upd no_queues THREAD_PRIORITY_BACKGROUND [t]) [] L2) with (c := c0).
    - rewrite K2, C2, <- boot_cores. apply (lists_ok_insert (cores s0) no_queues []); [apply boot_lists| | |].
      + apply (same_members_append no_queues [] THREAD_PRIORITY_BACKGROUND t).
      + split; [| | | |exact N6].
        * intros p Hp. unfold upd in Hp. destruct (decide _) as [->|]; [done|by apply elem_of_nil in Hp].
        * by intros Hp%elem_of_nil.
        * intros _. change (effective_priority k2) with (effective_priority th). rewrite He.
          unfold upd. rewrite decide_True by done. apply list_elem_of_here.
        * intros H. change (sleeping th2 = true) in H. congruence.
      + intros [|i] c; [|done]. by intros [= <-].
    - done.
    - unfold validate_self. change (current_thread c0) with (Some bootstrap_thread). cbv iota beta. rewrite Gb. cbn [mbind option_bind].
      change (idle_thread c0) with (@None Z). cbv iota beta. cbn [mbind option_bind].
      pose proof (f_equal queued Cb) as Q1. pose proof (f_equal thread_priority_state_valid Cb) as Q2.
      change (queued thb = false) in Q1. change (thread_priority_state_valid thb = true) in Q2. by rewrite Q1, Q2.
    - by rewrite P2. }
  rewrite HV. cbn [mbind option_bind negb].
  assert (exists st, scheduler_update_runnable_peak 0 s2 = Some (set_stats st s2)) as [st Hpk].
  { unfold scheduler_update_runnable_peak. rewrite Hlen. cbn [mbind option_bind].
    change (current_thread c0) with (Some bootstrap_thread). cbv iota beta. rewrite Gb. cbn [mbind option_bind].
    destruct (_ <? _); [by eexists|]. exists (stats s2). by destruct s2. }
  rewrite Hpk. cbn [mbind option_bind]. set (s3 := modify_cpu (set_stats st s2) 0 _).
  assert (L3 : linked s3 (upd no_queues THREAD_PRIORITY_BACKGROUND [t]) []) by (eapply linked_ext, L2; [done|by intros []|done]).
  destruct (cores_get_core s3 t k2) as (th3 & G3 & C3); [change (cores s3) with (cores s2); by rewrite K2, lookup_insert_eq|].
  destruct (remove_spec s3 _ [] THREAD_PRIORITY_BACKGROUND [] t [] th3 L3) as (s4 & -> & L4 & K4 & (_ & _ & C4 & _) & _);
    [done|done|exact (f_equal queued C3)|exact (eq_trans (f_equal effective_priority C3) He)|].
  cbn [mbind option_bind app] in L4 |- *.
  assert (K4' : cores s4 !! t = Some (core (set_queued false th3))) by (by rewrite K4, lookup_insert_eq).
  destruct (modify_core s4 t (fun th => set_running_cpu None (set_state THREAD_STATE_READY th)) _ K4') as (th4 & _ & _ & -> & L5 & K5);
    [done|done|]. cbn [mbind option_bind]. eexists. split; [reflexivity|]. split; [by apply L5|].
  split; [change (cpus (put s4 t _)) with (cpus s4); rewrite C4; unfold s3; cbn [cpus modify_cpu set_cpus set_stats]; by rewrite C2|].
  eexists. rewrite K5, K4. change (cores s3) with (cores s2). rewrite K2, !insert_insert_eq. split; [reflexivity|].
  assert (Hcore : core (set_running_cpu None (set_state THREAD_STATE_READY (core (set_queued false th3)))) =
    core (set_running_cpu None (set_state THREAD_STATE_READY (set_queued false k2)))) by (rewrite <- C3; reflexivity).
  rewrite Hcore. split; [by split|done].
Qed.

(** The lists are empty again. *)
Lemma no_queues_again p : upd (upd no_queues THREAD_PRIORITY_BACKGROUND [t]) THREAD_PRIORITY_BACKGROUND [] p = [].
Proof using All. unfold upd. by destruct (decide _). Qed.

Lemma boot_inv k qs others :
  newborn k -> base_priority k = THREAD_PRIORITY_BACKGROUND -> effective_priority k = THREAD_PRIORITY_BACKGROUND ->
  (forall p, qs p = []) ->
  inv (<[t := k]> {[ bootstrap_thread := core kb ]}) qs [] (set_idle_thread (Some t) c0 :: replicate others ap_cpu) (S others).
Proof using All.
  intros HB Hb He Hq. set (c1 := set_idle_thread (Some t) c0). set (cs := c1 :: _).
  assert (Hcs : forall i c, cs !! i = Some c -> (i = 0%nat /\ c = c1) \/ (i <> 0%nat /\ c = ap_cpu)).
  { intros [|i] c; [by intros [= <-]; left|]. intros [-> _]%lookup_replicate. by right. }
  assert (Hns : forall i x, ~ saving cs i x).
  { intros i x (c & r & f & Hc & Hs). destruct (Hcs i c Hc) as [[-> ->]|[_ ->]]; done. }
  assert (Hnot : forall x, x ∉ everyone qs []) by (intros x; unfold everyone; rewrite !Hq; by intros H%elem_of_nil).
  split.
  - intros x kx [[<- <-]|[Hx [<- <-]%lookup_singleton_Some]]%lookup_insert_Some.
    + destruct HB as [N1 N2 N3 N4 N5 N6 N7 [N8 N9]]. split; try (intros; congruence).
      * by apply fits_unlisted.
      * intros i c Hc Hi. destruct (Hcs i c Hc) as [[-> ->]|[_ ->]]; [|done].
        split; [done|]. split; [done|]. split; [done|]. split; [done|]. left. split; [done|by left].
      * by left.
      * intros _. by destruct N7.
    + split; try done.
      * by apply fits_unlisted.
      * intros i c Hc Hi. destruct (Hcs i c Hc) as [[-> ->]|[_ ->]]; [|done]. by injection Hi as ->.
      * intros i [= <-]. exists c1. split; [done|]. by left.
      * intros _. by exists 0%nat.
      * by right.
      * intros [H|H]; discriminate H.
  - intros x Hx. by destruct (Hnot x).
  - intros i c Hc. destruct (Hcs i c Hc) as [[-> ->]|[Hi ->]].
    + split; try done.
      * intros _. exists t. rewrite lookup_insert_eq. split; [done|by eexists].
      * intros x [= <-]. rewrite lookup_insert_eq. split; [done|by eexists].
      * intros x [= <-]. exists (core kb). by rewrite lookup_insert_ne, lookup_singleton_eq.
    + split; try done. cbn. symmetry. by apply bool_decide_eq_false_2.
  - intros i j c d x Hc Hd Hx Hx'.
    destruct (Hcs i c Hc) as [[-> ->]|[_ ->]], (Hcs j d Hd) as [[-> ->]|[_ ->]]; done.
  - intros i j x Hx. by destruct (Hns i x).
  - exists (core kb). by rewrite lookup_insert_ne, lookup_singleton_eq.
  - cbn. by rewrite length_replicate.
Qed.

(** The state in which the system starts to run is good. *)
Lemma boot_good others : exists s, scheduler_init boot_stack boot_size (Some (t, stack)) = Some (true, s) /\
  good (cpu_init_bsp s others).
Proof using All.
  destruct init_spec as (s & E & HL & HC & k & HK & HB & Hb & He). exists s. split; [done|].
  eexists _, []. split; [eapply linked_ext, HL; [done|by intros []|done]|].
  change (cores (cpu_init_bsp s others)) with (cores s). unfold cpu_init_bsp.
  cbn [cpus cpu_count set_cpu_count set_cpus]. rewrite HK, HC. cbn [take app].
  apply boot_inv; [done|done|done|apply no_queues_again].
Qed.

End Boot.

End SchedulerBoot.
