(* ===== verification/SchedulerSafety.v ===== *)
(** The whole scheduler: its operations as steps of a system of CPUs, and what
    holds in every state they reach. *)
From stdpp Require Import gmap.
From S2P Require Import Prelude SchedState Scheduler SchedLinks SchedulerProofs SchedulerSteps.
From S2P Require Import SchedulerOps SchedulerTime SchedulerRun SchedulerLife SchedulerBoot.
Import SchedState Scheduler SchedLinks SchedulerProofs SchedulerSteps SchedulerOps SchedulerTime SchedulerRun
  SchedulerLife SchedulerBoot.

Module SchedulerSafety.

(** * The steps *)

(** What a CPU may do next.  [Finish] is the rest of a switch of contexts, from
    the store of the outgoing stack pointer to the return on the new stack. *)
Inductive op :=
  | Reschedule (flags : Z) | Yield (flags : Z) | Block (flags : Z) | Sleep (ticks flags : Z) | Terminate (flags : Z)
  | Finish (rsp : Z)
  | Unblock (t : Z) | TerminateThread (t : Z) | Destroy (t : Z) | Enqueue (t : Z)
  | Create (named : bool) (priority : Z) (memory : option (Z * Z))
  | CreateSuspended (named : bool) (priority : Z) (memory : option (Z * Z))
  | GlobalTick | TimerTick | PreparePreemption (regs : cpu_registers) (flags : Z) | Trampoline (flags : Z)
  | ContextRestored (rsp : Z) | SyscallEnter | SyscallLeave
  | PrepareIdle (i : nat) (stack bytes : Z) (memory : option Z) | StartCpu.

Definition exec (me : nat) (o : op) (s : sched) : option sched :=
  match o with
  | Reschedule f => snd <$> scheduler_reschedule me s f
  | Yield f => snd <$> scheduler_yield me s f
  | Block f => snd <$> scheduler_block me s f
  | Sleep n f => snd <$> scheduler_sleep me s n f
  | Terminate f => snd <$> scheduler_terminate me s f
  | Finish rsp => finish_switch me s rsp
  | Unblock t => snd <$> scheduler_unblock me s t
  | TerminateThread t => snd <$> terminate_thread_locked s t
  | Destroy t => snd <$> thread_destroy s t
  | Enqueue t => snd <$> scheduler_enqueue me s t
  | Create named p m => snd <$> thread_create_with_priority me s named p m
  | CreateSuspended named p m => snd <$> thread_create_suspended_with_priority me s named p m
  | GlobalTick => snd <$> scheduler_global_tick me s
  | TimerTick => snd <$> scheduler_timer_tick me s
  | PreparePreemption regs f => snd <$> scheduler_prepare_preemption me s regs f
  | Trampoline f => snd <$> scheduler_preempt_from_trampoline me s f
  | ContextRestored rsp => scheduler_preempt_context_restored me s rsp
  | SyscallEnter => scheduler_syscall_enter me s
  | SyscallLeave => scheduler_syscall_leave me s false
  | PrepareIdle i stack bytes m => snd <$> scheduler_prepare_idle_cpu s i stack bytes m
  | StartCpu => snd <$> scheduler_start_cpu me s
  end.

(** What the callers and the machine guarantee: the flags register has the bits
    that are always or never set, pointers are threads, new memory is new, the
    stack pointer is inside the stack of the thread that runs. *)
Definition guaranteed (me : nat) (c : cpu_local) (o : op) (s : sched) : Prop :=
  match o with
  | Reschedule f | Yield f | Block f | Sleep _ f | Terminate f | PreparePreemption _ f | Trampoline f =>
      flags_safe f = true
  | Unblock t | TerminateThread t | Destroy t => is_Some (get s t)
  | Enqueue t => is_Some (get s t) /\ is_idle s t = false
  | Create _ _ m | CreateSuspended _ _ m =>
      forall t stack, m = Some (t, stack) -> fresh s t stack THREAD_KERNEL_STACK_SIZE
  | ContextRestored rsp => forall t th, current_thread c = Some t -> get s t = Some th -> stack_external th = false ->
      kernel_stack_base th <= rsp < u64 (kernel_stack_base th + kernel_stack_size th)
  | PrepareIdle i stack bytes m => (i < length (cpus s))%nat /\ forall t, m = Some t -> fresh s t stack bytes
  | GlobalTick | TimerTick | SyscallEnter | SyscallLeave | StartCpu | Finish _ => True
  end.

(** A CPU in a switch can only finish it; no other CPU can finish one. *)
Definition allowed (me : nat) (o : op) (s : sched) : Prop :=
  exists c, cpus s !! me = Some c /\
    match o with
    | Finish rsp => exists out r f k, switching c = Saving out r f /\ cores s !! out = Some k /\
        rsp <> 0 /\ saved_stack_bounds (set_saved_stack_pointer rsp k) = true
    | _ => switching c = NoSwitch /\ guaranteed me c o s
    end.

(** The states of the system, from the end of the initialisation. *)
Inductive reachable : sched -> Prop :=
  | reach_boot boot_stack boot_size t stack s others :
      t <> bootstrap_thread -> stack <> 0 -> stack_fits stack THREAD_KERNEL_STACK_SIZE ->
      scheduler_init boot_stack boot_size (Some (t, stack)) = Some (true, s) ->
      reachable (cpu_init_bsp s others)
  | reach_step s me o s' : reachable s -> allowed me o s -> exec me o s = Some s' -> reachable s'.

(** The tick of the first CPU ages the waiting threads; all other steps leave
    them alone. *)
Definition ages (me : nat) (o : op) (s : sched) : bool :=
  match o, cpus s !! me with GlobalTick, Some c => bsp c | _, _ => false end.

Definition progress (me : nat) (o : op) (s s' : sched) : Prop :=
  if ages me o s
  then scheduler_tick_count s' = next_tick (scheduler_tick_count s) /\
       ticked (cores s) (cores s') (scheduler_tick_count s')
  else undisturbed (cores s) (cores s').

Lemma enqueue_good me s c t th :
  good s -> cpus s !! me = Some c -> get s t = Some th -> is_idle s t = false ->
  exists r s', scheduler_enqueue me s t = Some (r, s') /\ good s' /\ undisturbed (cores s) (cores s').
Proof.
  intros HG Hc Ht Hi. unfold scheduler_enqueue.
  destruct (negb (is_state th THREAD_STATE_READY) || queued th || negb (bool_decide (running_cpu th = None))) eqn:Eg.
  { exists false, s. unfold scheduler_enqueue_locked. rewrite Ht. cbn [mbind option_bind]. rewrite Eg.
    split; [done|]. split; [done|apply undisturbed_refl]. }
  unfold is_state in Eg. rewrite !orb_false_iff, !negb_false_iff, !bool_decide_eq_true in Eg. destruct Eg as [[E1 E2] E3].
  destruct HG as (qs & sl & HL & HI). pose proof (get_cores s t th Ht) as Hk.
  pose proof (t_fits _ _ _ _ _ (i_threads _ _ _ _ _ HI t _ Hk)) as HF.
  assert (Hs : sleeping th = false).
  { destruct (sleeping th) eqn:E; [|done]. destruct (f_sleep _ _ _ _ HF (f_sleeping _ _ _ _ HF E)) as (_ & H & _).
    cbn in H. congruence. }
  pose proof (not_idle s qs sl t HI Hi) as Hni.
  destruct (enqueue_spec me s c qs sl t th HL (inv_lists _ _ _ _ _ HI) (inv_valid _ _ _ _ _ HI) Hc Ht E1 E2 E3 Hs Hni)
    as (s' & -> & L' & K' & (_ & _ & C' & N') & O' & _ & M').
  exists true, s'. split; [done|]. rewrite K'. split; [|eapply undisturbed_insert; [exact Hk|cbn; congruence]].
  eexists _, sl. split; [exact L'|]. rewrite K', C', N'.
  eapply inv_queued; [exact HI|exact Hk|done|done|done|exact M'|done|done|done|].
  eapply lists_ok_fits; [exact O'|apply lookup_insert_eq].
Qed.

(** Every step returns, leaves a good state, and ages threads only in a tick. *)
Lemma step_good s me o :
  good s -> allowed me o s -> exists s', exec me o s = Some s' /\ good s' /\ progress me o s s'.
Proof.
  intros HG (c & Hc & Ha). unfold progress.
  assert (Hq : forall s', calm s s' -> good s' /\ undisturbed (cores s) (cores s')).
  { intros s' [G Q]. split; [done|by apply quiet_still]. }
  destruct o; cbn [exec ages guaranteed] in *; rewrite ?Hc; destruct Ha as [Hns Hg].
  - destruct (reschedule_good s me c flags HG Hc Hns Hg) as (r & s' & -> & H). by exists s'.
  - destruct (yield_good s me c flags HG Hc Hns Hg) as (r & s' & -> & H). by exists s'.
  - destruct (block_good s me c flags HG Hc Hns Hg) as (r & s' & -> & H1 & H2 & _). by exists s'.
  - destruct (sleep_good s me c flags HG Hc Hns Hg ticks) as (r & s' & -> & H1 & H2 & _). by exists s'.
  - destruct (terminate_good s me c flags HG Hc Hns Hg) as (r & s' & -> & H). by exists s'.
  - rename Hns into out. destruct Hg as (r & f & k & Hsw & Hk & Hr & Hb). destruct HG as (qs & sl & HL & HI).
    destruct (finish_good s me c out r f rsp qs sl k HL HI Hc Hsw Hk (conj Hr Hb)) as (s' & -> & H). by exists s'.
  - destruct Hg as [th Ht]. destruct (unblock_good s me c t th HG Hc Ht) as (r & s' & -> & H1 & H2 & _). by exists s'.
  - destruct Hg as [th Ht]. destruct (terminate_thread_good s t th HG Ht) as (r & s' & -> & H1 & H2 & _). by exists s'.
  - destruct Hg as [th Ht]. destruct (destroy_good s t th HG Ht) as (r & s' & -> & H1 & H2 & _). by exists s'.
  - destruct Hg as [[th Ht] Hi]. destruct (enqueue_good me s c t th HG Hc Ht Hi) as (r & s' & -> & H). by exists s'.
  - destruct (create_good me s c named priority memory HG Hc Hg) as (r & s' & -> & H1 & H2 & _). by exists s'.
  - destruct (create_suspended_good me s c named priority memory HG Hc Hg) as (r & s' & -> & H). by exists s'.
  - destruct (global_tick_good s me c HG Hc) as (r & s' & -> & H1 & H2). exists s'. split; [done|]. split; [done|].
    destruct (bsp c); [done|]. rewrite H2. apply undisturbed_refl.
  - destruct (timer_tick_calm s me c HG Hc) as (r & s' & -> & H). exists s'. split; [done|by apply Hq].
  - destruct (prepare_preemption_good s me c flags HG Hc Hns Hg regs) as (r & s' & -> & H). by exists s'.
  - destruct (trampoline_good s me c flags HG Hc Hns Hg) as (r & s' & -> & H). by exists s'.
  - destruct (restored_good s me c 2 HG Hc Hns ltac:(done) rsp Hg) as (s' & -> & H). exists s'. split; [done|by apply Hq].
  - destruct (syscall_enter_calm s me c 2 HG Hc Hns ltac:(done)) as (s' & -> & H). exists s'. split; [done|by apply Hq].
  - destruct (syscall_leave_calm s me c 2 HG Hc Hns ltac:(done)) as (s' & -> & H). exists s'. split; [done|by apply Hq].
  - destruct Hg as [Hi Hm]. destruct (prepare_idle_cpu_good s i stack bytes memory HG Hi Hm) as (r & s' & -> & H). by exists s'.
  - destruct (start_cpu_good s me HG) as (r & s' & -> & H); [by eapply lookup_lt_Some|]. by exists s'.
Qed.

Lemma reachable_good s : reachable s -> good s.
Proof.
  induction 1 as [bs bz t st s others Hne Hst Hf E|s me o s' _ IH Ha He].
  - destruct (boot_good bs bz t st Hne (conj Hst Hf) others) as (s' & E' & H). congruence.
  - destruct (step_good s me o IH Ha) as (s'' & E & G & _). congruence.
Qed.

End SchedulerSafety.
