(* ===== verification/SchedulerTheorems.v ===== *)
(** What the scheduler guarantees: it never fails or panics and its own checks
    always hold, no thread is lost or run twice, threads are chosen by priority
    and then in order of arrival, sleepers wake in time, no thread waits for
    ever below the highest priority; and one hazard of the switch of contexts. *)
From stdpp Require Import gmap.
From S2P Require Import Prelude SchedState Scheduler SchedLinks SchedulerProofs SchedulerSteps.
From S2P Require Import SchedulerOps SchedulerTime SchedulerRun SchedulerLife SchedulerBoot.
From S2P Require Import SchedulerSafety.
Import SchedState Scheduler SchedLinks SchedulerProofs SchedulerSteps SchedulerOps SchedulerTime SchedulerRun
  SchedulerLife SchedulerBoot SchedulerSafety.

Module SchedulerTheorems.

(** * A small system, for examples *)

(** The first CPU after the initialisation, with one more CPU. *)
Definition example_init : sched :=
  match scheduler_init 0x100000 65536 (Some (1000, 0x200000)) with
  | Some (_, s) => s
  | None => Sched ∅ empty_queue empty_queue empty_queue None 0 0 zero_stats [] 0
  end.
Definition example_boot : sched := cpu_init_bsp example_init 1.

Definition FLAGS : Z := 0x202.

(** The second CPU is started and three threads are created; the first of them
    runs on the first CPU. *)
Definition example_ops : list (nat * op) :=
  [(0%nat, PrepareIdle 1 0x300000 65536 (Some 1001)); (1%nat, StartCpu);
   (0%nat, Create true 1 (Some (1002, 0x400000))); (0%nat, Create true 2 (Some (1003, 0x500000)));
   (0%nat, Create true 0 (Some (1004, 0x600000)));
   (0%nat, Yield FLAGS); (0%nat, Finish (0x100000 + 32768))].

(** A decision procedure for the guarantees the examples need. *)
Definition fresh_b (s : sched) (t stack bytes : Z) : bool :=
  match get s t with None => true | Some _ => false end &&
  (0 <=? stack) && (0 <=? bytes) && (stack + Z.max bytes 72 <=? U64_MAX) &&
  (Z.of_nat (size (threads s)) <? 4294967295).

Definition allowed_b (me : nat) (o : op) (s : sched) : bool :=
  match cpus s !! me with
  | None => false
  | Some c =>
      match o, switching c with
      | Finish rsp, Saving out _ _ =>
          match get s out with
          | None => false
          | Some th => negb (rsp =? 0) && saved_stack_bounds (set_saved_stack_pointer rsp th)
          end
      | (Yield f | Block f | Sleep _ f | Reschedule f), NoSwitch => flags_safe f
      | (StartCpu | GlobalTick | TimerTick), NoSwitch => true
      | (Create _ _ (Some (t, stack)) | CreateSuspended _ _ (Some (t, stack))), NoSwitch =>
          fresh_b s t stack THREAD_KERNEL_STACK_SIZE
      | PrepareIdle i stack bytes (Some t), NoSwitch =>
          (Z.of_nat i <? Z.of_nat (length (cpus s))) && fresh_b s t stack bytes
      | (Unblock t | Destroy t), NoSwitch => match get s t with Some _ => true | None => false end
      | _, _ => false
      end
  end.

Lemma fresh_b_spec s t stack bytes : fresh_b s t stack bytes = true -> fresh s t stack bytes.
Proof.
  unfold fresh_b, fresh, stack_fits. rewrite !andb_true_iff. intros [[[[H1 H2] H3] H4] H5].
  split; [by destruct (get s t)|]. lia.
Qed.

Lemma allowed_b_spec me o s : allowed_b me o s = true -> allowed me o s.
Proof.
  unfold allowed_b, allowed. destruct (cpus s !! me) as [c|] eqn:Hc; [|done]. intros H. exists c. split; [done|].
  destruct o; repeat match goal with
    | m : option (Z * Z) |- _ => destruct m as [[new st]|]
    | m : option Z |- _ => destruct m as [new|]
    end; destruct (switching c) as [|out r g|out] eqn:Es; try done; cbn [guaranteed].
  - destruct (get s out) as [th|] eqn:Eg; [|done]. rewrite andb_true_iff, negb_true_iff, Z.eqb_neq in H.
    exists out, r, g, (core th). split; [done|]. split; [by apply get_cores|]. destruct H. done.
  - split; [done|]. by destruct (get s t); [eexists|].
  - split; [done|]. by destruct (get s t); [eexists|].
  - split; [done|]. intros x y [= <- <-]. by apply fresh_b_spec.
  - split; [done|]. intros x y [= <- <-]. by apply fresh_b_spec.
  - apply andb_true_iff in H as [H1 H2]. split; [done|]. split; [lia|]. intros x [= <-]. by apply fresh_b_spec.
Qed.

(** Running a list of allowed steps. *)
Fixpoint run (ops : list (nat * op)) (s : sched) : option sched :=
  match ops with
  | [] => Some s
  | (me, o) :: ops => if allowed_b me o s then s ← exec me o s; run ops s else None
  end.

Definition from_option (s : sched) (r : option sched) : sched := match r with Some s => s | None => s end.
Definition example : sched := from_option example_boot (run example_ops example_boot).

Lemma example_boot_reachable : reachable example_boot.
Proof.
  apply (reach_boot 0x100000 65536 1000 0x200000 example_init 1); [done|done|by vm_compute|].
  vm_compute. reflexivity.
Qed.

Lemma run_reachable ops : forall s s', reachable s -> run ops s = Some s' -> reachable s'.
Proof.
  induction ops as [|[me o] ops IH]; intros s s' Hr He; cbn [run] in He; [by injection He as <-|].
  destruct (allowed_b me o s) eqn:Ha; [|done]. destruct (exec me o s) as [s1|] eqn:E; [|done]. cbn [mbind option_bind] in He.
  eapply IH; [|exact He]. eapply reach_step; [done|by apply allowed_b_spec|exact E].
Qed.

Lemma example_reachable : reachable example.
Proof.
  apply (run_reachable example_ops example_boot); [apply example_boot_reachable|]. vm_compute. reflexivity.
Qed.

(** * Safety *)



(** The queues and the sleepers of a state, read from its pointers. *)
Definition shows (s : sched) (qs : queues) (sl : list Z) : Prop :=
  (forall p, chain_all s (head_ (ready_queue s p)) = Some (qs p) /\ tail_ (ready_queue s p) = last (qs p) /\
     count (ready_queue s p) = Z.of_nat (length (qs p))) /\
  chain_all s (sleeping_threads s) = Some sl /\ NoDup (everyone qs sl).

Lemma linked_shows s qs sl : linked s qs sl -> shows s qs sl.
Proof.
  intros HL. split; [|split; [by eapply chain_sleepers|apply (l_nodup _ _ _ HL)]].
  intros p. split; [by eapply chain_queue|]. by destruct (l_queues _ _ _ HL p) as (_ & ? & ? & _).
Qed.

(** C6: In every state the system reaches, the lists are without duplicates, a
    thread is in the queue of its priority exactly when it is marked as queued
    and among the sleepers exactly when it is marked as sleeping; queued threads
    are ready and not running, sleepers are blocked; a thread runs on exactly one
    CPU if its state says so, and on none otherwise. *)
Theorem scheduler_consistent s :
  reachable s ->
  exists qs sl, shows s qs sl /\
    (forall t th, get s t = Some th ->
       (forall p, t ∈ qs p <-> queued th = true /\ effective_priority th = p) /\
       (t ∈ sl <-> sleeping th = true) /\
       (queued th = true -> state th = THREAD_STATE_READY /\ running_cpu th = None) /\
       (sleeping th = true -> state th = THREAD_STATE_BLOCKED /\ running_cpu th = None) /\
       (state th = THREAD_STATE_RUNNING <-> exists i c, cpus s !! i = Some c /\ current_thread c = Some t)) /\
    (forall i j c d t, cpus s !! i = Some c -> cpus s !! j = Some d -> current_thread c = Some t ->
       current_thread d = Some t -> i = j).
Proof.
  intros Hr. destruct (reachable_good s Hr) as (qs & sl & HL & HI). exists qs, sl. split; [by apply linked_shows|].
  split; [|intros; by eapply current_unique]. intros t th Ht. pose proof (get_cores s t th Ht) as Hk.
  pose proof (i_threads _ _ _ _ _ HI t _ Hk) as [[F1 F2 F3 F4 F5] _ T3 T4 _ _ _ _ _].
  assert (Hq : queued th = true -> waits (effective_priority th) (core th)) by (intros H; by apply F1, F3).
  assert (Hs : sleeping th = true -> sleeps (core th)) by (intros H; by apply F2, F4).
  split; [|split; [|split; [|split]]].
  - intros p. split; [intros Hp; by destruct (F1 p Hp) as (? & _ & ? & _)|intros [H <-]; by apply F3].
  - split; [intros Hp; by destruct (F2 Hp) as (_ & _ & ? & _)|apply F4].
  - intros H. by destruct (Hq H) as (_ & ? & _ & _ & ?).
  - intros H. by destruct (Hs H) as (_ & ? & _ & ?).
  - split.
    + intros H. destruct (T4 H) as [i Hi]. destruct (T3 i Hi) as (c & Hc & [[Hcur _]|(_ & H' & _)]); [by exists i, c|].
      change (state th = THREAD_STATE_READY) in H'. congruence.
    + intros (i & c & Hc & Hcur). destruct (c_current _ _ _ (i_cpus _ _ _ _ _ HI i c Hc) t Hcur) as (k & Hk' & H & _).
      rewrite Hk in Hk'. by injection Hk' as <-.
Qed.

Lemma scheduler_consistent_witness :
  exists qs sl, shows example qs sl /\ (1003 ∈ qs THREAD_PRIORITY_BACKGROUND).
Proof.
  destruct (scheduler_consistent example example_reachable) as (qs & sl & HS & HT & _). exists qs, sl. split; [done|].
  destruct (get example 1003) as [th|] eqn:E; [|vm_compute in E; discriminate E].
  apply (HT 1003 th E). revert E. vm_compute. intros [= <-]. split; reflexivity.
Defined.

(** * Selection *)

Lemma filter_out (t : Z) (l : list Z) : t ∉ l -> List.filter (fun x => negb (x =? t)) l = l.
Proof.
  induction l as [|x l IH]; intros Hn; cbn [List.filter]; [done|]. apply not_elem_of_cons in Hn as [Hx Hl].
  destruct (Z.eqb_spec x t); [congruence|]. cbn [negb]. by rewrite IH.
Qed.

Lemma removed_filter qs sl p l1 t l2 p' :
  NoDup (everyone qs sl) -> qs p = l1 ++ t :: l2 ->
  upd qs p (l1 ++ l2) p' = List.filter (fun x => negb (x =? t)) (qs p').
Proof.
  intros Hn Hp. assert (Ht : t ∈ qs p) by (rewrite Hp; apply elem_of_app; right; apply list_elem_of_here).
  unfold upd. destruct (decide (p' = p)) as [->|Hne].
  - rewrite Hp, List.filter_app. cbn [List.filter]. rewrite Z.eqb_refl. cbn [negb].
    pose proof (queue_nodup _ _ p Hn) as Hd. rewrite Hp in Hd. apply NoDup_app in Hd as (_ & H12 & [H2 _]%NoDup_cons).
    rewrite !filter_out; [done|done|]. intros H. by apply (H12 t H), list_elem_of_here.
  - rewrite filter_out; [done|]. intros H. apply Hne. by apply (queue_disjoint qs sl p' p t).
Qed.

(** C7: A CPU selects the first thread it can run, looking at the queues from
    high to background priority and at each queue in the order of arrival; that
    thread leaves its queue and the others keep their order.  If there is none,
    the CPU selects its idle thread if that can run. *)
Theorem scheduler_selects_by_priority s me c :
  reachable s -> cpus s !! me = Some c ->
  exists qs sl, shows s qs sl /\
    match List.find (can_run s c) (qs THREAD_PRIORITY_HIGH ++ qs THREAD_PRIORITY_NORMAL ++ qs THREAD_PRIORITY_BACKGROUND) with
    | Some t => exists s', scheduler_select_next me s = Some (Some t, s') /\
        shows s' (fun p => List.filter (fun x => negb (x =? t)) (qs p)) sl
    | None => exists r s', scheduler_select_next me s = Some (r, s') /\ shows s' qs sl /\
        r = match idle_thread c with
            | Some t => th ← get s t; if idle_ready me s c t th then Some t else None
            | None => None
            end
    end.
Proof.
  intros Hr Hc. destruct (reachable_good s Hr) as (qs & sl & HL & HI). exists qs, sl. split; [by apply linked_shows|].
  pose proof (select_next_spec me s c qs sl HL (inv_lists _ _ _ _ _ HI) (inv_valid _ _ _ _ _ HI) Hc) as HS.
  fold (pick s c qs). unfold scheduler_select_next. destruct (pick s c qs) as [t|].
  - destruct HS as (th & s' & l1 & l2 & Ht & _ & E & Hp & L' & _). exists s'. split; [done|].
    apply linked_shows in L' as (S1 & S2 & S3). pose proof (fun p' => removed_filter qs sl _ l1 t l2 p' (l_nodup _ _ _ HL) Hp) as HF.
    split; [|split; [done|]].
    + intros p. rewrite <- HF. apply S1.
    + unfold everyone in *. by rewrite <- !HF.
  - rewrite HS. destruct (idle_thread c) as [t|] eqn:Ei; [|exists None, s; split; [done|]; split; [by apply linked_shows|done]].
    destruct (c_idle _ _ _ (i_cpus _ _ _ _ _ HI me c Hc) t Ei) as [_ [k Hk]].
    destruct (cores_lookup s t k Hk) as (th & Ht & _). rewrite Ht. cbn [mbind option_bind].
    destruct (idle_ready me s c t th).
    + eexists _, _. split; [reflexivity|]. split; [|done]. apply linked_shows. eapply linked_ext, HL; [done|by intros []|done].
    + eexists _, s. split; [reflexivity|]. split; [by apply linked_shows|done].
Qed.

Definition example_cpu : cpu_local := match cpus example !! 0%nat with Some c => c | None => boot_cpu end.

Lemma scheduler_selects_by_priority_witness :
  exists s', scheduler_select_next 0 example = Some (Some 1002, s').
Proof.
  destruct (scheduler_selects_by_priority example 0 example_cpu example_reachable) as (qs & sl & (HS & _ & _) & H);
    [vm_compute; reflexivity|].
  destruct (HS THREAD_PRIORITY_HIGH) as (H1 & _), (HS THREAD_PRIORITY_NORMAL) as (H2 & _), (HS THREAD_PRIORITY_BACKGROUND) as (H3 & _).
  vm_compute in H1, H2, H3. injection H1 as H1. injection H2 as H2. injection H3 as H3. rewrite <- H1, <- H2, <- H3 in H.
  vm_compute in H. destruct H as (s' & H & _). exists s'. rewrite <- H. vm_compute. reflexivity.
Defined.

(** * Blocking and waking *)

Lemma cores_get s t k : cores s !! t = Some k -> exists th, get s t = Some th /\ core th = k.
Proof. intros H. destruct (cores_lookup s t k H) as (th & Ht & ->). by exists th. Qed.

(** A running thread that is not an idle thread always blocks when it asks
    to, unless a mutex was handed to it in the meantime; [scheduler_unblock]
    succeeds on exactly the blocked threads, and leaves them ready in the queue
    of their base priority, a background thread one level above it. *)
Theorem scheduler_block_and_wake s me c t th f :
  reachable s -> cpus s !! me = Some c -> switching c = NoSwitch -> get s t = Some th -> flags_safe f = true ->
  (current_thread c = Some t -> idle_thread c <> Some t ->
     exists s', scheduler_block me s f = Some (true, s') /\
       (mutex_wake_pending th = false -> exists th', get s' t = Some th' /\ state th' = THREAD_STATE_BLOCKED)) /\
  (exists s', scheduler_unblock me s t = Some (is_state th THREAD_STATE_BLOCKED, s') /\
     (state th = THREAD_STATE_BLOCKED -> exists th', get s' t = Some th' /\ waits (woken_priority th) th')).
Proof.
  intros Hr Hc Hns Ht Hf. pose proof (reachable_good s Hr) as HG. split.
  - intros Hcur Hi. destruct (block_good s me c f HG Hc Hns Hf) as (r & s' & E & _ & _ & HB).
    destruct (HB t th Hcur Ht Hi) as [-> HB']. exists s'. split; [done|]. intros Hw.
    destruct (HB' Hw) as (k & Hk & Hs). destruct (cores_get s' t k Hk) as (th' & Ht' & <-). by exists th'.
  - destruct (unblock_good s me c t th HG Hc Ht) as (r & s' & E & _ & _ & _ & -> & HB). exists s'. split; [done|].
    intros Hs. destruct HB as (k & Hk & Hw); [unfold is_state; by rewrite bool_decide_eq_true_2|].
    destruct (cores_get s' t k Hk) as (th' & Ht' & <-). by exists th'.
Qed.

(** The thread that runs on the first CPU of the example. *)
Definition example_thread : kernel_thread :=
  match get example 1004 with Some th => th | None => new_thread THREAD_PRIORITY_HIGH 0 0 false end.

Lemma scheduler_block_and_wake_witness :
  exists s', scheduler_block 0 example FLAGS = Some (true, s') /\ exists th', get s' 1004 = Some th' /\ state th' = THREAD_STATE_BLOCKED.
Proof.
  destruct (scheduler_block_and_wake example 0 example_cpu 1004 example_thread FLAGS example_reachable) as [H _];
    [vm_compute; reflexivity|vm_compute; reflexivity|vm_compute; reflexivity|vm_compute; reflexivity|].
  destruct H as (s' & E & H); [vm_compute; reflexivity|vm_compute; discriminate|].
  exists s'. split; [exact E|]. apply H. vm_compute. reflexivity.
Defined.

(** A thread that sleeps for a number of ticks is blocked until that many
    ticks later (or the last tick there can be); every tick of the first CPU wakes
    exactly the sleepers whose time has come, whatever they are, and puts them in
    a ready queue. *)
Theorem scheduler_sleep_wakes_on_time s me c :
  reachable s -> cpus s !! me = Some c -> switching c = NoSwitch ->
  (forall t ticks f, current_thread c = Some t -> idle_thread c <> Some t -> flags_safe f = true -> 0 < ticks <= U64_MAX ->
     exists s' th, scheduler_sleep me s ticks f = Some (true, s') /\ get s' t = Some th /\
       state th = THREAD_STATE_BLOCKED /\ sleeping th = true /\
       (is_u64 (scheduler_tick_count s) -> wakeup_tick th = Z.min U64_MAX (scheduler_tick_count s + ticks))) /\
  (bsp c = true -> exists r s', scheduler_global_tick me s = Some (r, s') /\
     scheduler_tick_count s' = next_tick (scheduler_tick_count s) /\
     forall t th, get s t = Some th -> sleeping th = true -> exists th', get s' t = Some th' /\
       if wakeup_tick th <=? scheduler_tick_count s' then exists p, waits p th' else sleeps th' /\ wakeup_tick th' = wakeup_tick th).
Proof.
  intros Hr Hc Hns. pose proof (reachable_good s Hr) as HG. split.
  - intros t ticks f Hcur Hi Hf Hn. destruct (sleep_good s me c f HG Hc Hns Hf ticks) as (r & s' & E & _ & _ & HS).
    destruct (HS t Hcur Hi ltac:(lia)) as (-> & k & Hk & H1 & H2 & H3).
    destruct (cores_get s' t k Hk) as (th & Ht & <-). exists s', th. split; [done|]. split; [done|]. split; [done|].
    split; [done|]. intros Hu. cbn in H3. rewrite H3. unfold wakeup_at. destruct (Z.ltb_spec (U64_MAX - ticks) (scheduler_tick_count s)); lia.
  - intros Hb. destruct (global_tick_good s me c HG Hc) as (r & s' & E & HG' & HT). rewrite Hb in HT. destruct HT as [HT1 HT2].
    exists r, s'. split; [done|]. split; [done|]. intros t th Ht Hs. pose proof (get_cores s t th Ht) as Hk.
    destruct (Z.leb_spec (wakeup_tick th) (scheduler_tick_count s')) as [Hle|Hlt].
    + destruct (tk_wakes _ _ _ HT2 t _ Hk Hs Hle) as (k' & p & Hk' & Hw). destruct (cores_get s' t k' Hk') as (th' & Ht' & <-).
      exists th'. split; [done|by exists p].
    + pose proof (tk_sleeps _ _ _ HT2 t _ Hk Hs Hlt) as Hk'. destruct (cores_get s' t _ Hk') as (th' & Ht' & He).
      exists th'. split; [done|]. destruct HG as (qs & sl & HL & HI).
      pose proof (t_fits _ _ _ _ _ (i_threads _ _ _ _ _ HI t _ Hk)) as HF.
      pose proof (f_sleep _ _ _ _ HF (f_sleeping _ _ _ _ HF Hs)) as HS. rewrite <- He in HS. split; [exact HS|].
      exact (f_equal wakeup_tick He).
Qed.

Lemma scheduler_sleep_wakes_on_time_witness :
  exists s' th, scheduler_sleep 0 example 10 FLAGS = Some (true, s') /\ get s' 1004 = Some th /\ wakeup_tick th = 10.
Proof.
  destruct (scheduler_sleep_wakes_on_time example 0 example_cpu example_reachable) as [H _]; [vm_compute; reflexivity|vm_compute; reflexivity|].
  destruct (H 1004 10 FLAGS) as (s' & th & E & Ht & _ & _ & Hw);
    [vm_compute; reflexivity|vm_compute; discriminate|vm_compute; reflexivity|vm_compute; split; [reflexivity|discriminate]|].
  exists s', th. split; [exact E|]. split; [exact Ht|]. rewrite Hw; vm_compute; [reflexivity|split; [discriminate|reflexivity]].
Defined.

(** * No starvation *)

(** How many ticks a waiting thread is at most away from the highest priority. *)
Definition rank (k : kernel_thread) : Z :=
  match base_priority k, effective_priority k with
  | _, THREAD_PRIORITY_HIGH => 0
  | THREAD_PRIORITY_BACKGROUND, THREAD_PRIORITY_BACKGROUND =>
      BACKGROUND_HIGH_RESCUE_THRESHOLD + Z.max 1 (BACKGROUND_STARVATION_THRESHOLD - ready_wait_ticks k)
  | THREAD_PRIORITY_BACKGROUND, THREAD_PRIORITY_NORMAL =>
      Z.max 1 ((if wakeup_boosted k then BACKGROUND_STARVATION_THRESHOLD else BACKGROUND_HIGH_RESCUE_THRESHOLD)
               - ready_wait_ticks k)
  | _, _ => Z.max 1 (NORMAL_STARVATION_THRESHOLD - ready_wait_ticks k)
  end.

Lemma rank_nonneg k : 0 <= rank k.
Proof.
  unfold rank, BACKGROUND_HIGH_RESCUE_THRESHOLD, NORMAL_STARVATION_THRESHOLD.
  destruct (base_priority k), (effective_priority k); lia.
Qed.

Lemma rank_zero k : rank k <= 0 -> effective_priority k = THREAD_PRIORITY_HIGH.
Proof.
  unfold rank, BACKGROUND_HIGH_RESCUE_THRESHOLD, NORMAL_STARVATION_THRESHOLD.
  destruct (base_priority k), (effective_priority k); (done || lia).
Qed.

Lemma rank_bound k : 0 <= ready_wait_ticks k -> rank k <= 5500.
Proof.
  unfold rank, BACKGROUND_HIGH_RESCUE_THRESHOLD, NORMAL_STARVATION_THRESHOLD, BACKGROUND_STARVATION_THRESHOLD.
  destruct (base_priority k), (effective_priority k), (wakeup_boosted k); lia.
Qed.

Lemma rank_waiting k k' : waiting k' = waiting k -> rank k' = rank k.
Proof. unfold waiting, rank. by intros [= -> -> -> ->]. Qed.

(** A tick brings a waiting thread closer to the highest priority. *)
Lemma rank_aged k :
  thread_priority_state_valid k = true -> effective_priority k <> THREAD_PRIORITY_HIGH -> rank (aged k) <= rank k - 1.
Proof.
  intros Hv He.
  assert (Hb : ready_wait_ticks (bump k) = ready_wait_ticks k + 1 \/ (ready_wait_ticks k = U64_MAX /\ ready_wait_ticks (bump k) = U64_MAX)).
  { unfold bump. destruct (Z.eqb_spec (ready_wait_ticks k) U64_MAX); [by right|by left]. }
  destruct (bump_fields k) as (_ & _ & _ & _ & _ & _ & _ & _ & B9 & B10 & B11 & _).
  revert Hv He. unfold aged, next_level, thread_priority_state_valid. rewrite <- B9, <- B10, <- B11.
  set (b := bump k) in *. intros Hv He.
  assert (Hr : rank k = match base_priority b, effective_priority b with
    | _, THREAD_PRIORITY_HIGH => 0
    | THREAD_PRIORITY_BACKGROUND, THREAD_PRIORITY_BACKGROUND => 5000 + Z.max 1 (500 - ready_wait_ticks k)
    | THREAD_PRIORITY_BACKGROUND, THREAD_PRIORITY_NORMAL => Z.max 1 ((if wakeup_boosted b then 500 else 5000) - ready_wait_ticks k)
    | _, _ => Z.max 1 (5000 - ready_wait_ticks k) end) by (unfold rank; by rewrite B9, B10, B11).
  rewrite Hr. clear Hr. unfold BACKGROUND_HIGH_RESCUE_THRESHOLD, NORMAL_STARVATION_THRESHOLD, BACKGROUND_STARVATION_THRESHOLD.
  unfold U64_MAX in Hb.
  destruct (base_priority b) eqn:Eb, (effective_priority b) eqn:Ee; try done.
  - destruct (Z.leb_spec 5000 (ready_wait_ticks b)); unfold rank; cbn; rewrite ?Eb, ?Ee; unfold NORMAL_STARVATION_THRESHOLD; lia.
  - destruct (wakeup_boosted b) eqn:Ew.
    + destruct (Z.leb_spec 500 (ready_wait_ticks b)); unfold rank; cbn; rewrite ?Eb, ?Ee, ?Ew; unfold BACKGROUND_STARVATION_THRESHOLD; lia.
    + destruct (Z.leb_spec 5000 (ready_wait_ticks b)); unfold rank; cbn; rewrite ?Eb, ?Ee, ?Ew;
        unfold BACKGROUND_HIGH_RESCUE_THRESHOLD, NORMAL_STARVATION_THRESHOLD; lia.
  - destruct (Z.leb_spec 500 (ready_wait_ticks b)); unfold rank; cbn; rewrite ?Eb, ?Ee;
      unfold BACKGROUND_HIGH_RESCUE_THRESHOLD, NORMAL_STARVATION_THRESHOLD, BACKGROUND_STARVATION_THRESHOLD; lia.
Qed.

(** [t] waits in every state of a run from [s] to [s'] with [n] ticks. *)
Inductive waits_through (t : Z) (s : sched) : nat -> sched -> Prop :=
  | wait_here th : get s t = Some th -> queued th = true -> waits_through t s 0 s
  | wait_step n s1 me o s2 th : waits_through t s n s1 -> allowed me o s1 -> exec me o s1 = Some s2 ->
      get s2 t = Some th -> queued th = true ->
      waits_through t s (if ages me o s1 then S n else n) s2.

Lemma waits_through_spec t s n s' :
  reachable s -> waits_through t s n s' -> reachable s' /\ exists k k', cores s !! t = Some k /\ cores s' !! t = Some k' /\
    queued k' = true /\ rank k' <= Z.max 0 (rank k - Z.of_nat n).
Proof.
  intros Hr. induction 1 as [th Ht Hq|n s1 me o s2 th HW IH Ha He Ht Hq].
  - split; [done|]. exists (core th), (core th). pose proof (get_cores s t th Ht). pose proof (rank_nonneg (core th)).
    split; [done|]. split; [done|]. split; [done|]. lia.
  - destruct IH as (Hr1 & k & k1 & Hk & Hk1 & Hq1 & Hrank). split; [by eapply reach_step|].
    pose proof (reachable_good s1 Hr1) as HG1. destruct (step_good s1 me o HG1 Ha) as (s2' & E2 & HG2 & HP).
    rewrite He in E2. injection E2 as <-. pose proof (get_cores s2 t th Ht) as Hk2.
    exists k, (core th). split; [done|]. split; [done|]. split; [done|]. unfold progress in HP.
    destruct (ages me o s1).
    + destruct HP as [_ HT]. pose proof (tk_ages _ _ _ HT t k1 Hk1 Hq1) as HA. rewrite Hk2 in HA. injection HA as ->.
      destruct (decide (effective_priority k1 = THREAD_PRIORITY_HIGH)) as [E|E].
      * assert (rank k1 = 0) by (unfold rank; rewrite E; by destruct (base_priority k1)). lia.
      * change (rank (core (aged k1))) with (rank (aged k1)). destruct HG1 as (qs & sl & _ & HI).
        pose proof (rank_aged k1 (f_prio _ _ _ _ (t_fits _ _ _ _ _ (i_threads _ _ _ _ _ HI t k1 Hk1))) E).
        pose proof (rank_nonneg (aged k1)). lia.
    + rewrite (rank_waiting k1); [lia|]. by apply (HP t k1 (core th)).
Qed.

(** C8: A thread that waits in the ready queues while the first CPU ticks 5,500
    times has the highest priority, whatever priority it has of its own and
    whatever else the CPUs do in the meantime. *)
Theorem scheduler_no_starvation t s n s' th :
  reachable s -> waits_through t s n s' -> get s t = Some th -> 0 <= ready_wait_ticks th -> 5500 <= Z.of_nat n ->
  exists th', get s' t = Some th' /\ effective_priority th' = THREAD_PRIORITY_HIGH.
Proof.
  intros Hr HW Ht Ht0 Hn. destruct (waits_through_spec t s n s' Hr HW) as (_ & k & k' & Hk & Hk' & _ & Hrank).
  destruct (cores_get s' t k' Hk') as (th' & Ht' & <-). exists th'. split; [done|].
  rewrite (get_cores s t th Ht) in Hk. injection Hk as <-. pose proof (rank_bound (core th) Ht0).
  apply (rank_zero (core th')). lia.
Qed.

(** [n] ticks during which [t] waits. *)
Fixpoint tick_waiting (n : nat) (t : Z) (s : sched) : option sched :=
  match n with
  | O => match get s t with Some th => if queued th then Some s else None | None => None end
  | S n =>
      s ← tick_waiting n t s;
      if allowed_b 0 GlobalTick s && ages 0 GlobalTick s then
        s ← exec 0 GlobalTick s;
        match get s t with Some th => if queued th then Some s else None | None => None end
      else None
  end.

Lemma tick_waiting_spec t s n : forall s', tick_waiting n t s = Some s' -> waits_through t s n s'.
Proof.
  induction n as [|n IH]; cbn [tick_waiting]; intros s' H.
  - destruct (get s t) as [th|] eqn:Et; [|done]. destruct (queued th) eqn:Eq; [|done]. injection H as <-. by eapply wait_here.
  - destruct (tick_waiting n t s) as [s1|]; [|done]. cbn [mbind option_bind] in H.
    destruct (allowed_b 0 GlobalTick s1) eqn:Ea; [|done]. destruct (ages 0 GlobalTick s1) eqn:Eg; [|done].
    cbn [andb] in H. destruct (exec 0 GlobalTick s1) as [s2|] eqn:E2; [|done]. cbn [mbind option_bind] in H.
    destruct (get s2 t) as [th|] eqn:Et; [|done]. destruct (queued th) eqn:Eq; [|done]. injection H as <-.
    pose proof (wait_step t s n s1 0 GlobalTick s2 th (IH s1 eq_refl) (allowed_b_spec _ _ _ Ea) E2 Et Eq) as H.
    by rewrite Eg in H.
Qed.

Definition example_waited : sched := from_option example (tick_waiting (Z.to_nat 5500) 1003 example).
Definition example_waiter : kernel_thread :=
  match get example 1003 with Some th => th | None => new_thread THREAD_PRIORITY_HIGH 0 0 false end.

Lemma scheduler_no_starvation_witness :
  exists th, get example_waited 1003 = Some th /\ effective_priority th = THREAD_PRIORITY_HIGH.
Proof.
  apply (scheduler_no_starvation 1003 example (Z.to_nat 5500) example_waited example_waiter example_reachable).
  - apply tick_waiting_spec. vm_compute. reflexivity.
  - vm_compute. reflexivity.
  - vm_compute. discriminate.
  - rewrite Z2Nat.id; vm_compute; discriminate.
Defined.

(** * A hazard of the switch *)

Definition example_leaving : sched := from_option example (run [(0%nat, Yield FLAGS)] example).
Definition example_published : sched :=
  from_option example (scheduler_context_switch_saved 0 example_leaving (0x600000 + 32768)).

(** When [scheduler_context_switch_saved] has published the outgoing thread,
    another CPU can select it and make it its current thread before the first
    CPU has left its stack ([scheduler_context_switch_complete] has not run):
    [context_switch_pending] does not keep a thread from being selected. *)
Theorem switch_publishes_live_stack :
  reachable example_leaving /\
  scheduler_context_switch_saved 0 example_leaving (0x600000 + 32768) = Some example_published /\
  exists s c0 c1, scheduler_reschedule 1 example_published FLAGS = Some (true, s) /\
    cpus s !! 0%nat = Some c0 /\ switching c0 = Completing 1004 /\
    cpus s !! 1%nat = Some c1 /\ current_thread c1 = Some 1004 /\
    (context_switch_pending <$> get s 1004) = Some true.
Proof.
  split; [|split].
  - apply (run_reachable [(0%nat, Yield FLAGS)] example); [apply example_reachable|]. vm_compute. reflexivity.
  - vm_compute. reflexivity.
  - eexists _, _, _. split; [vm_compute; reflexivity|]. vm_compute. repeat split.
Qed.

End SchedulerTheorems.
