(* ===== verification/SchedulerFrame.v ===== *)
(** What the operations of the scheduler leave alone: a predicate on the fields
    of single threads that survives every operation, and the places of the other
    CPUs.  The mutexes keep their state in threads and rely on it. *)
From stdpp Require Import gmap.
From S2P Require Import Prelude SchedState Scheduler SchedLinks SchedulerProofs SchedulerSteps.
From S2P Require Import SchedulerOps SchedulerTime SchedulerRun SchedulerLife SchedulerSafety.
Import SchedState Scheduler SchedLinks SchedulerProofs SchedulerSteps SchedulerOps SchedulerTime SchedulerRun
  SchedulerLife SchedulerSafety.

Module SchedulerFrame.

(** The fields of a thread that belong to the mutexes. *)
Definition mutex_fields (th : kernel_thread) := (waiting_mutex th, mutex_wait_next th, mutex_wake_pending th).

(** What a CPU is doing. *)
Definition seat (c : cpu_local) := (current_thread c, switching c).

Create HintDb frame discriminated.

Section Frame.
Context (Φ : Z -> kernel_thread -> Prop) (live : Z -> Prop) (me : nat) (cs : list cpu_local).

(** [Φ] speaks of the mutex fields and of being blocked only. *)
Hypothesis stable : forall t th th', Φ t th -> mutex_fields th' = mutex_fields th ->
  (state th' = THREAD_STATE_BLOCKED -> state th = THREAD_STATE_BLOCKED) -> Φ t th'.

Definition it (s : sched) : sched := s.

Definition fine (s : sched) : Prop :=
  (forall t th, get s t = Some th -> Φ t th) /\ (forall t, live t -> is_Some (get s t)) /\
  (forall i, i <> me -> seat <$> cpus s !! i = seat <$> cs !! i).

(** The states that a computation may end in. *)
Definition ends {A} (final : A -> sched) (m : option A) : Prop :=
  forall a, m = Some a -> fine (final a).

Lemma ends_some {A} (final : A -> sched) a : fine (final a) -> ends final (Some a).
Proof. by intros H ? [= <-]. Qed.

Lemma ends_none {A} (final : A -> sched) : ends final None.
Proof. done. Qed.

Lemma ends_bind {A B} (final : B -> sched) (m : option A) (k : A -> option B) :
  (forall a, m = Some a -> ends final (k a)) -> ends final (mbind k m).
Proof. intros H b Hb. destruct m as [a|]; [|done]. by apply (H a). Qed.

Lemma ends_bind_state {A} (final : A -> sched) (m : option sched) (k : sched -> option A) :
  ends it m -> (forall s, fine s -> ends final (k s)) -> ends final (mbind k m).
Proof. intros Hm Hk. apply ends_bind. intros s E. by apply Hk, (Hm s). Qed.

Lemma ends_bind_pair {A B} (final : A -> sched) (m : option (B * sched)) (k : B * sched -> option A) :
  ends snd m -> (forall b s, fine s -> ends final (k (b, s))) -> ends final (mbind k m).
Proof. intros Hm Hk. apply ends_bind. intros [b s] E. apply Hk. by apply (Hm (b, s)). Qed.

Lemma fine_ext s s' : threads s' = threads s -> cpus s' = cpus s -> fine s -> fine s'.
Proof. unfold fine, get. by intros -> ->. Qed.

Lemma fine_queue s p q : fine s -> fine (set_ready_queue p q s).
Proof. by apply fine_ext; destruct p. Qed.

Lemma fine_stat s f : fine s -> fine (count_stat f s).
Proof. by apply fine_ext. Qed.

Lemma fine_cpu s f : fine s -> fine (modify_cpu s me f).
Proof.
  intros (H1 & H2 & H3). split; [done|]. split; [done|]. intros i Hi. cbn. rewrite list_lookup_alter_ne by done. by apply H3.
Qed.

Lemma fine_put s t th : fine s -> Φ t th -> fine (put s t th).
Proof.
  intros (H1 & H2 & H3) Ht. unfold fine, get, put. cbn. split; [|split; [|done]].
  - intros x k. destruct (decide (t = x)) as [<-|Hne]; [rewrite lookup_insert_eq; by intros [= <-]|].
    rewrite lookup_insert_ne by done. apply H1.
  - intros x Hx. destruct (decide (t = x)) as [<-|Hne]; [rewrite lookup_insert_eq; by eexists|].
    rewrite lookup_insert_ne by done. by apply H2.
Qed.

Lemma fine_release s t : fine s -> ~ live t -> fine (release_thread s t).
Proof.
  intros (H1 & H2 & H3) Ht. unfold fine, get, release_thread. cbn. split; [|split; [|done]].
  - intros x k [_ Hk]%lookup_delete_Some. by apply H1.
  - intros x Hx. rewrite lookup_delete_ne by congruence. by apply H2.
Qed.

Lemma ends_modify s t f : fine s -> (forall th, get s t = Some th -> Φ t th -> Φ t (f th)) -> ends it (modify s t f).
Proof.
  intros Hs Hf s'. unfold modify. destruct (get s t) as [th|] eqn:E; [|done]. intros [= <-].
  apply fine_put; [done|]. apply Hf; [done|]. by apply Hs.
Qed.

Lemma ends_plain s t f : fine s ->
  (forall th, mutex_fields (f th) = mutex_fields th /\ (state (f th) = THREAD_STATE_BLOCKED -> state th = THREAD_STATE_BLOCKED)) ->
  ends it (modify s t f).
Proof. intros Hs Hf. apply ends_modify; [done|]. intros th _ Ht. destruct (Hf th). by eapply stable. Qed.

(** The proofs follow the code: every branch, every call, every store. *)
Ltac fine_step :=
  match goal with
  | |- fine (count_stat _ _) => apply fine_stat
  | |- fine (modify_cpu _ me _) => apply fine_cpu
  | |- fine (set_ready_queue _ _ _) => apply fine_queue
  | |- fine (if ?b then _ else _) => destruct b
  | |- fine (put _ _ _) => apply fine_put
  | |- fine (set_sleeping_threads _ ?s) => apply (fine_ext s); [reflexivity|reflexivity|]
  | |- fine (set_scheduler_tick_count _ ?s) => apply (fine_ext s); [reflexivity|reflexivity|]
  | |- fine (set_next_thread_id _ ?s) => apply (fine_ext s); [reflexivity|reflexivity|]
  | H : fine ?s |- Φ ?t _ => eapply stable; [apply H; eassumption|reflexivity|done]
  | |- fine _ => assumption
  end.
Ltac plain := intros; repeat (match goal with |- context [if ?b then _ else _] => destruct b end); (split; [reflexivity|done]).
Ltac walk1 :=
  match goal with
  | |- forall _, _ => intro
  | |- ends _ None => apply ends_none
  | |- ends _ (Some _) => apply ends_some; cbv beta iota delta [fst snd it]; repeat fine_step
  | |- ends _ (modify _ _ _) => apply ends_plain; [repeat fine_step|plain]
  | |- ends _ (mbind _ (if ?b then _ else _)) => destruct b eqn:?
  | |- ends _ (mbind _ (match ?b with _ => _ end)) => destruct b eqn:?
  | |- ends _ (@mbind _ _ sched _ _ _) => apply ends_bind_state
  | |- ends _ (@mbind _ _ (_ * sched) _ _ _) => apply ends_bind_pair
  | |- ends _ (mbind _ _) => apply ends_bind
  | |- ends _ (if ?b then _ else _) => destruct b eqn:?
  | |- ends _ (match ?x with _ => _ end) => destruct x eqn:?
  | |- ends _ _ => progress cbv beta iota zeta
  | |- ends _ _ => solve [eauto with frame]
  end.
Ltac walk := repeat walk1.
Hint Extern 1 (fine _) => solve [repeat fine_step] : frame.
Hint Extern 1 (forall th, mutex_fields _ = _ /\ state _ = _) => (split; reflexivity) : frame.

Lemma remove_queued_ends s t : fine s -> ends it (scheduler_remove_queued_locked s t).
Proof using stable. intros. unfold scheduler_remove_queued_locked. walk. Qed.

Lemma peak_ends s : fine s -> ends it (scheduler_update_runnable_peak me s).
Proof using stable. intros. unfold scheduler_update_runnable_peak. walk. Qed.
Hint Resolve remove_queued_ends peak_ends : frame.

Lemma enqueue_ends s t : fine s -> ends snd (scheduler_enqueue_locked me s t).
Proof using stable. intros. unfold scheduler_enqueue_locked. walk. Qed.
Hint Resolve enqueue_ends : frame.

Lemma take_selected_ends s p t : fine s -> ends it (take_selected s p t).
Proof using stable. intros. unfold take_selected. walk. Qed.
Hint Resolve take_selected_ends : frame.

Lemma select_from_ends c ps : forall s, fine s -> ends snd (select_from s c ps).
Proof using stable. induction ps; intros; cbn [select_from]; walk. Qed.
Hint Resolve select_from_ends : frame.

Lemma select_next_ends s : fine s -> ends snd (scheduler_select_next_locked me s).
Proof using stable. intros. unfold scheduler_select_next_locked. walk. Qed.
Hint Resolve select_next_ends : frame.

Lemma requeue_ends s t p f : fine s ->
  (forall th, mutex_fields (f th) = mutex_fields th /\ state (f th) = state th) -> ends it (requeue_at me s t p f).
Proof using stable.
  intros Hs Hf. unfold requeue_at. walk.
  apply ends_plain; [done|]. intros th. destruct (Hf (set_effective_priority p th)) as [H1 H2]. cbn. by rewrite H2.
Qed.
Hint Resolve requeue_ends : frame.

Lemma age_thread_ends s t : fine s -> ends snd (age_thread me s t).
Proof using stable. intros. unfold age_thread. walk. Qed.
Hint Resolve age_thread_ends : frame.

Lemma age_queue_ends fuel : forall s cur up, fine s -> ends snd (age_queue fuel me s cur up).
Proof using stable. induction fuel; intros; cbn [age_queue]; walk. Qed.
Hint Resolve age_queue_ends : frame.

Lemma age_ends s : fine s -> ends snd (scheduler_age_ready_threads_locked me s).
Proof using stable. intros. unfold scheduler_age_ready_threads_locked. walk. Qed.
Hint Resolve age_ends : frame.

Lemma substitute_ends c s a o target : fine s -> ends snd (substitute_idle c s a o target).
Proof using stable. intros. unfold substitute_idle, undo_idle_dispatch. walk. Qed.

Lemma release_cpu_ends s a o : fine s -> ends it (release_cpu me s a o).
Proof using stable. intros. unfold release_cpu. walk. Qed.

Lemma enter_ends s a o target : fine s -> ends snd (enter_target me s a o target).
Proof using stable. intros. unfold enter_target. walk. Qed.
Hint Resolve substitute_ends release_cpu_ends enter_ends : frame.

Lemma prepare_dispatch_ends s a : fine s -> ends snd (scheduler_prepare_dispatch_locked me s a).
Proof using stable. intros. unfold scheduler_prepare_dispatch_locked. walk. Qed.

Lemma handoff_ends s o t f : fine s -> ends it (scheduler_handoff me s o t f).
Proof using stable. intros. unfold scheduler_handoff. walk. Qed.
Hint Resolve prepare_dispatch_ends handoff_ends : frame.

Lemma finish_dispatch_ends s r f : fine s -> ends snd (finish_dispatch me s r f).
Proof using stable. intros. unfold finish_dispatch. walk. Qed.
Hint Resolve finish_dispatch_ends : frame.

Lemma reschedule_ends s f : fine s -> ends snd (scheduler_reschedule me s f).
Proof using stable. intros. unfold scheduler_reschedule, scheduler_dispatch. walk. Qed.
Hint Resolve reschedule_ends : frame.

Lemma yield_ends s f : fine s -> ends snd (scheduler_yield me s f).
Proof using stable. intros. unfold scheduler_yield. walk. Qed.

Lemma saved_ends s rsp : fine s -> ends it (scheduler_context_switch_saved me s rsp).
Proof using stable. intros. unfold scheduler_context_switch_saved. walk. Qed.

Lemma complete_ends s : fine s -> ends it (scheduler_context_switch_complete me s).
Proof using stable. intros. unfold scheduler_context_switch_complete. walk. Qed.
Hint Resolve saved_ends complete_ends : frame.

Lemma finish_switch_ends s rsp : fine s -> ends it (finish_switch me s rsp).
Proof using stable. intros. unfold finish_switch. walk. Qed.

Lemma unlink_ends fuel : forall s cur prev t after, fine s -> ends it (unlink_sleeper fuel s cur prev t after).
Proof using stable. induction fuel; intros; cbn [unlink_sleeper]; walk. Qed.
Hint Resolve unlink_ends : frame.

Lemma sleeping_remove_ends s t : fine s -> ends it (sleeping_remove s t).
Proof using stable. intros. unfold sleeping_remove. walk. Qed.

Lemma sleeping_push_ends s t : fine s -> ends it (sleeping_push s t).
Proof using stable. intros. unfold sleeping_push. walk. Qed.
Hint Resolve sleeping_remove_ends sleeping_push_ends : frame.

Lemma terminate_ends s f : fine s -> ends snd (scheduler_terminate me s f).
Proof using stable. intros. unfold scheduler_terminate. walk. Qed.

Lemma terminate_thread_ends s t : fine s -> ends snd (terminate_thread_locked s t).
Proof using stable. intros. unfold terminate_thread_locked. walk. Qed.

Lemma account_ends s c : fine s -> ends it (account_tick me s c).
Proof using stable. intros. unfold account_tick. walk. Qed.
Hint Resolve account_ends : frame.

Lemma timer_tick_ends s : fine s -> ends snd (scheduler_timer_tick me s).
Proof using stable. intros. unfold scheduler_timer_tick. walk. Qed.

Lemma preemption_ends s regs f : fine s -> ends snd (scheduler_prepare_preemption me s regs f).
Proof using stable. intros. unfold scheduler_prepare_preemption. walk. Qed.

Lemma trampoline_ends s f : fine s -> ends snd (scheduler_preempt_from_trampoline me s f).
Proof using stable. intros. unfold scheduler_preempt_from_trampoline. walk. Qed.

Lemma restored_ends s rsp : fine s -> ends it (scheduler_preempt_context_restored me s rsp).
Proof using stable. intros. unfold scheduler_preempt_context_restored. walk. Qed.

Lemma syscall_enter_ends s : fine s -> ends it (scheduler_syscall_enter me s).
Proof using stable. intros. unfold scheduler_syscall_enter. walk. Qed.

Lemma syscall_leave_ends s b : fine s -> ends it (scheduler_syscall_leave me s b).
Proof using stable. intros. unfold scheduler_syscall_leave. walk. Qed.

Lemma start_cpu_ends s : fine s -> ends snd (scheduler_start_cpu me s).
Proof using stable. intros. unfold scheduler_start_cpu. walk. Qed.

(** A blocked thread may be put back to that state. *)
Lemma unblock_ends s t :
  (forall th th', Φ t th -> state th = THREAD_STATE_BLOCKED -> Φ t th' -> Φ t (set_state THREAD_STATE_BLOCKED th')) ->
  fine s -> ends snd (scheduler_unblock me s t).
Proof using stable.
  intros HB Hs. unfold scheduler_unblock. walk. apply ends_modify; [done|]. intros th _ Ht.
  apply orb_false_elim in Heqb as [[_ Hb]%orb_false_elim _]. unfold is_state in Hb.
  rewrite negb_false_iff, bool_decide_eq_true in Hb.
  eapply (stable t (set_state THREAD_STATE_BLOCKED th)); [|done|done]. eapply HB; [by apply Hs|done|done].
Qed.

(** The current thread may block. *)
Section Current.
Hypothesis blocks : forall c t th, cs !! me = Some c -> current_thread c = Some t -> Φ t th -> Φ t (set_state THREAD_STATE_BLOCKED th).

Lemma ends_blocks s t f : fine s -> (exists c, cs !! me = Some c /\ current_thread c = Some t) ->
  (forall th, f th = set_state THREAD_STATE_BLOCKED th) -> ends it (modify s t f).
Proof using stable blocks.
  intros Hs (c & Hc & Ht) Hf. apply ends_modify; [done|]. intros th _ H. rewrite Hf. by eapply blocks.
Qed.

Lemma block_ends s f :
  (forall c t th, cs !! me = Some c -> current_thread c = Some t -> Φ t th -> Φ t (set_mutex_wake_pending false th)) ->
  cpus s !! me = cs !! me -> fine s -> ends snd (scheduler_block me s f).
Proof using stable blocks.
  intros HP Hc Hs. unfold scheduler_block. rewrite Hc. walk; try (apply ends_blocks; [done|by eexists|done]).
  eapply HP; [done|done|by apply Hs].
Qed.

Lemma sleep_ends s ticks f : cpus s !! me = cs !! me -> fine s -> ends snd (scheduler_sleep me s ticks f).
Proof using stable blocks.
  intros Hc Hs. unfold scheduler_sleep. rewrite Hc. walk; (apply ends_blocks; [repeat fine_step|by eexists|done]).
Qed.
End Current.

(** A predicate that does not mention the state survives the wake-up of sleepers. *)
Section Tick.
Hypothesis any_state : forall t th, Φ t th -> Φ t (set_state THREAD_STATE_BLOCKED th).

Lemma wake_sleeper_ends s t : fine s -> ends snd (wake_sleeper me s t).
Proof using stable any_state.
  intros Hs. unfold wake_sleeper. walk. apply ends_modify; [done|]. intros. by apply any_state.
Qed.
Hint Resolve wake_sleeper_ends : frame.

Lemma wake_sleepers_ends fuel : forall s cur woke, fine s -> ends snd (wake_sleepers fuel me s cur woke).
Proof using stable any_state. induction fuel; intros; cbn [wake_sleepers]; walk. Qed.
Hint Resolve wake_sleepers_ends : frame.

Lemma global_tick_ends s : fine s -> ends snd (scheduler_global_tick me s).
Proof using stable any_state. intros. unfold scheduler_global_tick. walk. Qed.
End Tick.

(** New threads. *)
Section New.
Hypothesis newborn_fits : forall t th, ~ live t -> mutex_fields th = (None, None, false) ->
  state th = THREAD_STATE_READY -> Φ t th.

Lemma prepare_context_fields k th : thread_prepare_context k = Some th ->
  mutex_fields th = mutex_fields k /\ state th = state k.
Proof.
  unfold thread_prepare_context. destruct (_ || _); [done|]. destruct (_ <? _); [done|]. by intros [= <-].
Qed.

Lemma prepare_new_fine s named p memory t th s1 :
  fine s -> (forall t stack, memory = Some (t, stack) -> ~ live t) ->
  prepare_new_thread me s named p memory = Some (Some (t, th, s1)) -> fine s1 /\ ~ live t /\ Φ t th.
Proof using stable newborn_fits.
  intros Hs Hm. unfold prepare_new_thread. destruct (cpus s !! me) as [c|]; [|done]. cbn [mbind option_bind].
  destruct named, (current_thread c), (decode_priority p) as [q|], memory as [[t' stack]|]; try done.
  destruct (thread_prepare_context _) as [th'|] eqn:E; [|done]. destruct (_ =? 0); [done|]. intros [= <- <- <-].
  apply prepare_context_fields in E as [E1 E2]. assert (~ live t') by (by eapply Hm).
  split; [apply (fine_ext s); [done|done|exact Hs]|]. split; [done|]. apply newborn_fits; [done|exact E1|exact E2].
Qed.

Lemma create_suspended_ends s named p memory :
  fine s -> (forall t stack, memory = Some (t, stack) -> ~ live t) ->
  ends snd (thread_create_suspended_with_priority me s named p memory).
Proof using stable newborn_fits.
  intros Hs Hm. unfold thread_create_suspended_with_priority. apply ends_bind.
  intros [[[t th] s1]|] E; apply ends_some; [|done].
  destruct (prepare_new_fine s named p memory t th s1 Hs Hm E) as (H1 & H2 & H3). by apply fine_put.
Qed.

Lemma create_ends s named p memory :
  fine s -> (forall t stack, memory = Some (t, stack) -> ~ live t) ->
  ends snd (thread_create_with_priority me s named p memory).
Proof using stable newborn_fits.
  intros Hs Hm. unfold thread_create_with_priority. apply ends_bind.
  intros [[[t th] s1]|] E; [|by apply ends_some].
  destruct (prepare_new_fine s named p memory t th s1 Hs Hm E) as (H1 & H2 & H3).
  apply ends_bind_pair; [apply enqueue_ends; by apply fine_put|]. intros [] s2 Hs2; apply ends_some; [done|].
  by apply fine_release.
Qed.

Lemma fine_idle s i v : fine s -> fine (modify_cpu s i (set_idle_thread v)).
Proof.
  intros (H1 & H2 & H3). split; [done|]. split; [done|]. intros j Hj. rewrite <- H3 by done. cbn.
  destruct (decide (i = j)) as [<-|Hne]; [|by rewrite list_lookup_alter_ne].
  rewrite list_lookup_alter_eq. by destruct (cpus s !! i).
Qed.

Lemma prepare_idle_ends s i stack bytes memory :
  fine s -> (forall t, memory = Some t -> ~ live t) -> ends snd (scheduler_prepare_idle_cpu s i stack bytes memory).
Proof using stable newborn_fits.
  intros Hs Hm. unfold scheduler_prepare_idle_cpu. apply ends_bind. intros c _.
  destruct (_ || _); [by apply ends_some|]. destruct memory as [t|]; [|by apply ends_some].
  destruct (thread_prepare_context _) as [th|] eqn:E; [|by apply ends_some].
  destruct (_ =? 0); [by apply ends_some|]. apply ends_some, fine_idle. cbn zeta.
  apply (fine_ext (put s t (set_id (next_thread_id s) th))); [done|done|]. apply fine_put; [done|].
  apply prepare_context_fields in E as [E1 E2]. apply newborn_fits; [by apply Hm|exact E1|exact E2].
Qed.
End New.

Lemma destroy_locked_ends s t : fine s -> ends snd (destroy_locked s t).
Proof using stable. intros. unfold destroy_locked. walk. Qed.

End Frame.

(** * All operations *)

(** The operations that can block the thread that calls them. *)
Definition stops (o : op) : bool := match o with Block _ | Sleep _ _ => true | _ => false end.
Definition is_block (o : op) : bool := match o with Block _ => true | _ => false end.

(** [t] runs on CPU [me]. *)
Definition runs (s : sched) (me : nat) (t : Z) : Prop :=
  exists c, cpus s !! me = Some c /\ current_thread c = Some t.

(** Memory that an operation gives to a new thread is not a thread. *)
Definition new_memory (o : op) (s : sched) : Prop :=
  match o with
  | Create _ _ m | CreateSuspended _ _ m => forall t stack, m = Some (t, stack) -> get s t = None
  | PrepareIdle _ _ _ m => forall t, m = Some t -> get s t = None
  | Destroy _ => False
  | _ => True
  end.

Lemma allowed_new me o s : allowed me o s -> (forall t, o <> Destroy t) -> new_memory o s.
Proof.
  intros (c & _ & Ha) Hd. destruct o; cbn [new_memory] in *; try done; [by eapply Hd| | |];
    destruct Ha as [_ Hg]; cbn [guaranteed] in Hg.
  - intros x stack Hm. by apply (Hg x stack Hm).
  - intros x stack Hm. by apply (Hg x stack Hm).
  - intros x Hm. by apply (proj2 Hg x Hm).
Qed.

(** What an operation other than the destruction of a thread does to the threads
    there are, to the new ones and to the other CPUs. *)
Record leaves (me : nat) (o : op) (s s' : sched) : Prop := {
  lv_fields : forall t th, get s t = Some th -> exists th', get s' t = Some th' /\
    waiting_mutex th' = waiting_mutex th /\ mutex_wait_next th' = mutex_wait_next th /\
    (mutex_wake_pending th' = mutex_wake_pending th \/ (is_block o = true /\ runs s me t /\ mutex_wake_pending th' = false)) /\
    (state th' = THREAD_STATE_BLOCKED -> state th = THREAD_STATE_BLOCKED \/ (stops o = true /\ runs s me t));
  lv_new : forall t th', get s' t = Some th' -> get s t = None ->
    mutex_fields th' = (None, None, false) /\ state th' <> THREAD_STATE_BLOCKED;
  lv_seats : forall i, i <> me -> seat <$> cpus s' !! i = seat <$> cpus s !! i;
}.

Lemma ends_exec {A} Φ live me cs (m : option (A * sched)) s' :
  ends Φ live me cs snd m -> snd <$> m = Some s' -> fine Φ live me cs s'.
Proof. intros Hm. destruct m as [[a s1]|]; [|done]. intros [= <-]. by apply (Hm (a, s1)). Qed.

Section Exec.
Context (Φ : Z -> kernel_thread -> Prop) (me : nat) (s : sched) (o : op).
Hypothesis stable : forall t th th', Φ t th -> mutex_fields th' = mutex_fields th ->
  (state th' = THREAD_STATE_BLOCKED -> state th = THREAD_STATE_BLOCKED) -> Φ t th'.
Hypothesis restores : forall t th th', Φ t th -> state th = THREAD_STATE_BLOCKED -> Φ t th' -> Φ t (set_state THREAD_STATE_BLOCKED th').
Hypothesis blocks : stops o = true -> forall c t th, cpus s !! me = Some c -> current_thread c = Some t -> Φ t th ->
  Φ t (set_state THREAD_STATE_BLOCKED th).
Hypothesis clears : is_block o = true -> forall c t th, cpus s !! me = Some c -> current_thread c = Some t -> Φ t th ->
  Φ t (set_mutex_wake_pending false th).
Hypothesis newborn_fits : forall t th, ~ is_Some (get s t) -> mutex_fields th = (None, None, false) ->
  state th = THREAD_STATE_READY -> Φ t th.
Hypothesis now : forall t th, get s t = Some th -> Φ t th.

Lemma exec_fine s' :
  (o = GlobalTick -> forall t th, Φ t th -> Φ t (set_state THREAD_STATE_BLOCKED th)) ->
  new_memory o s -> exec me o s = Some s' -> fine Φ (fun t => is_Some (get s t)) me (cpus s) s'.
Proof using All.
  intros HT Hnew. assert (Hs : fine Φ (fun t => is_Some (get s t)) me (cpus s) s) by done.
  assert (Hno : forall t, get s t = None -> ~ is_Some (get s t)) by (intros t ->; by intros [? ?]).
  destruct o; cbn [exec new_memory stops is_block] in *; try apply ends_exec.
  - by apply reschedule_ends.
  - by apply yield_ends.
  - apply block_ends; [done|exact (blocks eq_refl)|exact (clears eq_refl)|done|done].
  - apply sleep_ends; [done|exact (blocks eq_refl)|done|done].
  - by apply terminate_ends.
  - by apply finish_switch_ends.
  - apply unblock_ends; eauto.
  - by apply terminate_thread_ends.
  - done.
  - by apply enqueue_ends.
  - apply create_ends; eauto.
  - apply create_suspended_ends; eauto.
  - apply global_tick_ends; eauto.
  - by apply timer_tick_ends.
  - by apply preemption_ends.
  - by apply trampoline_ends.
  - by apply restored_ends.
  - by apply syscall_enter_ends.
  - by apply syscall_leave_ends.
  - apply prepare_idle_ends; eauto.
  - by apply start_cpu_ends.
Qed.
End Exec.

(** The mutex fields of a thread after an operation. *)
Definition fields_kept (me : nat) (o : op) (s : sched) (t : Z) (th : kernel_thread) : Prop :=
  match get s t with
  | Some th0 => waiting_mutex th = waiting_mutex th0 /\ mutex_wait_next th = mutex_wait_next th0 /\
      (mutex_wake_pending th = mutex_wake_pending th0 \/ (is_block o = true /\ runs s me t /\ mutex_wake_pending th = false))
  | None => mutex_fields th = (None, None, false)
  end.

Definition blocked_kept (me : nat) (o : op) (s : sched) (t : Z) (th : kernel_thread) : Prop :=
  state th = THREAD_STATE_BLOCKED ->
  (exists th0, get s t = Some th0 /\ state th0 = THREAD_STATE_BLOCKED) \/ (stops o = true /\ runs s me t).

Lemma exec_fields me o s s' :
  new_memory o s -> exec me o s = Some s' ->
  fine (fields_kept me o s) (fun t => is_Some (get s t)) me (cpus s) s'.
Proof.
  assert (Hm : forall t th th', fields_kept me o s t th -> mutex_fields th' = mutex_fields th -> fields_kept me o s t th').
  { unfold fields_kept, mutex_fields. intros t th th' H. intros [= -> -> ->]. exact H. }
  apply exec_fine.
  - intros t th th' H Hf _. by apply (Hm t th).
  - intros t th th' _ _ H. by apply (Hm t th').
  - intros _ c t th _ _ H. by apply (Hm t th).
  - intros Hb c t th Hc Hcur. unfold fields_kept. destruct (get s t).
    + intros (H1 & H2 & _). split; [done|]. split; [done|]. right. split; [done|]. split; [by exists c|done].
    + unfold mutex_fields. cbn. by intros [= -> -> _].
  - intros t th Hn Hf _. unfold fields_kept. destruct (get s t); [by destruct Hn|done].
  - intros t th Ht. unfold fields_kept. rewrite Ht. by repeat split; left.
  - intros _ t th H. by apply (Hm t th).
Qed.

(** A tick makes no thread and blocks none. *)
Lemma tick_blocked me c s s' t th :
  good s -> cpus s !! me = Some c -> exec me GlobalTick s = Some s' -> get s' t = Some th ->
  state th = THREAD_STATE_BLOCKED -> exists th0, get s t = Some th0 /\ state th0 = THREAD_STATE_BLOCKED.
Proof.
  intros HG Hc He Ht Hs.
  assert (HF : fine (fun t _ => is_Some (get s t)) (fun _ => False) me (cpus s) s')
    by (revert He; apply ends_exec, global_tick_ends; done).
  destruct HF as (HF & _). destruct (HF t th Ht) as [th0 E0]. exists th0. split; [done|].
  cbn [exec] in He. destruct (global_tick_good s me c HG Hc) as (r & s1 & E & _ & HT).
  rewrite E in He. injection He as ->. destruct (bsp c); [|congruence]. destruct HT as [_ [T1 T2 T3 T4]].
  pose proof (get_cores _ _ _ Ht) as Hk'. pose proof (get_cores _ _ _ E0) as Hk.
  destruct HG as (qs & sl & HL & HI). pose proof (t_fits _ _ _ _ _ (i_threads _ _ _ _ _ HI t _ Hk)) as HF0.
  destruct (sleeping th0) eqn:Esl; [by destruct (f_sleep _ _ _ _ HF0 (f_sleeping _ _ _ _ HF0 Esl)) as (_ & ? & _)|].
  destruct (queued th0) eqn:Eq.
  - rewrite (T3 t _ Hk Eq) in Hk'. destruct (f_ready _ _ _ _ HF0 _ (f_queued _ _ _ _ HF0 Eq)) as (_ & Hr & _).
    exfalso. assert (state (core th) = THREAD_STATE_READY) as Hx; [|change (state th = THREAD_STATE_READY) in Hx; congruence].
    apply (f_equal (fmap state)) in Hk'. cbn [fmap option_fmap option_map] in Hk'.
    assert (HA : state (aged (core th0)) = state (core th0)).
    { unfold aged. destruct (bump_fields (core th0)) as (_ & _ & _ & _ & B & _). by destruct (next_level _). }
    destruct (decide _); [congruence|]. change (state (core (aged (core th0)))) with (state (aged (core th0))) in Hk'.
    congruence.
  - rewrite (T4 t _ Hk Esl Eq) in Hk'. apply (f_equal (fmap state)) in Hk'. cbn in Hk'. congruence.
Qed.

Lemma exec_blocked me o s s' :
  good s -> allowed me o s -> new_memory o s -> exec me o s = Some s' ->
  forall t th, get s' t = Some th -> blocked_kept me o s t th.
Proof.
  intros HG Ha Hn He t th Ht.
  assert (Hd : o = GlobalTick \/ o <> GlobalTick) by (destruct o; auto; by right).
  destruct Hd as [->|Hne].
  { destruct Ha as (c & Hc & _). intros Hs. left. by eapply tick_blocked. }
  assert (HF : fine (blocked_kept me o s) (fun t => is_Some (get s t)) me (cpus s) s'); [|by apply HF].
  revert Hn He. apply exec_fine; unfold blocked_kept.
  - intros x k k' H _ Hb Hb'. by apply H, Hb.
  - intros x k k' H Hb _ _. by apply H.
  - intros Hst c x k Hc Hcur _ _. right. split; [done|by exists c].
  - intros _ c x k _ _ H. exact H.
  - intros x k _ _ Hr Hb. congruence.
  - intros x k Hx Hb. left. by exists k.
  - done.
Qed.

Lemma exec_leaves me o s s' :
  good s -> allowed me o s -> (forall t, o <> Destroy t) -> exec me o s = Some s' -> leaves me o s s'.
Proof.
  intros HG Ha Hd He. pose proof (allowed_new me o s Ha Hd) as Hn.
  destruct (exec_fields me o s s' Hn He) as (HF & HL & HS). pose proof (exec_blocked me o s s' HG Ha Hn He) as HB.
  split; [| |done].
  - intros t th Ht. destruct (HL t) as [th' Ht']; [by eexists|]. exists th'. split; [done|].
    pose proof (HF t th' Ht') as H. unfold fields_kept in H. rewrite Ht in H. destruct H as (H1 & H2 & H3).
    repeat (split; [done|]). intros Hs. destruct (HB t th' Ht' Hs) as [(th0 & E & Hs0)|H]; [left; congruence|by right].
  - intros t th' Ht' Ht. pose proof (HF t th' Ht') as H. unfold fields_kept in H. rewrite Ht in H. split; [done|].
    intros Hs. destruct (HB t th' Ht' Hs) as [(th0 & E & _)|(Hst & c & Hc & Hcur)]; [congruence|].
    destruct HG as (qs & sl & HL' & HI). destruct (c_current _ _ _ (i_cpus _ _ _ _ _ HI me c Hc) t Hcur) as (k & Hk & _).
    apply cores_lookup in Hk as (th & E & _). congruence.
Qed.

End SchedulerFrame.
