(* ===== verification/Mutex.v ===== *)
(** [kernel/src/mutex.c]: sleeping locks over the scheduler.  A mutex keeps its
    owner and the ends of a queue of waiters, which is linked through the
    threads.  Each section under the mutex's spin lock is one definition; the
    call of [scheduler_block] between two sections of [mutex_lock] is a step of
    the scheduler of its own. *)
From stdpp Require Import gmap.
From S2P Require Import Prelude SchedState Scheduler.
Import SchedState Scheduler.

Module Mutex.

Record mutex_t := MutexT { owner : option Z; wait_head : option Z; wait_tail : option Z }.
Definition set_owner (v : option Z) (x : mutex_t) : mutex_t := MutexT v (wait_head x) (wait_tail x).
Definition set_wait_head (v : option Z) (x : mutex_t) : mutex_t := MutexT (owner x) v (wait_tail x).
Definition set_wait_tail (v : option Z) (x : mutex_t) : mutex_t := MutexT (owner x) (wait_head x) v.

(** The threads with the scheduler, and the mutexes by address. *)
Record msys := MSys { sch : sched; mutexes : gmap Z mutex_t }.

Definition on_thread (s : msys) (t : Z) (f : kernel_thread -> kernel_thread) : option msys :=
  s' ← modify (sch s) t f; Some (MSys s' (mutexes s)).
Definition on_mutex (s : msys) (m : Z) (f : mutex_t -> mutex_t) : option msys :=
  x ← mutexes s !! m; Some (MSys (sch s) (<[m := f x]> (mutexes s))).

Definition thread_current (me : nat) (s : msys) : option (option Z) := scheduler_current_thread me (sch s).

(** * The queue of waiters *)

(** The walk to a waiter: what precedes it in the queue, if it is there.  The
    queue has no more entries than there are threads. *)
Fixpoint find_waiter (fuel : nat) (s : msys) (cursor previous : option Z) (t : Z)
    : option (option (option Z)) :=
  match cursor with
  | None => Some None
  | Some u =>
      if u =? t then Some (Some previous)
      else
        match fuel with
        | O => None
        | S fuel => th ← get (sch s) u; find_waiter fuel s (mutex_wait_next th) (Some u) t
        end
  end.

Definition mutex_waiter_remove_locked (s : msys) (m t : Z) : option msys :=
  x ← mutexes s !! m;
  r ← find_waiter (size (threads (sch s))) s (wait_head x) None t;
  match r with
  | None => Some s
  | Some previous =>
      th ← get (sch s) t;
      s ← match previous with
          | Some p => on_thread s p (set_mutex_wait_next (mutex_wait_next th))
          | None => on_mutex s m (set_wait_head (mutex_wait_next th))
          end;
      s ← (if is_thread (wait_tail x) t then on_mutex s m (set_wait_tail previous) else Some s);
      on_thread s t (set_mutex_wait_next None)
  end.

Definition mutex_waiter_append_locked (s : msys) (m t : Z) : option msys :=
  s ← on_thread s t (set_mutex_wait_next None);
  x ← mutexes s !! m;
  s ← match wait_tail x with
      | Some p => on_thread s p (set_mutex_wait_next (Some t))
      | None => on_mutex s m (set_wait_head (Some t))
      end;
  on_mutex s m (set_wait_tail (Some t)).

(** * Handing the mutex over *)

(** One round of the loop: the first waiter leaves the queue, and its state is
    read, without the scheduler's lock, if it still waits for this mutex. *)
Definition handoff_look (s : msys) (m t : Z) : option (option thread_state_t * msys) :=
  th ← get (sch s) t;
  s ← on_mutex s m (set_wait_head (mutex_wait_next th));
  s ← on_mutex s m (fun x => if is_thread (wait_tail x) t then set_wait_tail None x else x);
  s ← on_thread s t (set_mutex_wait_next None);
  Some (if bool_decide (waiting_mutex th = Some m) then Some (state th) else None, s).

(** What follows the state that was read; the result tells whether the mutex has
    a new owner. *)
Definition handoff_act (me : nat) (s : msys) (m t : Z) (seen : option thread_state_t)
    : option (bool * msys) :=
  match seen with
  | None => Some (false, s)
  | Some THREAD_STATE_RUNNING =>
      s ← on_mutex s m (set_owner (Some t));
      s ← on_thread s t (set_mutex_wake_pending true);
      Some (true, s)
  | Some THREAD_STATE_BLOCKED =>
      s ← on_mutex s m (set_owner (Some t));
      '(ok, s') ← scheduler_unblock me (sch s) t;
      let s := MSys s' (mutexes s) in
      if ok : bool then Some (true, s)
      else
        s ← on_mutex s m (set_owner None);
        s ← on_thread s t (set_waiting_mutex None);
        Some (false, s)
  | Some _ =>
      s ← on_thread s t (set_waiting_mutex None);
      Some (false, s)
  end.

Fixpoint handoff_loop (fuel : nat) (me : nat) (s : msys) (m : Z) : option (bool * msys) :=
  x ← mutexes s !! m;
  match wait_head x with
  | None => Some (false, s)
  | Some t =>
      match fuel with
      | O => None
      | S fuel =>
          '(seen, s) ← handoff_look s m t;
          '(taken, s) ← handoff_act me s m t seen;
          if taken : bool then Some (true, s) else handoff_loop fuel me s m
      end
  end.

Definition mutex_handoff_locked (me : nat) (s : msys) (m : Z) : option (bool * msys) :=
  handoff_loop (size (threads (sch s))) me s m.

(** * The operations *)

Definition mutex_init (s : msys) (m : Z) : msys :=
  MSys (sch s) (<[m := MutexT None None None]> (mutexes s)).

Definition mutex_try_lock (me : nat) (s : msys) (m : Z) : option (bool * msys) :=
  self ← thread_current me s;
  match self with
  | None => Some (false, s)
  | Some t =>
      x ← mutexes s !! m;
      match owner x with
      | Some _ => Some (false, s)
      | None => s ← on_mutex s m (set_owner (Some t)); Some (true, s)
      end
  end.

(** The first section of a round of [mutex_lock]: the call returns, or the thread
    is among the waiters and must block. *)
Inductive lock_result := Returns (acquired : bool) | Waits.

Definition lock_enter (me : nat) (s : msys) (m : Z) : option (lock_result * msys) :=
  self ← thread_current me s;
  match self with
  | None => Some (Returns false, s)
  | Some t =>
      x ← mutexes s !! m;
      th ← get (sch s) t;
      match owner x with
      | None =>
          s ← (if bool_decide (waiting_mutex th = Some m)
               then s ← mutex_waiter_remove_locked s m t; on_thread s t (set_waiting_mutex None)
               else Some s);
          s ← on_thread s t (set_mutex_wake_pending false);
          s ← on_mutex s m (set_owner (Some t));
          Some (Returns true, s)
      | Some o =>
          if o =? t then
            if bool_decide (waiting_mutex th = Some m) then
              s ← on_thread s t (fun th => set_mutex_wake_pending false (set_waiting_mutex None th));
              Some (Returns true, s)
            else Some (Returns false, s)
          else
            match waiting_mutex th with
            | Some m' => if m' =? m then Some (Waits, s) else Some (Returns false, s)
            | None =>
                s ← on_thread s t (fun th => set_waiting_mutex (Some m) (set_mutex_wake_pending false th));
                s ← mutex_waiter_append_locked s m t;
                Some (Waits, s)
            end
      end
  end.

(** The section after a [scheduler_block] that failed; the call returns false. *)
Definition lock_abort (me : nat) (s : msys) (m : Z) : option msys :=
  self ← thread_current me s;
  t ← self;
  s ← mutex_waiter_remove_locked s m t;
  on_thread s t (fun th => set_mutex_wake_pending false
    (if bool_decide (waiting_mutex th = Some m) then set_waiting_mutex None th else th)).

Definition mutex_unlock (me : nat) (s : msys) (m : Z) : option (bool * msys) :=
  self ← thread_current me s;
  match self with
  | None => Some (false, s)
  | Some t =>
      x ← mutexes s !! m;
      if is_thread (owner x) t then
        s ← on_mutex s m (set_owner None);
        '(_, s) ← mutex_handoff_locked me s m;
        Some (true, s)
      else Some (false, s)
  end.

Definition mutex_cancel_waiter (me : nat) (s : msys) (t : Z) : option msys :=
  th ← get (sch s) t;
  match waiting_mutex th with
  | None => Some s
  | Some m =>
      x ← mutexes s !! m;
      s ← on_thread s t (set_mutex_wake_pending false);
      if is_thread (owner x) t then
        s ← on_mutex s m (set_owner None);
        s ← on_thread s t (set_waiting_mutex None);
        '(_, s) ← mutex_handoff_locked me s m;
        Some s
      else
        s ← mutex_waiter_remove_locked s m t;
        on_thread s t (set_waiting_mutex None)
  end.

(** The two operations of the scheduler that cancel a waiter. *)
Definition scheduler_terminate_thread (me : nat) (s : msys) (t : Z) : option (bool * msys) :=
  '(ok, s') ← terminate_thread_locked (sch s) t;
  let s := MSys s' (mutexes s) in
  if ok : bool then s ← mutex_cancel_waiter me s t; Some (true, s) else Some (false, s).

Definition thread_destroy_with_mutexes (me : nat) (s : msys) (t : Z) : option (bool * msys) :=
  '(ok, s') ← destroy_locked (sch s) t;
  let s := MSys s' (mutexes s) in
  if ok : bool then
    s ← mutex_cancel_waiter me s t; Some (true, MSys (release_thread (sch s) t) (mutexes s))
  else Some (false, s).

End Mutex.
