(* ===== verification/MutexProofs.v ===== *)
(** The mutexes: their queues, the invariant of a system of threads that lock and
    unlock them in any interleaving, and what follows from it. *)
From stdpp Require Import gmap.
From S2P Require Import Prelude SchedState Scheduler SchedLinks SchedulerProofs SchedulerSteps.
From S2P Require Import SchedulerOps SchedulerTime SchedulerRun SchedulerLife SchedulerBoot SchedulerSafety.
From S2P Require Import SchedulerFrame Mutex.
Import SchedState Scheduler SchedLinks SchedulerProofs SchedulerSteps SchedulerOps SchedulerTime SchedulerRun
  SchedulerLife SchedulerBoot SchedulerSafety SchedulerFrame Mutex.

Module MutexProofs.

(** * The queue of waiters as a sequence *)

Definition next_is (s : sched) (t : Z) (v : option Z) : Prop :=
  exists th, get s t = Some th /\ mutex_wait_next th = v.

Fixpoint seg (s : sched) (l : list Z) (e : option Z) : Prop :=
  match l with [] => True | t :: l => next_is s t (hd_or l e) /\ seg s l e end.

Record queue_ok (s : sched) (x : mutex_t) (l : list Z) : Prop := {
  q_head : wait_head x = hd_or l None;
  q_tail : wait_tail x = last l;
  q_seg : seg s l None;
  q_nodup : NoDup l;
}.

Lemma wseg_app s l1 l2 e : seg s (l1 ++ l2) e <-> seg s l1 (hd_or l2 e) /\ seg s l2 e.
Proof. induction l1 as [|t l1 IH]; cbn [app seg]; [tauto|]. rewrite IH, hd_or_app. tauto. Qed.

Lemma seg_elem s l e t : seg s l e -> t ∈ l -> exists th, get s t = Some th.
Proof.
  induction l as [|u l IH]; cbn [seg]; intros Hs Ht; [by apply elem_of_nil in Ht|].
  destruct Hs as [(th & Hth & _) Hs]. apply elem_of_cons in Ht as [->|Ht]; [by exists th|by apply IH].
Qed.

Lemma seg_ext s s' l e : (forall t v, t ∈ l -> next_is s t v -> next_is s' t v) -> seg s l e -> seg s' l e.
Proof.
  induction l as [|t l IH]; cbn [seg]; intros He; [done|]. intros [H1 H2]. split.
  - apply He; [apply list_elem_of_here|done].
  - apply IH; [|done]. intros u v Hu. apply He. by apply list_elem_of_further.
Qed.

(** The walk to a waiter. *)
Lemma find_waiter_spec S t l1 : forall fuel l2 prev,
  seg (sch S) (l1 ++ t :: l2) None -> t ∉ l1 -> (length l1 <= fuel)%nat ->
  find_waiter fuel S (hd_or (l1 ++ t :: l2) None) prev t = Some (Some (last_or l1 prev)).
Proof.
  induction l1 as [|u l1 IH]; intros fuel l2 prev Hs Hn Hf.
  - destruct fuel; cbn; by rewrite Z.eqb_refl.
  - apply not_elem_of_cons in Hn as [Hu Hn]. destruct fuel as [|fuel]; [cbn in Hf; lia|].
    cbn [app seg] in Hs. destruct Hs as [(th & Hth & Hnext) Hs]. cbn [app hd_or find_waiter].
    destruct (Z.eqb_spec u t); [congruence|]. rewrite Hth. cbn [mbind option_bind]. rewrite Hnext, last_or_cons.
    apply IH; [done|done|cbn in Hf; lia].
Qed.

Lemma find_waiter_absent S t l : forall fuel prev,
  seg (sch S) l None -> t ∉ l -> (length l <= fuel)%nat ->
  find_waiter fuel S (hd_or l None) prev t = Some None.
Proof.
  induction l as [|u l IH]; intros fuel prev Hs Hn Hf; [by destruct fuel|].
  apply not_elem_of_cons in Hn as [Hu Hn]. destruct fuel as [|fuel]; [cbn in Hf; lia|].
  destruct Hs as [(th & Hth & Hnext) Hs]. cbn [hd_or find_waiter].
  destruct (Z.eqb_spec u t); [congruence|]. rewrite Hth. cbn [mbind option_bind]. rewrite Hnext.
  apply IH; [done|done|cbn in Hf; lia].
Qed.

(** * Changing the links of threads *)

(** Only threads in [l] have changed, and only their links. *)
Record relinked (s s' : sched) (l : list Z) : Prop := {
  r_good : good s -> good s';
  r_cpus : cpus s' = cpus s;
  r_other : forall u, u ∉ l -> get s' u = get s u;
  r_same : forall u, set_mutex_wait_next None <$> get s' u = set_mutex_wait_next None <$> get s u;
}.

Lemma relinked_refl s l : relinked s s l.
Proof. by split. Qed.

Lemma relinked_trans s1 s2 s3 l : relinked s1 s2 l -> relinked s2 s3 l -> relinked s1 s3 l.
Proof.
  intros [A1 A2 A3 A4] [B1 B2 B3 B4]. split; [auto|congruence| |].
  - intros u Hu. by rewrite B3, A3.
  - intros u. by rewrite B4, A4.
Qed.

Lemma get_put_other s t u th : u <> t -> get (put s t th) u = get s u.
Proof. intros H. unfold get, put. cbn. by rewrite lookup_insert_ne. Qed.

Lemma relink_one s t th v l : get s t = Some th -> t ∈ l -> relinked s (put s t (set_mutex_wait_next v th)) l.
Proof.
  intros Ht Hl. split; [|done| |].
  - intros HG. by apply (good_modify s t (set_mutex_wait_next v) th).
  - intros u Hu. apply get_put_other. by intros ->.
  - intros u. destruct (decide (u = t)) as [->|Hne]; [|by rewrite get_put_other]. by rewrite get_put, Ht.
Qed.

Lemma on_thread_get S t th f : get (sch S) t = Some th -> on_thread S t f = Some (MSys (put (sch S) t (f th)) (mutexes S)).
Proof. intros H. unfold on_thread. by rewrite (modify_get _ _ _ th H). Qed.

Lemma on_mutex_get S m x f : mutexes S !! m = Some x -> on_mutex S m f = Some (MSys (sch S) (<[m := f x]> (mutexes S))).
Proof. intros H. unfold on_mutex. by rewrite H. Qed.

Lemma next_put s t th v : next_is (put s t (set_mutex_wait_next v th)) t v.
Proof. exists (set_mutex_wait_next v th). by rewrite get_put. Qed.

Lemma next_put_other s t th u v : u <> t -> next_is s u v -> next_is (put s t th) u v.
Proof. intros Hne (k & Hk & Hv). exists k. by rewrite get_put_other. Qed.

Lemma seg_put s t th l e : t ∉ l -> seg s l e -> seg (put s t th) l e.
Proof. intros Hn. apply seg_ext. intros u v Hu. apply next_put_other. by intros ->. Qed.

Lemma nodup_middle (l1 l2 : list Z) t : NoDup (l1 ++ t :: l2) -> NoDup (l1 ++ l2) /\ (t ∉ l1) /\ (t ∉ l2).
Proof.
  rewrite <- Permutation_middle. intros [Hn Hd]%NoDup_cons. split; [done|]. rewrite elem_of_app in Hn. tauto.
Qed.

Lemma last_middle (l1 l2 : list Z) t : NoDup (l1 ++ t :: l2) ->
  (last (l1 ++ t :: l2) = Some t -> l2 = []) /\ (l2 <> [] -> last (l1 ++ t :: l2) = last (l1 ++ l2)).
Proof.
  intros (_ & _ & Hn)%nodup_middle. rewrite !last_app. destruct l2 as [|u l2]; [done|].
  rewrite last_cons. destruct (last (u :: l2)) as [y|] eqn:E; [|by rewrite last_None in E]. split; [|done].
  intros [= ->]. apply last_Some in E as [l' E]. destruct Hn. rewrite E. apply elem_of_app. right. by apply list_elem_of_singleton.
Qed.

Lemma queue_threads s x l : queue_ok s x l -> (length l <= size (threads s))%nat.
Proof.
  intros [_ _ Hs Hn]. apply length_threads; [done|]. intros t Ht. by eapply seg_elem.
Qed.

(** The unlinking of a member, as a change of the links and of the mutex. *)
Lemma unlink_links s x l1 t l2 th :
  queue_ok s x (l1 ++ t :: l2) -> get s t = Some th ->
  exists s1 x1, (match last_or l1 None with
      | Some p => kp ← get s p; Some (put s p (set_mutex_wait_next (mutex_wait_next th) kp), x)
      | None => Some (s, set_wait_head (mutex_wait_next th) x)
      end) = Some (s1, x1) /\ relinked s s1 (l1 ++ t :: l2) /\ seg s1 (l1 ++ l2) None /\
    wait_head x1 = hd_or (l1 ++ l2) None /\ wait_tail x1 = wait_tail x /\ owner x1 = owner x /\ get s1 t = Some th.
Proof.
  intros [Qh Qt Qs Qn] Ht. destruct (nodup_middle _ _ _ Qn) as (Qn' & N1 & N2).
  apply wseg_app in Qs as [S1 S2]. cbn [seg hd_or] in S1, S2. destruct S2 as [(th' & Ht' & Hnx) S2]. rewrite Ht in Ht'. injection Ht' as <-.
  rewrite Hnx. destruct (decide (l1 = [])) as [->|Hl1]; cbn [last_or last].
  - eexists _, _. split; [reflexivity|]. split; [apply relinked_refl|]. by repeat split.
  - destruct (exists_last Hl1) as (l1' & p & ->). rewrite last_or_app. cbn [last_or last].
    apply wseg_app in S1 as [S0 S1]. cbn [seg hd_or] in S1. destruct S1 as [(kp & Hp & Hnp) _]. rewrite Hp. cbn [mbind option_bind].
    rewrite <- app_assoc in Qn'. cbn [app] in Qn'. destruct (nodup_middle _ _ _ Qn') as (_ & P1 & P2).
    assert (Hpt : p <> t) by (intros ->; apply N1, elem_of_app; right; by apply list_elem_of_singleton).
    eexists _, _. split; [reflexivity|]. split; [apply relink_one; [done|]; apply elem_of_app; left; apply elem_of_app; right; by apply list_elem_of_singleton|].
    split; [|split; [|split; [done|split; [done|]]]].
    + rewrite <- app_assoc. cbn [app]. apply wseg_app. split; [by apply seg_put|]. cbn [seg]. split; [apply next_put|].
      by apply seg_put.
    + rewrite Qh, !hd_or_app. by destruct l1'.
    + by rewrite get_put_other.
Qed.

Lemma waiter_remove_spec S m x l1 t l2 :
  mutexes S !! m = Some x -> queue_ok (sch S) x (l1 ++ t :: l2) ->
  exists S' x', mutex_waiter_remove_locked S m t = Some S' /\ mutexes S' = <[m := x']> (mutexes S) /\
    owner x' = owner x /\ queue_ok (sch S') x' (l1 ++ l2) /\ relinked (sch S) (sch S') (l1 ++ t :: l2).
Proof.
  intros Hx HQ. pose proof HQ as [Qh Qt Qs Qn]. destruct (nodup_middle _ _ _ Qn) as (Qn' & N1 & N2).
  assert (Hin : t ∈ l1 ++ t :: l2) by (apply elem_of_app; right; apply list_elem_of_here).
  destruct (seg_elem _ _ _ t Qs Hin) as [th Ht].
  destruct (unlink_links _ _ _ _ _ th HQ Ht) as (s1 & x1 & E & R1 & Sg & H1 & T1 & O1 & G1).
  pose proof (queue_threads _ _ _ HQ) as Hlen. rewrite length_app in Hlen.
  unfold mutex_waiter_remove_locked. rewrite Hx. cbn [mbind option_bind]. rewrite Qh, find_waiter_spec by (done || lia).
  cbn [mbind option_bind]. rewrite Ht. cbn [mbind option_bind].
  assert (exists S1, match last_or l1 None with
     | Some p => on_thread S p (set_mutex_wait_next (mutex_wait_next th))
     | None => on_mutex S m (set_wait_head (mutex_wait_next th)) end = Some S1 /\ sch S1 = s1 /\ mutexes S1 = <[m := x1]> (mutexes S))
    as (S1 & -> & E1 & M1).
  { destruct (last_or l1 None) as [p|].
    - destruct (get (sch S) p) as [kp|] eqn:Hp; [|done]. injection E as <- <-.
      eexists. split; [by apply on_thread_get|]. cbn. by rewrite insert_id.
    - injection E as <- <-. eexists. split; [by apply on_mutex_get|done]. }
  cbn [mbind option_bind]. set (x2 := if is_thread (wait_tail x) t then set_wait_tail (last_or l1 None) x1 else x1).
  assert ((if is_thread (wait_tail x) t then on_mutex S1 m (set_wait_tail (last_or l1 None)) else Some S1) =
          Some (MSys s1 (<[m := x2]> (mutexes S)))) as ->.
  { unfold x2. destruct (is_thread _ _).
    - rewrite (on_mutex_get _ _ x1) by (rewrite M1; apply lookup_insert_eq). by rewrite M1, E1, insert_insert_eq.
    - rewrite <- E1, <- M1. by destruct S1. }
  cbn [mbind option_bind]. rewrite (on_thread_get _ _ th) by exact G1. eexists _, x2. split; [reflexivity|]. split; [done|]. cbn [sch].
  split; [unfold x2; by destruct (is_thread _ _)|]. split.
  - split; [unfold x2; by destruct (is_thread _ _)| |apply seg_put; [rewrite elem_of_app; tauto|done]|done].
    destruct (last_middle _ _ _ Qn) as [L1 L2]. unfold x2, is_thread. rewrite Qt.
    case_bool_decide as Hl; [rewrite (L1 Hl), app_nil_r; symmetry; apply last_last_or|].
    rewrite T1, Qt. apply L2. intros ->. apply Hl. by rewrite last_snoc.
  - eapply relinked_trans; [exact R1|]. by apply relink_one.
Qed.

Lemma remove_absent S m x l t :
  mutexes S !! m = Some x -> queue_ok (sch S) x l -> t ∉ l -> mutex_waiter_remove_locked S m t = Some S.
Proof.
  intros Hx HQ Hn. pose proof (queue_threads _ _ _ HQ). destruct HQ as [Qh Qt Qs Qn]. unfold mutex_waiter_remove_locked.
  rewrite Hx. cbn [mbind option_bind]. rewrite Qh, (find_waiter_absent S t l) by done. done.
Qed.

Lemma append_spec S m x l t th :
  mutexes S !! m = Some x -> queue_ok (sch S) x l -> t ∉ l -> get (sch S) t = Some th ->
  exists S' x', mutex_waiter_append_locked S m t = Some S' /\ mutexes S' = <[m := x']> (mutexes S) /\
    owner x' = owner x /\ queue_ok (sch S') x' (l ++ [t]) /\ relinked (sch S) (sch S') (l ++ [t]).
Proof.
  intros Hx [Qh Qt Qs Qn] Hn Ht. unfold mutex_waiter_append_locked. rewrite (on_thread_get _ _ th) by done.
  cbn [mbind option_bind mutexes]. rewrite Hx. cbn [mbind option_bind]. set (s1 := put (sch S) t _).
  assert (R1 : relinked (sch S) s1 (l ++ [t])) by (apply relink_one; [done|]; apply elem_of_app; right; by apply list_elem_of_singleton).
  assert (Hnew : NoDup (l ++ [t])).
  { apply NoDup_app. split; [done|]. split; [|apply NoDup_singleton]. intros u Hu Hu'%list_elem_of_singleton. congruence. }
  assert (Q1 : seg s1 l None) by (by apply seg_put).
  rewrite Qt. destruct (decide (l = [])) as [->|Hl]; cbn [last].
  - rewrite (on_mutex_get _ _ x) by exact Hx. cbn [mbind option_bind].
    rewrite (on_mutex_get _ _ (set_wait_head (Some t) x)) by (cbn; apply lookup_insert_eq).
    eexists _, _. split; [reflexivity|]. cbn [mutexes sch]. split; [by rewrite insert_insert_eq|]. split; [done|].
    split; [|exact R1]. split; [done|done|cbn; split; [apply next_put|done]|done].
  - destruct (exists_last Hl) as (l' & p & ->). rewrite last_snoc.
    assert (Hpt : p <> t) by (intros ->; apply Hn, elem_of_app; right; by apply list_elem_of_singleton).
    pose proof Q1 as Q2. apply wseg_app in Q2 as [Q2 Q3]. cbn [seg] in Q3. destruct Q3 as [(kp & Hp & _) _].
    rewrite (on_thread_get _ _ kp) by exact Hp. cbn [mbind option_bind]. rewrite (on_mutex_get _ _ x) by exact Hx.
    eexists _, _. split; [reflexivity|]. cbn [mutexes sch]. split; [done|]. split; [done|].
    apply NoDup_app in Qn as (Qn & Qd & _).
    assert (Hpl : p ∉ l') by (intros Hp'; apply (Qd p Hp'); by apply list_elem_of_singleton).
    split; [split|].
    + cbn. by rewrite Qh, !hd_or_app; destruct l'.
    + cbn. by rewrite last_snoc.
    + rewrite <- app_assoc. cbn [app]. apply wseg_app. split; [by apply seg_put|]. cbn [seg hd_or]. split; [apply next_put|].
      split; [|done]. apply next_put_other; [congruence|]. apply next_put.
    + done.
    + eapply relinked_trans; [exact R1|]. apply relink_one; [done|]. apply elem_of_app; left; apply elem_of_app; right; by apply list_elem_of_singleton.
Qed.

Lemma look_spec S m x t l th :
  mutexes S !! m = Some x -> queue_ok (sch S) x (t :: l) -> get (sch S) t = Some th ->
  exists S' x', handoff_look S m t = Some (if bool_decide (waiting_mutex th = Some m) then Some (state th) else None, S') /\
    mutexes S' = <[m := x']> (mutexes S) /\ owner x' = owner x /\ queue_ok (sch S') x' l /\
    sch S' = put (sch S) t (set_mutex_wait_next None th).
Proof.
  intros Hx [Qh Qt Qs Qn] Ht. unfold handoff_look. rewrite Ht. cbn [mbind option_bind].
  rewrite (on_mutex_get _ _ x) by done. cbn [mbind option_bind].
  rewrite (on_mutex_get _ _ (set_wait_head (mutex_wait_next th) x)) by (cbn; apply lookup_insert_eq). cbn [mbind option_bind].
  rewrite (on_thread_get _ _ th) by done. cbn [mbind option_bind mutexes sch]. rewrite insert_insert_eq.
  eexists _, _. split; [reflexivity|]. split; [reflexivity|]. cbn [sch mutexes].
  destruct Qs as [(k & Hk & Hnx) Qs]. rewrite Ht in Hk. injection Hk as <-. apply NoDup_cons in Qn as [Hn Qn].
  split; [by destruct (is_thread _ _)|]. split; [|done].
  split; [by destruct (is_thread _ _)| |by apply seg_put|done].
  unfold is_thread. cbn. rewrite Qt. destruct l as [|u l]; cbn [last]; [by rewrite bool_decide_eq_true_2|].
  rewrite bool_decide_eq_false_2; [done|]. intros Hl. apply Hn.
  apply last_Some in Hl as [l' Hl]. rewrite Hl. apply elem_of_app. right. by apply list_elem_of_singleton.
Qed.

(** * The invariant *)

(** Where a thread is in [mutex_lock]: at the head of the loop, about to call
    [scheduler_block] with interrupts off, or after that call has failed. *)
Inductive phase := Entering (m : Z) | Registered (m : Z) | Failed (m : Z).
Definition phase_mutex (p : phase) : Z := match p with Entering m | Registered m | Failed m => m end.

(** The mutex has an owner, or is the one [x] that is being handed over. *)
Definition taken (x : option Z) (m : Z) (mx : mutex_t) : Prop := owner mx <> None \/ x = Some m.

(** A thread that waits is in the queue or has been given the mutex; if it is
    about to block it will find out; if it is blocked it is in the queue of a
    mutex that somebody will release. *)
Definition thread_ok (x : option Z) (M : gmap Z mutex_t) (P : gmap Z phase) (W : Z -> list Z) (t : Z)
    (th : kernel_thread) : Prop :=
  match waiting_mutex th with
  | None => (forall m, t ∉ W m) /\ (forall m, P !! t <> Some (Registered m))
  | Some m => exists mx, M !! m = Some mx /\ (forall m', t ∈ W m' -> m' = m) /\
      (exists p, P !! t = Some p /\ phase_mutex p = m) /\
      (t ∈ W m \/ owner mx = Some t) /\
      (P !! t = Some (Registered m) ->
         (t ∈ W m /\ taken x m mx) \/ (owner mx = Some t /\ mutex_wake_pending th = true)) /\
      (state th = THREAD_STATE_BLOCKED -> t ∈ W m /\ taken x m mx)
  end.

(** [H] tells which thread holds a mutex: its call of [mutex_lock] or
    [mutex_try_lock] has returned true and it has not unlocked the mutex. *)
Record mutex_ok (s : sched) (H : gmap Z Z) (W : Z -> list Z) (m : Z) (mx : mutex_t) : Prop := {
  k_queue : queue_ok s mx (W m);
  k_owner : forall t, owner mx = Some t -> t ∉ W m;
  k_holder : forall t, H !! m = Some t -> owner mx = Some t /\ forall th, get s t = Some th -> waiting_mutex th <> Some m;
}.

Record minv (x : option Z) (S : msys) (P : gmap Z phase) (H : gmap Z Z) (W : Z -> list Z) : Prop := {
  v_good : good (sch S);
  v_threads : forall t th, get (sch S) t = Some th -> thread_ok x (mutexes S) P W t th;
  v_mutexes : forall m mx, mutexes S !! m = Some mx -> mutex_ok (sch S) H W m mx;
  v_none : forall m, mutexes S !! m = None -> W m = [] /\ H !! m = None;
  v_seats : forall t m, P !! t = Some (Registered m) -> exists i c, cpus (sch S) !! i = Some c /\ seat c = (Some t, NoSwitch);
}.

Definition updW (W : Z -> list Z) (m : Z) (l : list Z) : Z -> list Z := fun m' => if m' =? m then l else W m'.

Lemma updW_eq W m l : updW W m l m = l.
Proof. unfold updW. by rewrite Z.eqb_refl. Qed.
Lemma updW_ne W m l m' : m' <> m -> updW W m l m' = W m'.
Proof. intros H. unfold updW. by destruct (Z.eqb_spec m' m). Qed.

Lemma member_thread x S P H W m t : minv x S P H W -> t ∈ W m ->
  exists th mx, get (sch S) t = Some th /\ waiting_mutex th = Some m /\ mutexes S !! m = Some mx.
Proof.
  intros HI Ht. destruct (mutexes S !! m) as [mx|] eqn:Em.
  2: { destruct (v_none _ _ _ _ _ HI m Em) as [E _]. rewrite E in Ht. by apply elem_of_nil in Ht. }
  destruct (v_mutexes _ _ _ _ _ HI m mx Em) as [[_ _ Hs _] _ _]. destruct (seg_elem _ _ _ t Hs Ht) as [th Hth].
  exists th, mx. split; [done|]. split; [|done]. pose proof (v_threads _ _ _ _ _ HI t th Hth) as HT. unfold thread_ok in HT.
  destruct (waiting_mutex th) as [m'|]; [|by destruct (proj1 HT m)]. destruct HT as (_ & _ & Hu & _). by rewrite (Hu m Ht).
Qed.

(** A thread that runs on a CPU is a thread and is in the running state. *)
Lemma seat_thread s t i c : good s -> cpus s !! i = Some c -> seat c = (Some t, NoSwitch) ->
  exists th, get s t = Some th /\ state th = THREAD_STATE_RUNNING.
Proof.
  intros (qs & sl & HL & HI) Hc. unfold seat. intros [= Hcur _].
  destruct (c_current _ _ _ (i_cpus _ _ _ _ _ HI i c Hc) t Hcur) as (k & Hk & Hs & _).
  apply cores_lookup in Hk as (th & Hth & ->). by exists th.
Qed.

Lemma registered_thread x S P H W t m : minv x S P H W -> P !! t = Some (Registered m) ->
  exists th, get (sch S) t = Some th /\ state th = THREAD_STATE_RUNNING /\ waiting_mutex th = Some m.
Proof.
  intros HI Hp. destruct (v_seats _ _ _ _ _ HI t m Hp) as (i & c & Hc & Hs).
  destruct (seat_thread _ _ _ _ (v_good _ _ _ _ _ HI) Hc Hs) as (th & Hth & Hst). exists th. split; [done|]. split; [done|].
  pose proof (v_threads _ _ _ _ _ HI t th Hth) as HT. unfold thread_ok in HT.
  destruct (waiting_mutex th) as [m'|]; [|by destruct (proj2 HT m)].
  destruct HT as (_ & _ & _ & (p & Hp' & Hm) & _). rewrite Hp in Hp'. injection Hp' as <-. cbn in Hm. congruence.
Qed.

(** A step of the scheduler. *)
Lemma minv_sched x S s' P P' H W :
  minv x S P H W -> good s' ->
  (forall t th m, get (sch S) t = Some th -> waiting_mutex th = Some m -> P' !! t = P !! t /\
     exists th', get s' t = Some th' /\ waiting_mutex th' = Some m /\
       (P !! t = Some (Registered m) -> mutex_wake_pending th' = mutex_wake_pending th) /\
       (state th' = THREAD_STATE_BLOCKED -> state th = THREAD_STATE_BLOCKED \/
          (t ∈ W m /\ exists mx, mutexes S !! m = Some mx /\ taken x m mx))) ->
  (forall t v, (exists m, t ∈ W m) -> next_is (sch S) t v -> next_is s' t v) ->
  (forall t th', get s' t = Some th' -> waiting_mutex th' = None \/
     exists th, get (sch S) t = Some th /\ waiting_mutex th = waiting_mutex th') ->
  (forall t m, P' !! t = Some (Registered m) -> P !! t = Some (Registered m) /\
     exists i c, cpus s' !! i = Some c /\ seat c = (Some t, NoSwitch)) ->
  minv x (MSys s' (mutexes S)) P' H W.
Proof.
  intros HI HG HO HN HB HP. split; cbn [sch mutexes]; [done| | |apply (v_none _ _ _ _ _ HI)|].
  - intros t th' Ht'. unfold thread_ok. destruct (waiting_mutex th') as [m|] eqn:Ew.
    + destruct (HB t th' Ht') as [?|(th & Hth & Hw)]; [congruence|]. rewrite Ew in Hw.
      destruct (HO t th m Hth Hw) as (Hph & th'' & Ht'' & _ & Hpend & Hblk). rewrite Ht' in Ht''. injection Ht'' as <-.
      pose proof (v_threads _ _ _ _ _ HI t th Hth) as HT. unfold thread_ok in HT. rewrite Hw in HT.
      destruct HT as (mx & Hmx & H1 & H2 & H3 & H4 & H5). exists mx. rewrite Hph. repeat (split; [done|]). split.
      * intros Hr. rewrite (Hpend Hr). by apply H4.
      * intros Hs. destruct (Hblk Hs) as [Hs'|(Hin & mx' & Hmx' & Ht)]; [by apply H5|]. rewrite Hmx in Hmx'. injection Hmx' as <-. done.
    + split.
      * intros m Hin. destruct (member_thread _ _ _ _ _ m t HI Hin) as (th & mx & Hth & Hw & _).
        destruct (HO t th m Hth Hw) as (_ & th'' & Ht'' & Hw' & _). congruence.
      * intros m Hr. destruct (HP t m Hr) as [Hr' _]. destruct (registered_thread _ _ _ _ _ t m HI Hr') as (th & Hth & _ & Hw).
        destruct (HO t th m Hth Hw) as (_ & th'' & Ht'' & Hw' & _). congruence.
  - intros m mx Hmx. destruct (v_mutexes _ _ _ _ _ HI m mx Hmx) as [[Q1 Q2 Q3 Q4] K2 K3]. split; [split; try done| done|].
    + eapply seg_ext; [|exact Q3]. intros u v Hu. apply HN. by exists m.
    + intros t Ht. destruct (K3 t Ht) as [? Hw]. split; [done|]. intros th' Ht' Hw'.
      destruct (HB t th' Ht') as [?|(th & Hth & Hw2)]; [congruence|]. apply (Hw th Hth). congruence.
  - intros t m Hr. by apply (HP t m).
Qed.

(** A step on the mutex [m] that changes the fields of one thread [t] and the
    links of waiters. *)
Record mutex_step (x x' : option Z) (S S' : msys) (P P' : gmap Z phase) (H H' : gmap Z Z) (W : Z -> list Z)
    (m t : Z) (mx mx' : mutex_t) (l' : list Z) : Prop := {
  p_mutex : mutexes S !! m = Some mx;
  p_mutexes : mutexes S' = <[m := mx']> (mutexes S);
  p_good : good (sch S');
  p_seats : forall i, seat <$> cpus (sch S') !! i = seat <$> cpus (sch S) !! i;
  p_others : forall u th', u <> t -> get (sch S') u = Some th' -> exists th, get (sch S) u = Some th /\
    waiting_mutex th' = waiting_mutex th /\ mutex_wake_pending th' = mutex_wake_pending th /\
    (state th' = THREAD_STATE_BLOCKED -> state th = THREAD_STATE_BLOCKED);
  p_links : forall u v, u <> t -> u ∉ W m -> next_is (sch S) u v -> next_is (sch S') u v;
  p_elsewhere : forall m', m' <> m -> t ∉ W m';
  p_members : forall u, u <> t -> u ∈ l' <-> u ∈ W m;
  p_owner : owner mx' = owner mx \/ owner mx = None \/ owner mx = Some t;
  p_taken : taken x m mx -> taken x' m mx';
  p_handing : forall m', m' <> m -> x = Some m' -> x' = Some m';
  p_queue : queue_ok (sch S') mx' l';
  p_outside : forall u, owner mx' = Some u -> u ∉ l';
  p_phases : forall u, u <> t -> P' !! u = P !! u;
  p_holders : forall m', m' <> m -> H' !! m' = H !! m';
  p_thread : forall th', get (sch S') t = Some th' -> thread_ok x' (mutexes S') P' (updW W m l') t th' /\
    (waiting_mutex th' = None \/ waiting_mutex th' = Some m);
  p_holder : forall h, H' !! m = Some h -> owner mx' = Some h /\
    forall th', get (sch S') h = Some th' -> waiting_mutex th' <> Some m;
  p_seat : forall m', P' !! t = Some (Registered m') -> exists i c, cpus (sch S') !! i = Some c /\ seat c = (Some t, NoSwitch);
}.

Lemma other_thread_ok x x' S S' P P' H H' W m t mx mx' l' u th th' :
  mutex_step x x' S S' P P' H H' W m t mx mx' l' -> u <> t ->
  waiting_mutex th' = waiting_mutex th -> mutex_wake_pending th' = mutex_wake_pending th ->
  (state th' = THREAD_STATE_BLOCKED -> state th = THREAD_STATE_BLOCKED) ->
  thread_ok x (mutexes S) P W u th -> thread_ok x' (mutexes S') P' (updW W m l') u th'.
Proof.
  intros [] Hu Hw Hp Hb. unfold thread_ok. rewrite Hw, Hp.
  assert (HW : forall m', u ∈ updW W m l' m' <-> u ∈ W m').
  { intros m'. destruct (decide (m' = m)) as [->|Hne]; [rewrite updW_eq; by apply p_members0|by rewrite updW_ne]. }
  destruct (waiting_mutex th) as [m1|].
  2: { intros [H1 H2]. split; [intros m1; rewrite HW; apply H1|intros m1; rewrite p_phases0 by done; apply H2]. }
  intros (mx1 & Hm1 & H1 & H2 & H3 & H4 & H5). rewrite p_mutexes0, p_phases0 by done.
  destruct (decide (m1 = m)) as [->|Hne].
  - rewrite Hm1 in p_mutex0. injection p_mutex0 as <-. exists mx'. rewrite lookup_insert_eq, !HW.
    assert (HO : owner mx1 = Some u -> owner mx' = Some u) by (destruct p_owner0 as [?|[?|?]]; congruence).
    split; [done|]. split; [intros m' Hm'; apply H1; by rewrite <- HW|]. split; [done|]. split; [tauto|]. split; [|tauto].
    intros Hr. destruct (H4 Hr) as [?|[? ?]]; tauto.
  - exists mx1. rewrite lookup_insert_ne, !HW by done. assert (taken x m1 mx1 -> taken x' m1 mx1) by (intros [?|?]; [by left|right; auto]).
    split; [done|]. split; [intros m' Hm'; apply H1; by rewrite <- HW|]. split; [done|]. split; [done|]. split; [|tauto].
    intros Hr. destruct (H4 Hr) as [?|[? ?]]; tauto.
Qed.

Lemma minv_step x x' S S' P P' H H' W m t mx mx' l' :
  minv x S P H W -> mutex_step x x' S S' P P' H H' W m t mx mx' l' -> minv x' S' P' H' (updW W m l').
Proof.
  intros HI HS. pose proof HS as []. split; [done| | | |].
  - intros u th' Hu'. destruct (decide (u = t)) as [->|Hne]; [by apply p_thread0|].
    destruct (p_others0 u th' Hne Hu') as (th & Hth & Hw & Hp & Hb).
    eapply other_thread_ok; [exact HS|done|exact Hw|exact Hp|exact Hb|]. by apply (v_threads _ _ _ _ _ HI).
  - intros m1 mx1. rewrite p_mutexes0. destruct (decide (m1 = m)) as [->|Hne].
    + rewrite lookup_insert_eq. intros [= <-]. split; rewrite ?updW_eq; done.
    + rewrite lookup_insert_ne by done. intros Hm1. destruct (v_mutexes _ _ _ _ _ HI m1 mx1 Hm1) as [[Q1 Q2 Q3 Q4] K2 K3].
      split; rewrite ?updW_ne by done.
      * split; try done. eapply seg_ext; [|exact Q3]. intros u v Hu Hv.
        assert (u <> t) by (intros ->; by apply (p_elsewhere0 m1)). apply p_links0; [done| |done].
        intros Hu'. destruct (member_thread _ _ _ _ _ _ _ HI Hu) as (th & _ & Hth & Hw & _).
        destruct (member_thread _ _ _ _ _ _ _ HI Hu') as (th2 & _ & Hth2 & Hw2 & _). congruence.
      * done.
      * intros h Hh. rewrite p_holders0 in Hh by done. destruct (K3 h Hh) as [? Hw]. split; [done|]. intros th' Hth'.
        destruct (decide (h = t)) as [->|Hht]; [destruct (p_thread0 th' Hth') as [_ [?|?]]; congruence|].
        destruct (p_others0 h th' Hht Hth') as (th & Hth & Hw' & _). rewrite Hw'. by apply Hw.
  - intros m1. rewrite p_mutexes0. destruct (decide (m1 = m)) as [->|Hne]; [by rewrite lookup_insert_eq|].
    rewrite lookup_insert_ne, updW_ne, p_holders0 by done. apply (v_none _ _ _ _ _ HI).
  - intros u m1 Hr. destruct (decide (u = t)) as [->|Hne]; [by apply (p_seat0 m1)|]. rewrite p_phases0 in Hr by done.
    destruct (v_seats _ _ _ _ _ HI u m1 Hr) as (i & c & Hc & Hs). specialize (p_seats0 i). rewrite Hc in p_seats0.
    destruct (cpus (sch S') !! i) as [c'|] eqn:Ec; [|done]. exists i, c'. split; [done|]. cbn in p_seats0. congruence.
Qed.

(** * Handing over *)

(** Nobody waits for a free mutex once it has been handed over. *)
Lemma minv_close S P H W m mx :
  minv (Some m) S P H W -> mutexes S !! m = Some mx -> owner mx <> None \/ W m = [] -> minv None S P H W.
Proof.
  intros HI Hm Ho. destruct HI as [V1 V2 V3 V4 V5]. split; try done. intros t th Ht. specialize (V2 t th Ht).
  unfold thread_ok in *. destruct (waiting_mutex th) as [m1|]; [|done]. destruct V2 as (mx1 & Hm1 & H1 & H2 & H3 & H4 & H5).
  exists mx1. assert (HT : t ∈ W m1 -> taken (Some m) m1 mx1 -> taken None m1 mx1).
  { intros Hin [?|[= <-]]; [by left|]. destruct Ho as [Ho|Ho]; [left; congruence|]. rewrite Ho in Hin. by apply elem_of_nil in Hin. }
  repeat (split; [done|]). split; [|tauto]. intros Hr. destruct (H4 Hr) as [[? ?]|?]; [left; tauto|by right].
Qed.

(** The first waiter that can take the mutex. *)
Definition can_take (s : sched) (t : Z) : bool :=
  match get s t with Some th => is_state th THREAD_STATE_RUNNING || is_state th THREAD_STATE_BLOCKED | None => false end.

Lemma can_take_ext s s' l : (forall t, t ∈ l -> state <$> get s' t = state <$> get s t) ->
  List.find (can_take s') l = List.find (can_take s) l.
Proof.
  induction l as [|t l IH]; intros H; cbn [List.find]; [done|]. rewrite IH by (intros u Hu; apply H; by apply list_elem_of_further).
  assert (can_take s' t = can_take s t) as ->; [|done]. specialize (H t (list_elem_of_here t l)). unfold can_take, is_state.
  destruct (get s' t), (get s t); cbn in H; try done. by injection H as ->.
Qed.

(** The effect of a hand-over on the new owner, and the queue that is left. *)
Definition handed (S S' : msys) (m : Z) (l l' : list Z) : Prop :=
  exists mx', mutexes S' !! m = Some mx' /\ owner mx' = List.find (can_take (sch S)) l /\
    match owner mx' with
    | None => l' = []
    | Some u => (exists pre, l = pre ++ u :: l') /\
        exists th th', get (sch S) u = Some th /\ get (sch S') u = Some th' /\ waiting_mutex th' = Some m /\
          (state th = THREAD_STATE_BLOCKED -> state th' = THREAD_STATE_READY /\ queued th' = true) /\
          (state th = THREAD_STATE_RUNNING -> mutex_wake_pending th' = true)
    end.

Lemma handed_skip S S1 S' m t l l' :
  (forall u, u <> t -> get (sch S1) u = get (sch S) u) -> can_take (sch S) t = false -> t ∉ l ->
  handed S1 S' m l l' -> handed S S' m (t :: l) l'.
Proof.
  intros HG Ht Hn (mx' & Hm & Ho & HD). exists mx'. split; [done|].
  assert (HE : forall u, u ∈ l -> get (sch S1) u = get (sch S) u) by (intros u Hu; apply HG; congruence).
  rewrite (can_take_ext (sch S)) in Ho by (intros u Hu; by rewrite HE). split; [cbn [List.find]; by rewrite Ht|].
  destruct (owner mx') as [u|]; [|done]. destruct HD as [[pre ->] (th & th' & H1 & H2)]. split; [by exists (t :: pre)|].
  exists th, th'. rewrite <- HE; [done|]. apply elem_of_app. right. apply list_elem_of_here.
Qed.

Section Handoff.
Context (me : nat) (c : cpu_local) (m : Z) (P : gmap Z phase) (H : gmap Z Z).
Hypothesis Hfree : H !! m = None.

Section Round.
Context (S : msys) (W : Z -> list Z) (mx : mutex_t) (t : Z) (l : list Z) (th : kernel_thread).
Hypothesis HI : minv (Some m) S P H W.
Hypothesis Hm : mutexes S !! m = Some mx.
Hypothesis Ho : owner mx = None.
Hypothesis Hl : W m = t :: l.
Hypothesis Ht : get (sch S) t = Some th.
Hypothesis Hw : waiting_mutex th = Some m.

Lemma round_facts : (t ∉ l) /\ (forall m', m' <> m -> t ∉ W m') /\ (exists p, P !! t = Some p /\ phase_mutex p = m) /\
  (forall m', P !! t = Some (Registered m') -> m' = m /\ state th = THREAD_STATE_RUNNING).
Proof using HI Hm Hl Ht Hw.
  destruct (v_mutexes _ _ _ _ _ HI m mx Hm) as [[_ _ _ Qn] _ _]. rewrite Hl in Qn. apply NoDup_cons in Qn as [Qn _].
  pose proof (v_threads _ _ _ _ _ HI t th Ht) as HT. unfold thread_ok in HT. rewrite Hw in HT.
  destruct HT as (_ & _ & Hu & Hp & _). split; [done|]. split; [intros m' Hne Hin; by apply Hne, Hu|]. split; [done|].
  intros m' Hr. destruct (registered_thread _ _ _ _ _ t m' HI Hr) as (k & Hk & Hs & Hw'). rewrite Ht in Hk. injection Hk as <-.
  split; [congruence|done].
Qed.

(** The common part of the three outcomes: [t] leaves the queue and gets the
    fields [th']. *)
Lemma round_step x' S' th' mx' :
  mutexes S' = <[m := mx']> (mutexes S) -> good (sch S') ->
  (forall i, seat <$> cpus (sch S') !! i = seat <$> cpus (sch S) !! i) ->
  (forall u k', u <> t -> get (sch S') u = Some k' -> exists k, get (sch S) u = Some k /\
    waiting_mutex k' = waiting_mutex k /\ mutex_wake_pending k' = mutex_wake_pending k /\
    (state k' = THREAD_STATE_BLOCKED -> state k = THREAD_STATE_BLOCKED)) ->
  (forall u v, u <> t -> next_is (sch S) u v -> next_is (sch S') u v) ->
  get (sch S') t = Some th' -> queue_ok (sch S') mx' l ->
  (owner mx' = Some t /\ waiting_mutex th' = Some m /\ x' = None /\ state th' <> THREAD_STATE_BLOCKED /\
     (state th = THREAD_STATE_RUNNING -> mutex_wake_pending th' = true)) \/
  (owner mx' = None /\ waiting_mutex th' = None /\ x' = Some m /\ state th <> THREAD_STATE_RUNNING) ->
  minv x' S' P H (updW W m l).
Proof using All.
  intros HM HG HS HO HN Ht' HQ Hcase. destruct round_facts as (F1 & F2 & F3 & F4).
  eapply (minv_step (Some m) x' S S' P P H H W m t mx mx' l HI). split; try done.
  - intros u v Hu _. by apply HN.
  - intros u Hu. rewrite Hl, elem_of_cons. tauto.
  - by right; left.
  - intros _. destruct Hcase as [(Ho' & _)|(_ & _ & -> & _)]; [left; congruence|by right].
  - congruence.
  - intros u Hu. destruct Hcase as [(Ho' & _)|(Ho' & _)]; congruence.
  - intros k Hk. rewrite Ht' in Hk. injection Hk as <-. unfold thread_ok. rewrite HM.
    destruct Hcase as [(Ho' & -> & -> & Hb & Hp)|(Ho' & -> & -> & Hb)]; (split; [|auto]).
    + exists mx'. rewrite lookup_insert_eq, updW_eq. split; [done|].
      split; [intros m'; unfold updW; destruct (Z.eqb_spec m' m); [done|]; intros Hin; by destruct (F2 m')|].
      split; [done|]. split; [by right|]. split; [|done]. intros Hr. right. split; [done|]. apply Hp. by apply (F4 m).
    + split; [intros m'; unfold updW; destruct (Z.eqb_spec m' m); [exact F1|by apply F2]|]. intros m' Hr. by destruct (F4 m' Hr).
  - congruence.
  - intros m' Hr. destruct (v_seats _ _ _ _ _ HI t m' Hr) as (i & d & Hd & Hs). specialize (HS i). rewrite Hd in HS.
    destruct (cpus (sch S') !! i) as [d'|] eqn:Ed; [|done]. exists i, d'. split; [done|]. cbn in HS. congruence.
Qed.

(** A waiter on its way to [scheduler_block] is told that it need not block. *)
Lemma round_running : state th = THREAD_STATE_RUNNING ->
  exists S', ('(seen, s) ← handoff_look S m t; handoff_act me s m t seen) = Some (true, S') /\
    minv None S' P H (updW W m l) /\ handed S S' m (t :: l) l.
Proof using All.
  intros Hst. destruct (v_mutexes _ _ _ _ _ HI m mx Hm) as [HQ _ _]. rewrite Hl in HQ.
  destruct (look_spec S m mx t l th Hm HQ Ht) as (S1 & mx1 & -> & M1 & O1 & Q1 & E1).
  rewrite Hw, bool_decide_eq_true_2, Hst by done. cbn [mbind option_bind handoff_act].
  rewrite (on_mutex_get _ _ mx1) by (rewrite M1; apply lookup_insert_eq). cbn [mbind option_bind sch].
  rewrite (on_thread_get _ _ (set_mutex_wait_next None th)) by (cbn; rewrite E1; apply get_put). cbn [mbind option_bind mutexes sch].
  rewrite M1, insert_insert_eq. eexists. split; [reflexivity|]. rewrite E1 in Q1 |- *. split.
  - eapply (round_step None _ _ (set_owner (Some t) mx1)); try done; cbn [sch mutexes].
    + apply (good_modify (put (sch S) t (set_mutex_wait_next None th)) t (set_mutex_wake_pending true) (set_mutex_wait_next None th));
        [done|apply get_put|]. by apply (good_modify (sch S) t (set_mutex_wait_next None) th), HI.
    + intros u k' Hu. rewrite !get_put_other by done. intros Hk. by exists k'.
    + intros u v Hu Hn. by apply next_put_other, next_put_other.
    + apply get_put.
    + destruct Q1 as [A1 A2 A3 A4]. split; try done. apply seg_put; [|done].
      destruct HQ as [_ _ _ Qn]. by apply NoDup_cons in Qn as [? _].
    + left. repeat (split; [done|]). split; [cbn; congruence|done].
  - exists (set_owner (Some t) mx1). cbn [mutexes sch owner set_owner]. split; [apply lookup_insert_eq|]. split.
    + cbn [List.find]. unfold can_take, is_state. by rewrite Ht, Hst.
    + split; [by exists []|]. eexists th, _. split; [done|]. split; [apply get_put|]. split; [done|]. split; [congruence|done].
Qed.

(** A sleeping waiter is woken. *)
Lemma round_blocked : cpus (sch S) !! me = Some c -> switching c = NoSwitch -> state th = THREAD_STATE_BLOCKED ->
  exists S', ('(seen, s) ← handoff_look S m t; handoff_act me s m t seen) = Some (true, S') /\
    minv None S' P H (updW W m l) /\ handed S S' m (t :: l) l.
Proof using All.
  intros Hc Hns Hst. destruct (v_mutexes _ _ _ _ _ HI m mx Hm) as [HQ _ _]. rewrite Hl in HQ.
  destruct (look_spec S m mx t l th Hm HQ Ht) as (S1 & mx1 & -> & M1 & O1 & Q1 & E1).
  rewrite Hw, bool_decide_eq_true_2, Hst by done. cbn [mbind option_bind handoff_act].
  rewrite (on_mutex_get _ _ mx1) by (rewrite M1; apply lookup_insert_eq). cbn [mbind option_bind sch mutexes].
  rewrite M1, insert_insert_eq. rewrite E1 in Q1 |- *. set (s1 := put (sch S) t (set_mutex_wait_next None th)) in *.
  assert (G1 : good s1) by (by apply (good_modify (sch S) t (set_mutex_wait_next None) th), HI).
  assert (T1 : get s1 t = Some (set_mutex_wait_next None th)) by apply get_put.
  destruct (unblock_good s1 me c t _ G1 Hc T1) as (r & s2 & E & G2 & _ & R2 & -> & HR).
  assert (HL : leaves me (Unblock t) s1 s2).
  { apply exec_leaves; [done|exists c; split; [done|]; split; [done|by eexists]|done|cbn; by rewrite E]. }
  assert (HD : forall u k, get s2 u = Some k -> is_Some (get s1 u)).
  { pose proof (unblock_ends (fun u _ => is_Some (get s1 u)) (fun _ => False) me (cpus s1)) as HU.
    destruct (HU ltac:(done) s1 t ltac:(done) ltac:(by repeat split) _ E) as [HU' _]. exact HU'. }
  rewrite E. unfold is_state. change (state (set_mutex_wait_next None th)) with (state th).
  rewrite bool_decide_eq_true_2 by done. cbn [mbind option_bind].
  destruct HR as (k2 & Hk2 & Hw2); [unfold is_state; by rewrite bool_decide_eq_true_2|].
  apply cores_lookup in Hk2 as (th2 & Ht2 & ->). destruct Hw2 as (W1 & W2 & _). cbn in W1, W2.
  destruct HL as [L1 L2 L3]. destruct (L1 t _ T1) as (th2' & Ht2' & Hw2 & _). rewrite Ht2 in Ht2'. injection Ht2' as <-.
  eexists. split; [reflexivity|]. split.
  - eapply (round_step None _ th2 (set_owner (Some t) mx1)); try done; cbn [sch mutexes].
    + intros i. specialize (R2 i). change (cpus s1) with (cpus (sch S)) in R2.
      destruct (cpus s2 !! i) as [d|], (cpus (sch S) !! i) as [d'|]; cbn in R2 |- *; try done.
      unfold role in R2. unfold seat. congruence.
    + intros u k' Hu Hk'. destruct (get s1 u) as [k|] eqn:Ek.
      * destruct (L1 u k Ek) as (k'' & Ek'' & A1 & A2 & A3 & A4). rewrite Hk' in Ek''. injection Ek'' as <-.
        exists k. split; [by rewrite <- Ek; unfold s1; rewrite get_put_other|]. split; [done|]. split; [by destruct A3 as [?|[? _]]|].
        intros Hb. by destruct (A4 Hb) as [?|[? _]].
      * exfalso. destruct (HD u k' Hk') as [? ?]. congruence.
    + intros u v Hu (k & Hk & Hv). destruct (L1 u k) as (k' & Hk' & _ & A & _); [unfold s1; by rewrite get_put_other|].
      exists k'. split; [done|congruence].
    + destruct Q1 as [A1 A2 A3 A4]. split; try done. eapply seg_ext; [|exact A3]. intros u v _ (k & Hk & Hv).
      destruct (L1 u k Hk) as (k' & Hk' & _ & A & _). exists k'. split; [done|congruence].
    + left. split; [done|]. split; [by rewrite Hw2|]. split; [done|]. split; congruence.
  - exists (set_owner (Some t) mx1). cbn [mutexes sch owner set_owner]. split; [apply lookup_insert_eq|]. split.
    + cbn [List.find]. unfold can_take, is_state. by rewrite Ht, Hst.
    + split; [by exists []|]. exists th, th2. split; [done|]. split; [done|]. split; [by rewrite Hw2|]. split; [done|congruence].
Qed.

(** Another waiter is sent away; it will try again when it runs. *)
Lemma round_skipped : state th <> THREAD_STATE_RUNNING -> state th <> THREAD_STATE_BLOCKED ->
  exists S', ('(seen, s) ← handoff_look S m t; handoff_act me s m t seen) = Some (false, S') /\
    minv (Some m) S' P H (updW W m l) /\ (exists mx', mutexes S' !! m = Some mx' /\ owner mx' = None) /\
    cpus (sch S') = cpus (sch S) /\ forall u, u <> t -> get (sch S') u = get (sch S) u.
Proof using All.
  intros Hr Hb. destruct (v_mutexes _ _ _ _ _ HI m mx Hm) as [HQ _ _]. rewrite Hl in HQ.
  destruct (look_spec S m mx t l th Hm HQ Ht) as (S1 & mx1 & -> & M1 & O1 & Q1 & E1).
  rewrite Hw, bool_decide_eq_true_2 by done. cbn [mbind option_bind].
  assert (handoff_act me S1 m t (Some (state th)) =
    Some (false, MSys (put (sch S1) t (set_waiting_mutex None (set_mutex_wait_next None th))) (mutexes S1))) as ->.
  { unfold handoff_act. rewrite (on_thread_get _ _ (set_mutex_wait_next None th)) by (rewrite E1; apply get_put). by destruct (state th). }
  rewrite E1 in Q1 |- *. eexists. split; [reflexivity|]. cbn [sch mutexes]. split; [|split; [|split; [done|]]].
  - eapply (round_step (Some m) _ _ mx1); try done; cbn [sch mutexes].
    + apply (good_modify (put (sch S) t (set_mutex_wait_next None th)) t (set_waiting_mutex None) (set_mutex_wait_next None th));
        [done|apply get_put|]. by apply (good_modify (sch S) t (set_mutex_wait_next None) th), HI.
    + intros u k' Hu. rewrite !get_put_other by done. intros Hk. by exists k'.
    + intros u v Hu Hn. by apply next_put_other, next_put_other.
    + apply get_put.
    + destruct Q1 as [A1 A2 A3 A4]. split; try done. apply seg_put; [|done].
      destruct HQ as [_ _ _ Qn]. by apply NoDup_cons in Qn as [? _].
    + right. rewrite O1. by repeat split.
  - exists mx1. rewrite M1, lookup_insert_eq, O1. done.
  - intros u Hu. by rewrite !get_put_other.
Qed.

End Round.

Lemma handoff_spec : forall l fuel S W mx,
  minv (Some m) S P H W -> mutexes S !! m = Some mx -> owner mx = None -> W m = l -> (length l <= fuel)%nat ->
  cpus (sch S) !! me = Some c -> switching c = NoSwitch ->
  exists r S' W', handoff_loop fuel me S m = Some (r, S') /\ minv None S' P H W' /\ handed S S' m l (W' m) /\
    r = (if owner <$> mutexes S' !! m is Some (Some _) then true else false).
Proof using All.
  induction l as [|t l IH]; intros fuel S W mx HI Hm Ho Hl Hf Hc Hns;
    destruct (v_mutexes _ _ _ _ _ HI m mx Hm) as [HQ _ _]; rewrite Hl in HQ.
  - exists false, S, W. assert (handoff_loop fuel me S m = Some (false, S)) as ->.
    { destruct fuel; cbn [handoff_loop]; rewrite Hm; cbn [mbind option_bind]; by rewrite (q_head _ _ _ HQ). }
    split; [done|]. split; [eapply minv_close; [done|done|by right]|]. rewrite Hm. cbn. rewrite Ho. split; [|done].
    exists mx. by rewrite Ho.
  - destruct fuel as [|fuel]; [cbn in Hf; lia|]. cbn [handoff_loop]. rewrite Hm. cbn [mbind option_bind]. rewrite (q_head _ _ _ HQ). cbn [hd_or].
    assert (Hin : t ∈ W m) by (rewrite Hl; apply list_elem_of_here).
    destruct (member_thread _ _ _ _ _ m t HI Hin) as (th & _ & Ht & Hw & _).
    assert (HF : forall (taken : bool) S', ('(seen, s) ← handoff_look S m t; handoff_act me s m t seen) = Some (taken, S') ->
      ('(seen, s) ← handoff_look S m t; '(taken, s) ← handoff_act me s m t seen;
       if taken : bool then Some (true, s) else handoff_loop fuel me s m) =
      if taken then Some (true, S') else handoff_loop fuel me S' m).
    { intros taken S'. destruct (handoff_look S m t) as [[seen S1]|]; [|done]. cbn [mbind option_bind].
      destruct (handoff_act me S1 m t seen) as [[tk S2]|]; [|done]. by intros [= -> ->]. }
    assert (HT : forall S' W', handed S S' m (t :: l) (W' m) -> can_take (sch S) t = true ->
      true = (if owner <$> mutexes S' !! m is Some (Some _) then true else false)).
    { intros S' W' (mx' & -> & Ho' & _) Hct. cbn. rewrite Ho'. cbn. by rewrite Hct. }
    destruct (decide (state th = THREAD_STATE_RUNNING)) as [Hr|Hr].
    { destruct (round_running S W mx t l th HI Hm Ho Hl Ht Hw Hr) as (S' & E & I' & D'). rewrite (HF _ _ E).
      exists true, S', (updW W m l). rewrite updW_eq. split; [done|]. split; [done|]. split; [done|].
      apply (HT S' (fun _ => l)); [done|]. unfold can_take, is_state. by rewrite Ht, Hr. }
    destruct (decide (state th = THREAD_STATE_BLOCKED)) as [Hb|Hb].
    { destruct (round_blocked S W mx t l th HI Hm Ho Hl Ht Hw Hc Hns Hb) as (S' & E & I' & D'). rewrite (HF _ _ E).
      exists true, S', (updW W m l). rewrite updW_eq. split; [done|]. split; [done|]. split; [done|].
      apply (HT S' (fun _ => l)); [done|]. unfold can_take, is_state. by rewrite Ht, Hb. }
    destruct (round_skipped S W mx t l th HI Hm Ho Hl Ht Hw Hr Hb) as (S1 & E & I1 & (mx1 & M1 & O1) & C1 & G1). rewrite (HF _ _ E).
    destruct (IH fuel S1 (updW W m l) mx1) as (r & S' & W' & E' & I' & D' & Er);
      [done|done|done|apply updW_eq|cbn in Hf; lia|by rewrite C1|done|].
    exists r, S', W'. split; [done|]. split; [done|]. split; [|done].
    apply q_nodup, NoDup_cons in HQ as [Hn _]. eapply handed_skip; [exact G1| |exact Hn|exact D'].
    unfold can_take, is_state. rewrite Ht. by rewrite !bool_decide_eq_false_2.
Qed.
End Handoff.

End MutexProofs.
