(* ===== verification/MutexSafety.v ===== *)
(** The operations of the mutexes keep the invariant; the system of threads that
    use them. *)
From stdpp Require Import gmap.
From S2P Require Import Prelude SchedState Scheduler SchedLinks SchedulerProofs SchedulerSteps.
From S2P Require Import SchedulerOps SchedulerTime SchedulerRun SchedulerLife SchedulerBoot SchedulerSafety.
From S2P Require Import SchedulerFrame Mutex MutexProofs.
Import SchedState Scheduler SchedLinks SchedulerProofs SchedulerSteps SchedulerOps SchedulerTime SchedulerRun
  SchedulerLife SchedulerBoot SchedulerSafety SchedulerFrame Mutex MutexProofs.

Module MutexSafety.

(** [t] runs on CPU [me]. *)
Definition at_cpu (s : sched) (me : nat) (t : Z) : Prop :=
  exists c, cpus s !! me = Some c /\ seat c = (Some t, NoSwitch).

Lemma at_cpu_current S me t : at_cpu (sch S) me t -> thread_current me S = Some (Some t).
Proof.
  intros (c & Hc & Hs). unfold thread_current, scheduler_current_thread. rewrite Hc. cbn. unfold seat in Hs. congruence.
Qed.

Lemma at_cpu_thread s me t : good s -> at_cpu s me t -> exists th, get s t = Some th /\ state th = THREAD_STATE_RUNNING.
Proof. intros HG (c & Hc & Hs). by eapply seat_thread. Qed.

(** A thread that is not in [mutex_lock] waits for nothing; in it, at most for
    the mutex of the call. *)
Lemma idle_waits x S P H W t th : minv x S P H W -> get (sch S) t = Some th -> P !! t = None -> waiting_mutex th = None.
Proof.
  intros HI Ht Hp. pose proof (v_threads _ _ _ _ _ HI t th Ht) as HT. unfold thread_ok in HT.
  destruct (waiting_mutex th); [|done]. destruct HT as (_ & _ & _ & (p & Hp' & _) & _). congruence.
Qed.

Lemma phase_waits x S P H W t th p : minv x S P H W -> get (sch S) t = Some th -> P !! t = Some p ->
  waiting_mutex th = None \/ waiting_mutex th = Some (phase_mutex p).
Proof.
  intros HI Ht Hp. pose proof (v_threads _ _ _ _ _ HI t th Ht) as HT. unfold thread_ok in HT.
  destruct (waiting_mutex th); [|by left]. destruct HT as (_ & _ & _ & (p' & Hp' & <-) & _). right. congruence.
Qed.

Lemma waits_nowhere x S P H W t th m : minv x S P H W -> get (sch S) t = Some th ->
  waiting_mutex th = None \/ waiting_mutex th = Some m -> forall m', m' <> m -> t ∉ W m'.
Proof.
  intros HI Ht Hw m' Hne Hin. destruct (member_thread _ _ _ _ _ m' t HI Hin) as (k & _ & Hk & Hw' & _).
  rewrite Ht in Hk. injection Hk as <-. destruct Hw; congruence.
Qed.

(** A thread that waits for nothing. *)
Lemma free_thread_ok x M P W m l t th :
  waiting_mutex th = None -> t ∉ l -> (forall m', m' <> m -> t ∉ W m') -> (forall m', P !! t <> Some (Registered m')) ->
  thread_ok x M P (updW W m l) t th.
Proof.
  intros Hw Hl Hm Hp. unfold thread_ok. rewrite Hw. split; [|done]. intros m'.
  destruct (decide (m' = m)) as [->|Hne]; [by rewrite updW_eq|]. rewrite updW_ne by done. by apply Hm.
Qed.

Lemma relink_same s s' u th' :
  set_mutex_wait_next None <$> get s' u = set_mutex_wait_next None <$> get s u -> get s' u = Some th' ->
  exists th, get s u = Some th /\ waiting_mutex th' = waiting_mutex th /\ mutex_wake_pending th' = mutex_wake_pending th /\
    (state th' = THREAD_STATE_BLOCKED -> state th = THREAD_STATE_BLOCKED).
Proof.
  intros E Hu. rewrite Hu in E. destruct (get s u) as [th|]; [|done]. cbn in E. exists th. split; [done|].
  pose proof (f_equal (fmap waiting_mutex) E) as E1. pose proof (f_equal (fmap mutex_wake_pending) E) as E2.
  pose proof (f_equal (fmap state) E) as E3. cbn in E1, E2, E3. split; [congruence|]. split; congruence.
Qed.

(** The steps of a thread [t] on a mutex [m]: links of waiters may change and
    fields of [t]. *)
Lemma self_step S S' P P' H H' W m t mx mx' th th' l' :
  minv None S P H W -> mutexes S !! m = Some mx -> get (sch S) t = Some th ->
  waiting_mutex th = None \/ waiting_mutex th = Some m ->
  mutexes S' = <[m := mx']> (mutexes S) -> good (sch S') -> cpus (sch S') = cpus (sch S) ->
  (forall u, u <> t -> set_mutex_wait_next None <$> get (sch S') u = set_mutex_wait_next None <$> get (sch S) u) ->
  (forall u, u <> t -> u ∉ W m -> get (sch S') u = get (sch S) u) ->
  get (sch S') t = Some th' ->
  (forall u, u <> t -> u ∈ l' <-> u ∈ W m) ->
  owner mx' = owner mx \/ owner mx = None \/ owner mx = Some t ->
  (owner mx <> None -> owner mx' <> None) ->
  queue_ok (sch S') mx' l' -> (forall u, owner mx' = Some u -> u ∉ l') ->
  (forall u, u <> t -> P' !! u = P !! u) -> (forall m', m' <> m -> H' !! m' = H !! m') ->
  thread_ok None (mutexes S') P' (updW W m l') t th' -> waiting_mutex th' = None \/ waiting_mutex th' = Some m ->
  (forall h, H' !! m = Some h -> owner mx' = Some h /\ (h = t -> waiting_mutex th' <> Some m) /\
     (h <> t -> H !! m = Some h)) ->
  (forall m', P' !! t = Some (Registered m') -> exists me, at_cpu (sch S) me t) ->
  minv None S' P' H' (updW W m l').
Proof.
  intros HI Hm Ht Hw HM HG HC HR HE Ht' Hl Ho Hn HQ Hout HP HH HT Hw' Hh Hs.
  eapply (minv_step None None S S' P P' H H' W m t mx mx' l' HI). split; try done.
  - intros i. by rewrite HC.
  - intros u k Hu Hk. eapply relink_same; [by apply HR|done].
  - intros u v Hu Hu' (k & Hk & Hv). exists k. by rewrite HE.
  - by eapply waits_nowhere.
  - intros [?|?]; [left; auto|done].
  - intros k Hk. rewrite Ht' in Hk. by injection Hk as <-.
  - intros h Hh'. destruct (Hh h Hh') as (H1 & H2 & H3). split; [done|]. intros k Hk.
    destruct (decide (h = t)) as [->|Hne]; [rewrite Ht' in Hk; injection Hk as <-; by apply H2|].
    destruct (v_mutexes _ _ _ _ _ HI m mx Hm) as [_ _ K3]. destruct (K3 h (H3 Hne)) as [_ K4].
    destruct (relink_same _ _ h k (HR h Hne) Hk) as (k0 & Hk0 & -> & _). by apply K4.
  - intros m' Hr. destruct (Hs m' Hr) as (me & c & Hc & Hsc). exists me, c. by rewrite HC.
Qed.

(** * The operations *)

(** [t] is outside the queue [l1] that is left of [W m]; it has the fields [th1]. *)
Record outside (S S1 : msys) (W : Z -> list Z) (m t : Z) (mx mx1 : mutex_t) (th1 : kernel_thread) (l1 : list Z) : Prop := {
  o_mutexes : mutexes S1 = <[m := mx1]> (mutexes S);
  o_owner : owner mx1 = owner mx;
  o_queue : queue_ok (sch S1) mx1 l1;
  o_out : t ∉ l1;
  o_members : forall u, u <> t -> u ∈ l1 <-> u ∈ W m;
  o_good : good (sch S1);
  o_cpus : cpus (sch S1) = cpus (sch S);
  o_thread : get (sch S1) t = Some th1;
  o_same : forall u, u <> t -> set_mutex_wait_next None <$> get (sch S1) u = set_mutex_wait_next None <$> get (sch S) u;
  o_other : forall u, u <> t -> u ∉ W m -> get (sch S1) u = get (sch S) u;
}.

Lemma outside_self S W m t mx th :
  mutexes S !! m = Some mx -> get (sch S) t = Some th -> queue_ok (sch S) mx (W m) -> good (sch S) -> t ∉ W m ->
  outside S S W m t mx mx th (W m).
Proof. intros. split; try done. by rewrite insert_id. Qed.

Lemma outside_put S S1 W m t mx mx1 th1 l1 f :
  keeps f -> outside S S1 W m t mx mx1 th1 l1 ->
  outside S (MSys (put (sch S1) t (f th1)) (mutexes S1)) W m t mx mx1 (f th1) l1.
Proof.
  intros Hf [A1 A2 [Q1 Q2 Q3 Q4] A4 A5 A6 A7 A8 A9 A10]. split; try done; cbn [sch].
  - split; try done. by apply seg_put.
  - by apply (good_modify (sch S1) t f th1).
  - apply get_put.
  - intros u Hu. rewrite get_put_other by done. by apply A9.
  - intros u Hu Hu'. rewrite get_put_other by done. by apply A10.
Qed.

Lemma leave_queue S P H W m mx t th :
  minv None S P H W -> mutexes S !! m = Some mx -> get (sch S) t = Some th ->
  exists S1 mx1 th1 l1, mutex_waiter_remove_locked S m t = Some S1 /\ outside S S1 W m t mx mx1 th1 l1 /\
    (waiting_mutex th1 = waiting_mutex th /\ state th1 = state th).
Proof.
  intros HI Hm Ht. destruct (v_mutexes _ _ _ _ _ HI m mx Hm) as [HQ _ _]. destruct (decide (t ∈ W m)) as [Hin|Hn].
  - apply list_elem_of_split in Hin as (l1 & l2 & El). pose proof HQ as HQ'. rewrite El in HQ'.
    destruct (waiter_remove_spec S m mx l1 t l2 Hm HQ') as (S1 & mx1 & -> & M1 & O1 & Q1 & R1).
    pose proof (q_nodup _ _ _ HQ') as (Hnd & N1 & N2)%nodup_middle.
    pose proof (r_same _ _ _ R1 t) as E. rewrite Ht in E. destruct (get (sch S1) t) as [th1|] eqn:Ht1; [|done].
    exists S1, mx1, th1, (l1 ++ l2). split; [done|]. split.
    + split; try done; [rewrite elem_of_app; tauto| |by apply R1, HI|apply R1|intros u _; apply R1|].
      * intros u Hu. rewrite El, !elem_of_app, elem_of_cons. tauto.
      * intros u Hu Hu'. apply R1. by rewrite <- El.
    + cbn in E. pose proof (f_equal (fmap waiting_mutex) E) as E1. pose proof (f_equal (fmap state) E) as E2.
      cbn in E1, E2. split; congruence.
  - exists S, mx, th, (W m). rewrite (remove_absent S m mx (W m)) by done. split; [done|]. split; [|done].
    apply outside_self; [done|done|done|apply HI|done].
Qed.

Section Ops.
Context (S : msys) (P : gmap Z phase) (H : gmap Z Z) (W : Z -> list Z) (me : nat) (t m : Z) (mx : mutex_t).
Hypothesis HI : minv None S P H W.
Hypothesis Hcpu : at_cpu (sch S) me t.
Hypothesis Hm : mutexes S !! m = Some mx.

Lemma try_lock_spec : P !! t = None -> exists S' W',
  mutex_try_lock me S m = Some (bool_decide (owner mx = None), S') /\
  minv None S' P (if bool_decide (owner mx = None) then <[m := t]> H else H) W' /\
  (owner mx = None -> H !! m = None).
Proof using All.
  intros Hp. unfold mutex_try_lock. rewrite (at_cpu_current _ _ _ Hcpu). cbn [mbind option_bind]. rewrite Hm. cbn [mbind option_bind].
  destruct (at_cpu_thread _ _ _ (v_good _ _ _ _ _ HI) Hcpu) as (th & Ht & Hst).
  pose proof (idle_waits _ _ _ _ _ t th HI Ht Hp) as Hw.
  destruct (v_mutexes _ _ _ _ _ HI m mx Hm) as [HQ HO HH].
  destruct (owner mx) as [o|] eqn:Eo; [by exists S, W|].
  rewrite (on_mutex_get _ _ mx) by done. cbn [mbind option_bind]. rewrite bool_decide_eq_true_2 by done.
  assert (Hn : forall m', t ∉ W m').
  { pose proof (v_threads _ _ _ _ _ HI t th Ht) as HT. unfold thread_ok in HT. rewrite Hw in HT. apply HT. }
  eexists _, _. split; [reflexivity|]. split.
  2: { intros _. destruct (H !! m) as [h|] eqn:Eh; [|done]. by destruct (HH h). }
  eapply (self_step S _ P P H _ W m t mx (set_owner (Some t) mx) th th (W m)); try done.
  - by left.
  - apply HI.
  - by right; left.
  - by destruct HQ.
  - intros u [= <-]. apply Hn.
  - intros m' Hne. by rewrite lookup_insert_ne.
  - apply free_thread_ok; [done|apply Hn|auto|congruence].
  - by left.
  - intros h. rewrite lookup_insert_eq. intros [= <-]. split; [done|]. split; [congruence|done].
  - congruence.
Qed.

(** The state of the thread that calls [mutex_lock]. *)
Section Lock.
Context (th : kernel_thread).
Hypothesis Hp : P !! t = Some (Entering m).
Hypothesis Ht : get (sch S) t = Some th.

Definition entered (r : lock_result) (S' : msys) (W' : Z -> list Z) : Prop :=
  match r with
  | Returns b => minv None S' (delete t P) (if b then <[m := t]> H else H) W' /\ (b = true -> H !! m = None)
  | Waits => minv None S' (<[t := Registered m]> P) H W'
  end.

Lemma lock_waiting : waiting_mutex th = None \/ waiting_mutex th = Some m.
Proof using HI Hp Ht. by apply (phase_waits _ _ _ _ _ t th (Entering m) HI). Qed.

(** [mutex_lock] takes a free mutex. *)
Lemma lock_free : owner mx = None -> exists S' W', lock_enter me S m = Some (Returns true, S') /\ entered (Returns true) S' W'.
Proof using All.
  intros Ho. unfold lock_enter. rewrite (at_cpu_current _ _ _ Hcpu). cbn [mbind option_bind]. rewrite Hm. cbn [mbind option_bind].
  rewrite Ht. cbn [mbind option_bind]. rewrite Ho. destruct (v_mutexes _ _ _ _ _ HI m mx Hm) as [HQ HO HH].
  assert (HF : H !! m = None) by (destruct (H !! m) as [h|]; [destruct (HH h eq_refl); congruence|done]).
  pose proof (waits_nowhere _ _ _ _ _ t th m HI Ht lock_waiting) as Hel.
  assert (exists S1 mx1 th1 l1, (if bool_decide (waiting_mutex th = Some m)
      then s ← mutex_waiter_remove_locked S m t; on_thread s t (set_waiting_mutex None) else Some S) = Some S1 /\
      outside S S1 W m t mx mx1 th1 l1 /\ waiting_mutex th1 = None) as (S1 & mx1 & th1 & l1 & -> & HO1 & W1).
  { case_bool_decide as Hw.
    - destruct (leave_queue S P H W m mx t th HI Hm Ht) as (S1 & mx1 & th1 & l1 & -> & HO1 & _). cbn [mbind option_bind].
      rewrite (on_thread_get _ _ th1) by apply HO1. eexists _, mx1, _, l1. split; [reflexivity|]. split; [by apply outside_put|done].
    - exists S, mx, th, (W m). split; [done|]. assert (waiting_mutex th = None) by (destruct lock_waiting; done).
      split; [|done]. apply outside_self; [done|done|done|apply HI|].
      pose proof (v_threads _ _ _ _ _ HI t th Ht) as HT. unfold thread_ok in HT. rewrite H0 in HT. apply HT. }
  pose proof HO1 as [M1 O1 Q1 N1 L1 G1 C1 T1 R1 E1].
  cbn [mbind option_bind]. rewrite (on_thread_get _ _ th1) by done. cbn [mbind option_bind].
  rewrite (on_mutex_get _ _ mx1) by (cbn; rewrite M1; apply lookup_insert_eq). cbn [mbind option_bind mutexes sch].
  rewrite M1, insert_insert_eq. eexists _, _. split; [reflexivity|]. split; [|done].
  pose proof (outside_put _ _ _ _ _ _ _ _ _ (set_mutex_wake_pending false) ltac:(done) HO1) as [_ _ Q2 _ _ G2 _ T2 R2 E2].
  cbn [sch] in *.
  eapply (self_step S _ P (delete t P) H _ W m t mx (set_owner (Some t) mx1) th (set_mutex_wake_pending false th1) l1); try done; cbn [sch mutexes].
  - apply lock_waiting.
  - by right; left.
  - by destruct Q2.
  - by intros u [= <-].
  - intros u Hu. by rewrite lookup_delete_ne.
  - intros m' Hne. by rewrite lookup_insert_ne.
  - apply free_thread_ok; [done|done|done|]. intros m'. by rewrite lookup_delete_eq.
  - by left.
  - intros h. rewrite lookup_insert_eq. intros [= <-]. split; [done|]. split; [cbn; congruence|done].
  - intros m'. by rewrite lookup_delete_eq.
Qed.

(** [mutex_lock] finds that the mutex was handed to it, or that it already holds
    it and must not wait. *)
Lemma lock_mine : owner mx = Some t -> exists b S' W', lock_enter me S m = Some (Returns b, S') /\ entered (Returns b) S' W'.
Proof using All.
  intros Ho. unfold lock_enter. rewrite (at_cpu_current _ _ _ Hcpu). cbn [mbind option_bind]. rewrite Hm. cbn [mbind option_bind].
  rewrite Ht. cbn [mbind option_bind]. rewrite Ho, Z.eqb_refl. destruct (v_mutexes _ _ _ _ _ HI m mx Hm) as [HQ HO HH].
  pose proof (HO t Ho) as Hn. pose proof (waits_nowhere _ _ _ _ _ t th m HI Ht lock_waiting) as Hel.
  pose proof (outside_self S W m t mx th Hm Ht HQ (v_good _ _ _ _ _ HI) Hn) as HO1.
  case_bool_decide as Hw.
  - rewrite (on_thread_get _ _ th) by done. cbn [mbind option_bind]. eexists true, _, _. split; [reflexivity|]. split.
    2: { intros _. destruct (H !! m) as [h|] eqn:Eh; [|done]. destruct (HH h eq_refl) as [? HH']. exfalso.
         apply (HH' th); [congruence|done]. }
    pose proof (outside_put _ _ _ _ _ _ _ _ _ (fun th => set_mutex_wake_pending false (set_waiting_mutex None th)) ltac:(done) HO1)
      as [M2 _ Q2 _ _ G2 _ T2 R2 E2]. cbn [sch mutexes] in *.
    eapply (self_step S _ P (delete t P) H _ W m t mx mx th _ (W m)); try done.
    + apply lock_waiting.
    + by left.
    + intros u Hu. by rewrite lookup_delete_ne.
    + intros m' Hne. by rewrite lookup_insert_ne.
    + apply free_thread_ok; [done|done|done|]. intros m'. by rewrite lookup_delete_eq.
    + by left.
    + intros h. rewrite lookup_insert_eq. intros [= <-]. split; [done|]. split; [cbn; congruence|done].
    + intros m'. by rewrite lookup_delete_eq.
  - destruct lock_waiting as [Hw'|]; [|done]. exists false, S, (updW W m (W m)). split; [done|]. split; [|done].
    eapply (self_step S S P (delete t P) H H W m t mx mx th th (W m)); try done.
    + by left.
    + by rewrite insert_id.
    + apply HI.
    + by left.
    + intros u Hu. by rewrite lookup_delete_ne.
    + apply free_thread_ok; [done|done|done|]. intros m'. by rewrite lookup_delete_eq.
    + by left.
    + intros h Hh. destruct (HH h Hh) as [? _]. split; [done|]. split; [congruence|done].
    + intros m'. by rewrite lookup_delete_eq.
Qed.

(** [mutex_lock] joins the waiters, or finds itself among them again. *)
Lemma lock_taken o : owner mx = Some o -> o <> t -> exists S' W', lock_enter me S m = Some (Waits, S') /\ entered Waits S' W'.
Proof using All.
  intros Ho Hot. unfold lock_enter. rewrite (at_cpu_current _ _ _ Hcpu). cbn [mbind option_bind]. rewrite Hm. cbn [mbind option_bind].
  rewrite Ht. cbn [mbind option_bind]. rewrite Ho. destruct (Z.eqb_spec o t); [done|].
  destruct (v_mutexes _ _ _ _ _ HI m mx Hm) as [HQ HO HH].
  pose proof (waits_nowhere _ _ _ _ _ t th m HI Ht lock_waiting) as Hel.
  pose proof (v_threads _ _ _ _ _ HI t th Ht) as HT. unfold thread_ok in HT.
  destruct (at_cpu_thread _ _ _ (v_good _ _ _ _ _ HI) Hcpu) as (th0 & Ht0 & Hst). rewrite Ht in Ht0. injection Ht0 as <-.
  destruct (waiting_mutex th) as [m'|] eqn:Ew.
  - assert (m' = m) as -> by (destruct lock_waiting; congruence). rewrite Z.eqb_refl. exists S, (updW W m (W m)). split; [done|].
    destruct HT as (mx' & Hm' & H1 & H2 & H3 & H4 & H5). rewrite Hm in Hm'. injection Hm' as <-.
    assert (Hin : t ∈ W m) by (destruct H3; congruence).
    eapply (self_step S S P (<[t := Registered m]> P) H H W m t mx mx th th (W m)); try done; try by (rewrite ?Ew; right).
    + by rewrite insert_id.
    + apply HI.
    + by left.
    + intros u Hu. by rewrite lookup_insert_ne.
    + unfold thread_ok. rewrite Ew. exists mx. rewrite Hm, updW_eq, lookup_insert_eq. split; [done|].
      split; [intros m'; unfold updW; by destruct (Z.eqb_spec m' m); [|apply H1]|]. split; [by eexists|].
      split; [by left|]. split; [intros _; left; split; [done|left; congruence]|congruence].
    + intros h Hh. destruct (HH h Hh) as [? HW]. split; [done|]. split; [intros ->; by apply HW|done].
    + intros m' _. by exists me.
  - destruct HT as [HT _]. set (f := fun th => set_waiting_mutex (Some m) (set_mutex_wake_pending false th)).
    rewrite (on_thread_get S t th f) by done. cbn [mbind option_bind]. set (S1 := MSys (put (sch S) t (f th)) (mutexes S)).
    pose proof (outside_put _ _ _ _ _ _ _ _ _ f ltac:(done) (outside_self S W m t mx th Hm Ht HQ (v_good _ _ _ _ _ HI) (HT m)))
      as [M2 _ Q2 _ _ G2 _ T2 R2 E2]. cbn [sch mutexes] in M2, Q2, G2, T2, R2, E2.
    destruct (append_spec S1 m mx (W m) t (f th)) as (S2 & mx2 & -> & M3 & O3 & Q3 & R3); [done|done|apply HT|done|].
    cbn [mbind option_bind]. exists S2, (updW W m (W m ++ [t])). split; [done|].
    assert (Ht2 : exists th2, get (sch S2) t = Some th2 /\ waiting_mutex th2 = Some m /\ state th2 = state th).
    { pose proof (r_same _ _ _ R3 t) as E. cbn [sch S1] in E. rewrite T2 in E. destruct (get (sch S2) t) as [th2|]; [|done]. exists th2.
      pose proof (f_equal (fmap waiting_mutex) E) as E3. pose proof (f_equal (fmap state) E) as E4. cbn in E3, E4. split; [done|]. split; congruence. }
    destruct Ht2 as (th2 & Ht2 & Hw2 & Hs2).
    eapply (self_step S S2 P (<[t := Registered m]> P) H H W m t mx mx2 th th2 (W m ++ [t])); try done.
    + by left.
    + apply R3. exact G2.
    + by rewrite (r_cpus _ _ _ R3).
    + intros u Hu. rewrite (r_same _ _ _ R3 u). by apply R2.
    + intros u Hu Hu'. rewrite (r_other _ _ _ R3 u); [by apply E2|]. rewrite elem_of_app, list_elem_of_singleton. tauto.
    + intros u Hu. rewrite elem_of_app, list_elem_of_singleton. tauto.
    + by left.
    + congruence.
    + intros u Hu. rewrite O3 in Hu. rewrite elem_of_app, list_elem_of_singleton. intros [?|?]; [by apply (HO u)|congruence].
    + intros u Hu. by rewrite lookup_insert_ne.
    + unfold thread_ok. rewrite Hw2. exists mx2. rewrite M3, updW_eq, !lookup_insert_eq. split; [done|].
      assert (t ∈ W m ++ [t]) by (apply elem_of_app; right; by apply list_elem_of_singleton).
      split; [intros m'; unfold updW; destruct (Z.eqb_spec m' m); [done|]; by intros ?%HT|]. split; [by eexists|].
      split; [by left|]. split; [intros _; left; split; [done|left; congruence]|congruence].
    + by right.
    + intros h Hh. destruct (HH h Hh) as [? HW]. split; [congruence|]. split; [|done]. intros ->. congruence.
    + intros m' _. by exists me.
Qed.

End Lock.

Lemma lock_enter_spec : P !! t = Some (Entering m) -> exists r S' W', lock_enter me S m = Some (r, S') /\ entered r S' W'.
Proof using All.
  intros Hp. destruct (at_cpu_thread _ _ _ (v_good _ _ _ _ _ HI) Hcpu) as (th & Ht & _).
  destruct (owner mx) as [o|] eqn:Eo.
  - destruct (decide (o = t)) as [->|Hne].
    + destruct (lock_mine th Hp Ht Eo) as (b & S' & W' & ?). by exists (Returns b), S', W'.
    + destruct (lock_taken th Hp Ht o Eo Hne) as (S' & W' & ?). by exists Waits, S', W'.
  - destruct (lock_free th Hp Ht Eo) as (S' & W' & ?). by exists (Returns true), S', W'.
Qed.

(** The end of a call whose thread could not block. *)
Lemma lock_abort_spec : P !! t = Some (Failed m) -> exists S' W', lock_abort me S m = Some S' /\ minv None S' (delete t P) H W'.
Proof using All.
  intros Hp. unfold lock_abort. rewrite (at_cpu_current _ _ _ Hcpu). cbn [mbind option_bind].
  destruct (at_cpu_thread _ _ _ (v_good _ _ _ _ _ HI) Hcpu) as (th & Ht & _).
  pose proof (phase_waits _ _ _ _ _ t th _ HI Ht Hp) as Hw. cbn in Hw.
  destruct (leave_queue S P H W m mx t th HI Hm Ht) as (S1 & mx1 & th1 & l1 & -> & HO1 & Hw1 & _). cbn [mbind option_bind].
  rewrite (on_thread_get _ _ th1) by apply HO1. eexists _, _. split; [reflexivity|].
  set (f := fun th => set_mutex_wake_pending false (if bool_decide (waiting_mutex th = Some m) then set_waiting_mutex None th else th)).
  assert (Hf : keeps f) by (intros k; unfold f; cbn; by destruct (bool_decide _)).
  destruct (v_mutexes _ _ _ _ _ HI m mx Hm) as [_ HO HH].
  assert (Hw2 : waiting_mutex (f th1) = None) by (unfold f; case_bool_decide as Hb; [done|]; cbn; destruct Hw; congruence).
  pose proof (outside_put _ _ _ _ _ _ _ _ _ f Hf HO1) as [M2 O2 Q2 N2 L2 G2 C2 T2 R2 E2].
  eapply (self_step S _ P (delete t P) H H W m t mx mx1 th (f th1) l1); try done.
  - left. by rewrite O2.
  - by rewrite O2.
  - intros u Hu. rewrite O2 in Hu. destruct (decide (u = t)) as [->|Hne]; [done|]. rewrite L2 by done. by apply HO.
  - intros u Hu. by rewrite lookup_delete_ne.
  - apply free_thread_ok; [done|done|by eapply waits_nowhere|]. intros m'. by rewrite lookup_delete_eq.
  - by left.
  - intros h Hh. destruct (HH h Hh) as [? _]. rewrite O2. split; [done|]. split; [congruence|done].
  - intros m'. by rewrite lookup_delete_eq.
Qed.

(** [mutex_unlock] by the owner hands the mutex over; by anyone else it fails. *)
Lemma unlock_spec : P !! t = None -> exists S' W',
  mutex_unlock me S m = Some (is_thread (owner mx) t, S') /\
  minv None S' P (if is_thread (owner mx) t then delete m H else H) W' /\
  if is_thread (owner mx) t then handed S S' m (W m) (W' m) else S' = S.
Proof using All.
  intros Hp. unfold mutex_unlock. rewrite (at_cpu_current _ _ _ Hcpu). cbn [mbind option_bind]. rewrite Hm. cbn [mbind option_bind].
  destruct (is_thread (owner mx) t) eqn:Eo; [|by exists S, W]. unfold is_thread in Eo. apply bool_decide_eq_true in Eo.
  destruct (at_cpu_thread _ _ _ (v_good _ _ _ _ _ HI) Hcpu) as (th & Ht & _). pose proof Hcpu as (c & Hc & Hsc).
  pose proof (idle_waits _ _ _ _ _ t th HI Ht Hp) as Hw. rewrite (on_mutex_get _ _ mx) by done. cbn [mbind option_bind].
  destruct (v_mutexes _ _ _ _ _ HI m mx Hm) as [HQ HO HH]. set (S1 := MSys _ _).
  assert (Hn : forall m', t ∉ W m').
  { pose proof (v_threads _ _ _ _ _ HI t th Ht) as HT. unfold thread_ok in HT. rewrite Hw in HT. apply HT. }
  assert (I1 : minv (Some m) S1 P (delete m H) (updW W m (W m))).
  { eapply (minv_step None (Some m) S S1 P P H (delete m H) W m t mx (set_owner None mx) (W m) HI).
    split; try done; cbn [sch S1].
    - apply HI.
    - intros u k _ Hk. by exists k.
    - by right; right.
    - by right.
    - by destruct HQ.
    - intros m' Hne. by rewrite lookup_delete_ne.
    - intros k Hk. rewrite Ht in Hk. injection Hk as <-. split; [|by left]. apply free_thread_ok; [done|apply Hn|auto|congruence].
    - intros h. by rewrite lookup_delete_eq.
    - congruence. }
  destruct (handoff_spec me c m P (delete m H) (lookup_delete_eq _ _) (W m) (size (threads (sch S1))) S1 _ (set_owner None mx) I1)
    as (r & S' & W' & E & I' & D' & _); [apply lookup_insert_eq|done|apply updW_eq|by eapply queue_threads|done|unfold seat in Hsc; congruence|].
  unfold mutex_handoff_locked. rewrite E. cbn [mbind option_bind]. by exists S', W'.
Qed.

End Ops.

(** The pending wake-up of a thread that is not about to block can be cleared. *)
Lemma minv_pending S P H W t th v :
  minv None S P H W -> get (sch S) t = Some th -> (forall m, P !! t <> Some (Registered m)) ->
  minv None (MSys (put (sch S) t (set_mutex_wake_pending v th)) (mutexes S)) P H W.
Proof.
  intros HI Ht Hr. eapply minv_sched; [exact HI| | | | |].
  - apply (good_modify (sch S) t (set_mutex_wake_pending v) th); [done|done|apply HI].
  - intros u k m Hu Hw. split; [done|]. destruct (decide (u = t)) as [->|Hne].
    + rewrite Ht in Hu. injection Hu as <-. eexists. split; [apply get_put|]. split; [done|]. split; [|by left]. by intros ?%Hr.
    + exists k. rewrite get_put_other by done. split; [done|]. split; [done|]. split; [done|by left].
  - intros u x _ Hn. destruct (decide (u = t)) as [->|Hne]; [|by apply next_put_other].
    destruct Hn as (k & Hk & Hx). rewrite Ht in Hk. injection Hk as <-. eexists. by rewrite get_put.
  - intros u k. destruct (decide (u = t)) as [->|Hne]; [rewrite get_put; intros [= <-]; right; by exists th|].
    rewrite get_put_other by done. intros Hk. right. by exists k.
  - intros u m Hu. split; [done|]. by apply (v_seats _ _ _ _ _ HI u m).
Qed.

(** A terminated thread is removed from the waiters of its mutex; if the mutex was
    handed to it, it goes to the next one. *)
Lemma cancel_spec S P H W me c t th :
  minv None S P H W -> cpus (sch S) !! me = Some c -> switching c = NoSwitch -> get (sch S) t = Some th ->
  state th = THREAD_STATE_TERMINATED ->
  exists S' W', mutex_cancel_waiter me S t = Some S' /\ minv None S' P H W'.
Proof.
  intros HI Hc Hns Ht Hst. unfold mutex_cancel_waiter. rewrite Ht. cbn [mbind option_bind].
  destruct (waiting_mutex th) as [m|] eqn:Hw; [|by exists S, W].
  assert (Hreg : forall m', P !! t <> Some (Registered m')).
  { intros m' Hr. destruct (registered_thread _ _ _ _ _ t m' HI Hr) as (k & Hk & Hs & _). congruence. }
  pose proof (v_threads _ _ _ _ _ HI t th Ht) as HT. unfold thread_ok in HT. rewrite Hw in HT.
  destruct HT as (mx & Hm & Hu & Hph & Hin & _). rewrite Hm. cbn [mbind option_bind]. rewrite (on_thread_get _ _ th) by done. cbn [mbind option_bind].
  destruct (v_mutexes _ _ _ _ _ HI m mx Hm) as [HQ HO HH].
  assert (Hel : forall m', m' <> m -> t ∉ W m') by (intros m' Hne Hin'; by apply Hne, Hu).
  assert (HF : forall h, H !! m = Some h -> h <> t) by (intros h Hh ->; destruct (HH t Hh) as [_ HH']; by apply (HH' th)).
  set (S1 := MSys _ _).
  destruct (is_thread (owner mx) t) eqn:Eo.
  - unfold is_thread in Eo. apply bool_decide_eq_true in Eo.
    assert (HN : H !! m = None) by (destruct (H !! m) as [h|] eqn:Eh; [destruct (HH h eq_refl); destruct (HF h eq_refl); congruence|done]).
    rewrite (on_mutex_get _ _ mx) by done. cbn [mbind option_bind sch S1].
    rewrite (on_thread_get _ _ (set_mutex_wake_pending false th)) by apply get_put. cbn [mbind option_bind sch mutexes].
    set (S2 := MSys _ _). set (f := fun th => set_waiting_mutex None (set_mutex_wake_pending false th)).
    pose proof (outside_put _ _ _ _ _ _ _ _ _ (set_mutex_wake_pending false) ltac:(done)
      (outside_self S W m t mx th Hm Ht HQ (v_good _ _ _ _ _ HI) (HO t Eo))) as HO1.
    pose proof (outside_put _ _ _ _ _ _ _ _ _ (set_waiting_mutex None) ltac:(done) HO1) as [_ _ Q2 _ _ G2 _ T2 R2 E2]. cbn [sch mutexes] in Q2, G2, T2, R2, E2.
    assert (I1 : minv (Some m) S2 P H (updW W m (W m))).
    { eapply (minv_step None (Some m) S S2 P P H H W m t mx (set_owner None mx) (W m) HI).
      split; try done; cbn [sch S2].
      - intros u k Hne Hk. eapply relink_same; [by apply R2|done].
      - intros u v Hne Hne' (k & Hk & Hv). exists k. by rewrite E2.
      - by right; right.
      - by right.
      - by destruct Q2.
      - intros k Hk. rewrite T2 in Hk. injection Hk as <-. split; [|by left]. apply free_thread_ok; [done|by apply HO|done|done].
      - congruence.
      - intros m' Hr. by destruct (Hreg m'). }
    destruct (handoff_spec me c m P H HN (W m) (size (threads (sch S2))) S2 _ (set_owner None mx) I1)
      as (r & S' & W' & E & I' & _); [apply lookup_insert_eq|done|apply updW_eq|by eapply queue_threads|done|done|].
    unfold mutex_handoff_locked. rewrite E. cbn [mbind option_bind]. by exists S', W'.
  - unfold is_thread in Eo. apply bool_decide_eq_false in Eo.
    pose proof (minv_pending S P H W t th false HI Ht Hreg) as I1. fold S1 in I1. pose proof (get_put (sch S) t (set_mutex_wake_pending false th)) as Ht1.
    destruct (leave_queue S1 P H W m mx t _ I1 Hm Ht1) as (S2 & mx2 & th2 & l2 & -> & HO2 & Hw2 & _). cbn [mbind option_bind].
    rewrite (on_thread_get _ _ th2) by apply HO2. eexists _, _. split; [reflexivity|].
    pose proof (outside_put _ _ _ _ _ _ _ _ _ (set_waiting_mutex None) ltac:(done) HO2) as [M3 O3 Q3 N3 L3 G3 C3 T3 R3 E3].
    eapply (self_step S1 _ P P H H W m t mx mx2 _ (set_waiting_mutex None th2) l2 I1 Hm Ht1); try done.
    + by right.
    + left. by rewrite O3.
    + by rewrite O3.
    + intros u Hu'. rewrite O3 in Hu'. destruct (decide (u = t)) as [->|Hne]; [done|]. rewrite L3 by done. by apply HO.
    + by apply free_thread_ok.
    + by left.
    + intros h Hh. destruct (HH h Hh) as [? _]. rewrite O3. split; [done|]. split; [congruence|done].
    + intros m' Hr. by destruct (Hreg m').
Qed.

(** A new mutex. *)
Lemma mutex_init_spec S P H W m : minv None S P H W -> mutexes S !! m = None -> minv None (mutex_init S m) P H W.
Proof.
  intros [V1 V2 V3 V4 V5] Hm. destruct (V4 m Hm) as [Wm Hmh]. split; try done; unfold mutex_init; cbn [mutexes sch].
  - intros t th Ht. specialize (V2 t th Ht). unfold thread_ok in *. destruct (waiting_mutex th) as [m'|]; [|done].
    destruct V2 as (mx & Hmx & HR). exists mx. rewrite lookup_insert_ne by congruence. done.
  - intros m' mx. destruct (decide (m' = m)) as [->|Hne]; [|rewrite lookup_insert_ne by done; apply V3].
    rewrite lookup_insert_eq. intros [= <-]. split; [|done|congruence]. rewrite Wm. split; try done. apply NoDup_nil_2.
  - intros m'. destruct (decide (m' = m)) as [->|Hne]; [by rewrite lookup_insert_eq|]. rewrite lookup_insert_ne by done. apply V4.
Qed.

(** A thread that leaves the state before the call of [scheduler_block]. *)
Lemma minv_phase x S P H W t m q :
  minv x S P H W -> P !! t = Some (Registered m) -> phase_mutex q = m -> (forall m', q <> Registered m') ->
  minv x S (<[t := q]> P) H W.
Proof.
  intros HI Hp Hq Hr. destruct (registered_thread _ _ _ _ _ t m HI Hp) as (th0 & Ht0 & _ & Hw0).
  destruct HI as [V1 V2 V3 V4 V5]. split; try done.
  - intros u th Hu. specialize (V2 u th Hu). unfold thread_ok in *. destruct (decide (u = t)) as [->|Hne].
    + rewrite Hu in Ht0. injection Ht0 as <-. rewrite Hw0 in *. destruct V2 as (mx & H1 & H2 & H3 & H4 & H5 & H6). exists mx.
      rewrite lookup_insert_eq. split; [done|]. split; [done|]. split; [by exists q|]. split; [done|]. split; [|done].
      intros [= E]. by destruct (Hr m).
    + by rewrite lookup_insert_ne by done.
  - intros u m'. destruct (decide (u = t)) as [->|Hne]; [|rewrite lookup_insert_ne by done; apply V5].
    rewrite lookup_insert_eq. intros [= E]. by destruct (Hr m').
Qed.

(** The call of [scheduler_block] between the two sections of [mutex_lock]. *)
Lemma block_spec S P H W me t m f :
  minv None S P H W -> at_cpu (sch S) me t -> P !! t = Some (Registered m) -> flags_safe f = true ->
  exists r s', scheduler_block me (sch S) f = Some (r, s') /\
    minv None (MSys s' (mutexes S)) (<[t := if r then Entering m else Failed m]> P) H W.
Proof.
  intros HI Hcpu Hp Hf. pose proof Hcpu as (c & Hc & Hsc). unfold seat in Hsc. injection Hsc as Hcur Hns.
  destruct (registered_thread _ _ _ _ _ t m HI Hp) as (th & Ht & Hst & Hw).
  destruct (block_good (sch S) me c f (v_good _ _ _ _ _ HI) Hc Hns Hf) as (r & s' & E & G' & _ & _). exists r, s'. split; [done|].
  assert (HL : leaves me (Block f) (sch S) s').
  { apply exec_leaves; [apply HI|by exists c|done|cbn; by rewrite E]. }
  destruct HL as [L1 L2 L3].
  assert (HR : forall u, runs (sch S) me u -> u = t) by (intros u (d & Hd & Hu); congruence).
  pose proof (v_threads _ _ _ _ _ HI t th Ht) as HT. unfold thread_ok in HT. rewrite Hw in HT.
  destruct HT as (mx & Hm & HT1 & HT2 & HT3 & HT4 & _).
  assert (HB : forall k, get s' t = Some k -> state k = THREAD_STATE_BLOCKED -> t ∈ W m /\ taken None m mx).
  { intros k Hk Hb. destruct (HT4 Hp) as [?|[_ Hpend]]; [done|]. exfalso. unfold scheduler_block in E. rewrite Hc in E.
    cbn [mbind option_bind] in E. rewrite Hcur, Ht in E. cbn [mbind option_bind] in E. rewrite Hpend in E. injection E as _ <-.
    rewrite get_put in Hk. injection Hk as <-. cbn in Hb. congruence. }
  set (q := if r then Entering m else Failed m).
  assert (Hq : phase_mutex q = m /\ forall m', q <> Registered m') by (unfold q; by destruct r).
  assert (I1 : minv None S (<[t := q]> P) H W) by (by eapply minv_phase; [..|apply Hq|apply Hq]).
  eapply minv_sched; [exact I1|done| | | |].
  - intros u k mu Hu Hwu. split; [done|]. destruct (L1 u k Hu) as (k' & Hk' & A1 & A2 & A3 & A4). exists k'. split; [done|].
    split; [congruence|]. split.
    + intros Hru. destruct A3 as [?|(_ & Hru' & _)]; [done|]. rewrite (HR u Hru'), lookup_insert_eq in Hru. injection Hru as Hru. by destruct Hq as [_ Hq]; destruct (Hq mu).
    + intros Hb. destruct (A4 Hb) as [?|[_ Hru]]; [by left|]. right. rewrite (HR u Hru) in *. rewrite Ht in Hu. injection Hu as <-.
      rewrite Hw in Hwu. injection Hwu as <-. destruct (HB k' Hk' Hb). split; [done|by exists mx].
  - intros u v _ (k & Hk & Hv). destruct (L1 u k Hk) as (k' & Hk' & _ & A & _). exists k'. split; [done|congruence].
  - intros u k' Hk'. destruct (get (sch S) u) as [k|] eqn:Ek.
    + right. exists k. destruct (L1 u k Ek) as (k'' & Hk'' & A & _). split; [done|congruence].
    + left. destruct (L2 u k' Hk' Ek) as [A _]. unfold mutex_fields in A. congruence.
  - intros u mu Hru. split; [done|]. destruct (decide (u = t)) as [->|Hne].
    { rewrite lookup_insert_eq in Hru. injection Hru as Hru. by destruct Hq as [_ Hq]; destruct (Hq mu). }
    rewrite lookup_insert_ne in Hru by done. destruct (v_seats _ _ _ _ _ HI u mu Hru) as (i & d & Hd & Hs).
    assert (i <> me) as Hi by (intros ->; unfold seat in Hs; congruence). specialize (L3 i Hi). rewrite Hd in L3.
    destruct (cpus s' !! i) as [d'|] eqn:Ed; [|done]. exists i, d'. split; [done|]. cbn in L3. congruence.
Qed.

End MutexSafety.
