(* ===== verification/MutexTheorems.v ===== *)
(** The system of threads that use mutexes, in any interleaving of the critical
    sections, and what the mutexes guarantee to it. *)
From stdpp Require Import gmap.
From S2P Require Import Prelude SchedState Scheduler SchedLinks SchedulerProofs SchedulerSteps.
From S2P Require Import SchedulerOps SchedulerTime SchedulerRun SchedulerLife SchedulerBoot SchedulerSafety.
From S2P Require Import SchedulerTheorems SchedulerFrame Mutex MutexProofs MutexSafety.
Import SchedState Scheduler SchedLinks SchedulerProofs SchedulerSteps SchedulerOps SchedulerTime SchedulerRun
  SchedulerLife SchedulerBoot SchedulerSafety SchedulerTheorems SchedulerFrame Mutex MutexProofs MutexSafety.

Module MutexTheorems.

(** * The system *)

Record system := System { st : msys; phases : gmap Z phase; holders : gmap Z Z }.

(** A thread in [mutex_lock] has interrupts off around its call of
    [scheduler_block]; at the head of the loop it can be preempted, but it does
    not block, sleep or end there. *)
Definition permits (P : gmap Z phase) (s : sched) (me : nat) (o : op) : Prop :=
  forall t p, runs s me t -> P !! t = Some p ->
    match p with Entering _ => stops o = false /\ (forall f, o <> Terminate f) | Registered _ | Failed _ => False end.

Inductive step : system -> system -> Prop :=
  | step_sched S P H me o s' :
      allowed me o (sch S) -> (forall t, o <> Destroy t) -> permits P (sch S) me o -> exec me o (sch S) = Some s' ->
      step (System S P H) (System (MSys s' (mutexes S)) P H)
  | step_destroy S P H me t th r S' :
      get (sch S) t = Some th -> waiting_mutex th = None -> thread_destroy_with_mutexes me S t = Some (r, S') ->
      step (System S P H) (System S' (if r then delete t P else P) H)
  | step_cancel S P H me c t th S' :
      cpus (sch S) !! me = Some c -> switching c = NoSwitch -> get (sch S) t = Some th ->
      state th = THREAD_STATE_TERMINATED -> mutex_cancel_waiter me S t = Some S' ->
      step (System S P H) (System S' P H)
  | step_init S P H m :
      mutexes S !! m = None -> step (System S P H) (System (mutex_init S m) P H)
  | step_call S P H me t m :
      at_cpu (sch S) me t -> P !! t = None -> is_Some (mutexes S !! m) ->
      step (System S P H) (System S (<[t := Entering m]> P) H)
  | step_returns S P H me t m b S' :
      at_cpu (sch S) me t -> P !! t = Some (Entering m) -> is_Some (mutexes S !! m) ->
      lock_enter me S m = Some (Returns b, S') ->
      step (System S P H) (System S' (delete t P) (if b then <[m := t]> H else H))
  | step_waits S P H me t m S' :
      at_cpu (sch S) me t -> P !! t = Some (Entering m) -> is_Some (mutexes S !! m) ->
      lock_enter me S m = Some (Waits, S') ->
      step (System S P H) (System S' (<[t := Registered m]> P) H)
  | step_block S P H me t m f r s' :
      at_cpu (sch S) me t -> P !! t = Some (Registered m) -> flags_safe f = true ->
      scheduler_block me (sch S) f = Some (r, s') ->
      step (System S P H) (System (MSys s' (mutexes S)) (<[t := if r then Entering m else Failed m]> P) H)
  | step_abort S P H me t m S' :
      at_cpu (sch S) me t -> P !! t = Some (Failed m) -> is_Some (mutexes S !! m) -> lock_abort me S m = Some S' ->
      step (System S P H) (System S' (delete t P) H)
  | step_try S P H me t m b S' :
      at_cpu (sch S) me t -> P !! t = None -> is_Some (mutexes S !! m) -> mutex_try_lock me S m = Some (b, S') ->
      step (System S P H) (System S' P (if b then <[m := t]> H else H))
  | step_unlock S P H me t m b S' :
      at_cpu (sch S) me t -> P !! t = None -> is_Some (mutexes S !! m) -> mutex_unlock me S m = Some (b, S') ->
      step (System S P H) (System S' P (if b then delete m H else H)).

(** From the start of the kernel. *)
Inductive reached : system -> Prop :=
  | reached_boot boot_stack boot_size t stack s others :
      t <> bootstrap_thread -> stack <> 0 -> stack_fits stack THREAD_KERNEL_STACK_SIZE ->
      scheduler_init boot_stack boot_size (Some (t, stack)) = Some (true, s) ->
      reached (System (MSys (cpu_init_bsp s others) ∅) ∅ ∅)
  | reached_step X X' : reached X -> step X X' -> reached X'.

(** * The invariant holds *)

Lemma sched_spec S P H W me o s' :
  minv None S P H W -> allowed me o (sch S) -> (forall t, o <> Destroy t) -> permits P (sch S) me o ->
  exec me o (sch S) = Some s' -> minv None (MSys s' (mutexes S)) P H W.
Proof.
  intros HI Ha Hd Hpe He. pose proof (v_good _ _ _ _ _ HI) as HG.
  destruct (step_good _ me o HG Ha) as (s1 & E1 & G1 & _). rewrite He in E1. injection E1 as <-.
  destruct (exec_leaves me o _ s' HG Ha Hd He) as [L1 L2 L3].
  eapply minv_sched; [exact HI|done| | | |].
  - intros u k m Hu Hw. split; [done|]. destruct (L1 u k Hu) as (k' & Hk' & A1 & A2 & A3 & A4). exists k'. split; [done|].
    split; [congruence|]. split.
    + intros Hr. destruct A3 as [?|(_ & Hru & _)]; [done|]. by destruct (Hpe u _ Hru Hr).
    + intros Hb. destruct (A4 Hb) as [?|[Hst Hru]]; [by left|]. exfalso.
      pose proof (v_threads _ _ _ _ _ HI u k Hu) as HT. unfold thread_ok in HT. rewrite Hw in HT.
      destruct HT as (_ & _ & _ & (p & Hp & _) & _). pose proof (Hpe u p Hru Hp) as Hx. destruct p; [|done|done].
      destruct Hx. congruence.
  - intros u v _ (k & Hk & Hv). destruct (L1 u k Hk) as (k' & Hk' & _ & A & _). exists k'. split; [done|congruence].
  - intros u k' Hk'. destruct (get (sch S) u) as [k|] eqn:Ek.
    + right. exists k. destruct (L1 u k Ek) as (k'' & Hk'' & A & _). split; [done|congruence].
    + left. destruct (L2 u k' Hk' Ek) as [A _]. unfold mutex_fields in A. congruence.
  - intros u m Hr. split; [done|]. destruct (v_seats _ _ _ _ _ HI u m Hr) as (i & d & Hd' & Hs).
    destruct (decide (i = me)) as [->|Hi].
    { exfalso. apply (Hpe u (Registered m)); [|done]. exists d. split; [done|]. unfold seat in Hs. congruence. }
    specialize (L3 i Hi). rewrite Hd' in L3. destruct (cpus s' !! i) as [d'|] eqn:Ed; [|done]. exists i, d'.
    split; [done|]. cbn in L3. congruence.
Qed.

Lemma destroy_spec S P H W me t th :
  minv None S P H W -> get (sch S) t = Some th -> waiting_mutex th = None ->
  exists r S', thread_destroy_with_mutexes me S t = Some (r, S') /\ minv None S' (if r then delete t P else P) H W.
Proof.
  intros HI Ht Hw. destruct (destroy_good _ t th (v_good _ _ _ _ _ HI) Ht) as (r & s' & E & G' & _).
  unfold thread_destroy in E. unfold thread_destroy_with_mutexes. destruct (destroy_locked (sch S) t) as [[ok s1]|] eqn:Ed; [|done].
  cbn [mbind option_bind] in *. injection E as <- <-.
  set (Φ := fun u k => exists k0, get (sch S) u = Some k0 /\ mutex_fields k = mutex_fields k0 /\
              (state k = THREAD_STATE_BLOCKED -> state k0 = THREAD_STATE_BLOCKED)).
  assert (HF : fine Φ (fun u => is_Some (get (sch S) u)) (length (cpus (sch S))) (cpus (sch S)) s1).
  { apply (destroy_locked_ends Φ (fun u => is_Some (get (sch S) u)) (length (cpus (sch S))) (cpus (sch S))) with (s := (sch S)) (t := t) (a := (ok, s1)); [| |done].
    - intros u k k' (k0 & H0 & H1 & H2) H3 H4. exists k0. split; [done|]. split; [congruence|auto].
    - split; [|done]. intros u k Hu. by exists k. }
  destruct HF as (F1 & F2 & F3). destruct ok.
  2: { exists false, S. assert (s1 = sch S) as ->; [|by destruct S]. unfold destroy_locked in Ed. rewrite Ht in Ed. cbn [mbind option_bind] in Ed.
       destruct (_ || _) in Ed; [by injection Ed|]. by destruct (scheduler_remove_queued_locked _ _). }
  destruct (F2 t) as [th1 Ht1]; [by eexists|]. destruct (F1 t th1 Ht1) as (th0 & Ht0 & Hf & _).  rewrite Ht in Ht0. injection Ht0 as <-.
  assert (Hw1 : waiting_mutex th1 = None) by (unfold mutex_fields in Hf; congruence).
  unfold mutex_cancel_waiter. cbn [sch]. rewrite Ht1. cbn [mbind option_bind]. rewrite Hw1. cbn [mbind option_bind].
  eexists true, _. split; [reflexivity|]. cbn [sch mutexes].
  assert (HD : forall u, u <> t -> get (release_thread s1 t) u = get s1 u) by (intros u Hu; unfold get, release_thread; cbn; by rewrite lookup_delete_ne).
  assert (HT : get (release_thread s1 t) t = None) by (unfold get, release_thread; cbn; apply lookup_delete_eq).
  eapply minv_sched; [exact HI|done| | | |].
  - intros u k m Hu Hwu. assert (Hut : u <> t) by congruence. split; [by rewrite lookup_delete_ne|]. rewrite HD by done.
    destruct (F2 u) as [k' Hk']; [by eexists|]. exists k'. split; [done|]. destruct (F1 u k' Hk') as (k0 & H0 & H1 & H2).
    rewrite Hu in H0. injection H0 as <-. unfold mutex_fields in H1. split; [congruence|]. split; [congruence|auto].
  - intros u v [m Hin] (k & Hk & Hv). destruct (member_thread _ _ _ _ _ m u HI Hin) as (k2 & _ & Hk2 & Hwk & _).
    assert (Hut : u <> t) by congruence. destruct (F2 u) as [k' Hk']; [by eexists|]. destruct (F1 u k' Hk') as (k0 & H0 & H1 & _).
    exists k'. rewrite HD by done. split; [done|]. unfold mutex_fields in H1. congruence.
  - intros u k'. destruct (decide (u = t)) as [->|Hut]; [by rewrite HT|]. rewrite HD by done. intros Hk'. right.
    destruct (F1 u k' Hk') as (k0 & H0 & H1 & _). exists k0. split; [done|]. unfold mutex_fields in H1. congruence.
  - intros u m. destruct (decide (u = t)) as [->|Hut]; [by rewrite lookup_delete_eq|]. rewrite lookup_delete_ne by done. intros Hr. split; [done|].
    destruct (v_seats _ _ _ _ _ HI u m Hr) as (i & d & Hd' & Hs). change (cpus (release_thread s1 t)) with (cpus s1).
    assert (Hi : i <> length (cpus (sch S))) by (apply lookup_lt_Some in Hd'; lia). specialize (F3 i Hi). rewrite Hd' in F3.
    destruct (cpus s1 !! i) as [d'|] eqn:Ei; [|done]. exists i, d'. split; [done|]. cbn in F3. congruence.
Qed.

(** Nobody waits at the start. *)
Lemma boot_fields stack size memory s :
  scheduler_init stack size memory = Some (true, s) -> forall t th, get s t = Some th -> waiting_mutex th = None.
Proof.
  set (Φ := fun (_ : Z) th => mutex_fields th = (None, None, false)).
  assert (HS : forall (t : Z) (th th' : kernel_thread), Φ t th -> mutex_fields th' = mutex_fields th ->
    (state th' = THREAD_STATE_BLOCKED -> state th = THREAD_STATE_BLOCKED) -> Φ t th') by (unfold Φ; intros; congruence).
  assert (HE : forall a, scheduler_init stack size memory = Some a -> fine Φ (fun _ => False) 0 [] (snd a)).
  2: { intros E t th Ht. destruct (HE _ E) as (HF & _). specialize (HF t th Ht). unfold Φ, mutex_fields in HF. congruence. }
  change (ends Φ (fun _ => False) 0 [] snd (scheduler_init stack size memory)). unfold scheduler_init. set (s0 := Sched _ _ _ _ _ _ _ _ _ _).
  assert (H0 : fine Φ (fun _ => False) 0 [] s0).
  { split; [|split; [done|]].
    - intros t th. unfold get, s0. cbn [threads]. intros [<- <-]%lookup_singleton_Some. done.
    - intros [|i] Hi; [done|]. done. }
  apply ends_bind_pair; [apply create_ends; [exact HS|intros; assumption|exact H0|intros ? ? _ []]|]. intros [idle|] s1 H1.
  - apply ends_bind_state; [apply remove_queued_ends; [done|by apply fine_cpu]|]. intros s2 H2.
    apply ends_bind_state; [by apply ends_plain|]. intros s3 H3. by apply ends_some.
  - apply ends_some. by apply fine_cpu.
Qed.

Lemma boot_minv stack size t0 stack0 s others :
  t0 <> bootstrap_thread -> stack0 <> 0 -> stack_fits stack0 THREAD_KERNEL_STACK_SIZE ->
  scheduler_init stack size (Some (t0, stack0)) = Some (true, s) ->
  minv None (MSys (cpu_init_bsp s others) ∅) ∅ ∅ (fun _ => []).
Proof.
  intros H1 H2 H3 E. destruct (boot_good stack size t0 stack0 H1 (conj H2 H3) others) as (s' & E' & HG).
  rewrite E in E'. injection E' as <-. split; cbn [sch mutexes]; [done| |done|done|done].
  intros t th Ht. unfold thread_ok. rewrite (boot_fields _ _ _ _ E t th) by exact Ht. split; [|done].
  intros m. apply not_elem_of_nil.
Qed.

Definition sound (X : system) : Prop := exists W, minv None (st X) (phases X) (holders X) W.

Lemma call_minv S P H W t m : minv None S P H W -> P !! t = None -> minv None S (<[t := Entering m]> P) H W.
Proof.
  intros HI Hp. destruct HI as [V1 V2 V3 V4 V5]. split; try done.
  - intros u th Hu. specialize (V2 u th Hu). unfold thread_ok in *. destruct (decide (u = t)) as [->|Hne].
    + rewrite lookup_insert_eq. destruct (waiting_mutex th) as [m'|]; [|by destruct V2].
      destruct V2 as (_ & _ & _ & (p & Hp' & _) & _). congruence.
    + by rewrite lookup_insert_ne by done.
  - intros u m'. destruct (decide (u = t)) as [->|Hne]; [by rewrite lookup_insert_eq|]. rewrite lookup_insert_ne by done. apply V5.
Qed.

Lemma step_sound X X' : sound X -> step X X' -> sound X'.
Proof.
  intros [W HI] HS. destruct HS; cbn [st phases holders] in *.
  - exists W. by eapply sched_spec.
  - destruct (destroy_spec S P H W me t th HI) as (r' & S1 & E & I1); [done|done|]. exists W. cbn.
    rewrite H2 in E. by injection E as <- <-.
  - destruct (cancel_spec S P H W me c t th HI) as (S1 & W1 & E & I1); try done. exists W1. cbn. congruence.
  - exists W. by apply mutex_init_spec.
  - exists W. by apply call_minv.
  - destruct H2 as [mx Hm]. destruct (lock_enter_spec S P H W me t m mx HI) as (r & S1 & W1 & E & I1); try done.
    exists W1. cbn. rewrite H3 in E. injection E as <- <-. apply I1.
  - destruct H2 as [mx Hm]. destruct (lock_enter_spec S P H W me t m mx HI) as (r & S1 & W1 & E & I1); try done.
    exists W1. cbn. rewrite H3 in E. injection E as <- <-. apply I1.
  - destruct (block_spec S P H W me t m f HI) as (r' & s1 & E & I1); try done. exists W. cbn. rewrite H3 in E. by injection E as <- <-.
  - destruct H2 as [mx Hm]. destruct (lock_abort_spec S P H W me t m mx HI) as (S1 & W1 & E & I1); try done. exists W1. cbn. congruence.
  - destruct H2 as [mx Hm]. destruct (try_lock_spec S P H W me t m mx HI) as (S1 & W1 & E & I1 & _); try done.
    exists W1. cbn. rewrite H3 in E. by injection E as -> ->.
  - destruct H2 as [mx Hm]. destruct (unlock_spec S P H W me t m mx HI) as (S1 & W1 & E & I1 & _); try done.
    exists W1. cbn. rewrite H3 in E. by injection E as -> ->.
Qed.

Lemma reached_sound X : reached X -> sound X.
Proof.
  induction 1 as [bs bz t stk s others H1 H2 H3 E|X X' _ IH HS].
  - eexists. by eapply boot_minv.
  - by eapply step_sound.
Qed.

(** * Running examples *)

(** The events of a run, with decidable guards. *)
Inductive event :=
  | Sched_ (me : nat) (o : op) | Init (m : Z) | Call (me : nat) (t m : Z) | Enter (me : nat) (t m : Z)
  | Suspend (me : nat) (t m f : Z) | Unlock (me : nat) (t m : Z).

Definition at_cpu_b (s : sched) (me : nat) (t : Z) : bool :=
  match cpus s !! me with Some c => bool_decide (seat c = (Some t, NoSwitch)) | None => false end.
Definition idle_b (P : gmap Z phase) (s : sched) (me : nat) : bool :=
  match cpus s !! me with
  | Some c => match current_thread c with Some t => match P !! t with None => true | Some _ => false end | None => true end
  | None => false
  end.
Definition not_destroy (o : op) : bool := match o with Destroy _ => false | _ => true end.
Definition known (S : msys) (m : Z) : bool := match mutexes S !! m with Some _ => true | None => false end.

Definition happen (e : event) (X : system) : option system :=
  let '(System Y P H) := X in
  match e with
  | Sched_ me o =>
      if allowed_b me o (sch Y) && not_destroy o && idle_b P (sch Y) me
      then s' ← exec me o (sch Y); Some (System (MSys s' (mutexes Y)) P H) else None
  | Init m => if known Y m then None else Some (System (mutex_init Y m) P H)
  | Call me t m =>
      if at_cpu_b (sch Y) me t && known Y m
      then match P !! t with None => Some (System Y (<[t := Entering m]> P) H) | Some _ => None end else None
  | Enter me t m =>
      if at_cpu_b (sch Y) me t && known Y m then
        match P !! t with
        | Some (Entering m') =>
            if m' =? m then
              '(r, Y1) ← lock_enter me Y m;
              Some (match r with
                    | Returns b => System Y1 (delete t P) (if b : bool then <[m := t]> H else H)
                    | Waits => System Y1 (<[t := Registered m]> P) H
                    end)
            else None
        | _ => None
        end
      else None
  | Suspend me t m f =>
      if at_cpu_b (sch Y) me t && flags_safe f then
        match P !! t with
        | Some (Registered m') =>
            if m' =? m then
              '(r, s') ← scheduler_block me (sch Y) f;
              Some (System (MSys s' (mutexes Y)) (<[t := if r : bool then Entering m else Failed m]> P) H)
            else None
        | _ => None
        end
      else None
  | Unlock me t m =>
      if at_cpu_b (sch Y) me t && known Y m then
        match P !! t with
        | None => '(b, Y1) ← mutex_unlock me Y m; Some (System Y1 P (if b : bool then delete m H else H))
        | Some _ => None
        end
      else None
  end.

Lemma at_cpu_b_spec s me t : at_cpu_b s me t = true -> at_cpu s me t.
Proof. unfold at_cpu_b. destruct (cpus s !! me) as [c|] eqn:E; [|done]. intros H%bool_decide_eq_true. by exists c. Qed.

Lemma known_spec S m : known S m = true -> is_Some (mutexes S !! m).
Proof. unfold known. by destruct (mutexes S !! m). Qed.

Lemma happen_step e X X' : happen e X = Some X' -> step X X'.
Proof.
  destruct X as [S P H], e as [me o|m|me t m|me t m|me t m f|me t m]; cbn [happen].
  - destruct (allowed_b _ _ _) eqn:Ea; [|done]. destruct (not_destroy o) eqn:En; [|done]. destruct (idle_b _ _ _) eqn:Ei; [|done].
    cbn [andb]. destruct (exec me o (sch S)) as [s'|] eqn:E; [|done]. intros [= <-].
    apply (step_sched S P H me o s'); [by apply allowed_b_spec|intros t ->; done| |done].
    intros t p (c & Hc & Hcur) Hp. unfold idle_b in Ei. rewrite Hc, Hcur, Hp in Ei. done.
  - destruct (known S m) eqn:E; [done|]. intros [= <-]. apply step_init. unfold known in E. by destruct (mutexes S !! m).
  - destruct (at_cpu_b _ _ _) eqn:Ea; [|done]. destruct (known S m) eqn:Ek; [|done]. destruct (P !! t) eqn:Ep; [done|].
    intros [= <-]. eapply step_call; [by apply at_cpu_b_spec|done|by apply known_spec].
  - destruct (at_cpu_b _ _ _) eqn:Ea; [|done]. destruct (known S m) eqn:Ek; [|done]. destruct (P !! t) as [[m'| |]|] eqn:Ep; try done.
    cbn [andb]. destruct (Z.eqb_spec m' m) as [->|]; [|done]. destruct (lock_enter me S m) as [[[b|] S']|] eqn:E; [| |done]; intros [= <-].
    + eapply step_returns; [by apply at_cpu_b_spec|done|by apply known_spec|done].
    + eapply step_waits; [by apply at_cpu_b_spec|done|by apply known_spec|done].
  - destruct (at_cpu_b _ _ _) eqn:Ea; [|done]. destruct (flags_safe f) eqn:Ef; [|done]. destruct (P !! t) as [[|m'|]|] eqn:Ep; try done.
    cbn [andb]. destruct (Z.eqb_spec m' m) as [->|]; [|done]. destruct (scheduler_block _ _ _) as [[r s']|] eqn:E; [|done]. intros [= <-].
    eapply step_block; [by apply at_cpu_b_spec|done|done|done].
  - destruct (at_cpu_b _ _ _) eqn:Ea; [|done]. destruct (known S m) eqn:Ek; [|done]. destruct (P !! t) eqn:Ep; [done|]. cbn [andb].
    destruct (mutex_unlock me S m) as [[b S']|] eqn:E; [|done]. intros [= <-].
    eapply step_unlock; [by apply at_cpu_b_spec|done|by apply known_spec|done].
Qed.

Fixpoint play (es : list event) (X : system) : option system :=
  match es with [] => Some X | e :: es => X ← happen e X; play es X end.

Lemma play_reached es : forall X X', reached X -> play es X = Some X' -> reached X'.
Proof.
  induction es as [|e es IH]; intros X X' HR; cbn [play]; [by intros [= <-]|].
  destruct (happen e X) as [X1|] eqn:E; [|done]. cbn [mbind option_bind]. apply IH. eapply reached_step; [done|by eapply happen_step].
Qed.

(** Two CPUs; thread 1004 on the first has locked the mutex 7000, thread 1002 on
    the second has registered as a waiter. *)
Definition duo_events : list event :=
  map (fun '(me, o) => Sched_ me o) (example_ops ++ [(1%nat, Reschedule FLAGS); (1%nat, Finish (0x300000 + 32768))]) ++
  [Init 7000; Call 0 1004 7000; Enter 0 1004 7000; Call 1 1002 7000; Enter 1 1002 7000].
Definition start : system := System (MSys example_boot ∅) ∅ ∅.
Definition or_start (r : option system) : system := match r with Some X => X | None => start end.
Definition duo : system := or_start (play duo_events start).
(** The waiter has gone to sleep and its CPU has finished the switch. *)
Definition duo_asleep : system := or_start (play [Suspend 1 1002 7000 FLAGS] duo).

Lemma start_reached : reached start.
Proof.
  eapply (reached_boot 0x100000 65536 1000 0x200000 example_init 1); [done|done|by vm_compute|vm_compute; reflexivity].
Qed.

Lemma duo_reached : reached duo.
Proof. apply (play_reached duo_events start); [apply start_reached|]. vm_compute. reflexivity. Qed.

Lemma duo_asleep_reached : reached duo_asleep.
Proof. apply (play_reached [Suspend 1 1002 7000 FLAGS] duo); [apply duo_reached|]. vm_compute. reflexivity. Qed.

(** * What the mutexes guarantee *)

(** The waiters of a mutex, read from the links. *)
Fixpoint wait_chain (fuel : nat) (s : sched) (cursor : option Z) : option (list Z) :=
  match cursor, fuel with
  | None, _ => Some []
  | Some t, O => None
  | Some t, S fuel => th ← get s t; l ← wait_chain fuel s (mutex_wait_next th); Some (t :: l)
  end.
Definition waiters (X : msys) (m : Z) : option (list Z) :=
  x ← mutexes X !! m; wait_chain (size (threads (sch X))) (sch X) (wait_head x).

Lemma wait_chain_seg s l : forall fuel, seg s l None -> (length l <= fuel)%nat -> wait_chain fuel s (hd_or l None) = Some l.
Proof.
  induction l as [|t l IH]; intros fuel Hs Hf; [by destruct fuel|]. destruct fuel as [|fuel]; [cbn in Hf; lia|].
  destruct Hs as [(th & Ht & Hn) Hs]. cbn [hd_or wait_chain]. rewrite Ht. cbn [mbind option_bind]. rewrite Hn, IH; [done|done|].
  cbn in Hf. lia.
Qed.

Lemma waiters_spec x X P H W m mx : minv x X P H W -> mutexes X !! m = Some mx -> waiters X m = Some (W m).
Proof.
  intros HI Hm. destruct (v_mutexes _ _ _ _ _ HI m mx Hm) as [HQ _ _]. pose proof (queue_threads _ _ _ HQ) as Hl.
  unfold waiters. rewrite Hm. cbn [mbind option_bind]. rewrite (q_head _ _ _ HQ). apply wait_chain_seg; [apply HQ|done].
Qed.

(** C9: Mutual exclusion: while a thread holds a mutex, whatever the others do, no
    call of [mutex_lock] or [mutex_try_lock] obtains it, and [mutex_unlock] by any
    other thread fails and changes nothing. *)
Theorem mutex_mutual_exclusion X m t :
  reached X -> holders X !! m = Some t ->
  (forall me u, at_cpu (sch (st X)) me u -> phases X !! u = Some (Entering m) ->
     exists r S', lock_enter me (st X) m = Some (r, S') /\ r <> Returns true) /\
  (forall me u, at_cpu (sch (st X)) me u -> phases X !! u = None ->
     mutex_try_lock me (st X) m = Some (false, st X) /\
     (u <> t -> mutex_unlock me (st X) m = Some (false, st X))).
Proof.
  intros HR Hh. destruct (reached_sound X HR) as [W HI]. destruct X as [S P H]. cbn [st phases holders] in *.
  destruct (mutexes S !! m) as [mx|] eqn:Hm; [|destruct (v_none _ _ _ _ _ HI m Hm); congruence].
  destruct (v_mutexes _ _ _ _ _ HI m mx Hm) as [_ _ HH]. destruct (HH t Hh) as [Ho _]. split.
  - intros me u Hc Hp. destruct (lock_enter_spec S P H W me u m mx HI Hc Hm Hp) as (r & S' & W' & E & HE).
    exists r, S'. split; [done|]. intros ->. destruct HE as [_ HE]. rewrite HE in Hh; [done|done].
  - intros me u Hc Hp. destruct (try_lock_spec S P H W me u m mx HI Hc Hm Hp) as (S1 & W1 & E1 & _).
    destruct (unlock_spec S P H W me u m mx HI Hc Hm Hp) as (S2 & W2 & E2 & _ & D2). unfold is_thread in *. rewrite Ho in *. split.
    + unfold mutex_try_lock. rewrite (at_cpu_current _ _ _ Hc). cbn [mbind option_bind]. rewrite Hm. cbn [mbind option_bind]. by rewrite Ho.
    + intros Hne. rewrite bool_decide_eq_false_2 in * by congruence. congruence.
Qed.

Lemma mutex_mutual_exclusion_witness :
  holders duo !! 7000 = Some 1004 /\ mutex_try_lock 0 (st duo) 7000 = Some (false, st duo).
Proof.
  assert (H : holders duo !! 7000 = Some 1004) by (vm_compute; reflexivity). split; [exact H|].
  destruct (mutex_mutual_exclusion duo 7000 1004 duo_reached H) as [_ H2]. apply (H2 0%nat 1004).
  - apply at_cpu_b_spec. vm_compute. reflexivity.
  - vm_compute. reflexivity.
Defined.

(** No waiter is forgotten, if looking at a waiter and acting on what was seen
    is not interleaved with the waiter's own [scheduler_block]: a thread that
    sleeps for a mutex is in its queue, and another thread owns the mutex, so that
    the next unlock deals with it. *)
Theorem mutex_sleepers_are_queued X m t th :
  reached X -> get (sch (st X)) t = Some th -> waiting_mutex th = Some m -> state th = THREAD_STATE_BLOCKED ->
  exists mx o l, mutexes (st X) !! m = Some mx /\ owner mx = Some o /\ o <> t /\
    waiters (st X) m = Some l /\ (t ∈ l).
Proof.
  intros HR Ht Hw Hb. destruct (reached_sound X HR) as [W HI].
  pose proof (v_threads _ _ _ _ _ HI t th Ht) as HT. unfold thread_ok in HT. rewrite Hw in HT.
  destruct HT as (mx & Hm & _ & _ & _ & _ & H6). destruct (H6 Hb) as [Hin [Ho|?]]; [|done].
  destruct (owner mx) as [o|] eqn:Eo; [|done]. exists mx, o, (W m). split; [done|]. split; [done|].
  split; [intros ->; by apply (k_owner _ _ _ _ _ (v_mutexes _ _ _ _ _ HI m mx Hm) t)|]. split; [by eapply waiters_spec|done].
Qed.

Definition asleep_thread : kernel_thread :=
  match get (sch (st duo_asleep)) 1002 with Some th => th | None => new_thread THREAD_PRIORITY_HIGH 0 0 false end.

Lemma mutex_sleepers_are_queued_witness :
  exists mx o l, mutexes (st duo_asleep) !! 7000 = Some mx /\ owner mx = Some o /\ o <> 1002 /\
    waiters (st duo_asleep) 7000 = Some l /\ (1002 ∈ l).
Proof.
  apply (mutex_sleepers_are_queued duo_asleep 7000 1002 asleep_thread duo_asleep_reached); vm_compute; reflexivity.
Defined.

(** C10: [mutex_unlock] by the owner gives the mutex to the first waiter that
    sleeps or is about to; a sleeper is made ready to run, a waiter that runs is
    told not to sleep; the waiters behind it stay in order.  If there is none the
    mutex is free and nobody is left in the queue. *)
Theorem mutex_unlock_hands_over X me t m mx l :
  reached X -> at_cpu (sch (st X)) me t -> phases X !! t = None -> mutexes (st X) !! m = Some mx ->
  owner mx = Some t -> waiters (st X) m = Some l ->
  exists S' mx' l', mutex_unlock me (st X) m = Some (true, S') /\ mutexes S' !! m = Some mx' /\
    owner mx' = List.find (can_take (sch (st X))) l /\ waiters S' m = Some l' /\
    match owner mx' with
    | None => l' = []
    | Some u => (exists skipped, l = skipped ++ u :: l') /\
        exists th th', get (sch (st X)) u = Some th /\ get (sch S') u = Some th' /\
          (state th = THREAD_STATE_BLOCKED -> state th' = THREAD_STATE_READY /\ queued th' = true) /\
          (state th = THREAD_STATE_RUNNING -> mutex_wake_pending th' = true)
    end.
Proof.
  intros HR Hc Hp Hm Ho Hl. destruct (reached_sound X HR) as [W HI].
  rewrite (waiters_spec _ _ _ _ _ _ _ HI Hm) in Hl. injection Hl as <-.
  destruct (unlock_spec _ _ _ W me t m mx HI Hc Hm Hp) as (S' & W' & E & I' & D').
  unfold is_thread in *. rewrite Ho, bool_decide_eq_true_2 in * by done. destruct D' as (mx' & Hm' & Ho' & D').
  exists S', mx', (W' m). split; [done|]. split; [done|]. split; [done|]. split; [by eapply waiters_spec|].
  destruct (owner mx') as [u|]; [|done]. destruct D' as [D1 (th & th' & D2 & D3 & _ & D4 & D5)]. split; [done|]. by exists th, th'.
Qed.

Definition duo_mutex (X : system) : mutex_t := match mutexes (st X) !! 7000 with Some x => x | None => MutexT None None None end.

Lemma mutex_unlock_hands_over_witness :
  exists S' mx', mutex_unlock 0 (st duo_asleep) 7000 = Some (true, S') /\ mutexes S' !! 7000 = Some mx' /\ owner mx' = Some 1002.
Proof.
  destruct (mutex_unlock_hands_over duo_asleep 0 1004 7000 (duo_mutex duo_asleep) [1002] duo_asleep_reached) as (S' & mx' & l' & E & Hm & Ho & _).
  - apply at_cpu_b_spec. vm_compute. reflexivity.
  - vm_compute. reflexivity.
  - vm_compute. reflexivity.
  - vm_compute. reflexivity.
  - vm_compute. reflexivity.
  - exists S', mx'. split; [exact E|]. split; [exact Hm|]. rewrite Ho. vm_compute. reflexivity.
Defined.

(** * A lost wake-up *)

(** [mutex_handoff_locked] reads the state of a waiter without the scheduler's
    lock.  If the waiter is seen running, then blocks, and only then is told not
    to, it sleeps as the owner of the mutex, out of the queue: nobody will wake
    it, and no other thread can unlock the mutex. *)
Theorem handoff_can_lose_a_wakeup :
  exists S0 S1 S2 s3 S4, on_mutex (st duo) 7000 (set_owner None) = Some S0 /\ handoff_look S0 7000 1002 = Some (Some THREAD_STATE_RUNNING, S1) /\
    scheduler_block 1 (sch S1) FLAGS = Some (true, s3) /\ S2 = MSys s3 (mutexes S1) /\
    handoff_act 0 S2 7000 1002 (Some THREAD_STATE_RUNNING) = Some (true, S4) /\
    exists mx th, mutexes S4 !! 7000 = Some mx /\ owner mx = Some 1002 /\ waiters S4 7000 = Some [] /\
      get (sch S4) 1002 = Some th /\ state th = THREAD_STATE_BLOCKED /\ mutex_wake_pending th = true /\
      mutex_unlock 0 S4 7000 = Some (false, S4).
Proof.
  destruct (on_mutex (st duo) 7000 (set_owner None)) as [S0|] eqn:E0; [|vm_compute in E0; discriminate E0].
  vm_compute in E0. injection E0 as <-. eexists _, _, _, _, _. split; [reflexivity|]. split; [vm_compute; reflexivity|].
  split; [vm_compute; reflexivity|]. split; [reflexivity|].
  split; [vm_compute; reflexivity|]. eexists _, _. repeat (split; [vm_compute; reflexivity|]). vm_compute. reflexivity.
Qed.

End MutexTheorems.
