(* ===== verification/Vmm.v ===== *)
(** [kernel/src/vmm.c]: the page tables of the kernel and of the processes.

    A page table is identified with the physical frame that holds it: the
    direct map of [kernel/src/address_space.c] is a bijection between the two,
    so [vmm_table_phys] is the identity and [vmm_table_from_phys] the frame of
    an entry, null outside the direct map.  [mem] holds the 512 words of every
    frame that is used as a table; reading any other frame through the table
    functions, or a panic, is [None].  The frame allocator is an interface,
    [FrameAllocator]; what [kmalloc] answers for an ownership node, whether
    [mutex_lock] succeeds and whether another CPU answers an interrupt are
    arguments.  Every section under [vmm_metadata_lock] or [vmm_kernel_lock] is
    one definition, and the calls are composed of them. *)
From stdpp Require Import gmap.
From S2P Require Import Prelude Pmm.
Import Pmm.

Module Vmm.

(** * Constants *)

Definition PTE_PRESENT : Z := 0x1.
Definition PTE_READWRITE : Z := 0x2.
Definition PTE_USER : Z := 0x4.
Definition PTE_WRITETHROUGH : Z := 0x8.
Definition PTE_CACHEDISABLE : Z := 0x10.
Definition PTE_HUGE : Z := 0x80.
Definition PTE_NX : Z := 0x8000000000000000.
Definition PTE_FRAME_MASK : Z := 0x000FFFFFFFFFF000.
Definition VMM_PAGE_SIZE : Z := 0x1000.
Definition VMM_USER_ADDRESS_LIMIT : Z := 0x0000800000000000.
Definition VMM_MAX_PROCESS_METADATA : nat := 64.
Definition VMM_CPU_MASK_WORDS : nat := 4.
Definition CPU_MAX_COUNT : Z := 256.
Definition KERNEL_HEAP_BASE : Z := 0xffffc00000000000.
Definition IOREMAP_BASE : Z := 0xffffc08000000000.
Definition IOREMAP_LIMIT : Z := 0xffffc10000000000.
Definition KERNEL_VIRT_BASE : Z := 0xffffffff80000000.

Definition has (e flag : Z) : bool := negb (Z.land e flag =? 0).

(** The index of a virtual address at one level. *)
Definition ix (shift va : Z) : Z := Z.land (Z.shiftr va shift) 0x1ff.

Definition VMM_DIRECT_MAP_PML4_FIRST : Z := ix 39 PHYS_MAP_BASE.
Definition VMM_DIRECT_MAP_PML4_LAST : Z := ix 39 (PHYS_MAP_BASE + PHYS_MAP_LIMIT - 1).
Definition VMM_HEAP_PML4_INDEX : Z := ix 39 KERNEL_HEAP_BASE.
Definition VMM_IOREMAP_PML4_INDEX : Z := ix 39 IOREMAP_BASE.
Definition VMM_IMAGE_PML4_INDEX : Z := ix 39 KERNEL_VIRT_BASE.

Definition vmm_kernel_shared_pml4_index (index : Z) : bool :=
  ((VMM_DIRECT_MAP_PML4_FIRST <=? index) && (index <=? VMM_DIRECT_MAP_PML4_LAST)) ||
  (index =? VMM_HEAP_PML4_INDEX) || (index =? VMM_IOREMAP_PML4_INDEX) ||
  (index =? VMM_IMAGE_PML4_INDEX).

(** * Interface of the frame allocator *)

Class FrameAllocator (A : Type) := {
  alloc_frame : A -> option (Z * A);
  free_frame : A -> Z -> option A;
}.

(** * State *)

(** [vmm_address_space_metadata_t]: the lists of owned frames hold the
    [physical] fields of their nodes, in order. *)
Record metadata := Metadata {
  root : Z;
  tables : list Z;
  leaves : list Z;
  active_cpu_mask : list Z;
  destroy_pending : bool;
  shootdown_pending : bool;
}.

(** What a translation yields. *)
Record translation := Translation { t_frame : Z; t_user : bool; t_write : bool }.

(** The CPU-local state: [current_pml4] is the loaded root, [tlb] the hardware's
    cached translations by page. *)
Record cpu := Cpu { current_pml4 : Z; online : bool; tlb : gmap Z translation }.

(** [vmm_tlb_shootdown_request_t]. *)
Record request := Request {
  active : bool; address_space : Z; pending : list Z; acknowledged : list Z }.

Record vmm (A : Type) := VmmState {
  mem : gmap Z (list Z);
  kernel_pml4 : Z;
  address_space_metadata : list metadata;
  bootstrap_mapping_active : bool;
  ioremap_next : Z;
  direct_map_ready : bool;
  cpus : list cpu;
  vmm_shootdown_request : request;
  frames : A;
}.
Arguments VmmState {A}.
Arguments mem {A}.
Arguments kernel_pml4 {A}.
Arguments address_space_metadata {A}.
Arguments bootstrap_mapping_active {A}.
Arguments ioremap_next {A}.
Arguments direct_map_ready {A}.
Arguments cpus {A}.
Arguments vmm_shootdown_request {A}.
Arguments frames {A}.

(** What the hardware answers: whether the local APIC works, whether the caller
    runs with interrupts enabled, and which CPUs take the interrupt in time. *)
Record machine := Machine { lapic_enabled : bool; interrupts_enabled : bool; answers_ipi : Z -> bool }.

Section ops.
Context {A : Type} `{!FrameAllocator A}.
Implicit Types (s : vmm A) (va : Z).

Definition set_mem m s : vmm A :=
  VmmState m (kernel_pml4 s) (address_space_metadata s) (bootstrap_mapping_active s)
    (ioremap_next s) (direct_map_ready s) (cpus s) (vmm_shootdown_request s) (frames s).
Definition set_kernel k s : vmm A :=
  VmmState (mem s) k (address_space_metadata s) (bootstrap_mapping_active s)
    (ioremap_next s) (direct_map_ready s) (cpus s) (vmm_shootdown_request s) (frames s).
Definition set_metadata l s : vmm A :=
  VmmState (mem s) (kernel_pml4 s) l (bootstrap_mapping_active s)
    (ioremap_next s) (direct_map_ready s) (cpus s) (vmm_shootdown_request s) (frames s).
Definition set_bootstrap b s : vmm A :=
  VmmState (mem s) (kernel_pml4 s) (address_space_metadata s) b
    (ioremap_next s) (direct_map_ready s) (cpus s) (vmm_shootdown_request s) (frames s).
Definition set_ioremap n s : vmm A :=
  VmmState (mem s) (kernel_pml4 s) (address_space_metadata s) (bootstrap_mapping_active s)
    n (direct_map_ready s) (cpus s) (vmm_shootdown_request s) (frames s).
Definition set_ready b s : vmm A :=
  VmmState (mem s) (kernel_pml4 s) (address_space_metadata s) (bootstrap_mapping_active s)
    (ioremap_next s) b (cpus s) (vmm_shootdown_request s) (frames s).
Definition set_cpus l s : vmm A :=
  VmmState (mem s) (kernel_pml4 s) (address_space_metadata s) (bootstrap_mapping_active s)
    (ioremap_next s) (direct_map_ready s) l (vmm_shootdown_request s) (frames s).
Definition set_request r s : vmm A :=
  VmmState (mem s) (kernel_pml4 s) (address_space_metadata s) (bootstrap_mapping_active s)
    (ioremap_next s) (direct_map_ready s) (cpus s) r (frames s).
Definition set_frames a s : vmm A :=
  VmmState (mem s) (kernel_pml4 s) (address_space_metadata s) (bootstrap_mapping_active s)
    (ioremap_next s) (direct_map_ready s) (cpus s) (vmm_shootdown_request s) a.

(** * Tables *)

(** [table->entries[i]] and its assignment. *)
Definition entry s (t i : Z) : option Z := ws ← mem s !! t; ws !! Z.to_nat i.
Definition store s (t i v : Z) : option (vmm A) :=
  ws ← mem s !! t;
  if decide (Z.to_nat i < length ws)%nat then Some (set_mem (<[t := <[Z.to_nat i := v]> ws]> (mem s)) s)
  else None.

Definition vmm_table_from_phys (e : Z) : Z :=
  let p := Z.land e PTE_FRAME_MASK in if phys_map_contains p then p else 0.
Definition vmm_table_phys (t : Z) : Z := t.

(** [for (i = 0; i < 512; i++) table->entries[i] = 0]; a null result is 0. *)
Definition zero_table : list Z := replicate 512 0.
Definition vmm_alloc_table s : option (Z * vmm A) :=
  '(phys, a) ← alloc_frame (frames s);
  let s := set_frames a s in
  if phys =? 0 then Some (0, s) else Some (phys, set_mem (<[phys := zero_table]> (mem s)) s).

Definition pmm_free s (p : Z) : option (vmm A) := a ← free_frame (frames s) p; Some (set_frames a s).

Definition vmm_table_empty s (t : Z) : option bool :=
  if t =? 0 then Some false
  else ws ← mem s !! t; Some (forallb (fun e => negb (has e PTE_PRESENT)) ws).

(** * The hardware *)

(** The walk of the memory-management unit: the permissions of all levels are
    combined, a large page ends the walk. *)
Fixpoint mmu_walk (m : gmap Z (list Z)) (t : Z) (path : list Z) (user write : bool) : option translation :=
  match path with
  | [] => None
  | i :: path =>
      e ← (ws ← m !! t; ws !! Z.to_nat i);
      if negb (has e PTE_PRESENT) then None
      else
        let user := user && has e PTE_USER in
        let write := write && has e PTE_READWRITE in
        if (match path with [] => true | _ => has e PTE_HUGE end)
        then Some (Translation (Z.land e PTE_FRAME_MASK) user write)
        else mmu_walk m (Z.land e PTE_FRAME_MASK) path user write
  end.
Definition path_of va : list Z := [ix 39 va; ix 30 va; ix 21 va; ix 12 va].
Definition mmu s (pml4 va : Z) : option translation := mmu_walk (mem s) pml4 (path_of va) true true.

Definition page_of va : Z := va / VMM_PAGE_SIZE.

Definition alter_cpu s (c : Z) (f : cpu -> cpu) : vmm A := set_cpus (alter f (Z.to_nat c) (cpus s)) s.
Definition invlpg s (c va : Z) : vmm A :=
  alter_cpu s c (fun x => Cpu (current_pml4 x) (online x) (delete (page_of va) (tlb x))).
(** [mov cr3]: no mapping survives, the kernel does not enable global pages. *)
Definition load_cr3 s (c : Z) : vmm A :=
  alter_cpu s c (fun x => Cpu (current_pml4 x) (online x) ∅).

Definition active_pml4 s (c : Z) : Z :=
  match cpus s !! Z.to_nat c with Some x => current_pml4 x | None => 0 end.
Definition set_active_pml4 s (c p : Z) : vmm A :=
  alter_cpu s c (fun x => Cpu p (online x) (tlb x)).
(** [if (pml4 == active_pml4) invlpg]. *)
Definition invlpg_if_active s (c pml4 va : Z) : vmm A :=
  if pml4 =? active_pml4 s c then invlpg s c va else s.

(** * Masks of CPUs *)

Definition mask_word (index : Z) : nat := Z.to_nat (index / 64).
Definition mask_bit (index : Z) : Z := Z.shiftl 1 (index mod 64).
Definition mask_set (m : list Z) (index : Z) : list Z :=
  alter (fun w => Z.lor w (mask_bit index)) (mask_word index) m.
Definition mask_clear (m : list Z) (index : Z) : list Z :=
  alter (fun w => Z.land w (u64 (Z.lnot (mask_bit index)))) (mask_word index) m.
Definition mask_test (m : list Z) (index : Z) : bool :=
  match m !! mask_word index with Some w => has w (mask_bit index) | None => false end.
Definition no_cpus : list Z := replicate VMM_CPU_MASK_WORDS 0.

Definition vmm_cpu_mask_empty (m : list Z) : bool := forallb (fun w => w =? 0) m.
Definition vmm_cpu_mask_copy (m : list Z) : list Z := m.

Definition vmm_capture_active_targets_locked (c : Z) (md : metadata) : list Z :=
  let targets := vmm_cpu_mask_copy (active_cpu_mask md) in
  if c <? CPU_MAX_COUNT then mask_clear targets c else targets.

(** * TLB shootdown *)

Definition vmm_reload_current_cr3 s (c : Z) : vmm A :=
  if active_pml4 s c =? 0 then s else load_cr3 s c.

(** The interrupt handler, on CPU [c]. *)
Definition vmm_tlb_shootdown_handler s (c : Z) : vmm A :=
  let r := vmm_shootdown_request s in
  if negb (active r) then s
  else if CPU_MAX_COUNT <=? c then s
  else if negb (mask_test (pending r) c) then s
  else
    let s := if (address_space r =? 0) || (active_pml4 s c =? address_space r)
             then vmm_reload_current_cr3 s c else s in
    set_request (Request (active r) (address_space r) (pending r) (mask_set (acknowledged r) c)) s.

Definition vmm_tlb_acknowledged s (targets : list Z) : bool :=
  forallb (fun '(a, t) => Z.land a t =? t) (zip (acknowledged (vmm_shootdown_request s)) targets).

(** The CPUs of a mask in the order of the delivery loop. *)
Definition mask_cpus (m : list Z) : list Z := filter (fun c => mask_test m c = true) (seqZ 0 CPU_MAX_COUNT).

(** Deliver the interrupt to each target.  A CPU that is offline, or that does
    not answer, makes the call panic. *)
Fixpoint deliver (hw : machine) s (cs : list Z) : option (vmm A) :=
  match cs with
  | [] => Some s
  | c :: cs =>
      x ← cpus s !! Z.to_nat c;
      if online x && answers_ipi hw c then deliver hw (vmm_tlb_shootdown_handler s c) cs else None
  end.

Definition vmm_tlb_shootdown (hw : machine) s (targets : list Z) (space : Z) : option (vmm A) :=
  if vmm_cpu_mask_empty targets then Some s
  else if negb (lapic_enabled hw) || negb (interrupts_enabled hw) then None
  else
    let s := set_request (Request true space targets no_cpus) s in
    s ← deliver hw s (mask_cpus targets);
    if vmm_tlb_acknowledged s targets then
      let r := vmm_shootdown_request s in
      Some (set_request (Request false (address_space r) (pending r) (acknowledged r)) s)
    else None.

(** * Metadata *)

(** [vmm_metadata_find] and [vmm_metadata_create] return the index of the record. *)
Fixpoint find_root (l : list metadata) (p : Z) : option nat :=
  match l with
  | [] => None
  | md :: l => if root md =? p then Some O else S <$> find_root l p
  end.
Definition vmm_metadata_find s (p : Z) : option nat := find_root (address_space_metadata s) p.

Fixpoint find_unused (l : list metadata) : option nat :=
  match l with
  | [] => None
  | md :: l =>
      if (root md =? 0) && negb (destroy_pending md) then Some O else S <$> find_unused l
  end.
Definition alter_metadata s (k : nat) (f : metadata -> metadata) : vmm A :=
  set_metadata (alter f k (address_space_metadata s)) s.
Definition vmm_metadata_create s (p : Z) : option (nat * vmm A) :=
  k ← find_unused (address_space_metadata s);
  Some (k, alter_metadata s k (fun _ => Metadata p [] [] no_cpus false false)).

(** * Ownership lists *)

Definition vmm_owned_contains (l : list Z) (physical : Z) : bool :=
  existsb (Z.eqb (Z.land physical PTE_FRAME_MASK)) l.
(** [node] is what [kmalloc] answers. *)
Definition vmm_owned_add (node : bool) (l : list Z) (physical : Z) : bool * list Z :=
  if vmm_owned_contains l physical then (false, l)
  else if negb node then (false, l)
  else (true, Z.land physical PTE_FRAME_MASK :: l).
Definition vmm_owned_insert (l : list Z) (physical : Z) : list Z := Z.land physical PTE_FRAME_MASK :: l.
Fixpoint remove_first (l : list Z) (p : Z) : option (list Z) :=
  match l with
  | [] => None
  | x :: l => if x =? p then Some l else cons x <$> remove_first l p
  end.
Definition vmm_owned_remove (l : list Z) (physical : Z) : option (list Z) :=
  remove_first l (Z.land physical PTE_FRAME_MASK).

(** * Initialisation *)

Definition unused_metadata : metadata := Metadata 0 [] [] no_cpus false false.
(** [registered] is the answer of [irq_register_vector]. *)
Definition vmm_init (registered : bool) (c : Z) s : option (vmm A) :=
  let s := set_request (Request false 0 no_cpus no_cpus) s in
  if negb registered then None
  else
    let s := set_active_pml4 s c 0 in
    let s := set_kernel 0 s in
    let s := set_bootstrap false s in
    let s := set_metadata (replicate VMM_MAX_PROCESS_METADATA unused_metadata) s in
    Some (set_ioremap IOREMAP_BASE s).

Definition vmm_set_kernel_pml4 s (c phys : Z) : vmm A :=
  let s := set_kernel (vmm_table_from_phys phys) s in
  set_active_pml4 s c (kernel_pml4 s).
Definition vmm_get_kernel_pml4 s : Z := kernel_pml4 s.
Definition vmm_get_kernel_pml4_phys s : Z := vmm_table_phys (kernel_pml4 s).
Definition vmm_get_current_pml4 s (c : Z) : Z := active_pml4 s c.

(** Only the representation of the pointers changes. *)
Definition vmm_enable_direct_map s : vmm A := if direct_map_ready s then s else set_ready true s.

(** * Kernel mappings *)

(** One level of the kernel walk: the child, created when absent; 0 is the
    failure exit, a null pointer that is followed faults. *)
Definition kernel_child s (parent i : Z) : option (Z * vmm A) :=
  e ← entry s parent i;
  if negb (has e PTE_PRESENT) then
    '(child, s) ← vmm_alloc_table s;
    if child =? 0 then Some (0, s)
    else s ← store s parent i (Z.lor (vmm_table_phys child) (Z.lor PTE_PRESENT PTE_READWRITE));
         Some (child, s)
  else if has e PTE_USER then Some (0, s)
  else let child := vmm_table_from_phys e in if child =? 0 then None else Some (child, s).

Definition vmm_map_kernel_one_internal s (c pml4 va pa flags : Z) (allow_bootstrap_low : bool)
    : option (bool * vmm A) :=
  let low_identity := va <? VMM_USER_ADDRESS_LIMIT in
  if (pml4 =? 0) || negb (pml4 =? kernel_pml4 s) || negb (phys_map_contains pa) ||
     has flags PTE_USER ||
     (low_identity && (negb allow_bootstrap_low || (0x00100000 <=? va) || negb (pa =? va))) ||
     (negb low_identity && negb (vmm_kernel_shared_pml4_index (ix 39 va)))
  then Some (false, s)
  else
    '(pdpt, s) ← kernel_child s pml4 (ix 39 va);
    if pdpt =? 0 then Some (false, s) else
    '(pd, s) ← kernel_child s pdpt (ix 30 va);
    if pd =? 0 then Some (false, s) else
    '(pt, s) ← kernel_child s pd (ix 21 va);
    if pt =? 0 then Some (false, s) else
    s ← store s pt (ix 12 va) (Z.lor (Z.land pa PTE_FRAME_MASK) (Z.lor flags PTE_PRESENT));
    Some (true, invlpg_if_active s c pml4 va).

Definition vmm_map_kernel_one s (c pml4 va pa flags : Z) : option (bool * vmm A) :=
  vmm_map_kernel_one_internal s c pml4 va pa flags false.

(** [root->entries[index] = kernel_pml4->entries[index]] for the shared slots. *)
Fixpoint copy_shared s (r : Z) (ixs : list Z) : option (vmm A) :=
  match ixs with
  | [] => Some s
  | i :: ixs =>
      s ← (if vmm_kernel_shared_pml4_index i
           then e ← entry s (kernel_pml4 s) i; store s r i e else Some s);
      copy_shared s r ixs
  end.
Definition high_half : list Z := seqZ 256 256.
Fixpoint publish_roots s (l : list metadata) : option (vmm A) :=
  match l with
  | [] => Some s
  | md :: l =>
      s ← (if root md =? 0 then Some s else copy_shared s (root md) high_half);
      publish_roots s l
  end.
(** The online CPUs but the current one. *)
Fixpoint other_cpus (l : list cpu) (index c : Z) (targets : list Z) : list Z :=
  match l with
  | [] => targets
  | x :: l =>
      other_cpus l (index + 1) c
        (if online x && negb (index =? c) then mask_set targets index else targets)
  end.
Definition vmm_publish_kernel_mappings (hw : machine) (c : Z) s : option (vmm A) :=
  s ← publish_roots s (address_space_metadata s);
  vmm_tlb_shootdown hw s (other_cpus (cpus s) 0 c no_cpus) 0.

Definition vmm_map (hw : machine) s (c pml4 va pa flags : Z) : option (bool * vmm A) :=
  '(result, s) ← vmm_map_kernel_one s c pml4 va pa flags;
  if result : bool then s ← vmm_publish_kernel_mappings hw c s; Some (true, s)
  else Some (false, s).

Definition vmm_map_bootstrap_page s (c pa : Z) : option (bool * vmm A) :=
  if has pa (VMM_PAGE_SIZE - 1) || (0x00100000 <=? pa) then Some (false, s)
  else if bootstrap_mapping_active s then Some (false, s)
  else
    '(result, s) ← vmm_map_kernel_one_internal s c (kernel_pml4 s) pa pa PTE_READWRITE true;
    Some (result, if result : bool then set_bootstrap true s else s).

(** [free_pdpt], [free_pd] and [free_pt] of the removal, in this order: the leaf
    entry [e] is what [entry] holds when [free_pt] is computed. *)
Definition bootstrap_prune s (pdpt pd pt va e : Z) : option (Z * Z * Z * vmm A) :=
  s ← store s pt (ix 12 va) 0;
  b ← vmm_table_empty s pt;
  if negb b then Some (0, 0, 0, s) else
  let free_pt := Z.land e PTE_FRAME_MASK in
  s ← store s pd (ix 21 va) 0;
  b ← vmm_table_empty s pd;
  if negb b then Some (0, 0, free_pt, s) else
  e ← entry s pdpt (ix 30 va);
  let free_pd := Z.land e PTE_FRAME_MASK in
  s ← store s pdpt (ix 30 va) 0;
  b ← vmm_table_empty s pdpt;
  if negb b then Some (0, free_pd, free_pt, s) else
  e ← entry s (kernel_pml4 s) (ix 39 va);
  let free_pdpt := Z.land e PTE_FRAME_MASK in
  s ← store s (kernel_pml4 s) (ix 39 va) 0;
  Some (free_pdpt, free_pd, free_pt, s).

Definition supervisor_link (e : Z) : bool :=
  has e PTE_PRESENT && negb (has e (Z.lor PTE_HUGE PTE_USER)).
Definition free_nonnull s (p : Z) : option (vmm A) := if p =? 0 then Some s else pmm_free s p.

Definition vmm_unmap_bootstrap_page s (c pa : Z) : option (bool * vmm A) :=
  if has pa (VMM_PAGE_SIZE - 1) || (0x00100000 <=? pa) then Some (false, s)
  else if (kernel_pml4 s =? 0) || negb (bootstrap_mapping_active s) then Some (false, s)
  else
    e ← entry s (kernel_pml4 s) (ix 39 pa);
    if negb (supervisor_link e) then Some (false, s) else
    let pdpt := vmm_table_from_phys e in
    e ← entry s pdpt (ix 30 pa);
    if negb (supervisor_link e) then Some (false, s) else
    let pd := vmm_table_from_phys e in
    e ← entry s pd (ix 21 pa);
    if negb (supervisor_link e) then Some (false, s) else
    let pt := vmm_table_from_phys e in
    e ← entry s pt (ix 12 pa);
    if negb (has e PTE_PRESENT) || negb (Z.land e PTE_FRAME_MASK =? pa) then Some (false, s) else
    '(free_pdpt, free_pd, free_pt, s) ← bootstrap_prune s pdpt pd pt pa e;
    let s := invlpg (set_bootstrap false s) c pa in
    s ← free_nonnull s free_pdpt;
    s ← free_nonnull s free_pd;
    s ← free_nonnull s free_pt;
    Some (true, s).

(** The mapping loop of [vmm_map_mmio]: whether all pages were mapped, and
    whether any was. *)
Fixpoint map_pages s (c va pa flags : Z) (count : nat) (changed : bool) : option (bool * bool * vmm A) :=
  match count with
  | O => Some (true, changed, s)
  | S count =>
      '(ok, s) ← vmm_map_kernel_one s c (kernel_pml4 s) va pa flags;
      if ok : bool
      then map_pages s c (u64 (va + VMM_PAGE_SIZE)) (u64 (pa + VMM_PAGE_SIZE)) flags count true
      else Some (false, changed, s)
  end.

(** A null result is 0. *)
Definition vmm_map_mmio (hw : machine) s (c pa size : Z) : option (Z * vmm A) :=
  if (kernel_pml4 s =? 0) || (size =? 0) || (U64_MAX - (size - 1) <? pa) then Some (0, s)
  else
    let start := Z.land pa (u64 (Z.lnot (VMM_PAGE_SIZE - 1))) in
    let offset := pa - start in
    if U64_MAX - offset <? size then Some (0, s)
    else
      let mapped_size := Z.land (u64 (size + offset + VMM_PAGE_SIZE - 1))
                           (u64 (Z.lnot (VMM_PAGE_SIZE - 1))) in
      if (mapped_size =? 0) || (u64 (IOREMAP_LIMIT - mapped_size) <? ioremap_next s)
      then Some (0, s)
      else
        let virtual_start := ioremap_next s in
        let s := set_ioremap (u64 (virtual_start + mapped_size)) s in
        '(ok, changed, s) ← map_pages s c virtual_start start
          (Z.lor PTE_READWRITE (Z.lor PTE_WRITETHROUGH (Z.lor PTE_CACHEDISABLE PTE_NX)))
          (Z.to_nat (mapped_size / VMM_PAGE_SIZE)) false;
        if ok : bool then
          s ← vmm_publish_kernel_mappings hw c s; Some (u64 (virtual_start + offset), s)
        else if changed : bool then s ← vmm_publish_kernel_mappings hw c s; Some (0, s)
        else Some (0, s).

Definition vmm_ioremap_contains (address : Z) : bool :=
  (IOREMAP_BASE <=? address) && (address <? IOREMAP_LIMIT).

Definition vmm_map_physical_ram (hw : machine) s (c start page_count : Z) : option (bool * vmm A) :=
  if (kernel_pml4 s =? 0) || (PHYS_MAP_LIMIT <=? start) ||
     ((PHYS_MAP_LIMIT - start) / VMM_PAGE_SIZE <? page_count)
  then Some (false, s)
  else
    '(ok, changed, s) ← map_pages s c (PHYS_MAP_BASE + start) start (Z.lor PTE_READWRITE PTE_NX)
      (Z.to_nat page_count) false;
    if negb ok then
      if changed : bool then s ← vmm_publish_kernel_mappings hw c s; Some (false, s)
      else Some (false, s)
    else
      e ← entry s (kernel_pml4 s) (ix 39 PHYS_MAP_BASE);
      if has e PTE_USER then Some (false, s)
      else if changed : bool then s ← vmm_publish_kernel_mappings hw c s; Some (true, s)
      else Some (true, s).

(** * Walks in software *)

Definition vmm_leaf_entry s (r va : Z) : option Z :=
  if r =? 0 then Some 0 else
  e ← entry s r (ix 39 va);
  if negb (has e PTE_PRESENT) || has e PTE_HUGE then Some 0 else
  let t := vmm_table_from_phys e in
  e ← entry s t (ix 30 va);
  if negb (has e PTE_PRESENT) || has e PTE_HUGE then Some 0 else
  let t := vmm_table_from_phys e in
  e ← entry s t (ix 21 va);
  if negb (has e PTE_PRESENT) || has e PTE_HUGE then Some 0 else
  let t := vmm_table_from_phys e in
  entry s t (ix 12 va).

Definition vmm_kernel_mapping_present s (address : Z) : option bool :=
  e ← vmm_leaf_entry s (kernel_pml4 s) address; Some (has e PTE_PRESENT).

(** [(entry & (PTE_PRESENT | PTE_USER | PTE_HUGE)) == PTE_PRESENT]. *)
Definition supervisor_table (e : Z) : bool :=
  Z.land e (Z.lor PTE_PRESENT (Z.lor PTE_USER PTE_HUGE)) =? PTE_PRESENT.
Definition vmm_kernel_mapping_supervisor s (va : Z) : option bool :=
  if kernel_pml4 s =? 0 then Some false else
  e ← entry s (kernel_pml4 s) (ix 39 va);
  if negb (supervisor_table e) then Some false else
  let t := vmm_table_from_phys e in
  e ← entry s t (ix 30 va);
  if negb (supervisor_table e) then Some false else
  let t := vmm_table_from_phys e in
  e ← entry s t (ix 21 va);
  if negb (supervisor_table e) then Some false else
  e ← vmm_leaf_entry s (kernel_pml4 s) va;
  Some (Z.land e (Z.lor PTE_PRESENT PTE_USER) =? PTE_PRESENT).

Definition vmm_direct_map_valid s (pa : Z) : option bool :=
  if (kernel_pml4 s =? 0) || negb (direct_map_ready s) || negb (phys_map_contains pa)
  then Some false else
  let va := u64 (PHYS_MAP_BASE + pa) in
  e ← entry s (kernel_pml4 s) (ix 39 va);
  if negb (supervisor_table e) then Some false else
  let pdpt := vmm_table_from_phys e in
  e ← entry s pdpt (ix 30 va);
  if negb (supervisor_table e) then Some false else
  let pd := vmm_table_from_phys e in
  e ← entry s pd (ix 21 va);
  if negb (supervisor_table e) then Some false else
  let pt := vmm_table_from_phys e in
  e ← entry s pt (ix 12 va);
  Some ((Z.land e (Z.lor PTE_PRESENT PTE_USER) =? PTE_PRESENT) &&
        (Z.land e PTE_FRAME_MASK =? Z.land pa PTE_FRAME_MASK)).

Definition vmm_virtual_to_physical s (c va : Z) : option Z :=
  let r := active_pml4 s c in
  if r =? 0 then Some 0 else
  e ← entry s r (ix 39 va);
  if negb (has e PTE_PRESENT) then Some 0 else
  let pdpt := vmm_table_from_phys e in
  e ← entry s pdpt (ix 30 va);
  if negb (has e PTE_PRESENT) then Some 0 else
  let pd := vmm_table_from_phys e in
  e ← entry s pd (ix 21 va);
  if negb (has e PTE_PRESENT) then Some 0 else
  let pt := vmm_table_from_phys e in
  e ← entry s pt (ix 12 va);
  if negb (has e PTE_PRESENT) then Some 0 else
  Some (u64 (Z.land e PTE_FRAME_MASK + Z.land va 0xFFF)).

Definition vmm_page_present s (r va : Z) : option bool :=
  if r =? 0 then Some false else
  e ← entry s r (ix 39 va);
  if negb (has e PTE_PRESENT) then Some false else
  if has e PTE_HUGE then Some true else
  let t := vmm_table_from_phys e in
  e ← entry s t (ix 30 va);
  if negb (has e PTE_PRESENT) then Some false else
  if has e PTE_HUGE then Some true else
  let t := vmm_table_from_phys e in
  e ← entry s t (ix 21 va);
  if negb (has e PTE_PRESENT) then Some false else
  if has e PTE_HUGE then Some true else
  let t := vmm_table_from_phys e in
  e ← entry s t (ix 12 va);
  Some (has e PTE_PRESENT).

(** One iteration of [vmm_user_range_valid]. *)
Definition user_page_valid s (r page : Z) : option bool :=
  e ← entry s r (ix 39 page);
  if negb (has e PTE_PRESENT) || negb (has e PTE_USER) then Some false else
  let pdpt := vmm_table_from_phys e in
  e ← entry s pdpt (ix 30 page);
  if negb (has e PTE_PRESENT) || negb (has e PTE_USER) || has e PTE_HUGE then Some false else
  let pd := vmm_table_from_phys e in
  e ← entry s pd (ix 21 page);
  if negb (has e PTE_PRESENT) || negb (has e PTE_USER) || has e PTE_HUGE then Some false else
  let pt := vmm_table_from_phys e in
  e ← entry s pt (ix 12 page);
  Some (has e PTE_PRESENT && has e PTE_USER).

(** The loop over the pages; [fuel] is the number of pages of the range. *)
Fixpoint user_pages_valid s (r page end_ : Z) (fuel : nat) : option bool :=
  if negb (page <? end_) then Some true
  else
    match fuel with
    | O => None
    | S fuel =>
        ok ← user_page_valid s r page;
        if negb ok then Some false
        else if U64_MAX - 0x1000 <? page then Some true
        else user_pages_valid s r (page + 0x1000) end_ fuel
    end.
Definition vmm_user_range_valid s (c address length : Z) : option bool :=
  if (active_pml4 s c =? 0) || ((address =? 0) && negb (length =? 0)) ||
     (U64_MAX - address <? length) then Some false
  else if length =? 0 then Some true
  else
    user_pages_valid s (active_pml4 s c) (Z.land address (u64 (Z.lnot 0xfff))) (address + length)
      (Z.to_nat (length / VMM_PAGE_SIZE + 2)).

(** * Validation *)

(** A search through the entries of a table, and a check of all of them. *)
Fixpoint any_entry (f : Z -> option bool) (l : list Z) : option bool :=
  match l with
  | [] => Some false
  | e :: l => b ← f e; if b : bool then Some true else any_entry f l
  end.
Fixpoint all_entries (f : Z -> option bool) (l : list Z) : option bool :=
  match l with
  | [] => Some true
  | e :: l => b ← f e; if b : bool then all_entries f l else Some false
  end.

(** The three nested loops: [e] or an entry below it links the table. *)
Fixpoint any_child (m : gmap Z (list Z)) (depth : nat) (e physical : Z) : option bool :=
  if negb (has e PTE_PRESENT) || has e PTE_HUGE then Some false
  else if Z.land e PTE_FRAME_MASK =? physical then Some true
  else
    match depth with
    | O => Some false
    | S depth =>
        ws ← m !! vmm_table_from_phys e;
        any_entry (fun e => any_child m depth e physical) ws
    end.
(** Only the tables of the upper half are searched. *)
Definition vmm_kernel_reaches_table s (physical : Z) : option bool :=
  if kernel_pml4 s =? 0 then Some false else
  let physical := Z.land physical PTE_FRAME_MASK in
  if physical =? vmm_table_phys (kernel_pml4 s) then Some true else
  ws ← mem s !! kernel_pml4 s;
  any_entry (fun e => any_child (mem s) 2 e physical) (drop 256 ws).

(** The two loops over the root, and the loop over the owned tables. *)
Fixpoint validate_low s (md : metadata) (ixs : list Z) : option bool :=
  match ixs with
  | [] => Some true
  | i :: ixs =>
      e ← entry s (root md) i;
      if e =? 0 then validate_low s md ixs
      else
        if negb (Z.land e (Z.lor PTE_PRESENT (Z.lor PTE_USER PTE_HUGE)) =? Z.lor PTE_PRESENT PTE_USER) ||
           negb (vmm_owned_contains (tables md) (Z.land e PTE_FRAME_MASK))
        then Some false
        else
          k ← entry s (kernel_pml4 s) i;
          if has k PTE_PRESENT && negb (bootstrap_mapping_active s && (i =? 0)) then Some false
          else validate_low s md ixs
  end.
Fixpoint validate_high s (md : metadata) (ixs : list Z) : option bool :=
  match ixs with
  | [] => Some true
  | i :: ixs =>
      e ← entry s (root md) i;
      if vmm_kernel_shared_pml4_index i then
        k ← entry s (kernel_pml4 s) i;
        if negb (e =? k) || has e PTE_USER then Some false else validate_high s md ixs
      else if negb (e =? 0) then Some false
      else validate_high s md ixs
  end.
Fixpoint none_reached s (l : list Z) : option bool :=
  match l with
  | [] => Some true
  | p :: l => b ← vmm_kernel_reaches_table s p; if b : bool then Some false else none_reached s l
  end.
Definition low_half : list Z := seqZ 0 256.
Definition vmm_address_space_validate_unlocked s (pml4 : Z) : option bool :=
  if (pml4 =? 0) || (pml4 =? kernel_pml4 s) then Some false
  else
    match vmm_metadata_find s pml4 with
    | None => Some false
    | Some k =>
        md ← address_space_metadata s !! k;
        low ← validate_low s md low_half;
        if negb low then Some false else
        high ← validate_high s md high_half;
        if negb high then Some false else none_reached s (tables md)
    end.
Definition vmm_address_space_validate_locked s (pml4 : Z) : option bool :=
  vmm_address_space_validate_unlocked s pml4.
Definition vmm_address_space_validate s (pml4 : Z) : option bool :=
  vmm_address_space_validate_locked s pml4.

(** [vmm_table_supervisor_only]; [level] of the source is one more. *)
Fixpoint vmm_table_supervisor_only (m : gmap Z (list Z)) (t : Z) (level : nat) : option bool :=
  ws ← m !! t;
  all_entries (fun e =>
    if negb (has e PTE_PRESENT) then Some true
    else if has e PTE_USER then Some false
    else
      match level with
      | O => Some true
      | S level =>
          if has e PTE_HUGE then Some true
          else vmm_table_supervisor_only m (vmm_table_from_phys e) level
      end) ws.
Definition vmm_kernel_mappings_supervisor_only s : option bool :=
  if kernel_pml4 s =? 0 then Some false else vmm_table_supervisor_only (mem s) (kernel_pml4 s) 3.

(** * User mappings *)

(** [(entry & (PTE_USER | PTE_HUGE)) == PTE_USER]. *)
Definition user_table (e : Z) : bool := Z.land e (Z.lor PTE_USER PTE_HUGE) =? PTE_USER.

(** [reserved_tables] and [reserved_table_nodes] of one level: a null table is
    0. *)
Record reserved := Reserved { r_table : Z; r_node : bool }.

(** The child, 0 for null, and what is left of the reservation. *)
Definition vmm_user_child_reserved s (k : nat) (parent i : Z) (r : reserved)
    : option (Z * reserved * vmm A) :=
  md ← address_space_metadata s !! k;
  e ← entry s parent i;
  if has e PTE_PRESENT then
    if negb (user_table e) then Some (0, r, s)
    else
      let child := vmm_table_from_phys e in
      Some (if vmm_owned_contains (tables md) (vmm_table_phys child) then child else 0, r, s)
  else if (r_table r =? 0) || negb (r_node r) then Some (0, r, s)
  else
    let child := r_table r in
    let s := alter_metadata s k (fun md =>
      Metadata (root md) (vmm_owned_insert (tables md) (vmm_table_phys child)) (leaves md)
        (active_cpu_mask md) (destroy_pending md) (shootdown_pending md)) in
    s ← store s parent i
      (Z.lor (vmm_table_phys child) (Z.lor PTE_PRESENT (Z.lor PTE_READWRITE PTE_USER)));
    Some (child, Reserved 0 false, s).

Fixpoint path_available s (md : metadata) (t : Z) (ixs : list Z) (va : Z) : option bool :=
  match ixs with
  | [] => e ← entry s t (ix 12 va); Some (negb (has e PTE_PRESENT))
  | i :: ixs =>
      e ← entry s t i;
      if negb (has e PTE_PRESENT) then Some true
      else if negb (user_table e) || negb (vmm_owned_contains (tables md) (Z.land e PTE_FRAME_MASK))
      then Some false
      else path_available s md (vmm_table_from_phys e) ixs va
  end.
Definition vmm_user_path_available s (md : metadata) (pml4 va : Z) : option bool :=
  path_available s md pml4 [ix 39 va; ix 30 va; ix 21 va] va.

Definition user_page_address va : bool :=
  negb (has va (VMM_PAGE_SIZE - 1)) && (va <? VMM_USER_ADDRESS_LIMIT) && (ix 39 va <? 256).

(** The argument checks and the first locked section: the record and the
    kernel's entry of the slot. *)
Definition map_begin s (pml4 va pa flags : Z) : option (option (nat * Z)) :=
  if (pml4 =? 0) || (pml4 =? kernel_pml4 s) || has pa (VMM_PAGE_SIZE - 1) ||
     negb (phys_map_contains pa) || negb (user_page_address va) || negb (has flags PTE_USER)
  then Some None
  else
    match vmm_metadata_find s pml4 with
    | None => Some None
    | Some k =>
        md ← address_space_metadata s !! k;
        if destroy_pending md then Some None else
        available ← vmm_user_path_available s md pml4 va;
        if negb available || (kernel_pml4 s =? 0) then Some None
        else before ← entry s (kernel_pml4 s) (ix 39 va); Some (Some (k, before))
    end.

(** What [vmm_map_user_page] holds between its sections. *)
Record reservation := Reservation { res_leaf : bool; res_tables : list reserved }.
Definition nothing_reserved : reserved := Reserved 0 false.

(** The reservation loop. *)
Fixpoint reserve_tables s (nodes : list bool) (done : list reserved)
    : option (bool * list reserved * vmm A) :=
  match nodes with
  | [] => Some (true, done, s)
  | node :: nodes =>
      '(t, s) ← vmm_alloc_table s;
      if t =? 0 then Some (false, done, s)
      else if negb node then Some (false, done ++ [Reserved t false], s)
      else reserve_tables s nodes (done ++ [Reserved t true])
  end.
(** [kmalloc n] is the answer to the [n]-th request for a node: the leaf's, then
    those of the three tables. *)
Definition map_reserve s (kmalloc : nat -> bool) : option (bool * reservation * vmm A) :=
  if negb (kmalloc 0%nat) then Some (false, Reservation false [], s)
  else
    '(ok, rs, s) ← reserve_tables s [kmalloc 1%nat; kmalloc 2%nat; kmalloc 3%nat] [];
    Some (ok, Reservation true rs, s).

(** Both exits give back what is still reserved. *)
Fixpoint release_reserved s (rs : list reserved) : option (vmm A) :=
  match rs with
  | [] => Some s
  | r :: rs => s ← free_nonnull s (r_table r); release_reserved s rs
  end.

(** [pdpt ? ... : 0]: the three levels, each from its reservation. *)
Fixpoint user_children s (k : nat) (t : Z) (ixs : list Z) (rs : list reserved)
    : option (Z * list reserved * vmm A) :=
  match ixs, rs with
  | i :: ixs, r :: rs =>
      '(child, r, s) ← vmm_user_child_reserved s k t i r;
      if child =? 0 then Some (0, r :: rs, s)
      else '(t, rs, s) ← user_children s k child ixs rs; Some (t, r :: rs, s)
  | _, _ => Some (t, rs, s)
  end.

Definition set_shootdown_pending (b : bool) (md : metadata) : metadata :=
  Metadata (root md) (tables md) (leaves md) (active_cpu_mask md) (destroy_pending md) b.
Definition insert_leaf (pa : Z) (md : metadata) : metadata :=
  Metadata (root md) (tables md) (vmm_owned_insert (leaves md) pa) (active_cpu_mask md)
    (destroy_pending md) true.

(** The second locked section: [None] in the result is the failure exit, else
    the targets of the shootdown. *)
Definition map_commit s (c pml4 va pa flags before : Z) (res : reservation)
    : option (option (list Z) * reservation * vmm A) :=
  match vmm_metadata_find s pml4 with
  | None => Some (None, res, s)
  | Some k =>
      md ← address_space_metadata s !! k;
      if destroy_pending md then Some (None, res, s) else
      available ← vmm_user_path_available s md pml4 va;
      if negb available || vmm_owned_contains (leaves md) pa then Some (None, res, s) else
      '(pt, rs, s) ← user_children s k pml4 [ix 39 va; ix 30 va; ix 21 va] (res_tables res);
      if pt =? 0 then Some (None, Reservation (res_leaf res) rs, s) else
      let s := alter_metadata s k (insert_leaf pa) in
      s ← store s pt (ix 12 va)
        (Z.lor (Z.land pa PTE_FRAME_MASK) (Z.lor flags (Z.lor PTE_USER PTE_PRESENT)));
      let s := invlpg_if_active s c pml4 va in
      after ← entry s (kernel_pml4 s) (ix 39 va);
      valid ← vmm_address_space_validate_locked s pml4;
      if negb (after =? before) || negb valid then None
      else
        md ← address_space_metadata s !! k;
        Some (Some (vmm_capture_active_targets_locked c md), Reservation false rs, s)
  end.

(** The last locked section. *)
Definition finish_shootdown s (pml4 : Z) : vmm A :=
  match vmm_metadata_find s pml4 with
  | None => s
  | Some k => alter_metadata s k (set_shootdown_pending false)
  end.

(** [lock] is the answer of [mutex_lock]. *)
Definition vmm_map_user_page (hw : machine) (lock : bool) (kmalloc : nat -> bool)
    s (c pml4 va pa flags : Z) : option (bool * vmm A) :=
  begun ← map_begin s pml4 va pa flags;
  match begun with
  | None => Some (false, s)
  | Some (k, before) =>
      if negb lock then Some (false, s) else
      '(ok, res, s) ← map_reserve s kmalloc;
      if negb ok then s ← release_reserved s (res_tables res); Some (false, s) else
      '(committed, res, s) ← map_commit s c pml4 va pa flags before res;
      match committed with
      | None => s ← release_reserved s (res_tables res); Some (false, s)
      | Some targets =>
          s ← vmm_tlb_shootdown hw s targets pml4;
          let s := finish_shootdown s pml4 in
          s ← release_reserved s (res_tables res);
          Some (true, s)
      end
  end.

(** [(entry & (PTE_PRESENT | PTE_USER)) == (PTE_PRESENT | PTE_USER)]. *)
Definition user_present (e : Z) : bool :=
  Z.land e (Z.lor PTE_PRESENT PTE_USER) =? Z.lor PTE_PRESENT PTE_USER.
Definition owned_user_table (md : metadata) (e : Z) : bool :=
  user_present e && negb (has e PTE_HUGE) &&
  vmm_owned_contains (tables md) (Z.land e PTE_FRAME_MASK).

Definition remove_leaf (l : list Z) (md : metadata) : metadata :=
  Metadata (root md) (tables md) l (active_cpu_mask md) (destroy_pending md) true.

(** The section that removes a leaf: the frame and the targets. *)
Definition unmap_commit s (c pml4 va : Z) : option (option (Z * list Z) * vmm A) :=
  match vmm_metadata_find s pml4 with
  | None => Some (None, s)
  | Some k =>
      md ← address_space_metadata s !! k;
      if destroy_pending md then Some (None, s) else
      e ← entry s pml4 (ix 39 va);
      if negb (owned_user_table md e) then Some (None, s) else
      let pdpt := vmm_table_from_phys e in
      e ← entry s pdpt (ix 30 va);
      if negb (owned_user_table md e) then Some (None, s) else
      let pd := vmm_table_from_phys e in
      e ← entry s pd (ix 21 va);
      if negb (owned_user_table md e) then Some (None, s) else
      let pt := vmm_table_from_phys e in
      e ← entry s pt (ix 12 va);
      if negb (user_present e) then Some (None, s) else
      let out := Z.land e PTE_FRAME_MASK in
      match vmm_owned_remove (leaves md) out with
      | None => Some (None, s)
      | Some l =>
          let s := alter_metadata s k (remove_leaf l) in
          s ← store s pt (ix 12 va) 0;
          let s := invlpg_if_active s c pml4 va in
          Some (Some (out, vmm_capture_active_targets_locked c (remove_leaf l md)), s)
      end
  end.

(** The frame on success: [out_physical_addr] is not null. *)
Definition vmm_unmap_user_page (hw : machine) (lock : bool) s (c pml4 va : Z)
    : option (option Z * vmm A) :=
  if (pml4 =? 0) || (pml4 =? kernel_pml4 s) || negb (user_page_address va) then Some (None, s)
  else
    match vmm_metadata_find s pml4 with
    | None => Some (None, s)
    | Some k =>
        md ← address_space_metadata s !! k;
        if destroy_pending md || negb lock then Some (None, s) else
        '(done, s) ← unmap_commit s c pml4 va;
        match done with
        | None => Some (None, s)
        | Some (out, targets) =>
            s ← vmm_tlb_shootdown hw s targets pml4;
            Some (Some out, finish_shootdown s pml4)
        end
    end.

Fixpoint count_pages (l : list Z) (pages : Z) : Z :=
  match l with
  | [] => pages
  | _ :: l => count_pages l (if pages =? U64_MAX then pages else pages + 1)
  end.
Definition vmm_address_space_user_memory_bytes s (pml4 : Z) : Z :=
  if (pml4 =? 0) || (pml4 =? kernel_pml4 s) then 0
  else
    let pages :=
      match vmm_metadata_find s pml4 ≫= (address_space_metadata s !!.) with
      | Some md => count_pages (leaves md) 0 | None => 0 end in
    if U64_MAX / VMM_PAGE_SIZE <? pages then U64_MAX else pages * VMM_PAGE_SIZE.

(** * Address spaces *)

(** The copy loop of [vmm_create_address_space]: [false] when a shared entry
    carries the user bit. *)
Fixpoint copy_checked s (r : Z) (ixs : list Z) : option (bool * vmm A) :=
  match ixs with
  | [] => Some (true, s)
  | i :: ixs =>
      if vmm_kernel_shared_pml4_index i then
        e ← entry s (kernel_pml4 s) i;
        if has e PTE_USER then Some (false, s)
        else s ← store s r i e; copy_checked s r ixs
      else copy_checked s r ixs
  end.
Definition set_root (p : Z) (md : metadata) : metadata :=
  Metadata p (tables md) (leaves md) (active_cpu_mask md) (destroy_pending md) (shootdown_pending md).
(** A null result is 0. *)
Definition vmm_create_address_space s : option (Z * vmm A) :=
  if kernel_pml4 s =? 0 then Some (0, s) else
  '(pml4, s) ← vmm_alloc_table s;
  if pml4 =? 0 then Some (0, s) else
  '(ok, s) ← copy_checked s pml4 high_half;
  if negb ok then s ← pmm_free s (vmm_table_phys pml4); Some (0, s) else
  match vmm_metadata_create s pml4 with
  | None => s ← pmm_free s (vmm_table_phys pml4); Some (0, s)
  | Some (k, s) =>
      valid ← vmm_address_space_validate_locked s pml4;
      if negb valid then
        let s := alter_metadata s k (set_root 0) in
        s ← pmm_free s (vmm_table_phys pml4); Some (0, s)
      else Some (pml4, s)
  end.

(** One round of the waiting loop of [vmm_destroy_address_space]. *)
Inductive detached :=
  | Gone
  | Busy
  | Detached (root_physical : Z) (leaves tables : list Z).
Definition mark_destroy (md : metadata) : metadata :=
  Metadata (root md) (tables md) (leaves md) (active_cpu_mask md) true (shootdown_pending md).
Definition detach (md : metadata) : metadata :=
  Metadata 0 [] [] (active_cpu_mask md) (destroy_pending md) (shootdown_pending md).
Definition destroy_round s (c pml4 : Z) : option (detached * vmm A) :=
  match vmm_metadata_find s pml4 with
  | None => Some (Gone, s)
  | Some k =>
      md ← address_space_metadata s !! k;
      let s := alter_metadata s k mark_destroy in
      if (c <? CPU_MAX_COUNT) && mask_test (active_cpu_mask md) c then None
      else if negb (vmm_cpu_mask_empty (active_cpu_mask md)) then Some (Busy, s)
      else Some (Detached (vmm_table_phys pml4) (leaves md) (tables md), alter_metadata s k detach)
  end.

(** The loop: [elsewhere n] is what the other CPUs do while the [n]-th sleep
    lasts, [None] a sleep that fails.  After 5000 ticks the call panics. *)
Fixpoint destroy_wait (elsewhere : nat -> vmm A -> option (vmm A)) s (c pml4 : Z) (ticks fuel : nat)
    : option (option (Z * list Z * list Z) * vmm A) :=
  '(r, s) ← destroy_round s c pml4;
  match r with
  | Gone => Some (None, s)
  | Detached p l t => Some (Some (p, l, t), s)
  | Busy =>
      match fuel with
      | O => None
      | S fuel => s ← elsewhere ticks s; destroy_wait elsewhere s c pml4 (S ticks) fuel
      end
  end.
Definition destroy_ticks : nat := 5000.

Fixpoint free_all s (l : list Z) : option (vmm A) :=
  match l with
  | [] => Some s
  | p :: l => s ← pmm_free s p; free_all s l
  end.
Fixpoint free_tables s (l : list Z) : option (vmm A) :=
  match l with
  | [] => Some s
  | p :: l =>
      shared ← vmm_kernel_reaches_table s p;
      if shared : bool then None else s ← pmm_free s p; free_tables s l
  end.
Definition destroy_release s (p : Z) (ls ts : list Z) : option (vmm A) :=
  s ← pmm_free s p; s ← free_all s ls; free_tables s ts.
Definition destroy_done (md : metadata) : metadata :=
  Metadata (root md) (tables md) (leaves md) (active_cpu_mask md) false false.

Definition vmm_destroy_address_space (elsewhere : nat -> vmm A -> option (vmm A)) (lock : bool)
    s (c pml4 : Z) : option (vmm A) :=
  if (pml4 =? 0) || (pml4 =? kernel_pml4 s) then Some s
  else
    match vmm_metadata_find s pml4 with
    | None => Some s
    | Some k =>
        if negb lock then Some s else
        '(r, s) ← destroy_wait elsewhere s c pml4 O destroy_ticks;
        match r with
        | None => Some s
        | Some (p, ls, ts) =>
            s ← destroy_release s p ls ts;
            Some (alter_metadata s k destroy_done)
        end
    end.

Definition set_mask (m : list Z) (md : metadata) : metadata :=
  Metadata (root md) (tables md) (leaves md) m (destroy_pending md) (shootdown_pending md).
Definition mark_active (c : Z) (md : metadata) : metadata := set_mask (mask_set (active_cpu_mask md) c) md.
Definition mark_inactive (c : Z) (md : metadata) : metadata :=
  set_mask (mask_clear (active_cpu_mask md) c) md.

Definition vmm_switch_address_space s (c pml4 : Z) : option (bool * vmm A) :=
  if pml4 =? 0 then Some (false, s) else
  let old := active_pml4 s c in
  if pml4 =? old then Some (true, s)
  else if CPU_MAX_COUNT <=? c then Some (false, s)
  else
    let found := if pml4 =? kernel_pml4 s then None else vmm_metadata_find s pml4 in
    refused ← (if pml4 =? kernel_pml4 s then Some false
               else match found with
                    | None => Some true
                    | Some k => md ← address_space_metadata s !! k; Some (destroy_pending md)
                    end);
    if refused : bool then Some (false, s) else
    let s := match found with Some k => alter_metadata s k (mark_active c) | None => s end in
    let s := set_active_pml4 (load_cr3 s c) c pml4 in
    let s :=
      if negb (old =? 0) && negb (old =? kernel_pml4 s)
      then match vmm_metadata_find s old with
           | Some k => alter_metadata s k (mark_inactive c) | None => s end
      else s in
    Some (true, s).

End ops.

End Vmm.
