(* ===== verification/VmmTree.v ===== *)
(** The page tables as trees: entries, the shape of a hierarchy of tables, and
    what the updates of [Vmm] do to it. *)
From stdpp Require Import gmap.
From S2P Require Import Prelude Pmm Vmm.
Import Pmm Vmm.

Module VmmTree.

(** * Entries *)

(** The address of a frame that the direct map covers. *)
Definition is_frame (p : Z) : Prop := 0 < p < PHYS_MAP_LIMIT /\ p mod VMM_PAGE_SIZE = 0.
(** Flags do not overlap the frame number. *)
Definition is_flags (fl : Z) : Prop := Z.land fl PTE_FRAME_MASK = 0.

#[export] Instance is_frame_dec p : Decision (is_frame p) := _.
#[export] Instance is_flags_dec fl : Decision (is_flags fl) := _.

Lemma frame_mask p : is_frame p -> Z.land p PTE_FRAME_MASK = p.
Proof.
  intros [Hr Ha]. change PTE_FRAME_MASK with (Z.shiftl (Z.ones 40) 12).
  unfold VMM_PAGE_SIZE, PHYS_MAP_LIMIT in *.
  assert (E : p = Z.shiftl (p / 2 ^ 12) 12) by (rewrite Z.shiftl_mul_pow2 by lia; mach).
  rewrite E at 1. rewrite <- Z.shiftl_land, Z.land_ones by lia.
  rewrite Z.mod_small; [done|]. split; [apply Z.div_pos; lia|].
  apply Z.div_lt_upper_bound; lia.
Qed.

Lemma frame_no_flag p m : is_frame p -> is_flags m -> Z.land p m = 0.
Proof.
  intros Hp Hm. rewrite <- (frame_mask p Hp), <- Z.land_assoc, (Z.land_comm PTE_FRAME_MASK m), Hm.
  apply Z.land_0_r.
Qed.

Lemma pte_frame p fl : is_frame p -> is_flags fl -> Z.land (Z.lor p fl) PTE_FRAME_MASK = p.
Proof. intros Hp Hf. rewrite Z.land_lor_distr_l, Hf, Z.lor_0_r. by apply frame_mask. Qed.

Lemma pte_flags p fl m : is_frame p -> is_flags m -> Z.land (Z.lor p fl) m = Z.land fl m.
Proof. intros Hp Hm. by rewrite Z.land_lor_distr_l, frame_no_flag, Z.lor_0_l by done. Qed.

Lemma pte_has p fl m : is_frame p -> is_flags m -> has (Z.lor p fl) m = has fl m.
Proof. intros Hp Hm. unfold has. by rewrite pte_flags. Qed.

Lemma has_lor a b m : has (Z.lor a b) m = has a m || has b m.
Proof.
  unfold has. rewrite Z.land_lor_distr_l.
  destruct (Z.eqb_spec (Z.lor (Z.land a m) (Z.land b m)) 0) as [E|E].
  - apply Z.lor_eq_0_iff in E as [-> ->]. done.
  - destruct (Z.eqb_spec (Z.land a m) 0) as [Ea|], (Z.eqb_spec (Z.land b m) 0) as [Eb|]; try done.
    by rewrite Ea, Eb in E.
Qed.

Lemma is_flags_lor a b : is_flags a -> is_flags b -> is_flags (Z.lor a b).
Proof. unfold is_flags. intros Ha Hb. by rewrite Z.land_lor_distr_l, Ha, Hb. Qed.

Lemma has_0 m : has 0 m = false.
Proof. done. Qed.

Lemma from_phys_pte p fl : is_frame p -> is_flags fl -> vmm_table_from_phys (Z.lor p fl) = p.
Proof.
  intros Hp Hf. unfold vmm_table_from_phys. rewrite pte_frame by done. cbv zeta.
  unfold phys_map_contains. destruct Hp as [Hr _]. by replace (p <? PHYS_MAP_LIMIT) with true by lia.
Qed.

Lemma frame_nonzero p : is_frame p -> (p =? 0) = false.
Proof. intros [? _]. lia. Qed.

(** The entries that link a table of a process and of the kernel. *)
Definition USER_LINK : Z := Z.lor PTE_PRESENT (Z.lor PTE_READWRITE PTE_USER).
Definition KERNEL_LINK : Z := Z.lor PTE_PRESENT PTE_READWRITE.

Ltac flags := solve [vm_compute; done].

(** * Words *)

Definition word (m : gmap Z (list Z)) (t i : Z) : option Z := ws ← m !! t; ws !! Z.to_nat i.
Definition write (m : gmap Z (list Z)) (t i v : Z) : gmap Z (list Z) :=
  alter (<[Z.to_nat i := v]>) t m.
Definition is_table (m : gmap Z (list Z)) (t : Z) : Prop := exists ws, m !! t = Some ws /\ length ws = 512%nat.
Definition index (i : Z) : Prop := 0 <= i < 512.

Lemma index_lt i : index i -> (Z.to_nat i < 512)%nat.
Proof. unfold index. intros [H1 H2]. apply (Z2Nat.inj_lt i 512 H1) in H2; [|done]. exact H2. Qed.

Lemma index_inj i j : index i -> index j -> Z.to_nat i = Z.to_nat j -> i = j.
Proof. unfold index. lia. Qed.

Lemma ix_index k va : index (ix k va).
Proof.
  unfold ix, index. change 0x1ff with (Z.ones 9). rewrite Z.land_ones by lia.
  apply Z.mod_pos_bound. lia.
Qed.

Lemma table_word m t i : is_table m t -> index i -> is_Some (word m t i).
Proof.
  intros (ws & E & Hl) Hi. unfold word. rewrite E. cbn. apply lookup_lt_is_Some.
  rewrite Hl. by apply index_lt.
Qed.

Lemma write_ne m t i v t' : t <> t' -> write m t i v !! t' = m !! t'.
Proof. apply lookup_alter_ne. Qed.

Lemma is_table_write m t i v t' : is_table m t' -> is_table (write m t i v) t'.
Proof.
  intros (ws & E & Hl). unfold write. destruct (decide (t = t')) as [->|Hne].
  - exists (<[Z.to_nat i := v]> ws). by rewrite lookup_alter_eq, E, length_insert.
  - exists ws. by rewrite lookup_alter_ne.
Qed.

Lemma word_write_eq m t i v : is_table m t -> index i -> word (write m t i v) t i = Some v.
Proof.
  intros (ws & E & Hl) Hi. unfold word, write. rewrite lookup_alter_eq, E. cbn.
  apply list_lookup_insert_eq. rewrite Hl. by apply index_lt.
Qed.

Lemma word_write_ne m t i v t' j :
  index i -> index j -> t <> t' \/ i <> j -> word (write m t i v) t' j = word m t' j.
Proof.
  intros Hi Hj Hne. unfold word, write. destruct (decide (t = t')) as [->|].
  - rewrite lookup_alter_eq. destruct (m !! t') as [ws|]; cbn; [|done].
    apply list_lookup_insert_ne. intros E. apply index_inj in E; [|done..]. by destruct Hne.
  - by rewrite lookup_alter_ne.
Qed.

Lemma word_fresh m t i : index i -> word (<[t := zero_table]> m) t i = Some 0.
Proof.
  intros Hi. unfold word. rewrite lookup_insert_eq. cbn [mbind option_bind]. unfold zero_table.
  apply lookup_replicate_2. by apply index_lt.
Qed.
Lemma word_insert_ne m t ws t' i : t <> t' -> word (<[t := ws]> m) t' i = word m t' i.
Proof. intros H. unfold word. by rewrite lookup_insert_ne. Qed.
Lemma is_table_fresh m t : is_table (<[t := zero_table]> m) t.
Proof. exists zero_table. rewrite lookup_insert_eq. split; [done|]. apply length_replicate. Qed.
Lemma is_table_insert m t t' : t <> t' -> is_table m t' -> is_table (<[t := zero_table]> m) t'.
Proof. intros Hne (ws & E & Hl). exists ws. by rewrite lookup_insert_ne. Qed.

Lemma word_agree m m' t i : m' !! t = m !! t -> word m' t i = word m t i.
Proof. unfold word. by intros ->. Qed.
Lemma is_table_agree m m' t : m' !! t = m !! t -> is_table m t -> is_table m' t.
Proof. unfold is_table. by intros ->. Qed.

(** * Trees of tables *)

(** A hierarchy of tables: [N] maps a path, the indexes from the table up to
    the root, to the frame of the table there.  [dom] says which entries of a
    table belong to the hierarchy; [fl] are the flags of its links. *)
Abbreviation nodes := (gmap (list Z) Z).

Record tree (m : gmap Z (list Z)) (fl : Z) (dom : list Z -> Z -> bool) (N : nodes) : Prop := {
  tr_shape : forall i p f, N !! (i :: p) = Some f ->
    (length p < 3)%nat /\ index i /\ dom p i = true /\ is_Some (N !! p);
  tr_inj : forall p q f, N !! p = Some f -> N !! q = Some f -> p = q;
  tr_table : forall p f, N !! p = Some f -> is_frame f /\ is_table m f;
  tr_link : forall p f i, N !! p = Some f -> (length p < 3)%nat -> index i -> dom p i = true ->
    word m f i = Some (match N !! (i :: p) with Some g => Z.lor g fl | None => 0 end);
}.

Lemma tree_agree m m' fl dom N :
  (forall p f, N !! p = Some f -> m' !! f = m !! f) -> tree m fl dom N -> tree m' fl dom N.
Proof.
  intros Ha [T1 T2 T3 T4]. split; [done|done| |].
  - intros p f Hp. destruct (T3 _ _ Hp). split; [done|]. apply (is_table_agree m); eauto.
  - intros p f i Hp Hl Hi Hd. rewrite <- (T4 p f i) by done. apply word_agree. eauto.
Qed.

(** A write outside the links: in a lowest table, or outside the domain. *)
Lemma tree_write m fl dom N t i v :
  tree m fl dom N -> index i ->
  (forall p, N !! p = Some t -> (length p < 3)%nat -> dom p i = false) ->
  tree (write m t i v) fl dom N.
Proof.
  intros [T1 T2 T3 T4] Hi Hout. split; [done|done| |].
  - intros p f Hp. destruct (T3 _ _ Hp). split; [done|]. by apply is_table_write.
  - intros p f j Hp Hl Hj Hd. rewrite <- (T4 p f j) by done. apply word_write_ne; [done..|].
    destruct (decide (t = f)) as [->|]; [|by left]. right. intros ->.
    rewrite (Hout p) in Hd by done. done.
Qed.

(** A new table below an absent entry. *)
Lemma tree_add m fl dom N p t i f :
  tree m fl dom N -> N !! p = Some t -> (length p < 3)%nat -> index i -> dom p i = true ->
  N !! (i :: p) = None -> is_frame f -> (forall q, N !! q <> Some f) -> is_table m f ->
  (forall j, index j -> word m f j = Some 0) ->
  tree (write m t i (Z.lor f fl)) fl dom (<[i :: p := f]> N).
Proof.
  intros [T1 T2 T3 T4] Hp Hl Hi Hd Hnone Hf Hfresh Htab Hzero.
  assert (Hchild : forall j, N !! (j :: i :: p) = None).
  { intros j. destruct (N !! (j :: i :: p)) eqn:E; [|done].
    apply T1 in E as (_ & _ & _ & [g Hg]). congruence. }
  assert (Htf : t <> f) by (intros ->; by apply (Hfresh p)).
  split.
  - intros j q g. rewrite lookup_insert_Some. intros [[E ->]|[Hne E]].
    + injection E as -> ->. split; [done|]. split; [done|]. split; [done|].
      rewrite lookup_insert_ne by (intros E; apply (f_equal length) in E; cbn in E; lia). eauto.
    + destruct (T1 _ _ _ E) as (? & ? & ? & ?). split; [done|]. split; [done|]. split; [done|].
      destruct (decide (q = i :: p)) as [->|]; [by rewrite lookup_insert_eq|].
      by rewrite lookup_insert_ne.
  - intros q1 q2 g. rewrite !lookup_insert_Some.
    intros [[<- <-]|[H1 E1]] [[<- E2]|[H2 E2]]; [done|by destruct (Hfresh q2)|by subst; destruct (Hfresh q1)|eauto].
  - intros q g. rewrite lookup_insert_Some. intros [[<- <-]|[_ E]].
    + split; [done|]. by apply is_table_write.
    + destruct (T3 _ _ E). split; [done|]. by apply is_table_write.
  - intros q g j. rewrite lookup_insert_Some. intros [[<- <-]|[Hne E]] Hlq Hj Hdj.
    + rewrite word_write_ne by (first [done|by left]). rewrite Hzero by done.
      rewrite lookup_insert_ne by (intros X; apply (f_equal length) in X; cbn in X; lia).
      by rewrite Hchild.
    + destruct (decide (j :: q = i :: p)) as [X|X].
      * injection X as -> ->. simplify_eq. rewrite lookup_insert_eq.
        apply word_write_eq; [by eapply T3|done].
      * rewrite lookup_insert_ne by done. rewrite <- (T4 q g j) by done.
        apply word_write_ne; [done..|]. destruct (decide (t = g)) as [->|]; [|by left].
        right. intros ->. apply X. f_equal. eauto.
Qed.

(** A table without tables below it is removed with its link. *)
Lemma tree_remove m fl dom N p t i :
  tree m fl dom N -> N !! p = Some t -> (length p < 3)%nat -> index i -> dom p i = true ->
  (forall j, N !! (j :: i :: p) = None) ->
  tree (write m t i 0) fl dom (delete (i :: p) N).
Proof.
  intros [T1 T2 T3 T4] Hp Hl Hi Hd Hleaf. split.
  - intros j q g. rewrite lookup_delete_Some. intros [Hne E].
    destruct (T1 _ _ _ E) as (? & ? & ? & ?). split; [done|]. split; [done|]. split; [done|].
    rewrite lookup_delete_ne; [done|]. intros <-. by rewrite Hleaf in E.
  - intros q1 q2 g. rewrite !lookup_delete_Some. intros [_ ?] [_ ?]. eauto.
  - intros q g. rewrite lookup_delete_Some. intros [_ E]. destruct (T3 _ _ E). split; [done|].
    by apply is_table_write.
  - intros q g j. rewrite lookup_delete_Some. intros [Hne E] Hlq Hj Hdj.
    destruct (decide (j :: q = i :: p)) as [X|X].
    + injection X as -> ->. simplify_eq. rewrite lookup_delete_eq.
      apply word_write_eq; [by eapply T3|done].
    + rewrite lookup_delete_ne by done. rewrite <- (T4 q g j) by done.
      apply word_write_ne; [done..|]. destruct (decide (t = g)) as [->|]; [|by left].
      right. intros ->. apply X. f_equal. eauto.
Qed.

(** The child that a present entry names. *)
Lemma tree_child m fl dom N p t i :
  tree m fl dom N -> is_flags fl -> has fl PTE_PRESENT = true ->
  N !! p = Some t -> (length p < 3)%nat -> index i -> dom p i = true ->
  (exists f, N !! (i :: p) = Some f /\ is_frame f /\ word m t i = Some (Z.lor f fl)) \/
  (N !! (i :: p) = None /\ word m t i = Some 0).
Proof.
  intros T Hfl Hpr Hp Hl Hi Hd. pose proof (tr_link _ _ _ _ T p t i Hp Hl Hi Hd) as E.
  destruct (N !! (i :: p)) as [f|] eqn:Ef; [left|by right].
  exists f. split; [done|]. split; [|done]. eapply T; eauto.
Qed.

Lemma tree_suffix m fl dom N q p : tree m fl dom N -> is_Some (N !! (q ++ p)) -> is_Some (N !! p).
Proof.
  intros T. induction q as [|i q IH]; cbn; [done|]. intros [f Hf].
  apply IH. by eapply (tr_shape _ _ _ _ T).
Qed.

(** * Walks *)

Lemma walk_root m t t' i path u w :
  word m t i = word m t' i -> mmu_walk m t (i :: path) u w = mmu_walk m t' (i :: path) u w.
Proof. cbn. unfold word. by intros ->. Qed.

Lemma walk_step m f i g fl j path u w :
  word m f i = Some (Z.lor g fl) -> is_frame g -> is_flags fl ->
  has fl PTE_PRESENT = true -> has fl PTE_HUGE = false ->
  mmu_walk m f (i :: j :: path) u w =
    mmu_walk m g (j :: path) (u && has fl PTE_USER) (w && has fl PTE_READWRITE).
Proof.
  intros E Hg Hfl Hp Hh. cbn [mmu_walk]. unfold word in E. rewrite E. cbn [mbind option_bind].
  rewrite !pte_has by (first [done|flags]). rewrite Hp, Hh. cbn [negb]. by rewrite pte_frame.
Qed.

Lemma walk_absent m f i path u w : word m f i = Some 0 -> mmu_walk m f (i :: path) u w = None.
Proof. intros E. cbn. unfold word in E. by rewrite E. Qed.

(** What a last-level entry translates to. *)
Definition leaf_translation (e : Z) (u w : bool) : option translation :=
  if has e PTE_PRESENT
  then Some (Translation (Z.land e PTE_FRAME_MASK) (u && has e PTE_USER) (w && has e PTE_READWRITE))
  else None.

Lemma walk_leaf m f i e u w : word m f i = Some e -> mmu_walk m f [i] u w = leaf_translation e u w.
Proof.
  intros E. cbn. unfold word in E. rewrite E. unfold leaf_translation. cbn [mbind option_bind].
  by destruct (has e PTE_PRESENT).
Qed.

(** The walk of a tree: the entry of the table at the path, if there is one. *)
Lemma tree_walk m fl dom N r a b c d :
  tree m fl dom N -> is_flags fl -> has fl PTE_PRESENT = true -> has fl PTE_HUGE = false ->
  N !! [] = Some r -> index a -> index b -> index c -> index d ->
  dom [] a = true -> dom [a] b = true -> dom [b; a] c = true ->
  mmu_walk m r [a; b; c; d] true true =
    match N !! [c; b; a] with
    | Some t => match word m t d with
                | Some e => leaf_translation e (has fl PTE_USER) (has fl PTE_READWRITE)
                | None => None end
    | None => None
    end.
Proof.
  intros T Hfl Hp Hh Hr Ha Hb Hc Hd Da Db Dc.
  assert (Hno : forall i p, N !! p = None -> N !! (i :: p) = None).
  { intros i p E. destruct (N !! (i :: p)) eqn:E'; [|done].
    apply (tr_shape _ _ _ _ T) in E' as (_ & _ & _ & [? ?]). congruence. }
  destruct (tree_child _ _ _ _ [] r a T) as [(f & Ef & Hf & Wf)|[En W]]; try done; [cbn; lia| |].
  2: { rewrite walk_absent by done. by rewrite (Hno c [b; a]) by (by apply Hno). }
  rewrite (walk_step _ _ _ _ _ _ _ _ _ Wf) by done.
  destruct (tree_child _ _ _ _ [a] f b T) as [(g & Eg & Hg & Wg)|[En W]]; try done; [cbn; lia| |].
  2: { rewrite walk_absent by done. by rewrite (Hno c [b; a]). }
  rewrite (walk_step _ _ _ _ _ _ _ _ _ Wg) by done.
  destruct (tree_child _ _ _ _ [b; a] g c T) as [(h & Eh & Hhh & Wh)|[En W]]; try done; [cbn; lia| |].
  2: { rewrite walk_absent by done. by rewrite En. }
  rewrite (walk_step _ _ _ _ _ _ _ _ _ Wh) by done. rewrite Eh.
  destruct (table_word m h d) as [e He]; [by eapply (tr_table _ _ _ _ T)|done|].
  rewrite He, (walk_leaf _ _ _ _ _ _ He). by destruct (has fl PTE_USER), (has fl PTE_READWRITE).
Qed.

(** * Pages *)

(** A tree with the entries of its lowest tables: [L] maps the path of an entry
    to its value, absent entries are 0. *)
Record paged (m : gmap Z (list Z)) (fl : Z) (dom : list Z -> Z -> bool) (N L : nodes) : Prop := {
  pg_tree : tree m fl dom N;
  pg_shape : forall q e, L !! q = Some e ->
    exists i p, q = i :: p /\ length p = 3%nat /\ index i /\ is_Some (N !! p);
  pg_entry : forall p t i, N !! p = Some t -> length p = 3%nat -> index i ->
    word m t i = Some (default 0 (L !! (i :: p)));
}.

Lemma paged_agree m m' fl dom N L :
  (forall p f, N !! p = Some f -> m' !! f = m !! f) -> paged m fl dom N L -> paged m' fl dom N L.
Proof.
  intros Ha [T S E]. split; [by apply (tree_agree m)|done|].
  intros p t i Hp Hl Hi. rewrite <- (E p t i) by done. apply word_agree. eauto.
Qed.

Lemma paged_add m fl dom N L p t i f :
  paged m fl dom N L -> N !! p = Some t -> (length p < 3)%nat -> index i -> dom p i = true ->
  N !! (i :: p) = None -> is_frame f -> (forall q, N !! q <> Some f) -> is_table m f ->
  (forall j, index j -> word m f j = Some 0) ->
  paged (write m t i (Z.lor f fl)) fl dom (<[i :: p := f]> N) L.
Proof.
  intros [T S E] Hp Hl Hi Hd Hn Hf Hfr Ht Hz. split; [by apply tree_add| |].
  - intros q e Hq. destruct (S _ _ Hq) as (j & p' & -> & ? & ? & Hp'). exists j, p'.
    split; [done|]. split; [done|]. split; [done|].
    destruct (decide (p' = i :: p)) as [->|]; [by rewrite lookup_insert_eq|].
    by rewrite lookup_insert_ne.
  - intros q u j. rewrite lookup_insert_Some. intros [[<- <-]|[Hne Hq]] Hlq Hj.
    + rewrite word_write_ne by (first [done|left; intros ->; by apply (Hfr p)]).
      rewrite Hz by done. destruct (L !! (j :: i :: p)) eqn:EL; [|done].
      destruct (S _ _ EL) as (? & ? & X & _ & _ & [? ?]). injection X as <- <-. congruence.
    + rewrite <- (E q u j) by done. apply word_write_ne; [done..|]. left. intros ->.
      pose proof (tr_inj _ _ _ _ T _ _ _ Hp Hq) as ->. lia.
Qed.

(** An entry of a lowest table is set, or cleared. *)
Definition put (q : list Z) (e : Z) (L : nodes) : nodes := if e =? 0 then delete q L else <[q := e]> L.
Lemma put_lookup q e L q' :
  default 0 (put q e L !! q') = if decide (q' = q) then e else default 0 (L !! q').
Proof.
  unfold put. destruct (Z.eqb_spec e 0) as [->|]; case_decide as E; subst.
  - by rewrite lookup_delete_eq.
  - by rewrite lookup_delete_ne.
  - by rewrite lookup_insert_eq.
  - by rewrite lookup_insert_ne.
Qed.
Lemma paged_put_insert q e L : (e =? 0) = false -> put q e L = <[q := e]> L.
Proof. unfold put. by intros ->. Qed.
Lemma paged_put m fl dom N L p t i e :
  paged m fl dom N L -> N !! p = Some t -> length p = 3%nat -> index i ->
  paged (write m t i e) fl dom N (put (i :: p) e L).
Proof.
  intros [T S E] Hp Hl Hi. split.
  - apply tree_write; [done|done|]. intros q Hq Hlq.
    pose proof (tr_inj _ _ _ _ T _ _ _ Hp Hq) as ->. lia.
  - intros q e' Hq. unfold put in Hq. destruct (e =? 0).
    + apply lookup_delete_Some in Hq as [_ Hq]. eauto.
    + apply lookup_insert_Some in Hq as [[<- <-]|[_ Hq]]; [|eauto]. exists i, p. eauto.
  - intros q u j Hq Hlq Hj. rewrite put_lookup. case_decide as X.
    + injection X as -> ->. simplify_eq. apply word_write_eq; [by eapply T|done].
    + rewrite <- (E q u j) by done. apply word_write_ne; [done..|].
      destruct (decide (t = u)) as [->|]; [|by left]. right. intros ->. apply X.
      by rewrite (tr_inj _ _ _ _ T _ _ _ Hp Hq).
Qed.

Lemma paged_write_out m fl dom N L t i v :
  paged m fl dom N L -> index i ->
  (forall p, N !! p = Some t -> (length p < 3)%nat /\ dom p i = false) ->
  paged (write m t i v) fl dom N L.
Proof.
  intros [T S E] Hi Hout. split; [|done|].
  - apply tree_write; [done|done|]. intros p Hp _. by apply Hout.
  - intros q u j Hq Hlq Hj. rewrite <- (E q u j) by done. apply word_write_ne; [done..|].
    left. intros ->. destruct (Hout _ Hq). lia.
Qed.

Lemma paged_remove m fl dom N L p t i f :
  paged m fl dom N L -> N !! p = Some t -> (length p < 3)%nat -> index i -> dom p i = true ->
  N !! (i :: p) = Some f -> (forall j, N !! (j :: i :: p) = None) ->
  (forall j, L !! (j :: i :: p) = None) ->
  paged (write m t i 0) fl dom (delete (i :: p) N) L.
Proof.
  intros [T S E] Hp Hl Hi Hd Hf Hn HL. split; [by apply tree_remove| |].
  - intros q e Hq. destruct (S _ _ Hq) as (j & p' & -> & ? & ? & Hp'). exists j, p'.
    split; [done|]. split; [done|]. split; [done|].
    rewrite lookup_delete_ne; [done|]. intros <-. by rewrite HL in Hq.
  - intros q u j. rewrite lookup_delete_Some. intros [Hne Hq] Hlq Hj.
    rewrite <- (E q u j) by done. apply word_write_ne; [done..|]. left. intros ->.
    pose proof (tr_inj _ _ _ _ T _ _ _ Hp Hq) as ->. lia.
Qed.

Lemma paged_none m fl dom N L i q p : paged m fl dom N L -> N !! p = None -> L !! (i :: q ++ p) = None.
Proof.
  intros P Hp. destruct (L !! (i :: q ++ p)) eqn:E; [|done].
  destruct (pg_shape _ _ _ _ _ P _ _ E) as (? & ? & X & _ & _ & Hs). injection X as <- <-.
  apply (tree_suffix _ _ _ _ _ _ (pg_tree _ _ _ _ _ P)) in Hs as [? ?]. congruence.
Qed.

(** The path of the entry of an address. *)
Definition vpath (va : Z) : list Z := [ix 12 va; ix 21 va; ix 30 va; ix 39 va].
Definition vdir (va : Z) : list Z := [ix 21 va; ix 30 va; ix 39 va].
Lemma vpath_eq va : vpath va = ix 12 va :: vdir va.
Proof. done. Qed.

Definition translate (fl : Z) (o : option Z) : option translation :=
  match o with
  | Some e => leaf_translation e (has fl PTE_USER) (has fl PTE_READWRITE)
  | None => None
  end.

Lemma paged_walk m fl dom N L r va :
  paged m fl dom N L -> is_flags fl -> has fl PTE_PRESENT = true -> has fl PTE_HUGE = false ->
  N !! [] = Some r -> (forall i p, dom (i :: p) = fun _ => true) -> dom [] (ix 39 va) = true ->
  mmu_walk m r (path_of va) true true = translate fl (L !! vpath va).
Proof.
  intros [T S E] Hfl Hp Hh Hr Hdom Hd. unfold path_of.
  rewrite (tree_walk m fl dom N r) by (first [done|apply ix_index|by rewrite Hdom]).
  fold (vdir va). rewrite vpath_eq. destruct (N !! vdir va) as [t|] eqn:Et.
  - rewrite (E (vdir va) t) by (first [done|apply ix_index]).
    destruct (L !! (ix 12 va :: vdir va)); cbn; [done|]. by destruct (has fl PTE_USER).
  - destruct (L !! (ix 12 va :: vdir va)) eqn:EL; [|done].
    destruct (S _ _ EL) as (? & ? & X & _ & _ & [? ?]). injection X; intros; subst.
    congruence.
Qed.

(** Two canonical lower-half addresses have the same path exactly when they are
    in the same page. *)
Lemma ix_mod k va : 0 <= k -> ix k va = (va / 2 ^ k) mod 512.
Proof.
  intros Hk. unfold ix. change 0x1ff with (Z.ones 9). rewrite Z.land_ones, Z.shiftr_div_pow2 by lia.
  done.
Qed.
Lemma vpath_page va va' :
  0 <= va < 2 ^ 48 -> 0 <= va' < 2 ^ 48 -> (vpath va = vpath va' <-> page_of va = page_of va').
Proof.
  intros H H'. unfold vpath, page_of, VMM_PAGE_SIZE. rewrite !ix_mod by lia. split.
  - intros X. injection X as E1 E2 E3 E4. revert E1 E2 E3 E4.
    change (2 ^ 12) with 4096. change (2 ^ 21) with (4096 * 512).
    change (2 ^ 30) with (4096 * 512 * 512). change (2 ^ 39) with (4096 * 512 * 512 * 512).
    rewrite <- !Z.div_div by lia.
    assert (0 <= va / 4096 < 2 ^ 36) by (split; [apply Z.div_pos|apply Z.div_lt_upper_bound]; lia).
    assert (0 <= va' / 4096 < 2 ^ 36) by (split; [apply Z.div_pos|apply Z.div_lt_upper_bound]; lia).
    change 0x1000 with 4096. generalize dependent (va / 4096). generalize dependent (va' / 4096).
    intros y Hy x Hx. Z.div_mod_to_equations. lia.
  - change 0x1000 with 4096. intros E.
    change (2 ^ 12) with 4096. change (2 ^ 21) with (4096 * 512).
    change (2 ^ 30) with (4096 * (512 * 512)). change (2 ^ 39) with (4096 * (512 * 512 * 512)).
    by rewrite <- !Z.div_div, E by lia.
Qed.

End VmmTree.
