(* ===== verification/VmmInv.v ===== *)
(** The invariant of the virtual memory manager: who owns which frame, the page
    tables of the kernel and of every process as trees over the frames they own,
    and the CPUs' masks. *)
From stdpp Require Import gmap.
From S2P Require Import Prelude Pmm Vmm VmmTree.
Import Pmm Vmm VmmTree.

Module VmmInv.

(** * What the frame allocator promises *)

(** [held a p]: frame [p] is handed out. *)
Class AllocatorLaws (A : Type) `{!FrameAllocator A} := {
  alloc_ok : A -> Prop;
  held : A -> Z -> Prop;
  alloc_spec : forall a, alloc_ok a -> exists p a', alloc_frame a = Some (p, a') /\ alloc_ok a' /\
    ((p = 0 /\ forall q, held a' q <-> held a q) \/
     (is_frame p /\ ~ held a p /\ forall q, held a' q <-> q = p \/ held a q));
  free_spec : forall a p, alloc_ok a -> held a p -> exists a', free_frame a p = Some a' /\
    alloc_ok a' /\ forall q, held a' q <-> held a q /\ q <> p;
}.

(** * Ownership *)

(** A frame that is handed out is a table of the kernel, a table or a leaf of
    the process in a record, or held by some caller. *)
Inductive owner := OKernel | OTable (k : nat) | OLeaf (k : nat) | OHeld.
#[export] Instance owner_eq_dec : EqDecision owner.
Proof. solve_decision. Defined.

(** The kernel's tables and entries, those of every record, and the owners. *)
Record ghost := Ghost {
  gK : nodes; gKL : nodes; gN : nat -> nodes; gL : nat -> nodes; gown : gmap Z owner }.

Definition with_own (own : gmap Z owner) (g : ghost) : ghost :=
  Ghost (gK g) (gKL g) (gN g) (gL g) own.
Definition upd {B} (k : nat) (x : B) (f : nat -> B) (j : nat) : B := if decide (j = k) then x else f j.
Definition with_space (k : nat) (N L : nodes) (own : gmap Z owner) (g : ghost) : ghost :=
  Ghost (gK g) (gKL g) (upd k N (gN g)) (upd k L (gL g)) own.
Definition with_kernel (K KL : nodes) (own : gmap Z owner) (g : ghost) : ghost :=
  Ghost K KL (gN g) (gL g) own.

Lemma slot_upd_eq {B} k (x : B) f : upd k x f k = x.
Proof. unfold upd. by rewrite decide_True. Qed.
Lemma slot_upd_ne {B} k (x : B) f j : j <> k -> upd k x f j = f j.
Proof. intros. unfold upd. by rewrite decide_False. Qed.

(** * Address spaces *)

Definition user_dom (p : list Z) (i : Z) : bool := match p with [] => i <? 256 | _ => true end.
Definition kernel_dom (p : list Z) (i : Z) : bool := true.
Definition user_flags (fl : Z) : Prop :=
  is_flags fl /\ has fl PTE_USER = true /\ has fl PTE_PRESENT = true.
Definition pte_of (e : Z) : Z := Z.land e PTE_FRAME_MASK.

(** [own] owns for [k] exactly the tables and leaves that record [md] lists, and
    those are exactly what is reachable from its root.  A shared slot holds the
    kernel's entry, or nothing yet. *)
Record space_ok (m : gmap Z (list Z)) (kroot : Z) (own : gmap Z owner) (k : nat) (md : metadata)
    (N L : nodes) : Prop := {
  sp_root : N !! [] = Some (root md);
  sp_paged : paged m USER_LINK user_dom N L;
  sp_own : forall f, own !! f = Some (OTable k) <-> exists p, N !! p = Some f;
  sp_tables : forall f, f ∈ tables md <-> exists p, p <> [] /\ N !! p = Some f;
  sp_tables_nodup : NoDup (tables md);
  sp_pte : forall q e, L !! q = Some e ->
    exists f fl, e = Z.lor f fl /\ is_frame f /\ user_flags fl /\ f ∈ leaves md;
  sp_pte_inj : forall q q' e e', L !! q = Some e -> L !! q' = Some e' -> pte_of e = pte_of e' -> q = q';
  sp_leaves : forall f, f ∈ leaves md -> exists q e, L !! q = Some e /\ pte_of e = f;
  sp_leaf_own : forall f, own !! f = Some (OLeaf k) <-> f ∈ leaves md;
  sp_leaves_nodup : NoDup (leaves md);
  sp_high : forall i, 256 <= i < 512 ->
    word m (root md) i = Some 0 \/
    (vmm_kernel_shared_pml4_index i = true /\ word m (root md) i = word m kroot i);
}.

(** The mask of a record holds one bit per CPU. *)
Definition mask_wf (m : list Z) : Prop := length m = VMM_CPU_MASK_WORDS /\ Forall is_u64 m.

Definition cpu_view (x : cpu) : Z * bool := (current_pml4 x, online x).

Section invariant.
Context {A : Type} `{!FrameAllocator A, !AllocatorLaws A}.
Implicit Types (s : vmm A) (g : ghost).

Record inv s g : Prop := {
  iv_alloc : alloc_ok (frames s);
  iv_held : forall f o, gown g !! f = Some o -> held (frames s) f;
  iv_kroot : gK g !! [] = Some (kernel_pml4 s);
  iv_kpaged : paged (mem s) KERNEL_LINK kernel_dom (gK g) (gKL g);
  iv_kown : forall p f, gK g !! p = Some f -> gown g !! f = Some OKernel;
  iv_kslots : forall i f, gK g !! [i] = Some f -> vmm_kernel_shared_pml4_index i = true;
  iv_kpte : forall q e, gKL g !! q = Some e -> has e PTE_PRESENT = true /\ has e PTE_USER = false;
  iv_length : length (address_space_metadata s) = VMM_MAX_PROCESS_METADATA;
  iv_unused : forall k md, address_space_metadata s !! k = Some md -> root md = 0 ->
    tables md = [] /\ leaves md = [] /\
    forall f, gown g !! f <> Some (OTable k) /\ gown g !! f <> Some (OLeaf k);
  iv_space : forall k md, address_space_metadata s !! k = Some md -> root md <> 0 ->
    space_ok (mem s) (kernel_pml4 s) (gown g) k md (gN g k) (gL g k);
  iv_mask_wf : forall k md, address_space_metadata s !! k = Some md -> mask_wf (active_cpu_mask md);
  iv_mask : forall k md c, address_space_metadata s !! k = Some md -> root md <> 0 ->
    0 <= c < CPU_MAX_COUNT ->
    mask_test (active_cpu_mask md) c = true <->
    cpu_view <$> cpus s !! Z.to_nat c = Some (root md, true);
  iv_current : forall (c : nat) p b, cpu_view <$> cpus s !! c = Some (p, b) ->
    p = 0 \/ p = kernel_pml4 s \/
    (b = true /\ exists k md, address_space_metadata s !! k = Some md /\ root md = p);
  iv_cpus : Z.of_nat (length (cpus s)) <= CPU_MAX_COUNT;
}.

(** ** Facts *)

Lemma kernel_frame s g p f : inv s g -> gK g !! p = Some f -> is_frame f.
Proof. intros I Hp. by eapply (tr_table _ _ _ _ (pg_tree _ _ _ _ _ (iv_kpaged _ _ I))). Qed.

Lemma kroot_nonzero s g : inv s g -> kernel_pml4 s <> 0.
Proof. intros I E. destruct (kernel_frame _ _ _ _ I (iv_kroot _ _ I)) as [? _]. lia. Qed.

Lemma space_frame m kr own k md N L p f : space_ok m kr own k md N L -> N !! p = Some f -> is_frame f.
Proof. intros S Hp. by eapply (tr_table _ _ _ _ (pg_tree _ _ _ _ _ (sp_paged _ _ _ _ _ _ _ S))). Qed.

Lemma root_owned s g k md :
  inv s g -> address_space_metadata s !! k = Some md -> root md <> 0 ->
  gown g !! root md = Some (OTable k).
Proof.
  intros I Hk Hr. pose proof (iv_space _ _ I _ _ Hk Hr) as S. apply (sp_own _ _ _ _ _ _ _ S).
  exists []. apply S.
Qed.

Lemma root_not_kernel s g k md :
  inv s g -> address_space_metadata s !! k = Some md -> root md <> 0 -> root md <> kernel_pml4 s.
Proof.
  intros I Hk Hr E. pose proof (root_owned _ _ _ _ I Hk Hr) as H1.
  pose proof (iv_kown _ _ I _ _ (iv_kroot _ _ I)) as H2. congruence.
Qed.

Lemma roots_distinct s g k md k' md' :
  inv s g -> address_space_metadata s !! k = Some md -> address_space_metadata s !! k' = Some md' ->
  root md <> 0 -> root md = root md' -> k = k'.
Proof.
  intros I Hk Hk' Hr E. pose proof (root_owned _ _ _ _ I Hk Hr) as H1.
  rewrite E in Hr, H1. pose proof (root_owned _ _ _ _ I Hk' Hr) as H2. congruence.
Qed.

Lemma find_root_spec l p k :
  find_root l p = Some k -> exists md, l !! k = Some md /\ root md = p.
Proof.
  revert k. induction l as [|md l IH]; intros k; cbn; [done|].
  destruct (Z.eqb_spec (root md) p) as [E|]; [intros [= <-]; by exists md|].
  destruct (find_root l p) as [j|]; [|done]. intros [= <-]. cbn. by apply IH.
Qed.
Lemma find_root_none l p k md : find_root l p = None -> l !! k = Some md -> root md <> p.
Proof.
  revert k. induction l as [|x l IH]; intros k; cbn; [done|].
  destruct (Z.eqb_spec (root x) p) as [E|]; [done|].
  destruct (find_root l p) as [j|]; [done|]. intros _. destruct k; cbn; [congruence|]. by apply IH.
Qed.

Lemma find_space s g k md :
  inv s g -> address_space_metadata s !! k = Some md -> root md <> 0 ->
  vmm_metadata_find s (root md) = Some k.
Proof.
  intros I Hk Hr. unfold vmm_metadata_find.
  destruct (find_root _ (root md)) as [j|] eqn:E.
  - apply find_root_spec in E as (md' & Hj & E). f_equal. eapply (roots_distinct s g); eauto; congruence.
  - by destruct (find_root_none _ _ _ _ E Hk).
Qed.

(** ** Preservation *)

(** A change of the memory and of the owners that leaves a space alone. *)
Lemma space_ok_frame m m' kr own own' k md N L :
  space_ok m kr own k md N L ->
  (forall f, own !! f = Some (OTable k) -> m' !! f = m !! f) ->
  (forall f, own' !! f = Some (OTable k) <-> own !! f = Some (OTable k)) ->
  (forall f, own' !! f = Some (OLeaf k) <-> own !! f = Some (OLeaf k)) ->
  (forall i, 256 <= i < 512 -> word m' kr i = word m kr i \/ word m kr i = Some 0) ->
  space_ok m' kr own' k md N L.
Proof.
  intros S Hm Ht Hl Hk.
  assert (Hmr : m' !! root md = m !! root md).
  { apply Hm, (sp_own _ _ _ _ _ _ _ S). exists []. apply S. }
  destruct S as [S1 S2 S3 S4 S5 S6 S7 S8 S9 S10 S11]. split; try done.
  - apply (paged_agree m); [|done]. intros p f Hp. apply Hm, S3. eauto.
  - intros f. by rewrite Ht.
  - intros f. by rewrite Hl.
  - intros i Hi. rewrite (word_agree m m') by done. destruct (S11 i Hi) as [E|[E1 E2]]; [by left|].
    destruct (Hk i Hi) as [->|E]; [by right|]. left. congruence.
Qed.

(** The records see the CPUs through what they run. *)
Definition cpus_agree s s' : Prop := cpu_view <$> cpus s' = cpu_view <$> cpus s.

Lemma cpus_agree_lookup s s' c : cpus_agree s s' -> cpu_view <$> cpus s' !! c = cpu_view <$> cpus s !! c.
Proof. intros E. by rewrite <- !list_lookup_fmap, E. Qed.
Lemma cpus_agree_length s s' : cpus_agree s s' -> length (cpus s') = length (cpus s).
Proof. intros E. apply (f_equal length) in E. by rewrite !length_fmap in E. Qed.

(** Nothing but held frames and the memory outside the tables changes. *)
Lemma inv_frame s s' g own' :
  inv s g -> kernel_pml4 s' = kernel_pml4 s ->
  address_space_metadata s' = address_space_metadata s -> cpus_agree s s' ->
  alloc_ok (frames s') -> (forall f o, own' !! f = Some o -> held (frames s') f) ->
  (forall f o, o <> OHeld -> own' !! f = Some o <-> gown g !! f = Some o) ->
  (forall f o, o <> OHeld -> gown g !! f = Some o -> mem s' !! f = mem s !! f) ->
  inv s' (with_own own' g).
Proof.
  intros I Ek Em Ec Ha Hh Ho Hm.
  assert (Hkr : mem s' !! kernel_pml4 s = mem s !! kernel_pml4 s).
  { apply (Hm _ OKernel); [done|]. by apply (iv_kown _ _ I [] _), I. }
  split; cbn; rewrite ?Ek, ?Em; try (by apply I).
  - done.
  - done.
  - apply (paged_agree (mem s)); [|by apply I]. intros p f Hp. apply (Hm _ OKernel); [done|].
    by eapply (iv_kown _ _ I).
  - intros p f Hp. apply Ho; [done|]. by eapply (iv_kown _ _ I).
  - intros k md Hk Hr. destruct (iv_unused _ _ I k md Hk Hr) as (? & ? & Hf). split; [done|].
    split; [done|]. intros f. destruct (Hf f) as [F1 F2]. rewrite !Ho by done. done.
  - intros k md Hk Hr. apply (space_ok_frame (mem s) _ _ (gown g)); [by apply I| | | |].
    + intros f Hf. by apply (Hm _ (OTable k)).
    + intros f. by apply Ho.
    + intros f. by apply Ho.
    + intros i Hi. left. by apply word_agree.
  - intros k md c Hk Hr Hc. rewrite (cpus_agree_lookup s s') by done. by apply (iv_mask _ _ I k md).
  - intros c p b. rewrite (cpus_agree_lookup s s') by done. apply (iv_current _ _ I).
  - rewrite (cpus_agree_length s s') by done. apply I.
Qed.

(** One record changes, with the frames its space owns. *)
Lemma inv_space_change s s' g k md md' N' L' own' :
  inv s g -> address_space_metadata s !! k = Some md ->
  address_space_metadata s' = <[k := md']> (address_space_metadata s) ->
  kernel_pml4 s' = kernel_pml4 s -> cpus_agree s s' ->
  root md' = root md -> root md <> 0 -> active_cpu_mask md' = active_cpu_mask md ->
  alloc_ok (frames s') -> (forall f o, own' !! f = Some o -> held (frames s') f) ->
  (forall f o, o <> OHeld -> o <> OTable k -> o <> OLeaf k ->
     own' !! f = Some o <-> gown g !! f = Some o) ->
  (forall f o, o <> OHeld -> o <> OTable k -> gown g !! f = Some o -> mem s' !! f = mem s !! f) ->
  space_ok (mem s') (kernel_pml4 s) own' k md' N' L' ->
  inv s' (with_space k N' L' own' g).
Proof.
  intros I Hk Em Ek Ec Hroot Hr0 Hmask Ha Hh Ho Hm S.
  assert (Hkr : mem s' !! kernel_pml4 s = mem s !! kernel_pml4 s).
  { apply (Hm _ OKernel); [done|done|]. by apply (iv_kown _ _ I [] _), I. }
  assert (Hlook : forall j mdj, address_space_metadata s' !! j = Some mdj ->
    (j = k /\ mdj = md') \/ (j <> k /\ address_space_metadata s !! j = Some mdj)).
  { intros j mdj. rewrite Em. intros E. destruct (decide (j = k)) as [->|]; [left|right].
    - rewrite list_lookup_insert_eq in E by (by eapply lookup_lt_Some). by simplify_eq.
    - by rewrite list_lookup_insert_ne in E. }
  split; cbn; rewrite ?Ek; try (by apply I).
  - done.
  - done.
  - apply (paged_agree (mem s)); [|by apply I]. intros p f Hp. apply (Hm _ OKernel); [done|done|].
    by eapply (iv_kown _ _ I).
  - intros p f Hp. apply Ho; [done..|]. by eapply (iv_kown _ _ I).
  - rewrite Em, length_insert. apply I.
  - intros j mdj Hj Hr. destruct (Hlook _ _ Hj) as [[-> ->]|[Hne Hj']]; [congruence|].
    destruct (iv_unused _ _ I j mdj Hj' Hr) as (? & ? & Hf). split; [done|].
    split; [done|]. intros f. destruct (Hf f) as [F1 F2]. rewrite !Ho by congruence. done.
  - intros j mdj Hj Hr. destruct (Hlook _ _ Hj) as [[-> ->]|[Hne Hj']]; [by rewrite !slot_upd_eq|].
    rewrite !slot_upd_ne by done.
    apply (space_ok_frame (mem s) _ _ (gown g)); [by apply I| | | |].
    + intros f Hf. by apply (Hm _ (OTable j)); [|congruence|].
    + intros f. apply Ho; congruence.
    + intros f. apply Ho; congruence.
    + intros i Hi. left. by apply word_agree.
  - intros j mdj Hj. destruct (Hlook _ _ Hj) as [[-> ->]|[Hne Hj']]; [|by apply (iv_mask_wf _ _ I j)].
    rewrite Hmask. by apply (iv_mask_wf _ _ I k).
  - intros j mdj c Hj Hr Hc. rewrite (cpus_agree_lookup s s') by done.
    destruct (Hlook _ _ Hj) as [[-> ->]|[Hne Hj']]; [|by apply (iv_mask _ _ I j mdj)].
    rewrite Hmask, Hroot in *. by apply (iv_mask _ _ I k md).
  - intros c p b. rewrite (cpus_agree_lookup s s') by done. intros E.
    destruct (iv_current _ _ I _ _ _ E) as [?|[?|[? (j & mdj & Hj & Er)]]]; [by left|by right; left|].
    right; right. split; [done|]. rewrite Em. destruct (decide (j = k)) as [->|].
    + exists k, md'. rewrite list_lookup_insert_eq by (by eapply lookup_lt_Some). split; [done|].
      congruence.
    + exists j, mdj. by rewrite list_lookup_insert_ne.
  - rewrite (cpus_agree_length s s') by done. apply I.
Qed.

(** The kernel's hierarchy changes, its root only where it had no entry. *)
Lemma inv_kernel_change s s' g K' KL' own' :
  inv s g -> address_space_metadata s' = address_space_metadata s ->
  kernel_pml4 s' = kernel_pml4 s -> cpus_agree s s' ->
  alloc_ok (frames s') -> (forall f o, own' !! f = Some o -> held (frames s') f) ->
  (forall f o, o <> OHeld -> o <> OKernel -> own' !! f = Some o <-> gown g !! f = Some o) ->
  (forall f o, o <> OHeld -> o <> OKernel -> gown g !! f = Some o -> mem s' !! f = mem s !! f) ->
  (forall i, 256 <= i < 512 -> word (mem s') (kernel_pml4 s) i = word (mem s) (kernel_pml4 s) i \/
     word (mem s) (kernel_pml4 s) i = Some 0) ->
  K' !! [] = Some (kernel_pml4 s) -> paged (mem s') KERNEL_LINK kernel_dom K' KL' ->
  (forall p f, K' !! p = Some f -> own' !! f = Some OKernel) ->
  (forall i f, K' !! [i] = Some f -> vmm_kernel_shared_pml4_index i = true) ->
  (forall q e, KL' !! q = Some e -> has e PTE_PRESENT = true /\ has e PTE_USER = false) ->
  inv s' (with_kernel K' KL' own' g).
Proof.
  intros I Em Ek Ec Ha Hh Ho Hm Hw HK Hp Hown Hslots Hpte.
  split; cbn; rewrite ?Ek, ?Em; try (by apply I); try done.
  - intros k md Hk Hr. destruct (iv_unused _ _ I k md Hk Hr) as (? & ? & Hf). split; [done|].
    split; [done|]. intros f. destruct (Hf f) as [F1 F2]. rewrite !Ho by done. done.
  - intros k md Hk Hr. apply (space_ok_frame (mem s) _ _ (gown g)); [by apply I| | | |done].
    + intros f Hf. by apply (Hm _ (OTable k)).
    + intros f. by apply Ho.
    + intros f. by apply Ho.
  - intros k md c Hk Hr Hc. rewrite (cpus_agree_lookup s s') by done. by apply (iv_mask _ _ I k md).
  - intros c p b. rewrite (cpus_agree_lookup s s') by done. apply (iv_current _ _ I).
  - rewrite (cpus_agree_length s s') by done. apply I.
Qed.

(** The ghost functions matter only pointwise. *)
Lemma inv_ghost_ext s g g' :
  inv s g -> gK g' = gK g -> gKL g' = gKL g -> gown g' = gown g ->
  (forall j, gN g' j = gN g j) -> (forall j, gL g' j = gL g j) -> inv s g'.
Proof.
  intros [I1 I2 I3 I4 I5 I6 I7 I8 I9 I10 I11 I12 I13 I14] EK EKL Eo EN EL.
  split; rewrite ?EK, ?EKL, ?Eo; try done. intros k md Hk Hr. rewrite EN, EL. by apply I10.
Qed.

(** ** Translations *)

Definition user_address (va : Z) : Prop := 0 <= va < VMM_USER_ADDRESS_LIMIT.
Lemma user_address_ix va : user_address va -> 0 <= ix 39 va < 256.
Proof.
  unfold user_address, VMM_USER_ADDRESS_LIMIT. intros [H1 H2]. rewrite ix_mod by lia.
  change (0x800000000000) with (2 ^ 39 * 256) in H2.
  assert (0 <= va / 2 ^ 39 < 256) by (split; [apply Z.div_pos|apply Z.div_lt_upper_bound]; lia).
  rewrite Z.mod_small by lia. lia.
Qed.

Lemma mmu_user s g k md va :
  inv s g -> address_space_metadata s !! k = Some md -> root md <> 0 -> ix 39 va < 256 ->
  mmu s (root md) va = translate USER_LINK (gL g k !! vpath va).
Proof.
  intros I Hk Hr Hva. pose proof (iv_space _ _ I _ _ Hk Hr) as S. unfold mmu.
  apply (paged_walk _ _ user_dom (gN g k)); try flags; [by apply S|by apply S|]. cbn. lia.
Qed.

Lemma mmu_kernel s g va :
  inv s g -> mmu s (kernel_pml4 s) va = translate KERNEL_LINK (gKL g !! vpath va).
Proof.
  intros I. unfold mmu.
  apply (paged_walk _ _ kernel_dom (gK g)); try flags; [by apply I|by apply I].
Qed.

(** In the upper half a process sees what the kernel sees, or nothing. *)
Lemma mmu_user_high s g k md va :
  inv s g -> address_space_metadata s !! k = Some md -> root md <> 0 -> 256 <= ix 39 va ->
  mmu s (root md) va = None \/
  (vmm_kernel_shared_pml4_index (ix 39 va) = true /\ mmu s (root md) va = mmu s (kernel_pml4 s) va).
Proof.
  intros I Hk Hr Hva. pose proof (iv_space _ _ I _ _ Hk Hr) as S. unfold mmu, path_of.
  destruct (sp_high _ _ _ _ _ _ _ S (ix 39 va)) as [E|[Hs E]].
  - pose proof (ix_index 39 va). unfold index in *. lia.
  - left. by apply walk_absent.
  - right. split; [done|]. by apply walk_root.
Qed.

End invariant.
End VmmInv.
