(* ===== verification/VmmProofs.v ===== *)
(** The sections of the virtual memory manager keep its invariant: frames in and
    out, the path of a user address, new tables. *)
From stdpp Require Import gmap.
From S2P Require Import Prelude Pmm Vmm VmmTree VmmInv.
Import Pmm Vmm VmmTree VmmInv.

Module VmmProofs.

(** * Ownership lists *)

Lemma contains_spec l p : is_frame p -> vmm_owned_contains l p = true <-> p ∈ l.
Proof.
  intros Hp. unfold vmm_owned_contains. rewrite frame_mask by done. rewrite existsb_exists. split.
  - intros (x & Hx & E). apply Z.eqb_eq in E as ->. by apply list_elem_of_In.
  - intros H. exists p. split; [by apply list_elem_of_In|apply Z.eqb_refl].
Qed.
Lemma contains_false l p : is_frame p -> vmm_owned_contains l p = false <-> p ∉ l.
Proof. intros Hp. rewrite <- (contains_spec l p Hp). by destruct (vmm_owned_contains l p). Qed.

Lemma remove_first_spec l p :
  match remove_first l p with
  | Some l' => p ∈ l /\ l ≡ₚ p :: l'
  | None => p ∉ l
  end.
Proof.
  induction l as [|x l IH]; cbn; [by apply not_elem_of_nil|].
  destruct (Z.eqb_spec x p) as [->|Hne]; [split; [apply list_elem_of_here|done]|].
  destruct (remove_first l p) as [l'|]; cbn.
  - destruct IH as [Hin Hp]. split; [by apply list_elem_of_further|]. rewrite Hp. constructor.
  - rewrite elem_of_cons. intros [->|]; [by apply Hne|by apply IH].
Qed.

Lemma single_bit e m k : m = 2 ^ k -> 0 <= k -> has e m = true -> Z.land e m = m.
Proof.
  intros -> Hk Hb. unfold has in Hb. apply Z.bits_inj'. intros n Hn. rewrite Z.land_spec.
  rewrite Z.pow2_bits_eqb by done. destruct (Z.eqb_spec k n) as [<-|]; [|by rewrite andb_false_r].
  rewrite andb_true_r. destruct (Z.testbit e k) eqn:Et; [done|]. exfalso.
  apply negb_true_iff, Z.eqb_neq in Hb. apply Hb. apply Z.bits_inj'. intros j Hj.
  rewrite Z.land_spec, Z.pow2_bits_eqb, Z.bits_0 by done.
  destruct (Z.eqb_spec k j) as [<-|]; [by rewrite Et|apply andb_false_r].
Qed.

Section proofs.
Context {A : Type} `{!FrameAllocator A, !AllocatorLaws A}.
Implicit Types (s : vmm A) (g : ghost).

(** * Words *)

Lemma entry_word s t i : entry s t i = word (mem s) t i.
Proof. done. Qed.

Lemma store_write s t i v :
  is_table (mem s) t -> index i -> store s t i v = Some (set_mem (write (mem s) t i v) s).
Proof using Type.
  intros (ws & E & Hl) Hi. unfold store. rewrite E. cbn [mbind option_bind].
  rewrite decide_True by (rewrite Hl; by apply index_lt). do 2 f_equal.
  unfold write. apply map_eq. intros j. destruct (decide (t = j)) as [<-|].
  - by rewrite lookup_insert_eq, lookup_alter_eq, E.
  - by rewrite lookup_insert_ne, lookup_alter_ne.
Qed.

(** What the operations on tables never touch. *)
Definition same_env s s' : Prop :=
  kernel_pml4 s' = kernel_pml4 s /\ frames s' = frames s /\ cpus s' = cpus s /\
  bootstrap_mapping_active s' = bootstrap_mapping_active s /\ ioremap_next s' = ioremap_next s /\
  direct_map_ready s' = direct_map_ready s /\ vmm_shootdown_request s' = vmm_shootdown_request s.
Lemma vmm_env_refl s : same_env s s.
Proof using Type. done. Qed.
Lemma vmm_env_trans s1 s2 s3 : same_env s1 s2 -> same_env s2 s3 -> same_env s1 s3.
Proof using Type. unfold same_env. intuition congruence. Qed.
Lemma cpus_agree_refl s s' : cpus s' = cpus s -> cpus_agree s s'.
Proof using Type. unfold cpus_agree. by intros ->. Qed.

(** * Frames in and out *)

Definition take_held (f : Z) g : ghost := with_own (<[f := OHeld]> (gown g)) g.
Definition drop_held (f : Z) g : ghost := with_own (delete f (gown g)) g.

(** A held frame that is a table of zeros. *)
Record blank s g (f : Z) : Prop := {
  bl_held : gown g !! f = Some OHeld;
  bl_frame : is_frame f;
  bl_table : is_table (mem s) f;
  bl_zero : forall j, index j -> word (mem s) f j = Some 0;
}.

Lemma alloc_table_spec s g :
  inv s g -> exists t s', vmm_alloc_table s = Some (t, s') /\
    ((t = 0 /\ inv s' g /\ mem s' = mem s /\ frames s' = frames s') \/
     (is_frame t /\ gown g !! t = None /\ inv s' (take_held t g) /\ blank s' (take_held t g) t /\
      mem s' = <[t := zero_table]> (mem s))) /\
    kernel_pml4 s' = kernel_pml4 s /\ address_space_metadata s' = address_space_metadata s /\
    cpus s' = cpus s /\ bootstrap_mapping_active s' = bootstrap_mapping_active s /\
    ioremap_next s' = ioremap_next s.
Proof using All.
  intros I. destruct (alloc_spec _ (iv_alloc _ _ I)) as (p & a & E & Hok & Hp).
  unfold vmm_alloc_table. rewrite E. cbn [mbind option_bind].
  destruct Hp as [[-> Hh]|(Hf & Hn & Hh)].
  - exists 0, (set_frames a s). split; [done|]. split; [|done]. left. split; [done|].
    split; [|done]. replace g with (with_own (gown g) g) by (by destruct g).
    apply (inv_frame s); try done. intros f o Ho. apply Hh. by eapply (iv_held _ _ I).
  - rewrite frame_nonzero by done. eexists p, _. split; [done|]. split; [|done]. right.
    assert (Hnone : gown g !! p = None).
    { destruct (gown g !! p) as [o|] eqn:Eo; [|done]. by destruct Hn; eapply (iv_held _ _ I). }
    split; [done|]. split; [done|]. split; [|split; [|done]].
    + apply (inv_frame s); cbn; try done.
      * intros f o. rewrite lookup_insert_Some. rewrite Hh.
        intros [[-> _]|[_ Ho]]; [by left|]. right. by eapply (iv_held _ _ I).
      * intros f o Hno. rewrite lookup_insert_Some. split; [|].
        -- intros [[_ <-]|[_ ?]]; done.
        -- intros Ho. right. split; [congruence|done].
      * intros f o _ Ho. apply lookup_insert_ne. congruence.
    + split; cbn; [by rewrite lookup_insert_eq|done|apply is_table_fresh|].
      intros j Hj. by apply word_fresh.
Qed.

(** The allocator has [n] frames left. *)
Fixpoint can_alloc (n : nat) (a : A) : bool :=
  match n with
  | O => true
  | S n => match alloc_frame a with Some (p, a) => negb (p =? 0) && can_alloc n a | None => false end
  end.
Lemma can_alloc_less n a : can_alloc (S n) a = true -> can_alloc n a = true.
Proof using Type.
  revert a. induction n as [|n IH]; intros a; [done|]. remember (S n) as m eqn:Em. cbn. subst m.
  destruct (alloc_frame a) as [[p b]|] eqn:E; [|done]. intros H. apply andb_prop in H as [H1 H2].
  cbn. rewrite E, H1. by apply IH.
Qed.

(** A call that takes at most one frame, and succeeds when there is one. *)
Definition spends s (r : Z) s' : Prop :=
  forall n, can_alloc (S n) (frames s) = true -> r <> 0 /\ can_alloc n (frames s') = true.

Lemma alloc_table_spends s t s' : vmm_alloc_table s = Some (t, s') -> spends s t s'.
Proof using Type.
  unfold vmm_alloc_table. intros E n. cbn [can_alloc].
  destruct (alloc_frame (frames s)) as [[p a]|]; [|done]. cbn [mbind option_bind] in E.
  destruct (Z.eqb_spec p 0); cbn [negb andb]; [done|]. by injection E as <- <-.
Qed.

Lemma free_spec' s g p :
  inv s g -> gown g !! p = Some OHeld ->
  exists s', pmm_free s p = Some s' /\ inv s' (drop_held p g) /\ mem s' = mem s /\
    kernel_pml4 s' = kernel_pml4 s /\ address_space_metadata s' = address_space_metadata s /\
    cpus s' = cpus s /\ bootstrap_mapping_active s' = bootstrap_mapping_active s /\
    ~ held (frames s') p /\ forall q, held (frames s') q <-> held (frames s) q /\ q <> p.
Proof using All.
  intros I Hp. destruct (free_spec _ p (iv_alloc _ _ I)) as (a & E & Hok & Hh); [by eapply (iv_held _ _ I)|].
  unfold pmm_free. rewrite E. cbn [mbind option_bind]. eexists. split; [done|].
  split; [|cbn; rewrite Hh; naive_solver].
  apply (inv_frame s); cbn; try done.
  - intros f o. rewrite lookup_delete_Some. intros [Hne Ho]. apply Hh. split; [|congruence].
    by eapply (iv_held _ _ I).
  - intros f o Hno. rewrite lookup_delete_Some. split; [by intros [_ ?]|]. intros Ho.
    split; [congruence|done].
Qed.

(** * The path of a user address *)

Lemma user_link_facts f :
  is_frame f ->
  has (Z.lor f USER_LINK) PTE_PRESENT = true /\ has (Z.lor f USER_LINK) PTE_USER = true /\
  has (Z.lor f USER_LINK) PTE_HUGE = false /\ user_table (Z.lor f USER_LINK) = true /\
  pte_of (Z.lor f USER_LINK) = f /\ vmm_table_from_phys (Z.lor f USER_LINK) = f /\
  user_present (Z.lor f USER_LINK) = true.
Proof using Type.
  intros Hf. unfold user_table, user_present, pte_of.
  rewrite !(pte_has f), (pte_frame f), (from_phys_pte f), !(pte_flags f) by (first [done|flags]). done.
Qed.

Lemma kernel_link_facts f :
  is_frame f ->
  has (Z.lor f KERNEL_LINK) PTE_PRESENT = true /\ has (Z.lor f KERNEL_LINK) PTE_USER = false /\
  has (Z.lor f KERNEL_LINK) PTE_HUGE = false /\ pte_of (Z.lor f KERNEL_LINK) = f /\
  vmm_table_from_phys (Z.lor f KERNEL_LINK) = f /\ supervisor_table (Z.lor f KERNEL_LINK) = true /\
  supervisor_link (Z.lor f KERNEL_LINK) = true.
Proof using Type.
  intros Hf. unfold supervisor_table, supervisor_link, pte_of.
  rewrite !(pte_has f), (pte_frame f), (from_phys_pte f), !(pte_flags f) by (first [done|flags]). done.
Qed.

Lemma user_pte_facts f fl :
  is_frame f -> user_flags fl ->
  has (Z.lor f fl) PTE_PRESENT = true /\ has (Z.lor f fl) PTE_USER = true /\
  user_present (Z.lor f fl) = true /\ pte_of (Z.lor f fl) = f /\ (Z.lor f fl =? 0) = false.
Proof using Type.
  intros Hf (Hfl & Hu & Hp). unfold user_present, pte_of.
  rewrite !(pte_has f), (pte_frame f), (pte_flags f) by (first [done|flags]).
  split; [done|]. split; [done|]. split; [|split; [done|]].
  - apply Z.eqb_eq. rewrite Z.land_lor_distr_r.
    by rewrite (single_bit fl PTE_PRESENT 0), (single_bit fl PTE_USER 2) by done.
  - apply Z.eqb_neq. intros E. apply Z.lor_eq_0_iff in E as [E _]. destruct Hf as [? _]. lia.
Qed.

Lemma user_child m N p t i :
  tree m USER_LINK user_dom N -> N !! p = Some t -> (length p < 3)%nat -> index i ->
  user_dom p i = true ->
  (exists f, N !! (i :: p) = Some f /\ is_frame f /\ word m t i = Some (Z.lor f USER_LINK)) \/
  (N !! (i :: p) = None /\ word m t i = Some 0).
Proof using Type. intros T. by apply (tree_child m USER_LINK user_dom). Qed.
Lemma kernel_table_child m N p t i :
  tree m KERNEL_LINK kernel_dom N -> N !! p = Some t -> (length p < 3)%nat -> index i ->
  (exists f, N !! (i :: p) = Some f /\ is_frame f /\ word m t i = Some (Z.lor f KERNEL_LINK)) \/
  (N !! (i :: p) = None /\ word m t i = Some 0).
Proof using Type. intros T Hp Hl Hi. by apply (tree_child m KERNEL_LINK kernel_dom). Qed.

Lemma path_available_spec s kr own k md N L va ixs p t :
  space_ok (mem s) kr own k md N L -> N !! p = Some t -> (length p + length ixs)%nat = 3%nat ->
  (forall i, i ∈ ixs -> index i) -> (p = [] -> exists i r, ixs = i :: r /\ i < 256) ->
  path_available s md t ixs va = Some (negb (bool_decide (is_Some (L !! (ix 12 va :: rev ixs ++ p))))).
Proof using Type.
  intros S. revert p t. induction ixs as [|i ixs IH]; intros p t Hp Hl Hi Hd; cbn [path_available].
  - rewrite entry_word, (pg_entry _ _ _ _ _ (sp_paged _ _ _ _ _ _ _ S) p t)
      by (first [done|apply ix_index|cbn in Hl; lia]).
    cbn [mbind option_bind rev app]. destruct (L !! (ix 12 va :: p)) as [e|] eqn:EL; cbn; [|done].
    destruct (sp_pte _ _ _ _ _ _ _ S _ _ EL) as (f & fl & -> & Hf & Hfl & _).
    destruct (user_pte_facts f fl Hf Hfl) as (-> & _). done.
  - assert (Hdom : user_dom p i = true).
    { destruct p; [|done]. destruct (Hd eq_refl) as (? & ? & [= -> ->] & ?). cbn. lia. }
    rewrite entry_word.
    destruct (user_child (mem s) N p t i) as [(f & Ef & Hf & W)|[En W]];
      [by apply S|done|cbn in Hl; lia|apply Hi, list_elem_of_here|done| |].
    + rewrite W. cbn [mbind option_bind].
      destruct (user_link_facts f Hf) as (-> & _ & _ & -> & Hpt & -> & _). cbn [negb orb].
      unfold pte_of in Hpt. rewrite Hpt.
      replace (vmm_owned_contains (tables md) f) with true.
      2: { symmetry. apply contains_spec; [done|]. apply (sp_tables _ _ _ _ _ _ _ S). by exists (i :: p). }
      cbn [negb]. cbn [rev]. rewrite <- app_assoc. apply IH; [done|cbn in *; lia| |done].
      intros j Hj. by apply Hi, list_elem_of_further.
    + rewrite W. cbn [mbind option_bind rev]. rewrite has_0. cbn [negb].
      rewrite <- app_assoc. cbn [app].
      rewrite (paged_none _ _ _ _ _ _ _ _ (sp_paged _ _ _ _ _ _ _ S) En). done.
Qed.

Lemma user_indexes va i : i ∈ [ix 39 va; ix 30 va; ix 21 va] -> index i.
Proof using Type. rewrite !elem_of_cons. intros [->|[->|[->|H]]]; [apply ix_index..|]. by apply elem_of_nil in H. Qed.

(** The path of a user address is available exactly when the page is not mapped. *)
Lemma available_spec s g k md va :
  inv s g -> address_space_metadata s !! k = Some md -> root md <> 0 -> ix 39 va < 256 ->
  vmm_user_path_available s md (root md) va = Some (negb (bool_decide (is_Some (gL g k !! vpath va)))).
Proof using All.
  intros I Hk Hr Hva. pose proof (iv_space _ _ I _ _ Hk Hr) as S. unfold vmm_user_path_available.
  rewrite (path_available_spec s (kernel_pml4 s) (gown g) k md (gN g k) (gL g k) va _ []); try done.
  - apply S.
  - apply user_indexes.
  - intros _. eauto.
Qed.

(** * New tables of a process *)

(** What stays when only the record of [k] and its space change. *)
Definition others_same (k : nat) g g' : Prop :=
  gK g' = gK g /\ gKL g' = gKL g /\ forall j, j <> k -> gN g' j = gN g j /\ gL g' j = gL g j.
Lemma others_same_trans k g1 g2 g3 : others_same k g1 g2 -> others_same k g2 g3 -> others_same k g1 g3.
Proof using Type.
  intros (?&?&H1) (?&?&H2). split; [congruence|]. split; [congruence|]. intros j Hj.
  destruct (H1 j Hj), (H2 j Hj). split; congruence.
Qed.

Definition add_table (f : Z) (md : metadata) : metadata :=
  Metadata (root md) (f :: tables md) (leaves md) (active_cpu_mask md) (destroy_pending md)
    (shootdown_pending md).

Lemma alter_metadata_eq s k md f :
  address_space_metadata s !! k = Some md ->
  address_space_metadata (alter_metadata s k f) = <[k := f md]> (address_space_metadata s).
Proof using Type.
  intros Hk. cbn. apply list_eq. intros j. destruct (decide (j = k)) as [->|].
  - rewrite list_lookup_alter_eq, Hk. rewrite list_lookup_insert_eq; [done|]. by eapply lookup_lt_Some.
  - by rewrite list_lookup_alter_ne, list_lookup_insert_ne.
Qed.

(** A blank table is linked into a space. *)
Lemma space_add_table m kr own k md N L p t i f :
  space_ok m kr own k md N L -> N !! p = Some t -> (length p < 3)%nat -> index i ->
  user_dom p i = true -> N !! (i :: p) = None -> own !! f = Some OHeld -> is_frame f ->
  is_table m f -> (forall j, index j -> word m f j = Some 0) -> own !! kr = Some OKernel ->
  space_ok (write m t i (Z.lor f USER_LINK)) kr (<[f := OTable k]> own) k (add_table f md)
    (<[i :: p := f]> N) L.
Proof using Type.
  intros S Hp Hl Hi Hd Hn Hheld Hf Ht Hz Hkr.
  assert (Hown : forall q x, N !! q = Some x -> own !! x = Some (OTable k)).
  { intros q x Hx. apply (sp_own _ _ _ _ _ _ _ S). eauto. }
  assert (Hfresh : forall q, N !! q <> Some f) by (intros q Hq; apply Hown in Hq; congruence).
  pose proof (Hown _ _ Hp) as Hto.
  destruct S as [S1 S2 S3 S4 S5 S6 S7 S8 S9 S10 S11]. split; cbn [tables leaves root add_table]; try done.
  - by rewrite lookup_insert_ne.
  - by apply paged_add.
  - intros x. destruct (decide (x = f)) as [->|Hne].
    + rewrite lookup_insert_eq. split; [|done]. intros _. exists (i :: p). by rewrite lookup_insert_eq.
    + rewrite lookup_insert_ne by done. rewrite S3. split; intros [q Hq].
      * exists q. rewrite lookup_insert_ne; [done|]. intros <-. congruence.
      * exists q. apply lookup_insert_Some in Hq as [[_ ?]|[_ ?]]; [congruence|done].
  - intros x. rewrite elem_of_cons, S4. split.
    + intros [->|(q & Hq & Hx)]; [exists (i :: p); by rewrite lookup_insert_eq|].
      exists q. split; [done|]. rewrite lookup_insert_ne; [done|]. intros <-. congruence.
    + intros (q & Hq & Hx). apply lookup_insert_Some in Hx as [[_ <-]|[_ ?]]; [by left|right; eauto].
  - constructor; [|done]. rewrite S4. intros (q & _ & Hq). by apply (Hfresh q).
  - intros x. rewrite <- S9. rewrite lookup_insert_Some. split; [intros [[_ ?]|[_ ?]]; done|].
    intros Hx. right. split; [congruence|done].
  - intros j Hj. assert (Hjx : index j) by (unfold index; lia).
    rewrite !word_write_ne; try done; [by apply S11|left; congruence|].
    destruct (decide (t = root md)) as [->|]; [|by left]. right. intros ->.
    assert (p = []) as ->; [|cbn in Hd; lia]. by apply (tr_inj _ _ _ _ (pg_tree _ _ _ _ _ S2) _ _ _ Hp).
Qed.

Definition linked s (k : nat) (t i f : Z) : vmm A :=
  set_mem (write (mem s) t i (Z.lor f USER_LINK)) (alter_metadata s k (add_table f)).
Definition linked_ghost (k : nat) (q : list Z) (f : Z) g : ghost :=
  with_space k (<[q := f]> (gN g k)) (gL g k) (<[f := OTable k]> (gown g)) g.

Lemma child_reserved_spec s g k md p t i r :
  inv s g -> address_space_metadata s !! k = Some md -> root md <> 0 ->
  gN g k !! p = Some t -> (length p < 3)%nat -> index i -> user_dom p i = true ->
  blank s g (r_table r) -> r_node r = true ->
  (exists f, gN g k !! (i :: p) = Some f /\ is_frame f /\
     vmm_user_child_reserved s k t i r = Some (f, r, s)) \/
  (gN g k !! (i :: p) = None /\
     vmm_user_child_reserved s k t i r = Some (r_table r, nothing_reserved, linked s k t i (r_table r)) /\
     inv (linked s k t i (r_table r)) (linked_ghost k (i :: p) (r_table r) g)).
Proof using All.
  intros I Hk Hr Hp Hl Hi Hd B Hnode. pose proof (iv_space _ _ I _ _ Hk Hr) as S.
  unfold vmm_user_child_reserved. rewrite Hk. cbn [mbind option_bind]. rewrite entry_word.
  destruct (user_child (mem s) (gN g k) p t i) as [(f & Ef & Hf & W)|[En W]]; [by apply S|done..| |].
  - left. exists f. split; [done|]. split; [done|]. rewrite W. cbn [mbind option_bind].
    destruct (user_link_facts f Hf) as (-> & _ & _ & -> & _ & -> & _). cbn [negb].
    unfold vmm_table_phys. replace (vmm_owned_contains (tables md) f) with true; [done|].
    symmetry. apply contains_spec; [done|]. apply (sp_tables _ _ _ _ _ _ _ S). by exists (i :: p).
  - right. split; [done|]. rewrite W. cbn [mbind option_bind]. rewrite has_0.
    destruct B as [Hheld Hf Htab Hz]. rewrite frame_nonzero by done. rewrite Hnode. cbn [orb negb].
    assert (Htt : is_table (mem s) t) by (by eapply (tr_table _ _ _ _ (pg_tree _ _ _ _ _ (sp_paged _ _ _ _ _ _ _ S)))).
    rewrite store_write by done. cbn [mbind option_bind]. unfold vmm_table_phys, vmm_owned_insert.
    rewrite frame_mask by done. split; [done|].
    pose proof (sp_own _ _ _ _ _ _ _ S t) as [_ Hto]. specialize (Hto (ex_intro _ _ Hp)).
    apply (inv_space_change s _ g k md (add_table (r_table r) md)); try done; try apply I.
    + by rewrite <- (alter_metadata_eq s k md) by done.
    + intros x o. rewrite lookup_insert_Some. intros [[<- _]|[_ Ho]]; by eapply (iv_held _ _ I).
    + intros x o H1 H2 H3. rewrite lookup_insert_Some. split; [intros [[_ ?]|[_ ?]]; congruence|].
      intros Ho. right. split; [congruence|done].
    + intros x o H1 H2 Ho. cbn. apply write_ne. congruence.
    + apply space_add_table; try done. by apply (iv_kown _ _ I [] _), I.
Qed.

(** The rest of the record. *)
Definition same_record (md md' : metadata) : Prop :=
  root md' = root md /\ leaves md' = leaves md /\ active_cpu_mask md' = active_cpu_mask md /\
  destroy_pending md' = destroy_pending md /\ shootdown_pending md' = shootdown_pending md.

(** The upper half of a root, and the memory outside the tables of [k]. *)
Definition only_tables_of (k : nat) (md : metadata) s s' g : Prop :=
  (forall i, 256 <= i < 512 -> word (mem s') (root md) i = word (mem s) (root md) i) /\
  (forall f o, o <> OHeld -> o <> OTable k -> gown g !! f = Some o -> mem s' !! f = mem s !! f).

(** [rs'] is left of the reservation [rs]: what was used belongs to [k]. *)
Definition used_up (rs rs' : list reserved) (f : Z) : Prop :=
  f ∈ r_table <$> rs /\ f ∉ r_table <$> rs'.
Definition given_to (k : nat) (rs rs' : list reserved) g g' : Prop :=
  Forall2 (fun r r' => r' = r \/ r' = nothing_reserved) rs rs' /\
  forall f o, gown g' !! f = Some o <->
    (used_up rs rs' f /\ o = OTable k) \/ (~ used_up rs rs' f /\ gown g !! f = Some o).

Definition ready s g (rs : list reserved) : Prop :=
  Forall (fun r => blank s g (r_table r) /\ r_node r = true) rs /\ NoDup (r_table <$> rs).

Lemma ready_cons s g r rs :
  ready s g (r :: rs) -> blank s g (r_table r) /\ r_node r = true /\ ready s g rs /\
    r_table r ∉ r_table <$> rs.
Proof using Type.
  intros [H1 H2]. apply Forall_cons in H1 as [[? ?] ?]. cbn in H2. apply NoDup_cons in H2 as [? ?].
  done.
Qed.

Lemma blank_linked s g k t i f q x :
  blank s g x -> x <> f -> gown g !! t = Some (OTable k) ->
  blank (linked s k t i f) (linked_ghost k q f g) x.
Proof using Type.
  intros [B1 B2 B3 B4] Hne Ht. assert (t <> x) by congruence.
  assert (E : mem (linked s k t i f) !! x = mem s !! x) by (cbn; by apply write_ne).
  split; cbn [gown linked_ghost with_space].
  - by rewrite lookup_insert_ne.
  - done.
  - by apply (is_table_agree (mem s)).
  - intros j Hj. rewrite (word_agree (mem s)) by done. by apply B4.
Qed.

Lemma left_in rs rs' x :
  Forall2 (fun r r' => r' = r \/ r' = nothing_reserved) rs rs' -> x <> 0 ->
  x ∈ r_table <$> rs' -> x ∈ r_table <$> rs.
Proof using Type.
  induction 1 as [|r r' rs rs' Hr _ IH]; cbn; [done|]. intros Hx. rewrite !elem_of_cons.
  intros [->|H]; [|right; by apply IH]. destruct Hr as [-> | ->]; [by left|]. by cbn in Hx.
Qed.

Lemma used_kept r rs rs' f :
  is_frame (r_table r) -> r_table r ∉ r_table <$> rs ->
  Forall2 (fun r r' => r' = r \/ r' = nothing_reserved) rs rs' ->
  (used_up (r :: rs) (r :: rs') f <-> used_up rs rs' f).
Proof using Type.
  intros Hf Hn F. unfold used_up. cbn. rewrite !elem_of_cons. split.
  - intros [[->|H] Hno]; [by destruct Hno; left|]. split; [done|]. intros ?. apply Hno. by right.
  - intros [H Hno]. split; [by right|]. intros [->|]; [done|]. by apply Hno.
Qed.
Lemma used_new r rs rs' f :
  is_frame (r_table r) -> r_table r ∉ r_table <$> rs ->
  Forall2 (fun r r' => r' = r \/ r' = nothing_reserved) rs rs' ->
  (forall x, x ∈ r_table <$> rs -> is_frame x) ->
  (used_up (r :: rs) (nothing_reserved :: rs') f <-> f = r_table r \/ used_up rs rs' f).
Proof using Type.
  intros Hf Hn F Hfr. unfold used_up. cbn. rewrite !elem_of_cons. split.
  - intros [[->|H] Hno]; [by left|]. right. split; [done|]. intros ?. apply Hno. by right.
  - intros [->|[H Hno]].
    + split; [by left|]. intros [E|Hin]; [destruct Hf as [? _]; lia|].
      apply Hn. apply (left_in _ rs'); [done|destruct Hf as [? _]; lia|done].
    + split; [by right|]. intros [->|]; [|done]. destruct (Hfr _ H) as [? _]. lia.
Qed.

Lemma ready_frames s g rs x : ready s g rs -> x ∈ r_table <$> rs -> is_frame x /\ gown g !! x = Some OHeld.
Proof using Type.
  intros [F _] Hx. apply list_elem_of_fmap in Hx as (r & -> & Hr).
  rewrite Forall_forall in F. destruct (F r Hr) as [[? ? _ _] _]. done.
Qed.

Lemma given_kept k r rs rs' g g' :
  is_frame (r_table r) -> r_table r ∉ r_table <$> rs -> given_to k rs rs' g g' ->
  given_to k (r :: rs) (r :: rs') g g'.
Proof using Type.
  intros Hf Hn [F O]. split; [constructor; [by left|done]|]. intros f o. by rewrite used_kept.
Qed.

Lemma given_new k q r rs rs' g g' :
  is_frame (r_table r) -> r_table r ∉ r_table <$> rs -> (forall x, x ∈ r_table <$> rs -> is_frame x) ->
  given_to k rs rs' (linked_ghost k q (r_table r) g) g' ->
  given_to k (r :: rs) (nothing_reserved :: rs') g g'.
Proof using Type.
  intros Hf Hn Hfr [F O]. split; [constructor; [by right|done]|]. intros f o.
  rewrite used_new, O by done. cbn [gown linked_ghost with_space]. rewrite lookup_insert_Some. split.
  - intros [[? ->]|[Hno [[<- <-]|[Hne Ho]]]]; [left; auto|left; auto|right].
    split; [|done]. intros [->|]; done.
  - intros [[[->|Hu] ->]|[Hno Ho]]; [|by left|].
    + right. split; [|by left]. by intros [? _].
    + right. split; [naive_solver|]. right. split; [|done]. intros <-. apply Hno. by left.
Qed.

(** The result of a descent that creates what is missing. *)
Record descended (k : nat) s g (md : metadata) (q : list Z) (rs : list reserved)
    (t' : Z) (rs' : list reserved) s' g' : Prop := {
  de_inv : inv s' g';
  de_env : same_env s s';
  de_record : exists md', address_space_metadata s' = <[k := md']> (address_space_metadata s) /\
    same_record md md';
  de_table : gN g' k !! q = Some t';
  de_others : others_same k g g';
  de_pages : gL g' k = gL g k;
  de_given : given_to k rs rs' g g';
  de_mem : only_tables_of k md s s' g;
  de_blank : forall f, gown g !! f = Some OHeld -> ~ used_up rs rs' f -> mem s' !! f = mem s !! f;
}.

Lemma given_nothing k g : given_to k [] [] g g.
Proof using Type.
  split; [constructor|]. intros f o. unfold used_up. cbn. split.
  - intros H. right. split; [|done]. intros [X _]. by apply elem_of_nil in X.
  - by intros [[[X _] _]|[_ ?]]; [apply elem_of_nil in X|].
Qed.

Lemma linked_record s k t i f md :
  address_space_metadata s !! k = Some md ->
  address_space_metadata (linked s k t i f) = <[k := add_table f md]> (address_space_metadata s).
Proof using Type. intros Hk. by rewrite <- (alter_metadata_eq s k md (add_table f)). Qed.

Lemma linked_only s g k md t i f p :
  inv s g -> address_space_metadata s !! k = Some md -> root md <> 0 -> gN g k !! p = Some t ->
  index i -> user_dom p i = true -> only_tables_of k md s (linked s k t i f) g.
Proof using All.
  intros I Hk Hr Hp Hi Hd. pose proof (iv_space _ _ I _ _ Hk Hr) as S. split; cbn.
  - intros j Hj. apply word_write_ne; [done|unfold index; lia|].
    destruct (decide (t = root md)) as [->|]; [|by left]. right. intros ->.
    assert (p = []) as ->; [|cbn in Hd; lia].
    apply (tr_inj _ _ _ _ (pg_tree _ _ _ _ _ (sp_paged _ _ _ _ _ _ _ S)) _ _ _ Hp), S.
  - intros x o H1 H2 Ho. apply write_ne. intros <-.
    pose proof (sp_own _ _ _ _ _ _ _ S t) as [_ Hto]. specialize (Hto (ex_intro _ _ Hp)). congruence.
Qed.

Lemma only_trans k md s1 s2 s3 g g2 :
  only_tables_of k md s1 s2 g -> only_tables_of k md s2 s3 g2 ->
  (forall f o, o <> OHeld -> o <> OTable k -> gown g !! f = Some o -> gown g2 !! f = Some o) ->
  only_tables_of k md s1 s3 g.
Proof using Type.
  intros [H1 H2] [H3 H4] Ho. split.
  - intros i Hi. rewrite H3 by done. by apply H1.
  - intros f o Hf Hk Hg. rewrite (H4 f o) by auto. by apply (H2 f o).
Qed.

Lemma user_children_spec k ixs s g md p t rs :
  inv s g -> address_space_metadata s !! k = Some md -> root md <> 0 -> gN g k !! p = Some t ->
  (length p + length ixs)%nat = 3%nat -> (forall i, i ∈ ixs -> index i) ->
  (p = [] -> exists i r, ixs = i :: r /\ i < 256) -> length rs = length ixs -> ready s g rs ->
  exists t' rs' s' g', user_children s k t ixs rs = Some (t', rs', s') /\
    descended k s g md (rev ixs ++ p) rs t' rs' s' g'.
Proof using All.
  revert s g md p t rs.
  induction ixs as [|i ixs IH]; intros s g md p t rs I Hk Hr Hp Hl Hi Hd Hlen Hrs.
  { apply nil_length_inv in Hlen as ->. exists t, [], s, g. split; [done|].
    split; try done; [|apply given_nothing]. exists md. by rewrite list_insert_id. }
  destruct rs as [|r rs]; [done|]. apply ready_cons in Hrs as (B & Hn & Hrs & Hnot).
  cbn in Hl, Hlen.
  assert (Hdom : user_dom p i = true).
  { destruct p; [|done]. destruct (Hd eq_refl) as (? & ? & [= -> ->] & ?). cbn. lia. }
  assert (Hii : index i) by apply Hi, list_elem_of_here.
  assert (Hi' : forall j, j ∈ ixs -> index j) by (intros j Hj; by apply Hi, list_elem_of_further).
  cbn [user_children].
  destruct (child_reserved_spec s g k md p t i r) as [(f & Ef & Hf & E)|(En & E & I')];
    [done..|lia|done|done|done|done| |]; rewrite E; cbn [mbind option_bind].
  - rewrite frame_nonzero by done.
    destruct (IH s g md (i :: p) f rs) as (t' & rs' & s' & g' & E' & D); try done; [cbn; lia|lia|].
    rewrite E'. cbn [mbind option_bind]. exists t', (r :: rs'), s', g'. split; [done|].
    destruct D as [D1 D2 D3 D4 D5 D6 D7 D8 D9]. split; try done.
    + cbn [rev]. by rewrite <- app_assoc.
    + apply given_kept; [apply B|done|done].
    + intros x Hx Hn'. apply D9; [done|]. by rewrite used_kept in Hn' by (first [apply B|done|apply D7]).
  - pose proof (bl_frame _ _ _ B) as Hf. rewrite frame_nonzero by done. set (f := r_table r) in *.
    pose proof (sp_own _ _ _ _ _ _ _ (iv_space _ _ I _ _ Hk Hr) t) as [_ Hto].
    specialize (Hto (ex_intro _ _ Hp)).
    destruct (IH (linked s k t i f) (linked_ghost k (i :: p) f g) (add_table f md) (i :: p) f rs)
      as (t' & rs' & s' & g' & E' & D); try done.
    + rewrite (linked_record s k t i f md Hk). apply list_lookup_insert_eq. by eapply lookup_lt_Some.
    + cbn. by rewrite slot_upd_eq, lookup_insert_eq.
    + cbn; lia.
    + lia.
    + destruct Hrs as [F N]. split; [|done]. rewrite Forall_forall in F |- *. intros x Hx.
      destruct (F x Hx) as [Bx Hnx]. split; [|done]. apply blank_linked; [done| |done].
      intros Ex. apply Hnot. apply list_elem_of_fmap. eauto.
    + rewrite E'. cbn [mbind option_bind]. exists t', (nothing_reserved :: rs'), s', g'.
      split; [done|]. destruct D as [D1 D2 (md' & D3 & D3') D4 D5 D6 D7 D8 D9].
      split; try done.
      * exists md'. rewrite D3, (linked_record s k t i f md Hk), list_insert_insert_eq. done.
      * cbn [rev]. by rewrite <- app_assoc.
      * eapply others_same_trans; [|exact D5]. split; [done|]. split; [done|]. intros j Hj. cbn.
        by rewrite !slot_upd_ne.
      * rewrite D6. cbn. by rewrite slot_upd_eq.
      * apply (given_new k (i :: p)); [done|done| |done]. intros x Hx. by eapply ready_frames.
      * apply (only_trans k md s (linked s k t i f) s' g (linked_ghost k (i :: p) f g)); [|done|].
        -- by apply (linked_only s g k md t i f p).
        -- intros x o H1 H2 Ho. cbn. rewrite lookup_insert_ne; [done|]. intros <-.
           pose proof (bl_held _ _ _ B). congruence.
      * intros x Hx Hn'. rewrite used_new in Hn' by
          (first [done|apply D7|intros y Hy; by eapply ready_frames]). rewrite D9.
        -- cbn. apply write_ne. congruence.
        -- cbn. rewrite lookup_insert_ne; [done|]. intros <-. apply Hn'. by left.
        -- intros ?. apply Hn'. by right.
Qed.

End proofs.
End VmmProofs.
