(* ===== verification/VmmValid.v ===== *)
(** The checks of [vmm.c]: in a state that satisfies the invariant they all run
    to their end, the kernel reaches no table of a process, and the validation
    of an address space fails only for a slot that is not published yet. *)
From stdpp Require Import gmap.
From S2P Require Import Prelude Pmm Vmm VmmTree VmmInv VmmProofs.
Import Pmm Vmm VmmTree VmmInv VmmProofs.

Module VmmValid.

Lemma any_entry_spec (f : Z -> option bool) l (P : Prop) :
  (forall e, e ∈ l -> exists b, f e = Some b /\ (b = true -> P)) ->
  exists b, any_entry f l = Some b /\ (b = true -> P).
Proof.
  induction l as [|e l IH]; intros H; cbn; [by exists false|].
  destruct (H e) as (b & -> & Hb); [apply list_elem_of_here|]. cbn [mbind option_bind].
  destruct b; [by exists true; auto|]. apply IH. intros e' He. by apply H, list_elem_of_further.
Qed.
Lemma all_entries_spec (f : Z -> option bool) l :
  (forall e, e ∈ l -> f e = Some true) -> all_entries f l = Some true.
Proof.
  induction l as [|e l IH]; intros H; cbn; [done|].
  rewrite H by apply list_elem_of_here. cbn [mbind option_bind].
  apply IH. intros e' He. by apply H, list_elem_of_further.
Qed.

Section valid.
Context {A : Type} `{!FrameAllocator A, !AllocatorLaws A}.
Implicit Types (s : vmm A) (g : ghost).

(** The words of a table, and the entries they are. *)
Lemma table_entries m t ws e :
  is_table m t -> m !! t = Some ws -> e ∈ ws -> exists i, index i /\ word m t i = Some e.
Proof.
  intros (ws' & E & Hl) E' He. simplify_eq. apply list_elem_of_lookup in He as [n Hn].
  exists (Z.of_nat n). split.
  - apply lookup_lt_Some in Hn. unfold index. lia.
  - unfold word. rewrite E. cbn. by rewrite Nat2Z.id.
Qed.

Lemma kernel_table s g q f : inv s g -> gK g !! q = Some f -> is_table (mem s) f.
Proof using All. intros I Hq. by eapply (tr_table _ _ _ _ (pg_tree _ _ _ _ _ (iv_kpaged _ _ I))). Qed.

(** The links of a table of the kernel. *)
Lemma kernel_words s g q t i e :
  inv s g -> gK g !! q = Some t -> (length q < 3)%nat -> index i -> word (mem s) t i = Some e ->
  e = 0 \/ exists f, e = Z.lor f KERNEL_LINK /\ is_frame f /\ gK g !! (i :: q) = Some f.
Proof using All.
  intros I Hq Hl Hi He.
  destruct (kernel_table_child (mem s) (gK g) q t i) as [(f & Ef & Hf & W)|[En W]];
    [by apply I|done..| |]; simplify_eq; eauto.
Qed.

Lemma any_child_spec s g p depth q f :
  inv s g -> gK g !! q = Some f -> (depth + length q)%nat = 3%nat ->
  exists b, any_child (mem s) depth (Z.lor f KERNEL_LINK) p = Some b /\
    (b = true -> gown g !! p = Some OKernel).
Proof using All.
  intros I. revert q f. induction depth as [|depth IH]; intros q f Hq Hl; cbn [any_child];
    pose proof (kernel_frame _ _ _ _ I Hq) as Hf;
    destruct (kernel_link_facts f Hf) as (-> & _ & -> & Hp & Ht & _); cbn [negb orb];
    unfold pte_of in Hp; rewrite Hp, ?Ht; clear Ht; destruct (Z.eqb_spec f p) as [<-|Hne].
  - exists true. split; [done|]. intros _. by eapply (iv_kown _ _ I).
  - by exists false.
  - exists true. split; [done|]. intros _. by eapply (iv_kown _ _ I).
  - pose proof (kernel_table _ _ _ _ I Hq) as Ht. destruct (Ht) as (ws & Ews & _). rewrite Ews.
    cbn [mbind option_bind]. apply any_entry_spec. intros e He.
    destruct (table_entries _ _ _ _ Ht Ews He) as (i & Hi & Hw).
    destruct (kernel_words _ _ _ _ _ _ I Hq ltac:(cbn in Hl; lia) Hi Hw) as [->|(h & -> & Hh & Eh)].
    + exists false. split; [|done]. by destruct depth.
    + apply (IH (i :: q)); [done|cbn in *; lia].
Qed.

(** The search finds nothing that the kernel does not own. *)
Lemma reaches_spec s g p :
  inv s g -> is_frame p -> gown g !! p <> Some OKernel -> vmm_kernel_reaches_table s p = Some false.
Proof using All.
  intros I Hp Hown. unfold vmm_kernel_reaches_table. cbv zeta. rewrite frame_mask by done.
  pose proof (kroot_nonzero _ _ I). rewrite (proj2 (Z.eqb_neq _ _)) by done.
  destruct (Z.eqb_spec p (vmm_table_phys (kernel_pml4 s))) as [->|Hne].
  { destruct Hown. by apply (iv_kown _ _ I [] _), I. }
  pose proof (kernel_table _ _ _ _ I (iv_kroot _ _ I)) as Ht. destruct (Ht) as (ws & Ews & _).
  rewrite Ews. cbn [mbind option_bind].
  destruct (any_entry_spec (fun e => any_child (mem s) 2 e p) (drop 256 ws)
    (gown g !! p = Some OKernel)) as (b & -> & Hb).
  - intros e He. assert (He' : e ∈ ws) by (rewrite <- (take_drop 256 ws); apply elem_of_app; by right).
    destruct (table_entries _ _ _ _ Ht Ews He') as (i & Hi & Hw).
    destruct (kernel_words _ _ _ _ _ _ I (iv_kroot _ _ I) ltac:(cbn; lia) Hi Hw) as [->|(h & -> & Hh & Eh)].
    + by exists false.
    + by apply (any_child_spec s g p 2 [i]).
  - destruct b; [|done]. by destruct Hown; apply Hb.
Qed.

Lemma none_reached_spec s g l :
  inv s g -> (forall p, p ∈ l -> is_frame p /\ gown g !! p <> Some OKernel) -> none_reached s l = Some true.
Proof using All.
  intros I. induction l as [|p l IH]; intros H; cbn; [done|].
  destruct (H p) as [H1 H2]; [apply list_elem_of_here|].
  rewrite (reaches_spec s g) by done. cbn. apply IH. intros q Hq. by apply H, list_elem_of_further.
Qed.

Lemma shared_high i : vmm_kernel_shared_pml4_index i = true -> 256 <= i.
Proof.
  unfold vmm_kernel_shared_pml4_index.
  change VMM_DIRECT_MAP_PML4_FIRST with 256. change VMM_DIRECT_MAP_PML4_LAST with 383.
  change VMM_HEAP_PML4_INDEX with 384. change VMM_IOREMAP_PML4_INDEX with 385.
  change VMM_IMAGE_PML4_INDEX with 511. lia.
Qed.

(** The kernel has no table in the lower half. *)
Lemma kernel_low s g i : inv s g -> 0 <= i < 256 -> word (mem s) (kernel_pml4 s) i = Some 0.
Proof using All.
  intros I Hi.
  destruct (kernel_table_child (mem s) (gK g) [] (kernel_pml4 s) i) as [(f & Ef & _)|[_ W]];
    [by apply I|by apply I|cbn; lia|unfold index; lia| |done].
  apply (iv_kslots _ _ I) in Ef. apply shared_high in Ef. lia.
Qed.

Lemma validate_low_spec s g k md ixs :
  inv s g -> address_space_metadata s !! k = Some md -> root md <> 0 ->
  (forall i, i ∈ ixs -> 0 <= i < 256) -> validate_low s md ixs = Some true.
Proof using All.
  intros I Hk Hr. pose proof (iv_space _ _ I _ _ Hk Hr) as S.
  induction ixs as [|i ixs IH]; intros H; cbn [validate_low]; [done|].
  assert (Hi : 0 <= i < 256) by apply H, list_elem_of_here.
  assert (IH' : validate_low s md ixs = Some true).
  { apply IH. intros j Hj. by apply H, list_elem_of_further. }
  rewrite !entry_word.
  destruct (user_child (mem s) (gN g k) [] (root md) i) as [(f & Ef & Hf & W)|[En W]];
    [by apply S|by apply S|cbn; lia|unfold index; lia|cbn; lia| |]; rewrite W; cbn [mbind option_bind].
  - rewrite (kernel_low s g) by done. cbn [mbind option_bind]. rewrite has_0, IH'.
    destruct (user_link_facts f Hf) as (_ & _ & _ & _ & Hp & _). unfold pte_of in Hp. rewrite Hp.
    rewrite (pte_flags f) by (first [done|flags]).
    replace (vmm_owned_contains (tables md) f) with true.
    + destruct (_ =? 0); [done|]. reflexivity.
    + symmetry. apply contains_spec; [done|]. apply (sp_tables _ _ _ _ _ _ _ S). by exists [i].
  - done.
Qed.

(** A root whose shared slots are the kernel's. *)
Definition published s (r : Z) : Prop :=
  forall i, 256 <= i < 512 -> vmm_kernel_shared_pml4_index i = true ->
    word (mem s) r i = word (mem s) (kernel_pml4 s) i.

Lemma validate_high_spec s g k md ixs :
  inv s g -> address_space_metadata s !! k = Some md -> root md <> 0 ->
  (forall i, i ∈ ixs -> 256 <= i < 512) ->
  exists b, validate_high s md ixs = Some b /\
    (b = true <-> forall i, i ∈ ixs -> vmm_kernel_shared_pml4_index i = true ->
       word (mem s) (root md) i = word (mem s) (kernel_pml4 s) i).
Proof using All.
  intros I Hk Hr. pose proof (iv_space _ _ I _ _ Hk Hr) as S.
  assert (Hrt : is_table (mem s) (root md)).
  { eapply (tr_table _ _ _ _ (pg_tree _ _ _ _ _ (sp_paged _ _ _ _ _ _ _ S))), S. }
  induction ixs as [|i ixs IH]; intros H; cbn [validate_high].
  { exists true. split; [done|]. split; [|done]. intros _ i Hi. by apply elem_of_nil in Hi. }
  assert (Hi : 256 <= i < 512) by apply H, list_elem_of_here.
  destruct IH as (b & E & Hb); [intros j Hj; by apply H, list_elem_of_further|].
  assert (Hx : index i) by (unfold index; lia). rewrite !entry_word.
  destruct (table_word _ _ _ Hrt Hx) as [e He]. rewrite He. cbn [mbind option_bind].
  destruct (vmm_kernel_shared_pml4_index i) eqn:Es.
  - destruct (table_word _ _ i (kernel_table _ _ _ _ I (iv_kroot _ _ I)) Hx) as [x Hw].
    rewrite Hw. cbn [mbind option_bind].
    destruct (Z.eqb_spec e x) as [<-|Hne]; cbn [negb orb].
    + assert (Hu : has e PTE_USER = false).
      { destruct (kernel_words _ _ _ _ _ _ I (iv_kroot _ _ I) ltac:(cbn; lia) Hx Hw) as [->|(h & -> & Hh & _)];
          [done|]. by apply kernel_link_facts. }
      rewrite Hu, E. exists b. split; [done|]. rewrite Hb. split; intros G j Hj; [|apply G; by right].
      apply elem_of_cons in Hj as [->|Hj]; [congruence|by apply G].
    + exists false. split; [done|]. split; [done|]. intros G. destruct Hne.
      specialize (G i (list_elem_of_here _ _) Es). congruence.
  - destruct (sp_high _ _ _ _ _ _ _ S i Hi) as [E0|[? _]]; [|congruence]. simplify_eq. cbn [negb Z.eqb].
    exists b. split; [done|]. rewrite Hb. split; intros G j Hj Hs; [|apply G; [by right|done]].
    apply elem_of_cons in Hj as [->|Hj]; [congruence|by apply G].
Qed.

Lemma high_half_in i : i ∈ high_half <-> 256 <= i < 512.
Proof. unfold high_half. rewrite elem_of_seqZ. lia. Qed.
Lemma low_half_in i : i ∈ low_half <-> 0 <= i < 256.
Proof. unfold low_half. rewrite elem_of_seqZ. lia. Qed.

Lemma bind_Some_l {X Y} (x : X) (f : X -> option Y) : Some x ≫= f = f x.
Proof. done. Qed.

(** The checks after the arguments are. *)
Lemma validate_parts s k md low high reached :
  root md <> 0 -> root md <> kernel_pml4 s -> vmm_metadata_find s (root md) = Some k ->
  address_space_metadata s !! k = Some md ->
  validate_low s md low_half = Some low -> validate_high s md high_half = Some high ->
  none_reached s (tables md) = Some reached ->
  vmm_address_space_validate_locked s (root md) = Some (low && high && reached).
Proof using Type.
  intros H0 Hkr Hf Hk Hl Hh Hn.
  unfold vmm_address_space_validate_locked, vmm_address_space_validate_unlocked.
  rewrite (proj2 (Z.eqb_neq _ _) H0), (proj2 (Z.eqb_neq _ _) Hkr), Hf, Hk, bind_Some_l, Hl, bind_Some_l, Hh.
  destruct low; [|done]. rewrite bind_Some_l. destruct high; [|done]. cbn [negb andb]. exact Hn.
Qed.

(** Validation always gives an answer, and it is yes exactly when every shared
    slot is published. *)
Lemma validate_spec s g k md :
  inv s g -> address_space_metadata s !! k = Some md -> root md <> 0 ->
  exists b, vmm_address_space_validate_locked s (root md) = Some b /\
    (b = true <-> published s (root md)).
Proof using All.
  intros I Hk Hr.
  destruct (validate_high_spec s g k md high_half) as (b & E & Hb); [done..|by apply high_half_in|].
  exists b. split.
  - rewrite <- (andb_true_l b), <- (andb_true_r (true && b)).
    apply (validate_parts s k md); [done|by eapply root_not_kernel|by apply (find_space s g)|done| |done|].
    + apply (validate_low_spec s g k md); [done..|]. intros i. by rewrite low_half_in.
    + apply (none_reached_spec s g); [done|]. intros p Hpt.
      pose proof (iv_space _ _ I _ _ Hk Hr) as S.
      apply (sp_tables _ _ _ _ _ _ _ S) in Hpt as (q & _ & Hq). split; [by eapply space_frame|].
      pose proof (sp_own _ _ _ _ _ _ _ S p) as [_ Ho]. specialize (Ho (ex_intro _ _ Hq)). congruence.
  - rewrite Hb. unfold published. split; intros G i Hi; apply G; by rewrite ?high_half_in in *.
Qed.

(** No entry of the kernel's tables has the user bit. *)
Lemma supervisor_spec s g depth q f :
  inv s g -> gK g !! q = Some f -> (depth + length q)%nat = 3%nat ->
  vmm_table_supervisor_only (mem s) f depth = Some true.
Proof using All.
  intros I. revert q f. induction depth as [|depth IH]; intros q f Hq Hl;
    cbn [vmm_table_supervisor_only]; pose proof (kernel_table _ _ _ _ I Hq) as Ht;
    destruct (Ht) as (ws & Ews & _); rewrite Ews; cbn [mbind option_bind]; apply all_entries_spec;
    intros e He; destruct (table_entries _ _ _ _ Ht Ews He) as (i & Hi & Hw).
  - rewrite (pg_entry _ _ _ _ _ (iv_kpaged _ _ I) q f i) in Hw by (first [done|cbn in Hl; lia]).
    injection Hw as <-. destruct (gKL g !! (i :: q)) as [e|] eqn:E; [|done]. cbn [default].
    destruct (iv_kpte _ _ I _ _ E) as [Hp Hu]. change (id e) with e. by rewrite Hp, Hu.
  - destruct (kernel_words _ _ _ _ _ _ I Hq ltac:(cbn in Hl; lia) Hi Hw) as [->|(h & -> & Hh & Eh)].
    + done.
    + destruct (kernel_link_facts h Hh) as (-> & -> & -> & _ & -> & _). cbn [negb].
      apply (IH (i :: q)); [done|cbn in *; lia].
Qed.

End valid.
End VmmValid.
