(* ===== verification/VmmUser.v ===== *)
(** Mapping and unmapping the pages of a process. *)
From stdpp Require Import gmap.
From S2P Require Import Prelude Pmm Vmm VmmTree VmmInv VmmProofs VmmValid.
Import Pmm Vmm VmmTree VmmInv VmmProofs VmmValid.

Module VmmUser.

Section user.
Context {A : Type} `{!FrameAllocator A, !AllocatorLaws A}.
Implicit Types (s : vmm A) (g : ghost).

(** * Changes that the invariant does not see *)

Lemma vmm_inv_same s s' g :
  inv s g -> kernel_pml4 s' = kernel_pml4 s ->
  address_space_metadata s' = address_space_metadata s -> cpus_agree s s' ->
  frames s' = frames s -> mem s' = mem s -> inv s' g.
Proof using All.
  intros I Ek Em Ec Ef Emem. replace g with (with_own (gown g) g) by (by destruct g).
  apply (inv_frame s); try done; rewrite ?Ef, ?Emem; try done; apply I.
Qed.

Lemma alter_cpu_agree s c f :
  (forall x, cpu_view (f x) = cpu_view x) -> cpus_agree s (alter_cpu s c f).
Proof using Type.
  intros H. unfold cpus_agree. cbn. apply list_eq. intros j. rewrite !list_lookup_fmap.
  destruct (decide (j = Z.to_nat c)) as [->|]; [|by rewrite list_lookup_alter_ne].
  rewrite list_lookup_alter_eq. destruct (cpus s !! Z.to_nat c); cbn; [|done]. by rewrite H.
Qed.

(** [s'] is [s] but for the translations that the CPUs have cached and for the
    request they answer. *)
Record tlb_only s s' : Prop := {
  to_mem : mem s' = mem s;
  to_kernel : kernel_pml4 s' = kernel_pml4 s;
  to_metadata : address_space_metadata s' = address_space_metadata s;
  to_cpus : cpus_agree s s';
  to_frames : frames s' = frames s;
  to_ioremap : ioremap_next s' = ioremap_next s;
  to_bootstrap : bootstrap_mapping_active s' = bootstrap_mapping_active s;
}.
Lemma tlb_only_refl s : tlb_only s s.
Proof using Type. done. Qed.
Lemma tlb_only_trans s1 s2 s3 : tlb_only s1 s2 -> tlb_only s2 s3 -> tlb_only s1 s3.
Proof using Type. intros [] []. split; unfold cpus_agree in *; congruence. Qed.
Lemma tlb_only_inv s s' g : tlb_only s s' -> inv s g -> inv s' g.
Proof using All. intros [] I. by apply (vmm_inv_same s). Qed.
Lemma tlb_only_mmu s s' r va : tlb_only s s' -> mmu s' r va = mmu s r va.
Proof using Type. intros []. unfold mmu. congruence. Qed.

Lemma alter_cpu_tlb s c f : (forall x, cpu_view (f x) = cpu_view x) -> tlb_only s (alter_cpu s c f).
Proof using Type. intros H. split; try done. by apply alter_cpu_agree. Qed.
Lemma invlpg_tlb s c p va : tlb_only s (invlpg_if_active s c p va).
Proof using Type.
  unfold invlpg_if_active. destruct (p =? _); [|apply tlb_only_refl]. by apply alter_cpu_tlb.
Qed.
Lemma reload_tlb s c : tlb_only s (vmm_reload_current_cr3 s c).
Proof using Type.
  unfold vmm_reload_current_cr3. destruct (_ =? 0); [apply tlb_only_refl|]. by apply alter_cpu_tlb.
Qed.
Lemma request_tlb s r : tlb_only s (set_request r s).
Proof using Type. done. Qed.
Lemma handler_tlb s c : tlb_only s (vmm_tlb_shootdown_handler s c).
Proof using Type.
  unfold vmm_tlb_shootdown_handler. cbv zeta.
  destruct (negb (active _)); [apply tlb_only_refl|]. destruct (_ <=? _); [apply tlb_only_refl|].
  destruct (negb (mask_test _ _)); [apply tlb_only_refl|].
  eapply tlb_only_trans; [|apply request_tlb]. destruct (_ || _); [apply reload_tlb|apply tlb_only_refl].
Qed.
Lemma deliver_tlb hw s cs s' : deliver hw s cs = Some s' -> tlb_only s s'.
Proof using Type.
  revert s. induction cs as [|c cs IH]; intros s; cbn [deliver]; [by intros [= ->]|].
  destruct (cpus s !! Z.to_nat c) as [x|]; [|done]. cbn [mbind option_bind].
  destruct (_ && _); [|done]. intros E. apply IH in E. eapply tlb_only_trans; [apply handler_tlb|done].
Qed.
Lemma shootdown_tlb hw s targets p s' : vmm_tlb_shootdown hw s targets p = Some s' -> tlb_only s s'.
Proof using Type.
  unfold vmm_tlb_shootdown. destruct (vmm_cpu_mask_empty _); [by intros [= ->]|].
  destruct (_ || _); [done|]. cbv zeta. destruct (deliver _ _ _) as [s1|] eqn:E; [|done].
  cbn [mbind option_bind]. destruct (vmm_tlb_acknowledged _ _); [|done]. intros [= <-].
  apply deliver_tlb in E. eapply tlb_only_trans; [apply request_tlb|].
  eapply tlb_only_trans; [exact E|]. apply request_tlb.
Qed.

(** * Translations that stay *)

Lemma mmu_same s s' g g' j md md' va :
  inv s g -> inv s' g' -> address_space_metadata s !! j = Some md ->
  address_space_metadata s' !! j = Some md' -> root md' = root md -> root md <> 0 ->
  kernel_pml4 s' = kernel_pml4 s -> gKL g' = gKL g ->
  (forall i, 256 <= i < 512 -> word (mem s') (root md) i = word (mem s) (root md) i) ->
  gL g' j !! vpath va = gL g j !! vpath va \/ 256 <= ix 39 va ->
  mmu s' (root md) va = mmu s (root md) va.
Proof using All.
  intros I I' Hj Hj' Er Hr Ek EKL Hw Hva. pose proof (ix_index 39 va) as Hx. unfold index in Hx.
  destruct (decide (ix 39 va < 256)) as [Hlow|Hhigh].
  - rewrite (mmu_user s g j md) by done. rewrite <- Er, (mmu_user s' g' j md') by congruence.
    destruct Hva as [->|]; [done|lia].
  - assert (HK : mmu s' (kernel_pml4 s) va = mmu s (kernel_pml4 s) va).
    { rewrite <- Ek at 1. by rewrite (mmu_kernel s' g'), (mmu_kernel s g), EKL. }
    pose proof (iv_space _ _ I _ _ Hj Hr) as S.
    assert (Hr' : root md' <> 0) by congruence. pose proof (iv_space _ _ I' _ _ Hj' Hr') as S'.
    destruct (sp_high _ _ _ _ _ _ _ S (ix 39 va)) as [E|[_ E]]; [lia| |];
      destruct (sp_high _ _ _ _ _ _ _ S' (ix 39 va)) as [E'|[_ E']]; [lia| | |lia| |];
      rewrite Er in E'; rewrite Hw in E' by lia; unfold mmu, path_of in *.
    + rewrite !walk_absent by (first [done|by rewrite Hw by lia]). done.
    + rewrite (walk_absent (mem s)) by done. by rewrite walk_absent by (by rewrite Hw by lia).
    + rewrite (walk_absent (mem s)) by done. by rewrite walk_absent by (by rewrite Hw by lia).
    + rewrite (walk_root (mem s') (root md) (kernel_pml4 s)) by (rewrite Hw by lia; by rewrite E', Ek).
      by rewrite HK, (walk_root (mem s) (root md) (kernel_pml4 s)).
Qed.

(** * A page is mapped *)

Definition leaf_flags (flags : Z) : Z := Z.lor flags (Z.lor PTE_USER PTE_PRESENT).
Lemma leaf_flags_user flags : is_flags flags -> user_flags (leaf_flags flags).
Proof using Type.
  intros H. unfold leaf_flags. split; [|split].
  - apply is_flags_lor; [done|]. flags.
  - rewrite has_lor. apply orb_true_r.
  - rewrite has_lor. apply orb_true_r.
Qed.

Lemma space_map_leaf m kr own k md N L p t i pa fl :
  space_ok m kr own k md N L -> N !! p = Some t -> length p = 3%nat -> index i ->
  L !! (i :: p) = None -> own !! pa = Some OHeld -> is_frame pa -> user_flags fl ->
  own !! kr = Some OKernel ->
  space_ok (write m t i (Z.lor pa fl)) kr (<[pa := OLeaf k]> own) k (insert_leaf pa md)
    N (<[i :: p := Z.lor pa fl]> L).
Proof using Type.
  intros S Hp Hl Hi HL Hheld Hf Hfl Hkr.
  assert (Hto : own !! t = Some (OTable k)) by (apply (sp_own _ _ _ _ _ _ _ S); eauto).
  destruct (user_pte_facts pa fl Hf Hfl) as (_ & _ & _ & Hpte & Hnz).
  destruct S as [S1 S2 S3 S4 S5 S6 S7 S8 S9 S10 S11].
  assert (Hnew : pa ∉ leaves md) by (rewrite <- S9; congruence).
  assert (Hpl : leaves (insert_leaf pa md) = pa :: leaves md).
  { cbn. unfold vmm_owned_insert. by rewrite frame_mask. }
  assert (Hin : forall q e, L !! q = Some e -> pte_of e ∈ leaves md).
  { intros q e Hq. destruct (S6 _ _ Hq) as (f & fl' & -> & H1 & H2 & H3).
    destruct (user_pte_facts f fl' H1 H2) as (_ & _ & _ & -> & _). done. }
  split; rewrite ?Hpl; try done.
  - rewrite <- (paged_put_insert (i :: p) (Z.lor pa fl) L Hnz). by apply paged_put.
  - intros f. rewrite lookup_insert_Some, <- S3. split; [by intros [[_ ?]|[_ ?]]|].
    intros Ho. right. split; [congruence|done].
  - intros q e. rewrite lookup_insert_Some. intros [[<- <-]|[_ Hq]].
    + exists pa, fl. split; [done|]. split; [done|]. split; [done|apply list_elem_of_here].
    + destruct (S6 _ _ Hq) as (f & fl' & ? & ? & ? & ?). exists f, fl'.
      split; [done|]. split; [done|]. split; [done|]. by apply list_elem_of_further.
  - intros q q' e e'. rewrite !lookup_insert_Some.
    intros [[<- <-]|[Hq Eq]] [[<- <-]|[Hq' Eq']] E; [done| | |eauto].
    + rewrite Hpte in E. apply Hin in Eq'. rewrite <- E in Eq'. done.
    + rewrite Hpte in E. apply Hin in Eq. rewrite E in Eq. done.
  - intros f. rewrite elem_of_cons. intros [->|Hf'].
    + exists (i :: p), (Z.lor pa fl). by rewrite lookup_insert_eq.
    + destruct (S8 f Hf') as (q & e & Hq & He). exists q, e. split; [|done].
      rewrite lookup_insert_ne; [done|]. intros <-. congruence.
  - intros f. rewrite elem_of_cons, <- S9, lookup_insert_Some. split; [naive_solver|].
    intros [->|Ho]; [by left|]. right. split; [congruence|done].
  - by constructor.
  - intros j Hj. assert (index j) by (unfold index; lia).
    assert (Hroot : t <> root md).
    { intros ->. pose proof (tr_inj _ _ _ _ (pg_tree _ _ _ _ _ S2) _ _ _ Hp S1) as ->. done. }
    rewrite !word_write_ne; try done; [by apply S11|left; congruence|by left].
Qed.

(** What a commit leaves: the page [va] of [k] translates to [e], frame [pa] is
    a leaf of [k], and the tables that were missing are its tables. *)
Record mapped (c : Z) (k : nat) s g (md : metadata) (va pa e : Z) (rs rs' : list reserved) s' g' : Prop := {
  ma_inv : inv s' g';
  ma_kernel : kernel_pml4 s' = kernel_pml4 s;
  ma_frames : frames s' = frames s;
  ma_cpus : cpus_agree s s';
  ma_record : exists md', address_space_metadata s' = <[k := md']> (address_space_metadata s) /\
    root md' = root md /\ leaves md' = pa :: leaves md /\ active_cpu_mask md' = active_cpu_mask md /\
    destroy_pending md' = destroy_pending md;
  ma_others : others_same k g g';
  ma_pages : gL g' k = <[vpath va := e]> (gL g k);
  ma_left : Forall2 (fun r r' => r' = r \/ r' = nothing_reserved) rs rs';
  ma_own : forall f o, gown g' !! f = Some o <->
    (f = pa /\ o = OLeaf k) \/
    (f <> pa /\ ((used_up rs rs' f /\ o = OTable k) \/ (~ used_up rs rs' f /\ gown g !! f = Some o)));
  ma_mem : only_tables_of k md s s' g;
  ma_blank : forall f, gown g !! f = Some OHeld -> ~ used_up rs rs' f -> mem s' !! f = mem s !! f;
  ma_tlb : exists s2, cpus s2 = cpus s /\ s' = invlpg_if_active s2 c (root md) va;
}.

Lemma published_same s s' r :
  kernel_pml4 s' = kernel_pml4 s -> mem s' !! kernel_pml4 s = mem s !! kernel_pml4 s ->
  (forall i, 256 <= i < 512 -> word (mem s') r i = word (mem s) r i) ->
  published s' r <-> published s r.
Proof using Type.
  intros Ek Em Hw. unfold published. rewrite Ek.
  split; intros H i Hi Hs; specialize (H i Hi Hs); rewrite Hw, (word_agree (mem s) (mem s')) in *; done.
Qed.

Lemma mapped_published c k s g md va pa e rs rs' s' g' :
  inv s g -> mapped c k s g md va pa e rs rs' s' g' -> published s' (root md) <-> published s (root md).
Proof using All.
  intros I M. destruct (ma_mem _ _ _ _ _ _ _ _ _ _ _ _ M) as [M1 M2].
  apply published_same; [by apply M| |done]. apply (M2 _ OKernel); [done..|].
  by apply (iv_kown _ _ I [] _), I.
Qed.

(** The writes of a commit, after the descent to the lowest table. *)
Lemma leaf_written k s g md va pa flags rs t rs' s1 g1 s2 c :
  inv s g -> address_space_metadata s !! k = Some md -> root md <> 0 ->
  is_flags flags -> is_frame pa -> gown g !! pa = Some OHeld -> pa ∉ r_table <$> rs ->
  (forall f, f ∈ r_table <$> rs -> gown g !! f = Some OHeld) ->
  gL g k !! vpath va = None -> descended k s g md (vdir va) rs t rs' s1 g1 ->
  s2 = set_mem (write (mem s1) t (ix 12 va) (Z.lor pa (leaf_flags flags)))
         (alter_metadata s1 k (insert_leaf pa)) ->
  exists g', mapped c k s g md va pa (Z.lor pa (leaf_flags flags)) rs rs'
    (invlpg_if_active s2 c (root md) va) g'.
Proof using All.
  intros I Hk Hr Hfl Hpa Hheld Hnot Hrs HL [D1 D2 (md1 & D3 & D3') D4 D5 D6 D7 D8 D9] ->.
  destruct D2 as (Ek & Ef & Ec & _). destruct D3' as (R1 & R2 & R3 & R4 & R5).
  destruct D7 as [F7 O7].
  assert (Hlk : (k < length (address_space_metadata s))%nat) by (by eapply lookup_lt_Some).
  assert (Hk1 : address_space_metadata s1 !! k = Some md1) by (by rewrite D3, list_lookup_insert_eq).
  assert (Hr1 : root md1 <> 0) by congruence.
  pose proof (iv_space _ _ D1 _ _ Hk1 Hr1) as S1.
  assert (Hheld1 : gown g1 !! pa = Some OHeld).
  { apply O7. right. split; [|done]. by intros [? _]. }
  assert (Hto : gown g1 !! t = Some (OTable k)) by (apply (sp_own _ _ _ _ _ _ _ S1); eauto).
  set (e := Z.lor pa (leaf_flags flags)).
  exists (with_space k (gN g1 k) (<[vpath va := e]> (gL g1 k)) (<[pa := OLeaf k]> (gown g1)) g1).
  set (s2 := set_mem _ _). pose proof (invlpg_tlb s2 c (root md) va) as T.
  split.
  - apply (tlb_only_inv _ _ _ T).
    apply (inv_space_change s1 _ g1 k md1 (insert_leaf pa md1)); try done; try apply D1.
    + unfold s2. cbn. by rewrite <- (alter_metadata_eq s1 k md1).
    + intros x o. rewrite lookup_insert_Some. intros [[<- _]|[_ Ho]]; by eapply (iv_held _ _ D1).
    + intros x o H1 H2 H3. rewrite lookup_insert_Some. split; [intros [[_ ?]|[_ ?]]; congruence|].
      intros Ho. right. split; [congruence|done].
    + intros x o H1 H2 Ho. cbn. apply write_ne. congruence.
    + rewrite vpath_eq. apply space_map_leaf; try done.
      * apply ix_index.
      * by rewrite D6, <- vpath_eq.
      * by apply leaf_flags_user.
      * by apply (iv_kown _ _ D1 [] _), D1.
  - by rewrite (to_kernel _ _ T), <- Ek.
  - by rewrite (to_frames _ _ T), <- Ef.
  - unfold cpus_agree. rewrite (to_cpus _ _ T). cbn. by rewrite Ec.
  - exists (insert_leaf pa md1). rewrite (to_metadata _ _ T). unfold s2. cbn [address_space_metadata set_mem].
    rewrite (alter_metadata_eq s1 k md1) by done. rewrite D3, list_insert_insert_eq.
    split; [done|]. cbn. unfold vmm_owned_insert. rewrite frame_mask by done. split; [done|].
    split; [congruence|]. done.
  - eapply others_same_trans; [exact D5|]. split; [done|]. split; [done|]. intros j Hj. cbn.
    by rewrite !slot_upd_ne.
  - cbn. by rewrite slot_upd_eq, D6.
  - done.
  - intros f o. cbn. rewrite lookup_insert_Some, O7. naive_solver.
  - destruct D8 as [W8 M8]. split; rewrite (to_mem _ _ T); unfold s2; cbn [mem set_mem].
    + intros i Hi. rewrite word_write_ne; [by apply W8|apply ix_index|unfold index; lia|]. left.
      intros ->. pose proof (tr_inj _ _ _ _ (pg_tree _ _ _ _ _ (sp_paged _ _ _ _ _ _ _ S1)) _ _ _ D4
        (eq_trans (sp_root _ _ _ _ _ _ _ S1) (f_equal Some R1))) as X. done.
    + intros f o H1 H2 Ho. rewrite write_ne; [by apply (M8 f o)|]. intros <-.
      assert (gown g1 !! t = Some o); [|congruence]. apply O7. right. split; [|done].
      intros [Hu _]. apply Hrs in Hu. congruence.
  - intros f Hf Hn. rewrite (to_mem _ _ T), <- (D9 f) by done. unfold s2. cbn [mem set_mem].
    apply write_ne. intros <-. assert (gown g1 !! t = Some OHeld); [|congruence].
    apply O7. right. done.
  - exists s2. by rewrite <- Ec.
Qed.

(** The commit of a mapping, when the address space takes mappings and the page
    is free: it panics exactly when a slot of the kernel is not published. *)
Lemma map_commit_spec s g k md c va pa flags rs :
  inv s g -> address_space_metadata s !! k = Some md -> root md <> 0 -> 0 <= ix 39 va < 256 ->
  is_flags flags -> is_frame pa -> gown g !! pa = Some OHeld -> pa ∉ r_table <$> rs ->
  ready s g rs -> length rs = 3%nat -> destroy_pending md = false -> gL g k !! vpath va = None ->
  exists rs' s' g' b, mapped c k s g md va pa (Z.lor pa (leaf_flags flags)) rs rs' s' g' /\
    (b = true <-> published s (root md)) /\
    map_commit s c (root md) va pa flags 0 (Reservation true rs) =
      if b then Some (Some (vmm_capture_active_targets_locked c md), Reservation false rs', s')
      else None.
Proof using All.
  intros I Hk Hr Hva Hfl Hpa Hheld Hnot Hrs Hlen Hdp HL.
  destruct (user_children_spec k [ix 39 va; ix 30 va; ix 21 va] s g md [] (root md) rs)
    as (t & rs' & s1 & g1 & E & D); try done.
  { by apply (iv_space _ _ I). }
  { apply user_indexes. }
  { intros _. exists (ix 39 va), [ix 30 va; ix 21 va]. split; [done|lia]. }
  change (rev _ ++ []) with (vdir va) in D.
  pose proof (de_inv _ _ _ _ _ _ _ _ _ _ D) as I1.
  destruct (de_record _ _ _ _ _ _ _ _ _ _ D) as (md1 & Emd & R1 & R2 & R3 & R4 & R5).
  assert (Hlk : (k < length (address_space_metadata s))%nat) by (by eapply lookup_lt_Some).
  assert (Hk1 : address_space_metadata s1 !! k = Some md1) by (by rewrite Emd, list_lookup_insert_eq).
  assert (Hr1 : root md1 <> 0) by congruence.
  pose proof (iv_space _ _ I1 _ _ Hk1 Hr1) as S1.
  assert (Htab : is_table (mem s1) t).
  { eapply (tr_table _ _ _ _ (pg_tree _ _ _ _ _ (sp_paged _ _ _ _ _ _ _ S1))), D. }
  assert (Htf : is_frame t) by (eapply space_frame; [exact S1|apply D]).
  destruct (leaf_written k s g md va pa flags rs t rs' s1 g1 _ c I Hk Hr Hfl Hpa Hheld Hnot
    ltac:(intros f Hf; by apply (ready_frames _ _ _ _ Hrs)) HL D eq_refl) as (g' & M).
  set (s2 := set_mem _ _) in M. set (s3 := invlpg_if_active s2 c (root md) va) in M.
  destruct (ma_record _ _ _ _ _ _ _ _ _ _ _ _ M) as (md3 & Emd3 & Q1 & Q2 & Q3 & Q4).
  assert (Hk3 : address_space_metadata s3 !! k = Some md3) by (by rewrite Emd3, list_lookup_insert_eq).
  pose proof (ma_inv _ _ _ _ _ _ _ _ _ _ _ _ M) as I3.
  destruct (validate_spec s3 g' k md3 I3 Hk3 ltac:(congruence)) as (b & Ev & Hb).
  rewrite Q1 in Ev, Hb. rewrite (mapped_published _ _ _ _ _ _ _ _ _ _ _ _ I M) in Hb.
  exists rs', s3, g', b. split; [done|]. split; [done|].
  unfold map_commit. rewrite (find_space s g k md) by done. rewrite Hk, bind_Some_l, Hdp.
  rewrite (available_spec s g k md) by (first [done|lia]). rewrite HL, bind_Some_l.
  rewrite bool_decide_eq_false_2 by (by intros [? ?]). cbn [negb orb].
  replace (vmm_owned_contains (leaves md) pa) with false.
  2: { symmetry. apply contains_false; [done|].
       rewrite <- (sp_leaf_own _ _ _ _ _ _ _ (iv_space _ _ I _ _ Hk Hr)). congruence. }
  cbn [res_tables res_leaf]. rewrite E, bind_Some_l. rewrite frame_nonzero by done.
  rewrite store_write by (first [done|apply ix_index]). rewrite bind_Some_l, frame_mask by done.
  change (set_mem _ (alter_metadata s1 k (insert_leaf pa))) with s2. fold s3.
  rewrite entry_word, (kernel_low s3 g') by (first [done|lia]). rewrite bind_Some_l, Ev, bind_Some_l, Hk3.
  destruct b; [|done]. cbn [negb orb Z.eqb]. rewrite bind_Some_l.
  unfold vmm_capture_active_targets_locked. by rewrite Q3.
Qed.

(** It changes nothing when the page is taken or the space is being destroyed. *)
Lemma map_commit_refused s g k md c va pa flags before res :
  inv s g -> address_space_metadata s !! k = Some md -> root md <> 0 -> ix 39 va < 256 ->
  destroy_pending md = true \/ is_Some (gL g k !! vpath va) ->
  map_commit s c (root md) va pa flags before res = Some (None, res, s).
Proof using All.
  intros I Hk Hr Hva Hno. unfold map_commit. rewrite (find_space s g k md) by done.
  rewrite Hk, bind_Some_l. destruct (destroy_pending md); [done|].
  rewrite (available_spec s g k md) by done. destruct Hno as [|Hs]; [done|].
  by rewrite bind_Some_l, bool_decide_eq_true_2.
Qed.

(** * A page is unmapped *)

Lemma space_unmap_leaf m kr own k md N L p t i f fl l :
  space_ok m kr own k md N L -> N !! p = Some t -> length p = 3%nat -> index i ->
  L !! (i :: p) = Some (Z.lor f fl) -> is_frame f -> user_flags fl -> leaves md ≡ₚ f :: l ->
  own !! kr = Some OKernel ->
  space_ok (write m t i 0) kr (<[f := OHeld]> own) k (remove_leaf l md) N (delete (i :: p) L).
Proof using Type.
  intros S Hp Hl Hi HL Hf Hfl Hperm Hkr.
  assert (Hto : own !! t = Some (OTable k)) by (apply (sp_own _ _ _ _ _ _ _ S); eauto).
  destruct (user_pte_facts f fl Hf Hfl) as (_ & _ & _ & Hpte & Hnz).
  destruct S as [S1 S2 S3 S4 S5 S6 S7 S8 S9 S10 S11].
  assert (Hin : forall x, x ∈ leaves md <-> x = f \/ x ∈ l) by (intros x; by rewrite Hperm, elem_of_cons).
  assert (Hnd : (f ∉ l) /\ NoDup l) by (rewrite Hperm in S10; by apply NoDup_cons in S10).
  destruct Hnd as [Hfl' Hnd].
  assert (Hfo : own !! f = Some (OLeaf k)) by (apply S9, Hin; by left).
  split; cbn [leaves remove_leaf root tables]; try done.
  - change (delete (i :: p) L) with (put (i :: p) 0 L). by apply paged_put.
  - intros x. rewrite lookup_insert_Some, <- S3. split; [by intros [[_ ?]|[_ ?]]|].
    intros Ho. right. split; [congruence|done].
  - intros q e. rewrite lookup_delete_Some. intros [Hne Hq].
    destruct (S6 _ _ Hq) as (x & fl' & -> & H1 & H2 & H3). exists x, fl'.
    split; [done|]. split; [done|]. split; [done|]. apply Hin in H3 as [->|]; [|done].
    destruct Hne. apply (S7 _ _ _ _ HL Hq). rewrite Hpte.
    by destruct (user_pte_facts f fl' H1 H2) as (_ & _ & _ & -> & _).
  - intros q q' e e'. rewrite !lookup_delete_Some. intros [_ ?] [_ ?]. eauto.
  - intros x Hx. destruct (S8 x) as (q & e & Hq & He); [apply Hin; by right|].
    exists q, e. split; [|done]. rewrite lookup_delete_ne; [done|]. intros <-. simplify_eq. congruence.
  - intros x. rewrite lookup_insert_Some, S9, Hin. split; [naive_solver|]. intros Hx. right.
    split; [congruence|by right].
  - intros j Hj. assert (index j) by (unfold index; lia).
    assert (Hroot : t <> root md).
    { intros ->. pose proof (tr_inj _ _ _ _ (pg_tree _ _ _ _ _ S2) _ _ _ Hp S1) as ->. done. }
    rewrite !word_write_ne; try done; [by apply S11|left; congruence|by left].
Qed.

(** What a removal leaves. *)
Record unmapped (c : Z) (k : nat) s g (md : metadata) (va f : Z) s' g' : Prop := {
  un_inv : inv s' g';
  un_kernel : kernel_pml4 s' = kernel_pml4 s;
  un_frames : frames s' = frames s;
  un_cpus : cpus_agree s s';
  un_record : exists md', address_space_metadata s' = <[k := md']> (address_space_metadata s) /\
    root md' = root md /\ leaves md ≡ₚ f :: leaves md' /\ active_cpu_mask md' = active_cpu_mask md /\
    destroy_pending md' = destroy_pending md;
  un_others : others_same k g g';
  un_pages : gL g' k = delete (vpath va) (gL g k);
  un_own : gown g' = <[f := OHeld]> (gown g);
  un_leaf : gown g !! f = Some (OLeaf k);
  un_mem : only_tables_of k md s s' g;
  un_blank : forall x, gown g !! x = Some OHeld -> mem s' !! x = mem s !! x;
  un_tlb : exists s2, cpus s2 = cpus s /\ s' = invlpg_if_active s2 c (root md) va;
}.

Lemma leaf_cleared k s g md va t f fl l s2 c :
  inv s g -> address_space_metadata s !! k = Some md -> root md <> 0 ->
  gN g k !! vdir va = Some t -> gL g k !! vpath va = Some (Z.lor f fl) -> is_frame f -> user_flags fl ->
  leaves md ≡ₚ f :: l ->
  s2 = set_mem (write (mem s) t (ix 12 va) 0) (alter_metadata s k (remove_leaf l)) ->
  exists g', unmapped c k s g md va f (invlpg_if_active s2 c (root md) va) g'.
Proof using All.
  intros I Hk Hr Ht HL Hf Hfl Hperm ->. pose proof (iv_space _ _ I _ _ Hk Hr) as S.
  assert (Hto : gown g !! t = Some (OTable k)) by (apply (sp_own _ _ _ _ _ _ _ S); eauto).
  assert (Hleaf : gown g !! f = Some (OLeaf k)).
  { apply (sp_leaf_own _ _ _ _ _ _ _ S). rewrite Hperm. apply list_elem_of_here. }
  exists (with_space k (gN g k) (delete (vpath va) (gL g k)) (<[f := OHeld]> (gown g)) g).
  set (s2 := set_mem _ _). pose proof (invlpg_tlb s2 c (root md) va) as T.
  assert (Hasm : address_space_metadata s2 = <[k := remove_leaf l md]> (address_space_metadata s)).
  { unfold s2. cbn [address_space_metadata set_mem]. by apply alter_metadata_eq. }
  split.
  - apply (tlb_only_inv _ _ _ T).
    apply (inv_space_change s _ g k md (remove_leaf l md)); try done; try apply I.
    + intros x o. rewrite lookup_insert_Some. intros [[<- _]|[_ Ho]]; by eapply (iv_held _ _ I).
    + intros x o H1 H2 H3. rewrite lookup_insert_Some. split; [intros [[_ ?]|[_ ?]]; congruence|].
      intros Ho. right. split; [congruence|done].
    + intros x o H1 H2 Ho. cbn. apply write_ne. congruence.
    + rewrite vpath_eq in *. apply (space_unmap_leaf _ _ _ _ _ _ _ _ _ _ f fl); try done.
      * apply ix_index.
      * by apply (iv_kown _ _ I [] _), I.
  - by rewrite (to_kernel _ _ T).
  - by rewrite (to_frames _ _ T).
  - unfold cpus_agree. by rewrite (to_cpus _ _ T).
  - exists (remove_leaf l md). rewrite (to_metadata _ _ T). done.
  - split; [done|]. split; [done|]. intros j Hj. cbn. by rewrite !slot_upd_ne.
  - cbn. by rewrite slot_upd_eq.
  - done.
  - done.
  - split; rewrite (to_mem _ _ T); unfold s2; cbn [mem set_mem].
    + intros i Hi. rewrite word_write_ne; [done|apply ix_index|unfold index; lia|]. left. intros ->.
      by pose proof (tr_inj _ _ _ _ (pg_tree _ _ _ _ _ (sp_paged _ _ _ _ _ _ _ S)) _ _ _ Ht
        (sp_root _ _ _ _ _ _ _ S)).
    + intros x o H1 H2 Ho. apply write_ne. congruence.
  - intros x Hx. rewrite (to_mem _ _ T). unfold s2. cbn [mem set_mem]. apply write_ne. congruence.
  - by exists s2.
Qed.

Lemma owned_user_link md f : is_frame f -> f ∈ tables md -> owned_user_table md (Z.lor f USER_LINK) = true.
Proof using Type.
  intros Hf Hin. unfold owned_user_table.
  destruct (user_link_facts f Hf) as (_ & _ & -> & _ & Hp & _ & ->). unfold pte_of in Hp. rewrite Hp.
  by rewrite (proj2 (contains_spec _ _ Hf) Hin).
Qed.

(** One level of the walk to a page. *)
Lemma unmap_level s g k md p t i :
  inv s g -> address_space_metadata s !! k = Some md -> root md <> 0 -> gN g k !! p = Some t ->
  (length p < 3)%nat -> index i -> user_dom p i = true ->
  (exists f, gN g k !! (i :: p) = Some f /\ entry s t i = Some (Z.lor f USER_LINK) /\
     owned_user_table md (Z.lor f USER_LINK) = true /\ vmm_table_from_phys (Z.lor f USER_LINK) = f) \/
  (gN g k !! (i :: p) = None /\ entry s t i = Some 0).
Proof using All.
  intros I Hk Hr Hp Hl Hi Hd. pose proof (iv_space _ _ I _ _ Hk Hr) as S.
  destruct (user_child (mem s) (gN g k) p t i) as [(f & Ef & Hf & W)|[En W]];
    [by apply S|done..|left|by right].
  exists f. split; [done|]. split; [done|]. split; [|by apply user_link_facts].
  apply owned_user_link; [done|]. apply (sp_tables _ _ _ _ _ _ _ S). by exists (i :: p).
Qed.

Lemma unmap_commit_spec s g k md c va :
  inv s g -> address_space_metadata s !! k = Some md -> root md <> 0 -> ix 39 va < 256 ->
  destroy_pending md = false ->
  match gL g k !! vpath va with
  | Some e => exists s' g', unmapped c k s g md va (pte_of e) s' g' /\
      unmap_commit s c (root md) va =
        Some (Some (pte_of e, vmm_capture_active_targets_locked c md), s')
  | None => unmap_commit s c (root md) va = Some (None, s)
  end.
Proof using All.
  intros I Hk Hr Hva Hdp. pose proof (iv_space _ _ I _ _ Hk Hr) as S.
  pose proof (sp_paged _ _ _ _ _ _ _ S) as P.
  unfold unmap_commit. rewrite (find_space s g k md) by done. rewrite Hk, bind_Some_l, Hdp.
  destruct (unmap_level s g k md [] (root md) (ix 39 va)) as [(f1 & N1 & -> & O1 & F1)|[N1 ->]];
    [done|done|done|apply S|cbn; lia|apply ix_index|cbn; lia| |].
  2: { rewrite bind_Some_l. pose proof (paged_none _ _ _ _ _ (ix 12 va) [ix 21 va; ix 30 va] _ P N1) as E.
       change (gL g k !! vpath va = None) in E. by rewrite E. }
  rewrite bind_Some_l, O1, F1. cbn [negb]. cbv zeta.
  destruct (unmap_level s g k md [ix 39 va] f1 (ix 30 va)) as [(f2 & N2 & -> & O2 & F2)|[N2 ->]];
    [done|done|done|done|cbn; lia|apply ix_index|done| |].
  2: { rewrite bind_Some_l. pose proof (paged_none _ _ _ _ _ (ix 12 va) [ix 21 va] _ P N2) as E.
       change (gL g k !! vpath va = None) in E. by rewrite E. }
  rewrite bind_Some_l, O2, F2. cbn [negb]. cbv zeta.
  destruct (unmap_level s g k md [ix 30 va; ix 39 va] f2 (ix 21 va)) as [(f3 & N3 & -> & O3 & F3)|[N3 ->]];
    [done|done|done|done|cbn; lia|apply ix_index|done| |].
  2: { rewrite bind_Some_l. pose proof (paged_none _ _ _ _ _ (ix 12 va) [] _ P N3) as E.
       change (gL g k !! vpath va = None) in E. by rewrite E. }
  rewrite bind_Some_l, O3, F3. cbn [negb]. cbv zeta. fold (vdir va) in N3.
  rewrite entry_word, (pg_entry _ _ _ _ _ P (vdir va) f3) by (first [done|apply ix_index]).
  rewrite bind_Some_l, <- vpath_eq. destruct (gL g k !! vpath va) as [e|] eqn:EL; cbn [default]; [|done].
  change (id e) with e.
  destruct (sp_pte _ _ _ _ _ _ _ S _ _ EL) as (f & fl & -> & Hf & Hfl & Hin).
  destruct (user_pte_facts f fl Hf Hfl) as (_ & _ & -> & Hpte & _). cbn [negb].
  unfold pte_of in Hpte |- *. rewrite Hpte. unfold vmm_owned_remove. rewrite frame_mask by done.
  pose proof (remove_first_spec (leaves md) f) as Hrem.
  destruct (remove_first (leaves md) f) as [l|]; [|done]. destruct Hrem as [_ Hperm].
  assert (Htab : is_table (mem s) f3) by (by eapply (tr_table _ _ _ _ (pg_tree _ _ _ _ _ P))).
  rewrite store_write by (first [done|apply ix_index]). rewrite bind_Some_l.
  destruct (leaf_cleared k s g md va f3 f fl l _ c I Hk Hr N3 EL Hf Hfl Hperm eq_refl) as (g' & U).
  eexists _, g'. split; [exact U|]. done.
Qed.

End user.
End VmmUser.
