(* ===== verification/VmmTlb.v ===== *)
(** Masks of CPUs, the shootdown of cached translations, and the coherence of
    what the CPUs have cached with the page tables. *)
From stdpp Require Import gmap.
From S2P Require Import Prelude Pmm Vmm VmmTree VmmInv VmmProofs VmmValid VmmUser.
Import Pmm Vmm VmmTree VmmInv VmmProofs VmmValid VmmUser.

Module VmmTlb.

(** * Masks *)

Definition cpu_index (c : Z) : Prop := 0 <= c < CPU_MAX_COUNT.

Lemma mask_word_lt m c : mask_wf m -> cpu_index c -> (mask_word c < length m)%nat.
Proof.
  intros [-> _] Hc. unfold cpu_index, CPU_MAX_COUNT, mask_word, VMM_CPU_MASK_WORDS in *.
  Z.div_mod_to_equations. lia.
Qed.

Lemma mask_test_bit m c w : m !! mask_word c = Some w -> mask_test m c = Z.testbit w (c mod 64).
Proof.
  intros E. unfold mask_test. rewrite E. unfold has, mask_bit. apply Pmm.mask_test.
  apply Z.mod_pos_bound. lia.
Qed.

Lemma same_word c d : mask_word c = mask_word d -> cpu_index c -> cpu_index d ->
  (d mod 64 =? c mod 64) = (d =? c).
Proof.
  unfold mask_word, cpu_index. intros E Hc Hd. apply Bool.eq_iff_eq_true. rewrite !Z.eqb_eq.
  Z.div_mod_to_equations. lia.
Qed.

Lemma mask_alter m c f :
  mask_wf m -> cpu_index c -> (forall w, is_u64 w -> is_u64 (f w)) -> mask_wf (alter f (mask_word c) m).
Proof.
  intros [Hl Hf] Hc H. split; [by rewrite length_alter|]. apply Forall_lookup. intros i w.
  destruct (decide (i = mask_word c)) as [->|].
  - rewrite list_lookup_alter_eq. intros E. apply fmap_Some in E as (v & E & ->). apply H.
    rewrite Forall_lookup in Hf. eauto.
  - rewrite list_lookup_alter_ne by done. rewrite Forall_lookup in Hf. eauto.
Qed.

Lemma u64_bits a : 0 <= a -> (forall n, 64 <= n -> Z.testbit a n = false) -> is_u64 a.
Proof.
  intros H0 H. unfold is_u64. split; [done|]. change 18446744073709551616 with (2 ^ 64).
  destruct (decide (a = 0)) as [->|]; [done|]. apply Z.log2_lt_pow2; [lia|].
  destruct (decide (Z.log2 a < 64)) as [|Hge]; [done|]. exfalso.
  assert (Z.testbit a (Z.log2 a) = true) by (apply Z.bit_log2; lia). rewrite H in *; [done|lia].
Qed.
Lemma is_u64_bits a n : is_u64 a -> 64 <= n -> Z.testbit a n = false.
Proof.
  intros Ha Hn. unfold is_u64 in Ha. destruct (decide (a = 0)) as [->|]; [apply Z.bits_0|].
  apply Z.bits_above_log2; [lia|]. apply Z.log2_lt_pow2; [lia|].
  assert (2 ^ 64 <= 2 ^ n) by (apply Z.pow_le_mono_r; lia). lia.
Qed.

Lemma mask_set_wf m c : mask_wf m -> cpu_index c -> mask_wf (mask_set m c).
Proof.
  intros Hm Hc. apply mask_alter; [done..|]. intros w Hw. unfold mask_bit. apply u64_bits.
  - apply Z.lor_nonneg. split; [apply Hw|]. apply Z.shiftl_nonneg. lia.
  - intros n Hn. rewrite Z.lor_spec, (is_u64_bits w) by done.
    rewrite Pmm.shiftl_one_testbit by mach. apply Z.eqb_neq. mach.
Qed.
Lemma mask_clear_wf m c : mask_wf m -> cpu_index c -> mask_wf (mask_clear m c).
Proof.
  intros Hm Hc. apply mask_alter; [done..|]. intros w Hw. apply u64_bits.
  - apply Z.land_nonneg. left. apply Hw.
  - intros n Hn. by rewrite Z.land_spec, (is_u64_bits w).
Qed.

Lemma mask_set_test m c d :
  mask_wf m -> cpu_index c -> cpu_index d -> mask_test (mask_set m c) d = (d =? c) || mask_test m d.
Proof.
  intros Hm Hc Hd. unfold mask_set.
  destruct (lookup_lt_is_Some_2 m _ (mask_word_lt m d Hm Hd)) as [w Hw].
  destruct (decide (mask_word c = mask_word d)) as [E|E].
  - rewrite (mask_test_bit _ d (Z.lor w (mask_bit c))), (mask_test_bit m d w) by
      (first [done|by rewrite E, list_lookup_alter_eq, Hw]).
    unfold mask_bit. rewrite Z.lor_spec, Pmm.shiftl_one_testbit by mach.
    rewrite same_word by done. apply orb_comm.
  - rewrite (mask_test_bit _ d w), (mask_test_bit m d w) by
      (first [done|by rewrite list_lookup_alter_ne]).
    replace (d =? c) with false; [done|]. symmetry. apply Z.eqb_neq. congruence.
Qed.
Lemma mask_clear_test m c d :
  mask_wf m -> cpu_index c -> cpu_index d ->
  mask_test (mask_clear m c) d = negb (d =? c) && mask_test m d.
Proof.
  intros Hm Hc Hd. unfold mask_clear.
  destruct (lookup_lt_is_Some_2 m _ (mask_word_lt m d Hm Hd)) as [w Hw].
  destruct (decide (mask_word c = mask_word d)) as [E|E].
  - rewrite (mask_test_bit _ d (Z.land w (u64 (Z.lnot (mask_bit c))))), (mask_test_bit m d w) by
      (first [done|by rewrite E, list_lookup_alter_eq, Hw]).
    unfold mask_bit. rewrite Z.land_spec. unfold u64. change 18446744073709551616 with (2 ^ 64).
    rewrite Z.mod_pow2_bits_low, Z.lnot_spec, Pmm.shiftl_one_testbit by mach.
    rewrite same_word by done. apply andb_comm.
  - rewrite (mask_test_bit _ d w), (mask_test_bit m d w) by
      (first [done|by rewrite list_lookup_alter_ne]).
    replace (d =? c) with false; [done|]. symmetry. apply Z.eqb_neq. congruence.
Qed.

Lemma no_cpus_wf : mask_wf no_cpus.
Proof. split; [done|]. unfold no_cpus. apply Forall_replicate. unfold is_u64. lia. Qed.
Lemma no_cpus_test c : mask_test no_cpus c = false.
Proof.
  unfold mask_test. destruct (no_cpus !! mask_word c) as [w|] eqn:E; [|done].
  apply lookup_replicate in E as [-> _]. done.
Qed.

(** Two words with the same bits for all CPUs. *)
Lemma mask_words (P : bool -> bool -> Prop) m m' i w w' :
  mask_wf m -> mask_wf m' -> m !! i = Some w -> m' !! i = Some w' ->
  (forall c, cpu_index c -> P (mask_test m c) (mask_test m' c)) -> P false false ->
  forall n, 0 <= n -> P (Z.testbit w n) (Z.testbit w' n).
Proof.
  intros [Hl Hf] [Hl' Hf'] Hi Hi' H H0 n Hn. rewrite Forall_lookup in Hf, Hf'.
  destruct (decide (n < 64)) as [Hlt|].
  - assert (Hil : (i < 4)%nat) by (change 4%nat with VMM_CPU_MASK_WORDS; rewrite <- Hl; by eapply lookup_lt_Some).
    specialize (H (64 * Z.of_nat i + n)).
    assert (Hw : mask_word (64 * Z.of_nat i + n) = i).
    { unfold mask_word. rewrite Z.mul_comm, Z.div_add_l, Z.div_small by lia. lia. }
    rewrite (mask_test_bit m _ w), (mask_test_bit m' _ w') in H by (by rewrite Hw).
    rewrite Z.add_comm, Z.mul_comm, Z.mod_add, Z.mod_small in H by lia. apply H.
    unfold cpu_index, CPU_MAX_COUNT. lia.
  - rewrite !is_u64_bits by (first [lia|by eauto]). done.
Qed.

Lemma mask_empty_spec m : mask_wf m -> vmm_cpu_mask_empty m = true <-> forall c, cpu_index c -> mask_test m c = false.
Proof.
  intros Hm. unfold vmm_cpu_mask_empty. rewrite forallb_forall. split.
  - intros H c Hc. destruct (lookup_lt_is_Some_2 m _ (mask_word_lt m c Hm Hc)) as [w Hw].
    rewrite (mask_test_bit m c w Hw). specialize (H w). apply list_elem_of_lookup_2 in Hw.
    apply list_elem_of_In in Hw. apply H, Z.eqb_eq in Hw as ->. apply Z.bits_0.
  - intros H w Hw. apply list_elem_of_In, list_elem_of_lookup in Hw as [i Hi]. apply Z.eqb_eq.
    apply Z.bits_inj'. intros n Hn. rewrite Z.bits_0.
    by apply (mask_words (fun a _ => a = false) m m i w w).
Qed.

Lemma mask_subset_words m m' :
  mask_wf m -> mask_wf m' -> (forall c, cpu_index c -> mask_test m c = true -> mask_test m' c = true) ->
  forallb (fun '(a, t) => Z.land a t =? t) (zip m' m) = true.
Proof.
  intros Hm Hm' H. apply forallb_forall. intros [a t] Hin.
  apply list_elem_of_In, list_elem_of_lookup in Hin as [i Hi].
  apply lookup_zip_Some in Hi as [Ha Ht]. apply Z.eqb_eq, Z.bits_inj'. intros n Hn.
  rewrite Z.land_spec.
  assert (X : Z.testbit t n = true -> Z.testbit a n = true).
  { by apply (mask_words (fun x y => x = true -> y = true) m m' i t a). }
  destruct (Z.testbit t n); [by rewrite X|apply andb_false_r].
Qed.

Lemma mask_cpus_in m c : c ∈ mask_cpus m <-> cpu_index c /\ mask_test m c = true.
Proof. unfold mask_cpus. rewrite list_elem_of_filter, elem_of_seqZ. unfold cpu_index. naive_solver lia. Qed.

(** * Shootdown *)

Section tlb.
Context {A : Type} `{!FrameAllocator A, !AllocatorLaws A}.
Implicit Types (s : vmm A) (g : ghost) (x : cpu).

(** CPU [x] becomes [x'] and keeps a part of what it had cached; if [flush] it
    keeps nothing. *)
Definition shrinks (flush : Prop) x x' : Prop :=
  cpu_view x' = cpu_view x /\ tlb x' ⊆ tlb x /\ (flush -> tlb x' = ∅).
Definition all_shrink s s' (flush : nat -> cpu -> Prop) : Prop :=
  forall c x', cpus s' !! c = Some x' -> exists x, cpus s !! c = Some x /\ shrinks (flush c x) x x'.

Lemma shrinks_refl x : shrinks False x x.
Proof. by split. Qed.
Lemma shrinks_trans F G x1 x2 x3 : shrinks F x1 x2 -> shrinks G x2 x3 -> shrinks (F \/ G) x1 x3.
Proof.
  intros (V1 & S1 & F1) (V2 & S2 & F2). split; [congruence|]. split; [by etrans|].
  intros [HF|HG]; [|by apply F2]. rewrite F1 in S2 by done. apply map_eq. intros i.
  destruct (tlb x3 !! i) eqn:E; [|done]. eapply lookup_weaken in E; [|exact S2]. done.
Qed.
Lemma shrinks_mono (F G : Prop) x x' : (F -> G) -> shrinks G x x' -> shrinks F x x'.
Proof. intros H (V & S & G'). split; [done|]. split; [done|]. auto. Qed.

Lemma all_shrink_refl s : all_shrink s s (fun _ _ => False).
Proof. intros c x' Hx. exists x'. split; [done|apply shrinks_refl]. Qed.
Lemma all_shrink_trans s1 s2 s3 F G :
  (forall c x x', shrinks (F c x) x x' -> G c x' <-> G c x) ->
  all_shrink s1 s2 F -> all_shrink s2 s3 G -> all_shrink s1 s3 (fun c x => F c x \/ G c x).
Proof.
  intros HG H12 H23 c x3 H3. destruct (H23 c x3 H3) as (x2 & H2 & S23).
  destruct (H12 c x2 H2) as (x1 & H1 & S12). exists x1. split; [done|].
  eapply shrinks_mono; [|by eapply shrinks_trans]. cbv beta. rewrite (HG c x1 x2 S12). done.
Qed.
Lemma all_shrink_weaken s s' (F G : nat -> cpu -> Prop) :
  (forall c x, cpus s !! c = Some x -> G c x -> F c x) -> all_shrink s s' F -> all_shrink s s' G.
Proof.
  intros H S c x' Hx. destruct (S c x' Hx) as (x & E & Sh). exists x. split; [done|].
  eapply shrinks_mono; [|exact Sh]. by apply H.
Qed.

(** The CPUs that a request makes reload. *)
Definition concerned (space : Z) x : Prop :=
  current_pml4 x <> 0 /\ (space = 0 \/ current_pml4 x = space).
Lemma concerned_view space x x' : cpu_view x' = cpu_view x -> concerned space x' <-> concerned space x.
Proof. unfold cpu_view, concerned. intros [= -> _]. done. Qed.

Lemma alter_cpu_shrink s c f (F : cpu -> Prop) :
  (forall x, shrinks (F x) x (f x)) ->
  all_shrink s (alter_cpu s c f) (fun d x => d = Z.to_nat c /\ F x).
Proof.
  intros H d x' Hx. cbn in Hx. destruct (decide (d = Z.to_nat c)) as [->|Hne].
  - rewrite list_lookup_alter_eq in Hx. apply fmap_Some in Hx as (x & Hx & ->). exists x.
    split; [done|]. eapply shrinks_mono; [|apply H]. tauto.
  - rewrite list_lookup_alter_ne in Hx by done. exists x'. split; [done|].
    eapply shrinks_mono; [|apply shrinks_refl]. tauto.
Qed.

(** A handler that is addressed. *)
Lemma handler_spec s c x :
  let r := vmm_shootdown_request s in
  active r = true -> cpu_index c -> mask_test (pending r) c = true -> cpus s !! Z.to_nat c = Some x ->
  all_shrink s (vmm_tlb_shootdown_handler s c) (fun d x => d = Z.to_nat c /\ concerned (address_space r) x) /\
  vmm_shootdown_request (vmm_tlb_shootdown_handler s c) =
    Request true (address_space r) (pending r) (mask_set (acknowledged r) c).
Proof using Type.
  intros r Ha Hc Hp Hx. unfold vmm_tlb_shootdown_handler. fold r. cbv zeta. rewrite Ha, Hp. cbn [negb].
  unfold cpu_index in Hc. replace (CPU_MAX_COUNT <=? c) with false by lia.
  split; [|done]. unfold active_pml4, vmm_reload_current_cr3. rewrite Hx.
  assert (Hnone : ~ concerned (address_space r) x ->
    all_shrink s s (fun d x => d = Z.to_nat c /\ concerned (address_space r) x)).
  { intros Hno. eapply all_shrink_weaken; [|apply all_shrink_refl]. cbv beta.
    intros d y Hy [-> Hcon]. simplify_eq. done. }
  assert (Hload : all_shrink s (load_cr3 s c) (fun d x => d = Z.to_nat c /\ concerned (address_space r) x)).
  { apply alter_cpu_shrink. intros y. split; [done|]. split; [|done]. apply map_empty_subseteq. }
  destruct (_ || _) eqn:E.
  - unfold active_pml4. rewrite Hx. destruct (Z.eqb_spec (current_pml4 x) 0) as [E0|].
    + apply Hnone. by intros [? _].
    + exact Hload.
  - apply Hnone. intros [_ [H|H]]; rewrite H in E.
    + done.
    + by rewrite Z.eqb_refl, orb_true_r in E.
Qed.

Lemma deliver_spec hw cs s :
  let r := vmm_shootdown_request s in
  active r = true -> mask_wf (acknowledged r) ->
  (forall c, c ∈ cs -> cpu_index c /\ mask_test (pending r) c = true /\ answers_ipi hw c = true /\
     exists p, cpu_view <$> cpus s !! Z.to_nat c = Some (p, true)) ->
  exists s' ack, deliver hw s cs = Some s' /\
    vmm_shootdown_request s' = Request true (address_space r) (pending r) ack /\ mask_wf ack /\
    (forall d, cpu_index d -> mask_test ack d = true <-> mask_test (acknowledged r) d = true \/ d ∈ cs) /\
    all_shrink s s' (fun d x => Z.of_nat d ∈ cs /\ concerned (address_space r) x).
Proof using Type.
  revert s. induction cs as [|c cs IH]; intros s r Ha Hwf H; cbn [deliver].
  { exists s, (acknowledged r). split; [done|]. split.
    { revert Ha. unfold r. destruct (vmm_shootdown_request s). cbn. by intros ->. }
    split; [done|]. split.
    - intros d _. split; [by left|]. intros [?|X]; [done|]. by apply elem_of_nil in X.
    - eapply all_shrink_weaken; [|apply all_shrink_refl]. cbv beta. intros d x _ [X _].
      by apply elem_of_nil in X. }
  destruct (H c) as (Hc & Hp & Hans & p & Hv); [apply list_elem_of_here|].
  apply fmap_Some in Hv as (x & Hx & Hv). rewrite Hx, bind_Some_l.
  assert (Hon : online x = true) by (unfold cpu_view in Hv; congruence).
  rewrite Hon, Hans. cbn [andb].
  destruct (handler_spec s c x Ha Hc Hp Hx) as [Sh Er]. fold r in Sh, Er.
  pose proof (handler_tlb s c) as T. set (s1 := vmm_tlb_shootdown_handler s c) in *.
  destruct (IH s1) as (s' & ack & E & Er' & Hwf' & Hack & Sh').
  - by rewrite Er.
  - rewrite Er. by apply mask_set_wf.
  - rewrite Er. intros d Hd. destruct (H d) as (H1 & H2 & H3 & H4); [by apply list_elem_of_further|].
    split; [done|]. split; [done|]. split; [done|].
    by rewrite (cpus_agree_lookup s s1 _ (to_cpus _ _ T)).
  - rewrite Er in *. cbn [address_space pending acknowledged] in *.
    exists s', ack. split; [done|]. split; [done|]. split; [done|]. split.
    + intros d Hd. rewrite Hack by done. rewrite mask_set_test, orb_true_iff, Z.eqb_eq, elem_of_cons by done.
      tauto.
    + eapply all_shrink_weaken; [|eapply all_shrink_trans; [|exact Sh|exact Sh']]; cbv beta.
      * intros d y Hy [Hin Hcon]. apply elem_of_cons in Hin as [<-|Hin]; [left|by right].
        split; [by rewrite Nat2Z.id|done].
      * intros d y y' (V & _). by rewrite (concerned_view _ y y').
Qed.

(** The CPUs of a mask can be interrupted. *)
Definition reachable_cpus (hw : machine) s (targets : list Z) : Prop :=
  lapic_enabled hw = true /\ interrupts_enabled hw = true /\
  forall c, cpu_index c -> mask_test targets c = true -> answers_ipi hw c = true /\
    exists p, cpu_view <$> cpus s !! Z.to_nat c = Some (p, true).

(** A shootdown returns, and every target that runs in the space has dropped
    what it had cached. *)
Lemma shootdown_spec hw s targets space :
  mask_wf targets -> reachable_cpus hw s targets ->
  exists s', vmm_tlb_shootdown hw s targets space = Some s' /\ tlb_only s s' /\
    all_shrink s s' (fun c x => mask_test targets (Z.of_nat c) = true /\ cpu_index (Z.of_nat c) /\
      concerned space x).
Proof using Type.
  intros Hwf (Hl & Hi & Hr). unfold vmm_tlb_shootdown.
  destruct (vmm_cpu_mask_empty targets) eqn:Ee.
  { exists s. split; [done|]. split; [apply tlb_only_refl|].
    eapply all_shrink_weaken; [|apply all_shrink_refl]. cbv beta. intros c x _ (Ht & Hc & _).
    rewrite mask_empty_spec in Ee by done. rewrite Ee in Ht; done. }
  rewrite Hl, Hi. cbn [negb orb]. cbv zeta.
  destruct (deliver_spec hw (mask_cpus targets) (set_request (Request true space targets no_cpus) s))
    as (s1 & ack & E & Er & Hwfa & Hack & Sh); cbn [vmm_shootdown_request set_request active address_space
    pending acknowledged cpus] in *; [done|apply no_cpus_wf| |].
  { intros c Hc. apply mask_cpus_in in Hc as [Hc Ht]. destruct (Hr c Hc Ht) as [? ?]. done. }
  pose proof (deliver_tlb _ _ _ _ E) as T. rewrite E, bind_Some_l.
  replace (vmm_tlb_acknowledged s1 targets) with true.
  - eexists. split; [done|]. split.
    + eapply tlb_only_trans; [apply request_tlb|]. eapply tlb_only_trans; [exact T|]. apply request_tlb.
    + intros c x' Hx. destruct (Sh c x' Hx) as (x & Hx0 & Sx). exists x. split; [done|].
      eapply shrinks_mono; [|exact Sx]. intros (H1 & H2 & H3). split; [|done]. by apply mask_cpus_in.
  - symmetry. unfold vmm_tlb_acknowledged. rewrite Er. cbn [acknowledged].
    apply mask_subset_words; [done..|]. intros c Hc Ht. apply Hack; [done|]. right. by apply mask_cpus_in.
Qed.

(** * Coherence *)

(** The pages that a CPU can cache: those of canonical addresses. *)
Definition page_address (pg : Z) : Z := pg * VMM_PAGE_SIZE.
Definition canonical_page (pg : Z) : Prop :=
  0 <= page_address pg < 2 ^ 47 \/ 2 ^ 64 - 2 ^ 47 <= page_address pg < 2 ^ 64.

(** Everything that is cached is what the tables say now. *)
Definition coherent s : Prop :=
  forall c x pg tr, cpus s !! c = Some x -> tlb x !! pg = Some tr ->
    canonical_page pg /\ current_pml4 x <> 0 /\ mmu s (current_pml4 x) (page_address pg) = Some tr.

Lemma coherent_shrink s s' F :
  coherent s -> all_shrink s s' F ->
  (forall c x x' pg tr, cpus s !! c = Some x -> cpus s' !! c = Some x' -> ~ F c x ->
     canonical_page pg -> current_pml4 x <> 0 -> tlb x' !! pg = Some tr ->
     mmu s (current_pml4 x) (page_address pg) = Some tr ->
     mmu s' (current_pml4 x) (page_address pg) = Some tr) ->
  coherent s'.
Proof using Type.
  intros C S H c x' pg tr Hx Ht. destruct (S c x' Hx) as (x & Hx0 & V & Sub & Fl).
  destruct (C c x pg tr Hx0) as (Hc & H0 & Hm); [by eapply lookup_weaken|].
  unfold cpu_view in V. injection V as Ecur Eon. split; [done|]. rewrite Ecur. split; [done|].
  eapply H; try done. intros HF. by rewrite Fl in Ht.
Qed.

Lemma canonical_low pg va :
  canonical_page pg -> user_address va -> vpath (page_address pg) = vpath va -> pg = page_of va.
Proof using Type.
  unfold user_address, VMM_USER_ADDRESS_LIMIT. intros Hc Hva E.
  assert (Epg : page_of (page_address pg) = pg) by (apply Z.div_mul; done).
  destruct Hc as [Hlow|Hhigh].
  - rewrite <- Epg. apply vpath_page; [lia|lia|done].
  - exfalso. assert (E39 : ix 39 (page_address pg) = ix 39 va) by (by injection E).
    pose proof (user_address_ix va) as Hu. rewrite <- E39 in Hu.
    assert (256 <= ix 39 (page_address pg)).
    { rewrite ix_mod by lia.
      assert (2 ^ 25 - 256 <= page_address pg / 2 ^ 39 < 2 ^ 25) as Hq.
      { split; [apply Z.div_le_lower_bound|apply Z.div_lt_upper_bound]; lia. }
      clear -Hq. change (2 ^ 25) with (65535 * 512 + 512) in Hq. Z.div_mod_to_equations. lia. }
    unfold user_address, VMM_USER_ADDRESS_LIMIT in Hu. lia.
Qed.

End tlb.
End VmmTlb.
