(* ===== verification/VmmPages.v ===== *)
(** The calls [vmm_map_user_page] and [vmm_unmap_user_page] as a whole. *)
From stdpp Require Import gmap.
From S2P Require Import Prelude Pmm Vmm VmmTree VmmInv VmmProofs VmmValid VmmUser VmmTlb.
Import Pmm Vmm VmmTree VmmInv VmmProofs VmmValid VmmUser VmmTlb.

Module VmmPages.

Section pages.
Context {A : Type} `{!FrameAllocator A, !AllocatorLaws A}.
Implicit Types (s : vmm A) (g : ghost).

(** * Reservation *)

(** [g'] is [g] with the frames [fs] held. *)
Definition plus_held (fs : list Z) g g' : Prop :=
  gK g' = gK g /\ gKL g' = gKL g /\ (forall j, gN g' j = gN g j) /\ (forall j, gL g' j = gL g j) /\
  forall f o, gown g' !! f = Some o <-> (f ∈ fs /\ o = OHeld) \/ gown g !! f = Some o.

(** The kernel's view, the records and the CPUs are the same; so is the memory
    of every frame that has an owner. *)
Definition same_world s s' g : Prop :=
  kernel_pml4 s' = kernel_pml4 s /\ address_space_metadata s' = address_space_metadata s /\
  cpus s' = cpus s /\ bootstrap_mapping_active s' = bootstrap_mapping_active s /\
  (forall f o, gown g !! f = Some o -> mem s' !! f = mem s !! f).

Lemma blank_kept s s' g g' f :
  blank s g f -> mem s' !! f = mem s !! f -> gown g' !! f = Some OHeld -> blank s' g' f.
Proof using Type.
  intros [B1 B2 B3 B4] Em Ho. split; [done|done|by apply (is_table_agree (mem s))|].
  intros j Hj. rewrite (word_agree (mem s)) by done. by apply B4.
Qed.

(** The tables of a reservation are blank and distinct. *)
Definition reserving s g (rs : list reserved) : Prop :=
  Forall (fun r => blank s g (r_table r)) rs /\ NoDup (r_table <$> rs).

Lemma reserve_prefix nodes s rs0 ok rs s' :
  reserve_tables s nodes rs0 = Some (ok, rs, s') -> exists rest, rs = rs0 ++ rest.
Proof using Type.
  revert s rs0. induction nodes as [|b nodes IH]; intros s rs0; cbn [reserve_tables].
  { intros [= _ -> _]. exists []. by rewrite app_nil_r. }
  destruct (vmm_alloc_table s) as [[t s1]|]; [|done]. rewrite bind_Some_l.
  destruct (t =? 0); [intros [= _ -> _]; exists []; by rewrite app_nil_r|].
  destruct b; cbn [negb]; [|intros [= _ <- _]; eauto].
  intros E. destruct (IH _ _ E) as (rest & ->). rewrite <- app_assoc. eauto.
Qed.

Lemma reserving_held s g rs f : reserving s g rs -> f ∈ r_table <$> rs -> gown g !! f = Some OHeld.
Proof using Type.
  intros [Hb _] Hf. apply list_elem_of_fmap in Hf as (r & -> & Hr). rewrite Forall_forall in Hb.
  by apply Hb.
Qed.

Lemma plus_held_same s g rs : reserving s g rs -> plus_held (r_table <$> rs) g g.
Proof using Type.
  intros R. split; [done|]. split; [done|]. split; [done|]. split; [done|]. intros f o.
  split; [by right|]. intros [[Hf ->]|]; [by eapply reserving_held|done].
Qed.

Lemma same_world_mem s s' g :
  kernel_pml4 s' = kernel_pml4 s -> address_space_metadata s' = address_space_metadata s ->
  cpus s' = cpus s -> bootstrap_mapping_active s' = bootstrap_mapping_active s ->
  (forall f o, gown g !! f = Some o -> mem s' !! f = mem s !! f) -> same_world s s' g.
Proof using Type. done. Qed.

Lemma same_world_trans s1 s2 s3 g g2 :
  same_world s1 s2 g -> same_world s2 s3 g2 ->
  (forall f o, gown g !! f = Some o -> gown g2 !! f = Some o) -> same_world s1 s3 g.
Proof using Type.
  intros (A1 & A2 & A3 & A4 & A5) (B1 & B2 & B3 & B4 & B5) H. apply same_world_mem; try congruence.
  intros f o Ho. rewrite (B5 f o) by auto. by apply (A5 f o).
Qed.

(** One more table. *)
Lemma reserving_more s s1 g rs t b :
  reserving s g rs -> gown g !! t = None -> blank s1 (take_held t g) t ->
  (forall f o, gown g !! f = Some o -> mem s1 !! f = mem s !! f) ->
  reserving s1 (take_held t g) (rs ++ [Reserved t b]).
Proof using Type.
  intros R Hnone B Hkeep. pose proof (reserving_held s g rs) as Hh. destruct (R) as [Hb Hnd]. split.
  - apply Forall_app. split; [|by apply Forall_singleton]. eapply Forall_impl; [exact Hb|].
    intros r Br. pose proof (bl_held _ _ _ Br) as Ho.
    apply (blank_kept s _ g); [done|by eapply Hkeep|]. cbn. rewrite lookup_insert_ne; [done|congruence].
  - rewrite fmap_app. apply NoDup_app. split; [done|]. split; [|apply NoDup_singleton].
    intros x Hx Hx'. apply list_elem_of_singleton in Hx' as ->. cbn in Hx.
    specialize (Hh _ R Hx). congruence.
Qed.

(** What one allocation of the loop does. *)
Lemma reserve_step s g rs :
  inv s g -> reserving s g rs ->
  exists t s1, vmm_alloc_table s = Some (t, s1) /\ same_world s s1 g /\
    ((t = 0 /\ inv s1 g /\ reserving s1 g rs) \/
     (is_frame t /\ gown g !! t = None /\ inv s1 (take_held t g) /\
      (forall b, reserving s1 (take_held t g) (rs ++ [Reserved t b])))).
Proof using All.
  intros I R. destruct (alloc_table_spec s g I) as (t & s1 & E & Hcase & Ek & Em & Ec & Eb & _).
  exists t, s1. split; [done|]. destruct Hcase as [(-> & I1 & Emem & _)|(Hf & Hnone & I1 & B & Emem)].
  - split; [apply same_world_mem; try done; by rewrite Emem|]. left. split; [done|]. split; [done|].
    destruct R as [Hb Hnd]. split; [|done]. eapply Forall_impl; [exact Hb|]. intros r Br.
    apply (blank_kept s _ g); [done|by rewrite Emem|apply Br].
  - assert (Hkeep : forall f o, gown g !! f = Some o -> mem s1 !! f = mem s !! f).
    { intros f o Ho. rewrite Emem. apply lookup_insert_ne. congruence. }
    split; [done|]. right. split; [done|]. split; [done|]. split; [done|]. intros b.
    by apply (reserving_more s).
Qed.

Lemma plus_held_trans t rs g g' :
  gown g !! t = None -> t ∈ rs -> plus_held rs (take_held t g) g' -> plus_held rs g g'.
Proof using Type.
  intros Hn Hin (P1 & P2 & P3 & P4 & P5). split; [done|]. split; [done|]. split; [done|].
  split; [done|]. intros f o. rewrite P5. cbn. rewrite lookup_insert_Some. split.
  - intros [?|[[<- <-]|[_ ?]]]; auto.
  - intros [?|Ho]; [by left|]. right. right. split; [congruence|done].
Qed.

Lemma reserve_tables_spec nodes s g rs0 :
  inv s g -> reserving s g rs0 -> Forall (fun r => r_node r = true) rs0 ->
  exists ok rs s' g', reserve_tables s nodes rs0 = Some (ok, rs, s') /\ inv s' g' /\
    reserving s' g' rs /\ plus_held (r_table <$> rs) g g' /\ same_world s s' g /\
    (forall f, f ∈ r_table <$> rs -> (f ∈ r_table <$> rs0) \/ gown g !! f = None) /\
    (ok = true -> length rs = (length rs0 + length nodes)%nat /\ Forall (fun r => r_node r = true) rs).
Proof using All.
  revert s g rs0. induction nodes as [|b nodes IH]; intros s g rs0 I R Hn; cbn [reserve_tables].
  { exists true, rs0, s, g. split; [done|]. split; [done|]. split; [done|].
    split; [by eapply plus_held_same|]. split; [done|]. split; [by left|]. intros _.
    split; [cbn; lia|done]. }
  destruct (reserve_step s g rs0 I R) as (t & s1 & E & W1 & Hcase). rewrite E, bind_Some_l.
  destruct Hcase as [(-> & I1 & R1)|(Hf & Hnone & I1 & R1)].
  { exists false, rs0, s1, g. split; [done|]. split; [done|]. split; [done|].
    split; [by eapply plus_held_same|]. split; [done|]. split; [by left|done]. }
  rewrite frame_nonzero by done.
  assert (Hown : forall f o, gown g !! f = Some o -> gown (take_held t g) !! f = Some o).
  { intros f o Ho. cbn. rewrite lookup_insert_ne; [done|congruence]. }
  assert (Hin : forall b' rest, t ∈ r_table <$> (rs0 ++ [Reserved t b']) ++ rest).
  { intros b' rest. rewrite !fmap_app, !elem_of_app. left. right. apply list_elem_of_here. }
  assert (Hnew : forall b' f, f ∈ r_table <$> (rs0 ++ [Reserved t b']) ->
    (f ∈ r_table <$> rs0) \/ gown g !! f = None).
  { intros b' f. rewrite fmap_app, elem_of_app. intros [?|Hf']; [by left|right].
    by apply list_elem_of_singleton in Hf' as ->. }
  destruct b; cbn [negb].
  - destruct (IH s1 (take_held t g) (rs0 ++ [Reserved t true]))
      as (ok & rs & s' & g' & E' & I' & R' & P' & W' & Nw & L'); [done|apply R1| |].
    { apply Forall_app. split; [done|]. by apply Forall_singleton. }
    exists ok, rs, s', g'. split; [done|]. split; [done|]. split; [done|]. split; [|split; [|split]].
    + destruct (reserve_prefix _ _ _ _ _ _ E') as (rest & ->). by apply (plus_held_trans t).
    + by apply (same_world_trans _ s1 _ _ (take_held t g)).
    + intros f Hfr. destruct (Nw f Hfr) as [Hf'|Hn']; [by apply Hnew in Hf'|right].
      destruct (gown g !! f) eqn:Eo; [|done]. apply Hown in Eo. congruence.
    + intros Hok. destruct (L' Hok) as [L1 L2]. split; [|done]. rewrite L1, length_app. cbn. lia.
  - eexists false, _, s1, (take_held t g). split; [done|]. split; [done|]. split; [apply R1|].
    split; [|split; [done|split; [by apply Hnew|done]]].
    apply (plus_held_trans t); [done| |by eapply plus_held_same].
    rewrite <- (app_nil_r (rs0 ++ _)). apply Hin.
Qed.

Lemma map_reserve_spec s g kmalloc :
  inv s g -> exists ok res s' g', map_reserve s kmalloc = Some (ok, res, s') /\ inv s' g' /\
    reserving s' g' (res_tables res) /\ plus_held (r_table <$> res_tables res) g g' /\ same_world s s' g /\
    (forall f, f ∈ r_table <$> res_tables res -> gown g !! f = None) /\
    (ok = true -> res_leaf res = true /\ length (res_tables res) = 3%nat /\ ready s' g' (res_tables res)).
Proof using All.
  intros I. unfold map_reserve.
  assert (R0 : reserving s g []) by (split; [apply Forall_nil_2|apply NoDup_nil_2]).
  destruct (kmalloc 0%nat); cbn [negb].
  - destruct (reserve_tables_spec [kmalloc 1%nat; kmalloc 2%nat; kmalloc 3%nat] s g [] I R0 (Forall_nil_2 _))
      as (ok & rs & s' & g' & E & I' & R & P & W & Nw & L).
    rewrite E, bind_Some_l. exists ok, (Reservation true rs), s', g'. cbn [res_tables res_leaf].
    split; [done|]. split; [done|]. split; [done|]. split; [done|]. split; [done|]. split.
    { intros f Hf. destruct (Nw f Hf) as [X|]; [|done]. by apply elem_of_nil in X. }
    intros Hok.
    destruct (L Hok) as [L1 L2]. split; [done|]. split; [done|]. destruct R as [Hb Hnd]. split; [|done].
    apply Forall_and. done.
  - exists false, (Reservation false []), s, g. split; [done|]. split; [done|]. split; [done|].
    split; [by apply (plus_held_same s)|]. split; [done|]. split; [|done].
    intros f Hf. by apply elem_of_nil in Hf.
Qed.

(** * Release *)

(** [g'] is [g] without the held frames [fs]. *)
Definition minus_held (fs : list Z) g g' : Prop :=
  gK g' = gK g /\ gKL g' = gKL g /\ (forall j, gN g' j = gN g j) /\ (forall j, gL g' j = gL g j) /\
  forall f o, gown g' !! f = Some o <-> (f ∉ fs) /\ gown g !! f = Some o.

(** [s'] is [s] with another allocator. *)
Definition frames_only s s' : Prop :=
  mem s' = mem s /\ kernel_pml4 s' = kernel_pml4 s /\
  address_space_metadata s' = address_space_metadata s /\ cpus s' = cpus s /\
  bootstrap_mapping_active s' = bootstrap_mapping_active s.
Lemma frames_only_trans s1 s2 s3 : frames_only s1 s2 -> frames_only s2 s3 -> frames_only s1 s3.
Proof using Type. unfold frames_only. intuition congruence. Qed.

Definition frees s g (fs : list Z) s' : Prop :=
  frames_only s s' /\ (forall q, held (frames s') q <-> held (frames s) q /\ q ∉ fs) /\
  exists g', inv s' g' /\ minus_held fs g g'.

Lemma frees_nothing s g : inv s g -> frees s g [] s.
Proof using All.
  intros I. split; [done|]. split.
  - intros q. split; [|by intros [? _]]. intros H. split; [done|apply not_elem_of_nil].
  - exists g. split; [done|]. split; [done|]. split; [done|]. split; [done|]. split; [done|].
    intros f o. split; [|by intros [_ ?]]. intros H. split; [apply not_elem_of_nil|done].
Qed.

Lemma frees_cons s g p fs s1 s2 g1 :
  frees s g [p] s1 -> inv s1 g1 -> minus_held [p] g g1 -> frees s1 g1 fs s2 -> frees s g (p :: fs) s2.
Proof using All.
  intros (F1 & H1 & _) I1 M1 (F2 & H2 & g2 & I2 & M2). split; [by eapply frames_only_trans|]. split.
  - intros q. rewrite H2, H1, !not_elem_of_cons. pose proof (not_elem_of_nil q). tauto.
  - exists g2. split; [done|]. destruct M1 as (A1 & A2 & A3 & A4 & A5), M2 as (B1 & B2 & B3 & B4 & B5).
    split; [congruence|]. split; [congruence|]. split; [intros j; by rewrite B3, A3|].
    split; [intros j; by rewrite B4, A4|]. intros f o. rewrite B5, A5, !not_elem_of_cons.
    pose proof (not_elem_of_nil f). tauto.
Qed.

Lemma free_one s g p :
  inv s g -> gown g !! p = Some OHeld ->
  exists s1, pmm_free s p = Some s1 /\ frees s g [p] s1 /\ inv s1 (drop_held p g) /\
    minus_held [p] g (drop_held p g).
Proof using All.
  intros I Hp. destruct (free_spec' s g p I Hp) as (s1 & E & I1 & M & K & D & C & B & _ & Hh).
  assert (Mh : minus_held [p] g (drop_held p g)).
  { split; [done|]. split; [done|]. split; [done|]. split; [done|]. intros f o. cbn.
    rewrite lookup_delete_Some, list_elem_of_singleton. naive_solver. }
  exists s1. split; [done|]. split; [|done]. split; [done|]. split; [|by eauto].
  intros q. by rewrite Hh, list_elem_of_singleton.
Qed.

(** Held frames are given back one by one. *)
Lemma free_all_spec l s g :
  inv s g -> NoDup l -> (forall f, f ∈ l -> gown g !! f = Some OHeld) ->
  exists s', free_all s l = Some s' /\ frees s g l s'.
Proof using All.
  revert s g. induction l as [|p l IH]; intros s g I Hnd Hh; cbn [free_all].
  { exists s. split; [done|by apply frees_nothing]. }
  apply NoDup_cons in Hnd as [Hp Hnd].
  destruct (free_one s g p I) as (s1 & E & F & I1 & M); [apply Hh, list_elem_of_here|].
  rewrite E, bind_Some_l. destruct (IH s1 (drop_held p g) I1 Hnd) as (s' & E' & F').
  - intros f Hf. cbn. rewrite lookup_delete_ne by congruence. by apply Hh, list_elem_of_further.
  - exists s'. split; [done|]. by apply (frees_cons _ _ _ _ s1 _ (drop_held p g)).
Qed.

Definition tabs (rs : list reserved) : list Z := filter (fun t => t <> 0) (r_table <$> rs).
Lemma release_is_free_all rs s : release_reserved s rs = free_all s (tabs rs).
Proof using Type.
  revert s. induction rs as [|r rs IH]; intros s; [done|]. cbn [release_reserved]. unfold tabs in *.
  cbn [fmap list_fmap]. unfold free_nonnull. destruct (Z.eqb_spec (r_table r) 0) as [E|E].
  - rewrite filter_cons_False by (by intros ?). rewrite bind_Some_l. apply IH.
  - rewrite filter_cons_True by done. cbn [free_all]. destruct (pmm_free s (r_table r)); [|done].
    rewrite !bind_Some_l. apply IH.
Qed.

Lemma tabs_in rs f : f ∈ tabs rs <-> f <> 0 /\ f ∈ r_table <$> rs.
Proof using Type. unfold tabs. by rewrite list_elem_of_filter. Qed.

Lemma tabs_nodup_left rs rs' :
  Forall2 (fun r r' => r' = r \/ r' = nothing_reserved) rs rs' -> NoDup (r_table <$> rs) ->
  NoDup (tabs rs').
Proof using Type.
  induction 1 as [|r r' rs rs' Hr F IH]; [intros _; apply NoDup_nil_2|]. unfold tabs in *. cbn [fmap list_fmap].
  intros Hnd. apply NoDup_cons in Hnd as [Hn Hnd]. specialize (IH Hnd).
  destruct (decide (r_table r' <> 0)) as [Hne|He].
  - rewrite filter_cons_True by done. apply NoDup_cons. split; [|done].
    rewrite list_elem_of_filter. intros [_ Hin]. destruct Hr as [-> | ->]; [|done].
    apply Hn. by apply (left_in _ rs').
  - by rewrite filter_cons_False.
Qed.

(** * Flags of a record *)

Lemma space_ok_fields m kr own k md md' N L :
  root md' = root md -> tables md' = tables md -> leaves md' = leaves md ->
  space_ok m kr own k md N L -> space_ok m kr own k md' N L.
Proof using Type.
  intros Er Et El [S1 S2 S3 S4 S5 S6 S7 S8 S9 S10 S11].
  by split; rewrite ?Er, ?Et, ?El.
Qed.

(** The invariant does not look at the flags. *)
Lemma inv_flags s g k (f : metadata -> metadata) :
  (forall md, root (f md) = root md /\ tables (f md) = tables md /\ leaves (f md) = leaves md /\
     active_cpu_mask (f md) = active_cpu_mask md) ->
  inv s g -> inv (alter_metadata s k f) g.
Proof using All.
  intros Hf I.
  assert (Hlook : forall j md', address_space_metadata (alter_metadata s k f) !! j = Some md' ->
    exists md, address_space_metadata s !! j = Some md /\ root md' = root md /\ tables md' = tables md /\
      leaves md' = leaves md /\ active_cpu_mask md' = active_cpu_mask md).
  { intros j md'. cbn. destruct (decide (j = k)) as [->|].
    - rewrite list_lookup_alter_eq. intros E. apply fmap_Some in E as (md & E & ->). exists md.
      by destruct (Hf md) as (-> & -> & -> & ->).
    - rewrite list_lookup_alter_ne by done. intros E. by exists md'. }
  split; try (by apply I).
  - cbn. rewrite length_alter. apply I.
  - intros j md' Hj. destruct (Hlook _ _ Hj) as (md & E & -> & -> & -> & _). by apply I.
  - intros j md' Hj. destruct (Hlook _ _ Hj) as (md & E & Er & Et & El & _). rewrite Er. intros Hr.
    apply (space_ok_fields _ _ _ _ md); [done..|]. by apply (iv_space _ _ I).
  - intros j md' Hj. destruct (Hlook _ _ Hj) as (md & E & _ & _ & _ & ->). by apply (iv_mask_wf _ _ I j).
  - intros j md' c Hj. destruct (Hlook _ _ Hj) as (md & E & -> & _ & _ & ->). by apply (iv_mask _ _ I j).
  - intros c p b Hv. destruct (iv_current _ _ I c p b Hv) as [?|[?|[? (j & md & Hj & Er)]]]; [auto..|].
    right. right. split; [done|]. cbn. destruct (decide (j = k)) as [->|].
    + exists k, (f md). rewrite list_lookup_alter_eq, Hj. split; [done|]. by destruct (Hf md) as (-> & _).
    + exists j, md. by rewrite list_lookup_alter_ne.
Qed.

Lemma finish_inv s g p : inv s g -> inv (finish_shootdown s p) g.
Proof using All.
  intros I. unfold finish_shootdown. destruct (vmm_metadata_find s p); [|done]. by apply inv_flags.
Qed.

(** * Translations *)

(** The roots that a CPU can load. *)
Definition known s (r : Z) : Prop :=
  r = kernel_pml4 s \/ exists k md, address_space_metadata s !! k = Some md /\ root md = r /\ r <> 0.
Definition same_translations s s' : Prop := forall r va, known s r -> mmu s' r va = mmu s r va.

Lemma translations_same s s' g g' :
  inv s g -> inv s' g' -> kernel_pml4 s' = kernel_pml4 s ->
  address_space_metadata s' = address_space_metadata s -> gKL g' = gKL g ->
  (forall j, gL g' j = gL g j) ->
  (forall f o, gown g !! f = Some o -> mem s' !! f = mem s !! f) -> same_translations s s'.
Proof using All.
  intros I I' Ek Em EKL EL Hmem r va [->|(k & md & Hk & <- & Hr)].
  - rewrite <- Ek at 1. by rewrite (mmu_kernel s' g'), (mmu_kernel s g), EKL.
  - apply (mmu_same s s' g g' k md md); try done; [by rewrite Em| |].
    + intros i Hi. apply word_agree. apply (Hmem _ (OTable k)). by eapply root_owned.
    + left. by rewrite EL.
Qed.

Lemma current_known s g (c : nat) x :
  inv s g -> cpus s !! c = Some x -> current_pml4 x <> 0 -> known s (current_pml4 x).
Proof using All.
  intros I Hx H0. destruct (iv_current _ _ I c (current_pml4 x) (online x)) as [?|[?|[? (k & md & Hk & Er)]]].
  - by rewrite Hx.
  - done.
  - by left.
  - right. by exists k, md.
Qed.

(** More translations and fewer cached ones. *)
Lemma coherent_grow s s' g F :
  inv s g -> coherent s -> all_shrink s s' F ->
  (forall r va tr, known s r -> mmu s r va = Some tr -> mmu s' r va = Some tr) -> coherent s'.
Proof using All.
  intros I C S H. apply (coherent_shrink s s' F); [done|done|].
  intros c x x' pg tr Hx _ _ _ H0 _ Hm. apply H; [|done]. by eapply current_known.
Qed.

(** * Mapping a page *)

(** Interrupts reach every CPU. *)
Definition machine_ok (hw : machine) : Prop :=
  lapic_enabled hw = true /\ interrupts_enabled hw = true /\ forall c, answers_ipi hw c = true.

Lemma capture_wf s g k md c :
  inv s g -> address_space_metadata s !! k = Some md -> cpu_index c ->
  mask_wf (vmm_capture_active_targets_locked c md).
Proof using All.
  intros I Hk Hc. unfold vmm_capture_active_targets_locked, vmm_cpu_mask_copy.
  pose proof (iv_mask_wf _ _ I _ _ Hk). destruct (c <? _); [by apply mask_clear_wf|done].
Qed.

(** The targets are the other CPUs that run in the space. *)
Lemma capture_test s g k md c d :
  inv s g -> address_space_metadata s !! k = Some md -> root md <> 0 -> cpu_index c -> cpu_index d ->
  mask_test (vmm_capture_active_targets_locked c md) d = true <->
  d <> c /\ cpu_view <$> cpus s !! Z.to_nat d = Some (root md, true).
Proof using All.
  intros I Hk Hr Hc Hd. pose proof (iv_mask_wf _ _ I _ _ Hk) as Hwf.
  unfold vmm_capture_active_targets_locked, vmm_cpu_mask_copy. unfold cpu_index in Hc.
  replace (c <? CPU_MAX_COUNT) with true by lia. rewrite mask_clear_test by done.
  rewrite andb_true_iff, negb_true_iff, Z.eqb_neq. by rewrite (iv_mask _ _ I k md d).
Qed.

Lemma capture_reachable hw s s' g k md c :
  machine_ok hw -> inv s g -> address_space_metadata s !! k = Some md -> root md <> 0 -> cpu_index c ->
  cpus_agree s s' -> reachable_cpus hw s' (vmm_capture_active_targets_locked c md).
Proof using All.
  intros (H1 & H2 & H3) I Hk Hr Hc Ha. split; [done|]. split; [done|]. intros d Hd Ht.
  split; [done|]. exists (root md). rewrite (cpus_agree_lookup s s') by done.
  by apply (capture_test s g k md c d) in Ht as [_ ?].
Qed.

Lemma mapped_translations c k s g md va pa e rs rs' s' g' r va' :
  inv s g -> address_space_metadata s !! k = Some md -> root md <> 0 -> 0 <= ix 39 va < 256 ->
  mapped c k s g md va pa e rs rs' s' g' -> known s r ->
  mmu s' r va' = if decide (r = root md /\ vpath va' = vpath va) then translate USER_LINK (Some e)
                 else mmu s r va'.
Proof using All.
  intros I Hk Hr Hva M Hkn. pose proof (ma_inv _ _ _ _ _ _ _ _ _ _ _ _ M) as I'.
  pose proof (ma_kernel _ _ _ _ _ _ _ _ _ _ _ _ M) as Ek.
  destruct (ma_record _ _ _ _ _ _ _ _ _ _ _ _ M) as (md' & Em & Er & _).
  destruct (ma_others _ _ _ _ _ _ _ _ _ _ _ _ M) as (EK & EKL & Eo).
  destruct (ma_mem _ _ _ _ _ _ _ _ _ _ _ _ M) as [Hw Hm].
  pose proof (ma_pages _ _ _ _ _ _ _ _ _ _ _ _ M) as EL.
  assert (Hlk : (k < length (address_space_metadata s))%nat) by (by eapply lookup_lt_Some).
  assert (Hk' : address_space_metadata s' !! k = Some md') by (by rewrite Em, list_lookup_insert_eq).
  destruct Hkn as [->|(j & mdj & Hj & <- & Hjr)].
  - rewrite decide_False by (intros [E _]; by eapply (root_not_kernel s g k md); eauto).
    rewrite <- Ek at 1. by rewrite (mmu_kernel s' g'), (mmu_kernel s g), EKL.
  - destruct (decide (j = k)) as [->|Hne].
    + simplify_eq. case_decide as D.
      * destruct D as [_ Ev]. rewrite <- Er. rewrite (mmu_user s' g' k md') by
          (first [done|congruence|injection Ev as _ _ _ ->; lia]). by rewrite EL, Ev, lookup_insert_eq.
      * apply (mmu_same s s' g g' k md md'); try done. left. rewrite EL, lookup_insert_ne; [done|].
        intros Ev. by apply D.
    + rewrite decide_False.
      2: { intros [E _]. apply Hne. eapply (roots_distinct s g j mdj k md); eauto. }
      apply (mmu_same s s' g g' j mdj mdj); try done.
      * by rewrite Em, list_lookup_insert_ne.
      * intros i Hi. apply word_agree, (Hm _ (OTable j)); [done|congruence|by eapply root_owned].
      * left. by destruct (Eo j Hne) as [_ ->].
Qed.

(** Only the current CPU's cached page is dropped by the commit. *)
Lemma invlpg_shrink s c p va : all_shrink s (invlpg_if_active s c p va) (fun _ _ => False).
Proof using Type.
  unfold invlpg_if_active. destruct (p =? _); [|apply all_shrink_refl].
  eapply all_shrink_weaken; [|apply (alter_cpu_shrink s c _ (fun _ => False))].
  - done.
  - intros x. split; [done|]. split; [|done]. cbn. apply delete_subseteq.
Qed.

Lemma all_shrink_cpus s s' s2 F :
  cpus s' = cpus s -> all_shrink s' s2 F -> all_shrink s s2 F.
Proof using Type. unfold all_shrink. by intros ->. Qed.
Lemma coherent_same s s' : mem s' = mem s -> cpus s' = cpus s -> coherent s -> coherent s'.
Proof using Type.
  intros Em Ec C c x pg tr. rewrite Ec. intros Hx Ht. destruct (C c x pg tr Hx Ht) as (H1 & H2 & H3).
  split; [done|]. split; [done|]. unfold mmu in *. by rewrite Em.
Qed.
Lemma coherent_tlb s s' g F : inv s g -> coherent s -> tlb_only s s' -> all_shrink s s' F -> coherent s'.
Proof using All.
  intros I C T S. apply (coherent_grow s s' g F); [done..|]. intros r va tr _ <-.
  by apply (tlb_only_mmu s s').
Qed.

Lemma finish_same s p :
  mem (finish_shootdown s p) = mem s /\ cpus (finish_shootdown s p) = cpus s /\
  kernel_pml4 (finish_shootdown s p) = kernel_pml4 s /\ frames (finish_shootdown s p) = frames s /\
  bootstrap_mapping_active (finish_shootdown s p) = bootstrap_mapping_active s.
Proof using Type. unfold finish_shootdown. by destruct (vmm_metadata_find s p). Qed.

(** The owners after a mapping: [pa] is a leaf of [k], new tables of [k] were
    free before, nobody else's frame changes. *)
Definition owners_mapped (k : nat) (pa : Z) g g' : Prop :=
  gown g' !! pa = Some (OLeaf k) /\
  (forall f o, f <> pa -> o <> OTable k -> gown g' !! f = Some o <-> gown g !! f = Some o) /\
  (forall f, gown g' !! f = Some (OTable k) -> gown g !! f = Some (OTable k) \/ gown g !! f = None) /\
  (forall f, gown g !! f = Some (OTable k) -> gown g' !! f = Some (OTable k)).

(** From the commit to the return. *)
Lemma map_finished hw s g k md c va pa e rs rs' s1 g1 :
  machine_ok hw -> inv s g -> coherent s -> cpu_index c -> address_space_metadata s !! k = Some md ->
  root md <> 0 -> 0 <= ix 39 va < 256 -> gL g k !! vpath va = None -> is_frame pa ->
  gown g !! pa = Some OHeld -> ready s g rs -> pa ∉ r_table <$> rs ->
  mapped c k s g md va pa e rs rs' s1 g1 ->
  exists s2 s3 g3, vmm_tlb_shootdown hw s1 (vmm_capture_active_targets_locked c md) (root md) = Some s2 /\
    release_reserved (finish_shootdown s2 (root md)) rs' = Some s3 /\ inv s3 g3 /\ coherent s3 /\
    kernel_pml4 s3 = kernel_pml4 s /\ mem s3 = mem s1 /\ others_same k g g3 /\
    gL g3 k = <[vpath va := e]> (gL g k) /\
    (forall f o, gown g3 !! f = Some o <-> (f ∉ tabs rs') /\ gown g1 !! f = Some o).
Proof using All.
  intros Hhw I C Hc Hk Hr Hva HL Hpa Hheld Hrs Hnot M.
  pose proof (ma_inv _ _ _ _ _ _ _ _ _ _ _ _ M) as I1.
  assert (C1 : coherent s1).
  { destruct (ma_tlb _ _ _ _ _ _ _ _ _ _ _ _ M) as (s0 & E0 & E1).
    apply (coherent_grow s s1 g (fun _ _ => False)); [done|done| |].
    - rewrite E1. apply (all_shrink_cpus s s0); [done|]. apply invlpg_shrink.
    - intros r va' tr Hkn Hm. rewrite (mapped_translations c k s g md va pa e rs rs' s1 g1) by done.
      case_decide as D; [|done]. destruct D as [-> Ev].
      rewrite (mmu_user s g k md), Ev, HL in Hm by (first [done|injection Ev as _ _ _ ->; lia]). done. }
  destruct (shootdown_spec hw s1 (vmm_capture_active_targets_locked c md) (root md)) as (s2 & E2 & T2 & S2).
  { by apply (capture_wf s g k). }
  { apply (capture_reachable hw s s1 g k); try done. apply M. }
  destruct (finish_same s2 (root md)) as (F1 & F2 & F3 & F4 & F5).
  pose proof (finish_inv s2 g1 (root md) (tlb_only_inv _ _ _ T2 I1)) as I2.
  set (s2' := finish_shootdown s2 (root md)) in *.
  assert (Hown : forall f, f ∈ tabs rs' -> gown g1 !! f = Some OHeld).
  { intros f Hf. apply tabs_in in Hf as [Hf0 Hf]. apply (ma_own _ _ _ _ _ _ _ _ _ _ _ _ M).
    pose proof (left_in _ _ _ (ma_left _ _ _ _ _ _ _ _ _ _ _ _ M) Hf0 Hf) as Hf'. right.
    split; [congruence|]. right. split; [by intros [_ ?]|]. by apply (ready_frames s g rs). }
  destruct (free_all_spec (tabs rs') s2' g1 I2) as (s3 & E3 & F & _ & g3 & I3 & Mh); [|done|].
  { eapply tabs_nodup_left; [apply M|apply Hrs]. }
  exists s2, s3, g3. split; [done|]. rewrite release_is_free_all. split; [done|]. split; [done|].
  destruct F as (G1 & G2 & G3 & G4 & G5). destruct Mh as (M1 & M2 & M3 & M4 & M5).
  split; [|split; [|split; [|split; [|split; [|done]]]]].
  - apply (coherent_same s2'); [done|done|]. apply (coherent_same s2); [done|done|].
    by apply (coherent_tlb s1 s2 g1 _ I1 C1 T2 S2).
  - rewrite G2, F3, (to_kernel _ _ T2). apply M.
  - by rewrite G1, F1, (to_mem _ _ T2).
  - destruct (ma_others _ _ _ _ _ _ _ _ _ _ _ _ M) as (O1 & O2 & O3). split; [congruence|].
    split; [congruence|]. intros j Hj. rewrite M3, M4. by apply O3.
  - rewrite M4. apply M.
Qed.

(** The translations after [va] of root [r] is set to [o]. *)
Definition translations_set s s' (r va : Z) (o : option translation) : Prop :=
  forall r' va', known s r' ->
    mmu s' r' va' = if decide (r' = r /\ vpath va' = vpath va) then o else mmu s r' va'.

(** What a call of [vmm_map_user_page] does. *)
Record map_outcome (k : nat) (md : metadata) (va pa flags : Z) s g (ok : bool) s' g' : Prop := {
  mo_inv : inv s' g';
  mo_coherent : coherent s';
  mo_kernel : kernel_pml4 s' = kernel_pml4 s;
  mo_failed : ok = false -> same_translations s s' /\ (forall f, gown g' !! f = gown g !! f) /\
    address_space_metadata s' = address_space_metadata s;
  mo_mapped : ok = true ->
    mmu s (root md) va = None /\
    translations_set s s' (root md) va (Some (Translation pa true (has flags PTE_READWRITE))) /\
    owners_mapped k pa g g' /\ gL g' k = <[vpath va := Z.lor pa (leaf_flags flags)]> (gL g k) /\
    others_same k g g';
}.

Lemma leaf_translates pa flags :
  is_frame pa -> is_flags flags ->
  translate USER_LINK (Some (Z.lor pa (leaf_flags flags))) =
    Some (Translation pa true (has flags PTE_READWRITE)).
Proof using Type.
  intros Hpa Hfl. destruct (leaf_flags_user flags Hfl) as (Hf & Hu & Hp). cbn. unfold leaf_translation.
  rewrite !(pte_has pa) by (first [done|flags]). rewrite Hp, Hu, (pte_frame pa) by done.
  unfold leaf_flags. rewrite has_lor. change (has (Z.lor PTE_USER PTE_PRESENT) PTE_READWRITE) with false.
  by rewrite orb_false_r.
Qed.

Lemma map_outcome_refused k md va pa flags s g :
  inv s g -> coherent s -> map_outcome k md va pa flags s g false s g.
Proof using All. intros I C. by split. Qed.

(** The reservation is given back. *)
Lemma map_outcome_released k md va pa flags s g s1 g1 rs :
  inv s g -> coherent s -> inv s1 g1 -> reserving s1 g1 rs -> plus_held (r_table <$> rs) g g1 ->
  same_world s s1 g -> (forall f, f ∈ r_table <$> rs -> gown g !! f = None) ->
  exists s2 g2, release_reserved s1 rs = Some s2 /\ map_outcome k md va pa flags s g false s2 g2.
Proof using All.
  intros I C I1 R (P1 & P2 & P3 & P4 & P5) (W1 & W2 & W3 & W4 & W5) Hnew. rewrite release_is_free_all.
  assert (Hall : forall f, f ∈ r_table <$> rs -> is_frame f).
  { intros f Hf. destruct R as [Hb _]. apply list_elem_of_fmap in Hf as (r & -> & Hr).
    rewrite Forall_forall in Hb. by apply Hb. }
  destruct (free_all_spec (tabs rs) s1 g1 I1) as (s2 & E & (F1 & F2 & F3 & F4 & F5) & _ & g2 & I2 & M).
  { apply (tabs_nodup_left rs); [|apply R]. clear. induction rs; constructor; [by left|done]. }
  { intros f Hf. apply tabs_in in Hf as [_ Hf]. by eapply reserving_held. }
  destruct M as (M1 & M2 & M3 & M4 & M5).
  assert (Hsame : same_translations s s2).
  { apply (translations_same s s2 g g2); [done|done|congruence|congruence|congruence| |].
    - intros j. by rewrite M4.
    - intros f o Ho. rewrite F1. by eapply W5. }
  exists s2, g2. split; [done|]. split; try done; [|congruence|].
  - apply (coherent_grow s s2 g (fun _ _ => False)); [done|done| |].
    + unfold all_shrink. rewrite F4, W3. apply all_shrink_refl.
    + intros r va' tr Hkn <-. by apply Hsame.
  - intros _. split; [done|]. split; [|congruence]. intros f. apply option_eq. intros o.
    rewrite M5, P5, tabs_in. split.
    + intros [Hno [[Hf _]|?]]; [|done]. destruct Hno. split; [|done]. destruct (Hall f Hf) as [? _]. lia.
    + intros Ho. split; [|by right]. intros [_ Hf]. rewrite Hnew in Ho; done.
Qed.

(** ** The call *)

Definition aligned (va : Z) : Prop := Z.land va (VMM_PAGE_SIZE - 1) = 0.
Lemma aligned_has va : aligned va -> has va (VMM_PAGE_SIZE - 1) = false.
Proof using Type. unfold aligned, has. by intros ->. Qed.
Lemma frame_aligned p : is_frame p -> aligned p.
Proof using Type.
  intros [_ H]. unfold aligned. change (VMM_PAGE_SIZE - 1) with (Z.ones 12).
  by rewrite Z.land_ones by lia.
Qed.

Lemma user_page_ok va : user_address va -> aligned va -> user_page_address va = true.
Proof using Type.
  intros Hu Ha. unfold user_page_address. rewrite aligned_has by done.
  pose proof (user_address_ix va Hu). unfold user_address in Hu. lia.
Qed.

(** The first section: it accepts a page that is not mapped. *)
Lemma map_begin_spec s g k md va pa flags :
  inv s g -> address_space_metadata s !! k = Some md -> root md <> 0 ->
  user_address va -> aligned va -> is_frame pa -> has flags PTE_USER = true ->
  map_begin s (root md) va pa flags =
    Some (if destroy_pending md || bool_decide (is_Some (gL g k !! vpath va)) then None else Some (k, 0)).
Proof using All.
  intros I Hk Hr Hu Hva Hpa Hfl. pose proof (user_address_ix va Hu) as Hix. unfold map_begin.
  rewrite (proj2 (Z.eqb_neq _ _) Hr), (proj2 (Z.eqb_neq _ _) (root_not_kernel _ _ _ _ I Hk Hr)).
  rewrite (aligned_has pa) by (by apply frame_aligned). rewrite user_page_ok, Hfl by done.
  unfold phys_map_contains. destruct (Hpa) as [Hp _]. replace (pa <? PHYS_MAP_LIMIT) with true by lia.
  cbn [negb orb]. rewrite (find_space s g k md), Hk, bind_Some_l by done.
  destruct (destroy_pending md); cbn [orb]; [done|].
  rewrite (available_spec s g k md), bind_Some_l by (first [done|lia]). rewrite negb_involutive.
  rewrite (proj2 (Z.eqb_neq _ _) (kroot_nonzero _ _ I)). rewrite orb_false_r.
  destruct (bool_decide _); [done|].
  by rewrite entry_word, (kernel_low s g) by (first [done|lia]).
Qed.

Lemma owners_after_map k pa rs rs' g g1 g3 (own1 : Z -> owner -> Prop) :
  gown g !! pa = Some OHeld ->
  (forall f, f ∈ r_table <$> rs -> gown g !! f = None /\ f <> 0) ->
  (forall f o, gown g1 !! f = Some o <-> (f ∈ r_table <$> rs /\ o = OHeld) \/ gown g !! f = Some o) ->
  Forall2 (fun r r' => r' = r \/ r' = nothing_reserved) rs rs' ->
  (forall f o, own1 f o <->
    (f = pa /\ o = OLeaf k) \/
    (f <> pa /\ ((used_up rs rs' f /\ o = OTable k) \/ (~ used_up rs rs' f /\ gown g1 !! f = Some o)))) ->
  (forall f o, gown g3 !! f = Some o <-> (f ∉ tabs rs') /\ own1 f o) ->
  owners_mapped k pa g g3.
Proof using Type.
  intros Hpa Hnew H1 Hl H2 H3.
  assert (Hpa' : pa ∉ r_table <$> rs).
  { intros Hin. apply Hnew in Hin as [? _]. congruence. }
  assert (Hleft : forall f, f ∈ tabs rs' -> f ∈ r_table <$> rs).
  { intros f Hf. apply tabs_in in Hf as [H0 Hf]. by eapply left_in. }
  assert (Hsplit : forall f, f ∈ r_table <$> rs -> f ∈ tabs rs' \/ used_up rs rs' f).
  { intros f Hf. destruct (decide (f ∈ r_table <$> rs')) as [Hin|Hin]; [left|by right].
    apply tabs_in. split; [by apply Hnew|done]. }
  split; [|split; [|split]].
  - apply H3. split; [by intros Hin; apply Hleft in Hin|]. apply H2. by left.
  - intros f o Hne Hok. rewrite H3, H2, H1. split.
    + intros [Hn [[-> _]|[_ [[_ ->]|[Hu [[Hin ->]|?]]]]]]; [done|done| |done].
      by destruct (Hsplit f Hin).
    + intros Ho. assert (Hno : f ∉ r_table <$> rs).
      { intros Hin. apply Hnew in Hin as [? _]. congruence. }
      split; [by intros Hin; apply Hleft in Hin|]. right. split; [done|]. right.
      split; [by intros [? _]|]. by right.
  - intros f. rewrite H3, H2, H1. intros [_ [[_ ?]|[_ [[[Hin _] _]|[_ [[_ ?]|?]]]]]]; [done| |done|by left].
    right. by apply Hnew.
  - intros f Ho. rewrite H3, H2, H1.
    assert (Hno : f ∉ r_table <$> rs).
    { intros Hin. apply Hnew in Hin as [? _]. congruence. }
    split; [by intros Hin; apply Hleft in Hin|]. right. split; [congruence|]. right.
    split; [by intros [? _]|]. by right.
Qed.

(** When the call succeeds: the space stays, the page is free, and nothing is
    missing. *)
Definition may_map s (lock : bool) (kmalloc : nat -> bool) (md : metadata) (va : Z) : Prop :=
  destroy_pending md = false /\ lock = true /\ mmu s (root md) va = None /\
  exists res s1, map_reserve s kmalloc = Some (true, res, s1).

Lemma mapped_page_present s g k md va :
  inv s g -> address_space_metadata s !! k = Some md -> root md <> 0 -> user_address va ->
  is_Some (gL g k !! vpath va) -> mmu s (root md) va <> None.
Proof using All.
  intros I Hk Hr Hu [e He]. rewrite (mmu_user s g k md) by (first [done|by apply user_address_ix]).
  rewrite He. destruct (sp_pte _ _ _ _ _ _ _ (iv_space _ _ I _ _ Hk Hr) _ _ He) as (f & fl & -> & Hf & (Hfl & _ & Hp) & _).
  cbn. unfold leaf_translation. by rewrite (pte_has f), Hp by (first [done|flags]).
Qed.

Lemma map_user_page_spec hw lock kmalloc s g c k md va pa flags :
  machine_ok hw -> inv s g -> coherent s -> cpu_index c -> address_space_metadata s !! k = Some md ->
  root md <> 0 -> user_address va -> aligned va -> is_frame pa -> gown g !! pa = Some OHeld ->
  is_flags flags -> has flags PTE_USER = true -> published s (root md) ->
  exists ok s' g', vmm_map_user_page hw lock kmalloc s c (root md) va pa flags = Some (ok, s') /\
    map_outcome k md va pa flags s g ok s' g' /\ (ok = true <-> may_map s lock kmalloc md va).
Proof using All.
  intros Hhw I C Hc Hk Hr Hu Hva Hpa Hheld Hfl Hus Hpub. pose proof (user_address_ix va Hu) as Hix.
  unfold vmm_map_user_page. rewrite (map_begin_spec s g k md), bind_Some_l by done.
  assert (Href : ~ may_map s lock kmalloc md va -> exists ok s' g', Some (false, s) = Some (ok, s') /\
    map_outcome k md va pa flags s g ok s' g' /\ (ok = true <-> may_map s lock kmalloc md va)).
  { intros Hno. exists false, s, g. split; [done|]. split; [by apply map_outcome_refused|]. by split. }
  unfold may_map in *. destruct (destroy_pending md) eqn:Hdp; cbn [orb]; [apply Href; by intros [? _]|].
  case_bool_decide as HL; [apply Href; intros (_ & _ & X & _); by apply (mapped_page_present s g k md va) in X|].
  apply eq_None_not_Some in HL.
  assert (Hfree : mmu s (root md) va = None) by (rewrite (mmu_user s g k md), HL by (first [done|lia]); done).
  destruct lock; cbn [negb]; [|apply Href; by intros (_ & ? & _)]. clear Href.
  destruct (map_reserve_spec s g kmalloc I) as (ok & res & s1 & g1 & E1 & I1 & R1 & P1 & W1 & N1 & L1).
  rewrite E1, bind_Some_l. destruct ok; cbn [negb].
  2: { destruct (map_outcome_released k md va pa flags s g s1 g1 (res_tables res)) as (s2 & g2 & E2 & O2);
         [done..|]. rewrite E2, bind_Some_l. exists false, s2, g2. split; [done|]. split; [done|].
       split; [done|]. intros (_ & _ & _ & res' & s1' & X). congruence. }
  destruct (L1 eq_refl) as (Hleaf & Hlen & Hready). destruct res as [leaf rs]. cbn in *. subst leaf.
  destruct (W1) as (W11 & W12 & W13 & W14 & W15). destruct (P1) as (P11 & P12 & P13 & P14 & P15).
  assert (Hnew : forall f, f ∈ r_table <$> rs -> gown g !! f = None /\ f <> 0).
  { intros f Hf. split; [by apply N1|]. destruct (ready_frames _ _ _ _ Hready Hf) as [[? _] _]. lia. }
  assert (Hpa' : pa ∉ r_table <$> rs) by (intros Hin; apply N1 in Hin; congruence).
  assert (Hh1 : gown g1 !! pa = Some OHeld) by (apply P15; by right).
  assert (Hk1 : address_space_metadata s1 !! k = Some md) by (by rewrite W12).
  assert (HL1 : gL g1 k !! vpath va = None) by (by rewrite P14).
  assert (T1 : same_translations s s1) by (by apply (translations_same s s1 g g1)).
  assert (C1 : coherent s1).
  { apply (coherent_grow s s1 g (fun _ _ => False)); [done|done| |].
    - unfold all_shrink. rewrite W13. apply all_shrink_refl.
    - intros r va' tr Hkn <-. by apply T1. }
  destruct (map_commit_spec s1 g1 k md c va pa flags rs) as (rs' & s2 & g2 & b & M & Hb & E2); try done.
  assert (Hpub1 : published s1 (root md)).
  { apply (published_same s); [done| | |done].
    - apply (W15 _ OKernel). by apply (iv_kown _ _ I [] _), I.
    - intros i Hi. apply word_agree, (W15 _ (OTable k)). by eapply root_owned. }
  apply Hb in Hpub1 as ->. rewrite E2, bind_Some_l. cbn [res_tables].
  destruct (map_finished hw s1 g1 k md c va pa (Z.lor pa (leaf_flags flags)) rs rs' s2 g2)
    as (s3 & s4 & g4 & E3 & E4 & I4 & C4 & K4 & M4 & O4 & L4 & Own4); try done.
  rewrite E3, bind_Some_l, E4, bind_Some_l. exists true, s4, g4. split; [done|].
  split; [|split; [intros _|done]; split; [done|]; split; [done|]; split; [done|]; by eexists _, _].
  split; [done|done|congruence|done|]. intros _.
  assert (Hkr : known s (root md)) by (right; by exists k, md).
  split; [|split; [|split; [|split]]].
  - done.
  - intros r va' Hkn. unfold mmu at 1. rewrite M4. fold (mmu s2 r va').
    rewrite (mapped_translations c k s1 g1 md va pa (Z.lor pa (leaf_flags flags)) rs rs' s2 g2); try done.
    + rewrite leaf_translates by done. case_decide; [done|]. by apply T1.
    + destruct Hkn as [->|(j & mdj & Hj & <- & ?)]; [left; congruence|right; exists j, mdj].
      by rewrite W12.
  - apply (owners_after_map k pa rs rs' g g1 g4 (fun f o => gown g2 !! f = Some o)); try done; apply M.
  - by rewrite L4, P14.
  - destruct O4 as (Q1 & Q2 & Q3). split; [congruence|]. split; [congruence|]. intros j Hj.
    destruct (Q3 j Hj) as [-> ->]. by rewrite P13, P14.
Qed.

(** * Unmapping a page *)

Lemma unmapped_translations c k s g md va f s' g' r va' :
  inv s g -> address_space_metadata s !! k = Some md -> root md <> 0 -> 0 <= ix 39 va < 256 ->
  unmapped c k s g md va f s' g' -> known s r ->
  mmu s' r va' = if decide (r = root md /\ vpath va' = vpath va) then None else mmu s r va'.
Proof using All.
  intros I Hk Hr Hva M Hkn. pose proof (un_inv _ _ _ _ _ _ _ _ _ M) as I'.
  pose proof (un_kernel _ _ _ _ _ _ _ _ _ M) as Ek.
  destruct (un_record _ _ _ _ _ _ _ _ _ M) as (md' & Em & Er & _).
  destruct (un_others _ _ _ _ _ _ _ _ _ M) as (EK & EKL & Eo).
  destruct (un_mem _ _ _ _ _ _ _ _ _ M) as [Hw Hm].
  pose proof (un_pages _ _ _ _ _ _ _ _ _ M) as EL.
  assert (Hlk : (k < length (address_space_metadata s))%nat) by (by eapply lookup_lt_Some).
  assert (Hk' : address_space_metadata s' !! k = Some md') by (by rewrite Em, list_lookup_insert_eq).
  destruct Hkn as [->|(j & mdj & Hj & <- & Hjr)].
  - rewrite decide_False by (intros [E _]; by eapply (root_not_kernel s g k md); eauto).
    rewrite <- Ek at 1. by rewrite (mmu_kernel s' g'), (mmu_kernel s g), EKL.
  - destruct (decide (j = k)) as [->|Hne].
    + simplify_eq. case_decide as D.
      * destruct D as [_ Ev]. rewrite <- Er. rewrite (mmu_user s' g' k md') by
          (first [done|congruence|injection Ev as _ _ _ ->; lia]). by rewrite EL, Ev, lookup_delete_eq.
      * apply (mmu_same s s' g g' k md md'); try done. left. rewrite EL, lookup_delete_ne; [done|].
        intros Ev. by apply D.
    + rewrite decide_False.
      2: { intros [E _]. apply Hne. eapply (roots_distinct s g j mdj k md); eauto. }
      apply (mmu_same s s' g g' j mdj mdj); try done.
      * by rewrite Em, list_lookup_insert_ne.
      * intros i Hi. apply word_agree, (Hm _ (OTable j)); [done|congruence|by eapply root_owned].
      * left. by destruct (Eo j Hne) as [_ ->].
Qed.

(** After the shootdown no CPU remembers the page. *)
Lemma unmap_coherent c k s g md va f s1 g1 s2 :
  inv s g -> coherent s -> cpu_index c -> address_space_metadata s !! k = Some md -> root md <> 0 ->
  user_address va -> unmapped c k s g md va f s1 g1 -> tlb_only s1 s2 ->
  all_shrink s1 s2 (fun d x => mask_test (vmm_capture_active_targets_locked c md) (Z.of_nat d) = true /\
    cpu_index (Z.of_nat d) /\ concerned (root md) x) ->
  coherent s2.
Proof using All.
  intros I C Hc Hk Hr Hu M T S. pose proof (user_address_ix va Hu) as Hix.
  destruct (un_tlb _ _ _ _ _ _ _ _ _ M) as (s0 & Ec0 & E1).
  assert (S1 : all_shrink s s1 (fun _ _ => False)).
  { rewrite E1. apply (all_shrink_cpus s s0); [done|]. apply invlpg_shrink. }
  intros d x2 pg tr Hx2 Ht. destruct (S d x2 Hx2) as (x1 & Hx1 & V2 & Sub2 & Fl).
  destruct (S1 d x1 Hx1) as (x & Hx & V1 & Sub1 & _).
  assert (Ht1 : tlb x1 !! pg = Some tr) by (by eapply lookup_weaken).
  destruct (C d x pg tr Hx) as (Hcan & H0 & Hm); [by eapply lookup_weaken|].
  assert (Ecur : current_pml4 x2 = current_pml4 x /\ current_pml4 x1 = current_pml4 x)
    by (unfold cpu_view in *; split; congruence). destruct Ecur as [-> Ecur1].
  split; [done|]. split; [done|]. rewrite (tlb_only_mmu s1 s2) by done.
  rewrite (unmapped_translations c k s g md va f s1 g1) by (first [done|by eapply current_known]).
  case_decide as D; [exfalso|done]. destruct D as [Er Ev].
  apply canonical_low in Ev; [|done|done]. subst pg.
  assert (Hd : cpu_index (Z.of_nat d)).
  { apply lookup_lt_Some in Hx. pose proof (iv_cpus _ _ I). unfold cpu_index. lia. }
  destruct (decide (Z.of_nat d = c)) as [<-|Hne].
  - unfold invlpg_if_active, active_pml4 in E1. rewrite Nat2Z.id, Ec0, Hx, Er, Z.eqb_refl in E1.
    rewrite E1 in Hx1. cbn in Hx1. rewrite Nat2Z.id, list_lookup_alter_eq, Ec0, Hx in Hx1.
    injection Hx1 as <-. cbn in Ht1. by rewrite lookup_delete_eq in Ht1.
  - assert (Hv : cpu_view <$> cpus s !! d = Some (root md, true)).
    { rewrite Hx. cbn. f_equal. unfold cpu_view. rewrite Er. f_equal.
      destruct (iv_current _ _ I d (root md) (online x)) as [?|[?|[? _]]]; [|done| |done].
      - rewrite Hx. cbn. unfold cpu_view. by rewrite Er.
      - by destruct (root_not_kernel _ _ _ _ I Hk Hr). }
    rewrite Fl in Ht; [done|]. split; [|split; [done|]].
    + apply (capture_test s g k md c); try done. by rewrite Nat2Z.id.
    + unfold concerned. rewrite Ecur1. auto.
Qed.

(** What a call of [vmm_unmap_user_page] does. *)
Record unmap_outcome (k : nat) (md : metadata) (va : Z) s g (r : option Z) s' g' : Prop := {
  uo_inv : inv s' g';
  uo_coherent : coherent s';
  uo_kernel : kernel_pml4 s' = kernel_pml4 s;
  uo_refused : r = None -> s' = s /\ g' = g;
  uo_unmapped : forall f, r = Some f ->
    (exists w, mmu s (root md) va = Some (Translation f true w)) /\
    translations_set s s' (root md) va None /\
    gown g !! f = Some (OLeaf k) /\ gown g' = <[f := OHeld]> (gown g) /\
    gL g' k = delete (vpath va) (gL g k) /\ others_same k g g';
}.

Lemma unmap_user_page_spec hw lock s g c k md va :
  machine_ok hw -> inv s g -> coherent s -> cpu_index c -> address_space_metadata s !! k = Some md ->
  root md <> 0 -> user_address va -> aligned va ->
  exists r s' g', vmm_unmap_user_page hw lock s c (root md) va = Some (r, s') /\
    unmap_outcome k md va s g r s' g' /\
    (destroy_pending md = false -> lock = true -> r = t_frame <$> mmu s (root md) va).
Proof using All.
  intros Hhw I C Hc Hk Hr Hu Hva. pose proof (user_address_ix va Hu) as Hix.
  unfold vmm_unmap_user_page.
  rewrite (proj2 (Z.eqb_neq _ _) Hr), (proj2 (Z.eqb_neq _ _) (root_not_kernel _ _ _ _ I Hk Hr)).
  rewrite user_page_ok by done. cbn [negb orb]. rewrite (find_space s g k md), Hk, bind_Some_l by done.
  destruct (destroy_pending md || negb lock) eqn:Hno.
  { exists None, s, g. split; [done|]. split; [by split|]. intros H1 H2. by rewrite H1, H2 in Hno. }
  apply orb_false_iff in Hno as [Hdp _].
  pose proof (mmu_user s g k md va I Hk Hr ltac:(lia)) as Hmmu.
  pose proof (unmap_commit_spec s g k md c va I Hk Hr ltac:(lia) Hdp) as HU.
  destruct (gL g k !! vpath va) as [e|] eqn:EL.
  2: { rewrite HU, bind_Some_l. exists None, s, g. split; [done|]. split; [by split|].
       intros _ _. by rewrite Hmmu. }
  destruct HU as (s1 & g1 & M & E). rewrite E, bind_Some_l.
  pose proof (iv_space _ _ I _ _ Hk Hr) as S.
  destruct (sp_pte _ _ _ _ _ _ _ S _ _ EL) as (f & fl & Ee & Hf & Hfl & _). subst e.
  destruct (user_pte_facts f fl Hf Hfl) as (Hpr & Hus & _ & Hpte & _).
  assert (Htr : mmu s (root md) va = Some (Translation f true (has (Z.lor f fl) PTE_READWRITE))).
  { rewrite Hmmu. cbn. unfold leaf_translation. rewrite Hpr, Hus. unfold pte_of in Hpte. by rewrite Hpte. }
  rewrite Hpte in *.
  destruct (shootdown_spec hw s1 (vmm_capture_active_targets_locked c md) (root md)) as (s2 & E2 & T2 & S2).
  { by apply (capture_wf s g k). }
  { apply (capture_reachable hw s s1 g k); try done. apply M. }
  rewrite E2, bind_Some_l. destruct (finish_same s2 (root md)) as (F1 & F2 & F3 & F4 & F5).
  exists (Some f), (finish_shootdown s2 (root md)), g1. split; [done|]. split; [|by rewrite Htr].
  split; [| | |done|].
  - apply finish_inv. apply (tlb_only_inv _ _ _ T2), M.
  - apply (coherent_same s2); [done|done|]. by apply (unmap_coherent c k s g md va f s1 g1).
  - rewrite F3, (to_kernel _ _ T2). apply M.
  - intros f' [= <-]. split; [by eauto|]. split; [|split; [|split; [|split]]].
    + intros r va' Hkn. unfold mmu at 1. rewrite F1. fold (mmu s2 r va'). rewrite (tlb_only_mmu s1 s2) by done.
      by apply (unmapped_translations c k s g md va f s1 g1).
    + apply M.
    + apply M.
    + apply M.
    + apply M.
Qed.

End pages.
End VmmPages.
