(* ===== verification/VmmKernel.v ===== *)
(** The kernel's own mappings: new tables and leaves of the master hierarchy, and
    their publication in the roots of the processes. *)
From stdpp Require Import gmap.
From S2P Require Import Prelude Pmm Vmm VmmTree VmmInv VmmProofs VmmValid VmmUser VmmTlb VmmPages.
Import Pmm Vmm VmmTree VmmInv VmmProofs VmmValid VmmUser VmmTlb VmmPages.

Module VmmKernel.

Section kernel.
Context {A : Type} `{!FrameAllocator A, !AllocatorLaws A}.
Implicit Types (s : vmm A) (g : ghost).

(** * New tables *)

(** The kernel's hierarchy has grown: tables are added, entries of the root are
    only set where there were none, and nothing else changes. *)
Record grows s g s' g' : Prop := {
  gr_inv : inv s' g';
  gr_kernel : kernel_pml4 s' = kernel_pml4 s;
  gr_metadata : address_space_metadata s' = address_space_metadata s;
  gr_cpus : cpus s' = cpus s;
  gr_ioremap : ioremap_next s' = ioremap_next s;
  gr_bootstrap : bootstrap_mapping_active s' = bootstrap_mapping_active s;
  gr_tables : gK g ⊆ gK g';
  gr_spaces : gN g' = gN g /\ gL g' = gL g;
  gr_own : forall f o, o <> OKernel -> gown g' !! f = Some o <-> gown g !! f = Some o;
  gr_mem : forall f o, o <> OKernel -> gown g !! f = Some o -> mem s' !! f = mem s !! f;
  gr_root : forall i, 256 <= i < 512 -> word (mem s') (kernel_pml4 s) i = word (mem s) (kernel_pml4 s) i \/
    word (mem s) (kernel_pml4 s) i = Some 0;
}.

Lemma grows_refl s g : inv s g -> grows s g s g.
Proof using All. intros I. split; try done. intros. by left. Qed.
Lemma grows_trans s1 g1 s2 g2 s3 g3 : grows s1 g1 s2 g2 -> grows s2 g2 s3 g3 -> grows s1 g1 s3 g3.
Proof using All.
  intros [A1 A2 A3 A4 A5 A6 A7 A8 A9 A10 A11] [B1 B2 B3 B4 B5 B6 B7 B8 B9 B10 B11].
  split; try congruence; try done; [by etrans|destruct A8, B8; split; congruence| | |].
  - intros f o Ho. by rewrite B9, A9.
  - intros f o Hne Ho. rewrite (B10 f o) by (first [done|by apply A9]). by apply (A10 f o).
  - intros i Hi. specialize (A11 i Hi). specialize (B11 i Hi). rewrite A2 in B11.
    destruct A11 as [<-|?]; [|by right]. exact B11.
Qed.

Lemma kernel_child_spec s g p t i :
  inv s g -> gK g !! p = Some t -> (length p < 3)%nat -> index i ->
  (p = [] -> vmm_kernel_shared_pml4_index i = true) ->
  exists r s' g', kernel_child s t i = Some (r, s') /\ grows s g s' g' /\ gKL g' = gKL g /\
    (r <> 0 -> gK g' !! (i :: p) = Some r) /\ spends s r s'.
Proof using All.
  intros I Hp Hl Hi Hsh. unfold kernel_child. rewrite entry_word.
  destruct (kernel_table_child (mem s) (gK g) p t i) as [(f & Ef & Hf & W)|[En W]];
    [by apply I|done..| |]; rewrite W, bind_Some_l.
  { destruct (kernel_link_facts f Hf) as (-> & -> & _ & _ & -> & _). cbn [negb]. cbv zeta.
    rewrite frame_nonzero by done. exists f, s, g. split; [done|]. split; [by apply grows_refl|].
    split; [done|]. split; [done|]. intros n Hn. split; [by destruct Hf as [? _]; lia|by apply can_alloc_less]. }
  rewrite has_0. cbn [negb].
  destruct (alloc_table_spec s g I) as (f & s1 & E & Hcase & Ek & Em & Ec & Eb & Ei).
  rewrite E, bind_Some_l. destruct Hcase as [(-> & I1 & Emem & _)|(Hf & Hnone & I1 & B & Emem)].
  { exists 0, s1, g. split; [done|]. split; [|split; [done|split; [done|by apply alloc_table_spends]]].
    split; try done; [by rewrite Emem|]. intros. left. by rewrite Emem. }
  rewrite frame_nonzero by done.
  assert (Hkeep : forall x o, gown g !! x = Some o -> mem s1 !! x = mem s !! x).
  { intros x o Ho. rewrite Emem. apply lookup_insert_ne. congruence. }
  pose proof (iv_kown _ _ I _ _ Hp) as Hto.
  assert (Htab : is_table (mem s1) t).
  { apply (is_table_agree (mem s)); [by eapply Hkeep|by eapply kernel_table]. }
  rewrite store_write, bind_Some_l by done. unfold vmm_table_phys. fold KERNEL_LINK.
  set (s2 := set_mem _ s1).
  set (g2 := with_kernel (<[i :: p := f]> (gK g)) (gKL g) (<[f := OKernel]> (gown g)) g).
  assert (Hnew : forall q, gK g !! q <> Some f).
  { intros q Hq. apply (iv_kown _ _ I) in Hq. congruence. }
  assert (Hrootw : forall j, 256 <= j < 512 -> word (mem s2) (kernel_pml4 s) j = word (mem s) (kernel_pml4 s) j \/
    word (mem s) (kernel_pml4 s) j = Some 0).
  { intros j Hj. assert (Hk : mem s1 !! kernel_pml4 s = mem s !! kernel_pml4 s).
    { apply (Hkeep _ OKernel), (iv_kown _ _ I []), I. }
    cbn. destruct (decide (t = kernel_pml4 s /\ i = j)) as [[-> ->]|Hne]; [by right|left].
    rewrite word_write_ne by (first [done|unfold index; lia|by apply not_and_l]). by apply word_agree. }
  exists f, s2, g2. split; [done|].
  assert (I2 : inv s2 g2).
  { replace g2 with (with_kernel (<[i :: p := f]> (gK g)) (gKL g) (<[f := OKernel]> (gown g)) (take_held f g)) by done.
    apply (inv_kernel_change s1); cbn; try done; try (by apply I1).
    - intros x o. rewrite lookup_insert_Some. intros [[<- _]|[Hne Ho]].
      + apply (iv_held _ _ I1 f OHeld). cbn. by rewrite lookup_insert_eq.
      + apply (iv_held _ _ I1 x o). cbn. by rewrite lookup_insert_ne.
    - intros x o H1 H2. rewrite !lookup_insert_Some. naive_solver.
    - intros x o H1 H2 Ho. apply write_ne. intros <-. rewrite lookup_insert_Some in Ho. naive_solver.
    - intros j Hj. destruct (decide (t = kernel_pml4 s1 /\ i = j)) as [[-> ->]|Hne].
      + right. rewrite <- W. apply word_agree. by eapply Hkeep.
      + left. apply word_write_ne; [done|unfold index; lia|by apply not_and_l].
    - rewrite lookup_insert_ne by done. rewrite Ek. apply I.
    - apply paged_add; try done; [by apply I1|apply B|apply B].
    - intros q x. rewrite lookup_insert_Some. intros [[<- <-]|[Hne Hq]]; [by rewrite lookup_insert_eq|].
      rewrite lookup_insert_ne by (intros <-; by eapply Hnew). by eapply (iv_kown _ _ I).
    - intros j x. rewrite lookup_insert_Some. intros [[X _]|[_ Hq]]; [|by eapply (iv_kslots _ _ I)].
      injection X as -> ->. by apply Hsh. }
  split; [|split; [done|split; [|exact (alloc_table_spends s f s1 E)]]].
  - split; try done.
    + cbn. apply insert_subseteq. done.
    + intros x o Ho. cbn. rewrite lookup_insert_Some. split; [intros [[_ ?]|[_ ?]]; congruence|].
      intros Hx. right. split; [congruence|done].
    + intros x o Hne Ho. cbn. rewrite write_ne; [by eapply Hkeep|congruence].
  - intros _. cbn. by rewrite lookup_insert_eq.
Qed.

(** * New leaves *)

Definition kernel_pte (pa flags : Z) : Z := Z.lor (Z.land pa PTE_FRAME_MASK) (Z.lor flags PTE_PRESENT).

Lemma kernel_pte_facts pa flags :
  has flags PTE_USER = false ->
  has (kernel_pte pa flags) PTE_PRESENT = true /\ has (kernel_pte pa flags) PTE_USER = false /\
  (kernel_pte pa flags =? 0) = false.
Proof using Type.
  intros Hfl. unfold kernel_pte. rewrite !has_lor, Hfl.
  assert (Hm : forall m, is_flags m -> has (Z.land pa PTE_FRAME_MASK) m = false).
  { intros m Hm. unfold has. rewrite <- Z.land_assoc, (Z.land_comm PTE_FRAME_MASK m), Hm, Z.land_0_r. done. }
  rewrite !Hm by flags. split; [cbn; apply orb_true_r|]. split; [done|].
  apply Z.eqb_neq. intros E. apply Z.lor_eq_0_iff in E as [_ E]. apply Z.lor_eq_0_iff in E as [_ E]. done.
Qed.

(** A leaf of the kernel is written. *)
Lemma kernel_leaf_written s g t va e :
  inv s g -> gK g !! vdir va = Some t -> has e PTE_PRESENT = true -> has e PTE_USER = false ->
  (e =? 0) = false ->
  exists g', grows s g (set_mem (write (mem s) t (ix 12 va) e) s) g' /\
    gKL g' = <[vpath va := e]> (gKL g).
Proof using All.
  intros I Ht Hp Hu H0. pose proof (iv_kown _ _ I _ _ Ht) as Hto.
  exists (with_kernel (gK g) (<[vpath va := e]> (gKL g)) (gown g) g). split; [|done].
  assert (Hne : t <> kernel_pml4 s).
  { intros ->. pose proof (tr_inj _ _ _ _ (pg_tree _ _ _ _ _ (iv_kpaged _ _ I)) _ _ _ Ht (iv_kroot _ _ I)).
    done. }
  assert (Hw : forall i, 256 <= i < 512 ->
    word (write (mem s) t (ix 12 va) e) (kernel_pml4 s) i = word (mem s) (kernel_pml4 s) i).
  { intros i Hi. apply word_write_ne; [apply ix_index|unfold index; lia|by left]. }
  split; try done.
  - apply (inv_kernel_change s); cbn; try done; try (by apply I).
    + intros f o H1 H2 Ho. apply write_ne. congruence.
    + intros i Hi. left. by apply Hw.
    + rewrite <- (paged_put_insert (vpath va) e (gKL g)) by done. rewrite vpath_eq.
      apply paged_put; [by apply I|done|done|apply ix_index].
    + intros q x. rewrite lookup_insert_Some. intros [[<- <-]|[_ Hq]]; [done|]. by eapply (iv_kpte _ _ I).
  - intros f o H1 Ho. cbn. apply write_ne. congruence.
  - intros i Hi. left. cbn. by apply Hw.
Qed.

(** One page of the kernel: the tables on its path are created, then its leaf is
    written; it fails only on its arguments or when there is no frame left. *)
Definition may_map_kernel s (va pa flags : Z) : Prop :=
  VMM_USER_ADDRESS_LIMIT <= va /\ vmm_kernel_shared_pml4_index (ix 39 va) = true /\
  has flags PTE_USER = false /\ pa < PHYS_MAP_LIMIT /\ can_alloc 3 (frames s) = true.

Lemma map_kernel_one_spec s g c va pa flags :
  inv s g ->
  exists ok s1 g', grows s g s1 g' /\
    vmm_map_kernel_one s c (kernel_pml4 s) va pa flags =
      Some (ok, if ok : bool then invlpg_if_active s1 c (kernel_pml4 s) va else s1) /\
    (ok = false -> gKL g' = gKL g) /\
    (ok = true -> gKL g' = <[vpath va := kernel_pte pa flags]> (gKL g) /\
       VMM_USER_ADDRESS_LIMIT <= va /\ vmm_kernel_shared_pml4_index (ix 39 va) = true /\
       has flags PTE_USER = false /\ pa < PHYS_MAP_LIMIT) /\
    (may_map_kernel s va pa flags -> ok = true).
Proof using All.
  intros I. unfold vmm_map_kernel_one, vmm_map_kernel_one_internal.
  rewrite (proj2 (Z.eqb_neq _ _) (kroot_nonzero _ _ I)), Z.eqb_refl. cbn [negb orb]. cbv zeta.
  destruct (negb (phys_map_contains pa) || _ || _ || _) eqn:G.
  { exists false, s, g. split; [by apply grows_refl|]. split; [done|]. split; [done|]. split; [done|].
    intros (H1 & H2 & H3 & H4 & _). unfold phys_map_contains in G. rewrite H2, H3 in G.
    replace (va <? VMM_USER_ADDRESS_LIMIT) with false in G by lia.
    replace (pa <? PHYS_MAP_LIMIT) with true in G by lia. done. }
  apply orb_false_iff in G as [G G4]. apply orb_false_iff in G as [G G3].
  apply orb_false_iff in G as [G1 G2]. rewrite andb_true_r in G3.
  assert (Hva : VMM_USER_ADDRESS_LIMIT <= va) by lia. unfold phys_map_contains in G1.
  assert (Hsh : vmm_kernel_shared_pml4_index (ix 39 va) = true).
  { rewrite G3 in G4. cbn in G4. by apply negb_false_iff in G4. }
  destruct (kernel_child_spec s g [] (kernel_pml4 s) (ix 39 va)) as (r1 & s1 & g1 & E1 & R1 & L1 & K1 & Z1);
    [done|by apply I|cbn; lia|apply ix_index|done|]. rewrite E1, bind_Some_l.
  destruct (Z.eqb_spec r1 0) as [->|N1].
  { exists false, s1, g1. split; [done|]. split; [done|]. split; [done|]. split; [done|].
    intros (_ & _ & _ & _ & Hn). by destruct (Z1 _ Hn). }
  destruct (kernel_child_spec s1 g1 [ix 39 va] r1 (ix 30 va)) as (r2 & s2 & g2 & E2 & R2 & L2 & K2 & Z2);
    [apply R1|by apply K1|cbn; lia|apply ix_index|done|]. rewrite E2, bind_Some_l.
  pose proof (grows_trans _ _ _ _ _ _ R1 R2) as R12.
  destruct (Z.eqb_spec r2 0) as [->|N2].
  { exists false, s2, g2. split; [done|]. split; [done|]. split; [congruence|]. split; [done|].
    intros (_ & _ & _ & _ & Hn). apply Z1 in Hn as [_ Hn]. by destruct (Z2 _ Hn). }
  destruct (kernel_child_spec s2 g2 [ix 30 va; ix 39 va] r2 (ix 21 va)) as (r3 & s3 & g3 & E3 & R3 & L3 & K3 & Z3);
    [apply R2|by apply K2|cbn; lia|apply ix_index|done|]. rewrite E3, bind_Some_l.
  pose proof (grows_trans _ _ _ _ _ _ R12 R3) as R13.
  destruct (Z.eqb_spec r3 0) as [->|N3].
  { exists false, s3, g3. split; [done|]. split; [done|]. split; [congruence|]. split; [done|].
    intros (_ & _ & _ & _ & Hn). apply Z1 in Hn as [_ Hn]. apply Z2 in Hn as [_ Hn]. by destruct (Z3 _ Hn). }
  specialize (K3 N3). fold (vdir va) in K3. pose proof (gr_inv _ _ _ _ R3) as I3.
  destruct (kernel_pte_facts pa flags G2) as (P1 & P2 & P3).
  destruct (kernel_leaf_written s3 g3 r3 va (kernel_pte pa flags) I3 K3 P1 P2 P3) as (g4 & R4 & L4).
  rewrite store_write, bind_Some_l by (first [by eapply kernel_table|apply ix_index]).
  eexists true, _, g4. split; [eapply grows_trans; [exact R13|exact R4]|]. split; [done|].
  split; [done|]. split; [|done]. intros _. split; [rewrite L4; congruence|]. split; [done|]. split; [done|].
  split; [done|]. lia.
Qed.

(** ** What is translated afterwards *)

Lemma grows_mmu_kernel s g s' g' va :
  inv s g -> grows s g s' g' -> mmu s' (kernel_pml4 s) va = translate KERNEL_LINK (gKL g' !! vpath va).
Proof using All. intros I R. rewrite <- (gr_kernel _ _ _ _ R). by apply (mmu_kernel s' g'), R. Qed.

(** A process sees what it saw, or what the kernel sees now. *)
Lemma grows_mmu_user s g s' g' k md va :
  inv s g -> grows s g s' g' -> address_space_metadata s !! k = Some md -> root md <> 0 ->
  (mmu s' (root md) va = mmu s (root md) va /\
   (mmu s (root md) va = None \/ ix 39 va < 256)) \/
  (256 <= ix 39 va /\ mmu s (root md) va = mmu s (kernel_pml4 s) va /\
   mmu s' (root md) va = mmu s' (kernel_pml4 s) va).
Proof using All.
  intros I R Hk Hr. pose proof (gr_inv _ _ _ _ R) as I'.
  assert (Hk' : address_space_metadata s' !! k = Some md) by (by rewrite (gr_metadata _ _ _ _ R)).
  assert (Hmem : mem s' !! root md = mem s !! root md).
  { apply (gr_mem _ _ _ _ R _ (OTable k)); [done|]. by eapply root_owned. }
  pose proof (ix_index 39 va) as Hx. unfold index in Hx.
  destruct (decide (ix 39 va < 256)) as [Hlow|Hhigh].
  - left. split; [|by right]. rewrite (mmu_user s g k md), (mmu_user s' g' k md) by done.
    by destruct (gr_spaces _ _ _ _ R) as [_ ->].
  - pose proof (iv_space _ _ I _ _ Hk Hr) as S. pose proof (iv_space _ _ I' _ _ Hk' Hr) as S'.
    pose proof (word_agree _ _ _ (ix 39 va) Hmem) as Ew.
    destruct (sp_high _ _ _ _ _ _ _ S (ix 39 va)) as [E|[_ E]]; [lia| |].
    + left. unfold mmu, path_of. rewrite !walk_absent by congruence. split; [done|by left].
    + destruct (sp_high _ _ _ _ _ _ _ S' (ix 39 va)) as [E'|[_ E']]; [lia| |].
      * left. unfold mmu, path_of. rewrite !walk_absent by congruence. split; [done|by left].
      * right. split; [lia|]. rewrite (gr_kernel _ _ _ _ R) in E'.
        unfold mmu, path_of. split; by apply walk_root.
Qed.

(** No translation is lost when no entry is replaced. *)
Lemma grows_keeps s g s' g' :
  inv s g -> grows s g s' g' -> (forall q e, gKL g !! q = Some e -> gKL g' !! q = Some e) ->
  forall r va tr, known s r -> mmu s r va = Some tr -> mmu s' r va = Some tr.
Proof using All.
  intros I R Hkl.
  assert (HK : forall va tr, mmu s (kernel_pml4 s) va = Some tr -> mmu s' (kernel_pml4 s) va = Some tr).
  { intros va tr. rewrite (mmu_kernel s g), (grows_mmu_kernel s g s' g') by done.
    destruct (gKL g !! vpath va) as [e|] eqn:E; [|done]. by rewrite (Hkl _ _ E). }
  intros r va tr [->|(k & md & Hk & <- & Hr)] Hm; [by apply HK|].
  destruct (grows_mmu_user s g s' g' k md va I R Hk Hr) as [[-> _]|(_ & E1 & ->)]; [done|].
  apply HK. congruence.
Qed.

(** * Publication *)

(** Slots of the roots of processes are set to the kernel's entries. *)
Record publishing s g s' : Prop := {
  pb_inv : inv s' g;
  pb_env : same_env s s';
  pb_metadata : address_space_metadata s' = address_space_metadata s;
  pb_kernel : mem s' !! kernel_pml4 s = mem s !! kernel_pml4 s;
  pb_rest : forall f, (forall k, gown g !! f <> Some (OTable k)) -> mem s' !! f = mem s !! f;
  pb_slots : forall k md i, address_space_metadata s !! k = Some md -> root md <> 0 -> 256 <= i < 512 ->
    word (mem s') (root md) i = word (mem s) (root md) i \/
    (vmm_kernel_shared_pml4_index i = true /\ word (mem s') (root md) i = word (mem s) (kernel_pml4 s) i);
}.
Lemma publishing_refl s g : inv s g -> publishing s g s.
Proof using All. intros I. split; try done. intros. by left. Qed.
Lemma publishing_trans s1 s2 s3 g : publishing s1 g s2 -> publishing s2 g s3 -> publishing s1 g s3.
Proof using All.
  intros [A1 A2 A3 A4 AR A5] [B1 B2 B3 B4 BR B5]. pose proof (proj1 A2) as Ek. rewrite Ek in *.
  split; try congruence; [by eapply vmm_env_trans| |].
  { intros f Hf. rewrite BR by done. by apply AR. }
  intros k md i Hk Hr Hi. assert (Hk2 : address_space_metadata s2 !! k = Some md) by congruence.
  destruct (B5 k md i Hk2 Hr Hi) as [->|[Hs ->]]; [by apply (A5 k)|].
  right. split; [done|]. by apply word_agree.
Qed.

Lemma copy_one s g k md i :
  inv s g -> address_space_metadata s !! k = Some md -> root md <> 0 -> 256 <= i < 512 ->
  vmm_kernel_shared_pml4_index i = true ->
  exists e s', entry s (kernel_pml4 s) i = Some e /\ store s (root md) i e = Some s' /\
    publishing s g s' /\ word (mem s') (root md) i = word (mem s') (kernel_pml4 s) i /\
    (forall j, index j -> j <> i -> word (mem s') (root md) j = word (mem s) (root md) j).
Proof using All.
  intros I Hk Hr Hi Hs. assert (Hx : index i) by (unfold index; lia).
  pose proof (iv_space _ _ I _ _ Hk Hr) as S. rewrite entry_word.
  destruct (table_word _ _ i (kernel_table _ _ _ _ I (iv_kroot _ _ I)) Hx) as [e He].
  assert (Hrt : is_table (mem s) (root md)).
  { eapply (tr_table _ _ _ _ (pg_tree _ _ _ _ _ (sp_paged _ _ _ _ _ _ _ S))), S. }
  pose proof (root_not_kernel _ _ _ _ I Hk Hr) as Hne. pose proof (root_owned _ _ _ _ I Hk Hr) as Hown.
  exists e. eexists. split; [done|]. split; [by apply store_write|].
  assert (Hkr : write (mem s) (root md) i e !! kernel_pml4 s = mem s !! kernel_pml4 s) by (by apply write_ne).
  assert (Hkw : forall j, word (write (mem s) (root md) i e) (kernel_pml4 s) j = word (mem s) (kernel_pml4 s) j)
    by (intros j; by apply word_agree).
  assert (Hslots : forall j, 256 <= j < 512 -> word (write (mem s) (root md) i e) (root md) j =
    if decide (j = i) then word (mem s) (kernel_pml4 s) i else word (mem s) (root md) j).
  { intros j Hj. case_decide as E; [subst j; by rewrite word_write_eq|].
    apply word_write_ne; [done|unfold index; lia|right; congruence]. }
  split; [|split].
  - split; try done; cbn [mem set_mem].
    + assert (Hg : forall f, f = root md -> gown g !! f = Some (OTable k)) by (by intros f ->).
      pose proof (inv_space_change s (set_mem (write (mem s) (root md) i e) s) g k md md (gN g k) (gL g k) (gown g)) as IC.
      assert (I' : inv (set_mem (write (mem s) (root md) i e) s) (with_space k (gN g k) (gL g k) (gown g) g)).
      { apply IC; try done; try (by apply I).
        - cbn. by rewrite list_insert_id.
        - intros f o H1 H2 Ho. apply write_ne. congruence.
        - cbn [mem set_mem]. destruct S as [S1 S2 S3 S4 S5 S6 S7 S8 S9 S10 S11]. split; try done.
          + apply paged_write_out; [done|done|]. intros p Hp.
            pose proof (tr_inj _ _ _ _ (pg_tree _ _ _ _ _ S2) _ _ _ Hp S1) as ->. cbn. split; lia.
          + intros j Hj. rewrite Hslots, Hkw by done. case_decide as E; [subst j; by right|by apply S11]. }
      apply (inv_ghost_ext _ _ _ I'); try done; cbn; intros j; unfold upd; case_decide; by subst.
    + intros f Hf. apply write_ne. intros <-. by apply (Hf k).
    + intros k' md' j Hk' Hr' Hj. destruct (decide (k' = k)) as [->|Hkk].
      * simplify_eq. rewrite Hslots by done. case_decide as E; [subst j; by right|by left].
      * left. apply word_write_ne; [done|unfold index; lia|]. left. intros E. apply Hkk.
        symmetry. by eapply (roots_distinct s g k md k' md').
  - cbn. by rewrite Hslots, decide_True, Hkw by done.
  - intros j Hj Hji. cbn. apply word_write_ne; [done|done|right; congruence].
Qed.

Lemma publishing_record s g s' k md :
  publishing s g s' -> address_space_metadata s !! k = Some md -> address_space_metadata s' !! k = Some md.
Proof using Type. intros P Hk. by rewrite (pb_metadata _ _ _ P). Qed.

Lemma copy_shared_spec ixs s g k md :
  inv s g -> address_space_metadata s !! k = Some md -> root md <> 0 ->
  (forall i, i ∈ ixs -> 256 <= i < 512) ->
  exists s', copy_shared s (root md) ixs = Some s' /\ publishing s g s' /\
    (forall i, i ∈ ixs -> vmm_kernel_shared_pml4_index i = true ->
       word (mem s') (root md) i = word (mem s) (kernel_pml4 s) i) /\
    (forall i, 256 <= i < 512 -> vmm_kernel_shared_pml4_index i = true ->
       word (mem s) (root md) i = word (mem s) (kernel_pml4 s) i ->
       word (mem s') (root md) i = word (mem s) (kernel_pml4 s) i).
Proof using All.
  revert s. induction ixs as [|i ixs IH]; intros s I Hk Hr Hi; cbn [copy_shared].
  { exists s. split; [done|]. split; [by apply publishing_refl|]. split; [|done].
    intros i Hx. by apply elem_of_nil in Hx. }
  assert (Hi0 : 256 <= i < 512) by apply Hi, list_elem_of_here.
  assert (Hi' : forall j, j ∈ ixs -> 256 <= j < 512) by (intros j Hj; by apply Hi, list_elem_of_further).
  destruct (vmm_kernel_shared_pml4_index i) eqn:Es.
  - destruct (copy_one s g k md i I Hk Hr Hi0 Es) as (e & s1 & E1 & E2 & P1 & W1 & W1').
    rewrite E1, bind_Some_l, E2, bind_Some_l.
    destruct (IH s1) as (s' & E' & P' & H1 & H2); [apply P1|by eapply publishing_record|done|done|].
    pose proof (proj1 (pb_env _ _ _ P1)) as Ek. rewrite Ek in *.
    assert (Hkw : forall j, word (mem s1) (kernel_pml4 s) j = word (mem s) (kernel_pml4 s) j).
    { intros j. apply word_agree, P1. }
    exists s'. split; [done|]. split; [by eapply publishing_trans|]. split.
    + intros j Hj Hs. rewrite <- Hkw. apply elem_of_cons in Hj as [->|Hj]; [|by apply H1]. by apply H2.
    + intros j Hj Hs Hw. rewrite <- Hkw. apply H2; [done|done|].
      destruct (decide (j = i)) as [->|]; [done|]. rewrite W1' by (first [done|unfold index; lia]).
      by rewrite Hkw.
  - rewrite bind_Some_l. destruct (IH s I Hk Hr Hi') as (s' & E' & P' & H1 & H2). exists s'.
    split; [done|]. split; [done|]. split; [|done]. intros j Hj Hs.
    apply elem_of_cons in Hj as [->|Hj]; [congruence|by apply H1].
Qed.

(** Every root of the list is published. *)
Lemma publish_roots_spec l s g :
  inv s g -> (forall md, md ∈ l -> md ∈ address_space_metadata s) ->
  exists s', publish_roots s l = Some s' /\ publishing s g s' /\
    (forall md, md ∈ l -> root md <> 0 -> published s' (root md)) /\
    (forall k md, address_space_metadata s !! k = Some md -> root md <> 0 -> published s (root md) ->
       published s' (root md)).
Proof using All.
  revert s. induction l as [|md l IH]; intros s I Hl; cbn [publish_roots].
  { exists s. split; [done|]. split; [by apply publishing_refl|]. split; [|done].
    intros md Hx. by apply elem_of_nil in Hx. }
  assert (Hl' : forall x, x ∈ l -> x ∈ address_space_metadata s) by (intros x Hx; by apply Hl, list_elem_of_further).
  destruct (Z.eqb_spec (root md) 0) as [E0|N0].
  - rewrite bind_Some_l. destruct (IH s I Hl') as (s' & E' & P' & H1 & H2). exists s'.
    split; [done|]. split; [done|]. split; [|done]. intros x Hx. apply elem_of_cons in Hx as [->|Hx]; [done|].
    by apply H1.
  - destruct (list_elem_of_lookup_1 _ md (Hl md (list_elem_of_here _ _))) as [k Hk].
    destruct (copy_shared_spec high_half s g k md I Hk N0) as (s1 & E1 & P1 & W1 & W1').
    { intros i. apply high_half_in. }
    rewrite E1, bind_Some_l. pose proof (proj1 (pb_env _ _ _ P1)) as Ek.
    assert (Hkw : forall j, word (mem s1) (kernel_pml4 s) j = word (mem s) (kernel_pml4 s) j).
    { intros j. apply word_agree, P1. }
    destruct (IH s1) as (s' & E' & P' & H1 & H2); [apply P1|by rewrite (pb_metadata _ _ _ P1)|].
    assert (Hpub1 : published s1 (root md)).
    { intros i Hi Hs. rewrite Ek, Hkw. apply W1; [|done]. by apply high_half_in. }
    exists s'. split; [done|]. split; [by eapply publishing_trans|]. split.
    + intros x Hx. apply elem_of_cons in Hx as [->|Hx]; [|by apply H1]. intros _.
      apply (H2 k md); [by eapply publishing_record|done|done].
    + intros k' x Hk' Hx Hpub. apply (H2 k' x); [by eapply publishing_record|done|].
      intros i Hi Hs. rewrite Ek, Hkw. destruct (pb_slots _ _ _ P1 k' x i Hk' Hx Hi) as [->|[_ ->]]; [|done].
      by apply Hpub.
Qed.

(** Published slots only add translations. *)
Lemma publishing_mmu s g s' r va :
  inv s g -> publishing s g s' -> known s r ->
  mmu s' r va = mmu s r va \/ (mmu s r va = None /\ mmu s' r va = mmu s (kernel_pml4 s) va).
Proof using All.
  intros I P Hkn. pose proof (pb_inv _ _ _ P) as I'. pose proof (proj1 (pb_env _ _ _ P)) as Ek.
  assert (HK : mmu s' (kernel_pml4 s) va = mmu s (kernel_pml4 s) va).
  { rewrite <- Ek at 1. by rewrite (mmu_kernel s' g), (mmu_kernel s g). }
  destruct Hkn as [->|(k & md & Hk & <- & Hr)]; [by left|].
  pose proof (publishing_record _ _ _ _ _ P Hk) as Hk'.
  pose proof (ix_index 39 va) as Hx. unfold index in Hx.
  destruct (decide (ix 39 va < 256)) as [Hlow|Hhigh].
  { left. by rewrite (mmu_user s g k md), (mmu_user s' g k md). }
  assert (Hi : 256 <= ix 39 va < 512) by lia. unfold mmu, path_of in *.
  assert (Hkw : word (mem s') (kernel_pml4 s) (ix 39 va) = word (mem s) (kernel_pml4 s) (ix 39 va)).
  { apply word_agree, P. }
  destruct (sp_high _ _ _ _ _ _ _ (iv_space _ _ I _ _ Hk Hr) _ Hi) as [E|[Hs E]];
    destruct (pb_slots _ _ _ P k md _ Hk Hr Hi) as [E'|[_ E']].
  - left. rewrite !walk_absent by congruence. done.
  - right. rewrite (walk_absent (mem s)) by done. split; [done|].
    rewrite (walk_root (mem s') (root md) (kernel_pml4 s)) by congruence. done.
  - left. rewrite (walk_root (mem s') (root md) (kernel_pml4 s)) by congruence.
    by rewrite HK, (walk_root (mem s) (root md) (kernel_pml4 s)).
  - left. rewrite (walk_root (mem s') (root md) (kernel_pml4 s)) by congruence.
    by rewrite HK, (walk_root (mem s) (root md) (kernel_pml4 s)).
Qed.

(** The other online CPUs. *)
Lemma other_cpus_spec l n c t :
  mask_wf t -> 0 <= n -> n + Z.of_nat (length l) <= CPU_MAX_COUNT ->
  mask_wf (other_cpus l n c t) /\
  forall d, cpu_index d -> mask_test (other_cpus l n c t) d = true <->
    mask_test t d = true \/
    (n <= d /\ d <> c /\ exists x, l !! Z.to_nat (d - n) = Some x /\ online x = true).
Proof using Type.
  revert n t. induction l as [|x l IH]; intros n t Ht Hn Hl; cbn [other_cpus].
  { split; [done|]. intros d Hd. split; [by left|]. intros [?|(_ & _ & x & Hx & _)]; [done|].
    by rewrite lookup_nil in Hx. }
  cbn [length] in Hl. assert (Hci : cpu_index n) by (unfold cpu_index; lia).
  set (t' := if online x && negb (n =? c) then mask_set t n else t).
  assert (Ht' : mask_wf t') by (unfold t'; destruct (_ && _); [by apply mask_set_wf|done]).
  assert (Htest : forall d, cpu_index d -> mask_test t' d = true <->
    mask_test t d = true \/ (d = n /\ n <> c /\ online x = true)).
  { intros d Hd. unfold t'. destruct (online x); cbn [andb].
    - destruct (Z.eqb_spec n c); cbn [negb]; [naive_solver|].
      rewrite mask_set_test, orb_true_iff, Z.eqb_eq by done. naive_solver.
    - naive_solver. }
  destruct (IH (n + 1) t') as [H1 H2]; [done|lia|lia|]. split; [done|]. intros d Hd.
  rewrite H2, Htest by done. split.
  - intros [[?|(-> & Hnc & Hon)]|(Hle & Hdc & y & Hy & Hon)]; [by left|right|right].
    + split; [lia|]. split; [done|]. exists x. by rewrite Z.sub_diag.
    + split; [lia|]. split; [done|]. exists y. split; [|done].
      replace (Z.to_nat (d - n)) with (S (Z.to_nat (d - (n + 1)))) by lia. done.
  - intros [?|(Hle & Hdc & y & Hy & Hon)]; [by left; left|]. destruct (decide (d = n)) as [->|Hne].
    + rewrite Z.sub_diag in Hy. injection Hy as ->. left. right. auto.
    + right. split; [lia|]. split; [done|]. exists y. split; [|done].
      replace (Z.to_nat (d - n)) with (S (Z.to_nat (d - (n + 1)))) in Hy by lia. done.
Qed.

(** The state after a publication: only slots of the roots and what the CPUs
    have cached change, and every root is published. *)
Record published_all s g s' : Prop := {
  pa_inv : inv s' g;
  pa_kernel : kernel_pml4 s' = kernel_pml4 s;
  pa_metadata : address_space_metadata s' = address_space_metadata s;
  pa_ioremap : ioremap_next s' = ioremap_next s;
  pa_bootstrap : bootstrap_mapping_active s' = bootstrap_mapping_active s;
  pa_cpus : cpus_agree s s';
  pa_published : forall k md, address_space_metadata s !! k = Some md -> root md <> 0 -> published s' (root md);
  pa_mmu : forall r va, known s r -> mmu s' r va = mmu s r va \/
    (mmu s r va = None /\ mmu s' r va = mmu s (kernel_pml4 s) va);
  pa_coherent : coherent s -> coherent s';
}.

Lemma publish_kernel_spec hw c s g :
  machine_ok hw -> inv s g -> exists s', vmm_publish_kernel_mappings hw c s = Some s' /\ published_all s g s'.
Proof using All.
  intros (Hl & Hi & Ha) I. unfold vmm_publish_kernel_mappings.
  destruct (publish_roots_spec (address_space_metadata s) s g I) as (s1 & E1 & P1 & H1 & _); [done|].
  rewrite E1, bind_Some_l. pose proof (pb_inv _ _ _ P1) as I1.
  destruct (pb_env _ _ _ P1) as (Ek & Ef & Ec & Eb & Ei & _).
  destruct (other_cpus_spec (cpus s1) 0 c no_cpus) as [Hwf Ht]; [apply no_cpus_wf|lia|apply I1|].
  destruct (shootdown_spec hw s1 (other_cpus (cpus s1) 0 c no_cpus) 0) as (s2 & E2 & T2 & S2); [done| |].
  { split; [done|]. split; [done|]. intros d Hd Hm. split; [done|].
    apply (Ht d Hd) in Hm as [X|(_ & _ & x & Hx & Hon)]; [by rewrite no_cpus_test in X|].
    rewrite Z.sub_0_r in Hx. exists (current_pml4 x). rewrite Hx. cbn. unfold cpu_view. by rewrite Hon. }
  exists s2. split; [done|].
  assert (Hmmu : forall r va, known s r -> mmu s2 r va = mmu s r va \/
    (mmu s r va = None /\ mmu s2 r va = mmu s (kernel_pml4 s) va)).
  { intros r va Hkn. rewrite (tlb_only_mmu s1 s2) by done. by apply (publishing_mmu s g s1). }
  split.
  - by apply (tlb_only_inv s1).
  - rewrite (to_kernel _ _ T2). done.
  - rewrite (to_metadata _ _ T2). apply P1.
  - rewrite (to_ioremap _ _ T2). done.
  - rewrite (to_bootstrap _ _ T2). done.
  - unfold cpus_agree. rewrite (to_cpus _ _ T2), Ec. done.
  - intros k md Hk Hr. assert (Hp : published s1 (root md)) by (apply H1; [by eapply list_elem_of_lookup_2|done]).
    intros i Hi' Hs. rewrite (to_mem _ _ T2), (to_kernel _ _ T2). by apply Hp.
  - done.
  - intros C. apply (coherent_grow s s2 g _ I C (all_shrink_cpus s s1 s2 _ Ec S2)).
    intros r va tr Hkn Hm. destruct (Hmmu r va Hkn) as [->|[? _]]; congruence.
Qed.

(** * The call *)

(** What [vmm_map] does on success, for every known root. *)
Record kernel_mapped s g (va pa flags : Z) s' g' : Prop := {
  km_pages : gKL g' = <[vpath va := kernel_pte pa flags]> (gKL g);
  km_published : forall k md, address_space_metadata s !! k = Some md -> root md <> 0 ->
    published s' (root md);
  km_kernel : forall va', mmu s' (kernel_pml4 s) va' =
    if decide (vpath va' = vpath va) then translate KERNEL_LINK (Some (kernel_pte pa flags))
    else mmu s (kernel_pml4 s) va';
  km_high : forall k md va', address_space_metadata s !! k = Some md -> root md <> 0 ->
    vmm_kernel_shared_pml4_index (ix 39 va') = true ->
    mmu s' (root md) va' = mmu s' (kernel_pml4 s) va';
  km_low : forall k md va', address_space_metadata s !! k = Some md -> root md <> 0 ->
    ix 39 va' < 256 -> mmu s' (root md) va' = mmu s (root md) va';
}.

Lemma published_high s k md va :
  published s (root md) -> address_space_metadata s !! k = Some md ->
  vmm_kernel_shared_pml4_index (ix 39 va) = true -> mmu s (root md) va = mmu s (kernel_pml4 s) va.
Proof using Type.
  intros Hp Hk Hs. unfold mmu, path_of. apply walk_root. apply Hp; [|done].
  pose proof (shared_high _ Hs). pose proof (ix_index 39 va). unfold index in *. lia.
Qed.

Lemma vmm_map_spec hw s g c va pa flags :
  machine_ok hw -> inv s g ->
  exists ok s' g', vmm_map hw s c (kernel_pml4 s) va pa flags = Some (ok, s') /\ inv s' g' /\
    kernel_pml4 s' = kernel_pml4 s /\ address_space_metadata s' = address_space_metadata s /\
    (forall f o, o <> OKernel -> gown g' !! f = Some o <-> gown g !! f = Some o) /\
    gL g' = gL g /\
    (ok = false -> gKL g' = gKL g /\ same_translations s s') /\
    (ok = true -> kernel_mapped s g va pa flags s' g' /\ VMM_USER_ADDRESS_LIMIT <= va /\
       has flags PTE_USER = false) /\
    (coherent s -> gKL g !! vpath va = None -> coherent s') /\
    (may_map_kernel s va pa flags -> ok = true).
Proof using All.
  intros Hhw I. unfold vmm_map.
  destruct (map_kernel_one_spec s g c va pa flags I) as (ok & s1 & g1 & R & E & Hf & Ht & Hok).
  rewrite E, bind_Some_l. clear E. pose proof (gr_inv _ _ _ _ R) as I1. destruct ok.
  2: { exists false, s1, g1. specialize (Hf eq_refl). split; [done|]. split; [done|].
       split; [apply R|]. split; [apply R|]. split; [apply R|]. split; [by apply (gr_spaces _ _ _ _ R)|].
       assert (Hsame : same_translations s s1).
       { intros r va' [->|(k & md & Hk & <- & Hr)].
         - by rewrite (grows_mmu_kernel s g s1 g1), (mmu_kernel s g), Hf.
         - destruct (grows_mmu_user s g s1 g1 k md va' I R Hk Hr) as [[-> _]|(_ & -> & ->)]; [done|].
           by rewrite (grows_mmu_kernel s g s1 g1), (mmu_kernel s g), Hf. }
       split; [done|]. split; [done|]. split; [|done]. intros C _.
       apply (coherent_grow s s1 g (fun _ _ => False)); [done|done| |].
       - unfold all_shrink. rewrite (gr_cpus _ _ _ _ R). apply all_shrink_refl.
       - intros r va' tr Hkn <-. by apply Hsame. }
  destruct (Ht eq_refl) as (EKL & Hva & Hs & Hu & _). clear Hf Ht.
  pose proof (invlpg_tlb s1 c (kernel_pml4 s) va) as T. set (s2 := invlpg_if_active s1 c (kernel_pml4 s) va) in *.
  pose proof (tlb_only_inv _ _ _ T I1) as I2.
  destruct (publish_kernel_spec hw c s2 g1 Hhw I2) as (s3 & E3 & Q). rewrite E3, bind_Some_l.
  assert (Ek : kernel_pml4 s3 = kernel_pml4 s).
  { rewrite (pa_kernel _ _ _ Q), (to_kernel _ _ T). apply R. }
  assert (Em : address_space_metadata s3 = address_space_metadata s).
  { rewrite (pa_metadata _ _ _ Q), (to_metadata _ _ T). apply R. }
  pose proof (pa_inv _ _ _ Q) as I3.
  exists true, s3, g1. split; [done|]. split; [done|]. split; [done|]. split; [done|]. split; [apply R|].
  split; [by apply (gr_spaces _ _ _ _ R)|]. split; [done|]. split.
  - intros _. split; [|done]. split; [done| | | |].
    + intros k md Hk Hr. apply (pa_published _ _ _ Q k); [|done]. rewrite (to_metadata _ _ T).
      by rewrite (gr_metadata _ _ _ _ R).
    + intros va'. rewrite <- Ek at 1. rewrite (mmu_kernel s3 g1), (mmu_kernel s g), EKL by done.
      case_decide as D; [by rewrite D, lookup_insert_eq|]. by rewrite lookup_insert_ne.
    + intros k md va' Hk Hr Hsh. rewrite <- Ek. apply (published_high s3 k); [|by rewrite Em|done].
      apply (pa_published _ _ _ Q k); [|done]. rewrite (to_metadata _ _ T). by rewrite (gr_metadata _ _ _ _ R).
    + intros k md va' Hk Hr Hlow. rewrite (mmu_user s3 g1 k md), (mmu_user s g k md) by
        (first [done|by rewrite Em]). by destruct (gr_spaces _ _ _ _ R) as [_ ->].
  - split; [|done]. intros C Hfree. apply Q.
    apply (coherent_grow s s2 g (fun _ _ => False) I C).
    + apply (all_shrink_cpus s s1); [apply R|]. apply invlpg_shrink.
    + intros r va' tr Hkn Hm. rewrite (tlb_only_mmu s1 s2) by done.
      apply (grows_keeps s g s1 g1 I R); [|done|done]. intros q e Hq. rewrite EKL, lookup_insert_ne; [done|].
      congruence.
Qed.

End kernel.
End VmmKernel.
