(* ===== verification/VmmSpaces.v ===== *)
(** Address spaces: creation, destruction and the switch between them. *)
From stdpp Require Import gmap.
From S2P Require Import Prelude Pmm Vmm VmmTree VmmInv VmmProofs VmmValid VmmUser VmmTlb VmmPages VmmKernel.
Import Pmm Vmm VmmTree VmmInv VmmProofs VmmValid VmmUser VmmTlb VmmPages VmmKernel.

Module VmmSpaces.

Section spaces.
Context {A : Type} `{!FrameAllocator A, !AllocatorLaws A}.
Implicit Types (s : vmm A) (g : ghost).

(** * A record gets or loses its space *)

Lemma inv_slot s s' g k md md' N' L' own' :
  inv s g -> address_space_metadata s !! k = Some md ->
  address_space_metadata s' = <[k := md']> (address_space_metadata s) ->
  kernel_pml4 s' = kernel_pml4 s -> cpus s' = cpus s ->
  alloc_ok (frames s') -> (forall f o, own' !! f = Some o -> held (frames s') f) ->
  (forall f o, o <> OHeld -> o <> OTable k -> o <> OLeaf k ->
     own' !! f = Some o <-> gown g !! f = Some o) ->
  (forall f o, o <> OHeld -> o <> OTable k -> gown g !! f = Some o -> mem s' !! f = mem s !! f) ->
  mask_wf (active_cpu_mask md') ->
  (root md <> 0 -> forall c : nat, fst ∘ cpu_view <$> cpus s !! c <> Some (root md)) ->
  (root md' = 0 -> tables md' = [] /\ leaves md' = [] /\
     forall f, own' !! f <> Some (OTable k) /\ own' !! f <> Some (OLeaf k)) ->
  (root md' <> 0 -> space_ok (mem s') (kernel_pml4 s) own' k md' N' L' /\
     (forall c, cpu_index c -> mask_test (active_cpu_mask md') c = false) /\
     forall c : nat, fst ∘ cpu_view <$> cpus s !! c <> Some (root md')) ->
  inv s' (with_space k N' L' own' g).
Proof using All.
  intros I Hk Em Ek Ec Ha Hh Ho Hm Hwf Hold Hun Hsp.
  assert (Hkr : mem s' !! kernel_pml4 s = mem s !! kernel_pml4 s).
  { apply (Hm _ OKernel); [done|done|]. by apply (iv_kown _ _ I [] _), I. }
  assert (Hlook : forall j mdj, address_space_metadata s' !! j = Some mdj ->
    (j = k /\ mdj = md') \/ (j <> k /\ address_space_metadata s !! j = Some mdj)).
  { intros j mdj. rewrite Em. intros E. destruct (decide (j = k)) as [->|]; [left|right].
    - rewrite list_lookup_insert_eq in E by (by eapply lookup_lt_Some). by simplify_eq.
    - by rewrite list_lookup_insert_ne in E. }
  split; cbn; rewrite ?Ek, ?Ec; try (by apply I); try done.
  - apply (paged_agree (mem s)); [|by apply I]. intros p f Hp. apply (Hm _ OKernel); [done|done|].
    by eapply (iv_kown _ _ I).
  - intros p f Hp. apply Ho; [done..|]. by eapply (iv_kown _ _ I).
  - rewrite Em, length_insert. apply I.
  - intros j mdj Hj Hr. destruct (Hlook _ _ Hj) as [[-> ->]|[Hne Hj']]; [by apply Hun|].
    destruct (iv_unused _ _ I j mdj Hj' Hr) as (? & ? & Hf). split; [done|].
    split; [done|]. intros f. destruct (Hf f) as [F1 F2]. rewrite !Ho by congruence. done.
  - intros j mdj Hj Hr. destruct (Hlook _ _ Hj) as [[-> ->]|[Hne Hj']]; [rewrite !slot_upd_eq; by apply Hsp|].
    rewrite !slot_upd_ne by done.
    apply (space_ok_frame (mem s) _ _ (gown g)); [by apply I| | | |].
    + intros f Hf. by apply (Hm _ (OTable j)); [|congruence|].
    + intros f. apply Ho; congruence.
    + intros f. apply Ho; congruence.
    + intros i Hi. left. by apply word_agree.
  - intros j mdj Hj. destruct (Hlook _ _ Hj) as [[-> ->]|[Hne Hj']]; [done|by apply (iv_mask_wf _ _ I j)].
  - intros j mdj c Hj Hr Hc. destruct (Hlook _ _ Hj) as [[-> ->]|[Hne Hj']]; [|by apply (iv_mask _ _ I j mdj)].
    destruct (Hsp Hr) as (_ & H1 & H2). rewrite H1 by done. split; [done|]. intros E.
    destruct (H2 (Z.to_nat c)). rewrite option_fmap_compose, E. done.
  - intros c p b E.
    destruct (iv_current _ _ I _ _ _ E) as [?|[?|[? (j & mdj & Hj & Er)]]]; [by left|by right; left|].
    destruct (decide (p = 0)); [by left|]. right; right. split; [done|]. rewrite Em.
    destruct (decide (j = k)) as [->|].
    + simplify_eq. destruct (Hold ltac:(done) c). rewrite option_fmap_compose, E. done.
    + exists j, mdj. by rewrite list_lookup_insert_ne.
Qed.

(** * Creation *)

Lemma kernel_word_user s g i e :
  inv s g -> index i -> word (mem s) (kernel_pml4 s) i = Some e -> has e PTE_USER = false.
Proof using All.
  intros I Hi He.
  destruct (kernel_words _ _ _ _ _ _ I (iv_kroot _ _ I) ltac:(cbn; lia) Hi He) as [->|(h & -> & Hh & _)]; [done|].
  by apply kernel_link_facts.
Qed.

(** The copy of the shared slots into a held table. *)
Lemma copy_checked_spec ixs s g t :
  inv s g -> gown g !! t = Some OHeld -> is_table (mem s) t -> (forall i, i ∈ ixs -> 256 <= i < 512) ->
  exists s', copy_checked s t ixs = Some (true, s') /\ inv s' g /\ same_env s s' /\
    address_space_metadata s' = address_space_metadata s /\ is_table (mem s') t /\
    (forall f, f <> t -> mem s' !! f = mem s !! f) /\
    (forall i, i ∈ ixs -> vmm_kernel_shared_pml4_index i = true ->
       word (mem s') t i = word (mem s) (kernel_pml4 s) i) /\
    (forall i, index i -> (i ∉ ixs) \/ vmm_kernel_shared_pml4_index i = false ->
       word (mem s') t i = word (mem s) t i).
Proof using All.
  revert s. induction ixs as [|i ixs IH]; intros s I Ht Htab Hi; cbn [copy_checked].
  { exists s. split; [done|]. split; [done|]. split; [done|]. split; [done|]. split; [done|].
    split; [done|]. split; [|done]. intros i Hx. by apply elem_of_nil in Hx. }
  assert (Hi0 : 256 <= i < 512) by apply Hi, list_elem_of_here.
  assert (Hix : index i) by (unfold index; lia).
  assert (Hi' : forall j, j ∈ ixs -> 256 <= j < 512) by (intros j Hj; by apply Hi, list_elem_of_further).
  assert (Htk : t <> kernel_pml4 s).
  { intros ->. pose proof (iv_kown _ _ I _ _ (iv_kroot _ _ I)). congruence. }
  destruct (vmm_kernel_shared_pml4_index i) eqn:Es.
  - rewrite entry_word. destruct (table_word _ _ i (kernel_table _ _ _ _ I (iv_kroot _ _ I)) Hix) as [e He].
    rewrite He, bind_Some_l, (kernel_word_user s g i e), store_write, bind_Some_l by done.
    set (s1 := set_mem _ s).
    assert (I1 : inv s1 g).
    { replace g with (with_own (gown g) g) by (by destruct g).
      apply (inv_frame s); try done; try apply I.
      intros f o Hno Ho. cbn. apply write_ne. congruence. }
    destruct (IH s1 I1 Ht) as (s' & E' & I' & V' & D' & T' & M' & H1 & H2); [by apply is_table_write|done|].
    assert (Hkw : forall j, word (mem s1) (kernel_pml4 s) j = word (mem s) (kernel_pml4 s) j).
    { intros j. apply word_agree. by apply write_ne. }
    exists s'. split; [done|]. split; [done|]. split; [done|]. split; [done|]. split; [done|]. split.
    { intros f Hf. rewrite M' by done. by apply write_ne. }
    split.
    + intros j Hj Hs. destruct (decide (j ∈ ixs)) as [Hin|Hin].
      * rewrite (H1 j Hin Hs). apply Hkw.
      * apply elem_of_cons in Hj as [->|]; [|done]. rewrite H2 by (first [done|by left]).
        cbn. by rewrite word_write_eq.
    + intros j Hj Hor. rewrite H2.
      * cbn. apply word_write_ne; [done|done|]. right. intros <-. rewrite elem_of_cons in Hor.
        destruct Hor as [Hor|Hor]; [by destruct Hor; left|congruence].
      * done.
      * destruct Hor as [Hor|]; [left|by right]. intros ?. apply Hor. by right.
  - destruct (IH s I Ht Htab Hi') as (s' & E' & I' & V' & D' & T' & M' & H1 & H2). exists s'.
    split; [done|]. split; [done|]. split; [done|]. split; [done|]. split; [done|]. split; [done|]. split.
    + intros j Hj Hs. apply elem_of_cons in Hj as [->|Hj]; [congruence|by apply H1].
    + intros j Hj Hor. apply H2; [done|]. destruct (decide (j = i)) as [->|]; [by right|].
      destruct Hor as [Hor|]; [left|by right]. intros ?. apply Hor. by right.
Qed.

Lemma find_unused_spec l k :
  find_unused l = Some k -> exists md, l !! k = Some md /\ root md = 0 /\ destroy_pending md = false.
Proof using Type.
  revert k. induction l as [|md l IH]; intros k; cbn; [done|].
  destruct (Z.eqb_spec (root md) 0), (destroy_pending md) eqn:E; cbn [andb negb];
    try (intros [= <-]; by exists md); destruct (find_unused l) as [j|]; try done; intros [= <-];
    destruct (IH j eq_refl) as (md' & ? & ? & ?); by exists md'.
Qed.

Lemma find_unused_none l md :
  find_unused l = None -> md ∈ l -> root md = 0 -> destroy_pending md = true.
Proof using Type.
  induction l as [|x l IH]; intros E Hin Hr; [by apply elem_of_nil in Hin|]. cbn in E.
  destruct ((root x =? 0) && negb (destroy_pending x)) eqn:Ex; [done|].
  destruct (find_unused l); [done|]. apply elem_of_cons in Hin as [->|Hin]; [|by apply IH].
  rewrite Hr in Ex. by destruct (destroy_pending x).
Qed.

(** A fresh root with the shared slots. *)
Lemma root_space_ok m kr own k t :
  is_frame t -> is_table m t -> (forall f, own !! f = Some (OTable k) <-> f = t) ->
  (forall f, own !! f <> Some (OLeaf k)) ->
  (forall i, 0 <= i < 256 -> word m t i = Some 0) ->
  (forall i, 256 <= i < 512 -> word m t i = Some 0 \/
     (vmm_kernel_shared_pml4_index i = true /\ word m t i = word m kr i)) ->
  space_ok m kr own k (Metadata t [] [] no_cpus false false) {[ [] := t ]} ∅.
Proof using Type.
  intros Hf Ht Ho Hl Hlow Hhigh. split; cbn [root tables leaves]; try done.
  - split.
    + split.
      * intros i p f E. apply lookup_singleton_Some in E as [? _]. done.
      * intros p q f E1 E2. apply lookup_singleton_Some in E1 as [<- _], E2 as [<- _]. done.
      * intros p f E. apply lookup_singleton_Some in E as [_ <-]. done.
      * intros p f i E Hlen Hi Hd. apply lookup_singleton_Some in E as [<- <-].
        rewrite lookup_singleton_ne by done. apply Hlow. cbn in Hd. unfold index in Hi. lia.
    + intros q e E. by rewrite lookup_empty in E.
    + intros p u i E Hlen. apply lookup_singleton_Some in E as [<- _]. done.
  - intros f. rewrite Ho. split; [intros ->; exists []; by apply lookup_singleton_Some|].
    intros (p & E). by apply lookup_singleton_Some in E as [_ <-].
  - intros f. split; [intros X; by apply elem_of_nil in X|]. intros (p & Hne & E).
    by apply lookup_singleton_Some in E as [<- _].
  - apply NoDup_nil_2.
  - intros f X. by apply elem_of_nil in X.
  - intros f. split; [by intros X; apply Hl in X|]. intros X. by apply elem_of_nil in X.
  - apply NoDup_nil_2.
Qed.

(** No CPU runs on a frame that is not a root. *)
Lemma not_current s g (t : Z) :
  inv s g -> t <> 0 -> gown g !! t <> Some OKernel -> (forall k, gown g !! t <> Some (OTable k)) ->
  forall c : nat, fst ∘ cpu_view <$> cpus s !! c <> Some t.
Proof using All.
  intros I H0 Hnk Hnt c E. rewrite option_fmap_compose in E.
  destruct (cpu_view <$> cpus s !! c) as [[p b]|] eqn:Ev; [|done]. injection E as ->.
  destruct (iv_current _ _ I _ _ _ Ev) as [?|[->|[_ (k & md & Hk & Er)]]]; [done| |].
  - apply Hnk. by apply (iv_kown _ _ I [] _), I.
  - apply (Hnt k). rewrite <- Er. apply (root_owned s g k md); [done|done|congruence].
Qed.

(** What [vmm_create_address_space] does. *)
Record created s g (r : Z) s' g' : Prop := {
  cr_inv : inv s' g';
  cr_kernel : kernel_pml4 s' = kernel_pml4 s;
  cr_cpus : cpus s' = cpus s;
  cr_translations : same_translations s s';
  cr_mem : forall f o, gown g !! f = Some o -> mem s' !! f = mem s !! f;
  cr_failed : r = 0 -> address_space_metadata s' = address_space_metadata s /\
    forall f, gown g' !! f = gown g !! f;
  cr_new : r <> 0 -> is_frame r /\ gown g !! r = None /\ published s' r /\
    (forall va, ix 39 va < 256 -> mmu s' r va = None) /\
    exists k md0, address_space_metadata s !! k = Some md0 /\ root md0 = 0 /\
      address_space_metadata s' = <[k := Metadata r [] [] no_cpus false false]> (address_space_metadata s) /\
      gown g' = <[r := OTable k]> (gown g) /\ gL g' k = ∅ /\ others_same k g g';
  cr_when : r <> 0 <-> can_alloc 1 (frames s) = true /\ exists md, md ∈ address_space_metadata s /\ root md = 0 /\ destroy_pending md = false;
}.

Lemma same_translations_records s s' g g' :
  inv s g -> inv s' g' -> kernel_pml4 s' = kernel_pml4 s -> gKL g' = gKL g ->
  (forall k md, address_space_metadata s !! k = Some md -> root md <> 0 ->
     address_space_metadata s' !! k = Some md /\ gL g' k = gL g k) ->
  (forall f o, gown g !! f = Some o -> mem s' !! f = mem s !! f) -> same_translations s s'.
Proof using All.
  intros I I' Ek EKL Hrec Hmem r va [->|(k & md & Hk & <- & Hr)].
  - rewrite <- Ek at 1. by rewrite (mmu_kernel s' g'), (mmu_kernel s g), EKL.
  - destruct (Hrec k md Hk Hr) as [Hk' EL]. apply (mmu_same s s' g g' k md md); try done.
    + intros i Hi. apply word_agree. apply (Hmem _ (OTable k)). by eapply root_owned.
    + left. by rewrite EL.
Qed.

(** The record of the new root. *)
Lemma new_record s g t k md0 :
  inv s (take_held t g) -> is_frame t -> gown g !! t = None -> is_table (mem s) t ->
  (forall i, 0 <= i < 256 -> word (mem s) t i = Some 0) ->
  (forall i, 256 <= i < 512 -> word (mem s) t i = Some 0 \/
     (vmm_kernel_shared_pml4_index i = true /\ word (mem s) t i = word (mem s) (kernel_pml4 s) i)) ->
  address_space_metadata s !! k = Some md0 -> root md0 = 0 ->
  inv (alter_metadata s k (fun _ => Metadata t [] [] no_cpus false false))
    (with_space k {[ [] := t ]} ∅ (<[t := OTable k]> (gown g)) g).
Proof using All.
  intros I Hf Hn Ht Hlow Hhigh Hk H0. destruct (iv_unused _ _ I _ _ Hk H0) as (_ & _ & Hun).
  assert (Hun' : forall f, gown g !! f <> Some (OTable k) /\ gown g !! f <> Some (OLeaf k)).
  { intros f. destruct (decide (f = t)) as [->|]; [rewrite Hn; done|].
    specialize (Hun f). cbn in Hun. by rewrite lookup_insert_ne in Hun. }
  replace (with_space k {[ [] := t ]} ∅ (<[t := OTable k]> (gown g)) g) with
    (with_space k {[ [] := t ]} ∅ (<[t := OTable k]> (gown g)) (take_held t g)) by done.
  apply (inv_slot s _ _ k md0 (Metadata t [] [] no_cpus false false)); cbn [root active_cpu_mask]; try done.
  - by apply (alter_metadata_eq s k md0 (fun _ => Metadata t [] [] no_cpus false false)).
  - apply I.
  - intros f o. rewrite lookup_insert_Some. intros [[<- _]|[Hne Ho]].
    + apply (iv_held _ _ I t OHeld). cbn. by rewrite lookup_insert_eq.
    + apply (iv_held _ _ I f o). cbn. by rewrite lookup_insert_ne.
  - intros f o H1 H2 H3. cbn. rewrite !lookup_insert_Some. naive_solver.
  - apply no_cpus_wf.
  - intros E. destruct Hf as [? _]. lia.
  - intros _. split; [|split].
    + apply root_space_ok; try done.
      * intros f. rewrite lookup_insert_Some. destruct (Hun' f). naive_solver.
      * intros f. rewrite lookup_insert_Some. destruct (Hun' f). naive_solver.
    + intros c _. apply no_cpus_test.
    + apply (not_current s (take_held t g)); [done|destruct Hf as [? _]; lia| |];
        cbn; intros; rewrite lookup_insert_eq; done.
Qed.

Lemma alloc_table_some s t s' : vmm_alloc_table s = Some (t, s') -> is_frame t -> can_alloc 1 (frames s) = true.
Proof using Type.
  unfold vmm_alloc_table. cbn [can_alloc]. destruct (alloc_frame (frames s)) as [[p a]|]; [|done].
  rewrite bind_Some_l. cbv zeta. destruct (Z.eqb_spec p 0); [|done]. intros [= <- _] [? _]. lia.
Qed.

Lemma create_spec s g :
  inv s g -> exists r s' g', vmm_create_address_space s = Some (r, s') /\ created s g r s' g'.
Proof using All.
  intros I. unfold vmm_create_address_space. rewrite (proj2 (Z.eqb_neq _ _) (kroot_nonzero _ _ I)).
  destruct (alloc_table_spec s g I) as (t & s1 & E1 & Hcase & Ek & Em & Ec & Eb & _).
  rewrite E1, bind_Some_l. destruct Hcase as [(-> & I1 & Emem & _)|(Hf & Hnone & I1 & B & Emem)].
  { cbn [Z.eqb]. exists 0, s1, g. split; [done|]. split; try done; [|by rewrite Emem|].
    - apply (translations_same s s1 g g); try done. intros. by rewrite Emem.
    - split; [done|]. intros [Hn _]. by destruct (alloc_table_spends _ _ _ E1 0%nat Hn). }
  rewrite frame_nonzero by done.
  assert (Hkeep : forall x o, gown g !! x = Some o -> mem s1 !! x = mem s !! x).
  { intros x o Ho. rewrite Emem. apply lookup_insert_ne. congruence. }
  destruct (copy_checked_spec high_half s1 (take_held t g) t) as (s2 & E2 & I2 & V2 & D2 & T2 & M2 & H1 & H2);
    [done|apply B|apply B|intros i; apply high_half_in|].
  rewrite E2, bind_Some_l. cbn [negb]. destruct V2 as (Vk & Vf & Vc & Vb & _).
  assert (Hkeep2 : forall x o, gown g !! x = Some o -> mem s2 !! x = mem s !! x).
  { intros x o Ho. rewrite M2 by congruence. by eapply Hkeep. }
  unfold vmm_metadata_create.
  destruct (find_unused (address_space_metadata s2)) as [k|] eqn:Ef.
  2: { cbn [mbind option_bind].
       destruct (free_one s2 (take_held t g) t I2) as (s3 & E3 & (F3 & _) & I3 & _); [cbn; by rewrite lookup_insert_eq|].
       unfold vmm_table_phys. rewrite E3, bind_Some_l. destruct F3 as (F1 & F2 & F3 & F4 & F5).
       exists 0, s3, (drop_held t (take_held t g)). split; [done|].
       assert (Eown : forall f, gown (drop_held t (take_held t g)) !! f = gown g !! f).
       { intros f. cbn. rewrite delete_insert_eq. destruct (decide (t = f)) as [<-|].
         - by rewrite lookup_delete_eq.
         - by rewrite lookup_delete_ne. }
       split; [done|congruence|congruence| |by rewrite F1|intros _; split; [congruence|done]|done|].
       2: { split; [done|]. rewrite <- Em, <- D2. intros (_ & md & Hin & Hr & Hd).
            rewrite (find_unused_none _ md Ef Hin Hr) in Hd. done. }
       apply (translations_same s s3 g (drop_held t (take_held t g))); try done; [congruence|congruence|].
       intros f o Ho. rewrite F1. by eapply Hkeep2. }
  rewrite bind_Some_l. destruct (find_unused_spec _ _ Ef) as (md0 & Hk & H0 & Hd0).
  assert (Hlow : forall i, 0 <= i < 256 -> word (mem s2) t i = Some 0).
  { intros i Hi. rewrite H2; [apply B; unfold index; lia|unfold index; lia|left]. rewrite high_half_in. lia. }
  assert (Hsh : forall i, 256 <= i < 512 -> vmm_kernel_shared_pml4_index i = true ->
    word (mem s2) t i = word (mem s2) (kernel_pml4 s2) i).
  { intros i Hi Hs. rewrite H1, Vk by (first [done|by apply high_half_in]). symmetry. apply word_agree.
    apply M2. intros <-. pose proof (iv_kown _ _ I _ _ (iv_kroot _ _ I)). rewrite Ek in *. congruence. }
  assert (Hhigh : forall i, 256 <= i < 512 -> word (mem s2) t i = Some 0 \/
    (vmm_kernel_shared_pml4_index i = true /\ word (mem s2) t i = word (mem s2) (kernel_pml4 s2) i)).
  { intros i Hi. destruct (vmm_kernel_shared_pml4_index i) eqn:Es; [right; auto|left].
    rewrite H2; [apply B; unfold index; lia|unfold index; lia|by right]. }
  pose proof (new_record s2 g t k md0 I2 Hf Hnone T2 Hlow Hhigh Hk H0) as I3.
  set (s3 := alter_metadata s2 k (fun _ => Metadata t [] [] no_cpus false false)) in *.
  set (g3 := with_space k _ _ _ g) in *.
  pose proof (alter_metadata_eq s2 k md0 (fun _ => Metadata t [] [] no_cpus false false) Hk) as Ea.
  fold s3 in Ea. cbv beta in Ea.
  assert (Hk3 : address_space_metadata s3 !! k = Some (Metadata t [] [] no_cpus false false)).
  { rewrite Ea. apply list_lookup_insert_eq. by eapply lookup_lt_Some. }
  assert (Hr3 : root (Metadata t [] [] no_cpus false false) <> 0) by (cbn; destruct Hf as [? _]; lia).
  destruct (validate_spec s3 g3 k _ I3 Hk3 Hr3) as (b & Ev & Hb). cbn [root] in *.
  assert (Hpub : published s3 t) by exact Hsh. apply Hb in Hpub as ->.
  rewrite Ev, bind_Some_l. cbn [negb]. exists t, s3, g3. split; [done|]. split.
  - done.
  - cbn. congruence.
  - cbn. congruence.
  - apply (same_translations_records s s3 g g3); try done; [cbn; congruence|].
    intros j md Hj Hr. assert (j <> k) as Hjk.
    { intros ->. rewrite D2, Em in Hk. simplify_eq. }
    split; [|cbn; by rewrite slot_upd_ne]. rewrite Ea, list_lookup_insert_ne by done. by rewrite D2, Em.
  - exact Hkeep2.
  - intros ->. by destruct Hf as [? _].
  - intros _. split; [done|]. split; [done|]. split; [exact Hsh|]. split.
    + intros va Hva. rewrite (mmu_user s3 g3 k _ va I3 Hk3 Hr3 Hva : mmu s3 t va = _). cbn. by rewrite slot_upd_eq.
    + exists k, md0. rewrite <- Em, <- D2. split; [done|]. split; [done|]. split; [done|]. split; [done|].
      cbn. rewrite slot_upd_eq. split; [done|]. split; [done|]. split; [done|]. intros j Hj. cbn. by rewrite !slot_upd_ne.
  - split; [intros _|intros _; by destruct Hf as [? _]; lia]. split; [by eapply alloc_table_some|].
    exists md0. rewrite <- Em, <- D2. split; [by eapply list_elem_of_lookup_2|done].
Qed.

(** * Destruction *)

Definition loosen (k : nat) (o : owner) : owner :=
  if decide (o = OTable k \/ o = OLeaf k) then OHeld else o.

Lemma loosen_other k o o' : o' <> OHeld -> o' <> OTable k -> o' <> OLeaf k -> loosen k o = o' <-> o = o'.
Proof using Type. intros H1 H2 H3. unfold loosen. case_decide as D; [|done]. destruct D; naive_solver. Qed.

(** The frames of a space that is detached. *)
Definition space_frames (md : metadata) : list Z := root md :: leaves md ++ tables md.

Lemma space_frames_own s g k md f :
  inv s g -> address_space_metadata s !! k = Some md -> root md <> 0 ->
  f ∈ space_frames md <-> gown g !! f = Some (OTable k) \/ gown g !! f = Some (OLeaf k).
Proof using All.
  intros I Hk Hr. pose proof (iv_space _ _ I _ _ Hk Hr) as S. unfold space_frames.
  rewrite elem_of_cons, elem_of_app, (sp_own _ _ _ _ _ _ _ S), (sp_leaf_own _ _ _ _ _ _ _ S),
    (sp_tables _ _ _ _ _ _ _ S). split.
  - intros [->|[?|(p & _ & Hp)]]; [left; exists []; apply S|by right|left; eauto].
  - intros [[p Hp]|?]; [|by right; left]. destruct (decide (p = [])) as [->|].
    + left. pose proof (sp_root _ _ _ _ _ _ _ S). congruence.
    + right. right. eauto.
Qed.

Lemma space_frames_nodup s g k md :
  inv s g -> address_space_metadata s !! k = Some md -> root md <> 0 -> NoDup (space_frames md).
Proof using All.
  intros I Hk Hr. pose proof (iv_space _ _ I _ _ Hk Hr) as S. unfold space_frames.
  assert (Hl : forall f, f ∈ leaves md -> gown g !! f = Some (OLeaf k)) by (intros f; apply S).
  assert (Ht : forall f, f ∈ tables md -> gown g !! f = Some (OTable k)).
  { intros f Hf. apply (sp_tables _ _ _ _ _ _ _ S) in Hf as (p & _ & Hp). apply (sp_own _ _ _ _ _ _ _ S). eauto. }
  apply NoDup_cons. rewrite elem_of_app. split.
  - intros [Hin|Hin].
    + apply Hl in Hin. pose proof (root_owned _ _ _ _ I Hk Hr). congruence.
    + apply (sp_tables _ _ _ _ _ _ _ S) in Hin as (p & Hne & Hp). apply Hne.
      eapply (tr_inj _ _ _ _ (pg_tree _ _ _ _ _ (sp_paged _ _ _ _ _ _ _ S))); [exact Hp|apply S].
  - apply NoDup_app. split; [apply S|]. split; [|apply S]. intros f H1 H2.
    apply Hl in H1. apply Ht in H2. congruence.
Qed.

(** The frames of the space become held. *)
Definition detached_ghost (k : nat) g : ghost := with_space k ∅ ∅ (loosen k <$> gown g) g.

Lemma detach_inv s g k md :
  inv s g -> address_space_metadata s !! k = Some md -> root md <> 0 ->
  (forall c, cpu_index c -> mask_test (active_cpu_mask md) c = false) ->
  inv (alter_metadata s k detach) (detached_ghost k g).
Proof using All.
  intros I Hk Hr Hmask. unfold detached_ghost.
  apply (inv_slot s _ g k md (detach md)); try done; try (by apply I).
  - by apply alter_metadata_eq.
  - intros f o. rewrite lookup_fmap_Some. intros (o' & _ & Ho). by eapply (iv_held _ _ I).
  - intros f o H1 H2 H3. rewrite lookup_fmap_Some. split.
    + intros (o' & E & Ho). apply loosen_other in E; [|done..]. by subst.
    + intros Ho. exists o. split; [|done]. by apply loosen_other.
  - cbn. by apply (iv_mask_wf _ _ I k md).
  - intros _ c E. rewrite option_fmap_compose in E.
    destruct (cpu_view <$> cpus s !! c) as [[p b]|] eqn:Ev; [|done]. injection E as ->.
    assert (Hc : cpu_index (Z.of_nat c)).
    { destruct (cpus s !! c) eqn:Ex; [|done]. apply lookup_lt_Some in Ex.
      pose proof (iv_cpus _ _ I). unfold cpu_index. lia. }
    assert (b = true) as ->.
    { destruct (iv_current _ _ I _ _ _ Ev) as [?|[?|[? _]]]; [done| |done].
      by destruct (root_not_kernel _ _ _ _ I Hk Hr). }
    pose proof (iv_mask _ _ I k md (Z.of_nat c) Hk Hr Hc) as [_ X]. rewrite Nat2Z.id in X.
    rewrite (Hmask _ Hc) in X. by specialize (X Ev).
  - intros _. split; [done|]. split; [done|]. intros f. rewrite !lookup_fmap.
    destruct (gown g !! f) as [o|]; cbn; [|done]. unfold loosen. case_decide; naive_solver.
Qed.

Lemma frees_app s g l1 l2 s1 s2 :
  frees s g l1 s1 -> (forall g1, inv s1 g1 -> minus_held l1 g g1 -> frees s1 g1 l2 s2) ->
  frees s g (l1 ++ l2) s2.
Proof using All.
  intros (F1 & H1 & g1 & I1 & M1) HF. destruct (HF g1 I1 M1) as (F2 & H2 & g2 & I2 & M2).
  split; [by eapply frames_only_trans|]. split.
  - intros q. rewrite H2, H1, not_elem_of_app. tauto.
  - exists g2. split; [done|]. destruct M1 as (A1 & A2 & A3 & A4 & A5), M2 as (B1 & B2 & B3 & B4 & B5).
    split; [congruence|]. split; [congruence|]. split; [intros j; by rewrite B3, A3|].
    split; [intros j; by rewrite B4, A4|]. intros f o. rewrite B5, A5, not_elem_of_app. tauto.
Qed.

(** No table that is freed is the kernel's. *)
Lemma free_tables_spec l s g :
  inv s g -> NoDup l -> (forall f, f ∈ l -> is_frame f /\ gown g !! f = Some OHeld) ->
  exists s', free_tables s l = Some s' /\ frees s g l s'.
Proof using All.
  revert s g. induction l as [|p l IH]; intros s g I Hnd Hh; cbn [free_tables].
  { exists s. split; [done|by apply frees_nothing]. }
  apply NoDup_cons in Hnd as [Hp Hnd]. destruct (Hh p) as [Hpf Hpo]; [apply list_elem_of_here|].
  rewrite (reaches_spec s g) by (first [done|congruence]). rewrite bind_Some_l.
  destruct (free_one s g p I Hpo) as (s1 & E & F & I1 & M).
  rewrite E, bind_Some_l. destruct (IH s1 (drop_held p g) I1 Hnd) as (s' & E' & F').
  - intros f Hf. destruct (Hh f) as [H1 H2]; [by apply list_elem_of_further|]. split; [done|].
    cbn. by rewrite lookup_delete_ne by congruence.
  - exists s'. split; [done|]. by apply (frees_cons _ _ _ _ s1 _ (drop_held p g)).
Qed.

Lemma destroy_release_spec s g p ls ts :
  inv s g -> NoDup (p :: ls ++ ts) -> (forall f, f ∈ p :: ls ++ ts -> gown g !! f = Some OHeld) ->
  (forall f, f ∈ ts -> is_frame f) ->
  exists s', destroy_release s p ls ts = Some s' /\ frees s g (p :: ls ++ ts) s'.
Proof using All.
  intros I Hnd Hh Hf. apply NoDup_cons in Hnd as [Hp Hnd]. rewrite elem_of_app in Hp.
  apply NoDup_app in Hnd as (Hnl & Hdis & Hnt). unfold destroy_release.
  assert (Hll : forall f, f ∈ ls -> gown g !! f = Some OHeld /\ f <> p).
  { intros f Hin. split; [apply Hh|intros ->; tauto]. right. apply elem_of_app. by left. }
  assert (Htt : forall f, f ∈ ts -> gown g !! f = Some OHeld /\ f <> p /\ f ∉ ls).
  { intros f Hin. split; [apply Hh; right; apply elem_of_app; by right|]. split; [intros ->; tauto|].
    intros X. by apply (Hdis f). }
  destruct (free_one s g p I) as (s1 & E1 & F1 & I1 & M1); [apply Hh, list_elem_of_here|].
  rewrite E1, bind_Some_l.
  destruct (free_all_spec ls s1 (drop_held p g) I1 Hnl) as (s2 & E2 & F2).
  { intros f Hin. destruct (Hll f Hin). cbn. by rewrite lookup_delete_ne by congruence. }
  rewrite E2, bind_Some_l. destruct (F2) as (_ & _ & g2 & I2 & _ & _ & _ & _ & M2).
  destruct (free_tables_spec ts s2 g2 I2 Hnt) as (s3 & E3 & F3).
  { intros f Hin. destruct (Htt f Hin) as (H1 & H2 & H3). split; [by apply Hf|]. apply M2.
    split; [done|]. cbn. by rewrite lookup_delete_ne by congruence. }
  exists s3. split; [done|]. apply (frees_cons _ _ _ _ s1 _ (drop_held p g) F1 I1 M1).
  eapply frees_app; [exact F2|]. intros g2' I2' (_ & _ & _ & _ & M2').
  destruct (free_tables_spec ts s2 g2' I2' Hnt) as (s3' & E3' & F3'); [|congruence].
  intros f Hin. destruct (Htt f Hin) as (H1 & H2 & H3). split; [by apply Hf|]. apply M2'.
  split; [done|]. cbn. by rewrite lookup_delete_ne by congruence.
Qed.

(** ** The wait for the other CPUs *)

Definition same_frames (md md' : metadata) : Prop :=
  root md' = root md /\ tables md' = tables md /\ leaves md' = leaves md.

Lemma runs_here s g k md c :
  inv s g -> address_space_metadata s !! k = Some md -> root md <> 0 -> cpu_index c ->
  mask_test (active_cpu_mask md) c = true -> active_pml4 s c = root md.
Proof using All.
  intros I Hk Hr Hc Ht. apply (iv_mask _ _ I k md c Hk Hr Hc) in Ht.
  apply fmap_Some in Ht as (x & Hx & Ev). unfold active_pml4. rewrite Hx. unfold cpu_view in Ev. congruence.
Qed.

Lemma mark_inv s g k : inv s g -> inv (alter_metadata s k mark_destroy) g.
Proof using All. intros I. by apply inv_flags. Qed.
Lemma mark_record s k md :
  address_space_metadata s !! k = Some md ->
  address_space_metadata (alter_metadata s k mark_destroy) !! k = Some (mark_destroy md).
Proof using Type. intros Hk. cbn. by rewrite list_lookup_alter_eq, Hk. Qed.

(** One round, on a CPU that does not run in the space. *)
Lemma destroy_round_spec s g c k md :
  inv s g -> address_space_metadata s !! k = Some md -> root md <> 0 -> cpu_index c ->
  active_pml4 s c <> root md ->
  destroy_round s c (root md) =
    Some (if vmm_cpu_mask_empty (active_cpu_mask md)
          then (Detached (root md) (leaves md) (tables md),
                alter_metadata (alter_metadata s k mark_destroy) k detach)
          else (Busy, alter_metadata s k mark_destroy)).
Proof using All.
  intros I Hk Hr Hc Hno. unfold destroy_round. rewrite (find_space s g k md), Hk, bind_Some_l by done.
  destruct (mask_test (active_cpu_mask md) c) eqn:Et.
  { by destruct Hno; eapply runs_here. }
  rewrite andb_false_r. by destruct (vmm_cpu_mask_empty _).
Qed.

(** What the other CPUs do while the call sleeps: they leave the frames of the
    record and this CPU alone. *)
Definition leaves_alone (elsewhere : nat -> vmm A -> option (vmm A)) (k : nat) (c : Z) : Prop :=
  forall n s g md s', inv s g -> address_space_metadata s !! k = Some md -> elsewhere n s = Some s' ->
    inv s' g /\ active_pml4 s' c = active_pml4 s c /\
    exists md', address_space_metadata s' !! k = Some md' /\ same_frames md md'.

(** The state after [n] sleeps. *)
Fixpoint after_sleeps (elsewhere : nat -> vmm A -> option (vmm A)) (k : nat) (ticks n : nat) s
    : option (vmm A) :=
  match n with
  | O => Some s
  | S n => s ← elsewhere ticks (alter_metadata s k mark_destroy); after_sleeps elsewhere k (S ticks) n s
  end.
Definition no_cpu_in s (k : nat) : Prop :=
  exists md, address_space_metadata s !! k = Some md /\ vmm_cpu_mask_empty (active_cpu_mask md) = true.

Lemma destroy_wait_spec elsewhere n fuel ticks s g c k md sn :
  leaves_alone elsewhere k c -> inv s g -> address_space_metadata s !! k = Some md -> root md <> 0 ->
  cpu_index c -> active_pml4 s c <> root md -> (n <= fuel)%nat ->
  after_sleeps elsewhere k ticks n s = Some sn -> no_cpu_in sn k ->
  exists m sm mdm, (m <= n)%nat /\ after_sleeps elsewhere k ticks m s = Some sm /\ inv sm g /\
    address_space_metadata sm !! k = Some mdm /\ same_frames md mdm /\
    vmm_cpu_mask_empty (active_cpu_mask mdm) = true /\
    destroy_wait elsewhere s c (root md) ticks fuel =
      Some (Some (root md, leaves md, tables md),
            alter_metadata (alter_metadata sm k mark_destroy) k detach).
Proof using All.
  intros HL. revert fuel ticks s md.
  induction n as [|n IH]; intros fuel ticks s md I Hk Hr Hc Hno Hle Hsn Hq.
  - injection Hsn as <-. destruct Hq as (md' & Hk' & He).
    assert (md' = md) as -> by congruence. exists 0%nat, s, md. split; [done|]. split; [done|]. split; [done|]. split; [done|]. split; [done|].
    split; [done|]. destruct fuel; cbn [destroy_wait]; rewrite (destroy_round_spec s g c k md), He by done; done.
  - destruct fuel as [|fuel]; [lia|]. cbn [destroy_wait after_sleeps] in *.
    rewrite (destroy_round_spec s g c k md) by done.
    destruct (vmm_cpu_mask_empty (active_cpu_mask md)) eqn:He.
    { exists 0%nat, s, md. split; [lia|]. done. }
    rewrite bind_Some_l.
    destruct (elsewhere ticks (alter_metadata s k mark_destroy)) as [s1|] eqn:E1; [|done].
    cbn [mbind option_bind] in Hsn. rewrite bind_Some_l.
    destruct (HL ticks _ g (mark_destroy md) s1 (mark_inv s g k I) (mark_record s k md Hk) E1)
      as (I1 & Ha1 & md1 & Hk1 & R1 & R2 & R3). cbn in R1, R2, R3.
    destruct (IH fuel (S ticks) s1 md1) as (m & sm & mdm & Hm & Esm & Im & Hkm & (F1 & F2 & F3) & Hem & Ew);
      try done; [congruence| |lia|].
    { rewrite Ha1, R1. exact Hno. }
    exists (S m), sm, mdm. split; [lia|]. cbn [after_sleeps]. rewrite E1, bind_Some_l.
    split; [done|]. split; [done|]. split; [done|]. split; [by repeat split; congruence|]. split; [done|].
    rewrite <- R1, Ew. by rewrite R2, R3.
Qed.

(** * The whole call *)

Definition gone (k : nat) (md : metadata) s g s' g' : Prop :=
  inv s' g' /\ kernel_pml4 s' = kernel_pml4 s /\
  (forall q, held (frames s') q <-> held (frames s) q /\ q ∉ space_frames md) /\
  (exists md', address_space_metadata s' !! k = Some md' /\ root md' = 0 /\ destroy_pending md' = false) /\
  (forall j, j <> k -> address_space_metadata s' !! j = address_space_metadata s !! j) /\
  (forall f o, gown g' !! f = Some o <-> (f ∉ space_frames md) /\ gown g !! f = Some o) /\
  mem s' = mem s /\ cpus s' = cpus s /\ gKL g' = gKL g /\
  forall j, j <> k -> gN g' j = gN g j /\ gL g' j = gL g j.

Lemma destroy_space_spec elsewhere n s g c k md sn :
  leaves_alone elsewhere k c -> inv s g -> address_space_metadata s !! k = Some md -> root md <> 0 ->
  cpu_index c -> active_pml4 s c <> root md -> (n <= destroy_ticks)%nat ->
  after_sleeps elsewhere k 0 n s = Some sn -> no_cpu_in sn k ->
  exists m sm s' g', (m <= n)%nat /\ after_sleeps elsewhere k 0 m s = Some sm /\ inv sm g /\
    vmm_destroy_address_space elsewhere true s c (root md) = Some s' /\ gone k md sm g s' g'.
Proof using All.
  intros HL I Hk Hr Hc Hno Hn Hsn Hq. unfold vmm_destroy_address_space.
  rewrite (proj2 (Z.eqb_neq _ _) Hr), (proj2 (Z.eqb_neq _ _) (root_not_kernel _ _ _ _ I Hk Hr)).
  cbn [orb]. rewrite (find_space s g k md) by done. cbn [negb].
  destruct (destroy_wait_spec elsewhere n destroy_ticks 0 s g c k md sn)
    as (m & sm & mdm & Hm & Esm & Im & Hkm & (F1 & F2 & F3) & He & Ew); try done.
  rewrite Ew, bind_Some_l. assert (Hrm : root mdm <> 0) by congruence.
  set (s1 := alter_metadata sm k mark_destroy). pose proof (mark_inv sm g k Im) as I1. fold s1 in I1.
  pose proof (mark_record sm k mdm Hkm) as Hk1. fold s1 in Hk1.
  assert (I2 : inv (alter_metadata s1 k detach) (detached_ghost k g)).
  { apply (detach_inv s1 g k (mark_destroy mdm)); try done. cbn. apply mask_empty_spec; [|done].
    by apply (iv_mask_wf _ _ Im k). }
  assert (Hfr : forall f, f ∈ space_frames md <-> gown g !! f = Some (OTable k) \/ gown g !! f = Some (OLeaf k)).
  { intros f. rewrite <- (space_frames_own sm g k mdm f) by done. unfold space_frames. by rewrite F1, F2, F3. }
  assert (Hnd : NoDup (space_frames md)).
  { pose proof (space_frames_nodup sm g k mdm Im Hkm Hrm) as X. unfold space_frames in *.
    by rewrite F1, F2, F3 in X. }
  destruct (destroy_release_spec (alter_metadata s1 k detach) (detached_ghost k g) (root md) (leaves md) (tables md))
    as (s3 & E3 & (Fo & Fh & g3 & I3 & M3)); [done|exact Hnd| | |].
  { intros f Hf. apply Hfr in Hf. cbn. rewrite lookup_fmap. unfold loosen.
    destruct Hf as [-> | ->]; cbn; f_equal; apply decide_True; auto. }
  { intros f Hf. pose proof (iv_space _ _ Im _ _ Hkm Hrm) as S. rewrite <- F2 in Hf.
    apply (sp_tables _ _ _ _ _ _ _ S) in Hf as (p & _ & Hp). by eapply space_frame. }
  rewrite E3, bind_Some_l. fold (space_frames md) in Fh, M3.
  destruct Fo as (O1 & O2 & O3 & O4 & O5). destruct M3 as (M1 & M2 & M3 & M4 & M5).
  exists m, sm, (alter_metadata s3 k destroy_done), g3. split; [done|]. split; [done|]. split; [done|].
  split; [done|]. split; [by apply inv_flags|]. split; [exact O2|].
  split; [exact Fh|]. split.
  { exists (destroy_done (detach (mark_destroy mdm))). split; [|done]. cbn.
    rewrite list_lookup_alter_eq, O3. cbn. by rewrite !list_lookup_alter_eq, Hkm. }
  split.
  { intros j Hj. cbn. rewrite list_lookup_alter_ne, O3 by done. cbn. by rewrite !list_lookup_alter_ne. }
  split.
  { intros f o. rewrite M5. cbn. rewrite lookup_fmap_Some. split.
    - intros [Hno' (o' & <- & Ho)]. split; [done|]. rewrite Ho. f_equal. unfold loosen. case_decide as D; [|done].
      destruct Hno'. apply Hfr. destruct D as [-> | ->]; auto.
    - intros [Hno' Ho]. split; [done|]. exists o. split; [|done]. unfold loosen. case_decide as D; [|done].
      destruct Hno'. apply Hfr. destruct D as [-> | ->]; auto. }
  split; [done|]. split; [done|]. split; [done|]. intros j Hj. rewrite M3, M4. cbn. by rewrite !slot_upd_ne.
Qed.

(** * The switch *)

(** A CPU loads another root: its bit moves to the record of the new root. *)
Lemma inv_switch s s' g (c : Z) x p :
  inv s g -> cpu_index c -> cpus s !! Z.to_nat c = Some x -> online x = true ->
  kernel_pml4 s' = kernel_pml4 s -> mem s' = mem s -> frames s' = frames s ->
  cpus s' = <[Z.to_nat c := Cpu p true ∅]> (cpus s) ->
  (p = kernel_pml4 s \/ exists k md, address_space_metadata s !! k = Some md /\ root md = p) ->
  length (address_space_metadata s') = length (address_space_metadata s) ->
  (forall j md', address_space_metadata s' !! j = Some md' -> exists md,
     address_space_metadata s !! j = Some md /\ same_frames md md' /\ mask_wf (active_cpu_mask md') /\
     (root md <> 0 -> forall d, cpu_index d -> mask_test (active_cpu_mask md') d =
        if decide (d = c) then bool_decide (root md = p) else mask_test (active_cpu_mask md) d)) ->
  inv s' g.
Proof using All.
  intros I Hc Hx Hon Ek Em Ef Ecpu Hp Hlen Hrec.
  assert (Hlt : (Z.to_nat c < length (cpus s))%nat) by (by eapply lookup_lt_Some).
  assert (Hview : forall d, cpu_view <$> cpus s' !! d =
    if decide (d = Z.to_nat c) then Some (p, true) else cpu_view <$> cpus s !! d).
  { intros d. rewrite Ecpu. case_decide as D; [subst; by rewrite list_lookup_insert_eq|].
    by rewrite list_lookup_insert_ne. }
  assert (Hback : forall j md, address_space_metadata s !! j = Some md ->
    exists md', address_space_metadata s' !! j = Some md' /\ root md' = root md).
  { intros j md Hj. destruct (lookup_lt_is_Some_2 (address_space_metadata s') j) as [md' Hj'].
    - rewrite Hlen. by eapply lookup_lt_Some.
    - exists md'. split; [done|]. destruct (Hrec _ _ Hj') as (md2 & H2 & (-> & _) & _). congruence. }
  split; rewrite ?Ek, ?Em, ?Ef; try (by apply I).
  - rewrite Hlen. apply I.
  - intros j md' Hj. destruct (Hrec _ _ Hj) as (md & H1 & (-> & -> & ->) & _). by apply (iv_unused _ _ I).
  - intros j md' Hj. destruct (Hrec _ _ Hj) as (md & H1 & (E1 & E2 & E3) & _). rewrite E1. intros Hr.
    apply (space_ok_fields _ _ _ _ md); [done..|]. by apply (iv_space _ _ I).
  - intros j md' Hj. by destruct (Hrec _ _ Hj) as (md & H1 & _ & ? & _).
  - intros j md' d Hj. destruct (Hrec _ _ Hj) as (md & H1 & (-> & _) & _ & Ht). intros Hr Hd.
    rewrite Ht, Hview by done. unfold cpu_index in *.
    destruct (decide (d = c)) as [->|Hne].
    + rewrite decide_True, bool_decide_eq_true by done. split; [by intros ->|by intros [= ->]].
    + rewrite decide_False by lia. by apply (iv_mask _ _ I j).
  - intros d q b. rewrite Hview. case_decide as D.
    + intros [= <- <-]. destruct Hp as [->|(k & md & Hk & Er)]; [by right; left|]. right. right.
      split; [done|]. destruct (Hback k md Hk) as (md' & ? & ?). exists k, md'. split; [done|]. congruence.
    + intros E. destruct (iv_current _ _ I _ _ _ E) as [?|[?|[? (k & md & Hk & Er)]]]; [auto..|].
      right. right. split; [done|]. destruct (Hback k md Hk) as (md' & ? & ?). exists k, md'.
      split; [done|]. congruence.
  - rewrite Ecpu, length_insert. apply I.
Qed.

(** The masks after the switch. *)
Lemma mark_test (set : bool) c md d :
  mask_wf (active_cpu_mask md) -> cpu_index c -> cpu_index d ->
  mask_wf (active_cpu_mask ((if set then mark_active else mark_inactive) c md)) /\
  mask_test (active_cpu_mask ((if set then mark_active else mark_inactive) c md)) d =
    if decide (d = c) then set else mask_test (active_cpu_mask md) d.
Proof using Type.
  intros Hw Hc Hd. destruct set; cbn; (split; [by first [apply mask_set_wf|apply mask_clear_wf]|]).
  - rewrite mask_set_test by done. case_decide as D; [by rewrite (proj2 (Z.eqb_eq d c))|].
    by rewrite (proj2 (Z.eqb_neq d c)).
  - rewrite mask_clear_test by done. case_decide as D; [by rewrite (proj2 (Z.eqb_eq d c))|].
    by rewrite (proj2 (Z.eqb_neq d c)).
Qed.

Definition mark_found (o : option nat) (f : metadata -> metadata) (l : list metadata) : list metadata :=
  match o with Some k => alter f k l | None => l end.

(** The state after a switch that is not refused. *)
Definition switched s (c p : Z) (new old : option nat) : vmm A :=
  set_metadata (mark_found old (mark_inactive c) (mark_found new (mark_active c) (address_space_metadata s)))
    (set_active_pml4 (load_cr3 s c) c p).

Lemma switched_masks s g c x p new old :
  inv s g -> cpu_index c -> cpus s !! Z.to_nat c = Some x -> online x = true -> current_pml4 x <> p -> p <> 0 ->
  (forall k md, address_space_metadata s !! k = Some md -> root md <> 0 -> new = Some k <-> root md = p) ->
  (forall k md, address_space_metadata s !! k = Some md -> root md <> 0 -> old = Some k <-> root md = current_pml4 x) ->
  (forall k, new = Some k -> exists md, address_space_metadata s !! k = Some md /\ root md <> 0) ->
  (forall k, old = Some k -> exists md, address_space_metadata s !! k = Some md /\ root md <> 0) ->
  forall j md', address_space_metadata (switched s c p new old) !! j = Some md' -> exists md,
    address_space_metadata s !! j = Some md /\ same_frames md md' /\ mask_wf (active_cpu_mask md') /\
    (root md <> 0 -> forall d, cpu_index d -> mask_test (active_cpu_mask md') d =
       if decide (d = c) then bool_decide (root md = p) else mask_test (active_cpu_mask md) d).
Proof using All.
  intros I Hc Hx Hon Hne Hp0 Hnew Hold Hnew' Hold' j md' Hj. cbn in Hj.
  assert (Hdis : forall k, new = Some k -> old <> Some k).
  { intros k E1 E2. destruct (Hnew' k E1) as (md & Hk & Hr). apply (Hnew k md Hk Hr) in E1.
    apply (Hold k md Hk Hr) in E2. congruence. }
  assert (Hmf : forall o (f : metadata -> metadata) l,
    mark_found o f l !! j = if decide (o = Some j) then f <$> l !! j else l !! j).
  { intros o f l. unfold mark_found. destruct o as [k|]; [|by rewrite decide_False].
    destruct (decide (Some k = Some j)) as [[= ->]|Hk]; [by rewrite list_lookup_alter_eq|].
    rewrite list_lookup_alter_ne; [done|]. congruence. }
  rewrite !Hmf in Hj. destruct (address_space_metadata s !! j) as [md|] eqn:Ej.
  2: { by repeat case_decide. }
  exists md. split; [done|]. pose proof (iv_mask_wf _ _ I j md Ej) as Hw.
  destruct (decide (old = Some j)) as [Eo|Eo]; destruct (decide (new = Some j)) as [En|En];
    [by destruct (Hdis j)| | |]; cbn in Hj; injection Hj as <-.
  - split; [done|]. split; [by apply (mark_test false c md c)|]. intros Hr d Hd.
    rewrite (proj2 (mark_test false c md d Hw Hc Hd)). case_decide; [|done]. symmetry.
    apply bool_decide_eq_false. rewrite <- (Hnew j md Ej Hr). done.
  - split; [done|]. split; [by apply (mark_test true c md c)|]. intros Hr d Hd.
    rewrite (proj2 (mark_test true c md d Hw Hc Hd)). case_decide; [|done]. symmetry.
    apply bool_decide_eq_true. by rewrite <- (Hnew j md Ej Hr).
  - split; [done|]. split; [done|]. intros Hr d Hd. case_decide as D; [subst d|done].
    rewrite bool_decide_eq_false_2 by (by rewrite <- (Hnew j md Ej Hr)).
    destruct (mask_test (active_cpu_mask md) c) eqn:Et; [|done]. exfalso. apply Eo.
    apply (Hold j md Ej Hr). apply (iv_mask _ _ I j md c Ej Hr Hc) in Et. rewrite Hx in Et.
    cbn in Et. unfold cpu_view in Et. congruence.
Qed.

Lemma find_root_alter l k f p :
  (forall md, root (f md) = root md) -> find_root (alter f k l) p = find_root l p.
Proof using Type.
  intros Hf. revert k. induction l as [|md l IH]; intros k; [done|].
  destruct k as [|k]; cbn; [by rewrite Hf|]. destruct (root md =? p); [done|].
  change (list_alter f k l) with (alter f k l). by rewrite IH.
Qed.

(** The record that a root belongs to. *)
Definition record_of s (p : Z) : option nat :=
  if (p =? 0) || (p =? kernel_pml4 s) then None else vmm_metadata_find s p.

Lemma record_of_spec s g p k md :
  inv s g -> address_space_metadata s !! k = Some md -> root md <> 0 ->
  record_of s p = Some k <-> root md = p.
Proof using All.
  intros I Hk Hr. unfold record_of. split.
  - destruct (_ || _); [done|]. intros E. apply find_root_spec in E as (md' & Hk' & E). congruence.
  - intros <-. rewrite (proj2 (Z.eqb_neq _ _) Hr), (proj2 (Z.eqb_neq _ _) (root_not_kernel _ _ _ _ I Hk Hr)).
    by apply (find_space s g).
Qed.
Lemma record_of_some s p k :
  record_of s p = Some k -> exists md, address_space_metadata s !! k = Some md /\ root md <> 0.
Proof using Type.
  unfold record_of. destruct ((p =? 0) || _) eqn:E; [done|]. intros F.
  apply find_root_spec in F as (md & Hk & <-). exists md. split; [done|]. lia.
Qed.

(** A root may be loaded if it is the kernel's, or that of a space that is not
    being destroyed. *)
Definition may_load s (p : Z) : Prop :=
  p = kernel_pml4 s \/
  exists k md, address_space_metadata s !! k = Some md /\ root md = p /\ destroy_pending md = false.

Lemma switch_accepts s g c x p :
  inv s g -> cpu_index c -> cpus s !! Z.to_nat c = Some x -> p <> 0 -> current_pml4 x <> p -> may_load s p ->
  vmm_switch_address_space s c p = Some (true, switched s c p (record_of s p) (record_of s (current_pml4 x))).
Proof using All.
  intros I Hc Hx Hp Hne Hmay. unfold vmm_switch_address_space.
  rewrite (proj2 (Z.eqb_neq _ _) Hp). cbv zeta. unfold active_pml4 at 1. rewrite Hx.
  rewrite (proj2 (Z.eqb_neq p _)) by done. unfold cpu_index in Hc.
  replace (CPU_MAX_COUNT <=? c) with false by lia.
  assert (Hact : active_pml4 s c = current_pml4 x) by (unfold active_pml4; by rewrite Hx). rewrite Hact.
  set (new := if p =? kernel_pml4 s then None else vmm_metadata_find s p).
  assert (En : record_of s p = new) by (unfold record_of, new; by rewrite (proj2 (Z.eqb_neq p 0))).
  assert (Href : (if p =? kernel_pml4 s then Some false
      else match new with None => Some true
           | Some k => md ← address_space_metadata s !! k; Some (destroy_pending md) end) = Some false).
  { unfold new. destruct (Z.eqb_spec p (kernel_pml4 s)); [done|].
    destruct Hmay as [?|(k & md & Hk & <- & Hd)]; [done|].
    by rewrite (find_space s g k md), Hk, bind_Some_l, Hd. }
  rewrite Href, bind_Some_l, En. do 2 f_equal. clear Href.
  assert (Hs1 : match new with Some k => alter_metadata s k (mark_active c) | None => s end =
    set_metadata (mark_found new (mark_active c) (address_space_metadata s)) s).
  { destruct new; [done|]. by destruct s. }
  rewrite Hs1. unfold record_of, switched. cbn [kernel_pml4 set_active_pml4 load_cr3 alter_cpu set_cpus set_metadata].
  destruct (Z.eqb_spec (current_pml4 x) 0), (Z.eqb_spec (current_pml4 x) (kernel_pml4 s)); cbn [orb andb negb];
    try done. unfold vmm_metadata_find. cbn [address_space_metadata set_active_pml4 load_cr3 alter_cpu set_cpus set_metadata].
  assert (Hf : find_root (mark_found new (mark_active c) (address_space_metadata s)) (current_pml4 x) =
    find_root (address_space_metadata s) (current_pml4 x)).
  { unfold mark_found. destruct new; [by apply find_root_alter|done]. }
  rewrite Hf. by destruct (find_root (address_space_metadata s) (current_pml4 x)).
Qed.

Lemma switch_refuses s g c x p :
  inv s g -> cpu_index c -> cpus s !! Z.to_nat c = Some x -> current_pml4 x <> p -> ~ may_load s p ->
  vmm_switch_address_space s c p = Some (false, s).
Proof using All.
  intros I Hc Hx Hne Hno. unfold vmm_switch_address_space.
  destruct (Z.eqb_spec p 0) as [|Hp]; [done|]. cbv zeta. unfold active_pml4 at 1. rewrite Hx.
  rewrite (proj2 (Z.eqb_neq p _)) by done. unfold cpu_index in Hc.
  replace (CPU_MAX_COUNT <=? c) with false by lia.
  destruct (Z.eqb_spec p (kernel_pml4 s)) as [->|Hk]; [by destruct Hno; left|].
  destruct (vmm_metadata_find s p) as [k|] eqn:Ef; [|done].
  apply find_root_spec in Ef as (md & Hkk & Er). rewrite Hkk, !bind_Some_l.
  destruct (destroy_pending md) eqn:Ed; [done|]. destruct Hno. right. by exists k, md.
Qed.

Lemma switched_spec s g c x p :
  inv s g -> cpu_index c -> cpus s !! Z.to_nat c = Some x -> online x = true -> p <> 0 ->
  current_pml4 x <> p -> may_load s p ->
  let s' := switched s c p (record_of s p) (record_of s (current_pml4 x)) in
  inv s' g /\ mem s' = mem s /\ kernel_pml4 s' = kernel_pml4 s /\ frames s' = frames s /\
  cpus s' = <[Z.to_nat c := Cpu p true ∅]> (cpus s) /\ (coherent s -> coherent s').
Proof using All.
  intros I Hc Hx Hon Hp Hne Hmay s'.
  assert (Ecpu : cpus s' = <[Z.to_nat c := Cpu p true ∅]> (cpus s)).
  { cbn. apply list_eq. intros j. destruct (decide (j = Z.to_nat c)) as [->|].
    - rewrite !list_lookup_alter_eq, Hx, list_lookup_insert_eq by (by eapply lookup_lt_Some).
      cbn. by rewrite Hon.
    - by rewrite !list_lookup_alter_ne, list_lookup_insert_ne. }
  split; [|split; [done|split; [done|split; [done|split; [done|]]]]].
  - apply (inv_switch s s' g c x p); try done.
    + destruct Hmay as [?|(k & md & Hk & Er & _)]; [by left|right; by exists k, md].
    + cbn. unfold mark_found. by destruct (record_of s p), (record_of s (current_pml4 x)); rewrite ?length_alter.
    + apply (switched_masks s g c x p); try done.
      * intros k md Hk Hr. by apply (record_of_spec s g).
      * intros k md Hk Hr. by apply (record_of_spec s g).
      * intros k. apply record_of_some.
      * intros k. apply record_of_some.
  - intros C d y pg tr. rewrite Ecpu. intros Hy Ht. destruct (decide (d = Z.to_nat c)) as [->|].
    + rewrite list_lookup_insert_eq in Hy by (by eapply lookup_lt_Some). injection Hy as <-.
      cbn in Ht. by rewrite lookup_empty in Ht.
    + rewrite list_lookup_insert_ne in Hy by done. exact (C d y pg tr Hy Ht).
Qed.

End spaces.
End VmmSpaces.
