(* ===== verification/VmmQueries.v ===== *)
(** The functions of [vmm.c] that walk the tables in software agree with the
    hardware's walk. *)
From stdpp Require Import gmap.
From S2P Require Import Prelude Pmm Vmm VmmTree VmmInv VmmProofs VmmValid VmmUser VmmTlb VmmPages.
Import Pmm Vmm VmmTree VmmInv VmmProofs VmmValid VmmUser VmmTlb VmmPages.

Module VmmQueries.

(** Clearing the low bits of a 64-bit word. *)
Lemma land_clear_low n x :
  0 <= n <= 64 -> is_u64 x -> Z.land x (Z.shiftl (Z.ones (64 - n)) n) = x / 2 ^ n * 2 ^ n.
Proof.
  intros Hn Hx. replace (x / 2 ^ n * 2 ^ n) with (Z.shiftl (Z.shiftr x n) n)
    by (rewrite Z.shiftl_mul_pow2, Z.shiftr_div_pow2 by lia; done).
  apply Z.bits_inj'. intros i Hi. rewrite Z.land_spec.
  destruct (decide (i < n)); [by rewrite !Z.shiftl_spec_low, andb_false_r by lia|].
  rewrite !Z.shiftl_spec, Z.shiftr_spec by lia. replace (i - n + n) with i by lia.
  destruct (decide (i < 64)).
  - by rewrite Z.ones_spec_low, andb_true_r by lia.
  - rewrite Z.ones_spec_high, andb_false_r by lia. symmetry.
    unfold is_u64 in Hx. change 18446744073709551616 with (2 ^ 64) in Hx.
    rewrite <- (Z.mod_small x (2 ^ 64)) by lia. by rewrite Z.mod_pow2_bits_high by lia.
Qed.

Section queries.
Context {A : Type} `{!FrameAllocator A, !AllocatorLaws A}.
Implicit Types (s : vmm A) (g : ghost).

(** * Descents *)

(** The entries on the path of an address below a table [t]: three links with
    the flags [fl], or an absent one. *)
Inductive descent s (fl t va : Z) : option Z -> Prop :=
  | D_leaf p1 p2 p3 e :
      is_frame p1 -> is_frame p2 -> is_frame p3 ->
      entry s t (ix 39 va) = Some (Z.lor p1 fl) -> entry s p1 (ix 30 va) = Some (Z.lor p2 fl) ->
      entry s p2 (ix 21 va) = Some (Z.lor p3 fl) -> entry s p3 (ix 12 va) = Some e ->
      descent s fl t va (Some e)
  | D_first : entry s t (ix 39 va) = Some 0 -> descent s fl t va None
  | D_second p1 :
      is_frame p1 -> entry s t (ix 39 va) = Some (Z.lor p1 fl) -> entry s p1 (ix 30 va) = Some 0 ->
      descent s fl t va None
  | D_third p1 p2 :
      is_frame p1 -> is_frame p2 -> entry s t (ix 39 va) = Some (Z.lor p1 fl) ->
      entry s p1 (ix 30 va) = Some (Z.lor p2 fl) -> entry s p2 (ix 21 va) = Some 0 ->
      descent s fl t va None.

(** The walk of the hardware along a descent. *)
Lemma descent_mmu s fl t va o :
  descent s fl t va o -> is_flags fl -> has fl PTE_PRESENT = true -> has fl PTE_HUGE = false ->
  mmu s t va = translate fl o.
Proof using Type.
  intros D Hfl Hp Hh. unfold mmu, path_of. destruct D as [p1 p2 p3 e F1 F2 F3 E1 E2 E3 E4|E1|p1 F1 E1 E2|p1 p2 F1 F2 E1 E2 E3].
  - rewrite (walk_step _ _ _ _ _ _ _ _ _ E1), (walk_step _ _ _ _ _ _ _ _ _ E2),
      (walk_step _ _ _ _ _ _ _ _ _ E3), (walk_leaf _ _ _ _ _ _ E4) by done. cbn.
    by destruct (has fl PTE_USER), (has fl PTE_READWRITE).
  - by rewrite walk_absent.
  - by rewrite (walk_step _ _ _ _ _ _ _ _ _ E1), walk_absent.
  - by rewrite (walk_step _ _ _ _ _ _ _ _ _ E1), (walk_step _ _ _ _ _ _ _ _ _ E2), walk_absent.
Qed.

Lemma descent_root s fl t t' va o :
  entry s t' (ix 39 va) = entry s t (ix 39 va) -> descent s fl t va o -> descent s fl t' va o.
Proof using Type.
  intros E D.
  destruct D as [p1 p2 p3 e F1 F2 F3 E1 E2 E3 E4|E1|p1 F1 E1 E2|p1 p2 F1 F2 E1 E2 E3]; rewrite <- E in E1;
    
    [by apply (D_leaf _ _ _ _ p1 p2 p3)|by apply D_first|by apply (D_second _ _ _ _ p1)|by apply (D_third _ _ _ _ p1 p2)].
Qed.

(** A hierarchy gives a descent for every address of its domain. *)
Lemma paged_descent s fl dom N L r va :
  paged (mem s) fl dom N L -> is_flags fl -> has fl PTE_PRESENT = true -> N !! [] = Some r ->
  (forall i p, dom (i :: p) = fun _ => true) -> dom [] (ix 39 va) = true ->
  exists o, descent s fl r va o /\ (o = Some 0 \/ o = L !! vpath va) /\ (is_Some (L !! vpath va) -> o = L !! vpath va).
Proof using Type.
  intros P Hfl Hp Hr Hdom Hd. pose proof (pg_tree _ _ _ _ _ P) as T.
  assert (Hno : forall q p, N !! p = None -> vpath va = ix 12 va :: q ++ p -> L !! vpath va = None).
  { intros q p Hn ->. by eapply paged_none. }
  destruct (tree_child (mem s) fl dom N [] r (ix 39 va)) as [(f1 & N1 & F1 & W1)|[N1 W1]];
    try done; [cbn; lia|apply ix_index| |].
  2: { exists None. split; [by apply D_first|]. rewrite (Hno [ix 21 va; ix 30 va] [ix 39 va]) by done.
       split; [by right|by intros [? ?]]. }
  destruct (tree_child (mem s) fl dom N [ix 39 va] f1 (ix 30 va)) as [(f2 & N2 & F2 & W2)|[N2 W2]];
    try done; [cbn; lia|apply ix_index|by rewrite Hdom| |].
  2: { exists None. split; [by apply (D_second _ _ _ _ f1)|]. rewrite (Hno [ix 21 va] [ix 30 va; ix 39 va]) by done.
       split; [by right|by intros [? ?]]. }
  destruct (tree_child (mem s) fl dom N [ix 30 va; ix 39 va] f2 (ix 21 va)) as [(f3 & N3 & F3 & W3)|[N3 W3]];
    try done; [cbn; lia|apply ix_index|by rewrite Hdom| |].
  2: { exists None. split; [by apply (D_third _ _ _ _ f1 f2)|]. rewrite (Hno [] (vdir va)) by done.
       split; [by right|by intros [? ?]]. }
  pose proof (pg_entry _ _ _ _ _ P (vdir va) f3 (ix 12 va) N3 eq_refl (ix_index 12 va)) as W4.
  rewrite <- vpath_eq in W4.
  exists (Some (default 0 (L !! vpath va))). split; [by apply (D_leaf _ _ _ _ f1 f2 f3)|].
  destruct (L !! vpath va) as [e|]; cbn; [auto|]. split; [by left|by intros [? ?]].
Qed.

(** Every known root has a descent with the flags of the hierarchy it leads to. *)
Lemma known_descent s g r va :
  inv s g -> known s r ->
  exists fl o, (fl = USER_LINK \/ fl = KERNEL_LINK) /\ descent s fl r va o /\
    match o with
    | Some e => e = 0 \/ (has e PTE_PRESENT = true /\
        has e PTE_USER = (if decide (fl = USER_LINK) then true else false))
    | None => True
    end.
Proof using All.
  intros I Hkn.
  assert (HK : exists o, descent s KERNEL_LINK (kernel_pml4 s) va o /\
    match o with
    | Some e => e = 0 \/ (has e PTE_PRESENT = true /\
        has e PTE_USER = (if decide (KERNEL_LINK = USER_LINK) then true else false))
    | None => True end).
  { destruct (paged_descent s KERNEL_LINK kernel_dom (gK g) (gKL g) (kernel_pml4 s) va) as (o & D & [->| ->] & _);
      [apply I|flags|flags|apply I|done|done| |].
    - exists (Some 0). split; [done|by left].
    - exists (gKL g !! vpath va). split; [done|]. destruct (gKL g !! vpath va) as [e|] eqn:E; [|done].
      right. by apply (iv_kpte _ _ I _ _ E). }
  destruct Hkn as [->|(k & md & Hk & <- & Hr)].
  { destruct HK as (o & D & Ho). exists KERNEL_LINK, o. split; [by right|]. done. }
  pose proof (iv_space _ _ I _ _ Hk Hr) as S. pose proof (ix_index 39 va) as Hx. unfold index in Hx.
  destruct (decide (ix 39 va < 256)) as [Hlow|Hhigh].
  - destruct (paged_descent s USER_LINK user_dom (gN g k) (gL g k) (root md) va) as (o & D & Ho & _);
      [apply S|flags|flags|apply S|done|cbn; lia|].
    exists USER_LINK, o. split; [by left|]. split; [done|].
    destruct Ho as [->| ->]; [by left|]. destruct (gL g k !! vpath va) as [e|] eqn:E; [|done]. right.
    destruct (sp_pte _ _ _ _ _ _ _ S _ _ E) as (f & fl & -> & Hf & Hfl & _).
    destruct (user_pte_facts f fl Hf Hfl) as (-> & -> & _). done.
  - destruct (sp_high _ _ _ _ _ _ _ S (ix 39 va)) as [E|[_ E]]; [lia| |].
    + exists KERNEL_LINK, None. split; [by right|]. split; [by apply D_first|done].
    + destruct HK as (o & D & Ho). exists KERNEL_LINK, o. split; [by right|].
      split; [by apply (descent_root s _ (kernel_pml4 s))|done].
Qed.

Lemma link_facts fl p :
  fl = USER_LINK \/ fl = KERNEL_LINK -> is_frame p ->
  has (Z.lor p fl) PTE_PRESENT = true /\ has (Z.lor p fl) PTE_HUGE = false /\
  has (Z.lor p fl) PTE_USER = (if decide (fl = USER_LINK) then true else false) /\
  vmm_table_from_phys (Z.lor p fl) = p.
Proof using Type.
  intros [->| ->] Hp.
  - destruct (user_link_facts p Hp) as (-> & -> & -> & _ & _ & -> & _). done.
  - destruct (kernel_link_facts p Hp) as (-> & -> & -> & _ & -> & _). done.
Qed.
Lemma link_mmu s g fl r va o :
  fl = USER_LINK \/ fl = KERNEL_LINK -> descent s fl r va o -> mmu s r va = translate fl o.
Proof using Type. intros [->| ->] D; (apply descent_mmu; [done|flags..]). Qed.

(** * The software walks *)

(** A page is valid for the user exactly when the hardware lets the user in. *)
Lemma user_page_valid_spec s g r va :
  inv s g -> known s r ->
  user_page_valid s r va = Some (match mmu s r va with Some tr => t_user tr | None => false end).
Proof using All.
  intros I Hkn. destruct (known_descent s g r va I Hkn) as (fl & o & Hfl & D & Ho).
  rewrite (link_mmu s g fl r va o Hfl D). unfold user_page_valid.
  destruct D as [p1 p2 p3 e F1 F2 F3 E1 E2 E3 E4|E1|p1 F1 E1 E2|p1 p2 F1 F2 E1 E2 E3];
    rewrite E1, bind_Some_l; [| |destruct (link_facts fl p1 Hfl F1) as (-> & _ & -> & ->)..].
  - destruct (link_facts fl p1 Hfl F1) as (-> & _ & -> & ->). cbn [negb orb]. cbv zeta.
    rewrite E2, bind_Some_l. destruct (link_facts fl p2 Hfl F2) as (-> & -> & -> & ->).
    rewrite E3. destruct (decide (fl = USER_LINK)) as [->|Hne]; cbn [negb orb].
    + rewrite bind_Some_l. destruct (link_facts USER_LINK p3 Hfl F3) as (-> & -> & -> & ->).
      cbn [negb orb]. rewrite decide_True by done. cbn [negb]. rewrite E4, bind_Some_l. f_equal.
      unfold translate, leaf_translation. by destruct (has e PTE_PRESENT).
    + destruct Hfl as [| ->]; [done|]. unfold translate, leaf_translation.
      by destruct (has e PTE_PRESENT).
  - done.
  - destruct (decide (fl = USER_LINK)); cbn [negb orb]; [by rewrite E2|done].
  - destruct (decide (fl = USER_LINK)) as [->|]; cbn [negb orb]; [|done]. rewrite E2, bind_Some_l.
    destruct (link_facts USER_LINK p2 Hfl F2) as (-> & -> & -> & ->). rewrite decide_True by done.
    cbn [negb orb]. by rewrite E3.
Qed.

(** [vmm_virtual_to_physical] gives the address that the hardware uses. *)
Lemma virtual_to_physical_spec s g c va :
  inv s g -> known s (active_pml4 s c) ->
  vmm_virtual_to_physical s c va =
    Some (match mmu s (active_pml4 s c) va with
          | Some tr => u64 (t_frame tr + Z.land va 0xFFF) | None => 0 end).
Proof using All.
  intros I Hkn. unfold vmm_virtual_to_physical. cbv zeta. set (r := active_pml4 s c) in *.
  assert (Hr : r <> 0).
  { destruct Hkn as [->|(k & md & _ & _ & ?)]; [by eapply kroot_nonzero|done]. }
  rewrite (proj2 (Z.eqb_neq _ _) Hr).
  destruct (known_descent s g r va I Hkn) as (fl & o & Hfl & D & Ho).
  rewrite (link_mmu s g fl r va o Hfl D).
  destruct D as [p1 p2 p3 e F1 F2 F3 E1 E2 E3 E4|E1|p1 F1 E1 E2|p1 p2 F1 F2 E1 E2 E3];
    rewrite E1, bind_Some_l; [| |destruct (link_facts fl p1 Hfl F1) as (-> & _ & _ & ->)..].
  - destruct (link_facts fl p1 Hfl F1) as (-> & _ & _ & ->). cbn [negb].
    rewrite E2, bind_Some_l. destruct (link_facts fl p2 Hfl F2) as (-> & _ & _ & ->). cbn [negb].
    rewrite E3, bind_Some_l. destruct (link_facts fl p3 Hfl F3) as (-> & _ & _ & ->). cbn [negb].
    rewrite E4, bind_Some_l. unfold translate, leaf_translation. by destruct (has e PTE_PRESENT).
  - done.
  - cbn [negb]. by rewrite E2.
  - cbn [negb]. rewrite E2, bind_Some_l. destruct (link_facts fl p2 Hfl F2) as (-> & _ & _ & ->).
    cbn [negb]. by rewrite E3.
Qed.

(** * Ranges *)

Lemma path_of_page a a' : page_of a = page_of a' -> path_of a = path_of a'.
Proof using Type.
  unfold page_of, path_of, VMM_PAGE_SIZE. intros E. rewrite !ix_mod by lia.
  change (2 ^ 39) with (4096 * 2 ^ 27). change (2 ^ 30) with (4096 * 2 ^ 18).
  change (2 ^ 21) with (4096 * 2 ^ 9). change (2 ^ 12) with 4096.
  rewrite <- !(Z.div_div _ 4096) by lia. change 0x1000 with 4096 in E. by rewrite E.
Qed.

(** The walk for address [a] ends in a page that the user may use. *)
Definition user_walk s (r a : Z) : Prop := exists tr, mmu s r a = Some tr /\ t_user tr = true.

Lemma user_walk_page s r a a' : page_of a = page_of a' -> user_walk s r a -> user_walk s r a'.
Proof using Type. intros E. unfold user_walk, mmu. by rewrite (path_of_page a a'). Qed.

Lemma user_page_walk s g r va :
  inv s g -> known s r -> exists b, user_page_valid s r va = Some b /\ (b = true <-> user_walk s r va).
Proof using All.
  intros I Hkn. rewrite (user_page_valid_spec s g) by done. eexists. split; [done|].
  unfold user_walk. destruct (mmu s r va) as [tr|]; [|naive_solver].
  split; [eauto|]. by intros (tr' & [= <-] & ?).
Qed.

Lemma user_pages_valid_spec fuel s g r page end_ :
  inv s g -> known s r -> 0 <= page -> page mod 4096 = 0 -> page < end_ <= U64_MAX ->
  (end_ - page) / 4096 < Z.of_nat fuel ->
  exists b, user_pages_valid s r page end_ fuel = Some b /\
    (b = true <-> forall a, page <= a < end_ -> user_walk s r a).
Proof using All.
  intros I Hkn. revert page. induction fuel as [|fuel IH]; intros page H0 Ha He Hf.
  { assert (0 <= (end_ - page) / 4096) by (apply Z.div_pos; lia). lia. }
  cbn [user_pages_valid]. replace (page <? end_) with true by lia. cbn [negb].
  destruct (user_page_walk s g r page I Hkn) as (b & -> & Hb). rewrite bind_Some_l.
  assert (Hpg : forall a, page <= a < page + 4096 -> page_of a = page_of page).
  { intros a Hr. unfold page_of, VMM_PAGE_SIZE. change 0x1000 with 4096. Z.div_mod_to_equations. lia. }
  destruct b; cbn [negb].
  2: { exists false. split; [done|]. split; [done|]. intros Hall. apply Hb, Hall. lia. }
  assert (Hthis : forall a, page <= a < page + 4096 -> user_walk s r a).
  { intros a Hr. apply (user_walk_page s r page); [symmetry; by apply Hpg|by apply Hb]. }
  destruct (Z.ltb_spec (U64_MAX - 0x1000) page) as [Hlast|Hmore].
  { exists true. split; [done|]. split; [|done]. intros _ a Hr. apply Hthis. unfold U64_MAX in *. lia. }
  destruct (Z.ltb_spec (page + 4096) end_) as [Hin|Hout].
  - destruct (IH (page + 0x1000)) as (b & E & Hb'); [lia| |lia| |].
    { Z.div_mod_to_equations. lia. }
    { replace (end_ - (page + 0x1000)) with (end_ - page + (-1) * 4096) by lia. rewrite Z.div_add by lia. lia. }
    exists b. split; [done|]. rewrite Hb'. split.
    + intros Hall a Hr. destruct (decide (a < page + 4096)); [apply Hthis; lia|apply Hall; lia].
    + intros Hall a Hr. apply Hall. lia.
  - exists true. split; [|split; [|done]].
    + destruct fuel; cbn [user_pages_valid]; by replace (page + 0x1000 <? end_) with false by lia.
    + intros _ a Hr. apply Hthis. lia.
Qed.

Lemma user_range_valid_spec s g c address length :
  inv s g -> known s (active_pml4 s c) -> is_u64 address -> is_u64 length ->
  exists b, vmm_user_range_valid s c address length = Some b /\
    (b = true <-> length = 0 \/
      (address <> 0 /\ address + length <= U64_MAX /\
       forall a, address <= a < address + length -> user_walk s (active_pml4 s c) a)).
Proof using All.
  intros I Hkn Ha Hl. unfold vmm_user_range_valid.
  assert (Hr : active_pml4 s c <> 0).
  { destruct Hkn as [->|(k & md & _ & _ & ?)]; [by eapply kroot_nonzero|done]. }
  rewrite (proj2 (Z.eqb_neq _ _) Hr). cbn [orb].
  destruct ((address =? 0) && negb (length =? 0) || (U64_MAX - address <? length)) eqn:G.
  { exists false. split; [done|]. split; [done|]. mach. }
  destruct (Z.eqb_spec length 0) as [->|Hne].
  { exists true. split; [done|]. split; [by left|done]. }
  change (u64 (Z.lnot 0xfff)) with (Z.shiftl (Z.ones 52) 12).
  assert (Hpage : Z.land address (Z.shiftl (Z.ones 52) 12) = address / 4096 * 4096).
  { by apply (land_clear_low 12 address). }
  rewrite Hpage. set (page := address / 4096 * 4096).
  assert (Hpg : page <= address < page + 4096) by (unfold page; mach).
  destruct (user_pages_valid_spec (Z.to_nat (length / VMM_PAGE_SIZE + 2)) s g (active_pml4 s c) page (address + length))
    as (b & E & Hb); try done.
  - unfold page. mach.
  - unfold page. apply Z.mod_mul. lia.
  - mach.
  - unfold VMM_PAGE_SIZE. change 0x1000 with 4096. mach.
  - exists b. split; [done|]. rewrite Hb. split.
    + intros Hall. right. split; [lia|]. split; [lia|]. intros a Hr'. apply Hall. lia.
    + intros [?|(_ & _ & Hall)] a Hr'; [done|]. destruct (decide (address <= a)) as [|Hlt]; [apply Hall; lia|].
      apply (user_walk_page _ _ address); [|apply Hall; mach].
      unfold page_of, VMM_PAGE_SIZE. change 0x1000 with 4096. unfold page in *. mach.
Qed.

End queries.
End VmmQueries.
