(* ===== verification/VmmSystem.v ===== *)
(** The virtual memory manager with the physical memory manager below it: the
    interface of the allocator is discharged, the state after boot satisfies the
    invariant, and the locked sections of all calls, in any interleaving, keep
    it. *)
From stdpp Require Import gmap.
From S2P Require Import Prelude Pmm Vmm VmmTree VmmInv VmmProofs VmmValid VmmUser VmmTlb VmmPages VmmKernel VmmSpaces.
Import Pmm Vmm VmmTree VmmInv VmmProofs VmmValid VmmUser VmmTlb VmmPages VmmKernel VmmSpaces.

Module VmmSystem.

(** * The physical memory manager as the allocator *)

#[export] Instance pmm_frames : FrameAllocator pmm :=
  {| alloc_frame := pmm_alloc_frame; free_frame := pmm_free_frame |}.

Definition pmm_ready (usable : Z -> bool) (st : pmm) : Prop :=
  pmm_ok usable st /\ taken st 0 = true /\ 0 < total_frames st.
Definition pmm_held (usable : Z -> bool) (st : pmm) (p : Z) : Prop :=
  exists i, p = i * PAGE_SIZE /\ 0 < i < total_frames st /\ taken st i = true /\ usable i = true.

Lemma frame_of_index st i : covered st -> 0 < i < total_frames st -> is_frame (i * PAGE_SIZE).
Proof. intros [_ _ Hl] Hi. split; [pmm_lia|]. apply Z.mod_mul. done. Qed.

Lemma pmm_alloc_law usable st :
  pmm_ready usable st -> exists p st', pmm_alloc_frame st = Some (p, st') /\ pmm_ready usable st' /\
    ((p = 0 /\ forall q, pmm_held usable st' q <-> pmm_held usable st q) \/
     (is_frame p /\ ~ pmm_held usable st p /\
      forall q, pmm_held usable st' q <-> q = p \/ pmm_held usable st q)).
Proof.
  intros (Hok & H0 & Ht). destruct (alloc_cases usable st Hok H0 Ht) as [[E _]|(i & st' & E & Hi & Al)].
  { exists 0, st. split; [done|]. split; [done|]. by left. }
  destruct Al as (Hr & Hfree & _ & Hok' & (Htot & _) & _ & Hall & _).
  exists (i * PAGE_SIZE), st'. split; [done|]. split.
  { split; [done|]. split; [rewrite Hall by lia; rewrite H0; apply orb_true_r|lia]. }
  right. split; [apply (frame_of_index st); [apply Hok|lia]|]. split.
  - intros (j & Ej & _ & Htj & _). assert (i = j) as <- by pmm_lia. congruence.
  - intros q. unfold pmm_held. rewrite Htot. split.
    + intros (j & -> & Hj & Htj & Hu). rewrite Hall in Htj by lia.
      destruct (Z.eqb_spec j i) as [->|]; [by left|right]. by exists j.
    + intros [->|(j & -> & Hj & Htj & Hu)].
      * exists i. rewrite Hall, Z.eqb_refl by lia. split; [done|]. split; [lia|]. split; [done|].
        by apply (ok_usable _ _ Hok).
      * exists j. rewrite Hall, Htj by lia. rewrite orb_true_r. done.
Qed.

Lemma pmm_free_law usable st p :
  pmm_ready usable st -> pmm_held usable st p -> exists st', pmm_free_frame st p = Some st' /\
    pmm_ready usable st' /\ forall q, pmm_held usable st' q <-> pmm_held usable st q /\ q <> p.
Proof.
  intros (Hok & H0 & Ht) (i & -> & Hi & Hti & Hu).
  destruct (free_taken usable st i Hok ltac:(lia) Hu Hti) as (st' & E & Hok' & (Htot & _) & _ & Hall).
  exists st'. split; [done|]. split.
  { split; [done|]. split; [rewrite Hall, H0 by lia; lia|lia]. }
  intros q. unfold pmm_held. rewrite Htot. split.
  - intros (j & -> & Hj & Htj & Huj). rewrite Hall in Htj by lia. destruct (Z.eqb_spec j i); [done|].
    split; [by exists j|pmm_lia].
  - intros [(j & -> & Hj & Htj & Huj) Hne]. exists j. rewrite Hall, Htj by lia.
    split; [done|]. split; [done|]. split; [|done]. destruct (Z.eqb_spec j i); [subst; done|done].
Qed.

#[export] Instance pmm_laws usable : AllocatorLaws pmm :=
  {| alloc_ok := pmm_ready usable; held := pmm_held usable;
     alloc_spec := pmm_alloc_law usable; free_spec := pmm_free_law usable |}.

Lemma filter_all {X} (P : X -> Prop) `{HP : !forall x, Decision (P x)} (l : list X) :
  (forall x, x ∈ l -> P x) -> filter P l = l.
Proof.
  induction l as [|x l IH]; intros Hl; [done|]. rewrite filter_cons_True by apply Hl, list_elem_of_here.
  f_equal. apply IH. intros y Hy. by apply Hl, list_elem_of_further.
Qed.

Section system.
Context {A : Type} `{!FrameAllocator A, !AllocatorLaws A}.
Implicit Types (s : vmm A) (g : ghost).

(** * Boot *)

(** [vmm_init] followed by [vmm_set_kernel_pml4] with a fresh table. *)
Definition boot_ghost (p : Z) : ghost :=
  Ghost {[ [] := p ]} ∅ (fun _ => ∅) (fun _ => ∅) {[ p := OKernel ]}.

Lemma fresh_tree (m : gmap Z (list Z)) p :
  is_frame p -> m !! p = Some zero_table -> paged m KERNEL_LINK kernel_dom {[ [] := p ]} ∅.
Proof using Type.
  intros Hf Hm. assert (Hz : forall i, index i -> word m p i = Some 0).
  { intros i Hi. unfold word. rewrite Hm. cbn [mbind option_bind]. unfold zero_table.
    apply lookup_replicate_2. by apply index_lt. }
  split.
  - split.
    + intros i q f E. by apply lookup_singleton_Some in E as [? _].
    + intros q q' f E1 E2. by apply lookup_singleton_Some in E1 as [<- _], E2 as [<- _].
    + intros q f E. apply lookup_singleton_Some in E as [_ <-]. split; [done|].
      exists zero_table. split; [done|apply length_replicate].
    + intros q f i E Hl Hi _. apply lookup_singleton_Some in E as [<- <-].
      rewrite lookup_singleton_ne by done. by apply Hz.
  - intros q e E. by rewrite lookup_empty in E.
  - intros q t i E Hl. by apply lookup_singleton_Some in E as [<- _].
Qed.

Lemma vmm_boot_inv c s p :
  alloc_ok (frames s) -> held (frames s) p -> is_frame p -> mem s !! p = Some zero_table ->
  Z.of_nat (length (cpus s)) <= CPU_MAX_COUNT -> (forall (d : nat) x, cpus s !! d = Some x -> current_pml4 x = 0) ->
  exists s', vmm_init true c s = Some s' /\ inv (vmm_set_kernel_pml4 s' c p) (boot_ghost p).
Proof using All.
  intros Ha Hh Hf Hm Hl Hcur. eexists. split; [done|].
  assert (Hp : vmm_table_from_phys p = p).
  { unfold vmm_table_from_phys. rewrite frame_mask by done. cbv zeta. unfold phys_map_contains.
    destruct Hf as [Hr _]. by replace (p <? PHYS_MAP_LIMIT) with true by lia. }
  assert (Hk0 : forall k md, replicate VMM_MAX_PROCESS_METADATA unused_metadata !! k = Some md -> md = unused_metadata).
  { intros k md E. by apply lookup_replicate in E as [-> _]. }
  split; cbn [frames kernel_pml4 mem address_space_metadata vmm_set_kernel_pml4 set_active_pml4 alter_cpu
    set_cpus set_kernel set_ioremap set_metadata set_bootstrap set_request gK gKL gN gL gown boot_ghost];
    rewrite ?Hp; try done.
  - intros f o E. by apply lookup_singleton_Some in E as [<- _].
  - by apply fresh_tree.
  - intros q f E. apply lookup_singleton_Some in E as [_ <-]. by apply lookup_singleton_Some.
  - intros i f E. by apply lookup_singleton_Some in E as [? _].
  - intros k md E _. apply Hk0 in E as ->. split; [done|]. split; [done|]. intros f.
    rewrite !lookup_singleton_Some. split; by intros [_ ?].
  - intros k md E Hr. by apply Hk0 in E as ->.
  - intros k md E. apply Hk0 in E as ->. apply no_cpus_wf.
  - intros k md d E Hr. by apply Hk0 in E as ->.
  - intros d q b. cbn. rewrite Hp. destruct (decide (d = Z.to_nat c)) as [->|Hne].
    + rewrite !list_lookup_alter_eq. destruct (cpus s !! Z.to_nat c); cbn; [|done]. intros [= <- _]. by right; left.
    + rewrite !list_lookup_alter_ne by done. destruct (cpus s !! d) as [x|] eqn:Ex; cbn; [|done].
      intros [= <- _]. left. by apply (Hcur d).
  - cbn. by rewrite !length_alter.
Qed.

(** * Sections in any order *)

(** The manager, the blank tables that calls in progress have reserved, and the
    other frames that callers hold. *)
Record sys := Sys { vm : vmm A; blanks : list Z; pool : list Z }.

Definition reserve_all (ts : list Z) : list reserved := (fun t => Reserved t true) <$> ts.
Definition given_back (r : detached) : list Z :=
  match r with Detached p ls ts => p :: ls ++ ts | _ => [] end.

(** One step of some CPU: a locked section of a call, with the frames that the
    call or its caller holds.  The entry of the kernel that [vmm_map_user_page]
    compares with was read by its first section, see [map_begin_spec]. *)
Inductive step : sys -> sys -> Prop :=
  | step_alloc s bl fs p a :
      alloc_frame (frames s) = Some (p, a) -> p <> 0 ->
      step (Sys s bl fs) (Sys (set_frames a s) bl (p :: fs))
  | step_reserve s bl fs t s' :
      vmm_alloc_table s = Some (t, s') -> t <> 0 -> step (Sys s bl fs) (Sys s' (t :: bl) fs)
  | step_free s bl fs p fs' s' :
      fs ≡ₚ p :: fs' -> pmm_free s p = Some s' -> step (Sys s bl fs) (Sys s' bl fs')
  | step_unreserve s bl fs t bl' s' :
      bl ≡ₚ t :: bl' -> pmm_free s t = Some s' -> step (Sys s bl fs) (Sys s' bl' fs)
  | step_map s bl fs ts bl' pa fs' c pml4 va flags r res s' :
      bl ≡ₚ ts ++ bl' -> length ts = 3%nat -> fs ≡ₚ pa :: fs' -> is_frame pa -> pml4 <> 0 ->
      0 <= va -> user_page_address va = true -> is_flags flags ->
      map_commit s c pml4 va pa flags 0 (Reservation true (reserve_all ts)) = Some (r, res, s') ->
      step (Sys s bl fs) (Sys s' (tabs (res_tables res) ++ bl') (if r is Some _ then fs' else fs))
  | step_unmap s bl fs c pml4 va out targets s' :
      pml4 <> 0 -> 0 <= va -> user_page_address va = true ->
      unmap_commit s c pml4 va = Some (Some (out, targets), s') ->
      step (Sys s bl fs) (Sys s' bl (out :: fs))
  | step_finish s bl fs pml4 : step (Sys s bl fs) (Sys (finish_shootdown s pml4) bl fs)
  | step_kernel s bl fs c va pa flags ok s' :
      vmm_map_kernel_one s c (kernel_pml4 s) va pa flags = Some (ok, s') ->
      step (Sys s bl fs) (Sys s' bl fs)
  | step_publish s bl fs s' :
      publish_roots s (address_space_metadata s) = Some s' -> step (Sys s bl fs) (Sys s' bl fs)
  | step_create s bl fs p s' :
      vmm_create_address_space s = Some (p, s') -> step (Sys s bl fs) (Sys s' bl fs)
  | step_detach s bl fs c pml4 r s' :
      pml4 <> 0 -> cpu_index c -> destroy_round s c pml4 = Some (r, s') ->
      step (Sys s bl fs) (Sys s' bl (given_back r ++ fs))
  | step_destroyed s bl fs k : step (Sys s bl fs) (Sys (alter_metadata s k destroy_done) bl fs)
  | step_switch s bl fs c x p ok s' :
      cpu_index c -> cpus s !! Z.to_nat c = Some x -> online x = true ->
      vmm_switch_address_space s c p = Some (ok, s') -> step (Sys s bl fs) (Sys s' bl fs)
  | step_tlb s bl fs s' : tlb_only s s' -> step (Sys s bl fs) (Sys s' bl fs).

(** The frames in hand are held and distinct, the reserved tables blank. *)
Definition sys_ok (y : sys) : Prop :=
  exists g, inv (vm y) g /\ NoDup (blanks y ++ pool y) /\
    (forall f, f ∈ blanks y ++ pool y -> gown g !! f = Some OHeld) /\
    (forall t, t ∈ blanks y -> blank (vm y) g t).

(** A section that changes neither the frames in hand nor their contents. *)
Lemma sys_ok_kept s bl fs s' :
  sys_ok (Sys s bl fs) ->
  (forall g, inv s g -> exists g', inv s' g' /\
     (forall f, gown g !! f = Some OHeld -> gown g' !! f = Some OHeld /\ mem s' !! f = mem s !! f)) ->
  sys_ok (Sys s' bl fs).
Proof using All.
  intros (g & I & Hnd & Hh & Hb) H. destruct (H g I) as (g' & I' & Ho). cbn in *.
  exists g'. split; [done|]. split; [done|]. split; [intros f Hf; by apply Ho, Hh|]. intros t Ht.
  pose proof (Hb t Ht) as B. apply (blank_kept s _ g); [done|apply Ho|apply Ho]; apply B.
Qed.

(** A section that hands frames [add] to the caller. *)
Lemma sys_ok_given s bl fs s' add :
  sys_ok (Sys s bl fs) ->
  (forall g, inv s g -> exists g', inv s' g' /\
     (forall f, gown g !! f = Some OHeld -> gown g' !! f = Some OHeld /\ mem s' !! f = mem s !! f) /\
     NoDup add /\ (forall f, f ∈ add -> gown g' !! f = Some OHeld /\ gown g !! f <> Some OHeld)) ->
  sys_ok (Sys s' bl (add ++ fs)).
Proof using All.
  intros (g & I & Hnd & Hh & Hb) H. destruct (H g I) as (g' & I' & Ho & Ha & Hx). cbn [vm blanks pool] in *.
  assert (P : bl ++ add ++ fs ≡ₚ add ++ bl ++ fs) by (rewrite !app_assoc; by rewrite (Permutation_app_comm bl)).
  exists g'. split; [done|]. cbn [vm blanks pool]. setoid_rewrite P. split; [|split].
  - apply NoDup_app. split; [done|]. split; [|done]. intros f Hf Hf'. apply Hx in Hf as [_ X]. by apply X, Hh.
  - intros f. rewrite elem_of_app. intros [Hf|Hf]; [by apply Hx|by apply Ho, Hh].
  - intros t Ht. pose proof (Hb t Ht) as B. apply (blank_kept s _ g); [done|apply Ho|apply Ho]; apply B.
Qed.

Lemma user_page_facts va :
  0 <= va -> user_page_address va = true -> user_address va /\ 0 <= ix 39 va < 256.
Proof using Type.
  unfold user_page_address. intros H0 H. apply andb_prop in H as [H H3]. apply andb_prop in H as [H1 H2].
  assert (Hu : user_address va) by (unfold user_address; lia). split; [done|]. by apply user_address_ix.
Qed.

Lemma ready_reserved s g ts :
  NoDup ts -> (forall t, t ∈ ts -> blank s g t) -> ready s g (reserve_all ts).
Proof using Type.
  intros Hnd Hb. assert (E : r_table <$> reserve_all ts = ts).
  { unfold reserve_all. rewrite <- list_fmap_compose. apply list_fmap_id. }
  split; [|by rewrite E]. apply Forall_forall. intros r Hr. apply list_elem_of_fmap in Hr as (t & -> & Ht).
  split; [by apply Hb|done].
Qed.
Lemma reserved_tables ts : r_table <$> reserve_all ts = ts.
Proof using Type. unfold reserve_all. rewrite <- list_fmap_compose. apply list_fmap_id. Qed.

(** ** The steps of a mapping *)

Lemma find_record s pml4 k :
  pml4 <> 0 -> vmm_metadata_find s pml4 = Some k ->
  exists md, address_space_metadata s !! k = Some md /\ root md = pml4 /\ root md <> 0.
Proof using Type. intros H0 E. apply find_root_spec in E as (md & Hk & <-). eauto. Qed.

Lemma map_step_ok s bl fs ts bl' pa fs' c pml4 va flags r res s' :
  bl ≡ₚ ts ++ bl' -> length ts = 3%nat -> fs ≡ₚ pa :: fs' -> is_frame pa -> pml4 <> 0 ->
  0 <= va -> user_page_address va = true -> is_flags flags ->
  map_commit s c pml4 va pa flags 0 (Reservation true (reserve_all ts)) = Some (r, res, s') ->
  sys_ok (Sys s bl fs) ->
  sys_ok (Sys s' (tabs (res_tables res) ++ bl') (if r is Some _ then fs' else fs)).
Proof using All.
  intros Hbl Hlen Hfs Hpa H0 Hva Hu Hfl E (g & I & Hnd & Hh & Hb). cbn [vm blanks pool] in *.
  destruct (user_page_facts va Hva Hu) as [Hua Hix].
  assert (Hin : forall f, f ∈ ts ++ bl' ++ pa :: fs' -> gown g !! f = Some OHeld).
  { intros f Hf. apply Hh. rewrite Hbl, Hfs, <- app_assoc. done. }
  assert (Hnd' : NoDup (ts ++ bl' ++ pa :: fs')) by (by rewrite Hbl, Hfs, <- app_assoc in Hnd).
  assert (Hbt : forall t, t ∈ ts ++ bl' -> blank s g t) by (intros t Ht; apply Hb; by rewrite Hbl).
  assert (Hnts : NoDup ts) by (apply NoDup_app in Hnd' as (? & _); done).
  assert (Hts0 : tabs (reserve_all ts) = ts).
  { unfold tabs. rewrite reserved_tables. apply filter_all. intros t Ht.
    assert (Hf : is_frame t) by (apply (bl_frame s g), Hbt; apply elem_of_app; by left).
    destruct Hf as [? _]. lia. }
  assert (Hback : forall s', s' = s -> sys_ok (Sys s' (tabs (reserve_all ts) ++ bl') fs)).
  { intros s2 ->. exists g. cbn. rewrite Hts0. split; [done|]. split; [by rewrite <- Hbl|].
    split; [intros f Hf; apply Hh; by rewrite Hbl|done]. }
  unfold map_commit in E. destruct (vmm_metadata_find s pml4) as [k|] eqn:Ef.
  2: { injection E as <- <- <-. by apply Hback. }
  destruct (find_record s pml4 k H0 Ef) as (md & Hk & <- & Hr).
  assert (E' : map_commit s c (root md) va pa flags 0 (Reservation true (reserve_all ts)) = Some (r, res, s')).
  { unfold map_commit. by rewrite Ef. } clear E.
  destruct (destroy_pending md) eqn:Hdp.
  { rewrite (map_commit_refused s g k md) in E' by (first [done|lia|by left]).
    injection E' as <- <- <-. by apply Hback. }
  destruct (gL g k !! vpath va) as [e|] eqn:HL.
  { rewrite (map_commit_refused s g k md) in E' by (first [done|lia|right; by rewrite HL]).
    injection E' as <- <- <-. by apply Hback. }
  assert (Hpat : pa ∉ r_table <$> reserve_all ts).
  { rewrite reserved_tables. intros Hin'. apply NoDup_app in Hnd' as (_ & Hd & _). apply (Hd pa Hin').
    apply elem_of_app. right. apply list_elem_of_here. }
  destruct (map_commit_spec s g k md c va pa flags (reserve_all ts)) as (rs' & s2 & g2 & b & M & _ & E2);
    try done.
  { apply Hin. rewrite !elem_of_app. right. right. apply list_elem_of_here. }
  { apply ready_reserved; [done|]. intros t Ht. apply Hbt, elem_of_app. by left. }
  { unfold reserve_all. by rewrite length_fmap. }
  rewrite E2 in E'. destruct b; [|done]. injection E' as <- <- <-. cbn [res_tables].
  pose proof (ma_left _ _ _ _ _ _ _ _ _ _ _ _ M) as Hleft.
  assert (Hsub : forall f, f ∈ tabs rs' -> f ∈ ts).
  { intros f Hf. apply tabs_in in Hf as [Hf0 Hf]. rewrite <- (reserved_tables ts). by eapply left_in. }
  assert (Hkeep : forall f, f ∈ tabs rs' ++ bl' ++ fs' -> f ∈ ts ++ bl' ++ pa :: fs' /\ f <> pa /\
    ~ used_up (reserve_all ts) rs' f).
  { intros f. rewrite !elem_of_app. unfold used_up. rewrite reserved_tables.
    apply NoDup_app in Hnd' as (_ & D1 & Hnd2). apply NoDup_app in Hnd2 as (_ & D2 & Hnd3).
    apply NoDup_cons in Hnd3 as [D3 _]. intros [Hf|[Hf|Hf]].
    - split; [auto|]. split; [|intros [_ X]; apply X; by apply tabs_in in Hf as [_ ?]].
      intros ->. apply (D1 pa (Hsub _ Hf)). apply elem_of_app. right. apply list_elem_of_here.
    - split; [auto|]. split; [intros ->; apply (D2 pa Hf), list_elem_of_here|].
      intros [X _]. apply (D1 f X). apply elem_of_app. by left.
    - split; [right; right; by apply list_elem_of_further|]. split; [congruence|].
      intros [X _]. apply (D1 f X). apply elem_of_app. right. by apply list_elem_of_further. }
  exists g2. split; [apply M|]. cbn [vm blanks pool]. rewrite <- app_assoc. split; [|split].
  - apply NoDup_app. apply NoDup_app in Hnd' as (_ & D1 & Hnd2). split; [|split].
    + eapply tabs_nodup_left; [exact Hleft|]. by rewrite reserved_tables.
    + intros f Hf Hf'. apply (D1 f (Hsub f Hf)). rewrite elem_of_app in Hf' |- *.
      destruct Hf'; [by left|right; by apply list_elem_of_further].
    + apply NoDup_app in Hnd2 as (N1 & N2 & N3). apply NoDup_cons in N3 as [_ N3].
      apply NoDup_app. split; [done|]. split; [|done]. intros f F1 F2. apply (N2 f F1). by right.
  - intros f Hf. destruct (Hkeep f Hf) as (H1 & H2 & H3). apply (ma_own _ _ _ _ _ _ _ _ _ _ _ _ M).
    right. split; [done|]. right. split; [done|]. by apply Hin.
  - intros t Ht. assert (Ht' : t ∈ tabs rs' ++ bl' ++ fs') by (rewrite app_assoc, elem_of_app; by left).
    destruct (Hkeep t Ht') as (H1 & H2 & H3).
    assert (B : blank s g t).
    { apply Hbt. apply elem_of_app in Ht as [Ht|Ht]; apply elem_of_app; [left; by apply Hsub|by right]. }
    apply (blank_kept s _ g); [done|apply (ma_blank _ _ _ _ _ _ _ _ _ _ _ _ M); [apply B|done]|].
    apply (ma_own _ _ _ _ _ _ _ _ _ _ _ _ M). right. split; [done|]. right. split; [done|apply B].
Qed.

(** ** The other steps *)

Lemma switch_accepted s c x p s' :
  cpu_index c -> cpus s !! Z.to_nat c = Some x -> current_pml4 x <> p ->
  vmm_switch_address_space s c p = Some (true, s') -> may_load s p.
Proof using Type.
  intros Hc Hx Hne. unfold vmm_switch_address_space. destruct (p =? 0); [done|]. cbv zeta.
  unfold active_pml4 at 1. rewrite Hx, (proj2 (Z.eqb_neq p _)) by done. unfold cpu_index in Hc.
  replace (CPU_MAX_COUNT <=? c) with false by lia.
  destruct (Z.eqb_spec p (kernel_pml4 s)) as [->|Hk]; [by left|].
  destruct (vmm_metadata_find s p) as [k|] eqn:Ef; [|by rewrite bind_Some_l].
  apply find_root_spec in Ef as (md & Hkk & Er). rewrite Hkk, !bind_Some_l.
  destruct (destroy_pending md) eqn:Ed; [done|]. right. by exists k, md.
Qed.
Lemma switch_unchanged s c x p s' :
  cpus s !! Z.to_nat c = Some x -> vmm_switch_address_space s c p = Some (false, s') -> s' = s.
Proof using Type.
  intros Hx. unfold vmm_switch_address_space. destruct (p =? 0); [congruence|]. cbv zeta.
  destruct (p =? _); [done|]. destruct (CPU_MAX_COUNT <=? c); [congruence|].
  match goal with |- (?r ≫= _) = _ -> _ => destruct r as [[]|] end; [|done|done].
  rewrite bind_Some_l. congruence.
Qed.

Lemma alloc_step_ok s bl fs p a :
  alloc_frame (frames s) = Some (p, a) -> p <> 0 -> sys_ok (Sys s bl fs) ->
  sys_ok (Sys (set_frames a s) bl (p :: fs)).
Proof using All.
  intros E Hp K. apply (sys_ok_given s bl fs _ [p] K). intros g I.
  destruct (alloc_spec _ (iv_alloc _ _ I)) as (p' & a' & E' & Hok & Hc). rewrite E in E'.
  injection E' as <- <-. destruct Hc as [[? _]|(Hf & Hn & Hh)]; [done|].
  assert (Hno : gown g !! p = None).
  { destruct (gown g !! p) eqn:Eo; [|done]. by destruct Hn; eapply (iv_held _ _ I). }
  exists (take_held p g). split; [|split; [|split]].
  - apply (inv_frame s); try done.
    + intros f o. rewrite lookup_insert_Some. intros [[<- _]|[_ Ho]]; apply Hh; [by left|right].
      by eapply (iv_held _ _ I).
    + intros f o Ho. rewrite lookup_insert_Some. naive_solver.
  - intros f Hf'. split; [|done]. cbn. rewrite lookup_insert_ne; [done|congruence].
  - apply NoDup_singleton.
  - intros f Hin. apply list_elem_of_singleton in Hin as ->. cbn. rewrite lookup_insert_eq. split; congruence.
Qed.

Lemma reserve_step_ok s bl fs t s' :
  vmm_alloc_table s = Some (t, s') -> t <> 0 -> sys_ok (Sys s bl fs) -> sys_ok (Sys s' (t :: bl) fs).
Proof using All.
  intros E H0 (g & I & Hnd & Hh & Hb). cbn [vm blanks pool] in *.
  destruct (alloc_table_spec s g I) as (t' & s2 & E' & Hc & _). rewrite E in E'. injection E' as <- <-.
  destruct Hc as [[? _]|(Hf & Hno & I' & B & Em)]; [done|].
  assert (Ho : forall f, gown g !! f = Some OHeld ->
    gown (take_held t g) !! f = Some OHeld /\ mem s' !! f = mem s !! f).
  { intros f Hf'. rewrite Em. cbn. rewrite !lookup_insert_ne by congruence. done. }
  exists (take_held t g). split; [done|]. cbn [vm blanks pool]. split; [|split].
  - cbn. apply NoDup_cons. split; [|done]. intros Hin. apply Hh in Hin. congruence.
  - intros f Hin. apply elem_of_cons in Hin as [->|Hin]; [by apply lookup_insert_eq|by apply Ho, Hh].
  - intros f Hin. apply elem_of_cons in Hin as [->|Hin]; [done|]. pose proof (Hb f Hin) as Bf.
    apply (blank_kept s _ g); [done|apply Ho|apply Ho]; apply Bf.
Qed.

(** Giving a frame back, from either list. *)
Lemma give_back_ok s bl fs p bl' fs' s' :
  bl ++ fs ≡ₚ p :: bl' ++ fs' -> (forall t, t ∈ bl' -> t ∈ bl) -> pmm_free s p = Some s' ->
  sys_ok (Sys s bl fs) -> sys_ok (Sys s' bl' fs').
Proof using All.
  intros P Hsub E (g & I & Hnd & Hh & Hb). cbn [vm blanks pool] in *. setoid_rewrite P in Hh.
  rewrite P in Hnd. apply NoDup_cons in Hnd as [Hp Hnd].
  destruct (free_one s g p I (Hh p (list_elem_of_here _ _))) as (s1 & E1 & (Fo & _) & I1 & M).
  rewrite E in E1. injection E1 as <-. destruct Fo as (Em & _).
  assert (Ho : forall f, f ∈ bl' ++ fs' -> gown (drop_held p g) !! f = Some OHeld).
  { intros f Hf. cbn. rewrite lookup_delete_ne by congruence. apply Hh. by apply list_elem_of_further. }
  exists (drop_held p g). split; [done|]. cbn [vm blanks pool]. split; [done|]. split; [done|].
  intros t Ht. apply (blank_kept s _ g); [by apply Hb, Hsub|by rewrite Em|].
  apply Ho, elem_of_app. by left.
Qed.

Lemma unmap_step_ok s bl fs c pml4 va out targets s' :
  pml4 <> 0 -> 0 <= va -> user_page_address va = true ->
  unmap_commit s c pml4 va = Some (Some (out, targets), s') ->
  sys_ok (Sys s bl fs) -> sys_ok (Sys s' bl (out :: fs)).
Proof using All.
  intros H0 Hva Hu E K. apply (sys_ok_given s bl fs _ [out] K). intros g I.
  destruct (user_page_facts va Hva Hu) as [_ Hix]. pose proof E as E0. unfold unmap_commit in E0.
  destruct (vmm_metadata_find s pml4) as [k|] eqn:Ef; [|done].
  destruct (find_record s pml4 k H0 Ef) as (md & Hk & <- & Hr). rewrite Hk, bind_Some_l in E0.
  destruct (destroy_pending md) eqn:Hdp; [done|]. clear E0.
  pose proof (unmap_commit_spec s g k md c va I Hk Hr (proj2 Hix) Hdp) as Sp.
  destruct (gL g k !! vpath va) as [e|]; [|congruence].
  destruct Sp as (s2 & g2 & M & E2). rewrite E in E2. injection E2 as -> _ ->.
  pose proof (un_leaf _ _ _ _ _ _ _ _ _ M) as Hl. exists g2.
  rewrite (un_own _ _ _ _ _ _ _ _ _ M). split; [apply M|]. split; [|split].
  - intros f Hf. split; [|by apply (un_blank _ _ _ _ _ _ _ _ _ M)]. rewrite lookup_insert_ne; congruence.
  - apply NoDup_singleton.
  - intros f Hin. apply list_elem_of_singleton in Hin as ->. rewrite lookup_insert_eq. split; congruence.
Qed.

Lemma detach_step_ok s bl fs c pml4 r s' :
  pml4 <> 0 -> cpu_index c -> destroy_round s c pml4 = Some (r, s') ->
  sys_ok (Sys s bl fs) -> sys_ok (Sys s' bl (given_back r ++ fs)).
Proof using All.
  intros H0 Hc E K. apply (sys_ok_given s bl fs _ _ K). intros g I. unfold destroy_round in E.
  destruct (vmm_metadata_find s pml4) as [k|] eqn:Ef.
  2: { injection E as <- <-. exists g. split; [done|]. split; [done|]. split; [apply NoDup_nil_2|].
       intros f Hf. by apply elem_of_nil in Hf. }
  destruct (find_record s pml4 k H0 Ef) as (md & Hk & <- & Hr). rewrite Hk, bind_Some_l in E. cbv zeta in E.
  destruct (_ && _) in E; [done|]. pose proof (mark_inv s g k I) as I1. pose proof (mark_record s k md Hk) as Hk1.
  destruct (vmm_cpu_mask_empty (active_cpu_mask md)) eqn:Em; cbn [negb] in E; injection E as <- <-.
  2: { exists g. split; [done|]. split; [done|]. split; [apply NoDup_nil_2|].
       intros f Hf. by apply elem_of_nil in Hf. }
  exists (detached_ghost k g). split; [|split; [|split]].
  - apply (detach_inv _ g k (mark_destroy md)); try done. cbn. apply mask_empty_spec; [|done].
    by apply (iv_mask_wf _ _ I k).
  - intros f Hf. split; [|done]. cbn. rewrite lookup_fmap, Hf. done.
  - apply (space_frames_nodup s g k md); done.
  - intros f Hf. apply (space_frames_own s g k md f) in Hf; [|done..]. cbn. rewrite lookup_fmap. unfold loosen.
    split; [|naive_solver]. destruct Hf as [-> | ->]; cbn; f_equal; apply decide_True; auto.
Qed.

Lemma switch_step_ok s bl fs c x p ok s' :
  cpu_index c -> cpus s !! Z.to_nat c = Some x -> online x = true ->
  vmm_switch_address_space s c p = Some (ok, s') -> sys_ok (Sys s bl fs) -> sys_ok (Sys s' bl fs).
Proof using All.
  intros Hc Hx Hon E K. apply (sys_ok_kept s _ _ _ K). intros g I. exists g.
  assert (Hsame : s' = s -> inv s' g /\ forall f, gown g !! f = Some OHeld ->
    gown g !! f = Some OHeld /\ mem s' !! f = mem s !! f) by (intros ->; done).
  destruct (decide (p = 0)) as [->|Hp].
  { apply Hsame. unfold vmm_switch_address_space in E. cbn in E. congruence. }
  destruct (decide (current_pml4 x = p)) as [Ep|Hne].
  { apply Hsame. unfold vmm_switch_address_space, active_pml4 in E.
    rewrite (proj2 (Z.eqb_neq _ _) Hp), Hx, Ep, Z.eqb_refl in E. congruence. }
  destruct (decide (ok = true)) as [->|Hok].
  - assert (Hmay : may_load s p) by (by eapply switch_accepted).
    rewrite (switch_accepts s g c x p) in E by done. injection E as <-.
    destruct (switched_spec s g c x p) as (I' & _); done.
  - destruct ok; [done|]. apply Hsame. by eapply switch_unchanged.
Qed.

Lemma kernel_step_ok s bl fs c va pa flags ok s' :
  vmm_map_kernel_one s c (kernel_pml4 s) va pa flags = Some (ok, s') ->
  sys_ok (Sys s bl fs) -> sys_ok (Sys s' bl fs).
Proof using All.
  intros E K. apply (sys_ok_kept s _ _ _ K). intros g I.
  destruct (map_kernel_one_spec s g c va pa flags I) as (b & s1 & g1 & R & E1 & _). rewrite E in E1.
  injection E1 as -> ->. exists g1.
  assert (T : tlb_only s1 (if b then invlpg_if_active s1 c (kernel_pml4 s) va else s1))
    by (destruct b; [apply invlpg_tlb|apply tlb_only_refl]).
  split; [by apply (tlb_only_inv s1), R|]. intros f Hf. split; [by apply (gr_own _ _ _ _ R)|].
  rewrite (to_mem _ _ T). by apply (gr_mem _ _ _ _ R f OHeld).
Qed.

Lemma publish_step_ok s bl fs s' :
  publish_roots s (address_space_metadata s) = Some s' -> sys_ok (Sys s bl fs) -> sys_ok (Sys s' bl fs).
Proof using All.
  intros E K. apply (sys_ok_kept s _ _ _ K). intros g I.
  destruct (publish_roots_spec (address_space_metadata s) s g I) as (s1 & E1 & P & _); [done|].
  rewrite E in E1. injection E1 as <-. exists g. split; [apply P|]. intros f Hf. split; [done|].
  apply (pb_rest _ _ _ P). congruence.
Qed.

Lemma create_step_ok s bl fs p s' :
  vmm_create_address_space s = Some (p, s') -> sys_ok (Sys s bl fs) -> sys_ok (Sys s' bl fs).
Proof using All.
  intros E K. apply (sys_ok_kept s _ _ _ K). intros g I.
  destruct (create_spec s g I) as (r & s1 & g1 & E1 & C). rewrite E in E1. injection E1 as <- <-.
  exists g1. split; [apply C|]. intros f Hf. split; [|by apply (cr_mem _ _ _ _ _ C f OHeld)].
  destruct (decide (p = 0)) as [H0|H0].
  - by rewrite (proj2 (cr_failed _ _ _ _ _ C H0)).
  - destruct (cr_new _ _ _ _ _ C H0) as (_ & Hn & _ & _ & k & md0 & _ & _ & _ & -> & _).
    rewrite lookup_insert_ne; [done|congruence].
Qed.

Lemma flags_step_ok s bl fs s' :
  (forall g, inv s g -> inv s' g) -> mem s' = mem s -> sys_ok (Sys s bl fs) -> sys_ok (Sys s' bl fs).
Proof using All.
  intros H Em K. apply (sys_ok_kept s _ _ _ K). intros g I. exists g. rewrite Em. auto.
Qed.

Lemma sys_step_ok y y' : step y y' -> sys_ok y -> sys_ok y'.
Proof using All.
  intros [] K.
  - by apply (alloc_step_ok s).
  - by apply (reserve_step_ok s).
  - eapply (give_back_ok s bl fs p); [|done|done|done]. rewrite H. by rewrite Permutation_middle.
  - eapply (give_back_ok s bl fs t); [by rewrite H| |done|done]. intros x Hx. rewrite H.
    by apply list_elem_of_further.
  - by eapply (map_step_ok s).
  - by eapply (unmap_step_ok s).
  - apply (flags_step_ok s); [intros g; apply finish_inv|apply finish_same|done].
  - by eapply (kernel_step_ok s).
  - by eapply (publish_step_ok s).
  - by eapply (create_step_ok s).
  - by eapply (detach_step_ok s).
  - apply (flags_step_ok s); [intros g; by apply inv_flags|done|done].
  - by eapply (switch_step_ok s).
  - apply (flags_step_ok s); [|apply H|done]. intros g. by apply tlb_only_inv.
Qed.

(** The manager after boot, and everything the calls can make of it. *)
Definition booted (y : sys) : Prop :=
  exists c s p s', alloc_ok (frames s) /\ held (frames s) p /\ is_frame p /\ mem s !! p = Some zero_table /\
    Z.of_nat (length (cpus s)) <= CPU_MAX_COUNT /\
    (forall (d : nat) x, cpus s !! d = Some x -> current_pml4 x = 0) /\
    vmm_init true c s = Some s' /\ y = Sys (vmm_set_kernel_pml4 s' c p) [] [].

Inductive reachable : sys -> Prop :=
  | reach_boot y : booted y -> reachable y
  | reach_step y y' : reachable y -> step y y' -> reachable y'.

Lemma sys_reachable_ok y : reachable y -> sys_ok y.
Proof using All.
  induction 1 as [y (c & s & p & s' & H1 & H2 & H3 & H4 & H5 & H6 & E & ->)|]; [|by eapply sys_step_ok].
  destruct (vmm_boot_inv c s p) as (s2 & E2 & I); try done. rewrite E in E2. injection E2 as ->.
  exists (boot_ghost p). split; [done|]. split; [apply NoDup_nil_2|].
  split; intros f Hf; by apply elem_of_nil in Hf.
Qed.

End system.
End VmmSystem.
