(* ===== verification/VmmTheorems.v ===== *)
(** What the virtual memory manager guarantees: isolation in every reachable
    state, and the effect of each call on the translations of every address
    space and on what the CPUs remember of them. *)
From stdpp Require Import gmap.
From S2P Require Import Prelude Pmm Vmm VmmTree VmmInv VmmProofs VmmValid VmmUser VmmTlb VmmPages VmmKernel VmmSpaces VmmQueries VmmSystem.
Import Pmm Vmm VmmTree VmmInv VmmProofs VmmValid VmmUser VmmTlb VmmPages VmmKernel VmmSpaces VmmQueries VmmSystem.

Module VmmTheorems.

Section theorems.
Context {A : Type} `{!FrameAllocator A, !AllocatorLaws A}.
Implicit Types (s : vmm A) (g : ghost) (y : @sys A).

(** * Page tables, as the hardware finds them *)

(** [page_table s r p f]: the walk from root [r] along the reversed path [p]
    reads frame [f] as a page table. *)
Inductive page_table s (r : Z) : list Z -> Z -> Prop :=
  | pt_root : page_table s r [] r
  | pt_child p t i e :
      page_table s r p t -> (length p < 3)%nat -> index i -> word (mem s) t i = Some e ->
      has e PTE_PRESENT = true -> has e PTE_HUGE = false ->
      page_table s r (i :: p) (Z.land e PTE_FRAME_MASK).

Lemma tree_link_child m fl dom N p t i e :
  tree m fl dom N -> is_flags fl -> N !! p = Some t -> (length p < 3)%nat -> index i -> dom p i = true ->
  word m t i = Some e -> has e PTE_PRESENT = true -> N !! (i :: p) = Some (Z.land e PTE_FRAME_MASK).
Proof using Type.
  intros T Hfl Hp Hl Hi Hd W Hpr. rewrite (tr_link _ _ _ _ T p t i) in W by done. injection W as <-.
  destruct (N !! (i :: p)) as [f|] eqn:Ef; [|by rewrite has_0 in Hpr].
  rewrite (pte_frame f); [done|by eapply (tr_table _ _ _ _ T)|done].
Qed.

Lemma kernel_tables s g p f : inv s g -> page_table s (kernel_pml4 s) p f -> gK g !! p = Some f.
Proof using All.
  intros I. induction 1 as [|p t i e _ IH Hl Hi W Hp _]; [by apply I|].
  eapply (tree_link_child (mem s) KERNEL_LINK kernel_dom); [apply (iv_kpaged _ _ I)|flags|done..].
Qed.

Lemma user_tables s g k md p f :
  inv s g -> address_space_metadata s !! k = Some md -> root md <> 0 -> page_table s (root md) p f ->
  gN g k !! p = Some f \/ gK g !! p = Some f /\ p <> [].
Proof using All.
  intros I Hk Hr. pose proof (iv_space _ _ I _ _ Hk Hr) as S.
  induction 1 as [|p t i e _ IH Hl Hi W Hp _]; [left; by apply S|].
  destruct IH as [Hn|[Hn Hne]].
  - destruct p as [|j p].
    + assert (t = root md) as -> by (pose proof (sp_root _ _ _ _ _ _ _ S); congruence).
      destruct (decide (i < 256)).
      { left. eapply (tree_link_child (mem s) USER_LINK user_dom); [apply S|flags|done|done|done|cbn; lia|done|done]. }
      destruct (sp_high _ _ _ _ _ _ _ S i) as [E|[_ E]]; [unfold index in Hi; lia| |].
      { rewrite W in E. injection E as ->. by rewrite has_0 in Hp. }
      right. split; [|done]. rewrite W in E.
      eapply (tree_link_child (mem s) KERNEL_LINK kernel_dom); [apply (iv_kpaged _ _ I)|flags|apply I|done..].
    + left. eapply (tree_link_child (mem s) USER_LINK user_dom); [apply S|flags|done..].
  - right. split; [|done].
    eapply (tree_link_child (mem s) KERNEL_LINK kernel_dom); [apply (iv_kpaged _ _ I)|flags|done..].
Qed.

Lemma tables_owned s g r p f :
  inv s g -> known s r -> page_table s r p f -> gown g !! f = Some OKernel \/ exists k, gown g !! f = Some (OTable k).
Proof using All.
  intros I [->|(k & md & Hk & <- & Hr)] Hf.
  - left. by eapply (iv_kown _ _ I), kernel_tables.
  - destruct (user_tables s g k md p f I Hk Hr Hf) as [Hn|[Hn _]]; [right|left; by eapply (iv_kown _ _ I)].
    exists k. apply (sp_own _ _ _ _ _ _ _ (iv_space _ _ I _ _ Hk Hr)). eauto.
Qed.

(** * Isolation *)

(** A user translation is in the lower half and leads to a leaf of the space. *)
Lemma user_translation s g k md va tr :
  inv s g -> address_space_metadata s !! k = Some md -> root md <> 0 ->
  mmu s (root md) va = Some tr -> t_user tr = true ->
  ix 39 va < 256 /\ gown g !! t_frame tr = Some (OLeaf k).
Proof using All.
  intros I Hk Hr Hm Hu. pose proof (iv_space _ _ I _ _ Hk Hr) as S.
  assert (Hlow : ix 39 va < 256).
  { destruct (decide (ix 39 va < 256)); [done|]. exfalso.
    destruct (mmu_user_high s g k md va I Hk Hr) as [E|[_ E]]; [lia|congruence|].
    rewrite E, (mmu_kernel s g) in Hm by done. destruct (gKL g !! vpath va) as [e|]; [|done].
    cbn in Hm. unfold leaf_translation in Hm. destruct (has e PTE_PRESENT); [|done].
    injection Hm as <-. done. }
  split; [done|]. rewrite (mmu_user s g k md) in Hm by done.
  destruct (gL g k !! vpath va) as [e|] eqn:Ee; [|done]. apply (sp_leaf_own _ _ _ _ _ _ _ S).
  destruct (sp_pte _ _ _ _ _ _ _ S _ _ Ee) as (f & fl & -> & Hf & (Hfl & _) & Hin).
  cbn in Hm. unfold leaf_translation in Hm. destruct (has _ PTE_PRESENT); [|done].
  injection Hm as <-. cbn. by rewrite (pte_frame f).
Qed.

(** C1: In every state that boot and any interleaving of the manager's calls on
    any number of CPUs can reach: an address that a process may access lies in
    the lower half and leads to a frame that only this process has mapped, that
    is allocated, that is in no caller's hands and is read as a page table from
    no root; and every CPU runs on the kernel's root or on that of a space that
    still exists. *)
Theorem vmm_isolation y :
  reachable y ->
  (forall k md va tr, address_space_metadata (vm y) !! k = Some md -> root md <> 0 ->
     mmu (vm y) (root md) va = Some tr -> t_user tr = true ->
     ix 39 va < 256 /\ (t_frame tr ∈ leaves md) /\ held (frames (vm y)) (t_frame tr) /\
     (t_frame tr ∉ blanks y ++ pool y) /\
     (forall r p, known (vm y) r -> ~ page_table (vm y) r p (t_frame tr)) /\
     (forall k' md', address_space_metadata (vm y) !! k' = Some md' -> t_frame tr ∈ leaves md' -> k' = k)) /\
  (forall d x, cpus (vm y) !! d = Some x -> current_pml4 x = 0 \/ known (vm y) (current_pml4 x)).
Proof using All.
  intros R. destruct (sys_reachable_ok y R) as (g & I & Hnd & Hh & Hb). split.
  - intros k md va tr Hk Hr Hm Hu. destruct (user_translation _ g k md va tr I Hk Hr Hm Hu) as [Hlow Ho].
    split; [done|]. split; [by apply (sp_leaf_own _ _ _ _ _ _ _ (iv_space _ _ I _ _ Hk Hr))|].
    split; [by eapply (iv_held _ _ I)|]. split; [intros Hin; apply Hh in Hin; congruence|]. split.
    + intros r p Hkn Hf. destruct (tables_owned _ g r p _ I Hkn Hf) as [?|[? ?]]; congruence.
    + intros k' md' Hk' Hin. destruct (decide (root md' = 0)) as [H0|H0].
      * destruct (iv_unused _ _ I k' md' Hk' H0) as (_ & E & _). rewrite E in Hin. by apply elem_of_nil in Hin.
      * apply (sp_leaf_own _ _ _ _ _ _ _ (iv_space _ _ I _ _ Hk' H0)) in Hin. congruence.
  - intros d x Hx. destruct (iv_current _ _ I d (current_pml4 x) (online x)) as [?|[?|(_ & k & md & Hk & E)]].
    + by rewrite Hx.
    + by left.
    + right. by left.
    + destruct (decide (current_pml4 x = 0)); [by left|right; right]. exists k, md. done.
Qed.

(** * Pages of a process *)




Lemma page_address_path va : aligned va -> page_address (page_of va) = va.
Proof using Type.
  unfold aligned, page_address, page_of. change (VMM_PAGE_SIZE - 1) with (Z.ones 12).
  rewrite Z.land_ones by lia. unfold VMM_PAGE_SIZE. change (2 ^ 12) with 0x1000. intros H.
  pose proof (Z.div_mod va 0x1000). lia.
Qed.

(** C3: [vmm_unmap_user_page] always returns.  When the space is not being
    destroyed it returns the frame the page was mapped to, if any, and hands it
    to the caller; the page is then mapped for nobody, every other translation
    is unchanged, and no CPU has the page in its TLB any more. *)
Theorem unmap_user_page_correct hw lock s g c k md va :
  machine_ok hw -> inv s g -> coherent s -> cpu_index c -> address_space_metadata s !! k = Some md ->
  root md <> 0 -> user_address va -> aligned va ->
  exists r s' g', vmm_unmap_user_page hw lock s c (root md) va = Some (r, s') /\
    inv s' g' /\ coherent s' /\
    (destroy_pending md = false -> lock = true -> r = t_frame <$> mmu s (root md) va) /\
    (r = None -> s' = s) /\
    (forall f, r = Some f -> translations_set s s' (root md) va None /\
       gown g !! f = Some (OLeaf k) /\ gown g' = <[f := OHeld]> (gown g) /\
       forall d x tr, cpus s' !! d = Some x -> current_pml4 x = root md -> tlb x !! page_of va <> Some tr).
Proof using All.
  intros Hhw I C Hc Hk Hr Hu Hva.
  destruct (unmap_user_page_spec hw lock s g c k md va) as (r & s' & g' & E & O & W); try done.
  exists r, s', g'. split; [done|]. split; [apply O|]. split; [apply O|]. split; [done|].
  split; [intros Hn; by apply (uo_refused _ _ _ _ _ _ _ _ O)|].
  intros f Hf. destruct (uo_unmapped _ _ _ _ _ _ _ _ O f Hf) as (_ & Ht & Ho & Hg & _).
  split; [done|]. split; [done|]. split; [done|]. intros d x tr Hx Hcur Htlb.
  destruct (uo_coherent _ _ _ _ _ _ _ _ O d x _ _ Hx Htlb) as (_ & _ & Hm). rewrite Hcur in Hm.
  rewrite Ht in Hm by (right; by exists k, md).
  rewrite decide_True in Hm; [done|]. split; [done|]. by rewrite page_address_path.
Qed.

(** * Pages of the kernel *)

(** [vmm_map] of a kernel page always returns.  It succeeds for an upper-half
    address in a shared slot, a frame below the direct map's limit, flags
    without user access and three free frames; then the page is translated the
    same way through the kernel's root and through the root of every process,
    all other translations are what they were through the root of the kernel
    and, in the lower half, of every process.  If the page was not mapped before
    no CPU keeps a stale translation. *)
Theorem vmm_map_correct hw s g c va pa flags :
  machine_ok hw -> inv s g ->
  exists ok s' g', vmm_map hw s c (kernel_pml4 s) va pa flags = Some (ok, s') /\ inv s' g' /\
    (ok = false -> same_translations s s') /\
    (ok = true -> kernel_mapped s g va pa flags s' g') /\
    (may_map_kernel s va pa flags -> ok = true) /\
    (coherent s -> mmu s (kernel_pml4 s) va = None -> coherent s').
Proof using All.
  intros Hhw I. destruct (vmm_map_spec hw s g c va pa flags Hhw I)
    as (ok & s' & g' & E & I' & _ & _ & _ & _ & Hf & Ht & Hc & Hok).
  exists ok, s', g'. split; [done|]. split; [done|]. split; [by intros; apply Hf|]. split; [by intros; apply Ht|].
  split; [done|]. intros C Hm. apply Hc; [done|]. rewrite (mmu_kernel s g) in Hm by done.
  destruct (gKL g !! vpath va) as [e|] eqn:Ee; [|done]. cbn in Hm. unfold leaf_translation in Hm.
  by rewrite (proj1 (iv_kpte _ _ I _ _ Ee)) in Hm.
Qed.

(** * Address spaces *)

(** [vmm_create_address_space] always returns.  It succeeds exactly when a
    frame is free and a record is unused; the new root is a fresh frame that
    translates nothing in the lower half, and in the upper half what the kernel
    translates; no other translation changes. *)
Theorem create_address_space_correct s g :
  inv s g -> exists r s' g', vmm_create_address_space s = Some (r, s') /\ created s g r s' g'.
Proof using All. apply create_spec. Qed.


Lemma may_load_dec s p : may_load s p \/ ~ may_load s p.
Proof using Type.
  destruct (decide (p = kernel_pml4 s)) as [?|Hk]; [by left; left|].
  destruct (decide (Exists (fun md => root md = p /\ destroy_pending md = false) (address_space_metadata s))) as [H|H].
  - left. right. apply Exists_exists in H as (md & Hin & Hr & Hd). apply list_elem_of_lookup_1 in Hin as (k & Hm).
    by exists k, md.
  - right. intros [?|(k & md & Hm & Hr & Hd)]; [done|]. apply H, Exists_exists. exists md.
    split; [by eapply list_elem_of_lookup_2|done].
Qed.

(** [vmm_switch_address_space] on an online CPU accepts exactly the loaded
    root, the kernel's root and the roots of spaces that are not being
    destroyed.  It loads the root and empties this CPU's TLB, and afterwards the
    masks of the records say again exactly which CPU runs where. *)
Theorem switch_address_space_correct s g c x p :
  inv s g -> cpu_index c -> cpus s !! Z.to_nat c = Some x -> online x = true -> p <> 0 ->
  exists ok s', vmm_switch_address_space s c p = Some (ok, s') /\ inv s' g /\
    (ok = true <-> p = current_pml4 x \/ may_load s p) /\
    (ok = false -> s' = s) /\
    (ok = true -> p <> current_pml4 x -> cpus s' = <[Z.to_nat c := Cpu p true ∅]> (cpus s)) /\
    (coherent s -> coherent s') /\
    (forall k md d, address_space_metadata s' !! k = Some md -> root md <> 0 -> cpu_index d ->
       mask_test (active_cpu_mask md) d = true <->
       cpu_view <$> cpus s' !! Z.to_nat d = Some (root md, true)).
Proof using All.
  intros I Hc Hx Hon Hp.
  assert (Hmask : forall s', inv s' g -> forall k md d, address_space_metadata s' !! k = Some md ->
    root md <> 0 -> cpu_index d -> mask_test (active_cpu_mask md) d = true <->
    cpu_view <$> cpus s' !! Z.to_nat d = Some (root md, true)).
  { intros s' I' k md d Hk Hr Hd. by apply (iv_mask _ _ I' k md). }
  destruct (decide (p = current_pml4 x)) as [->|Hne].
  { exists true, s. split; [|naive_solver]. unfold vmm_switch_address_space, active_pml4.
    by rewrite (proj2 (Z.eqb_neq _ _) Hp), Hx, Z.eqb_refl. }
  assert (Hdec : may_load s p \/ ~ may_load s p) by apply may_load_dec. destruct Hdec as [Hmay|Hno].
  - destruct (switched_spec s g c x p) as (I' & _ & _ & _ & Ec & Hco); [done..|].
    eexists true, _. split; [by apply (switch_accepts s g c x p)|]. split; [done|]. split; [split; auto|].
    split; [done|]. split; [done|]. split; [done|by apply Hmask].
  - exists false, s. split; [by eapply switch_refuses|]. split; [done|].
    split; [split; [done|intros [?|?]; done]|]. split; [done|]. split; [done|]. split; [done|by apply Hmask].
Qed.

(** * Checks of user memory *)

(** [vmm_user_range_valid] always returns.  It accepts exactly the ranges
    that do not wrap and whose every byte the loaded tables let the user
    access. *)
Theorem user_range_valid_exact s g c address length :
  inv s g -> known s (active_pml4 s c) -> is_u64 address -> is_u64 length ->
  exists b, vmm_user_range_valid s c address length = Some b /\
    (b = true <-> length = 0 \/
      (address <> 0 /\ address + length <= U64_MAX /\
       forall a, address <= a < address + length -> user_walk s (active_pml4 s c) a)).
Proof using All. apply user_range_valid_spec. Qed.

(** The walk of the tables ignores the bits above 47, the CPU does not: it
    faults on an address that is not canonical. *)
Definition canonical (va : Z) : Prop := 0 <= va < 2 ^ 47 \/ 2 ^ 64 - 2 ^ 47 <= va < 2 ^ 64.
Definition accessible s (r va : Z) : Prop := canonical va /\ user_walk s r va.

Lemma alias_path a j : path_of (a + j * 2 ^ 48) = path_of a.
Proof using Type.
  unfold path_of. rewrite !ix_mod by lia.
  assert (H : forall n, 0 <= n <= 39 -> (a + j * 2 ^ 48) / 2 ^ n mod 512 = a / 2 ^ n mod 512).
  { intros n Hn. replace (j * 2 ^ 48) with (j * 2 ^ (48 - n - 9) * 512 * 2 ^ n).
    - rewrite Z.div_add by lia. apply Z.mod_add. done.
    - change 512 with (2 ^ 9). rewrite <- !Z.mul_assoc, <- !Z.pow_add_r by lia. do 2 f_equal. lia. }
  by rewrite !H by lia.
Qed.

(** [vmm_user_range_valid] accepts addresses that no process can access:
    for every byte a process may access, the addresses that differ from it only
    in bits 48 to 63 are accepted as well, although they are not canonical. *)
Theorem user_range_valid_accepts_noncanonical s g c a j :
  inv s g -> known s (active_pml4 s c) -> 0 < a < 2 ^ 47 -> accessible s (active_pml4 s c) a ->
  0 < j < 2 ^ 16 - 1 ->
  vmm_user_range_valid s c (a + j * 2 ^ 48) 1 = Some true /\
  ~ accessible s (active_pml4 s c) (a + j * 2 ^ 48).
Proof using All.
  intros I Hkn Ha [_ Hw] Hj. split.
  - destruct (user_range_valid_spec s g c (a + j * 2 ^ 48) 1 I Hkn) as (b & E & Hb);
      [unfold is_u64; lia|unfold is_u64; lia|]. rewrite E. f_equal. apply Hb. right. split; [lia|].
    split; [unfold U64_MAX; lia|]. intros b' Hb'. replace b' with (a + j * 2 ^ 48) by lia.
    destruct Hw as (tr & Hm & Hu). exists tr. split; [|done]. unfold mmu. by rewrite alias_path.
  - intros [[?|?] _]; lia.
Qed.

End theorems.
(** * A small machine *)

(** An allocator that keeps its free and its used frames as lists: the runs
    below evaluate with it. *)
Record shelf := Shelf { on_shelf : list Z; in_use : list Z }.
#[local] Instance shelf_frames : FrameAllocator shelf :=
  {| alloc_frame a := match on_shelf a with
       | [] => Some (0, a) | p :: l => Some (p, Shelf l (p :: in_use a)) end;
     free_frame a p := if decide (p ∈ in_use a)
       then Some (Shelf (p :: on_shelf a) (filter (fun q => q <> p) (in_use a))) else None |}.
Definition shelf_ok (a : shelf) : Prop :=
  NoDup (on_shelf a ++ in_use a) /\ Forall is_frame (on_shelf a ++ in_use a).

Lemma shelf_alloc_law a :
  shelf_ok a -> exists p a', alloc_frame a = Some (p, a') /\ shelf_ok a' /\
    ((p = 0 /\ forall q, q ∈ in_use a' <-> q ∈ in_use a) \/
     (is_frame p /\ ~ p ∈ in_use a /\ forall q, q ∈ in_use a' <-> q = p \/ q ∈ in_use a)).
Proof.
  intros [Hnd Hf]. cbn. destruct a as [[|p l] u]; cbn in *.
  { exists 0, (Shelf [] u). split; [done|]. split; [done|]. by left. }
  exists p, (Shelf l (p :: u)). apply NoDup_cons in Hnd as [Hp Hnd]. apply Forall_cons in Hf as [Hpf Hf].
  split; [done|]. split; [|right].
  - split; cbn; rewrite <- Permutation_middle; [by apply NoDup_cons|by apply Forall_cons].
  - split; [done|]. split; [|intros q; cbn; by rewrite elem_of_cons]. intros Hin. apply Hp, elem_of_app. by right.
Qed.
Lemma shelf_free_law a p :
  shelf_ok a -> p ∈ in_use a -> exists a', free_frame a p = Some a' /\ shelf_ok a' /\
    forall q, q ∈ in_use a' <-> q ∈ in_use a /\ q <> p.
Proof.
  intros [Hnd Hf] Hp. destruct a as [f u]; cbn in *. rewrite decide_True by done.
  eexists. split; [done|]. apply NoDup_app in Hnd as (N1 & N2 & N3). apply Forall_app in Hf as [F1 F2].
  assert (Hpf : p ∉ f) by (intros Hin; by apply (N2 p)). split; [split; cbn|].
  - apply NoDup_cons. split; [rewrite elem_of_app, list_elem_of_filter; naive_solver|].
    apply NoDup_app. split; [done|]. split; [|by apply NoDup_filter].
    intros q Hq. rewrite list_elem_of_filter. intros [_ Hin]. by apply (N2 q).
  - apply Forall_cons. split; [by rewrite Forall_forall in F2; apply F2|].
    apply Forall_app. split; [done|]. rewrite Forall_forall in F2 |- *. intros q. rewrite list_elem_of_filter.
    intros [_ Hin]. by apply F2.
  - intros q. cbn. rewrite list_elem_of_filter. naive_solver.
Qed.
#[local] Instance shelf_laws : AllocatorLaws shelf :=
  {| alloc_ok := shelf_ok; held a p := p ∈ in_use a; alloc_spec := shelf_alloc_law; free_spec := shelf_free_law |}.

(** Frame 1 is the root of the kernel, fourteen frames are free. *)
Definition sample_shelf : shelf := Shelf ((fun i => i * 4096) <$> seqZ 2 14) [4096].
Lemma sample_shelf_ok : shelf_ok sample_shelf.
Proof. split; [by apply (bool_decide_unpack _)|]. by apply (bool_decide_unpack _). Qed.

Definition sample_start : vmm shelf :=
  VmmState {[ 4096 := zero_table ]} 0 [] false 0 false [Cpu 0 true ∅; Cpu 0 true ∅]
    (Request false 0 [] []) sample_shelf.

(** Each state of a run, and the steps between them. *)
Definition or_else {X} (s : vmm shelf) (o : option (X * vmm shelf)) : vmm shelf :=
  match o with Some (_, s') => s' | None => s end.
Definition run0 : vmm shelf := vmm_set_kernel_pml4 (default sample_start (vmm_init true 0 sample_start)) 0 4096.
Definition run0' : vmm shelf := set_frames (Shelf ((fun i => i * 4096) <$> seqZ 3 13) [8192; 4096]) run0.
Definition boot1 : vmm shelf := or_else run0' (vmm_map_bootstrap_page run0' 0 8192).
Definition boot2 : vmm shelf := or_else boot1 (vmm_unmap_bootstrap_page boot1 0 8192).
Definition run1 : vmm shelf := or_else run0 (vmm_create_address_space run0).
Definition run2 : vmm shelf := set_frames (match alloc_frame (frames run1) with Some (_, a) => a | None => frames run1 end) run1.
Definition run3 : vmm shelf := or_else run2 (vmm_alloc_table run2).
Definition run4 : vmm shelf := or_else run3 (vmm_alloc_table run3).
Definition run5 : vmm shelf := or_else run4 (vmm_alloc_table run4).
Definition sample_flags : Z := Z.lor PTE_READWRITE PTE_USER.
Definition run6 : vmm shelf :=
  or_else run5 (map_commit run5 0 8192 0x400000 12288 sample_flags 0
    (Reservation true (reserve_all [24576; 20480; 16384]))).
Definition run7 : vmm shelf := or_else run6 (vmm_switch_address_space run6 0 8192).

Lemma run0_reachable : reachable (Sys run0 [] []).
Proof.
  apply reach_boot. exists 0, sample_start, 4096, (default sample_start (vmm_init true 0 sample_start)).
  split; [apply sample_shelf_ok|]. split; [by left|]. split; [done|]. split; [by vm_compute|].
  split; [by vm_compute|]. split; [|done].
  intros [|[|d]] x; cbn; intros E; [by injection E as <-|by injection E as <-|done].
Qed.
Lemma run1_reachable : reachable (Sys run1 [] []).
Proof. eapply reach_step; [apply run0_reachable|]. apply (step_create _ _ _ 8192). by vm_compute. Qed.
Lemma run2_reachable : reachable (Sys run2 [] [12288]).
Proof. eapply reach_step; [apply run1_reachable|]. apply step_alloc; by vm_compute. Qed.
Lemma run3_reachable : reachable (Sys run3 [16384] [12288]).
Proof. eapply reach_step; [apply run2_reachable|]. apply step_reserve; by vm_compute. Qed.
Lemma run4_reachable : reachable (Sys run4 [20480; 16384] [12288]).
Proof. eapply reach_step; [apply run3_reachable|]. apply step_reserve; by vm_compute. Qed.
Lemma run5_reachable : reachable (Sys run5 [24576; 20480; 16384] [12288]).
Proof. eapply reach_step; [apply run4_reachable|]. apply step_reserve; by vm_compute. Qed.
Lemma run6_reachable : reachable (Sys run6 [] []).
Proof.
  eapply reach_step; [apply run5_reachable|].
  apply (step_map run5 [24576; 20480; 16384] [12288] [24576; 20480; 16384] [] 12288 [] 0 8192 0x400000 sample_flags
    (Some no_cpus) (Reservation false [nothing_reserved; nothing_reserved; nothing_reserved]) run6);
    [done|done|done|done|done|done|done|by vm_compute|by vm_compute].
Qed.
Lemma run7_reachable : reachable (Sys run7 [] []).
Proof.
  eapply reach_step; [apply run6_reachable|].
  apply (step_switch run6 [] [] 0 (Cpu 4096 true ∅) 8192 true run7); [done|by vm_compute|done|by vm_compute].
Qed.

Opaque run0 run1 run2 run3 run4 run5 run6 run7.

Definition run_record (mask : list Z) (l : list Z) : metadata :=
  Metadata 8192 [16384; 20480; 24576] l mask false true.

Lemma run6_inv : exists g, inv run6 g.
Proof. destruct (sys_reachable_ok _ run6_reachable) as (g & I & _). exists g. exact I. Qed.
Lemma run7_inv : exists g, inv run7 g.
Proof. destruct (sys_reachable_ok _ run7_reachable) as (g & I & _). exists g. exact I. Qed.

Definition sample : @sys shelf := Sys run7 [] [].
Definition sample_record : metadata := run_record [1; 0; 0; 0] [12288].
Definition sample_page : translation := Translation 12288 true true.
Lemma sample_reachable : reachable sample.
Proof. exact run7_reachable. Qed.
Lemma sample_mmu : mmu (vm sample) (root sample_record) 0x400000 = Some sample_page.
Proof. by vm_compute. Qed.
Lemma sample_lookup : address_space_metadata (vm sample) !! 0%nat = Some sample_record.
Proof. by vm_compute. Qed.
Lemma sample_known : known (vm sample) 4096.
Proof. left. by vm_compute. Qed.
Lemma sample_root_nonzero : root sample_record <> 0.
Proof. done. Qed.

Lemma vmm_isolation_witness :
  mmu (vm sample) (root sample_record) 0x400000 = Some sample_page /\
  ~ page_table (vm sample) 4096 [] (t_frame sample_page).
Proof.
  split; [exact sample_mmu|]. destruct (vmm_isolation sample sample_reachable) as [H _].
  destruct (H 0%nat sample_record 0x400000 sample_page sample_lookup sample_root_nonzero sample_mmu eq_refl)
    as (_ & _ & _ & _ & Hno & _).
  exact (Hno 4096 [] sample_known).
Defined.

Definition sample_hw : machine := Machine true true (fun _ => true).
Lemma sample_hw_ok : machine_ok sample_hw.
Proof. done. Qed.

Lemma coherent_empty (s : vmm shelf) : Forall (fun x => tlb x = ∅) (cpus s) -> coherent s.
Proof.
  intros H d x pg tr Hx Ht. rewrite Forall_lookup in H. rewrite (H d x Hx) in Ht.
  by rewrite lookup_empty in Ht.
Qed.
Lemma sample_root : 8192 <> 0.
Proof. done. Qed.



Lemma run7_record : address_space_metadata run7 !! 0%nat = Some (run_record [1; 0; 0; 0] [12288]).
Proof. by vm_compute. Qed.
Lemma run7_coherent : coherent run7.
Proof. apply coherent_empty. vm_compute. by repeat constructor. Qed.

Lemma run7_live : known run7 8192.
Proof.
  right. exists 0%nat, (run_record [1; 0; 0; 0] [12288]). split; [exact run7_record|].
  split; [reflexivity|exact sample_root].
Qed.
Lemma run7_mmu : mmu run7 8192 0x400000 = Some (Translation 12288 true true).
Proof. by vm_compute. Qed.

Lemma unmap_user_page_correct_witness :
  exists s', vmm_unmap_user_page sample_hw true run7 1 8192 0x400000 = Some (Some 12288, s') /\
    mmu s' 8192 0x400000 = None /\ coherent s'.
Proof.
  destruct run7_inv as [g I].
  destruct (unmap_user_page_correct sample_hw true run7 g 1 0%nat (run_record [1; 0; 0; 0] [12288]) 0x400000
    sample_hw_ok I run7_coherent (conj Z.le_0_1 eq_refl) run7_record sample_root)
    as (r & s' & g' & E & _ & C & Hr & _ & Hf); [done|done|].
  assert (r = Some 12288) as ->.
  { rewrite (Hr eq_refl eq_refl). cbn [root run_record]. rewrite run7_mmu. reflexivity. }
  destruct (Hf _ eq_refl) as (Ht & _). exists s'. split; [exact E|]. split; [|exact C].
  rewrite (Ht 8192 0x400000 run7_live). apply decide_True. split; reflexivity.
Defined.

Lemma vmm_map_correct_witness :
  exists s', vmm_map sample_hw run7 0 (kernel_pml4 run7) IOREMAP_BASE 36864 PTE_READWRITE = Some (true, s') /\
    mmu s' 8192 IOREMAP_BASE = mmu s' (kernel_pml4 run7) IOREMAP_BASE /\ coherent s'.
Proof.
  destruct run7_inv as [g I].
  destruct (vmm_map_correct sample_hw run7 g 0 IOREMAP_BASE 36864 PTE_READWRITE sample_hw_ok I)
    as (ok & s' & g' & E & _ & _ & Ht & Hok & Hc).
  assert (ok = true) as ->.
  { apply Hok. split; [by vm_compute|]. split; [by vm_compute|]. split; [done|]. split; by vm_compute. }
  exists s'. split; [exact E|]. split; [|apply Hc; [exact run7_coherent|by vm_compute]].
  exact (km_high _ _ _ _ _ _ _ (Ht eq_refl) 0%nat _ IOREMAP_BASE run7_record sample_root eq_refl).
Defined.

Lemma run7_unused : exists md, md ∈ address_space_metadata run7 /\ root md = 0 /\ destroy_pending md = false.
Proof.
  exists unused_metadata. split; [|split; reflexivity].
  apply (list_elem_of_lookup_2 _ 1%nat). by vm_compute.
Qed.

Lemma create_address_space_correct_witness :
  exists r s', vmm_create_address_space run7 = Some (r, s') /\ r <> 0 /\ published s' r.
Proof.
  destruct run7_inv as [g I].
  destruct (create_address_space_correct run7 g I) as (r & s' & g' & E & C). exists r, s'. split; [exact E|].
  assert (Hr : r <> 0).
  { apply (cr_when _ _ _ _ _ C). split; [by vm_compute|]. exact run7_unused. }
  split; [exact Hr|]. by apply (cr_new _ _ _ _ _ C).
Defined.

Lemma run6_record : address_space_metadata run6 !! 0%nat = Some (run_record [0; 0; 0; 0] [12288]).
Proof. by vm_compute. Qed.


Lemma switch_address_space_correct_witness :
  exists s', vmm_switch_address_space run6 1 8192 = Some (true, s') /\ cpus s' !! 1%nat = Some (Cpu 8192 true ∅).
Proof.
  destruct run6_inv as [g I].
  assert (Hx : cpus run6 !! Z.to_nat 1 = Some (Cpu 0 true ∅)) by (by vm_compute).
  destruct (switch_address_space_correct run6 g 1 (Cpu 0 true ∅) 8192 I (conj Z.le_0_1 eq_refl) Hx eq_refl sample_root)
    as (ok & s' & E & _ & Hok & _ & Hc & _).
  assert (ok = true) as ->.
  { apply Hok. right. right. exists 0%nat, (run_record [0; 0; 0; 0] [12288]).
    split; [exact run6_record|split; reflexivity]. }
  exists s'. split; [exact E|]. rewrite Hc by done. by vm_compute.
Defined.

Lemma run7_known : known run7 (active_pml4 run7 0).
Proof.
  replace (active_pml4 run7 0) with 8192 by (by vm_compute). exact run7_live.
Qed.
Lemma run7_walk a : page_of a = page_of 0x400000 -> user_walk run7 (active_pml4 run7 0) a.
Proof.
  intros Hp. apply (user_walk_page run7 _ 0x400000); [done|]. exists (Translation 12288 true true).
  split; by vm_compute.
Qed.

Lemma user_range_valid_exact_witness : vmm_user_range_valid run7 0 0x400ff0 16 = Some true.
Proof.
  destruct run7_inv as [g I].
  destruct (user_range_valid_exact run7 g 0 0x400ff0 16 I run7_known) as (b & E & Hb); [done|done|].
  rewrite E. f_equal. apply Hb. right. split; [done|]. split; [done|]. intros a Ha. apply run7_walk.
  unfold page_of, VMM_PAGE_SIZE. Z.div_mod_to_equations. lia.
Defined.

Lemma user_range_valid_accepts_noncanonical_witness :
  vmm_user_range_valid run7 0 (0x400000 + 1 * 2 ^ 48) 1 = Some true /\
  ~ accessible run7 (active_pml4 run7 0) (0x400000 + 1 * 2 ^ 48).
Proof.
  destruct run7_inv as [g I].
  apply (user_range_valid_accepts_noncanonical run7 g 0 0x400000 1 I run7_known); [done| |done].
  split; [by left|]. by apply run7_walk.
Defined.

(** * The page of the start-up code *)

(** Mapping a reserved page for the start-up of a CPU and removing it again
    is not neutral: [vmm_unmap_bootstrap_page] frees the mapped page, which its
    caller had reserved, in place of the lowest table, which stays allocated for
    ever.  Frame 2 is the reserved page, frames 3 to 5 are the tables. *)
Theorem unmap_bootstrap_page_frees_the_page :
  exists s1 s2, vmm_map_bootstrap_page run0' 0 8192 = Some (true, s1) /\
    vmm_unmap_bootstrap_page s1 0 8192 = Some (true, s2) /\
    in_use (frames run0') = [8192; 4096] /\
    in_use (frames s1) = [20480; 16384; 12288; 8192; 4096] /\
    in_use (frames s2) = [20480; 4096] /\
    mem s2 !! kernel_pml4 s2 = Some zero_table.
Proof.
  exists boot1, boot2. split; [by vm_compute|]. split; [by vm_compute|]. split; [by vm_compute|].
  split; [by vm_compute|]. split; by vm_compute.
Qed.

End VmmTheorems.
