(* ===== verification/Password.v ===== *)
(** Password records: [kernel/src/password.c] and [kernel/src/entropy.c].

    SHA-256 is modelled with its streaming context (the 64-byte block buffer,
    the bit count and the chaining state), HMAC and PBKDF2 on top of it, and the
    record operations.  The theorems compare them with FIPS 180-4 padding,
    RFC 2104 and RFC 8018.  What the processor's random number instructions
    answer is an argument.  Clearing of secrets is not visible in the results
    and left out, except where a cleared array is used afterwards. *)
From S2P Require Import Prelude.

Module Password.

(** * SHA-256 *)

Record sha256_context_t := Sha { state : list Z; bit_count : Z; block : list Z; block_length : nat }.

(** Four words, the first in the highest bits. *)
Definition row (x : Z) : list Z := (fun k => u32 (Z.shiftr x k)) <$> [96; 64; 32; 0].
Definition sha256_constants : list Z := Eval cbv in mjoin (row <$> [
  0x428a2f9871374491b5c0fbcfe9b5dba5; 0x3956c25b59f111f1923f82a4ab1c5ed5;
  0xd807aa9812835b01243185be550c7dc3; 0x72be5d7480deb1fe9bdc06a7c19bf174;
  0xe49b69c1efbe47860fc19dc6240ca1cc; 0x2de92c6f4a7484aa5cb0a9dc76f988da;
  0x983e5152a831c66db00327c8bf597fc7; 0xc6e00bf3d5a7914706ca635114292967;
  0x27b70a852e1b21384d2c6dfc53380d13; 0x650a7354766a0abb81c2c92e92722c85;
  0xa2bfe8a1a81a664bc24b8b70c76c51a3; 0xd192e819d6990624f40e3585106aa070;
  0x19a4c1161e376c082748774c34b0bcb5; 0x391c0cb34ed8aa4a5b9cca4f682e6ff3;
  0x748f82ee78a5636f84c878148cc70208; 0x90befffaa4506cebbef9a3f7c67178f2 ]).
Definition initial_state : list Z := Eval cbv in mjoin (row <$> [
  0x6a09e667bb67ae853c6ef372a54ff53a; 0x510e527f9b05688c1f83d9ab5be0cd19 ]).

Definition rotate_right (value count : Z) : Z :=
  Z.lor (Z.shiftr value count) (u32 (Z.shiftl value (32 - count))).
Definition read_be32 (data : list Z) (at_ : nat) : Z :=
  Z.lor (Z.lor (Z.lor (Z.shiftl (data !!! at_) 24) (Z.shiftl (data !!! (at_ + 1)%nat) 16))
    (Z.shiftl (data !!! (at_ + 2)%nat) 8)) (data !!! (at_ + 3)%nat).
Definition write_be32 (value : Z) : list Z :=
  [u8 (Z.shiftr value 24); u8 (Z.shiftr value 16); u8 (Z.shiftr value 8); u8 value].

(** The second loop of [sha256_transform], from [index = length words]. *)
Definition next_word (words : list Z) (index : nat) : Z :=
  let w15 := words !!! (index - 15)%nat in
  let w2 := words !!! (index - 2)%nat in
  let s0 := Z.lxor (Z.lxor (rotate_right w15 7) (rotate_right w15 18)) (Z.shiftr w15 3) in
  let s1 := Z.lxor (Z.lxor (rotate_right w2 17) (rotate_right w2 19)) (Z.shiftr w2 10) in
  u32 (words !!! (index - 16)%nat + s0 + words !!! (index - 7)%nat + s1).
Fixpoint expand (count : nat) (words : list Z) : list Z :=
  match count with
  | O => words
  | S count => expand count (words ++ [next_word words (length words)])
  end.
Definition schedule (blk : list Z) : list Z :=
  expand 48 ((fun i => read_be32 blk (4 * i)) <$> seq 0 16).

Record working := Working { wa : Z; wb : Z; wc : Z; wd : Z; we : Z; wf : Z; wg : Z; wh : Z }.
Definition round (r : working) (kw : Z * Z) : working :=
  let '(Working a b c d e f g h) := r in
  let s1 := Z.lxor (Z.lxor (rotate_right e 6) (rotate_right e 11)) (rotate_right e 25) in
  let choose := Z.lxor (Z.land e f) (Z.land (u32 (Z.lnot e)) g) in
  let temporary1 := u32 (h + s1 + choose + fst kw + snd kw) in
  let s0 := Z.lxor (Z.lxor (rotate_right a 2) (rotate_right a 13)) (rotate_right a 22) in
  let majority := Z.lxor (Z.lxor (Z.land a b) (Z.land a c)) (Z.land b c) in
  let temporary2 := u32 (s0 + majority) in
  Working (u32 (temporary1 + temporary2)) a b c (u32 (d + temporary1)) e f g.
Definition sha256_transform (st blk : list Z) : list Z :=
  let r := fold_left round (zip sha256_constants (schedule blk))
    (Working (st !!! 0%nat) (st !!! 1%nat) (st !!! 2%nat) (st !!! 3%nat)
       (st !!! 4%nat) (st !!! 5%nat) (st !!! 6%nat) (st !!! 7%nat)) in
  zip_with (fun x y => u32 (x + y)) st [wa r; wb r; wc r; wd r; we r; wf r; wg r; wh r].

Definition sha256_init : sha256_context_t := Sha initial_state 0 (replicate 64 0) 0.

(** [memcpy] into an array at an offset. *)
Definition put (l : list Z) (at_ : nat) (src : list Z) : list Z :=
  take at_ l ++ src ++ drop (at_ + length src) l.

(** The loop of [sha256_update]; every iteration copies a byte or more. *)
Fixpoint update_loop (fuel : nat) (c : sha256_context_t) (bytes : list Z) : sha256_context_t :=
  match fuel with
  | O => c
  | S fuel =>
      match bytes with
      | [] => c
      | _ =>
          let available := (64 - block_length c)%nat in
          let amount := if (length bytes <? available)%nat then length bytes else available in
          let blk := put (block c) (block_length c) (take amount bytes) in
          let len := (block_length c + amount)%nat in
          let c := if (len =? 64)%nat then Sha (sha256_transform (state c) blk) (bit_count c) blk 0
                   else Sha (state c) (bit_count c) blk len in
          update_loop fuel c (drop amount bytes)
      end
  end.
Definition sha256_update (c : sha256_context_t) (data : list Z) : sha256_context_t :=
  match data with
  | [] => c
  | _ =>
      update_loop (length data)
        (Sha (state c) (u64 (bit_count c + u64 (Z.of_nat (length data) * 8))) (block c) (block_length c)) data
  end.

(** [while (block_length < limit) block[block_length++] = 0]. *)
Fixpoint zero_fill (fuel : nat) (blk : list Z) (from limit : nat) : list Z :=
  match fuel with
  | O => blk
  | S fuel => if (from <? limit)%nat then zero_fill fuel (put blk from [0]) (from + 1) limit else blk
  end.
Definition be64 (v : Z) : list Z := (fun i => u8 (Z.shiftr v (8 * Z.of_nat (7 - i)))) <$> seq 0 8.
Definition sha256_final (c : sha256_context_t) : list Z :=
  let blk := put (block c) (block_length c) [0x80] in
  let len := (block_length c + 1)%nat in
  let '(st, blk, len) :=
    if (56 <? len)%nat
    then let blk := zero_fill 64 blk len 64 in (sha256_transform (state c) blk, blk, 0%nat)
    else (state c, blk, len) in
  let blk := zero_fill 64 blk len 56 in
  let blk := put blk 56 (be64 (bit_count c)) in
  mjoin (write_be32 <$> sha256_transform st blk).

(** * HMAC and PBKDF2 *)

Definition xor_all (x : Z) (l : list Z) : list Z := (fun b => Z.lxor b x) <$> l.
Definition hmac_sha256 (key data : list Z) : list Z :=
  let key_block := replicate 64 0 in
  let key_block :=
    if (64 <? length key)%nat
    then put key_block 0 (sha256_final (sha256_update sha256_init key))
    else put key_block 0 key in
  let key_block := xor_all 0x36 key_block in
  let inner := sha256_final (sha256_update (sha256_update sha256_init key_block) data) in
  let key_block := xor_all (Z.lxor 0x36 0x5c) key_block in
  sha256_final (sha256_update (sha256_update sha256_init key_block) inner).

Definition xor_lists (a b : list Z) : list Z := zip_with Z.lxor a b.
Fixpoint pbkdf2_rounds (count : nat) (password current accumulated : list Z) : list Z :=
  match count with
  | O => accumulated
  | S count =>
      let current := hmac_sha256 password current in
      pbkdf2_rounds count password current (xor_lists accumulated current)
  end.
Definition pbkdf2_sha256 (password salt : list Z) (iterations : Z) : list Z :=
  let accumulated := hmac_sha256 password (salt ++ [0; 0; 0; 1]) in
  pbkdf2_rounds (Z.to_nat (iterations - 1)) password accumulated accumulated.

(** * Random numbers *)

(** What CPUID says, and what the [n]-th use of RDSEED or RDRAND answers: the
    register and the carry flag. *)
Record processor := Processor { has_rdrand : bool; has_rdseed : bool; answer : nat -> Z * bool }.

Definition entropy_available (p : processor) : bool := has_rdrand p || has_rdseed p.
Fixpoint attempts (p : processor) (count : nat) (n : nat) : option Z * nat :=
  match count with
  | O => (None, n)
  | S count => let '(value, ready) := answer p n in
      if ready : bool then (Some value, S n) else attempts p count (S n)
  end.
Definition entropy_random_u64 (p : processor) (n : nat) : option Z * nat :=
  let '(r, n) := if has_rdseed p then attempts p 16 n else (None, n) in
  match r with
  | Some v => (Some v, n)
  | None => if has_rdrand p then attempts p 16 n else (None, n)
  end.

Definition le64 (v : Z) : list Z := (fun i => u8 (Z.shiftr v (8 * Z.of_nat i))) <$> seq 0 8.
(** Eight bytes per iteration, the last one cut to what is left. *)
Fixpoint random_loop (fuel : nat) (p : processor) (n : nat) (output : list Z) (offset : nat)
    : bool * list Z * nat :=
  match fuel with
  | O => (true, output, n)
  | S fuel =>
      if (offset <? length output)%nat then
        let left := (length output - offset)%nat in
        let amount := if (left <? 8)%nat then left else 8%nat in
        match entropy_random_u64 p n with
        | (None, n) => (false, output, n)
        | (Some v, n) => random_loop fuel p n (put output offset (take amount (le64 v))) (offset + 8)
        end
      else (true, output, n)
  end.
Definition random_bytes (p : processor) (n : nat) (output : list Z) : bool * list Z * nat :=
  random_loop (length output) p n output 0.

(** * Password records *)

Definition IDENTITY_PASSWORD_MAX_LENGTH : Z := 128.
Definition IDENTITY_PASSWORD_SALT_BYTES : nat := 16.
Definition IDENTITY_PASSWORD_HASH_BYTES : nat := 32.
Definition IDENTITY_PASSWORD_ITERATIONS : Z := 120000.
Definition IDENTITY_PASSWORD_MIN_ITERATIONS : Z := 10000.
Definition IDENTITY_PASSWORD_MAX_ITERATIONS : Z := 1000000.
Definition IDENTITY_AUTH_NONE : Z := 0.
Definition IDENTITY_AUTH_PBKDF2_SHA256 : Z := 1.

Record identity_authentication_t := Authentication {
  algorithm : Z; iterations : Z; salt : list Z; hash : list Z }.
#[export] Instance authentication_eq_dec : EqDecision identity_authentication_t.
Proof. solve_decision. Defined.

Definition all_zero (l : list Z) : bool := forallb (fun b => b =? 0) l.
Definition password_auth_valid (a : identity_authentication_t) : bool :=
  if algorithm a =? IDENTITY_AUTH_NONE then
    (iterations a =? 0) && all_zero (salt a) && all_zero (hash a)
  else
    (algorithm a =? IDENTITY_AUTH_PBKDF2_SHA256) &&
    (IDENTITY_PASSWORD_MIN_ITERATIONS <=? iterations a) &&
    (iterations a <=? IDENTITY_PASSWORD_MAX_ITERATIONS).
Definition password_auth_available (p : processor) : bool := entropy_available p.

(** A password is the bytes before its terminator. *)
Definition password_auth_generate (p : processor) (n : nat) (a : identity_authentication_t)
    (password : list Z) : bool * identity_authentication_t * nat :=
  let len := Z.of_nat (length password) in
  if (len =? 0) || (IDENTITY_PASSWORD_MAX_LENGTH <? len) then (false, a, n)
  else
    let '(ok, slt, n) := random_bytes p n (salt a) in
    if negb ok then (false, Authentication (algorithm a) (iterations a) slt (hash a), n)
    else
      let a := Authentication IDENTITY_AUTH_PBKDF2_SHA256 IDENTITY_PASSWORD_ITERATIONS slt
        (pbkdf2_sha256 password slt IDENTITY_PASSWORD_ITERATIONS) in
      (password_auth_valid a, a, n).

Definition differences (a b : list Z) : Z :=
  fold_left (fun d xy => Z.lor d (Z.lxor (fst xy) (snd xy))) (zip a b) 0.
Definition password_auth_verify (a : identity_authentication_t) (password : list Z) : bool :=
  if negb (algorithm a =? IDENTITY_AUTH_PBKDF2_SHA256) || negb (password_auth_valid a) then false
  else if IDENTITY_PASSWORD_MAX_LENGTH <? Z.of_nat (length password) then false
  else differences (pbkdf2_sha256 password (salt a) (iterations a)) (hash a) =? 0.

(** * The streaming context *)

(** FIPS 180-4, 5.1.1 and 6.2: the message is padded with a one bit, zeros up to
    56 modulo 64 and its length in bits; the chaining value absorbs the blocks
    in turn. *)
Definition pad (m : list Z) : list Z :=
  m ++ 0x80 :: replicate (Z.to_nat ((55 - Z.of_nat (length m)) mod 64)) 0 ++
  be64 (u64 (Z.of_nat (length m) * 8)).
Definition chunks (l : list Z) : list (list Z) :=
  (fun i => take 64 (drop (64 * i) l)) <$> seq 0 (length l / 64).
Definition SHA256 (m : list Z) : list Z :=
  mjoin (write_be32 <$> fold_left sha256_transform (chunks (pad m)) initial_state).




Lemma chunks_snoc q full b :
  length full = (64 * q)%nat -> length b = 64%nat -> chunks (full ++ b) = chunks full ++ [b].
Proof.
  intros Hf Hb. unfold chunks.
  rewrite length_app, Hf, Hb. replace (64 * q + 64)%nat with ((q + 1) * 64)%nat by lia.
  replace (64 * q)%nat with (q * 64)%nat by lia. rewrite !Nat.div_mul by lia.
  rewrite seq_app, fmap_app. f_equal.
  - apply list_fmap_ext. intros i j Hij. apply lookup_seq in Hij as [-> Hi]. cbn [Nat.add].
    rewrite drop_app_le by lia. by rewrite take_app_le by (rewrite length_drop; lia).
  - cbn [seq fmap list_fmap]. f_equal. rewrite drop_app_ge by lia.
    replace (64 * (0 + q) - length full)%nat with 0%nat by lia. rewrite drop_0. apply take_ge. lia.
Qed.

(** [c] has absorbed the message [m]. *)
Record absorbed (c : sha256_context_t) (m : list Z) : Prop := {
  ab_split : exists q full, m = full ++ take (block_length c) (block c) /\ length full = (64 * q)%nat /\
    state c = fold_left sha256_transform (chunks full) initial_state;
  ab_block : length (block c) = 64%nat;
  ab_length : (block_length c < 64)%nat;
  ab_count : bit_count c = u64 (Z.of_nat (length m) * 8);
}.

Lemma absorbed_init : absorbed sha256_init [].
Proof. split; [|done|cbn; lia|done]. exists 0%nat, []. done. Qed.

Lemma length_put l at_ src : (at_ + length src <= length l)%nat -> length (put l at_ src) = length l.
Proof. intros H. unfold put. rewrite !length_app, length_take, length_drop. lia. Qed.
Lemma take_put l at_ src :
  (at_ + length src <= length l)%nat -> take (at_ + length src) (put l at_ src) = take at_ l ++ src.
Proof.
  intros H. unfold put. rewrite app_assoc. apply take_app_length'. rewrite length_app, length_take. lia.
Qed.

(** One iteration of the copying loop, whatever the bit count. *)
Definition holds (c : sha256_context_t) (m : list Z) : Prop :=
  exists q full, m = full ++ take (block_length c) (block c) /\ length full = (64 * q)%nat /\
    state c = fold_left sha256_transform (chunks full) initial_state /\
    length (block c) = 64%nat /\ (block_length c < 64)%nat.

Definition amount_of (c : sha256_context_t) (bytes : list Z) : nat :=
  if (length bytes <? 64 - block_length c)%nat then length bytes else (64 - block_length c)%nat.
Definition filled (c : sha256_context_t) (amount : nat) (bytes : list Z) : sha256_context_t :=
  let blk := put (block c) (block_length c) (take amount bytes) in
  if (block_length c + amount =? 64)%nat then Sha (sha256_transform (state c) blk) (bit_count c) blk 0
  else Sha (state c) (bit_count c) blk (block_length c + amount).
Lemma update_loop_cons fuel c b bs :
  update_loop (S fuel) c (b :: bs) =
  update_loop fuel (filled c (amount_of c (b :: bs)) (b :: bs)) (drop (amount_of c (b :: bs)) (b :: bs)).
Proof. done. Qed.

Lemma update_loop_holds fuel c m bytes :
  holds c m -> (length bytes <= fuel)%nat ->
  holds (update_loop fuel c bytes) (m ++ bytes) /\ bit_count (update_loop fuel c bytes) = bit_count c.
Proof.
  revert c m bytes. induction fuel as [|fuel IH]; intros c m bytes H Hf.
  { destruct bytes; [|cbn in Hf; lia]. by rewrite app_nil_r. }
  destruct bytes as [|b0 bs]; [cbn; by rewrite app_nil_r|].
  rewrite update_loop_cons. set (bytes := b0 :: bs) in *. unfold amount_of in *.
  set (amount := if (_ <? _)%nat then _ else _) in *.
  destruct H as (q & full & -> & Hq & Hs & Hb & Hl).
  assert (Ha : (0 < amount <= length bytes /\ block_length c + amount <= 64 /\
    (block_length c + amount = 64 \/ amount = length bytes))%nat).
  { unfold amount. assert (0 < length bytes)%nat by (cbn; lia).
    destruct (Nat.ltb_spec (length bytes) (64 - block_length c)); lia. }
  assert (Ht : length (take amount bytes) = amount) by (rewrite length_take; lia).
  assert (Hp : take (block_length c + amount) (put (block c) (block_length c) (take amount bytes)) =
    take (block_length c) (block c) ++ take amount bytes).
  { rewrite <- Ht at 1. apply take_put. lia. }
  assert (Hpl : length (put (block c) (block_length c) (take amount bytes)) = 64%nat)
    by (rewrite length_put; lia).
  set (c' := filled c amount bytes).
  assert (Hd : (full ++ take (block_length c) (block c)) ++ bytes =
    ((full ++ take (block_length c) (block c)) ++ take amount bytes) ++ drop amount bytes).
  { by rewrite <- (app_assoc _ (take amount bytes)), take_drop. }
  rewrite Hd. destruct (IH c' ((full ++ take (block_length c) (block c)) ++ take amount bytes) (drop amount bytes))
    as [H1 H2].
  - unfold c', filled. destruct (Nat.eqb_spec (block_length c + amount) 64) as [E|E].
    + rewrite E, take_ge in Hp by lia. exists (q + 1)%nat, (full ++ put (block c) (block_length c) (take amount bytes)).
      cbn [block_length block state]. rewrite Hp, app_nil_r, app_assoc. split; [done|].
      split; [rewrite <- app_assoc, <- Hp, length_app; lia|].
      rewrite <- app_assoc, <- Hp, (chunks_snoc q), fold_left_app, <- Hs by done.
      split; [done|]. split; [done|lia].
    + exists q, full. cbn [block_length block state]. rewrite Hp, app_assoc.
      split; [done|]. split; [done|]. split; [done|]. split; [done|lia].
  - rewrite length_drop. lia.
  - split; [done|]. rewrite H2. unfold c', filled. by destruct (_ =? 64)%nat.
Qed.

Lemma update_absorbs c m data : absorbed c m -> absorbed (sha256_update c data) (m ++ data).
Proof.
  intros [H1 H2 H3 H4]. destruct data as [|b0 bs]; [cbn; by rewrite app_nil_r|].
  set (data := b0 :: bs). unfold sha256_update. set (c0 := Sha _ _ _ _).
  assert (Hh : holds c0 m). { destruct H1 as (q & full & E1 & E2 & E3). by exists q, full. }
  destruct (update_loop_holds (length data) c0 m data Hh) as [(q & full & E1 & E2 & E3 & E4 & E5) Ec]; [done|].
  change (sha256_update c data) with (update_loop (length data) c0 data).
  split; [by exists q, full|done|done|]. change (match data with [] => c | _ :: _ => _ end) with (update_loop (length data) c0 data).
  rewrite Ec. cbn [bit_count c0]. rewrite H4, length_app. mach.
Qed.


(** ** The final blocks *)

Lemma put_after l at_ x at2 y :
  at2 = (at_ + length x)%nat -> (at_ + length x + length y <= length l)%nat ->
  put (put l at_ x) at2 y = put l at_ (x ++ y).
Proof.
  intros -> H. unfold put at 1. rewrite take_put by lia. unfold put. rewrite length_app.
  rewrite <- !app_assoc. do 3 f_equal. rewrite app_assoc, drop_app_ge; rewrite length_app, length_take; [|lia].
  rewrite drop_drop. f_equal. lia.
Qed.
Lemma zero_fill_put fuel blk from limit :
  (from <= limit <= length blk)%nat -> (limit - from <= fuel)%nat ->
  zero_fill fuel blk from limit = put blk from (replicate (limit - from) 0).
Proof.
  revert blk from. induction fuel as [|fuel IH]; intros blk from H Hf; cbn [zero_fill].
  { replace (limit - from)%nat with 0%nat by lia. unfold put. cbn. rewrite Nat.add_0_r. by rewrite take_drop. }
  destruct (Nat.ltb_spec from limit) as [Hl|Hl].
  - rewrite IH by (rewrite ?length_put; cbn; lia). replace (limit - from)%nat with (S (limit - (from + 1))) by lia.
    rewrite put_after by (rewrite ?length_replicate; cbn; lia).
    done.
  - replace (limit - from)%nat with 0%nat by lia. unfold put. cbn. rewrite Nat.add_0_r. by rewrite take_drop.
Qed.
Lemma put_all l at_ src : (at_ + length src = length l)%nat -> put l at_ src = take at_ l ++ src.
Proof. intros H. unfold put. rewrite drop_ge by lia. by rewrite app_nil_r. Qed.
Lemma length_be64 v : length (be64 v) = 8%nat.
Proof. done. Qed.
Ltac lens :=
  repeat first [rewrite length_app|rewrite length_replicate|rewrite length_take|rewrite length_be64];
  cbn [length]; rewrite ?length_replicate; lia.

Lemma final_one l n v :
  length l = 64%nat -> (n <= 55)%nat ->
  put (zero_fill 64 (put l n [0x80]) (n + 1) 56) 56 (be64 v) = take n l ++ 0x80 :: replicate (55 - n) 0 ++ be64 v.
Proof.
  intros Hl Hn. rewrite zero_fill_put by (rewrite ?length_put by (cbn; lia); lia).
  replace (56 - (n + 1))%nat with (55 - n)%nat by lia.
  rewrite (put_after l n [0x80]) by lens. rewrite put_after by lens. rewrite put_all by lens.
  by rewrite <- app_assoc.
Qed.
Lemma final_two l n :
  length l = 64%nat -> (56 <= n < 64)%nat ->
  zero_fill 64 (put l n [0x80]) (n + 1) 64 = take n l ++ 0x80 :: replicate (63 - n) 0.
Proof.
  intros Hl Hn. rewrite zero_fill_put by (rewrite ?length_put by (cbn; lia); lia).
  replace (64 - (n + 1))%nat with (63 - n)%nat by lia.
  rewrite put_after by lens. rewrite put_all by lens. done.
Qed.
Lemma final_rest l v :
  length l = 64%nat -> put (zero_fill 64 l 0 56) 56 (be64 v) = replicate 56 0 ++ be64 v.
Proof.
  intros Hl. rewrite zero_fill_put by lia.
  change (56 - 0)%nat with 56%nat.
  rewrite put_after by (rewrite ?length_replicate, ?length_be64; lia). rewrite put_all; [done|].
  rewrite length_app, length_replicate, length_be64, Hl. done.
Qed.

Lemma final_absorbed c m : absorbed c m -> sha256_final c = SHA256 m.
Proof.
  intros [(q & full & Em & Hq & Hs) Hb Hl Hc]. set (n := block_length c) in *.
  assert (Hn : length m = (64 * q + n)%nat) by (rewrite Em, length_app, length_take; lia).
  unfold sha256_final, SHA256. fold n. do 2 f_equal. destruct (Nat.ltb_spec 56 (n + 1)) as [H|H]; cbv zeta.
  - rewrite final_two, final_rest by (first [done|lens]).
    assert (Ep : pad m = (full ++ (take n (block c) ++ 0x80 :: replicate (63 - n) 0)) ++ (replicate 56 0 ++ be64 (bit_count c))).
    { unfold pad. rewrite Hc, Em at 1. rewrite <- !app_assoc. do 2 f_equal. cbn [app]. f_equal.
      rewrite app_assoc, <- replicate_add. do 3 f_equal. rewrite Hn. rewrite Nat2Z.inj_add, Nat2Z.inj_mul.
      Z.div_mod_to_equations. lia. }
    assert (Hl1 : length (take n (block c) ++ 0x80 :: replicate (63 - n) 0) = 64%nat).
    { rewrite length_app, length_take. cbn [length]. rewrite length_replicate. lia. }
    rewrite Ep, (chunks_snoc (q + 1)), (chunks_snoc q), !fold_left_app, <- Hs by
      (first [done|rewrite length_app, Hl1; lia]). done.
  - rewrite final_one by lia.
    assert (Ep : pad m = full ++ (take n (block c) ++ 0x80 :: replicate (55 - n) 0 ++ be64 (bit_count c))).
    { unfold pad. rewrite Hc, Em at 1. rewrite <- !app_assoc. do 2 f_equal. cbn [app]. do 3 f_equal.
      rewrite Hn. rewrite Nat2Z.inj_add, Nat2Z.inj_mul. Z.div_mod_to_equations. lia. }
    rewrite Ep, (chunks_snoc q), fold_left_app, <- Hs; [done|done|].
    rewrite length_app, length_take. cbn [length]. rewrite length_app, length_replicate, length_be64. lia.
Qed.


Lemma one_shot m : sha256_final (sha256_update sha256_init m) = SHA256 m.
Proof. apply final_absorbed. exact (update_absorbs _ [] m absorbed_init). Qed.
Lemma two_shots a b : sha256_final (sha256_update (sha256_update sha256_init a) b) = SHA256 (a ++ b).
Proof. apply final_absorbed. apply update_absorbs. exact (update_absorbs _ [] a absorbed_init). Qed.

(** * HMAC and PBKDF2 *)

(** RFC 2104. *)
Definition K0 (key : list Z) : list Z :=
  let k := if (64 <? length key)%nat then SHA256 key else key in k ++ replicate (64 - length k) 0.
Definition HMAC (key data : list Z) : list Z :=
  SHA256 (xor_all 0x5c (K0 key) ++ SHA256 (xor_all 0x36 (K0 key) ++ data)).

Lemma length_sha_state st blk : length st = 8%nat -> length (sha256_transform st blk) = 8%nat.
Proof. intros H. unfold sha256_transform. rewrite length_zip_with, H. done. Qed.
Lemma length_fold_transform bs st : length st = 8%nat -> length (fold_left sha256_transform bs st) = 8%nat.
Proof. revert st. induction bs; intros st H; cbn; [done|]. by apply IHbs, length_sha_state. Qed.
Lemma length_digest l : length (mjoin (write_be32 <$> l)) = (4 * length l)%nat.
Proof.
  induction l as [|x l IH]; [done|].
  change (mjoin (write_be32 <$> (x :: l))) with (write_be32 x ++ mjoin (write_be32 <$> l)).
  rewrite length_app, IH. cbn [length write_be32]. lia.
Qed.
Lemma length_SHA256 m : length (SHA256 m) = 32%nat.
Proof. unfold SHA256. by rewrite length_digest, length_fold_transform. Qed.

Lemma put_front k : (length k <= 64)%nat -> put (replicate 64 0) 0 k = k ++ replicate (64 - length k) 0.
Proof. intros H. unfold put. cbn [take app]. by rewrite drop_replicate. Qed.
Lemma xor_all_xor_all x y l : xor_all y (xor_all x l) = xor_all (Z.lxor x y) l.
Proof.
  unfold xor_all. rewrite <- list_fmap_compose. apply list_fmap_ext. intros i b _. cbn.
  by rewrite Z.lxor_assoc.
Qed.

Lemma hmac_is_HMAC key data : hmac_sha256 key data = HMAC key data.
Proof.
  unfold hmac_sha256. rewrite one_shot. set (kb := if (64 <? length key)%nat then _ else _).
  assert (Ek : kb = K0 key).
  { unfold kb, K0. destruct (Nat.ltb_spec 64 (length key)); apply put_front; [rewrite length_SHA256; lia|lia]. }
  rewrite Ek, xor_all_xor_all, !two_shots. unfold HMAC. change (Z.lxor 0x36 (Z.lxor 0x36 0x5c)) with 0x5c. done.
Qed.

(** RFC 8018, 5.2, for one block of output: [U 0] is the first. *)
Fixpoint U (password slt : list Z) (j : nat) : list Z :=
  match j with
  | O => HMAC password (slt ++ [0; 0; 0; 1])
  | S j => HMAC password (U password slt j)
  end.
Definition PBKDF2 (password slt : list Z) (c : nat) : list Z :=
  fold_left xor_lists (U password slt <$> seq 1 (c - 1)) (U password slt 0).

Lemma rounds_fold n password slt j acc :
  pbkdf2_rounds n password (U password slt j) acc = fold_left xor_lists (U password slt <$> seq (S j) n) acc.
Proof.
  revert j acc. induction n as [|n IH]; intros j acc; cbn; [done|]. rewrite hmac_is_HMAC.
  change (HMAC password (U password slt j)) with (U password slt (S j)). apply IH.
Qed.

Lemma password_hash_facts :
  (forall key data, hmac_sha256 key data = HMAC key data) /\
  forall password slt iter, pbkdf2_sha256 password slt iter = PBKDF2 password slt (Z.to_nat iter).
Proof.
  split; [exact hmac_is_HMAC|]. intros password slt iter. unfold pbkdf2_sha256. rewrite hmac_is_HMAC.
  change (HMAC password (slt ++ [0; 0; 0; 1])) with (U password slt 0). rewrite rounds_fold. unfold PBKDF2.
  do 3 f_equal. lia.
Qed.


(** * Records *)

Lemma length_rounds n password current acc :
  length acc = 32%nat -> length (pbkdf2_rounds n password current acc) = 32%nat.
Proof.
  revert current acc. induction n as [|n IH]; intros current acc H; cbn [pbkdf2_rounds]; [done|].
  apply IH. unfold xor_lists. rewrite length_zip_with, H, hmac_is_HMAC. unfold HMAC. by rewrite length_SHA256.
Qed.
Lemma length_pbkdf2 password slt iter : length (pbkdf2_sha256 password slt iter) = 32%nat.
Proof. apply length_rounds. rewrite hmac_is_HMAC. apply length_SHA256. Qed.

Lemma differences_from l d :
  fold_left (fun d xy => Z.lor d (Z.lxor (fst xy) (snd xy))) l d = 0 <->
  d = 0 /\ Forall (fun xy => fst xy = snd xy) l.
Proof.
  revert d. induction l as [|[x y] l IH]; intros d; cbn.
  { split; [intros ->; split; [done|apply Forall_nil_2]|by intros [-> _]]. }
  rewrite IH, Z.lor_eq_0_iff, Z.lxor_eq_0_iff, Forall_cons. cbn. tauto.
Qed.
Lemma differences_zero a b : length a = length b -> differences a b = 0 <-> a = b.
Proof.
  intros Hl. unfold differences. rewrite differences_from. split.
  - intros [_ H]. revert b Hl H. induction a as [|x a IH]; intros [|y b] Hl H; [done|done|done|].
    cbn in *. apply Forall_cons in H as [H1 H2]. cbn in H1. subst y. f_equal. apply IH; [lia|done].
  - intros ->. split; [done|]. clear. induction b; cbn; [apply Forall_nil_2|]. by apply Forall_cons.
Qed.

(** [password_auth_verify] accepts exactly when the record is a valid PBKDF2
    record, the password has at most 128 bytes, and the stored hash is PBKDF2 of
    the password with the stored salt and iteration count. *)
Lemma verify_exact a password :
  length (hash a) = IDENTITY_PASSWORD_HASH_BYTES ->
  password_auth_verify a password = true <->
  algorithm a = IDENTITY_AUTH_PBKDF2_SHA256 /\
  IDENTITY_PASSWORD_MIN_ITERATIONS <= iterations a <= IDENTITY_PASSWORD_MAX_ITERATIONS /\
  Z.of_nat (length password) <= IDENTITY_PASSWORD_MAX_LENGTH /\
  hash a = PBKDF2 password (salt a) (Z.to_nat (iterations a)).
Proof.
  intros Hh. unfold password_auth_verify. rewrite <- (proj2 password_hash_facts).
  pose proof (differences_zero (pbkdf2_sha256 password (salt a) (iterations a)) (hash a)) as Hd.
  rewrite length_pbkdf2, Hh in Hd. specialize (Hd eq_refl).
  set (h := pbkdf2_sha256 password (salt a) (iterations a)) in *.
  unfold password_auth_valid. destruct (Z.eqb_spec (algorithm a) IDENTITY_AUTH_PBKDF2_SHA256) as [E|E].
  - rewrite E. cbn [Z.eqb Pos.eqb IDENTITY_AUTH_PBKDF2_SHA256 IDENTITY_AUTH_NONE negb orb andb].
    destruct (Z.leb_spec IDENTITY_PASSWORD_MIN_ITERATIONS (iterations a)),
      (Z.leb_spec (iterations a) IDENTITY_PASSWORD_MAX_ITERATIONS); cbn [andb negb]; try (split; [done|lia]).
    destruct (Z.ltb_spec IDENTITY_PASSWORD_MAX_LENGTH (Z.of_nat (length password))); [split; [done|lia]|].
    rewrite Z.eqb_eq, Hd. split; [intros <-; done|]. intros (_ & _ & _ & X). by symmetry.
  - split; [done|]. intros [? _]. done.
Qed.

(** ** Generation *)

Lemma random_sixteen p n slt :
  length slt = IDENTITY_PASSWORD_SALT_BYTES ->
  random_bytes p n slt =
    match entropy_random_u64 p n with
    | (None, n1) => (false, slt, n1)
    | (Some v1, n1) =>
        match entropy_random_u64 p n1 with
        | (None, n2) => (false, put slt 0 (le64 v1), n2)
        | (Some v2, n2) => (true, le64 v1 ++ le64 v2, n2)
        end
    end.
Proof.
  intros Hl. unfold random_bytes. rewrite Hl. unfold IDENTITY_PASSWORD_SALT_BYTES in *.
  change 16%nat with (S (S (S 13))) at 1. generalize 13%nat. intros f. cbn [random_loop]. rewrite Hl.
  change (0 <? 16)%nat with true. change (16 - 0 <? 8)%nat with false. cbv iota.
  destruct (entropy_random_u64 p n) as [[v1|] n1]; [|done].
  assert (L8 : forall v, length (le64 v) = 8%nat) by done.
  assert (H1 : length (put slt 0 (take 8 (le64 v1))) = 16%nat)
    by (rewrite length_put; [exact Hl|rewrite length_take, L8; lia]).
  rewrite H1. change (0 + 8 <? 16)%nat with true. change (16 - (0 + 8) <? 8)%nat with false. cbv iota.
  destruct (entropy_random_u64 p n1) as [[v2|] n2]; [|done].
  assert (E : put (put slt 0 (take 8 (le64 v1))) (0 + 8) (take 8 (le64 v2)) = le64 v1 ++ le64 v2).
  { rewrite !take_ge by (rewrite L8; lia). rewrite put_after by (rewrite ?L8; lia).
    apply put_all. rewrite length_app, !L8. lia. }
  rewrite E. rewrite length_app, !L8. done.
Qed.

Lemma generate_spec p n a password :
  length (salt a) = IDENTITY_PASSWORD_SALT_BYTES ->
  let '(ok, a', n') := password_auth_generate p n a password in
  (ok = true <-> 1 <= Z.of_nat (length password) <= IDENTITY_PASSWORD_MAX_LENGTH /\
     exists v1 n1 v2 n2, entropy_random_u64 p n = (Some v1, n1) /\ entropy_random_u64 p n1 = (Some v2, n2)) /\
  (ok = true -> password_auth_valid a' = true /\ password_auth_verify a' password = true /\
     (exists v1 n1 v2, entropy_random_u64 p n = (Some v1, n1) /\ entropy_random_u64 p n1 = (Some v2, n') /\
        salt a' = le64 v1 ++ le64 v2) /\
     forall other, password_auth_verify a' other = true ->
       PBKDF2 other (salt a') (Z.to_nat IDENTITY_PASSWORD_ITERATIONS) =
       PBKDF2 password (salt a') (Z.to_nat IDENTITY_PASSWORD_ITERATIONS)).
Proof.
  intros Hl. unfold password_auth_generate. rewrite (random_sixteen p n (salt a) Hl).
  destruct ((Z.of_nat (length password) =? 0) || _) eqn:Elen.
  { split; [|done]. split; [done|]. intros [H _]. lia. }
  assert (Hlen : 1 <= Z.of_nat (length password) <= IDENTITY_PASSWORD_MAX_LENGTH) by lia.
  destruct (entropy_random_u64 p n) as [[v1|] n1] eqn:E1; cbn [negb].
  2: { split; [|done]. split; [done|]. intros (_ & ? & ? & ? & ? & [=] & _). }
  destruct (entropy_random_u64 p n1) as [[v2|] n2] eqn:E2; cbn [negb].
  2: { split; [|done]. split; [done|]. intros (_ & w1 & m1 & w2 & m2 & [= <- <-] & X). congruence. }
  set (slt := le64 v1 ++ le64 v2). set (a' := Authentication _ _ slt _).
  assert (Hh : length (hash a') = IDENTITY_PASSWORD_HASH_BYTES) by apply length_pbkdf2.
  assert (Hv : password_auth_valid a' = true) by reflexivity. rewrite Hv.
  assert (Hash : hash a' = PBKDF2 password slt (Z.to_nat IDENTITY_PASSWORD_ITERATIONS)).
  { unfold a'. cbn [hash]. apply (proj2 password_hash_facts). }
  assert (Hall : algorithm a' = IDENTITY_AUTH_PBKDF2_SHA256 /\ iterations a' = IDENTITY_PASSWORD_ITERATIONS /\
    salt a' = slt) by (split; [|split]; reflexivity).
  clearbody a'. destruct Hall as (Ha & Hi & Hs). rewrite Hs. split.
  - split; [intros _|reflexivity]. split; [exact Hlen|]. exists v1, n1, v2, n2. split; [reflexivity|exact E2].
  - intros _. split; [reflexivity|]. split; [|split].
    + apply verify_exact; [exact Hh|]. rewrite Ha, Hi, Hs. split; [reflexivity|].
      split; [split; [discriminate|discriminate]|]. split; [apply Hlen|exact Hash].
    + exists v1, n1, v2. split; [reflexivity|]. split; [exact E2|reflexivity].
    + intros other Ho. apply verify_exact in Ho as (_ & _ & _ & Ho); [|exact Hh]. rewrite Hi, Hs in Ho. congruence.
Qed.

(** The new record has the widths of its arrays. *)
Lemma be32_bytes v : Forall is_u8 (write_be32 v).
Proof. unfold write_be32. repeat (apply Forall_cons; split; [apply u8_range|]). apply Forall_nil_2. Qed.
Lemma SHA256_bytes m : Forall is_u8 (SHA256 m).
Proof.
  unfold SHA256. generalize (fold_left sha256_transform (chunks (pad m)) initial_state). intros l.
  induction l as [|x l IH]; [apply Forall_nil_2|].
  change (mjoin (write_be32 <$> x :: l)) with (write_be32 x ++ mjoin (write_be32 <$> l)).
  apply Forall_app. split; [apply be32_bytes|exact IH].
Qed.
Lemma lxor_bytes x y : is_u8 x -> is_u8 y -> is_u8 (Z.lxor x y).
Proof.
  unfold is_u8. intros Hx Hy. split; [apply Z.lxor_nonneg; lia|].
  destruct (decide (Z.lxor x y = 0)) as [->|]; [lia|]. change 256 with (2 ^ 8). apply Z.log2_lt_pow2.
  - assert (0 <= Z.lxor x y) by (apply Z.lxor_nonneg; lia). lia.
  - eapply Z.le_lt_trans; [apply Z.log2_lxor; lia|]. apply Z.max_lub_lt.
    + destruct (decide (x = 0)) as [->|]; [cbn; lia|]. apply Z.log2_lt_pow2; lia.
    + destruct (decide (y = 0)) as [->|]; [cbn; lia|]. apply Z.log2_lt_pow2; lia.
Qed.
Lemma xor_bytes a b : Forall is_u8 a -> Forall is_u8 b -> Forall is_u8 (xor_lists a b).
Proof.
  intros Ha. revert b. induction Ha as [|x a Hx _ IH]; intros [|y b] Hb; cbn; try apply Forall_nil_2.
  apply Forall_cons in Hb as [Hy Hb]. apply Forall_cons. split; [by apply lxor_bytes|by apply IH].
Qed.
Lemma pbkdf2_bytes password slt iter : Forall is_u8 (pbkdf2_sha256 password slt iter).
Proof.
  unfold pbkdf2_sha256. rewrite hmac_is_HMAC. generalize (HMAC password (slt ++ [0; 0; 0; 1])) at 1. intros current.
  assert (H : Forall is_u8 (HMAC password (slt ++ [0; 0; 0; 1]))) by apply SHA256_bytes.
  revert H. generalize (HMAC password (slt ++ [0; 0; 0; 1])). generalize (Z.to_nat (iter - 1)). intros n.
  revert current. induction n as [|n IH]; intros current acc Ha; cbn [pbkdf2_rounds]; [done|].
  apply IH, xor_bytes; [done|]. rewrite hmac_is_HMAC. apply SHA256_bytes.
Qed.
Lemma generate_wf p n a password a' n' :
  length (salt a) = IDENTITY_PASSWORD_SALT_BYTES -> password_auth_generate p n a password = (true, a', n') ->
  algorithm a' = IDENTITY_AUTH_PBKDF2_SHA256 /\ iterations a' = IDENTITY_PASSWORD_ITERATIONS /\
  (length (salt a') = IDENTITY_PASSWORD_SALT_BYTES /\ Forall is_u8 (salt a')) /\
  (length (hash a') = IDENTITY_PASSWORD_HASH_BYTES /\ Forall is_u8 (hash a')).
Proof.
  intros Hl. unfold password_auth_generate. rewrite (random_sixteen p n (salt a) Hl).
  destruct (_ || _); [done|]. destruct (entropy_random_u64 p n) as [[v1|] n1]; [|done].
  destruct (entropy_random_u64 p n1) as [[v2|] n2]; [|done]. cbn [negb]. intros E.
  apply (f_equal (fun x => snd (fst x))) in E. cbn [fst snd] in E. subst a'. cbn [algorithm iterations salt hash].
  split; [done|]. split; [done|]. split.
  - split; [done|]. assert (B : forall v, Forall is_u8 (le64 v)).
    { intros v. unfold le64. cbn [seq fmap list_fmap]. repeat (apply Forall_cons; split; [apply u8_range|]). apply Forall_nil_2. }
    by apply Forall_app.
  - split; [apply length_pbkdf2|apply pbkdf2_bytes].
Qed.

(** C20: [password_auth_generate] succeeds exactly when the password has 1 to 128
    bytes and the processor delivers two random words.  The new record is valid,
    its salt consists of those words, it verifies the password it was made for,
    and a password it verifies has the same PBKDF2 hash. *)
Theorem password_generate_verify p n a password :
  length (salt a) = IDENTITY_PASSWORD_SALT_BYTES ->
  let '(ok, a', n') := password_auth_generate p n a password in
  (ok = true <-> 1 <= Z.of_nat (length password) <= IDENTITY_PASSWORD_MAX_LENGTH /\
     exists v1 n1 v2 n2, entropy_random_u64 p n = (Some v1, n1) /\ entropy_random_u64 p n1 = (Some v2, n2)) /\
  (ok = true -> password_auth_valid a' = true /\ password_auth_verify a' password = true /\
     (exists v1 n1 v2, entropy_random_u64 p n = (Some v1, n1) /\ entropy_random_u64 p n1 = (Some v2, n') /\
        salt a' = le64 v1 ++ le64 v2) /\
     forall other, password_auth_verify a' other = true ->
       PBKDF2 other (salt a') (Z.to_nat IDENTITY_PASSWORD_ITERATIONS) =
       PBKDF2 password (salt a') (Z.to_nat IDENTITY_PASSWORD_ITERATIONS)).
Proof. exact (generate_spec p n a password). Qed.

Example sha256_abc :
  sha256_final (sha256_update sha256_init [97; 98; 99]) =
  [0xba; 0x78; 0x16; 0xbf; 0x8f; 0x01; 0xcf; 0xea; 0x41; 0x41; 0x40; 0xde; 0x5d; 0xae; 0x22; 0x23;
   0xb0; 0x03; 0x61; 0xa3; 0x96; 0x17; 0x7a; 0x9c; 0xb4; 0x10; 0xff; 0x61; 0xf2; 0x00; 0x15; 0xad].
Proof. vm_compute. reflexivity. Qed.

Definition sample_processor : processor := Processor true false (fun n => (Z.of_nat n, true)).
Definition sample_record : identity_authentication_t := Authentication 0 0 (replicate 16 0) (replicate 32 0).

Lemma password_generate_verify_witness :
  exists a' n', password_auth_generate sample_processor 0 sample_record [97] = (true, a', n') /\
    password_auth_verify a' [97] = true.
Proof.
  pose proof (password_generate_verify sample_processor 0 sample_record [97] eq_refl) as H.
  destruct (password_auth_generate sample_processor 0 sample_record [97]) as [[ok a'] n'].
  destruct H as [[_ H1] H2]. assert (ok = true) as ->.
  { apply H1. split; [split; discriminate|]. exists 0, 1%nat, 1, 2%nat. split; reflexivity. }
  exists a', n'. split; [reflexivity|]. apply (H2 eq_refl).
Defined.

End Password.
