(* ===== verification/Accounts.v ===== *)
(** The account database: the data model, validation, parser and printer of
    [kernel/src/identity.c].

    A character array is the string it holds (the bytes before the terminator),
    a span of the file the list of its bytes.  The two arrays of a registry,
    which share [count] as length, are one list of accounts.  A parser's
    [position] is the suffix still to be read. *)
From S2P Require Import Prelude CString NetConfig Password.
Import CString NetConfig Password.

Module Accounts.

Definition MG_UID_SYSTEM : Z := 0.
Definition MG_IDENTITY_ROLE_REGULAR : Z := 0.
Definition MG_IDENTITY_ROLE_ADMIN : Z := 1.
Definition MG_IDENTITY_ROLE_SYSTEM : Z := 2.
Definition IDENTITY_USERNAME_CAPACITY : Z := 32.
Definition IDENTITY_HOME_CAPACITY : Z := 256.
Definition IDENTITY_ACCOUNT_DB_MAX_BYTES : Z := 16384.
Definition IDENTITY_ACCOUNT_MAX_RECORDS : Z := 64.
Definition IDENTITY_FIRST_USER_UID : Z := 1001.
Definition IDENTITY_ACCOUNT_FLAG_INITIAL : Z := 1.
Definition IDENTITY_ACCOUNT_FLAG_KNOWN : Z := IDENTITY_ACCOUNT_FLAG_INITIAL.

Record user_identity_t := User { uid : Z; username : list Z; role : Z; home : list Z; flags : Z }.
#[export] Instance user_identity_eq_dec : EqDecision user_identity_t.
Proof. solve_decision. Defined.

(** Element [index] of [users] and of [authentication]. *)
Record account := Account { user : user_identity_t; auth : identity_authentication_t }.
#[export] Instance account_eq_dec : EqDecision account.
Proof. solve_decision. Defined.

#[export] Instance account_inhabited : Inhabited account :=
  populate (Account (User 0 [] 0 [] 0) (Authentication 0 0 [] [])).

Record identity_registry_t := Registry { accounts : list account; next_uid : Z }.
#[export] Instance identity_registry_eq_dec : EqDecision identity_registry_t.
Proof. solve_decision. Defined.
Definition count (r : identity_registry_t) : Z := Z.of_nat (length (accounts r)).

Definition system_identity : user_identity_t :=
  User MG_UID_SYSTEM (str "system") MG_IDENTITY_ROLE_SYSTEM (str "/") 0.

(** * Validation *)

Definition identity_string_valid (value : list Z) (capacity : Z) (require_absolute : bool) : bool :=
  if require_absolute && negb (value !!! 0%nat =? 47) then false
  else negb (strlen value =? 0) && (strlen value <? capacity).

Definition lower (c : Z) : bool := (97 <=? c) && (c <=? 122).
Definition upper (c : Z) : bool := (65 <=? c) && (c <=? 90).
Definition digit (c : Z) : bool := (48 <=? c) && (c <=? 57).

Definition username_char (c : Z) : bool := lower c || digit c || (c =? 95) || (c =? 45).
Definition username_valid (name : list Z) : bool :=
  identity_string_valid name IDENTITY_USERNAME_CAPACITY false &&
  lower (name !!! 0%nat) && forallb username_char name.

Definition home_char (c : Z) : bool :=
  lower c || upper c || digit c || (c =? 95) || (c =? 45) || (c =? 46).
Definition component_valid (component : list Z) : bool :=
  match component with
  | [] => false
  | [a] => negb (a =? 46)
  | [a; b] => negb ((a =? 46) && (b =? 46))
  | _ => true
  end.
(** The two loops of [home_path_valid] from [index], where [component] holds the
    characters since [start]. *)
Fixpoint home_scan (rest component : list Z) : bool :=
  match rest with
  | [] => component_valid component
  | c :: rest =>
      if c =? 47 then
        component_valid component &&
        match rest with [] => false | d :: _ => negb (d =? 47) end && home_scan rest []
      else home_char c && home_scan rest (component ++ [c])
  end.
Definition home_path_valid (path : list Z) : bool :=
  identity_string_valid path IDENTITY_HOME_CAPACITY true &&
  negb (strcmp path (str "/") =? 0) && negb (path !!! 1%nat =? 47) && home_scan (drop 1 path) [].

Definition account_home_matches (u : user_identity_t) : bool :=
  if negb (username_valid (username u)) then false
  else if IDENTITY_HOME_CAPACITY <=? strlen (username u) + 6 then false
  else strcmp (home u) (str "/home/" ++ username u) =? 0.

Definition identity_user_valid (u : user_identity_t) : bool :=
  negb (uid u =? MG_UID_SYSTEM) &&
  ((role u =? MG_IDENTITY_ROLE_REGULAR) || (role u =? MG_IDENTITY_ROLE_ADMIN)) &&
  (Z.land (flags u) (U32_MAX - IDENTITY_ACCOUNT_FLAG_KNOWN) =? 0) &&
  username_valid (username u) && home_path_valid (home u) && account_home_matches u.

Definition initial (u : user_identity_t) : bool := negb (Z.land (flags u) IDENTITY_ACCOUNT_FLAG_INITIAL =? 0).
(** The inner loop of [identity_registry_valid] and of [parse_database]. *)
Definition clashes (u : user_identity_t) (others : list account) : bool :=
  existsb (fun o => (uid (user o) =? uid u) || (strcmp (username (user o)) (username u) =? 0)) others.
Fixpoint accounts_valid (next : Z) (before rest : list account) (initial_count : Z) : option Z :=
  match rest with
  | [] => Some initial_count
  | a :: rest =>
      if negb (identity_user_valid (user a)) || (next <=? uid (user a)) ||
         negb (password_auth_valid (auth a)) then None
      else if clashes (user a) before then None
      else accounts_valid next (before ++ [a]) rest
        (if initial (user a) then initial_count + 1 else initial_count)
  end.
Definition identity_registry_valid (r : identity_registry_t) : bool :=
  if (count r =? 0) || (IDENTITY_ACCOUNT_MAX_RECORDS <? count r) || (next_uid r <? IDENTITY_FIRST_USER_UID)
  then false
  else match accounts_valid (next_uid r) [] (accounts r) 0 with
       | Some n => n =? 1
       | None => false
       end.

(** * Parsing *)

Definition span_equals (text value : list Z) : bool :=
  (strlen text =? strlen value) && (memcmp text value (length text) =? 0).
(** The string the array holds afterwards. *)
Definition copy_span (text : list Z) (capacity : Z) : option (list Z) :=
  if (strlen text =? 0) || (capacity <=? strlen text) then None else Some (c_str text).

Fixpoint uid_from (text : list Z) (value : Z) : option Z :=
  match text with
  | [] => Some value
  | c :: text =>
      if negb (digit c) then None
      else let d := c - 48 in
        if (U32_MAX - d) / 10 <? value then None else uid_from text (u32 (value * 10 + d))
  end.
Definition parse_uid (text : list Z) : option Z :=
  match text with [] => None | _ => uid_from text 0 end.

Definition parse_role (text : list Z) : option Z :=
  if span_equals text (str "regular") then Some MG_IDENTITY_ROLE_REGULAR
  else if span_equals text (str "admin") then Some MG_IDENTITY_ROLE_ADMIN
  else None.
Definition parse_flags (text : list Z) : option Z :=
  match text with
  | [] => None
  | _ =>
      if span_equals text (str "none") then Some 0
      else if span_equals text (str "initial") then Some IDENTITY_ACCOUNT_FLAG_INITIAL
      else None
  end.

Definition hex_digit (c : Z) : Z :=
  if digit c then c - 48
  else if (97 <=? c) && (c <=? 102) then c - 97 + 10
  else if (65 <=? c) && (c <=? 70) then c - 65 + 10
  else -1.
Fixpoint hex_pairs (text : list Z) : option (list Z) :=
  match text with
  | h :: l :: text =>
      if (hex_digit h <? 0) || (hex_digit l <? 0) then None
      else (cons (u8 (Z.lor (Z.shiftl (hex_digit h) 4) (hex_digit l)))) <$> hex_pairs text
  | _ => Some []
  end.
Definition parse_hex (text : list Z) (output_length : nat) : option (list Z) :=
  if negb (length text =? output_length * 2)%nat then None else hex_pairs text.

Fixpoint drop_while (f : Z -> bool) (l : list Z) : list Z :=
  match l with
  | c :: l' => if f c then drop_while f l' else l
  | [] => []
  end.
Fixpoint take_while (f : Z -> bool) (l : list Z) : list Z :=
  match l with
  | c :: l' => if f c then c :: take_while f l' else []
  | [] => []
  end.
Definition drop_end (f : Z -> bool) (l : list Z) : list Z := reverse (drop_while f (reverse l)).
Definition blank (c : Z) : bool := (c =? 32) || (c =? 9).
Definition blank_or_cr (c : Z) : bool := blank c || (c =? 13).

(** What precedes a comment, if there is one. *)
Fixpoint before_comment (quote : bool) (l : list Z) : option (list Z) :=
  match l with
  | [] => None
  | a :: rest =>
      match rest with
      | [] => None
      | b :: _ =>
          let quote := if a =? 34 then negb quote else quote in
          if negb quote && (a =? 47) && (b =? 47) then Some []
          else cons a <$> before_comment quote rest
      end
  end.
(** The line between the new [start] and [end]; the result is false for [[]]. *)
Definition trim_line (l : list Z) : list Z :=
  let l := drop_end blank_or_cr (drop_while blank_or_cr l) in
  match before_comment false l with
  | Some l => drop_end blank l
  | None => l
  end.

(** The variables of [parse_account_line]. *)
Record fields := Fields {
  f_user : user_identity_t; f_auth : identity_authentication_t; f_seen : Z; f_algorithm : list Z }.
Definition no_fields : fields :=
  Fields (User 0 [] 0 [] 0) (Authentication 0 0 (replicate 16 0) (replicate 32 0)) 0 [].
Definition saw (st : fields) (bit : Z) : bool := negb (Z.land (f_seen st) bit =? 0).
Definition with_user (st : fields) (u : user_identity_t) (bit : Z) : fields :=
  Fields u (f_auth st) (Z.lor (f_seen st) bit) (f_algorithm st).
Definition with_auth (st : fields) (a : identity_authentication_t) (bit : Z) : fields :=
  Fields (f_user st) a (Z.lor (f_seen st) bit) (f_algorithm st).
Definition key_value (version : Z) (st : fields) (key value : list Z) : option fields :=
  let u := f_user st in
  let a := f_auth st in
  if span_equals key (str "uid") then
    if saw st 1 then None
    else v ← parse_uid value; Some (with_user st (User v (username u) (role u) (home u) (flags u)) 1)
  else if span_equals key (str "username") then
    if saw st 2 then None
    else v ← copy_span value IDENTITY_USERNAME_CAPACITY;
      Some (with_user st (User (uid u) v (role u) (home u) (flags u)) 2)
  else if span_equals key (str "role") then
    if saw st 4 then None
    else v ← parse_role value; Some (with_user st (User (uid u) (username u) v (home u) (flags u)) 4)
  else if span_equals key (str "home") then
    if saw st 8 then None
    else v ← copy_span value IDENTITY_HOME_CAPACITY;
      Some (with_user st (User (uid u) (username u) (role u) v (flags u)) 8)
  else if span_equals key (str "flags") then
    if saw st 16 then None
    else v ← parse_flags value; Some (with_user st (User (uid u) (username u) (role u) (home u) v) 16)
  else if (version =? 2) && span_equals key (str "auth") then
    if saw st 32 then None
    else v ← copy_span value 32; Some (Fields u a (Z.lor (f_seen st) 32) v)
  else if (version =? 2) && span_equals key (str "salt") then
    if saw st 64 then None
    else v ← parse_hex value IDENTITY_PASSWORD_SALT_BYTES;
      Some (with_auth st (Authentication (algorithm a) (iterations a) v (hash a)) 64)
  else if (version =? 2) && span_equals key (str "iterations") then
    if saw st 128 then None
    else v ← parse_uid value; Some (with_auth st (Authentication (algorithm a) v (salt a) (hash a)) 128)
  else if (version =? 2) && span_equals key (str "hash") then
    if saw st 256 then None
    else v ← parse_hex value IDENTITY_PASSWORD_HASH_BYTES;
      Some (with_auth st (Authentication (algorithm a) (iterations a) (salt a) v) 256)
  else None.

Definition key_char (c : Z) : bool := negb (c =? 61) && negb (blank c).
Definition value_char (c : Z) : bool := negb (blank c).
(** The loop over the fields; every iteration reads two characters or more. *)
Fixpoint parse_fields (fuel : nat) (version : Z) (st : fields) (rest : list Z) : option fields :=
  match fuel with
  | O => Some st
  | S fuel =>
      match drop_while blank rest with
      | [] => Some st
      | rest =>
          let key := take_while key_char rest in
          match key, drop_while key_char rest with
          | _ :: _, 61 :: rest =>
              match take_while value_char rest with
              | [] => None
              | value => st ← key_value version st key value;
                         parse_fields fuel version st (drop_while value_char rest)
              end
          | _, _ => None
          end
      end
  end.
Definition with_algorithm (a : identity_authentication_t) (alg : Z) : identity_authentication_t :=
  Authentication alg (iterations a) (salt a) (hash a).
Definition checked (u : user_identity_t) (a : identity_authentication_t) : option account :=
  if password_auth_valid a then Some (Account u a) else None.
Definition parse_account_line (line : list Z) (version : Z) : option account :=
  let rest := drop_while blank line in
  if (length rest <? 7)%nat || negb (memcmp rest (str "account") 7 =? 0) ||
     match drop 7 rest with c :: _ => negb (blank c) | [] => false end
  then None
  else
    st ← parse_fields (length line) version no_fields (drop 7 rest);
    if negb (Z.land (f_seen st) 31 =? 31) || negb (identity_user_valid (f_user st)) then None
    else if version =? 1 then checked (f_user st) (with_algorithm (f_auth st) IDENTITY_AUTH_NONE)
    else if negb (saw st 32) then None
    else if span_equals (f_algorithm st) (str "none") then
      if saw st (Z.lor 64 (Z.lor 128 256)) then None
      else checked (f_user st) (with_algorithm (f_auth st) IDENTITY_AUTH_NONE)
    else if negb (span_equals (f_algorithm st) (str "pbkdf2-sha256")) ||
            negb (Z.land (f_seen st) (Z.lor 64 (Z.lor 128 256)) =? Z.lor 64 (Z.lor 128 256)) then None
    else checked (f_user st) (with_algorithm (f_auth st) IDENTITY_AUTH_PBKDF2_SHA256).

(** The lines of the file; a newline at its end starts no further line. *)
Fixpoint split_lines (text current : list Z) : list (list Z) :=
  match text with
  | [] => match current with [] => [] | _ => [current] end
  | c :: text => if c =? 10 then current :: split_lines text [] else split_lines text (current ++ [c])
  end.

(** The variables of [parse_database]; [None] for a flag that is not set. *)
Record db := Db {
  db_version : option Z; db_next_uid : option Z; db_accounts : list account;
  db_initial_count : Z; db_needs_migration : bool }.
Definition parse_line (d : db) (raw : list Z) : option db :=
  let line := trim_line raw in
  match line with
  | [] => Some d
  | _ =>
      match db_version d with
      | None =>
          if span_equals line (str "version=1")
          then Some (Db (Some 1) (db_next_uid d) (db_accounts d) (db_initial_count d) true)
          else if span_equals line (str "version=2")
          then Some (Db (Some 2) (db_next_uid d) (db_accounts d) (db_initial_count d) (db_needs_migration d))
          else None
      | Some version =>
          match db_next_uid d with
          | None =>
              let name := take_while (fun c => negb (c =? 61)) line in
              match drop_while (fun c => negb (c =? 61)) line with
              | [] => None
              | _ :: value =>
                  if negb (span_equals name (str "next_uid")) then None
                  else n ← parse_uid value;
                    Some (Db (db_version d) (Some n) (db_accounts d) (db_initial_count d) (db_needs_migration d))
              end
          | Some _ =>
              if IDENTITY_ACCOUNT_MAX_RECORDS <=? Z.of_nat (length (db_accounts d)) then None
              else
                a ← parse_account_line line version;
                if clashes (user a) (db_accounts d) then None
                else Some (Db (db_version d) (db_next_uid d) (db_accounts d ++ [a])
                  (if initial (user a) then db_initial_count d + 1 else db_initial_count d)
                  (db_needs_migration d))
          end
      end
  end.
Fixpoint parse_lines (d : db) (ls : list (list Z)) : option db :=
  match ls with
  | [] => Some d
  | l :: ls => d ← parse_line d l; parse_lines d ls
  end.
(** The registry and [needs_migration]. *)
Definition parse_database (text : list Z) : option (identity_registry_t * bool) :=
  if (strlen text =? 0) || (IDENTITY_ACCOUNT_DB_MAX_BYTES <? strlen text) then None
  else
    d ← parse_lines (Db None None [] 0 false) (split_lines text []);
    match db_version d, db_next_uid d with
    | Some _, Some next =>
        if (Z.of_nat (length (db_accounts d)) =? 0) || negb (db_initial_count d =? 1) ||
           (next <? IDENTITY_FIRST_USER_UID) then None
        else if existsb (fun a => next <=? uid (user a)) (db_accounts d) then None
        else Some (Registry (db_accounts d) next, db_needs_migration d)
    | _, _ => None
    end.

(** * Printing *)

(** The buffer is the list of the bytes before [*position]. *)
Definition append_bytes (capacity : Z) (buffer text : list Z) : option (list Z) :=
  if capacity - strlen buffer <? strlen text then None else Some (buffer ++ text).
Definition append_text := append_bytes.
(** The digits, least significant first; ten are enough for 32 bits. *)
Fixpoint decimal (fuel : nat) (value : Z) : list Z :=
  match fuel with
  | O => []
  | S fuel => if value =? 0 then [] else (48 + value mod 10) :: decimal fuel (value / 10)
  end.
Fixpoint append_each (capacity : Z) (buffer : list Z) (pieces : list (list Z)) : option (list Z) :=
  match pieces with
  | [] => Some buffer
  | p :: pieces => buffer ← append_bytes capacity buffer p; append_each capacity buffer pieces
  end.
Definition append_u32 (capacity : Z) (buffer : list Z) (value : Z) : option (list Z) :=
  let digits := if value =? 0 then [48] else decimal 10 value in
  append_each capacity buffer ((fun d => [d]) <$> reverse digits).
Definition hex_digits : list Z := str "0123456789abcdef".
Definition append_hex (capacity : Z) (buffer bytes : list Z) : option (list Z) :=
  append_each capacity buffer
    ((fun b => [hex_digits !!! Z.to_nat (Z.shiftr b 4); hex_digits !!! Z.to_nat (Z.land b 15)]) <$> bytes).

Definition append_account (capacity : Z) (b : list Z) (a : account) : option (list Z) :=
  let u := user a in
  b ← append_text capacity b (str "account uid=");
  b ← append_u32 capacity b (uid u);
  b ← append_text capacity b (str " username=");
  b ← append_text capacity b (username u);
  b ← append_text capacity b (str " role=");
  b ← append_text capacity b (if role u =? MG_IDENTITY_ROLE_ADMIN then str "admin" else str "regular");
  b ← append_text capacity b (str " home=");
  b ← append_text capacity b (home u);
  b ← append_text capacity b (str " flags=");
  b ← append_text capacity b (if initial u then str "initial" else str "none");
  if algorithm (auth a) =? IDENTITY_AUTH_NONE then append_text capacity b (str " auth=none" ++ [10])
  else if algorithm (auth a) =? IDENTITY_AUTH_PBKDF2_SHA256 then
    b ← append_text capacity b (str " auth=pbkdf2-sha256 salt=");
    b ← append_hex capacity b (salt (auth a));
    b ← append_text capacity b (str " iterations=");
    b ← append_u32 capacity b (iterations (auth a));
    b ← append_text capacity b (str " hash=");
    b ← append_hex capacity b (hash (auth a));
    append_text capacity b [10]
  else None.
Fixpoint append_accounts (capacity : Z) (b : list Z) (l : list account) : option (list Z) :=
  match l with
  | [] => Some b
  | a :: l => b ← append_account capacity b a; append_accounts capacity b l
  end.
Definition serialize_database (r : identity_registry_t) (capacity : Z) : option (list Z) :=
  if negb (identity_registry_valid r) then None
  else
    b ← append_text capacity [] (str "version=2" ++ [10]);
    b ← append_text capacity b (str "next_uid=");
    b ← append_u32 capacity b (next_uid r);
    b ← append_text capacity b [10; 10];
    append_accounts capacity b (accounts r).

(** * A first run *)

Definition alice : account :=
  Account (User 1001 (str "alice") 1 (str "/home/alice") 1)
    (Authentication 1 120000 (replicate 16 0xab) (replicate 32 0x1f)).
Definition bob : account :=
  Account (User 1002 (str "bob-2") 0 (str "/home/bob-2") 0) (Authentication 0 0 (replicate 16 0) (replicate 32 0)).
Definition two_accounts : identity_registry_t := Registry [alice; bob] 1003.

Example round_trip_two :
  (text ← serialize_database two_accounts 16384; parse_database text) = Some (two_accounts, false).
Proof. vm_compute. reflexivity. Qed.

End Accounts.
