(* ===== verification/AccountsProofs.v ===== *)
(** Correctness of the account database of [Accounts]: what validation means,
    that printing and parsing are inverse, and how many accounts fit. *)
From S2P Require Import Prelude CString NetConfig Password Accounts.
Import CString NetConfig Password Accounts.

Module AccountsProofs.

(** * What validation means *)

Record user_ok (u : user_identity_t) : Prop := {
  uo_uid : uid u <> MG_UID_SYSTEM;
  uo_role : role u = MG_IDENTITY_ROLE_REGULAR \/ role u = MG_IDENTITY_ROLE_ADMIN;
  uo_flags : flags u = 0 \/ flags u = IDENTITY_ACCOUNT_FLAG_INITIAL;
  uo_name : username_valid (username u) = true;
  uo_home : home u = str "/home/" ++ username u;
}.

(** What the widths of the fields guarantee. *)
Record account_wf (a : account) : Prop := {
  wf_uid : is_u32 (uid (user a));
  wf_flags : is_u32 (flags (user a));
  wf_name : c_string (username (user a));
  wf_home : c_string (home (user a));
  wf_iterations : is_u32 (iterations (auth a));
  wf_salt : length (salt (auth a)) = IDENTITY_PASSWORD_SALT_BYTES /\ Forall is_u8 (salt (auth a));
  wf_hash : length (hash (auth a)) = IDENTITY_PASSWORD_HASH_BYTES /\ Forall is_u8 (hash (auth a));
}.
Record registry_wf (r : identity_registry_t) : Prop := {
  wf_accounts : Forall account_wf (accounts r);
  wf_next : is_u32 (next_uid r);
}.

Definition uids (l : list account) : list Z := uid ∘ user <$> l.
Definition names (l : list account) : list (list Z) := username ∘ user <$> l.

Definition account_ok (next : Z) (a : account) : Prop :=
  user_ok (user a) /\ uid (user a) < next /\ password_auth_valid (auth a) = true.

Definition initials (l : list account) : Z := sumZ (fun a => if initial (user a) then 1 else 0) l.
Record registry_ok (r : identity_registry_t) : Prop := {
  ro_count : 1 <= count r <= IDENTITY_ACCOUNT_MAX_RECORDS;
  ro_next : IDENTITY_FIRST_USER_UID <= next_uid r;
  ro_users : Forall (account_ok (next_uid r)) (accounts r);
  ro_uids : NoDup (uids (accounts r));
  ro_names : NoDup (names (accounts r));
  ro_initial : initials (accounts r) = 1;
}.

Lemma known_flags f : is_u32 f -> Z.land f (U32_MAX - IDENTITY_ACCOUNT_FLAG_KNOWN) = 0 <-> f = 0 \/ f = 1.
Proof.
  intros Hf. unfold is_u32 in Hf. split; [|by intros [->| ->]].
  intros H. destruct (decide (f < 2)) as [|Hge]; [lia|exfalso].
  assert (Hl : 1 <= Z.log2 f <= 31).
  { split; [change 1 with (Z.log2 2); apply Z.log2_le_mono; lia|].
    assert (Z.log2 f < 32); [|lia]. apply Z.log2_lt_pow2; [lia|]. change (2 ^ 32) with 4294967296. lia. }
  assert (Hb : Z.testbit (Z.land f (U32_MAX - IDENTITY_ACCOUNT_FLAG_KNOWN)) (Z.log2 f) = true).
  { rewrite Z.land_spec, Z.bit_log2 by lia. cbn [andb].
    change (U32_MAX - IDENTITY_ACCOUNT_FLAG_KNOWN) with (Z.shiftl (Z.ones 31) 1).
    rewrite Z.shiftl_spec by lia. apply Z.ones_spec_low. lia. }
  by rewrite H, Z.bits_0 in Hb.
Qed.

Lemma username_facts name :
  username_valid name = true ->
  (1 <= length name <= 31)%nat /\ lower (name !!! 0%nat) = true /\ Forall (fun c => username_char c = true) name.
Proof.
  unfold username_valid, identity_string_valid, strlen, IDENTITY_USERNAME_CAPACITY. cbn [andb].
  intros H. apply andb_true_iff in H as [H H3]. apply andb_true_iff in H as [H1 H2].
  split; [lia|]. split; [done|]. apply Forall_forall.
  intros c Hc. rewrite forallb_forall in H3. apply H3. by apply list_elem_of_In.
Qed.
Lemma username_c_string name : username_valid name = true -> c_string name.
Proof.
  intros H. apply username_facts in H as (_ & _ & H). eapply Forall_impl; [exact H|].
  intros c. unfold username_char, lower, digit. lia.
Qed.

Lemma home_scan_plain name comp :
  Forall (fun c => username_char c = true) name -> home_scan name comp = component_valid (comp ++ name).
Proof.
  intros H. revert comp. induction H as [|c name Hc _ IH]; intros comp; cbn [home_scan]; [by rewrite app_nil_r|].
  unfold username_char, lower, digit in Hc. destruct (Z.eqb_spec c 47); [lia|].
  rewrite IH, <- app_assoc. replace (home_char c) with true; [done|].
  unfold home_char, lower, upper, digit. lia.
Qed.

Lemma home_of_name_valid name :
  username_valid name = true -> home_path_valid (str "/home/" ++ name) = true.
Proof.
  intros H. pose proof (username_c_string name H) as Hc. apply username_facts in H as (Hl & H0 & H).
  unfold home_path_valid, identity_string_valid, strlen. rewrite length_app.
  change (length (str "/home/")) with 6%nat. destruct name as [|x name]; [cbn in Hl; lia|].
  change (str "/home/" ++ x :: name) with (47 :: 104 :: 111 :: 109 :: 101 :: 47 :: x :: name).
  assert (Hx : lower x = true) by exact H0. unfold lower in Hx.
  assert (E : home_scan (x :: name) [] = true).
  { rewrite home_scan_plain by done. cbn [app component_valid]. destruct name as [|y [|z name]]; [lia|lia|done]. }
  assert (E' : home_scan (104 :: 111 :: 109 :: 101 :: 47 :: x :: name) [] = true).
  { cbn -[home_scan]. change (negb (x =? 47) && home_scan (x :: name) [] = true). rewrite E. lia. }
  cbn [drop]. rewrite E'. cbn [length] in *.
  repeat (apply andb_true_intro; split); try reflexivity; unfold IDENTITY_HOME_CAPACITY; lia.
Qed.

Lemma user_valid_iff u :
  is_u32 (flags u) -> c_string (home u) -> identity_user_valid u = true <-> user_ok u.
Proof.
  intros Hf Hh. unfold identity_user_valid, account_home_matches. rewrite !andb_true_iff, Z.eqb_eq.
  rewrite known_flags by done. split.
  - intros (((((H1 & H2) & H3) & H4) & _) & H6). rewrite H4 in H6. cbn [negb] in H6.
    destruct (_ <=? _); [done|]. apply Z.eqb_eq in H6. split; [lia|lia|exact H3|exact H4|].
    apply strcmp_eq; [done| |done]. apply Forall_app. split; [|by apply username_c_string].
    by_decision.
  - intros [H1 H2 H3 H4 H5]. rewrite H4, H5. cbn [negb]. pose proof (username_facts _ H4) as (Hl & _).
    split; [split; [split; [split; [split|]|]|]|]; [lia|lia|exact H3|done|by apply home_of_name_valid|].
    unfold strlen, IDENTITY_HOME_CAPACITY. destruct (Z.leb_spec 256 (Z.of_nat (length (username u)) + 6)); [lia|].
    apply Z.eqb_eq. rewrite H5 in Hh. by apply strcmp_eq.
Qed.

Lemma clashes_iff u others :
  c_string (username u) -> Forall (fun a => c_string (username (user a))) others ->
  clashes u others = false <->
  (uid u ∉ (uid ∘ user <$> others)) /\ (username u ∉ (username ∘ user <$> others)).
Proof.
  intros Hu H. induction H as [|o others Ho _ IH]; cbn [clashes existsb fmap list_fmap].
  { split; [intros _; split; apply not_elem_of_nil|done]. }
  change (existsb _ others) with (clashes u others). rewrite !orb_false_iff, IH, !not_elem_of_cons.
  assert (E : (strcmp (username (user o)) (username u) =? 0) = false <-> username u <> username (user o)).
  { rewrite Z.eqb_neq, strcmp_eq by done. split; congruence. }
  rewrite E, Z.eqb_neq. cbn. split; intros; intuition congruence.
Qed.

Lemma account_guard next a :
  account_wf a ->
  negb (identity_user_valid (user a)) || (next <=? uid (user a)) || negb (password_auth_valid (auth a)) = false <->
  account_ok next a.
Proof.
  intros [_ Hf _ Hh _ _ _]. unfold account_ok. rewrite <- user_valid_iff by done.
  destruct (identity_user_valid (user a)), (password_auth_valid (auth a)), (Z.leb_spec next (uid (user a)));
    cbn; split; intros; intuition (try done; try lia).
Qed.

Lemma nodup_prefix {A} (l k : list A) : NoDup (l ++ k) -> NoDup l.
Proof. intros H. by apply NoDup_app in H as (H & _). Qed.

Lemma nodup_snoc {A} (l : list A) x : NoDup (l ++ [x]) <-> (x ∉ l) /\ NoDup l.
Proof.
  rewrite NoDup_app. split.
  - intros (H1 & H2 & _). split; [|done]. intros H. apply (H2 x H). by apply list_elem_of_singleton.
  - intros (H1 & H2). split; [done|]. split; [|apply NoDup_singleton].
    intros y Hy Hy'. apply list_elem_of_singleton in Hy' as ->. done.
Qed.
Lemma valid_from next before rest n m :
  Forall account_wf before -> Forall account_wf rest -> NoDup (uids before) -> NoDup (names before) ->
  accounts_valid next before rest n = Some m <->
  Forall (account_ok next) rest /\ NoDup (uids (before ++ rest)) /\ NoDup (names (before ++ rest)) /\
  m = n + initials rest.
Proof.
  intros Hb Hr. revert before n Hb. induction Hr as [|a rest Ha Hr IH]; intros before n Hb Nu Nn.
  { cbn. rewrite app_nil_r. unfold initials. cbn. split.
    - intros [= <-]. split; [apply Forall_nil_2|]. split; [done|]. split; [done|lia].
    - intros (_ & _ & _ & ->). f_equal. lia. }
  cbn [accounts_valid]. rewrite Forall_cons, <- account_guard by done.
  destruct (negb _ || _ || _); [split; [done|by intros [[? _] _]]|].
  pose proof (clashes_iff (user a) before (wf_name a Ha)) as Hc.
  assert (Hcs : Forall (fun a => c_string (username (user a))) before)
    by (eapply Forall_impl; [exact Hb|]; intros b; apply wf_name).
  specialize (Hc Hcs). change (uid ∘ user <$> before) with (uids before) in Hc.
  change (username ∘ user <$> before) with (names before) in Hc.
  replace (before ++ a :: rest) with ((before ++ [a]) ++ rest) by (by rewrite <- app_assoc).
  assert (Hsnoc : clashes (user a) before = false <-> NoDup (uids (before ++ [a])) /\ NoDup (names (before ++ [a]))).
  { rewrite Hc. unfold uids, names. rewrite !fmap_app. cbn [fmap list_fmap]. rewrite !nodup_snoc.
    unfold uids, names in *. cbn. tauto. }
  destruct (clashes (user a) before) eqn:E.
  - split; [done|]. intros (_ & H1 & H2 & _). unfold uids in H1. unfold names in H2. rewrite fmap_app in H1. rewrite fmap_app in H2.
    apply nodup_prefix in H1. apply nodup_prefix in H2. discriminate (proj2 Hsnoc (conj H1 H2)).
  - destruct (proj1 Hsnoc eq_refl) as [N1 N2].
    rewrite IH; [|apply Forall_app; split; [done|by apply Forall_singleton]|done|done].
    unfold initials at 2. cbn [sumZ]. fold (initials rest).
    destruct (initial (user a)); intuition lia.
Qed.

(** [identity_registry_valid] decides [registry_ok]. *)
Lemma registry_valid_iff r : registry_wf r -> identity_registry_valid r = true <-> registry_ok r.
Proof.
  intros [Hw _]. unfold identity_registry_valid.
  assert (V : forall m, accounts_valid (next_uid r) [] (accounts r) 0 = Some m <->
    Forall (account_ok (next_uid r)) (accounts r) /\ NoDup (uids (accounts r)) /\
    NoDup (names (accounts r)) /\ m = 0 + initials (accounts r)).
  { intros m. apply (valid_from (next_uid r) [] (accounts r) 0 m);
      [apply Forall_nil_2|done|apply NoDup_nil_2|apply NoDup_nil_2]. }
  destruct (_ || _ || _) eqn:E; unfold IDENTITY_ACCOUNT_MAX_RECORDS, IDENTITY_FIRST_USER_UID in E.
  { split; [done|]. intros [H1 H2 _ _ _ _]. unfold IDENTITY_ACCOUNT_MAX_RECORDS, IDENTITY_FIRST_USER_UID in *. lia. }
  assert (Hn : 1 <= count r <= 64 /\ 1001 <= next_uid r) by (unfold count in *; lia).
  transitivity (accounts_valid (next_uid r) [] (accounts r) 0 = Some 1).
  { destruct (accounts_valid _ _ _ _); [rewrite Z.eqb_eq; split; congruence|done]. }
  rewrite V. split.
  - intros (H1 & H2 & H3 & H4). split; [apply Hn|apply Hn|exact H1|exact H2|exact H3|lia].
  - intros [_ _ H1 H2 H3 H4]. split; [exact H1|]. split; [exact H2|]. split; [exact H3|lia].
Qed.

(** * The text of a registry *)

Definition dec (n : Z) : list Z := reverse (if n =? 0 then [48] else decimal 10 n).
Definition hex (b : Z) : list Z :=
  [hex_digits !!! Z.to_nat (Z.shiftr b 4); hex_digits !!! Z.to_nat (Z.land b 15)].
Definition role_text (u : user_identity_t) : list Z :=
  if role u =? MG_IDENTITY_ROLE_ADMIN then str "admin" else str "regular".
Definition flags_text (u : user_identity_t) : list Z := if initial u then str "initial" else str "none".

(** One [key=value]. *)
Definition item (kv : list Z * list Z) : list Z := 32 :: fst kv ++ 61 :: snd kv.
Definition auth_items (a : identity_authentication_t) : list (list Z * list Z) :=
  if algorithm a =? IDENTITY_AUTH_NONE then [(str "auth", str "none")]
  else [(str "auth", str "pbkdf2-sha256"); (str "salt", mjoin (hex <$> salt a));
        (str "iterations", dec (iterations a)); (str "hash", mjoin (hex <$> hash a))].
Definition items (a : account) : list (list Z * list Z) :=
  [(str "uid", dec (uid (user a))); (str "username", username (user a)); (str "role", role_text (user a));
   (str "home", home (user a)); (str "flags", flags_text (user a))] ++ auth_items (auth a).
Definition account_text (a : account) : list Z := str "account" ++ mjoin (item <$> items a).
Definition header (r : identity_registry_t) : list Z :=
  str "version=2" ++ 10 :: str "next_uid=" ++ dec (next_uid r) ++ [10; 10].
Definition registry_text (r : identity_registry_t) : list Z :=
  header r ++ mjoin ((fun a => account_text a ++ [10]) <$> accounts r).

(** ** Appending *)

Lemma append_each_app cap b ps qs :
  append_each cap b (ps ++ qs) = (b ← append_each cap b ps; append_each cap b qs).
Proof.
  revert b. induction ps as [|p ps IH]; intros b; cbn; [done|].
  destruct (append_bytes cap b p); cbn; [apply IH|done].
Qed.
Lemma append_one cap b t : append_bytes cap b t = append_each cap b [t].
Proof. cbn. by destruct (append_bytes cap b t). Qed.
Lemma append_each_spec cap b ps :
  strlen b <= cap ->
  append_each cap b ps = if cap <? strlen (b ++ mjoin ps) then None else Some (b ++ mjoin ps).
Proof.
  unfold strlen. revert b. induction ps as [|p ps IH]; intros b Hb; cbn [append_each].
  { change (mjoin []) with (@nil Z). rewrite app_nil_r. destruct (Z.ltb_spec cap (Z.of_nat (length b))); [lia|done]. }
  change (mjoin (p :: ps)) with (p ++ mjoin ps). unfold append_bytes, strlen.
  destruct (Z.ltb_spec (cap - Z.of_nat (length b)) (Z.of_nat (length p))); cbn.
  - destruct (Z.ltb_spec cap (Z.of_nat (length (b ++ p ++ mjoin ps)))); [done|]. rewrite !length_app in *. lia.
  - rewrite IH by (rewrite length_app; lia). by rewrite <- app_assoc.
Qed.

Definition auth_pieces (a : identity_authentication_t) : list (list Z) :=
  if algorithm a =? IDENTITY_AUTH_NONE then [str " auth=none" ++ [10]]
  else [str " auth=pbkdf2-sha256 salt="] ++ (hex <$> salt a) ++ [str " iterations="] ++
       ((fun d => [d]) <$> dec (iterations a)) ++ [str " hash="] ++ (hex <$> hash a) ++ [[10]].
Definition account_pieces (a : account) : list (list Z) :=
  [str "account uid="] ++ ((fun d => [d]) <$> dec (uid (user a))) ++
  [str " username="; username (user a); str " role="; role_text (user a); str " home="; home (user a);
   str " flags="; flags_text (user a)] ++ auth_pieces (auth a).

Lemma bind_same {A B} (o : option A) (f g : A -> option B) :
  (forall x, f x = g x) -> (x ← o; f x) = (x ← o; g x).
Proof. intros H. destruct o; cbn; auto. Qed.

Lemma append_account_pieces cap b a :
  password_auth_valid (auth a) = true -> append_account cap b a = append_each cap b (account_pieces a).
Proof.
  intros Hv. unfold append_account, account_pieces, append_text. rewrite append_each_app, append_one.
  apply bind_same. intros b1. rewrite append_each_app. apply bind_same. intros b2. cbn [append_each app].
  do 8 (apply bind_same; intros ?). unfold auth_pieces, password_auth_valid in *.
  destruct (Z.eqb_spec (algorithm (auth a)) IDENTITY_AUTH_NONE); [apply append_one|].
  destruct (Z.eqb_spec (algorithm (auth a)) IDENTITY_AUTH_PBKDF2_SHA256); [|done].
  cbn [append_each app]. do 4 (apply bind_same; intros ?; rewrite ?append_each_app; cbn [append_each app]).
  apply bind_same. intros ?. rewrite append_each_app. apply bind_same. intros ?. apply append_one.
Qed.

Lemma join_cons (p : list Z) ps : mjoin (p :: ps) = p ++ mjoin ps.
Proof. done. Qed.
Lemma join_app (ps qs : list (list Z)) : mjoin (ps ++ qs) = mjoin ps ++ mjoin qs.
Proof. induction ps as [|p ps IH]; cbn [app]; [done|]. by rewrite !join_cons, IH, app_assoc. Qed.
Lemma join_singletons (l : list Z) : mjoin ((fun d => [d]) <$> l) = l.
Proof. induction l as [|x l IH]; [done|]. cbn [fmap list_fmap]. by rewrite join_cons, IH. Qed.

Lemma account_pieces_text a : mjoin (account_pieces a) = account_text a ++ [10].
Proof.
  unfold account_pieces, account_text, items, auth_pieces, auth_items, item.
  rewrite !join_app, join_singletons, fmap_app, join_app.
  destruct (_ =? _); cbn [fmap list_fmap fst snd]; rewrite ?join_app, ?join_cons, ?join_singletons;
    change (mjoin []) with (@nil Z); rewrite ?app_nil_r; cbn -[dec role_text flags_text];
    repeat (rewrite <- ?app_assoc; cbn [app]; do 4 f_equal). 
Qed.

Lemma append_accounts_spec cap b l :
  strlen b <= cap -> Forall (fun a => password_auth_valid (auth a) = true) l ->
  let t := b ++ mjoin ((fun a => account_text a ++ [10]) <$> l) in
  append_accounts cap b l = if cap <? strlen t then None else Some t.
Proof.
  intros Hb H. revert b Hb. induction H as [|a l Ha _ IH]; intros b Hb; cbn zeta; cbn [append_accounts fmap list_fmap].
  { change (mjoin []) with (@nil Z). rewrite app_nil_r. destruct (Z.ltb_spec cap (strlen b)); [lia|done]. }
  rewrite append_account_pieces, append_each_spec, account_pieces_text, join_cons by done.
  set (x := account_text a ++ [10]) in *. set (y := mjoin _) in *. rewrite app_assoc.
  destruct (Z.ltb_spec cap (strlen (b ++ x))) as [Hx|Hx]; cbn [mbind option_bind]; [|by apply IH].
  destruct (Z.ltb_spec cap (strlen ((b ++ x) ++ y))) as [Hy|Hy]; [done|].
  unfold strlen in *. rewrite (length_app (b ++ x)) in Hy. lia.
Qed.

Lemma serialize_spec r cap :
  registry_wf r -> identity_registry_valid r = true -> 0 <= cap ->
  serialize_database r cap = if cap <? strlen (registry_text r) then None else Some (registry_text r).
Proof.
  intros Hw Hv Hc. apply registry_valid_iff in Hv as Ho; [|done]. unfold serialize_database. rewrite Hv. cbn [negb].
  set (hp := [str "version=2" ++ [10]; str "next_uid="] ++ ((fun d => [d]) <$> dec (next_uid r)) ++ [[10; 10]]).
  assert (Hh : mjoin hp = header r).
  { unfold hp, header. rewrite !join_app, join_singletons. cbn -[dec]. by rewrite <- ?app_assoc. }
  transitivity (b ← append_each cap [] hp; append_accounts cap b (accounts r)).
  { unfold hp, append_text. cbn [app append_each].
    destruct (append_bytes cap [] _) as [b1|]; cbn [mbind option_bind]; [|done].
    destruct (append_bytes cap b1 _) as [b2|]; cbn [mbind option_bind]; [|done].
    rewrite append_each_app. unfold append_u32. fold (dec (next_uid r)).
    destruct (append_each cap b2 _) as [b3|]; cbn [mbind option_bind]; [|done]. by rewrite append_one. }
  rewrite append_each_spec, Hh by exact Hc. cbn [app]. unfold registry_text.
  destruct (Z.ltb_spec cap (strlen (header r))); cbn [mbind option_bind].
  - destruct (Z.ltb_spec cap (strlen (header r ++ mjoin ((fun a => account_text a ++ [10]) <$> accounts r)))); [done|].
    unfold strlen in *. rewrite length_app in *. lia.
  - apply append_accounts_spec; [done|]. eapply Forall_impl; [apply (ro_users r Ho)|]. by intros a (_ & _ & ?).
Qed.

(** * Numbers *)

Lemma uid_from_app l1 l2 v : uid_from (l1 ++ l2) v = (v ← uid_from l1 v; uid_from l2 v).
Proof.
  revert v. induction l1 as [|c l1 IH]; intros v; cbn [app uid_from]; [done|].
  destruct (negb (digit c)); [done|]. cbv zeta. destruct (_ <? _); [done|apply IH].
Qed.
Lemma uid_from_decimal fuel n :
  is_u32 n -> n < 10 ^ Z.of_nat fuel -> uid_from (reverse (decimal fuel n)) 0 = Some n.
Proof.
  revert n. induction fuel as [|fuel IH]; intros n Hn Hf.
  { cbn in *. unfold is_u32 in Hn. f_equal. lia. }
  cbn [decimal]. destruct (Z.eqb_spec n 0) as [->|Hz]; [done|].
  rewrite Nat2Z.inj_succ, Z.pow_succ_r in Hf by lia. unfold is_u32 in Hn.
  assert (Hq : 0 <= n / 10 < 4294967296 /\ n / 10 < 10 ^ Z.of_nat fuel /\ 0 <= n mod 10 < 10 /\ n = 10 * (n / 10) + n mod 10)
    by (Z.div_mod_to_equations; lia).
  destruct Hq as (Hq1 & Hq2 & Hr & E). rewrite reverse_cons, uid_from_app, (IH (n / 10)) by done. cbn [mbind option_bind uid_from].
  unfold digit. replace ((48 <=? 48 + n mod 10) && (48 + n mod 10 <=? 57)) with true by lia. cbn [negb]. cbv zeta.
  replace (48 + n mod 10 - 48) with (n mod 10) by lia.
  destruct (Z.ltb_spec ((U32_MAX - n mod 10) / 10) (n / 10)) as [H|H].
  { unfold U32_MAX in H. exfalso. revert H. generalize dependent (n mod 10). generalize dependent (n / 10).
    intros q Hq1 Hq2 r Hr E H. Z.div_mod_to_equations. lia. }
  f_equal. rewrite u32_id; unfold is_u32; lia.
Qed.
Lemma decimal_are_digits fuel n : 0 <= n -> Forall (fun c => digit c = true) (decimal fuel n).
Proof.
  revert n. induction fuel as [|fuel IH]; intros n Hn; cbn [decimal]; [apply Forall_nil_2|].
  destruct (n =? 0); [apply Forall_nil_2|]. apply Forall_cons. unfold digit.
  split; [Z.div_mod_to_equations; lia|]. apply IH. Z.div_mod_to_equations. lia.
Qed.
Lemma dec_digits n : 0 <= n -> Forall (fun c => digit c = true) (dec n) /\ dec n <> [].
Proof.
  intros Hn. unfold dec. destruct (Z.eqb_spec n 0) as [->|Hz]; [split; [by_decision|done]|]. split.
  - apply Forall_reverse. by apply decimal_are_digits.
  - cbn [decimal]. destruct (Z.eqb_spec n 0); [lia|]. rewrite reverse_cons. by destruct (reverse _).
Qed.
Lemma parse_dec n : is_u32 n -> parse_uid (dec n) = Some n.
Proof.
  intros Hn. destruct (dec_digits n) as [_ H]; [apply Hn|]. unfold parse_uid. destruct (dec n) as [|c l] eqn:E; [done|].
  rewrite <- E. unfold dec. destruct (Z.eqb_spec n 0) as [->|]; [done|]. apply uid_from_decimal; [done|].
  unfold is_u32 in Hn. change (10 ^ Z.of_nat 10) with 10000000000. lia.
Qed.

Definition hex_char (c : Z) : bool := digit c || ((97 <=? c) && (c <=? 102)).
Lemma hex_byte b : is_u8 b ->
  forallb hex_char (hex b) = true /\ hex_pairs (hex b) = Some [b].
Proof.
  intros Hb.
  assert (H : forallb (fun b => forallb hex_char (hex b) && bool_decide (hex_pairs (hex b) = Some [b])) (seqZ 0 256) = true)
    by (vm_compute; reflexivity).
  rewrite forallb_forall in H. specialize (H b). apply andb_true_iff in H as [H1 H2].
  - split; [done|]. by apply bool_decide_eq_true in H2.
  - apply list_elem_of_In, elem_of_seqZ. unfold is_u8 in Hb. lia.
Qed.
Lemma hex_pairs_text l : Forall is_u8 l -> hex_pairs (mjoin (hex <$> l)) = Some l.
Proof.
  induction 1 as [|b l Hb _ IH]; [done|]. cbn [fmap list_fmap]. rewrite join_cons.
  apply hex_byte in Hb as [_ Hb]. unfold hex in *. cbn [app hex_pairs] in *. rewrite IH.
  destruct (_ || _); [done|]. cbn in *. congruence.
Qed.
Lemma length_hex_text l : length (mjoin (hex <$> l)) = (length l * 2)%nat.
Proof. induction l as [|b l IH]; [done|]. cbn [fmap list_fmap]. rewrite join_cons, length_app, IH. cbn. lia. Qed.
Lemma parse_hex_text l n : Forall is_u8 l -> length l = n -> parse_hex (mjoin (hex <$> l)) n = Some l.
Proof. intros H <-. unfold parse_hex. rewrite length_hex_text, Nat.eqb_refl. by apply hex_pairs_text. Qed.

(** * Fields of a line *)

Definition stops (f : Z -> bool) (l : list Z) : Prop := match l with [] => True | c :: _ => f c = false end.
Lemma while_app f l rest :
  Forall (fun c => f c = true) l -> stops f rest ->
  take_while f (l ++ rest) = l /\ drop_while f (l ++ rest) = rest.
Proof.
  intros H Hs. induction H as [|c l Hc _ [IH1 IH2]]; cbn [app take_while drop_while].
  - destruct rest as [|c rest]; [done|]. cbn in *. by rewrite Hs.
  - rewrite Hc, IH1, IH2. done.
Qed.
Lemma drop_while_stops f l : stops f l -> drop_while f l = l.
Proof. destruct l as [|c l]; [done|]. cbn. by intros ->. Qed.

(** Visible characters other than the quote and the slash. *)
Definition plain (c : Z) : bool := (33 <=? c) && (c <? 127) && negb (c =? 34) && negb (c =? 47).
Definition all_plain (l : list Z) : Prop := Forall (fun c => plain c = true) l.
Definition visible (c : Z) : bool := plain c || (c =? 47).
Definition good_item (kv : list Z * list Z) : Prop :=
  (all_plain (fst kv) /\ Forall (fun c => c <> 61) (fst kv) /\ fst kv <> []) /\
  Forall (fun c => visible c = true) (snd kv) /\ snd kv <> [].

Lemma stops_items kvs : stops value_char (mjoin (item <$> kvs)).
Proof. by destruct kvs. Qed.

Lemma parse_field_step fuel v st kv rest :
  good_item kv -> stops value_char rest ->
  parse_fields (S fuel) v st (item kv ++ rest) =
    (st ← key_value v st (fst kv) (snd kv); parse_fields fuel v st rest).
Proof.
  destruct kv as [key value]. intros [(Hp & He & Hk) [Hv Hn]] Hs. cbn [fst snd] in *. unfold item. cbn [fst snd].
  destruct key as [|k key]; [done|]. destruct value as [|c value]; [done|].
  assert (Hkc : Forall (fun c => key_char c = true) (k :: key)).
  { apply Forall_forall. intros x Hx. unfold all_plain in Hp. rewrite Forall_forall in Hp. rewrite Forall_forall in He. specialize (Hp x Hx). specialize (He x Hx).
    cbn in Hp, He. unfold key_char, blank, plain in *. lia. }
  assert (Hvc : Forall (fun c => value_char c = true) (c :: value)).
  { eapply Forall_impl; [exact Hv|]. intros x. cbn. unfold value_char, blank, visible, plain. lia. }
  destruct (while_app key_char (k :: key) (61 :: (c :: value) ++ rest) Hkc) as [E1 E2]; [done|].
  destruct (while_app value_char (c :: value) rest Hvc Hs) as [E3 E4].
  assert (Hd : drop_while blank (32 :: (k :: key) ++ 61 :: (c :: value) ++ rest) = (k :: key) ++ 61 :: (c :: value) ++ rest).
  { change (drop_while blank ((k :: key) ++ 61 :: (c :: value) ++ rest) = (k :: key) ++ 61 :: (c :: value) ++ rest).
    apply drop_while_stops. cbn. apply Forall_cons in Hp as [Hp _]. unfold plain, blank in *. lia. }
  change ((32 :: (k :: key) ++ 61 :: c :: value) ++ rest) with (32 :: ((k :: key) ++ 61 :: c :: value) ++ rest).
  rewrite <- app_assoc. change ((61 :: c :: value) ++ rest) with (61 :: (c :: value) ++ rest).
  cbn [parse_fields]. rewrite Hd. cbn [app] in *. cbv zeta. rewrite E1, E2, E3, E4. done.
Qed.

Fixpoint apply_items (v : Z) (st : fields) (kvs : list (list Z * list Z)) : option fields :=
  match kvs with
  | [] => Some st
  | kv :: kvs => st ← key_value v st (fst kv) (snd kv); apply_items v st kvs
  end.
Lemma parse_items fuel v st kvs :
  Forall good_item kvs -> (length kvs < fuel)%nat ->
  parse_fields fuel v st (mjoin (item <$> kvs)) = apply_items v st kvs.
Proof.
  intros H. revert fuel st. induction H as [|kv kvs Hk _ IH]; intros [|fuel] st Hf; cbn [length] in Hf; [lia|done|lia|].
  cbn [fmap list_fmap apply_items]. rewrite join_cons, parse_field_step by (done || apply stops_items).
  apply bind_same. intros st'. apply IH. lia.
Qed.

Lemma plain_digits l : Forall (fun c => digit c = true) l -> all_plain l.
Proof. intros H. eapply Forall_impl; [exact H|]. intros c. unfold digit, plain. lia. Qed.
Lemma plain_username name : username_valid name = true -> all_plain name /\ name <> [].
Proof.
  intros H. apply username_facts in H as (Hl & _ & H). split; [|by destruct name; [cbn in Hl; lia|]].
  eapply Forall_impl; [exact H|]. intros c. unfold username_char, lower, digit, plain. lia.
Qed.
Lemma plain_hex l : Forall is_u8 l -> all_plain (mjoin (hex <$> l)).
Proof.
  induction 1 as [|b l Hb _ IH]; [apply Forall_nil_2|]. cbn [fmap list_fmap]. rewrite join_cons.
  apply Forall_app. split; [|done]. apply hex_byte in Hb as [Hb _]. rewrite forallb_forall in Hb.
  apply Forall_forall. intros c Hc. apply list_elem_of_In, Hb in Hc. unfold hex_char, digit, plain in *. lia.
Qed.
Lemma visible_plain l : all_plain l -> Forall (fun c => visible c = true) l.
Proof. intros H. eapply Forall_impl; [exact H|]. intros c Hc. unfold visible. by rewrite Hc. Qed.
Lemma plain_role u : all_plain (role_text u).
Proof. unfold role_text. destruct (_ =? _); by_decision. Qed.
Lemma plain_flags u : all_plain (flags_text u).
Proof. unfold flags_text. destruct (initial u); by_decision. Qed.

Lemma good_plain key value :
  all_plain key -> Forall (fun c => c <> 61) key -> key <> [] -> all_plain value -> value <> [] ->
  good_item (key, value).
Proof. intros. split; [done|]. split; [by apply visible_plain|done]. Qed.

Lemma hex_text_not_nil l : l <> [] -> mjoin (hex <$> l) <> [].
Proof. by destruct l. Qed.

Lemma auth_items_good a :
  account_wf a -> Forall good_item (auth_items (auth a)) /\ Forall (fun kv => all_plain (snd kv)) (auth_items (auth a)).
Proof.
  intros [_ _ _ _ Hi [Ls Hs] [Lh Hh]]. unfold auth_items.
  destruct (dec_digits (iterations (auth a))) as [Hd Hd']; [apply Hi|].
  assert (Ns : salt (auth a) <> []) by (intros E; rewrite E in Ls; done).
  assert (Nh : hash (auth a) <> []) by (intros E; rewrite E in Lh; done).
  destruct (_ =? _); split; repeat first [apply Forall_cons; split|apply Forall_nil_2]; cbn [snd];
    first [apply good_plain; [by_decision|by_decision|done| |]|idtac];
    first [apply plain_hex; done|apply plain_digits; done|apply hex_text_not_nil; done|exact Hd'|by_decision|done].
Qed.
Lemma items_good a : account_wf a -> user_ok (user a) -> Forall good_item (items a).
Proof.
  intros Hw Hu. apply Forall_app. split; [|apply auth_items_good, Hw].
  destruct (dec_digits (uid (user a))) as [Hd Hd']; [apply (wf_uid a Hw)|].
  destruct (plain_username _ (uo_name _ Hu)) as [Hn Hn']. pose proof (uo_home _ Hu) as Hh.
  repeat first [apply Forall_cons; split|apply Forall_nil_2].
  - apply good_plain; [by_decision|by_decision|done|by apply plain_digits|done].
  - apply good_plain; [by_decision|by_decision|done|done|done].
  - apply good_plain; [by_decision|by_decision|done|apply plain_role|].
    unfold role_text. by destruct (_ =? _).
  - split; [split; [by_decision|split; [by_decision|done]]|]. cbn [snd]. rewrite Hh. split; [|done].
    apply Forall_app. split; [by_decision|by apply visible_plain].
  - apply good_plain; [by_decision|by_decision|done|apply plain_flags|].
    unfold flags_text. by destruct (initial _).
Qed.

Lemma copy_name u : user_ok u -> copy_span (username u) IDENTITY_USERNAME_CAPACITY = Some (username u).
Proof.
  intros H. pose proof (uo_name _ H) as Hn. unfold copy_span. rewrite c_str_id by by apply username_c_string.
  apply username_facts in Hn as (Hl & _). unfold strlen, IDENTITY_USERNAME_CAPACITY.
  destruct (_ || _) eqn:E; [lia|done].
Qed.
Lemma copy_home u : user_ok u -> c_string (home u) -> copy_span (home u) IDENTITY_HOME_CAPACITY = Some (home u).
Proof.
  intros H Hc. unfold copy_span. rewrite c_str_id by done. rewrite (uo_home _ H).
  pose proof (uo_name _ H) as Hn. apply username_facts in Hn as (Hl & _).
  unfold strlen, IDENTITY_HOME_CAPACITY. rewrite length_app. change (length (str "/home/")) with 6%nat.
  destruct (_ || _) eqn:E; [lia|done].
Qed.
Lemma parse_role_text u : user_ok u -> parse_role (role_text u) = Some (role u).
Proof. intros [_ [E|E] _ _ _]; unfold role_text; rewrite E; done. Qed.
Lemma parse_flags_text u : user_ok u -> parse_flags (flags_text u) = Some (flags u).
Proof. intros [_ _ [E|E] _ _]; unfold flags_text, initial; rewrite E; done. Qed.

Definition blank_auth : identity_authentication_t := Authentication 0 0 (replicate 16 0) (replicate 32 0).
Lemma user_items v a rest :
  account_wf a -> user_ok (user a) ->
  apply_items v no_fields
    ([(str "uid", dec (uid (user a))); (str "username", username (user a)); (str "role", role_text (user a));
      (str "home", home (user a)); (str "flags", flags_text (user a))] ++ rest) =
  apply_items v (Fields (user a) blank_auth 31 []) rest.
Proof.
  intros Hw Hu. cbn [app apply_items fst snd].
  change (key_value v no_fields (str "uid") ?n) with
    (x ← parse_uid n; Some (Fields (User x [] 0 [] 0) blank_auth 1 [])).
  rewrite parse_dec by apply (wf_uid a Hw). cbn [mbind option_bind].
  change (key_value v (Fields (User ?x _ _ _ _) _ _ _) (str "username") ?n) with
    (y ← copy_span n IDENTITY_USERNAME_CAPACITY; Some (Fields (User x y 0 [] 0) blank_auth 3 [])).
  rewrite copy_name by done. cbn [mbind option_bind].
  change (key_value v (Fields (User ?x ?y _ _ _) _ _ _) (str "role") ?n) with
    (z ← parse_role n; Some (Fields (User x y z [] 0) blank_auth 7 [])).
  rewrite parse_role_text by done. cbn [mbind option_bind].
  change (key_value v (Fields (User ?x ?y ?z _ _) _ _ _) (str "home") ?n) with
    (h ← copy_span n IDENTITY_HOME_CAPACITY; Some (Fields (User x y z h 0) blank_auth 15 [])).
  rewrite copy_home by (done || apply (wf_home a Hw)). cbn [mbind option_bind].
  change (key_value v (Fields (User ?x ?y ?z ?h _) _ _ _) (str "flags") ?n) with
    (f ← parse_flags n; Some (Fields (User x y z h f) blank_auth 31 [])).
  rewrite parse_flags_text by done. cbn [mbind option_bind]. by destruct (user a).
Qed.

Lemma all_zero_replicate l : all_zero l = true -> l = replicate (length l) 0.
Proof.
  induction l as [|x l IH]; [done|]. unfold all_zero in *. cbn [forallb]. intros H. apply andb_true_iff in H as [H1 H2].
  cbn. f_equal; [lia|by apply IH].
Qed.
Lemma none_is_blank a :
  account_wf a -> algorithm (auth a) = IDENTITY_AUTH_NONE -> password_auth_valid (auth a) = true -> auth a = blank_auth.
Proof.
  intros [_ _ _ _ _ [Ls _] [Lh _]] Ha. unfold password_auth_valid. rewrite Ha. cbn [Z.eqb IDENTITY_AUTH_NONE].
  intros H. apply andb_true_iff in H as [H Hh]. apply andb_true_iff in H as [Hi Hs].
  apply all_zero_replicate in Hs, Hh. rewrite Ls in Hs. rewrite Lh in Hh. destruct (auth a) as [alg it sa ha]. cbn in *.
  unfold blank_auth. apply Z.eqb_eq in Hi. by subst.
Qed.

Definition parsed_auth (a : identity_authentication_t) : fields -> Prop := fun st =>
  if algorithm a =? IDENTITY_AUTH_NONE then f_seen st = 63 /\ f_auth st = blank_auth /\ f_algorithm st = str "none"
  else f_seen st = 511 /\ f_auth st = with_algorithm a 0 /\ f_algorithm st = str "pbkdf2-sha256".
Lemma auth_items_parsed a :
  account_wf a ->
  exists st, apply_items 2 (Fields (user a) blank_auth 31 []) (auth_items (auth a)) = Some st /\
    f_user st = user a /\ parsed_auth (auth a) st.
Proof.
  intros [_ _ _ _ Hi [Ls Hs] [Lh Hh]]. unfold parsed_auth, auth_items.
  destruct (_ =? _); cbn [apply_items fst snd].
  { eexists. split; [reflexivity|]. done. }
  change (key_value 2 (Fields (user a) blank_auth 31 []) (str "auth") (str "pbkdf2-sha256")) with
    (Some (Fields (user a) blank_auth 63 (str "pbkdf2-sha256"))). cbn [mbind option_bind].
  change (key_value 2 (Fields _ _ _ ?g) (str "salt") ?n) with
    (x ← parse_hex n IDENTITY_PASSWORD_SALT_BYTES; Some (Fields (user a) (Authentication 0 0 x (replicate 32 0)) 127 g)).
  rewrite parse_hex_text by done. cbn [mbind option_bind].
  change (key_value 2 (Fields _ (Authentication _ _ ?x _) _ ?g) (str "iterations") ?n) with
    (y ← parse_uid n; Some (Fields (user a) (Authentication 0 y x (replicate 32 0)) 255 g)).
  rewrite parse_dec by done. cbn [mbind option_bind].
  change (key_value 2 (Fields _ (Authentication _ ?y ?x _) _ ?g) (str "hash") ?n) with
    (z ← parse_hex n IDENTITY_PASSWORD_HASH_BYTES; Some (Fields (user a) (Authentication 0 y x z) 511 g)).
  rewrite parse_hex_text by done. cbn [mbind option_bind]. eexists. split; [reflexivity|]. done.
Qed.

Lemma length_items kvs : (length kvs <= length (mjoin (item <$> kvs)))%nat.
Proof. induction kvs as [|kv kvs IH]; [done|]. cbn [fmap list_fmap]. rewrite join_cons, length_app. cbn. lia. Qed.

Lemma memcmp_prefix p l : memcmp (p ++ l) p (length p) = 0.
Proof. induction p as [|x p IH]; [by destruct l|]. cbn. by rewrite decide_False by auto. Qed.

Lemma account_prefix l :
  stops value_char l -> let line := str "account" ++ l in
  drop_while blank line = line /\
  ((length line <? 7)%nat || negb (memcmp line (str "account") 7 =? 0) ||
   match drop 7 line with c :: _ => negb (blank c) | [] => false end) = false /\ drop 7 line = l.
Proof.
  intros Hs. cbv zeta. split; [done|]. split; [|done]. cbn [str]. change (drop 7 (str "account" ++ l)) with l.
  replace (length (str "account" ++ l) <? 7)%nat with false.
  2: { symmetry. apply Nat.ltb_ge. rewrite length_app. change (length (str "account")) with 7%nat. lia. }
  change 7%nat with (length (str "account")) at 1. rewrite memcmp_prefix. cbn [orb negb Z.eqb]. destruct l as [|c l]; [done|].
  cbn in Hs. unfold value_char in Hs. done.
Qed.

Lemma parse_account_text a :
  account_wf a -> user_ok (user a) -> password_auth_valid (auth a) = true ->
  parse_account_line (account_text a) 2 = Some a.
Proof.
  intros Hw Hu Ha. unfold parse_account_line, account_text.
  destruct (account_prefix (mjoin (item <$> items a)) (stops_items _)) as (E1 & E2 & E3). cbv zeta in *.
  rewrite E1, E2, E3. rewrite parse_items; [|by apply items_good|].
  2: { rewrite length_app. pose proof (length_items (items a)). change (length (str "account")) with 7%nat. lia. }
  unfold items. rewrite user_items by done.
  destruct (auth_items_parsed a Hw) as (st & -> & Eu & Hp). cbn [mbind option_bind].
  assert (Hv : identity_user_valid (f_user st) = true).
  { rewrite Eu. apply user_valid_iff; [apply (wf_flags a Hw)|apply (wf_home a Hw)|done]. }
  rewrite Hv, Eu. unfold parsed_auth in Hp. unfold saw, checked. cbn [Z.eqb Pos.eqb].
  destruct (Z.eqb_spec (algorithm (auth a)) IDENTITY_AUTH_NONE) as [E|E]; destruct Hp as (-> & -> & ->).
  - cbn -[password_auth_valid]. change (with_algorithm blank_auth IDENTITY_AUTH_NONE) with blank_auth.
    rewrite <- (none_is_blank a) by done. rewrite Ha. by destruct a.
  - assert (Ealg : algorithm (auth a) = IDENTITY_AUTH_PBKDF2_SHA256).
    { unfold password_auth_valid in Ha. destruct (Z.eqb_spec (algorithm (auth a)) IDENTITY_AUTH_NONE); [done|]. lia. }
    assert (X : with_algorithm (with_algorithm (auth a) 0) IDENTITY_AUTH_PBKDF2_SHA256 = auth a).
    { unfold with_algorithm. cbn. rewrite <- Ealg. by destruct (auth a). }
    cbn -[password_auth_valid with_algorithm]. rewrite X, Ha. by destruct a.
Qed.

(** * Lines *)

(** Nothing in a line that starts or ends a comment, a quotation or the line. *)
Lemma before_comment_app l r :
  Forall (fun c => c <> 34 /\ c <> 47) l -> before_comment false r = None -> before_comment false (l ++ r) = None.
Proof.
  intros H Hr. induction H as [|c l [H1 H2] _ IH]; [done|]. cbn [app before_comment].
  destruct (l ++ r) as [|b x]; [done|]. destruct (Z.eqb_spec c 34); [done|]. destruct (Z.eqb_spec c 47); [done|].
  cbn [negb andb]. by rewrite IH.
Qed.
Lemma before_comment_plain l : Forall (fun c => c <> 34 /\ c <> 47) l -> before_comment false l = None.
Proof. intros H. rewrite <- (app_nil_r l). by apply before_comment_app. Qed.
Lemma before_comment_slash c r : c <> 47 -> before_comment false (c :: r) = None -> before_comment false (47 :: c :: r) = None.
Proof.
  intros H E. change (before_comment false (47 :: c :: r)) with
    (if c =? 47 then Some [] else cons 47 <$> before_comment false (c :: r)).
  destruct (Z.eqb_spec c 47); [done|]. by rewrite E.
Qed.

Lemma drop_end_stops f l c : f c = false -> drop_end f (l ++ [c]) = l ++ [c].
Proof.
  intros H. unfold drop_end. rewrite reverse_app. change (reverse [c]) with [c]. cbn [app drop_while]. rewrite H.
  change (c :: reverse l) with (reverse [c] ++ reverse l). by rewrite <- reverse_app, reverse_involutive.
Qed.

(** A line that trimming leaves as it is. *)
Definition tidy (l : list Z) : Prop :=
  Forall (fun c => c <> 10) l /\ stops blank_or_cr l /\ (exists x c, l = x ++ [c] /\ blank_or_cr c = false) /\
  before_comment false l = None.
Lemma trim_tidy l : tidy l -> trim_line l = l.
Proof.
  intros (_ & Hs & (x & c & -> & Hc) & Hb). unfold trim_line.
  rewrite drop_while_stops, drop_end_stops, Hb by done. done.
Qed.
Lemma tidy_end l v : v <> [] -> all_plain v -> exists x c, l ++ v = x ++ [c] /\ blank_or_cr c = false.
Proof.
  intros Hv H. destruct v as [|c v _] using rev_ind; [done|]. exists (l ++ v), c.
  rewrite app_assoc. split; [done|]. apply Forall_app in H as [_ H]. apply Forall_cons in H as [H _].
  unfold blank_or_cr, blank, plain in *. lia.
Qed.
Lemma split_line l rest current :
  Forall (fun c => c <> 10) l -> split_lines (l ++ 10 :: rest) current = (current ++ l) :: split_lines rest [].
Proof.
  intros H. revert current. induction H as [|c l Hc _ IH]; intros current; cbn [app split_lines].
  - by rewrite app_nil_r.
  - destruct (Z.eqb_spec c 10); [done|]. by rewrite IH, <- app_assoc.
Qed.

Lemma plain_quiet l : all_plain l -> Forall (fun c => c <> 34 /\ c <> 47) l.
Proof. intros H. eapply Forall_impl; [exact H|]. intros c. cbn. unfold plain. lia. Qed.
Lemma item_quiet kv : good_item kv -> all_plain (snd kv) -> Forall (fun c => c <> 34 /\ c <> 47) (item kv).
Proof.
  intros [(Hk & _) _] Hv. unfold item. apply Forall_cons. split; [done|]. apply Forall_app.
  split; [by apply plain_quiet|]. apply Forall_cons. split; [done|by apply plain_quiet].
Qed.
Lemma items_quiet kvs :
  Forall good_item kvs -> Forall (fun kv => all_plain (snd kv)) kvs ->
  Forall (fun c => c <> 34 /\ c <> 47) (mjoin (item <$> kvs)).
Proof.
  intros H. induction H as [|kv kvs Hk _ IH]; intros H2; [apply Forall_nil_2|]. apply Forall_cons in H2 as [H2 H3].
  cbn [fmap list_fmap]. rewrite join_cons. apply Forall_app. split; [by apply item_quiet|by apply IH].
Qed.
Lemma items_no_newline kvs : Forall good_item kvs -> Forall (fun c => c <> 10) (mjoin (item <$> kvs)).
Proof.
  induction 1 as [|kv kvs [(Hk & _) [Hv _]] _ IH]; [apply Forall_nil_2|]. cbn [fmap list_fmap]. rewrite join_cons.
  apply Forall_app. split; [|done]. unfold item. apply Forall_cons. split; [done|]. apply Forall_app. split.
  - eapply Forall_impl; [exact Hk|]. intros c. cbn. unfold plain. lia.
  - apply Forall_cons. split; [done|]. eapply Forall_impl; [exact Hv|]. intros c. cbn. unfold visible, plain. lia.
Qed.

Lemma items_end pre kvs kv :
  all_plain (snd kv) -> snd kv <> [] ->
  exists x c, pre ++ mjoin (item <$> kvs ++ [kv]) = x ++ [c] /\ blank_or_cr c = false.
Proof.
  intros Hp Hn. rewrite fmap_app, join_app. cbn [fmap list_fmap]. rewrite join_cons. unfold item at 2.
  change (mjoin []) with (@nil Z). rewrite app_nil_r.
  replace (pre ++ mjoin (item <$> kvs) ++ 32 :: fst kv ++ 61 :: snd kv)
    with ((pre ++ mjoin (item <$> kvs) ++ 32 :: fst kv ++ [61]) ++ snd kv); [by apply tidy_end|].
  rewrite <- !app_assoc. cbn [app]. by rewrite <- app_assoc.
Qed.

Lemma account_tidy a : account_wf a -> user_ok (user a) -> tidy (account_text a).
Proof.
  intros Hw Hu. pose proof (items_good a Hw Hu) as Hg. destruct (auth_items_good a Hw) as [Hga Hpa].
  split; [|split; [|split]].
  - apply Forall_app. split; [by_decision|by apply items_no_newline].
  - done.
  - assert (Hl : exists kvs kv, auth_items (auth a) = kvs ++ [kv]).
    { unfold auth_items. destruct (_ =? _); [by exists [], (str "auth", str "none")|].
      by eexists [_; _; _], _. }
    destruct Hl as (kvs & kv & E). unfold account_text, items. rewrite E in *. rewrite app_assoc.
    apply Forall_app in Hga as [_ Hga], Hpa as [_ Hpa]. apply Forall_cons in Hga as [[_ [_ Hn]] _], Hpa as [Hp _].
    by apply items_end.
  - destruct (dec_digits (uid (user a))) as [Hd _]; [apply (wf_uid a Hw)|]. apply plain_digits, plain_quiet in Hd.
    destruct (plain_username _ (uo_name _ Hu)) as [Hn Hn']. pose proof (uo_home _ Hu) as Hh.
    set (U := [(str "uid", dec (uid (user a))); (str "username", username (user a)); (str "role", role_text (user a))]).
    set (V := (str "flags", flags_text (user a)) :: auth_items (auth a)).
    assert (E : account_text a = (str "account" ++ mjoin (item <$> U) ++ str " home=") ++ 47 :: str "home" ++
      47 :: username (user a) ++ mjoin (item <$> V)).
    { unfold account_text, items. fold U.
      change ([(str "uid", dec (uid (user a))); (str "username", username (user a)); (str "role", role_text (user a));
        (str "home", home (user a)); (str "flags", flags_text (user a))]) with (U ++ [(str "home", home (user a)); (str "flags", flags_text (user a))]).
      rewrite <- app_assoc, fmap_app, join_app. cbn [app fmap list_fmap]. rewrite join_cons. unfold V. cbn [fmap list_fmap].
      unfold item at 2. cbn [fst snd]. rewrite Hh. rewrite <- !app_assoc. reflexivity. }
    assert (HgU : Forall good_item U) by (unfold items in Hg; repeat (apply Forall_cons in Hg as [? Hg]); repeat (apply Forall_cons; split; [done|]); apply Forall_nil_2).
    assert (HgV : Forall good_item V).
    { unfold items in Hg. cbn [app] in Hg. do 4 apply Forall_cons in Hg as [_ Hg]. exact Hg. }
    rewrite E. apply before_comment_app.
    { apply Forall_app. split; [by_decision|]. apply Forall_app. split; [|by_decision]. apply items_quiet; [done|].
      repeat (apply Forall_cons; split); [by apply plain_digits, dec_digits, (wf_uid a Hw)|done|apply plain_role|apply Forall_nil_2]. }
    change (47 :: str "home" ++ ?x) with (47 :: 104 :: (str "ome" ++ x)). apply before_comment_slash; [done|].
    change (104 :: str "ome" ++ ?x) with (str "home" ++ x). apply before_comment_app; [by_decision|].
    destruct (username (user a)) as [|c name]; [done|]. cbn [app]. apply Forall_cons in Hn as [Hc Hn].
    apply before_comment_slash; [unfold plain in Hc; lia|]. change (c :: name ++ ?x) with ((c :: name) ++ x).
    apply before_comment_app; [apply plain_quiet; by apply Forall_cons|]. apply before_comment_plain, items_quiet; [done|].
    apply Forall_cons. split; [apply plain_flags|done].
Qed.

Lemma parse_account_step next before n mig a :
  account_wf a -> account_ok next a -> Forall account_wf before -> NoDup (uids (before ++ [a])) ->
  NoDup (names (before ++ [a])) -> (length before < 64)%nat ->
  parse_line (Db (Some 2) (Some next) before n mig) (account_text a) =
    Some (Db (Some 2) (Some next) (before ++ [a]) (n + if initial (user a) then 1 else 0) mig).
Proof.
  intros Hw (Hu & _ & Ha) Hb N1 N2 Hl. unfold parse_line. rewrite trim_tidy by by apply account_tidy.
  change (match account_text a with [] => ?x | _ => ?y end) with y. cbn [db_version db_next_uid db_accounts].
  unfold IDENTITY_ACCOUNT_MAX_RECORDS. destruct (Z.leb_spec 64 (Z.of_nat (length before))); [lia|].
  rewrite parse_account_text by done. cbn [mbind option_bind].
  assert (Hc : clashes (user a) before = false).
  { apply clashes_iff; [apply (wf_name a Hw)| |].
    { eapply Forall_impl; [exact Hb|]. intros b. apply wf_name. }
    unfold uids in N1. unfold names in N2. rewrite fmap_app in N1. rewrite fmap_app in N2.
    apply nodup_snoc in N1 as [N1 _]. apply nodup_snoc in N2 as [N2 _]. done. }
  rewrite Hc. cbn. destruct (initial (user a)); do 2 f_equal; lia.
Qed.
Lemma parse_account_lines next rest before n mig :
  Forall account_wf (before ++ rest) -> Forall (account_ok next) rest -> NoDup (uids (before ++ rest)) ->
  NoDup (names (before ++ rest)) -> (length (before ++ rest) <= 64)%nat ->
  parse_lines (Db (Some 2) (Some next) before n mig) (account_text <$> rest) =
    Some (Db (Some 2) (Some next) (before ++ rest) (n + initials rest) mig).
Proof.
  revert before n. induction rest as [|a rest IH]; intros before n Hw Ho N1 N2 Hl; cbn [fmap list_fmap parse_lines].
  { rewrite app_nil_r. unfold initials. cbn. do 2 f_equal. lia. }
  replace (before ++ a :: rest) with ((before ++ [a]) ++ rest) in * by (by rewrite <- app_assoc).
  apply Forall_cons in Ho as [Ha Ho]. pose proof Hw as Hw'. apply Forall_app in Hw' as [Hb _].
  apply Forall_app in Hb as [Hb Hwa]. apply Forall_cons in Hwa as [Hwa _].
  pose proof (length_app (before ++ [a]) rest) as L1. pose proof (length_app before [a]) as L2. cbn in L2.
  rewrite parse_account_step; [|done|done|done| | |lia].
  - cbn [mbind option_bind]. rewrite IH by (done || lia). unfold initials. cbn. do 2 f_equal. lia.
  - unfold uids in *. rewrite fmap_app in N1. by apply nodup_prefix in N1.
  - unfold names in *. rewrite fmap_app in N2. by apply nodup_prefix in N2.
Qed.

Lemma split_accounts l :
  Forall (fun a => account_wf a /\ user_ok (user a)) l ->
  split_lines (mjoin ((fun a => account_text a ++ [10]) <$> l)) [] = account_text <$> l.
Proof.
  induction 1 as [|a l [Hw Hu] _ IH]; [done|]. cbn [fmap list_fmap]. rewrite join_cons, <- app_assoc.
  change ([10] ++ ?x) with (10 :: x). rewrite split_line by apply (account_tidy a Hw Hu). by rewrite IH.
Qed.
Lemma next_line_tidy n : is_u32 n -> tidy (str "next_uid=" ++ dec n).
Proof.
  intros [Hn _]. destruct (dec_digits n Hn) as [Hd Hd']. apply plain_digits in Hd. split; [|split; [|split]].
  - apply Forall_app. split; [by_decision|]. eapply Forall_impl; [exact Hd|]. intros c. cbn. unfold plain. lia.
  - done.
  - by apply tidy_end.
  - apply before_comment_plain, Forall_app. split; [by_decision|by apply plain_quiet].
Qed.
Lemma parse_next next :
  is_u32 next ->
  parse_line (Db (Some 2) None [] 0 false) (str "next_uid=" ++ dec next) = Some (Db (Some 2) (Some next) [] 0 false).
Proof.
  intros Hn. unfold parse_line. rewrite trim_tidy by by apply next_line_tidy.
  change (match str "next_uid=" ++ dec next with [] => ?x | _ => ?y end) with y. cbn [db_version db_next_uid].
  destruct (while_app (fun c => negb (c =? 61)) (str "next_uid") (61 :: dec next)) as [E1 E2]; [by_decision|done|].
  change (str "next_uid=" ++ dec next) with (str "next_uid" ++ 61 :: dec next). rewrite E1, E2.
  change (span_equals (str "next_uid") (str "next_uid")) with true. cbn [negb]. rewrite parse_dec by done. done.
Qed.
Lemma parse_header next :
  is_u32 next ->
  parse_lines (Db None None [] 0 false) [str "version=2"; str "next_uid=" ++ dec next; []] =
    Some (Db (Some 2) (Some next) [] 0 false).
Proof.
  intros Hn. cbn [parse_lines]. change (parse_line (Db None None [] 0 false) (str "version=2")) with
    (Some (Db (Some 2) None [] 0 false)). cbn [mbind option_bind]. by rewrite parse_next.
Qed.
Lemma parse_lines_app d l1 l2 : parse_lines d (l1 ++ l2) = (d ← parse_lines d l1; parse_lines d l2).
Proof.
  revert d. induction l1 as [|l l1 IH]; intros d; cbn [app parse_lines]; [done|].
  destruct (parse_line d l); cbn [mbind option_bind]; [apply IH|done].
Qed.

Lemma parse_registry_text r :
  registry_wf r -> registry_ok r -> strlen (registry_text r) <= IDENTITY_ACCOUNT_DB_MAX_BYTES ->
  parse_database (registry_text r) = Some (r, false).
Proof.
  intros [Hw Hn] [Hc Hnx Hus N1 N2 Hi] Hl. unfold parse_database.
  replace ((strlen (registry_text r) =? 0) || _) with false.
  2: { assert (strlen (registry_text r) <> 0); [|unfold IDENTITY_ACCOUNT_DB_MAX_BYTES in *; lia]. unfold strlen, registry_text, header.
       rewrite !length_app. change (length (str "version=2")) with 9%nat. lia. }
  assert (E : split_lines (registry_text r) [] =
    [str "version=2"; str "next_uid=" ++ dec (next_uid r); []] ++ (account_text <$> accounts r)).
  { unfold registry_text, header. rewrite <- !app_assoc. cbn [app]. rewrite <- !app_assoc.
    rewrite split_line by by_decision. rewrite app_assoc. cbn [app].
    rewrite split_line by apply (next_line_tidy _ Hn). cbn [app split_lines Z.eqb Pos.eqb].
    rewrite split_accounts; [done|]. apply Forall_forall. intros a Ha. rewrite Forall_forall in Hw. rewrite Forall_forall in Hus.
    split; [by apply Hw|apply (Hus a Ha)]. }
  rewrite E, parse_lines_app, parse_header by done. cbn [mbind option_bind].
  rewrite parse_account_lines; [|done|done|done|done|unfold count, IDENTITY_ACCOUNT_MAX_RECORDS in Hc; cbn [app]; lia].
  cbn [mbind option_bind db_version db_next_uid db_accounts db_initial_count db_needs_migration app].
  fold (count r). unfold IDENTITY_ACCOUNT_MAX_RECORDS, IDENTITY_FIRST_USER_UID in *.
  replace ((count r =? 0) || _ || _) with false by lia.
  replace (existsb _ _) with false; [by destruct r|]. symmetry. apply not_true_is_false. intros X.
  apply existsb_exists in X as (a & Ha & X). apply list_elem_of_In in Ha. rewrite Forall_forall in Hus.
  destruct (Hus a Ha) as (_ & ? & _). lia.
Qed.

(** * Every accepted file *)

Lemma forall_while (P : Z -> Prop) f l : Forall P l -> Forall P (take_while f l) /\ Forall P (drop_while f l).
Proof.
  induction 1 as [|c l Hc H [IH1 IH2]]; cbn [take_while drop_while]; [done|].
  destruct (f c); [split; [by apply Forall_cons|done]|]. split; [apply Forall_nil_2|by apply Forall_cons].
Qed.
Lemma forall_before (P : Z -> Prop) q l r : Forall P l -> before_comment q l = Some r -> Forall P r.
Proof.
  intros H. revert q r. induction H as [|a l Ha H IH]; intros q r; cbn [before_comment]; [done|].
  destruct l as [|b l]; [done|]. destruct (negb _ && _ && _); [intros [= <-]; apply Forall_nil_2|].
  destruct (before_comment _ (b :: l)) eqn:E; cbn; [|done]. intros [= <-]. apply Forall_cons. split; [done|]. by eapply IH.
Qed.
Lemma forall_drop_end (P : Z -> Prop) f l : Forall P l -> Forall P (drop_end f l).
Proof. intros H. apply Forall_reverse, forall_while. by apply Forall_reverse. Qed.
Lemma forall_trim (P : Z -> Prop) l : Forall P l -> Forall P (trim_line l).
Proof.
  intros H. unfold trim_line. assert (H' : Forall P (drop_end blank_or_cr (drop_while blank_or_cr l)))
    by (apply forall_drop_end, forall_while, H).
  destruct (before_comment _ _) eqn:E; [|done]. eapply forall_drop_end, forall_before; [exact H'|exact E].
Qed.
Lemma forall_lines (P : Z -> Prop) text current :
  Forall P text -> Forall P current -> Forall (Forall P) (split_lines text current).
Proof.
  intros H. revert current. induction H as [|c text Hc H IH]; intros current Hcur; cbn [split_lines].
  - destruct current; [apply Forall_nil_2|]. by apply Forall_singleton.
  - destruct (c =? 10); [apply Forall_cons; split; [done|by apply IH, Forall_nil_2]|].
    apply IH, Forall_app. split; [done|by apply Forall_singleton].
Qed.

Lemma uid_from_range l v w : is_u32 v -> uid_from l v = Some w -> is_u32 w.
Proof.
  revert v. induction l as [|c l IH]; intros v Hv; cbn [uid_from]; [by intros [= <-]|].
  destruct (negb _); [done|]. cbv zeta. destruct (_ <? _); [done|]. apply IH, u32_range.
Qed.
Lemma parse_uid_range l w : parse_uid l = Some w -> is_u32 w.
Proof. unfold parse_uid. destruct l; [done|]. apply uid_from_range. by_decision. Qed.
Lemma parse_hex_range l n w : parse_hex l n = Some w -> length w = n /\ Forall is_u8 w.
Proof.
  unfold parse_hex. destruct (Nat.eqb_spec (length l) (n * 2)) as [H|]; [|done]. cbn [negb].
  revert l w H. induction n as [|n IH]; intros l w H.
  - destruct l; [|done]. cbn. intros [= <-]. split; [done|apply Forall_nil_2].
  - destruct l as [|h [|c l]]; [done|done|]. cbn [hex_pairs]. destruct (_ || _); [done|].
    destruct (hex_pairs l) as [t|] eqn:E; [|done]. cbn. intros [= <-].
    destruct (IH l t) as [H1 H2]; [cbn in H; lia|done|]. cbn. split; [lia|]. apply Forall_cons. split; [apply u8_range|done].
Qed.
Lemma copy_span_string l cap w : Forall is_u8 l -> copy_span l cap = Some w -> c_string w.
Proof.
  intros H. unfold copy_span. destruct (_ || _); [done|]. intros [= <-].
  induction H as [|c l Hc _ IH]; cbn; [apply Forall_nil_2|]. destruct (decide (c = 0)); [apply Forall_nil_2|].
  apply Forall_cons. split; [unfold is_u8 in Hc; lia|done].
Qed.
Lemma parse_flags_range l w : parse_flags l = Some w -> is_u32 w.
Proof.
  unfold parse_flags. destruct l; [done|]. destruct (span_equals _ _); [intros [= <-]; by_decision|].
  destruct (span_equals _ _); [intros [= <-]; by_decision|done].
Qed.

Create HintDb accounts_db.
#[export] Hint Resolve parse_uid_range parse_hex_range copy_span_string parse_flags_range : accounts_db.

Definition fields_wf (st : fields) : Prop := account_wf (Account (f_user st) (f_auth st)).
Ltac field_case :=
  match goal with
  | |- (if ?g then _ else _) = _ -> _ =>
      destruct g; [destruct (saw _ _); [done|];
        match goal with
        | |- (?o ≫= _) = _ -> _ =>
            let E := fresh in
            destruct o eqn:E; cbn [mbind option_bind]; [intros [= <-]; split; cbn; eauto with accounts_db|done]
        end|]
  end.
Lemma key_value_wf v st key value st' :
  Forall is_u8 value -> fields_wf st -> key_value v st key value = Some st' -> fields_wf st'.
Proof.
  intros Hv [W1 W2 W3 W4 W5 W6 W7]. unfold key_value. cbn [user auth] in *. repeat field_case. done.
Qed.
Lemma parse_fields_wf fuel v st rest st' :
  Forall is_u8 rest -> fields_wf st -> parse_fields fuel v st rest = Some st' -> fields_wf st'.
Proof.
  revert st rest. induction fuel as [|fuel IH]; intros st rest Hr Hs; cbn [parse_fields]; [by intros [= <-]|].
  destruct (forall_while _ blank rest Hr) as [_ Hd]. destruct (drop_while blank rest) as [|c d]; [by intros [= <-]|]. cbv zeta.
  destruct (forall_while _ key_char _ Hd) as [_ He]. destruct (take_while key_char (c :: d)) as [|k key]; [done|].
  destruct (drop_while key_char (c :: d)) as [|e r]; [done|].
  destruct (decide (e = 61)) as [->|Ne]; [|by destruct e as [|p|p]; repeat (try done; destruct p as [p|p|])].
  apply Forall_cons in He as [_ He]. destruct (forall_while _ value_char r He) as [H1 H2].
  destruct (take_while value_char r) as [|x value]; [done|].
  destruct (key_value v st (k :: key) (x :: value)) as [st1|] eqn:E; cbn [mbind option_bind]; [|done].
  apply IH; [done|]. eapply key_value_wf; [exact H1|exact Hs|exact E].
Qed.

Definition good (a : account) : Prop := account_wf a /\ user_ok (user a) /\ password_auth_valid (auth a) = true.
Lemma checked_good u a alg b :
  account_wf (Account u a) -> identity_user_valid u = true -> checked u (with_algorithm a alg) = Some b -> good b.
Proof.
  intros [W1 W2 W3 W4 W5 W6 W7] Hu. unfold checked. destruct (password_auth_valid _) eqn:E; [|done].
  intros [= <-]. split; [by split|]. split; [|done]. by apply user_valid_iff.
Qed.
Lemma parse_account_good line v a : Forall is_u8 line -> parse_account_line line v = Some a -> good a.
Proof.
  intros H. unfold parse_account_line. destruct (_ || _ || _); [done|].
  destruct (parse_fields _ _ _ _) as [st|] eqn:E; cbn [mbind option_bind]; [|done].
  apply parse_fields_wf in E; [|apply Forall_drop, forall_while, H|].
  2: { split; cbn; try by_decision. }
  destruct (identity_user_valid (f_user st)) eqn:Eu; [|by rewrite orb_true_r]. cbn [negb]. rewrite orb_false_r.
  repeat (match goal with |- (if ?g then _ else _) = _ -> _ => destruct g end; try done); by apply checked_good.
Qed.

Record db_ok (d : db) : Prop := {
  dk_good : Forall good (db_accounts d);
  dk_uids : NoDup (uids (db_accounts d));
  dk_names : NoDup (names (db_accounts d));
  dk_count : (length (db_accounts d) <= 64)%nat;
  dk_initial : db_initial_count d = initials (db_accounts d);
  dk_next : forall n, db_next_uid d = Some n -> is_u32 n;
}.
Lemma initials_snoc l a : initials (l ++ [a]) = initials l + if initial (user a) then 1 else 0.
Proof.
  unfold initials. induction l as [|b l IH]; cbn [app sumZ]; [cbn; lia|]. rewrite IH. lia.
Qed.
Lemma add_account_ok d a v :
  db_ok d -> good a -> clashes (user a) (db_accounts d) = false -> (length (db_accounts d) < 64)%nat ->
  db_ok (Db v (db_next_uid d) (db_accounts d ++ [a])
    (if initial (user a) then db_initial_count d + 1 else db_initial_count d) (db_needs_migration d)).
Proof.
  intros [G U N C I X] Ha Hc Hl. apply clashes_iff in Hc as [Hc1 Hc2]; [|apply (wf_name a), Ha|].
  2: { eapply Forall_impl; [exact G|]. intros b Hb. apply (wf_name b), Hb. }
  split; cbn [db_accounts db_initial_count db_next_uid].
  - apply Forall_app. split; [done|by apply Forall_singleton].
  - unfold uids. rewrite fmap_app. by apply nodup_snoc.
  - unfold names. rewrite fmap_app. by apply nodup_snoc.
  - rewrite length_app. cbn. lia.
  - rewrite initials_snoc, <- I. destruct (initial (user a)); lia.
  - exact X.
Qed.
Lemma parse_line_ok d raw d' : Forall is_u8 raw -> db_ok d -> parse_line d raw = Some d' -> db_ok d'.
Proof.
  intros Hr Hd. apply (forall_trim _ _) in Hr. pose proof Hd as [G U N C I X]. unfold parse_line. cbv zeta.
  destruct (trim_line raw) as [|c line] eqn:El; [by intros [= <-]|]. rewrite <- El in *.
  destruct (db_version d) as [v|] eqn:Ev.
  2: { destruct (span_equals _ _); [intros [= <-]; by split|]. destruct (span_equals _ _); [intros [= <-]; by split|done]. }
  destruct (db_next_uid d) as [n|] eqn:En.
  - destruct (Z.leb_spec IDENTITY_ACCOUNT_MAX_RECORDS (Z.of_nat (length (db_accounts d)))) as [|Hl]; [done|].
    unfold IDENTITY_ACCOUNT_MAX_RECORDS in Hl.
    destruct (parse_account_line _ _) as [a|] eqn:Ea; cbn [mbind option_bind]; [|done].
    apply parse_account_good in Ea; [|done]. destruct (clashes _ _) eqn:Ec; [done|]. intros [= <-].
    rewrite <- En. apply add_account_ok; [done|done|done|lia].
  - destruct (drop_while _ _) as [|e value]; [done|]. destruct (negb _); [done|].
    destruct (parse_uid value) as [m|] eqn:Em; cbn [mbind option_bind]; [|done]. intros [= <-].
    split; cbn; try done. intros ? [= <-]. by eapply parse_uid_range.
Qed.
Lemma parse_lines_ok ls d d' : Forall (Forall is_u8) ls -> db_ok d -> parse_lines d ls = Some d' -> db_ok d'.
Proof.
  intros H. revert d. induction H as [|l ls Hl _ IH]; intros d Hd; cbn [parse_lines]; [by intros [= <-]|].
  destruct (parse_line d l) as [d1|] eqn:E; cbn [mbind option_bind]; [|done]. apply IH. eapply parse_line_ok; [exact Hl|exact Hd|exact E].
Qed.
Lemma parse_database_ok text r m :
  Forall is_u8 text -> parse_database text = Some (r, m) -> registry_wf r /\ registry_ok r.
Proof.
  intros H. unfold parse_database. destruct (_ || _); [done|].
  destruct (parse_lines _ _) as [d|] eqn:E; cbn [mbind option_bind]; [|done].
  apply parse_lines_ok in E as [G U N C I X]; [|by apply forall_lines, Forall_nil_2|].
  2: { split; cbn; first [done|apply NoDup_nil_2|lia]. }
  destruct (db_version d); [|done]. destruct (db_next_uid d) as [next|] eqn:En; [|done].
  destruct (_ || _ || _) eqn:Ec; [done|]. destruct (existsb _ _) eqn:Ee; [done|]. intros [= <- _].
  unfold IDENTITY_FIRST_USER_UID in Ec. split; [split; cbn; [|by apply X]|].
  - eapply Forall_impl; [exact G|]. by intros a [? _].
  - split; unfold count, IDENTITY_ACCOUNT_MAX_RECORDS, IDENTITY_FIRST_USER_UID; cbn [accounts next_uid]; [lia|lia| |done|done|lia].
    apply Forall_forall. intros a Ha. rewrite Forall_forall in G. destruct (G a Ha) as (_ & Hu & Hp). split; [done|].
    split; [|done]. apply Z.nle_gt. intros Hle. apply not_true_iff_false in Ee. apply Ee, existsb_exists.
    exists a. split; [by apply list_elem_of_In|lia].
Qed.

(** * How many accounts fit *)

Lemma length_decimal fuel n k : 0 <= n < 10 ^ Z.of_nat k -> (length (decimal fuel n) <= k)%nat.
Proof.
  revert n k. induction fuel as [|fuel IH]; intros n k Hn; cbn [decimal]; [cbn; lia|].
  destruct (Z.eqb_spec n 0); [cbn; lia|]. destruct k as [|k]; [cbn in Hn; lia|].
  rewrite Nat2Z.inj_succ, Z.pow_succ_r in Hn by lia. cbn [length].
  assert (length (decimal fuel (n / 10)) <= k)%nat; [|lia]. apply IH. Z.div_mod_to_equations. lia.
Qed.
Lemma length_dec n k : 0 <= n < 10 ^ Z.of_nat k -> (1 <= k)%nat -> (length (dec n) <= k)%nat.
Proof.
  intros H Hk. unfold dec. rewrite length_reverse. destruct (n =? 0); [cbn; lia|]. by apply length_decimal.
Qed.
Lemma length_item kv : length (item kv) = (length (fst kv) + length (snd kv) + 2)%nat.
Proof. unfold item. cbn [length]. rewrite length_app. cbn [length]. lia. Qed.
Lemma length_join_items kvs :
  Z.of_nat (length (mjoin (item <$> kvs))) = sumZ (fun kv => Z.of_nat (length (item kv))) kvs.
Proof. induction kvs as [|kv kvs IH]; [done|]. cbn [fmap list_fmap sumZ]. rewrite join_cons, length_app. lia. Qed.

Lemma length_account_text a : good a -> Z.of_nat (length (account_text a)) <= 279.
Proof.
  intros ([W1 _ _ _ W5 [W6 _] [W7 _]] & [_ _ _ Hn Hh] & Ha). unfold account_text. rewrite length_app, Nat2Z.inj_add.
  rewrite length_join_items. unfold items. cbn [sumZ app]. rewrite !length_item. cbn [fst snd].
  change (length (str "account")) with 7%nat. change (length (str "uid")) with 3%nat.
  change (length (str "username")) with 8%nat. change (length (str "role")) with 4%nat.
  change (length (str "home")) with 4%nat. change (length (str "flags")) with 5%nat.
  rewrite Hh, length_app. change (length (str "/home/")) with 6%nat.
  assert (L1 : (length (dec (uid (user a))) <= 10)%nat)
    by (apply length_dec; [unfold is_u32 in W1; change (10 ^ Z.of_nat 10) with 10000000000; lia|lia]).
  assert (L2 : (length (role_text (user a)) <= 7)%nat) by (unfold role_text; destruct (_ =? _); cbn; lia).
  assert (L3 : (length (flags_text (user a)) <= 7)%nat) by (unfold flags_text; destruct (initial _); cbn; lia).
  apply username_facts in Hn as (L4 & _).
  assert (L5 : sumZ (fun kv => Z.of_nat (length (item kv))) (auth_items (auth a)) <= 146).
  { unfold auth_items, password_auth_valid in *. destruct (_ =? _); [by vm_compute|]. cbn [sumZ]. rewrite !length_item. cbn [fst snd].
    rewrite !length_hex_text, W6, W7.
    assert (L6 : (length (dec (iterations (auth a))) <= 7)%nat).
    { apply length_dec; [|lia]. unfold is_u32, IDENTITY_PASSWORD_MAX_ITERATIONS in *. change (10 ^ Z.of_nat 7) with 10000000. lia. }
    change (length (str "auth")) with 4%nat. change (length (str "pbkdf2-sha256")) with 13%nat.
    change (length (str "salt")) with 4%nat. change (length (str "iterations")) with 10%nat.
    change (length (str "hash")) with 4%nat. unfold IDENTITY_PASSWORD_SALT_BYTES, IDENTITY_PASSWORD_HASH_BYTES. lia. }
  lia.
Qed.
Lemma length_accounts_text l :
  Forall good l -> Z.of_nat (length (mjoin ((fun a => account_text a ++ [10]) <$> l))) <= 280 * Z.of_nat (length l).
Proof.
  induction 1 as [|a l Ha _ IH]; [cbn; lia|]. cbn [fmap list_fmap length]. rewrite join_cons, !length_app.
  apply length_account_text in Ha. cbn [length]. lia.
Qed.
Lemma good_accounts r : registry_wf r -> registry_ok r -> Forall good (accounts r).
Proof.
  intros [W _] [_ _ U _ _ _]. apply Forall_forall. intros a Ha. rewrite Forall_forall in W. rewrite Forall_forall in U.
  destruct (U a Ha) as (? & _ & ?). split; [by apply W|done].
Qed.
Lemma length_registry_text r :
  registry_wf r -> registry_ok r -> strlen (registry_text r) <= 31 + 280 * count r.
Proof.
  intros Hw Ho. unfold strlen, registry_text, header, count. rewrite !length_app. cbn [length]. rewrite !length_app.
  pose proof (length_accounts_text _ (good_accounts r Hw Ho)) as L.
  assert (L1 : (length (dec (next_uid r)) <= 10)%nat).
  { apply length_dec; [|lia]. pose proof (wf_next r Hw) as W. unfold is_u32 in W. change (10 ^ Z.of_nat 10) with 10000000000. lia. }
  change (length (str "version=2")) with 9%nat. change (length (str "next_uid=")) with 9%nat. cbn [length]. lia.
Qed.

(** A registry of [n] accounts with names of 31 characters. *)
Definition crowd_name (i : nat) : list Z :=
  replicate 29 117 ++ [48 + Z.of_nat i / 10; 48 + Z.of_nat i mod 10].
Definition crowd (n : nat) : identity_registry_t :=
  Registry ((fun i => Account (User (1001 + Z.of_nat i) (crowd_name i) (if (i =? 0)%nat then 1 else 0)
      (str "/home/" ++ crowd_name i) (if (i =? 0)%nat then 1 else 0))
    (Authentication 1 120000 (replicate 16 (Z.of_nat i)) (replicate 32 1))) <$> seq 0 n) (1001 + Z.of_nat n).

(** C15: The account database is read back as it was written.  Every registry
    that [serialize_database] accepts is what [parse_database] makes of its
    output, and needs no migration.  The printer accepts exactly the valid
    registries whose text fits; 58 accounts always do. *)
Theorem account_database_round_trip r :
  registry_wf r ->
  (forall text, serialize_database r IDENTITY_ACCOUNT_DB_MAX_BYTES = Some text ->
     parse_database text = Some (r, false)) /\
  (is_Some (serialize_database r IDENTITY_ACCOUNT_DB_MAX_BYTES) <->
     identity_registry_valid r = true /\ strlen (registry_text r) <= IDENTITY_ACCOUNT_DB_MAX_BYTES) /\
  (identity_registry_valid r = true -> count r <= 58 ->
     is_Some (serialize_database r IDENTITY_ACCOUNT_DB_MAX_BYTES)).
Proof.
  intros Hw. destruct (identity_registry_valid r) eqn:Hv.
  2: { unfold serialize_database. rewrite Hv. cbn [negb]. split; [done|]. split; [|done].
       split; [by intros [? ?]|by intros [? ?]]. }
  rewrite serialize_spec by (done || by_decision). apply registry_valid_iff in Hv as Ho; [|done].
  destruct (Z.ltb_spec IDENTITY_ACCOUNT_DB_MAX_BYTES (strlen (registry_text r))) as [H|H].
  - split; [done|]. split; [split; [by intros [? ?]|lia]|]. intros _ Hc.
    pose proof (length_registry_text r Hw Ho). unfold IDENTITY_ACCOUNT_DB_MAX_BYTES in H. lia.
  - split; [intros text [= <-]; by apply parse_registry_text|]. split; [done|done].
Qed.

(** C16: Whatever bytes the database file holds, a registry that
    [parse_database] accepts is valid: at most 64 accounts with distinct user
    identifiers below [next_uid], distinct names, homes directly under [/home],
    roles and flags of a human account, password records that are valid and
    exactly one initial account; [identity_registry_valid] decides this. *)
Theorem parsed_registry_valid text r m :
  Forall is_u8 text -> parse_database text = Some (r, m) ->
  registry_wf r /\ registry_ok r /\ identity_registry_valid r = true.
Proof.
  intros H E. destruct (parse_database_ok text r m H E) as [Hw Ho]. split; [done|]. split; [done|].
  by apply registry_valid_iff.
Qed.

(** The database file is too small for the table.  A valid registry with 61
    accounts, created from the first user identifier on with names of 31
    characters and the iteration count of the kernel, is refused by
    [serialize_database], although 64 accounts are allowed; one with 60 is
    accepted. *)
Theorem account_database_too_small :
  identity_registry_valid (crowd 61) = true /\ count (crowd 61) < IDENTITY_ACCOUNT_MAX_RECORDS /\
  serialize_database (crowd 61) IDENTITY_ACCOUNT_DB_MAX_BYTES = None /\
  is_Some (serialize_database (crowd 60) IDENTITY_ACCOUNT_DB_MAX_BYTES).
Proof. split; [vm_compute; reflexivity|]. split; [done|]. split; [vm_compute; reflexivity|]. vm_compute. by eexists. Qed.

Lemma two_accounts_wf : registry_wf two_accounts.
Proof. split; [repeat (apply Forall_cons; split); [split; by_decision|split; by_decision|apply Forall_nil_2]|by_decision]. Qed.
Lemma account_database_round_trip_witness :
  registry_wf two_accounts /\
  forall text, serialize_database two_accounts IDENTITY_ACCOUNT_DB_MAX_BYTES = Some text ->
    parse_database text = Some (two_accounts, false).
Proof. split; [exact two_accounts_wf|]. apply (account_database_round_trip two_accounts two_accounts_wf). Defined.

Lemma parsed_registry_valid_witness : registry_ok two_accounts.
Proof.
  refine (proj1 (proj2 (parsed_registry_valid (registry_text two_accounts) two_accounts false _ _)));
    [vm_compute; repeat (apply Forall_cons_2; [split; [discriminate|reflexivity]|]); apply Forall_nil_2|vm_compute; reflexivity].
Defined.

End AccountsProofs.
