(* ===== verification/Identity.v ===== *)
(** The live account registry of [kernel/src/identity.c]: the two slots and
    their publication, the lookups, authority resolved from the registry, and
    the verification of passwords.

    Sections under [identity_lock] are single steps.  The answers of the VFS for
    one file are an argument.  An output parameter is a result. *)
From S2P Require Import Prelude CString ConfigParser NetConfig Password Ipc Accounts AccountsProofs.
Import CString ConfigParser NetConfig Password Accounts AccountsProofs.

Module Identity.

Definition MG_OK : Z := 0.
Definition MG_ERR_NOT_FOUND : Z := -2.
Definition MG_ERR_BAD_ARGUMENT : Z := -4.
Definition MG_ERR_NOT_DIRECTORY : Z := -5.
Definition MG_ERR_NO_MEMORY : Z := -6.
Definition MG_ERR_UNSUPPORTED : Z := -7.
Definition MG_ERR_ACCESS_DENIED : Z := -8.
Definition MG_ERR_ALREADY_EXISTS : Z := -9.
Definition MG_ERR_BUFFER_TOO_SMALL : Z := -10.
Definition MG_ERR_IO : Z := -12.
Definition MG_ERR_BUSY : Z := -14.
Definition MG_ERR_NOT_EMPTY : Z := -16.
Definition MG_ERR_AUTH_FAILED : Z := -23.
Definition MG_ERR_ENTROPY_UNAVAILABLE : Z := -24.
Definition MG_ERR_PRIVILEGE_REQUIRED : Z := -25.
Definition MG_ERR_CANCELLED : Z := -26.
Definition MG_ERR_SERVICE_UNAVAILABLE : Z := -27.
Definition VFS_OK : Z := 0.
Definition VFS_ERR_NOT_FOUND : Z := -2.
Definition VFS_ERR_IO : Z := -3.
Definition VFS_ERR_NO_MEM : Z := -4.
Definition VFS_ERR_UNSUPPORTED : Z := -6.
Definition VFS_ERR_NOT_EMPTY : Z := -7.
Definition VFS_ERR_ACCESS_DENIED : Z := -8.
Definition VFS_ERR_NOT_DIRECTORY : Z := -9.

(** * State *)

(** [active] and [active ^ 1] are the slots 0 and 1. *)
Record identity := State {
  registry_slots : bool -> identity_registry_t;
  active_registry_slot : bool;
  registry_loaded : bool;
  identity_update_busy : bool;
  registry_error_message : list Z;
}.
Definition empty_registry : identity_registry_t := Registry [] 0.
Definition identity_init : identity :=
  State (fun _ => empty_registry) false false false (str "account database unavailable").
Definition set_registry_error (st : identity) (message : list Z) : identity :=
  State (registry_slots st) (active_registry_slot st) (registry_loaded st) (identity_update_busy st) message.
Definition active (st : identity) : identity_registry_t := registry_slots st (active_registry_slot st).

Definition identity_registry_ready (st : identity) : bool := registry_loaded st.
Definition identity_registry_error (st : identity) : list Z := registry_error_message st.
Definition identity_registry_copy_active (st : identity) : option identity_registry_t :=
  if identity_registry_ready st then Some (active st) else None.
Definition fill_slot (st : identity) (target : bool) (r : identity_registry_t) : bool -> identity_registry_t :=
  fun slot => if Bool.eqb slot target then r else registry_slots st slot.
Definition identity_registry_publish (st : identity) (r : identity_registry_t) : identity :=
  let target := if registry_loaded st then negb (active_registry_slot st) else false in
  State (fill_slot st target r) target true (identity_update_busy st) (registry_error_message st).
Definition set_busy (st : identity) (b : bool) : identity :=
  State (registry_slots st) (active_registry_slot st) (registry_loaded st) b (registry_error_message st).
(** [None]: another update is under way. *)
Definition identity_update_begin (st : identity) : option identity :=
  if identity_update_busy st then None else Some (set_busy st true).
Definition identity_update_end (st : identity) : identity := set_busy st false.

(** * Lookups *)

Definition account_named (r : identity_registry_t) (name : list Z) : option account :=
  list_find (fun a => strcmp (username (user a)) name = 0) (accounts r) ≫= fun ia => Some ia.2.
Definition identity_registry_lookup_uid (st : identity) (u : Z) : option user_identity_t :=
  if negb (registry_loaded st) then None
  else if u =? MG_UID_SYSTEM then Some system_identity
  else list_find (fun a => uid (user a) = u) (accounts (active st)) ≫= fun ia => Some (user ia.2).
Definition identity_registry_lookup_username (st : identity) (name : list Z) : option user_identity_t :=
  if negb (registry_loaded st) then None else user <$> account_named (active st) name.
Definition identity_lookup_authentication (st : identity) (name : list Z)
    : option (user_identity_t * identity_authentication_t) :=
  if negb (registry_loaded st) then None
  else (fun a => (user a, auth a)) <$> account_named (active st) name.
(** [found] is the account met so far; a second one is refused. *)
Fixpoint initial_from (l : list account) (found : option user_identity_t) : option user_identity_t :=
  match l with
  | [] => found
  | a :: l =>
      if initial (user a)
      then match found with Some _ => None | None => initial_from l (Some (user a)) end
      else initial_from l found
  end.
Definition identity_registry_initial_user (st : identity) : option user_identity_t :=
  if negb (registry_loaded st) then None else initial_from (accounts (active st)) None.

(** * Files *)

(** What the VFS and [kmalloc] answer for a file: the lookup, whether it gave a
    regular file, the size of its node, whether memory was available, the
    answer of the open and the bytes delivered by the read. *)
Record file_answer := FileAnswer {
  fa_lookup : Z; fa_file : bool; fa_size : Z; fa_memory : bool; fa_open : Z; fa_read : list Z }.
Definition identity_read_file (f : file_answer) (maximum : Z) : Z * list Z :=
  if negb (fa_lookup f =? VFS_OK) || negb (fa_file f)
  then (if fa_lookup f =? VFS_ERR_NOT_FOUND then MG_ERR_NOT_FOUND else MG_ERR_IO, [])
  else if (fa_size f =? 0) || (maximum <? fa_size f) then (MG_ERR_BAD_ARGUMENT, [])
  else if negb (fa_memory f) then (MG_ERR_NO_MEMORY, [])
  else if negb (fa_open f =? VFS_OK) || negb (strlen (fa_read f) =? fa_size f) then (MG_ERR_IO, [])
  else (MG_OK, fa_read f).

Definition identity_registry_autologin_user (st : identity) (f : file_answer) : option user_identity_t :=
  let '(result, contents) := identity_read_file f 512 in
  if negb (result =? MG_OK) then None
  else match kernel_config_parse (Some contents) (Some (Document [])) with
       | Some (true, document, _) =>
           match kernel_config_find document (Some (str "autologin")) with
           | None => None
           | Some enabled =>
               if negb (strcmp enabled (str "true") =? 0) then None
               else match kernel_config_find document (Some (str "user")) with
                    | None => None
                    | Some name =>
                        if negb (username_valid name) then None
                        else identity_registry_lookup_username st name
                    end
           end
       | _ => None
       end.

(** * Credentials *)

Definition identity_system_credentials : Ipc.process_credentials_t :=
  Ipc.Credentials (uid system_identity) (role system_identity) 0.
(** The role that authority is resolved from. *)
Definition live_role (st : identity) (u : Z) : option Z := role <$> identity_registry_lookup_uid st u.
Definition has_privilege (st : identity) (c : Ipc.process_credentials_t) (privilege : Z) : bool :=
  Ipc.identity_credentials_has_privilege (live_role st) c privilege.
Definition identity_credentials_is_admin (c : Ipc.process_credentials_t) : bool :=
  Ipc.identity_credentials_valid c && negb (Ipc.identity_credentials_is_system c) &&
  (Ipc.role c =? MG_IDENTITY_ROLE_ADMIN).
Definition identity_credentials_effective (st : identity) (c : Ipc.process_credentials_t)
    : option Ipc.process_credentials_t :=
  if negb (Ipc.identity_credentials_valid c) then None
  else if Ipc.identity_credentials_is_system c
  then Some (Ipc.Credentials (Ipc.uid identity_system_credentials) (Ipc.role identity_system_credentials)
               (Ipc.service_privileges c))
  else u ← identity_registry_lookup_uid st (Ipc.uid c); Some (Ipc.Credentials (uid u) (role u) 0).
Definition identity_credentials_from_user (u : user_identity_t) : option Ipc.process_credentials_t :=
  if negb (identity_user_valid u) then None
  else let c := Ipc.Credentials (uid u) (role u) 0 in
       if Ipc.identity_credentials_valid c then Some c else None.
(** [mg_identity_t] without the flags. *)
Definition identity_query_credentials (st : identity) (c : Ipc.process_credentials_t)
    : option (Z * Z * list Z * list Z) :=
  if negb (Ipc.identity_credentials_valid c) then None
  else a ← identity_registry_lookup_uid st (Ipc.uid c); Some (uid a, role a, username a, home a).

(** * Passwords *)

Definition password_input_valid (password : list Z) : bool :=
  negb (strlen password =? 0) && (strlen password <=? IDENTITY_PASSWORD_MAX_LENGTH).
Definition dummy_authentication : identity_authentication_t :=
  Authentication IDENTITY_AUTH_PBKDF2_SHA256 IDENTITY_PASSWORD_ITERATIONS
    [0x4d; 0x61; 0x6e; 0x67; 0x72; 0x6f; 0x76; 0x65; 0x2d; 0x61; 0x75; 0x74; 0x68; 0x2d; 0x64; 0x75]
    (replicate 32 0).
Definition has_password (a : identity_authentication_t) : bool :=
  (algorithm a =? IDENTITY_AUTH_PBKDF2_SHA256) && password_auth_valid a.

Definition identity_password_verify_current (st : identity) (c : Ipc.process_credentials_t)
    (password : list Z) : bool :=
  if negb (Ipc.identity_credentials_valid c) || Ipc.identity_credentials_is_system c ||
     negb (password_input_valid password) then false
  else
    let found :=
      match identity_registry_lookup_uid st (Ipc.uid c) with
      | None => None
      | Some u =>
          match identity_lookup_authentication st (username u) with
          | Some (_, a) => if has_password a then Some a else None
          | None => None
          end
      end in
    match found with
    | Some a => password_auth_verify a password
    | None => let valid := password_auth_verify dummy_authentication password in false && valid
    end.

Definition identity_password_authenticate (st : identity) (name password : list Z)
    : Z * option user_identity_t :=
  if negb (username_valid name) || negb (password_input_valid password) then (MG_ERR_AUTH_FAILED, None)
  else
    let found := identity_lookup_authentication st name in
    let has := match found with Some (_, a) => has_password a | None => false end in
    let a := match found with Some (_, a) => if has then a else dummy_authentication | None => dummy_authentication end in
    let valid := password_auth_verify a password in
    match found with
    | Some (candidate, _) => if negb has || negb valid then (MG_ERR_AUTH_FAILED, None) else (MG_OK, Some candidate)
    | None => (MG_ERR_AUTH_FAILED, None)
    end.

(** * Listing *)

(** [mg_account_info_t] has the fields of a user. *)
Definition account_info_from_identity (u : user_identity_t) : user_identity_t :=
  User (uid u) (username u) (role u) (home u) (flags u).
(** The result, [*out_count] where it is written, and the array. *)
Definition identity_account_list (st : identity) (capacity : Z) : Z * option Z * list user_identity_t :=
  match identity_registry_copy_active st with
  | None => (MG_ERR_BAD_ARGUMENT, None, [])
  | Some r =>
      if capacity <? count r then (MG_ERR_BUFFER_TOO_SMALL, Some (count r), [])
      else (MG_OK, Some (count r), (account_info_from_identity ∘ user) <$> accounts r)
  end.
Definition identity_account_show (st : identity) (name : list Z) : Z * option user_identity_t :=
  if negb (username_valid name) then (MG_ERR_BAD_ARGUMENT, None)
  else match identity_registry_lookup_username st name with
       | None => (MG_ERR_NOT_FOUND, None)
       | Some u => (MG_OK, Some (account_info_from_identity u))
       end.

(** * Lookups in a valid registry *)

(** The registry that is visible is valid. *)
Definition visible_ok (st : identity) : Prop :=
  registry_loaded st = true -> registry_wf (active st) /\ registry_ok (active st).

Lemma wf_lookup r a : registry_wf r -> a ∈ accounts r -> account_wf a.
Proof. intros [W _] H. rewrite Forall_forall in W. by apply W. Qed.

Lemma account_named_iff r name a :
  registry_wf r -> registry_ok r -> c_string name ->
  account_named r name = Some a <-> a ∈ accounts r /\ username (user a) = name.
Proof.
  intros Hw Ho Hc. unfold account_named. pose proof (ro_names r Ho) as N. unfold names in N. split.
  - destruct (list_find _ _) as [[i b]|] eqn:E; [|done]. cbn. intros [= ->].
    apply list_find_Some in E as (Hi & Hs & _). apply list_elem_of_lookup_2 in Hi. split; [done|].
    apply strcmp_eq; [by apply (wf_name a), (wf_lookup r)|done|done].
  - intros [Ha Hn]. destruct (list_find _ _) as [[i b]|] eqn:E.
    + apply list_find_Some in E as (Hi & Hs & _). cbn. f_equal. apply list_elem_of_lookup_1 in Ha as [j Hj].
      assert (Hb : username (user b) = name).
      { apply strcmp_eq; [apply (wf_name b), (wf_lookup r); [done|by eapply list_elem_of_lookup_2]|done|done]. }
      assert (i = j) as ->; [|congruence].
      eapply (proj1 (NoDup_alt _) N); rewrite list_lookup_fmap, ?Hi, ?Hj; cbn; [done|congruence].
    + exfalso. apply list_find_None in E. rewrite Forall_forall in E. apply (E a Ha). cbn.
      apply strcmp_eq; [by apply (wf_name a), (wf_lookup r)|done|done].
Qed.

Lemma lookup_uid_iff st u x :
  visible_ok st -> u <> MG_UID_SYSTEM ->
  identity_registry_lookup_uid st u = Some x <->
  registry_loaded st = true /\ exists a, a ∈ accounts (active st) /\ user a = x /\ uid x = u.
Proof.
  intros Hv Hu. unfold identity_registry_lookup_uid. destruct (registry_loaded st) eqn:El; cbn [negb]; [|naive_solver].
  destruct (Z.eqb_spec u MG_UID_SYSTEM); [done|]. destruct (Hv El) as [Hw Ho].
  pose proof (ro_uids _ Ho) as N. unfold uids in N. split.
  - destruct (list_find _ _) as [[i b]|] eqn:E; [|done]. cbn. intros [= <-]. split; [done|].
    apply list_find_Some in E as (Hi & Hs & _). exists b. split; [by eapply list_elem_of_lookup_2|done].
  - intros (_ & a & Ha & <- & Hx). apply list_elem_of_lookup_1 in Ha as [j Hj].
    destruct (list_find _ _) as [[i b]|] eqn:E.
    + apply list_find_Some in E as (Hi & Hs & _). cbn. do 2 f_equal. assert (i = j) as ->; [|congruence].
      eapply (proj1 (NoDup_alt _) N); rewrite list_lookup_fmap, ?Hi, ?Hj; cbn; [done|congruence].
    + exfalso. apply list_find_None in E. rewrite Forall_forall in E. apply (E a); [by eapply list_elem_of_lookup_2|done].
Qed.

(** * Authentication *)

(** The password is the one the record of [a] was made for. *)
Definition knows_password (a : account) (password : list Z) : Prop :=
  algorithm (auth a) = IDENTITY_AUTH_PBKDF2_SHA256 /\
  hash (auth a) = PBKDF2 password (salt (auth a)) (Z.to_nat (iterations (auth a))).

Lemma verify_account r a password :
  registry_wf r -> registry_ok r -> a ∈ accounts r -> password_input_valid password = true ->
  has_password (auth a) && password_auth_verify (auth a) password = true <-> knows_password a password.
Proof.
  intros Hw Ho Ha Hp. pose proof (wf_hash a (wf_lookup r a Hw Ha)) as [Hl _].
  pose proof (ro_users r Ho) as Hu. rewrite Forall_forall in Hu. destruct (Hu a Ha) as (_ & _ & Hv).
  rewrite andb_true_iff, verify_exact by done. unfold has_password, knows_password. rewrite Hv, andb_true_r, Z.eqb_eq.
  unfold password_input_valid, strlen in Hp. unfold password_auth_valid in Hv.
  split; [tauto|]. intros [H1 H2]. rewrite H1 in Hv. cbn in Hv. split; [done|]. split; [done|].
  split; [|split; [lia|done]]. unfold IDENTITY_PASSWORD_MIN_ITERATIONS, IDENTITY_PASSWORD_MAX_ITERATIONS in *. lia.
Qed.

Lemma lookup_authentication_iff st name u b :
  visible_ok st -> c_string name ->
  identity_lookup_authentication st name = Some (u, b) <->
  registry_loaded st = true /\ exists a, a ∈ accounts (active st) /\ user a = u /\ auth a = b /\ username u = name.
Proof.
  intros Hv Hc. unfold identity_lookup_authentication. destruct (registry_loaded st) eqn:El; cbn [negb]; [|naive_solver].
  destruct (Hv El) as [Hw Ho]. destruct (account_named (active st) name) as [a|] eqn:E; cbn.
  - apply account_named_iff in E as [Ha Hn]; [|done|done|done]. split.
    + intros [= <- <-]. split; [done|]. by exists a.
    + intros (_ & a' & Ha' & <- & <- & Hn'). enough (Some a = Some a') as [= ->] by done.
      transitivity (account_named (active st) name); [symmetry|]; by apply account_named_iff.
  - split; [done|]. intros (_ & a' & Ha' & <- & <- & Hn').
    enough (account_named (active st) name = Some a') by congruence. by apply account_named_iff.
Qed.

Lemma authenticate_cases st name password :
  identity_password_authenticate st name password = (MG_ERR_AUTH_FAILED, None) \/
  exists u a, identity_password_authenticate st name password = (MG_OK, Some u) /\
    username_valid name = true /\ password_input_valid password = true /\
    identity_lookup_authentication st name = Some (u, a) /\ has_password a && password_auth_verify a password = true.
Proof.
  unfold identity_password_authenticate. destruct (username_valid name); [|by left].
  destruct (password_input_valid password); [|by left]. cbn [negb orb].
  destruct (identity_lookup_authentication st name) as [[u a]|]; [|by left]. cbv zeta.
  destruct (has_password a) eqn:E1; [|by left]. destruct (password_auth_verify a password) eqn:E2; [|by left].
  right. exists u, a. split; [done|]. rewrite E1, E2. done.
Qed.

Lemma input_valid_iff password :
  password_input_valid password = true <-> 1 <= strlen password <= IDENTITY_PASSWORD_MAX_LENGTH.
Proof. unfold password_input_valid, strlen. lia. Qed.

Lemma authenticate_iff st name password u :
  visible_ok st -> c_string name ->
  identity_password_authenticate st name password = (MG_OK, Some u) <->
  registry_loaded st = true /\ password_input_valid password = true /\
  exists a, a ∈ accounts (active st) /\ user a = u /\ username u = name /\ knows_password a password.
Proof.
  intros Hv Hc. split.
  - intros E. destruct (authenticate_cases st name password) as [F|(u' & b & F & _ & Hp & Hl & Hk)]; [congruence|].
    rewrite E in F. injection F as <-. apply lookup_authentication_iff in Hl as (El & a & Ha & Eu & <- & Hn); [|done|done].
    split; [done|]. split; [done|]. exists a. split; [done|]. split; [done|]. split; [done|].
    destruct (Hv El). by apply (verify_account (active st)).
  - intros (El & Hp & a & Ha & Eu & Hn & Hk). destruct (Hv El) as [Hw Ho].
    apply (verify_account (active st)) in Hk as Hk'; [|done|done|done|done].
    assert (Hl : identity_lookup_authentication st name = Some (u, auth a))
      by (apply lookup_authentication_iff; [done|done|]; split; [done|]; by exists a).
    pose proof (ro_users _ Ho) as Hu. rewrite Forall_forall in Hu. destruct (Hu a Ha) as (Huo & _).
    pose proof (uo_name _ Huo) as Hun. rewrite Eu, Hn in Hun.
    unfold identity_password_authenticate. rewrite Hun, Hp, Hl. cbn [negb orb]. cbv zeta.
    apply andb_true_iff in Hk' as [-> ->]. done.
Qed.

Lemma verify_current_iff st c password :
  visible_ok st ->
  identity_password_verify_current st c password = true <->
  registry_loaded st = true /\ Ipc.identity_credentials_valid c = true /\ Ipc.uid c <> MG_UID_SYSTEM /\
  password_input_valid password = true /\
  exists a, a ∈ accounts (active st) /\ uid (user a) = Ipc.uid c /\ knows_password a password.
Proof.
  intros Hv. unfold identity_password_verify_current.
  destruct (Ipc.identity_credentials_valid c); [|naive_solver]. cbn [negb orb].
  unfold Ipc.identity_credentials_is_system. change Ipc.MG_UID_SYSTEM with MG_UID_SYSTEM.
  destruct (Z.eqb_spec (Ipc.uid c) MG_UID_SYSTEM) as [|Hs]; [naive_solver|]. cbn [orb].
  destruct (password_input_valid password) eqn:Hp; [|naive_solver]. cbn [negb].
  destruct (identity_registry_lookup_uid st (Ipc.uid c)) as [u|] eqn:Eu.
  - apply lookup_uid_iff in Eu as (El & a & Ha & <- & Eid); [|done|done]. destruct (Hv El) as [Hw Ho].
    assert (Hc : c_string (username (user a))) by apply (wf_name a), (wf_lookup (active st) a Hw Ha).
    assert (Hl : identity_lookup_authentication st (username (user a)) = Some (user a, auth a))
      by (apply lookup_authentication_iff; [done|done|]; split; [done|]; by exists a).
    rewrite Hl. pose proof (verify_account (active st) a password Hw Ho Ha Hp) as Hk.
    transitivity (knows_password a password).
    { rewrite <- Hk. destruct (has_password (auth a)); cbn [andb]; done. }
    split; [intros ?; do 4 (split; [done|]); by exists a|]. intros (_ & _ & _ & _ & a' & Ha' & Eid' & Hk').
    enough (a = a') as -> by done.
    pose proof (ro_uids _ Ho) as N. apply list_elem_of_lookup_1 in Ha as [i Hi], Ha' as [j Hj].
    assert (i = j) as ->; [|congruence].
    eapply (proj1 (NoDup_alt _) N); unfold uids; rewrite list_lookup_fmap, ?Hi, ?Hj; cbn; [done|congruence].
  - split; [done|]. intros (El & _ & _ & _ & a & Ha & Eid & _).
    enough (identity_registry_lookup_uid st (Ipc.uid c) = Some (user a)) by congruence.
    apply lookup_uid_iff; [done|done|]. split; [done|]. by exists a.
Qed.

(** C14: Login is exact.  [identity_password_authenticate] answers with an account
    exactly if the registry is loaded, the password has 1 to 128 bytes and the
    account of that name has a PBKDF2 record whose hash is that of the password;
    every other case gives the same answer.  [identity_password_verify_current]
    accepts exactly the password of the live account of a human process. *)
Theorem password_authentication_exact st :
  visible_ok st ->
  (forall name password, c_string name ->
     identity_password_authenticate st name password = (MG_ERR_AUTH_FAILED, None) \/
     exists u, identity_password_authenticate st name password = (MG_OK, Some u)) /\
  (forall name password u, c_string name ->
     identity_password_authenticate st name password = (MG_OK, Some u) <->
     registry_loaded st = true /\ 1 <= strlen password <= IDENTITY_PASSWORD_MAX_LENGTH /\
     exists a, a ∈ accounts (active st) /\ user a = u /\ username u = name /\ knows_password a password) /\
  (forall c password,
     identity_password_verify_current st c password = true <->
     registry_loaded st = true /\ Ipc.identity_credentials_valid c = true /\ Ipc.uid c <> MG_UID_SYSTEM /\
     1 <= strlen password <= IDENTITY_PASSWORD_MAX_LENGTH /\
     exists a, a ∈ accounts (active st) /\ uid (user a) = Ipc.uid c /\ knows_password a password).
Proof.
  intros Hv. split; [|split].
  - intros name password _. destruct (authenticate_cases st name password) as [|(u & _ & ? & _)]; [by left|]. right. by exists u.
  - intros name password u Hc. rewrite <- input_valid_iff. by apply authenticate_iff.
  - intros c password. rewrite <- input_valid_iff. by apply verify_current_iff.
Qed.

(** * Authority *)

Lemma mask_bit x p : 1 <= p -> (Z.land x (Ipc.IDENTITY_PRIVILEGE_MASK p) =? 0) = negb (Z.testbit x (p - 1)).
Proof.
  intros Hp. unfold Ipc.IDENTITY_PRIVILEGE_MASK. rewrite Z.shiftl_1_l. destruct (Z.testbit x (p - 1)) eqn:E; cbn [negb].
  - apply Z.eqb_neq. intros H.
    assert (Z.testbit (Z.land x (2 ^ (p - 1))) (p - 1) = true) as F by (rewrite Z.land_spec, E, Z.pow2_bits_true by lia; done).
    by rewrite H, Z.bits_0 in F.
  - apply Z.eqb_eq, Z.bits_inj'. intros i Hi. rewrite Z.land_spec, Z.bits_0.
    destruct (Z.eq_dec i (p - 1)) as [->|]; [by rewrite E|]. rewrite Z.pow2_bits_false by lia. by rewrite andb_false_r.
Qed.
Lemma unknown_bits c :
  Ipc.identity_credentials_valid c = true ->
  Z.testbit (Ipc.service_privileges c) 0 = false /\ Z.testbit (Ipc.service_privileges c) 7 = false.
Proof.
  unfold Ipc.identity_credentials_valid. destruct (Z.eqb_spec (Z.land (Ipc.service_privileges c)
    (u32 (Z.lnot Ipc.IDENTITY_SERVICE_PRIVILEGES_KNOWN))) 0) as [H|]; [|done]. cbn [negb]. intros _.
  set (k := u32 (Z.lnot Ipc.IDENTITY_SERVICE_PRIVILEGES_KNOWN)) in *.
  assert (Hb : forall i, Z.testbit k i = true -> Z.testbit (Ipc.service_privileges c) i = false).
  { intros i Hi. assert (F : Z.testbit (Z.land (Ipc.service_privileges c) k) i = false) by (rewrite H; apply Z.bits_0).
    by rewrite Z.land_spec, Hi, andb_true_r in F. }
  split; by apply Hb.
Qed.

(** An account of the visible registry with that user identifier administers. *)
Definition live_admin (st : identity) (u : Z) : Prop :=
  registry_loaded st = true /\ exists a, a ∈ accounts (active st) /\ uid (user a) = u /\ role (user a) = MG_IDENTITY_ROLE_ADMIN.

Lemma live_role_admin st u :
  visible_ok st -> u <> MG_UID_SYSTEM ->
  match live_role st u with Some r => r =? Ipc.MG_IDENTITY_ROLE_ADMIN | None => false end = true <-> live_admin st u.
Proof.
  intros Hv Hu. unfold live_role, live_admin. destruct (identity_registry_lookup_uid st u) as [x|] eqn:E; cbn.
  - rewrite Z.eqb_eq. apply lookup_uid_iff in E as E'; [|done|done]. destruct E' as (El & a & Ha & <- & Hx). split.
    + intros H. split; [done|]. by exists a.
    + intros (_ & b & Hb & Eb & Hr).
      enough (Some (user a) = Some (user b)) as [= ->] by done. rewrite <- E. apply lookup_uid_iff; [done|done|].
      split; [done|]. by exists b.
  - split; [done|]. intros (El & a & Ha & Ea & _).
    enough (identity_registry_lookup_uid st u = Some (user a)) by congruence.
    apply lookup_uid_iff; [done|done|]. split; [done|]. by exists a.
Qed.

(** Who holds a privilege.  A system service holds exactly the capabilities
    in its credentials, which never include the management of users or of user
    data.  A human process holds every privilege but session management exactly
    while its account in the live registry is an administrator, whatever role
    its own credentials name. *)
Theorem privileges_exact st c p :
  visible_ok st ->
  has_privilege st c p = true <->
  Ipc.identity_credentials_valid c = true /\
  Ipc.IDENTITY_PRIVILEGE_MANAGE_USERS <= p <= Ipc.IDENTITY_PRIVILEGE_MANAGE_USER_DATA /\
  ((Ipc.uid c = MG_UID_SYSTEM /\ Z.testbit (Ipc.service_privileges c) (p - 1) = true /\
    p <> Ipc.IDENTITY_PRIVILEGE_MANAGE_USERS /\ p <> Ipc.IDENTITY_PRIVILEGE_MANAGE_USER_DATA) \/
   (Ipc.uid c <> MG_UID_SYSTEM /\ p <> Ipc.IDENTITY_PRIVILEGE_MANAGE_SESSIONS /\ live_admin st (Ipc.uid c))).
Proof.
  intros Hv. unfold has_privilege, Ipc.identity_credentials_has_privilege, Ipc.identity_credentials_is_system.
  change Ipc.MG_UID_SYSTEM with MG_UID_SYSTEM.
  destruct (_ <? _) eqn:E1; cbn [orb]; [split; [done|lia]|]. destruct (_ <? p) eqn:E2; cbn [orb]; [split; [done|lia]|].
  destruct (Ipc.identity_credentials_valid c) eqn:Hc; cbn [negb]; [|naive_solver].
  assert (Hp : 1 <= p <= 8) by (unfold Ipc.IDENTITY_PRIVILEGE_MANAGE_USERS, Ipc.IDENTITY_PRIVILEGE_MANAGE_USER_DATA in *; lia).
  rewrite mask_bit, negb_involutive by lia. destruct (unknown_bits c Hc) as [B0 B7].
  destruct (Z.eqb_spec (Ipc.uid c) MG_UID_SYSTEM) as [Hs|Hs].
  - rewrite orb_true_r. destruct (Z.testbit (Ipc.service_privileges c) (p - 1)) eqn:Hb; [|naive_solver].
    split; [intros _|done]. split; [done|]. split; [exact Hp|]. left. split; [done|]. split; [done|].
    split; intros ->; [change (Ipc.IDENTITY_PRIVILEGE_MANAGE_USERS - 1) with 0 in Hb; congruence|].
    change (Ipc.IDENTITY_PRIVILEGE_MANAGE_USER_DATA - 1) with 7 in Hb. congruence.
  - assert (Hz : Ipc.service_privileges c = 0).
    { unfold Ipc.identity_credentials_valid in Hc. destruct (negb _); [done|].
      change Ipc.MG_UID_SYSTEM with MG_UID_SYSTEM in Hc. destruct (Z.eqb_spec (Ipc.uid c) MG_UID_SYSTEM); [done|]. lia. }
    rewrite Hz, Z.bits_0, orb_false_r. destruct (Z.eqb_spec p Ipc.IDENTITY_PRIVILEGE_MANAGE_SESSIONS); [naive_solver|].
    rewrite (live_role_admin st (Ipc.uid c) Hv Hs). naive_solver.
Qed.

Definition sample_state : identity :=
  State (fun _ => two_accounts) false true false (str "account database ready").
Lemma sample_visible : visible_ok sample_state.
Proof. intros _. split; [exact two_accounts_wf|]. apply registry_valid_iff; [exact two_accounts_wf|]. vm_compute. reflexivity. Qed.

Lemma password_authentication_exact_witness :
  identity_password_authenticate sample_state (str "eve") (str "secret") = (MG_ERR_AUTH_FAILED, None).
Proof.
  destruct (password_authentication_exact sample_state sample_visible) as (H1 & H2 & _).
  destruct (H1 (str "eve") (str "secret")) as [E|[u E]]; [by_decision|exact E|].
  exfalso. apply H2 in E; [|by_decision]. destruct E as (_ & _ & a & Ha & <- & Hn & _).
  apply list_elem_of_In in Ha as [<-|[<-|[]]]; discriminate Hn.
Defined.
Lemma privileges_exact_witness :
  has_privilege sample_state (Ipc.Credentials 1001 0 0) Ipc.IDENTITY_PRIVILEGE_MANAGE_USERS = true /\
  has_privilege sample_state (Ipc.Credentials 1002 1 0) Ipc.IDENTITY_PRIVILEGE_MANAGE_USERS = false.
Proof.
  split; [|vm_compute; reflexivity].
  apply (privileges_exact sample_state (Ipc.Credentials 1001 0 0) Ipc.IDENTITY_PRIVILEGE_MANAGE_USERS sample_visible).
  split; [reflexivity|]. split; [split; [reflexivity|discriminate]|]. right. split; [discriminate|]. split; [discriminate|].
  split; [reflexivity|]. exists alice. split; [apply list_elem_of_here|split; reflexivity].
Defined.

End Identity.
