(* ===== verification/Pass.v ===== *)
(** PASS, the authorization boundary ([kernel/src/pass.c]): the policy file, the
    trusted interaction at the console and the decision.

    The console delivers a list of bytes; its end is a read that fails.  What is
    written to the terminal is not modelled.  A function that reads the console
    returns what is left of it. *)
From S2P Require Import Prelude CString ConfigParser NetConfig Password Ipc Accounts AccountsProofs Identity.
Import CString ConfigParser NetConfig Password Accounts AccountsProofs Identity.

Module Pass.

Inductive pass_provider_t :=
  PASS_PROVIDER_PASSWORD | PASS_PROVIDER_CONFIRM | PASS_PROVIDER_SCRIPTS | PASS_PROVIDER_NONE.
#[export] Instance pass_provider_eq_dec : EqDecision pass_provider_t.
Proof. solve_decision. Defined.

Definition PASS_RESULT_ALLOWED : Z := MG_OK.
Definition PASS_RESULT_DENIED : Z := MG_ERR_ACCESS_DENIED.
Definition PASS_RESULT_AUTHENTICATION_FAILED : Z := MG_ERR_AUTH_FAILED.
Definition PASS_RESULT_CANCELLED : Z := MG_ERR_CANCELLED.
Definition PASS_RESULT_PRIVILEGE_REQUIRED : Z := MG_ERR_PRIVILEGE_REQUIRED.
Definition PASS_MESSAGE_MAX : Z := 192.
Definition PASS_SECURITY_CONFIG_MAX_BYTES : Z := 1024.
Definition PASS_PROMPT_MAX : Z := 320.
Definition PASS_CONFIRM_INPUT_MAX : Z := 32.

Record pass_policy_t := Policy { provider : pass_provider_t; valid : bool }.

(** * Policy *)

(** The provider and [*valid]. *)
Definition pass_provider_from_value (value : option (list Z)) : pass_provider_t * bool :=
  match value with
  | None => (PASS_PROVIDER_CONFIRM, false)
  | Some value =>
      if strcmp value (str "password") =? 0 then (PASS_PROVIDER_PASSWORD, true)
      else if strcmp value (str "confirm") =? 0 then (PASS_PROVIDER_CONFIRM, true)
      else if strcmp value (str "scripts") =? 0 then (PASS_PROVIDER_SCRIPTS, true)
      else if strcmp value (str "none") =? 0 then (PASS_PROVIDER_NONE, true)
      else (PASS_PROVIDER_CONFIRM, false)
  end.

(** The return value and [*policy]; [fa_memory] plays no part. *)
Definition pass_policy_read (f : file_answer) : bool * pass_policy_t :=
  let policy := Policy PASS_PROVIDER_CONFIRM false in
  if negb (fa_lookup f =? VFS_OK) || negb (fa_file f) || (fa_size f =? 0) ||
     (PASS_SECURITY_CONFIG_MAX_BYTES <? fa_size f) then (false, policy)
  else if negb (fa_open f =? VFS_OK) || negb (strlen (fa_read f) =? fa_size f) then (false, policy)
  else match kernel_config_parse (Some (fa_read f)) (Some (Document [])) with
       | Some (true, document, _) =>
           let '(p, v) := pass_provider_from_value (kernel_config_find document (Some (str "authorization"))) in
           (v, Policy p v)
       | _ => (false, policy)
       end.
Definition pass_policy_current (f : file_answer) : pass_provider_t :=
  let '(ok, policy) := pass_policy_read f in if ok : bool then provider policy else PASS_PROVIDER_CONFIRM.
Definition pass_provider_name (p : pass_provider_t) : list Z :=
  match p with
  | PASS_PROVIDER_PASSWORD => str "password"
  | PASS_PROVIDER_CONFIRM => str "confirm"
  | PASS_PROVIDER_SCRIPTS => str "scripts"
  | PASS_PROVIDER_NONE => str "none"
  end.

(** * Descriptions and prompts *)

(** The loop of [pass_text_valid]. *)
Fixpoint text_from (text : list Z) (len lines : Z) (ended_line : bool) : bool :=
  match text with
  | [] => negb ended_line
  | value :: text =>
      let len := len + 1 in
      if value =? 10 then if 3 <? lines + 1 then false else text_from text len (lines + 1) true
      else if (value <? 0x20) || (value =? 0x7f) then false
      else if PASS_MESSAGE_MAX <=? len then false
      else text_from text len lines false
  end.
Definition pass_text_valid (text : list Z) : bool :=
  match text with [] => false | _ => text_from text 0 1 false end.

Definition pass_append (capacity : Z) (buffer text : list Z) : option (list Z) :=
  if capacity <=? strlen buffer then None
  else if capacity - strlen buffer <=? strlen text then None
  else Some (buffer ++ text).
Definition prompt_text (requester_name description : list Z) : option (list Z) :=
  b ← pass_append PASS_PROMPT_MAX [] requester_name;
  b ← pass_append PASS_PROMPT_MAX b (str " wants to perform an administrator action:" ++ [10; 10]);
  b ← pass_append PASS_PROMPT_MAX b description;
  pass_append PASS_PROMPT_MAX b ([10; 10] ++ str "[y/N] ").

(** * Interaction *)

Definition newline (c : Z) : bool := (c =? 13) || (c =? 10).
Definition rubout (c : Z) : bool := (c =? 8) || (c =? 0x7f).
Definition printable (c : Z) : bool := (0x20 <=? c) && (c <? 0x7f).

Fixpoint pass_read_confirmation (input answer : list Z) (overflow : bool) : bool * list Z :=
  match input with
  | [] => (false, [])
  | c :: input =>
      if newline c then
        if negb overflow && (strlen answer =? 1) && ((answer !!! 0%nat =? 121) || (answer !!! 0%nat =? 89))
        then (true, input)
        else if negb overflow && ((strlen answer =? 0) ||
                (strlen answer =? 1) && ((answer !!! 0%nat =? 110) || (answer !!! 0%nat =? 78)))
        then (false, input)
        else pass_read_confirmation input [] false
      else if rubout c then
        let answer := removelast answer in
        let overflow := if strlen answer + 1 <? PASS_CONFIRM_INPUT_MAX then false else overflow in
        pass_read_confirmation input answer overflow
      else if printable c then
        if strlen answer + 1 <? PASS_CONFIRM_INPUT_MAX
        then pass_read_confirmation input (answer ++ [c]) overflow
        else pass_read_confirmation input answer true
      else pass_read_confirmation input answer overflow
  end.

Fixpoint pass_read_password (st : identity) (c : Ipc.process_credentials_t) (input password : list Z)
    (overflow : bool) : bool * list Z :=
  match input with
  | [] => (false, [])
  | v :: input =>
      if newline v then (negb overflow && identity_password_verify_current st c password, input)
      else if rubout v then pass_read_password st c input (removelast password) overflow
      else if negb (printable v) then pass_read_password st c input password overflow
      else if IDENTITY_PASSWORD_MAX_LENGTH <=? strlen password then pass_read_password st c input password true
      else pass_read_password st c input (password ++ [v]) overflow
  end.

(** * Providers *)

Definition pass_provider_password (st : identity) (c : Ipc.process_credentials_t) (input : list Z) : Z * list Z :=
  let '(ok, input) := pass_read_password st c input [] false in
  (if ok : bool then PASS_RESULT_ALLOWED else PASS_RESULT_AUTHENTICATION_FAILED, input).
Definition pass_provider_confirm (requester_name description input : list Z) : Z * list Z :=
  match prompt_text requester_name description with
  | None => (PASS_RESULT_DENIED, input)
  | Some _ =>
      let '(ok, input) := pass_read_confirmation input [] false in
      (if ok : bool then PASS_RESULT_ALLOWED else PASS_RESULT_CANCELLED, input)
  end.
Definition pass_provider_scripts (input : list Z) : Z * list Z := (PASS_RESULT_ALLOWED, input).
Definition pass_provider_none (input : list Z) : Z * list Z := (PASS_RESULT_ALLOWED, input).
Definition authorize (p : pass_provider_t) (st : identity) (c : Ipc.process_credentials_t)
    (requester_name description input : list Z) : Z * list Z :=
  match p with
  | PASS_PROVIDER_PASSWORD => pass_provider_password st c input
  | PASS_PROVIDER_CONFIRM => pass_provider_confirm requester_name description input
  | PASS_PROVIDER_SCRIPTS => pass_provider_scripts input
  | PASS_PROVIDER_NONE => pass_provider_none input
  end.

(** * The decision *)

Definition pass_authorize_for_requester (st : identity) (f : file_answer) (c : Ipc.process_credentials_t)
    (requester_name : list Z) (privilege : Z) (description input : list Z) : Z * list Z :=
  if negb (has_privilege st c privilege) then (PASS_RESULT_PRIVILEGE_REQUIRED, input)
  else if negb (pass_text_valid description) then (MG_ERR_BAD_ARGUMENT, input)
  else if Ipc.identity_credentials_is_system c then (PASS_RESULT_ALLOWED, input)
  else authorize (pass_policy_current f) st c requester_name description input.
(** [who]: the credentials and the name of the current process, if it has any. *)
Definition pass_authorize_current (st : identity) (f : file_answer)
    (who : option (Ipc.process_credentials_t * list Z)) (privilege : Z) (description input : list Z) : Z * list Z :=
  match who with
  | None => (PASS_RESULT_PRIVILEGE_REQUIRED, input)
  | Some (c, name) => pass_authorize_for_requester st f c name privilege description input
  end.
Definition pass_authorize_request (st : identity) (f : file_answer) (ipc : Ipc.ipc) (current service : Z)
    (who : Ipc.process_info) (request_handle privilege : Z) (description input : list Z) : Z * list Z * Ipc.ipc :=
  match Ipc.ipc_request_context_claim ipc current service who request_handle 32 with
  | (None, ipc) => (MG_ERR_SERVICE_UNAVAILABLE, input, ipc)
  | (Some (c, name), ipc) => (pass_authorize_for_requester st f c name privilege description input, ipc)
  end.
Definition pass_authenticate_account (st : identity) (name password : list Z) : Z * option user_identity_t :=
  let '(result, u) := identity_password_authenticate st name password in
  (if result =? MG_OK then PASS_RESULT_ALLOWED else PASS_RESULT_AUTHENTICATION_FAILED, u).

(** * What the interactions accept *)

Definition no_newline (keys : list Z) : Prop := Forall (fun c => newline c = false) keys.

(** The text on the screen after [keys], in a field of [limit] characters. *)
Definition press (limit : Z) (text : list Z) (c : Z) : list Z :=
  if rubout c then removelast text
  else if printable c && (strlen text <? limit) then text ++ [c] else text.
Definition shown (limit : Z) (keys : list Z) : list Z := fold_left (press limit) keys [].

(** The person answered: lines that are neither yes nor no are asked again. *)
Definition yes (answer : list Z) : Prop := answer = str "y" \/ answer = str "Y".
Definition no (answer : list Z) : Prop := answer = [] \/ answer = str "n" \/ answer = str "N".
Inductive confirmed : list Z -> list Z -> Prop :=
  | confirmed_yes keys nl rest :
      no_newline keys -> newline nl = true -> yes (shown 31 keys) -> confirmed (keys ++ nl :: rest) rest
  | confirmed_later keys nl input rest :
      no_newline keys -> newline nl = true -> ~ yes (shown 31 keys) -> ~ no (shown 31 keys) ->
      confirmed input rest -> confirmed (keys ++ nl :: input) rest.

(** No key was refused for want of space. *)
Definition within (limit : Z) (keys : list Z) : Prop :=
  forall k c k', keys = k ++ c :: k' -> printable c = true -> strlen (shown limit k) < limit.
Definition password_typed (st : identity) (c : Ipc.process_credentials_t) (input rest : list Z) : Prop :=
  exists keys nl, input = keys ++ nl :: rest /\ no_newline keys /\ newline nl = true /\
    within IDENTITY_PASSWORD_MAX_LENGTH keys /\
    identity_password_verify_current st c (shown IDENTITY_PASSWORD_MAX_LENGTH keys) = true.

Lemma length_removelast {A} (l : list A) : length (removelast l) = (length l - 1)%nat.
Proof.
  destruct l as [|x l _] using rev_ind; [done|]. rewrite removelast_last, length_app. cbn. lia.
Qed.
Lemma first_line input :
  no_newline input \/ exists keys nl rest, input = keys ++ nl :: rest /\ no_newline keys /\ newline nl = true.
Proof.
  induction input as [|c input IH]; [left; apply Forall_nil_2|].
  destruct (newline c) eqn:E; [right; exists [], c, input; split; [done|split; [apply Forall_nil_2|done]]|].
  destruct IH as [H|(keys & nl & rest & -> & H & Hn)]; [left; by apply Forall_cons|].
  right. exists (c :: keys), nl, rest. split; [done|]. split; [by apply Forall_cons|done].
Qed.
Lemma line_unique keys nl rest keys' nl' rest' :
  no_newline keys -> newline nl = true -> no_newline keys' -> newline nl' = true ->
  keys ++ nl :: rest = keys' ++ nl' :: rest' -> keys = keys' /\ nl = nl' /\ rest = rest'.
Proof.
  intros H. revert keys'. induction H as [|c keys Hc _ IH]; intros keys' Hn H' Hn' E; destruct keys' as [|c' keys'].
  - by injection E as -> ->.
  - injection E as -> _. apply Forall_cons in H' as [? _]. congruence.
  - injection E as -> _. congruence.
  - injection E as -> E. apply Forall_cons in H' as [_ H']. destruct (IH keys' Hn H' Hn' E) as (-> & -> & ->). done.
Qed.

(** ** Confirmation *)

(** Inside a line: the answer is what is shown, and overflow only happens when
    the field is full. *)
Lemma confirmation_line keys input answer overflow :
  no_newline keys -> strlen answer <= 31 -> (overflow = true -> strlen answer = 31) ->
  exists overflow', pass_read_confirmation (keys ++ input) answer overflow =
    pass_read_confirmation input (fold_left (press 31) keys answer) overflow' /\
    (overflow' = true -> strlen (fold_left (press 31) keys answer) = 31).
Proof.
  intros H. revert answer overflow. induction H as [|c keys Hc _ IH]; intros answer overflow Hl Ho.
  { exists overflow. done. }
  cbn [app pass_read_confirmation fold_left]. rewrite Hc. unfold press at 2 4. unfold PASS_CONFIRM_INPUT_MAX, strlen in *.
  destruct (rubout c).
  - apply IH; rewrite length_removelast; [lia|]. destruct (Z.ltb_spec (Z.of_nat (length answer - 1) + 1) 32); [done|lia].
  - destruct (printable c); cbn [andb]; [|by apply IH].
    replace (Z.of_nat (length answer) <? 31) with (Z.of_nat (length answer) + 1 <? 32) by lia.
    destruct (Z.ltb_spec (Z.of_nat (length answer) + 1) 32); apply IH; rewrite ?length_app; cbn; lia.
Qed.
Lemma yes_iff answer :
  (strlen answer =? 1) && ((answer !!! 0%nat =? 121) || (answer !!! 0%nat =? 89)) = true <-> yes answer.
Proof.
  unfold yes, strlen. change (str "y") with [121]. change (str "Y") with [89].
  destruct answer as [|x [|y l]]; cbn -[Z.of_nat]; [split; [done|naive_solver]| |split; [lia|naive_solver]].
  change (Z.of_nat 1 =? 1) with true. rewrite andb_true_l, orb_true_iff, !Z.eqb_eq. naive_solver.
Qed.
Lemma no_iff answer :
  (strlen answer =? 0) || (strlen answer =? 1) && ((answer !!! 0%nat =? 110) || (answer !!! 0%nat =? 78)) = true <->
  no answer.
Proof.
  unfold no, strlen. change (str "n") with [110]. change (str "N") with [78].
  destruct answer as [|x [|y l]]; cbn -[Z.of_nat]; [split; [by left|done]| |split; [lia|naive_solver]].
  change (Z.of_nat 1 =? 0) with false. change (Z.of_nat 1 =? 1) with true.
  rewrite orb_false_l, andb_true_l, orb_true_iff, !Z.eqb_eq. naive_solver.
Qed.
Lemma confirmation_step keys nl input :
  no_newline keys -> newline nl = true ->
  (yes (shown 31 keys) /\ pass_read_confirmation (keys ++ nl :: input) [] false = (true, input)) \/
  (no (shown 31 keys) /\ ~ yes (shown 31 keys) /\ pass_read_confirmation (keys ++ nl :: input) [] false = (false, input)) \/
  (~ yes (shown 31 keys) /\ ~ no (shown 31 keys) /\
   pass_read_confirmation (keys ++ nl :: input) [] false = pass_read_confirmation input [] false).
Proof.
  intros Hk Hn. destruct (confirmation_line keys (nl :: input) [] false Hk) as (o & E & Ho); [by cbn|done|].
  fold (shown 31 keys) in *. rewrite E. cbn [pass_read_confirmation]. rewrite Hn.
  pose proof (yes_iff (shown 31 keys)) as Y. pose proof (no_iff (shown 31 keys)) as N.
  destruct o; cbn [negb andb].
  - specialize (Ho eq_refl). right; right. split; [|split; [|done]].
    + rewrite <- Y, Ho. done.
    + rewrite <- N, Ho. done.
  - destruct (_ && _) eqn:E1; [left; split; [by apply Y|done]|].
    clear E1. destruct (_ || _); right; [left|right]; intuition congruence.
Qed.
Lemma confirmation_none keys : no_newline keys -> pass_read_confirmation keys [] false = (false, []).
Proof.
  intros H. destruct (confirmation_line keys [] [] false H) as (o & E & _); [by cbn|done|]. rewrite app_nil_r in E. by rewrite E.
Qed.

Lemma confirmation_exact input rest :
  pass_read_confirmation input [] false = (true, rest) <-> confirmed input rest.
Proof.
  split.
  - remember (length input) as n eqn:En. revert input En. induction (lt_wf n) as [n _ IH]. intros input -> E.
    destruct (first_line input) as [H|(keys & nl & r & -> & Hk & Hn)].
    { by rewrite confirmation_none in E. }
    destruct (confirmation_step keys nl r Hk Hn) as [(Y & E')|[(_ & _ & E')|(Y & N & E')]]; rewrite E' in E.
    + injection E as <-. by apply confirmed_yes.
    + done.
    + apply confirmed_later; [done|done|done|done|]. eapply IH; [|reflexivity|exact E]. rewrite length_app. cbn. lia.
  - induction 1 as [keys nl rest Hk Hn Y|keys nl input rest Hk Hn Y N _ IH].
    + destruct (confirmation_step keys nl rest Hk Hn) as [(_ & E)|[(_ & Y' & _)|(Y' & _)]]; done.
    + destruct (confirmation_step keys nl input Hk Hn) as [(Y' & _)|[(N' & _)|(_ & _ & E)]]; [done|done|congruence].
Qed.

(** ** Passwords *)

Lemma password_line st c keys input password overflow :
  no_newline keys -> strlen password <= IDENTITY_PASSWORD_MAX_LENGTH ->
  exists overflow', pass_read_password st c (keys ++ input) password overflow =
    pass_read_password st c input (fold_left (press IDENTITY_PASSWORD_MAX_LENGTH) keys password) overflow' /\
    (overflow' = false <-> overflow = false /\ forall k x k', keys = k ++ x :: k' -> printable x = true ->
       strlen (fold_left (press IDENTITY_PASSWORD_MAX_LENGTH) k password) < IDENTITY_PASSWORD_MAX_LENGTH).
Proof.
  intros H. revert password overflow. induction H as [|v keys Hv _ IH]; intros password overflow Hl.
  { exists overflow. split; [done|]. split; [|tauto]. intros E. split; [done|]. intros [|? ?] ? ?; done. }
  cbn [app pass_read_password fold_left]. rewrite Hv. unfold press at 2.
  (* the rest of the line, after one key *)
  assert (Hstep : forall p o o', press IDENTITY_PASSWORD_MAX_LENGTH password v = p ->
    (o = false <-> overflow = false /\ (printable v = true -> strlen password < IDENTITY_PASSWORD_MAX_LENGTH)) ->
    (o' = false <-> o = false /\ forall k x k', keys = k ++ x :: k' -> printable x = true ->
       strlen (fold_left (press IDENTITY_PASSWORD_MAX_LENGTH) k p) < IDENTITY_PASSWORD_MAX_LENGTH) ->
    (o' = false <-> overflow = false /\ forall k x k', v :: keys = k ++ x :: k' -> printable x = true ->
       strlen (fold_left (press IDENTITY_PASSWORD_MAX_LENGTH) k password) < IDENTITY_PASSWORD_MAX_LENGTH)).
  { intros p o o' Ep Ho Ho'. rewrite Ho', Ho. split.
    - intros [[E1 E2] E3]. split; [done|]. intros [|y k] x k' Ek Hx; injection Ek as <- Ek; [by apply E2|].
      cbn [fold_left]. rewrite Ep. by eapply E3.
    - intros [E1 E2]. split; [split; [done|]|].
      + intros Hx. by apply (E2 [] v keys).
      + intros k x k' -> Hx. specialize (E2 (v :: k) x k' eq_refl Hx). cbn [fold_left] in E2. by rewrite Ep in E2. }
  assert (Hr : rubout v = true -> printable v = false) by (unfold rubout, printable; lia).
  unfold press in Hstep. unfold strlen in *. destruct (rubout v) eqn:Er.
  - destruct (IH (removelast password) overflow) as (o & E & Ho); [rewrite length_removelast; lia|].
    exists o. split; [done|]. eapply Hstep; [done| |exact Ho]. rewrite Hr by done. split; [done|tauto].
  - destruct (printable v); cbn [negb andb] in *.
    + destruct (Z.leb_spec IDENTITY_PASSWORD_MAX_LENGTH (Z.of_nat (length password))).
      * replace (Z.of_nat (length password) <? IDENTITY_PASSWORD_MAX_LENGTH) with false in * by lia.
        destruct (IH password true) as (o & E & Ho); [done|]. exists o. split; [done|].
        eapply Hstep; [done| |exact Ho]. split; [done|]. intros [_ X]. specialize (X eq_refl). lia.
      * replace (Z.of_nat (length password) <? IDENTITY_PASSWORD_MAX_LENGTH) with true in * by lia.
        destruct (IH (password ++ [v]) overflow) as (o & E & Ho); [rewrite length_app; cbn; lia|]. exists o. split; [done|].
        eapply Hstep; [done| |exact Ho]. tauto.
    + destruct (IH password overflow) as (o & E & Ho); [done|]. exists o. split; [done|].
      eapply Hstep; [done| |exact Ho]. split; [done|tauto].
Qed.
Lemma password_exact st c input rest :
  pass_read_password st c input [] false = (true, rest) <-> password_typed st c input rest.
Proof.
  unfold password_typed, within, shown. split.
  - intros E. destruct (first_line input) as [H|(keys & nl & r & -> & Hk & Hn)].
    { destruct (password_line st c input [] [] false H) as (o & E' & _); [done|]. rewrite app_nil_r in E'. rewrite E' in E. done. }
    destruct (password_line st c keys (nl :: r) [] false Hk) as (o & E' & Ho); [done|]. rewrite E' in E.
    cbn [pass_read_password] in E. rewrite Hn in E. injection E as E <-. apply andb_true_iff in E as [E1 E2].
    exists keys, nl. split; [done|]. split; [done|]. split; [done|]. split; [|done]. apply Ho. by destruct o.
  - intros (keys & nl & -> & Hk & Hn & Hw & Hv).
    destruct (password_line st c keys (nl :: rest) [] false Hk) as (o & -> & Ho); [done|].
    cbn [pass_read_password]. rewrite Hn, Hv. by rewrite (proj2 Ho (conj eq_refl Hw)).
Qed.

(** * Descriptions *)

Definition newlines (text : list Z) : Z := sumZ (fun c => if c =? 10 then 1 else 0) text.
(** Up to three lines of visible text, 191 bytes at most. *)
Definition description_ok (text : list Z) : Prop :=
  Forall (fun c => c = 10 \/ 0x20 <= c /\ c <> 0x7f) text /\ newlines text <= 2 /\
  strlen text < PASS_MESSAGE_MAX /\ exists c, last text = Some c /\ c <> 10.

Lemma text_from_iff text len lines ended :
  lines <= 3 ->
  text_from text len lines ended = true <->
  Forall (fun c => c = 10 \/ 0x20 <= c /\ c <> 0x7f) text /\ lines + newlines text <= 3 /\
  match last text with None => ended = false | Some c => c <> 10 /\ len + strlen text < PASS_MESSAGE_MAX end.
Proof.
  unfold strlen. revert len lines ended. induction text as [|c text IH]; intros len lines ended Hl; cbn [text_from].
  { unfold newlines. cbn. split; [intros H; split; [apply Forall_nil_2|]; split; [lia|by destruct ended]|]. intros (_ & _ & ->). done. }
  assert (Hn : 0 <= newlines text) by (apply sumZ_nonneg; intros x; destruct (x =? 10); lia).
  rewrite Forall_cons. unfold newlines. cbn [sumZ length]. fold (newlines text). rewrite last_cons.
  destruct (Z.eqb_spec c 10) as [->|Hc].
  - destruct (Z.ltb_spec 3 (lines + 1)); [split; [done|lia]|]. rewrite IH by lia.
    destruct (last text) eqn:El; [|naive_solver]. rewrite !Z.add_assoc, Nat2Z.inj_succ.
    split; intros; intuition lia.
  - destruct (_ || _) eqn:Eb; [split; [done|]; intros ([[|]] & _); lia|].
    destruct (Z.leb_spec PASS_MESSAGE_MAX (len + 1)).
    + split; [done|]. intros (_ & _ & X). destruct (last text); lia.
    + rewrite IH by lia. rewrite Nat2Z.inj_succ. destruct (last text) as [d|] eqn:El; [intuition lia|].
      destruct text; [|by rewrite last_cons in El; destruct (last text)]. cbn. unfold newlines. cbn. intuition lia.
Qed.
Lemma text_valid_iff text : pass_text_valid text = true <-> description_ok text.
Proof.
  unfold pass_text_valid, description_ok. destruct text as [|c text].
  { split; [done|]. by intros (_ & _ & _ & c & ? & _). }
  rewrite text_from_iff by lia. destruct (last (c :: text)) as [d|] eqn:E.
  - rewrite Z.add_0_l. naive_solver lia.
  - rewrite last_cons in E. by destruct (last text).
Qed.
Lemma append_fits capacity buffer text :
  strlen buffer + strlen text < capacity -> pass_append capacity buffer text = Some (buffer ++ text).
Proof.
  unfold pass_append, strlen. intros H. destruct (Z.leb_spec capacity (Z.of_nat (length buffer))); [lia|].
  destruct (Z.leb_spec (capacity - Z.of_nat (length buffer)) (Z.of_nat (length text))); [lia|done].
Qed.
Lemma prompt_fits requester_name description :
  strlen requester_name <= 64 -> description_ok description -> is_Some (prompt_text requester_name description).
Proof.
  intros Hn (_ & _ & Hd & _). unfold prompt_text.
  set (t := str " wants to perform an administrator action:" ++ [10; 10]).
  assert (Ht : length t = 44%nat) by reflexivity. clearbody t.
  set (y := [10; 10] ++ str "[y/N] "). assert (Hy : length y = 8%nat) by reflexivity. clearbody y.
  unfold PASS_MESSAGE_MAX, strlen in *.
  repeat (rewrite append_fits by (unfold PASS_PROMPT_MAX, strlen; rewrite ?length_app, ?Ht, ?Hy; cbn [length]; lia);
    cbn [mbind option_bind]). by eexists.
Qed.

(** * The decision *)

(** The policy file names the provider. *)
Definition policy_names (f : file_answer) (p : pass_provider_t) : Prop :=
  fa_lookup f = VFS_OK /\ fa_file f = true /\ strlen (fa_read f) = fa_size f /\
  exists document line value, kernel_config_parse (Some (fa_read f)) (Some (Document [])) = Some (true, document, line) /\
    kernel_config_find document (Some (str "authorization")) = Some value /\ strcmp value (pass_provider_name p) = 0.

Lemma provider_named value p : pass_provider_from_value value = (p, true) ->
  exists v, value = Some v /\ strcmp v (pass_provider_name p) = 0.
Proof.
  unfold pass_provider_from_value. destruct value as [v|]; [|done]. intros E. exists v. split; [done|].
  repeat (match type of E with (if ?b then _ else _) = _ => destruct b eqn:? end; [injection E as <-; by apply Z.eqb_eq|]).
  done.
Qed.
Lemma policy_safe f : pass_policy_current f <> PASS_PROVIDER_CONFIRM -> policy_names f (pass_policy_current f).
Proof.
  unfold pass_policy_current, pass_policy_read.
  destruct (negb (fa_lookup f =? VFS_OK) || _ || _ || _) eqn:E1; [by intros []|].
  destruct (negb (fa_open f =? VFS_OK) || _) eqn:E2; [by intros []|].
  destruct (kernel_config_parse _ _) as [[[[] document] line]|] eqn:Ep; [|by intros []|by intros []].
  destruct (pass_provider_from_value _) as [p []] eqn:Ev; cbn [provider]; [intros _|by intros []].
  apply provider_named in Ev as (v & Ev & Hs). split; [lia|]. split; [destruct (fa_file f); [done|lia]|]. split; [lia|].
  exists document, line, v. done.
Qed.

(** C13: Authorization is exact.  A request is allowed exactly if the requester
    holds the privilege, the description is up to three lines of visible text,
    and the requester is a system service or the provider of the policy accepts:
    the provider [password] a line that is the password of the live account
    without a key refused, the provider [confirm] an answer [y] after any number
    of lines that are no answer (its prompt always fits), [scripts] and [none]
    everything.  A provider other than [confirm] is used only if the policy file
    was read in full, parsed, and names it. *)
Theorem pass_authorization_exact st f c name privilege description input :
  strlen name <= 64 ->
  (fst (pass_authorize_for_requester st f c name privilege description input) = PASS_RESULT_ALLOWED <->
   has_privilege st c privilege = true /\ description_ok description /\
   (Ipc.uid c = MG_UID_SYSTEM \/
    match pass_policy_current f with
    | PASS_PROVIDER_PASSWORD => exists rest, password_typed st c input rest
    | PASS_PROVIDER_CONFIRM => exists rest, confirmed input rest
    | PASS_PROVIDER_SCRIPTS | PASS_PROVIDER_NONE => True
    end)) /\
  (pass_policy_current f <> PASS_PROVIDER_CONFIRM -> policy_names f (pass_policy_current f)).
Proof.
  intros Hn. split; [|apply policy_safe]. unfold pass_authorize_for_requester. rewrite <- text_valid_iff.
  destruct (has_privilege st c privilege); [|naive_solver]. cbn [negb].
  destruct (pass_text_valid description) eqn:Ht; [|naive_solver]. cbn [negb]. apply text_valid_iff in Ht.
  unfold Ipc.identity_credentials_is_system. change Ipc.MG_UID_SYSTEM with MG_UID_SYSTEM.
  destruct (Z.eqb_spec (Ipc.uid c) MG_UID_SYSTEM); [naive_solver|].
  destruct (pass_policy_current f); cbn [authorize].
  - unfold pass_provider_password. pose proof (password_exact st c input) as P.
    destruct (pass_read_password st c input [] false) as [[] rest]; cbn; split; try done.
    + intros _. split; [done|]. split; [done|]. right. exists rest. by apply P.
    + intros (_ & _ & [?|[r Hr]]); [done|]. by apply P in Hr.
  - unfold pass_provider_confirm. destruct (prompt_fits name description Hn Ht) as [t ->].
    pose proof (confirmation_exact input) as P.
    destruct (pass_read_confirmation input [] false) as [[] rest]; cbn; split; try done.
    + intros _. split; [done|]. split; [done|]. right. exists rest. by apply P.
    + intros (_ & _ & [?|[r Hr]]); [done|]. by apply P in Hr.
  - cbn. naive_solver.
  - cbn. naive_solver.
Qed.

(** Two refused lines, then yes. *)
Definition missing_file : file_answer := FileAnswer VFS_ERR_NOT_FOUND false 0 true 0 [].
Definition answers : list Z := str "maybe" ++ [13] ++ str "yx" ++ [8; 10].
Lemma pass_authorization_exact_witness :
  strlen (str "accounts") <= 64 /\
  exists rest, confirmed answers rest /\
  fst (pass_authorize_for_requester sample_state missing_file (Ipc.Credentials 1001 0 0) (str "accounts")
    Ipc.IDENTITY_PRIVILEGE_MANAGE_USERS (str "Remove account") answers) = PASS_RESULT_ALLOWED.
Proof.
  split; [by_decision|]. exists []. assert (H : confirmed answers []) by (apply confirmation_exact; vm_compute; reflexivity).
  split; [exact H|]. apply pass_authorization_exact; [by_decision|]. split; [vm_compute; reflexivity|].
  split; [apply text_valid_iff; vm_compute; reflexivity|]. right. exists []. exact H.
Defined.

End Pass.
