(* ===== verification/AccountOps.v ===== *)
(** Account administration ([kernel/src/identity.c]): storing the registry,
    loading it, and creating, removing and changing accounts.

    The VFS is an interface, the class [Vfs]; what the proofs need of it is the
    class [VfsLaws].  A [run] keeps every state the disk went through, so that a
    crash can be placed anywhere.  An operation between [identity_update_begin]
    and [identity_update_end] excludes all others, so it is one definition;
    answers of [kmalloc] are arguments. *)
From S2P Require Import Prelude CString ConfigParser NetConfig Password Ipc Accounts AccountsProofs Identity Pass.
Import CString ConfigParser NetConfig Password Accounts AccountsProofs Identity Pass.

Module AccountOps.

(** * The VFS *)

Inductive vfs_error :=
  | VFS_INVALID_PARAM | VFS_NOT_FOUND | VFS_IO | VFS_NO_MEM | VFS_BAD_FORMAT | VFS_UNSUPPORTED | VFS_NOT_EMPTY
  | VFS_ACCESS_DENIED | VFS_NOT_DIRECTORY | VFS_BUSY | VFS_DEVICE_GONE | VFS_NO_SPACE | VFS_ALREADY_EXISTS.
Inductive vfs_node_type_t := VFS_TYPE_UNKNOWN | VFS_TYPE_FILE | VFS_TYPE_DIRECTORY.
#[export] Instance vfs_node_type_eq_dec : EqDecision vfs_node_type_t.
Proof. solve_decision. Defined.
Record vfs_node_t := Node { type : vfs_node_type_t; size : Z; owner_uid : Z }.
Definition is_directory (n : vfs_node_t) : bool := bool_decide (type n = VFS_TYPE_DIRECTORY).
Definition is_file (n : vfs_node_t) : bool := bool_decide (type n = VFS_TYPE_FILE).

(** A directory is named by its path from the root.  [None] where an operation
    succeeds without a result. *)
Class Vfs (D : Type) := {
  vfs_lookup_trusted : D -> list (list Z) -> vfs_error + vfs_node_t;
  vfs_get_root_node : D -> option vfs_node_t;
  vfs_finddir_trusted : D -> list (list Z) -> list Z -> option vfs_node_t;
  vfs_readdir_trusted : D -> list (list Z) -> nat -> option (list Z * vfs_node_type_t);
  vfs_mkdir_owned : D -> list (list Z) -> list Z -> Z -> (vfs_error + vfs_node_t) * D;
  vfs_create_owned : D -> list (list Z) -> list Z -> Z -> (vfs_error + vfs_node_t) * D;
  vfs_unlink_trusted : D -> list (list Z) -> list Z -> option vfs_error * D;
  vfs_rmdir_trusted : D -> list (list Z) -> list Z -> option vfs_error * D;
  vfs_rename_trusted : D -> list (list Z) -> list Z -> list Z -> option vfs_error * D;
  (** Opening and reading at most that many bytes. *)
  vfs_file_read_trusted : D -> list (list Z) -> list Z -> Z -> vfs_error + list Z;
  (** Opening, and how much of the data was written. *)
  vfs_file_write_trusted : D -> list (list Z) -> list Z -> list Z -> (vfs_error + Z) * D;
}.

Definition account_vfs_error (e : vfs_error) : Z :=
  match e with
  | VFS_NOT_FOUND => MG_ERR_NOT_FOUND
  | VFS_NO_MEM => MG_ERR_NO_MEMORY
  | VFS_UNSUPPORTED => MG_ERR_UNSUPPORTED
  | VFS_NOT_EMPTY => MG_ERR_NOT_EMPTY
  | VFS_ACCESS_DENIED => MG_ERR_ACCESS_DENIED
  | VFS_NOT_DIRECTORY => MG_ERR_NOT_DIRECTORY
  | VFS_IO => MG_ERR_IO
  | _ => MG_ERR_BAD_ARGUMENT
  end.

Definition accounts_path : list (list Z) := [str "sys"; str "accounts"].
Definition home_path : list (list Z) := [str "home"].
Definition users_name : list Z := str "users".
Definition temporary_name : list Z := str ".users.new".
Definition backup_name : list Z := str ".users.old".

Section Ops.
Context {D : Type} `{Vfs D}.

(** The disk now and before each of its changes, newest first. *)
Record run := Run { now : D; past : list D }.
Definition next (s : run) (d : D) : run := Run d (now s :: past s).
Definition on {A} (s : run) (r : A * D) : A * run := (fst r, next s (snd r)).

(** * Storing *)

Definition account_storage_directory (s : run) : option vfs_error * run :=
  match vfs_lookup_trusted (now s) accounts_path with
  | inr n => (if is_directory n then None else Some VFS_NOT_DIRECTORY, s)
  | inl VFS_NOT_FOUND =>
      match vfs_get_root_node (now s) with
      | None => (Some VFS_NOT_FOUND, s)
      | Some root =>
          if negb (is_directory root) then (Some VFS_NOT_FOUND, s)
          else
            let '(state, s) :=
              match vfs_finddir_trusted (now s) [] (str "sys") with
              | Some n => (inr n, s)
              | None => on s (vfs_mkdir_owned (now s) [] (str "sys") MG_UID_SYSTEM)
              end in
            match state with
            | inl e => (Some e, s)
            | inr n =>
                if negb (is_directory n) then (Some VFS_NOT_DIRECTORY, s)
                else
                  let '(accounts, s) :=
                    match vfs_finddir_trusted (now s) [str "sys"] (str "accounts") with
                    | Some n => (inr n, s)
                    | None => on s (vfs_mkdir_owned (now s) [str "sys"] (str "accounts") MG_UID_SYSTEM)
                    end in
                  match accounts with
                  | inl e => (Some e, s)
                  | inr n => (if is_directory n then None else Some VFS_NOT_DIRECTORY, s)
                  end
            end
      end
  | inl e => (Some e, s)
  end.

(** Removes a file left behind; false: it cannot be removed. *)
Definition remove_stale (s : run) (n : list Z) : bool * run :=
  match vfs_finddir_trusted (now s) accounts_path n with
  | None => (true, s)
  | Some node =>
      if negb (is_file node) then (false, s)
      else match on s (vfs_unlink_trusted (now s) accounts_path n) with
           | (None, s) => (true, s)
           | (Some _, s) => (false, s)
           end
  end.
Definition unlink (s : run) (n : list Z) : run := snd (on s (vfs_unlink_trusted (now s) accounts_path n)).
Definition write_contents (s : run) (contents : list Z) : option vfs_error * run :=
  let '(r, s) := on s (vfs_file_write_trusted (now s) accounts_path temporary_name contents) in
  match r with
  | inl e => (Some e, s)
  | inr n => (if n =? strlen contents then None else Some VFS_IO, s)
  end.
(** From the rename of the new file on. *)
Definition replace_users (s : run) (moved_old : bool) : Z * run :=
  match on s (vfs_rename_trusted (now s) accounts_path temporary_name users_name) with
  | (Some e, s) =>
      let s := if moved_old then snd (on s (vfs_rename_trusted (now s) accounts_path backup_name users_name)) else s in
      (account_vfs_error e, unlink s temporary_name)
  | (None, s) => (MG_OK, if moved_old then unlink s backup_name else s)
  end.
Definition install (s : run) : Z * run :=
  match vfs_finddir_trusted (now s) accounts_path users_name with
  | None => replace_users s false
  | Some node =>
      if negb (is_file node) then (MG_ERR_BAD_ARGUMENT, unlink s temporary_name)
      else match on s (vfs_rename_trusted (now s) accounts_path users_name backup_name) with
           | (Some e, s) => (account_vfs_error e, unlink s temporary_name)
           | (None, s) => replace_users s true
           end
  end.
(** Both stale files out of the way. *)
Definition clear_stale (s : run) : bool * run :=
  match remove_stale s temporary_name with
  | (false, s) => (false, s)
  | (true, s) => remove_stale s backup_name
  end.
(** Up to the complete temporary file; [Some]: the error to return. *)
Definition stage (s : run) (contents : list Z) : option Z * run :=
  match account_storage_directory s with
  | (Some e, s) => (Some (account_vfs_error e), s)
  | (None, s) =>
      match clear_stale s with
      | (false, s) => (Some MG_ERR_IO, s)
      | (true, s) =>
          match on s (vfs_create_owned (now s) accounts_path temporary_name MG_UID_SYSTEM) with
          | (inl e, s) => (Some (account_vfs_error e), s)
          | (inr _, s) =>
              match write_contents s contents with
              | (Some e, s) => (Some (account_vfs_error e), unlink s temporary_name)
              | (None, s) => (None, s)
              end
          end
      end
  end.
Definition account_persist_registry (memory : bool) (r : identity_registry_t) (s : run) : Z * run :=
  if negb memory then (MG_ERR_NO_MEMORY, s)
  else match serialize_database r IDENTITY_ACCOUNT_DB_MAX_BYTES with
  | None => (MG_ERR_BAD_ARGUMENT, s)
  | Some contents =>
      match stage s contents with
      | (Some e, s) => (e, s)
      | (None, s) => install s
      end
  end.

(** * Loading *)

(** [memory]: the answer of [kmalloc]. *)
Definition identity_read_database (memory : bool) (d : D) : Z * list Z :=
  match vfs_lookup_trusted d (accounts_path ++ [users_name]) with
  | inl VFS_NOT_FOUND => (MG_ERR_NOT_FOUND, [])
  | inl _ => (MG_ERR_IO, [])
  | inr n =>
      if negb (is_file n) then (MG_ERR_IO, [])
      else if (size n =? 0) || (IDENTITY_ACCOUNT_DB_MAX_BYTES <? size n) then (MG_ERR_BAD_ARGUMENT, [])
      else if negb memory then (MG_ERR_NO_MEMORY, [])
      else match vfs_file_read_trusted d accounts_path users_name (size n) with
           | inl _ => (MG_ERR_IO, [])
           | inr contents => if strlen contents =? size n then (MG_OK, contents) else (MG_ERR_IO, [])
           end
  end.
(** A file that is refused leaves rubbish in the slot that nobody reads; the
    model leaves that slot alone. *)
Definition identity_registry_reload (memory1 memory2 : bool) (st : identity) (s : run) : bool * identity * run :=
  match identity_update_begin st with
  | None => (false, set_registry_error st (str "account registry update busy"), s)
  | Some st =>
      let fail st message s := (false, identity_update_end (set_registry_error st message), s) in
      match identity_read_database memory1 (now s) with
      | (result, contents) =>
          if negb (result =? MG_OK) then
            fail st (if result =? MG_ERR_NOT_FOUND then str "account database not found"
                     else str "account database read failed") s
          else match parse_database contents with
          | None => fail st (str "account database validation failed") s
          | Some (r, needs_migration) =>
              let target := if registry_loaded st then negb (active_registry_slot st) else false in
              let st := State (fill_slot st target r) (active_registry_slot st) (registry_loaded st)
                          (identity_update_busy st) (registry_error_message st) in
              let '(result, s) := if needs_migration then account_persist_registry memory2 r s else (MG_OK, s) in
              if negb (result =? MG_OK) then fail st (str "account database migration failed") s
              else
                let st := State (registry_slots st) target true (identity_update_busy st) (registry_error_message st) in
                (true, identity_update_end (set_registry_error st (str "account database ready")), s)
          end
      end
  end.

(** * Helpers of the operations *)

(** Index of the account, -1 as [None]. *)
Definition account_find (r : identity_registry_t) (n : list Z) : option nat :=
  fst <$> list_find (fun a => strcmp (username (user a)) n = 0) (accounts r).
Definition is_admin (a : account) : bool := role (user a) =? MG_IDENTITY_ROLE_ADMIN.
Definition account_admin_count (r : identity_registry_t) : Z := sumZ (fun a => if is_admin a then 1 else 0) (accounts r).
Definition account_home_is_safe (u : user_identity_t) : bool :=
  account_home_matches u && negb (strcmp (home u) (str "/home") =? 0) && negb (strcmp (home u) (str "/") =? 0).
(** The salt of no other account; [ignored_index] is skipped. *)
Definition account_salt_unique (r : identity_registry_t) (ignored_index : nat) (candidate : identity_authentication_t) : bool :=
  forallb (fun ia => (fst ia =? ignored_index)%nat || negb (algorithm (auth (snd ia)) =? IDENTITY_AUTH_PBKDF2_SHA256) ||
                     negb (bool_decide (salt (auth (snd ia)) = salt candidate)))
    (zip (seq 0 (length (accounts r))) (accounts r)).
(** The loop over [attempt]. *)
Fixpoint try_passwords (attempts : nat) (p : processor) (n : nat) (r : identity_registry_t) (index : nat)
    (password : list Z) (a : identity_authentication_t) : Z * identity_authentication_t * nat :=
  match attempts with
  | O => (MG_ERR_BUSY, Authentication 0 0 (replicate 16 0) (replicate 32 0), n)
  | S attempts =>
      match password_auth_generate p n a password with
      | (false, a, n) => (MG_ERR_ENTROPY_UNAVAILABLE, a, n)
      | (true, a, n) =>
          if account_salt_unique r index a then (MG_OK, a, n)
          else try_passwords attempts p n r index password a
      end
  end.
Definition account_make_password (p : processor) (n : nat) (r : identity_registry_t) (index : nat)
    (password : list Z) (a : identity_authentication_t) : Z * identity_authentication_t * nat :=
  if negb (password_input_valid password) then (MG_ERR_BAD_ARGUMENT, a, n)
  else if negb (password_auth_available p) then (MG_ERR_ENTROPY_UNAVAILABLE, a, n)
  else try_passwords 8 p n r index password a.

Definition append_all (capacity : Z) (texts : list (list Z)) : option (list Z) := append_each capacity [] texts.

(** * The world of an operation *)

Record world := World {
  ids : identity;
  disk : run;
  console : list Z;   (** what is typed *)
  entropy : nat;      (** random numbers used so far *)
}.
(** Who calls, the policy file and the processor. *)
Record env := Env {
  who : option (Ipc.process_credentials_t * list Z);
  policy : file_answer;
  cpu : processor;
  memory : nat -> bool;   (** the answers of [kmalloc], in order *)
}.
Definition with_ids (w : world) (st : identity) : world := World st (disk w) (console w) (entropy w).
Definition with_disk (w : world) (s : run) : world := World (ids w) s (console w) (entropy w).
Definition with_console (w : world) (c : list Z) : world := World (ids w) (disk w) c (entropy w).
Definition with_entropy (w : world) (n : nat) : world := World (ids w) (disk w) (console w) n.

Definition account_require_manage_users (e : env) (w : world) : Z :=
  match who e with
  | None => MG_ERR_PRIVILEGE_REQUIRED
  | Some (c, _) => if has_privilege (ids w) c Ipc.IDENTITY_PRIVILEGE_MANAGE_USERS then MG_OK else MG_ERR_PRIVILEGE_REQUIRED
  end.
Definition ask (e : env) (w : world) (description : option (list Z)) : Z * world :=
  match description with
  | None => (MG_ERR_BAD_ARGUMENT, w)
  | Some description =>
      let '(result, input) := pass_authorize_current (ids w) (policy e) (who e)
        Ipc.IDENTITY_PRIVILEGE_MANAGE_USERS description (console w) in
      (result, with_console w input)
  end.
Definition persist (mem : bool) (r : identity_registry_t) (w : world) : Z * world :=
  let '(result, s) := account_persist_registry mem r (disk w) in (result, with_disk w s).
Definition publish (r : identity_registry_t) (w : world) : world := with_ids w (identity_registry_publish (ids w) r).
(** The part between [identity_update_begin] and [identity_update_end]. *)
Definition exclusively (w : world) (body : world -> Z * world) : Z * world :=
  match identity_update_begin (ids w) with
  | None => (MG_ERR_BUSY, w)
  | Some st => let '(result, w) := body (with_ids w st) in (result, with_ids w (identity_update_end (ids w)))
  end.
Definition replace_account (r : identity_registry_t) (i : nat) (a : account) : identity_registry_t :=
  Registry (<[i := a]> (accounts r)) (next_uid r).

(** * Operations *)

Definition set_password_body (e : env) (c : Ipc.process_credentials_t) (n password : list Z) (w : world) : Z * world :=
  match identity_registry_copy_active (ids w) with
  | None => (MG_ERR_IO, w)
  | Some r =>
      match account_find r n with
      | None => (MG_ERR_NOT_FOUND, w)
      | Some i =>
          let a := accounts r !!! i in
          let other := negb (Ipc.uid c =? uid (user a)) in
          if other && negb (has_privilege (ids w) c Ipc.IDENTITY_PRIVILEGE_MANAGE_USERS) then (MG_ERR_PRIVILEGE_REQUIRED, w)
          else
            let '(result, w) :=
              if other then ask e w (append_all PASS_MESSAGE_MAX [str "Reset the password for account " ++ [34]; n; 34 :: str "."])
              else (MG_OK, w) in
            if negb (result =? MG_OK) then (result, w)
            else
              let '(result, au, k) := account_make_password (cpu e) (entropy w) r i password (auth a) in
              let w := with_entropy w k in
              if negb (result =? MG_OK) then (result, w)
              else
                let r := replace_account r i (Account (user a) au) in
                let '(result, w) := persist (memory e 0) r w in
                (result, if result =? MG_OK then publish r w else w)
      end
  end.
Definition identity_account_set_password (e : env) (n password : list Z) (w : world) : Z * world :=
  if negb (username_valid n) || negb (password_input_valid password) then (MG_ERR_BAD_ARGUMENT, w)
  else match who e with
       | None => (MG_ERR_ACCESS_DENIED, w)
       | Some (c, _) => exclusively w (set_password_body e c n password)
       end.

Definition create_description (n : list Z) : option (list Z) :=
  append_all PASS_MESSAGE_MAX
    [str "Create account " ++ [34]; n; 34 :: str " with home "; str "/home/" ++ n; str "."].
(** From the home directory on. *)
Definition create_home (e : env) (r : identity_registry_t) (n : list Z) (u : Z) (w : world) : Z * world :=
  match vfs_lookup_trusted (now (disk w)) home_path with
  | inl err => (account_vfs_error err, w)
  | inr root =>
      if negb (is_directory root) then (account_vfs_error VFS_NOT_DIRECTORY, w)
      else match vfs_finddir_trusted (now (disk w)) home_path n with
      | Some _ => (MG_ERR_ALREADY_EXISTS, w)
      | None =>
          match on (disk w) (vfs_mkdir_owned (now (disk w)) home_path n u) with
          | (inl err, s) => (account_vfs_error err, with_disk w s)
          | (inr _, s) =>
              let '(result, w) := persist (memory e 1) r (with_disk w s) in
              if negb (result =? MG_OK)
              then (result, with_disk w (snd (on (disk w) (vfs_rmdir_trusted (now (disk w)) home_path n))))
              else (result, publish r w)
          end
      end
  end.
Definition new_user (r : identity_registry_t) (n : list Z) : user_identity_t :=
  User (next_uid r) n MG_IDENTITY_ROLE_REGULAR (str "/home/" ++ n) 0.
Definition create_body (e : env) (n password : list Z) (w : world) : Z * world :=
  match identity_registry_copy_active (ids w) with
  | None => (MG_ERR_IO, w)
  | Some r =>
      if (IDENTITY_ACCOUNT_MAX_RECORDS <=? count r) || (next_uid r =? U32_MAX) then (MG_ERR_BUSY, w)
      else match account_find r n with
      | Some _ => (MG_ERR_ALREADY_EXISTS, w)
      | None =>
          let '(result, w) := ask e w (create_description n) in
          if negb (result =? MG_OK) then (result, w)
          else
            let '(result, au, k) := account_make_password (cpu e) (entropy w) r (length (accounts r)) password
              (Authentication 0 0 (replicate 16 0) (replicate 32 0)) in
            let w := with_entropy w k in
            if negb (result =? MG_OK) then (result, w)
            else
              let r' := Registry (accounts r ++ [Account (new_user r n) au]) (u32 (next_uid r + 1)) in
              if negb (identity_registry_valid r') then (MG_ERR_BAD_ARGUMENT, w)
              else create_home e r' n (next_uid r) w
      end
  end.
Definition identity_account_create (e : env) (n password : list Z) (w : world) : Z * world :=
  let result := account_require_manage_users e w in
  if negb (result =? MG_OK) then (result, w)
  else if negb (username_valid n) || negb (password_input_valid password) then (MG_ERR_BAD_ARGUMENT, w)
  else if negb (memory e 0) then (MG_ERR_NO_MEMORY, w)
  else exclusively w (create_body e n password).

(** ** Removal *)

(** The entries of a directory, 64 at most. *)
Fixpoint read_entries (count : nat) (d : D) (p : list (list Z)) (index : nat) : list (list Z * vfs_node_type_t) :=
  match count with
  | O => []
  | S count =>
      match vfs_readdir_trusted d p index with
      | None => []
      | Some e => e :: read_entries count d p (S index)
      end
  end.
(** [fuel] is [32 - depth]; [p] is known to be a directory. *)
Fixpoint account_purge_directory (fuel : nat) (s : run) (p : list (list Z)) : Z * run :=
  match fuel with
  | O => (MG_ERR_BAD_ARGUMENT, s)
  | S fuel =>
      let entries := read_entries 64 (now s) p 0 in
      if (length entries =? 64)%nat then (MG_ERR_NO_MEMORY, s)
      else
        (fix children (l : list (list Z * vfs_node_type_t)) (s : run) : Z * run :=
           match l with
           | [] => (MG_OK, s)
           | (n, t) :: l =>
               match vfs_finddir_trusted (now s) p n with
               | None => (MG_ERR_IO, s)
               | Some child =>
                   let '(result, s) :=
                     if bool_decide (t = VFS_TYPE_DIRECTORY) then
                       let '(result, s) :=
                         if is_directory child then account_purge_directory fuel s (p ++ [n])
                         else (MG_ERR_BAD_ARGUMENT, s) in
                       if negb (result =? MG_OK) then (result, s)
                       else match on s (vfs_rmdir_trusted (now s) p n) with
                            | (None, s) => (MG_OK, s)
                            | (Some err, s) => (account_vfs_error err, s)
                            end
                     else match on s (vfs_unlink_trusted (now s) p n) with
                          | (None, s) => (MG_OK, s)
                          | (Some err, s) => (account_vfs_error err, s)
                          end in
                   if negb (result =? MG_OK) then (result, s) else children l s
               end
           end) entries s
  end.
Definition account_purge_home (u : user_identity_t) (s : run) : Z * run :=
  if negb (account_home_is_safe u) then (MG_ERR_BAD_ARGUMENT, s)
  else match vfs_lookup_trusted (now s) home_path with
  | inl err => (account_vfs_error err, s)
  | inr root =>
      if negb (is_directory root) then (MG_OK, s)
      else match vfs_finddir_trusted (now s) home_path (username u) with
      | None => (MG_ERR_ACCESS_DENIED, s)
      | Some h =>
          if negb (is_directory h) || negb (owner_uid h =? uid u) then (MG_ERR_ACCESS_DENIED, s)
          else
            let '(result, s) :=
              if size h =? 0 then (MG_OK, s) else account_purge_directory 32 s (home_path ++ [username u]) in
            if negb (result =? MG_OK) then (result, s)
            else match on s (vfs_rmdir_trusted (now s) home_path (username u)) with
                 | (None, s) => (MG_OK, s)
                 | (Some err, s) => (account_vfs_error err, s)
                 end
      end
  end.

Definition remove_description (purge : bool) (u : user_identity_t) (n : list Z) : option (list Z) :=
  append_all PASS_MESSAGE_MAX
    ([(if purge then str "Delete account " else str "Remove account ") ++ [34]; n;
      34 :: if purge then str " and permanently delete" ++ [10] else str " and preserve its home."] ++
     if purge then [home u; str " and all contents."] else []).
(** The loop that looks for an heir of the initial flag: the first
    administrator, else the first account. *)
Fixpoint heir (l : list account) (i index : nat) (replacement : option nat) : option nat :=
  match l with
  | [] => replacement
  | a :: l =>
      if (i =? index)%nat then heir l (S i) index replacement
      else if is_admin a then Some i
      else heir l (S i) index (match replacement with None => Some i | Some _ => replacement end)
  end.
Definition make_initial (a : account) : account :=
  let u := user a in
  Account (User (uid u) (username u) (role u) (home u) (Z.lor (flags u) IDENTITY_ACCOUNT_FLAG_INITIAL)) (auth a).
Definition without (r : identity_registry_t) (index : nat) : option identity_registry_t :=
  accounts' ←
    (if initial (user (accounts r !!! index)) then
       j ← heir (accounts r) 0 index None; Some (alter make_initial j (accounts r))
     else Some (accounts r));
  Some (Registry (take index accounts' ++ drop (S index) accounts') (next_uid r)).
Definition remove_body (e : env) (n : list Z) (purge : bool) (w : world) : Z * world :=
  if negb (memory e 0) || negb (memory e 1) then (MG_ERR_NO_MEMORY, w)
  else match identity_registry_copy_active (ids w) with
  | None => (MG_ERR_IO, w)
  | Some old =>
      match account_find old n with
      | None => (MG_ERR_NOT_FOUND, w)
      | Some i =>
          let a := accounts old !!! i in
          let guard :=
            match who e with
            | None => MG_ERR_ACCESS_DENIED
            | Some (c, _) =>
                if (Ipc.uid c =? uid (user a)) || is_admin a && (account_admin_count old <=? 1) then MG_ERR_ACCESS_DENIED
                else if purge && negb (account_home_is_safe (user a)) then MG_ERR_BAD_ARGUMENT else MG_OK
            end in
          if negb (guard =? MG_OK) then (guard, w)
          else
            let '(result, w) := ask e w (remove_description purge (user a) n) in
            if negb (result =? MG_OK) then (result, w)
            else match without old i with
            | None => (MG_ERR_ACCESS_DENIED, w)
            | Some r =>
                let '(result, w) := persist (memory e 2) r w in
                if negb (result =? MG_OK) then (result, w)
                else
                  let '(result, w) :=
                    if purge then let '(result, s) := account_purge_home (user a) (disk w) in (result, with_disk w s)
                    else (MG_OK, w) in
                  if negb (result =? MG_OK) then
                    let '(restore_result, w) := persist (memory e 3) old w in
                    (if negb (restore_result =? MG_OK) then MG_ERR_IO else result, w)
                  else (MG_OK, publish r w)
            end
      end
  end.
Definition identity_account_remove (e : env) (n : list Z) (purge : bool) (w : world) : Z * world :=
  let result := account_require_manage_users e w in
  if negb (result =? MG_OK) then (result, w)
  else if negb (username_valid n) then (MG_ERR_BAD_ARGUMENT, w)
  else exclusively w (remove_body e n purge).

(** ** Roles *)

Definition with_role (a : account) (new_role : Z) : account :=
  let u := user a in Account (User (uid u) (username u) new_role (home u) (flags u)) (auth a).
Definition role_description (n : list Z) (new_role : Z) : option (list Z) :=
  append_all PASS_MESSAGE_MAX
    [str "Change account " ++ [34]; n; 34 :: str " role to ";
     if new_role =? MG_IDENTITY_ROLE_ADMIN then str "admin" else str "regular"; str "."].
Definition set_role_body (e : env) (n : list Z) (new_role : Z) (w : world) : Z * world :=
  match identity_registry_copy_active (ids w) with
  | None => (MG_ERR_IO, w)
  | Some r =>
      match account_find r n with
      | None => (MG_ERR_NOT_FOUND, w)
      | Some i =>
          let a := accounts r !!! i in
          if role (user a) =? new_role then (MG_OK, w)
          else if (new_role =? MG_IDENTITY_ROLE_REGULAR) && is_admin a && (account_admin_count r <=? 1)
          then (MG_ERR_ACCESS_DENIED, w)
          else
            let '(result, w) := ask e w (role_description n new_role) in
            if negb (result =? MG_OK) then (result, w)
            else
              let r := replace_account r i (with_role a new_role) in
              if negb (identity_registry_valid r) then (MG_ERR_BAD_ARGUMENT, w)
              else
                let '(result, w) := persist (memory e 0) r w in
                (result, if result =? MG_OK then publish r w else w)
      end
  end.
Definition identity_account_set_role (e : env) (n : list Z) (new_role : Z) (w : world) : Z * world :=
  let result := account_require_manage_users e w in
  if negb (result =? MG_OK) then (result, w)
  else if negb (username_valid n) ||
          negb ((new_role =? MG_IDENTITY_ROLE_REGULAR) || (new_role =? MG_IDENTITY_ROLE_ADMIN)) then (MG_ERR_BAD_ARGUMENT, w)
  else exclusively w (set_role_body e n new_role).

End Ops.
End AccountOps.
