(* ===== verification/AccountStorage.v ===== *)
(** What storing the account registry leaves on the disk, at every moment. *)
From S2P Require Import Prelude CString NetConfig Password Accounts AccountsProofs Identity AccountOps.
Import CString NetConfig Password Accounts AccountsProofs Identity AccountOps.

Module AccountStorage.

(** * What is assumed of the VFS *)

(** [file d n]: the contents of the regular file [n] of [/sys/accounts].  An
    operation that fails changes no file; one that succeeds does what its name
    says, and nothing else.  A short write may leave anything in its file. *)
Class VfsLaws (D : Type) `{Vfs D} := {
  file : D -> list Z -> option (list Z);
  law_bytes d n c : file d n = Some c -> Forall is_u8 c;
  law_find d n : match vfs_finddir_trusted d accounts_path n with
                 | None => file d n = None
                 | Some node => is_file node = true -> is_Some (file d n)
                 end;
  law_lookup d n node : vfs_lookup_trusted d (accounts_path ++ [n]) = inr node -> is_file node = true ->
    exists c, file d n = Some c /\ size node = strlen c;
  law_read d n c k x : file d n = Some c -> vfs_file_read_trusted d accounts_path n k = inr x -> x = take (Z.to_nat k) c;
  law_mkdir d p n u m : file (snd (vfs_mkdir_owned d p n u)) m = file d m;
  law_home_rmdir d p n m : file (snd (vfs_rmdir_trusted d (home_path ++ p) n)) m = file d m;
  law_home_unlink d p n m : file (snd (vfs_unlink_trusted d (home_path ++ p) n)) m = file d m;
  law_create d n u m : file (snd (vfs_create_owned d accounts_path n u)) m =
    match fst (vfs_create_owned d accounts_path n u) with
    | inr _ => if decide (m = n) then Some [] else file d m
    | inl _ => file d m
    end;
  law_unlink d n m : file (snd (vfs_unlink_trusted d accounts_path n)) m =
    match fst (vfs_unlink_trusted d accounts_path n) with
    | None => if decide (m = n) then None else file d m
    | Some _ => file d m
    end;
  law_rename d a b m : a <> b -> file (snd (vfs_rename_trusted d accounts_path a b)) m =
    match fst (vfs_rename_trusted d accounts_path a b) with
    | None => if decide (m = b) then file d a else if decide (m = a) then None else file d m
    | Some _ => file d m
    end;
  law_write_other d n data m : m <> n -> file (snd (vfs_file_write_trusted d accounts_path n data)) m = file d m;
  law_write d n data : fst (vfs_file_write_trusted d accounts_path n data) = inr (strlen data) ->
    file (snd (vfs_file_write_trusted d accounts_path n data)) n = Some data;
}.

Lemma names_differ : temporary_name <> users_name /\ backup_name <> users_name /\ temporary_name <> backup_name.
Proof. done. Qed.

Section Storage.
Context {D : Type} `{VfsLaws D}.
Implicit Types s : @run D.

(** Every state after [s] up to [s'] satisfies [P]. *)
Definition visits s s' (P : D -> Prop) : Prop :=
  exists l, now s' :: past s' = l ++ now s :: past s /\ Forall P l.
Lemma visits_refl s P : visits s s P.
Proof. exists []. split; [done|apply Forall_nil_2]. Qed.
Lemma visits_trans s1 s2 s3 P : visits s1 s2 P -> visits s2 s3 P -> visits s1 s3 P.
Proof.
  intros (l1 & E1 & H1) (l2 & E2 & H2). exists (l2 ++ l1). rewrite E2, E1, app_assoc. split; [done|].
  by apply Forall_app.
Qed.
Lemma visits_next s d (P : D -> Prop) : P d -> visits s (next s d) P.
Proof. intros Hd. exists [d]. split; [done|]. by apply Forall_singleton. Qed.
Lemma visits_weaken s s' (P Q : D -> Prop) : visits s s' P -> (forall d, P d -> Q d) -> visits s s' Q.
Proof. intros (l & E & Hl) Hi. exists l. split; [done|]. eapply Forall_impl; eauto. Qed.

Definition same (d d' : D) : Prop := forall m, file d' m = file d m.
(** Nothing but the temporary and the backup file may differ. *)
Definition same_users (d d' : D) : Prop := file d' users_name = file d users_name.

Lemma users_trans d1 d2 d3 : same_users d1 d2 -> same_users d2 d3 -> same_users d1 d3.
Proof. unfold same_users. congruence. Qed.
Lemma visits_same_trans s1 s2 s3 :
  visits s1 s2 (same_users (now s1)) -> same_users (now s1) (now s2) -> visits s2 s3 (same_users (now s2)) ->
  visits s1 s3 (same_users (now s1)).
Proof.
  intros V1 E V2. eapply visits_trans; [exact V1|]. eapply visits_weaken; [exact V2|].
  intros d Hd. unfold same_users in *. congruence.
Qed.

Lemma storage_spec s : let '(r, s') := account_storage_directory s in
  visits s s' (same (now s)) /\ same (now s) (now s').
Proof.
  assert (R : visits s s (same (now s)) /\ same (now s) (now s)) by (split; [apply visits_refl|done]).
  assert (Hm : forall s1 p n u, visits s s1 (same (now s)) -> same (now s) (now s1) ->
    visits s (snd (on s1 (vfs_mkdir_owned (now s1) p n u))) (same (now s)) /\
    same (now s) (now (snd (on s1 (vfs_mkdir_owned (now s1) p n u))))).
  { intros s1 p n u V E. assert (X : same (now s) (snd (vfs_mkdir_owned (now s1) p n u)))
      by (intros m; rewrite law_mkdir; apply E). split; [|exact X]. eapply visits_trans; [exact V|]. by apply visits_next. }
  unfold account_storage_directory. destruct (vfs_lookup_trusted _ _) as [[]|n]; try exact R.
  destruct (vfs_get_root_node _); [|exact R]. destruct (negb _); [exact R|].
  assert (Hs : exists state s1, match vfs_finddir_trusted (now s) [] (str "sys") with
      | Some n => (inr n, s) | None => on s (vfs_mkdir_owned (now s) [] (str "sys") MG_UID_SYSTEM) end = (state, s1) /\
      visits s s1 (same (now s)) /\ same (now s) (now s1)).
  { destruct (vfs_finddir_trusted _ _ _) as [n|]; [by exists (inr n), s|].
    eexists _, _. split; [reflexivity|]. apply (Hm s [] (str "sys") MG_UID_SYSTEM); apply R. }
  destruct Hs as (state & s1 & -> & V & E). destruct state as [e|n]; [done|]. destruct (negb _); [done|].
  destruct (vfs_finddir_trusted _ _ _) as [n'|]; [done|].
  specialize (Hm s1 [str "sys"] (str "accounts") MG_UID_SYSTEM V E). unfold on in *. cbn [snd] in Hm.
  destruct (fst (vfs_mkdir_owned _ _ _ _)); done.
Qed.

Lemma storage_users s : let '(r, s') := account_storage_directory s in
  visits s s' (same_users (now s)) /\ same_users (now s) (now s').
Proof.
  pose proof (storage_spec s) as S. destruct (account_storage_directory s) as [r s']. destruct S as [V E].
  split; [|apply E]. eapply visits_weaken; [exact V|]. intros d Hd. apply Hd.
Qed.

Lemma unlink_users_spec s n m : file (now (unlink s n)) m = file (now s) m \/ m = n /\ file (now (unlink s n)) m = None.
Proof.
  unfold unlink, on. cbn [snd now next]. rewrite law_unlink. destruct (fst _); [by left|].
  destruct (decide (m = n)); [by right|by left].
Qed.
Lemma unlink_visits s n P : P (now (unlink s n)) -> visits s (unlink s n) P.
Proof. apply visits_next. Qed.

Lemma stale_spec s n : n <> users_name -> let '(r, s') := remove_stale s n in
  visits s s' (same_users (now s)) /\ same_users (now s) (now s') /\
  (r = true -> file (now s') n = None /\ forall m, m <> n -> file (now s') m = file (now s) m).
Proof.
  intros Hn. unfold remove_stale. pose proof (law_find (now s) n) as F. destruct (vfs_finddir_trusted _ _ _) as [node|].
  2: { split; [apply visits_refl|]. split; [reflexivity|]. by intros _. }
  destruct (negb _); [split; [apply visits_refl|]; by split|]. unfold on.
  pose proof (law_unlink (now s) n) as L.
  assert (U : same_users (now s) (snd (vfs_unlink_trusted (now s) accounts_path n))).
  { unfold same_users. rewrite L. destruct (fst _); [done|]. by rewrite decide_False by congruence. }
  destruct (fst (vfs_unlink_trusted (now s) accounts_path n)) eqn:E; (split; [by apply visits_next|split; [exact U|]]); [done|].
  intros _. cbn [now next]. split; [by rewrite L, decide_True|]. intros m Hm. by rewrite L, decide_False.
Qed.

(** At every moment the registry can be recovered: the database is the old or
    the new one, or it is missing and the backup is the old one. *)
Definition recoverable (old : option (list Z)) (text : list Z) (d : D) : Prop :=
  file d users_name = old \/ file d users_name = Some text \/
  file d users_name = None /\ file d backup_name = old.

(** The new file is written and the old one still in place. *)
Record staged (old : option (list Z)) (text : list Z) (d : D) : Prop := {
  sg_users : file d users_name = old;
  sg_new : file d temporary_name = Some text;
}.
Lemma recoverable_old old text d : file d users_name = old -> recoverable old text d.
Proof. by left. Qed.

Lemma error_not_ok e : account_vfs_error e <> MG_OK.
Proof. by destruct e. Qed.

(** Like [recoverable], without the new database. *)
Definition kept (old : option (list Z)) (d : D) : Prop :=
  file d users_name = old \/ file d users_name = None /\ file d backup_name = old.
Lemma kept_recoverable old text d : kept old d -> recoverable old text d.
Proof. intros [?|?]; [by left|by right; right]. Qed.
Lemma kept_unlink old s : kept old (now s) -> kept old (now (unlink s temporary_name)).
Proof.
  intros Hk. unfold kept in *.
  destruct (unlink_users_spec s temporary_name users_name) as [->|[? _]]; [|done].
  destruct (unlink_users_spec s temporary_name backup_name) as [->|[? _]]; [done|done].
Qed.

(** Giving up: the temporary file is removed. *)
Lemma abandon s0 s1 old text :
  visits s0 s1 (recoverable old text) -> kept old (now s1) ->
  visits s0 (unlink s1 temporary_name) (recoverable old text) /\ kept old (now (unlink s1 temporary_name)).
Proof.
  intros V Hk. pose proof (kept_unlink old s1 Hk) as Hk'. split; [|done].
  eapply visits_trans; [exact V|]. apply unlink_visits. by apply kept_recoverable.
Qed.

(** Renaming the new file into place, when the old one has been moved away or
    there was none. *)
Lemma replace_spec s moved old text :
  file (now s) users_name = None -> file (now s) temporary_name = Some text ->
  (if moved : bool then file (now s) backup_name = old else old = None) ->
  let '(r, s') := replace_users s moved in
  visits s s' (recoverable old text) /\
  (r = MG_OK /\ file (now s') users_name = Some text \/ r <> MG_OK /\ kept old (now s')).
Proof.
  intros Hu Ht Hb. unfold replace_users, on. pose proof (fun m => law_rename (now s) temporary_name users_name m) as L.
  set (d1 := snd (vfs_rename_trusted (now s) accounts_path temporary_name users_name)) in *.
  assert (Hk : kept old (now s)) by (destruct moved; [by right|left; congruence]).
  destruct (fst (vfs_rename_trusted (now s) accounts_path temporary_name users_name)) as [e|].
  - assert (V1 : visits s (next s d1) (recoverable old text) /\ kept old d1).
    { assert (kept old d1) by (unfold kept; rewrite !L by done; done). split; [|done].
      by apply visits_next, kept_recoverable. }
    destruct V1 as [V1 K1]. destruct moved; cbn [snd].
    + set (s2 := next (next s d1) _). assert (K2 : kept old (now s2)).
      { unfold s2. cbn [now next]. unfold kept. rewrite !law_rename by done.
        destruct (fst (vfs_rename_trusted d1 _ _ _)); [right; by rewrite !L by done|]. left.
        by rewrite decide_True, L. }
      destruct (abandon s s2 old text) as [V K]; [|done|split; [done|right; split; [apply error_not_ok|done]]].
      eapply visits_trans; [exact V1|]. by apply visits_next, kept_recoverable.
    + destruct (abandon s (next s d1) old text V1 K1) as [V K]. split; [done|]. right. split; [apply error_not_ok|done].
  - assert (E1 : file d1 users_name = Some text) by (rewrite L, decide_True by done; done).
    assert (V1 : visits s (next s d1) (recoverable old text)) by (apply visits_next; right; by left).
    destruct moved; [|by split; [|left]].
    assert (E2 : file (now (unlink (next s d1) backup_name)) users_name = Some text).
    { destruct (unlink_users_spec (next s d1) backup_name users_name) as [->|[? _]]; [exact E1|done]. }
    split; [|by left]. eapply visits_trans; [exact V1|]. apply unlink_visits. right. by left.
Qed.

(** From the written temporary file on.  When a database is replaced, there is a
    moment at which none exists. *)
Lemma install_users_spec s old text :
  staged old text (now s) ->
  let '(r, s') := install s in
  visits s s' (recoverable old text) /\
  (r = MG_OK /\ file (now s') users_name = Some text /\
     (is_Some old -> exists d, d ∈ past s' /\ file d users_name = None) \/
   r <> MG_OK /\ kept old (now s')).
Proof.
  intros [Hu Ht]. unfold install. pose proof (law_find (now s) users_name) as F.
  assert (K : kept old (now s)) by by left.
  destruct (vfs_finddir_trusted _ _ _) as [node|].
  - destruct (negb _).
    { destruct (abandon s s old text (visits_refl s _) K) as [V K']. split; [done|]. by right. }
    unfold on. pose proof (fun m => law_rename (now s) users_name backup_name m) as L.
    set (d1 := snd (vfs_rename_trusted (now s) accounts_path users_name backup_name)) in *.
    destruct (fst (vfs_rename_trusted (now s) accounts_path users_name backup_name)) as [e|].
    + assert (K1 : kept old d1) by (left; by rewrite L).
      assert (V1 : visits s (next s d1) (recoverable old text)) by (by apply visits_next, kept_recoverable).
      destruct (abandon s (next s d1) old text V1 K1) as [V K']. split; [done|]. right. split; [apply error_not_ok|done].
    + assert (U1 : file d1 users_name = None) by by rewrite L.
      assert (B1 : file d1 backup_name = old) by (rewrite L by done; cbn; done).
      assert (T1 : file d1 temporary_name = Some text) by by rewrite L.
      assert (V1 : visits s (next s d1) (recoverable old text)) by (apply visits_next; right; by right).
      pose proof (replace_spec (next s d1) true old text U1 T1 B1) as R.
      destruct (replace_users (next s d1) true) as [r s'] eqn:Er. destruct R as [V R].
      split; [by eapply visits_trans|]. destruct R as [[-> R]|R]; [left|by right]. split; [done|]. split; [done|].
      intros _. exists d1. split; [|done]. clear -Er. apply (f_equal snd) in Er. cbn [snd] in Er. subst s'.
      unfold replace_users, on, unlink. 
      destruct (fst _); cbn [snd past next]; repeat first [apply list_elem_of_here|apply list_elem_of_further].
  - assert (old = None) as -> by congruence.
    pose proof (replace_spec s false None text F Ht eq_refl) as R. destruct (replace_users s false) as [r s'].
    destruct R as [V [[-> R]|R]]; (split; [done|]); [left|by right]. split; [done|]. split; [done|]. by intros [? ?].
Qed.

(** Up to the rename, the database is not touched. *)
Lemma visits_kept s s' old text :
  file (now s) users_name = old -> visits s s' (same_users (now s)) -> visits s s' (recoverable old text).
Proof. intros Hu V. eapply visits_weaken; [exact V|]. intros d Hd. left. unfold same_users in Hd. congruence. Qed.

Lemma clear_stale_spec s : let '(r, s') := clear_stale s in
  visits s s' (same_users (now s)) /\ same_users (now s) (now s').
Proof.
  unfold clear_stale. pose proof (stale_spec s temporary_name (proj1 names_differ)) as S1.
  destruct (remove_stale s temporary_name) as [[] s1]; destruct S1 as (V1 & E1 & _); [|done].
  pose proof (stale_spec s1 backup_name (proj1 (proj2 names_differ))) as S2.
  destruct (remove_stale s1 backup_name) as [r s2]. destruct S2 as (V2 & E2 & _).
  split; [by eapply visits_same_trans|by eapply users_trans].
Qed.
Lemma write_spec s text : let '(r, s') := write_contents s text in
  visits s s' (same_users (now s)) /\ same_users (now s) (now s') /\
  (r = None -> file (now s') temporary_name = Some text).
Proof.
  unfold write_contents, on. set (d := snd (vfs_file_write_trusted (now s) accounts_path temporary_name text)).
  assert (E : same_users (now s) d) by (unfold same_users, d; by rewrite law_write_other).
  assert (V : visits s (next s d) (same_users (now s))) by by apply visits_next.
  pose proof (law_write (now s) temporary_name text) as L. fold d in L.
  destruct (fst _) as [e|k]; [done|]. destruct (Z.eqb_spec k (strlen text)) as [->|]; [|done].
  split; [done|]. split; [done|]. intros _. by apply L.
Qed.
Lemma stage_spec s text : let '(e, s') := stage s text in
  visits s s' (same_users (now s)) /\ same_users (now s) (now s') /\
  match e with Some result => result <> MG_OK | None => staged (file (now s) users_name) text (now s') end.
Proof.
  unfold stage. pose proof (storage_users s) as S1. destruct (account_storage_directory s) as [[e|] s1]; destruct S1 as [V1 E1].
  { split; [done|]. split; [done|apply error_not_ok]. }
  pose proof (clear_stale_spec s1) as S2. destruct (clear_stale s1) as [[] s2]; destruct S2 as [V2 E2];
    pose proof (visits_same_trans _ _ _ V1 E1 V2) as V2'; pose proof (users_trans _ _ _ E1 E2) as E2'; [|done].
  unfold on. pose proof (law_create (now s2) temporary_name MG_UID_SYSTEM users_name) as L3.
  set (d3 := snd (vfs_create_owned (now s2) accounts_path temporary_name MG_UID_SYSTEM)) in *.
  assert (E3 : same_users (now s2) d3) by (unfold same_users; rewrite L3; by destruct (fst _)).
  assert (V3 : visits s (next s2 d3) (same_users (now s))) by (eapply visits_same_trans; [exact V2'|exact E2'|by apply visits_next]).
  pose proof (users_trans _ _ _ E2' E3) as E3'.
  destruct (fst _) as [e|n]; [split; [done|]; split; [done|apply error_not_ok]|].
  pose proof (write_spec (next s2 d3) text) as S4. destruct (write_contents (next s2 d3) text) as [[e|] s4]; destruct S4 as (V4 & E4 & W);
    pose proof (visits_same_trans _ _ _ V3 E3' V4) as V4'; pose proof (users_trans _ _ _ E3' E4) as E4'.
  - assert (E5 : same_users (now s4) (now (unlink s4 temporary_name))).
    { unfold same_users. destruct (unlink_users_spec s4 temporary_name users_name) as [->|[? _]]; done. }
    split; [|split; [by eapply users_trans|apply error_not_ok]].
    eapply visits_same_trans; [exact V4'|exact E4'|]. by apply unlink_visits.
  - split; [done|]. split; [done|]. split; [exact E4'|by apply W].
Qed.

(** What a caller of [account_persist_registry] is told and finds. *)
Lemma persist_spec mem r s :
  let '(result, s') := account_persist_registry mem r s in
  let old := file (now s) users_name in
  match serialize_database r IDENTITY_ACCOUNT_DB_MAX_BYTES with
  | None => result <> MG_OK /\ s' = s
  | Some text =>
      visits s s' (recoverable old text) /\
      (result = MG_OK /\ file (now s') users_name = Some text /\
         (is_Some old -> exists d, d ∈ past s' /\ file d users_name = None) \/
       result <> MG_OK /\ kept old (now s'))
  end.
Proof.
  unfold account_persist_registry. destruct mem; cbn [negb]; cbv zeta.
  2: { destruct (serialize_database _ _) as [text|]; [|done]. split; [apply visits_refl|]. right. split; [done|by left]. }
  destruct (serialize_database _ _) as [text|]; [|done].
  pose proof (stage_spec s text) as S. destruct (stage s text) as [[e|] s1]; destruct S as (V & E & S).
  - split; [by apply visits_kept|]. right. split; [done|by left].
  - pose proof (install_users_spec s1 _ text S) as I. destruct (install s1) as [r' s']. destruct I as [V' I]. split; [|done].
    eapply visits_trans; [by apply visits_kept|exact V'].
Qed.

(** * Loading *)

(** A registry that was stored is loaded again, if reading succeeds. *)
Lemma read_database_spec mem d :
  let '(result, contents) := identity_read_database mem d in
  result = MG_OK -> file d users_name = Some contents.
Proof.
  unfold identity_read_database. pose proof (law_lookup d users_name) as L.
  destruct (vfs_lookup_trusted _ _) as [[]|node]; try done.
  destruct (is_file node) eqn:Ef; [|done]. cbn [negb]. destruct (L node eq_refl Ef) as (c & Hc & Hs).
  destruct (_ || _); [done|]. destruct (negb mem); [done|].
  pose proof (law_read d users_name c (size node)) as R. destruct (vfs_file_read_trusted _ _ _ _) as [e|x]; [done|].
  destruct (Z.eqb_spec (strlen x) (size node)) as [E|]; [|done]. intros _. rewrite Hc. f_equal.
  rewrite (R x Hc eq_refl). rewrite take_ge; [done|]. unfold strlen in *. lia.
Qed.
End Storage.
End AccountStorage.
