(* ===== verification/AccountTheorems.v ===== *)
(** Account administration as a whole: what the operations of [AccountOps] do to
    the visible registry and to the disk, who may cause it, and what a crash
    leaves. *)
From S2P Require Import Prelude CString NetConfig Password Ipc Accounts AccountsProofs Identity Pass AccountOps AccountStorage.
Import CString NetConfig Password Accounts AccountsProofs Identity Pass AccountOps AccountStorage.

Module AccountTheorems.

(** * Finding accounts *)

Lemma find_some r n i :
  registry_wf r -> c_string n -> account_find r n = Some i ->
  exists a, accounts r !! i = Some a /\ accounts r !!! i = a /\ username (user a) = n.
Proof.
  intros Hw Hc. unfold account_find. destruct (list_find _ _) as [[j a]|] eqn:E; [|done]. cbn. intros [= ->].
  apply list_find_Some in E as (Hi & Hs & _). exists a. split; [done|]. split; [by apply list_lookup_total_correct|].
  apply strcmp_eq; [|done|done]. apply (wf_name a), (wf_lookup r); [done|]. by eapply list_elem_of_lookup_2.
Qed.
Lemma find_none r n : registry_wf r -> c_string n -> account_find r n = None -> n ∉ names (accounts r).
Proof.
  intros Hw Hc. unfold account_find. destruct (list_find _ _) as [[j a]|] eqn:E; [done|]. intros _ Hin.
  unfold names in Hin. apply list_elem_of_fmap in Hin as (a & -> & Ha). apply list_find_None in E.
  rewrite Forall_forall in E. apply (E a Ha). cbn. by apply strcmp_eq.
Qed.

(** * Administrators *)

Definition has_admin (r : identity_registry_t) : Prop := exists a, a ∈ accounts r /\ is_admin a = true.
(** The accounts but the one at [i]. *)
Definition others (l : list account) (i : nat) : list account := take i l ++ drop (S i) l.
Lemma others_insert l i (a : account) : (i < length l)%nat -> <[i := a]> l ≡ₚ a :: others l i.
Proof.
  intros Hi. unfold others. rewrite insert_take_drop by done. symmetry. apply Permutation_middle.
Qed.
Lemma others_split l i (a : account) : l !! i = Some a -> l ≡ₚ a :: others l i.
Proof. intros Hi. rewrite <- (list_insert_id l i a Hi) at 1. apply others_insert. by eapply lookup_lt_Some. Qed.
Lemma sum_permutation (f : account -> Z) l k : l ≡ₚ k -> sumZ f l = sumZ f k.
Proof. induction 1; cbn; lia. Qed.

Lemma admin_other r i a :
  accounts r !! i = Some a -> (if is_admin a then 1 else 0) < account_admin_count r ->
  exists b, b ∈ others (accounts r) i /\ is_admin b = true.
Proof.
  intros Hi Hc. unfold account_admin_count in Hc. rewrite (sum_permutation _ _ _ (others_split _ _ _ Hi)) in Hc. cbn in Hc.
  destruct (decide (Exists (fun b => is_admin b = true) (others (accounts r) i))) as [X|X].
  - apply Exists_exists in X as (b & Hb & Hx). by exists b.
  - exfalso. rewrite sumZ_zero in Hc; [lia|]. intros x Hx. destruct (is_admin x) eqn:E; [|done]. exfalso. apply X.
    apply Exists_exists. by exists x.
Qed.

(** * Operations *)

Inductive operation :=
  | OpCreate (n password : list Z)
  | OpRemove (n : list Z) (purge : bool)
  | OpSetRole (n : list Z) (new_role : Z)
  | OpSetPassword (n password : list Z).

(** What a successful operation makes of the registry. *)
Definition effect (op : operation) (r r' : identity_registry_t) : Prop :=
  match op with
  | OpCreate n password =>
      (n ∉ names (accounts r)) /\ exists au, password_auth_verify au password = true /\
        account_salt_unique r (length (accounts r)) au = true /\
        r' = Registry (accounts r ++ [Account (new_user r n) au]) (next_uid r + 1)
  | OpRemove n _ =>
      exists i a rest, accounts r !! i = Some a /\ username (user a) = n /\
        (is_admin a = true -> 2 <= account_admin_count r) /\
        Forall2 (fun x y => y = x \/ y = make_initial x) (others (accounts r) i) rest /\
        r' = Registry rest (next_uid r)
  | OpSetRole n new_role =>
      exists i a, accounts r !! i = Some a /\ username (user a) = n /\ (new_role = 0 \/ new_role = 1) /\
        role (user a) <> new_role /\ (is_admin a = true -> 2 <= account_admin_count r) /\
        r' = replace_account r i (with_role a new_role)
  | OpSetPassword n password =>
      exists i a au, accounts r !! i = Some a /\ username (user a) = n /\
        password_auth_verify au password = true /\ account_salt_unique r i au = true /\
        r' = replace_account r i (Account (user a) au)
  end.

(** ** The last administrator *)

Lemma effect_keeps_admin op r r' :
  registry_ok r -> effect op r r' -> has_admin r -> has_admin r'.
Proof.
  intros Ho He (b & Hb & Ab). destruct op as [n pw|n purge|n nr|n pw]; cbn in He.
  - destruct He as (_ & au & _ & _ & ->). exists b. split; [|done]. cbn. apply elem_of_app. by left.
  - destruct He as (i & a & rest & Hi & _ & Hc & F & ->).
    assert (X : exists x, x ∈ others (accounts r) i /\ is_admin x = true).
    { destruct (is_admin a) eqn:Ea; [apply (admin_other r i a Hi); rewrite Ea; specialize (Hc eq_refl); lia|].
      exists b. split; [|done]. rewrite (others_split _ _ _ Hi) in Hb. apply elem_of_cons in Hb as [->|Hb]; [congruence|done]. }
    destruct X as (x & Hx & Ax). apply list_elem_of_lookup_1 in Hx as [k Hk].
    destruct (Forall2_lookup_l _ _ _ _ _ F Hk) as (y & Hy & E). exists y. split; [by eapply list_elem_of_lookup_2|].
    by destruct E as [->| ->].
  - destruct He as (i & a & Hi & _ & Hr & Hne & Hc & ->). unfold has_admin, replace_account. cbn [accounts].
    pose proof (others_insert (accounts r) i (with_role a nr)) as P. specialize (P ltac:(by eapply lookup_lt_Some)).
    destruct (is_admin a) eqn:Ea.
    + destruct (admin_other r i a Hi) as (x & Hx & Ax); [rewrite Ea; specialize (Hc eq_refl); lia|].
      exists x. split; [|done]. rewrite P. by apply list_elem_of_further.
    + exists (with_role a nr). split; [rewrite P; apply list_elem_of_here|]. unfold is_admin, with_role, MG_IDENTITY_ROLE_ADMIN in *.
      cbn. pose proof (ro_users r Ho) as Hu. rewrite Forall_forall in Hu.
      destruct (Hu a) as ([_ Hro _ _ _] & _); [by eapply list_elem_of_lookup_2|].
      unfold MG_IDENTITY_ROLE_REGULAR, MG_IDENTITY_ROLE_ADMIN in Hro. lia.
  - destruct He as (i & a & au & Hi & _ & _ & _ & ->). unfold has_admin, replace_account. cbn [accounts].
    pose proof (others_insert (accounts r) i (Account (user a) au)) as P. specialize (P ltac:(by eapply lookup_lt_Some)).
    rewrite (others_split _ _ _ Hi) in Hb. apply elem_of_cons in Hb as [->|Hb].
    + exists (Account (user a) au). split; [rewrite P; apply list_elem_of_here|done].
    + exists b. split; [rewrite P; by apply list_elem_of_further|done].
Qed.

(** ** Widths *)

Lemma wf_forall r a i : registry_wf r -> accounts r !! i = Some a -> account_wf a.
Proof. intros Hw Hi. eapply wf_lookup; [exact Hw|]. by eapply list_elem_of_lookup_2. Qed.
Lemma wf_replace r i a : registry_wf r -> account_wf a -> registry_wf (replace_account r i a).
Proof. intros [W N] Ha. split; [|exact N]. cbn. by apply Forall_insert. Qed.
Lemma wf_make_initial a : account_wf a -> account_wf (make_initial a).
Proof.
  intros [W1 W2 W3 W4 W5 W6 W7]. split; cbn; try done. unfold IDENTITY_ACCOUNT_FLAG_INITIAL, is_u32 in *.
  split; [apply Z.lor_nonneg; lia|]. change 4294967296 with (2 ^ 32). apply Z.log2_lt_pow2.
  - assert (0 <= Z.lor (flags (user a)) 1) by (apply Z.lor_nonneg; lia).
    assert (Z.lor (flags (user a)) 1 <> 0); [|lia]. intros E. apply Z.lor_eq_0_iff in E as [_ E]. done.
  - rewrite Z.log2_lor by lia. apply Z.max_lub_lt; [|done].
    destruct (decide (flags (user a) = 0)) as [->|]; [done|]. apply Z.log2_lt_pow2; [lia|]. change (2 ^ 32) with 4294967296. lia.
Qed.
Lemma wf_others r i : registry_wf r -> Forall account_wf (others (accounts r) i).
Proof. intros [W _]. apply Forall_app. split; [by apply Forall_take|by apply Forall_drop]. Qed.

Lemma without_spec r i a r' :
  accounts r !! i = Some a -> without r i = Some r' ->
  exists rest, r' = Registry rest (next_uid r) /\ Forall2 (fun x y => y = x \/ y = make_initial x) (others (accounts r) i) rest.
Proof.
  intros Hi. unfold without.
  assert (Hd : forall l, Forall2 (fun x y => y = x \/ y = make_initial x) (accounts r) l ->
    Forall2 (fun x y => y = x \/ y = make_initial x) (others (accounts r) i) (others l i)).
  { intros l F. apply Forall2_app; [by apply Forall2_take|by apply Forall2_drop]. }
  destruct (initial _).
  - destruct (heir _ _ _ _) as [j|]; cbn [mbind option_bind]; [|done]. intros [= <-].
    eexists. split; [reflexivity|]. apply Hd. apply Forall2_same_length_lookup. split; [by rewrite length_alter|].
    intros k x y Hx Hy. destruct (decide (k = j)) as [->|].
    + rewrite list_lookup_alter_eq, Hx in Hy. injection Hy as <-. by right.
    + rewrite list_lookup_alter_ne in Hy by done. left. congruence.
  - cbn [mbind option_bind]. intros [= <-]. eexists. split; [reflexivity|]. apply Hd. apply Forall_Forall2_diag.
    apply Forall_forall. by left.
Qed.
Lemma wf_rest l rest : Forall account_wf l -> Forall2 (fun x y => y = x \/ y = make_initial x) l rest -> Forall account_wf rest.
Proof.
  intros W F. induction F as [|x y l rest [->| ->] _ IH]; [apply Forall_nil_2| |];
    apply Forall_cons in W as [Hx W]; apply Forall_cons; split; auto using wf_make_initial.
Qed.

(** ** Passwords *)

Definition auth_wf (au : identity_authentication_t) : Prop :=
  is_u32 (iterations au) /\ (length (salt au) = IDENTITY_PASSWORD_SALT_BYTES /\ Forall is_u8 (salt au)) /\
  (length (hash au) = IDENTITY_PASSWORD_HASH_BYTES /\ Forall is_u8 (hash au)).
Lemma try_spec attempts p n r i password a au k :
  length (salt a) = IDENTITY_PASSWORD_SALT_BYTES ->
  try_passwords attempts p n r i password a = (MG_OK, au, k) ->
  auth_wf au /\ password_auth_verify au password = true /\ account_salt_unique r i au = true.
Proof.
  revert n a. induction attempts as [|m IH]; intros n a Hl; cbn [try_passwords]; [done|].
  pose proof (generate_spec p n a password Hl) as G. pose proof (generate_wf p n a password) as W.
  destruct (password_auth_generate p n a password) as [[[] a'] n']; [|done].
  specialize (W a' n' Hl eq_refl) as (_ & Wi & Ws & Wh). destruct G as [_ G]. specialize (G eq_refl) as (_ & Gv & _).
  destruct (account_salt_unique r i a') eqn:E.
  - intros X. injection X as <- _. split; [|done]. split; [rewrite Wi; by_decision|done].
  - intros X. eapply IH; [|exact X]. apply Ws.
Qed.
Lemma make_password_spec p n r i password a au k :
  length (salt a) = IDENTITY_PASSWORD_SALT_BYTES ->
  account_make_password p n r i password a = (MG_OK, au, k) ->
  auth_wf au /\ password_auth_verify au password = true /\ account_salt_unique r i au = true.
Proof.
  intros Hl. unfold account_make_password. destruct (negb _); [done|]. destruct (negb _); [done|]. by apply try_spec.
Qed.

(** * What an operation does *)

Section Administration.
Context {D : Type} `{VfsLaws D}.
Implicit Types w : @world D.

Definition perform (e : env) (op : operation) (w : @world D) : Z * @world D :=
  match op with
  | OpCreate n password => identity_account_create e n password w
  | OpRemove n purge => identity_account_remove e n purge w
  | OpSetRole n new_role => identity_account_set_role e n new_role w
  | OpSetPassword n password => identity_account_set_password e n password w
  end.

(** The caller holds the privilege, and PASS allowed the operation. *)
Definition authorized (e : env) (st : identity) (input : list Z) : Prop :=
  exists c requester description, who e = Some (c, requester) /\
    has_privilege st c Ipc.IDENTITY_PRIVILEGE_MANAGE_USERS = true /\
    fst (pass_authorize_for_requester st (policy e) c requester Ipc.IDENTITY_PRIVILEGE_MANAGE_USERS description input) =
      PASS_RESULT_ALLOWED.
(** Or it changes the password of its own account. *)
Definition permitted (e : env) (op : operation) (st : identity) (input : list Z) : Prop :=
  authorized e st input \/
  exists c requester n password a, who e = Some (c, requester) /\ op = OpSetPassword n password /\
    a ∈ accounts (active st) /\ username (user a) = n /\ uid (user a) = Ipc.uid c.

(** The registry is published and stored. *)
Record done_ (e : env) (op : operation) (w w' : @world D) : Prop := {
  dn_loaded : registry_loaded (ids w) = true;
  dn_result : exists r', effect op (active (ids w)) r' /\ ids w' = identity_registry_publish (ids w) r' /\
    registry_wf r' /\ identity_registry_valid r' = true /\ file (now (disk w')) users_name = Some (registry_text r');
  dn_permitted : permitted e op (ids w) (console w);
}.
(** A role that the account already has needs no change. *)
Definition nothing_to_do (op : operation) (r : identity_registry_t) : Prop :=
  exists n new_role a, op = OpSetRole n new_role /\ a ∈ accounts r /\ username (user a) = n /\ role (user a) = new_role.
Definition outcome (e : env) (op : operation) (w : @world D) (rw : Z * @world D) : Prop :=
  (fst rw <> MG_OK /\ ids (snd rw) = ids w) \/
  (fst rw = MG_OK /\ ids (snd rw) = ids w /\ nothing_to_do op (active (ids w))) \/
  (fst rw = MG_OK /\ done_ e op w (snd rw)).

Lemma outcome_fail e op w result w' : result <> MG_OK -> ids w' = ids w -> outcome e op w (result, w').
Proof. intros ? ?. by left. Qed.
Lemma outcome_denied e op w result w' : negb (result =? MG_OK) = true -> ids w' = ids w -> outcome e op w (result, w').
Proof. intros E ?. left. split; [|done]. cbn. lia. Qed.

Lemma persist_world mem r w :
  registry_wf r -> let '(result, w') := persist mem r w in
  ids w' = ids w /\ (result = MG_OK -> identity_registry_valid r = true /\ file (now (disk w')) users_name = Some (registry_text r)).
Proof.
  intros Hw. unfold persist. pose proof (persist_spec mem r (disk w)) as P.
  destruct (account_persist_registry mem r (disk w)) as [result s]. split; [done|]. intros ->. cbv zeta in P.
  destruct (identity_registry_valid r) eqn:Ev.
  - rewrite serialize_spec in P by (done || by_decision). destruct (_ <? _); [by destruct P as [? _]|].
    destruct P as [_ [(_ & P & _)|[? _]]]; [|done]. done.
  - unfold serialize_database in P. rewrite Ev in P. by destruct P as [? _].
Qed.
Lemma ask_spec e w description :
  let '(result, w') := ask e w description in
  ids w' = ids w /\ disk w' = disk w /\ (result = MG_OK -> authorized e (ids w) (console w)).
Proof.
  unfold ask. destruct description as [description|]; [|done].
  destruct (pass_authorize_current _ _ _ _ _ _) as [result input] eqn:E. split; [done|]. split; [done|]. intros ->.
  unfold pass_authorize_current in E. destruct (who e) as [[c requester]|] eqn:Ew; [|done].
  exists c, requester, description. split; [done|]. rewrite E. split; [|done].
  unfold pass_authorize_for_requester in E. by destruct (has_privilege _ _ _).
Qed.
Lemma copy_active st r : identity_registry_copy_active st = Some r -> registry_loaded st = true /\ r = active st.
Proof. unfold identity_registry_copy_active, identity_registry_ready. destruct (registry_loaded st); [|done]. by intros [= ->]. Qed.

(** The last steps of every operation. *)
Lemma finish_spec e op w w1 mem r' :
  ids w1 = ids w -> registry_loaded (ids w) = true -> registry_wf r' -> effect op (active (ids w)) r' ->
  permitted e op (ids w) (console w) ->
  outcome e op w (let '(result, w2) := persist mem r' w1 in (result, if result =? MG_OK then publish r' w2 else w2)).
Proof.
  intros Ei El Hw He Hp. pose proof (persist_world mem r' w1 Hw) as P. destruct (persist mem r' w1) as [result w2].
  destruct P as [E P]. destruct (Z.eqb_spec result MG_OK) as [->|]; [|apply outcome_fail; congruence].
  right; right. split; [done|]. destruct (P eq_refl) as [Hv Hf]. split; [done| |done]. exists r'. cbn.
  split; [done|]. rewrite E, Ei. done.
Qed.

Lemma set_role_outcome e n new_role w :
  visible_ok (ids w) -> c_string n -> new_role = 0 \/ new_role = 1 ->
  outcome e (OpSetRole n new_role) w (set_role_body e n new_role w).
Proof.
  intros Hv Hc Hr. unfold set_role_body. destruct (identity_registry_copy_active _) as [r|] eqn:E; [|by apply outcome_fail].
  apply copy_active in E as [El ->]. destruct (Hv El) as [Hw Ho]. destruct (account_find _ n) as [i|] eqn:Ef; [|by apply outcome_fail].
  apply find_some in Ef as (a & Hi & -> & Hn); [|done|done]. cbv zeta.
  destruct (Z.eqb_spec (role (user a)) new_role) as [Er|Er].
  { right; left. split; [done|]. split; [done|]. exists n, new_role, a. split; [done|]. split; [by eapply list_elem_of_lookup_2|done]. }
  destruct (_ && _ && _) eqn:Eg; [by apply outcome_fail|].
  pose proof (ask_spec e w (role_description n new_role)) as A. destruct (ask _ _ _) as [result w1]. destruct A as (A1 & _ & A3).
  destruct (negb (result =? MG_OK)) eqn:Eres; [by apply outcome_denied|].
  destruct (identity_registry_valid _); [|by apply outcome_fail]. cbn [negb]. apply finish_spec; [done|done| | |].
  - apply wf_replace; [done|]. pose proof (wf_forall _ _ _ Hw Hi) as [W1 W2 W3 W4 W5 W6 W7]. by split.
  - exists i, a. split; [done|]. split; [done|]. split; [done|]. split; [done|]. split; [|done]. intros Ea. rewrite Ea in Eg.
    unfold is_admin, MG_IDENTITY_ROLE_REGULAR, MG_IDENTITY_ROLE_ADMIN in *. lia.
  - left. apply A3. lia.
Qed.
Lemma set_password_outcome e c requester n password w :
  who e = Some (c, requester) -> visible_ok (ids w) -> c_string n ->
  outcome e (OpSetPassword n password) w (set_password_body e c n password w).
Proof.
  intros Hwho Hv Hc. unfold set_password_body. destruct (identity_registry_copy_active _) as [r|] eqn:E; [|by apply outcome_fail].
  apply copy_active in E as [El ->]. destruct (Hv El) as [Hw Ho]. destruct (account_find _ n) as [i|] eqn:Ef; [|by apply outcome_fail].
  apply find_some in Ef as (a & Hi & -> & Hn); [|done|done]. cbv zeta.
  set (other := negb (Ipc.uid c =? uid (user a))). destruct (other && _) eqn:Eg; [by apply outcome_fail|].
  set (asked := if other then _ else _).
  assert (A : ids (snd asked) = ids w /\ (fst asked = MG_OK -> permitted e (OpSetPassword n password) (ids w) (console w))).
  { unfold asked. destruct other eqn:Eo.
    - pose proof (ask_spec e w (append_all PASS_MESSAGE_MAX [str "Reset the password for account " ++ [34]; n; 34 :: str "."])) as A.
      destruct (ask _ _ _) as [result w1]. destruct A as (A1 & _ & A3). split; [done|]. intros E. left. by apply A3.
    - split; [done|]. intros _. right. exists c, requester, n, password, a. split; [done|]. split; [done|].
      split; [by eapply list_elem_of_lookup_2|]. split; [done|]. unfold other in Eo. lia. }
  destruct asked as [result w1]. cbn [fst snd] in A. destruct A as [A1 A2].
  destruct (negb (result =? MG_OK)) eqn:Eres; [by apply outcome_denied|]. specialize (A2 ltac:(lia)).
  pose proof (make_password_spec (cpu e) (entropy w1) (active (ids w)) i password (auth a)) as M.
  destruct (account_make_password _ _ _ _ _ _) as [[result2 au] k].
  destruct (negb (result2 =? MG_OK)) eqn:Eres2; [by apply outcome_denied|].
  pose proof (wf_forall _ _ _ Hw Hi) as [W1 W2 W3 W4 W5 W6 W7].
  destruct (M au k (proj1 W6)) as ((M1 & M2 & M3) & M4 & M5); [do 2 f_equal; lia|].
  apply finish_spec; [done|done| |by exists i, a, au|done]. apply wf_replace; [done|]. by split.
Qed.

Lemma home_rmdir_same (s : @run D) q n m : file (now (snd (on s (vfs_rmdir_trusted (now s) (home_path ++ q) n)))) m = file (now s) m.
Proof. apply law_home_rmdir. Qed.
Lemma home_unlink_same (s : @run D) q n m : file (now (snd (on s (vfs_unlink_trusted (now s) (home_path ++ q) n)))) m = file (now s) m.
Proof. apply law_home_unlink. Qed.
(** Purging a home leaves [/sys/accounts] alone. *)
Lemma purge_directory_same fuel (s : @run D) q m :
  file (now (snd (account_purge_directory fuel s (home_path ++ q)))) m = file (now s) m.
Proof.
  revert s q. induction fuel as [|fuel IH]; intros s q; [done|]. cbn [account_purge_directory].
  destruct (_ =? 64)%nat; [done|]. generalize (read_entries 64 (now s) (home_path ++ q) 0). intros l. revert s.
  induction l as [|[n t] l IHl]; intros s; [done|]. destruct (vfs_finddir_trusted _ _ _) as [child|]; [|done].
  set (step := if bool_decide _ then _ else _).
  assert (E : file (now (snd step)) m = file (now s) m).
  { unfold step. destruct (bool_decide _).
    - set (sub := if is_directory child then _ else _).
      assert (Es : file (now (snd sub)) m = file (now s) m).
      { unfold sub. destruct (is_directory child); [|done]. rewrite <- app_assoc. apply IH. }
      destruct sub as [result s1]. cbn [snd] in Es. destruct (negb _); [done|].
      pose proof (home_rmdir_same s1 q n m) as R. destruct (on s1 _) as [[err|] s2]; cbn [snd] in *; congruence.
    - pose proof (home_unlink_same s q n m) as R. destruct (on s _) as [[err|] s2]; cbn [snd] in *; congruence. }
  destruct step as [result s1]. cbn [snd] in E. destruct (negb _); [done|]. by rewrite IHl.
Qed.
Lemma purge_home_same u (s : @run D) m : file (now (snd (account_purge_home u s))) m = file (now s) m.
Proof.
  unfold account_purge_home. destruct (negb _); [done|]. destruct (vfs_lookup_trusted _ _) as [|root]; [done|].
  destruct (negb _); [done|]. destruct (vfs_finddir_trusted _ _ _) as [h|]; [|done]. destruct (_ || _); [done|].
  set (sub := if size h =? 0 then _ else _).
  assert (E : file (now (snd sub)) m = file (now s) m) by (unfold sub; destruct (size h =? 0); [done|apply purge_directory_same]).
  destruct sub as [result s1]. cbn [snd] in E. destruct (negb _); [done|].
  pose proof (home_rmdir_same s1 [] (username u) m) as R. rewrite app_nil_r in R.
  destruct (on s1 _) as [[err|] s2]; cbn [snd] in *; congruence.
Qed.

Lemma create_outcome e n password w :
  visible_ok (ids w) -> username_valid n = true ->
  outcome e (OpCreate n password) w (create_body e n password w).
Proof.
  intros Hv Hn. pose proof (username_c_string n Hn) as Hc. unfold create_body.
  destruct (identity_registry_copy_active _) as [r|] eqn:E; [|by apply outcome_fail].
  apply copy_active in E as [El ->]. destruct (Hv El) as [Hw Ho].
  destruct (_ || _) eqn:Ec; [by apply outcome_fail|].
  destruct (account_find _ n) as [i|] eqn:Ef; [by apply outcome_fail|]. apply find_none in Ef; [|done|done].
  pose proof (ask_spec e w (create_description n)) as A. destruct (ask _ _ _) as [result w1]. destruct A as (A1 & A2 & A3).
  destruct (negb (result =? MG_OK)) eqn:Eres; [by apply outcome_denied|]. specialize (A3 ltac:(lia)).
  pose proof (make_password_spec (cpu e) (entropy w1) (active (ids w)) (length (accounts (active (ids w)))) password
    (Authentication 0 0 (replicate 16 0) (replicate 32 0))) as M.
  destruct (account_make_password _ _ _ _ _ _) as [[result2 au] k].
  destruct (negb (result2 =? MG_OK)) eqn:Eres2; [by apply outcome_denied|].
  destruct (M au k eq_refl) as ((M1 & M2 & M3) & M4 & M5); [do 2 f_equal; lia|].
  pose proof (wf_next _ Hw) as Wn.
  assert (Eu : u32 (next_uid (active (ids w)) + 1) = next_uid (active (ids w)) + 1).
  { apply u32_id. unfold is_u32, U32_MAX in *. lia. }
  rewrite Eu. set (r' := Registry _ _). destruct (identity_registry_valid r'); [|by apply outcome_fail]. cbn [negb].
  assert (Hw' : registry_wf r').
  { split; cbn; [|unfold is_u32, U32_MAX in *; lia]. apply Forall_app. split; [apply Hw|]. apply Forall_singleton.
    split; cbn [user auth uid flags username home new_user]; [done|by_decision|done| |done|done|done]. apply Forall_app. split; [by_decision|done]. }
  assert (He : effect (OpCreate n password) (active (ids w)) r') by (split; [done|]; by exists au).
  unfold create_home. cbn [disk with_entropy]. destruct (vfs_lookup_trusted _ _) as [err|root]; [by apply outcome_fail; [apply error_not_ok|]|].
  destruct (is_directory root); [|by apply outcome_fail]. cbn [negb]. destruct (vfs_finddir_trusted _ _ _); [by apply outcome_fail|].
  destruct (on _ _) as [[err|h] s]; [by apply outcome_fail; [apply error_not_ok|]|].
  set (w2 := with_disk _ s). assert (E2 : ids w2 = ids w) by done.
  pose proof (finish_spec e (OpCreate n password) w w2 (memory e 1) r' E2 El Hw' He) as F.
  specialize (F ltac:(by left)). pose proof (persist_world (memory e 1) r' w2 Hw') as P.
  destruct (persist _ r' w2) as [result3 w3]. destruct (Z.eqb_spec result3 MG_OK) as [->|Hne]; cbn [negb]; [exact F|].
  apply outcome_fail; [done|]. cbn. destruct P as [-> _]. exact E2.
Qed.

Lemma remove_outcome e n purge w :
  visible_ok (ids w) -> c_string n -> outcome e (OpRemove n purge) w (remove_body e n purge w).
Proof.
  intros Hv Hc. unfold remove_body. destruct (_ || _); [by apply outcome_fail|].
  destruct (identity_registry_copy_active _) as [r|] eqn:E; [|by apply outcome_fail].
  apply copy_active in E as [El ->]. destruct (Hv El) as [Hw Ho].
  destruct (account_find _ n) as [i|] eqn:Ef; [|by apply outcome_fail].
  apply find_some in Ef as (a & Hi & -> & Hn); [|done|done]. cbv zeta.
  set (guard := match who e with None => _ | Some _ => _ end). destruct (negb (guard =? MG_OK)) eqn:Eg; [by apply outcome_denied|].
  assert (Hadm : is_admin a = true -> 2 <= account_admin_count (active (ids w))).
  { intros Ea. unfold guard in Eg. destruct (who e) as [[c requester]|]; [|done]. rewrite Ea in Eg.
    destruct (Z.leb_spec (account_admin_count (active (ids w))) 1); [|lia]. by rewrite orb_true_r in Eg. }
  pose proof (ask_spec e w (remove_description purge (user a) n)) as A. destruct (ask _ _ _) as [result w1]. destruct A as (A1 & A2 & A3).
  destruct (negb (result =? MG_OK)) eqn:Eres; [by apply outcome_denied|]. specialize (A3 ltac:(lia)).
  destruct (without _ i) as [r'|] eqn:Ew; [|by apply outcome_fail].
  destruct (without_spec _ i a r' Hi Ew) as (rest & -> & F2).
  assert (Hw' : registry_wf (Registry rest (next_uid (active (ids w))))).
  { split; cbn; [|apply Hw]. eapply wf_rest; [by apply wf_others|exact F2]. }
  set (r' := Registry rest _) in *.
  assert (He : effect (OpRemove n purge) (active (ids w)) r') by (by exists i, a, rest).
  pose proof (persist_world (memory e 2) r' w1 Hw') as P. destruct (persist (memory e 2) r' w1) as [result2 w2]. destruct P as [P1 P2].
  destruct (negb (result2 =? MG_OK)) eqn:Eres2; [apply outcome_denied; [done|congruence]|]. destruct (P2 ltac:(lia)) as [Hval Hf].
  set (purged := if purge then _ else _).
  assert (Hpd : ids (snd purged) = ids w /\ forall m, file (now (disk (snd purged))) m = file (now (disk w2)) m).
  { unfold purged. destruct purge; [|split; [cbn; congruence|done]]. pose proof (purge_home_same (user a) (disk w2)) as Q.
    destruct (account_purge_home _ _) as [result3 s]. split; [cbn; congruence|exact Q]. }
  destruct purged as [result3 w3]. cbn [snd] in Hpd. destruct Hpd as [Hp1 Hp2].
  destruct (negb (result3 =? MG_OK)) eqn:Eres3.
  - pose proof (persist_world (memory e 3) (active (ids w)) w3 Hw) as P. destruct (persist (memory e 3) _ w3) as [result4 w4].
    destruct P as [P3 _]. apply outcome_fail; [|congruence]. destruct (negb (result4 =? MG_OK)); [done|]. lia.
  - right; right. split; [done|]. split; [done| |by left]. exists r'. split; [done|]. cbn. split; [by rewrite Hp1|].
    split; [done|]. split; [done|]. by rewrite Hp2.
Qed.

(** ** The update flag *)

Lemma read_password_busy st b c input password overflow :
  pass_read_password (set_busy st b) c input password overflow = pass_read_password st c input password overflow.
Proof.
  revert password overflow. induction input as [|v input IH]; intros password overflow; [done|]. cbn [pass_read_password].
  by rewrite !IH.
Qed.
Lemma authorize_busy st b f c requester privilege description input :
  pass_authorize_for_requester (set_busy st b) f c requester privilege description input =
  pass_authorize_for_requester st f c requester privilege description input.
Proof.
  unfold pass_authorize_for_requester. change (has_privilege (set_busy st b) c privilege) with (has_privilege st c privilege).
  destruct (negb _); [done|]. destruct (negb _); [done|]. destruct (Ipc.identity_credentials_is_system c); [done|].
  destruct (pass_policy_current f); [|done|done|done]. cbn [authorize]. unfold pass_provider_password. by rewrite read_password_busy.
Qed.
Lemma permitted_busy e op st b input : permitted e op (set_busy st b) input -> permitted e op st input.
Proof.
  intros [(c & requester & d & Hw & Hp & Ha)|Ho]; [left|by right]. exists c, requester, d. rewrite authorize_busy in Ha. done.
Qed.

Lemma exclusively_outcome e op w (body : world -> Z * world) :
  visible_ok (ids w) -> (forall w0, visible_ok (ids w0) -> outcome e op w0 (body w0)) ->
  outcome e op w (exclusively w body).
Proof.
  intros Hv Hb. unfold exclusively, identity_update_begin. destruct (identity_update_busy (ids w)) eqn:Eb; [by apply outcome_fail|].
  specialize (Hb (with_ids w (set_busy (ids w) true)) Hv). set (w0 := with_ids w (set_busy (ids w) true)) in *.
  assert (Hend : forall st, st = ids w0 -> identity_update_end st = ids w) by
    (intros st ->; unfold w0; cbn; clear -Eb; destruct (ids w); cbn in *; by rewrite Eb).
  destruct (body w0) as [result w']. destruct Hb as [[Hr Hi]|[(Hr & Hi & Hn)|(Hr & Hd)]]; cbn [fst snd] in *.
  - left. split; [done|]. by apply Hend.
  - right; left. split; [done|]. split; [by apply Hend|done].
  - right; right. split; [done|]. destruct Hd as [Hl (r' & He & Hi & Hw & Hva & Hf) Hp]. split; [done| |].
    + exists r'. split; [done|]. split; [|done]. cbn. rewrite Hi. unfold identity_update_end, identity_registry_publish, set_busy. cbn.
      by rewrite Eb.
    + exact (permitted_busy e op (ids w) true (console w) Hp).
Qed.

(** Every call of an operation, by anyone, in any state with a valid registry. *)
Lemma perform_outcome e op w : visible_ok (ids w) -> outcome e op w (perform e op w).
Proof.
  intros Hv. destruct op as [n pw|n purge|n nr|n pw]; cbn [perform].
  - unfold identity_account_create. destruct (negb (account_require_manage_users e w =? MG_OK)) eqn:E; [by apply outcome_denied|]. clear E.
    destruct (username_valid n) eqn:En; [|by apply outcome_fail]. cbn [negb orb].
    destruct (negb (password_input_valid pw)); [by apply outcome_fail|]. destruct (negb (memory e 0)); [by apply outcome_fail|].
    apply exclusively_outcome; [done|]. intros w0 Hv0. by apply create_outcome.
  - unfold identity_account_remove. destruct (negb (account_require_manage_users e w =? MG_OK)) eqn:E; [by apply outcome_denied|]. clear E.
    destruct (username_valid n) eqn:En; [|by apply outcome_fail]. cbn [negb].
    apply exclusively_outcome; [done|]. intros w0 Hv0. apply remove_outcome; [done|by apply username_c_string].
  - unfold identity_account_set_role. destruct (negb (account_require_manage_users e w =? MG_OK)) eqn:E; [by apply outcome_denied|]. clear E.
    destruct (username_valid n) eqn:En; [|by apply outcome_fail]. cbn [negb orb].
    destruct (negb _) eqn:Er; [by apply outcome_fail|].
    apply exclusively_outcome; [done|]. intros w0 Hv0. apply set_role_outcome; [done|by apply username_c_string|].
    unfold MG_IDENTITY_ROLE_REGULAR, MG_IDENTITY_ROLE_ADMIN in Er. lia.
  - unfold identity_account_set_password. destruct (username_valid n) eqn:En; [|by apply outcome_fail]. cbn [negb orb].
    destruct (negb (password_input_valid pw)); [by apply outcome_fail|]. destruct (who e) as [[c requester]|] eqn:Ew; [|by apply outcome_fail].
    apply exclusively_outcome; [done|]. intros w0 Hv0. eapply set_password_outcome; [exact Ew|done|by apply username_c_string].
Qed.

Lemma publish_active st r : registry_loaded (identity_registry_publish st r) = true /\ active (identity_registry_publish st r) = r.
Proof. split; [done|]. unfold active, identity_registry_publish, fill_slot. cbn. by rewrite Bool.eqb_reflx. Qed.

(** ** Loading *)

Lemma reload_outcome m1 m2 st (s : @run D) :
  visible_ok st ->
  let '(ok, st', s') := identity_registry_reload m1 m2 st s in
  visible_ok st' /\ identity_update_busy st' = identity_update_busy st /\
  (ok = false -> registry_loaded st' = registry_loaded st /\ (registry_loaded st = true -> active st' = active st)) /\
  (ok = true -> registry_loaded st' = true /\ exists text migrate, file (now s) users_name = Some text /\
     parse_database text = Some (active st', migrate)).
Proof.
  intros Hv. unfold identity_registry_reload, identity_update_begin. destruct (identity_update_busy st) eqn:Eb; [by split|].
  pose proof (read_database_spec m1 (now s)) as R. destruct (identity_read_database m1 (now s)) as [result contents].
  destruct (Z.eqb_spec result MG_OK) as [->|]; cbn [negb]; [|by split]. specialize (R eq_refl).
  destruct (parse_database contents) as [[r migrate]|] eqn:Ep; [|by split].
  destruct (parse_database_ok contents r migrate (law_bytes _ _ _ R) Ep) as [Hw Ho]. cbv zeta.
  set (target := if registry_loaded (set_busy st true) then _ else _).
  destruct (if migrate then _ else _) as [result2 s2]. destruct (negb (result2 =? MG_OK)).
  - assert (Ht : registry_loaded st = true -> Bool.eqb (active_registry_slot st) target = false).
    { intros E. unfold target. cbn. rewrite E. by destruct (active_registry_slot st). }
    assert (Ea : registry_loaded st = true -> fill_slot (set_busy st true) target r (active_registry_slot st) = active st).
    { intros E. unfold fill_slot. by rewrite Ht. }
    split; [|split; [done|split; [|done]]].
    + intros El. unfold active. cbn in El |- *. rewrite Ea by done. by apply Hv.
    + intros _. split; [done|]. intros E. unfold active. cbn. by apply Ea.
  - assert (Ea : fill_slot (set_busy st true) target r target = r) by (unfold fill_slot; by rewrite Bool.eqb_reflx).
    split; [|split; [done|split; [done|]]].
    + intros _. unfold active. cbn. by rewrite Ea.
    + intros _. split; [done|]. exists contents, migrate. split; [done|]. unfold active. cbn. by rewrite Ea.
Qed.

(** * Any sequence of operations *)

(** Anybody performs an operation or the kernel loads the database; meanwhile
    the disk and the console change in any way. *)
Inductive step : @world D -> @world D -> Prop :=
  | step_operation e op w : step w (snd (perform e op w))
  | step_reload m1 m2 w ok st s :
      identity_registry_reload m1 m2 (ids w) (disk w) = (ok, st, s) -> step w (World st s (console w) (entropy w))
  | step_outside w s c k : step w (World (ids w) s c k).
Inductive reachable : @world D -> Prop :=
  | reach_init w : ids w = identity_init -> reachable w
  | reach_step w w' : reachable w -> step w w' -> reachable w'.
(** The same without loading. *)
Inductive administered : @world D -> @world D -> Prop :=
  | administered_refl w : administered w w
  | administered_operation e op w w' : administered w w' -> administered w (snd (perform e op w'))
  | administered_outside w w' s c k : administered w w' -> administered w (World (ids w') s c k).

(** No update is under way and what is visible is valid. *)
Definition settled (w : @world D) : Prop := visible_ok (ids w) /\ identity_update_busy (ids w) = false.

Lemma perform_settled e op w : settled w -> settled (snd (perform e op w)).
Proof.
  intros [Hv Hb]. destruct (perform_outcome e op w Hv) as [[_ Hi]|[(_ & Hi & _)|(_ & Hd)]]; unfold settled; [by rewrite Hi|by rewrite Hi|].
  destruct Hd as [_ (r' & _ & -> & Hw & Hva & _) _]. split; [|done]. intros _. destruct (publish_active (ids w) r') as [_ ->].
  split; [done|]. by apply registry_valid_iff.
Qed.
Lemma reachable_settled w : reachable w -> settled w.
Proof.
  induction 1 as [w Hi|w w' _ IH Hs].
  { unfold settled. rewrite Hi. done. }
  destruct Hs as [e op w|m1 m2 w ok st s E|w s c k]; [by apply perform_settled| |exact IH].
  destruct IH as [Hv Hb]. pose proof (reload_outcome m1 m2 (ids w) (disk w) Hv) as R. rewrite E in R.
  destruct R as (R1 & R2 & _). split; [exact R1|]. cbn. congruence.
Qed.

Lemma administered_admin w w' :
  administered w w' -> settled w -> registry_loaded (ids w) = true -> has_admin (active (ids w)) ->
  settled w' /\ registry_loaded (ids w') = true /\ has_admin (active (ids w')).
Proof.
  induction 1 as [w|e op w w' _ IH|w w' s c k _ IH]; intros Hs Hl Ha; [done| |by apply IH].
  destruct (IH Hs Hl Ha) as (Hs' & Hl' & Ha'). split; [by apply perform_settled|].
  destruct Hs' as [Hv' Hb']. destruct (perform_outcome e op w' Hv') as [[_ Hi]|[(_ & Hi & _)|(_ & Hd)]]; [by rewrite Hi|by rewrite Hi|].
  destruct Hd as [_ (r' & He & -> & _) _]. destruct (publish_active (ids w') r') as [-> ->]. split; [done|].
  eapply effect_keeps_admin; [apply (Hv' Hl')|exact He|exact Ha'].
Qed.

(** * The claims *)


(** C12: The account system never sees an invalid registry and never loses its
    last administrator.  In every state reached from boot by any sequence of
    operations by any callers, loads of the database and changes of the disk and
    the console from outside, the visible registry is valid and the update flag
    is free; and from a state with an administrator no sequence of operations
    leads to one without. *)
Theorem accounts_stay_valid w :
  reachable w ->
  (registry_loaded (ids w) = true -> registry_wf (active (ids w)) /\ registry_ok (active (ids w))) /\
  identity_update_busy (ids w) = false /\
  (registry_loaded (ids w) = true -> has_admin (active (ids w)) ->
   forall w', administered w w' -> registry_loaded (ids w') = true /\ has_admin (active (ids w'))).
Proof.
  intros Hr. pose proof (reachable_settled w Hr) as Hs. split; [apply Hs|]. split; [apply Hs|].
  intros Hl Ha w' Hw'. by apply (administered_admin w w').
Qed.


(** C18: Replacing the database has a window without one.  Whenever an existing
    database is replaced successfully, there is a state in between in which
    [users] does not exist; if the machine stops there, the next
    [identity_registry_reload] fails, although the backup file holds the old
    database. *)
Theorem registry_persist_crash_window mem r (d : D) old :
  file d users_name = Some old -> fst (account_persist_registry mem r (Run d [])) = MG_OK ->
  exists d', d' ∈ past (snd (account_persist_registry mem r (Run d []))) /\
    file d' users_name = None /\ file d' backup_name = Some old /\
    forall m1 m2 st, fst (fst (identity_registry_reload m1 m2 st (Run d' []))) = false.
Proof.
  intros Ho. pose proof (persist_spec mem r (Run d [])) as P. destruct (account_persist_registry mem r (Run d [])) as [result s].
  cbv zeta in P. cbn [fst snd now] in *. intros ->. destruct (serialize_database _ _) as [text|]; [|by destruct P as [? _]].
  destruct P as [(l & E & V) [(_ & Hu & P)|[? _]]]; [|done]. rewrite Ho in *. destruct (P ltac:(by eexists)) as (d' & Hd & Hn).
  exists d'. split; [done|]. split; [done|]. split.
  - assert (Hin : d' ∈ l ++ [d]) by (change (l ++ [d]) with (l ++ now (Run d []) :: past (Run d [])); rewrite <- E; by apply list_elem_of_further).
    apply elem_of_app in Hin as [Hin|Hin]; [|apply list_elem_of_singleton in Hin; congruence].
    rewrite Forall_forall in V. destruct (V d' Hin) as [?|[?|[_ ?]]]; [congruence|congruence|done].
  - intros m1 m2 st. unfold identity_registry_reload. destruct (identity_update_begin st) as [st1|]; [|done].
    pose proof (read_database_spec m1 d') as R. cbn [now]. destruct (identity_read_database m1 d') as [result contents].
    destruct (Z.eqb_spec result MG_OK) as [->|]; [|done]. rewrite (R eq_refl) in Hn. done.
Qed.
End Administration.

(** * A file system in memory *)

(** The files of [/sys/accounts], and the homes. *)
Record shelf := Shelf { shelf_files : list Z -> option (list Z); shelf_homes : list (list Z) }.
Definition bytes_of (d : shelf) (n : list Z) : option (list Z) :=
  c ← shelf_files d n; if decide (Forall is_u8 c) then Some c else None.
Definition put_file (d : shelf) (n : list Z) (c : option (list Z)) : shelf :=
  Shelf (fun m => if decide (m = n) then c else shelf_files d m) (shelf_homes d).
Arguments bytes_of : simpl never.
Arguments put_file : simpl never.
Definition file_node (c : list Z) : vfs_node_t := Node VFS_TYPE_FILE (strlen c) 0.
Definition directory_node : vfs_node_t := Node VFS_TYPE_DIRECTORY 0 0.
Definition in_accounts (p : list (list Z)) : bool := bool_decide (p = accounts_path).
Arguments in_accounts : simpl never.
#[export] Instance shelf_vfs : Vfs shelf := {
  vfs_lookup_trusted d p :=
    if decide (p = accounts_path \/ p = home_path) then inr directory_node
    else if decide (removelast p = accounts_path)
    then match bytes_of d (List.last p []) with Some c => inr (file_node c) | None => inl VFS_NOT_FOUND end
    else inl VFS_NOT_FOUND;
  vfs_get_root_node d := Some directory_node;
  vfs_finddir_trusted d p n :=
    if in_accounts p then file_node <$> bytes_of d n
    else if bool_decide (n ∈ shelf_homes d) then Some directory_node else None;
  vfs_readdir_trusted d p i := None;
  vfs_mkdir_owned d p n u := (inr directory_node, Shelf (shelf_files d) (n :: shelf_homes d));
  vfs_create_owned d p n u := if in_accounts p then (inr (file_node []), put_file d n (Some [])) else (inl VFS_UNSUPPORTED, d);
  vfs_unlink_trusted d p n := if in_accounts p then (None, put_file d n None) else (Some VFS_NOT_FOUND, d);
  vfs_rmdir_trusted d p n := (None, Shelf (shelf_files d) (filter (fun m => m <> n) (shelf_homes d)));
  vfs_rename_trusted d p a b :=
    if in_accounts p then (None, put_file (put_file d a None) b (shelf_files d a)) else (Some VFS_NOT_FOUND, d);
  vfs_file_read_trusted d p n k :=
    match bytes_of d n with Some c => inr (take (Z.to_nat k) c) | None => inl VFS_NOT_FOUND end;
  vfs_file_write_trusted d p n data :=
    if decide (Forall is_u8 data) then (inr (strlen data), put_file d n (Some data)) else (inl VFS_IO, d);
}.
Lemma bytes_put d n c m :
  bytes_of (put_file d n c) m = if decide (m = n) then (c ← c; if decide (Forall is_u8 c) then Some c else None) else bytes_of d m.
Proof. unfold bytes_of, put_file. cbn. by destruct (decide (m = n)). Qed.
#[export] Instance shelf_laws : VfsLaws shelf.
Proof.
  assert (IA : in_accounts accounts_path = true) by reflexivity.
  refine {| file := bytes_of |}.
  - intros d n c. unfold bytes_of. destruct (shelf_files d n) as [x|]; cbn; [|done]. by destruct (decide _); [intros [= <-]|].
  - intros d n. cbn. rewrite IA. destruct (bytes_of d n); cbn; [by eexists|done].
  - intros d n node. cbn. rewrite decide_False by (intros [?|?]; done). rewrite decide_True by done. cbn.
    destruct (bytes_of d n) as [c|]; [|done]. intros [= <-] _. by exists c.
  - intros d n c k x Hc. cbn. rewrite Hc. by intros [= <-].
  - done.
  - done.
  - done.
  - intros d n u m. cbn. rewrite IA. cbn. rewrite bytes_put. destruct (decide (m = n)); [|done]. cbn. by rewrite decide_True.
  - intros d n m. cbn. rewrite IA. cbn. rewrite bytes_put. by destruct (decide (m = n)).
  - intros d a b m Hab. cbn. rewrite IA. cbn. rewrite !bytes_put. destruct (decide (m = b)) as [->|]; [done|]. by destruct (decide (m = a)).
  - intros d n data m Hm. cbn. destruct (decide (Forall is_u8 data)); cbn; [|done]. rewrite bytes_put. by rewrite decide_False.
  - intros d n data. cbn. destruct (decide (Forall is_u8 data)); cbn; [|done]. intros _. rewrite bytes_put, decide_True by done.
    cbn. by rewrite decide_True.
Defined.

(** * Runs *)

Definition sample_shelf : shelf :=
  Shelf (fun n => if decide (n = users_name) then Some (registry_text two_accounts) else None) [str "alice"; str "bob-2"].


Definition boot_world : @world shelf := World identity_init (Run sample_shelf []) [] 0.
Definition boot_load : bool * identity * @run shelf := identity_registry_reload true true (ids boot_world) (disk boot_world).
Definition loaded_world : @world shelf := World (snd (fst boot_load)) (snd boot_load) [] 0.
Lemma loaded_reachable : reachable loaded_world.
Proof.
  apply (reach_step boot_world); [by apply reach_init|].
  apply (step_reload true true boot_world (fst (fst boot_load))). unfold boot_load.
  by destruct (identity_registry_reload _ _ _ _) as [[ok st] s].
Qed.
Lemma loaded_facts : registry_loaded (ids loaded_world) = true /\ active (ids loaded_world) = two_accounts.
Proof. split; vm_compute; reflexivity. Qed.
Lemma loaded_admin : has_admin (active (ids loaded_world)).
Proof. destruct loaded_facts as [_ ->]. exists alice. split; [apply list_elem_of_here|done]. Qed.
Lemma accounts_stay_valid_witness :
  reachable loaded_world /\ forall w', administered loaded_world w' -> has_admin (active (ids w')).
Proof.
  split; [exact loaded_reachable|]. intros w' Hw'.
  destruct (accounts_stay_valid loaded_world loaded_reachable) as (_ & _ & T).
  exact (proj2 (T (proj1 loaded_facts) loaded_admin w' Hw')).
Defined.

Lemma shelf_users : file sample_shelf users_name = Some (registry_text two_accounts).
Proof. vm_compute. reflexivity. Qed.
Lemma store_succeeds : fst (account_persist_registry true two_accounts (Run sample_shelf [])) = MG_OK.
Proof. vm_compute. reflexivity. Qed.
Lemma registry_persist_crash_window_witness :
  exists d', file d' users_name = None /\ file d' backup_name = Some (registry_text two_accounts).
Proof.
  destruct (registry_persist_crash_window true two_accounts sample_shelf (registry_text two_accounts) shelf_users store_succeeds)
    as (d' & _ & H1 & H2 & _).
  exists d'. split; [exact H1|exact H2].
Defined.

End AccountTheorems.
