(* ===== verification/BlockGate.v ===== *)
(** The I/O gate of [kernel/src/block.c]: a recursive lock with a queue of
    waiting threads that serialises the read cache and the device callbacks.
    Its sections are protected by masking interrupts on the executing CPU, and
    by nothing else, so the model keeps the look at the gate and its update as
    two steps of a system of CPUs and threads. *)
From stdpp Require Import base list numbers functions sets.
From S2P Require Import Prelude.

Module BlockGate.

Definition BLOCK_IO_WAITERS : nat := 32.

(** [block_io_waiters] holds the first [block_io_waiter_count] entries of the
    array; the entries after them are [NULL] and never read. *)
Record gate := Gate {
  block_io_busy : bool;
  block_io_owner : option Z;
  block_io_depth : Z;
  block_io_waiters : list Z;
}.
Definition gate_initial : gate := Gate false None 0 [].

Definition is_self (owner self : option Z) : bool := bool_decide (owner = self).

(** * The sections *)

(** One round of the loop of [block_io_acquire] after interrupts are masked. *)
Inductive looked := LookEnter | LookRefuse | LookWait (self : Z).
Definition acquire_look (self : option Z) (g : gate) : looked :=
  if negb (block_io_busy g) || (bool_decide (self <> None) && is_self (block_io_owner g) self) then LookEnter
  else
    match self with
    | None => LookRefuse
    | Some t => if (BLOCK_IO_WAITERS <=? length (block_io_waiters g))%nat then LookRefuse else LookWait t
    end.

Definition gate_enter (self : option Z) (g : gate) : gate :=
  Gate true self (u32 (block_io_depth g + 1)) (block_io_waiters g).

(** A thread is appended unless it is the last entry already. *)
Definition gate_queue (t : Z) (g : gate) : gate :=
  Gate (block_io_busy g) (block_io_owner g) (block_io_depth g)
    (if bool_decide (last (block_io_waiters g) = Some t) then block_io_waiters g
     else block_io_waiters g ++ [t]).

(** The first entry of the thread goes and the rest moves up. *)
Fixpoint remove_first (t : Z) (l : list Z) : list Z :=
  match l with
  | [] => []
  | x :: l => if x =? t then l else x :: remove_first t l
  end.
Definition block_io_remove_waiter (thread : option Z) (g : gate) : gate :=
  match thread with
  | None => g
  | Some t => Gate (block_io_busy g) (block_io_owner g) (block_io_depth g) (remove_first t (block_io_waiters g))
  end.

(** One round of the loop, with the result of [scheduler_block] when it is
    called: the gate is held, the call fails, or the thread has slept and
    tries again. *)
Inductive acquired := Acquired | Refused | Again.
Definition block_io_acquire_round (self : option Z) (blocked : bool) (g : gate) : acquired * gate :=
  match acquire_look self g with
  | LookEnter => (Acquired, gate_enter self g)
  | LookRefuse => (Refused, g)
  | LookWait t =>
      let g := gate_queue t g in
      if blocked then (Again, g) else (Refused, block_io_remove_waiter (Some t) g)
  end.

(** The gate after the release, and the waiter that [scheduler_unblock] is
    called for. *)
Definition block_io_release (g : gate) : gate * option Z :=
  if block_io_depth g =? 0 then (g, None)
  else
    let depth := block_io_depth g - 1 in
    if negb (depth =? 0) then (Gate (block_io_busy g) (block_io_owner g) depth (block_io_waiters g), None)
    else
      match block_io_waiters g with
      | [] => (Gate false None depth [], None)
      | waiter :: rest => (Gate false None depth rest, Some waiter)
      end.

Definition quiesce_look (self : option Z) (g : gate) : bool :=
  negb (block_io_busy g && negb (is_self (block_io_owner g) self)).
Definition block_io_begin_quiesce (self : option Z) (g : gate) : bool * gate :=
  if quiesce_look self g then (true, gate_enter self g) else (false, g).
Definition block_io_end_quiesce (g : gate) : gate * option Z := block_io_release g.

(** * CPUs and threads *)

(** Where a thread is: outside of the gate's code, between the look at the gate
    and its update with interrupts masked, blocked by the call of
    [scheduler_block] in the loop, made ready again, or terminated. *)
Inductive place := Outside | Entering | Asleep | Woken | Dead.
#[export] Instance place_eq_dec : EqDecision place.
Proof. solve_decision. Defined.

(** [held] counts the acquisitions of a thread that it has not released. *)
Record sys := Sys {
  gate_of : gate;
  place_of : Z -> place;
  held : Z -> nat;
  running : list Z;   (** the thread of every CPU *)
}.

(** A boot on [length cpus] CPUs, each of which runs a thread. *)
Definition boot (cpus : list Z) : sys := Sys gate_initial (fun _ => Outside) (fun _ => O) cpus.

Definition on_cpu (s : sys) (c : nat) (t : Z) : Prop := running s !! c = Some t.
Definition off_cpu (s : sys) (t : Z) : Prop := t ∉ running s.
Definition in_section (p : place) : bool := bool_decide (p = Entering).
Definition runnable (p : place) : bool := bool_decide (p = Outside) || bool_decide (p = Woken).

(** [scheduler_unblock] makes a blocked thread ready and refuses any other. *)
Definition unblock (w : option Z) (p : Z -> place) : Z -> place :=
  match w with
  | Some t => if bool_decide (p t = Asleep) then <[t := Woken]> p else p
  | None => p
  end.

(** What happens besides the calls of the gate: [Stray] is a return of
    [scheduler_block] that no release caused (it consumes a pending mutex wake),
    [Kill] is [scheduler_terminate_thread] of a thread that no CPU runs. *)
Inductive event := Ordinary | Stray | Kill.

Inductive step : event -> sys -> sys -> Prop :=
  | step_switch s c u t :
      on_cpu s c u -> in_section (place_of s u) = false ->
      off_cpu s t -> runnable (place_of s t) = true ->
      step Ordinary s (Sys (gate_of s) (place_of s) (held s) (<[c := t]> (running s)))
  | step_look_enter s c t :
      on_cpu s c t -> runnable (place_of s t) = true -> acquire_look (Some t) (gate_of s) = LookEnter ->
      Z.of_nat (held s t) < U32_MAX ->
      step Ordinary s (Sys (gate_of s) (<[t := Entering]> (place_of s)) (held s) (running s))
  | step_look_refuse s c t :
      on_cpu s c t -> runnable (place_of s t) = true -> acquire_look (Some t) (gate_of s) = LookRefuse ->
      step Ordinary s (Sys (gate_of s) (<[t := Outside]> (place_of s)) (held s) (running s))
  | step_sleep s c t :
      on_cpu s c t -> runnable (place_of s t) = true -> acquire_look (Some t) (gate_of s) = LookWait t ->
      step Ordinary s (Sys (snd (block_io_acquire_round (Some t) true (gate_of s)))
                           (<[t := Asleep]> (place_of s)) (held s) (running s))
  | step_no_sleep s c t :
      on_cpu s c t -> runnable (place_of s t) = true -> acquire_look (Some t) (gate_of s) = LookWait t ->
      step Ordinary s (Sys (snd (block_io_acquire_round (Some t) false (gate_of s)))
                           (<[t := Outside]> (place_of s)) (held s) (running s))
  | step_quiesce s c t :
      on_cpu s c t -> place_of s t = Outside -> quiesce_look (Some t) (gate_of s) = true ->
      Z.of_nat (held s t) < U32_MAX ->
      step Ordinary s (Sys (gate_of s) (<[t := Entering]> (place_of s)) (held s) (running s))
  | step_enter s c t :
      on_cpu s c t -> place_of s t = Entering ->
      step Ordinary s (Sys (gate_enter (Some t) (gate_of s)) (<[t := Outside]> (place_of s))
                           (<[t := S (held s t)]> (held s)) (running s))
  | step_release s c t n g w :
      on_cpu s c t -> place_of s t = Outside -> held s t = S n -> block_io_release (gate_of s) = (g, w) ->
      step Ordinary s (Sys g (unblock w (place_of s)) (<[t := n]> (held s)) (running s))
  | step_stray s t :
      place_of s t = Asleep ->
      step Stray s (Sys (gate_of s) (<[t := Woken]> (place_of s)) (held s) (running s))
  | step_kill s t :
      off_cpu s t -> place_of s t <> Dead ->
      step Kill s (Sys (gate_of s) (<[t := Dead]> (place_of s)) (held s) (running s)).

Inductive reachable (allowed : event -> Prop) (s : sys) : sys -> Prop :=
  | reachable_refl : reachable allowed s s
  | reachable_step e s1 s2 : reachable allowed s s1 -> allowed e -> step e s1 s2 -> reachable allowed s s2.

Definition anything (_ : event) : Prop := True.
Definition ordinary (e : event) : Prop := e = Ordinary.

(** The steps as an executable function of the CPU or thread that takes one;
    [Look c blocked] carries the result of [scheduler_block], if it is called. *)
Inductive action :=
  | Switch (c : nat) (t : Z) | Look (c : nat) (blocked : bool) | Quiesce (c : nat) | Enter (c : nat) | Release (c : nat)
  | Wake (t : Z) | Terminate (t : Z).
Definition event_of (a : action) : event := match a with Wake _ => Stray | Terminate _ => Kill | _ => Ordinary end.

Definition exec_look (s : sys) (t : Z) (blocked : bool) : option sys :=
  let place q := Sys (gate_of s) (<[t := q]> (place_of s)) (held s) (running s) in
  if negb (runnable (place_of s t)) then None
  else
    match acquire_look (Some t) (gate_of s) with
    | LookEnter => if Z.of_nat (held s t) <? U32_MAX then Some (place Entering) else None
    | LookRefuse => Some (place Outside)
    | LookWait _ =>
        Some (Sys (snd (block_io_acquire_round (Some t) blocked (gate_of s)))
                  (<[t := if blocked then Asleep else Outside]> (place_of s)) (held s) (running s))
    end.

Definition exec (a : action) (s : sys) : option sys :=
  match a with
  | Switch c t =>
      u ← running s !! c;
      if negb (in_section (place_of s u)) && bool_decide (t ∉ running s) && runnable (place_of s t)
      then Some (Sys (gate_of s) (place_of s) (held s) (<[c := t]> (running s))) else None
  | Look c blocked => t ← running s !! c; exec_look s t blocked
  | Quiesce c =>
      t ← running s !! c;
      if bool_decide (place_of s t = Outside) && quiesce_look (Some t) (gate_of s) && (Z.of_nat (held s t) <? U32_MAX)
      then Some (Sys (gate_of s) (<[t := Entering]> (place_of s)) (held s) (running s)) else None
  | Enter c =>
      t ← running s !! c;
      if bool_decide (place_of s t = Entering)
      then Some (Sys (gate_enter (Some t) (gate_of s)) (<[t := Outside]> (place_of s))
                     (<[t := S (held s t)]> (held s)) (running s)) else None
  | Release c =>
      t ← running s !! c;
      match held s t with
      | S n =>
          if bool_decide (place_of s t = Outside)
          then let '(g, w) := block_io_release (gate_of s) in
               Some (Sys g (unblock w (place_of s)) (<[t := n]> (held s)) (running s)) else None
      | O => None
      end
  | Wake t =>
      if bool_decide (place_of s t = Asleep)
      then Some (Sys (gate_of s) (<[t := Woken]> (place_of s)) (held s) (running s)) else None
  | Terminate t =>
      if bool_decide (t ∉ running s) && negb (bool_decide (place_of s t = Dead))
      then Some (Sys (gate_of s) (<[t := Dead]> (place_of s)) (held s) (running s)) else None
  end.

Fixpoint run (l : list action) (s : sys) : option sys :=
  match l with [] => Some s | a :: l => s ← exec a s; run l s end.

Lemma look_wait_self t u g : acquire_look (Some t) g = LookWait u -> u = t.
Proof. unfold acquire_look. case_match; [done|]. case_match; congruence. Qed.

Lemma exec_look_step s c t b s' : on_cpu s c t -> exec_look s t b = Some s' -> step Ordinary s s'.
Proof.
  intros C. unfold exec_look. destruct (runnable (place_of s t)) eqn:P; cbn; [|done].
  destruct (acquire_look (Some t) (gate_of s)) as [| |u] eqn:E.
  - destruct (Z.ltb_spec (Z.of_nat (held s t)) U32_MAX); [|done]. intros [= <-]. by eapply step_look_enter.
  - intros [= <-]. by eapply step_look_refuse.
  - intros [= <-]. apply look_wait_self in E as Hu. subst u.
    destruct b; [by eapply step_sleep|by eapply step_no_sleep].
Qed.

Lemma exec_step a s s' : exec a s = Some s' -> step (event_of a) s s'.
Proof.
  destruct a as [c t|c b|c|c|c|t|t]; cbn; intros H.
  1-5: apply bind_Some in H as (u & C & H).
  - destruct (in_section _) eqn:P; cbn in H; [done|]. case_bool_decide; cbn in H; [|done].
    destruct (runnable _) eqn:Q; [|done]. inversion H. by eapply step_switch.
  - by eapply exec_look_step.
  - case_bool_decide; cbn in H; [|done]. destruct (quiesce_look _ _) eqn:Q; cbn in H; [|done].
    destruct (Z.ltb_spec (Z.of_nat (held s u)) U32_MAX); [|done]. inversion H. by eapply step_quiesce.
  - case_bool_decide; [|done]. inversion H. by eapply step_enter.
  - destruct (held s u) as [|n] eqn:Hn; [done|]. case_bool_decide; [|done].
    destruct (block_io_release (gate_of s)) as [g w] eqn:E. inversion H. by eapply step_release.
  - case_bool_decide; [|done]. inversion H. by apply step_stray.
  - case_bool_decide; cbn in H; [|done]. case_bool_decide; cbn in H; [done|]. inversion H. by apply step_kill.
Qed.

Lemma run_allowed allowed l s0 s s' :
  Forall (fun a => allowed (event_of a)) l -> reachable allowed s0 s -> run l s = Some s' -> reachable allowed s0 s'.
Proof.
  intros A. revert s. induction A as [|a l Ha A IH]; cbn; intros s R; [by intros [= <-]|].
  intros (s1 & E & H)%bind_Some. eapply IH; [|done]. eapply reachable_step; [done|done|by apply exec_step].
Qed.

Lemma run_anything l s s' : run l s = Some s' -> reachable anything s s'.
Proof. apply run_allowed; [by apply Forall_true|constructor]. Qed.

Definition is_ordinary (a : action) : bool := match event_of a with Ordinary => true | _ => false end.
Lemma run_ordinary l s s' : forallb is_ordinary l = true -> run l s = Some s' -> reachable ordinary s s'.
Proof.
  intros O. apply run_allowed; [|constructor]. induction l as [|a l IH]; [done|].
  cbn in O. apply andb_true_iff in O as [Oa O]. constructor; [|auto].
  unfold is_ordinary in Oa. unfold ordinary. by destruct (event_of a).
Qed.

(** * One CPU *)

Record exclusive_inv (s : sys) : Prop := {
  ei_cpu : exists r, running s = [r];
  ei_entering t : place_of s t = Entering -> running s = [t] /\ Z.of_nat (held s t) < U32_MAX /\
                    (block_io_busy (gate_of s) = false \/ block_io_owner (gate_of s) = Some t);
  ei_free : block_io_busy (gate_of s) = false -> block_io_depth (gate_of s) = 0 /\ forall t, held s t = O;
  ei_busy : block_io_busy (gate_of s) = true ->
    exists o, block_io_owner (gate_of s) = Some o /\ block_io_depth (gate_of s) = Z.of_nat (held s o) /\
      held s o <> O /\ Z.of_nat (held s o) <= U32_MAX /\ forall t, t <> o -> held s t = O;
}.

Lemma boot_exclusive r : exclusive_inv (boot [r]).
Proof. split; cbn; [by exists r|done..]. Qed.

Lemma look_enter t g : acquire_look (Some t) g = LookEnter -> block_io_busy g = false \/ block_io_owner g = Some t.
Proof.
  unfold acquire_look, is_self. destruct (block_io_busy g); [|by left]. cbn.
  case_bool_decide; cbn; [by right|]. case_match; done.
Qed.

Lemma look_busy t u g : acquire_look (Some t) g = LookWait u -> block_io_busy g = true /\ block_io_owner g <> Some t.
Proof.
  unfold acquire_look, is_self. destruct (block_io_busy g); cbn; [|done].
  case_bool_decide; cbn; done.
Qed.

Lemma quiesce_enter t g : quiesce_look (Some t) g = true -> block_io_busy g = false \/ block_io_owner g = Some t.
Proof.
  unfold quiesce_look, is_self. destruct (block_io_busy g); cbn; [|by left]. case_bool_decide; [by right|done].
Qed.

(** What a round and a release leave of the gate's owner. *)
Lemma round_keeps t b u g : acquire_look (Some t) g = LookWait u ->
  let g' := snd (block_io_acquire_round (Some t) b g) in
  block_io_busy g' = block_io_busy g /\ block_io_owner g' = block_io_owner g /\ block_io_depth g' = block_io_depth g.
Proof. intros E. unfold block_io_acquire_round. rewrite E. by destruct b. Qed.

(** A thread goes to a place outside of the section; the gate keeps its owner. *)
Lemma exclusive_moves s g p :
  exclusive_inv s ->
  block_io_busy g = block_io_busy (gate_of s) -> block_io_owner g = block_io_owner (gate_of s) ->
  block_io_depth g = block_io_depth (gate_of s) ->
  (forall u, p u = Entering -> place_of s u = Entering) ->
  exclusive_inv (Sys g p (held s) (running s)).
Proof.
  intros [C E F B] Hb Ho Hd Hp. split; cbn; rewrite ?Hb, ?Ho, ?Hd; [done| |done..].
  intros u Hu. by apply E, Hp.
Qed.

Lemma exclusive_entering s t :
  exclusive_inv s -> running s = [t] -> Z.of_nat (held s t) < U32_MAX ->
  block_io_busy (gate_of s) = false \/ block_io_owner (gate_of s) = Some t ->
  exclusive_inv (Sys (gate_of s) (<[t := Entering]> (place_of s)) (held s) (running s)).
Proof.
  intros [C E F B] R H G. split; cbn; [done| |done..].
  intros u. destruct (decide (u = t)) as [->|Hu]; [done|]. rewrite fn_lookup_insert_ne by done. apply E.
Qed.

Lemma unblock_entering w p u : unblock w p u = Entering -> p u = Entering.
Proof.
  destruct w as [t|]; cbn; [|done]. case_bool_decide as E; [|done].
  destruct (decide (u = t)) as [->|]; [by rewrite fn_lookup_insert|by rewrite fn_lookup_insert_ne].
Qed.

Lemma place_entering t q (p : Z -> place) u : q <> Entering -> (<[t := q]> p) u = Entering -> p u = Entering.
Proof.
  intros Hq. destruct (decide (u = t)) as [->|]; [by rewrite fn_lookup_insert|by rewrite fn_lookup_insert_ne].
Qed.

Lemma single_cpu s c t : exclusive_inv s -> on_cpu s c t -> running s = [t].
Proof.
  intros [[r R] _ _ _] H. unfold on_cpu in H. rewrite R in *. destruct c; [by inversion H|done].
Qed.

Lemma exclusive_enter s t :
  exclusive_inv s -> place_of s t = Entering ->
  exclusive_inv (Sys (gate_enter (Some t) (gate_of s)) (<[t := Outside]> (place_of s))
                     (<[t := S (held s t)]> (held s)) (running s)).
Proof.
  intros [C E F B] Ht. destruct (E t Ht) as (R & Hmax & G). split; cbn.
  - done.
  - intros u Hu. apply place_entering in Hu as Hu'; [|done].
    destruct (E u Hu') as (R' & _). assert (u = t) as -> by congruence.
    by rewrite fn_lookup_insert in Hu.
  - done.
  - intros _. exists t. rewrite fn_lookup_insert.
    assert (block_io_depth (gate_of s) = Z.of_nat (held s t) /\ forall u, u <> t -> held s u = O) as [Hd Ho].
    { destruct (block_io_busy (gate_of s)) eqn:Hb.
      - destruct G as [|Ho]; [done|]. destruct (B eq_refl) as (o & Ho' & Hd & _ & _ & Hz).
        assert (o = t) as -> by congruence. done.
      - destruct (F eq_refl) as [-> Hz]. rewrite Hz. split; [done|auto]. }
    split; [done|]. split; [rewrite Hd; unfold U32_MAX in Hmax; rewrite u32_id; [lia|unfold is_u32; lia]|].
    split; [done|]. split; [lia|]. intros u Hu. rewrite fn_lookup_insert_ne by done. auto.
Qed.

Lemma exclusive_release s t n g w :
  exclusive_inv s -> running s = [t] -> place_of s t = Outside -> held s t = S n ->
  block_io_release (gate_of s) = (g, w) ->
  exclusive_inv (Sys g (unblock w (place_of s)) (<[t := n]> (held s)) (running s)).
Proof.
  intros [C E F B] R Ht Hn Hg.
  destruct (block_io_busy (gate_of s)) eqn:Hb; [|destruct (F eq_refl) as [_ Hz]; rewrite (Hz t) in Hn; done].
  destruct (B eq_refl) as (o & Ho & Hd & _ & Hmax & Hz).
  assert (o = t) as -> by (destruct (decide (o = t)); [done|rewrite (Hz t) in Hn by done; done]).
  unfold block_io_release in Hg. rewrite Hd, Hn in Hg.
  replace (Z.of_nat (S n) =? 0) with false in Hg by lia.
  replace (Z.of_nat (S n) - 1) with (Z.of_nat n) in Hg by lia.
  assert (forall u, unblock w (place_of s) u = Entering -> False) as Hu.
  { intros u Hu. apply unblock_entering in Hu as Hu'. destruct (E u Hu') as (R' & _). congruence. }
  destruct n as [|n]; cbn [negb Z.of_nat Z.eqb] in Hg.
  - assert (g = Gate false None 0 (tail (block_io_waiters (gate_of s)))) as ->
      by (destruct (block_io_waiters (gate_of s)); by inversion Hg).
    split; cbn; [done|intros u Hu'; by destruct (Hu u Hu')| |done].
    intros _. split; [done|]. intros u. destruct (decide (u = t)) as [->|]; [by rewrite fn_lookup_insert|].
    rewrite fn_lookup_insert_ne by done. auto.
  - inversion Hg; subst g w; clear Hg. split; cbn [gate_of place_of held running block_io_busy block_io_owner block_io_depth].
    + done.
    + intros u Hu'. by destruct (Hu u Hu').
    + congruence.
    + intros _. exists t. rewrite fn_lookup_insert. split; [done|]. split; [done|]. split; [done|]. split; [lia|].
      intros u Hu'. rewrite fn_lookup_insert_ne by done. auto.
Qed.

Lemma exclusive_step e s s' : exclusive_inv s -> step e s s' -> exclusive_inv s'.
Proof.
  intros I S. pose proof I as [C E F B]. destruct S.
  - pose proof (single_cpu _ _ _ I H) as R. split; cbn; [|intros v Hv|done..].
    + unfold on_cpu in H. rewrite R in *. destruct c; [by exists t|done].
    + destruct (E v Hv) as (R' & _). assert (v = u) as -> by congruence.
      unfold in_section in H0. rewrite Hv in H0. done.
  - apply exclusive_entering; [done|by eapply single_cpu|done|by apply look_enter].
  - apply exclusive_moves; [done..|]. intros u. by apply place_entering.
  - destruct (round_keeps t true t _ H1) as (K1 & K2 & K3).
    apply exclusive_moves; [done..|]. intros u. by apply place_entering.
  - destruct (round_keeps t false t _ H1) as (K1 & K2 & K3).
    apply exclusive_moves; [done..|]. intros u. by apply place_entering.
  - apply exclusive_entering; [done|by eapply single_cpu|done|by apply quiesce_enter].
  - by apply exclusive_enter.
  - eapply exclusive_release; [done|by eapply single_cpu|done..].
  - apply exclusive_moves; [done..|]. intros u. by apply place_entering.
  - apply exclusive_moves; [done..|]. intros u. by apply place_entering.
Qed.

Lemma reachable_exclusive allowed r s : reachable allowed (boot [r]) s -> exclusive_inv s.
Proof. induction 1; [apply boot_exclusive|by eapply exclusive_step]. Qed.

(** * Sleepers *)

Record queue_inv (s : sys) : Prop := {
  qi_nodup : NoDup (block_io_waiters (gate_of s));
  qi_asleep t : place_of s t = Asleep <-> t ∈ block_io_waiters (gate_of s);
  qi_dead t : place_of s t <> Dead;
  qi_wake : block_io_waiters (gate_of s) <> [] ->
    block_io_busy (gate_of s) = true \/ exists w, place_of s w = Woken \/ place_of s w = Entering;
  qi_length : (length (block_io_waiters (gate_of s)) <= BLOCK_IO_WAITERS)%nat;
}.

Lemma runnable_not_asleep p : runnable p = true -> p <> Asleep.
Proof. by destruct p. Qed.

(** A runnable thread goes on to run; the queue stays. *)
Lemma queue_moves s t q g' h r :
  queue_inv s -> runnable (place_of s t) = true \/ place_of s t = Entering ->
  block_io_waiters g' = block_io_waiters (gate_of s) -> q = Outside \/ q = Entering ->
  block_io_busy g' = true \/ q = Entering ->
  queue_inv (Sys g' (<[t := q]> (place_of s)) h r).
Proof.
  intros [N A D W L] P Hw Hq Hb.
  assert (place_of s t <> Asleep) as Pa by (destruct P as [P|P]; [by apply runnable_not_asleep|by rewrite P]).
  split; cbn; rewrite ?Hw; [done| | | |done].
  - intros u. destruct (decide (u = t)) as [->|]; [|by rewrite fn_lookup_insert_ne].
    rewrite fn_lookup_insert. rewrite <- A. destruct Hq as [-> | ->]; naive_solver.
  - intros u. destruct (decide (u = t)) as [->|]; [|by rewrite fn_lookup_insert_ne].
    rewrite fn_lookup_insert. by destruct Hq as [-> | ->].
  - intros _. destruct Hb as [Hb| ->]; [by left|]. right. exists t. rewrite fn_lookup_insert. by right.
Qed.

Lemma queue_sleeps s t :
  queue_inv s -> place_of s t <> Asleep -> block_io_busy (gate_of s) = true ->
  (length (block_io_waiters (gate_of s)) < BLOCK_IO_WAITERS)%nat ->
  queue_inv (Sys (gate_queue t (gate_of s)) (<[t := Asleep]> (place_of s)) (held s) (running s)).
Proof.
  intros [N A D W L] P B Hl. pose proof P as Q. rewrite A in Q.
  unfold gate_queue. rewrite bool_decide_eq_false_2
    by (intros [l' E]%last_Some; apply Q; rewrite E; set_solver).
  split; cbn.
  - apply NoDup_app. split; [done|]. split; [set_solver|apply NoDup_singleton].
  - intros u. rewrite elem_of_app, list_elem_of_singleton.
    destruct (decide (u = t)) as [->|]; [rewrite fn_lookup_insert; naive_solver|].
    rewrite fn_lookup_insert_ne by done. rewrite A. naive_solver.
  - intros u. destruct (decide (u = t)) as [->|]; [by rewrite fn_lookup_insert|by rewrite fn_lookup_insert_ne].
  - by left.
  - rewrite length_app. cbn. lia.
Qed.

Lemma remove_first_app t l : t ∉ l -> remove_first t (l ++ [t]) = l.
Proof.
  induction l as [|x l IH]; cbn; [by rewrite Z.eqb_refl|]. intros [? ?]%not_elem_of_cons.
  replace (x =? t) with false by lia. by rewrite IH.
Qed.

Lemma look_wait_room t u g : acquire_look (Some t) g = LookWait u -> (length (block_io_waiters g) < BLOCK_IO_WAITERS)%nat.
Proof. unfold acquire_look. case_match; [done|]. destruct (Nat.leb_spec BLOCK_IO_WAITERS (length (block_io_waiters g))); done. Qed.

Lemma queue_release s t n g w :
  queue_inv s -> exclusive_inv s -> held s t = S n -> block_io_release (gate_of s) = (g, w) ->
  queue_inv (Sys g (unblock w (place_of s)) (<[t := n]> (held s)) (running s)).
Proof.
  intros [N A D W L] [C E F B] Hn Hg. unfold block_io_release in Hg.
  destruct (block_io_depth (gate_of s) =? 0); [inversion Hg; by split|].
  destruct (negb _); [inversion Hg; by split|].
  destruct (block_io_waiters (gate_of s)) as [|x l] eqn:Hw; inversion Hg; subst g w; clear Hg;
    [split; cbn; by rewrite ?Hw|].
  apply NoDup_cons in N as [Nx N].
  assert (place_of s x = Asleep) as Hx by (apply A; left). unfold unblock. rewrite bool_decide_eq_true_2 by done.
  split; cbn.
  - done.
  - intros u. destruct (decide (u = x)) as [->|]; [by rewrite fn_lookup_insert|].
    rewrite fn_lookup_insert_ne by done. rewrite A. set_solver.
  - intros u. destruct (decide (u = x)) as [->|]; [by rewrite fn_lookup_insert|by rewrite fn_lookup_insert_ne].
  - intros _. right. exists x. rewrite fn_lookup_insert. by left.
  - cbn in L. lia.
Qed.

Lemma queue_step s s' : queue_inv s -> exclusive_inv s -> step Ordinary s s' -> queue_inv s'.
Proof.
  intros I X S. pose proof I as [N A D W L]. inversion S as
    [s0 c u t H1 H2 H3 H4|s0 c t H1 H2 H3 H4|s0 c t H1 H2 H3|s0 c t H1 H2 H3|s0 c t H1 H2 H3|s0 c t H1 H2 H3 H4
    |s0 c t H1 H2|s0 c t n g w H1 H2 H3 H4| |]; subst.
  - by split.
  - apply queue_moves; auto.
  - apply queue_moves; auto. left. unfold acquire_look in H3. by destruct (block_io_busy (gate_of s)).
  - unfold block_io_acquire_round. rewrite H3. cbn.
    apply queue_sleeps; [done|by apply runnable_not_asleep|by eapply look_busy|by eapply look_wait_room].
  - unfold block_io_acquire_round. rewrite H3. cbn.
    assert (t ∉ block_io_waiters (gate_of s)) as Q by (rewrite <- A; by apply runnable_not_asleep).
    apply queue_moves; auto; cbn.
    + rewrite bool_decide_eq_false_2; [by apply remove_first_app|].
      intros [l' E]%last_Some. apply Q. rewrite E. set_solver.
    + left. by eapply look_busy.
  - apply queue_moves; auto. left. by rewrite H2.
  - apply queue_moves; auto.
  - by eapply queue_release.
Qed.

(** A thread sleeps only outside of the gate: the holder's look enters. *)
Lemma sleeper_holds_nothing allowed r s t : reachable allowed (boot [r]) s -> place_of s t = Asleep -> held s t = O.
Proof.
  induction 1 as [|e s1 s2 R IH Ha S]; [done|]. pose proof (reachable_exclusive _ _ _ R) as X.
  assert (forall u q h, place_of s1 u <> Asleep -> q <> Asleep ->
    (forall v, v <> u -> h v = held s1 v) ->
    (<[u := q]> (place_of s1)) t = Asleep -> h t = O) as K.
  { intros u q h Hu Hq Hh. destruct (decide (t = u)) as [->|]; [by rewrite fn_lookup_insert|].
    rewrite fn_lookup_insert_ne, Hh by done. auto. }
  destruct S; cbn; [auto|..|].
  - apply K; auto. by apply runnable_not_asleep.
  - apply K; auto. by apply runnable_not_asleep.
  - destruct (decide (t = t0)) as [->|]; [|rewrite fn_lookup_insert_ne by done; auto].
    intros _. destruct (look_busy _ _ _ H1) as [Hb Ho]. destruct X as [_ _ _ B].
    destruct (B Hb) as (o & Ho' & _ & _ & _ & Hz). apply Hz. congruence.
  - apply K; auto. by apply runnable_not_asleep.
  - apply K; auto. by rewrite H0.
  - apply K; auto; [by rewrite H0|]. intros v Hv. by rewrite fn_lookup_insert_ne.
  - intros Ht. assert (t <> t0) as Hne.
    { intros ->. destruct w as [x|]; cbn in Ht; [|congruence]. case_bool_decide; [|congruence].
      destruct (decide (x = t0)) as [->|]; [by rewrite fn_lookup_insert in Ht|].
      rewrite fn_lookup_insert_ne in Ht by done. congruence. }
    rewrite fn_lookup_insert_ne by done. apply IH. destruct w as [x|]; cbn in Ht; [|done].
    case_bool_decide; [|done]. destruct (decide (t = x)) as [->|]; [by rewrite fn_lookup_insert in Ht|].
    by rewrite fn_lookup_insert_ne in Ht.
  - destruct (decide (t = t0)) as [->|]; [by rewrite fn_lookup_insert|]. rewrite fn_lookup_insert_ne by done. auto.
  - destruct (decide (t = t0)) as [->|]; [by rewrite fn_lookup_insert|]. rewrite fn_lookup_insert_ne by done. auto.
Qed.

Lemma reachable_queue r s : reachable ordinary (boot [r]) s -> queue_inv s.
Proof.
  induction 1 as [|e s1 s2 R IH Ha S].
  - split; cbn; [constructor|set_solver|done|done|lia].
  - unfold ordinary in Ha. subst e. eapply queue_step; [done|by eapply reachable_exclusive|done].
Qed.

(** * Theorems *)

(** C33: On one CPU the gate is a recursive lock, whatever threads are killed or
    woken by others: at most one thread has acquisitions that it has not
    released, the gate records it with their number, it may enter again, and
    neither an acquisition nor a quiesce of any other thread enters. *)
Theorem gate_exclusive_on_one_cpu r s :
  reachable anything (boot [r]) s ->
  (forall t u, held s t <> O -> held s u <> O -> t = u) /\
  (forall t, held s t <> O ->
     block_io_owner (gate_of s) = Some t /\ block_io_depth (gate_of s) = Z.of_nat (held s t) /\
     acquire_look (Some t) (gate_of s) = LookEnter /\
     forall u, u <> t -> acquire_look (Some u) (gate_of s) <> LookEnter /\ quiesce_look (Some u) (gate_of s) = false) /\
  ((forall t, held s t = O) -> forall u, acquire_look u (gate_of s) = LookEnter /\ quiesce_look u (gate_of s) = true).
Proof.
  intros R. destruct (reachable_exclusive _ _ _ R) as [C E F B].
  unfold acquire_look, quiesce_look, is_self. destruct (block_io_busy (gate_of s)).
  - destruct (B eq_refl) as (o & Ho & Hd & Hn & _ & Hz).
    assert (forall t, held s t <> O -> t = o) as Ht by (intros t Ht; destruct (decide (t = o)); [done|by rewrite Hz in Ht]).
    split; [intros t u H1 H2; by rewrite (Ht t), (Ht u)|]. split; [|intros H; by rewrite H in Hn].
    intros t H. apply Ht in H as ->. rewrite Ho. split; [done|]. split; [done|].
    cbn. rewrite bool_decide_eq_true_2 by done. cbn. split; [done|]. intros u Hu.
    rewrite bool_decide_eq_false_2 by congruence. cbn. split; [|done]. by case_match.
  - destruct (F eq_refl) as [_ Hz]. split; [intros t u H1; by rewrite Hz in H1|].
    split; [intros t H; by rewrite Hz in H|done].
Qed.

Lemma gate_exclusive_on_one_cpu_witness :
  exists s, run [Look 0 true; Enter 0] (boot [1]) = Some s /\
    block_io_owner (gate_of s) = Some 1 /\ quiesce_look (Some 2) (gate_of s) = false.
Proof.
  eexists. split; [reflexivity|].
  destruct (gate_exclusive_on_one_cpu 1 _ (run_anything [Look 0 true; Enter 0] (boot [1]) _ eq_refl)) as (_ & H & _).
  destruct (H 1 ltac:(done)) as (Ho & _ & _ & Hu). split; [exact Ho|]. by apply Hu.
Defined.

(** C34: On one CPU, when no thread is killed and none is woken by others, no
    sleeper is forgotten: the blocked threads are exactly the entries of the
    queue, once each and at most 32, and while there is one the gate is held or
    a woken thread is about to take it; the last release of the holder wakes
    the thread that has waited longest. *)
Theorem gate_forgets_no_sleeper r s :
  reachable ordinary (boot [r]) s ->
  (forall t, place_of s t = Asleep <-> t ∈ block_io_waiters (gate_of s)) /\
  NoDup (block_io_waiters (gate_of s)) /\ (length (block_io_waiters (gate_of s)) <= BLOCK_IO_WAITERS)%nat /\
  (forall t, place_of s t = Asleep ->
     (exists o, o <> t /\ held s o <> O) \/ exists w, place_of s w = Woken \/ place_of s w = Entering) /\
  (forall t x l, held s t = 1%nat -> block_io_waiters (gate_of s) = x :: l ->
     exists g, block_io_release (gate_of s) = (g, Some x) /\ block_io_waiters g = l /\
       block_io_busy g = false /\ unblock (Some x) (place_of s) x = Woken).
Proof.
  intros R. destruct (reachable_queue _ _ R) as [N A D W L].
  destruct (reachable_exclusive _ _ _ R) as [C E F B].
  split; [done|]. split; [done|]. split; [done|]. split.
  - intros t Ht. apply A in Ht as Hin.
    destruct W as [Hb|Hw]; [by intros Hn; rewrite Hn in Hin; set_solver| |by right].
    destruct (B Hb) as (o & Ho & Hd & Hn & _ & Hz). destruct (decide (o = t)) as [->|]; [|left; by exists o].
    exfalso. apply Hn. by eapply sleeper_holds_nothing.
  - intros t x l Ht Hw. destruct (block_io_busy (gate_of s)) eqn:Hb;
      [|destruct (F eq_refl) as [_ Hz]; by rewrite (Hz t) in Ht].
    destruct (B eq_refl) as (o & Ho & Hd & Hn & _ & Hz).
    assert (o = t) as -> by (destruct (decide (o = t)); [done|by rewrite (Hz t) in Ht]).
    exists (Gate false None 0 l). unfold block_io_release. rewrite Hd, Ht, Hw. split; [done|].
    split; [done|]. split; [done|]. unfold unblock.
    rewrite bool_decide_eq_true_2 by (apply A; rewrite Hw; left). by rewrite fn_lookup_insert.
Qed.

Definition two_readers : list action := [Look 0 true; Enter 0; Switch 0 2; Look 0 true; Switch 0 1].

Lemma gate_forgets_no_sleeper_witness :
  exists s, run two_readers (boot [1]) = Some s /\ block_io_waiters (gate_of s) = [2] /\
    exists g, block_io_release (gate_of s) = (g, Some 2) /\ unblock (Some 2) (place_of s) 2 = Woken.
Proof.
  eexists. split; [reflexivity|]. split; [reflexivity|].
  destruct (gate_forgets_no_sleeper 1 _
    (run_ordinary two_readers (boot [1]) _ eq_refl eq_refl)) as (_ & _ & _ & _ & H).
  destruct (H 1 2 [] eq_refl eq_refl) as (g & E & _ & _ & U). exists g. split; [exact E|exact U].
Defined.

(** C35: Masking interrupts does not close the gate to other CPUs: on two CPUs
    two threads that start a device operation at the same time both hold it,
    so the requests that the gate exists to serialise overlap. *)
Theorem gate_open_to_two_cpus :
  exists s, reachable ordinary (boot [1; 2]) s /\ held s 1 = 1%nat /\ held s 2 = 1%nat /\
    on_cpu s 0 1 /\ on_cpu s 1 2 /\ place_of s 1 = Outside /\ place_of s 2 = Outside.
Proof.
  destruct (run [Look 0 true; Look 1 true; Enter 0; Enter 1] (boot [1; 2])) as [s|] eqn:E; [|done].
  exists s. split; [by eapply run_ordinary; [|done]|].
  inversion E. by vm_compute.
Qed.






(** A holder and two sleepers, of which the first is killed before the release. *)
Definition stranding : list action :=
  two_readers ++ [Switch 0 3; Look 0 true; Switch 0 1; Terminate 2; Release 0].
Definition stranded : sys := default (boot []) (run stranding (boot [1])).

(** A killed waiter takes the wake-up of the others with it. *)
Theorem killed_waiter_strands_the_queue :
  reachable anything (boot [1]) stranded /\ block_io_busy (gate_of stranded) = false /\
  place_of stranded 3 = Asleep /\ block_io_waiters (gate_of stranded) = [3] /\
  forall t, t ∈ [1; 2; 3] -> place_of stranded t <> Woken /\ place_of stranded t <> Entering.
Proof.
  split; [apply (run_anything stranding); vm_compute; reflexivity|].
  split; [by vm_compute|]. split; [by vm_compute|]. split; [by vm_compute|].
  intros t Ht. repeat (apply elem_of_cons in Ht as [->|Ht]; [by vm_compute|]). by apply not_elem_of_nil in Ht.
Qed.

End BlockGate.
