(* ===== verification/GptTable.v ===== *)
(** GUID partition tables on disk: the formats, the validation, the loader and
    the planner of [kernel/src/storage/gpt.c].  Buffers are lists of bytes; every
    sector buffer has 512 bytes and the entry buffers have 16384, and all
    offsets of the source are constants or entries below [entry_count], which is
    at most 128. *)
From stdpp Require Import base list numbers.
From S2P Require Import Prelude.

Module GptTable.

Definition GPT_GUID_BYTES : nat := 16.
Definition GPT_MAX_PARTITION_ENTRIES : Z := 128.
Definition GPT_PARTITION_ENTRY_BYTES : Z := 128.
Definition GPT_SECTOR_BYTES : Z := 512.
Definition GPT_HEADER_BYTES : Z := 92.
Definition GPT_PRIMARY_HEADER_LBA : Z := 1.
Definition GPT_PRIMARY_ENTRIES_LBA : Z := 2.
Definition GPT_ENTRY_ARRAY_BYTES : Z := GPT_MAX_PARTITION_ENTRIES * GPT_PARTITION_ENTRY_BYTES.
Definition GPT_ENTRY_ARRAY_SECTORS : Z := GPT_ENTRY_ARRAY_BYTES / GPT_SECTOR_BYTES.
Definition GPT_ALIGNMENT_BYTES : Z := 1024 * 1024.
Definition GPT_MIN_SECTORS : Z := 2 + GPT_ENTRY_ARRAY_SECTORS + 1 + GPT_ENTRY_ARRAY_SECTORS + 1.

Definition mangrove_data_type_guid : list Z :=
  [0x47; 0x4e; 0x41; 0x4d; 0x4f; 0x52; 0x45; 0x56; 0x44; 0x41; 0x54; 0x41; 0x00; 0x00; 0x00; 0x01].

Inductive gpt_table_type_t := GPT_TABLE_NONE | GPT_TABLE_VALID | GPT_TABLE_MBR | GPT_TABLE_CORRUPT.

Record gpt_table_info_t := TableInfo {
  table_type : gpt_table_type_t;
  partition_count : Z;
  entry_count : Z;
  entry_size : Z;
  first_usable_lba : Z;
  last_usable_lba : Z;
}.
Record gpt_table_t := Table {
  info : gpt_table_info_t;
  primary_entries_lba : Z;
  backup_entries_lba : Z;
  array_sectors : Z;
  disk_guid : list Z;
}.
Record gpt_partition_plan_t := Plan {
  first_lba : Z;
  last_lba : Z;
  size_bytes : Z;
  partition_number : Z;
}.

(** * Bytes *)

Definition byte (p : list Z) (i : nat) : Z := default 0 (p !! i).
Definition sub (p : list Z) (off len : nat) : list Z := take len (drop off p).
Definition poke (p : list Z) (off : nat) (bs : list Z) : list Z := list_inserts off bs p.

Definition le32 (p : list Z) (off : nat) : Z :=
  Z.lor (Z.lor (Z.lor (byte p off) (Z.shiftl (byte p (off + 1)) 8))
               (Z.shiftl (byte p (off + 2)) 16)) (Z.shiftl (byte p (off + 3)) 24).
Definition le64 (p : list Z) (off : nat) : Z :=
  fold_left (fun value index => Z.lor value (Z.shiftl (byte p (off + index)) (8 * Z.of_nat index))) (seq 0 8) 0.

Definition le_bytes (n : nat) (value : Z) : list Z :=
  (fun index => u8 (Z.shiftr value (8 * Z.of_nat index))) <$> seq 0 n.
Definition store_le32 (p : list Z) (off : nat) (value : Z) : list Z := poke p off (le_bytes 4 value).
Definition store_le64 (p : list Z) (off : nat) (value : Z) : list Z := poke p off (le_bytes 8 value).

Definition add_u64 (left right : Z) : option Z := if U64_MAX - right <? left then None else Some (left + right).
Definition multiply_u64 (left right : Z) : option Z :=
  if negb (left =? 0) && (U64_MAX / left <? right) then None else Some (left * right).

(** The four bytes at [zero_offset], if given, count as zero. *)
Definition crc_bit (crc : Z) : Z :=
  if Z.land crc 1 =? 1 then Z.lxor (Z.shiftr crc 1) 0xedb88320 else Z.shiftr crc 1.
Definition crc_value (data : list Z) (zero_offset : option nat) (index : nat) : Z :=
  match zero_offset with
  | Some z => if (z <=? index)%nat && (index - z <? 4)%nat then 0 else byte data index
  | None => byte data index
  end.
Definition crc_byte (crc value : Z) : Z := Nat.iter 8 crc_bit (Z.lxor crc value).
Definition crc32 (data : list Z) (length : nat) (zero_offset : option nat) : Z :=
  Z.lxor (fold_left (fun crc index => crc_byte crc (crc_value data zero_offset index)) (seq 0 length) 0xffffffff)
    0xffffffff.

Definition guid_is_zero (guid : list Z) : bool := forallb (fun b => b =? 0) (take GPT_GUID_BYTES guid).
Definition guid_at (p : list Z) (off : nat) : list Z := sub p off GPT_GUID_BYTES.

(** * Sectors *)

Definition mbr_signature (sector : list Z) : bool := (byte sector 510 =? 0x55) && (byte sector 511 =? 0xaa).
Definition mbr_has_partition (sector : list Z) : bool :=
  mbr_signature sector && existsb (fun index => negb (byte sector (446 + index * 16 + 4) =? 0)) (seq 0 4).
Definition mbr_is_protective (sector : list Z) : bool := mbr_signature sector && (byte sector (446 + 4) =? 0xee).

Definition signature : list Z := [69; 70; 73; 32; 80; 65; 82; 84].
Definition gpt_signature (sector : list Z) : bool := bool_decide (sub sector 0 8 = signature).

(** What [gpt_header_valid] stores through its pointers. *)
Record header_t := Header {
  h_entries_lba : Z; h_count : Z; h_size : Z; h_first : Z; h_last : Z; h_crc : Z; h_sectors : Z; h_guid : list Z }.

Definition gpt_header_valid (header : list Z) (expected_current expected_backup total_sectors : Z) : option header_t :=
  if negb (gpt_signature header) || negb (le32 header 8 =? 0x00010000) then None
  else if guid_is_zero (guid_at header 56) then None
  else
    let header_size := le32 header 12 in
    if (header_size <? GPT_HEADER_BYTES) || (GPT_SECTOR_BYTES <? header_size) ||
       negb (crc32 header (Z.to_nat header_size) (Some 16%nat) =? le32 header 16) then None
    else if negb (le64 header 24 =? expected_current) || negb (le64 header 32 =? expected_backup) then None
    else
      let first := le64 header 40 in
      let last := le64 header 48 in
      if (last <? first) || (total_sectors <=? last) then None
      else
        let entry_count := le32 header 80 in
        let entry_size := le32 header 84 in
        if (entry_count =? 0) || (GPT_MAX_PARTITION_ENTRIES <? entry_count) ||
           negb (entry_size =? GPT_PARTITION_ENTRY_BYTES) then None
        else
          array_bytes ← multiply_u64 entry_count entry_size;
          let array_sectors := (array_bytes + GPT_SECTOR_BYTES - 1) / GPT_SECTOR_BYTES in
          let entries_lba := le64 header 72 in
          if (array_sectors =? 0) || (total_sectors <=? entries_lba) || (total_sectors - entries_lba <? array_sectors)
          then None
          else Some (Header entries_lba entry_count entry_size first last (le32 header 88) (u32 array_sectors)
                            (guid_at header 56)).

(** * Entries *)

Definition entry_at (entries : list Z) (index : nat) : list Z := sub entries (index * 128) 128.
Definition gpt_entry_used (entry : list Z) : bool := existsb (fun b => negb (b =? 0)) (take GPT_GUID_BYTES entry).
Definition entry_first (entry : list Z) : Z := le64 entry 32.
Definition entry_last (entry : list Z) : Z := le64 entry 40.

(** The comparison of an entry with a prior one. *)
Definition entries_clash (entry other : list Z) : bool :=
  gpt_entry_used other &&
  (bool_decide (guid_at entry 16 = guid_at other 16) ||
   ((entry_first entry <=? entry_last other) && (entry_first other <=? entry_last entry))).
Definition entry_valid (entries : list Z) (first_usable last_usable : Z) (index : nat) : bool :=
  let entry := entry_at entries index in
  negb (guid_is_zero (guid_at entry 16) || (entry_last entry <? entry_first entry) ||
        (entry_first entry <? first_usable) || (last_usable <? entry_last entry)) &&
  forallb (fun prior => negb (entries_clash entry (entry_at entries prior))) (seq 0 index).
Fixpoint entries_loop (entries : list Z) (first_usable last_usable : Z) (n index : nat) (used : Z) : option Z :=
  match n with
  | O => Some used
  | S n =>
      if negb (gpt_entry_used (entry_at entries index))
      then entries_loop entries first_usable last_usable n (S index) used
      else if negb (entry_valid entries first_usable last_usable index) then None
      else entries_loop entries first_usable last_usable n (S index) (u32 (used + 1))
  end.
Definition gpt_entries_valid (entries : list Z) (entry_count first_usable last_usable : Z) : option Z :=
  if (GPT_MAX_PARTITION_ENTRIES <? entry_count) || (last_usable <? first_usable) then None
  else entries_loop entries first_usable last_usable (Z.to_nat entry_count) 0 0.

(** * Planning *)

Definition alignment_sectors (sector_size : Z) : Z :=
  if sector_size =? 0 then 0 else (GPT_ALIGNMENT_BYTES + sector_size - 1) / sector_size.
Definition align_up (value alignment : Z) : option Z :=
  if alignment =? 0 then None
  else
    let remainder := value mod alignment in
    if remainder =? 0 then Some value else add_u64 value (alignment - remainder).

(** The used entry with the lowest start from [cursor] on; without one the
    start is the sector after the usable range. *)
Definition nearer (entries : list Z) (cursor : Z) (next : Z * Z) (index : nat) : Z * Z :=
  let entry := entry_at entries index in
  if negb (gpt_entry_used entry) then next
  else if (cursor <=? entry_first entry) && (entry_first entry <? fst next)
       then (entry_first entry, entry_last entry) else next.
Definition next_extent (t : gpt_table_info_t) (entries : list Z) (cursor : Z) : Z * Z :=
  fold_left (nearer entries cursor) (seq 0 (Z.to_nat (entry_count t))) (u64 (last_usable_lba t + 1), 0).

(** The best extent so far: first and last sector and size. *)
Record extent := Extent { best_first : Z; best_last : Z; best_size : Z }.
Definition no_extent : extent := Extent 0 0 0.

(** What one gap contributes, and whether the search ends with it. *)
Definition try_gap (alignment requested_sectors : Z) (use_rest : bool) (cursor gap_last : Z) (best : extent)
    : extent * bool :=
  match align_up cursor alignment with
  | Some candidate_first =>
      if candidate_first <=? gap_last then
        let candidate_size := u64 (gap_last - candidate_first + 1) in
        if use_rest then
          (if best_size best <? candidate_size then Extent candidate_first gap_last candidate_size else best, false)
        else if requested_sectors <=? candidate_size
             then (Extent candidate_first (u64 (candidate_first + requested_sectors - 1)) requested_sectors, true)
             else (best, false)
      else (best, false)
  | None => (best, false)
  end.

(** The walk over the gaps.  Each round but the last passes one entry, so that
    the number of entries and one bounds the rounds. *)
Fixpoint gap_loop (fuel : nat) (t : gpt_table_info_t) (entries : list Z) (alignment requested_sectors : Z)
    (use_rest : bool) (cursor : Z) (best : extent) : option extent :=
  match fuel with
  | O => None
  | S fuel =>
      let '(next_first, next_last) := next_extent t entries cursor in
      let past := u64 (last_usable_lba t + 1) in
      let gap_last := if next_first =? past then last_usable_lba t else u64 (next_first - 1) in
      let '(best, found) := try_gap alignment requested_sectors use_rest cursor gap_last best in
      if found : bool then Some best
      else if (next_first =? past) || (last_usable_lba t <=? next_last) then Some best
      else gap_loop fuel t entries alignment requested_sectors use_rest (u64 (next_last + 1)) best
  end.

Definition free_entry (t : gpt_table_info_t) (entries : list Z) : option nat :=
  head (filter (fun index => negb (gpt_entry_used (entry_at entries index))) (seq 0 (Z.to_nat (entry_count t)))).

(** The answer of the planner, or [None] if it does not return. *)
Definition plan_from_entries (t : gpt_table_info_t) (entries : list Z) (sector_size requested_bytes : Z)
    (use_rest : bool) : option (option gpt_partition_plan_t) :=
  if negb (sector_size =? 512) then Some None
  else
    let alignment := alignment_sectors sector_size in
    let requested_sectors := if use_rest then 0 else requested_bytes / sector_size in
    if alignment =? 0 then Some None
    else if negb use_rest &&
         ((requested_bytes =? 0) || (U64_MAX - (sector_size - 1) <? requested_bytes) || (requested_sectors =? 0))
    then Some None
    else
      best ← gap_loop (S (Z.to_nat (entry_count t))) t entries alignment requested_sectors use_rest
                      (first_usable_lba t) no_extent;
      if (best_size best =? 0) || (best_last best <? best_first best) then Some None
      else
        match free_entry t entries with
        | None => Some None
        | Some index =>
            match multiply_u64 (u64 (best_last best - best_first best + 1)) sector_size with
            | None => Some None
            | Some bytes => Some (Some (Plan (best_first best) (best_last best) bytes (Z.of_nat index + 1)))
            end
        end.

End GptTable.
