(* ===== verification/GptPlan.v ===== *)
(** The planner of [kernel/src/storage/gpt.c] against the free sectors of the
    table: it always returns, and finds the lowest aligned extent of the size
    asked for, or the largest aligned extent. *)
From stdpp Require Import base list numbers.
From S2P Require Import Prelude GptTable.
Import GptTable.

Module GptPlan.

(** * What validated entries satisfy *)

Definition used_at (t : gpt_table_info_t) (entries : list Z) (i : nat) : Prop :=
  (i < Z.to_nat (entry_count t))%nat /\ gpt_entry_used (entry_at entries i) = true.
Definition first_at (entries : list Z) (i : nat) : Z := entry_first (entry_at entries i).
Definition last_at (entries : list Z) (i : nat) : Z := entry_last (entry_at entries i).

(** The sectors [f] to [l] are usable and belong to no partition. *)
Definition free_range (t : gpt_table_info_t) (entries : list Z) (f l : Z) : Prop :=
  first_usable_lba t <= f <= l /\ l <= last_usable_lba t /\
  forall i, used_at t entries i -> l < first_at entries i \/ last_at entries i < f.

Record sound_entries (t : gpt_table_info_t) (entries : list Z) : Prop := {
  se_range i : used_at t entries i ->
    first_usable_lba t <= first_at entries i <= last_at entries i /\ last_at entries i <= last_usable_lba t;
  se_guid i : used_at t entries i -> guid_is_zero (guid_at (entry_at entries i) 16) = false;
  se_disjoint i j : used_at t entries i -> used_at t entries j -> i <> j ->
    last_at entries i < first_at entries j \/ last_at entries j < first_at entries i;
  se_distinct i j : used_at t entries i -> used_at t entries j -> i <> j ->
    guid_at (entry_at entries i) 16 <> guid_at (entry_at entries j) 16;
}.

Lemma entries_loop_valid entries fu lu n k used r :
  entries_loop entries fu lu n k used = Some r ->
  forall i, (k <= i < k + n)%nat -> gpt_entry_used (entry_at entries i) = true -> entry_valid entries fu lu i = true.
Proof.
  revert k used. induction n as [|n IH]; intros k used; cbn [entries_loop]; [lia|]. intros H i Hi U.
  destruct (decide (i = k)) as [->|Hne].
  - rewrite U in H. cbn [negb] in H. by destruct (entry_valid entries fu lu k).
  - destruct (negb (gpt_entry_used (entry_at entries k))); [apply (IH _ _ H); [lia|done]|].
    destruct (negb (entry_valid entries fu lu k)); [done|]. apply (IH _ _ H); [lia|done].
Qed.

Lemma entry_valid_spec entries fu lu i : entry_valid entries fu lu i = true ->
  guid_is_zero (guid_at (entry_at entries i) 16) = false /\
  fu <= first_at entries i <= last_at entries i /\ last_at entries i <= lu /\
  forall j, (j < i)%nat -> gpt_entry_used (entry_at entries j) = true ->
    guid_at (entry_at entries i) 16 <> guid_at (entry_at entries j) 16 /\
    (last_at entries i < first_at entries j \/ last_at entries j < first_at entries i).
Proof.
  unfold entry_valid, first_at, last_at. intros [H F]%andb_true_iff.
  apply negb_true_iff, orb_false_iff in H as [H H4]. apply orb_false_iff in H as [H H3].
  apply orb_false_iff in H as [H1 H2]. split; [done|]. split; [lia|]. split; [lia|].
  intros j Hj U. rewrite forallb_forall in F. specialize (F j). rewrite in_seq in F.
  assert (negb (entries_clash (entry_at entries i) (entry_at entries j)) = true) as G by (apply F; lia).
  unfold entries_clash in G. rewrite U in G. cbn [andb] in G. apply negb_true_iff, orb_false_iff in G as [G1 G2].
  apply bool_decide_eq_false in G1. split; [done|]. lia.
Qed.

Lemma valid_sound t entries used :
  gpt_entries_valid entries (entry_count t) (first_usable_lba t) (last_usable_lba t) = Some used ->
  sound_entries t entries.
Proof.
  unfold gpt_entries_valid. destruct (_ || _); [done|]. intros H.
  assert (forall i, used_at t entries i -> entry_valid entries (first_usable_lba t) (last_usable_lba t) i = true) as V.
  { intros i [Hi U]. eapply entries_loop_valid; [done|lia|done]. }
  split.
  - intros i U. destruct (entry_valid_spec _ _ _ _ (V i U)) as (_ & ? & ? & _). done.
  - intros i U. by destruct (entry_valid_spec _ _ _ _ (V i U)) as (? & _).
  - intros i j Ui Uj Hij. destruct (decide (i < j)%nat).
    + destruct (entry_valid_spec _ _ _ _ (V j Uj)) as (_ & _ & _ & F). destruct (F i ltac:(lia) (proj2 Ui)). lia.
    + destruct (entry_valid_spec _ _ _ _ (V i Ui)) as (_ & _ & _ & F). by destruct (F j ltac:(lia) (proj2 Uj)).
  - intros i j Ui Uj Hij. destruct (decide (i < j)%nat).
    + destruct (entry_valid_spec _ _ _ _ (V j Uj)) as (_ & _ & _ & F).
      destruct (F i ltac:(lia) (proj2 Ui)) as [G _]. by apply not_eq_sym.
    + destruct (entry_valid_spec _ _ _ _ (V i Ui)) as (_ & _ & _ & F). by destruct (F j ltac:(lia) (proj2 Uj)).
Qed.

(** * The next entry *)

(** The entries of [l] that are used and start at or after [cursor]. *)
Definition ahead (entries : list Z) (cursor : Z) (i : nat) : Prop :=
  gpt_entry_used (entry_at entries i) = true /\ cursor <= first_at entries i.

Lemma nearer_cases entries cursor next k :
  nearer entries cursor next k = next /\ (ahead entries cursor k -> fst next <= first_at entries k) \/
  nearer entries cursor next k = (first_at entries k, last_at entries k) /\ ahead entries cursor k /\
  first_at entries k < fst next.
Proof.
  unfold nearer, ahead, first_at, last_at. destruct (gpt_entry_used (entry_at entries k)); cbn [negb]; [|by left; split; [|intros []]].
  destruct (andb _ _) eqn:C; [right|left]; (split; [done|]); lia.
Qed.

Lemma nearer_spec entries cursor l next :
  let r := fold_left (nearer entries cursor) l next in
  (r = next \/ exists i, i ∈ l /\ ahead entries cursor i /\ r = (first_at entries i, last_at entries i)) /\
  fst r <= fst next /\ forall i, i ∈ l -> ahead entries cursor i -> fst r <= first_at entries i.
Proof.
  revert next. induction l as [|k l IH]; intros next; cbn [fold_left].
  { split; [by left|]. split; [lia|]. intros i Hi. by apply not_elem_of_nil in Hi. }
  destruct (IH (nearer entries cursor next k)) as (E & L & M). cbv zeta.
  destruct (nearer_cases entries cursor next k) as [[N K]|(N & A & K)]; rewrite N in *; cbn [fst] in *.
  - split; [|split; [lia|]].
    + destruct E as [E|(i & Hi & A & E)]; [by left|right; exists i]; rewrite elem_of_cons; auto.
    + intros i [->|Hi]%elem_of_cons A; [specialize (K A); lia|auto].
  - split; [|split; [lia|]].
    + right. destruct E as [E|(i & Hi & A' & E)]; [exists k|exists i]; rewrite elem_of_cons; auto.
    + intros i [->|Hi]%elem_of_cons A'; [lia|auto].
Qed.

Section Walk.
Context (t : gpt_table_info_t) (entries : list Z).
Context (sound : sound_entries t entries).
Context (first_pos : 1 <= first_usable_lba t) (last_u64 : last_usable_lba t < U64_MAX).

(** No entry covers [cursor]. *)
Definition at_gap (cursor : Z) : Prop :=
  first_usable_lba t <= cursor <= last_usable_lba t /\
  forall i, used_at t entries i -> last_at entries i < cursor \/ cursor <= first_at entries i.

(** The end of the gap that starts at [cursor], and the entry after it. *)
Inductive gap_end (cursor : Z) : Z -> Z -> Z -> Prop :=
  | gap_to_the_end :
      (forall i, used_at t entries i -> last_at entries i < cursor) ->
      gap_end cursor (last_usable_lba t + 1) 0 (last_usable_lba t)
  | gap_to_entry i :
      used_at t entries i -> cursor <= first_at entries i ->
      (forall j, used_at t entries j -> cursor <= first_at entries j -> first_at entries i <= first_at entries j) ->
      gap_end cursor (first_at entries i) (last_at entries i) (first_at entries i - 1).

Lemma past_last : u64 (last_usable_lba t + 1) = last_usable_lba t + 1 \/ last_usable_lba t < 0.
Proof. unfold U64_MAX in last_u64. destruct (decide (last_usable_lba t < 0)); [by right|]. left. apply u64_id. unfold is_u64. lia. Qed.

Lemma used_ahead cursor i :
  i ∈ seq 0 (Z.to_nat (entry_count t)) /\ ahead entries cursor i <-> used_at t entries i /\ cursor <= first_at entries i.
Proof. rewrite list_elem_of_In, in_seq. unfold ahead, used_at. intuition lia. Qed.

Lemma next_extent_spec cursor : at_gap cursor ->
  exists nf nl gl, next_extent t entries cursor = (nf, nl) /\ gap_end cursor nf nl gl /\
    (if nf =? u64 (last_usable_lba t + 1) then last_usable_lba t else u64 (nf - 1)) = gl.
Proof.
  intros [R G]. pose proof (nearer_spec entries cursor (seq 0 (Z.to_nat (entry_count t))) (u64 (last_usable_lba t + 1), 0)) as N.
  cbv zeta in N. fold (next_extent t entries cursor) in N. destruct (next_extent t entries cursor) as [nf nl].
  destruct past_last as [P|]; [|lia]. rewrite P in *. cbn [fst] in N. destruct N as (E & L & M).
  assert (forall i, used_at t entries i -> cursor <= first_at entries i -> nf <= first_at entries i) as M'.
  { intros i U C. assert (i ∈ seq 0 (Z.to_nat (entry_count t)) /\ ahead entries cursor i) as [? ?] by by apply used_ahead. auto. }
  exists nf, nl, (if nf =? last_usable_lba t + 1 then last_usable_lba t else u64 (nf - 1)). split; [done|]. split; [|done].
  destruct E as [[= -> ->]|(i & Hi & A & [= -> ->])].
  - rewrite Z.eqb_refl. constructor. intros i U. destruct (G i U) as [|C]; [done|].
    destruct (se_range _ _ sound i U). specialize (M' i U C). lia.
  - assert (used_at t entries i /\ cursor <= first_at entries i) as [U C] by by apply used_ahead.
    destruct (se_range _ _ sound i U). replace (first_at entries i =? last_usable_lba t + 1) with false by lia.
    rewrite u64_id by (unfold is_u64; unfold U64_MAX in *; lia). by constructor.
Qed.

(** A gap is free, and a free range from [cursor] on lies in it or beyond. *)
Lemma gap_free cursor nf nl gl f :
  at_gap cursor -> gap_end cursor nf nl gl -> cursor <= f <= gl -> free_range t entries f gl.
Proof.
  intros [R G] E C. destruct E as [A|i U Ci M].
  - split; [lia|]. split; [lia|]. intros j Uj. right. specialize (A j Uj). lia.
  - destruct (se_range _ _ sound i U). split; [lia|]. split; [lia|]. intros j Uj.
    destruct (G j Uj) as [|Cj]; [right; lia|left]. specialize (M j Uj Cj). lia.
Qed.

Lemma free_in_gap cursor nf nl gl f l :
  at_gap cursor -> gap_end cursor nf nl gl -> free_range t entries f l -> cursor <= f ->
  l <= gl \/ nf <= last_usable_lba t /\ nl < f.
Proof.
  intros [R G] E (Hf & Hl & F) C. destruct E as [A|i U Ci M]; [by left|].
  destruct (se_range _ _ sound i U). destruct (F i U); [left; lia|right; lia].
Qed.

Lemma next_gap cursor nf nl gl :
  at_gap cursor -> gap_end cursor nf nl gl -> nf <> last_usable_lba t + 1 -> nl < last_usable_lba t ->
  at_gap (nl + 1) /\ cursor <= gl + 1 <= nl.
Proof.
  intros [R G] E Hn Hl. destruct E as [A|i U Ci M]; [done|].
  destruct (se_range _ _ sound i U). split; [|lia]. split; [lia|]. intros j Uj.
  destruct (decide (i = j)) as [->|Hij]; [lia|]. destruct (G j Uj) as [|Cj]; [lia|].
  specialize (M j Uj Cj). destruct (se_disjoint _ _ sound i j U Uj Hij); [right; lia|].
  destruct (se_range _ _ sound j Uj). lia.
Qed.

(** The entries that the walk has still to pass. *)
Definition pending (cursor : Z) : list nat :=
  filter (fun i => gpt_entry_used (entry_at entries i) = true /\ cursor <= first_at entries i)
    (seq 0 (Z.to_nat (entry_count t))).

Lemma pending_decreases cursor nf nl gl :
  at_gap cursor -> gap_end cursor nf nl gl -> nf <> last_usable_lba t + 1 ->
  (length (pending (nl + 1)) < length (pending cursor))%nat.
Proof.
  intros [R G] E Hn. destruct E as [A|i U Ci M]; [done|]. destruct (se_range _ _ sound i U).
  assert (pending (last_at entries i + 1) = filter (fun j => last_at entries i + 1 <= first_at entries j) (pending cursor)) as ->.
  { unfold pending. rewrite list_filter_filter. apply list_filter_iff. intros j. lia. }
  apply (length_filter_lt _ _ i); [|lia]. unfold pending. apply list_elem_of_filter.
  assert (i ∈ seq 0 (Z.to_nat (entry_count t)) /\ ahead entries cursor i) as [? [? ?]] by by apply used_ahead.
  done.
Qed.

(** * The search *)

Definition aligned (f : Z) : Prop := f mod 2048 = 0.

Lemma align_up_spec v : 0 <= v ->
  match align_up v 2048 with
  | Some c => v <= c /\ aligned c /\ forall f, v <= f -> aligned f -> c <= f
  | None => forall f, v <= f -> aligned f -> U64_MAX < f
  end.
Proof.
  intros Hv. unfold align_up, add_u64, aligned. cbn [Z.eqb].
  destruct (Z.eqb_spec (v mod 2048) 0) as [E|E]; [split; [lia|]; split; [done|lia]|].
  destruct (Z.ltb_spec (U64_MAX - (2048 - v mod 2048)) v) as [C|C].
  - intros f Hf Ha. Z.div_mod_to_equations. lia.
  - split; [Z.div_mod_to_equations; lia|]. split; [Z.div_mod_to_equations; lia|].
    intros f Hf Ha. Z.div_mod_to_equations. lia.
Qed.

(** A free aligned extent of [n] sectors. *)
Definition fits (n f : Z) : Prop := aligned f /\ free_range t entries f (f + n - 1).

(** The first fit at or after [cursor]. *)
Definition first_fit (n cursor : Z) (best : extent) : Prop :=
  exists f, best = Extent f (f + n - 1) n /\ cursor <= f /\ fits n f /\ forall g, cursor <= g -> fits n g -> f <= g.

Lemma free_range_shrink f l l' : free_range t entries f l -> f <= l' <= l -> free_range t entries f l'.
Proof. intros (A & B & C) H. split; [lia|]. split; [lia|]. intros i U. destruct (C i U); lia. Qed.

Lemma try_gap_fit n cursor nf nl gl best :
  at_gap cursor -> gap_end cursor nf nl gl -> 1 <= n -> n <= U64_MAX ->
  match try_gap 2048 n false cursor gl best with
  | (b, true) => first_fit n cursor b
  | (b, false) => b = best /\ forall g, cursor <= g -> fits n g -> nf <= last_usable_lba t /\ nl < g
  end.
Proof.
  intros A E N1 N2. pose proof A as [R _].
  assert (gl <= last_usable_lba t) as Hgl.
  { destruct E as [|i U]; [lia|]. destruct (se_range _ _ sound i U). lia. }
  unfold try_gap. pose proof (align_up_spec cursor ltac:(lia)) as S.
  assert (forall g, cursor <= g -> fits n g -> g + n - 1 <= gl \/ nf <= last_usable_lba t /\ nl < g) as K.
  { intros g Hg [_ Hf]. by eapply free_in_gap. }
  destruct (align_up cursor 2048) as [c|].
  - destruct S as (C1 & C2 & C3). destruct (Z.leb_spec c gl) as [Hc|Hc].
    + rewrite (u64_id (gl - c + 1)) by (unfold is_u64; unfold U64_MAX in *; lia).
      destruct (Z.leb_spec n (gl - c + 1)) as [Hn|Hn].
      * rewrite u64_id by (unfold is_u64; unfold U64_MAX in *; lia).
        exists c. split; [done|]. split; [lia|]. split; [|intros g Hg [Ha _]; auto].
        split; [done|]. eapply free_range_shrink; [by eapply gap_free|lia].
      * split; [done|]. intros g Hg Hf. pose proof Hf as [Ha _]. specialize (C3 g Hg Ha). destruct (K g Hg Hf); [lia|done].
    + split; [done|]. intros g Hg Hf. pose proof Hf as [Ha (? & _)]. specialize (C3 g Hg Ha). destruct (K g Hg Hf); [lia|done].
  - split; [done|]. intros g Hg Hf. pose proof Hf as [Ha (? & ? & _)]. specialize (S g Hg Ha). lia.
Qed.

Lemma gap_loop_fit fuel n cursor best :
  at_gap cursor -> 1 <= n -> n <= U64_MAX -> (length (pending cursor) < fuel)%nat ->
  exists r, gap_loop fuel t entries 2048 n false cursor best = Some r /\
    (first_fit n cursor r \/ r = best /\ forall g, cursor <= g -> ~ fits n g).
Proof.
  revert cursor best. induction fuel as [|fuel IH]; intros cursor best A N1 N2 F; [lia|]. cbn [gap_loop].
  destruct (next_extent_spec cursor A) as (nf & nl & gl & -> & E & ->).
  pose proof (try_gap_fit n cursor nf nl gl best A E N1 N2) as T.
  destruct (try_gap 2048 n false cursor gl best) as [b [|]]; [exists b; auto|]. destruct T as [-> T].
  destruct past_last as [P|]; [|destruct A; lia]. rewrite P.
  destruct (Z.eqb_spec nf (last_usable_lba t + 1)) as [Hn|Hn]; cbn [orb].
  { exists best. split; [done|]. right. split; [done|]. intros g Hg Hf. specialize (T g Hg Hf). lia. }
  destruct (Z.leb_spec (last_usable_lba t) nl) as [Hl|Hl].
  { exists best. split; [done|]. right. split; [done|]. intros g Hg Hf. destruct (T g Hg Hf).
    destruct Hf as [_ (? & ? & _)]. lia. }
  destruct (next_gap cursor nf nl gl A E Hn Hl) as [A' C].
  rewrite u64_id by (unfold is_u64; unfold U64_MAX in *; destruct A; lia).
  destruct (IH (nl + 1) best A' N1 N2) as (r & -> & D); [pose proof (pending_decreases cursor nf nl gl A E Hn); lia|].
  exists r. split; [done|]. destruct D as [(f & -> & Hc & Hf & M)|[-> M]]; [left|right].
  - exists f. split; [done|]. split; [lia|]. split; [done|]. intros g Hg G. apply M; [|done]. destruct (T g Hg G). lia.
  - split; [done|]. intros g Hg G. destruct (T g Hg G). apply (M g); [lia|done].
Qed.

(** A free aligned extent with its size. *)
Definition free_extent (e : extent) : Prop :=
  aligned (best_first e) /\ free_range t entries (best_first e) (best_last e) /\
  best_size e = best_last e - best_first e + 1.

Lemma try_gap_rest n cursor nf nl gl best :
  at_gap cursor -> gap_end cursor nf nl gl -> 0 <= best_size best ->
  exists b, try_gap 2048 n true cursor gl best = (b, false) /\
    best_size best <= best_size b /\ (b = best \/ free_extent b) /\
    forall f l, cursor <= f -> aligned f -> free_range t entries f l ->
      l - f + 1 <= best_size b \/ nf <= last_usable_lba t /\ nl < f.
Proof.
  intros A E B0. pose proof A as [R _].
  assert (gl <= last_usable_lba t) as Hgl.
  { destruct E as [|i U]; [lia|]. destruct (se_range _ _ sound i U). lia. }
  unfold try_gap. pose proof (align_up_spec cursor ltac:(lia)) as S.
  assert (forall f l, cursor <= f -> free_range t entries f l -> l <= gl \/ nf <= last_usable_lba t /\ nl < f) as K.
  { intros f l Hf Hr. by eapply free_in_gap. }
  destruct (align_up cursor 2048) as [c|].
  - destruct S as (C1 & C2 & C3). destruct (Z.leb_spec c gl) as [Hc|Hc].
    + rewrite (u64_id (gl - c + 1)) by (unfold is_u64; unfold U64_MAX in *; lia).
      destruct (Z.ltb_spec (best_size best) (gl - c + 1)) as [Hn|Hn].
      * eexists. split; [done|]. cbn [best_size]. split; [lia|]. split.
        -- right. split; [done|]. split; [by eapply gap_free|done].
        -- intros f l Hf Ha Hr. specialize (C3 f Hf Ha). destruct (K f l Hf Hr); [left; lia|by right].
      * eexists. split; [done|]. split; [lia|]. split; [by left|].
        intros f l Hf Ha Hr. specialize (C3 f Hf Ha). destruct (K f l Hf Hr); [left; lia|by right].
    + eexists. split; [done|]. split; [lia|]. split; [by left|].
      intros f l Hf Ha Hr. specialize (C3 f Hf Ha). destruct (K f l Hf Hr); [left; lia|by right].
  - eexists. split; [done|]. split; [lia|]. split; [by left|].
    intros f l Hf Ha (? & ? & _). specialize (S f Hf Ha). lia.
Qed.

Lemma gap_loop_rest fuel n cursor best :
  at_gap cursor -> 0 <= best_size best -> (length (pending cursor) < fuel)%nat ->
  exists r, gap_loop fuel t entries 2048 n true cursor best = Some r /\
    best_size best <= best_size r /\ (r = best \/ free_extent r) /\
    forall f l, cursor <= f -> aligned f -> free_range t entries f l -> l - f + 1 <= best_size r.
Proof.
  revert cursor best. induction fuel as [|fuel IH]; intros cursor best A B0 F; [lia|]. cbn [gap_loop].
  destruct (next_extent_spec cursor A) as (nf & nl & gl & -> & E & ->).
  destruct (try_gap_rest n cursor nf nl gl best A E B0) as (b & -> & Bb & Eb & T).
  destruct past_last as [P|]; [|destruct A; lia]. rewrite P.
  destruct (Z.eqb_spec nf (last_usable_lba t + 1)) as [Hn|Hn]; cbn [orb].
  { exists b. split; [done|]. split; [done|]. split; [done|]. intros f l Hf Ha Hr. destruct (T f l Hf Ha Hr); lia. }
  destruct (Z.leb_spec (last_usable_lba t) nl) as [Hl|Hl].
  { exists b. split; [done|]. split; [done|]. split; [done|]. intros f l Hf Ha Hr.
    destruct (T f l Hf Ha Hr); [done|]. destruct Hr as (? & ? & _). lia. }
  destruct (next_gap cursor nf nl gl A E Hn Hl) as [A' C].
  rewrite u64_id by (unfold is_u64; unfold U64_MAX in *; destruct A; lia).
  destruct (IH (nl + 1) b A') as (r & -> & Br & Er & D); [lia|pose proof (pending_decreases cursor nf nl gl A E Hn); lia|].
  exists r. split; [done|]. split; [lia|]. split; [destruct Er as [->|]; auto|].
  intros f l Hf Ha Hr. destruct (T f l Hf Ha Hr); [lia|]. apply D; [lia|done|done].
Qed.

Lemma start_at_gap : first_usable_lba t <= last_usable_lba t -> at_gap (first_usable_lba t).
Proof. intros H. split; [lia|]. intros i U. destruct (se_range _ _ sound i U). lia. Qed.

Lemma pending_bound cursor : (length (pending cursor) < S (Z.to_nat (entry_count t)))%nat.
Proof.
  unfold pending.
  pose proof (length_filter (fun i => gpt_entry_used (entry_at entries i) = true /\ cursor <= first_at entries i)
                (seq 0 (Z.to_nat (entry_count t)))) as L. rewrite length_seq in L. lia.
Qed.

End Walk.

(** * The planner *)

(** The lowest unused entry. *)
Lemma free_entry_spec t entries :
  match free_entry t entries with
  | Some i => (i < Z.to_nat (entry_count t))%nat /\ gpt_entry_used (entry_at entries i) = false /\
      forall j, (j < i)%nat -> gpt_entry_used (entry_at entries j) = true
  | None => forall i, (i < Z.to_nat (entry_count t))%nat -> gpt_entry_used (entry_at entries i) = true
  end.
Proof.
  unfold free_entry.
  assert (forall n k, match head (filter (fun i => negb (gpt_entry_used (entry_at entries i))) (seq k n)) with
    | Some i => (k <= i < k + n)%nat /\ gpt_entry_used (entry_at entries i) = false /\
        forall j, (k <= j < i)%nat -> gpt_entry_used (entry_at entries j) = true
    | None => forall i, (k <= i < k + n)%nat -> gpt_entry_used (entry_at entries i) = true end) as K.
  { induction n as [|n IH]; intros k; [cbn; lia|]. cbn [seq]. rewrite filter_cons.
    destruct (gpt_entry_used (entry_at entries k)) eqn:U; cbn [negb].
    - rewrite decide_False by (by intros []). specialize (IH (S k)). destruct (head _) as [i|].
      + destruct IH as (Hi & Hu & Hj). split; [lia|]. split; [done|]. intros j Hj'.
        destruct (decide (j = k)) as [->|]; [done|apply Hj; lia].
      + intros i Hi. destruct (decide (i = k)) as [->|]; [done|apply IH; lia].
    - rewrite decide_True by done. cbn [head]. split; [lia|]. split; [done|]. lia. }
  specialize (K (Z.to_nat (entry_count t)) 0%nat). destruct (head _) as [i|].
  - destruct K as (? & ? & K). split; [lia|]. split; [done|]. intros j Hj. apply K. lia.
  - intros i Hi. apply K. lia.
Qed.

(** The extent that the search of the planner ends with. *)
Definition search_result (t : gpt_table_info_t) (entries : list Z) (sectors : Z) (use_rest : bool) (r : extent) : Prop :=
  if use_rest
  then (r = no_extent \/ free_extent t entries r) /\
       forall f l, aligned f -> free_range t entries f l -> l - f + 1 <= best_size r
  else first_fit t entries sectors (first_usable_lba t) r \/ r = no_extent /\ forall f, ~ fits t entries sectors f.

Lemma search_spec t entries sectors (use_rest : bool) :
  sound_entries t entries -> 1 <= first_usable_lba t <= last_usable_lba t -> last_usable_lba t < U64_MAX ->
  use_rest = true \/ 1 <= sectors <= U64_MAX ->
  exists r, gap_loop (S (Z.to_nat (entry_count t))) t entries 2048 sectors use_rest (first_usable_lba t) no_extent = Some r /\
    search_result t entries sectors use_rest r.
Proof.
  intros S [H1 H2] H3 H4. pose proof (start_at_gap t entries S H2) as A.
  pose proof (pending_bound t entries (first_usable_lba t)) as P. destruct use_rest.
  - destruct (gap_loop_rest t entries S H1 H3 _ sectors _ no_extent A ltac:(done) P) as (r & -> & _ & E & M).
    exists r. split; [done|]. split; [done|]. intros f l Ha Hr. pose proof Hr as (? & _). apply (M f l); [lia|done|done].
  - destruct H4 as [|H4]; [done|].
    destruct (gap_loop_fit t entries S H1 H3 _ sectors _ no_extent A ltac:(lia) ltac:(lia) P) as (r & -> & D).
    exists r. split; [done|]. destruct D as [|[-> M]]; [by left|]. right. split; [done|].
    intros f F. pose proof F as [_ (? & _)]. apply (M f); [lia|done].
Qed.

(** What an answer of the planner means. *)
Definition plan_answers (t : gpt_table_info_t) (entries : list Z) (requested_bytes : Z) (use_rest : bool)
    (p : gpt_partition_plan_t) : Prop :=
  aligned (first_lba p) /\ free_range t entries (first_lba p) (last_lba p) /\
  size_bytes p = 512 * (last_lba p - first_lba p + 1) /\
  1 <= partition_number p <= entry_count t /\
  gpt_entry_used (entry_at entries (Z.to_nat (partition_number p - 1))) = false /\
  (forall j, (j < Z.to_nat (partition_number p - 1))%nat -> gpt_entry_used (entry_at entries j) = true) /\
  if use_rest
  then forall f l, aligned f -> free_range t entries f l -> l - f + 1 <= last_lba p - first_lba p + 1
  else last_lba p - first_lba p + 1 = requested_bytes / 512 /\
       forall f, fits t entries (requested_bytes / 512) f -> first_lba p <= f.

(** What it means that there is none. *)
Definition plan_impossible (t : gpt_table_info_t) (entries : list Z) (requested_bytes : Z) (use_rest : bool) : Prop :=
  use_rest = false /\ (requested_bytes < 512 \/ U64_MAX - 511 < requested_bytes) \/
  (forall i, (i < Z.to_nat (entry_count t))%nat -> gpt_entry_used (entry_at entries i) = true) \/
  if use_rest then forall f l, aligned f -> ~ free_range t entries f l
  else forall f, ~ fits t entries (requested_bytes / 512) f.

Lemma free_range_size t entries f l : free_range t entries f l -> 0 <= first_usable_lba t ->
  f <= l /\ first_usable_lba t <= f /\ l <= last_usable_lba t.
Proof. intros (? & ? & _) ?. lia. Qed.

Lemma multiply_512 n : 0 <= n < 2 ^ 55 -> multiply_u64 (u64 n) 512 = Some (n * 512).
Proof.
  intros H. rewrite u64_id by (unfold is_u64; lia). unfold multiply_u64.
  destruct (Z.eqb_spec n 0) as [->|Hn]; cbn [negb andb]; [done|].
  replace (U64_MAX / n <? 512) with false; [done|]. symmetry. apply Z.ltb_ge.
  apply Z.div_le_lower_bound; unfold U64_MAX; lia.
Qed.

Lemma plan_found t entries requested_bytes (use_rest : bool) r i :
  1 <= first_usable_lba t -> last_usable_lba t < 2 ^ 55 ->
  search_result t entries (if use_rest then 0 else requested_bytes / 512) use_rest r ->
  best_size r <> 0 -> free_entry t entries = Some i ->
  multiply_u64 (u64 (best_last r - best_first r + 1)) 512 = Some ((best_last r - best_first r + 1) * 512) /\
  best_first r <= best_last r /\
  plan_answers t entries requested_bytes use_rest
    (Plan (best_first r) (best_last r) ((best_last r - best_first r + 1) * 512) (Z.of_nat i + 1)).
Proof.
  intros H1 H2 S Hs Hi. pose proof (free_entry_spec t entries) as F. rewrite Hi in F. destruct F as (F1 & F2 & F3).
  assert (aligned (best_first r) /\ free_range t entries (best_first r) (best_last r) /\
    if use_rest then forall f l, aligned f -> free_range t entries f l -> l - f + 1 <= best_last r - best_first r + 1
    else best_last r - best_first r + 1 = requested_bytes / 512 /\
         forall f, fits t entries (requested_bytes / 512) f -> best_first r <= f) as (A & R & X).
  { unfold search_result in S. destruct use_rest; cbv iota in S |- *.
    - destruct S as [[->|(A & R & Z)] M]; [done|]. rewrite Z in M. done.
    - destruct S as [(f & -> & Hf & [A R] & M)|[-> _]]; [|done]. cbn [best_first best_last best_size].
      split; [done|]. split; [done|]. split; [lia|]. intros g G. apply M; [|done]. destruct G as [_ (? & _)]. lia. }
  destruct (free_range_size _ _ _ _ R ltac:(lia)) as (L1 & L2 & L3).
  split; [apply multiply_512; lia|]. split; [done|].
  unfold plan_answers. cbn [first_lba last_lba size_bytes partition_number].
  replace (Z.to_nat (Z.of_nat i + 1 - 1)) with i by lia.
  split; [done|]. split; [done|]. split; [lia|]. split; [lia|]. done.
Qed.

(** C38: On every validated table the planner returns.  A plan is an extent of
    usable sectors that starts on a mebibyte, overlaps no partition, and takes
    the lowest unused entry; it has exactly the requested whole sectors and is
    the lowest extent that does, or is the largest extent there is.  Without a
    plan the request is below a sector or too large, all entries are used, or
    there is no such extent. *)
Theorem plan_partition_correct t entries used requested_bytes use_rest :
  gpt_entries_valid entries (entry_count t) (first_usable_lba t) (last_usable_lba t) = Some used ->
  1 <= first_usable_lba t -> last_usable_lba t < 2 ^ 55 -> is_u64 requested_bytes ->
  exists answer, plan_from_entries t entries 512 requested_bytes use_rest = Some answer /\
    match answer with
    | Some p => plan_answers t entries requested_bytes use_rest p
    | None => plan_impossible t entries requested_bytes use_rest
    end.
Proof.
  intros V H1 H2 H3. assert (first_usable_lba t <= last_usable_lba t) as H4.
  { unfold gpt_entries_valid in V. destruct (_ || _) eqn:E in V; [done|]. lia. }
  apply valid_sound in V. unfold plan_from_entries. change (alignment_sectors 512) with 2048.
  change (512 =? 512) with true. change (2048 =? 0) with false. cbn [negb]. cbv zeta iota.
  match goal with |- context [if ?b then Some None else _] => destruct b eqn:B end.
  { exists None. split; [done|]. left. unfold is_u64 in H3. destruct use_rest; [done|]. cbn [negb andb] in B. split; [done|].
    destruct (Z.eqb_spec (requested_bytes / 512) 0); Z.div_mod_to_equations; lia. }
  assert (use_rest = true \/ 1 <= requested_bytes / 512 <= U64_MAX) as H5.
  { destruct use_rest; [by left|right]. cbn [negb andb] in B. unfold is_u64 in H3. unfold U64_MAX in *.
    Z.div_mod_to_equations. lia. }
  destruct (search_spec t entries (if use_rest then 0 else requested_bytes / 512) use_rest V) as (r & -> & S);
    [lia|unfold U64_MAX; lia|destruct use_rest; [by left|by destruct H5; [|right]]|]. cbn [mbind option_bind].
  destruct (Z.eqb_spec (best_size r) 0) as [Hz|Hz]; cbn [orb].
  { exists None. split; [done|]. right; right. unfold search_result in S. destruct use_rest; cbv iota in S |- *.
    - destruct S as [_ M]. intros f l A R. specialize (M f l A R). destruct (free_range_size _ _ _ _ R); lia.
    - destruct S as [(f & -> & _)|[_ M]]; [|done]. cbn in Hz. lia. }
  destruct (free_entry t entries) as [i|] eqn:Hi.
  - destruct (plan_found t entries requested_bytes use_rest r i H1 H2 S Hz Hi) as (M & L & P).
    replace (best_last r <? best_first r) with false by lia. rewrite M. by eexists.
  - pose proof (free_entry_spec t entries) as F. rewrite Hi in F.
    exists None. split; [by destruct (best_last r <? best_first r)|]. right; left. done.
Qed.

(** A table of four entries with one partition from 2048 to 4095. *)
Definition plan_table : gpt_table_info_t := TableInfo GPT_TABLE_VALID 1 4 128 34 1000000.
Definition plan_entries : list Z :=
  mangrove_data_type_guid ++ replicate 16 9 ++ le_bytes 8 2048 ++ le_bytes 8 4095 ++ replicate 464 0.

Lemma plan_partition_correct_witness :
  plan_from_entries plan_table plan_entries 512 (1024 * 1024) false = Some (Some (Plan 4096 6143 1048576 2)) /\
  plan_answers plan_table plan_entries (1024 * 1024) false (Plan 4096 6143 1048576 2).
Proof.
  assert (plan_from_entries plan_table plan_entries 512 (1024 * 1024) false = Some (Some (Plan 4096 6143 1048576 2))) as E
    by (vm_compute; reflexivity).
  split; [exact E|].
  destruct (plan_partition_correct plan_table plan_entries 1 (1024 * 1024) false ltac:(vm_compute; reflexivity)
    ltac:(cbn; lia) ltac:(cbn; lia) ltac:(unfold is_u64; lia)) as (answer & E' & H).
  rewrite E in E'. injection E' as <-. exact H.
Defined.

End GptPlan.
