(* ===== verification/Gpt.v ===== *)
(** Reading and writing GUID partition tables: [gpt_load], [gpt_get_table_info],
    [gpt_plan_partition] and the update of both copies of the table in
    [kernel/src/storage/gpt.c], over the block layer as an interface. *)
From stdpp Require Import base list numbers.
From S2P Require Import Prelude GptTable GptPlan.
Import GptTable GptPlan.

Module Gpt.

Definition VFS_OK : Z := 0.
Definition VFS_ERR_INVALID_PARAM : Z := -1.
Definition VFS_ERR_NOT_FOUND : Z := -2.
Definition VFS_ERR_IO : Z := -3.
Definition VFS_ERR_BAD_FORMAT : Z := -5.
Definition VFS_ERR_UNSUPPORTED : Z := -6.
Definition VFS_ERR_BUSY : Z := -10.
Definition VFS_ERR_NO_SPACE : Z := -12.

Inductive block_device_type_t :=
  BLOCK_DEVICE_SATA | BLOCK_DEVICE_NVME | BLOCK_DEVICE_USB | BLOCK_DEVICE_RAM | BLOCK_DEVICE_PARTITION.
#[export] Instance block_device_type_eq_dec : EqDecision block_device_type_t.
Proof. solve_decision. Defined.

(** The fields of [struct block_device] that are used here. *)
Record block_device := Device { device_type : block_device_type_t; sector_size : Z; sector_count : Z }.

(** The calls of [kernel/src/block.c] on one device: a read gives the bytes of
    the sectors, a write and a flush say whether they succeeded. *)
Class BlockIo (D : Type) := {
  block_device_is_live : D -> bool;
  block_probe_read : D -> Z -> Z -> option (list Z) * D;
  block_write : D -> Z -> Z -> list Z -> bool * D;
  block_flush : D -> bool * D;
}.

(** The device and the two static buffers for the entries. *)
Record work (D : Type) := Work { disk : D; primary_entries : list Z; backup_entries : list Z }.
Arguments Work {D}. Arguments disk {D}. Arguments primary_entries {D}. Arguments backup_entries {D}.

Section Operations.
Context {D : Type} {io : BlockIo D} (device : block_device).

Definition out_of_range (lba count : Z) : bool :=
  (count =? 0) || (sector_count device <? lba) || (sector_count device - lba <? count).
Definition gpt_read (d : D) (lba count : Z) : option (list Z) * D :=
  if out_of_range lba count then (None, d) else block_probe_read d lba count.
Definition gpt_write (d : D) (lba count : Z) (buffer : list Z) : bool * D :=
  if negb (block_device_is_live d) || out_of_range lba count then (false, d) else block_write d lba count buffer.

(** * Loading *)

(** The comparison of the two headers with each other and with the disk. *)
Definition headers_agree (p b : header_t) : bool :=
  let last_sector := sector_count device - 1 in
  negb (negb (h_count p =? h_count b) || negb (h_size p =? h_size b) || negb (h_first p =? h_first b) ||
        negb (h_last p =? h_last b) || negb (h_sectors p =? h_sectors b) || negb (h_crc p =? h_crc b) ||
        negb (bool_decide (h_guid p = h_guid b)) ||
        (h_entries_lba p <? GPT_PRIMARY_ENTRIES_LBA) || (h_first p <? h_entries_lba p) ||
        (h_first p - h_entries_lba p <? h_sectors p) || (last_sector <? h_entries_lba b) ||
        (last_sector - h_entries_lba b <? h_sectors p) || negb (h_entries_lba b + h_sectors p =? last_sector) ||
        (h_last p <? h_first p) || (h_last b <? h_first b) || (h_entries_lba b <=? h_last b)).

Definition load_headers (mbr primary backup : list Z) : Z + header_t * header_t :=
  let last_sector := sector_count device - 1 in
  if negb (gpt_signature primary)
  then inl (if mbr_has_partition mbr then VFS_ERR_UNSUPPORTED else VFS_ERR_NOT_FOUND)
  else if negb (mbr_is_protective mbr) || negb (gpt_signature backup) then inl VFS_ERR_BAD_FORMAT
  else
    match gpt_header_valid primary 1 last_sector (sector_count device),
          gpt_header_valid backup last_sector 1 (sector_count device) with
    | Some p, Some b => if headers_agree p b then inr (p, b) else inl VFS_ERR_BAD_FORMAT
    | _, _ => inl VFS_ERR_BAD_FORMAT
    end.

(** The check of the two arrays, and the table. *)
Definition check_entries (p b : header_t) (primary backup : list Z) : Z + gpt_table_t :=
  let bytes := Z.to_nat (h_count p * h_size p) in
  if negb (crc32 primary bytes None =? h_crc p) || negb (crc32 backup (Z.to_nat (h_count b * h_size b)) None =? h_crc b) ||
     negb (bool_decide (take bytes primary = take bytes backup))
  then inl VFS_ERR_BAD_FORMAT
  else
    match gpt_entries_valid primary (h_count p) (h_first p) (h_last p) with
    | None => inl VFS_ERR_BAD_FORMAT
    | Some used =>
        inr (Table (TableInfo GPT_TABLE_VALID used (h_count p) (h_size p) (h_first p) (h_last p))
                   (h_entries_lba p) (h_entries_lba b) (h_sectors p) (h_guid p))
    end.

Definition load_entries (w : work D) (p b : header_t) : (Z + gpt_table_t) * work D :=
  match gpt_read (disk w) (h_entries_lba p) (h_sectors p) with
  | (None, d) => (inl VFS_ERR_IO, Work d (primary_entries w) (backup_entries w))
  | (Some bytes, d) =>
      let primary := poke (primary_entries w) 0 bytes in
      match gpt_read d (h_entries_lba b) (h_sectors p) with
      | (None, d) => (inl VFS_ERR_IO, Work d primary (backup_entries w))
      | (Some bytes, d) =>
          let backup := poke (backup_entries w) 0 bytes in
          (check_entries p b primary backup, Work d primary backup)
      end
  end.

Definition with_disk (w : work D) (d : D) : work D := Work d (primary_entries w) (backup_entries w).

Definition gpt_load (w : work D) : (Z + gpt_table_t) * work D :=
  if bool_decide (device_type device = BLOCK_DEVICE_PARTITION) || negb (sector_size device =? GPT_SECTOR_BYTES) ||
     (sector_count device <? GPT_MIN_SECTORS)
  then (inl VFS_ERR_UNSUPPORTED, w)
  else
    match gpt_read (disk w) 0 1 with
    | (None, d) => (inl VFS_ERR_IO, with_disk w d)
    | (Some mbr, d) =>
        match gpt_read d GPT_PRIMARY_HEADER_LBA 1 with
        | (None, d) => (inl VFS_ERR_IO, with_disk w d)
        | (Some primary, d) =>
            match gpt_read d (sector_count device - 1) 1 with
            | (None, d) => (inl VFS_ERR_IO, with_disk w d)
            | (Some backup, d) =>
                match load_headers mbr primary backup with
                | inl error => (inl error, with_disk w d)
                | inr (p, b) => load_entries (with_disk w d) p b
                end
            end
        end
    end.

Definition no_table (type : gpt_table_type_t) : gpt_table_info_t := TableInfo type 0 0 0 0 0.

Definition gpt_get_table_info (w : work D) : (Z + gpt_table_info_t) * work D :=
  match gpt_load w with
  | (inr t, w) => (inr (info t), w)
  | (inl error, w) =>
      if error =? VFS_ERR_IO then (inl error, w)
      else if negb (sector_size device =? GPT_SECTOR_BYTES) || (sector_count device <? 2) then (inl VFS_ERR_IO, w)
      else
        match gpt_read (disk w) 0 1 with
        | (None, d) => (inl VFS_ERR_IO, with_disk w d)
        | (Some mbr, d) =>
            match gpt_read d 1 1 with
            | (None, d) => (inl VFS_ERR_IO, with_disk w d)
            | (Some primary, d) =>
                (inr (no_table (if gpt_signature primary then GPT_TABLE_CORRUPT
                                else if mbr_has_partition mbr then GPT_TABLE_MBR else GPT_TABLE_NONE)), with_disk w d)
            end
        end
  end.

(** [busy] is the answer of [storage_mutation_busy]. *)
Definition gpt_plan_partition (busy : bool) (w : work D) (requested_bytes : Z) (use_rest : bool)
    : option ((Z + gpt_partition_plan_t) * work D) :=
  if bool_decide (device_type device = BLOCK_DEVICE_PARTITION) then Some (inl VFS_ERR_INVALID_PARAM, w)
  else if busy then Some (inl VFS_ERR_BUSY, w)
  else
    match gpt_load w with
    | (inl error, w) => Some (inl error, w)
    | (inr t, w) =>
        if negb use_rest && (requested_bytes =? 0) then Some (inl VFS_ERR_INVALID_PARAM, w)
        else
          answer ← plan_from_entries (info t) (primary_entries w) (sector_size device) requested_bytes use_rest;
          Some (match answer with Some p => inr p | None => inl VFS_ERR_NO_SPACE end, w)
    end.

(** * Writing *)

Definition put_header (t : gpt_table_t) (backup : bool) (array_crc : Z) : list Z :=
  let other_lba := u64 (backup_entries_lba t + array_sectors t) in
  let current := if backup then other_lba else GPT_PRIMARY_HEADER_LBA in
  let other := if backup then GPT_PRIMARY_HEADER_LBA else other_lba in
  let entries := if backup then backup_entries_lba t else primary_entries_lba t in
  let h := poke (replicate 512 0) 0 signature in
  let h := store_le32 h 8 0x00010000 in
  let h := store_le32 h 12 GPT_HEADER_BYTES in
  let h := store_le64 h 24 current in
  let h := store_le64 h 32 other in
  let h := store_le64 h 40 (first_usable_lba (info t)) in
  let h := store_le64 h 48 (last_usable_lba (info t)) in
  let h := poke h 56 (disk_guid t) in
  let h := store_le64 h 72 entries in
  let h := store_le32 h 80 (entry_count (info t)) in
  let h := store_le32 h 84 (entry_size (info t)) in
  store_le32 h 88 array_crc.
Definition gpt_make_header (t : gpt_table_t) (backup : bool) (array_crc : Z) : list Z :=
  let h := put_header t backup array_crc in
  store_le32 h 16 (crc32 h (Z.to_nat GPT_HEADER_BYTES) (Some 16%nat)).

(** The steps of an update, in the order of the source; each is a write or a
    flush, and the first that fails ends it. *)
Inductive disk_step := DoWrite (lba count : Z) (buffer : list Z) | DoFlush.
Definition do_step (d : D) (s : disk_step) : bool * D :=
  match s with DoWrite lba count buffer => gpt_write d lba count buffer | DoFlush => block_flush d end.
Fixpoint do_steps (d : D) (l : list disk_step) : bool * D :=
  match l with
  | [] => (true, d)
  | s :: l => match do_step d s with (true, d) => do_steps d l | (false, d) => (false, d) end
  end.

Definition update_steps (t : gpt_table_t) (entries : list Z) : list disk_step :=
  let array_crc := crc32 entries (Z.to_nat (u32 (entry_count (info t) * entry_size (info t)))) None in
  [DoWrite (backup_entries_lba t) (array_sectors t) entries;
   DoWrite (sector_count device - 1) 1 (gpt_make_header t true array_crc);
   DoFlush;
   DoWrite (primary_entries_lba t) (array_sectors t) entries;
   DoWrite GPT_PRIMARY_HEADER_LBA 1 (gpt_make_header t false array_crc);
   DoFlush].

Definition gpt_write_updated (w : work D) (t : gpt_table_t) : bool * work D :=
  if (GPT_MAX_PARTITION_ENTRIES <? entry_count (info t)) || negb (entry_size (info t) =? GPT_PARTITION_ENTRY_BYTES) ||
     (array_sectors t =? 0) || (GPT_ENTRY_ARRAY_SECTORS <? array_sectors t)
  then (false, w)
  else
    match do_steps (disk w) (update_steps t (primary_entries w)) with
    | (true, d) => (block_device_is_live d, with_disk w d)
    | (false, d) => (false, with_disk w d)
    end.

Definition protective_mbr : list Z :=
  let mbr := <[(446 + 4)%nat := 0xee]> (replicate 512 0) in
  let mbr := poke mbr (446 + 1) (replicate 3 0xff) in
  let mbr := poke mbr (446 + 5) (replicate 3 0xff) in
  let mbr := store_le32 mbr (446 + 8) 1 in
  let count := u64 (sector_count device - 1) in
  let count := if 0xffffffff <? count then 0xffffffff else count in
  let mbr := store_le32 mbr (446 + 12) count in
  <[511%nat := 0xaa]> (<[510%nat := 0x55]> mbr).
Definition gpt_write_protective_mbr (d : D) : bool * D := gpt_write d 0 1 protective_mbr.

End Operations.

End Gpt.
