(* ===== verification/GptTheorems.v ===== *)
(** What a loaded partition table guarantees, that an update is read back, and
    what an interrupted update leaves. *)
From stdpp Require Import base list numbers.
From S2P Require Import Prelude GptTable GptPlan Gpt.
Import GptTable GptPlan Gpt.

Module GptTheorems.

(** * Bytes at offsets *)

Lemma byte_poke_in p off bs i :
  (off <= i < off + length bs)%nat -> (off + length bs <= length p)%nat ->
  byte (poke p off bs) i = byte bs (i - off).
Proof. intros H L. unfold byte, poke. by rewrite list_lookup_inserts by lia. Qed.

Lemma byte_poke_out p off bs i : (i < off \/ off + length bs <= i)%nat -> byte (poke p off bs) i = byte p i.
Proof.
  intros [H|H]; unfold byte, poke; [by rewrite list_lookup_inserts_lt|by rewrite list_lookup_inserts_ge].
Qed.

Lemma length_poke p off bs : length (poke p off bs) = length p.
Proof. apply length_inserts. Qed.

Lemma length_le_bytes n v : length (le_bytes n v) = n.
Proof. unfold le_bytes. by rewrite length_fmap, length_seq. Qed.

Lemma byte_le_bytes n v i : (i < n)%nat -> byte (le_bytes n v) i = u8 (Z.shiftr v (8 * Z.of_nat i)).
Proof. intros H. unfold byte, le_bytes. rewrite list_lookup_fmap, lookup_seq_lt by lia. done. Qed.

(** The value of the first [n] bytes, as the loops of the source compute it. *)
Definition le_fold (p : list Z) (off n : nat) : Z :=
  fold_left (fun value index => Z.lor value (Z.shiftl (byte p (off + index)) (8 * Z.of_nat index))) (seq 0 n) 0.

Lemma le_fold_S p off n :
  le_fold p off (S n) = Z.lor (le_fold p off n) (Z.shiftl (byte p (off + n)) (8 * Z.of_nat n)).
Proof. unfold le_fold. rewrite seq_S, fold_left_app. done. Qed.

Lemma le_fold_value p off n v :
  (forall i, (i < n)%nat -> byte p (off + i) = u8 (Z.shiftr v (8 * Z.of_nat i))) ->
  le_fold p off n = v mod 2 ^ (8 * Z.of_nat n).
Proof.
  induction n as [|n IH]; intros H; [cbn; by rewrite Z.mod_1_r|].
  rewrite le_fold_S, IH, H by (intros; try apply H; lia). rewrite Z.lor_comm, lor_shiftl_add;
    [|lia|apply Z.mod_pos_bound; lia].
  rewrite Z.shiftr_div_pow2 by lia. unfold u8.
  replace (8 * Z.of_nat (S n)) with (8 * Z.of_nat n + 8) by lia. rewrite Z.pow_add_r by lia.
  rewrite Z.rem_mul_r by lia. change (2 ^ 8) with 256. lia.
Qed.

Lemma le64_fold p off : le64 p off = le_fold p off 8.
Proof. done. Qed.
Lemma le32_fold p off : le32 p off = le_fold p off 4.
Proof. unfold le32, le_fold. cbn [seq fold_left]. rewrite Z.lor_0_l, Nat.add_0_r. change (8 * Z.of_nat 0) with 0. by rewrite Z.shiftl_0_r. Qed.

Lemma le_fold_ext p q off n :
  (forall i, (off <= i < off + n)%nat -> byte p i = byte q i) -> le_fold p off n = le_fold q off n.
Proof.
  induction n as [|n IH]; intros H; [done|]. rewrite !le_fold_S, IH by (intros; apply H; lia).
  by rewrite H by lia.
Qed.

Lemma le_fold_stored p off n v : (off + n <= length p)%nat -> 0 <= v < 2 ^ (8 * Z.of_nat n) ->
  le_fold (poke p off (le_bytes n v)) off n = v.
Proof.
  intros L V. rewrite (le_fold_value _ _ _ v); [by apply Z.mod_small|]. intros i Hi.
  rewrite byte_poke_in by (rewrite length_le_bytes; lia). replace (off + i - off)%nat with i by lia.
  by apply byte_le_bytes.
Qed.

Lemma le_fold_kept p off bs at_ n : (at_ + n <= off \/ off + length bs <= at_)%nat ->
  le_fold (poke p off bs) at_ n = le_fold p at_ n.
Proof. intros H. apply le_fold_ext. intros i Hi. apply byte_poke_out. lia. Qed.

Lemma sub_ext p q off n : length p = length q ->
  (forall i, (off <= i < off + n)%nat -> byte p i = byte q i) -> sub p off n = sub q off n.
Proof.
  intros L H. unfold sub. apply list_eq. intros i. destruct (decide (i < n)%nat) as [Hi|Hi].
  - rewrite !lookup_take_lt, !lookup_drop by lia. specialize (H (off + i)%nat ltac:(lia)). unfold byte in H.
    destruct (p !! (off + i)%nat) eqn:E1, (q !! (off + i)%nat) eqn:E2; cbn in H; [by rewrite H| | |done].
    + apply lookup_lt_Some in E1. apply lookup_ge_None in E2. lia.
    + apply lookup_lt_Some in E2. apply lookup_ge_None in E1. lia.
  - by rewrite !lookup_take_ge by lia.
Qed.

Lemma sub_kept p off bs at_ n : (at_ + n <= off \/ off + length bs <= at_)%nat ->
  sub (poke p off bs) at_ n = sub p at_ n.
Proof. intros H. apply sub_ext; [apply length_poke|]. intros i Hi. apply byte_poke_out. lia. Qed.

Lemma sub_poked p off bs : (off + length bs <= length p)%nat -> sub (poke p off bs) off (length bs) = bs.
Proof.
  intros L. unfold sub, poke. apply list_eq. intros i. destruct (decide (i < length bs)%nat) as [Hi|Hi].
  - rewrite lookup_take_lt, lookup_drop, list_lookup_inserts by lia. f_equal. lia.
  - rewrite lookup_take_ge by lia. symmetry. apply lookup_ge_None. lia.
Qed.

(** The checksum of a header does not depend on its own field. *)
Lemma crc32_ext data data' n z :
  (forall i, (i < n)%nat -> crc_value data z i = crc_value data' z i) -> crc32 data n z = crc32 data' n z.
Proof.
  intros H. unfold crc32. f_equal. generalize 0xffffffff. intros c.
  assert (forall l, (forall i, i ∈ l -> (i < n)%nat) -> forall c,
    fold_left (fun crc index => crc_byte crc (crc_value data z index)) l c =
    fold_left (fun crc index => crc_byte crc (crc_value data' z index)) l c) as K.
  { induction l as [|i l IH]; intros Hl c'; cbn; [done|]. rewrite H by (apply Hl; left). apply IH. intros j Hj. apply Hl. by right. }
  apply K. intros i. rewrite list_elem_of_In, in_seq. lia.
Qed.

Lemma crc32_masked p bs n : length bs = 4%nat -> crc32 (poke p 16 bs) n (Some 16%nat) = crc32 p n (Some 16%nat).
Proof.
  intros L. apply crc32_ext. intros i _. unfold crc_value.
  destruct (Nat.leb_spec 16 i); [|by rewrite byte_poke_out by lia]. cbn [andb].
  destruct (Nat.ltb_spec (i - 16) 4); [done|]. rewrite byte_poke_out by lia. done.
Qed.

Lemma crc_lxor_u32 a b : is_u32 a -> is_u32 b -> is_u32 (Z.lxor a b).
Proof.
  unfold is_u32. intros A B. assert (0 <= Z.lxor a b) as N by (apply Z.lxor_nonneg; lia). split; [done|].
  destruct (decide (Z.lxor a b = 0)) as [->|Hz]; [lia|]. change 4294967296 with (2 ^ 32).
  apply Z.log2_lt_pow2; [lia|]. pose proof (Z.log2_lxor a b ltac:(lia) ltac:(lia)).
  assert (forall x, 0 <= x < 4294967296 -> Z.log2 x < 32) as L.
  { intros x Hx. destruct (decide (x = 0)) as [->|]; [cbn; lia|]. apply Z.log2_lt_pow2; [lia|]. cbn. lia. }
  pose proof (L a A). pose proof (L b B). lia.
Qed.

Lemma crc_bit_u32 c : is_u32 c -> is_u32 (crc_bit c).
Proof.
  intros C. assert (is_u32 (Z.shiftr c 1)) as S.
  { rewrite Z.shiftr_div_pow2 by lia. change (2 ^ 1) with 2. unfold is_u32 in *. Z.div_mod_to_equations. lia. }
  unfold crc_bit. destruct (_ =? _); [|done]. by apply crc_lxor_u32.
Qed.

Lemma crc_byte_u32 c v : is_u32 c -> is_u8 v -> is_u32 (crc_byte c v).
Proof.
  intros C V. unfold crc_byte. assert (forall n x, is_u32 x -> is_u32 (Nat.iter n crc_bit x)) as K.
  { induction n as [|n IH]; intros x X; cbn; [done|]. by apply crc_bit_u32, IH. }
  apply K, crc_lxor_u32; [done|]. unfold is_u8, is_u32 in *. lia.
Qed.

Lemma byte_u8 p i : Forall is_u8 p -> is_u8 (byte p i).
Proof. intros F. unfold byte. destruct (p !! i) eqn:E; cbn; [by eapply Forall_lookup_1|done]. Qed.

Lemma crc32_u32 p n z : Forall is_u8 p -> is_u32 (crc32 p n z).
Proof.
  intros F. unfold crc32. apply crc_lxor_u32; [|done]. generalize (seq 0 n). intros l.
  assert (is_u32 0xffffffff) as C by done. revert C. generalize 0xffffffff.
  induction l as [|i l IH]; intros c C; cbn; [done|]. apply IH, crc_byte_u32; [done|].
  unfold crc_value. destruct z; [destruct (_ && _); [done|]|]; by apply byte_u8.
Qed.

Lemma u8_poke p off bs : Forall is_u8 p -> Forall is_u8 bs -> Forall is_u8 (poke p off bs).
Proof.
  intros P B. apply Forall_lookup_2. intros i x E. apply list_lookup_inserts_Some in E as [[_ E]|(_ & _ & E)].
  - exact (Forall_lookup_1 _ _ _ _ P E).
  - exact (Forall_lookup_1 _ _ _ _ B E).
Qed.

Lemma u8_le_bytes n v : Forall is_u8 (le_bytes n v).
Proof. apply Forall_fmap, Forall_true. intros i. apply u8_range. Qed.

(** * Headers are read back *)

(** What the numbers of a table satisfy. *)
Record table_fields (t : gpt_table_t) : Prop := {
  tf_first : 0 <= first_usable_lba (info t) <= last_usable_lba (info t);
  tf_count : 1 <= entry_count (info t) <= GPT_MAX_PARTITION_ENTRIES;
  tf_size : entry_size (info t) = GPT_PARTITION_ENTRY_BYTES;
  tf_sectors : array_sectors t = (entry_count (info t) * 128 + 511) / 512;
  tf_primary : GPT_PRIMARY_ENTRIES_LBA <= primary_entries_lba t;
  tf_before : primary_entries_lba t + array_sectors t <= first_usable_lba (info t);
  tf_after : last_usable_lba (info t) < backup_entries_lba t;
  tf_guid : length (disk_guid t) = 16%nat /\ Forall is_u8 (disk_guid t) /\ guid_is_zero (disk_guid t) = false;
}.

Ltac lengths := rewrite ?length_poke, ?length_le_bytes, ?length_replicate.
Ltac read_back :=
  unfold gpt_make_header, put_header, store_le32, store_le64; rewrite ?le32_fold, ?le64_fold;
  repeat (rewrite le_fold_kept by (lengths; cbn; lia)); apply le_fold_stored; [lengths; lia|cbn; try lia].

Section MakeHeader.
Context (t : gpt_table_t) (tf : table_fields t) (backup : bool) (crc : Z) (crc_u32 : is_u32 crc).
Context (small : is_u64 (backup_entries_lba t + array_sectors t)).

Let h : list Z := gpt_make_header t backup crc.

Lemma put_header_u8 : Forall is_u8 (put_header t backup crc).
Proof.
  destruct (tf_guid t tf) as (_ & G & _). unfold put_header, store_le32, store_le64.
  repeat (apply u8_poke; [|first [apply u8_le_bytes|exact G|apply Forall_true; done|repeat constructor; done]]).
  apply Forall_replicate. done.
Qed.

Lemma header_numbers :
  le32 h 8 = 0x00010000 /\ le32 h 12 = GPT_HEADER_BYTES /\
  le64 h 40 = first_usable_lba (info t) /\ le64 h 48 = last_usable_lba (info t) /\
  le32 h 80 = entry_count (info t) /\ le32 h 84 = entry_size (info t) /\ le32 h 88 = crc.
Proof.
  pose proof (tf_first t tf). pose proof (tf_count t tf). pose proof (tf_size t tf) as Hs. pose proof (tf_after t tf).
  pose proof (tf_sectors t tf). destruct (tf_guid t tf) as (G & _ & _).
  unfold is_u64, is_u32, GPT_MAX_PARTITION_ENTRIES, GPT_PARTITION_ENTRY_BYTES in *.
  assert (0 <= array_sectors t) by (Z.div_mod_to_equations; lia).
  unfold h. repeat split; read_back; unfold GPT_HEADER_BYTES; lia.
Qed.

Lemma header_places :
  le64 h 24 = (if backup then backup_entries_lba t + array_sectors t else 1) /\
  le64 h 32 = (if backup then 1 else backup_entries_lba t + array_sectors t) /\
  le64 h 72 = (if backup then backup_entries_lba t else primary_entries_lba t).
Proof.
  pose proof (tf_first t tf). pose proof (tf_count t tf). pose proof (tf_before t tf). pose proof (tf_after t tf).
  pose proof (tf_primary t tf). pose proof (tf_sectors t tf). destruct (tf_guid t tf) as (G & _ & _).
  unfold is_u64, GPT_MAX_PARTITION_ENTRIES, GPT_PRIMARY_ENTRIES_LBA in *.
  assert (0 <= array_sectors t) by (Z.div_mod_to_equations; lia).
  assert (u64 (backup_entries_lba t + array_sectors t) = backup_entries_lba t + array_sectors t) as U by by apply u64_id.
  unfold h, gpt_make_header, put_header. rewrite U.
  repeat split; destruct backup; read_back; unfold GPT_PRIMARY_HEADER_LBA; lia.
Qed.

Lemma header_crc : le32 h 16 = crc32 h 92 (Some 16%nat).
Proof.
  unfold h, gpt_make_header. change (Z.to_nat GPT_HEADER_BYTES) with 92%nat. set (c := crc32 (put_header t backup crc) 92 _).
  assert (is_u32 c) as C by (apply crc32_u32, put_header_u8).
  unfold store_le32 at 2. rewrite crc32_masked by apply length_le_bytes. fold c.
  unfold store_le32. rewrite le32_fold. apply le_fold_stored; [|exact C].
  unfold put_header, store_le32, store_le64. lengths. lia.
Qed.

Lemma header_guid : guid_at h 56 = disk_guid t.
Proof.
  destruct (tf_guid t tf) as (G & _ & _). unfold h, gpt_make_header, put_header, store_le32, store_le64, guid_at, GPT_GUID_BYTES.
  repeat (rewrite sub_kept by (lengths; cbn; lia)).
  match goal with |- sub (poke ?p 56 _) _ _ = _ => pose proof (sub_poked p 56 (disk_guid t)) as S end.
  rewrite G in S. apply S. lengths. lia.
Qed.

Lemma header_signature : gpt_signature h = true.
Proof.
  destruct (tf_guid t tf) as (G & _ & _).
  unfold gpt_signature. apply bool_decide_eq_true. unfold h, gpt_make_header, put_header, store_le32, store_le64.
  repeat (rewrite sub_kept by (lengths; cbn; lia)).
  apply (sub_poked (replicate 512 0) 0 signature). rewrite length_replicate. cbn. lia.
Qed.

(** The header of either copy is accepted at its place. *)
Lemma make_header_valid total :
  total = backup_entries_lba t + array_sectors t + 1 ->
  gpt_header_valid h (if backup then total - 1 else 1) (if backup then 1 else total - 1) total =
  Some (Header (if backup then backup_entries_lba t else primary_entries_lba t) (entry_count (info t))
          (entry_size (info t)) (first_usable_lba (info t)) (last_usable_lba (info t)) crc (array_sectors t) (disk_guid t)).
Proof.
  intros ->. destruct header_numbers as (H8 & H12 & H40 & H48 & H80 & H84 & H88).
  destruct header_places as (H24 & H32 & H72).
  pose proof (tf_first t tf). pose proof (tf_count t tf). pose proof (tf_size t tf) as Hs. pose proof (tf_after t tf).
  pose proof (tf_sectors t tf) as Hn. pose proof (tf_before t tf). pose proof (tf_primary t tf).
  destruct (tf_guid t tf) as (_ & _ & G). unfold GPT_MAX_PARTITION_ENTRIES, GPT_PRIMARY_ENTRIES_LBA in *.
  assert (1 <= array_sectors t <= 32) as A by (Z.div_mod_to_equations; lia).
  unfold gpt_header_valid. rewrite header_signature, H8, header_guid, G, H12. cbn [negb orb].
  change (Z.to_nat GPT_HEADER_BYTES) with 92%nat. rewrite <- header_crc, H24, H32, H40, H48, H80, H84, H88, H72, Z.eqb_refl.
  change (0x10000 =? 0x10000) with true. change (GPT_HEADER_BYTES <? GPT_HEADER_BYTES) with false.
  change (GPT_SECTOR_BYTES <? GPT_HEADER_BYTES) with false. cbn [negb orb]. rewrite Hs.
  rewrite (proj2 (Z.eqb_eq (if backup then _ else 1) _)) by (destruct backup; lia).
  rewrite (proj2 (Z.eqb_eq (if backup then 1 else _) _)) by (destruct backup; lia). cbn [negb orb].
  replace (last_usable_lba (info t) <? first_usable_lba (info t)) with false by lia.
  replace (_ <=? last_usable_lba (info t)) with false by lia. cbn [orb].
  replace (entry_count (info t) =? 0) with false by lia.
  replace (GPT_MAX_PARTITION_ENTRIES <? entry_count (info t)) with false by (unfold GPT_MAX_PARTITION_ENTRIES; lia).
  rewrite Z.eqb_refl. cbn [negb orb].
  assert (multiply_u64 (entry_count (info t)) GPT_PARTITION_ENTRY_BYTES = Some (entry_count (info t) * 128)) as ->.
  { unfold multiply_u64, GPT_PARTITION_ENTRY_BYTES. replace (entry_count (info t) =? 0) with false by lia. cbn [negb andb].
    replace (U64_MAX / entry_count (info t) <? 128) with false; [done|].
    symmetry. apply Z.ltb_ge. apply Z.div_le_lower_bound; unfold U64_MAX; lia. }
  cbn [mbind option_bind]. unfold GPT_SECTOR_BYTES.
  replace (entry_count (info t) * 128 + 512 - 1) with (entry_count (info t) * 128 + 511) by lia. rewrite <- Hn.
  replace (array_sectors t =? 0) with false by lia.
  replace (_ <=? (if backup then _ else _)) with false by (destruct backup; lia).
  replace (_ <? array_sectors t) with false by (destruct backup; lia). cbn [orb].
  rewrite u32_id by (unfold is_u32; lia). done.
Qed.

End MakeHeader.

(** * A disk *)

(** What is relied on of the block layer and the disk: reads give the contents
    and change none, a write that succeeds stores its buffer and none changes
    another sector, a flush changes none. *)
Class DiskLaws (D : Type) {io : BlockIo D} := {
  contents : D -> Z -> list Z;
  contents_length d l : length (contents d l) = 512%nat;
  contents_u8 d l : Forall is_u8 (contents d l);
  read_unchanged d lba n r d' : block_probe_read d lba n = (r, d') -> contents d' = contents d;
  read_exact d lba n bytes d' :
    block_probe_read d lba n = (Some bytes, d') -> bytes = mjoin (contents d <$> seqZ lba n);
  write_elsewhere d lba n buffer ok d' l :
    block_write d lba n buffer = (ok, d') -> ~ lba <= l < lba + n -> contents d' l = contents d l;
  write_exact d lba n buffer d' i :
    block_write d lba n buffer = (true, d') -> 512 * n <= Z.of_nat (length buffer) -> Forall is_u8 buffer ->
    0 <= i < n ->
    contents d' (lba + i) = sub buffer (Z.to_nat (512 * i)) 512;
  flush_unchanged d ok d' : block_flush d = (ok, d') -> contents d' = contents d;
}.

Section Disk.
Context {D : Type} {io : BlockIo D} {laws : DiskLaws D} (device : block_device).

(** The bytes of [n] sectors. *)
Definition array (c : Z -> list Z) (lba n : Z) : list Z := mjoin (c <$> seqZ lba n).

Lemma seqZ_one m : seqZ m 1 = [m].
Proof. rewrite seqZ_cons by lia. done. Qed.

Lemma array_one c lba : array c lba 1 = c lba.
Proof. unfold array. rewrite seqZ_one. apply app_nil_r. Qed.

Lemma array_ext c c' lba n : (forall l, lba <= l < lba + n -> c l = c' l) -> array c lba n = array c' lba n.
Proof. intros H. unfold array. f_equal. apply list_fmap_ext. intros i l E. apply lookup_seqZ in E. apply H. lia. Qed.

Lemma take_sub {A} n m (l : list A) : take n l ++ take m (drop n l) = take (n + m) l.
Proof. by rewrite take_take_drop. Qed.

Lemma array_stored c lba n buffer : 0 <= n ->
  (forall i, 0 <= i < n -> c (lba + i) = sub buffer (Z.to_nat (512 * i)) 512) ->
  array c lba n = take (Z.to_nat (512 * n)) buffer.
Proof.
  intros Hn. pattern n. apply natlike_ind; [done| |done]. clear n Hn. intros n Hn IH H.
  unfold array in *. rewrite <- Z.add_1_r, seqZ_app, fmap_app, join_app, IH by (try lia; intros; apply H; lia).
  rewrite seqZ_one. cbn [fmap list_fmap mjoin list_join]. rewrite app_nil_r. rewrite H by lia. unfold sub. rewrite take_sub. f_equal. lia.
Qed.

Lemma length_array c lba n : (forall l, length (c l) = 512%nat) -> 0 <= n -> length (array c lba n) = Z.to_nat (512 * n).
Proof.
  intros L Hn. pattern n. apply natlike_ind; [done| |done]. clear n Hn. intros n Hn IH.
  unfold array in *. rewrite <- Z.add_1_r, seqZ_app, fmap_app, join_app, length_app, IH by lia.
  rewrite seqZ_one. cbn [fmap list_fmap mjoin list_join]. rewrite app_nil_r, L. lia.
Qed.

Lemma gpt_read_spec d lba n r d' : gpt_read device d lba n = (r, d') ->
  contents d' = contents d /\ (r = None \/ r = Some (array (contents d) lba n)).
Proof.
  unfold gpt_read. destruct (out_of_range _ _ _); [intros [= <- <-]; auto|]. intros E.
  split; [by eapply read_unchanged|]. destruct r as [bytes|]; [right|by left]. f_equal. by eapply read_exact.
Qed.

(** The device is one that can hold a table. *)
Definition can_hold : bool :=
  negb (bool_decide (device_type device = BLOCK_DEVICE_PARTITION) || negb (sector_size device =? GPT_SECTOR_BYTES) ||
        (sector_count device <? GPT_MIN_SECTORS)).

(** The answer of the loader as a function of the contents. *)
Definition loads (w : work D) (r : Z + gpt_table_t) (w' : work D) : Prop :=
  let c := contents (disk w) in
  match load_headers device (c 0) (c 1) (c (sector_count device - 1)) with
  | inl error => r = inl error
  | inr (p, b) =>
      primary_entries w' = poke (primary_entries w) 0 (array c (h_entries_lba p) (h_sectors p)) /\
      backup_entries w' = poke (backup_entries w) 0 (array c (h_entries_lba b) (h_sectors p)) /\
      r = check_entries p b (primary_entries w') (backup_entries w')
  end.

Lemma gpt_load_cases w r w' : gpt_load device w = (r, w') ->
  contents (disk w') = contents (disk w) /\
  (can_hold = false /\ r = inl VFS_ERR_UNSUPPORTED \/ r = inl VFS_ERR_IO \/ can_hold = true /\ loads w r w').
Proof.
  unfold gpt_load, can_hold. destruct (_ || _ || _); [intros [= <- <-]; auto|]. cbn [negb].
  destruct (gpt_read device (disk w) 0 1) as [r0 d0] eqn:E0. apply gpt_read_spec in E0 as [C0 [-> | ->]];
    [intros [= <- <-]; auto|].
  destruct (gpt_read device d0 _ 1) as [r1 d1] eqn:E1. apply gpt_read_spec in E1 as [C1 [-> | ->]];
    [intros [= <- <-]; cbn; split; [congruence|auto]|].
  destruct (gpt_read device d1 _ 1) as [r2 d2] eqn:E2. apply gpt_read_spec in E2 as [C2 [-> | ->]];
    [intros [= <- <-]; cbn; split; [congruence|auto]|].
  unfold loads. rewrite C1, C0, !array_one. unfold GPT_PRIMARY_HEADER_LBA.
  destruct (load_headers _ _ _ _) as [error|[p b]]; [intros [= <- <-]; cbn; split; [congruence|auto]|].
  unfold load_entries, with_disk. cbn [disk primary_entries backup_entries].
  destruct (gpt_read device d2 _ _) as [r3 d3] eqn:E3. apply gpt_read_spec in E3 as [C3 [-> | ->]];
    [intros [= <- <-]; cbn; split; [congruence|auto]|].
  destruct (gpt_read device d3 _ _) as [r4 d4] eqn:E4. apply gpt_read_spec in E4 as [C4 [-> | ->]];
    [intros [= <- <-]; cbn; split; [congruence|auto]|].
  intros [= <- <-]. cbn. split; [congruence|]. right; right. split; [done|]. rewrite C3, C2, C1, C0. done.
Qed.

(** * What is accepted *)

Lemma le_fold_nonneg p off n : Forall is_u8 p -> 0 <= le_fold p off n.
Proof.
  intros F. induction n as [|n IH]; [done|]. rewrite le_fold_S. apply Z.lor_nonneg. split; [done|].
  apply Z.shiftl_nonneg. pose proof (byte_u8 p (off + n) F) as B. unfold is_u8 in B. lia.
Qed.

Lemma header_valid_spec h cur bak total p : Forall is_u8 h -> gpt_header_valid h cur bak total = Some p ->
  1 <= h_count p <= 128 /\ h_size p = 128 /\ 0 <= h_first p <= h_last p /\ h_last p < total /\
  h_sectors p = (h_count p * 128 + 511) / 512 /\ h_guid p = guid_at h 56 /\ guid_is_zero (h_guid p) = false.
Proof.
  intros F. unfold gpt_header_valid. destruct (negb _ || negb _); [done|]. destruct (guid_is_zero (guid_at h 56)) eqn:G; [done|].
  destruct (_ || _ || negb _); [done|]. destruct (negb _ || negb _); [done|].
  destruct ((le64 h 48 <? le64 h 40) || (total <=? le64 h 48)) eqn:B; [done|].
  destruct (_ || _ || negb (le32 h 84 =? _)) eqn:C; [done|].
  pose proof (le_fold_nonneg h 80 4 F) as N. rewrite <- le32_fold in N.
  pose proof (le_fold_nonneg h 40 8 F) as N'. rewrite <- le64_fold in N'.
  unfold GPT_MAX_PARTITION_ENTRIES, GPT_PARTITION_ENTRY_BYTES in C.
  assert (1 <= le32 h 80 <= 128 /\ le32 h 84 = 128) as [H80 H84] by lia.
  unfold multiply_u64. destruct (negb _ && _); [done|]. cbn [mbind option_bind].
  match goal with |- (if ?b then None else _) = _ -> _ => destruct b; [done|] end.
  intros H. inversion H; subst p; clear H. cbn [h_count h_size h_first h_last h_sectors h_guid].
  rewrite H84. unfold GPT_SECTOR_BYTES. replace (le32 h 80 * 128 + 512 - 1) with (le32 h 80 * 128 + 511) by lia.
  rewrite u32_id by (unfold is_u32; Z.div_mod_to_equations; lia). repeat split; try done; lia.
Qed.

Lemma load_headers_spec mbr primary backup p b :
  Forall is_u8 primary -> length primary = 512%nat -> load_headers device mbr primary backup = inr (p, b) ->
  (exists cur bak, gpt_header_valid primary cur bak (sector_count device) = Some p) /\
  h_count b = h_count p /\ h_size b = h_size p /\ h_crc b = h_crc p /\
  h_entries_lba b = sector_count device - 1 - h_sectors p /\
  2 <= h_entries_lba p /\ h_entries_lba p + h_sectors p <= h_first p /\ h_last p < h_entries_lba b.
Proof.
  intros F L. unfold load_headers. destruct (negb _); [done|]. destruct (negb _ || _); [done|].
  destruct (gpt_header_valid primary _ _ _) as [p'|] eqn:E; [|done].
  destruct (gpt_header_valid backup _ _ _) as [b'|]; [|done].
  destruct (headers_agree device p' b') eqn:A; [|done]. intros [= <- <-].
  split; [by eexists _, _|]. unfold headers_agree, GPT_PRIMARY_ENTRIES_LBA in A.
  destruct (bool_decide (h_guid p' = h_guid b')); lia.
Qed.

(** The number of used entries. *)
Definition used_count (entries : list Z) (k n : nat) : nat :=
  length (filter (fun i => gpt_entry_used (entry_at entries i) = true) (seq k n)).

Lemma entries_loop_count entries fu lu n k used r :
  entries_loop entries fu lu n k used = Some r -> 0 <= used -> used + Z.of_nat n < 2 ^ 32 ->
  r = used + Z.of_nat (used_count entries k n).
Proof.
  revert k used. induction n as [|n IH]; intros k used; cbn [entries_loop]; [intros [= <-]; cbn; lia|].
  unfold used_count. cbn [seq]. rewrite filter_cons. destruct (gpt_entry_used (entry_at entries k)); cbn [negb].
  - destruct (negb _); [done|]. intros H H1 H2. rewrite decide_True by done. cbn [length].
    rewrite u32_id in H by (unfold is_u32; lia). rewrite (IH _ _ H) by lia. unfold used_count. lia.
  - intros H H1 H2. rewrite decide_False by done. rewrite (IH _ _ H) by lia. done.
Qed.

Lemma take_poke n p bs : (n <= length bs <= length p)%nat -> take n (poke p 0 bs) = take n bs.
Proof.
  intros H. pose proof (sub_poked p 0 bs ltac:(lia)) as S. unfold sub in S. rewrite drop_0 in S.
  rewrite <- S at 2. rewrite take_take. f_equal. lia.
Qed.

Record buffers (w : work D) : Prop := {
  bu_primary : Z.of_nat (length (primary_entries w)) = GPT_ENTRY_ARRAY_BYTES;
  bu_backup : Z.of_nat (length (backup_entries w)) = GPT_ENTRY_ARRAY_BYTES;
}.

(** The bytes of the entries that a table counts. *)
Definition array_length (t : gpt_table_t) : nat := Z.to_nat (entry_count (info t) * 128).

(** What a loaded table guarantees of the disk. *)
Record loaded (w : work D) (t : gpt_table_t) (w' : work D) : Prop := {
  lo_device : can_hold = true;
  lo_fields : table_fields t;
  lo_end : backup_entries_lba t + array_sectors t = sector_count device - 1;
  lo_entries : sound_entries (info t) (primary_entries w');
  lo_count : partition_count (info t) = Z.of_nat (used_count (primary_entries w') 0 (Z.to_nat (entry_count (info t))));
  lo_primary : take (array_length t) (primary_entries w') =
               take (array_length t) (array (contents (disk w)) (primary_entries_lba t) (array_sectors t));
  lo_backup : take (array_length t) (primary_entries w') =
              take (array_length t) (array (contents (disk w)) (backup_entries_lba t) (array_sectors t));
  lo_same : contents (disk w') = contents (disk w);
}.

(** What the check of the arrays establishes. *)
Lemma check_entries_spec p b primary backup t : check_entries p b primary backup = inr t ->
  (exists used, gpt_entries_valid primary (h_count p) (h_first p) (h_last p) = Some used /\
    t = Table (TableInfo GPT_TABLE_VALID used (h_count p) (h_size p) (h_first p) (h_last p))
              (h_entries_lba p) (h_entries_lba b) (h_sectors p) (h_guid p)) /\
  crc32 primary (Z.to_nat (h_count p * h_size p)) None = h_crc p /\
  take (Z.to_nat (h_count p * h_size p)) primary = take (Z.to_nat (h_count p * h_size p)) backup.
Proof.
  unfold check_entries. destruct (negb (_ =? h_crc p) || _ || _) eqn:C; [done|].
  destruct (gpt_entries_valid _ _ _ _) as [used|] eqn:V; [|done]. intros [= <-].
  apply orb_false_iff in C as [C C3]. apply negb_false_iff, bool_decide_eq_true in C3. split; [by exists used|]. split; [lia|done].
Qed.

(** A loaded table in terms of the headers it was read from. *)
Lemma load_inversion w t w' : buffers w -> gpt_load device w = (inr t, w') ->
  loaded w t w' /\
  exists p cur bak, gpt_header_valid (contents (disk w) 1) cur bak (sector_count device) = Some p /\
    cur = 1 /\ bak = sector_count device - 1 /\
    h_entries_lba p = primary_entries_lba t /\ h_sectors p = array_sectors t /\ h_count p = entry_count (info t) /\
    crc32 (primary_entries w') (array_length t) None = h_crc p.
Proof.
  intros [B1 B2] H. apply gpt_load_cases in H as (Hs & [[_ ?]|[?|(Hc & H)]]); [done|done|]. unfold loads in H.
  destruct (load_headers _ _ _ _) as [error|[p b]] eqn:E; [done|]. destruct H as (P & Q & H).
  apply load_headers_spec in E as X; [|apply contents_u8|apply contents_length].
  destruct X as ((cur & bak & V) & K1 & K2 & K3 & K4 & K5 & K6 & K7).
  destruct (header_valid_spec _ _ _ _ _ (contents_u8 _ _) V) as (V1 & V2 & V3 & V4 & V5 & V6 & V7).
  symmetry in H. apply check_entries_spec in H as ((used & U & ->) & C & T).
  assert (1 <= h_sectors p <= 32) as Hn by (Z.div_mod_to_equations; lia).
  rewrite V2 in C, T. assert (forall q, length (array (contents (disk w)) q (h_sectors p)) = Z.to_nat (512 * h_sectors p)) as L
    by (intros q; apply length_array; [apply contents_length|lia]).
  change GPT_ENTRY_ARRAY_BYTES with 16384 in B1, B2.
  assert (h_count p * 128 <= 512 * h_sectors p) as Hl by (Z.div_mod_to_equations; lia).
  split.
  - split; cbn [info array_sectors backup_entries_lba primary_entries_lba entry_count partition_count]; unfold array_length;
      cbn [info entry_count].
    + done.
    + split; cbn; try done; try lia. rewrite V6 in *. split; [|split; [|done]].
      * unfold guid_at, sub. rewrite length_take, length_drop, contents_length. unfold GPT_GUID_BYTES. lia.
      * apply Forall_take, Forall_drop, contents_u8.
    + lia.
    + eapply valid_sound. cbn. exact U.
    + unfold gpt_entries_valid in U. destruct (_ || _) in U; [done|].
      rewrite (entries_loop_count _ _ _ _ _ _ _ U) by lia. lia.
    + rewrite P. apply take_poke. rewrite L. lia.
    + rewrite T, Q. apply take_poke. rewrite L. lia.
    + done.
  - unfold array_length. cbn. unfold load_headers in E. destruct (negb _) in E; [done|]. destruct (negb _ || _) in E; [done|].
    destruct (gpt_header_valid (contents (disk w) 1) 1 _ _) as [p'|] eqn:V'; [|done].
    destruct (gpt_header_valid _ _ _ _) in E; [|done]. destruct (headers_agree _ _ _) in E; [|done].
    assert (p' = p) as -> by congruence. exists p, 1, (sector_count device - 1). done.
Qed.

(** * Updates *)

(** The contents after a write. *)
Definition stored (c : Z -> list Z) (lba n : Z) (buffer : list Z) (l : Z) : list Z :=
  if (lba <=? l) && (l <? lba + n) then sub buffer (Z.to_nat (512 * (l - lba))) 512 else c l.

Lemma gpt_write_stores d lba n buffer d' : 512 * n <= Z.of_nat (length buffer) -> Forall is_u8 buffer ->
  gpt_write device d lba n buffer = (true, d') -> forall l, contents d' l = stored (contents d) lba n buffer l.
Proof.
  intros L U. unfold gpt_write. destruct (_ || _); [done|]. intros E l. unfold stored.
  destruct (Z.leb_spec lba l), (Z.ltb_spec l (lba + n)); cbn [andb]; try (eapply write_elsewhere; [done|lia]).
  replace l with (lba + (l - lba)) at 1 by lia. eapply write_exact; [done|done|done|lia].
Qed.

Lemma stored_at c lba n buffer l : ~ lba <= l < lba + n -> stored c lba n buffer l = c l.
Proof. intros H. unfold stored. destruct (Z.leb_spec lba l), (Z.ltb_spec l (lba + n)); cbn [andb]; done || lia. Qed.

Lemma stored_sector c lba buffer : length buffer = 512%nat -> stored c lba 1 buffer lba = buffer.
Proof.
  intros L. unfold stored. replace ((lba <=? lba) && (lba <? lba + 1)) with true by lia.
  rewrite Z.sub_diag. unfold sub. rewrite Z.mul_0_r, drop_0. apply take_ge. lia.
Qed.

Lemma array_of_stored c lba n buffer : 0 <= n ->
  array (stored c lba n buffer) lba n = take (Z.to_nat (512 * n)) buffer.
Proof.
  intros Hn. apply array_stored; [done|]. intros i Hi. unfold stored.
  replace ((lba <=? lba + i) && (lba + i <? lba + n)) with true by lia. do 3 f_equal. lia.
Qed.

Lemma array_elsewhere c lba n buffer q m : q + m <= lba \/ lba + n <= q ->
  array (stored c lba n buffer) q m = array c q m.
Proof. intros H. apply array_ext. intros l Hl. apply stored_at. lia. Qed.

Lemma length_make_header t backup crc : length (gpt_make_header t backup crc) = 512%nat.
Proof. unfold gpt_make_header, put_header, store_le32, store_le64. by lengths. Qed.

(** The contents after the steps of an update have been done. *)
Definition after (c : Z -> list Z) (l : list disk_step) : Z -> list Z :=
  fold_left (fun c s => match s with DoWrite lba n buffer => stored c lba n buffer | DoFlush => c end) l c.
Definition covered (s : disk_step) : Prop :=
  match s with DoWrite _ n buffer => 512 * n <= Z.of_nat (length buffer) /\ Forall is_u8 buffer | DoFlush => True end.

Lemma stored_ext c c' lba n buffer : (forall l, c l = c' l) -> forall l, stored c lba n buffer l = stored c' lba n buffer l.
Proof. intros H l. unfold stored. by rewrite H. Qed.

Lemma after_ext l c c' : (forall x, c x = c' x) -> forall x, after c l x = after c' l x.
Proof.
  revert c c'. induction l as [|[lba n buffer|] l IH]; intros c c' H x; cbn; [done| |by apply IH].
  apply IH. by apply stored_ext.
Qed.

Lemma do_steps_after l d d' : Forall covered l -> do_steps device d l = (true, d') ->
  forall x, contents d' x = after (contents d) l x.
Proof.
  revert d. induction l as [|s l IH]; intros d F; cbn [do_steps]; [by intros [= <-]|].
  apply Forall_cons in F as [Fs F]. destruct (do_step device d s) as [[|] d1] eqn:E; [|done]. intros H x.
  rewrite (IH d1 F H). destruct s as [lba n buffer|]; cbn in *.
  - destruct Fs. apply after_ext. by apply gpt_write_stores.
  - by rewrite (flush_unchanged _ _ _ E).
Qed.

Lemma make_header_u8 t backup crc : table_fields t -> Forall is_u8 (gpt_make_header t backup crc).
Proof. intros F. apply u8_poke; [by apply put_header_u8|apply u8_le_bytes]. Qed.

Lemma update_covered t entries : table_fields t -> array_sectors t <= 32 ->
  Z.of_nat (length entries) = GPT_ENTRY_ARRAY_BYTES -> Forall is_u8 entries ->
  Forall covered (update_steps device t entries).
Proof.
  change GPT_ENTRY_ARRAY_BYTES with 16384. intros F H L U. unfold update_steps.
  repeat (apply Forall_cons_2; [cbn [covered]; rewrite ?length_make_header;
    first [done|split; [lia|first [done|by apply make_header_u8]]]|]). apply Forall_nil_2.
Qed.

(** The table that is on the disk when its update is done. *)
Record table_on (c : Z -> list Z) (t : gpt_table_t) (entries : list Z) (crc : Z) : Prop := {
  on_primary : c 1 = gpt_make_header t false crc;
  on_backup : c (sector_count device - 1) = gpt_make_header t true crc;
  on_primary_array : array c (primary_entries_lba t) (array_sectors t) = take (Z.to_nat (512 * array_sectors t)) entries;
  on_backup_array : array c (backup_entries_lba t) (array_sectors t) = take (Z.to_nat (512 * array_sectors t)) entries;
}.

Definition entries_crc (t : gpt_table_t) (entries : list Z) : Z :=
  crc32 entries (Z.to_nat (u32 (entry_count (info t) * entry_size (info t)))) None.

Lemma entries_crc_u32 t entries : Forall is_u8 entries -> is_u32 (entries_crc t entries).
Proof. intros F. unfold entries_crc. exact (crc32_u32 entries _ None F). Qed.

Lemma sectors_range t : table_fields t -> 1 <= array_sectors t <= 32 /\ entry_count (info t) * 128 <= 512 * array_sectors t.
Proof.
  intros F. pose proof (tf_count t F). pose proof (tf_sectors t F). unfold GPT_MAX_PARTITION_ENTRIES in *.
  Z.div_mod_to_equations. lia.
Qed.

Lemma update_on c t entries :
  table_fields t -> backup_entries_lba t + array_sectors t = sector_count device - 1 ->
  table_on (after c (update_steps device t entries)) t entries (entries_crc t entries) /\
  after c (update_steps device t entries) 0 = c 0.
Proof.
  intros F E. destruct (sectors_range t F) as [Hn _].
  pose proof (tf_first t F). pose proof (tf_primary t F). pose proof (tf_before t F). pose proof (tf_after t F).
  unfold GPT_PRIMARY_ENTRIES_LBA in *. unfold update_steps, after. fold (entries_crc t entries). cbn [fold_left].
  unfold GPT_PRIMARY_HEADER_LBA. split; [split|].
  - apply stored_sector, length_make_header.
  - rewrite !stored_at by lia. apply stored_sector, length_make_header.
  - rewrite array_elsewhere by lia. apply array_of_stored. lia.
  - rewrite !array_elsewhere by lia. apply array_of_stored. lia.
  - by rewrite !stored_at by lia.
Qed.

Lemma poke_same p n : poke p 0 (take n p) = p.
Proof.
  unfold poke. rewrite <- (take_drop n p) at 2 3. apply list_inserts_0_r. done.
Qed.

Lemma crc_take p q n m : take n p = take n q -> (m <= n)%nat -> crc32 p m None = crc32 q m None.
Proof.
  intros T L. apply crc32_ext. intros i Hi. cbn. unfold byte.
  rewrite <- (lookup_take_lt p n i), <- (lookup_take_lt q n i) by lia. by rewrite T.
Qed.

Lemma headers_agree_made t crc : table_fields t -> backup_entries_lba t + array_sectors t = sector_count device - 1 ->
  headers_agree device
    (Header (primary_entries_lba t) (entry_count (info t)) (entry_size (info t)) (first_usable_lba (info t))
       (last_usable_lba (info t)) crc (array_sectors t) (disk_guid t))
    (Header (backup_entries_lba t) (entry_count (info t)) (entry_size (info t)) (first_usable_lba (info t))
       (last_usable_lba (info t)) crc (array_sectors t) (disk_guid t)) = true.
Proof.
  intros F E. destruct (sectors_range t F) as [Hn _].
  pose proof (tf_first t F). pose proof (tf_primary t F). pose proof (tf_before t F). pose proof (tf_after t F).
  unfold headers_agree. cbn [h_count h_size h_first h_last h_crc h_sectors h_guid h_entries_lba].
  rewrite bool_decide_eq_true_2 by done. unfold GPT_PRIMARY_ENTRIES_LBA in *. lia.
Qed.

(** The table with the number of its used entries. *)
Definition recounted (t : gpt_table_t) (used : Z) : gpt_table_t :=
  Table (TableInfo GPT_TABLE_VALID used (entry_count (info t)) (entry_size (info t)) (first_usable_lba (info t))
           (last_usable_lba (info t))) (primary_entries_lba t) (backup_entries_lba t) (array_sectors t) (disk_guid t).

Lemma table_on_loads w t used r w' :
  buffers w -> Forall is_u8 (primary_entries w) -> is_u64 (sector_count device) -> table_fields t ->
  backup_entries_lba t + array_sectors t = sector_count device - 1 ->
  gpt_entries_valid (primary_entries w) (entry_count (info t)) (first_usable_lba (info t)) (last_usable_lba (info t)) = Some used ->
  mbr_is_protective (contents (disk w) 0) = true ->
  table_on (contents (disk w)) t (primary_entries w) (entries_crc t (primary_entries w)) ->
  loads w r w' -> r = inr (recounted t used) /\ primary_entries w' = primary_entries w.
Proof.
  intros [B1 B2] U8 S F E V M [O1 O2 O3 O4]. unfold loads. rewrite O1, O2.
  destruct (sectors_range t F) as [Hn Hl]. pose proof (tf_size t F) as Hs. pose proof (tf_count t F) as Hc.
  unfold GPT_MAX_PARTITION_ENTRIES in Hc. unfold GPT_PARTITION_ENTRY_BYTES in Hs.
  change GPT_ENTRY_ARRAY_BYTES with 16384 in B1, B2.
  assert (is_u32 (entries_crc t (primary_entries w))) as C by by apply entries_crc_u32.
  assert (is_u64 (backup_entries_lba t + array_sectors t)) as S'.
  { pose proof (tf_first t F). pose proof (tf_after t F). unfold is_u64 in *. lia. }
  unfold load_headers. rewrite !header_signature, M by done. cbn [negb orb].
  pose proof (make_header_valid t F false _ C S' (sector_count device) ltac:(lia)) as V1. cbn iota in V1.
  pose proof (make_header_valid t F true _ C S' (sector_count device) ltac:(lia)) as V2. cbn iota in V2.
  rewrite V1, V2, headers_agree_made by done. cbn [h_entries_lba h_sectors]. rewrite O3, O4, poke_same.
  intros (P & Q & ->). split; [|done]. rewrite P, Q. unfold check_entries. cbn [h_count h_size h_crc h_first h_last h_sectors h_guid h_entries_lba].
  assert (take (Z.to_nat (entry_count (info t) * 128)) (poke (backup_entries w) 0 (take (Z.to_nat (512 * array_sectors t)) (primary_entries w))) =
          take (Z.to_nat (entry_count (info t) * 128)) (primary_entries w)) as T.
  { rewrite take_poke by (rewrite length_take; lia). rewrite take_take. f_equal. lia. }
  rewrite Hs, (crc_take (poke _ _ _) (primary_entries w) _ _ T) by lia.
  unfold entries_crc. rewrite Hs, u32_id by (unfold is_u32; lia). rewrite !Z.eqb_refl. cbn [negb orb].
  rewrite bool_decide_eq_true_2 by done. cbn [negb]. rewrite V. unfold recounted. by rewrite Hs.
Qed.

Lemma update_round_trip w t used w' r w'' :
  buffers w -> Forall is_u8 (primary_entries w) -> can_hold = true -> is_u64 (sector_count device) -> table_fields t ->
  backup_entries_lba t + array_sectors t = sector_count device - 1 ->
  gpt_entries_valid (primary_entries w) (entry_count (info t)) (first_usable_lba (info t)) (last_usable_lba (info t)) = Some used ->
  mbr_is_protective (contents (disk w) 0) = true ->
  gpt_write_updated device w t = (true, w') -> gpt_load device w' = (r, w'') ->
  r = inl VFS_ERR_IO \/ r = inr (recounted t used) /\ primary_entries w'' = primary_entries w.
Proof.
  intros B U C S F E V M. pose proof B as [B1 B2]. unfold gpt_write_updated. destruct (_ || _ || _); [done|].
  destruct (do_steps _ _ _) as [[|] d] eqn:Ds; [|done]. intros [= _ <-].
  assert (array_sectors t <= 32) as Hn by (destruct (sectors_range t F); lia).
  pose proof (do_steps_after _ _ _ (update_covered t _ F Hn B1 U) Ds) as A.
  destruct (update_on (contents (disk w)) t (primary_entries w) F E) as [[O1 O2 O3 O4] O0].
  intros H. apply gpt_load_cases in H as (_ & [[? _]|[->|(_ & H)]]); [congruence|by left|right].
  apply (table_on_loads (with_disk w d) t used r w''); [by split|exact U|exact S|exact F|exact E|exact V| | |exact H].
  - cbn [with_disk disk]. rewrite A, O0. exact M.
  - split; cbn [with_disk disk primary_entries].
    + rewrite A. exact O1.
    + rewrite A. exact O2.
    + rewrite <- O3. apply array_ext. intros l _. apply A.
    + rewrite <- O4. apply array_ext. intros l _. apply A.
Qed.

(** The first header and the arrays while an update is under way. *)
Lemma update_under_way c t entries k :
  table_fields t -> backup_entries_lba t + array_sectors t = sector_count device - 1 -> (1 <= k <= 4)%nat ->
  let c' := after c (take k (update_steps device t entries)) in
  c' 1 = c 1 /\
  array c' (backup_entries_lba t) (array_sectors t) = take (Z.to_nat (512 * array_sectors t)) entries /\
  ((k <= 3)%nat -> array c' (primary_entries_lba t) (array_sectors t) = array c (primary_entries_lba t) (array_sectors t)) /\
  (k = 4%nat -> array c' (primary_entries_lba t) (array_sectors t) = take (Z.to_nat (512 * array_sectors t)) entries).
Proof.
  intros F E K. destruct (sectors_range t F) as [Hn _].
  pose proof (tf_first t F). pose proof (tf_primary t F). pose proof (tf_before t F). pose proof (tf_after t F).
  unfold GPT_PRIMARY_ENTRIES_LBA in *. unfold update_steps, after. fold (entries_crc t entries).
  destruct k as [|[|[|[|[|k]]]]]; try lia; cbn [take fold_left];
    (split; [by rewrite !stored_at by lia|]);
    (split; [by rewrite ?array_elsewhere by lia; apply array_of_stored; lia|]);
    (split; [intros Hk; try lia; by rewrite !array_elsewhere by lia|]); intros Hk; try lia.
  apply array_of_stored. lia.
Qed.

Lemma interrupted_update w t w1 entries k d w2 t' w3 :
  buffers w -> gpt_load device w = (inr t, w1) ->
  Z.of_nat (length entries) = GPT_ENTRY_ARRAY_BYTES -> Forall is_u8 entries ->
  take (array_length t) entries <> take (array_length t) (primary_entries w1) ->
  (1 <= k <= 3)%nat \/ k = 4%nat /\
    crc32 entries (array_length t) None <> crc32 (primary_entries w1) (array_length t) None ->
  do_steps device (disk w1) (take k (update_steps device t entries)) = (true, d) ->
  buffers w2 -> disk w2 = d -> gpt_load device w2 <> (inr t', w3).
Proof.
  intros B H L U N K Ds B2 Hd H'. destruct (load_inversion _ _ _ B H) as [L1 (p & ? & ? & V & -> & -> & P1 & P2 & P3 & P4)].
  destruct (load_inversion _ _ _ B2 H') as [L2 (q & ? & ? & V' & -> & -> & Q1 & Q2 & Q3 & Q4)].
  pose proof (lo_fields _ _ _ L1) as F. destruct (sectors_range t F) as [Hn Hl].
  assert (forall x, contents d x = after (contents (disk w1)) (take k (update_steps device t entries)) x) as A.
  { apply do_steps_after; [|done]. apply Forall_take, update_covered; [done|lia|done|done]. }
  destruct (update_under_way (contents (disk w1)) t entries k F (lo_end _ _ _ L1) ltac:(lia)) as (C1 & C2 & C3 & C4).
  rewrite (lo_same _ _ _ L1) in *. rewrite Hd, A, C1, V in V'. injection V' as <-.
  assert (array_length t' = array_length t) as Ha by (unfold array_length; by rewrite <- Q3, P3).
  pose proof (lo_primary _ _ _ L2) as T1. pose proof (lo_backup _ _ _ L2) as T2. pose proof (lo_end _ _ _ L2) as T3.
  pose proof (lo_end _ _ _ L1). rewrite Ha, <- Q2, P2 in *. rewrite <- Q1, P1 in T1.
  assert (backup_entries_lba t' = backup_entries_lba t) as Hb by lia. rewrite Hb, Hd in T2. rewrite Hd in T1.
  rewrite (array_ext _ _ _ _ (fun l _ => A l)) in T1. rewrite (array_ext _ _ _ _ (fun l _ => A l)), C2 in T2.
  assert (forall m, take (array_length t) (take (Z.to_nat (512 * array_sectors t)) m : list Z) = take (array_length t) m) as K2.
  { intros m. rewrite take_take. f_equal. unfold array_length. lia. }
  rewrite K2 in T2. destruct K as [K|[K Kc]].
  - rewrite (C3 ltac:(lia)), <- (lo_primary _ _ _ L1) in T1. congruence.
  - apply Kc. rewrite P4, <- Q4. eapply crc_take; [symmetry; exact T2|lia].
Qed.

End Disk.

(** * Theorems *)

(** C37: A table that the loader accepts is sound, whatever is on the disk: the
    headers, both arrays and the usable range lie on the disk and apart from
    each other, the used entries lie in the usable range and are pairwise
    disjoint with distinct identifiers, their number is right, the two arrays
    on the disk agree, and loading changes nothing on the disk. *)
Theorem gpt_load_sound {D} {io : BlockIo D} {laws : DiskLaws D} device (w : work D) t w' :
  buffers w -> gpt_load device w = (inr t, w') -> loaded device w t w'.
Proof. intros B H. by destruct (load_inversion device w t w' B H). Qed.

(** C39: What an update writes is what the loader reads: after a successful
    [gpt_write_updated] of sound entries the loader gives back the table, with
    its used entries counted, and the same entries, unless a read fails. *)
Theorem gpt_update_round_trip {D} {io : BlockIo D} {laws : DiskLaws D} device (w : work D) t used w' r w'' :
  buffers w -> Forall is_u8 (primary_entries w) -> can_hold device = true -> is_u64 (sector_count device) ->
  table_fields t -> backup_entries_lba t + array_sectors t = sector_count device - 1 ->
  gpt_entries_valid (primary_entries w) (entry_count (info t)) (first_usable_lba (info t)) (last_usable_lba (info t)) = Some used ->
  mbr_is_protective (contents (disk w) 0) = true ->
  gpt_write_updated device w t = (true, w') -> gpt_load device w' = (r, w'') ->
  r = inl VFS_ERR_IO \/ r = inr (recounted t used) /\ primary_entries w'' = primary_entries w.
Proof. exact (update_round_trip device w t used w' r w''). Qed.

(** C40: An update that is interrupted loses the table, although the comment in
    [gpt_write_updated] has the old primary copy remain valid: once the new
    backup array is written, and until the primary header is, the loader
    rejects the disk (when the primary array is written too, unless the old
    and the new entries have the same checksum). *)
Theorem gpt_interrupted_update_unreadable {D} {io : BlockIo D} {laws : DiskLaws D} device (w : work D) t w1
    entries k d w2 t' w3 :
  buffers w -> gpt_load device w = (inr t, w1) ->
  Z.of_nat (length entries) = GPT_ENTRY_ARRAY_BYTES -> Forall is_u8 entries ->
  take (array_length t) entries <> take (array_length t) (primary_entries w1) ->
  (1 <= k <= 3)%nat \/ k = 4%nat /\
    crc32 entries (array_length t) None <> crc32 (primary_entries w1) (array_length t) None ->
  do_steps device (disk w1) (take k (update_steps device t entries)) = (true, d) ->
  buffers w2 -> disk w2 = d -> gpt_load device w2 <> (inr t', w3).
Proof. exact (interrupted_update device w t w1 entries k d w2 t' w3). Qed.

(** * A disk in memory *)

Definition ram : Type := Z -> list Z.
Definition sector (s : list Z) : list Z :=
  if decide (length s = 512%nat /\ Forall is_u8 s) then s else replicate 512 0.
Definition ram_contents (d : ram) (l : Z) : list Z := sector (d l).

#[export] Instance ram_io : BlockIo ram := {
  block_device_is_live _ := true;
  block_probe_read d lba n := (Some (mjoin (ram_contents d <$> seqZ lba n)), d);
  block_write d lba n buffer :=
    (true, fun l => if (lba <=? l) && (l <? lba + n) then sub buffer (Z.to_nat (512 * (l - lba))) 512 else d l);
  block_flush d := (true, d);
}.

Lemma sector_ok s : length (sector s) = 512%nat /\ Forall is_u8 (sector s).
Proof.
  unfold sector. destruct (decide _) as [|]; [done|]. split; [by rewrite length_replicate|]. by apply Forall_replicate.
Qed.

#[export] Instance ram_laws : DiskLaws ram.
Proof.
  refine {| contents := ram_contents |}.
  - intros d l. apply sector_ok.
  - intros d l. apply sector_ok.
  - intros d lba n r d'. cbn. by intros [= _ <-].
  - intros d lba n bytes d'. cbn. by intros [= <- _].
  - intros d lba n buffer ok d' l. cbn. intros [= _ <-] H. unfold ram_contents.
    destruct (Z.leb_spec lba l), (Z.ltb_spec l (lba + n)); cbn [andb]; done || lia.
  - intros d lba n buffer d' i. cbn. intros [= <-] L U Hi. unfold ram_contents.
    replace ((lba <=? lba + i) && (lba + i <? lba + n)) with true by lia.
    replace (lba + i - lba) with i by lia. unfold sector. rewrite decide_True; [done|].
    unfold sub. split; [rewrite length_take, length_drop; lia|]. by apply Forall_take, Forall_drop.
  - intros d ok d'. cbn. by intros [= _ <-].
Defined.

(** A disk of 8192 sectors with a table of four entries. *)
Definition demo_device : block_device := Device BLOCK_DEVICE_SATA 512 8192.
Definition demo_guid (x : Z) : list Z := replicate 16 x.
Definition demo_table : gpt_table_t :=
  Table (TableInfo GPT_TABLE_VALID 0 4 128 34 8100) 2 8190 1 (demo_guid 7).
Definition demo_entry (guid first last : Z) : list Z :=
  mangrove_data_type_guid ++ demo_guid guid ++ le_bytes 8 first ++ le_bytes 8 last ++ replicate 80 0.
Definition demo_entries (l : list (list Z)) : list Z :=
  mjoin l ++ replicate (Z.to_nat GPT_ENTRY_ARRAY_BYTES - length (mjoin l)) 0.
Definition one_partition : list Z := demo_entries [demo_entry 9 2048 4095].
Definition two_partitions : list Z := demo_entries [demo_entry 9 2048 4095; demo_entry 10 4096 6143].

Definition blank : work ram :=
  Work (fun l => if l =? 0 then protective_mbr demo_device else replicate 512 0) one_partition one_partition.
Definition written : work ram := snd (gpt_write_updated demo_device blank demo_table).

Lemma blank_buffers : buffers blank.
Proof. split; vm_compute; reflexivity. Qed.
Lemma demo_buffers d : buffers (Work (D := ram) d one_partition one_partition).
Proof. split; vm_compute; reflexivity. Qed.
Lemma written_buffers : buffers written.
Proof. split; vm_compute; reflexivity. Qed.

Lemma u8_check (l : list Z) : forallb (fun b => (0 <=? b) && (b <? 256)) l = true -> Forall is_u8 l.
Proof. intros H. apply Forall_forall. intros b Hb. rewrite forallb_forall in H. specialize (H b (proj1 (list_elem_of_In _ _) Hb)). unfold is_u8. lia. Qed.

Lemma demo_fields : table_fields demo_table.
Proof. split; cbn; try lia; try done. split; [done|]. split; [apply u8_check|]; by vm_compute. Qed.

Definition is_table (r : Z + gpt_table_t) : bool := match r with inr _ => true | inl _ => false end.

Lemma written_loads : exists t w', gpt_load demo_device written = (inr t, w').
Proof.
  assert (is_table (fst (gpt_load demo_device written)) = true) as H by (vm_compute; reflexivity).
  destruct (gpt_load demo_device written) as [[e|t] w']; [done|by exists t, w'].
Qed.

Lemma gpt_load_sound_witness :
  exists t w', gpt_load demo_device written = (inr t, w') /\ loaded demo_device written t w'.
Proof.
  destruct written_loads as (t & w' & E). exists t, w'. split; [exact E|].
  exact (gpt_load_sound demo_device written t w' written_buffers E).
Defined.

Lemma blank_bytes : Forall is_u8 (primary_entries blank).
Proof. apply u8_check. vm_compute. reflexivity. Qed.
Lemma blank_entries :
  gpt_entries_valid (primary_entries blank) (entry_count (info demo_table)) (first_usable_lba (info demo_table))
    (last_usable_lba (info demo_table)) = Some 1.
Proof. vm_compute. reflexivity. Qed.
Lemma blank_mbr : mbr_is_protective (contents (disk blank) 0) = true.
Proof. vm_compute. reflexivity. Qed.
Lemma blank_written : gpt_write_updated demo_device blank demo_table = (true, written).
Proof.
  assert (fst (gpt_write_updated demo_device blank demo_table) = true) as H by (vm_compute; reflexivity).
  unfold written. by destruct (gpt_write_updated demo_device blank demo_table) as [[|] w'].
Qed.

Lemma gpt_update_round_trip_witness :
  exists w'', gpt_load demo_device written = (inr (recounted demo_table 1), w'') /\ primary_entries w'' = one_partition.
Proof.
  destruct written_loads as (t & w'' & E). exists w''.
  destruct (gpt_update_round_trip demo_device blank demo_table 1 written (inr t) w'' blank_buffers blank_bytes
    eq_refl ltac:(unfold is_u64; cbn; lia) demo_fields eq_refl blank_entries blank_mbr blank_written E) as [H|[H P]].
  - discriminate H.
  - rewrite H in E. split; [exact E|exact P].
Defined.

Lemma two_partitions_bytes :
  Z.of_nat (length two_partitions) = GPT_ENTRY_ARRAY_BYTES /\ Forall is_u8 two_partitions /\
  take (array_length (recounted demo_table 1)) two_partitions <> take (array_length (recounted demo_table 1)) one_partition.
Proof. split; [by vm_compute|]. split; [apply u8_check; by vm_compute|]. by vm_compute. Qed.

Lemma first_step_done (d : ram) t entries :
  out_of_range demo_device (backup_entries_lba t) (array_sectors t) = false ->
  exists d', do_steps demo_device d (take 1 (update_steps demo_device t entries)) = (true, d').
Proof. intros H. cbn [take update_steps do_steps do_step]. unfold gpt_write. rewrite H. cbn. by eexists. Qed.

Lemma written_table : exists w1, gpt_load demo_device written = (inr (recounted demo_table 1), w1) /\ primary_entries w1 = one_partition.
Proof.
  destruct written_loads as (t & w1 & E). exists w1.
  destruct (update_round_trip demo_device blank demo_table 1 written (inr t) w1 blank_buffers blank_bytes
    eq_refl ltac:(unfold is_u64; cbn; lia) demo_fields eq_refl blank_entries blank_mbr blank_written E) as [H|[H P]];
    [discriminate H|]. rewrite H in E. split; [exact E|exact P].
Qed.

Lemma gpt_interrupted_update_unreadable_witness :
  exists w1 d, gpt_load demo_device written = (inr (recounted demo_table 1), w1) /\
    do_steps demo_device (disk w1) (take 1 (update_steps demo_device (recounted demo_table 1) two_partitions)) = (true, d) /\
    forall t' w3, gpt_load demo_device (Work d one_partition one_partition) <> (inr t', w3).
Proof.
  destruct written_table as (w1 & E & P).
  destruct (first_step_done (disk w1) (recounted demo_table 1) two_partitions eq_refl) as [d S].
  exists w1, d. split; [exact E|]. split; [exact S|]. intros t' w3.
  destruct two_partitions_bytes as (L & U & N). rewrite <- P in N.
  exact (gpt_interrupted_update_unreadable demo_device written (recounted demo_table 1) w1 two_partitions 1 d
    (Work d one_partition one_partition) t' w3 written_buffers E L U N (or_introl (conj (le_n 1) (le_S _ _ (le_S _ _ (le_n 1)))))
    S (demo_buffers d) eq_refl).
Defined.

End GptTheorems.
